(* ===== verification/_CoqProject ===== *)
-Q . S2P
Prelude.v
Words.v
ByteOrder.v
BlockBuffer.v
CoreHash.v
SHA256.v
Hash160.v
Merkle.v
Salsa20.v
GF256.v
WhirlpoolTables.v
Whirlpool.v
StreebogTables.v
Streebog.v
KuznechikTables.v
KuznechikLS.v
KuznechikInvLS.v
Kuznechik.v
Threefish.v
Blob.v
PowHash.v
Arith256.v
Chain.v
MedianTime.v
VersionBits.v
Pow.v
Growth.v
AddBlock.v
ValidationState.v
HeaderCheck.v
Serialize.v
Transaction.v
Script.v
Coins.v
Undo.v
TxCheck.v
CheckBlock.v
Subsidy.v
MasternodePayments.v
BlockPayees.v
Interpreter.v
ScriptSafety.v
ScriptFlags.v
ScriptPayments.v
SignatureHash.v
TimeLocks.v
SigCache.v
ConnectTx.v
ConnectBlock.v
SpendChecks.v
ChainSelect.v
ActivateChain.v
IndexKept.v
NodeRun.v
