(* ===== verification/Prelude.v ===== *)
(** * Binarium: a verification library for the consensus code

    Binarium is a full node descended from Bitcoin and Dash.  This library models the code that decides
    which blocks are part of the chain, and proves what it computes: the proof-of-work hash with its
    cryptographic parts, the index of headers, transactions, the script interpreter and the hashes that
    signatures sign, the set of unspent coins, the checks of blocks and the payments to masternodes, up to connecting a block and choosing the
    chain to follow.  File and function names below are relative to src/src/ of the repository.

    ** How the model is made

    Every function of the source is a Rocq function of the same name on the data of the source:
    fixed-width integers are [Z] with the wrap-around written out (Words.v: [u32], [s64], ...), C arrays
    are lists, objects reached through pointers live in a store (a list, a pointer is a position, NULL is
    [None]), [std::map] is [gmap] and [std::set] a [gset] or a sorted list.  Failed assertions, reads
    through bad pointers and loops that would not end are [None]; C++ exceptions are [inl e] of the type
    [throws]; [run] has both (this file).  A theorem that a function returns [Some (inr r)] therefore says that
    none of this happens.  Loops are structural where the source walks over a list, and have fuel otherwise;
    the fuel is computed from the arguments (the height of a block for walks over predecessors, the number
    of candidates for the choice of a chain, the length of a script, bits of a divisor) and the
    specifications prove it sufficient by proving the result defined.

    Floating-point numbers (KimotoGravityWell, GetBlockSubsidy) are binary64 numbers of Corelib's
    SpecFloat; [pow] of the C library is a parameter, and the theorems hold whatever it computes.

    ** The files

    Foundations: this file (notation, exceptions, arrays, counted loops [for_up], generic lemmas), Words.v
    (machine words, byte order of integers), ByteOrder.v (crypto/hashing/whirlpool/byte_order.c),
    BlockBuffer.v (the interface [StreamHash] of hash functions that are fed in pieces), GF256.v.

    Hash functions and ciphers of the block hash: CoreHash.v and SHA256.v (crypto/sha256.cpp, the hashers of
    hash.h), Hash160.v (crypto/sha1.cpp, crypto/ripemd160.cpp, [CHash160]), Whirlpool.v, Streebog.v, Salsa20.v, Kuznechik.v, Threefish.v with their tables
    (WhirlpoolTables.v, StreebogTables.v, KuznechikTables.v, KuznechikLS.v, KuznechikInvLS.v).  Each is proved to
    compute the function of its standard, ciphers to decrypt what they encrypt, streaming interfaces to
    depend on the whole message only.  Blob.v (uint256.h) and PowHash.v (hash.h, primitives/block.cpp) put
    them together: [CBlockHeader::GetHash] on a memory of objects with checked accesses.

    Headers: Arith256.v (arith_uint256), Chain.v (chain.h: entries, skip list, active chain), MedianTime.v,
    Pow.v (pow.cpp), VersionBits.v (versionbits.cpp), AddBlock.v ([AddToBlockIndex]), Growth.v (queries do not depend
    on later entries), ValidationState.v, HeaderCheck.v ([AcceptBlockHeader], [ProcessNewBlockHeaders]).  The
    invariant [index_ok] of the index is proved of every index that arises from accepted headers, and is what
    the later files assume.

    Transactions: Serialize.v (serialize.h, streams.h, against the interface [Stream]), Transaction.v
    (primitives/transaction), Script.v (script/script), Merkle.v (consensus/merkle.cpp).

    Scripts (script/interpreter.cpp): Interpreter.v has [EvalScript] and [VerifyScript] with every operation, as
    computations [eval] that end in a [ScriptError] or in a value.  [EvalScript] is defined
    by recursion on a fuel that is the length of the script, enough because every instruction takes a byte.  The
    signature checker is a record of functions, as the class [BaseSignatureChecker] is.  ScriptSafety.v: no script
    breaks a limit of the stacks, and the bytes that are read unchecked ([byte_at]) are there.  ScriptFlags.v: what more flags accept, fewer accept.  ScriptPayments.v:
    the standard payments, on symbolic keys and signatures.  SignatureHash.v ([SignatureHash],
    [CTransactionSignatureSerializer], [TransactionSignatureChecker]), TimeLocks.v (outputs with a time lock, down to
    [IsFinalTx] and [SequenceLocks]), SigCache.v (script/sigcache.cpp), SpendChecks.v (script_error.cpp and
    [CScriptCheck] of validation.cpp, which closes the parameter for scripts of [ConnectBlock]).

    Coins: Coins.v (coins.cpp: the class [CoinsView] of views with its laws [CoinsViewSpec], and the cache, itself
    a view, which is proved to refine a plain map), Undo.v ([UpdateCoins], [ApplyTxInUndo], [DisconnectBlock]).

    Blocks: TxCheck.v ([CheckTransaction], lock times, [CheckTxInputs]), CheckBlock.v ([CheckBlock],
    [ContextualCheckBlock]), Subsidy.v ([GetBlockSubsidy], superblocks, [IsBlockValueValid]), MasternodePayments.v
    (masternode-payments.cpp: votes as a state machine of messages), BlockPayees.v ([IsBlockPayeeValid],
    [FillBlockPayments]), ConnectTx.v and ConnectBlock.v ([ConnectBlock] with all its checks on any view).

    Choosing the chain: ChainSelect.v (the candidates in the order of [CBlockIndexWorkComparator],
    [FindMostWorkChain], [PruneBlockIndexCandidates], the marks of invalid blocks, [ReceivedBlockTransactions]),
    ActivateChain.v ([DisconnectTip], [ConnectTip], [ActivateBestChainStep], [ActivateBestChain]; what a block does to
    the coins is asked for through the class [TipOps] with its laws [TipOpsSpec]), IndexKept.v (this does
    not disturb the header index), NodeRun.v (runs: headers are added, blocks arrive, the best chain is
    activated, in any order).  The fuel of [ActivateBestChain] is the number of blocks that have not failed, plus
    one, times the greatest height plus two: every turn finds an invalid block or comes closer to the best one.

    ** What is shown

    Functional correctness and refinement of standards: the claims on Salsa20, Whirlpool, Streebog, Kuznechik,
    Threefish, SHA-256, [GetHash], Merkle roots, difficulty rules, version bits, ancestors.  Decisions: the claims
    [..._correct] of the checks state acceptance as an equivalence with a predicate that does not mention the
    code ([acceptable], [tx_valid], [contents_valid], [context_valid], [connects]), with the state that is left in both
    cases.  Invariants: [accepted_headers_valid], [AddToBlockIndex_invariant], [interpreter_safe],
    [money_supply], [node_follows_best_chain] (the tip that a node ends with is the best block of those it has,
    in whatever order they came).  Authorisation: [spending_authorised] follows a connected block down to the
    signatures of its inputs, [time_locks_enforced] down to their lock times; [SignatureHash_correct] says what
    a signature signs, [cached_answers] that remembering good signatures changes no answer.  Termination: the queries of the index, [ActivateBestChain_correct].
    Round trips: serialization, numbers in scripts, ciphers, connecting and disconnecting blocks.  Composition: [FillBlockPayments_accepted] joins the miner's payments with
    the checks of other nodes, and finds that they agree but for superblocks beyond the limit;
    [ConnectBlock_correct] is proved from the specifications of nine files.

    Theorems have hypotheses where the code relies on something: well-formed indexes (proved for reachable ones),
    the laws of the view below a cache, sensible network parameters ([params_ok], [network_ok]), the network's
    genesis block having no parent, sums that do not overflow where the code cannot exclude it (for the coins after
    connected blocks, [chain_sound] proves it), transaction ids without collisions in a block.  Every such theorem
    has a witness, a closed lemma that applies it to concrete data.

    ** What is not modelled

    The hash functions of sphlib, OpenSSL's Camellia and libsecp256k1 ([CPubKey::Verify], [CPubKey::CheckLowS]) are
    parameters, being third-party code or calls of it.  ConnectTx.v and ConnectBlock.v take the verdict on a script as
    a parameter, and SpendChecks.v puts the interpreter in its place.  SHA-512 and HMAC serve the wallet only.  [CheckBlockIndex] and the benchmarks are debug code.
    Block files, undo files, LevelDB and flushing are disk access: data comes and goes as values; [AcceptBlock] and
    [ProcessNewBlock] join the modelled checks with it.  [InvalidateBlock] and [ReconsiderBlock] serve the user's commands
    only.  The optional address, spent, timestamp and transaction indexes are off by default.  The memory pool, the network
    (net.cpp, net_processing.cpp), the lists of masternodes, governance, sporks, InstantSend and PrivateSend
    enter as records of what is asked of them ([lock_view], [node_view], [mn_env]); the wallet, RPC, GUI and
    start-up code only call what is modelled.  Notifications and log output are left out throughout. *)

From Stdlib Require Export ZArith Lia Bool.
From stdpp Require Export base list numbers.
From stdpp Require Import tactics.

#[global] Open Scope Z_scope.

(** ** Notation for C-like bit arithmetic *)

Declare Scope word_scope.
Delimit Scope word_scope with W.
Infix "^^" := Z.lxor (at level 42, left associativity) : word_scope.
Infix ".|" := Z.lor (at level 44, left associativity) : word_scope.
Infix ".&" := Z.land (at level 40, left associativity) : word_scope.
Infix "<<" := Z.shiftl (at level 38, left associativity) : word_scope.
Infix ">>" := Z.shiftr (at level 38, left associativity) : word_scope.
#[global] Open Scope word_scope.

(** ** Arrays

    A C array is a list; [a .[ i ]] reads element [i].  The read is total: every
    use below is within bounds, which the length invariants of the components
    establish. *)

Notation "a .[ i ]" := (nth i a 0) (at level 1, i at level 200, left associativity,
  format "a .[ i ]") : word_scope.

(** [memcpy] out of, and into, the middle of a byte array. *)
Definition mem_read (m : list Z) (off len : nat) : list Z := take len (drop off m).
Definition mem_write (m : list Z) (off : nat) (src : list Z) : list Z :=
  take off m ++ src ++ drop (off + length src) m.

(** The element-wise exclusive or of two arrays. *)
Definition xor_list : list Z -> list Z -> list Z := zip_with Z.lxor.

(** ** Exceptions

    What a C++ function may throw instead of returning, and the way the code that follows a
    call is skipped then.  A failed assertion ends the program. *)
Inductive exn := assertion_failed | logic_error | runtime_error | ios_failure.
Definition throws (A : Type) : Type := exn + A.

#[export] Instance throws_ret : MRet throws := fun A a => inr a.
#[export] Instance throws_bind : MBind throws := fun A B k m =>
  match m with inl e => inl e | inr a => k a end.

(** A computation that may throw, or end up outside of what the code defines ([None]: a loop
    that does not end, an invalid pointer). *)
Definition run (A : Type) : Type := option (throws A).
#[export] Instance run_ret : MRet run := fun A a => Some (inr a).
#[export] Instance run_bind : MBind run := fun A B k m =>
  match m with
  | None => None
  | Some (inl e) => Some (inl e)
  | Some (inr a) => k a
  end.
Definition of_option {A} (m : option A) : run A := match m with None => None | Some a => Some (inr a) end.
Definition of_throws {A} (m : throws A) : run A := Some m.

(** ** Loops

    [for_up n f s] is [for (i = 0; i < n; i++) s = f (i, s)]. *)
Definition for_up {S} (n : nat) (f : nat -> S -> S) (s : S) : S :=
  fold_left (fun s i => f i s) (seq 0 n) s.

(** A test of a property at every index below [n], used to verify tables. *)
Definition all_below (n : nat) (p : nat -> bool) : bool := forallb p (seq 0 n).

(** ** Automation *)

(** [cases_below H]: split [H : i < k] (with [k] a numeral) into the [k] cases. *)
Ltac cases_below i H :=
  repeat (destruct i as [|i]; [try clear H | apply Nat.succ_lt_mono in H]);
  [ .. | exfalso; apply Nat.nlt_0_r in H; exact H ].

Create HintDb words.
Create Rewrite HintDb lens.

(** ** List lemmas *)

Lemma length_mem_write m off src :
  (off + length src <= length m)%nat -> length (mem_write m off src) = length m.
Proof.
  intros H. unfold mem_write.
  rewrite !length_app, length_take, length_drop. lia.
Qed.

Lemma length_mem_read m off len :
  (off + len <= length m)%nat -> length (mem_read m off len) = len.
Proof. intros H. unfold mem_read. rewrite length_take, length_drop. lia. Qed.

Lemma mem_read_all m : mem_read m 0 (length m) = m.
Proof. unfold mem_read. now rewrite drop_0, firstn_all. Qed.

Lemma mem_read_write m off src :
  (off <= length m)%nat -> mem_read (mem_write m off src) off (length src) = src.
Proof.
  intros H. unfold mem_read, mem_write.
  rewrite drop_app_length' by (rewrite length_take; lia).
  now rewrite take_app_length.
Qed.

Lemma take_mem_write m off src :
  (off <= length m)%nat -> take (off + length src) (mem_write m off src) = take off m ++ src.
Proof.
  intros H. unfold mem_write. rewrite app_assoc. apply take_app_length'.
  rewrite length_app, length_take. lia.
Qed.

Lemma mem_write_full m off src :
  (off <= length m)%nat -> length m = (off + length src)%nat ->
  mem_write m off src = take off m ++ src.
Proof.
  intros H E. unfold mem_write. rewrite drop_ge by lia. now rewrite app_nil_r.
Qed.

Lemma mem_write_nil m off : (off <= length m)%nat -> mem_write m off [] = m.
Proof.
  intros H. unfold mem_write. simpl. rewrite Nat.add_0_r. apply take_drop.
Qed.

Lemma mem_write_app m off a b :
  (off + length a + length b <= length m)%nat ->
  mem_write (mem_write m off a) (off + length a) b = mem_write m off (a ++ b).
Proof.
  intros H. unfold mem_write.
  assert (Hl : length (take off m ++ a) = (off + length a)%nat)
    by (rewrite length_app, length_take; lia).
  rewrite (app_assoc (take off m) a), take_app_length' by now rewrite Hl.
  rewrite drop_app_ge by (rewrite Hl; lia).
  rewrite Hl, drop_drop, length_app, <- !app_assoc. do 4 f_equal. lia.
Qed.

Lemma mem_write_cons m i x a :
  (S i + length a <= length m)%nat ->
  <[i := x]> (mem_write m (S i) a) = mem_write m i (x :: a).
Proof.
  intros H. assert (Hl : length (mem_write m (S i) a) = length m)
    by (apply length_mem_write; lia).
  rewrite insert_take_drop by lia. unfold mem_write.
  rewrite take_app_le, take_take, Nat.min_l by (rewrite ?length_take; lia).
  f_equal. simpl. f_equal.
  rewrite drop_app_length' by (rewrite length_take; lia). do 2 f_equal. lia.
Qed.

Lemma mem_write_write m off a b :
  length a = length b -> (off + length a <= length m)%nat ->
  mem_write (mem_write m off a) off b = mem_write m off b.
Proof.
  intros H Hm. unfold mem_write at 1 3. f_equal.
  - unfold mem_write. rewrite take_app_le, take_take by (rewrite length_take; lia). f_equal. lia.
  - f_equal. unfold mem_write. rewrite app_assoc, drop_app_length'; [now rewrite H|].
    rewrite length_app, length_take. lia.
Qed.

Lemma mem_read_write_other m off a off' n :
  (off + length a <= length m)%nat -> (off' + n <= off \/ off + length a <= off')%nat ->
  mem_read (mem_write m off a) off' n = mem_read m off' n.
Proof.
  intros Hm H. unfold mem_read, mem_write. destruct H as [H|H].
  - rewrite drop_app_le by (rewrite length_take; lia).
    rewrite take_app_le by (rewrite length_drop, length_take; lia).
    rewrite skipn_firstn_comm, take_take. f_equal. lia.
  - rewrite app_assoc, drop_app_ge by (rewrite length_app, length_take; lia).
    rewrite drop_drop, length_app, length_take. do 2 f_equal. lia.
Qed.

Lemma mem_read_add m off a b :
  mem_read m off (a + b) = mem_read m off a ++ mem_read m (off + a) b.
Proof.
  unfold mem_read. now rewrite <- take_take_drop, drop_drop.
Qed.

Lemma mem_write_read m off n : (off + n <= length m)%nat ->
  mem_write m off (mem_read m off n) = m.
Proof.
  intros H. unfold mem_write. rewrite length_mem_read by done. unfold mem_read.
  rewrite <- drop_drop. rewrite (take_drop n). apply take_drop.
Qed.

Lemma mem_read_write_len m off a n :
  (off <= length m)%nat -> length a = n -> mem_read (mem_write m off a) off n = a.
Proof.
  intros H <-. unfold mem_read, mem_write.
  rewrite drop_app_length' by (rewrite length_take; lia). apply take_app_length.
Qed.

Lemma Forall_mem_read {P} m off len : Forall P m -> Forall P (mem_read m off len).
Proof. intros H. unfold mem_read. auto using Forall_take, Forall_drop. Qed.

Lemma Forall_mem_write {P : Z -> Prop} m off src :
  Forall P m -> Forall P src -> Forall P (mem_write m off src).
Proof.
  intros Hm Hs. unfold mem_write.
  rewrite !Forall_app; auto using Forall_take, Forall_drop.
Qed.

Lemma nth_lookup_def {A} (l : list A) i d : nth i l d = default d (l !! i).
Proof. revert i. induction l as [|x l IH]; intros [|i]; simpl; auto. Qed.

Lemma nth_ext_eq {A} (l k : list A) d :
  length l = length k ->
  (forall i, (i < length l)%nat -> nth i l d = nth i k d) -> l = k.
Proof. intros Hl H. now apply (nth_ext l k d d). Qed.

Lemma Forall_nth_Z (P : Z -> Prop) l i : Forall P l -> P 0 -> P (l .[ i ]).
Proof.
  intros Hl H0. revert i. induction Hl as [|x l Hx Hl IH]; intros [|i]; simpl; auto.
Qed.

Lemma Forall_nth_lt (P : Z -> Prop) l : Forall P l -> forall i, (i < length l)%nat -> P (l .[ i ]).
Proof.
  induction 1 as [|x l Hx Hl IH]; intros [|i] Hi; simpl in *; try lia; auto. apply IH. lia.
Qed.

Lemma nth_zeros n i : (replicate n 0).[i] = 0.
Proof. revert i. induction n as [|n IH]; intros [|i]; simpl; auto. Qed.

Lemma nth_take_lt {A} (l : list A) n i d : (i < n)%nat -> nth i (take n l) d = nth i l d.
Proof.
  intros H. rewrite !nth_lookup_def, lookup_take. now rewrite decide_True.
Qed.

Lemma nth_drop_add {A} (l : list A) n i d : nth i (drop n l) d = nth (n + i) l d.
Proof. now rewrite !nth_lookup_def, lookup_drop. Qed.

Lemma nth_mem_read m off len i :
  (i < len)%nat -> (mem_read m off len).[i] = m.[off + i].
Proof. intros H. unfold mem_read. now rewrite nth_take_lt, nth_drop_add. Qed.

Lemma length_xor_list a b : length (xor_list a b) = Nat.min (length a) (length b).
Proof. apply length_zip_with. Qed.

Lemma nth_xor_list a b i :
  length a = length b -> (xor_list a b).[i] = a.[i] ^^ b.[i].
Proof.
  revert b i. induction a as [|x a IH]; intros [|y b] [|i] H; simpl in *; auto;
    try discriminate.
Qed.

Lemma xor_list_app a1 a2 b1 b2 :
  length a1 = length b1 ->
  xor_list (a1 ++ a2) (b1 ++ b2) = xor_list a1 b1 ++ xor_list a2 b2.
Proof. intros H. now apply zip_with_app. Qed.

Lemma xor_list_cancel a k :
  length a = length k -> xor_list (xor_list a k) k = a.
Proof.
  revert k. induction a as [|x a IH]; intros [|y k] H; try discriminate; [done|].
  simpl. rewrite Z.lxor_assoc, Z.lxor_nilpotent, Z.lxor_0_r. f_equal.
  apply IH. simpl in H. lia.
Qed.

Lemma xor_list_comm a b : xor_list a b = xor_list b a.
Proof.
  revert b. induction a as [|x a IH]; intros [|y b]; simpl; auto.
  now rewrite Z.lxor_comm, IH.
Qed.

Lemma rev_xor_list a b :
  length a = length b -> rev (xor_list a b) = xor_list (rev a) (rev b).
Proof.
  revert b. induction a as [|x a IH]; intros [|y b] H; try discriminate; [done|].
  simpl in *. unfold xor_list in *. simpl. rewrite IH by lia.
  symmetry. apply (xor_list_app (rev a) [x] (rev b) [y]). rewrite !length_rev. lia.
Qed.

Lemma Forall_xor_list (P : Z -> Prop) a b :
  (forall x y, P x -> P y -> P (x ^^ y)) -> Forall P a -> Forall P b -> Forall P (xor_list a b).
Proof.
  intros HP Ha. revert b. induction Ha as [|x a Hx Ha IH]; intros b Hb; [constructor|].
  destruct Hb as [|y b Hy Hb]; constructor; [now apply HP|now apply IH].
Qed.

Lemma take_xor_list n a b : take n (xor_list a b) = xor_list (take n a) (take n b).
Proof. revert a b. induction n; intros [|x a] [|y b]; simpl; auto. now rewrite IHn. Qed.

Lemma drop_xor_list n a b : drop n (xor_list a b) = xor_list (drop n a) (drop n b).
Proof.
  revert a b. induction n; intros [|x a] [|y b]; simpl; auto.
  - now destruct (drop n a).
Qed.

Lemma fmap_seq_S {A} (f : nat -> A) n :
  f <$> seq 0 (S n) = f 0%nat :: ((fun i => f (S i)) <$> seq 0 n).
Proof. simpl. f_equal. rewrite <- fmap_S_seq. now rewrite <- list_fmap_compose. Qed.

Lemma join_fmap_cons {A B} (f : A -> list B) x l :
  mjoin (f <$> x :: l) = f x ++ mjoin (f <$> l).
Proof. reflexivity. Qed.

Lemma nth_fmap_lt {A B} (f : A -> B) l i d d' :
  (i < length l)%nat -> nth i (f <$> l) d = f (nth i l d').
Proof.
  revert i. induction l as [|x l IH]; intros [|i] H; simpl in *; try lia; [done|].
  apply IH. lia.
Qed.

Lemma nth_fmap_seq {A} (f : nat -> A) n i d :
  (i < n)%nat -> nth i (f <$> seq 0 n) d = f i.
Proof.
  intros H. rewrite (nth_fmap_lt f _ i d 0%nat) by now rewrite length_seq.
  now rewrite seq_nth.
Qed.

Lemma length_fmap_seq {A} (f : nat -> A) n : length (f <$> seq 0 n) = n.
Proof. now rewrite length_fmap, length_seq. Qed.
#[export] Hint Rewrite @length_fmap_seq @length_fmap @length_seq @length_app : lens.

(** A list is the enumeration of its elements. *)
Lemma fmap_nth_seq {A} (l : list A) d : (fun i => nth i l d) <$> seq 0 (length l) = l.
Proof.
  induction l as [|x l IH]; [done|]. cbn [length]. rewrite fmap_seq_S. simpl.
  f_equal. apply IH.
Qed.

Lemma fmap_seq_ext {A} (f g : nat -> A) n :
  (forall i, (i < n)%nat -> f i = g i) -> f <$> seq 0 n = g <$> seq 0 n.
Proof.
  intros H. apply list_fmap_ext. intros i x Hx. apply lookup_seq in Hx as [-> Hi].
  now apply H.
Qed.

Lemma zip_with_fmap_same {A B C D} (h : B -> C -> D) (f : A -> B) (g : A -> C) l :
  zip_with h (f <$> l) (g <$> l) = (fun x => h (f x) (g x)) <$> l.
Proof. induction l as [|x l IH]; [done|]. simpl. f_equal. exact IH. Qed.

Lemma drop_nth l i : (i < length l)%nat -> drop i l = l.[i] :: drop (S i) l.
Proof.
  intros H. apply drop_S. destruct (lookup_lt_is_Some_2 l i H) as [y Hy].
  now rewrite nth_lookup_def, Hy.
Qed.

Lemma drop_insert_nth (l : list Z) i x :
  (i < length l)%nat -> drop i (<[i := x]> l) = x :: drop (S i) l.
Proof.
  intros H. rewrite drop_nth by now rewrite length_insert. f_equal.
  - now rewrite nth_lookup_def, list_lookup_insert_eq.
  - apply drop_insert_lt. lia.
Qed.

(** ** Loop lemmas *)

Lemma for_up_0 {S} (f : nat -> S -> S) s : for_up 0 f s = s.
Proof. reflexivity. Qed.

Lemma for_up_S {S} n (f : nat -> S -> S) s : for_up (Datatypes.S n) f s = f n (for_up n f s).
Proof. unfold for_up. now rewrite seq_S, fold_left_app. Qed.

Lemma for_up_inv {S} (P : nat -> S -> Prop) n (f : nat -> S -> S) s :
  P 0%nat s -> (forall i s, (i < n)%nat -> P i s -> P (Datatypes.S i) (f i s)) ->
  P n (for_up n f s).
Proof.
  intros H0 HS. induction n as [|n IH]; [done|].
  rewrite for_up_S. apply HS; [lia|]. apply IH. intros; apply HS; [lia|done].
Qed.

Lemma for_up_ext {S} n (f g : nat -> S -> S) s :
  (forall i s, (i < n)%nat -> f i s = g i s) -> for_up n f s = for_up n g s.
Proof.
  induction n as [|n IH]; intros H; [done|].
  rewrite !for_up_S, IH; [apply H; lia|]. intros; apply H; lia.
Qed.

Lemma for_up_ext_inv {S} (P : S -> Prop) n (f g : nat -> S -> S) s :
  P s -> (forall i s, (i < n)%nat -> P s -> f i s = g i s /\ P (f i s)) ->
  for_up n f s = for_up n g s /\ P (for_up n f s).
Proof.
  intros H0 H. induction n as [|n IH]; [done|]. destruct IH as [E HP].
  { intros; apply H; [lia|done]. }
  rewrite !for_up_S, <- E. split; apply (H n); lia || done.
Qed.

Lemma all_below_spec n p : all_below n p = true -> forall i, (i < n)%nat -> p i = true.
Proof.
  unfold all_below. intros H i Hi.
  rewrite forallb_forall in H. apply H, in_seq. lia.
Qed.

(** Loops that accumulate an exclusive or. *)
Lemma for_up_lxor n (f : nat -> Z) v :
  for_up n (fun k v => v ^^ f k) v = v ^^ for_up n (fun k v => v ^^ f k) 0.
Proof.
  induction n as [|n IH]; [simpl; now rewrite Z.lxor_0_r|].
  rewrite !for_up_S, IH. apply Z.lxor_assoc.
Qed.

Lemma for_up_lxor_add n (f g : nat -> Z) :
  for_up n (fun k v => v ^^ (f k ^^ g k)) 0 =
  for_up n (fun k v => v ^^ f k) 0 ^^ for_up n (fun k v => v ^^ g k) 0.
Proof.
  induction n as [|n IH]; [done|]. rewrite !for_up_S, IH.
  rewrite !Z.lxor_assoc. f_equal. rewrite <- !Z.lxor_assoc. f_equal. apply Z.lxor_comm.
Qed.

(** Loops over arrays: storing successive elements, mapping in place, and rewriting the
    rows of a matrix in place. *)
Lemma store_up m off v c : (off + c <= length m)%nat ->
  for_up c (fun k to => <[(off + k)%nat := v k]> to) m = mem_write m off (v <$> seq 0 c).
Proof.
  intros Hc. induction c as [|c IH]; [symmetry; apply (mem_write_nil m); lia|].
  rewrite for_up_S, IH, seq_S, fmap_app by lia.
  set (l := v <$> seq 0 c). assert (HL : length l = c) by apply length_fmap_seq.
  change (v <$> [(0 + c)%nat]) with [v c].
  rewrite <- (mem_write_app m off l [v c]) by (rewrite HL; simpl; lia).
  assert (HM : length (mem_write m off l) = length m) by (apply length_mem_write; lia).
  rewrite HL, insert_take_drop by lia. unfold mem_write at 3. simpl. do 3 f_equal. lia.
Qed.

Lemma for_up_map f l :
  for_up (length l) (fun i l => <[i := f l.[i]]> l) l = f <$> l.
Proof.
  assert (H : forall n, (n <= length l)%nat ->
    for_up n (fun i l => <[i := f l.[i]]> l) l = (f <$> take n l) ++ drop n l).
  { induction n as [|n IH]; intros Hn; [now rewrite drop_0|].
    rewrite for_up_S, IH by lia. set (x := l.[n]).
    assert (Hx : l !! n = Some x).
    { unfold x. destruct (lookup_lt_is_Some_2 l n) as [y Hy]; [lia|].
      now rewrite nth_lookup_def, Hy. }
    assert (Hlen : length (f <$> take n l) = n) by (rewrite length_fmap, length_take; lia).
    rewrite (drop_S l x n Hx), (take_S_r l n x Hx), fmap_app, <- app_assoc.
    rewrite <- (Nat.add_0_r n) at 1. rewrite <- Hlen at 1. rewrite insert_app_r.
    rewrite app_nth2, Hlen, Nat.sub_diag by lia. reflexivity. }
  rewrite H by lia. rewrite drop_all, firstn_all. apply app_nil_r.
Qed.

Lemma length_mjoin_rows {A} (f : nat -> list A) B n :
  (forall i, (i < n)%nat -> length (f i) = B) -> length (mjoin (f <$> seq 0 n)) = (n * B)%nat.
Proof.
  induction n as [|n IH]; intros H; [done|].
  rewrite seq_S, fmap_app, join_app, length_app, IH by (intros; apply H; lia).
  simpl. rewrite app_nil_r, H; lia.
Qed.

Lemma for_up_rows n B (f : nat -> list Z -> list Z) s :
  (n * B <= length s)%nat -> (forall i r, length r = B -> length (f i r) = B) ->
  for_up n (fun i s => mem_write s (i * B) (f i (mem_read s (i * B) B))) s =
  mjoin ((fun i => f i (mem_read s (i * B) B)) <$> seq 0 n) ++ drop (n * B) s.
Proof.
  intros Hs Hf. induction n as [|n IH]; [now rewrite drop_0|].
  rewrite for_up_S, IH by lia. set (X := mjoin _).
  assert (HX : length X = (n * B)%nat).
  { apply length_mjoin_rows. intros i Hi. apply Hf, length_mem_read. nia. }
  set (r := mem_read s (n * B) B).
  assert (Hr : mem_read (X ++ drop (n * B) s) (n * B) B = r).
  { unfold mem_read at 1. now rewrite drop_app_length'. }
  assert (Hrl : length (f n r) = B) by (apply Hf, length_mem_read; nia).
  rewrite Hr, seq_S, fmap_app, join_app. fold X. simpl. rewrite app_nil_r, <- app_assoc.
  unfold mem_write. rewrite take_app_length', Hrl by done. fold r. do 2 f_equal.
  rewrite drop_app_ge, HX, drop_drop by lia. f_equal. lia.
Qed.
