(* ===== verification/Words.v ===== *)
(** * Machine words

    A [w]-bit word is a [Z] in [0, 2^w); the operations that can leave the range
    are followed by a mask, as in the C source. *)

From S2P Require Import Prelude.

Definition in_word (w x : Z) : Prop := 0 <= x < 2 ^ w.
Definition wrap (w x : Z) : Z := x .& Z.ones w.
Definition rotl (w x n : Z) : Z := wrap w (x << n) .| (x >> (w - n)).
Definition rotr (w x n : Z) : Z := (x >> n) .| wrap w (x << (w - n)).

(** Casts to the C unsigned types. *)
Definition u8 (x : Z) : Z := x .& 0xFF.
Definition u32 (x : Z) : Z := x .& 0xFFFFFFFF.
Definition u64 (x : Z) : Z := x .& 0xFFFFFFFFFFFFFFFF.

(** Conversions to the signed types [int32_t] and [int64_t]. *)
Definition s32 (x : Z) : Z := let y := u32 x in if y <? 2 ^ 31 then y else y - 2 ^ 32.
Definition s64 (x : Z) : Z := let y := u64 x in if y <? 2 ^ 63 then y else y - 2 ^ 64.

(** Little- and big-endian byte strings of a number. *)
Fixpoint le_split (n : nat) (x : Z) : list Z :=
  match n with O => [] | S n => u8 x :: le_split n (x >> 8) end.
Fixpoint le_combine (l : list Z) : Z :=
  match l with [] => 0 | b :: l => b .| (le_combine l << 8) end.
Definition be_split (n : nat) (x : Z) : list Z := rev (le_split n x).
Definition be_combine (l : list Z) : Z := le_combine (rev l).

(** Loads and stores of a word in a byte array on a little-endian host. *)
Definition load64_le (m : list Z) (off : nat) : Z := le_combine (mem_read m off 8).
Definition bswap64 (x : Z) : Z := be_combine (le_split 8 x).

(** An array of 64-bit words seen as bytes, and back. *)
Definition words_to_bytes (ws : list Z) : list Z := mjoin (le_split 8 <$> ws).
Definition bytes_to_words (n : nat) (bs : list Z) : list Z :=
  (fun i => load64_le bs (8 * i)) <$> seq 0 n.

Abbreviation is_byte := (in_word 8).
Abbreviation bytes := (Forall (in_word 8)).
Abbreviation words w := (Forall (in_word w)).

(** Ranges are decidable; [by_eval] proves a decidable fact of closed terms. *)
#[export] Instance in_word_dec w x : Decision (in_word w x).
Proof. unfold in_word. apply _. Defined.

Ltac by_eval := apply (bool_decide_unpack _); vm_compute; exact I.

(** ** Bit-level reasoning *)

Lemma testbit_high w x i : 0 <= w -> in_word w x -> w <= i -> Z.testbit x i = false.
Proof.
  intros Hw Hx Hi. rewrite <- (Z.mod_small x (2 ^ w)) by done.
  apply Z.mod_pow2_bits_high. lia.
Qed.

Lemma in_word_bits w x :
  0 <= w -> 0 <= x -> (forall i, w <= i -> Z.testbit x i = false) -> in_word w x.
Proof.
  intros Hw Hx H. split; [done|].
  assert (E : x = x mod 2 ^ w).
  { apply Z.bits_inj'. intros i Hi. destruct (Z.lt_ge_cases i w).
    - now rewrite Z.mod_pow2_bits_low.
    - rewrite Z.mod_pow2_bits_high by lia. now apply H. }
  rewrite E. apply Z.mod_pos_bound. lia.
Qed.

Lemma wrap_mod w x : 0 <= w -> wrap w x = x mod 2 ^ w.
Proof. apply Z.land_ones. Qed.

Lemma wrap_bits w x i : 0 <= w ->
  Z.testbit (wrap w x) i = (i <? w) && Z.testbit x i.
Proof.
  intros Hw. unfold wrap. destruct (Z.lt_ge_cases i 0) as [Hi|Hi].
  - rewrite !Z.testbit_neg_r by lia. now rewrite andb_false_r.
  - rewrite Z.land_spec, Z.testbit_ones_nonneg by lia. apply andb_comm.
Qed.

Lemma u8_wrap x : u8 x = wrap 8 x. Proof. reflexivity. Qed.
Lemma u32_wrap x : u32 x = wrap 32 x. Proof. reflexivity. Qed.
Lemma u64_wrap x : u64 x = wrap 64 x. Proof. reflexivity. Qed.

(** [bitwise]: extensionality on bits; the positions are split at every
    comparison that the bit-level equations leave. *)
Lemma shiftl_bits x n i : Z.testbit (x << n) i = (0 <=? i) && Z.testbit x (i - n).
Proof.
  destruct (Z.leb_spec 0 i); [now apply Z.shiftl_spec|]. now apply Z.testbit_neg_r.
Qed.
Lemma shiftr_bits x n i : Z.testbit (x >> n) i = (0 <=? i) && Z.testbit x (i + n).
Proof.
  destruct (Z.leb_spec 0 i); [now apply Z.shiftr_spec|]. now apply Z.testbit_neg_r.
Qed.

Create Rewrite HintDb bits.
#[export] Hint Rewrite Z.land_spec Z.lor_spec Z.lxor_spec Z.bits_0 shiftl_bits shiftr_bits
  : bits.
#[export] Hint Rewrite wrap_bits using lia : bits.

Ltac bit_kill :=
  repeat match goal with
  | H : in_word ?w ?x |- context [Z.testbit ?x ?i] =>
      rewrite (testbit_high w x i ltac:(lia) H ltac:(lia))
  | |- context [Z.testbit ?x ?i] => rewrite (Z.testbit_neg_r x i) by lia
  end;
  rewrite ?andb_false_r, ?andb_true_r, ?orb_false_r, ?orb_true_r, ?orb_false_l, ?xorb_false_r,
    ?xorb_false_l.

Ltac bit_cases :=
  repeat (match goal with
  | |- context [?a <? ?b] => destruct (Z.ltb_spec a b)
  | |- context [?a <=? ?b] => destruct (Z.leb_spec a b)
  end; try lia; simpl andb; simpl orb).

Ltac bitwise :=
  apply Z.bits_inj'; intros ?i ?Hi; unfold rotl, rotr;
  change u8 with (wrap 8); change u32 with (wrap 32); change u64 with (wrap 64);
  autorewrite with bits; bit_cases; bit_kill;
  try solve [reflexivity | lia | f_equal; lia | f_equal; f_equal; lia].

(** The test of a single bit. *)
Lemma land_single_bit x k : 0 <= k -> (x .& (1 << k) =? 0) = negb (Z.testbit x k).
Proof.
  intros Hk. apply eq_true_iff_eq. rewrite negb_true_iff, Z.eqb_eq, Z.shiftl_1_l. split; intros H.
  - assert (Hb : Z.testbit (x .& 2 ^ k) k = false) by (rewrite H; apply Z.bits_0).
    rewrite Z.land_spec, Z.pow2_bits_true, andb_true_r in Hb by lia. done.
  - apply Z.bits_inj'. intros i Hi. rewrite Z.land_spec, Z.pow2_bits_eqb, Z.bits_0 by lia.
    destruct (Z.eqb_spec k i) as [<-|]; [now rewrite H|apply andb_false_r].
Qed.

(** ** Ranges *)

Lemma in_word_0 w : 0 <= w -> in_word w 0.
Proof. intros. split; [lia|]. apply Z.pow_pos_nonneg; lia. Qed.

Lemma in_word_le w v x : 0 <= w <= v -> in_word w x -> in_word v x.
Proof.
  intros [Hw Hv] [H1 H2]. split; [done|].
  eapply Z.lt_le_trans; [exact H2|]. apply Z.pow_le_mono_r; lia.
Qed.

Lemma in_word_lxor w x y : 0 <= w -> in_word w x -> in_word w y -> in_word w (x ^^ y).
Proof.
  intros Hw Hx Hy. apply in_word_bits; [done| |].
  - apply Z.lxor_nonneg. destruct Hx, Hy. lia.
  - intros i Hi. rewrite Z.lxor_spec, !(testbit_high w) by done. reflexivity.
Qed.

Lemma in_word_lor w x y : 0 <= w -> in_word w x -> in_word w y -> in_word w (x .| y).
Proof.
  intros Hw Hx Hy. apply in_word_bits; [done| |].
  - apply Z.lor_nonneg. destruct Hx, Hy. lia.
  - intros i Hi. rewrite Z.lor_spec, !(testbit_high w) by done. reflexivity.
Qed.

Lemma in_word_land w x y : 0 <= w -> in_word w x -> in_word w (x .& y).
Proof.
  intros Hw Hx. apply in_word_bits; [done| |].
  - apply Z.land_nonneg. left. apply Hx.
  - intros i Hi. rewrite Z.land_spec, (testbit_high w) by done. reflexivity.
Qed.

Lemma in_word_shiftr w x n : 0 <= w -> 0 <= n -> in_word w x -> in_word w (x >> n).
Proof.
  intros Hw Hn Hx. apply in_word_bits; [done| |].
  - apply Z.shiftr_nonneg. apply Hx.
  - intros i Hi. rewrite Z.shiftr_spec by lia. apply (testbit_high w); lia || done.
Qed.

Lemma in_word_shiftl w v x n : 0 <= w -> 0 <= n -> w + n <= v ->
  in_word w x -> in_word v (x << n).
Proof.
  intros Hw Hn Hv Hx. apply in_word_bits; [lia| |].
  - apply Z.shiftl_nonneg. apply Hx.
  - intros i Hi. rewrite Z.shiftl_spec by lia. apply (testbit_high w); lia || done.
Qed.

Lemma in_word_wrap w x : 0 <= w -> in_word w (wrap w x).
Proof. intros. rewrite wrap_mod by done. apply Z.mod_pos_bound, Z.pow_pos_nonneg; lia. Qed.

Lemma in_word_u8 x : in_word 8 (u8 x). Proof. now apply in_word_wrap. Qed.
Lemma in_word_u32 x : in_word 32 (u32 x). Proof. now apply in_word_wrap. Qed.
Lemma in_word_u64 x : in_word 64 (u64 x). Proof. now apply in_word_wrap. Qed.

Lemma in_word_rotl w x n : 0 <= n <= w -> in_word w x -> in_word w (rotl w x n).
Proof.
  intros H Hx. apply in_word_lor; [lia|apply in_word_wrap; lia|].
  apply in_word_shiftr; lia || done.
Qed.

Lemma in_word_rotr w x n : 0 <= n <= w -> in_word w x -> in_word w (rotr w x n).
Proof.
  intros H Hx. apply in_word_lor; [lia| |apply in_word_wrap; lia].
  apply in_word_shiftr; lia || done.
Qed.

#[export] Hint Resolve in_word_0 in_word_lxor in_word_lor in_word_land in_word_shiftr
  in_word_wrap in_word_u8 in_word_u32 in_word_u64 in_word_rotl in_word_rotr : words.
#[export] Hint Extern 1 (_ <= _)%Z => lia : words.
#[export] Hint Extern 1 (_ < _)%Z => lia : words.
#[export] Hint Extern 1 (_ <= _ <= _)%Z => lia : words.

Lemma words_xor_list w a b : 0 <= w -> words w a -> words w b -> words w (xor_list a b).
Proof. intros. apply Forall_xor_list; auto with words. Qed.

(** ** Wrap-around *)

Lemma wrap_small w x : 0 <= w -> in_word w x -> wrap w x = x.
Proof. intros Hw Hx. rewrite wrap_mod by done. now apply Z.mod_small. Qed.

Lemma wrap_wrap w x : 0 <= w -> wrap w (wrap w x) = wrap w x.
Proof. intros. apply wrap_small; [done|]. now apply in_word_wrap. Qed.

Lemma wrap_add_l w x y : 0 <= w -> wrap w (wrap w x + y) = wrap w (x + y).
Proof. intros. rewrite !wrap_mod by done. apply Zplus_mod_idemp_l. Qed.

Lemma wrap_add_r w x y : 0 <= w -> wrap w (x + wrap w y) = wrap w (x + y).
Proof. intros. rewrite !wrap_mod by done. apply Zplus_mod_idemp_r. Qed.

Lemma wrap_sub_l w x y : 0 <= w -> wrap w (wrap w x - y) = wrap w (x - y).
Proof. intros. rewrite !wrap_mod by done. apply Zminus_mod_idemp_l. Qed.

Lemma wrap_sub_add w x y : 0 <= w -> in_word w x -> wrap w (wrap w (x + y) - y) = x.
Proof.
  intros Hw Hx. rewrite wrap_sub_l by done.
  replace (x + y - y) with x by lia. now apply wrap_small.
Qed.

Lemma u32_mod x : u32 x = x mod 2 ^ 32. Proof. now apply (wrap_mod 32). Qed.
Lemma u64_mod x : u64 x = x mod 2 ^ 64. Proof. now apply (wrap_mod 64). Qed.
Lemma u64_small x : in_word 64 x -> u64 x = x.
Proof. now apply wrap_small. Qed.
Lemma u32_small x : in_word 32 x -> u32 x = x.
Proof. now apply wrap_small. Qed.
Lemma s32_u32 x : s32 (u32 x) = s32 x.
Proof. unfold s32. now rewrite (wrap_wrap 32). Qed.
Lemma s64_u64 x : s64 (u64 x) = s64 x.
Proof. unfold s64. now rewrite (wrap_wrap 64). Qed.
Lemma s32_range x : - 2 ^ 31 <= s32 x < 2 ^ 31.
Proof. unfold s32. rewrite u32_mod. pose proof (Z.mod_pos_bound x (2 ^ 32)). destruct (Z.ltb_spec (x mod 2 ^ 32) (2 ^ 31)); lia. Qed.
Lemma s64_range x : - 2 ^ 63 <= s64 x < 2 ^ 63.
Proof. unfold s64. rewrite u64_mod. pose proof (Z.mod_pos_bound x (2 ^ 64)). destruct (Z.ltb_spec (x mod 2 ^ 64) (2 ^ 63)); lia. Qed.
Lemma u32_s32 x : u32 (s32 x) = u32 x.
Proof.
  unfold s32. destruct (u32 x <? 2 ^ 31); [apply (wrap_wrap 32); lia|]. rewrite !u32_mod, Zminus_mod, Zmod_mod.
  rewrite Z_mod_same_full, Z.sub_0_r. apply Zmod_mod.
Qed.
Lemma u64_s64 x : u64 (s64 x) = u64 x.
Proof.
  unfold s64. destruct (u64 x <? 2 ^ 63); [apply (wrap_wrap 64); lia|]. rewrite !u64_mod, Zminus_mod, Zmod_mod.
  rewrite Z_mod_same_full, Z.sub_0_r. apply Zmod_mod.
Qed.
Lemma s32_small x : - 2 ^ 31 <= x < 2 ^ 31 -> s32 x = x.
Proof.
  intros H. unfold s32. rewrite u32_mod. destruct (Z.ltb_spec x 0) as [Hx|Hx].
  - replace (x mod 2 ^ 32) with (x + 2 ^ 32) by (apply (Z.mod_unique_pos _ _ (-1)); lia).
    destruct (Z.ltb_spec (x + 2 ^ 32) (2 ^ 31)); lia.
  - rewrite Z.mod_small by lia. destruct (Z.ltb_spec x (2 ^ 31)); lia.
Qed.
Lemma s64_small x : - 2 ^ 63 <= x < 2 ^ 63 -> s64 x = x.
Proof.
  intros H. unfold s64. rewrite u64_mod. destruct (Z.ltb_spec x 0) as [Hx|Hx].
  - replace (x mod 2 ^ 64) with (x + 2 ^ 64) by (apply (Z.mod_unique_pos _ _ (-1)); lia).
    destruct (Z.ltb_spec (x + 2 ^ 64) (2 ^ 63)); lia.
  - rewrite Z.mod_small by lia. destruct (Z.ltb_spec x (2 ^ 63)); lia.
Qed.
Lemma u8_small x : in_word 8 x -> u8 x = x.
Proof. now apply wrap_small. Qed.

(** ** Rotations *)

Lemma rotr_rotl w x n : 0 <= n <= w -> in_word w x -> rotr w (rotl w x n) n = x.
Proof. intros H Hx. bitwise. Qed.

Lemma rotl_rotr w x n : 0 <= n <= w -> in_word w x -> rotl w (rotr w x n) n = x.
Proof. intros H Hx. bitwise. Qed.

Lemma lxor_cancel_r x y : (x ^^ y) ^^ y = x.
Proof. now rewrite Z.lxor_assoc, Z.lxor_nilpotent, Z.lxor_0_r. Qed.

Lemma lxor_cancel_l x y : x ^^ (x ^^ y) = y.
Proof. now rewrite <- Z.lxor_assoc, Z.lxor_nilpotent, Z.lxor_0_l. Qed.

(** ** Byte strings *)

Lemma length_le_split n x : length (le_split n x) = n.
Proof. revert x. induction n; simpl; auto. Qed.

Lemma bytes_le_split n x : bytes (le_split n x).
Proof. revert x. induction n; simpl; constructor; auto with words. Qed.

Lemma length_be_split n x : length (be_split n x) = n.
Proof. unfold be_split. now rewrite length_rev, length_le_split. Qed.

Lemma bytes_be_split n x : bytes (be_split n x).
Proof. apply Forall_rev, bytes_le_split. Qed.

#[export] Hint Rewrite length_le_split length_be_split : lens.
#[export] Hint Resolve bytes_le_split bytes_be_split : words.

Lemma in_word_le_combine l : bytes l -> in_word (8 * Z.of_nat (length l)) (le_combine l).
Proof.
  induction 1 as [|b l Hb Hl IH]; [split; simpl; lia|]. simpl le_combine.
  apply in_word_lor; [lia|eapply in_word_le; [|exact Hb]; simpl; lia|].
  eapply in_word_shiftl; [| | |exact IH]; simpl; lia.
Qed.

Lemma le_combine_split n x : le_combine (le_split n x) = wrap (8 * Z.of_nat n) x.
Proof.
  revert x. induction n as [|n IH]; intros x.
  - simpl. now rewrite wrap_mod, Z.mod_1_r by lia.
  - cbn [le_split le_combine]. rewrite IH. bitwise.
Qed.

Lemma le_split_combine l : bytes l -> le_split (length l) (le_combine l) = l.
Proof.
  induction 1 as [|b l Hb Hl IH]; [done|].
  pose proof (in_word_le_combine l Hl) as Hr. cbn [le_split le_combine length].
  f_equal.
  - set (y := le_combine l). clearbody y. bitwise.
  - replace ((b .| (le_combine l << 8)) >> 8) with (le_combine l); [done|].
    set (y := le_combine l) in *. clearbody y. bitwise.
Qed.

Lemma le_split_lxor n x y : le_split n (x ^^ y) = xor_list (le_split n x) (le_split n y).
Proof.
  revert x y. induction n as [|n IH]; intros x y; [done|].
  cbn [le_split]. unfold xor_list in *. simpl zip_with. rewrite Z.shiftr_lxor, IH.
  f_equal. bitwise.
Qed.

Lemma nth_le_split n x i : (i < n)%nat -> (le_split n x).[i] = u8 (x >> (8 * Z.of_nat i)).
Proof.
  revert x i. induction n as [|n IH]; intros x i Hi; [lia|].
  destruct i as [|i]; [now rewrite Z.shiftr_0_r|].
  cbn [le_split nth]. rewrite IH, Z.shiftr_shiftr by lia. do 2 f_equal. lia.
Qed.

Lemma nth_be_split_8 x i : (i < 8)%nat ->
  (be_split 8 x).[i] = u8 (x >> (8 * (7 - Z.of_nat i))).
Proof.
  intros Hi. unfold be_split. rewrite rev_nth; rewrite length_le_split; [|done].
  rewrite nth_le_split by lia. do 2 f_equal. lia.
Qed.

Lemma be_split_lxor n x y : be_split n (x ^^ y) = xor_list (be_split n x) (be_split n y).
Proof.
  unfold be_split. rewrite le_split_lxor. apply rev_xor_list. now rewrite !length_le_split.
Qed.

Lemma le_split_wrap n x : le_split n (wrap (8 * Z.of_nat n) x) = le_split n x.
Proof.
  rewrite <- le_combine_split.
  rewrite <- (length_le_split n x) at 1. apply le_split_combine; auto with words.
Qed.

Lemma in_word_load64_le m off : bytes m -> in_word 64 (load64_le m off).
Proof.
  intros H. unfold load64_le.
  eapply in_word_le; [|apply in_word_le_combine, Forall_mem_read, H].
  unfold mem_read. rewrite length_take, length_drop. lia.
Qed.

Lemma in_word_be_combine l n : bytes l -> length l = n ->
  in_word (8 * Z.of_nat n) (be_combine l).
Proof.
  intros H <-. unfold be_combine. rewrite <- length_rev.
  apply in_word_le_combine. now apply Forall_rev.
Qed.

Lemma in_word_bswap64 x : in_word 64 (bswap64 x).
Proof. now apply (in_word_be_combine _ 8); [auto with words|]. Qed.
#[export] Hint Resolve in_word_load64_le in_word_bswap64 : words.

Lemma le_split_bswap64 x : le_split 8 (bswap64 x) = rev (le_split 8 x).
Proof.
  unfold bswap64, be_combine. set (l := rev (le_split 8 x)).
  replace 8%nat with (length l) at 1 by (unfold l; now rewrite length_rev, length_le_split).
  apply le_split_combine, Forall_rev, bytes_le_split.
Qed.

Lemma bswap64_involutive x : in_word 64 x -> bswap64 (bswap64 x) = x.
Proof.
  intros Hx. unfold bswap64 at 1, be_combine.
  rewrite le_split_bswap64, rev_involutive, le_combine_split. now apply wrap_small.
Qed.

(** The value loaded from big-endian bytes is the byte-swapped host load. *)
Lemma bswap64_load m off : bytes m -> (off + 8 <= length m)%nat ->
  bswap64 (load64_le m off) = be_combine (mem_read m off 8).
Proof.
  intros Hm Hl. unfold bswap64, load64_le. f_equal.
  rewrite <- (length_mem_read m off 8) at 1 by done.
  apply le_split_combine, Forall_mem_read, Hm.
Qed.

(** The combinations as sums. *)
Lemma le_combine_cons b l : is_byte b -> bytes l -> le_combine (b :: l) = b + 256 * le_combine l.
Proof.
  intros Hb Hl. pose proof (in_word_le_combine l Hl) as Hr. cbn [le_combine].
  change 256 with (2 ^ 8). rewrite Z.mul_comm, <- Z.shiftl_mul_pow2 by lia.
  set (y := le_combine l) in *. clearbody y.
  assert (E : b .& (y << 8) = 0).
  { bitwise. destruct (Z.lt_ge_cases i 8); bit_kill; done. }
  rewrite Z.add_nocarry_lxor by done. symmetry. now apply Z.lxor_lor.
Qed.

Lemma be_combine_snoc b l : is_byte b -> bytes l ->
  be_combine (l ++ [b]) = 256 * be_combine l + b.
Proof.
  intros Hb Hl. unfold be_combine. rewrite rev_app_distr.
  change (rev [b] ++ rev l) with (b :: rev l).
  rewrite (le_combine_cons b (rev l)) by (auto using Forall_rev). lia.
Qed.

Lemma be_combine_app a b : bytes a -> bytes b ->
  be_combine (a ++ b) = be_combine a * 2 ^ (8 * Z.of_nat (length b)) + be_combine b.
Proof.
  intros Ha. induction b as [|x b IH] using rev_ind; intros Hb.
  - rewrite app_nil_r. cbn. lia.
  - apply Forall_app in Hb as [Hb Hx]. assert (Hx' : is_byte x) by now inversion Hx.
    assert (Hab : bytes (a ++ b)) by now apply Forall_app.
    rewrite app_assoc, !be_combine_snoc, IH by done.
    rewrite length_app. replace (8 * Z.of_nat (length b + length [x])) with
      (8 * Z.of_nat (length b) + 8) by (simpl; lia).
    rewrite Z.pow_add_r by lia. lia.
Qed.

Lemma be_combine_cons x l : is_byte x -> bytes l ->
  be_combine (x :: l) = x * 2 ^ (8 * Z.of_nat (length l)) + be_combine l.
Proof.
  intros Hx Hl. change (x :: l) with ([x] ++ l). rewrite be_combine_app by (auto using Forall_cons_2, Forall_nil_2).
  unfold be_combine. simpl. now rewrite Z.lor_0_r.
Qed.

Lemma be_combine_zeros n l : bytes l -> be_combine (replicate n 0 ++ l) = be_combine l.
Proof.
  intros Hl. induction n as [|n IH]; [done|]. cbn [replicate app].
  rewrite be_combine_cons, IH; [lia|apply in_word_0; lia|].
  apply Forall_app; split; [apply Forall_replicate, in_word_0; lia|done].
Qed.

Lemma be_combine_range l : bytes l -> 0 <= be_combine l < 2 ^ (8 * Z.of_nat (length l)).
Proof. intros H. now apply (in_word_be_combine l (length l)). Qed.

Lemma be_split_combine l : bytes l -> be_split (length l) (be_combine l) = l.
Proof.
  intros H. unfold be_split, be_combine. rewrite <- (length_rev l), le_split_combine;
    [|now apply Forall_rev].
  apply rev_involutive.
Qed.

Lemma be_combine_split n x : be_combine (be_split n x) = x mod 2 ^ (8 * Z.of_nat n).
Proof.
  unfold be_combine, be_split. rewrite rev_involutive, le_combine_split. apply wrap_mod. lia.
Qed.

Lemma be_combine_inj a b : bytes a -> bytes b -> length a = length b ->
  be_combine a = be_combine b -> a = b.
Proof.
  intros Ha Hb Hl E. rewrite <- (be_split_combine a), <- (be_split_combine b) by done.
  now rewrite Hl, E.
Qed.

(** Splitting a number in two groups of bytes. *)
Lemma le_split_add n k x : le_split (n + k) x = le_split n x ++ le_split k (x >> (8 * Z.of_nat n)).
Proof.
  revert x. induction n as [|n IH]; intros x; [now rewrite Z.shiftr_0_r|].
  cbn [Nat.add le_split app]. rewrite IH, Z.shiftr_shiftr by lia. do 4 f_equal. lia.
Qed.

Lemma le_split_0 n : le_split n 0 = replicate n 0.
Proof. induction n as [|n IH]; [done|]. cbn [le_split replicate]. now rewrite Z.shiftr_0_l, IH. Qed.

Lemma be_split_wide k x : in_word 64 x -> be_split (8 + k) x = replicate k 0 ++ be_split 8 x.
Proof.
  intros [H0 Hx]. unfold be_split. rewrite le_split_add, rev_app_distr.
  rewrite Z.shiftr_div_pow2, Z.div_small, le_split_0 by (simpl; lia). f_equal.
  rewrite rev_alt. apply reverse_replicate.
Qed.

Lemma words_to_bytes_cons x ws : words_to_bytes (x :: ws) = le_split 8 x ++ words_to_bytes ws.
Proof. reflexivity. Qed.

Lemma length_words_to_bytes ws : length (words_to_bytes ws) = (8 * length ws)%nat.
Proof.
  induction ws as [|x ws IH]; [done|].
  rewrite words_to_bytes_cons, length_app, length_le_split, IH. simpl. lia.
Qed.

Lemma words_to_bytes_app ws vs :
  words_to_bytes (ws ++ vs) = words_to_bytes ws ++ words_to_bytes vs.
Proof. unfold words_to_bytes. now rewrite fmap_app, join_app. Qed.

Lemma words_to_bytes_xor ws vs : length ws = length vs ->
  words_to_bytes (xor_list ws vs) = xor_list (words_to_bytes ws) (words_to_bytes vs).
Proof.
  revert vs. induction ws as [|w ws IH]; intros [|v vs] H; try discriminate; [done|].
  change (xor_list (w :: ws) (v :: vs)) with (w ^^ v :: xor_list ws vs).
  rewrite !words_to_bytes_cons, IH by (simpl in H; lia).
  rewrite xor_list_app by now rewrite !length_le_split. now rewrite le_split_lxor.
Qed.

Lemma bytes_words_to_bytes ws : bytes (words_to_bytes ws).
Proof.
  induction ws as [|x ws IH]; [constructor|].
  rewrite words_to_bytes_cons. apply Forall_app; auto with words.
Qed.
#[export] Hint Resolve bytes_words_to_bytes : words.

Lemma mem_read_words_to_bytes ws i n :
  mem_read (words_to_bytes ws) (8 * i) (8 * n) = words_to_bytes (mem_read ws i n).
Proof.
  assert (Hd : forall i ws, drop (8 * i) (words_to_bytes ws) = words_to_bytes (drop i ws)).
  { clear. induction i as [|i IH]; intros ws; [now rewrite Nat.mul_0_r, !drop_0|].
    destruct ws as [|w ws]; [now rewrite drop_nil|].
    rewrite words_to_bytes_cons, drop_app_ge, length_le_split by (rewrite length_le_split; lia).
    cbn [drop]. rewrite <- IH. f_equal. lia. }
  assert (Ht : forall n ws, take (8 * n) (words_to_bytes ws) = words_to_bytes (take n ws)).
  { clear. induction n as [|n IH]; intros ws; [now rewrite Nat.mul_0_r, !take_0|].
    destruct ws as [|w ws]; [now rewrite take_nil|].
    rewrite words_to_bytes_cons, take_app_ge, length_le_split by (rewrite length_le_split; lia).
    cbn [take]. rewrite words_to_bytes_cons, <- IH. do 2 f_equal. lia. }
  unfold mem_read. now rewrite Hd, Ht.
Qed.

Lemma bytes_words_round ws : words 64 ws ->
  bytes_to_words (length ws) (words_to_bytes ws) = ws.
Proof.
  unfold bytes_to_words. induction 1 as [|x ws Hx Hw IH]; [done|].
  cbn [length]. rewrite fmap_seq_S. f_equal.
  - unfold load64_le, mem_read. rewrite words_to_bytes_cons, drop_0.
    rewrite take_app_length' by now rewrite length_le_split.
    rewrite le_combine_split. now apply wrap_small.
  - rewrite <- IH at 2. apply list_fmap_ext. intros _ i _. unfold load64_le, mem_read. do 2 f_equal.
    rewrite words_to_bytes_cons.
    rewrite drop_app_ge by (rewrite length_le_split; lia). f_equal.
    rewrite length_le_split. lia.
Qed.

Lemma words_bytes_round n bs : bytes bs -> length bs = (8 * n)%nat ->
  words_to_bytes (bytes_to_words n bs) = bs.
Proof.
  unfold bytes_to_words. revert bs. induction n as [|n IH]; intros bs Hb Hl.
  - now destruct bs.
  - rewrite fmap_seq_S, words_to_bytes_cons.
    transitivity (take 8 bs ++ drop 8 bs); [f_equal|apply take_drop].
    + unfold load64_le, mem_read. cbn [Nat.mul]. rewrite drop_0.
      rewrite <- (length_take_le bs 8) at 1 by lia.
      apply le_split_combine. now apply Forall_take.
    + rewrite <- (IH (drop 8 bs)); [|now apply Forall_drop|rewrite length_drop; lia].
      f_equal. apply list_fmap_ext. intros _ i _. unfold load64_le, mem_read. do 2 f_equal.
      rewrite drop_drop. f_equal. lia.
Qed.

Lemma length_bytes_to_words n bs : length (bytes_to_words n bs) = n.
Proof. unfold bytes_to_words. now rewrite length_fmap, length_seq. Qed.

Lemma bytes_to_words_app n a r : length a = (8 * n)%nat ->
  bytes_to_words n (a ++ r) = bytes_to_words n a.
Proof.
  intros H. unfold bytes_to_words. apply fmap_seq_ext. intros i Hi.
  unfold load64_le, mem_read. f_equal. rewrite drop_app_le by lia.
  rewrite take_app_le; [done|]. rewrite length_drop. lia.
Qed.

Lemma words_bytes_to_words n bs : bytes bs -> words 64 (bytes_to_words n bs).
Proof. intros H. unfold bytes_to_words. apply Forall_fmap, Forall_true. intros; simpl; auto with words. Qed.
#[export] Hint Resolve words_bytes_to_words : words.
#[export] Hint Rewrite length_words_to_bytes length_bytes_to_words : lens.
