(* ===== verification/ByteOrder.v ===== *)
(** * Byte order: src/crypto/hashing/whirlpool/byte_order.c

    The copy routines that exchange byte order while copying.  Each has a fast path for
    8-byte (or 4-byte) aligned arguments and a byte-by-byte path; pointers are modelled
    by the array they point to and their address.  The host is little-endian. *)

From S2P Require Import Prelude Words.

(** ** The source *)

Definition bit_pos : list Z :=
  [0; 1; 28; 2; 29; 14; 24; 3; 30; 22; 20; 15; 25; 17; 4; 8;
   31; 27; 13; 23; 21; 19; 16; 7; 26; 12; 18; 6; 11; 5; 10; 9].

Definition rhash_ctz (x : Z) : Z :=
  bit_pos.[Z.to_nat (u32 (u32 (x .& u32 (- x)) * 0x077CB531) >> 27)].

(** [index ^ mask] on array indices. *)
Definition ixor (i : nat) (mask : Z) : nat := Z.to_nat (Z.of_nat i ^^ mask).

Definition bswap32 (x : Z) : Z := be_combine (le_split 4 x).
Definition load32_le (m : list Z) (off : nat) : Z := le_combine (mem_read m off 4).

Definition rhash_swap_copy_str_to_u32 (to : list Z) (to_addr : Z) (index : nat)
    (from : list Z) (from_addr : Z) (length : nat) : list Z :=
  if (to_addr .| from_addr .| Z.of_nat index .| Z.of_nat length) .& 3 =? 0 then
    for_up (length / 4) (fun i to =>
      mem_write to (index + 4 * i) (le_split 4 (bswap32 (load32_le from (4 * i))))) to
  else
    for_up length (fun i to => <[ixor (index + i) 3 := from.[i]]> to) to.

Definition rhash_swap_copy_str_to_u64 (to : list Z) (to_addr : Z) (index : nat)
    (from : list Z) (from_addr : Z) (length : nat) : list Z :=
  if (to_addr .| from_addr .| Z.of_nat index .| Z.of_nat length) .& 7 =? 0 then
    for_up (length / 8) (fun i to =>
      mem_write to (index + 8 * i) (le_split 8 (bswap64 (load64_le from (8 * i))))) to
  else
    for_up length (fun i to => <[ixor (index + i) 7 := from.[i]]> to) to.

Definition rhash_swap_copy_u64_to_str (to : list Z) (to_addr : Z)
    (from : list Z) (from_addr : Z) (length : nat) : list Z :=
  if (to_addr .| from_addr .| Z.of_nat length) .& 7 =? 0 then
    for_up (length / 8) (fun i to =>
      mem_write to (8 * i) (le_split 8 (bswap64 (load64_le from (8 * i))))) to
  else
    for_up length (fun i to => <[i := from.[ixor i 7]]> to) to.

Definition rhash_u32_mem_swap (arr : list Z) (length : nat) : list Z :=
  for_up length (fun i arr => <[i := bswap32 arr.[i]]> arr) arr.

(** ** The specification: every group of [n] bytes reversed *)

Definition swap_groups (n k : nat) (bs : list Z) : list Z :=
  mjoin ((fun i => rev (mem_read bs (n * i) n)) <$> seq 0 k).

(** ** Lemmas *)

Lemma for_up_mul {St} k n (f : nat -> St -> St) s :
  for_up (k * n) f s = for_up n (fun i s => for_up k (fun j => f (k * i + j)%nat) s) s.
Proof.
  assert (A : forall m off s, for_up m (fun j => f (off + j)%nat) s =
    fold_left (fun s i => f i s) (seq off m) s).
  { intros m off. induction m as [|m IH]; intros s'; [done|].
    rewrite for_up_S, IH, seq_S, fold_left_app. reflexivity. }
  induction n as [|n IH]; [now rewrite Nat.mul_0_r|].
  rewrite for_up_S, <- IH, A. unfold for_up.
  now rewrite <- fold_left_app, <- seq_app, Nat.mul_succ_r.
Qed.

(** [2 ^ s - 1 = mask]: the low bits are complemented, the others kept. *)
Lemma ixor_mask s mask q j :
  0 <= s -> mask = 2 ^ s - 1 -> 0 <= q -> in_word s j ->
  (2 ^ s * q + j) ^^ mask = 2 ^ s * q + (j ^^ mask).
Proof.
  intros Hs -> Hq Hj.
  assert (Hm : in_word s (2 ^ s - 1)) by (unfold in_word; pose proof (Z.pow_pos_nonneg 2 s); lia).
  rewrite !(Z.mul_comm (2 ^ s)), <- !Z.shiftl_mul_pow2 by done.
  assert (A : forall b, in_word s b -> (q << s) + b = (q << s) ^^ b).
  { intros b Hb. apply Z.add_nocarry_lxor. bitwise.
    destruct (Z.lt_ge_cases i s); bit_kill; done. }
  rewrite !A by auto with words. apply Z.lxor_assoc.
Qed.

Lemma ixor_7 q j : (j < 8)%nat -> ixor (8 * q + j) 7 = (8 * q + (7 - j))%nat.
Proof.
  intros H. unfold ixor.
  replace (Z.of_nat (8 * q + j)) with (2 ^ 3 * Z.of_nat q + Z.of_nat j) by lia.
  rewrite (ixor_mask 3 7) by (unfold in_word; lia).
  replace (Z.of_nat j ^^ 7) with (7 - Z.of_nat j); [lia|].
  do 8 (destruct j as [|j]; [reflexivity|]). lia.
Qed.

Lemma ixor_3 q j : (j < 4)%nat -> ixor (4 * q + j) 3 = (4 * q + (3 - j))%nat.
Proof.
  intros H. unfold ixor.
  replace (Z.of_nat (4 * q + j)) with (2 ^ 2 * Z.of_nat q + Z.of_nat j) by lia.
  rewrite (ixor_mask 2 3) by (unfold in_word; lia).
  replace (Z.of_nat j ^^ 3) with (3 - Z.of_nat j); [lia|].
  do 4 (destruct j as [|j]; [reflexivity|]). lia.
Qed.

Lemma swap_groups_S n k bs :
  swap_groups n (S k) bs = swap_groups n k bs ++ rev (mem_read bs (n * k) n).
Proof.
  unfold swap_groups. rewrite seq_S, fmap_app, join_app. simpl. now rewrite app_nil_r.
Qed.

Lemma length_swap_groups n k bs :
  (n * k <= length bs)%nat -> length (swap_groups n k bs) = (n * k)%nat.
Proof.
  induction k as [|k IH]; intros H; [simpl; lia|].
  rewrite Nat.mul_succ_r in *.
  now rewrite swap_groups_S, length_app, length_rev, length_mem_read, IH by lia.
Qed.

(** Reversing the groups of an array of words gives its big-endian bytes. *)
Lemma swap_groups_words ws :
  swap_groups 8 (length ws) (words_to_bytes ws) = mjoin (be_split 8 <$> ws).
Proof.
  unfold swap_groups. f_equal.
  transitivity (be_split 8 <$> ((fun i => ws.[i]) <$> seq 0 (length ws)));
    [|now rewrite fmap_nth_seq].
  rewrite <- list_fmap_compose. apply fmap_seq_ext. intros i Hi. unfold compose, be_split.
  f_equal. unfold mem_read. revert i Hi.
  induction ws as [|w ws IH]; intros i Hi; [simpl in Hi; lia|].
  rewrite words_to_bytes_cons. destruct i as [|i].
  - rewrite Nat.mul_0_r, drop_0. apply take_app_length'. now rewrite length_le_split.
  - rewrite drop_app_ge, length_le_split by (rewrite length_le_split; lia).
    replace (8 * S i - 8)%nat with (8 * i)%nat by lia. apply IH. simpl in Hi. lia.
Qed.

(** The fast path: a loop over whole groups. *)
Lemma fast_path_groups n k m off bs :
  (off + n * k <= length m)%nat -> (n * k <= length bs)%nat ->
  for_up k (fun i to => mem_write to (off + n * i) (rev (mem_read bs (n * i) n))) m
  = mem_write m off (swap_groups n k bs).
Proof.
  intros Hm Hb. induction k as [|k IH]; [symmetry; apply (mem_write_nil m off); lia|].
  rewrite Nat.mul_succ_r in *. rewrite for_up_S, IH, swap_groups_S by lia.
  rewrite <- (length_swap_groups n k bs) at 1 by lia. apply mem_write_app.
  rewrite length_rev, length_mem_read, length_swap_groups; lia.
Qed.

Lemma rev_le_split_load n bs off :
  bytes bs -> (off + n <= length bs)%nat ->
  le_split n (be_combine (le_split n (le_combine (mem_read bs off n)))) =
  rev (mem_read bs off n).
Proof.
  intros Hb Hl. rewrite <- (length_mem_read bs off n) at 2 by done.
  rewrite le_split_combine by now apply Forall_mem_read.
  unfold be_combine. rewrite <- (length_mem_read bs off n) at 1 by done.
  rewrite <- length_rev. apply le_split_combine, Forall_rev, Forall_mem_read, Hb.
Qed.

(** The slow path: the bytes of a group are stored from its last position down. *)
Lemma store_down n off v c m :
  (c <= n)%nat -> (off + n <= length m)%nat ->
  for_up c (fun j to => <[(off + (n - 1 - j))%nat := v j]> to) m
  = mem_write m (off + (n - c)) (rev (v <$> seq 0 c)).
Proof.
  intros Hc Hm. induction c as [|c IH]; [symmetry; apply (mem_write_nil m); lia|].
  rewrite for_up_S, IH, seq_S, fmap_app, rev_app_distr by lia. simpl app.
  replace (off + (n - c))%nat with (S (off + (n - S c))) by lia.
  replace (n - 1 - c)%nat with (n - S c)%nat by lia.
  apply mem_write_cons. rewrite length_rev, length_fmap, length_seq. lia.
Qed.

Lemma mem_read_seq bs k n : (k + n <= length bs)%nat ->
  (fun j => bs.[k + j]) <$> seq 0 n = mem_read bs k n.
Proof.
  intros H. apply (nth_ext_eq _ _ 0);
    rewrite length_fmap, length_seq; [now rewrite length_mem_read|].
  intros i Hi. rewrite nth_mem_read by done.
  now rewrite nth_lookup_def, list_lookup_fmap, lookup_seq_lt.
Qed.

Section Paths.
(** A group size, and the mask that reverses positions inside a group. *)
Context (n : nat) (mask : Z) (Hn : (0 < n)%nat).
Context (Hmask : forall q j, (j < n)%nat ->
  ixor (n * q + j) mask = (n * q + (n - 1 - j))%nat).

Lemma slow_path_groups k q m bs :
  (n * q + n * k <= length m)%nat -> (n * k <= length bs)%nat ->
  for_up (n * k) (fun i to => <[ixor (n * q + i) mask := bs.[i]]> to) m
  = mem_write m (n * q) (swap_groups n k bs).
Proof.
  intros Hm Hb. rewrite for_up_mul, <- fast_path_groups by done.
  revert Hm Hb. induction k as [|k IH]; intros Hm Hb; [done|].
  rewrite Nat.mul_succ_r in *. rewrite !for_up_S, IH by lia.
  rewrite fast_path_groups by lia. set (m' := mem_write m _ _).
  assert (Hm' : length m' = length m).
  { unfold m'. apply length_mem_write. rewrite length_swap_groups; lia. }
  etransitivity; [apply for_up_ext|].
  - intros j s Hj. rewrite Nat.add_assoc, <- Nat.mul_add_distr_l, Hmask by done.
    reflexivity.
  - rewrite (store_down n (n * (q + k)) (fun j => bs.[n * k + j])) by lia.
    rewrite mem_read_seq by lia. rewrite Nat.sub_diag, Nat.add_0_r. f_equal. lia.
Qed.
End Paths.

Lemma group_count n k len : (0 < n)%nat -> len = (n * k)%nat -> (len / n)%nat = k.
Proof. intros Hn ->. rewrite Nat.mul_comm. apply Nat.div_mul. lia. Qed.

(** The conversion back reads from the reversed position. *)
Lemma read_reversed k bs : (8 * k <= length bs)%nat ->
  (fun i => bs.[ixor i 7]) <$> seq 0 (8 * k) = swap_groups 8 k bs.
Proof.
  intros H. induction k as [|k IH]; [done|].
  replace (8 * S k)%nat with (8 * k + 8)%nat by lia.
  rewrite seq_app, fmap_app, IH, swap_groups_S by lia. f_equal.
  rewrite <- (mem_read_seq bs (8 * k)) by lia. change (seq (0 + 8 * k) 8)
    with (seq (8 * k) 8). rewrite <- (Nat.add_0_r (8 * k)) at 1.
  rewrite <- fmap_add_seq, <- list_fmap_compose. cbn [seq fmap list_fmap rev app compose].
  now rewrite !ixor_7 by lia.
Qed.

(** Every non-zero number is an odd number shifted left. *)
Lemma odd_part x : 0 < x -> exists k m, 0 <= k /\ 0 <= m /\ x = (2 * m + 1) << k.
Proof.
  induction x as [x IH] using (well_founded_induction (Z.lt_wf 0)). intros Hx.
  destruct (Z.Even_or_Odd x) as [[m ->]|[m ->]].
  - destruct (IH m) as (k & n & Hk & Hn & ->); [lia|lia|].
    exists (k + 1), n. split; [lia|]. split; [done|]. rewrite <- Z.shiftl_shiftl by done.
    rewrite (Z.shiftl_mul_pow2 _ 1) by lia. lia.
  - exists 0, m. rewrite Z.shiftl_0_r. lia.
Qed.

Lemma odd_part_bound k m w : 0 <= k -> 0 <= m -> (2 * m + 1) << k < 2 ^ w -> k < w.
Proof.
  intros Hk Hm H. rewrite Z.shiftl_mul_pow2 in H by done.
  apply (Z.pow_lt_mono_r_iff 2); [lia| |].
  - destruct (Z.lt_ge_cases w 0); [|done]. rewrite (Z.pow_neg_r 2 w) in H by done.
    pose proof (Z.pow_pos_nonneg 2 k). nia.
  - pose proof (Z.pow_pos_nonneg 2 k). nia.
Qed.

(** [x & -x] isolates the lowest set bit. *)
Lemma lowest_bit k m : 0 <= k -> ((2 * m + 1) << k) .& (- ((2 * m + 1) << k)) = 1 << k.
Proof.
  intros Hk. replace (- ((2 * m + 1) << k)) with ((2 * (Z.lnot m) + 1) << k).
  - rewrite <- Z.shiftl_land. f_equal. apply Z.bits_inj'. intros i Hi.
    rewrite Z.land_spec. destruct (Z.eq_dec i 0) as [->|Hi0].
    + now rewrite !Z.testbit_odd_0.
    + replace i with (Z.succ (i - 1)) by lia.
      rewrite !Z.testbit_odd_succ by lia. change 1 with (2 * 0 + 1) at 3.
      rewrite Z.testbit_odd_succ, Z.lnot_spec, Z.bits_0 by lia. apply andb_negb_r.
  - rewrite !Z.shiftl_mul_pow2 by done. unfold Z.lnot. nia.
Qed.

Lemma rhash_ctz_odd_part k m : 0 <= k < 32 -> rhash_ctz ((2 * m + 1) << k) = k.
Proof.
  intros Hk. unfold rhash_ctz.
  assert (A : forall x, x .& u32 (- x) = u32 (x .& - x)).
  { intros x. unfold u32. now rewrite Z.land_assoc. }
  rewrite A, lowest_bit by lia.
  assert (B : all_below 32 (fun k => bit_pos.[Z.to_nat (u32 (u32 (u32 (1 << Z.of_nat k))
    * 0x077CB531) >> 27)] =? Z.of_nat k) = true) by reflexivity.
  apply all_below_spec with (i := Z.to_nat k) in B; [|lia].
  rewrite Z2Nat.id in B by lia. apply Z.eqb_eq in B.
  rewrite <- B at 2. do 4 f_equal.
Qed.

(** The three copy routines on whole groups. *)
Lemma str_to_u32_spec to to_addr q from from_addr k : bytes from ->
  (4 * k <= length from)%nat -> (4 * q + 4 * k <= length to)%nat ->
  rhash_swap_copy_str_to_u32 to to_addr (4 * q) from from_addr (4 * k) =
  mem_write to (4 * q) (swap_groups 4 k from).
Proof.
  intros Hb Hf Ht. unfold rhash_swap_copy_str_to_u32. destruct (_ =? 0).
  - rewrite (group_count 4 k), <- fast_path_groups by lia. apply for_up_ext.
    intros i s Hi. f_equal. apply rev_le_split_load; [done|lia].
  - apply (slow_path_groups 4 3); [lia|apply ixor_3|done|done].
Qed.

Lemma str_to_u64_spec to to_addr q from from_addr k : bytes from ->
  (8 * k <= length from)%nat -> (8 * q + 8 * k <= length to)%nat ->
  rhash_swap_copy_str_to_u64 to to_addr (8 * q) from from_addr (8 * k) =
  mem_write to (8 * q) (swap_groups 8 k from).
Proof.
  intros Hb Hf Ht. unfold rhash_swap_copy_str_to_u64. destruct (_ =? 0).
  - rewrite (group_count 8 k), <- fast_path_groups by lia. apply for_up_ext.
    intros i s Hi. f_equal. apply rev_le_split_load; [done|lia].
  - apply (slow_path_groups 8 7); [lia|apply ixor_7|done|done].
Qed.

Lemma u64_to_str_spec to to_addr from from_addr k : bytes from ->
  (8 * k <= length from)%nat -> (8 * k <= length to)%nat ->
  rhash_swap_copy_u64_to_str to to_addr from from_addr (8 * k) =
  mem_write to 0 (swap_groups 8 k from).
Proof.
  intros Hb Hf Ht. unfold rhash_swap_copy_u64_to_str. destruct (_ =? 0).
  - rewrite (group_count 8 k), <- (fast_path_groups 8 k to 0) by lia. apply for_up_ext.
    intros i s Hi. f_equal. apply rev_le_split_load; [done|lia].
  - rewrite (store_up to 0) by done. f_equal. now apply read_reversed.
Qed.

(** ** Properties *)

(** On whole groups of 4 or 8 bytes, each of the copy routines reverses every group,
    whichever of its two paths the alignment of the pointers selects. *)
Theorem swap_copy_spec to to_addr q from from_addr k :
  bytes from ->
  ((4 * k <= length from)%nat -> (4 * q + 4 * k <= length to)%nat ->
   rhash_swap_copy_str_to_u32 to to_addr (4 * q) from from_addr (4 * k) =
   mem_write to (4 * q) (swap_groups 4 k from)) /\
  ((8 * k <= length from)%nat -> (8 * q + 8 * k <= length to)%nat ->
   rhash_swap_copy_str_to_u64 to to_addr (8 * q) from from_addr (8 * k) =
   mem_write to (8 * q) (swap_groups 8 k from)) /\
  ((8 * k <= length from)%nat -> (8 * k <= length to)%nat ->
   rhash_swap_copy_u64_to_str to to_addr from from_addr (8 * k) =
   mem_write to 0 (swap_groups 8 k from)).
Proof.
  intros Hb. repeat split; intros; [now apply str_to_u32_spec|now apply str_to_u64_spec|].
  now apply u64_to_str_spec.
Qed.

Lemma swap_copy_spec_witness :
  let from := [1; 2; 3; 4; 5; 6; 7; 8] in
  rhash_swap_copy_str_to_u64 (replicate 8 0) 3 (8 * 0) from 4096 (8 * 1) =
  mem_write (replicate 8 0) (8 * 0) (swap_groups 8 1 from).
Proof.
  apply (swap_copy_spec (replicate 8 0) 3 0 [1; 2; 3; 4; 5; 6; 7; 8] 4096 1);
    [by_eval|simpl; lia|simpl; lia].
Defined.

(** [rhash_ctz] is the index of the lowest set bit of every non-zero 32-bit word. *)
Theorem rhash_ctz_spec x :
  0 < x < 2 ^ 32 ->
  0 <= rhash_ctz x < 32 /\ Z.testbit x (rhash_ctz x) = true /\
  forall i, i < rhash_ctz x -> Z.testbit x i = false.
Proof.
  intros Hx. destruct (odd_part x) as (k & m & Hk & Hm & ->); [lia|].
  assert (k < 32) by (apply (odd_part_bound k m 32); lia).
  rewrite (rhash_ctz_odd_part k m) by done. split; [done|]. split.
  - rewrite Z.shiftl_spec, Z.sub_diag by lia. apply Z.testbit_odd_0.
  - intros i Hi. now apply Z.shiftl_spec_low.
Qed.

Lemma rhash_ctz_spec_witness :
  0 <= rhash_ctz 40 < 32 /\ Z.testbit 40 (rhash_ctz 40) = true /\
  forall i, i < rhash_ctz 40 -> Z.testbit 40 i = false.
Proof. apply (rhash_ctz_spec 40). lia. Defined.
