(* ===== verification/BlockBuffer.v ===== *)
(** * Block-wise hashing

    The machinery that the iterated hash functions share: how a message is cut into
    blocks, and the interface of a hash function that is fed in pieces (an [init], an
    [update] and a [close] over a context with a partial-block buffer).  Each hash
    function proves the laws of the interface; what follows from them is proved here
    once. *)

From S2P Require Import Prelude Words.

(** ** Cutting a message into blocks *)

Section Blocks.
Context {St : Type} (B : nat) (step : St -> list Z -> St) (HB : (0 < B)%nat).

(** Process the first [n] blocks of [m]. *)
Fixpoint absorb_n (n : nat) (s : St) (m : list Z) : St :=
  match n with O => s | S n => absorb_n n (step s (take B m)) (drop B m) end.

(** Process all the whole blocks of [m]; [tail] is what is left over. *)
Definition absorb (s : St) (m : list Z) : St := absorb_n (length m / B) s m.
Definition tail (m : list Z) : list Z := drop (length m / B * B) m.

Lemma length_tail m : length (tail m) = (length m mod B)%nat.
Proof.
  unfold tail. rewrite length_drop. pose proof (Nat.div_mod_eq (length m) B). lia.
Qed.

Lemma absorb_short s m : (length m < B)%nat -> absorb s m = s.
Proof. intros H. unfold absorb. now rewrite Nat.div_small. Qed.

Lemma tail_short m : (length m < B)%nat -> tail m = m.
Proof. intros H. unfold tail. now rewrite Nat.div_small. Qed.

Lemma div_add_block n : ((B + n) / B = S (n / B))%nat.
Proof. replace (B + n)%nat with (n + 1 * B)%nat by lia. rewrite Nat.div_add; lia. Qed.

Lemma absorb_block s b m : length b = B -> absorb s (b ++ m) = absorb (step s b) m.
Proof.
  intros H. unfold absorb. rewrite length_app, H, div_add_block. cbn [absorb_n].
  now rewrite take_app_length', drop_app_length'.
Qed.

Lemma tail_block b m : length b = B -> tail (b ++ m) = tail m.
Proof.
  intros H. unfold tail. rewrite length_app, H, div_add_block.
  rewrite drop_app_ge by nia. f_equal. nia.
Qed.

Lemma absorb_one s b : length b = B -> absorb s b = step s b.
Proof.
  intros H. rewrite <- (app_nil_r b) at 1. rewrite absorb_block by done.
  now apply absorb_short.
Qed.

(** Splitting off one block at a time. *)
Lemma blocks_ind (P : list Z -> Prop) :
  (forall m, (length m < B)%nat -> P m) ->
  (forall b m, length b = B -> P m -> P (b ++ m)) -> forall m, P m.
Proof.
  intros Hs Hb m. remember (length m) as n eqn:Hn. revert m Hn.
  induction n as [n IH] using lt_wf_ind. intros m ->.
  destruct (Nat.lt_ge_cases (length m) B) as [H|H]; [now apply Hs|].
  rewrite <- (take_drop B m). apply Hb; [rewrite length_take; lia|].
  eapply IH; [|reflexivity]. rewrite length_drop. lia.
Qed.

Lemma absorb_app s m1 m2 : absorb s (m1 ++ m2) = absorb (absorb s m1) (tail m1 ++ m2).
Proof.
  revert s. induction m1 as [m H|b m H IH] using blocks_ind; intros s.
  - now rewrite (absorb_short s m), (tail_short m).
  - rewrite <- app_assoc, !(absorb_block _ b), (tail_block b) by done. apply IH.
Qed.

Lemma tail_app m1 m2 : tail (m1 ++ m2) = tail (tail m1 ++ m2).
Proof.
  induction m1 as [m H|b m H IH] using blocks_ind.
  - now rewrite (tail_short m).
  - now rewrite <- app_assoc, !(tail_block b).
Qed.

Lemma absorb_inv (P : St -> Prop) s m :
  bytes m -> P s -> (forall s b, P s -> bytes b -> length b = B -> P (step s b)) ->
  P (absorb s m).
Proof.
  intros Hm Hs Hstep. revert s Hs Hm.
  induction m as [m H|b m H IH] using blocks_ind; intros s Hs Hm.
  - now rewrite absorb_short.
  - apply Forall_app in Hm as [Hb Hm]. rewrite absorb_block by done. auto.
Qed.

(** A partial-block buffer that holds the tail of the message [m]. *)
Definition holds (buf m : list Z) : Prop :=
  length buf = B /\ take (length m mod B) buf = tail m.

Lemma rem_lt (m : list Z) : (length m mod B < B)%nat.
Proof. apply Nat.mod_upper_bound. lia. Qed.

(** Data that does not complete the block is appended to the buffer ... *)
Lemma holds_append buf m d :
  holds buf m -> (length m mod B + length d < B)%nat ->
  holds (mem_write buf (length m mod B) d) (m ++ d) /\
  forall s, absorb s (m ++ d) = absorb s m.
Proof.
  intros [Hl Ht] Hd. split; [split|].
  - rewrite length_mem_write; lia.
  - assert (E : (length (m ++ d) mod B = length m mod B + length d)%nat).
    { rewrite length_app, <- Nat.Div0.add_mod_idemp_l. now apply Nat.mod_small. }
    rewrite E, take_mem_write, Ht by (pose proof (rem_lt m); lia).
    rewrite tail_app, (tail_short (tail m ++ d)); [done|].
    rewrite length_app, length_tail. lia.
  - intros s. rewrite absorb_app, (absorb_short _ (tail m ++ d)); [done|].
    rewrite length_app, length_tail. lia.
Qed.

(** ... and data that completes it gives the next block. *)
Lemma holds_fill buf m d :
  holds buf m -> (length m mod B + length d = B)%nat ->
  mem_write buf (length m mod B) d = tail m ++ d /\
  (forall s d', absorb s (m ++ d ++ d') = absorb (step (absorb s m) (tail m ++ d)) d') /\
  (forall d', tail (m ++ d ++ d') = tail d') /\
  (forall d', length (m ++ d ++ d') mod B = length d' mod B)%nat.
Proof.
  intros [Hl Ht] Hd.
  assert (HB' : length (tail m ++ d) = B) by (rewrite length_app, length_tail; lia).
  split; [|split; [|split]].
  - rewrite mem_write_full, Ht; [done| |]; pose proof (rem_lt m); lia.
  - intros s d'. now rewrite absorb_app, app_assoc, absorb_block.
  - intros d'. now rewrite tail_app, app_assoc, tail_block.
  - intros d'. rewrite !length_app, Nat.add_assoc, <- Nat.Div0.add_mod_idemp_l.
    rewrite <- (Nat.Div0.add_mod_idemp_l (length m)), Hd, Nat.Div0.mod_same. done.
Qed.

(** At a block boundary nothing is held. *)
Lemma tail_aligned m : (length m mod B = 0)%nat -> tail m = [].
Proof. intros H. apply length_zero_iff_nil. now rewrite length_tail. Qed.

Lemma holds_tail (buf m d : list Z) :
  (length m mod B = 0)%nat -> length buf = B -> holds (mem_write buf 0 (tail d)) (m ++ d).
Proof.
  intros Hm Hl. pose proof (length_tail d) as Hd. pose proof (rem_lt d). split.
  - rewrite length_mem_write; lia.
  - rewrite length_app, <- Nat.Div0.add_mod_idemp_l, Hm, Nat.add_0_l, <- Hd.
    rewrite tail_app, (tail_aligned m Hm). rewrite <- (Nat.add_0_l (length (tail d))).
    now rewrite take_mem_write by lia.
Qed.

Lemma absorb_aligned s m d :
  (length m mod B = 0)%nat -> absorb s (m ++ d) = absorb (absorb s m) d.
Proof. intros H. now rewrite absorb_app, tail_aligned. Qed.

(** A padding that completes the last block. *)
Lemma absorb_pad s m p :
  (length m mod B + length p = B)%nat -> absorb s (m ++ p) = step (absorb s m) (tail m ++ p).
Proof.
  intros H. rewrite absorb_app. rewrite <- (app_nil_r (tail m ++ p)).
  rewrite absorb_block by (rewrite length_app, length_tail; lia).
  rewrite app_nil_r. now apply absorb_short.
Qed.
End Blocks.

Lemma bytes_tail B m : bytes m -> bytes (tail B m).
Proof. apply Forall_drop. Qed.

Lemma absorb_ext {St} B (f g : St -> list Z -> St) s m :
  (0 < B)%nat -> (forall s b, length b = B -> f s b = g s b) ->
  absorb B f s m = absorb B g s m.
Proof.
  intros HB H. revert s. induction m as [m Hm|b m Hb IH] using (blocks_ind B HB); intros s.
  - now rewrite !absorb_short.
  - rewrite !absorb_block, H; auto.
Qed.

Lemma absorb_ext_inv {St} B (P : St -> Prop) (f g : St -> list Z -> St) s m :
  (0 < B)%nat -> P s -> (forall s b, P s -> f s b = g s b /\ P (g s b)) ->
  absorb B f s m = absorb B g s m /\ P (absorb B g s m).
Proof.
  intros HB Hs H. unfold absorb. generalize (length m / B)%nat as n. intros n. revert s m Hs.
  induction n as [|n IH]; intros s m Hs; [done|]. cbn [absorb_n].
  destruct (H s (take B m) Hs) as [E Hg]. rewrite E. now apply IH.
Qed.

(** ** Hash functions fed in pieces *)

(** The operations: [sh_update] also takes the address of the data, on which the
    alignment tests of the C code depend. *)
Class StreamHash (Ctx : Type) := {
  sh_init : Ctx -> Ctx;
  sh_update : Ctx -> Z -> list Z -> Ctx;
  sh_close : Ctx -> list Z;
}.

(** The laws: [sh_raw] are the contexts as allocated, [sh_repr c m] says that [c] has been
    fed the bytes [m], and [sh_digest] is the hash function. *)
Class StreamHashSpec (Ctx : Type) `{StreamHash Ctx} := {
  sh_raw : Ctx -> Prop;
  sh_repr : Ctx -> list Z -> Prop;
  sh_digest : list Z -> list Z;
  sh_repr_init : forall c, sh_raw c -> sh_repr (sh_init c) [];
  sh_repr_update : forall c a m d,
    bytes d -> sh_repr c m -> sh_repr (sh_update c a d) (m ++ d);
  sh_repr_close : forall c m, sh_repr c m -> sh_close c = sh_digest m;
}.

Section Streaming.
Context {Ctx : Type} `{StreamHashSpec Ctx}.

(** Feed a list of (address, data) pieces. *)
Definition sh_feed (c : Ctx) (pieces : list (Z * list Z)) : Ctx :=
  fold_left (fun c p => sh_update c p.1 p.2) pieces c.

Definition sh_oneshot (c : Ctx) (a : Z) (m : list Z) : list Z :=
  sh_close (sh_update (sh_init c) a m).

Lemma sh_repr_feed c m pieces :
  Forall (fun p => bytes p.2) pieces -> sh_repr c m ->
  sh_repr (sh_feed c pieces) (m ++ mjoin (snd <$> pieces)).
Proof.
  intros Hp. revert c m. induction Hp as [|[a d] ps Hd Hps IH]; intros c m Hm.
  - now rewrite app_nil_r.
  - simpl. rewrite app_assoc. apply IH. now apply sh_repr_update.
Qed.

(** However the message is cut, the digest is that of the whole message. *)
Lemma sh_streaming c pieces :
  sh_raw c -> Forall (fun p => bytes p.2) pieces ->
  sh_close (sh_feed (sh_init c) pieces) = sh_digest (mjoin (snd <$> pieces)).
Proof.
  intros Hc Hp. apply sh_repr_close.
  apply (sh_repr_feed _ []); [done|]. now apply sh_repr_init.
Qed.

Lemma sh_oneshot_digest c a m : sh_raw c -> bytes m -> sh_oneshot c a m = sh_digest m.
Proof.
  intros Hc Hm. unfold sh_oneshot. apply sh_repr_close.
  apply (sh_repr_update _ _ []); [done|]. now apply sh_repr_init.
Qed.
End Streaming.
