(* ===== verification/CoreHash.v ===== *)
(** * The hasher classes of crypto/

    [CSHA256] and its sisters of [crypto/] share the text of [Write] and of the padding in
    [Finalize]; they differ in the block size, the transformation and the way the state is
    written out.  This file has the shared object and code, parametrised by these, and the
    proof that it hashes the padded message block by block. *)

From S2P Require Import Prelude Words BlockBuffer.

(** The object: the chaining value, the partial block and the number of bytes fed. *)
Record core_hasher := mk_hasher { s : list Z; buf : list Z; bytes_fed : Z }.

Section Hasher.
Context (B : nat) (Initialize : list Z) (Transform : list Z -> list Z -> list Z).

(** [while (end >= data + B) { Transform(s, data); bytes += B; data += B; }] *)
Fixpoint write_chunks (fuel : nat) (c : core_hasher) (data : list Z) : core_hasher * list Z :=
  match fuel with
  | O => (c, data)
  | S fuel =>
      if (B <=? length data)%nat then
        write_chunks fuel
          {| s := Transform (s c) (take B data); buf := buf c;
             bytes_fed := u64 (bytes_fed c + Z.of_nat B) |}
          (drop B data)
      else (c, data)
  end.

Definition core_Write (c : core_hasher) (data : list Z) : core_hasher :=
  let len := length data in
  let bufsize := Z.to_nat (bytes_fed c mod Z.of_nat B) in
  let '(c, data, bufsize) :=
    if negb (bufsize =? 0)%nat && (B <=? bufsize + len)%nat then
      let chunk := mem_write (buf c) bufsize (take (B - bufsize) data) in
      ({| s := Transform (s c) chunk; buf := chunk;
          bytes_fed := u64 (bytes_fed c + Z.of_nat (B - bufsize)) |},
       drop (B - bufsize) data, 0%nat)
    else (c, data, bufsize) in
  let '(c, data) := write_chunks (length data) c data in
  if (0 <? length data)%nat then
    {| s := s c; buf := mem_write (buf c) bufsize data;
       bytes_fed := u64 (bytes_fed c + Z.of_nat (length data)) |}
  else c.

(** The padding of [Finalize]: [0x80], zeros, and the description [sizedesc] of the size. *)
Definition core_pad (c : core_hasher) (sizedesc : list Z) : core_hasher :=
  let pad := 0x80 :: replicate (B - 1) 0 in
  let n := Z.to_nat (1 + (2 * Z.of_nat B - 1 - Z.of_nat (length sizedesc)
                          - bytes_fed c mod Z.of_nat B) mod Z.of_nat B) in
  core_Write (core_Write c (take n pad)) sizedesc.

Definition core_Reset (c : core_hasher) : core_hasher :=
  {| s := Initialize; buf := buf c; bytes_fed := 0 |}.

(** ** The hash of a padded message *)

(** The number of zero bytes that fill the last block of a message of [n] bytes, a one
    bit and [k] bytes of size. *)
Definition zeros_for (n k : nat) : nat := ((2 * B - 1 - k - n mod B) mod B)%nat.
Definition padded (m sizedesc : list Z) : list Z :=
  m ++ [0x80] ++ replicate (zeros_for (length m) (length sizedesc)) 0 ++ sizedesc.

Context (HB : (0 < B)%nat) (Hdiv : (Z.of_nat B | 2 ^ 64)).

Definition core_repr (c : core_hasher) (m : list Z) : Prop :=
  bytes m /\ s c = absorb B Transform Initialize m /\ holds B (buf c) m /\
  bytes_fed c = u64 (Z.of_nat (length m)).

Lemma count_mod n : Z.to_nat (u64 (Z.of_nat n) mod Z.of_nat B) = (n mod B)%nat.
Proof.
  rewrite u64_wrap, wrap_mod by lia.
  now rewrite Z.mod_mod_divide, <- Nat2Z.inj_mod, Nat2Z.id.
Qed.

Lemma count_add a b : u64 (u64 a + b) = u64 (a + b).
Proof. rewrite !u64_wrap. now apply wrap_add_l. Qed.

Lemma write_chunks_spec fuel c m data :
  (length data <= fuel)%nat -> bytes data -> core_repr c m -> (length m mod B = 0)%nat ->
  let r := write_chunks fuel c data in
  exists pre, data = pre ++ r.2 /\ core_repr r.1 (m ++ pre) /\
    (length (m ++ pre) mod B = 0)%nat /\ (length r.2 < B)%nat.
Proof.
  revert c m data. induction fuel as [|fuel IH]; intros c m data Hf Hd Hc Hm; cbn [write_chunks].
  - exists []. rewrite app_nil_r. simpl. repeat split; try apply Hc; auto. lia.
  - destruct (Nat.leb_spec B (length data)) as [Hl|Hl].
    2:{ exists []. rewrite app_nil_r. split; [done|]. split; [done|]. split; [done|exact Hl]. }
    assert (Ht : length (take B data) = B) by (rewrite length_take; lia).
    assert (Hm' : (length (m ++ take B data) mod B = 0)%nat).
    { rewrite length_app, Ht, <- Nat.Div0.add_mod_idemp_l, Hm, Nat.add_0_l.
      apply Nat.Div0.mod_same. }
    destruct (IH {| s := Transform (s c) (take B data); buf := buf c;
                    bytes_fed := u64 (bytes_fed c + Z.of_nat B) |}
                 (m ++ take B data) (drop B data)) as (pre & E & Hr & Hmod & Hs).
    + rewrite length_drop. lia.
    + now apply Forall_drop.
    + destruct Hc as (Hbm & Hs & [Hbl Hbt] & Hn).
      split; [|split; [|split]].
      * apply Forall_app_2; [done|now apply Forall_take].
      * cbn [s]. rewrite Hs, absorb_aligned by done. symmetry. now apply absorb_one.
      * split; [done|]. now rewrite Hm', tail_aligned.
      * cbn [bytes_fed]. rewrite Hn, count_add, length_app, Ht. f_equal. lia.
    + done.
    + exists (take B data ++ pre). rewrite <- app_assoc, <- E, take_drop.
      rewrite <- (app_assoc m) in Hr. rewrite <- app_assoc in Hmod. auto.
Qed.

(** What is left is stored in the buffer. *)
Lemma store_rest c m data bufsize :
  core_repr c m -> bytes data -> bufsize = (length m mod B)%nat ->
  (bufsize + length data < B)%nat ->
  core_repr (if (0 <? length data)%nat then
      {| s := s c; buf := mem_write (buf c) bufsize data;
         bytes_fed := u64 (bytes_fed c + Z.of_nat (length data)) |}
    else c) (m ++ data).
Proof.
  intros Hc Hd -> Hl. destruct (Nat.ltb_spec 0 (length data)) as [H|H].
  - destruct Hc as (Hm & Hs & Hh & Hn).
    destruct (holds_append B Transform HB _ _ _ Hh Hl) as [Hb Ha].
    split; [|split; [|split]]; cbn [s buf bytes_fed].
    + now apply Forall_app_2.
    + now rewrite Ha.
    + done.
    + rewrite Hn, count_add, length_app. f_equal. lia.
  - destruct data; [|simpl in H; lia]. now rewrite app_nil_r.
Qed.

(** The rest of [Write], once the buffer is empty. *)
Lemma write_aligned c m data :
  core_repr c m -> bytes data -> (length m mod B = 0)%nat ->
  core_repr
    (let '(c, data) := write_chunks (length data) c data in
     if (0 <? length data)%nat then
       {| s := s c; buf := mem_write (buf c) 0 data;
          bytes_fed := u64 (bytes_fed c + Z.of_nat (length data)) |}
     else c) (m ++ data).
Proof.
  intros Hc Hd Hm.
  destruct (write_chunks_spec (length data) c m data) as (pre & E & Hr & Hmod & Hl); auto.
  destruct (write_chunks (length data) c data) as [c' rest]. cbn [fst snd] in *.
  subst data. apply Forall_app in Hd as [_ Hd]. rewrite app_assoc.
  apply store_rest; auto.
Qed.

Lemma write_chunks_none c data : (length data < B)%nat ->
  write_chunks (length data) c data = (c, data).
Proof.
  intros H. destruct (length data) eqn:E; [done|]. cbn [write_chunks].
  rewrite <- E in H. now rewrite (proj2 (Nat.leb_gt _ _)) by lia.
Qed.

Lemma core_Write_repr c m data :
  core_repr c m -> bytes data -> core_repr (core_Write c data) (m ++ data).
Proof.
  intros Hc Hd. pose proof Hc as (Hm & Hs & Hh & Hn). unfold core_Write. rewrite Hn, count_mod.
  pose proof (rem_lt B HB m) as Hr. set (r := (length m mod B)%nat) in *.
  destruct (Nat.eqb_spec r 0) as [Hr0|Hr0]; cbn [negb andb].
  { rewrite Hr0. now apply write_aligned. }
  destruct (Nat.leb_spec B (r + length data)) as [Hl|Hl].
  - set (d1 := take (B - r) data). set (d2 := drop (B - r) data).
    assert (E : data = d1 ++ d2) by (symmetry; apply take_drop).
    assert (Hl1 : (r + length d1 = B)%nat) by (unfold d1; rewrite length_take; lia).
    destruct (holds_fill B Transform HB (buf c) m d1 Hh Hl1) as (Ew & Ha & _ & Hmod).
    fold r in Ew. rewrite Ew.
    assert (Em : m ++ data = (m ++ d1) ++ d2) by now rewrite E, app_assoc.
    rewrite Em.
    specialize (Ha Initialize []). specialize (Hmod []). rewrite app_nil_r in Ha, Hmod.
    rewrite Nat.Div0.mod_0_l in Hmod.
    rewrite E in Hd. apply Forall_app in Hd as [Hd1 Hd2].
    apply write_aligned; [|done|done].
    split; [|split; [|split]]; cbn [s buf bytes_fed].
    + now apply Forall_app_2.
    + now rewrite Ha, absorb_short, Hs by (simpl; lia).
    + split; [rewrite length_app, length_tail by done; fold r; lia|].
      rewrite Hmod. symmetry. now apply tail_aligned.
    + rewrite count_add, length_app. f_equal. lia.
  - rewrite write_chunks_none by lia. now apply store_rest.
Qed.

Lemma core_Reset_repr c : length (buf c) = B -> core_repr (core_Reset c) [].
Proof.
  intros H. split; [apply Forall_nil_2|]. split; [|split].
  - now rewrite absorb_short by (simpl; lia).
  - split; [done|]. simpl length. rewrite Nat.Div0.mod_0_l, take_0.
    now rewrite tail_short by (simpl; lia).
  - done.
Qed.

Lemma core_pad_repr c m sizedesc :
  core_repr c m -> bytes sizedesc -> (length sizedesc < B)%nat ->
  core_repr (core_pad c sizedesc) (padded m sizedesc).
Proof.
  intros Hc Hs Hl. pose proof Hc as (_ & _ & _ & Hn). unfold core_pad, padded.
  pose proof (rem_lt B HB m) as Hr.
  assert (E : (bytes_fed c mod Z.of_nat B = Z.of_nat (length m mod B))%Z).
  { rewrite <- count_mod, <- Hn, Z2Nat.id; [done|]. apply Z.mod_pos_bound. lia. }
  rewrite E. set (k := length sizedesc) in *.
  replace (Z.to_nat _) with (S (zeros_for (length m) k)).
  2:{ unfold zeros_for.
      replace (2 * Z.of_nat B - 1 - Z.of_nat k - Z.of_nat (length m mod B))%Z
        with (Z.of_nat (2 * B - 1 - k - length m mod B)) by lia.
      rewrite <- Nat2Z.inj_mod. lia. }
  assert (Hz : (zeros_for (length m) k <= B - 1)%nat).
  { unfold zeros_for. pose proof (Nat.mod_upper_bound (2 * B - 1 - k - length m mod B) B). lia. }
  rewrite (app_assoc [0x80]), (app_assoc m). apply core_Write_repr; [|done].
  simpl take. rewrite take_replicate, Nat.min_l by done.
  apply core_Write_repr; [done|]. constructor; [by_eval|]. apply Forall_replicate. by_eval.
Qed.

(** A padded message is a whole number of blocks. *)
Lemma padded_blocks m sizedesc : (length sizedesc < B)%nat ->
  (length (padded m sizedesc) mod B = 0)%nat.
Proof.
  intros Hl. unfold padded, zeros_for. rewrite !length_app, length_replicate. simpl length.
  set (n := length m). set (k := length sizedesc) in *.
  pose proof (Nat.mod_upper_bound n B ltac:(lia)) as Hn.
  assert (E : ((n + (1 + ((2 * B - 1 - k - n mod B) mod B + k))) =
    (2 * B - 1 - k - n mod B) mod B + (n + 1 + k))%nat) by lia.
  rewrite E, Nat.Div0.add_mod_idemp_l.
  replace (2 * B - 1 - k - n mod B + (n + 1 + k))%nat with ((2 + n / B) * B)%nat.
  - apply Nat.Div0.mod_mul.
  - pose proof (Nat.div_mod_eq n B). nia.
Qed.
End Hasher.
