(* ===== verification/SHA256.v ===== *)
(** * SHA-256 ([crypto/sha256.cpp]) and the double SHA-256 of [hash.h]

    The class [CSHA256] and its transformation, the specification of FIPS 180-4, and the
    proof that they agree; then [CHash256] and the [Hash] functions built on it. *)

From S2P Require Import Prelude Words BlockBuffer CoreHash.

(** ** Big-endian words ([crypto/common.h]) *)

Definition ReadBE32 (p : list Z) (off : nat) : Z := be_combine (mem_read p off 4).
Definition WriteBE32 (x : Z) : list Z := be_split 4 x.
Definition WriteBE64 (x : Z) : list Z := be_split 8 x.

(** ** The transformation *)

Definition Ch (x y z : Z) : Z := z ^^ (x .& (y ^^ z)).
Definition Maj (x y z : Z) : Z := (x .& y) .| (z .& (x .| y)).
Definition Sigma0 (x : Z) : Z :=
  ((x >> 2) .| u32 (x << 30)) ^^ ((x >> 13) .| u32 (x << 19)) ^^ ((x >> 22) .| u32 (x << 10)).
Definition Sigma1 (x : Z) : Z :=
  ((x >> 6) .| u32 (x << 26)) ^^ ((x >> 11) .| u32 (x << 21)) ^^ ((x >> 25) .| u32 (x << 7)).
Definition sigma0 (x : Z) : Z :=
  ((x >> 7) .| u32 (x << 25)) ^^ ((x >> 18) .| u32 (x << 14)) ^^ (x >> 3).
Definition sigma1 (x : Z) : Z :=
  ((x >> 17) .| u32 (x << 15)) ^^ ((x >> 19) .| u32 (x << 13)) ^^ (x >> 10).

(** One round; it assigns its arguments [d] and [h]. *)
Definition Round (a b c d e f g h k w : Z) : Z * Z :=
  let t1 := u32 (h + Sigma1 e + Ch e f g + k + w) in
  let t2 := u32 (Sigma0 a + Maj a b c) in
  (u32 (d + t1), u32 (t1 + t2)).

Definition Initialize : list Z :=
  [0x6a09e667; 0xbb67ae85; 0x3c6ef372; 0xa54ff53a;
   0x510e527f; 0x9b05688c; 0x1f83d9ab; 0x5be0cd19].

(** The constants of the 64 lines of [Transform]. *)
Definition round_constants : list Z := mjoin
  [[0x428a2f98; 0x71374491; 0xb5c0fbcf; 0xe9b5dba5]; [0x3956c25b; 0x59f111f1; 0x923f82a4; 0xab1c5ed5];
   [0xd807aa98; 0x12835b01; 0x243185be; 0x550c7dc3]; [0x72be5d74; 0x80deb1fe; 0x9bdc06a7; 0xc19bf174];
   [0xe49b69c1; 0xefbe4786; 0x0fc19dc6; 0x240ca1cc]; [0x2de92c6f; 0x4a7484aa; 0x5cb0a9dc; 0x76f988da];
   [0x983e5152; 0xa831c66d; 0xb00327c8; 0xbf597fc7]; [0xc6e00bf3; 0xd5a79147; 0x06ca6351; 0x14292967];
   [0x27b70a85; 0x2e1b2138; 0x4d2c6dfc; 0x53380d13]; [0x650a7354; 0x766a0abb; 0x81c2c92e; 0x92722c85];
   [0xa2bfe8a1; 0xa81a664b; 0xc24b8b70; 0xc76c51a3]; [0xd192e819; 0xd6990624; 0xf40e3585; 0x106aa070];
   [0x19a4c116; 0x1e376c08; 0x2748774c; 0x34b0bcb5]; [0x391c0cb3; 0x4ed8aa4a; 0x5b9cca4f; 0x682e6ff3];
   [0x748f82ee; 0x78a5636f; 0x84c87814; 0x8cc70208]; [0x90befffa; 0xa4506ceb; 0xbef9a3f7; 0xc67178f2]].

(** Line [i] names the variables [a], ..., [h] in an order rotated by [i]: its argument
    number [j] is the variable number [var i j]. *)
Definition var (i j : nat) : nat := ((j + (64 - i)) mod 8)%nat.

(** The last argument of line [i]: for the first 16 lines a word of the chunk, then an
    update of one of the 16 words [w0], ..., [w15].  (The last two lines do not store
    the word, which is not read again.) *)
Definition message_word (chunk w : list Z) (i : nat) : Z :=
  if (i <? 16)%nat then ReadBE32 chunk (4 * i)
  else u32 (w.[i mod 16] + (sigma1 w.[(i + 14) mod 16] + w.[(i + 9) mod 16]
                            + sigma0 w.[(i + 1) mod 16])).

Definition transform_line (chunk : list Z) (i : nat) (vw : list Z * list Z) : list Z * list Z :=
  let '(v, w) := vw in
  let x := message_word chunk w i in
  let w := if (i <? 62)%nat then <[(i mod 16)%nat := x]> w else w in
  let '(d, h) := Round v.[var i 0] v.[var i 1] v.[var i 2] v.[var i 3]
                       v.[var i 4] v.[var i 5] v.[var i 6] v.[var i 7] round_constants.[i] x in
  (<[var i 7 := h]> (<[var i 3 := d]> v), w).

Definition Transform (s chunk : list Z) : list Z :=
  let '(v, w) := for_up 64 (transform_line chunk) (s, replicate 16 0) in
  zip_with (fun x y => u32 (x + y)) s v.

(** ** The class *)

(** The constructor initialises the state; the buffer is what was in memory. *)
Definition CSHA256_new (memory : list Z) : core_hasher :=
  {| s := Initialize; buf := memory; bytes_fed := 0 |}.
Definition CSHA256_Write : core_hasher -> list Z -> core_hasher := core_Write 64 Transform.
Definition CSHA256_Reset : core_hasher -> core_hasher := core_Reset Initialize.
Definition CSHA256_Finalize (c : core_hasher) : core_hasher * list Z :=
  let sizedesc := WriteBE64 (u64 (bytes_fed c << 3)) in
  let c := core_pad 64 Transform c sizedesc in
  (c, mjoin (WriteBE32 <$> take 8 (s c))).

(** ** The standard *)

Module FIPS180.

Definition ROTR (n x : Z) : Z := rotr 32 x n.
Definition Ch (x y z : Z) : Z := (x .& y) ^^ (Z.lnot x .& z).
Definition Maj (x y z : Z) : Z := (x .& y) ^^ (x .& z) ^^ (y .& z).
Definition SIGMA0 (x : Z) : Z := ROTR 2 x ^^ ROTR 13 x ^^ ROTR 22 x.
Definition SIGMA1 (x : Z) : Z := ROTR 6 x ^^ ROTR 11 x ^^ ROTR 25 x.
Definition sigma0 (x : Z) : Z := ROTR 7 x ^^ ROTR 18 x ^^ (x >> 3).
Definition sigma1 (x : Z) : Z := ROTR 17 x ^^ ROTR 19 x ^^ (x >> 10).

(** The first primes, and the first 32 bits of the fractional parts of their square and
    cube roots. *)
Definition is_prime (n : nat) : bool :=
  (1 <? n)%nat && forallb (fun d => negb (n mod d =? 0)%nat) (seq 2 (n - 2)).
Definition primes : list Z := Z.of_nat <$> List.filter is_prime (seq 0 312).
Definition cube_root (n : Z) : Z :=
  fold_left (fun r k => let r' := r + 2 ^ k in if r' ^ 3 <=? n then r' else r)
    (rev (Z.of_nat <$> seq 0 40)) 0.
Definition K : list Z := (fun p => u32 (cube_root (p * 2 ^ 96))) <$> take 64 primes.
Definition H0 : list Z := (fun p => u32 (Z.sqrt (p * 2 ^ 64))) <$> take 8 primes.

(** The message schedule of a block. *)
Definition schedule_word (M ws : list Z) (t : nat) : Z :=
  if (t <? 16)%nat then M.[t]
  else (sigma1 ws.[t - 2] + ws.[t - 7] + sigma0 ws.[t - 15] + ws.[t - 16]) mod 2 ^ 32.
Definition schedule (M : list Z) (n : nat) : list Z :=
  for_up n (fun t ws => ws ++ [schedule_word M ws t]) [].

(** The working variables [a], ..., [h]. *)
Definition step (k w : Z) (v : list Z) : list Z :=
  match v with
  | [a; b; c; d; e; f; g; h] =>
      let T1 := h + SIGMA1 e + Ch e f g + k + w in
      let T2 := SIGMA0 a + Maj a b c in
      [(T1 + T2) mod 2 ^ 32; a; b; c; (d + T1) mod 2 ^ 32; e; f; g]
  | _ => v
  end.

Definition block_words (b : list Z) : list Z := (fun i => be_combine (mem_read b (4 * i) 4)) <$> seq 0 16.

Definition compress (H b : list Z) : list Z :=
  let W := schedule (block_words b) 64 in
  zip_with (fun x y => (x + y) mod 2 ^ 32) H
    (for_up 64 (fun t => step K.[t] W.[t]) H).

(** The padding, and the digest of a message. *)
Definition pad (m : list Z) : list Z :=
  m ++ [0x80] ++ replicate ((119 - length m mod 64) mod 64) 0
    ++ be_split 8 (8 * Z.of_nat (length m)).
Definition sha256 (m : list Z) : list Z :=
  mjoin (be_split 4 <$> absorb 64 compress H0 (pad m)).

End FIPS180.

(** ** The transformation is the compression function of the standard *)

Lemma Ch_eq x y z : Ch x y z = FIPS180.Ch x y z.
Proof.
  apply Z.bits_inj'. intros i Hi. unfold Ch, FIPS180.Ch.
  rewrite !Z.lxor_spec, !Z.land_spec, Z.lxor_spec, Z.lnot_spec by done.
  now destruct (Z.testbit x i), (Z.testbit y i), (Z.testbit z i).
Qed.

Lemma Maj_eq x y z : Maj x y z = FIPS180.Maj x y z.
Proof.
  apply Z.bits_inj'. intros i Hi. unfold Maj, FIPS180.Maj.
  rewrite !Z.lxor_spec, !Z.lor_spec, !Z.land_spec, Z.lor_spec.
  now destruct (Z.testbit x i), (Z.testbit y i), (Z.testbit z i).
Qed.

(** A round computes the two new values of a step of the standard. *)
Lemma Round_step a b c d e f g h k w :
  FIPS180.step k w [a; b; c; d; e; f; g; h] =
  let '(d', h') := Round a b c d e f g h k w in [h'; a; b; c; d'; e; f; g].
Proof.
  unfold Round, FIPS180.step. cbv zeta.
  change (Sigma0 a) with (FIPS180.SIGMA0 a). change (Sigma1 e) with (FIPS180.SIGMA1 e).
  rewrite Ch_eq, Maj_eq, !u32_mod.
  now rewrite !Zplus_mod_idemp_r, Zplus_mod_idemp_l.
Qed.

Lemma constants_eq : round_constants = FIPS180.K /\ Initialize = FIPS180.H0.
Proof. split; vm_compute; reflexivity. Qed.

Lemma message_schedule_spec M n : length (FIPS180.schedule M n) = n /\
  forall t, (t < n)%nat -> (FIPS180.schedule M n).[t] = FIPS180.schedule_word M (FIPS180.schedule M n) t.
Proof.
  unfold FIPS180.schedule.
  apply (for_up_inv (fun n ws => length ws = n /\
    forall t, (t < n)%nat -> ws.[t] = FIPS180.schedule_word M ws t)); [now split; [|lia]|].
  intros i ws _ [Hl Hw]. split; [rewrite length_app, Hl; simpl; lia|].
  assert (E : forall t, (t <= i)%nat ->
    FIPS180.schedule_word M (ws ++ [FIPS180.schedule_word M ws i]) t = FIPS180.schedule_word M ws t).
  { intros t Ht. unfold FIPS180.schedule_word at 1 3. destruct (Nat.ltb_spec t 16); [done|].
    now rewrite !app_nth1 by lia. }
  intros t Ht. rewrite E by lia. destruct (Nat.eq_dec t i) as [->|Hne].
  - now rewrite app_nth2, Hl, Nat.sub_diag by lia.
  - rewrite app_nth1 by lia. apply Hw. lia.
Qed.

(** The indices of a line are distinct, and those of the next line are rotated. *)
Lemma var_check : all_below 64 (fun i => all_below 8 (fun j =>
  (var i j <? 8)%nat && (var (S i) j =? var i ((j + 7) mod 8))%nat &&
  all_below 8 (fun j' => (j =? j')%nat || negb (var i j =? var i j')%nat))) = true.
Proof. vm_compute. reflexivity. Qed.

Lemma var_spec i j : (i < 64)%nat -> (j < 8)%nat ->
  (var i j < 8)%nat /\ var (S i) j = var i ((j + 7) mod 8) /\
  forall j', (j' < 8)%nat -> j <> j' -> var i j <> var i j'.
Proof.
  intros Hi Hj. pose proof (all_below_spec _ _ (all_below_spec _ _ var_check i Hi) j Hj) as H.
  apply andb_true_iff in H as [H Hd]. apply andb_true_iff in H as [H1 H2].
  apply Nat.ltb_lt in H1. apply Nat.eqb_eq in H2. split; [done|]. split; [done|].
  intros j' Hj' Hne E. pose proof (all_below_spec _ _ Hd j' Hj') as H. cbv beta in H.
  rewrite E, Nat.eqb_refl, orb_false_r in H. now apply Nat.eqb_eq in H.
Qed.

(** The working variables, in the order of line [i]. *)
Definition working (i : nat) (v : list Z) : list Z := (fun j => v.[var i j]) <$> seq 0 8.

Lemma nth_insert_ne (v : list Z) i j x : i <> j -> (<[i := x]> v).[j] = v.[j].
Proof. intros H. now rewrite !nth_lookup_def, list_lookup_insert_ne. Qed.

Lemma nth_insert_at (v : list Z) i x : (i < length v)%nat -> (<[i := x]> v).[i] = x.
Proof. intros H. now rewrite nth_lookup_def, list_lookup_insert_eq. Qed.

Lemma working_line i v k w : (i < 64)%nat -> length v = 8%nat ->
  let '(d, h) := Round v.[var i 0] v.[var i 1] v.[var i 2] v.[var i 3]
                       v.[var i 4] v.[var i 5] v.[var i 6] v.[var i 7] k w in
  working (S i) (<[var i 7 := h]> (<[var i 3 := d]> v)) = FIPS180.step k w (working i v).
Proof.
  intros Hi Hv. unfold working at 2. cbn [seq fmap list_fmap].
  rewrite Round_step. destruct (Round _ _ _ _ _ _ _ _ _ _) as [d h].
  assert (Hb : forall j, (j < 8)%nat -> (var i j < length v)%nat)
    by (intros j Hj; rewrite Hv; now apply var_spec).
  assert (Hne : forall j j', (j < 8)%nat -> (j' < 8)%nat -> j <> j' -> var i j <> var i j')
    by (intros j j' Hj Hj'; now apply var_spec).
  assert (Hs : forall j, (j < 8)%nat -> var (S i) j = var i ((j + 7) mod 8))
    by (intros j Hj; now apply var_spec).
  unfold working. cbn [seq fmap list_fmap]. rewrite !Hs by lia. cbn [Nat.add].
  change ((7 mod 8)%nat) with 7%nat. change ((8 mod 8)%nat) with 0%nat.
  change ((9 mod 8)%nat) with 1%nat. change ((10 mod 8)%nat) with 2%nat.
  change ((11 mod 8)%nat) with 3%nat. change ((12 mod 8)%nat) with 4%nat.
  change ((13 mod 8)%nat) with 5%nat. change ((14 mod 8)%nat) with 6%nat.
  rewrite nth_insert_at by (rewrite length_insert; apply Hb; lia).
  rewrite !(nth_insert_ne _ (var i 7)) by (apply Hne; lia).
  rewrite nth_insert_at by (apply Hb; lia).
  now rewrite !(nth_insert_ne _ (var i 3)) by (apply Hne; lia).
Qed.

(** The words [w0], ..., [w15] hold the last sixteen words of the schedule, up to word [n]. *)
Definition window (n : nat) (W w : list Z) (i : nat) : Prop :=
  length w = 16%nat /\
  forall t, (t < i)%nat -> (i <= t + 16)%nat -> (t < n)%nat -> w.[t mod 16] = W.[t].

Lemma ReadBE32_word b i : (i < 16)%nat -> ReadBE32 b (4 * i) = (FIPS180.block_words b).[i].
Proof. intros H. unfold FIPS180.block_words. now rewrite nth_fmap_seq. Qed.

Lemma message_word_spec b w i :
  let W := FIPS180.schedule (FIPS180.block_words b) 64 in
  window 62 W w i -> (i < 64)%nat -> message_word b w i = W.[i].
Proof.
  intros W [Hl Hw] Hi. unfold W. rewrite (proj2 (message_schedule_spec _ 64)) by done. fold W.
  unfold message_word, FIPS180.schedule_word. destruct (Nat.ltb_spec i 16).
  - now apply ReadBE32_word.
  - assert (E : forall k, (k < 15)%nat -> w.[(i + k) mod 16] = W.[i - (16 - k)]).
    { intros k Hk. rewrite <- Hw by lia. f_equal.
      replace (i + k)%nat with (i - (16 - k) + 1 * 16)%nat by lia. apply Nat.Div0.mod_add. }
    rewrite u32_mod. change sigma0 with FIPS180.sigma0. change sigma1 with FIPS180.sigma1.
    rewrite <- (Nat.add_0_r i) at 1. rewrite !E by lia. simpl Nat.sub. f_equal. lia.
Qed.

Lemma window_S n W w i x : window n W w i -> x = W.[i] ->
  window n W (if (i <? n)%nat then <[(i mod 16)%nat := x]> w else w) (S i).
Proof.
  intros [Hl Hw] ->. pose proof (Nat.mod_upper_bound i 16 ltac:(lia)) as Hm.
  destruct (Nat.ltb_spec i n) as [Hi|Hi]; (split; [now rewrite ?length_insert|]); intros t H1 H2 H3.
  - destruct (Nat.eq_dec t i) as [->|Hne]; [apply nth_insert_at; lia|].
    rewrite nth_insert_ne; [apply Hw; lia|]. intros E.
    pose proof (Nat.div_mod_eq i 16). pose proof (Nat.div_mod_eq t 16). nia.
  - apply Hw; lia.
Qed.

Lemma transform_loop b H : length H = 8%nat ->
  let W := FIPS180.schedule (FIPS180.block_words b) 64 in
  let r := for_up 64 (transform_line b) (H, replicate 16 0) in
  working 64 r.1 = for_up 64 (fun t => FIPS180.step FIPS180.K.[t] W.[t]) H /\ length r.1 = 8%nat.
Proof.
  intros HH W. set (spec := fun t => FIPS180.step FIPS180.K.[t] W.[t]).
  cut (forall n, (n <= 64)%nat -> let r := for_up n (transform_line b) (H, replicate 16 0) in
    working n r.1 = for_up n spec H /\ length r.1 = 8%nat /\ window 62 W r.2 n).
  { intros Hn. destruct (Hn 64%nat) as (H1 & H2 & _); [lia|]. now split. }
  induction n as [|n IH]; intros Hn.
  - cbn [for_up]. split; [|split; [done|split; [done|lia]]].
    rewrite <- (fmap_nth_seq H 0) at 2. now rewrite HH.
  - destruct IH as (Hv & Hl & Hw); [lia|]. rewrite !for_up_S.
    destruct (for_up n (transform_line b) _) as [v w]. cbn [fst snd] in *.
    unfold transform_line. rewrite (message_word_spec b w n) by (done || lia). fold W.
    pose proof (working_line n v round_constants.[n] W.[n] ltac:(lia) Hl) as E.
    destruct (Round _ _ _ _ _ _ _ _ _ _) as [d h]. cbn [fst snd].
    rewrite E, Hv, !length_insert. split; [|split; [done|]].
    + unfold spec at 2. now rewrite (proj1 constants_eq).
    + now apply window_S.
Qed.

Lemma Transform_compress H b : length H = 8%nat -> Transform H b = FIPS180.compress H b.
Proof.
  intros HH. unfold Transform, FIPS180.compress.
  pose proof (transform_loop b H HH) as [E Hl].
  destruct (for_up 64 (transform_line b) _) as [v w]. cbn [fst snd] in E, Hl.
  assert (Ew : working 64 v = v).
  { rewrite <- (fmap_nth_seq v 0) at 2. rewrite Hl. apply fmap_seq_ext. intros i Hi.
    unfold var. now rewrite Nat.sub_diag, Nat.add_0_r, Nat.mod_small by lia. }
  rewrite <- E, Ew.
  clear. revert v. induction H as [|x H IH]; intros [|y v]; try done.
  cbn [zip_with]. now rewrite IH, u32_mod.
Qed.

Lemma length_compress H b : length H = 8%nat -> length (FIPS180.compress H b) = 8%nat.
Proof.
  intros HH. rewrite <- Transform_compress by done. unfold Transform.
  pose proof (transform_loop b H HH) as [_ Hl].
  destruct (for_up 64 (transform_line b) _) as [v w]. cbn [fst] in Hl.
  rewrite length_zip_with. lia.
Qed.

(** ** The class computes SHA-256 *)

Definition sha_repr : core_hasher -> list Z -> Prop := core_repr 64 Initialize Transform.

Lemma div_64 : (Z.of_nat 64 | 2 ^ 64).
Proof. exists (2 ^ 58). reflexivity. Qed.

Lemma CSHA256_new_repr memory : length memory = 64%nat -> sha_repr (CSHA256_new memory) [].
Proof. exact (core_Reset_repr 64 Initialize Transform ltac:(lia) (mk_hasher [] memory 0)). Qed.

Lemma CSHA256_Write_repr c m d : sha_repr c m -> bytes d -> sha_repr (CSHA256_Write c d) (m ++ d).
Proof. apply core_Write_repr; [lia|apply div_64]. Qed.

Lemma CSHA256_feed_repr c m pieces : sha_repr c m -> Forall bytes pieces ->
  sha_repr (fold_left CSHA256_Write pieces c) (m ++ mjoin pieces).
Proof.
  intros Hc Hp. revert c m Hc. induction Hp as [|d ps Hd Hps IH]; intros c m Hc.
  - now rewrite app_nil_r.
  - simpl. rewrite app_assoc. apply IH. now apply CSHA256_Write_repr.
Qed.

Lemma absorb_standard m :
  absorb 64 Transform Initialize m = absorb 64 FIPS180.compress FIPS180.H0 m /\
  length (absorb 64 FIPS180.compress FIPS180.H0 m) = 8%nat.
Proof.
  rewrite (proj2 constants_eq).
  apply (absorb_ext_inv 64 (fun h => length h = 8%nat)); [lia|by rewrite <- (proj2 constants_eq)|].
  intros h b Hh. split; [now apply Transform_compress|now apply length_compress].
Qed.

Lemma size_bits n : u64 (u64 n << 3) = wrap (8 * Z.of_nat 8) (8 * n).
Proof.
  replace (8 * n) with (n << 3) by (rewrite Z.shiftl_mul_pow2; lia).
  change (8 * Z.of_nat 8) with 64. bitwise.
Qed.

(** [Finalize] gives the digest, and leaves an object that can be reset. *)
Lemma CSHA256_Finalize_spec c m : sha_repr c m ->
  (CSHA256_Finalize c).2 = FIPS180.sha256 m /\ length (buf (CSHA256_Finalize c).1) = 64%nat.
Proof.
  intros Hc. unfold CSHA256_Finalize, FIPS180.sha256. cbn [fst snd].
  set (sd := WriteBE64 (u64 (bytes_fed c << 3))).
  assert (Hsd : bytes sd /\ length sd = 8%nat).
  { unfold sd, WriteBE64. split; [apply bytes_be_split|apply length_be_split]. }
  destruct (core_pad_repr 64 Initialize Transform ltac:(lia) div_64 c m sd) as (_ & Hs & [Hb _] & _);
    [done|apply Hsd|lia|].
  split; [|exact Hb]. rewrite Hs.
  replace (padded 64 m sd) with (FIPS180.pad m).
  2:{ unfold padded, zeros_for, FIPS180.pad. rewrite (proj2 Hsd). do 3 f_equal. unfold sd, WriteBE64.
      destruct Hc as (_ & _ & _ & ->). unfold be_split.
      now rewrite size_bits, le_split_wrap. }
  destruct (absorb_standard (FIPS180.pad m)) as [-> Hl]. rewrite take_ge by lia. reflexivity.
Qed.

Lemma sha256_length m : length (FIPS180.sha256 m) = 32%nat.
Proof.
  unfold FIPS180.sha256. pose proof (proj2 (absorb_standard (FIPS180.pad m))) as Hl.
  destruct (absorb 64 _ _ _) as [|a [|b [|c [|d [|e [|f [|g [|h [|]]]]]]]]]; try discriminate.
  rewrite !join_fmap_cons, !length_app, !length_be_split. done.
Qed.

Lemma bytes_sha256 m : bytes (FIPS180.sha256 m).
Proof.
  unfold FIPS180.sha256. generalize (absorb 64 FIPS180.compress FIPS180.H0 (FIPS180.pad m)).
  intros ws. induction ws as [|x ws IH]; [constructor|].
  rewrite join_fmap_cons. apply Forall_app_2; [apply bytes_be_split|done].
Qed.

(** ** The double SHA-256 of [hash.h] *)

Definition CHash256_new : list Z -> core_hasher := CSHA256_new.
Definition CHash256_Write : core_hasher -> list Z -> core_hasher := CSHA256_Write.
Definition CHash256_Reset : core_hasher -> core_hasher := CSHA256_Reset.
Definition CHash256_Finalize (sha : core_hasher) : core_hasher * list Z :=
  let '(sha, digest) := CSHA256_Finalize sha in
  CSHA256_Finalize (CSHA256_Write (CSHA256_Reset sha) digest).

(** What an uninitialised buffer holds; the digests do not depend on it. *)
Definition stack_memory : list Z := replicate 64 0.

(** [Hash(pbegin, pend)] and [Hash(p1begin, p1end, p2begin, p2end)] on ranges of bytes. *)
Definition Hash (p : list Z) : list Z :=
  (CHash256_Finalize (CHash256_Write (CHash256_new stack_memory) p)).2.
Definition Hash2 (p1 p2 : list Z) : list Z :=
  (CHash256_Finalize (CHash256_Write (CHash256_Write (CHash256_new stack_memory) p1) p2)).2.

Definition sha256d (m : list Z) : list Z := FIPS180.sha256 (FIPS180.sha256 m).

Lemma CHash256_Finalize_spec c m : sha_repr c m -> (CHash256_Finalize c).2 = sha256d m.
Proof.
  intros Hc. unfold CHash256_Finalize, sha256d.
  destruct (CSHA256_Finalize_spec c m Hc) as [Hd Hb]. destruct (CSHA256_Finalize c) as [c' d].
  cbn [fst snd] in *. subst d. apply CSHA256_Finalize_spec.
  apply (CSHA256_Write_repr _ []); [|apply bytes_sha256].
  apply core_Reset_repr; [lia|done].
Qed.

Lemma Hash_spec p : bytes p -> Hash p = sha256d p.
Proof.
  intros Hp. apply CHash256_Finalize_spec, (CSHA256_Write_repr _ []); [|done].
  now apply CSHA256_new_repr.
Qed.

Lemma Hash2_spec p1 p2 : bytes p1 -> bytes p2 -> Hash2 p1 p2 = sha256d (p1 ++ p2).
Proof.
  intros H1 H2. apply CHash256_Finalize_spec, CSHA256_Write_repr; [|done].
  apply (CSHA256_Write_repr _ []); [|done]. now apply CSHA256_new_repr.
Qed.

Lemma length_sha256d m : length (sha256d m) = 32%nat.
Proof. apply sha256_length. Qed.
Lemma bytes_sha256d m : bytes (sha256d m).
Proof. apply bytes_sha256. Qed.

(** ** Properties *)

(** C22. However a message is cut into pieces, a [CSHA256] object (whatever its buffer held
    before) gives the SHA-256 digest of FIPS 180-4 of the whole message, and a [CHash256]
    object the digest of that digest. *)
Theorem sha256_streaming memory pieces :
  length memory = 64%nat -> Forall bytes pieces ->
  (CSHA256_Finalize (fold_left CSHA256_Write pieces (CSHA256_new memory))).2 =
    FIPS180.sha256 (mjoin pieces) /\
  (CHash256_Finalize (fold_left CHash256_Write pieces (CHash256_new memory))).2 =
    FIPS180.sha256 (FIPS180.sha256 (mjoin pieces)).
Proof.
  intros Hm Hp.
  pose proof (CSHA256_feed_repr _ [] pieces (CSHA256_new_repr memory Hm) Hp) as Hr.
  split; [now apply CSHA256_Finalize_spec|now apply CHash256_Finalize_spec].
Qed.

Lemma sha256_streaming_witness :
  (CSHA256_Finalize (fold_left CSHA256_Write [[0x61]; [0x62; 0x63]]
    (CSHA256_new (replicate 64 9)))).2 = FIPS180.sha256 [0x61; 0x62; 0x63] /\
  (CHash256_Finalize (fold_left CHash256_Write [[0x61]; [0x62; 0x63]]
    (CHash256_new (replicate 64 9)))).2 = FIPS180.sha256 (FIPS180.sha256 [0x61; 0x62; 0x63]).
Proof. apply (sha256_streaming (replicate 64 9) [[0x61]; [0x62; 0x63]]); [done|by_eval]. Defined.

(** The published test vector for the message "abc". *)
Example sha256_abc : be_combine (FIPS180.sha256 [0x61; 0x62; 0x63]) =
  0xBA7816BF8F01CFEA414140DE5DAE2223B00361A396177A9CB410FF61F20015AD.
Proof. vm_compute. reflexivity. Qed.
