(* ===== verification/Hash160.v ===== *)
(** * SHA-1, RIPEMD-160 and the 160-bit hash ([crypto/sha1.cpp], [crypto/ripemd160.cpp], [hash.h])

    The hash functions that scripts use besides SHA-256.  Both work on five registers whose names
    rotate from line to line; what they share is proved once.  [CSHA1] is compared with FIPS 180-4
    and [CRIPEMD160] with the definition of Dobbertin, Bosselaers and Preneel, whose tables it generates
    from the two permutations of the words. *)

From S2P Require Import Prelude Words BlockBuffer CoreHash SHA256.

(** ** Rotating registers *)

(** Argument number [j] of line [i] is the variable number [var5 i j]. *)
Definition var5 (i j : nat) : nat := ((j + (80 - i)) mod 5)%nat.
Definition registers (i : nat) (v : list Z) : list Z := (fun j => v.[var5 i j]) <$> seq 0 5.

Lemma var5_check : all_below 80 (fun i => all_below 5 (fun j =>
  (var5 i j <? 5)%nat && (var5 (S i) j =? var5 i ((j + 4) mod 5))%nat &&
  all_below 5 (fun j' => (j =? j')%nat || negb (var5 i j =? var5 i j')%nat))) = true.
Proof. vm_compute. reflexivity. Qed.

Lemma var5_spec i j : (i < 80)%nat -> (j < 5)%nat ->
  (var5 i j < 5)%nat /\ var5 (S i) j = var5 i ((j + 4) mod 5) /\ forall j', (j' < 5)%nat -> j <> j' -> var5 i j <> var5 i j'.
Proof.
  intros Hi Hj. pose proof (all_below_spec _ _ (all_below_spec _ _ var5_check i Hi) j Hj) as H.
  apply andb_true_iff in H as [H Hd]. apply andb_true_iff in H as [H1%Nat.ltb_lt H2%Nat.eqb_eq].
  split; [done|]. split; [done|]. intros j' Hj' Hne E. pose proof (all_below_spec _ _ Hd j' Hj') as H. cbv beta in H.
  rewrite E, Nat.eqb_refl, orb_false_r in H. now apply Nat.eqb_eq in H.
Qed.

(** An assignment to an argument, and the order of the next line. *)
Lemma registers_insert i v j x : (i < 80)%nat -> (j < 5)%nat -> length v = 5%nat ->
  registers i (<[var5 i j := x]> v) = <[j := x]> (registers i v).
Proof.
  intros Hi Hj Hv. apply list_eq. intros k. destruct (decide (k < 5)%nat) as [Hk|Hk].
  2:{ rewrite !lookup_ge_None_2; [done|rewrite length_insert|]; unfold registers; rewrite length_fmap_seq; lia. }
  assert (E : forall v, registers i v !! k = Some v.[var5 i k]) by (intros; unfold registers; rewrite list_lookup_fmap, lookup_seq_lt by done; done).
  rewrite E. destruct (decide (j = k)) as [->|Hne].
  - rewrite list_lookup_insert_eq by (unfold registers; rewrite length_fmap_seq; lia). f_equal. apply nth_insert_at. rewrite Hv. now apply var5_spec.
  - rewrite list_lookup_insert_ne, E by done. f_equal. apply nth_insert_ne. now apply var5_spec.
Qed.

Lemma registers_next i v a b c d e : (i < 80)%nat -> registers i v = [a; b; c; d; e] -> registers (S i) v = [e; a; b; c; d].
Proof.
  intros Hi. unfold registers. cbn [seq fmap list_fmap]. intros [= <- <- <- <- <-].
  rewrite !(fun j Hj => proj1 (proj2 (var5_spec i j Hi Hj))) by lia. reflexivity.
Qed.

Lemma registers_end v : length v = 5%nat -> registers 80 v = v.
Proof. destruct v as [|a [|b [|c [|d [|e [|]]]]]]; try discriminate. intros _. reflexivity. Qed.
Lemma registers_start v : length v = 5%nat -> registers 0 v = v.
Proof. destruct v as [|a [|b [|c [|d [|e [|]]]]]]; try discriminate. intros _. reflexivity. Qed.
Lemma length_registers i v : length (registers i v) = 5%nat.
Proof. apply length_fmap_seq. Qed.

(** ** Digests of the hasher classes *)

(** What [Finalize] finds after the padding, for a transformation that is a compression function on five words. *)
Section Digest.
Context (Initialize : list Z) (Transform compress : list Z -> list Z -> list Z) (split8 : Z -> list Z).
Context (Hinit : length Initialize = 5%nat).
Context (Heq : forall h b, length h = 5%nat -> Transform h b = compress h b /\ length (compress h b) = 5%nat).
Context (Hsplit : forall x, bytes (split8 x) /\ length (split8 x) = 8%nat /\ split8 (wrap 64 x) = split8 x).

Definition digest_state (m : list Z) : list Z :=
  absorb 64 compress Initialize (m ++ [0x80] ++ replicate ((119 - length m mod 64) mod 64) 0 ++ split8 (8 * Z.of_nat (length m))).

Lemma core_pad_digest c m : core_repr 64 Initialize Transform c m ->
  s (core_pad 64 Transform c (split8 (u64 (bytes_fed c << 3)))) = digest_state m /\ length (digest_state m) = 5%nat.
Proof.
  intros Hc. set (sd := split8 (u64 (bytes_fed c << 3))). destruct (Hsplit (u64 (bytes_fed c << 3))) as (Hsb & Hsl & _). fold sd in Hsb, Hsl.
  destruct (core_pad_repr 64 Initialize Transform ltac:(lia) div_64 c m sd Hc Hsb) as (_ & -> & _); [lia|].
  assert (E : padded 64 m sd = m ++ [0x80] ++ replicate ((119 - length m mod 64) mod 64) 0 ++ split8 (8 * Z.of_nat (length m))).
  { unfold padded, zeros_for. rewrite Hsl. do 3 f_equal. unfold sd. destruct Hc as (_ & _ & _ & ->). rewrite size_bits.
    now rewrite (proj2 (proj2 (Hsplit _))). }
  rewrite E. exact (absorb_ext_inv 64 (fun h => length h = 5%nat) Transform compress Initialize _ ltac:(lia) Hinit Heq).
Qed.
End Digest.

Lemma be_split8 x : bytes (be_split 8 x) /\ length (be_split 8 x) = 8%nat /\ be_split 8 (wrap 64 x) = be_split 8 x.
Proof.
  split; [apply bytes_be_split|]. split; [apply length_be_split|]. unfold be_split. change 64 with (8 * Z.of_nat 8). now rewrite le_split_wrap.
Qed.
Lemma le_split8 x : bytes (le_split 8 x) /\ length (le_split 8 x) = 8%nat /\ le_split 8 (wrap 64 x) = le_split 8 x.
Proof.
  split; [apply bytes_le_split|]. split; [apply length_le_split|]. change 64 with (8 * Z.of_nat 8). now rewrite le_split_wrap.
Qed.

(** ** SHA-1 *)

Module SHA1.

(** One round; it assigns its arguments [b] and [e]. *)
Definition Round (a b e f k w : Z) : Z * Z :=
  (u32 (b << 30) .| (b >> 2), u32 (e + ((u32 (a << 5) .| (a >> 27)) + f + k + w))).

Definition f1 (b c d : Z) : Z := d ^^ (b .& (c ^^ d)).
Definition f2 (b c d : Z) : Z := b ^^ c ^^ d.
Definition f3 (b c d : Z) : Z := (b .& c) .| (d .& (b .| c)).
Definition left (x : Z) : Z := u32 (x << 1) .| (x >> 31).

Definition Initialize : list Z := [0x67452301; 0xEFCDAB89; 0x98BADCFE; 0x10325476; 0xC3D2E1F0].
Definition k1 : Z := 0x5A827999.
Definition k2 : Z := 0x6ED9EBA1.
Definition k3 : Z := 0x8F1BBCDC.
Definition k4 : Z := 0xCA62C1D6.

(** The function and the constant of line [i], and its word: one of the chunk, then an update of one of
    [w0], ..., [w15].  (The last three lines do not store the word.) *)
Definition line_f (i : nat) : Z -> Z -> Z -> Z :=
  if (i <? 20)%nat then f1 else if (i <? 40)%nat then f2 else if (i <? 60)%nat then f3 else f2.
Definition line_k (i : nat) : Z := if (i <? 20)%nat then k1 else if (i <? 40)%nat then k2 else if (i <? 60)%nat then k3 else k4.
Definition message_word (chunk w : list Z) (i : nat) : Z :=
  if (i <? 16)%nat then ReadBE32 chunk (4 * i)
  else left (w.[i mod 16] ^^ w.[(i + 13) mod 16] ^^ w.[(i + 8) mod 16] ^^ w.[(i + 2) mod 16]).

Definition transform_line (chunk : list Z) (i : nat) (vw : list Z * list Z) : list Z * list Z :=
  let '(v, w) := vw in
  let x := message_word chunk w i in
  let w := if (i <? 77)%nat then <[(i mod 16)%nat := x]> w else w in
  let arg j := v.[var5 i j] in
  let '(b, e) := Round (arg 0%nat) (arg 1%nat) (arg 4%nat) (line_f i (arg 1%nat) (arg 2%nat) (arg 3%nat)) (line_k i) x in
  (<[var5 i 1 := b]> (<[var5 i 4 := e]> v), w).

Definition Transform (s chunk : list Z) : list Z :=
  let '(v, w) := for_up 80 (transform_line chunk) (s, replicate 16 0) in zip_with (fun x y => u32 (x + y)) s v.

Definition CSHA1_new (memory : list Z) : core_hasher := {| s := Initialize; buf := memory; bytes_fed := 0 |}.
Definition CSHA1_Write : core_hasher -> list Z -> core_hasher := core_Write 64 Transform.
Definition CSHA1_Reset : core_hasher -> core_hasher := core_Reset Initialize.
Definition CSHA1_Finalize (c : core_hasher) : core_hasher * list Z :=
  let c := core_pad 64 Transform c (WriteBE64 (u64 (bytes_fed c << 3))) in
  (c, mjoin (WriteBE32 <$> take 5 (s c))).

(** The standard. *)
Definition ROTL (n x : Z) : Z := rotl 32 x n.
Definition Parity (x y z : Z) : Z := x ^^ y ^^ z.
Definition standard_f (t : nat) : Z -> Z -> Z -> Z :=
  if (t <=? 19)%nat then FIPS180.Ch else if (t <=? 39)%nat then Parity else if (t <=? 59)%nat then FIPS180.Maj else Parity.
(** The square roots of 2, 3, 5 and 10. *)
Definition standard_k (t : nat) : Z := Z.sqrt ([2; 3; 5; 10].[t / 20] * 2 ^ 60).
Definition schedule_word (M ws : list Z) (t : nat) : Z :=
  if (t <? 16)%nat then M.[t] else ROTL 1 (ws.[t - 3] ^^ ws.[t - 8] ^^ ws.[t - 14] ^^ ws.[t - 16]).
Definition schedule (M : list Z) (n : nat) : list Z := for_up n (fun t ws => ws ++ [schedule_word M ws t]) [].
Definition step (f : Z -> Z -> Z -> Z) (k w : Z) (v : list Z) : list Z :=
  match v with
  | [a; b; c; d; e] => [(ROTL 5 a + f b c d + e + k + w) mod 2 ^ 32; a; ROTL 30 b; c; d]
  | _ => v
  end.
Definition compress (H b : list Z) : list Z :=
  let W := schedule (FIPS180.block_words b) 80 in
  zip_with (fun x y => (x + y) mod 2 ^ 32) H (for_up 80 (fun t => step (standard_f t) (standard_k t) W.[t]) H).
Definition sha1 (m : list Z) : list Z := mjoin (be_split 4 <$> digest_state Initialize compress (be_split 8) m).

(** The lines are the steps of the standard. *)
Lemma line_functions i : (i < 80)%nat -> line_k i = standard_k i /\ forall b c d, line_f i b c d = standard_f i b c d.
Proof.
  intros Hi. unfold line_f, line_k, standard_f, standard_k.
  destruct (Nat.ltb_spec i 20), (Nat.leb_spec i 19); try lia.
  { split; [|intros; apply Ch_eq]. rewrite Nat.div_small by lia. vm_compute. reflexivity. }
  destruct (Nat.ltb_spec i 40), (Nat.leb_spec i 39); try lia.
  { split; [|done]. replace (i / 20)%nat with 1%nat by (apply (Nat.div_unique i 20 1 (i - 20)); lia). vm_compute. reflexivity. }
  destruct (Nat.ltb_spec i 60), (Nat.leb_spec i 59); try lia.
  { split; [|intros; apply Maj_eq]. replace (i / 20)%nat with 2%nat by (apply (Nat.div_unique i 20 2 (i - 40)); lia). vm_compute. reflexivity. }
  split; [|done]. replace (i / 20)%nat with 3%nat by (apply (Nat.div_unique i 20 3 (i - 60)); lia). vm_compute. reflexivity.
Qed.

Lemma registers_line i v x : (i < 80)%nat -> length v = 5%nat ->
  let arg j := v.[var5 i j] in
  let '(b, e) := Round (arg 0%nat) (arg 1%nat) (arg 4%nat) (line_f i (arg 1%nat) (arg 2%nat) (arg 3%nat)) (line_k i) x in
  registers (S i) (<[var5 i 1 := b]> (<[var5 i 4 := e]> v)) = step (standard_f i) (standard_k i) x (registers i v).
Proof.
  intros Hi Hv arg. unfold Round. destruct (line_functions i Hi) as [-> Ef].
  erewrite registers_next; [|done|].
  2:{ rewrite !registers_insert by (rewrite ?length_insert; lia). unfold registers. cbn [seq fmap list_fmap insert list_insert]. reflexivity. }
  unfold registers. cbn [seq fmap list_fmap step]. rewrite Ef, u32_mod. unfold ROTL, arg. do 2 f_equal.
  change (rotl 32 v.[var5 i 0] 5) with (u32 (v.[var5 i 0] << 5) .| (v.[var5 i 0] >> 27)). lia.
Qed.

Lemma sha1_schedule_spec M n : length (schedule M n) = n /\ forall t, (t < n)%nat -> (schedule M n).[t] = schedule_word M (schedule M n) t.
Proof.
  unfold schedule. apply (for_up_inv (fun n ws => length ws = n /\ forall t, (t < n)%nat -> ws.[t] = schedule_word M ws t)); [now split; [|lia]|].
  intros i ws _ [Hl Hw]. split; [rewrite length_app, Hl; simpl; lia|].
  assert (E : forall t, (t <= i)%nat -> schedule_word M (ws ++ [schedule_word M ws i]) t = schedule_word M ws t).
  { intros t Ht. unfold schedule_word at 1 3. destruct (Nat.ltb_spec t 16); [done|]. now rewrite !app_nth1 by lia. }
  intros t Ht. rewrite E by lia. destruct (Nat.eq_dec t i) as [->|Hne]; [now rewrite app_nth2, Hl, Nat.sub_diag by lia|].
  rewrite app_nth1 by lia. apply Hw. lia.
Qed.

Lemma left_rotl x : left x = rotl 32 x 1.
Proof. reflexivity. Qed.

Lemma sha1_word_spec b w i : let W := schedule (FIPS180.block_words b) 80 in
  window 77 W w i -> (i < 80)%nat -> message_word b w i = W.[i].
Proof.
  intros W [Hl Hw] Hi. unfold W. rewrite (proj2 (sha1_schedule_spec _ 80)) by done. fold W. clearbody W.
  unfold message_word, schedule_word. destruct (Nat.ltb_spec i 16); [now apply ReadBE32_word|].
  assert (E : forall k, (k < 14)%nat -> w.[(i + k) mod 16] = W.[i - (16 - k)]).
  { intros k Hk. rewrite <- Hw by lia. f_equal. replace (i + k)%nat with (i - (16 - k) + 1 * 16)%nat by lia. apply Nat.Div0.mod_add. }
  rewrite <- (Nat.add_0_r i) at 1. rewrite !E by lia. simpl Nat.sub. unfold ROTL.
  rewrite left_rotl. f_equal.
  apply Z.bits_inj'. intros k Hk. rewrite !Z.lxor_spec. now destruct (Z.testbit W.[i - 16] k), (Z.testbit W.[i - 3] k), (Z.testbit W.[i - 8] k), (Z.testbit W.[i - 14] k).
Qed.

Lemma sha1_transform_loop b H : length H = 5%nat -> let W := schedule (FIPS180.block_words b) 80 in
  let r := for_up 80 (transform_line b) (H, replicate 16 0) in
  r.1 = for_up 80 (fun t => step (standard_f t) (standard_k t) W.[t]) H /\ length r.1 = 5%nat.
Proof.
  intros HH W. set (spec := fun t => step (standard_f t) (standard_k t) W.[t]).
  cut (forall n, (n <= 80)%nat -> let r := for_up n (transform_line b) (H, replicate 16 0) in
    registers n r.1 = for_up n spec H /\ length r.1 = 5%nat /\ window 77 W r.2 n).
  { intros Hn. destruct (Hn 80%nat) as (H1 & H2 & _); [lia|]. split; [|done]. rewrite <- H1. now rewrite registers_end. }
  induction n as [|n IH]; intros Hn; [split; [now apply registers_start|split; [done|split; [done|lia]]]|].
  destruct IH as (Hv & Hl & Hw); [lia|]. rewrite !for_up_S. destruct (for_up n (transform_line b) _) as [v w]. cbn [fst snd] in *.
  unfold transform_line. rewrite (sha1_word_spec b w n) by (done || lia). fold W.
  pose proof (registers_line n v W.[n] ltac:(lia) Hl) as E. cbv zeta in E |- *. destruct (Round _ _ _ _ _ _) as [y e]. cbn [fst snd].
  rewrite E, Hv, !length_insert. split; [done|]. split; [done|]. now apply window_S.
Qed.

Lemma sha1_Transform_compress H b : length H = 5%nat -> Transform H b = compress H b /\ length (compress H b) = 5%nat.
Proof.
  intros HH. unfold Transform, compress. pose proof (sha1_transform_loop b H HH) as [E Hl].
  destruct (for_up 80 (transform_line b) _) as [v w]. cbn [fst] in E, Hl. rewrite <- E, length_zip_with. split; [|lia].
  clear. revert v. induction H as [|x H IH]; intros [|y v]; try done. cbn [zip_with]. now rewrite IH, u32_mod.
Qed.

Lemma CSHA1_Write_repr c m d : core_repr 64 Initialize Transform c m -> bytes d -> core_repr 64 Initialize Transform (CSHA1_Write c d) (m ++ d).
Proof. apply core_Write_repr; [lia|apply div_64]. Qed.

Lemma CSHA1_Finalize_spec c m : core_repr 64 Initialize Transform c m -> (CSHA1_Finalize c).2 = sha1 m.
Proof.
  intros Hc. destruct (core_pad_digest Initialize Transform compress (be_split 8) eq_refl sha1_Transform_compress be_split8 c m Hc) as [E Hl].
  unfold CSHA1_Finalize. cbn [snd]. unfold WriteBE64. rewrite E, take_ge by lia. reflexivity.
Qed.

End SHA1.

(** ** RIPEMD-160 *)

Definition ReadLE32 (p : list Z) (off : nat) : Z := le_combine (mem_read p off 4).
Definition WriteLE32 (x : Z) : list Z := le_split 4 x.
Definition WriteLE64 (x : Z) : list Z := le_split 8 x.

Module RIPEMD160.

Definition f1 (x y z : Z) : Z := x ^^ y ^^ z.
Definition f2 (x y z : Z) : Z := (x .& y) .| (u32 (Z.lnot x) .& z).
Definition f3 (x y z : Z) : Z := (x .| u32 (Z.lnot y)) ^^ z.
Definition f4 (x y z : Z) : Z := (x .& z) .| (y .& u32 (Z.lnot z)).
Definition f5 (x y z : Z) : Z := x ^^ (y .| u32 (Z.lnot z)).

Definition Initialize : list Z := [0x67452301; 0xEFCDAB89; 0x98BADCFE; 0x10325476; 0xC3D2E1F0].
Definition rol (x i : Z) : Z := u32 (x << i) .| (x >> (32 - i)).

(** One round; it assigns its arguments [a] and [c]. *)
Definition Round (a c e f x k r : Z) : Z * Z := (u32 (rol (u32 (a + f + x + k)) r + e), rol c 10).

(** The functions [R11], ..., [R51] and [R12], ..., [R52]: the function and the constant. *)
Definition R_left : list ((Z -> Z -> Z -> Z) * Z) :=
  [(f1, 0); (f2, 0x5A827999); (f3, 0x6ED9EBA1); (f4, 0x8F1BBCDC); (f5, 0xA953FD4E)].
Definition R_right : list ((Z -> Z -> Z -> Z) * Z) :=
  [(f5, 0x50A28BE6); (f4, 0x5C4DD124); (f3, 0x6D703EF3); (f2, 0x7A6D76E9); (f1, 0)].

(** The word and the rotation of each line. *)
Definition words_left : list nat := mjoin
  [[0; 1; 2; 3; 4; 5; 6; 7; 8; 9; 10; 11; 12; 13; 14; 15]; [7; 4; 13; 1; 10; 6; 15; 3; 12; 0; 9; 5; 2; 14; 11; 8];
   [3; 10; 14; 4; 9; 15; 8; 1; 2; 7; 0; 6; 13; 11; 5; 12]; [1; 9; 11; 10; 0; 8; 12; 4; 13; 3; 7; 15; 14; 5; 6; 2];
   [4; 0; 5; 9; 7; 12; 2; 10; 14; 1; 3; 8; 11; 6; 15; 13]]%nat.
Definition shifts_left : list Z := mjoin
  [[11; 14; 15; 12; 5; 8; 7; 9; 11; 13; 14; 15; 6; 7; 9; 8]; [7; 6; 8; 13; 11; 9; 7; 15; 7; 12; 15; 9; 11; 7; 13; 12];
   [11; 13; 6; 7; 14; 9; 13; 15; 14; 8; 13; 6; 5; 12; 7; 5]; [11; 12; 14; 15; 14; 15; 9; 8; 9; 14; 5; 6; 8; 6; 5; 12];
   [9; 15; 5; 11; 6; 8; 13; 12; 5; 12; 13; 14; 11; 8; 5; 6]].
Definition words_right : list nat := mjoin
  [[5; 14; 7; 0; 9; 2; 11; 4; 13; 6; 15; 8; 1; 10; 3; 12]; [6; 11; 3; 7; 0; 13; 5; 10; 14; 15; 8; 12; 4; 9; 1; 2];
   [15; 5; 1; 3; 7; 14; 6; 9; 11; 8; 12; 2; 10; 0; 4; 13]; [8; 6; 4; 1; 3; 11; 15; 0; 5; 12; 2; 13; 9; 7; 10; 14];
   [12; 15; 10; 4; 1; 5; 8; 7; 6; 2; 13; 14; 0; 3; 9; 11]]%nat.
Definition shifts_right : list Z := mjoin
  [[8; 9; 9; 11; 13; 15; 15; 5; 7; 7; 8; 11; 14; 14; 12; 6]; [9; 13; 15; 7; 12; 8; 9; 11; 7; 7; 12; 7; 6; 15; 13; 11];
   [9; 7; 15; 11; 8; 6; 6; 14; 12; 13; 5; 14; 13; 13; 7; 5]; [15; 5; 8; 11; 14; 14; 6; 14; 6; 9; 12; 9; 12; 5; 15; 8];
   [8; 5; 12; 9; 12; 5; 14; 6; 8; 13; 6; 5; 15; 13; 11; 11]].

Definition transform_line (R : list ((Z -> Z -> Z -> Z) * Z)) (words : list nat) (shifts w : list Z) (i : nat) (v : list Z) : list Z :=
  let '(f, k) := nth (i / 16) R (f1, 0) in
  let arg j := v.[var5 i j] in
  let '(a, c) := Round (arg 0%nat) (arg 2%nat) (arg 4%nat) (f (arg 1%nat) (arg 2%nat) (arg 3%nat)) w.[nth i words 0%nat] k shifts.[i] in
  <[var5 i 0 := a]> (<[var5 i 2 := c]> v).

(** The two sequences of lines do not touch each other's variables. *)
Definition Transform (s chunk : list Z) : list Z :=
  let w := (fun i => ReadLE32 chunk (4 * i)) <$> seq 0 16 in
  let v1 := for_up 80 (transform_line R_left words_left shifts_left w) s in
  let v2 := for_up 80 (transform_line R_right words_right shifts_right w) s in
  (fun i => u32 (s.[(i + 1) mod 5] + v1.[(i + 2) mod 5] + v2.[(i + 3) mod 5])) <$> seq 0 5.

Definition CRIPEMD160_new (memory : list Z) : core_hasher := {| s := Initialize; buf := memory; bytes_fed := 0 |}.
Definition CRIPEMD160_Write : core_hasher -> list Z -> core_hasher := core_Write 64 Transform.
Definition CRIPEMD160_Reset : core_hasher -> core_hasher := core_Reset Initialize.
Definition CRIPEMD160_Finalize (c : core_hasher) : core_hasher * list Z :=
  let c := core_pad 64 Transform c (WriteLE64 (u64 (bytes_fed c << 3))) in
  (c, mjoin (WriteLE32 <$> take 5 (s c))).

(** The published definition: the functions of the five rounds, ... *)
Definition round_f (j : nat) (x y z : Z) : Z :=
  match (j / 16)%nat with
  | 0%nat => x ^^ y ^^ z
  | 1%nat => (x .& y) .| (Z.lnot x .& z)
  | 2%nat => (x .| Z.lnot y) ^^ z
  | 3%nat => (x .& z) .| (y .& Z.lnot z)
  | _ => x ^^ (y .| Z.lnot z)
  end.
(** ... the constants (square and cube roots of 2, 3, 5 and 7), ... *)
Definition K_left (j : nat) : Z := Z.sqrt ([0; 2; 3; 5; 7].[j / 16] * 2 ^ 60).
Definition K_right (j : nat) : Z := FIPS180.cube_root ([2; 3; 5; 7; 0].[j / 16] * 2 ^ 90).
(** ... the order of the words, by the permutations rho and pi, ... *)
Definition rho : list nat := [7; 4; 13; 1; 10; 6; 15; 3; 12; 0; 9; 5; 2; 14; 11; 8]%nat.
Definition r_left (j : nat) : nat := Nat.iter (j / 16) (fun x => nth x rho 0%nat) (j mod 16)%nat.
Definition r_right (j : nat) : nat := Nat.iter (j / 16) (fun x => nth x rho 0%nat) ((9 * (j mod 16) + 5) mod 16)%nat.
(** ... and the rotations, which depend on the round and the word. *)
Definition rotations : list (list Z) :=
  [[11; 14; 15; 12; 5; 8; 7; 9; 11; 13; 14; 15; 6; 7; 9; 8]; [12; 13; 11; 15; 6; 9; 9; 7; 12; 15; 11; 13; 7; 8; 7; 7];
   [13; 15; 14; 11; 7; 7; 6; 8; 13; 14; 13; 12; 5; 5; 6; 9]; [14; 11; 12; 14; 8; 6; 5; 5; 15; 12; 15; 14; 9; 9; 8; 6];
   [15; 12; 13; 13; 9; 5; 8; 6; 14; 11; 12; 11; 8; 6; 5; 5]].
Definition rotation (j r : nat) : Z := (nth (j / 16) rotations []).[r].

Definition step (f : Z -> Z -> Z -> Z) (k x r : Z) (v : list Z) : list Z :=
  match v with
  | [a; b; c; d; e] => [e; (rotl 32 ((a + f b c d + x + k) mod 2 ^ 32) r + e) mod 2 ^ 32; b; rotl 32 c 10; d]
  | _ => v
  end.
Definition line_left (X : list Z) (j : nat) : list Z -> list Z := step (round_f j) (K_left j) X.[r_left j] (rotation j (r_left j)).
Definition line_right (X : list Z) (j : nat) : list Z -> list Z := step (round_f (79 - j)%nat) (K_right j) X.[r_right j] (rotation j (r_right j)).
Definition block_words (b : list Z) : list Z := (fun i => le_combine (mem_read b (4 * i) 4)) <$> seq 0 16.
Definition compress (H b : list Z) : list Z :=
  match H, for_up 80 (line_left (block_words b)) H, for_up 80 (line_right (block_words b)) H with
  | [h0; h1; h2; h3; h4], [A; B; C; D; E], [A'; B'; C'; D'; E'] =>
      (fun x => x mod 2 ^ 32) <$> [h1 + C + D'; h2 + D + E'; h3 + E + A'; h4 + A + B'; h0 + B + C']
  | _, _, _ => H
  end.
Definition ripemd160 (m : list Z) : list Z := mjoin (le_split 4 <$> digest_state Initialize compress (le_split 8) m).

(** The tables of the code are those of the definition. *)
Lemma tables_eq : all_below 80 (fun j =>
  (nth j words_left 0 =? r_left j)%nat && (shifts_left.[j] =? rotation j (r_left j)) && ((nth (j / 16) R_left (f1, 0)).2 =? K_left j) &&
  (nth j words_right 0 =? r_right j)%nat && (shifts_right.[j] =? rotation j (r_right j)) && ((nth (j / 16) R_right (f1, 0)).2 =? K_right j)) = true.
Proof. vm_compute. reflexivity. Qed.

(** Two functions that agree on 32 bits. *)
Definition same_word (f g : Z -> Z -> Z -> Z) : Prop := forall x y z, u32 (f x y z) = u32 (g x y z).

Lemma round_functions j : (j < 80)%nat -> same_word (nth (j / 16) R_left (f1, 0)).1 (round_f j) /\
  same_word (nth (j / 16) R_right (f1, 0)).1 (round_f (79 - j)%nat).
Proof.
  intros Hj. assert (E : ((79 - j) / 16 = 4 - j / 16)%nat).
  { pose proof (Nat.div_mod_eq j 16) as Hd. pose proof (Nat.mod_upper_bound j 16 ltac:(lia)).
    symmetry. apply (Nat.div_unique _ 16 _ (15 - j mod 16)); lia. }
  assert (Hr : (j / 16 < 5)%nat) by (apply Nat.Div0.div_lt_upper_bound; lia). unfold same_word, round_f. rewrite E. clear E.
  destruct (j / 16)%nat as [|[|[|[|[|]]]]]; try lia; (split; intros x y z); cbn [nth fst R_left R_right Nat.sub]; unfold f1, f2, f3, f4, f5; bitwise.
Qed.

Lemma round_step f g k x r a b c d e : same_word f g ->
  let '(a', c') := Round a c e (f b c d) x k r in [e; a'; b; c'; d] = step g k x r [a; b; c; d; e].
Proof.
  intros Hf. unfold Round, step. specialize (Hf b c d). rewrite !u32_mod in *. change (rol ?y 10) with (rotl 32 y 10).
  replace ((a + f b c d + x + k) mod 2 ^ 32) with ((a + g b c d + x + k) mod 2 ^ 32); [done|].
  rewrite <- !(Z.add_assoc a), <- !Z.add_assoc, !(Z.add_comm a), <- !Z.add_assoc, <- !(Zplus_mod_idemp_l (f _ _ _)), <- !(Zplus_mod_idemp_l (g _ _ _)). now rewrite Hf.
Qed.

(** A sequence of lines. *)
Lemma lines_steps R words shifts w (g : nat -> Z -> Z -> Z -> Z) (k : nat -> Z) (r : nat -> nat) (sh : nat -> Z) v : length v = 5%nat ->
  (forall i, (i < 80)%nat -> same_word (nth (i / 16) R (f1, 0)).1 (g i) /\ (nth (i / 16) R (f1, 0)).2 = k i /\
    nth i words 0%nat = r i /\ shifts.[i] = sh i) ->
  for_up 80 (transform_line R words shifts w) v = for_up 80 (fun i => step (g i) (k i) w.[r i] (sh i)) v /\
  length (for_up 80 (transform_line R words shifts w) v) = 5%nat.
Proof.
  intros Hv Hlines. set (spec := fun i => step (g i) (k i) w.[r i] (sh i)).
  cut (forall n, (n <= 80)%nat -> registers n (for_up n (transform_line R words shifts w) v) = for_up n spec v /\
    length (for_up n (transform_line R words shifts w) v) = 5%nat).
  { intros Hn. destruct (Hn 80%nat) as [H1 H2]; [lia|]. split; [|done]. rewrite <- H1. now rewrite registers_end. }
  induction n as [|n IH]; intros Hn; [split; [now apply registers_start|done]|]. destruct IH as [E Hl]; [lia|].
  rewrite !for_up_S, <- E. generalize dependent (for_up n (transform_line R words shifts w) v). intros u _ Hl.
  destruct (Hlines n Hn) as (Hf & Ek & Er & Es). unfold transform_line, spec. destruct (nth (n / 16) R (f1, 0)) as [f k']. cbn [fst snd] in Hf, Ek.
  subst k'. rewrite Er, Es. pose proof (round_step f (g n) (k n) w.[r n] (sh n) u.[var5 n 0] u.[var5 n 1] u.[var5 n 2] u.[var5 n 3] u.[var5 n 4] Hf) as Hstep.
  destruct (Round _ _ _ _ _ _ _) as [a' c']. split; [|now rewrite !length_insert]. unfold registers at 2. cbn [seq fmap list_fmap]. rewrite <- Hstep.
  apply registers_next; [done|]. rewrite !registers_insert by (rewrite ?length_insert; lia). unfold registers. cbn [seq fmap list_fmap insert list_insert]. reflexivity.
Qed.

Lemma ripemd_Transform_compress H b : length H = 5%nat -> Transform H b = compress H b /\ length (compress H b) = 5%nat.
Proof.
  intros HH. unfold Transform, compress. change ((fun i => ReadLE32 b (4 * i)) <$> seq 0 16) with (block_words b).
  assert (Ht : forall j, (j < 80)%nat -> (nth j words_left 0%nat = r_left j /\ shifts_left.[j] = rotation j (r_left j) /\ (nth (j / 16) R_left (f1, 0)).2 = K_left j) /\
    nth j words_right 0%nat = r_right j /\ shifts_right.[j] = rotation j (r_right j) /\ (nth (j / 16) R_right (f1, 0)).2 = K_right j).
  { intros j Hj. pose proof (all_below_spec _ _ tables_eq j Hj) as Hx. rewrite !andb_true_iff in Hx. rewrite !Z.eqb_eq, !Nat.eqb_eq in Hx. tauto. }
  destruct (lines_steps R_left words_left shifts_left (block_words b) round_f K_left r_left (fun i => rotation i (r_left i)) H HH) as [E1 L1].
  { intros i Hi. destruct (Ht i Hi) as [(? & ? & ?) _]. split; [now apply round_functions|done]. }
  destruct (lines_steps R_right words_right shifts_right (block_words b) (fun i => round_f (79 - i)%nat) K_right r_right (fun i => rotation i (r_right i)) H HH) as [E2 L2].
  { intros i Hi. destruct (Ht i Hi) as [_ (? & ? & ?)]. split; [now apply round_functions|done]. }
  change (for_up 80 (transform_line R_left words_left shifts_left (block_words b)) H = for_up 80 (line_left (block_words b)) H) in E1.
  change (for_up 80 (transform_line R_right words_right shifts_right (block_words b)) H = for_up 80 (line_right (block_words b)) H) in E2.
  revert E1 L1 E2 L2.
  destruct H as [|h0 [|h1 [|h2 [|h3 [|h4 [|]]]]]]; try discriminate HH. set (H := [h0; h1; h2; h3; h4]).
  generalize (for_up 80 (transform_line R_left words_left shifts_left (block_words b)) H). intros v1 <- L1.
  generalize (for_up 80 (transform_line R_right words_right shifts_right (block_words b)) H). intros v2 <- L2.
  destruct v1 as [|? [|? [|? [|? [|? [|]]]]]]; try discriminate L1.
  destruct v2 as [|? [|? [|? [|? [|? [|]]]]]]; try discriminate L2. split; [|done]. cbn. now rewrite !u32_mod.
Qed.

Lemma CRIPEMD160_Write_repr c m d : core_repr 64 Initialize Transform c m -> bytes d -> core_repr 64 Initialize Transform (CRIPEMD160_Write c d) (m ++ d).
Proof. apply core_Write_repr; [lia|apply div_64]. Qed.

Lemma CRIPEMD160_Finalize_spec c m : core_repr 64 Initialize Transform c m -> (CRIPEMD160_Finalize c).2 = ripemd160 m.
Proof.
  intros Hc. destruct (core_pad_digest Initialize Transform compress (le_split 8) eq_refl ripemd_Transform_compress le_split8 c m Hc) as [E Hl].
  unfold CRIPEMD160_Finalize. cbn [snd]. unfold WriteLE64. rewrite E, take_ge by lia. reflexivity.
Qed.

End RIPEMD160.

(** ** SHA-256 and RIPEMD-160 ([CHash160]) *)

Definition CHash160_new : list Z -> core_hasher := CSHA256_new.
Definition CHash160_Write : core_hasher -> list Z -> core_hasher := CSHA256_Write.
Definition CHash160_Reset : core_hasher -> core_hasher := CSHA256_Reset.
Definition CHash160_Finalize (sha : core_hasher) : core_hasher * list Z :=
  let '(sha, digest) := CSHA256_Finalize sha in
  (sha, (RIPEMD160.CRIPEMD160_Finalize (RIPEMD160.CRIPEMD160_Write (RIPEMD160.CRIPEMD160_new stack_memory) digest)).2).

Definition hash160 (m : list Z) : list Z := RIPEMD160.ripemd160 (FIPS180.sha256 m).

Lemma feed_repr Initialize Transform c m pieces : core_repr 64 Initialize Transform c m -> Forall bytes pieces ->
  core_repr 64 Initialize Transform (fold_left (core_Write 64 Transform) pieces c) (m ++ mjoin pieces).
Proof.
  intros Hc Hp. revert c m Hc. induction Hp as [|d ps Hd Hps IH]; intros c m Hc; [now rewrite app_nil_r|].
  simpl. rewrite app_assoc. apply IH. apply core_Write_repr; [lia|apply div_64|done|done].
Qed.

Lemma new_repr Initialize Transform memory : length memory = 64%nat ->
  core_repr 64 Initialize Transform {| s := Initialize; buf := memory; bytes_fed := 0 |} [].
Proof. exact (core_Reset_repr 64 Initialize Transform ltac:(lia) (mk_hasher [] memory 0)). Qed.

Lemma CHash160_Finalize_spec c m : sha_repr c m -> (CHash160_Finalize c).2 = hash160 m.
Proof.
  intros Hc. unfold CHash160_Finalize, hash160. destruct (CSHA256_Finalize_spec c m Hc) as [Hd _].
  destruct (CSHA256_Finalize c) as [c' d]. cbn [snd] in *. subst d. apply RIPEMD160.CRIPEMD160_Finalize_spec.
  apply (RIPEMD160.CRIPEMD160_Write_repr _ []); [|apply bytes_sha256]. now apply new_repr.
Qed.

Lemma digest_length (split4 : Z -> list Z) l : (forall x, length (split4 x) = 4%nat) -> length l = 5%nat -> length (mjoin (split4 <$> l)) = 20%nat.
Proof.
  intros H4 Hl. destruct l as [|a [|b [|c [|d [|e [|]]]]]]; try discriminate Hl.
  rewrite !join_fmap_cons, !length_app, !H4. reflexivity.
Qed.

Lemma digest_bytes (split4 : Z -> list Z) l : (forall x, bytes (split4 x)) -> bytes (mjoin (split4 <$> l)).
Proof. intros H4. induction l as [|x l IH]; [constructor|]. rewrite join_fmap_cons. now apply Forall_app_2. Qed.

Lemma digest_state_length Initialize compress split8 m : length Initialize = 5%nat ->
  (forall h b, length h = 5%nat -> length (compress h b) = 5%nat) -> length (digest_state Initialize compress split8 m) = 5%nat.
Proof.
  intros Hi Hc. apply (absorb_ext_inv 64 (fun h => length h = 5%nat) compress compress); [lia|done|]. intros h b Hh. split; [done|now apply Hc].
Qed.

Lemma hash160_length m : length (hash160 m) = 20%nat /\ bytes (hash160 m).
Proof.
  split; [apply digest_length; [intros; apply length_le_split|]|apply digest_bytes; intros; apply bytes_le_split].
  apply digest_state_length; [done|]. intros h b Hh. now apply RIPEMD160.ripemd_Transform_compress.
Qed.
Lemma ripemd160_length m : length (RIPEMD160.ripemd160 m) = 20%nat /\ bytes (RIPEMD160.ripemd160 m).
Proof.
  split; [apply digest_length; [intros; apply length_le_split|]|apply digest_bytes; intros; apply bytes_le_split].
  apply digest_state_length; [done|]. intros h b Hh. now apply RIPEMD160.ripemd_Transform_compress.
Qed.
Lemma sha1_length m : length (SHA1.sha1 m) = 20%nat /\ bytes (SHA1.sha1 m).
Proof.
  split; [apply digest_length; [intros; apply length_be_split|]|apply digest_bytes; intros; apply bytes_be_split].
  apply digest_state_length; [done|]. intros h b Hh. now apply SHA1.sha1_Transform_compress.
Qed.

(** ** Properties *)

(** C40. However a message is cut into pieces, [CSHA1], [CRIPEMD160] and [CHash160] objects, whatever their buffers
    held before, give the SHA-1 digest, the RIPEMD-160 digest, and the RIPEMD-160 digest of the SHA-256
    digest of the whole message. *)
Theorem hash160_streaming memory pieces : length memory = 64%nat -> Forall bytes pieces ->
  (SHA1.CSHA1_Finalize (fold_left SHA1.CSHA1_Write pieces (SHA1.CSHA1_new memory))).2 = SHA1.sha1 (mjoin pieces) /\
  (RIPEMD160.CRIPEMD160_Finalize (fold_left RIPEMD160.CRIPEMD160_Write pieces (RIPEMD160.CRIPEMD160_new memory))).2 =
    RIPEMD160.ripemd160 (mjoin pieces) /\
  (CHash160_Finalize (fold_left CHash160_Write pieces (CHash160_new memory))).2 = RIPEMD160.ripemd160 (FIPS180.sha256 (mjoin pieces)).
Proof.
  intros Hm Hp. split; [|split].
  - apply SHA1.CSHA1_Finalize_spec. apply (feed_repr _ _ _ []); [now apply new_repr|done].
  - apply RIPEMD160.CRIPEMD160_Finalize_spec. apply (feed_repr _ _ _ []); [now apply new_repr|done].
  - apply CHash160_Finalize_spec. apply (CSHA256_feed_repr _ []); [now apply CSHA256_new_repr|done].
Qed.

Lemma hash160_streaming_witness :
  (SHA1.CSHA1_Finalize (fold_left SHA1.CSHA1_Write [[0x61]; [0x62; 0x63]] (SHA1.CSHA1_new (replicate 64 9)))).2 = SHA1.sha1 [0x61; 0x62; 0x63] /\
  (RIPEMD160.CRIPEMD160_Finalize (fold_left RIPEMD160.CRIPEMD160_Write [[0x61]; [0x62; 0x63]] (RIPEMD160.CRIPEMD160_new (replicate 64 9)))).2 =
    RIPEMD160.ripemd160 [0x61; 0x62; 0x63] /\
  (CHash160_Finalize (fold_left CHash160_Write [[0x61]; [0x62; 0x63]] (CHash160_new (replicate 64 9)))).2 =
    RIPEMD160.ripemd160 (FIPS180.sha256 [0x61; 0x62; 0x63]).
Proof. apply (hash160_streaming (replicate 64 9) [[0x61]; [0x62; 0x63]]); [done|by_eval]. Defined.

(** The published test vectors for the message "abc". *)
Example hash160_abc :
  be_combine (SHA1.sha1 [0x61; 0x62; 0x63]) = 0xA9993E364706816ABA3E25717850C26C9CD0D89D /\
  be_combine (RIPEMD160.ripemd160 [0x61; 0x62; 0x63]) = 0x8EB208F7E05D987A9B044A8E98C6B087F15A0BFC.
Proof. split; vm_compute; reflexivity. Qed.
