(* ===== verification/Merkle.v ===== *)
(** * Merkle trees of transactions ([consensus/merkle.cpp])

    The constant-space computation of the root, of the mutation flag and of the branch of
    a position, the check of a branch, and the tree they are about: the levels obtained by
    hashing neighbours in pairs, the last node of an odd level with itself. *)

From S2P Require Import Prelude Words BlockBuffer CoreHash SHA256.

Abbreviation hash := (list Z) (only parsing).

(** [uint256()] *)
Definition null_hash : hash := replicate 32 0.

(** ** The computation *)

(** [CHash256().Write(a.begin(), 32).Write(b.begin(), 32).Finalize(...)] *)
Definition hash_pair (a b : hash) : hash :=
  (CHash256_Finalize (CHash256_Write (CHash256_Write (CHash256_new stack_memory) a) b)).2.

(** [!(count & (((uint32_t)1) << level))] *)
Definition bit_clear (count : Z) (level : nat) : bool :=
  (count .& (1 << Z.of_nat level)) =? 0.

Definition inner_at (inner : list hash) (level : nat) : hash := nth level inner null_hash.

(** The part of the loop bodies under [if (pbranch)]: [pb] says whether a branch is wanted. *)
Definition note_branch (pb : bool) (inner : list hash) (matchlevel : Z) (level : nat)
    (h : hash) (matchh : bool) (branch : list hash) : bool * list hash :=
  if pb then
    if matchh then (true, branch ++ [inner_at inner level])
    else if matchlevel =? Z.of_nat level then (true, branch ++ [h])
    else (matchh, branch)
  else (matchh, branch).

(** The result of carrying a hash upwards. *)
Record carried := mk_carried
  { level : nat; h : hash; matchh : bool; mutated : bool; branch : list hash }.

(** Combine a hash with the inner values, as long as the bit of the level is clear.  This
    is the body of the [for] loop over the lower bits and of the last [while] loop of the
    sweep, which does not use [mutated].  The result is [None] when the loop would shift
    by 32 and leave the array [inner]. *)
Fixpoint combine_up (fuel : nat) (pb : bool) (count : Z) (inner : list hash) (matchlevel : Z)
    (x : carried) : option carried :=
  match fuel with
  | O => None
  | S fuel =>
      if bit_clear count (level x) then
        let '(mh, br) :=
          note_branch pb inner matchlevel (level x) (h x) (matchh x) (branch x) in
        combine_up fuel pb count inner matchlevel
          {| level := S (level x);
             h := hash_pair (inner_at inner (level x)) (h x);
             matchh := mh;
             mutated := mutated x || bool_decide (inner_at inner (level x) = h x);
             branch := br |}
      else Some x
  end.

(** The variables of the function between two leaves. *)
Record calculator := mk_calc
  { count : Z; inner : list hash; matchlevel : Z; any_mutated : bool; path : list hash }.

Definition calculator_init : calculator :=
  {| count := 0; inner := replicate 32 null_hash; matchlevel := -1;
     any_mutated := false; path := [] |}.

(** The body of the loop over the leaves. *)
Definition add_leaf (pb : bool) (branchpos : Z) (c : calculator) (leaf : hash)
    : option calculator :=
  let mh := count c =? branchpos in
  let cnt := u32 (count c + 1) in
  x ← combine_up 32 pb cnt (inner c) (matchlevel c)
        {| level := 0; h := leaf; matchh := mh; mutated := any_mutated c; branch := path c |};
  Some {| count := cnt; inner := <[level x := h x]> (inner c);
          matchlevel := if matchh x then Z.of_nat (level x) else matchlevel c;
          any_mutated := mutated x; path := branch x |}.

(** [while (count < leaves.size())] *)
Fixpoint add_leaves (fuel : nat) (pb : bool) (branchpos : Z) (leaves : list hash)
    (c : calculator) : option calculator :=
  match fuel with
  | O => None
  | S fuel =>
      if count c <? Z.of_nat (length leaves) then
        c ← add_leaf pb branchpos c (nth (Z.to_nat (count c)) leaves null_hash);
        add_leaves fuel pb branchpos leaves c
      else Some c
  end.

(** [while (!(count & (((uint32_t)1) << level))) level++;] *)
Fixpoint first_bit (fuel : nat) (count : Z) (level : nat) : option nat :=
  match fuel with
  | O => None
  | S fuel => if bit_clear count level then first_bit fuel count (S level) else Some level
  end.

(** The sweep over the rightmost branch; [level] is below 32 at every test. *)
Fixpoint sweep (fuel : nat) (pb : bool) (cnt : Z) (inner : list hash) (matchlevel : Z)
    (x : carried) : option carried :=
  match fuel with
  | O => None
  | S fuel =>
      if cnt =? 1 << Z.of_nat (level x) then Some x
      else
        let br := if pb && matchh x then branch x ++ [h x] else branch x in
        let cnt' := u32 (cnt + (1 << Z.of_nat (level x))) in
        y ← combine_up (31 - level x) pb cnt' inner matchlevel
              {| level := S (level x); h := hash_pair (h x) (h x); matchh := matchh x;
                 mutated := mutated x; branch := br |};
        sweep fuel pb cnt' inner matchlevel
          {| level := level y; h := h y; matchh := matchh y; mutated := mutated x;
             branch := branch y |}
  end.

(** The root, the mutation flag and the branch; [None] when the computation does not end
    within the 32 levels. *)
Definition MerkleComputation (leaves : list hash) (branchpos : Z) (pb : bool)
    : option (hash * bool * list hash) :=
  if (length leaves =? 0)%nat then Some (null_hash, false, [])
  else
    c ← add_leaves (S (length leaves)) pb branchpos leaves calculator_init;
    l ← first_bit 32 (count c) 0;
    x ← sweep 32 pb (count c) (inner c) (matchlevel c)
          {| level := l; h := inner_at (inner c) l; matchh := matchlevel c =? Z.of_nat l;
             mutated := any_mutated c; branch := path c |};
    Some (h x, any_mutated c, branch x).

Definition ComputeMerkleRoot (leaves : list hash) : option (hash * bool) :=
  '(root, mut, _) ← MerkleComputation leaves (u32 (-1)) false; Some (root, mut).

Definition ComputeMerkleBranch (leaves : list hash) (position : Z) : option (list hash) :=
  '(_, _, br) ← MerkleComputation leaves position true; Some br.

Definition ComputeMerkleRootFromBranch (leaf : hash) (vMerkleBranch : list hash) (nIndex : Z) : hash :=
  (fold_left (fun '(hash, nIndex) it =>
     ((if nIndex .& 1 =? 0 then Hash2 hash it else Hash2 it hash), nIndex >> 1))
   vMerkleBranch (leaf, nIndex)).1.

(** The same for the transactions of a block, given their hashes. *)
Definition BlockMerkleRoot {Tx} (GetHash : Tx -> hash) (vtx : list Tx) : option (hash * bool) :=
  ComputeMerkleRoot (GetHash <$> vtx).
Definition BlockMerkleBranch {Tx} (GetHash : Tx -> hash) (vtx : list Tx) (position : Z)
    : option (list hash) :=
  ComputeMerkleBranch (GetHash <$> vtx) position.

(** ** The tree *)

(** The next level: neighbours are hashed together, the last node of an odd level with
    itself. *)
Fixpoint pair_up (l : list hash) : list hash :=
  match l with
  | [] => []
  | [x] => [sha256d (x ++ x)]
  | x :: y :: l => sha256d (x ++ y) :: pair_up l
  end.

Definition tree_level (leaves : list hash) (i : nat) : list hash := Nat.iter i pair_up leaves.
Definition tree_node (leaves : list hash) (i j : nat) : hash := nth j (tree_level leaves i) null_hash.

(** The number of levels above the leaves. *)
Definition height (leaves : list hash) : nat := Nat.log2_up (length leaves).

(** The root; that of no leaves is zero. *)
Definition merkle_root (leaves : list hash) : hash := tree_node leaves (height leaves) 0.

(** The sibling, at level [i], of the node above the leaf [p]: the last node of an odd level
    is its own sibling. *)
Definition sibling (leaves : list hash) (p i : nat) : hash :=
  let q := (p / 2 ^ i)%nat in
  tree_node leaves i
    (if Nat.odd q then q - 1 else Nat.min (q + 1) (length (tree_level leaves i) - 1))%nat.
Definition merkle_branch (leaves : list hash) (p : nat) : list hash :=
  sibling leaves p <$> seq 0 (height leaves).

(** Two equal neighbours, whose subtrees are complete. *)
Definition has_duplicates (leaves : list hash) : Prop :=
  exists i j, ((2 * j + 2) * 2 ^ i <= length leaves)%nat /\
    tree_node leaves i (2 * j) = tree_node leaves i (2 * j + 1).

(** A blob of 256 bits. *)
Definition is_hash (x : hash) : Prop := bytes x /\ length x = 32%nat.

(** ** Levels *)

Lemma pair_ind (P : list hash -> Prop) :
  P [] -> (forall x, P [x]) -> (forall x y l, P l -> P (x :: y :: l)) -> forall l, P l.
Proof.
  intros H0 H1 H2. fix IH 1. intros [|x [|y l]]; [exact H0|apply H1|apply H2, IH].
Qed.

Lemma length_pair_up l : length (pair_up l) = ((length l + 1) / 2)%nat.
Proof.
  induction l as [|x|x y l IH] using pair_ind; [done|done|].
  cbn [pair_up length]. rewrite IH.
  replace (S (S (length l)) + 1)%nat with (length l + 1 + 1 * 2)%nat by lia.
  rewrite Nat.div_add; lia.
Qed.

Lemma nth_pair_up l j : (2 * j < length l)%nat ->
  nth j (pair_up l) null_hash =
  sha256d (nth (2 * j) l null_hash ++ nth (Nat.min (2 * j + 1) (length l - 1)) l null_hash).
Proof.
  revert j. induction l as [|x|x y l IH] using pair_ind; intros j Hj.
  - simpl in Hj. lia.
  - simpl in Hj. now replace j with 0%nat by lia.
  - destruct j as [|j].
    + cbn [pair_up length]. rewrite Nat.min_l by lia. done.
    + cbn [pair_up length] in *.
      replace (2 * S j)%nat with (S (S (2 * j))) by lia.
      replace (Nat.min (S (S (2 * j)) + 1) (S (S (length l)) - 1))%nat
        with (S (S (Nat.min (2 * j + 1) (length l - 1)))) by lia.
      apply IH. lia.
Qed.

Lemma is_hash_null : is_hash null_hash.
Proof. split; [by_eval|done]. Qed.

Lemma is_hash_nth l j : Forall is_hash l -> is_hash (nth j l null_hash).
Proof.
  intros H. revert j. induction H as [|x l Hx _ IH]; intros [|j]; simpl; auto using is_hash_null.
Qed.

Section Levels.
Context (leaves : list hash).
Abbreviation n := (length leaves).
Abbreviation len i := (length (tree_level leaves i)).

Lemma tree_level_S i : tree_level leaves (S i) = pair_up (tree_level leaves i).
Proof. reflexivity. Qed.

Lemma len_S i : len (S i) = ((len i + 1) / 2)%nat.
Proof. rewrite tree_level_S. apply length_pair_up. Qed.

(** The number of nodes of a level is the quotient by 2^i, rounded up. *)
Lemma len_bounds i : (n <= len i * 2 ^ i)%nat /\ (len i * 2 ^ i < n + 2 ^ i)%nat.
Proof.
  induction i as [|i IH]; [simpl; lia|]. rewrite len_S, Nat.pow_succ_r'.
  pose proof (Nat.div_mod_eq (len i + 1) 2). pose proof (Nat.mod_upper_bound (len i + 1) 2).
  pose proof (Nat.pow_nonzero 2 i). nia.
Qed.

Lemma len_pos i : (0 < n)%nat -> (0 < len i)%nat.
Proof. intros H. pose proof (len_bounds i). nia. Qed.

Lemma len_height : (0 < n)%nat -> len (height leaves) = 1%nat.
Proof.
  intros H. pose proof (len_bounds (height leaves)) as [H1 H2].
  assert (n <= 2 ^ height leaves)%nat.
  { destruct (Nat.eq_dec n 1%nat) as [->|]; [pose proof (Nat.pow_nonzero 2 (height leaves)); lia|].
    apply Nat.log2_up_spec. lia. }
  pose proof (len_pos (height leaves) H). nia.
Qed.

Lemma height_least i : (0 < n)%nat -> len i = 1%nat -> (height leaves <= i)%nat.
Proof.
  intros H E. pose proof (len_bounds i) as [H1 _]. rewrite E in H1.
  unfold height. apply Nat.log2_up_le_pow2; lia.
Qed.

Lemma tree_node_S i j : (2 * j < len i)%nat ->
  tree_node leaves (S i) j =
  sha256d (tree_node leaves i (2 * j) ++ tree_node leaves i (Nat.min (2 * j + 1) (len i - 1))).
Proof. intros H. unfold tree_node at 1. rewrite tree_level_S. now apply nth_pair_up. Qed.

(** The two cases: the node has two children, or the only child is used twice. *)
Lemma tree_node_two i j : (2 * j + 1 < len i)%nat ->
  tree_node leaves (S i) j = sha256d (tree_node leaves i (2 * j) ++ tree_node leaves i (2 * j + 1)).
Proof. intros H. rewrite tree_node_S by lia. now rewrite Nat.min_l by lia. Qed.

Lemma tree_node_last i j : (2 * j + 1 = len i)%nat ->
  tree_node leaves (S i) j = sha256d (tree_node leaves i (2 * j) ++ tree_node leaves i (2 * j)).
Proof. intros H. rewrite tree_node_S by lia. now rewrite Nat.min_r, <- H, Nat.add_sub by lia. Qed.

Context (Hleaves : Forall is_hash leaves).

Lemma is_hash_node i j : is_hash (tree_node leaves i j).
Proof.
  revert j. induction i as [|i IH]; intros j.
  - now apply is_hash_nth.
  - destruct (Nat.lt_ge_cases (2 * j) (len i)) as [H|H].
    + rewrite tree_node_S by done. split; [apply bytes_sha256d|apply length_sha256d].
    + unfold tree_node. rewrite nth_overflow; [apply is_hash_null|].
      rewrite len_S. pose proof (Nat.div_mod_eq (len i + 1) 2). lia.
Qed.
End Levels.

Lemma hash_pair_spec a b : bytes a -> bytes b -> hash_pair a b = sha256d (a ++ b).
Proof.
  intros Ha Hb. apply CHash256_Finalize_spec, CSHA256_Write_repr; [|done].
  apply (CSHA256_Write_repr _ []); [|done]. now apply CSHA256_new_repr.
Qed.

(** ** Bits of the counter *)

Lemma bit_clear_odd c l : bit_clear (Z.of_nat c) l = Nat.even (c / 2 ^ l).
Proof.
  unfold bit_clear. rewrite land_single_bit, Z.testbit_odd, Z.shiftr_div_pow2 by lia.
  change 2 with (Z.of_nat 2) at 1. rewrite <- Nat2Z.inj_pow, <- Nat2Z.inj_div, <- Nat.negb_odd.
  f_equal. generalize (c / 2 ^ l)%nat as x. intros x. induction x as [|x IH]; [done|].
  now rewrite Nat.odd_succ, Nat2Z.inj_succ, Z.odd_succ, <- Nat.negb_odd, <- Z.negb_odd, IH.
Qed.

Lemma pow_level l : 1 << Z.of_nat l = Z.of_nat (2 ^ l).
Proof. rewrite Z.shiftl_1_l. now rewrite Nat2Z.inj_pow. Qed.

(** [c] is a multiple of 2^l, and [c0] less by at most 2^l. *)
Definition ends_block (c0 c l q : nat) : Prop :=
  c = (q * 2 ^ l)%nat /\ (c0 < c)%nat /\ (c <= c0 + 2 ^ l)%nat.

Lemma ends_block_even c0 c l q : ends_block c0 c l q -> Nat.even q = true ->
  ends_block c0 c (S l) (q / 2) /\ q = (2 * (q / 2))%nat /\ (0 < q / 2)%nat /\
  (c0 / 2 ^ l = q - 1)%nat /\ Nat.odd (c0 / 2 ^ l) = true.
Proof.
  intros (E & H1 & H2) Hq. apply Nat.even_spec in Hq as [k ->].
  replace (2 * k / 2)%nat with k by (symmetry; rewrite Nat.mul_comm; apply Nat.div_mul; lia).
  pose proof (Nat.pow_nonzero 2 l) as Hp.
  assert (Hk : (0 < k)%nat) by nia.
  assert (Hd : (c0 / 2 ^ l = 2 * k - 1)%nat).
  { symmetry. apply (Nat.div_unique _ _ _ (c0 - (2 * k - 1) * 2 ^ l)); nia. }
  split; [split; [|split]; rewrite ?Nat.pow_succ_r'; nia|]. split; [done|]. split; [done|].
  split; [done|]. rewrite Hd. replace (2 * k - 1)%nat with (2 * (k - 1) + 1)%nat by lia.
  apply Nat.odd_spec. now exists (k - 1)%nat.
Qed.

Lemma ends_block_level c0 c l q : ends_block c0 c l q -> Z.of_nat c < 2 ^ 32 -> (l < 32)%nat.
Proof.
  intros (-> & H & _) Hc. rewrite Nat2Z.inj_mul, Nat2Z.inj_pow in Hc.
  change (Z.of_nat 2) with 2 in Hc.
  assert (0 < q)%nat by (destruct q; lia).
  apply Nat2Z.inj_lt. apply (Z.pow_lt_mono_r_iff 2); [lia|lia|].
  change (2 ^ Z.of_nat 32) with (2 ^ 32). nia.
Qed.

Lemma ends_block_quot c0 c l q : ends_block c0 c l q -> (c / 2 ^ l = q)%nat /\ (0 < q)%nat.
Proof.
  intros (-> & H & _). pose proof (Nat.pow_nonzero 2 l). rewrite Nat.div_mul by lia. split; [done|nia].
Qed.

(** ** The computation climbs the tree *)

Section Climb.
Context (leaves : list hash) (Hleaves : Forall is_hash leaves).
Abbreviation n := (length leaves).
Abbreviation len i := (length (tree_level leaves i)).
Abbreviation node i j := (tree_node leaves i j).

(** After [c0] leaves, the bits of [c0] select the valid entries of [inner]. *)
Definition inner_ok (c0 : nat) (inner : list hash) : Prop :=
  length inner = 32%nat /\
  forall i, Nat.odd (c0 / 2 ^ i) = true -> inner_at inner i = node i (c0 / 2 ^ i - 1).

(** While the hash of node [q - 1] of level [l] is carried upwards, the branch of the leaf [p]
    holds the siblings up to the node that is above [p]: the carried one, or the entry
    [matchlevel] of [inner]. *)
Definition match_ok (p c0 c l q : nat) (matchlevel : Z) (mh : bool) (br : list hash) : Prop :=
  if mh then (p / 2 ^ l = q - 1)%nat /\ br = sibling leaves p <$> seq 0 l
  else
    ((p < c0)%nat -> exists m, matchlevel = Z.of_nat m /\ (l <= m)%nat /\
       Nat.odd (c0 / 2 ^ m) = true /\ (c0 / 2 ^ m - 1 = p / 2 ^ m)%nat /\
       br = sibling leaves p <$> seq 0 m) /\
    ((c0 <= p)%nat -> (c <= p)%nat /\ matchlevel = -1 /\ br = []).

Lemma seq_snoc {A} (f : nat -> A) l : f <$> seq 0 (S l) = (f <$> seq 0 l) ++ [f l].
Proof. now rewrite seq_S, fmap_app. Qed.

Lemma quotient_S p l : (p / 2 ^ S l = p / 2 ^ l / 2)%nat.
Proof. rewrite Nat.pow_succ_r', Nat.mul_comm, Nat.Div0.div_div. done. Qed.

Lemma even_double k : Nat.odd (2 * k) = false.
Proof. rewrite <- Nat.negb_even. apply negb_false_iff, Nat.even_spec. now exists k. Qed.

Lemma odd_double k : Nat.odd (2 * k + 1) = true.
Proof. apply Nat.odd_spec. now exists k. Qed.

Lemma note_branch_ok p c0 c l q inner ml x mh br :
  ends_block c0 c l q -> Nat.even q = true -> inner_ok c0 inner -> (q <= len l)%nat ->
  x = node l (q - 1) -> match_ok p c0 c l q ml mh br ->
  let r := note_branch true inner ml l x mh br in match_ok p c0 c (S l) (q / 2) ml r.1 r.2.
Proof.
  intros He Hq [_ Hin] Hlen -> Hm. apply (ends_block_even c0 c l q He) in Hq as (He' & Eq & Hk & Hd & Ho).
  set (k := (q / 2)%nat) in *. specialize (Hin l Ho). rewrite Hd in Hin.
  unfold note_branch. destruct mh; cbv zeta.
  - destruct Hm as [Hp ->]. cbn [fst snd match_ok]. split.
    + rewrite quotient_S, Hp, Eq. replace (2 * k - 1)%nat with (1 + (k - 1) * 2)%nat by lia.
      rewrite Nat.div_add by lia. done.
    + rewrite seq_snoc. f_equal. unfold sibling. rewrite Hp, Hin, Eq.
      replace (2 * k - 1)%nat with (2 * (k - 1) + 1)%nat by lia. rewrite odd_double.
      do 2 f_equal; lia.
  - destruct Hm as [Hm1 Hm2]. destruct (Z.eqb_spec ml (Z.of_nat l)) as [E|Hne]; cbn [fst snd match_ok].
    + destruct (Nat.lt_ge_cases p c0) as [Hp|Hp]; [|destruct (Hm2 Hp) as (_ & ? & _); lia].
      destruct (Hm1 Hp) as (m & Em & _ & _ & Hpm & ->). assert (m = l) as -> by lia.
      rewrite Hd in Hpm. split.
      * rewrite quotient_S, <- Hpm, Eq. replace (2 * k - 1 - 1)%nat with ((k - 1) * 2)%nat by lia.
        apply Nat.div_mul. lia.
      * rewrite seq_snoc. f_equal. unfold sibling. rewrite <- Hpm, Eq.
        replace (2 * k - 1 - 1)%nat with (2 * (k - 1))%nat by lia. rewrite even_double.
        do 2 f_equal; lia.
    + split; [|done]. intros Hp. destruct (Hm1 Hp) as (m & Em & Hl & Hmo & Hpm & Hbr).
      exists m. split; [done|]. split; [|done].
      destruct (Nat.eq_dec m l) as [->|]; [congruence|lia].
Qed.

(** The comparisons made on the way from level [l] to level [e]. *)
Definition duplicates_between (c l e : nat) : Prop :=
  exists i, (l <= i < e)%nat /\ node i (c / 2 ^ i - 2) = node i (c / 2 ^ i - 1).

Lemma duplicates_between_S c l e q : (l < e)%nat -> (c / 2 ^ l = q)%nat ->
  (duplicates_between c l e <->
   node l (q - 2) = node l (q - 1) \/ duplicates_between c (S l) e).
Proof.
  intros Hl <-. split.
  - intros (i & Hi & E). destruct (Nat.eq_dec i l) as [->|]; [now left|right].
    exists i. split; [lia|done].
  - intros [E|(i & Hi & E)]; [exists l|exists i]; (split; [lia|done]).
Qed.

(** The hash being carried is the node [q - 1] of its level, which ends at leaf [c]; under
    the condition [M] the branch is as it should be. *)
Definition carry_ok (M : Prop) (p c0 c : nat) (ml : Z) (x : carried) (q : nat) : Prop :=
  ends_block c0 c (level x) q /\ (q <= len (level x))%nat /\
  h x = node (level x) (q - 1) /\
  (M -> match_ok p c0 c (level x) q ml (matchh x) (branch x)).

Definition combine_step (pb : bool) (inner : list hash) (ml : Z) (x : carried) : carried :=
  let r := note_branch pb inner ml (level x) (h x) (matchh x) (branch x) in
  {| level := S (level x); h := hash_pair (inner_at inner (level x)) (h x); matchh := r.1;
     mutated := mutated x || bool_decide (inner_at inner (level x) = h x); branch := r.2 |}.

Lemma combine_up_S fuel pb count inner ml x :
  combine_up (S fuel) pb count inner ml x =
  if bit_clear count (level x) then combine_up fuel pb count inner ml (combine_step pb inner ml x)
  else Some x.
Proof. cbn [combine_up]. unfold combine_step. now destruct (note_branch _ _ _ _ _ _ _). Qed.

Lemma carry_step (M : Prop) pb p c0 c inner ml x q :
  (M -> pb = true) -> inner_ok c0 inner -> carry_ok M p c0 c ml x q -> Nat.even q = true ->
  carry_ok M p c0 c ml (combine_step pb inner ml x) (q / 2) /\
  (mutated (combine_step pb inner ml x) = true <->
   mutated x = true \/ node (level x) (q - 2) = node (level x) (q - 1)).
Proof.
  intros HM Hin (He & Hlen & Hh & Hm) Eq.
  destruct (ends_block_even _ _ _ _ He Eq) as (He' & Eq2 & Hk & Hd & Ho).
  pose proof (proj2 Hin (level x) Ho) as Hi. rewrite Hd in Hi.
  replace (q - 1 - 1)%nat with (q - 2)%nat in Hi by lia.
  split; [split; [done|split; [|split]]|]; cbn [combine_step level h matchh mutated branch].
  - rewrite len_S. apply Nat.Div0.div_le_mono. lia.
  - rewrite Hi, Hh, hash_pair_spec by (apply is_hash_node; done).
    rewrite (tree_node_two leaves (level x) (q / 2 - 1)) by lia.
    do 2 f_equal; f_equal; lia.
  - intros H. rewrite (HM H). apply note_branch_ok; auto.
  - rewrite orb_true_iff, bool_decide_eq_true, Hi, Hh. reflexivity.
Qed.

Lemma combine_up_spec (M : Prop) fuel pb p c0 c inner ml x q :
  (M -> pb = true) -> (32 <= fuel + level x)%nat -> Z.of_nat c < 2 ^ 32 -> inner_ok c0 inner ->
  carry_ok M p c0 c ml x q ->
  exists y q', combine_up fuel pb (Z.of_nat c) inner ml x = Some y /\
    carry_ok M p c0 c ml y q' /\ (level x <= level y < 32)%nat /\ Nat.odd q' = true /\
    (mutated y = true <-> mutated x = true \/ duplicates_between c (level x) (level y)).
Proof.
  intros HM. revert x q. induction fuel as [|fuel IH]; intros x q Hf Hc Hin Hx;
    pose proof (ends_block_level _ _ _ _ (proj1 Hx) Hc) as Hl; [lia|].
  destruct (ends_block_quot _ _ _ _ (proj1 Hx)) as [Hcq Hq0].
  rewrite combine_up_S, bit_clear_odd, Hcq. destruct (Nat.even q) eqn:Eq.
  - destruct (carry_step M pb p c0 c inner ml x q HM Hin Hx Eq) as [Hx' Hmut].
    destruct (IH (combine_step pb inner ml x) (q / 2)%nat
      ltac:(cbn [combine_step level]; lia) Hc Hin Hx') as (y & q' & Hy & Hr & Hly & Ho & Hmy).
    cbn [combine_step level] in Hly. exists y, q'. split; [done|]. split; [done|]. split; [lia|].
    split; [done|]. rewrite Hmy, Hmut, (duplicates_between_S c (level x) (level y) q) by lia.
    cbn [combine_step level]. tauto.
  - exists x, q. rewrite <- Nat.negb_even, Eq. split; [done|]. split; [done|]. split; [lia|].
    split; [done|]. split; [now left|]. intros [?|(i & Hi & _)]; [done|lia].
Qed.

(** *** The leaves *)

(** The branch between two leaves, after [c0] of them. *)
Definition path_ok (p c0 : nat) (ml : Z) (br : list hash) : Prop :=
  ((p < c0)%nat -> exists m, ml = Z.of_nat m /\ Nat.odd (c0 / 2 ^ m) = true /\
     (c0 / 2 ^ m - 1 = p / 2 ^ m)%nat /\ br = sibling leaves p <$> seq 0 m) /\
  ((c0 <= p)%nat -> ml = -1 /\ br = []).

Definition duplicates_upto (c : nat) : Prop :=
  exists i j, ((2 * j + 2) * 2 ^ i <= c)%nat /\ node i (2 * j) = node i (2 * j + 1).

Definition calc_ok (pb : bool) (p c0 : nat) (c : calculator) : Prop :=
  count c = Z.of_nat c0 /\ inner_ok c0 (inner c) /\
  (any_mutated c = true <-> duplicates_upto c0) /\
  (pb = true -> path_ok p c0 (matchlevel c) (path c)).

Lemma odd_not_even q : Nat.odd q = true -> forall k, q <> (2 * k)%nat.
Proof. intros H k ->. now rewrite even_double in H. Qed.

(** Above the lowest bit of [c], the counters [c - 1] and [c] agree. *)
Lemma quotient_above c0 c e q i : ends_block c0 c e q -> Nat.odd q = true -> (e < i)%nat ->
  (c / 2 ^ i = c0 / 2 ^ i)%nat.
Proof.
  intros (-> & H1 & H2) Ho Hi. apply Nat.odd_spec in Ho as [k ->].
  replace i with (S e + (i - S e))%nat by lia.
  rewrite Nat.pow_add_r, <- !Nat.Div0.div_div. f_equal.
  pose proof (Nat.pow_nonzero 2 e). rewrite Nat.pow_succ_r'.
  rewrite <- (Nat.div_unique ((2 * k + 1) * 2 ^ e) (2 * 2 ^ e) k (2 ^ e)) by nia.
  apply (Nat.div_unique c0 (2 * 2 ^ e) k (c0 - k * (2 * 2 ^ e))); nia.
Qed.

Lemma quotient_below q e i : (i < e)%nat ->
  (q * 2 ^ e / 2 ^ i = 2 * (q * 2 ^ (e - S i)))%nat.
Proof.
  intros H. replace e with (i + (1 + (e - S i)))%nat at 1 by lia.
  rewrite !Nat.pow_add_r, Nat.pow_1_r.
  replace (q * (2 ^ i * (2 * 2 ^ (e - S i))))%nat with (2 * (q * 2 ^ (e - S i)) * 2 ^ i)%nat by lia.
  apply Nat.div_mul. now apply Nat.pow_nonzero.
Qed.

Lemma inner_ok_store c0 c e q inner x :
  inner_ok c0 inner -> ends_block c0 c e q -> Nat.odd q = true -> (e < 32)%nat ->
  x = node e (q - 1) -> inner_ok c (<[e := x]> inner).
Proof.
  intros [Hl Hin] He Ho Hlt ->. split; [now rewrite length_insert|]. intros i Hi.
  unfold inner_at. rewrite nth_lookup_def. destruct (Nat.lt_trichotomy i e) as [H|[->|H]].
  - destruct He as (-> & _ & _). rewrite quotient_below, even_double in Hi; done.
  - rewrite list_lookup_insert_eq by lia. simpl. f_equal.
    now rewrite (proj1 (ends_block_quot _ _ _ _ He)).
  - rewrite list_lookup_insert_ne, <- nth_lookup_def by lia.
    rewrite (quotient_above _ _ _ _ i He) in Hi |- * by done. now apply Hin.
Qed.

Lemma duplicates_upto_next c0 c e q : ends_block c0 c e q -> Nat.odd q = true -> c = S c0 ->
  (duplicates_upto c <-> duplicates_upto c0 \/ duplicates_between c 0 e).
Proof.
  intros (Ec & _ & _) Ho Hc. split.
  - intros (i & j & Hle & E). destruct (Nat.le_gt_cases ((2 * j + 2) * 2 ^ i) c0) as [H|H];
      [left; now exists i, j|right].
    assert (Eq : ((2 * j + 2) * 2 ^ i = c)%nat) by lia.
    assert (Hd : (c / 2 ^ i = 2 * j + 2)%nat) by (rewrite <- Eq; apply Nat.div_mul, Nat.pow_nonzero; lia).
    exists i. rewrite Hd. split.
    + split; [lia|]. apply Nat.nle_gt. intros Hge. apply (odd_not_even q Ho ((j + 1) * 2 ^ (i - e))).
      apply (Nat.mul_cancel_r _ _ (2 ^ e)); [now apply Nat.pow_nonzero|].
      rewrite <- Ec, <- Eq. replace i with (i - e + e)%nat at 1 by lia. rewrite Nat.pow_add_r. lia.
    + replace (2 * j + 2 - 2)%nat with (2 * j)%nat by lia.
      now replace (2 * j + 2 - 1)%nat with (2 * j + 1)%nat by lia.
  - intros [(i & j & H & E)|(i & Hi & E)]; [exists i, j; split; [lia|done]|].
    assert (Hd : (c / 2 ^ i = 2 * (q * 2 ^ (e - S i)))%nat) by (rewrite Ec; apply quotient_below; lia).
    set (k := (q * 2 ^ (e - S i))%nat) in *.
    assert (Hk : (0 < k)%nat).
    { unfold k. pose proof (Nat.pow_nonzero 2 (e - S i)). assert (q <> 0%nat) by (intros ->; done). nia. }
    exists i, (k - 1)%nat. rewrite Hd in E. split.
    + pose proof (Nat.Div0.mul_div_le c (2 ^ i)). rewrite Hd in *. nia.
    + replace (2 * (k - 1))%nat with (2 * k - 2)%nat by lia.
      now replace (2 * k - 2 + 1)%nat with (2 * k - 1)%nat by lia.
Qed.

Lemma path_ok_leaf p c0 ml br : path_ok p c0 ml br ->
  match_ok p c0 (S c0) 0 (S c0) ml (Z.of_nat c0 =? Z.of_nat p) br.
Proof.
  intros [H1 H2]. unfold match_ok. destruct (Z.eqb_spec (Z.of_nat c0) (Z.of_nat p)) as [E|E].
  - apply Nat2Z.inj in E as ->. rewrite Nat.div_1_r. split; [lia|]. now apply H2.
  - split; intros Hp.
    + destruct (H1 Hp) as (m & ? & ? & ? & ?). exists m. split; [done|]. split; [lia|done].
    + split; [lia|]. apply H2. lia.
Qed.

Lemma path_ok_next p c0 c e q ml mh br :
  ends_block c0 c e q -> Nat.odd q = true -> c = S c0 -> match_ok p c0 c e q ml mh br ->
  path_ok p c (if mh then Z.of_nat e else ml) br.
Proof.
  intros He Ho Hc Hm. destruct (ends_block_quot _ _ _ _ He) as [Hq Hq0]. destruct mh.
  - destruct Hm as [Hp ->].
    assert (Hlt : (p < c)%nat).
    { pose proof (Nat.div_mod_eq p (2 ^ e)). pose proof (Nat.mod_upper_bound p (2 ^ e)).
      pose proof (Nat.pow_nonzero 2 e). destruct He as (-> & _ & _). rewrite Hp in *. nia. }
    split; [|lia]. intros _. exists e. now rewrite Hq.
  - destruct Hm as [Hm1 Hm2]. split; intros Hp.
    + destruct (Nat.lt_ge_cases p c0) as [Hlt|Hge]; [|destruct (Hm2 Hge); lia].
      destruct (Hm1 Hlt) as (m & Em & Hem & Hmo & Hpm & Hbr). exists m.
      rewrite (quotient_above _ _ _ _ m He Ho); [done|].
      destruct (Nat.eq_dec m e) as [->|]; [|lia]. exfalso.
      assert (Hd : (c0 / 2 ^ e = q - 1)%nat).
      { symmetry. destruct He as (E & H1 & H2).
        apply (Nat.div_unique _ _ _ (c0 - (q - 1) * 2 ^ e)); nia. }
      rewrite Hd in Hmo. apply Nat.odd_spec in Ho as [k ->].
      replace (2 * k + 1 - 1)%nat with (2 * k)%nat in Hmo by lia. now rewrite even_double in Hmo.
    + destruct Hm2; [lia|done].
Qed.

Lemma ends_block_leaf c0 : ends_block c0 (S c0) 0 (S c0).
Proof. split; [|split]; simpl; lia. Qed.

Lemma add_leaf_spec pb p c0 c : calc_ok pb p c0 c -> (c0 < n)%nat -> Z.of_nat (S c0) < 2 ^ 32 ->
  exists c', add_leaf pb (Z.of_nat p) c (nth c0 leaves null_hash) = Some c' /\
    calc_ok pb p (S c0) c'.
Proof.
  intros (Hc & Hin & Hmut & Hp) Hn Hb. unfold add_leaf. rewrite Hc.
  replace (u32 (Z.of_nat c0 + 1)) with (Z.of_nat (S c0)).
  2:{ rewrite u32_small; unfold in_word; lia. }
  destruct (combine_up_spec (pb = true) 32 pb p c0 (S c0) (inner c) (matchlevel c)
    {| level := 0; h := nth c0 leaves null_hash; matchh := Z.of_nat c0 =? Z.of_nat p;
       mutated := any_mutated c; branch := path c |} (S c0))
    as (y & q' & Hy & (He & Hlen & Hh & Hm) & Hl & Ho & Hmy);
    cbn [level h matchh mutated branch]; [done|lia|done|done| |].
  { split; [apply ends_block_leaf|]. split; [exact Hn|]. cbn [level h matchh branch].
    split; [now rewrite Nat.sub_1_r|]. intros H. now apply path_ok_leaf, Hp. }
  rewrite Hy. cbn [mbind option_bind]. eexists. split; [done|].
  cbn [level mutated] in *. unfold calc_ok. cbn [count inner matchlevel any_mutated path].
  split; [done|]. split; [now apply (inner_ok_store c0 _ _ q'); try lia|]. split.
  - rewrite Hmy, Hmut. symmetry. now apply (duplicates_upto_next c0 _ _ q').
  - intros H. now apply (path_ok_next p c0 _ _ q'); auto.
Qed.

Lemma calc_ok_init pb p : calc_ok pb p 0 calculator_init.
Proof.
  split; [done|]. split; [|split].
  - split; [done|]. intros i Hi. rewrite Nat.Div0.div_0_l in Hi. done.
  - split; [done|]. intros (i & j & H & _). pose proof (Nat.pow_nonzero 2 i). nia.
  - intros _. split; [lia|done].
Qed.

Lemma add_leaves_spec pb p fuel c0 c : calc_ok pb p c0 c -> (c0 <= n)%nat -> (n < c0 + fuel)%nat ->
  Z.of_nat n < 2 ^ 32 ->
  exists c', add_leaves fuel pb (Z.of_nat p) leaves c = Some c' /\ calc_ok pb p n c'.
Proof.
  intros Hc Hn Hf Hb. revert c0 c Hc Hn Hf. induction fuel as [|fuel IH]; intros c0 c Hc Hn Hf; [lia|].
  cbn [add_leaves]. rewrite (proj1 Hc), Nat2Z.id. destruct (Z.ltb_spec (Z.of_nat c0) (Z.of_nat n)).
  - destruct (add_leaf_spec pb p c0 c Hc) as (c' & -> & Hc'); [lia|lia|].
    cbn [mbind option_bind]. apply (IH (S c0)); [done|lia|lia].
  - assert (c0 = n) as -> by lia. now exists c.
Qed.

(** *** The sweep *)

Lemma first_bit_spec fuel c l q : (32 <= fuel + l)%nat -> Z.of_nat c < 2 ^ 32 ->
  (0 < c)%nat -> c = (q * 2 ^ l)%nat ->
  exists e q', first_bit fuel (Z.of_nat c) l = Some e /\ (l <= e < 32)%nat /\
    c = (q' * 2 ^ e)%nat /\ Nat.odd q' = true.
Proof.
  revert l q. induction fuel as [|fuel IH]; intros l q Hf Hc H0 E;
    assert (He : ends_block (c - 1) c l q)
      by (split; [done|]; pose proof (Nat.pow_nonzero 2 l); lia);
    pose proof (ends_block_level _ _ _ _ He Hc) as Hl; [lia|].
  cbn [first_bit]. rewrite bit_clear_odd, (proj1 (ends_block_quot _ _ _ _ He)).
  destruct (Nat.even q) eqn:Eq.
  - destruct (ends_block_even _ _ _ _ He Eq) as ((E' & _) & _).
    destruct (IH (S l) (q / 2)%nat) as (e & q' & H1 & H2 & H3); [lia|done|done|done|].
    exists e, q'. split; [done|]. split; [lia|done].
  - exists l, q. now rewrite <- Nat.negb_even, Eq.
Qed.

(** The hash carried by the sweep is the last node of its level. *)
Definition sweep_match (p l : nat) (ml : Z) (mh : bool) (br : list hash) : Prop :=
  if mh then (p / 2 ^ l = len l - 1)%nat /\ br = sibling leaves p <$> seq 0 l
  else exists m, ml = Z.of_nat m /\ (S l <= m)%nat /\ Nat.odd (n / 2 ^ m) = true /\
    (n / 2 ^ m - 1 = p / 2 ^ m)%nat /\ br = sibling leaves p <$> seq 0 m.

Definition sweep_ok (pb : bool) (p : nat) (ml : Z) (x : carried) : Prop :=
  (level x < 32)%nat /\ (2 ^ level x < 2 * n)%nat /\ Nat.odd (len (level x)) = true /\
  h x = node (level x) (len (level x) - 1) /\
  (pb = true -> (p < n)%nat -> sweep_match p (level x) ml (matchh x) (branch x)).

(** The length of a level is determined by its bounds. *)
Lemma len_unique l q : (n <= q * 2 ^ l)%nat -> (q * 2 ^ l < n + 2 ^ l)%nat -> q = len l.
Proof.
  intros H1 H2. destruct (len_bounds leaves l) as [H3 H4]. pose proof (Nat.pow_nonzero 2 l).
  destruct (Nat.lt_trichotomy q (len l)) as [Hc|[Hc|Hc]]; [nia|done|nia].
Qed.

Lemma sweep_ok_start pb p ml br inner e q mut :
  inner_ok n inner -> (0 < n)%nat -> (e < 32)%nat -> n = (q * 2 ^ e)%nat -> Nat.odd q = true ->
  (pb = true -> path_ok p n ml br) ->
  sweep_ok pb p ml {| level := e; h := inner_at inner e; matchh := ml =? Z.of_nat e;
                      mutated := mut; branch := br |}.
Proof.
  intros [_ Hin] H0 He Hq Ho Hp. unfold sweep_ok. cbn [level h matchh branch].
  pose proof (Nat.pow_nonzero 2 e) as Hpow.
  assert (Hlen : len e = q) by (symmetry; apply len_unique; lia).
  assert (Hd : (n / 2 ^ e = q)%nat) by (rewrite Hq; apply Nat.div_mul; lia).
  split; [done|]. split; [destruct q; [done|]; nia|]. rewrite Hlen. split; [done|]. split.
  - rewrite <- Hd. apply Hin. now rewrite Hd.
  - intros Hpb Hlt. destruct (Hp Hpb) as [H1 _]. destruct (H1 Hlt) as (m & -> & Hmo & Hpm & ->).
    unfold sweep_match. destruct (Z.eqb_spec (Z.of_nat m) (Z.of_nat e)) as [E|E].
    + apply Nat2Z.inj in E as ->. rewrite Hlen, <- Hd. now split.
    + exists m. split; [done|]. split; [|done].
      destruct (Nat.lt_trichotomy m e) as [H|[->|H]]; [|done|lia].
      rewrite Hq, quotient_below, even_double in Hmo; done.
Qed.

(** One more level: the last node is hashed with itself. *)
Lemma sweep_double pb p ml x l :
  sweep_ok pb p ml x -> level x = l -> (len l <> 1)%nat ->
  let cnt := (len (S l) * 2 ^ S l)%nat in
  cnt = (len l * 2 ^ l + 2 ^ l)%nat /\ (2 ^ S l < n)%nat /\
  carry_ok (pb = true /\ (p < n)%nat) p n cnt ml
    {| level := S l; h := hash_pair (h x) (h x); matchh := matchh x; mutated := mutated x;
       branch := if pb && matchh x then branch x ++ [h x] else branch x |} (len (S l)).
Proof.
  intros (Hl & Hb & Ho & Hh & Hm) El Hne cnt. rewrite El in *.
  apply Nat.odd_spec in Ho as [k Hk]. destruct (len_bounds leaves l) as [H1 H2].
  assert (Hs : len (S l) = S k).
  { rewrite len_S, Hk. replace (2 * k + 1 + 1)%nat with (S k * 2)%nat by lia. apply Nat.div_mul. lia. }
  unfold cnt, carry_ok, ends_block. cbn [level h matchh branch]. rewrite Hs, Nat.pow_succ_r', Hk in *.
  split; [lia|]. split; [nia|]. split; [split; [done|nia]|]. split; [lia|].
  replace (2 * k + 1 - 1)%nat with (2 * k)%nat in * by lia. split.
  - rewrite Nat.sub_1_r, Nat.pred_succ, tree_node_last by lia. rewrite Hh.
    apply hash_pair_spec; apply is_hash_node; done.
  - intros [-> Hp].
    specialize (Hm eq_refl Hp). unfold sweep_match in Hm. unfold match_ok. cbn [andb].
    destruct (matchh x).
    + destruct Hm as [Hpl ->]. rewrite Hk in Hpl.
      replace (2 * k + 1 - 1)%nat with (k * 2)%nat in Hpl by lia. split.
      * rewrite quotient_S, Hpl, Nat.div_mul; lia.
      * rewrite seq_snoc. f_equal. unfold sibling. rewrite Hpl, (Nat.mul_comm k), even_double, Hk, Hh.
        do 2 f_equal. lia.
    + split; [|lia]. intros _. destruct Hm as (m & ? & ? & ?). exists m. auto.
Qed.

(** The match after carrying the hash to level [e]. *)
Lemma sweep_carried pb p ml y c q' :
  carry_ok (pb = true /\ (p < n)%nat) p n c ml y q' -> (level y < 32)%nat ->
  (n < c)%nat -> (c < 2 * n)%nat -> Nat.odd q' = true -> (c < n + 2 ^ level y)%nat ->
  sweep_ok pb p ml y /\ c = (len (level y) * 2 ^ level y)%nat.
Proof.
  intros (He & Hlen & Hh & Hm) Hl Hc1 Hc2 Ho Hc3. pose proof (proj1 He) as Ec.
  assert (Hq : q' = len (level y)) by (apply len_unique; lia). split; [|now rewrite <- Hq].
  split; [done|]. split.
  { rewrite Ec in Hc2. destruct q'; [done|]. nia. }
  rewrite <- Hq. split; [done|]. split; [done|]. intros -> Hp.
  specialize (Hm (conj eq_refl Hp)). unfold match_ok in Hm.
  unfold sweep_match. destruct (matchh y); [now rewrite <- Hq|].
  destruct Hm as [Hm _]. destruct (Hm Hp) as (m & Em & Hlm & Hmo & Hpm & Hbr).
  exists m. split; [done|]. split; [|done].
  destruct (Nat.eq_dec m (level y)) as [->|]; [|lia]. exfalso.
  assert (Hd : (n / 2 ^ level y = q' - 1)%nat).
  { symmetry. pose proof (Nat.pow_nonzero 2 (level y)). assert (0 < q')%nat by (destruct q'; [done|lia]).
    apply (Nat.div_unique _ _ _ (n - (q' - 1) * 2 ^ level y)); nia. }
  rewrite Hd in Hmo. apply Nat.odd_spec in Ho as [k ->].
  replace (2 * k + 1 - 1)%nat with (2 * k)%nat in Hmo by lia. now rewrite even_double in Hmo.
Qed.

Lemma sweep_spec pb p ml fuel inner x : (0 < n)%nat -> Z.of_nat n <= 2 ^ 31 -> inner_ok n inner ->
  sweep_ok pb p ml x -> (32 <= fuel + level x)%nat ->
  exists y, sweep fuel pb (Z.of_nat (len (level x) * 2 ^ level x)) inner ml x = Some y /\
    sweep_ok pb p ml y /\ len (level y) = 1%nat.
Proof.
  intros H0 Hn Hin. revert x. induction fuel as [|fuel IH]; intros x Hx Hf;
    [destruct Hx; lia|]. cbn [sweep]. pose proof (Nat.pow_nonzero 2 (level x)) as Hpow.
  rewrite pow_level. destruct (Z.eqb_spec (Z.of_nat (len (level x) * 2 ^ level x)) (Z.of_nat (2 ^ level x))) as [E|E].
  { exists x. split; [done|]. split; [done|]. apply Nat2Z.inj in E. nia. }
  destruct (sweep_double pb p ml x (level x) Hx eq_refl) as (Ec & Hb & Hc); [intros E'; apply E; rewrite E'; lia|].
  set (c := (len (S (level x)) * 2 ^ S (level x))%nat) in *.
  destruct (len_bounds leaves (level x)) as [H1 H2]. rewrite Nat.pow_succ_r' in Hb.
  replace (u32 _) with (Z.of_nat c) by (rewrite u32_small; unfold in_word; lia).
  destruct (fun Hf' Hc' => combine_up_spec _ (31 - level x) pb p n c inner ml _ _ (@proj1 _ _) Hf' Hc' Hin Hc)
    as (y & q' & Hy & Hcy & Hly & Ho & _); [cbn [level]; destruct Hx; lia|lia|].
  rewrite Hy. cbn [mbind option_bind level] in *.
  destruct (sweep_carried pb p ml y c q' Hcy) as [Hok Ec']; [lia|lia|lia|done| |].
  { assert (2 ^ S (level x) <= 2 ^ level y)%nat by (apply Nat.pow_le_mono_r; lia).
    rewrite Nat.pow_succ_r' in *. lia. }
  rewrite Ec'.
  apply (IH {| level := level y; h := h y; matchh := matchh y; mutated := mutated x; branch := branch y |});
    cbn [level]; [exact Hok|lia].
Qed.

(** *** The whole computation *)

Lemma duplicates_upto_all : duplicates_upto n <-> has_duplicates leaves.
Proof. reflexivity. Qed.

Lemma sweep_ok_end pb p ml x : (0 < n)%nat -> sweep_ok pb p ml x -> len (level x) = 1%nat ->
  h x = merkle_root leaves /\
  (pb = true -> (p < n)%nat -> branch x = merkle_branch leaves p).
Proof.
  intros H0 (Hl & Hb & _ & Hh & Hm) E. rewrite E in Hh.
  destruct (len_bounds leaves (level x)) as [H1 _]. rewrite E in H1.
  assert (Hlev : level x = height leaves).
  { unfold height. destruct (Nat.eq_dec (level x) 0%nat) as [E0|Hne].
    - rewrite E0 in *. simpl in H1. now replace n with 1%nat by lia.
    - symmetry. apply Nat.log2_up_unique; [lia|]. split; [|lia].
      destruct (level x) as [|l]; [done|]. rewrite Nat.pow_succ_r' in Hb. simpl Nat.pred. lia. }
  split; [unfold merkle_root; now rewrite <- Hlev|]. intros Hpb Hp. specialize (Hm Hpb Hp).
  unfold merkle_branch. rewrite <- Hlev. unfold sweep_match in Hm. destruct (matchh x); [apply Hm|].
  destruct Hm as (m & _ & Hlm & Hmo & _). exfalso. rewrite Nat.div_small in Hmo; [done|].
  eapply Nat.le_lt_trans; [exact H1|]. rewrite Nat.mul_1_l. apply Nat.pow_lt_mono_r; lia.
Qed.

Lemma MerkleComputation_spec pb p : (0 < n)%nat -> Z.of_nat n <= 2 ^ 31 ->
  exists mut br, MerkleComputation leaves (Z.of_nat p) pb = Some (merkle_root leaves, mut, br) /\
    (mut = true <-> has_duplicates leaves) /\
    (pb = true -> (p < n)%nat -> br = merkle_branch leaves p).
Proof.
  intros H0 Hn. unfold MerkleComputation. rewrite (proj2 (Nat.eqb_neq _ _)) by lia.
  destruct (add_leaves_spec pb p (S n) 0 calculator_init (calc_ok_init pb p)) as (c & -> & Hc); [lia..|].
  destruct Hc as (Ec & Hin & Hmut & Hp). cbn [mbind option_bind]. rewrite Ec.
  destruct (first_bit_spec 32 n 0 n) as (e & q & -> & He & Eq & Ho); [lia|lia|done|simpl; lia|].
  cbn [mbind option_bind].
  pose proof (sweep_ok_start pb p (matchlevel c) (path c) (inner c) e q (any_mutated c)
    Hin H0 ltac:(lia) Eq Ho Hp) as Hs.
  replace (Z.of_nat n) with (Z.of_nat (len e * 2 ^ e)).
  2:{ rewrite <- (len_unique e q) by (pose proof (Nat.pow_nonzero 2 e); lia). now rewrite <- Eq. }
  destruct (sweep_spec pb p (matchlevel c) 32 (inner c) _ H0 Hn Hin Hs ltac:(cbn [level]; lia))
    as (y & Hy & Hok & Hend).
  cbn [level] in Hy. rewrite Hy. cbn [mbind option_bind].
  destruct (sweep_ok_end pb p _ y H0 Hok Hend) as [Hroot Hbr]. rewrite Hroot.
  exists (any_mutated c), (branch y). split; [done|]. split; [exact Hmut|exact Hbr].
Qed.
End Climb.

(** ** More than 2^31 leaves *)

(** The counter wraps to zero, no bit is set any more, and the last loop of the sweep
    leaves the array [inner]. *)
Lemma combine_up_zero fuel pb inner ml x : combine_up fuel pb 0 inner ml x = None.
Proof.
  revert x. induction fuel as [|fuel IH]; intros x; [done|].
  rewrite combine_up_S. change 0 with (Z.of_nat 0). rewrite bit_clear_odd, Nat.Div0.div_0_l. apply IH.
Qed.

(** A multiple of 2^l that exceeds 2^32 exceeds it by 2^l. *)
Lemma multiple_below l q : (l <= 32)%nat -> Z.of_nat (q * 2 ^ l) < 2 ^ 32 + Z.of_nat (2 ^ l) ->
  Z.of_nat (q * 2 ^ l) <> 2 ^ 32 -> Z.of_nat (q * 2 ^ l) < 2 ^ 32.
Proof.
  intros Hl. rewrite Nat2Z.inj_mul, Nat2Z.inj_pow. change (Z.of_nat 2) with 2.
  assert (E : 2 ^ 32 = 2 ^ (32 - Z.of_nat l) * 2 ^ Z.of_nat l).
  { rewrite <- Z.pow_add_r by lia. now rewrite Z.sub_add. }
  rewrite E. pose proof (Z.pow_pos_nonneg 2 (Z.of_nat l)). nia.
Qed.

Section Overflow.
Context (leaves : list hash) (Hleaves : Forall is_hash leaves).
Context (Hn : 2 ^ 31 < Z.of_nat (length leaves) < 2 ^ 32).

Lemma sweep_overflow pb p ml fuel inner x : inner_ok leaves (length leaves) inner ->
  sweep_ok leaves pb p ml x ->
  sweep fuel pb (Z.of_nat (length (tree_level leaves (level x)) * 2 ^ level x)) inner ml x = None.
Proof.
  intros Hin. revert x. induction fuel as [|fuel IH]; intros x Hx; [done|]. cbn [sweep].
  destruct (len_bounds leaves (level x)) as [H1 H2]. rewrite pow_level.
  assert (Hp31 : Z.of_nat (2 ^ level x) <= 2 ^ 31).
  { rewrite Nat2Z.inj_pow. apply Z.pow_le_mono_r; destruct Hx; lia. }
  destruct (Z.eqb_spec (Z.of_nat (length (tree_level leaves (level x)) * 2 ^ level x))
    (Z.of_nat (2 ^ level x))) as [E|E]; [lia|].
  destruct (sweep_double leaves Hleaves pb p ml x (level x) Hx eq_refl) as (Ec & Hb & Hc);
    [intros E'; apply E; rewrite E'; lia|].
  set (c := (length (tree_level leaves (S (level x))) * 2 ^ S (level x))%nat) in *.
  rewrite <- Nat2Z.inj_add, <- Ec. destruct (Z.eq_dec (Z.of_nat c) (2 ^ 32)) as [->|Hne].
  { change (u32 (2 ^ 32)) with 0. now rewrite combine_up_zero. }
  assert (Hc32 : Z.of_nat c < 2 ^ 32).
  { apply (multiple_below (S (level x)) (length (tree_level leaves (S (level x)))));
      [destruct Hx; lia| |done]. fold c. rewrite Nat.pow_succ_r'. lia. }
  rewrite u32_small by (unfold in_word; lia).
  destruct (fun Hf' Hc' => combine_up_spec leaves Hleaves _ (31 - level x) pb p _ c inner ml _ _
      (@proj1 _ _) Hf' Hc' Hin Hc)
    as (y & q' & Hy & Hcy & Hly & Ho & _); [cbn [level]; destruct Hx; lia|lia|].
  rewrite Hy. cbn [mbind option_bind level] in *. rewrite Nat.pow_succ_r' in Hb.
  destruct (sweep_carried leaves pb p ml y c q' Hcy) as [Hok Ec']; [lia|lia|lia|done| |].
  { assert (2 ^ S (level x) <= 2 ^ level y)%nat by (apply Nat.pow_le_mono_r; lia).
    rewrite Nat.pow_succ_r' in *. lia. }
  rewrite Ec'.
  apply (IH {| level := level y; h := h y; matchh := matchh y; mutated := mutated x; branch := branch y |}).
  exact Hok.
Qed.

Lemma MerkleComputation_overflow pb p : MerkleComputation leaves (Z.of_nat p) pb = None.
Proof.
  unfold MerkleComputation. rewrite (proj2 (Nat.eqb_neq _ _)) by lia.
  destruct (add_leaves_spec leaves Hleaves pb p (S (length leaves)) 0 calculator_init
    (calc_ok_init leaves pb p)) as (c & -> & Ec & Hin & Hmut & Hp); [lia..|].
  cbn [mbind option_bind]. rewrite Ec.
  destruct (first_bit_spec 32 (length leaves) 0 (length leaves)) as (e & q & -> & He & Eq & Ho);
    [lia|lia|lia|simpl; lia|].
  cbn [mbind option_bind].
  pose proof (sweep_ok_start leaves pb p (matchlevel c) (path c) (inner c) e q (any_mutated c)
    Hin ltac:(lia) ltac:(lia) Eq Ho Hp) as Hs.
  replace (Z.of_nat (length leaves)) with (Z.of_nat (length (tree_level leaves e) * 2 ^ e)).
  2:{ rewrite <- (len_unique leaves e q) by (pose proof (Nat.pow_nonzero 2 e); lia). now rewrite <- Eq. }
  pose proof (sweep_overflow pb p (matchlevel c) 32 (inner c) _ Hin Hs) as E.
  cbn [level] in E. now rewrite E.
Qed.
End Overflow.

(** ** The branch leads to the root *)

Lemma nIndex_step p : (Z.of_nat p .& 1 =? 0) = Nat.even p /\ Z.of_nat p >> 1 = Z.of_nat (p / 2).
Proof.
  split.
  - pose proof (bit_clear_odd p 0) as E. unfold bit_clear in E. simpl Z.of_nat in E at 2.
    now rewrite Z.shiftl_0_r, Nat.div_1_r in E.
  - rewrite Z.shiftr_div_pow2 by lia. change (2 ^ 1) with (Z.of_nat 2). now rewrite <- Nat2Z.inj_div.
Qed.

Lemma branch_climb leaves p k l : Forall is_hash leaves ->
  (p < length leaves)%nat ->
  fold_left (fun '(hash, nIndex) it =>
     ((if nIndex .& 1 =? 0 then Hash2 hash it else Hash2 it hash), nIndex >> 1))
   (sibling leaves p <$> seq l k) (tree_node leaves l (p / 2 ^ l), Z.of_nat (p / 2 ^ l)) =
  (tree_node leaves (l + k) (p / 2 ^ (l + k)), Z.of_nat (p / 2 ^ (l + k))).
Proof.
  intros Hh Hp. revert l. induction k as [|k IH]; intros l; [now rewrite Nat.add_0_r|].
  cbn [seq fmap list_fmap fold_left]. replace (l + S k)%nat with (S l + k)%nat by lia.
  rewrite <- IH. f_equal. destruct (nIndex_step (p / 2 ^ l)) as [-> ->]. rewrite quotient_S.
  set (q := (p / 2 ^ l)%nat). f_equal.
  assert (Hq : (q < length (tree_level leaves l))%nat).
  { destruct (len_bounds leaves l) as [H _]. unfold q. apply Nat.Div0.div_lt_upper_bound. lia. }
  unfold sibling. fold q. rewrite <- Nat.negb_even. destruct (Nat.even q) eqn:Eq; cbn [negb].
  - apply Nat.even_spec in Eq as [j Ej].
    assert (Hj : (q / 2 = j)%nat) by (rewrite Ej, Nat.mul_comm; apply Nat.div_mul; lia).
    rewrite Hj, Hash2_spec by (apply is_hash_node; done). rewrite tree_node_S by lia. now rewrite Ej.
  - assert (Ho : Nat.odd q = true) by now rewrite <- Nat.negb_even, Eq.
    apply Nat.odd_spec in Ho as [j Ej].
    assert (Hj : (q / 2 = j)%nat) by (symmetry; apply (Nat.div_unique _ _ _ 1); lia).
    rewrite Hj, Hash2_spec by (apply is_hash_node; done). rewrite tree_node_S by lia.
    rewrite Nat.min_l by lia. now replace (q - 1)%nat with (2 * j)%nat by lia; rewrite Ej.
Qed.

Lemma branch_root leaves p : Forall is_hash leaves -> (p < length leaves)%nat ->
  ComputeMerkleRootFromBranch (nth p leaves null_hash) (merkle_branch leaves p) (Z.of_nat p) =
  merkle_root leaves.
Proof.
  intros Hh Hp. unfold ComputeMerkleRootFromBranch, merkle_branch.
  pose proof (branch_climb leaves p (height leaves) 0 Hh Hp) as E.
  change (2 ^ 0)%nat with 1%nat in E. rewrite Nat.div_1_r, Nat.add_0_l in E.
  change (tree_node leaves 0 p) with (nth p leaves null_hash) in E. rewrite E. cbn [fst].
  unfold merkle_root. f_equal. apply Nat.div_small.
  destruct (len_bounds leaves (height leaves)) as [H _]. rewrite len_height in H; lia.
Qed.

(** ** Duplicates and collisions *)

(** The strings that are hashed to get the next level, and the first [d] levels. *)
Fixpoint pair_inputs (l : list hash) : list (list Z) :=
  match l with
  | [] => []
  | [x] => [x ++ x]
  | x :: y :: l => (x ++ y) :: pair_inputs l
  end.
Definition tree_inputs (d : nat) (leaves : list hash) : list (list Z) :=
  mjoin ((fun i => pair_inputs (tree_level leaves i)) <$> seq 0 d).

(** No two of the given strings have the same hash. *)
Definition collision_free (ms : list (list Z)) : Prop :=
  Forall (fun m => Forall (fun m' => sha256d m = sha256d m' -> m = m') ms) ms.

(** A test that hashes every string once. *)
Definition collision_check (ms : list (list Z)) : bool :=
  let ps := (fun m => (m, sha256d m)) <$> ms in
  forallb (fun p => forallb (fun p' => bool_decide (p.2 = p'.2 -> p.1 = p'.1)) ps) ps.

Lemma collision_check_spec ms : collision_check ms = true -> collision_free ms.
Proof.
  unfold collision_check, collision_free. intros H. rewrite forallb_forall in H.
  apply List.Forall_forall. intros m Hm. apply List.Forall_forall. intros m' Hm'.
  specialize (H (m, sha256d m) (in_map _ _ _ Hm)). rewrite forallb_forall in H.
  specialize (H (m', sha256d m') (in_map _ _ _ Hm')). now apply bool_decide_eq_true in H.
Qed.

Lemma app_hash_inj (x y x' y' : hash) : is_hash x -> is_hash x' -> x ++ y = x' ++ y' -> x = x' /\ y = y'.
Proof. intros [_ H] [_ H'] E. apply app_inj_1 in E; [done|lia]. Qed.

Lemma tree_level_shift l i : tree_level (pair_up l) i = tree_level l (S i).
Proof. unfold tree_level. now rewrite Nat.iter_succ_r. Qed.

Lemma tree_inputs_S d l : tree_inputs (S d) l = pair_inputs l ++ tree_inputs d (pair_up l).
Proof.
  unfold tree_inputs. rewrite fmap_seq_S. change (mjoin (?x :: ?k)) with (x ++ mjoin k). f_equal.
  f_equal. apply fmap_seq_ext. intros i _. now rewrite tree_level_shift.
Qed.

Lemma hashes_pair_up l : Forall is_hash (pair_up l).
Proof.
  induction l as [|x|x y l IH] using pair_ind; cbn [pair_up]; repeat constructor; auto;
    apply bytes_sha256 || apply length_sha256d.
Qed.

Lemma pair_input_in l j : (2 * j + 1 < length l)%nat ->
  nth (2 * j) l null_hash ++ nth (2 * j + 1) l null_hash ∈ pair_inputs l.
Proof.
  revert j. induction l as [|x|x y l IH] using pair_ind; intros j Hj; simpl in Hj; [lia|lia|].
  cbn [pair_inputs]. destruct j as [|j]; [left|right].
  replace (2 * S j)%nat with (S (S (2 * j))) by lia. apply IH. lia.
Qed.

Lemma last_input_in l j : (2 * j + 1 = length l)%nat ->
  nth (2 * j) l null_hash ++ nth (2 * j) l null_hash ∈ pair_inputs l.
Proof.
  revert j. induction l as [|x|x y l IH] using pair_ind; intros j Hj; simpl in Hj; [lia| |].
  - replace j with 0%nat by lia. left.
  - cbn [pair_inputs]. destruct j as [|j]; [lia|right].
    replace (2 * S j)%nat with (S (S (2 * j))) by lia. apply IH. lia.
Qed.

Lemma subset_app_l {A} (a b c : list A) : a ++ b ⊆ c -> a ⊆ c.
Proof. intros H x Hx. apply H, elem_of_app. now left. Qed.
Lemma subset_app_r {A} (a b c : list A) : a ++ b ⊆ c -> b ⊆ c.
Proof. intros H x Hx. apply H, elem_of_app. now right. Qed.
Lemma subset_head {A} x (a c : list A) : x :: a ⊆ c -> x ∈ c.
Proof. intros H. apply H. left. Qed.
Lemma subset_tail {A} x (a c : list A) : x :: a ⊆ c -> a ⊆ c.
Proof. intros H y Hy. apply H. now right. Qed.

Section Collisions.
Context (ms : list (list Z)) (Hcf : collision_free ms).

Lemma no_collision m m' : m ∈ ms -> m' ∈ ms -> sha256d m = sha256d m' -> m = m'.
Proof.
  intros H H'. unfold collision_free in Hcf. rewrite list.Forall_forall in Hcf.
  specialize (Hcf m H). rewrite list.Forall_forall in Hcf. now apply Hcf.
Qed.

(** A pair of equal leaves at an even and the next position. *)
Definition equal_pair (l : list hash) : Prop :=
  exists j, (2 * j + 2 <= length l)%nat /\ nth (2 * j) l null_hash = nth (2 * j + 1) l null_hash.

Lemma equal_pair_cons x y l : equal_pair l -> equal_pair (x :: y :: l).
Proof.
  intros (j & Hj & E). exists (S j). replace (2 * S j)%nat with (S (S (2 * j))) by lia.
  split; [simpl; lia|exact E].
Qed.

Lemma pair_up_equal l1 l2 : Forall is_hash l1 -> Forall is_hash l2 ->
  pair_inputs l1 ⊆ ms -> pair_inputs l2 ⊆ ms -> pair_up l1 = pair_up l2 ->
  l1 = l2 \/ equal_pair l1 \/ equal_pair l2.
Proof.
  revert l2. induction l1 as [|x|x y l1 IH] using pair_ind; intros [|x' [|y' l2]] H1 H2 S1 S2 E;
    cbn [pair_up pair_inputs] in *; try discriminate; [now left|..];
    rewrite ?Forall_cons_iff in *; destruct_and?;
    pose proof (f_equal (drop 1) E) as Er; pose proof (f_equal (fun l => nth 0 l null_hash) E) as E0;
    cbn [nth drop] in E0, Er; apply no_collision in E0; eauto using subset_head;
    apply app_hash_inj in E0 as [Ex Ey]; auto.
  - left. now subst.
  - destruct l2 as [|? [|? ?]]; try discriminate. right; right. exists 0%nat.
    split; [simpl; lia|]. simpl. congruence.
  - destruct l1 as [|? [|? ?]]; try discriminate. right; left. exists 0%nat.
    split; [simpl; lia|]. simpl. congruence.
  - subst. destruct (IH l2) as [->|[D|D]]; eauto using equal_pair_cons, subset_tail.
Qed.

(** Equal subtrees have equal leaves. *)
Lemma subtree_equal d l i a b : Forall is_hash l -> tree_inputs d l ⊆ ms -> (i <= d)%nat ->
  ((a + 1) * 2 ^ i <= length l)%nat -> ((b + 1) * 2 ^ i <= length l)%nat ->
  tree_node l i a = tree_node l i b ->
  forall k, (k < 2 ^ i)%nat -> nth (a * 2 ^ i + k) l null_hash = nth (b * 2 ^ i + k) l null_hash.
Proof.
  revert d l. induction i as [|i IH]; intros d l Hl Hs Hd Ha Hb E k Hk.
  - change (2 ^ 0)%nat with 1%nat in *. replace k with 0%nat by lia. rewrite !Nat.mul_1_r, !Nat.add_0_r. exact E.
  - destruct d as [|d]; [lia|]. rewrite tree_inputs_S in Hs. rewrite Nat.pow_succ_r' in *.
    assert (En : nth (a * 2 ^ i + k / 2) (pair_up l) null_hash = nth (b * 2 ^ i + k / 2) (pair_up l) null_hash).
    { apply (IH d); [apply hashes_pair_up|exact (subset_app_r _ _ _ Hs)|lia| | | |apply Nat.Div0.div_lt_upper_bound; lia].
      1,2: rewrite length_pair_up; apply Nat.div_le_lower_bound; lia.
      unfold tree_node. now rewrite tree_level_shift. }
    pose proof (Nat.div_mod_eq k 2) as Ek. pose proof (Nat.mod_upper_bound k 2 ltac:(lia)) as Hk2.
    set (u := (a * 2 ^ i + k / 2)%nat) in *. set (v := (b * 2 ^ i + k / 2)%nat) in *.
    assert (Hu : (2 * u + 1 < length l)%nat) by (unfold u; nia).
    assert (Hv : (2 * v + 1 < length l)%nat) by (unfold v; nia).
    rewrite !nth_pair_up, !Nat.min_l in En by lia.
    apply no_collision in En; [|apply (subset_app_l _ _ _ Hs); apply pair_input_in; lia..].
    apply app_hash_inj in En as [E0 E1]; [|now apply is_hash_nth..].
    destruct (k mod 2)%nat as [|[|?]]; [| |lia].
    + replace (a * (2 * 2 ^ i) + k)%nat with (2 * u)%nat by (unfold u; lia).
      now replace (b * (2 * 2 ^ i) + k)%nat with (2 * v)%nat by (unfold v; lia).
    + replace (a * (2 * 2 ^ i) + k)%nat with (2 * u + 1)%nat by (unfold u; lia).
      now replace (b * (2 * 2 ^ i) + k)%nat with (2 * v + 1)%nat by (unfold v; lia).
Qed.

Lemma equal_pair_duplicates l : equal_pair l -> has_duplicates l.
Proof. intros (j & Hj & E). exists 0%nat, j. split; [simpl; lia|exact E]. Qed.

(** Duplicates of the next level come from duplicates of this one. *)
Lemma duplicates_pair_up d l : Forall is_hash l -> tree_inputs (S d) l ⊆ ms ->
  (length (pair_up l) <= 2 ^ d)%nat -> has_duplicates (pair_up l) -> has_duplicates l.
Proof.
  intros Hl Hs Hd (i & j & Hj & E). set (L := pair_up l) in *.
  pose proof (length_pair_up l : length L = _) as HL.
  destruct (Nat.le_gt_cases ((2 * j + 2) * 2 ^ S i) (length l)) as [H|H].
  { exists (S i), j. split; [done|]. unfold tree_node in *. now rewrite <- !tree_level_shift. }
  apply equal_pair_duplicates. rewrite Nat.pow_succ_r' in H. pose proof (Nat.pow_nonzero 2 i) as Hp.
  pose proof (Nat.div_mod_eq (length l + 1) 2). pose proof (Nat.mod_upper_bound (length l + 1) 2).
  assert (HiL : (length L = (2 * j + 2) * 2 ^ i)%nat) by lia.
  assert (Hid : (i <= d)%nat).
  { apply (Nat.pow_le_mono_r_iff 2); [lia|]. rewrite HiL in Hd. nia. }
  rewrite tree_inputs_S in Hs.
  assert (En := subtree_equal d L i (2 * j) (2 * j + 1) (hashes_pair_up l) (subset_app_r _ _ _ Hs) Hid
    ltac:(rewrite HiL; lia) ltac:(rewrite HiL; lia) E (2 ^ i - 1) ltac:(lia)).
  set (t := (2 * j * 2 ^ i + (2 ^ i - 1))%nat) in *.
  set (w := ((2 * j + 1) * 2 ^ i + (2 ^ i - 1))%nat) in *.
  assert (Hw : (2 * w + 1 = length l)%nat) by (unfold w; lia).
  assert (Ht : (2 * t + 1 < length l)%nat) by (unfold t, w in *; nia).
  unfold L in En. rewrite (nth_pair_up l t), (nth_pair_up l w), Nat.min_l, (Nat.min_r _ _) in En by lia.
  replace (length l - 1)%nat with (2 * w)%nat in En by lia.
  apply no_collision in En; [|apply (subset_app_l _ _ _ Hs); now apply pair_input_in|apply (subset_app_l _ _ _ Hs); now apply last_input_in].
  apply app_hash_inj in En as [E0 E1]; [|now apply is_hash_nth..].
  exists t. split; [lia|congruence].
Qed.

Lemma same_root d l1 l2 : Forall is_hash l1 -> Forall is_hash l2 ->
  tree_inputs d l1 ⊆ ms -> tree_inputs d l2 ⊆ ms ->
  (length l1 <= 2 ^ d)%nat -> (length l2 <= 2 ^ d)%nat -> tree_level l1 d = tree_level l2 d ->
  l1 = l2 \/ has_duplicates l1 \/ has_duplicates l2.
Proof.
  revert l1 l2. induction d as [|d IH]; intros l1 l2 H1 H2 S1 S2 L1 L2 E; [now left|].
  rewrite <- !tree_level_shift in E. pose proof S1 as S1'. pose proof S2 as S2'.
  rewrite tree_inputs_S in S1', S2'. rewrite Nat.pow_succ_r' in L1, L2.
  assert (P1 : (length (pair_up l1) <= 2 ^ d)%nat)
    by (rewrite length_pair_up; apply Nat.lt_succ_r, Nat.Div0.div_lt_upper_bound; lia).
  assert (P2 : (length (pair_up l2) <= 2 ^ d)%nat)
    by (rewrite length_pair_up; apply Nat.lt_succ_r, Nat.Div0.div_lt_upper_bound; lia).
  destruct (IH (pair_up l1) (pair_up l2)) as [E'|[D|D]]; eauto using hashes_pair_up, subset_app_r.
  - destruct (pair_up_equal l1 l2) as [->|[D|D]]; eauto using equal_pair_duplicates, subset_app_l.
  - right; left. now apply (duplicates_pair_up d).
  - right; right. now apply (duplicates_pair_up d).
Qed.
End Collisions.

(** ** Properties *)

(** What [ComputeMerkleRoot] returns for up to 2^31 leaves. *)
Lemma ComputeMerkleRoot_spec leaves : Forall is_hash leaves ->
  Z.of_nat (length leaves) <= 2 ^ 31 ->
  exists mut, ComputeMerkleRoot leaves = Some (merkle_root leaves, mut) /\
    (mut = true <-> has_duplicates leaves).
Proof.
  intros Hh Hn. unfold ComputeMerkleRoot. destruct leaves as [|x l].
  - exists false. split; [done|]. split; [done|]. intros (i & j & H & _).
    pose proof (Nat.pow_nonzero 2 i). simpl length in H. nia.
  - destruct (Z_of_nat_complete (u32 (-1)) ltac:(by_eval)) as [p ->].
    destruct (MerkleComputation_spec (x :: l) Hh false p) as (mut & br & E & Hm & _);
      [simpl; lia|done|]. rewrite E. now exists mut.
Qed.

(** C16. For up to 2^31 leaves the constant-space computation ends and returns the root of
    the tree that is built level by level, and its flag is set exactly when two equal
    neighbours with complete subtrees are hashed together.  With more leaves (though the
    comment in the code says that the limit is 2^32) the counter wraps and the last loop
    runs off the array of inner hashes. *)
Theorem ComputeMerkleRoot_correct leaves : Forall is_hash leaves ->
  (Z.of_nat (length leaves) <= 2 ^ 31 ->
   exists mut, ComputeMerkleRoot leaves = Some (merkle_root leaves, mut) /\
     (mut = true <-> has_duplicates leaves)) /\
  (2 ^ 31 < Z.of_nat (length leaves) < 2 ^ 32 -> ComputeMerkleRoot leaves = None).
Proof.
  intros Hh. split; [now apply ComputeMerkleRoot_spec|]. intros Hn. unfold ComputeMerkleRoot.
  destruct (Z_of_nat_complete (u32 (-1)) ltac:(by_eval)) as [p ->].
  now rewrite MerkleComputation_overflow.
Qed.

(** The branch computed for the position of a leaf has one hash per level, and hashing
    the leaf with it, in the order given by the bits of the position, leads to the root. *)
Theorem merkle_branch_roundtrip leaves p : Forall is_hash leaves ->
  Z.of_nat (length leaves) <= 2 ^ 31 -> (p < length leaves)%nat ->
  exists br, ComputeMerkleBranch leaves (Z.of_nat p) = Some br /\
    length br = height leaves /\
    ComputeMerkleRootFromBranch (nth p leaves null_hash) br (Z.of_nat p) = merkle_root leaves.
Proof.
  intros Hh Hn Hp. unfold ComputeMerkleBranch.
  destruct (MerkleComputation_spec leaves Hh true p ltac:(lia) Hn) as (mut & br & E & _ & Hb).
  rewrite E, (Hb eq_refl Hp). exists (merkle_branch leaves p). split; [done|].
  split; [apply length_fmap_seq|now apply branch_root].
Qed.

(** C34. The defence against duplicated transactions (CVE-2012-2459): if two different lists
    of leaves, whose trees are equally high, have the same root, then the flag is set for
    one of them, unless two of the strings hashed in the two trees collide. *)
Theorem same_root_is_flagged l1 l2 r mut1 mut2 :
  Forall is_hash l1 -> Forall is_hash l2 -> l1 <> [] -> l2 <> [] ->
  Z.of_nat (length l1) <= 2 ^ 31 -> Z.of_nat (length l2) <= 2 ^ 31 ->
  height l1 = height l2 ->
  collision_free (tree_inputs (height l1) l1 ++ tree_inputs (height l2) l2) ->
  ComputeMerkleRoot l1 = Some (r, mut1) -> ComputeMerkleRoot l2 = Some (r, mut2) ->
  l1 <> l2 -> mut1 = true \/ mut2 = true.
Proof.
  intros H1 H2 N1 N2 B1 B2 Hd Hcf E1 E2 Hne.
  destruct (ComputeMerkleRoot_spec l1 H1 B1) as (m1 & E1' & Hm1).
  destruct (ComputeMerkleRoot_spec l2 H2 B2) as (m2 & E2' & Hm2).
  rewrite E1 in E1'. rewrite E2 in E2'. injection E1' as -> ->. injection E2' as Hr ->.
  rewrite Hm1, Hm2.
  assert (P1 : (0 < length l1)%nat) by (destruct l1; simpl; lia || done).
  assert (P2 : (0 < length l2)%nat) by (destruct l2; simpl; lia || done).
  pose proof (len_height l1 P1) as L1. pose proof (len_height l2 P2) as L2.
  pose proof (len_bounds l1 (height l1)) as [Q1 _]. pose proof (len_bounds l2 (height l2)) as [Q2 _].
  rewrite L1 in Q1. rewrite L2 in Q2.
  destruct (same_root _ Hcf (height l1) l1 l2) as [E|D]; auto.
  - intros m Hm. apply elem_of_app. now left.
  - rewrite Hd at 1. intros m Hm. apply elem_of_app. now right.
  - lia.
  - rewrite Hd. lia.
  - unfold merkle_root, tree_node in Hr. rewrite <- Hd in Hr, L2.
    destruct (tree_level l1 (height l1)) as [|a [|? ?]]; try discriminate.
    destruct (tree_level l2 (height l1)) as [|b [|? ?]]; try discriminate.
    simpl in Hr. now rewrite Hr.
  - contradiction.
Qed.

(** Six transactions, and the same with the last two repeated. *)
Definition demo_leaf (k : Z) : hash := k :: replicate 31 0.
Definition demo_six : list hash := demo_leaf <$> [1; 2; 3; 4; 5; 6].
Definition demo_eight : list hash := demo_leaf <$> [1; 2; 3; 4; 5; 6; 5; 6].
Definition demo_root : hash := merkle_root demo_six.

Lemma demo_hashes ks : Forall (fun k => is_byte k) ks -> Forall is_hash (demo_leaf <$> ks).
Proof.
  intros H. induction H as [|k ks Hk _ IH]; constructor; [|exact IH]. split; [|done].
  constructor; [done|by_eval].
Qed.

Lemma ComputeMerkleRoot_correct_witness :
  exists mut, ComputeMerkleRoot demo_six = Some (merkle_root demo_six, mut) /\
    (mut = true <-> has_duplicates demo_six).
Proof.
  apply (ComputeMerkleRoot_correct demo_six); [apply demo_hashes; by_eval|vm_compute; discriminate].
Defined.

Lemma merkle_branch_roundtrip_witness :
  exists br, ComputeMerkleBranch demo_six (Z.of_nat 4) = Some br /\ length br = height demo_six /\
    ComputeMerkleRootFromBranch (nth 4 demo_six null_hash) br (Z.of_nat 4) = merkle_root demo_six.
Proof.
  apply (merkle_branch_roundtrip demo_six 4);
    [apply demo_hashes; by_eval|vm_compute; discriminate|apply Nat.ltb_lt; reflexivity].
Defined.

Lemma same_root_is_flagged_witness :
  (ComputeMerkleRoot demo_six = Some (demo_root, false) /\
   ComputeMerkleRoot demo_eight = Some (demo_root, true)) /\ (false = true \/ true = true).
Proof.
  assert (E6 : ComputeMerkleRoot demo_six = Some (demo_root, false)) by (vm_compute; reflexivity).
  assert (E8 : ComputeMerkleRoot demo_eight = Some (demo_root, true)) by (vm_compute; reflexivity).
  split; [now split|].
  apply (same_root_is_flagged demo_six demo_eight demo_root false true);
    [apply demo_hashes; by_eval|apply demo_hashes; by_eval|discriminate|discriminate
    |vm_compute; discriminate|vm_compute; discriminate|reflexivity| |exact E6|exact E8|discriminate].
  apply collision_check_spec. vm_compute. reflexivity.
Defined.
