(* ===== verification/Salsa20.v ===== *)
(** * Salsa20: src/crypto/encryption/salsa20/

    The stream cipher that fills the scratch memory of the proof-of-work hash
    (salsa20.c, with the macros of ecrypt-portable.h and the context of
    ecrypt-sync.h).  The build for x86-64 selects the endian-neutral macros
    (ECRYPT_UNKNOWN), which are the ones modelled. *)

From S2P Require Import Prelude Words.

(** ** The source *)

(** ecrypt-portable.h *)
Definition U8V (v : Z) : Z := u8 v.
Definition U32V (v : Z) : Z := u32 v.
Definition ROTL32 (v n : Z) : Z := U32V (v << n) .| (v >> (32 - n)).
Definition U8TO32_LITTLE (p : list Z) (off : nat) : Z :=
  p.[off] .| (p.[off + 1] << 8) .| (p.[off + 2] << 16) .| (p.[off + 3] << 24).
Definition U32TO8_LITTLE (v : Z) : list Z :=
  [U8V v; U8V (v >> 8); U8V (v >> 16); U8V (v >> 24)].

(** salsa20.c *)
Definition ROTATE (v c : Z) : Z := ROTL32 v c.
Definition XOR (v w : Z) : Z := v ^^ w.
Definition PLUS (v w : Z) : Z := U32V (v + w).
Definition PLUSONE (v : Z) : Z := PLUS v 1.

(** [ECRYPT_ctx]: the sixteen 32-bit words of the cipher's input block. *)
Record ECRYPT_ctx := mk_ctx { input : list Z }.

(** "expand 32-byte k" and "expand 16-byte k" *)
Definition sigma : list Z :=
  [101; 120; 112; 97; 110; 100; 32; 51; 50; 45; 98; 121; 116; 101; 32; 107].
Definition tau : list Z :=
  [101; 120; 112; 97; 110; 100; 32; 49; 54; 45; 98; 121; 116; 101; 32; 107].

Definition ECRYPT_keysetup (x : ECRYPT_ctx) (k : list Z) (kbits : Z) : ECRYPT_ctx :=
  let i := input x in
  let i := <[1%nat := U8TO32_LITTLE k 0]> i in
  let i := <[2%nat := U8TO32_LITTLE k 4]> i in
  let i := <[3%nat := U8TO32_LITTLE k 8]> i in
  let i := <[4%nat := U8TO32_LITTLE k 12]> i in
  let '(k, constants) := if kbits =? 256 then (drop 16 k, sigma) else (k, tau) in
  let i := <[11%nat := U8TO32_LITTLE k 0]> i in
  let i := <[12%nat := U8TO32_LITTLE k 4]> i in
  let i := <[13%nat := U8TO32_LITTLE k 8]> i in
  let i := <[14%nat := U8TO32_LITTLE k 12]> i in
  let i := <[0%nat := U8TO32_LITTLE constants 0]> i in
  let i := <[5%nat := U8TO32_LITTLE constants 4]> i in
  let i := <[10%nat := U8TO32_LITTLE constants 8]> i in
  let i := <[15%nat := U8TO32_LITTLE constants 12]> i in
  mk_ctx i.

Definition ECRYPT_ivsetup (x : ECRYPT_ctx) (iv : list Z) : ECRYPT_ctx :=
  let i := input x in
  let i := <[6%nat := U8TO32_LITTLE iv 0]> i in
  let i := <[7%nat := U8TO32_LITTLE iv 4]> i in
  let i := <[8%nat := 0]> i in
  let i := <[9%nat := 0]> i in
  mk_ctx i.

(** The body of the loop [for (i = 20; i > 0; i -= 2)]: a column round and a row
    round, unrolled over the sixteen local variables. *)
Definition double_round (x : list Z) : list Z :=
  match x with
  | [x0; x1; x2; x3; x4; x5; x6; x7; x8; x9; x10; x11; x12; x13; x14; x15] =>
      let x4 := XOR x4 (ROTATE (PLUS x0 x12) 7) in
      let x8 := XOR x8 (ROTATE (PLUS x4 x0) 9) in
      let x12 := XOR x12 (ROTATE (PLUS x8 x4) 13) in
      let x0 := XOR x0 (ROTATE (PLUS x12 x8) 18) in
      let x9 := XOR x9 (ROTATE (PLUS x5 x1) 7) in
      let x13 := XOR x13 (ROTATE (PLUS x9 x5) 9) in
      let x1 := XOR x1 (ROTATE (PLUS x13 x9) 13) in
      let x5 := XOR x5 (ROTATE (PLUS x1 x13) 18) in
      let x14 := XOR x14 (ROTATE (PLUS x10 x6) 7) in
      let x2 := XOR x2 (ROTATE (PLUS x14 x10) 9) in
      let x6 := XOR x6 (ROTATE (PLUS x2 x14) 13) in
      let x10 := XOR x10 (ROTATE (PLUS x6 x2) 18) in
      let x3 := XOR x3 (ROTATE (PLUS x15 x11) 7) in
      let x7 := XOR x7 (ROTATE (PLUS x3 x15) 9) in
      let x11 := XOR x11 (ROTATE (PLUS x7 x3) 13) in
      let x15 := XOR x15 (ROTATE (PLUS x11 x7) 18) in
      let x1 := XOR x1 (ROTATE (PLUS x0 x3) 7) in
      let x2 := XOR x2 (ROTATE (PLUS x1 x0) 9) in
      let x3 := XOR x3 (ROTATE (PLUS x2 x1) 13) in
      let x0 := XOR x0 (ROTATE (PLUS x3 x2) 18) in
      let x6 := XOR x6 (ROTATE (PLUS x5 x4) 7) in
      let x7 := XOR x7 (ROTATE (PLUS x6 x5) 9) in
      let x4 := XOR x4 (ROTATE (PLUS x7 x6) 13) in
      let x5 := XOR x5 (ROTATE (PLUS x4 x7) 18) in
      let x11 := XOR x11 (ROTATE (PLUS x10 x9) 7) in
      let x8 := XOR x8 (ROTATE (PLUS x11 x10) 9) in
      let x9 := XOR x9 (ROTATE (PLUS x8 x11) 13) in
      let x10 := XOR x10 (ROTATE (PLUS x9 x8) 18) in
      let x12 := XOR x12 (ROTATE (PLUS x15 x14) 7) in
      let x13 := XOR x13 (ROTATE (PLUS x12 x15) 9) in
      let x14 := XOR x14 (ROTATE (PLUS x13 x12) 13) in
      let x15 := XOR x15 (ROTATE (PLUS x14 x13) 18) in
      [x0; x1; x2; x3; x4; x5; x6; x7; x8; x9; x10; x11; x12; x13; x14; x15]
  | _ => x
  end.

(** One pass of the outer loop on a 64-byte block at [m]: the rounds, the feed
    forward, the exclusive or with the input, and the store to [c]. *)
Definition encrypt_block (j m : list Z) : list Z :=
  let x := for_up 10 (fun _ => double_round) j in
  let x := zip_with PLUS x j in
  let x := imap (fun i xi => XOR xi (U8TO32_LITTLE m (4 * i))) x in
  mjoin (U32TO8_LITTLE <$> x).

(** [j8 = PLUSONE(j8); if (!j8) j9 = PLUSONE(j9);] *)
Definition next_counter (j : list Z) : list Z :=
  let j := <[8%nat := PLUSONE j.[8]]> j in
  if j.[8] =? 0 then <[9%nat := PLUSONE j.[9]]> j else j.

(** The loop [for (;;)].  [tmp] is the uninitialised local buffer of the source; the
    second component of the result is what was stored at [c]. *)
Fixpoint encrypt_loop (fuel : nat) (j m : list Z) (nbytes : Z) (tmp : list Z)
    : option (list Z * list Z) :=
  match fuel with
  | O => None
  | S fuel =>
      let m' := if nbytes <? 64 then mem_write tmp 0 (take (Z.to_nat nbytes) m) else m in
      let c := encrypt_block j m' in
      let j := next_counter j in
      if nbytes <=? 64 then
        Some (j, if nbytes <? 64 then take (Z.to_nat nbytes) c else c)
      else
        match encrypt_loop fuel j (drop 64 m) (nbytes - 64) tmp with
        | Some (j, rest) => Some (j, c ++ rest)
        | None => None
        end
  end.

Definition ECRYPT_encrypt_bytes (x : ECRYPT_ctx) (m : list Z) (nbytes : Z) (tmp : list Z)
    : option (ECRYPT_ctx * list Z) :=
  if nbytes =? 0 then Some (x, [])
  else
    match encrypt_loop (S (Z.to_nat (nbytes / 64))) (input x) m nbytes tmp with
    | Some (j, c) =>
        Some (mk_ctx (<[9%nat := j.[9]]> (<[8%nat := j.[8]]> (input x))), c)
    | None => None
    end.

Definition ECRYPT_decrypt_bytes := ECRYPT_encrypt_bytes.

Definition ECRYPT_keystream_bytes (x : ECRYPT_ctx) (nbytes : Z) (tmp : list Z)
    : option (ECRYPT_ctx * list Z) :=
  ECRYPT_encrypt_bytes x (replicate (Z.to_nat nbytes) 0) nbytes tmp.

(** ecrypt-sync.h: the default block macros. *)
Definition ECRYPT_BLOCKLENGTH : Z := 64.
Definition ECRYPT_encrypt_blocks (x : ECRYPT_ctx) (m : list Z) (blocks : Z) (tmp : list Z) :=
  ECRYPT_encrypt_bytes x m (blocks * ECRYPT_BLOCKLENGTH) tmp.

(** ** The specification of Salsa20 *)

(** Addition modulo [2 ^ 32] ([wrap_mod]). *)
Definition add32 (a b : Z) : Z := wrap 32 (a + b).

Definition quarterround (y0 y1 y2 y3 : Z) : Z * Z * Z * Z :=
  let z1 := y1 ^^ rotl 32 (add32 y0 y3) 7 in
  let z2 := y2 ^^ rotl 32 (add32 z1 y0) 9 in
  let z3 := y3 ^^ rotl 32 (add32 z2 z1) 13 in
  let z0 := y0 ^^ rotl 32 (add32 z3 z2) 18 in
  (z0, z1, z2, z3).

Definition inv_quarterround (z0 z1 z2 z3 : Z) : Z * Z * Z * Z :=
  let y0 := z0 ^^ rotl 32 (add32 z3 z2) 18 in
  let y3 := z3 ^^ rotl 32 (add32 z2 z1) 13 in
  let y2 := z2 ^^ rotl 32 (add32 z1 y0) 9 in
  let y1 := z1 ^^ rotl 32 (add32 y0 y3) 7 in
  (y0, y1, y2, y3).

Section Rounds.
(** The two kinds of round, for any transformation of four words. *)
Variable qr : Z -> Z -> Z -> Z -> Z * Z * Z * Z.

Definition rowround (y : list Z) : list Z :=
  match y with
  | [y0; y1; y2; y3; y4; y5; y6; y7; y8; y9; y10; y11; y12; y13; y14; y15] =>
      let '(z0, z1, z2, z3) := qr y0 y1 y2 y3 in
      let '(z5, z6, z7, z4) := qr y5 y6 y7 y4 in
      let '(z10, z11, z8, z9) := qr y10 y11 y8 y9 in
      let '(z15, z12, z13, z14) := qr y15 y12 y13 y14 in
      [z0; z1; z2; z3; z4; z5; z6; z7; z8; z9; z10; z11; z12; z13; z14; z15]
  | _ => y
  end.

Definition columnround (x : list Z) : list Z :=
  match x with
  | [x0; x1; x2; x3; x4; x5; x6; x7; x8; x9; x10; x11; x12; x13; x14; x15] =>
      let '(y0, y4, y8, y12) := qr x0 x4 x8 x12 in
      let '(y5, y9, y13, y1) := qr x5 x9 x13 x1 in
      let '(y10, y14, y2, y6) := qr x10 x14 x2 x6 in
      let '(y15, y3, y7, y11) := qr x15 x3 x7 x11 in
      [y0; y1; y2; y3; y4; y5; y6; y7; y8; y9; y10; y11; y12; y13; y14; y15]
  | _ => x
  end.
End Rounds.

(** The Salsa20 expansion of an input block to 64 keystream bytes. *)
Definition salsa20_block (j : list Z) : list Z :=
  let x := Nat.iter 10 (fun x => rowround quarterround (columnround quarterround x)) j in
  mjoin (le_split 4 <$> zip_with add32 x j).

(** The block counter: words 8 and 9 of the input block. *)
Definition counter (j : list Z) : Z := j.[8] + 2 ^ 32 * j.[9].
Definition set_counter (c : Z) (j : list Z) : list Z :=
  <[9%nat := c / 2 ^ 32]> (<[8%nat := c mod 2 ^ 32]> j).
Definition seek (n : nat) (j : list Z) : list Z :=
  set_counter ((counter j + Z.of_nat n) mod 2 ^ 64) j.

Definition keystream (n : nat) (j : list Z) : list Z :=
  mjoin ((fun i => salsa20_block (seek i j)) <$> seq 0 n).

(** The number of blocks that [n] bytes take. *)
Definition blocks_of (n : Z) : nat := Z.to_nat ((n + 63) / 64).

Definition wf_input (j : list Z) : Prop := length j = 16%nat /\ words 32 j.
Definition wf_ctx (x : ECRYPT_ctx) : Prop := wf_input (input x).

(** ** Lemmas *)

Lemma PLUS_add32 a b : PLUS a b = add32 a b.
Proof. reflexivity. Qed.

Lemma ROTATE_rotl v c : ROTATE v c = rotl 32 v c.
Proof. reflexivity. Qed.

Lemma U32TO8_LITTLE_split v : U32TO8_LITTLE v = le_split 4 v.
Proof. cbn [le_split]. unfold U32TO8_LITTLE, U8V. now rewrite !Z.shiftr_shiftr. Qed.

Lemma mem_read_4 p off : (off + 4 <= length p)%nat ->
  mem_read p off 4 = [p.[off]; p.[off + 1]; p.[off + 2]; p.[off + 3]].
Proof.
  intros H. apply (nth_ext_eq _ _ 0); [now rewrite length_mem_read|].
  rewrite length_mem_read by done. intros i Hi. rewrite nth_mem_read by done.
  do 4 (destruct i as [|i]; [simpl; do 2 f_equal; lia|]). lia.
Qed.

Lemma U8TO32_LITTLE_combine p off : (off + 4 <= length p)%nat ->
  U8TO32_LITTLE p off = le_combine (mem_read p off 4).
Proof.
  intros H. rewrite mem_read_4 by done. cbn [le_combine]. unfold U8TO32_LITTLE.
  rewrite Z.shiftl_0_l, Z.lor_0_r, !Z.shiftl_lor.
  now rewrite !Z.shiftl_shiftl, !Z.lor_assoc by done.
Qed.

Lemma in_word_U8TO32 p off : bytes p -> in_word 32 (U8TO32_LITTLE p off).
Proof.
  intros H. assert (B : forall i, in_word 8 p.[i]) by (intros; now apply Forall_nth_Z).
  unfold U8TO32_LITTLE. repeat apply in_word_lor; try lia;
    [apply (in_word_le 8); [lia|apply B]|..];
    (apply (in_word_shiftl 8); [lia..|apply B]).
Qed.

Lemma in_word_PLUS a b : in_word 32 (PLUS a b).
Proof. apply in_word_u32. Qed.
#[export] Hint Resolve in_word_PLUS in_word_U8TO32 : words.

(** *** Rounds *)

(** The quarter round with the source's macros. *)
Definition quarterround_macros (y0 y1 y2 y3 : Z) : Z * Z * Z * Z :=
  let z1 := XOR y1 (ROTATE (PLUS y0 y3) 7) in
  let z2 := XOR y2 (ROTATE (PLUS z1 y0) 9) in
  let z3 := XOR y3 (ROTATE (PLUS z2 z1) 13) in
  let z0 := XOR y0 (ROTATE (PLUS z3 z2) 18) in
  (z0, z1, z2, z3).

Lemma quarterround_macros_eq y0 y1 y2 y3 :
  quarterround_macros y0 y1 y2 y3 = quarterround y0 y1 y2 y3.
Proof. unfold quarterround_macros, XOR. now rewrite !ROTATE_rotl, !PLUS_add32. Qed.

Lemma rowround_ext qr qr' y :
  (forall a b c d, qr a b c d = qr' a b c d) -> rowround qr y = rowround qr' y.
Proof.
  intros H. do 16 (destruct y as [|? y]; [done|]). destruct y; [|done].
  simpl. now rewrite !H.
Qed.

Lemma columnround_ext qr qr' x :
  (forall a b c d, qr a b c d = qr' a b c d) -> columnround qr x = columnround qr' x.
Proof.
  intros H. do 16 (destruct x as [|? x]; [done|]). destruct x; [|done].
  simpl. now rewrite !H.
Qed.

Lemma double_round_macros x :
  double_round x = rowround quarterround_macros (columnround quarterround_macros x).
Proof.
  do 16 (destruct x as [|? x]; [done|]). destruct x; [|done].
  unfold double_round, rowround, columnround, quarterround_macros.
  generalize XOR ROTATE PLUS. reflexivity.
Qed.

Lemma double_round_eq x :
  double_round x = rowround quarterround (columnround quarterround x).
Proof.
  rewrite double_round_macros, (columnround_ext _ _ x quarterround_macros_eq).
  apply rowround_ext, quarterround_macros_eq.
Qed.

#[local] Opaque rotl add32.

Lemma inv_quarterround_l z0 z1 z2 z3 :
  (let '(y0, y1, y2, y3) := inv_quarterround z0 z1 z2 z3 in quarterround y0 y1 y2 y3)
  = (z0, z1, z2, z3).
Proof. unfold inv_quarterround, quarterround. now rewrite !lxor_cancel_r. Qed.

Lemma inv_quarterround_r y0 y1 y2 y3 :
  (let '(z0, z1, z2, z3) := quarterround y0 y1 y2 y3 in inv_quarterround z0 z1 z2 z3)
  = (y0, y1, y2, y3).
Proof. unfold inv_quarterround, quarterround. now rewrite !lxor_cancel_r. Qed.

(** Exact shape of a round, for the inverse. *)
Lemma columnround_inv qr qi x :
  (forall a b c d, (let '(p, q, r, s) := qr a b c d in qi p q r s) = (a, b, c, d)) ->
  columnround qi (columnround qr x) = x.
Proof.
  intros H. do 16 (destruct x as [|? x]; [done|]). destruct x; [|done]. simpl.
  repeat match goal with
  | |- context [qr ?a ?b ?c ?d] =>
      pose proof (H a b c d); destruct (qr a b c d) as [[[? ?] ?] ?]
  end.
  simpl. repeat match goal with E : qi _ _ _ _ = _ |- _ => rewrite E; clear E end.
  reflexivity.
Qed.

Lemma rowround_inv qr qi x :
  (forall a b c d, (let '(p, q, r, s) := qr a b c d in qi p q r s) = (a, b, c, d)) ->
  rowround qi (rowround qr x) = x.
Proof.
  intros H. do 16 (destruct x as [|? x]; [done|]). destruct x; [|done]. simpl.
  repeat match goal with
  | |- context [qr ?a ?b ?c ?d] =>
      pose proof (H a b c d); destruct (qr a b c d) as [[[? ?] ?] ?]
  end.
  simpl. repeat match goal with E : qi _ _ _ _ = _ |- _ => rewrite E; clear E end.
  reflexivity.
Qed.

Lemma length_rowround qr y : length (rowround qr y) = length y.
Proof.
  do 16 (destruct y as [|? y]; [done|]). destruct y; [|done].
  simpl. now repeat case_match.
Qed.

Lemma length_columnround qr y : length (columnround qr y) = length y.
Proof.
  do 16 (destruct y as [|? y]; [done|]). destruct y; [|done].
  simpl. now repeat case_match.
Qed.

(** *** One block *)

Lemma rounds_eq j :
  for_up 10 (fun _ => double_round) j =
  Nat.iter 10 (fun x => rowround quarterround (columnround quarterround x)) j.
Proof.
  generalize 10%nat. intros n. induction n as [|n IH]; [done|].
  rewrite for_up_S, IH. apply double_round_eq.
Qed.

Lemma length_rounds j :
  length (Nat.iter 10 (fun x => rowround quarterround (columnround quarterround x)) j)
  = length j.
Proof.
  generalize 10%nat. intros n. induction n as [|n IH]; [done|].
  cbn [Nat.iter nat_rect]. now rewrite length_rowround, length_columnround.
Qed.

Lemma length_join_split4 ws : length (mjoin (le_split 4 <$> ws)) = (4 * length ws)%nat.
Proof.
  induction ws as [|w ws IH]; [done|].
  rewrite join_fmap_cons, length_app, IH, length_le_split. simpl; lia.
Qed.

Lemma bytes_join_split4 ws : bytes (mjoin (le_split 4 <$> ws)).
Proof.
  induction ws as [|w ws IH]; [constructor|].
  rewrite join_fmap_cons. apply Forall_app; auto with words.
Qed.

Lemma length_salsa20_block j : length j = 16%nat -> length (salsa20_block j) = 64%nat.
Proof.
  intros H. unfold salsa20_block.
  now rewrite length_join_split4, length_zip_with, length_rounds, H.
Qed.

(** Storing words that were xored with a byte block is xoring the stored bytes. *)
Lemma store_xor_load ws m off :
  bytes m -> (off + 4 * length ws <= length m)%nat ->
  mjoin (U32TO8_LITTLE <$> imap (fun i x => XOR x (U8TO32_LITTLE m (off + 4 * i))) ws)
  = xor_list (mjoin (le_split 4 <$> ws)) (mem_read m off (4 * length ws)).
Proof.
  intros Hm. revert off. induction ws as [|w ws IH]; intros off H; [done|].
  cbn [length] in H |- *. rewrite imap_cons, !join_fmap_cons.
  replace (mem_read m off (4 * S (length ws))) with
    (mem_read m off 4 ++ mem_read m (off + 4) (4 * length ws)).
  2:{ unfold mem_read. rewrite <- (drop_drop m 4 off), take_take_drop.
      f_equal. lia. }
  rewrite xor_list_app by now rewrite length_le_split, length_mem_read by lia.
  f_equal.
  - rewrite U32TO8_LITTLE_split. unfold XOR. rewrite le_split_lxor. f_equal.
    rewrite Nat.mul_0_r, Nat.add_0_r, U8TO32_LITTLE_combine by lia.
    rewrite <- (length_mem_read m off 4) at 1 by lia.
    now apply le_split_combine, Forall_mem_read.
  - rewrite <- IH by lia. do 2 f_equal. apply imap_ext. intros i x _. simpl.
    f_equal. f_equal. lia.
Qed.

Lemma encrypt_block_eq j m :
  length j = 16%nat -> bytes m -> (64 <= length m)%nat ->
  encrypt_block j m = xor_list (take 64 m) (salsa20_block j).
Proof.
  intros Hj Hm Hl. unfold encrypt_block, salsa20_block. rewrite rounds_eq.
  set (x := zip_with PLUS _ _).
  assert (Hx : length x = 16%nat) by (unfold x; now rewrite length_zip_with, length_rounds, Hj).
  etransitivity; [apply (store_xor_load x m 0); [done|rewrite Hx; simpl; lia]|].
  rewrite Hx, xor_list_comm. unfold mem_read. now rewrite drop_0.
Qed.

(** *** The block counter *)

Lemma next_counter_arith a b :
  in_word 32 a -> in_word 32 b ->
  let c := (a + 2 ^ 32 * b + 1) mod 2 ^ 64 in
  c mod 2 ^ 32 = u32 (a + 1) /\
  c / 2 ^ 32 = if u32 (a + 1) =? 0 then u32 (b + 1) else b.
Proof.
  intros Ha Hb c. change u32 with (wrap 32). rewrite !wrap_mod by lia.
  unfold in_word, c in *.
  destruct (Z.eqb_spec ((a + 1) mod 2 ^ 32) 0); Z.div_mod_to_equations; lia.
Qed.

Lemma counter_words j : wf_input j -> in_word 32 j.[8] /\ in_word 32 j.[9].
Proof. intros [_ Hw]. split; apply Forall_nth_Z; auto with words. Qed.

Lemma next_counter_seek j : wf_input j -> next_counter j = seek 1 j.
Proof.
  intros H. destruct (counter_words j H) as [H8 H9].
  destruct (next_counter_arith _ _ H8 H9) as [E1 E2].
  unfold next_counter, seek, set_counter, counter. change (Z.of_nat 1) with 1.
  rewrite E1, E2. destruct H as [Hl _].
  do 16 (destruct j as [|? j]; [done|]). unfold PLUSONE, PLUS, U32V. simpl.
  now destruct (u32 _ =? 0).
Qed.

Lemma wf_seek n j : wf_input j -> wf_input (seek n j).
Proof.
  intros [Hl Hw]. unfold seek, set_counter. set (c := _ mod 2 ^ 64).
  assert (0 <= c < 2 ^ 64) by (apply Z.mod_pos_bound; lia).
  split; [now rewrite !length_insert|].
  apply Forall_insert; [apply Forall_insert|]; [done| |]; unfold in_word;
    Z.div_mod_to_equations; lia.
Qed.

Lemma counter_seek n j : wf_input j ->
  counter (seek n j) = (counter j + Z.of_nat n) mod 2 ^ 64.
Proof.
  intros [Hl _]. unfold seek, set_counter. set (c := _ mod 2 ^ 64). unfold counter at 1.
  do 16 (destruct j as [|? j]; [done|]). simpl. Z.div_mod_to_equations; lia.
Qed.

Lemma set_counter_set c d j : (9 < length j)%nat ->
  set_counter c (set_counter d j) = set_counter c j.
Proof.
  intros H. do 10 (destruct j as [|? j]; [simpl in H; lia|]). reflexivity.
Qed.

Lemma seek_seek n m j : wf_input j -> seek n (seek m j) = seek (m + n) j.
Proof.
  intros H. unfold seek at 1. rewrite counter_seek by done. unfold seek.
  rewrite set_counter_set by (destruct H as [-> _]; lia).
  f_equal. rewrite Zplus_mod_idemp_l. f_equal. lia.
Qed.

Lemma seek_0 j : wf_input j -> seek 0 j = j.
Proof.
  intros H. destruct (counter_words j H) as [H8 H9]. unfold seek, set_counter, counter.
  destruct H as [Hl _]. unfold in_word in *.
  replace ((_ + Z.of_nat 0) mod 2 ^ 64) with (j.[8] + 2 ^ 32 * j.[9])
    by (Z.div_mod_to_equations; lia).
  replace ((_ + _) mod 2 ^ 32) with (j.[8]) by (Z.div_mod_to_equations; lia).
  replace ((_ + _) / 2 ^ 32) with (j.[9]) by (Z.div_mod_to_equations; lia).
  do 16 (destruct j as [|? j]; [done|]). reflexivity.
Qed.

(** *** The keystream *)

Lemma keystream_S n j : wf_input j ->
  keystream (S n) j = salsa20_block j ++ keystream n (seek 1 j).
Proof.
  intros H. unfold keystream. rewrite fmap_seq_S, seek_0 by done.
  change (mjoin (?x :: ?l)) with (x ++ mjoin l). do 2 f_equal.
  apply list_fmap_ext. intros _ i _. now rewrite seek_seek.
Qed.

Lemma length_keystream n j : wf_input j -> length (keystream n j) = (64 * n)%nat.
Proof.
  revert j. induction n as [|n IH]; intros j H; [done|].
  rewrite keystream_S, length_app, IH, length_salsa20_block by (apply H || now apply wf_seek).
  lia.
Qed.

Lemma keystream_1 j : wf_input j -> keystream 1 j = salsa20_block j.
Proof.
  intros Hj. rewrite keystream_S by done. generalize (salsa20_block j). intros b.
  exact (app_nil_r b).
Qed.

Lemma bytes_keystream n j : bytes (keystream n j).
Proof.
  unfold keystream. apply Forall_join, Forall_fmap, Forall_true.
  intros i. apply bytes_join_split4.
Qed.

Lemma keystream_app n m j : wf_input j ->
  keystream (n + m) j = keystream n j ++ keystream m (seek n j).
Proof.
  revert j. induction n as [|n IH]; intros j H; [now rewrite seek_0|].
  simpl Nat.add. rewrite !keystream_S, IH, seek_seek by auto using wf_seek.
  now rewrite app_assoc.
Qed.

Lemma blocks_of_le_64 n : 0 < n <= 64 -> blocks_of n = 1%nat.
Proof.
  intros H. unfold blocks_of. replace ((n + 63) / 64) with 1 by (Z.div_mod_to_equations; lia).
  reflexivity.
Qed.

Lemma blocks_of_gt_64 n : 64 < n -> blocks_of n = S (blocks_of (n - 64)).
Proof. intros H. unfold blocks_of. Z.div_mod_to_equations; lia. Qed.

Lemma blocks_of_add a b : 0 <= a -> 0 <= b -> a mod 64 = 0 ->
  blocks_of (a + b) = (blocks_of a + blocks_of b)%nat.
Proof. intros Ha Hb H. unfold blocks_of. Z.div_mod_to_equations; lia. Qed.

(** *** The loop *)

Lemma encrypt_last_block j m n tmp :
  wf_input j -> bytes m -> bytes tmp -> length tmp = 64%nat ->
  0 < n < 64 -> n <= Z.of_nat (length m) ->
  take (Z.to_nat n) (encrypt_block j (mem_write tmp 0 (take (Z.to_nat n) m)))
  = xor_list (take (Z.to_nat n) m) (take (Z.to_nat n) (salsa20_block j)).
Proof.
  intros [Hj _] Hm Ht Hl Hn Hlm. set (k := Z.to_nat n).
  assert (Hk : (k < 64)%nat) by lia.
  assert (Hkm : length (take k m) = k) by (rewrite length_take; lia).
  rewrite encrypt_block_eq; [|done|apply Forall_mem_write; auto using Forall_take|].
  - rewrite take_xor_list, take_take. f_equal. replace (k `min` 64)%nat with k by lia.
    unfold mem_write. simpl. now rewrite take_app_length'.
  - rewrite length_mem_write; rewrite Hkm || idtac; simpl; lia.
Qed.

Lemma encrypt_loop_spec fuel j m n tmp :
  wf_input j -> bytes m -> bytes tmp -> length tmp = 64%nat ->
  0 < n <= 64 * Z.of_nat fuel -> n <= Z.of_nat (length m) ->
  encrypt_loop fuel j m n tmp =
  Some (seek (blocks_of n) j,
        xor_list (take (Z.to_nat n) m) (take (Z.to_nat n) (keystream (blocks_of n) j))).
Proof.
  revert j m n. induction fuel as [|fuel IH]; intros j m n Hj Hm Ht Hl Hn Hlm; [lia|].
  assert (Hj16 : length j = 16%nat) by apply Hj.
  cbn [encrypt_loop]. rewrite next_counter_seek by done.
  destruct (Z.leb_spec n 64) as [H64|H64].
  - rewrite blocks_of_le_64 by lia. rewrite keystream_S, app_nil_r by done. do 2 f_equal.
    destruct (Z.ltb_spec n 64) as [Hlt|Hge]; [apply encrypt_last_block; lia || done|].
    replace n with 64 in * by lia. rewrite encrypt_block_eq by (done || lia).
    change (Z.to_nat 64) with 64%nat. f_equal.
    now rewrite <- (length_salsa20_block j), firstn_all.
  - destruct (Z.ltb_spec n 64); [lia|].
    rewrite IH; [|auto using wf_seek, Forall_drop..|rewrite length_drop; lia]; [|lia].
    rewrite (blocks_of_gt_64 n), seek_seek, keystream_S by (lia || done). simpl Nat.add.
    do 2 f_equal. rewrite encrypt_block_eq by (done || lia).
    replace (Z.to_nat n) with (64 + Z.to_nat (n - 64))%nat by lia.
    rewrite <- (take_take_drop m).
    rewrite (take_app_add' (salsa20_block j)) by now rewrite length_salsa20_block.
    rewrite xor_list_app; [done|].
    rewrite length_salsa20_block, length_take by done. lia.
Qed.

Lemma encrypt_bytes_spec x m n tmp :
  wf_ctx x -> bytes m -> bytes tmp -> length tmp = 64%nat ->
  0 <= n <= Z.of_nat (length m) ->
  ECRYPT_encrypt_bytes x m n tmp =
  Some (mk_ctx (seek (blocks_of n) (input x)),
        xor_list (take (Z.to_nat n) m)
          (take (Z.to_nat n) (keystream (blocks_of n) (input x)))).
Proof.
  intros Hx Hm Ht Hl Hn. unfold ECRYPT_encrypt_bytes. destruct x as [j]. simpl input in *.
  destruct (Z.eqb_spec n 0) as [->|Hn0]; [now rewrite seek_0|].
  rewrite encrypt_loop_spec by (done || Z.div_mod_to_equations; lia).
  do 3 f_equal. unfold seek, set_counter. destruct Hx as [Hj _]. simpl in Hj.
  do 16 (destruct j as [|? j]; [done|]). reflexivity.
Qed.

Lemma wf_keysetup x k kbits : length (input x) = 16%nat -> words 32 (input x) ->
  bytes k -> wf_ctx (ECRYPT_keysetup x k kbits).
Proof.
  intros Hl Hw Hk. unfold ECRYPT_keysetup.
  assert (bytes sigma /\ bytes tau) as [Hs Ht].
  { unfold sigma, tau, in_word. split; repeat constructor; lia. }
  destruct (kbits =? 256); (split; simpl input; [now rewrite !length_insert|]);
    repeat (apply Forall_insert); auto using Forall_drop with words.
Qed.

Lemma wf_ivsetup x iv : wf_ctx x -> bytes iv -> wf_ctx (ECRYPT_ivsetup x iv).
Proof.
  intros [Hl Hw] Hv. unfold ECRYPT_ivsetup. split; simpl input; [now rewrite !length_insert|].
  repeat (apply Forall_insert); auto with words.
Qed.

(** ** Properties *)

(** C20. For every well-formed context and every message, [ECRYPT_encrypt_bytes] returns:
    it writes the message xored with the Salsa20 keystream that starts at the context's
    block counter, leaves the counter advanced (modulo [2 ^ 64]) by the number of blocks
    used, and neither result depends on the uninitialised buffer [tmp]. *)
Theorem encrypt_bytes_keystream x m n tmp :
  wf_ctx x -> bytes m -> bytes tmp -> length tmp = 64%nat ->
  0 <= n <= Z.of_nat (length m) ->
  ECRYPT_encrypt_bytes x m n tmp =
  Some (mk_ctx (seek (blocks_of n) (input x)),
        xor_list (take (Z.to_nat n) m)
          (take (Z.to_nat n) (keystream (blocks_of n) (input x)))).
Proof. apply encrypt_bytes_spec. Qed.

(** Decryption inverts encryption: from the same context it restores the message,
    and both calls leave the same context. *)
Theorem decrypt_encrypt_bytes x m tmp tmp' :
  wf_ctx x -> bytes m -> bytes tmp -> length tmp = 64%nat ->
  bytes tmp' -> length tmp' = 64%nat ->
  exists x' c,
    ECRYPT_encrypt_bytes x m (Z.of_nat (length m)) tmp = Some (x', c) /\
    ECRYPT_decrypt_bytes x c (Z.of_nat (length m)) tmp' = Some (x', m).
Proof.
  intros Hx Hm Ht Hl Ht' Hl'. eexists _, _.
  rewrite (encrypt_bytes_spec x m) by (done || lia). split; [reflexivity|].
  rewrite Nat2Z.id, firstn_all. set (ks := take _ _).
  assert (Hks : length ks = length m).
  { unfold ks. rewrite length_take, length_keystream by done. unfold blocks_of.
    Z.div_mod_to_equations; lia. }
  assert (Hc : length (xor_list m ks) = length m) by (rewrite length_xor_list; lia).
  assert (bytes (xor_list m ks)) by
    (apply words_xor_list; [lia|done|apply Forall_take, bytes_keystream]).
  unfold ECRYPT_decrypt_bytes.
  rewrite encrypt_bytes_spec by (done || lia). do 2 f_equal.
  rewrite Nat2Z.id. fold ks. rewrite <- Hc, firstn_all. now apply xor_list_cancel.
Qed.

(** Encrypting a message in two calls gives the same ciphertext and final context as
    one call, when the first part is a whole number of blocks. *)
Theorem encrypt_bytes_app x m1 m2 tmp :
  wf_ctx x -> bytes m1 -> bytes m2 -> bytes tmp -> length tmp = 64%nat ->
  (length m1 mod 64 = 0)%nat ->
  ECRYPT_encrypt_bytes x (m1 ++ m2) (Z.of_nat (length (m1 ++ m2))) tmp =
  (x1 ← ECRYPT_encrypt_bytes x m1 (Z.of_nat (length m1)) tmp;
   x2 ← ECRYPT_encrypt_bytes x1.1 m2 (Z.of_nat (length m2)) tmp;
   Some (x2.1, x1.2 ++ x2.2)).
Proof.
  intros Hx Hm1 Hm2 Ht Hl Hmod.
  assert (Hb : blocks_of (Z.of_nat (length (m1 ++ m2))) =
    (blocks_of (Z.of_nat (length m1)) + blocks_of (Z.of_nat (length m2)))%nat).
  { rewrite length_app, Nat2Z.inj_add. apply blocks_of_add; [lia..|].
    now rewrite <- (Nat2Z.inj_mod _ 64), Hmod. }
  assert (Hk : length m1 =
    length (keystream (blocks_of (Z.of_nat (length m1))) (input x))).
  { rewrite length_keystream by done. unfold blocks_of.
    pose proof (Nat.div_mod_eq (length m1) 64). Z.div_mod_to_equations; lia. }
  rewrite !(encrypt_bytes_spec x) by (done || lia || now apply Forall_app). simpl.
  rewrite encrypt_bytes_spec by (done || lia || now apply wf_seek). simpl.
  rewrite Hb, seek_seek by done. do 2 f_equal.
  rewrite !Nat2Z.id, !firstn_all, keystream_app, length_app by done.
  rewrite take_app_add' by done. rewrite (firstn_all2 (n := length m1)) by lia.
  now rewrite xor_list_app.
Qed.

(** The double round is a permutation of the sixteen words: running its quarter
    rounds backwards undoes it, on either side. *)
Theorem double_round_permutation x :
  columnround inv_quarterround (rowround inv_quarterround (double_round x)) = x /\
  double_round (columnround inv_quarterround (rowround inv_quarterround x)) = x.
Proof.
  rewrite !double_round_eq. split.
  - rewrite rowround_inv by apply inv_quarterround_r.
    apply columnround_inv, inv_quarterround_r.
  - rewrite (columnround_inv inv_quarterround) by apply inv_quarterround_l.
    apply rowround_inv, inv_quarterround_l.
Qed.

(** ** Concrete runs *)

(** A context set up from the key 80 00 ... 00 and the zero nonce. *)
Definition ex_key : list Z := 128 :: replicate 31 0.
Definition ex_ctx : ECRYPT_ctx :=
  ECRYPT_ivsetup (ECRYPT_keysetup (mk_ctx (replicate 16 0)) ex_key 256) (replicate 8 0).
Definition ex_tmp : list Z := replicate 64 170.

(** The first keystream bytes of the published test vector for this key. *)
Example keystream_vector :
  (take 16 ∘ snd) <$> ECRYPT_keystream_bytes ex_ctx 64 ex_tmp =
  Some [0xE3; 0xBE; 0x8F; 0xDD; 0x8B; 0xEC; 0xA2; 0xE3;
        0xEA; 0x8E; 0xF9; 0x47; 0x5B; 0x29; 0xA6; 0xE7].
Proof. vm_compute. reflexivity. Qed.

Lemma encrypt_bytes_keystream_witness :
  ECRYPT_encrypt_bytes ex_ctx [1; 2; 3] 3 ex_tmp =
  Some (mk_ctx (seek 1 (input ex_ctx)),
        xor_list [1; 2; 3] (take 3 (keystream 1 (input ex_ctx)))).
Proof.
  apply (encrypt_bytes_keystream ex_ctx [1; 2; 3] 3 ex_tmp);
    [split; [reflexivity|by_eval]|by_eval|by_eval|reflexivity|simpl; lia].
Defined.

Lemma decrypt_encrypt_bytes_witness :
  exists x' c,
    ECRYPT_encrypt_bytes ex_ctx [1; 2; 3] 3 ex_tmp = Some (x', c) /\
    ECRYPT_decrypt_bytes ex_ctx c 3 ex_tmp = Some (x', [1; 2; 3]).
Proof.
  apply (decrypt_encrypt_bytes ex_ctx [1; 2; 3] ex_tmp ex_tmp);
    [split; [reflexivity|by_eval]|by_eval|by_eval|reflexivity|by_eval|reflexivity].
Defined.

Lemma encrypt_bytes_app_witness :
  ECRYPT_encrypt_bytes ex_ctx (replicate 64 5 ++ [1; 2; 3]) 67 ex_tmp =
  (x1 ← ECRYPT_encrypt_bytes ex_ctx (replicate 64 5) 64 ex_tmp;
   x2 ← ECRYPT_encrypt_bytes x1.1 [1; 2; 3] 3 ex_tmp;
   Some (x2.1, x1.2 ++ x2.2)).
Proof.
  apply (encrypt_bytes_app ex_ctx (replicate 64 5) [1; 2; 3] ex_tmp);
    [split; [reflexivity|by_eval]|by_eval|by_eval|by_eval|reflexivity|reflexivity].
Defined.
