(* ===== verification/GF256.v ===== *)
(** * The field with 256 elements

    Multiplication of bytes as polynomials over GF(2) modulo a polynomial of degree 8,
    used to state what the lookup tables of the ciphers contain. *)

From S2P Require Import Prelude Words.

Section GF.
(** The reduction polynomial, with its leading term. *)
Context (poly : Z).

Definition gf_double (a : Z) : Z := if a <? 128 then 2 * a else (2 * a) ^^ poly.

Definition gf_mul (a b : Z) : Z :=
  fold_left (fun r i => if Z.testbit b (Z.of_nat i) then r ^^ Nat.iter i gf_double a else r)
    (seq 0 8) 0.

Lemma gf_mul_lxor a x y : gf_mul a (x ^^ y) = gf_mul a x ^^ gf_mul a y.
Proof.
  unfold gf_mul. generalize (seq 0 8). intros l.
  assert (H : forall r s, fold_left (fun r i => if Z.testbit (x ^^ y) (Z.of_nat i)
      then r ^^ Nat.iter i gf_double a else r) l (r ^^ s) =
    fold_left (fun r i => if Z.testbit x (Z.of_nat i) then r ^^ Nat.iter i gf_double a else r) l r ^^
    fold_left (fun r i => if Z.testbit y (Z.of_nat i) then r ^^ Nat.iter i gf_double a else r) l s).
  { induction l as [|i l IH]; intros r s; [done|]. cbn [fold_left]. rewrite <- IH. f_equal.
    rewrite Z.lxor_spec. set (d := Nat.iter i gf_double a).
    destruct (Z.testbit x _), (Z.testbit y _); cbn [xorb]; [| |apply Z.lxor_assoc|done].
    - rewrite (Z.lxor_comm s d), Z.lxor_assoc, <- (Z.lxor_assoc d d), Z.lxor_nilpotent.
      now rewrite Z.lxor_0_l.
    - rewrite !Z.lxor_assoc. f_equal. apply Z.lxor_comm. }
  exact (H 0 0).
Qed.

Lemma gf_mul_0_r a : gf_mul a 0 = 0.
Proof. reflexivity. Qed.

Context (Hpoly : 256 <= poly < 512).

Lemma gf_double_byte a : is_byte a -> is_byte (gf_double a).
Proof.
  intros Ha. unfold gf_double. destruct (Z.ltb_spec a 128) as [H|H].
  - unfold in_word in *. lia.
  - assert (E : (2 * a) ^^ poly = u8 (2 * a) ^^ u8 poly).
    { rewrite <- Z.add_0_l at 1. change u8 with (wrap 8).
      rewrite !wrap_mod by lia. destruct Ha as [H0 Ha]. change (2 ^ 8) with 256 in *.
      rewrite (Z.mod_eq (2 * a)), (Z.mod_eq poly) by lia.
      rewrite <- (Z.div_unique (2 * a) 256 1 (2 * a - 256)) by lia.
      rewrite <- (Z.div_unique poly 256 1 (poly - 256)) by lia.
      rewrite Z.add_0_l. set (x := 2 * a - 256 * 1). set (y := poly - 256 * 1).
      replace (2 * a) with (x ^^ 256); [replace poly with (y ^^ 256)|].
      - rewrite Z.lxor_assoc, (Z.lxor_comm 256), Z.lxor_assoc, Z.lxor_nilpotent, Z.lxor_0_r.
        reflexivity.
      - assert (Hy : in_word 8 y) by (unfold in_word, y; lia).
        rewrite <- Z.add_nocarry_lxor; [unfold y; lia|].
        change 256 with (1 << 8). bitwise. destruct (Z.lt_ge_cases i 8); bit_kill; done.
      - assert (Hx : in_word 8 x) by (unfold in_word, x; lia).
        rewrite <- Z.add_nocarry_lxor; [unfold x; lia|].
        change 256 with (1 << 8). bitwise. destruct (Z.lt_ge_cases i 8); bit_kill; done. }
    rewrite E. auto with words.
Qed.

Lemma gf_mul_byte a b : is_byte a -> is_byte (gf_mul a b).
Proof.
  intros Ha. unfold gf_mul. generalize (seq 0 8) 0 (in_word_0 8 ltac:(lia)).
  intros l. induction l as [|i l IH]; intros r Hr; [done|]. cbn [fold_left]. apply IH.
  assert (Hd : is_byte (Nat.iter i gf_double a)).
  { clear IH. induction i as [|i IHi]; [done|]. simpl. now apply gf_double_byte. }
  destruct (Z.testbit b _); auto with words.
Qed.
End GF.
