(* ===== verification/Whirlpool.v ===== *)
(** * Whirlpool: src/crypto/hashing/whirlpool/whirlpool.c

    The code first, then the cipher W over GF(2^8) that the lookup table implements, then
    the streaming interface. *)

From S2P Require Import Prelude Words GF256 ByteOrder BlockBuffer WhirlpoolTables.

(** ** The source *)

Definition whirlpool_block_size : nat := 64.

Record whirlpool_ctx := mk_ctx {
  hash : list Z;      (* uint64_t hash[8] *)
  message : list Z;   (* unsigned char message[64] *)
  ctx_length : Z;     (* uint64_t length *)
}.

Definition rhash_whirlpool_init (ctx : whirlpool_ctx) : whirlpool_ctx :=
  {| hash := replicate 8 0; message := message ctx; ctx_length := 0 |}.

(** [rhash_whirlpool_sbox[t][x]] *)
Definition sbox_at (t : nat) (x : Z) : Z := (nth t rhash_whirlpool_sbox []).[Z.to_nat x].

Definition WHIRLPOOL_OP (src : list Z) (shift : nat) : Z :=
  sbox_at 0 (src.[shift mod 8] >> 56) ^^
  sbox_at 1 ((src.[(shift + 7) mod 8] >> 48) .& 0xff) ^^
  sbox_at 2 ((src.[(shift + 6) mod 8] >> 40) .& 0xff) ^^
  sbox_at 3 ((src.[(shift + 5) mod 8] >> 32) .& 0xff) ^^
  sbox_at 4 ((src.[(shift + 4) mod 8] >> 24) .& 0xff) ^^
  sbox_at 5 ((src.[(shift + 3) mod 8] >> 16) .& 0xff) ^^
  sbox_at 6 ((src.[(shift + 2) mod 8] >> 8) .& 0xff) ^^
  sbox_at 7 (src.[(shift + 1) mod 8] .& 0xff).

Definition number_of_rounds : nat := 10.

Definition rc : list Z :=
  [0x1823c6e887b8014f; 0x36a6d2f5796f9152; 0x60bc9b8ea30c7b35; 0x1de0d7c22e4bfe57;
   0x157737e59ff04ada; 0x58c9290ab1a06b85; 0xbd5d10f4cb3e0567; 0xe427418ba77d95d8;
   0xfbee7c66dd17479e; 0xca2dbf07ad5a8333].

(** The local variables of the block function: the two-row arrays [K] and [state], and the
    flag [m] that selects the row in use. *)
Record wp_locals := mk_locals { wp_K : list (list Z); wp_state : list (list Z); wp_m : nat }.

Definition process_round (i : nat) (l : wp_locals) : wp_locals :=
  let m := wp_m l in
  let Km := nth m (wp_K l) [] in
  let Km' := [WHIRLPOOL_OP Km 0 ^^ rc.[i]; WHIRLPOOL_OP Km 1; WHIRLPOOL_OP Km 2;
              WHIRLPOOL_OP Km 3; WHIRLPOOL_OP Km 4; WHIRLPOOL_OP Km 5;
              WHIRLPOOL_OP Km 6; WHIRLPOOL_OP Km 7] in
  let sm := nth m (wp_state l) [] in
  let sm' := [WHIRLPOOL_OP sm 0 ^^ Km'.[0]; WHIRLPOOL_OP sm 1 ^^ Km'.[1];
              WHIRLPOOL_OP sm 2 ^^ Km'.[2]; WHIRLPOOL_OP sm 3 ^^ Km'.[3];
              WHIRLPOOL_OP sm 4 ^^ Km'.[4]; WHIRLPOOL_OP sm 5 ^^ Km'.[5];
              WHIRLPOOL_OP sm 6 ^^ Km'.[6]; WHIRLPOOL_OP sm 7 ^^ Km'.[7]] in
  {| wp_K := <[ixor m 1 := Km']> (wp_K l);
     wp_state := <[ixor m 1 := sm']> (wp_state l);
     wp_m := ixor m 1 |}.

Definition rhash_whirlpool_process_block (hash p_block : list Z) : list Z :=
  let K0 := hash in
  let state0 := (fun i => bswap64 (load64_le p_block (8 * i)) ^^ hash.[i]) <$> seq 0 8 in
  let l := for_up number_of_rounds process_round
    {| wp_K := [K0; replicate 8 0]; wp_state := [state0; replicate 8 0]; wp_m := 0 |} in
  xor_list state0 (nth 0 (wp_state l) []).

Definition IS_ALIGNED_64 (addr : Z) : bool := (7 .& addr) =? 0.

(** The loop over whole blocks of the data at [addr]; a block that is not aligned is first
    copied to the context. *)
Fixpoint update_blocks (fuel : nat) (ctx : whirlpool_ctx) (addr : Z) (msg : list Z)
    : whirlpool_ctx * list Z :=
  match fuel with
  | O => (ctx, msg)
  | S fuel =>
    if (whirlpool_block_size <=? length msg)%nat then
      let ctx := if IS_ALIGNED_64 addr then ctx else
        {| hash := hash ctx;
           message := mem_write (message ctx) 0 (mem_read msg 0 whirlpool_block_size);
           ctx_length := ctx_length ctx |} in
      let aligned_message_block :=
        if IS_ALIGNED_64 addr then mem_read msg 0 whirlpool_block_size else message ctx in
      update_blocks fuel
        {| hash := rhash_whirlpool_process_block (hash ctx) aligned_message_block;
           message := message ctx; ctx_length := ctx_length ctx |}
        (addr + Z.of_nat whirlpool_block_size) (drop whirlpool_block_size msg)
    else (ctx, msg)
  end.

Definition rhash_whirlpool_update (ctx : whirlpool_ctx) (addr : Z) (msg : list Z)
    : whirlpool_ctx :=
  let index := Z.to_nat (u32 (ctx_length ctx) .& 63) in
  let size := length msg in
  let len := u64 (ctx_length ctx + Z.of_nat size) in
  let left := (whirlpool_block_size - index)%nat in
  let finish ctx addr msg :=
    let '(ctx, msg) := update_blocks (length msg) ctx addr msg in
    {| hash := hash ctx; message := mem_write (message ctx) 0 msg;
       ctx_length := ctx_length ctx |} in
  if (index =? 0)%nat then
    finish {| hash := hash ctx; message := message ctx; ctx_length := len |} addr msg
  else
    let buf := mem_write (message ctx) index
      (take (if (size <? left)%nat then size else left) msg) in
    if (size <? left)%nat then {| hash := hash ctx; message := buf; ctx_length := len |}
    else
      finish {| hash := rhash_whirlpool_process_block (hash ctx) buf; message := buf;
                ctx_length := len |}
        (addr + Z.of_nat left) (drop left msg).

(** [ctx_addr] and [result_addr] are the addresses of the context and of the result. *)
Definition rhash_whirlpool_final (ctx : whirlpool_ctx) (ctx_addr : Z)
    (result : list Z) (result_addr : Z) : whirlpool_ctx * list Z :=
  let index := Z.to_nat (u32 (ctx_length ctx) .& 63) in
  let msg := mem_write (message ctx) index [0x80] in
  let index := S index in
  let '(h, msg, index) :=
    if (32 <? index)%nat then
      let msg := mem_write msg index (replicate (64 - index) 0) in
      (rhash_whirlpool_process_block (hash ctx) msg, msg, 0%nat)
    else (hash ctx, msg, index) in
  let msg := mem_write msg index (replicate (56 - index) 0) in
  let msg := mem_write msg 56 (le_split 8 (bswap64 (u64 (ctx_length ctx << 3)))) in
  let h := rhash_whirlpool_process_block h msg in
  ({| hash := h; message := msg; ctx_length := ctx_length ctx |},
   rhash_swap_copy_str_to_u64 result result_addr 0 (words_to_bytes h) ctx_addr 64).

(** ** The specification: the cipher W *)

(** GF(2^8) modulo x^8 + x^4 + x^3 + x^2 + 1. *)
Definition gf_mul : Z -> Z -> Z := GF256.gf_mul 0x11d.

(** The S-box is built from the mini-boxes E and R on 4-bit nibbles. *)
Definition mini_E : list Z :=
  [0x1; 0xB; 0x9; 0xC; 0xD; 0x6; 0xF; 0x3; 0xE; 0x8; 0x7; 0x4; 0xA; 0x2; 0x5; 0x0].
Definition mini_R : list Z :=
  [0x7; 0xC; 0xB; 0xD; 0xE; 0x4; 0x9; 0xF; 0x6; 0x3; 0x8; 0xA; 0x2; 0x5; 0x1; 0x0].
Definition box_inv (e : list Z) (y : Z) : Z :=
  default 0 (head (filter (fun x => e.[Z.to_nat x] = y) (Z.of_nat <$> seq 0 16))).
Definition S_box (x : Z) : Z :=
  let a := mini_E.[Z.to_nat (x >> 4)] in
  let b := box_inv mini_E (x .& 15) in
  let r := mini_R.[Z.to_nat (a ^^ b)] in
  (mini_E.[Z.to_nat (a ^^ r)] << 4) .| box_inv mini_E (b ^^ r).

(** 8 x 8 matrices of bytes; a 64-bit word is a row, most significant byte first. *)
Definition matrix (ws : list Z) : list (list Z) := be_split 8 <$> ws.

Definition gamma (M : list (list Z)) : list (list Z) := (fun row : list Z => S_box <$> row) <$> M.
Definition pi (M : list (list Z)) : list (list Z) :=
  (fun r => (fun c => (nth ((r + 8 - c) mod 8) M []).[c]) <$> seq 0 8) <$> seq 0 8.
Definition cir : list Z := [1; 1; 4; 1; 8; 5; 2; 9].
Definition mix_row (row : list Z) : list Z :=
  (fun j => fold_left (fun s c => s ^^ gf_mul row.[c] cir.[(j + 8 - c) mod 8]) (seq 0 8) 0)
    <$> seq 0 8.
Definition theta (M : list (list Z)) : list (list Z) := mix_row <$> M.
Definition sigma (k M : list (list Z)) : list (list Z) := zip_with xor_list M k.

Definition rho (k M : list (list Z)) : list (list Z) := sigma k (theta (pi (gamma M))).

(** The constant of round [r] (from 0): eight S-box values in the first row. *)
Definition round_constant (r : nat) : list (list Z) :=
  ((fun j => S_box (Z.of_nat (8 * r + j))) <$> seq 0 8) :: replicate 7 (replicate 8 0).

Fixpoint round_key (k : list (list Z)) (r : nat) : list (list Z) :=
  match r with O => k | S r => rho (round_constant r) (round_key k r) end.

Fixpoint W_rounds (k M : list (list Z)) (r : nat) : list (list Z) :=
  match r with O => sigma k M | S r => rho (round_key k (S r)) (W_rounds k M r) end.

Definition W (k M : list (list Z)) : list (list Z) := W_rounds k M 10.

(** Miyaguchi-Preneel: [W_H(m) xor m xor H]. *)
Definition compress (H m : list (list Z)) : list (list Z) := sigma (W H m) (sigma H m).

(** The padding: a one bit, zeros up to an odd multiple of 256 bits, and the length in
    bits as a 256-bit number. *)
Definition pad (len_bits : Z) (n : nat) : list Z :=
  [0x80] ++ replicate ((95 - n mod 64) mod 64) 0 ++ be_split 32 len_bits.

(** The rows of a block of 64 bytes. *)
Definition rows (b : list Z) : list (list Z) := (fun i => mem_read b (8 * i) 8) <$> seq 0 8.

Definition digest_of (m padding : list Z) : list Z :=
  mjoin (absorb 64 (fun H b => compress H (rows b)) (replicate 8 (replicate 8 0))
    (m ++ padding)).

Definition whirlpool_digest (m : list Z) : list Z :=
  digest_of m (pad (8 * Z.of_nat (length m)) (length m)).

(** ** The round function *)

(** The table holds, for every byte and every column, the product of the S-box value with
    the row of the diffusion matrix. *)
Definition table_row (t : nat) (b : Z) : list Z :=
  (fun j => gf_mul (S_box b) cir.[(j + 8 - t) mod 8]) <$> seq 0 8.

Lemma table_check : all_below 8 (fun t => all_below 256 (fun x =>
  bool_decide (be_split 8 (sbox_at t (Z.of_nat x)) = table_row t (Z.of_nat x)) &&
  bool_decide (in_word 64 (sbox_at t (Z.of_nat x))))) = true.
Proof. vm_compute. reflexivity. Qed.

Lemma sbox_at_spec t b : (t < 8)%nat -> is_byte b ->
  be_split 8 (sbox_at t b) = table_row t b /\ in_word 64 (sbox_at t b).
Proof.
  intros Ht [H0 Hb]. pose proof table_check as H.
  apply all_below_spec with (i := t) in H; [|done].
  apply all_below_spec with (i := Z.to_nat b) in H; [|change (2 ^ 8) with 256 in Hb; lia].
  rewrite Z2Nat.id in H by done. apply andb_prop in H as [H1 H2].
  split; [now apply bool_decide_eq_true in H1|now apply bool_decide_eq_true in H2].
Qed.

#[local] Opaque gf_mul S_box sbox_at be_split.

Lemma pi_gamma_row src r : length src = 8%nat -> (r < 8)%nat ->
  nth r (pi (gamma (matrix src))) [] =
  (fun c => S_box (be_split 8 src.[(r + 8 - c) mod 8]).[c]) <$> seq 0 8.
Proof.
  intros Hl Hr. unfold pi. rewrite nth_fmap_seq by done.
  apply fmap_seq_ext. intros c Hc. unfold gamma, matrix.
  assert (Hi : ((r + 8 - c) mod 8 < length src)%nat)
    by (rewrite Hl; apply Nat.mod_upper_bound; lia).
  rewrite (nth_fmap_lt _ _ _ [] []) by now rewrite length_fmap.
  rewrite (nth_fmap_lt (be_split 8) _ _ [] 0) by done.
  apply nth_fmap_lt. now rewrite length_be_split.
Qed.

Lemma nth_table_row t b j : (j < 8)%nat ->
  (table_row t b).[j] = gf_mul (S_box b) cir.[(j + 8 - t) mod 8].
Proof. intros H. unfold table_row. now rewrite nth_fmap_seq. Qed.

(** The bytes that the macro extracts from the source row. *)
Lemma OP_bytes src r : words 64 src -> (r < 8)%nat ->
  let b := fun c => (be_split 8 src.[(r + 8 - c) mod 8]).[c] in
  WHIRLPOOL_OP src r =
    sbox_at 0 (b 0%nat) ^^ sbox_at 1 (b 1%nat) ^^ sbox_at 2 (b 2%nat) ^^
    sbox_at 3 (b 3%nat) ^^ sbox_at 4 (b 4%nat) ^^ sbox_at 5 (b 5%nat) ^^
    sbox_at 6 (b 6%nat) ^^ sbox_at 7 (b 7%nat).
Proof.
  intros Hs Hr b. unfold b. rewrite !nth_be_split_8 by lia. unfold WHIRLPOOL_OP.
  replace (r + 8 - 0)%nat with (r + 1 * 8)%nat by lia. rewrite Nat.Div0.mod_add.
  assert (Hw : in_word 64 src.[r mod 8]) by (apply Forall_nth_Z; auto with words).
  change (8 * (7 - Z.of_nat 0)) with 56.
  rewrite (u8_small (src.[r mod 8] >> 56)).
  2: { unfold in_word in *. rewrite Z.shiftr_div_pow2 by lia. split;
       [apply Z.div_pos; lia|apply Z.div_lt_upper_bound; lia]. }
  replace (r + 8 - 1)%nat with (r + 7)%nat by lia.
  replace (r + 8 - 2)%nat with (r + 6)%nat by lia.
  replace (r + 8 - 3)%nat with (r + 5)%nat by lia.
  replace (r + 8 - 4)%nat with (r + 4)%nat by lia.
  replace (r + 8 - 5)%nat with (r + 3)%nat by lia.
  replace (r + 8 - 6)%nat with (r + 2)%nat by lia.
  replace (r + 8 - 7)%nat with (r + 1)%nat by lia.
  change (8 * (7 - Z.of_nat 7)) with 0. rewrite Z.shiftr_0_r. reflexivity.
Qed.

Lemma OP_spec src r : words 64 src -> length src = 8%nat -> (r < 8)%nat ->
  be_split 8 (WHIRLPOOL_OP src r) = nth r (theta (pi (gamma (matrix src)))) [] /\
  in_word 64 (WHIRLPOOL_OP src r).
Proof.
  intros Hs Hl Hr. pose proof (OP_bytes src r Hs Hr) as E.
  set (b := fun c => (be_split 8 src.[(r + 8 - c) mod 8]).[c]) in E.
  cbv zeta in E. rewrite E. clear E.
  assert (Hb : forall c, is_byte (b c)).
  { intros c. apply Forall_nth_Z; auto with words. }
  assert (Hpi : nth r (theta (pi (gamma (matrix src)))) [] =
    mix_row ((fun c => S_box (b c)) <$> seq 0 8)).
  { unfold theta. rewrite (nth_fmap_lt _ _ _ [] []) by (unfold pi; now rewrite length_fmap_seq).
    now rewrite pi_gamma_row. }
  assert (HT : forall t c, (t < 8)%nat -> be_split 8 (sbox_at t (b c)) = table_row t (b c))
    by (intros t c Ht; now apply sbox_at_spec).
  rewrite Hpi. split.
  - rewrite !be_split_lxor, !HT by lia.
    apply (nth_ext_eq _ _ 0).
    + rewrite !length_xor_list. reflexivity.
    + rewrite !length_xor_list. change (_ `min` _)%nat with 8%nat.
      intros j Hj. unfold mix_row. rewrite nth_fmap_seq by done.
      rewrite !nth_xor_list by reflexivity. rewrite !nth_table_row by done.
      cbn [seq fold_left fmap list_fmap nth]. now rewrite Z.lxor_0_l.
  - repeat apply in_word_lxor; try lia; apply sbox_at_spec; auto; lia.
Qed.

(** One round on words is one round of the cipher on their matrix. *)
Lemma matrix_seq ws : length ws = 8%nat -> matrix ws = (fun r => be_split 8 ws.[r]) <$> seq 0 8.
Proof.
  intros H. unfold matrix. rewrite <- (fmap_nth_seq ws 0) at 1.
  rewrite H, <- list_fmap_compose. reflexivity.
Qed.

Lemma rho_words k src :
  words 64 src -> length src = 8%nat -> length k = 8%nat ->
  matrix ((fun r => WHIRLPOOL_OP src r ^^ k.[r]) <$> seq 0 8) = rho (matrix k) (matrix src).
Proof.
  intros Hs Hl Hk. unfold rho, sigma.
  set (L := theta (pi (gamma (matrix src)))).
  assert (HL : length L = 8%nat) by (unfold L, theta, pi; now rewrite length_fmap, length_fmap_seq).
  rewrite <- (fmap_nth_seq L []), HL, (matrix_seq k), zip_with_fmap_same by done.
  unfold matrix. rewrite <- list_fmap_compose. apply fmap_seq_ext.
  intros r Hr. unfold compose. rewrite be_split_lxor. f_equal. now apply OP_spec.
Qed.

Lemma words_op src k : words 64 src -> length src = 8%nat -> words 64 k ->
  words 64 ((fun r => WHIRLPOOL_OP src r ^^ k.[r]) <$> seq 0 8).
Proof.
  intros Hs Hl Hk. apply Forall_fmap, Forall_seq. intros r Hr. unfold compose.
  apply in_word_lxor; [lia|apply OP_spec; auto; lia|apply Forall_nth_Z; auto with words].
Qed.

(** The constants [rc] are the S-box rows of the specification. *)
Lemma rc_round_constant i : (i < 10)%nat ->
  matrix (rc.[i] :: replicate 7 0) = round_constant i /\ words 64 (rc.[i] :: replicate 7 0).
Proof.
  intros H.
  assert (A : all_below 10 (fun i =>
    bool_decide (matrix (rc.[i] :: replicate 7 0) = round_constant i) &&
    bool_decide (words 64 (rc.[i] :: replicate 7 0))) = true) by (vm_compute; reflexivity).
  apply all_below_spec with (i := i) in A; [|done].
  apply andb_prop in A as [A1 A2].
  split; [now apply bool_decide_eq_true in A1|now apply bool_decide_eq_true in A2].
Qed.

Definition row_ok (ws : list Z) (M : list (list Z)) : Prop :=
  words 64 ws /\ length ws = 8%nat /\ matrix ws = M.

Definition round_inv (K M : list (list Z)) (i : nat) (l : wp_locals) : Prop :=
  wp_m l = (i mod 2)%nat /\ length (wp_K l) = 2%nat /\ length (wp_state l) = 2%nat /\
  row_ok (nth (wp_m l) (wp_K l) []) (round_key K i) /\
  row_ok (nth (wp_m l) (wp_state l) []) (W_rounds K M i).

Lemma row_ok_op src k MS MK : row_ok src MS -> row_ok k MK ->
  row_ok ((fun r => WHIRLPOOL_OP src r ^^ k.[r]) <$> seq 0 8) (rho MK MS).
Proof.
  intros (Hs & Hl & <-) (Hk & Hkl & <-).
  split; [now apply words_op|]. split; [apply length_fmap_seq|now apply rho_words].
Qed.

Lemma nth_insert_eq {A} (l : list A) i x d : (i < length l)%nat -> nth i (<[i:=x]> l) d = x.
Proof. intros H. now rewrite nth_lookup_def, list_lookup_insert_eq. Qed.

#[local] Opaque WHIRLPOOL_OP.

Lemma process_round_inv K M i l : (i < 10)%nat ->
  round_inv K M i l -> round_inv K M (S i) (process_round i l).
Proof.
  intros Hi (Hm & HlK & Hls & HK & Hs). unfold process_round.
  assert (Hm' : ixor (wp_m l) 1 = (S i mod 2)%nat).
  { rewrite Hm. pose proof (Nat.mod_upper_bound i 2 ltac:(lia)) as Hb.
    replace (S i mod 2)%nat with ((i mod 2 + 1) mod 2)%nat
      by (rewrite Nat.Div0.add_mod_idemp_l; f_equal; lia).
    destruct (i mod 2)%nat as [|[|?]]; [reflexivity|reflexivity|lia]. }
  assert (Hb : (S i mod 2 < 2)%nat) by (apply Nat.mod_upper_bound; lia).
  destruct (rc_round_constant i Hi) as [Hr Hw].
  pose proof (row_ok_op _ (rc.[i] :: replicate 7 0) _ (round_constant i) HK) as HK'.
  specialize (HK' (conj Hw (conj eq_refl Hr))).
  split; [exact Hm'|]. cbn [wp_m wp_K wp_state]. rewrite Hm', !length_insert.
  split; [done|]. split; [done|]. rewrite !nth_insert_eq by lia.
  set (Km := nth (wp_m l) (wp_K l) []) in *. set (sm := nth (wp_m l) (wp_state l) []) in *.
  assert (EK : [WHIRLPOOL_OP Km 0 ^^ rc.[i]; WHIRLPOOL_OP Km 1; WHIRLPOOL_OP Km 2;
    WHIRLPOOL_OP Km 3; WHIRLPOOL_OP Km 4; WHIRLPOOL_OP Km 5; WHIRLPOOL_OP Km 6;
    WHIRLPOOL_OP Km 7] = (fun r => WHIRLPOOL_OP Km r ^^ (rc.[i] :: replicate 7 0).[r])
      <$> seq 0 8).
  { cbn [seq fmap list_fmap nth replicate]. now rewrite !Z.lxor_0_r. }
  rewrite EK. split; [exact HK'|].
  exact (row_ok_op _ _ _ _ Hs HK').
Qed.

(** The compression function is W in Miyaguchi-Preneel mode. *)
Lemma process_block_row_ok h b : words 64 h -> length h = 8%nat -> bytes b ->
  row_ok (rhash_whirlpool_process_block h b)
    (compress (matrix h) (matrix ((fun i => bswap64 (load64_le b (8 * i))) <$> seq 0 8))).
Proof.
  intros Hh Hl Hb. unfold rhash_whirlpool_process_block.
  set (P := (fun i => bswap64 (load64_le b (8 * i))) <$> seq 0 8).
  assert (HP : words 64 P /\ length P = 8%nat).
  { split; [|apply length_fmap_seq]. apply Forall_fmap, Forall_seq. intros.
    unfold compose. auto with words. }
  destruct HP as [HPw HPl].
  assert (E0 : (fun i => bswap64 (load64_le b (8 * i)) ^^ h.[i]) <$> seq 0 8 = xor_list P h).
  { transitivity (xor_list P ((fun i => h.[i]) <$> seq 0 8)).
    - symmetry. apply zip_with_fmap_same.
    - rewrite <- Hl. now rewrite fmap_nth_seq. }
  rewrite E0. set (s0 := xor_list P h).
  assert (Hs0 : words 64 s0) by (apply words_xor_list; auto with words).
  assert (Hs0l : length s0 = 8%nat) by (unfold s0; rewrite length_xor_list; lia).
  assert (Hm : forall x y, length x = length y ->
    matrix (xor_list x y) = sigma (matrix y) (matrix x)).
  { intros x y. revert y. induction x as [|u x IH]; intros [|v y] Hxy; try discriminate; [done|].
    cbn. unfold matrix, sigma in *. f_equal; [apply be_split_lxor|apply IH]. simpl in Hxy. lia. }
  assert (I0 : round_inv (matrix h) (matrix P) 0
    {| wp_K := [h; replicate 8 0]; wp_state := [s0; replicate 8 0]; wp_m := 0 |}).
  { repeat split; auto. now apply Hm; rewrite HPl. }
  pose proof (for_up_inv (round_inv (matrix h) (matrix P)) number_of_rounds process_round _ I0
    (fun i l => process_round_inv _ _ i l)) as I.
  set (l := for_up _ _ _) in *. clearbody l. cbv zeta.
  destruct I as (Hm0 & _ & _ & _ & Hw & Hwl & HW). rewrite Hm0 in Hw, Hwl, HW.
  change (number_of_rounds mod 2)%nat with 0%nat in *.
  set (r := nth 0 (wp_state l) []) in *. clearbody r.
  split; [apply words_xor_list; [lia|done|done]|].
  split; [rewrite length_xor_list; lia|]. rewrite Hm by lia. rewrite HW.
  unfold compress, W. f_equal. apply Hm. lia.
Qed.

#[local] Transparent be_split.

Lemma be_split_bswap64 b i : bytes b -> (i + 8 <= length b)%nat ->
  be_split 8 (bswap64 (load64_le b i)) = mem_read b i 8.
Proof.
  intros Hb Hl. unfold be_split. rewrite le_split_bswap64, rev_involutive.
  rewrite <- (length_mem_read b i 8) at 1 by done.
  apply le_split_combine, Forall_mem_read, Hb.
Qed.

Lemma process_block_spec h H b : row_ok h H -> bytes b -> length b = 64%nat ->
  row_ok (rhash_whirlpool_process_block h b) (compress H (rows b)).
Proof.
  intros (Hw & Hl & <-) Hb Hbl.
  replace (rows b) with (matrix ((fun i => bswap64 (load64_le b (8 * i))) <$> seq 0 8));
    [now apply process_block_row_ok|].
  unfold matrix, rows. rewrite <- list_fmap_compose. apply fmap_seq_ext. intros i Hi.
  apply be_split_bswap64; [done|lia].
Qed.

(** ** The streaming interface *)

#[local] Opaque rhash_whirlpool_process_block.

Abbreviation absorb_wp := (absorb 64 rhash_whirlpool_process_block).

Definition wp_repr (ctx : whirlpool_ctx) (m : list Z) : Prop :=
  bytes m /\ hash ctx = absorb_wp (replicate 8 0) m /\ holds 64 (message ctx) m /\
  ctx_length ctx = u64 (Z.of_nat (length m)).

Lemma update_blocks_spec fuel ctx addr msg ctx' msg' :
  (length msg <= fuel)%nat -> length (message ctx) = 64%nat ->
  update_blocks fuel ctx addr msg = (ctx', msg') ->
  hash ctx' = absorb_wp (hash ctx) msg /\ msg' = tail 64 msg /\
  length (message ctx') = 64%nat /\ ctx_length ctx' = ctx_length ctx.
Proof.
  revert ctx addr msg. induction fuel as [|fuel IH]; intros ctx addr msg Hf Hl E.
  - injection E as <- <-. destruct msg; [|simpl in Hf; lia].
    now rewrite absorb_short, tail_short by (simpl; lia).
  - cbn [update_blocks] in E. destruct (Nat.leb_spec whirlpool_block_size (length msg)) as [Hc|Hc];
      unfold whirlpool_block_size in *.
    + change (mem_read msg 0 64) with (take 64 msg) in E. set (b := take 64 msg) in *.
      assert (Hb : length b = 64%nat) by (unfold b; rewrite length_take; lia).
      assert (Em : msg = b ++ drop 64 msg) by (symmetry; apply take_drop).
      assert (Hw : mem_write (message ctx) 0 b = b) by (apply mem_write_full; lia).
      rewrite Hw in E. rewrite Em at 1 2. rewrite absorb_block, tail_block by (lia || done).
      apply IH in E; cbn [hash message ctx_length] in *; [|rewrite length_drop; lia|];
        now destruct (IS_ALIGNED_64 addr).
    + injection E as <- <-. now rewrite absorb_short, tail_short.
Qed.

Lemma index_mod n : Z.to_nat (u32 (u64 (Z.of_nat n)) .& 63) = (n mod 64)%nat.
Proof.
  assert (E : u32 (u64 (Z.of_nat n)) .& 63 = wrap 6 (Z.of_nat n)).
  { change 63 with (Z.ones 6). change (u32 (u64 (Z.of_nat n)) .& Z.ones 6) with
      (wrap 6 (u32 (u64 (Z.of_nat n)))). bitwise. }
  rewrite E, wrap_mod by lia. change (2 ^ 6) with (Z.of_nat 64).
  now rewrite <- Nat2Z.inj_mod, Nat2Z.id.
Qed.

Lemma wp_repr_update ctx addr m d :
  bytes d -> wp_repr ctx m -> wp_repr (rhash_whirlpool_update ctx addr d) (m ++ d).
Proof.
  intros Hd (Hm & Hh & Hb & Hlen). unfold rhash_whirlpool_update. rewrite Hlen, index_mod.
  set (r := (length m mod 64)%nat). pose proof (rem_lt 64 ltac:(lia) m) as Hr. fold r in Hr.
  assert (Hmd : bytes (m ++ d)) by now apply Forall_app.
  assert (EL : u64 (u64 (Z.of_nat (length m)) + Z.of_nat (length d)) =
    u64 (Z.of_nat (length (m ++ d)))).
  { change u64 with (wrap 64). rewrite wrap_add_l, length_app, Nat2Z.inj_add; lia. }
  rewrite EL. unfold whirlpool_block_size.
  assert (Hfin : forall ctx0 a m0 d0, m ++ d = m0 ++ d0 -> (length m0 mod 64 = 0)%nat ->
    hash ctx0 = absorb_wp (replicate 8 0) m0 -> length (message ctx0) = 64%nat ->
    ctx_length ctx0 = u64 (Z.of_nat (length (m ++ d))) ->
    wp_repr (let '(c, msg) := update_blocks (length d0) ctx0 a d0 in
      {| hash := hash c; message := mem_write (message c) 0 msg; ctx_length := ctx_length c |})
      (m ++ d)).
  { intros ctx0 a m0 d0 E Hm0 Hh0 Hl0 Hlen0.
    destruct (update_blocks _ ctx0 a d0) as [c msg] eqn:Eu.
    apply update_blocks_spec in Eu as (Eh & -> & Hl1 & El); [|lia|done].
    split; [done|]. cbn [hash message ctx_length]. split; [|split].
    - now rewrite E, absorb_aligned, Eh, Hh0 by (lia || done).
    - rewrite E. apply holds_tail; lia || done.
    - now rewrite El. }
  destruct (Nat.eqb_spec r 0) as [Hr0|Hr0].
  - apply (Hfin _ _ m d); auto. apply Hb.
  - destruct (Nat.ltb_spec (length d) (64 - r)) as [Hs|Hs].
    + rewrite take_ge by lia.
      destruct (holds_append 64 rhash_whirlpool_process_block ltac:(lia) (message ctx) m d)
        as [Hb' Ha]; [done|fold r; lia|]. split; [done|]. cbn [hash message ctx_length].
      now rewrite Ha, Hh.
    + destruct (holds_fill 64 rhash_whirlpool_process_block ltac:(lia) (message ctx) m
        (take (64 - r) d)) as (E & Ha & _ & Hmod); [done|rewrite length_take; fold r; lia|].
      fold r in E. rewrite E.
      apply (Hfin _ _ (m ++ take (64 - r) d) (drop (64 - r) d)); cbn [hash message ctx_length].
      * now rewrite <- app_assoc, take_drop.
      * specialize (Hmod []). now rewrite app_nil_r in Hmod.
      * specialize (Ha (replicate 8 0) []). rewrite app_nil_r in Ha. rewrite Ha, Hh.
        now rewrite (absorb_short _ _ _ []) by (simpl; lia).
      * rewrite length_app, length_tail, length_take by lia. fold r. lia.
      * done.
Qed.

(** The padding is the rest of one block, or of one block and a further block. *)
Lemma pad_one x n : in_word 64 x -> (n mod 64 <= 31)%nat ->
  pad x n = [0x80] ++ replicate (56 - S (n mod 64)) 0 ++ be_split 8 x.
Proof.
  intros Hx Hn. unfold pad.
  rewrite (be_split_wide 24 x Hx : be_split 32 x = _).
  assert (E : ((95 - n mod 64) mod 64 = 31 - n mod 64)%nat).
  { rewrite (Nat.Div0.mod_eq (95 - n mod 64)), <- (Nat.div_unique _ 64 1 (31 - n mod 64)); lia. }
  rewrite E, (app_assoc (replicate _ _) (replicate _ _)), <- replicate_add.
  now replace (31 - n mod 64 + 24)%nat with (56 - S (n mod 64))%nat by lia.
Qed.

Lemma pad_two x n : in_word 64 x -> (32 <= n mod 64)%nat ->
  pad x n = ([0x80] ++ replicate (64 - S (n mod 64)) 0) ++ replicate 56 0 ++ be_split 8 x.
Proof.
  intros Hx Hn. unfold pad.
  rewrite (be_split_wide 24 x Hx : be_split 32 x = _).
  pose proof (Nat.mod_upper_bound n 64 ltac:(lia)).
  rewrite <- (app_assoc [0x80]), !(app_assoc (replicate _ _) (replicate _ _)), <- !replicate_add.
  rewrite (Nat.mod_small (95 - n mod 64)) by lia.
  now replace (95 - n mod 64 + 24)%nat with (64 - S (n mod 64) + 56)%nat by lia.
Qed.

(** The state is that of the cipher, block by block. *)
Lemma absorb_row_ok m h H : bytes m -> row_ok h H ->
  row_ok (absorb_wp h m) (absorb 64 (fun H b => compress H (rows b)) H m).
Proof.
  revert h H. induction m as [m Hm|b m Hb IH] using (blocks_ind 64 ltac:(lia));
    intros h H Hbm Hh.
  - now rewrite !absorb_short.
  - apply Forall_app in Hbm as [Hbb Hbm]. rewrite !absorb_block by (lia || done).
    apply IH; [done|]. now apply process_block_spec.
Qed.

Lemma row_ok_init : row_ok (replicate 8 0) (replicate 8 (replicate 8 0)).
Proof. split; [|split]; [by_eval|done|by_eval]. Qed.

Lemma bytes_pad x n : bytes (pad x n).
Proof.
  unfold pad. repeat apply Forall_app_2; auto with words; [by_eval|].
  apply Forall_replicate. by_eval.
Qed.

(** The code of [rhash_whirlpool_final] hashes the padded message. *)
Lemma final_hash buf m L : holds 64 buf m -> in_word 64 L ->
  let r := (length m mod 64)%nat in
  let h := absorb_wp (replicate 8 0) m in
  let msg := mem_write buf r [0x80] in
  let '(h, msg, index) :=
    if (32 <? S r)%nat then
      let msg := mem_write msg (S r) (replicate (64 - S r) 0) in
      (rhash_whirlpool_process_block h msg, msg, 0%nat)
    else (h, msg, S r) in
  let msg := mem_write msg index (replicate (56 - index) 0) in
  let msg := mem_write msg 56 (be_split 8 L) in
  rhash_whirlpool_process_block h msg = absorb_wp (replicate 8 0) (m ++ pad L (length m)).
Proof.
  intros Hb HL r h. pose proof (rem_lt 64 ltac:(lia) m) as Hr. fold r in Hr.
  pose proof (proj1 Hb) as Hl.
  assert (Hlb : length (be_split 8 L) = 8%nat) by apply length_be_split.
  assert (HW : forall k, (S r + k <= 64)%nat ->
    mem_write (mem_write buf r [0x80]) (S r) (replicate k 0) =
    mem_write buf r ([0x80] ++ replicate k 0)).
  { intros k Hk. rewrite <- mem_write_app by (rewrite length_replicate; simpl; lia).
    now rewrite Nat.add_1_r. }
  cbv zeta. destruct (Nat.ltb_spec 32 (S r)) as [Hc|Hc]; cbv iota; rewrite HW by lia.
  - rewrite pad_two by (fold r; lia || done). fold r.
    set (p1 := [0x80] ++ replicate (64 - S r) 0).
    assert (Hp1 : (r + length p1 = 64)%nat)
      by (unfold p1; rewrite length_app, length_replicate; simpl; lia).
    destruct (holds_fill 64 rhash_whirlpool_process_block ltac:(lia) buf m p1 Hb Hp1)
      as (E1 & Ha & _). fold r in E1. rewrite E1, Ha. fold h.
    assert (HB : length (tail 64 m ++ p1) = 64%nat)
      by (rewrite length_app, length_tail by lia; fold r; lia).
    rewrite (mem_write_app (tail 64 m ++ p1) 0 (replicate 56 0))
      by (rewrite HB, length_replicate; lia).
    rewrite mem_write_full by (rewrite HB, ?length_app, ?length_replicate; lia).
    rewrite <- (app_nil_r (replicate 56 0 ++ _)), absorb_block;
      [|lia|rewrite length_app, length_replicate; lia].
    now rewrite absorb_short, app_nil_r by (simpl; lia).
  - rewrite pad_one by (fold r; lia || done). fold r.
    rewrite (app_assoc [0x80]). set (p1 := [0x80] ++ replicate (56 - S r) 0).
    assert (Hp1 : (r + length p1 = 56)%nat)
      by (unfold p1; rewrite length_app, length_replicate; simpl; lia).
    pose proof (mem_write_app buf r p1 (be_split 8 L)) as EW. rewrite Hp1 in EW.
    rewrite EW by lia.
    destruct (holds_fill 64 rhash_whirlpool_process_block ltac:(lia) buf m
      (p1 ++ be_split 8 L) Hb) as (E1 & Ha & _); [rewrite length_app; fold r; lia|].
    fold r in E1. rewrite E1, <- (app_nil_r (p1 ++ _)), Ha, app_nil_r.
    now rewrite (absorb_short _ _ _ []) by (simpl; lia).
Qed.

Lemma final_spec ctx ctx_addr result result_addr m :
  wp_repr ctx m -> (64 <= length result)%nat ->
  (rhash_whirlpool_final ctx ctx_addr result result_addr).2 =
  mem_write result 0 (digest_of m (pad (u64 (8 * Z.of_nat (length m))) (length m))).
Proof.
  intros (Hm & Hh & Hb & Hlen) Hr. unfold rhash_whirlpool_final.
  rewrite Hlen, index_mod, Hh.
  replace (u64 (u64 (Z.of_nat (length m)) << 3)) with (u64 (8 * Z.of_nat (length m))).
  2:{ rewrite (Z.mul_comm 8). change 8 with (2 ^ 3) at 1. rewrite <- Z.shiftl_mul_pow2 by lia.
      bitwise. }
  set (L := u64 (8 * Z.of_nat (length m))).
  rewrite le_split_bswap64. change (rev (le_split 8 L)) with (be_split 8 L).
  pose proof (final_hash _ m L Hb (in_word_u64 _)) as E. cbv zeta in E |- *.
  destruct (if (32 <? _)%nat then _ else _) as [[h msg] index]. cbn [snd]. rewrite E.
  destruct (absorb_row_ok (m ++ pad L (length m)) _ _
    ltac:(apply Forall_app_2; [done|apply bytes_pad]) row_ok_init) as (Hw & Hlh & Hd).
  unfold digest_of. rewrite <- Hd. unfold matrix. rewrite <- swap_groups_words, Hlh.
  apply (str_to_u64_spec result result_addr 0 (words_to_bytes (absorb_wp (replicate 8 0)
    (m ++ pad L (length m)))) ctx_addr 8 (bytes_words_to_bytes _));
    rewrite ?length_words_to_bytes; lia.
Qed.

Lemma length_digest_of m p : bytes m -> bytes p -> length (digest_of m p) = 64%nat.
Proof.
  intros Hm Hp.
  destruct (absorb_row_ok (m ++ p) _ _ ltac:(now apply Forall_app_2) row_ok_init)
    as (_ & Hlh & Hd).
  unfold digest_of. rewrite <- Hd. unfold matrix. rewrite <- swap_groups_words, length_swap_groups;
    [now rewrite Hlh|]. rewrite length_words_to_bytes. lia.
Qed.

Lemma bytes_digest_of m p : bytes m -> bytes p -> bytes (digest_of m p).
Proof.
  intros Hm Hp.
  destruct (absorb_row_ok (m ++ p) _ _ ltac:(now apply Forall_app_2) row_ok_init) as (_ & _ & Hd).
  unfold digest_of. rewrite <- Hd. unfold matrix. clear Hd.
  induction (absorb_wp (replicate 8 0) (m ++ p)) as [|x ws IH]; [constructor|].
  change (mjoin (be_split 8 <$> x :: ws)) with (be_split 8 x ++ mjoin (be_split 8 <$> ws)).
  apply Forall_app_2; [apply bytes_be_split|exact IH].
Qed.

#[export] Instance whirlpool_hash : StreamHash whirlpool_ctx := {
  sh_init := rhash_whirlpool_init;
  sh_update := rhash_whirlpool_update;
  sh_close ctx := (rhash_whirlpool_final ctx 0 (replicate 64 0) 0).2;
}.

Lemma wp_repr_init ctx : length (message ctx) = 64%nat -> wp_repr (rhash_whirlpool_init ctx) [].
Proof.
  intros H. split; [apply Forall_nil_2|]. split; [done|]. split; [|done].
  split; [done|]. now rewrite tail_short by (simpl; lia).
Qed.

#[export] Program Instance whirlpool_hash_spec : StreamHashSpec whirlpool_ctx := {
  sh_raw ctx := length (message ctx) = 64%nat;
  sh_repr := wp_repr;
  sh_digest m := digest_of m (pad (u64 (8 * Z.of_nat (length m))) (length m));
}.
Next Obligation. intros ctx H. now apply wp_repr_init. Qed.
Next Obligation. intros. now apply wp_repr_update. Qed.
Next Obligation.
  intros ctx m H. cbn [sh_close whirlpool_hash]. rewrite (final_spec _ _ _ _ m) by done.
  rewrite mem_write_full by (rewrite ?length_digest_of; simpl; auto using bytes_pad; try apply H; lia).
  done.
Qed.

(** ** Properties *)

(** The table-driven block function computes the cipher W of the Whirlpool standard
    (S-box, diffusion layer over GF(2^8) and key schedule) in Miyaguchi-Preneel mode. *)
Theorem process_block_compress h b :
  words 64 h -> length h = 8%nat -> bytes b -> length b = 64%nat ->
  matrix (rhash_whirlpool_process_block h b) = compress (matrix h) (rows b).
Proof. intros Hw Hl Hb Hlb. now apply process_block_spec. Qed.

Lemma process_block_compress_witness :
  matrix (rhash_whirlpool_process_block (replicate 8 5) (replicate 64 7)) =
  compress (matrix (replicate 8 5)) (rows (replicate 64 7)).
Proof. apply process_block_compress; [by_eval|done|by_eval|done]. Defined.

(** C19. However a message of less than 2^61 bytes is cut into pieces, and wherever they
    and the result lie in memory, init, updates and final write to the result buffer the
    Whirlpool digest of the whole message, with the padding of the standard. *)
Theorem whirlpool_streaming ctx pieces ctx_addr result result_addr :
  length (message ctx) = 64%nat -> Forall (fun p => bytes p.2) pieces ->
  Z.of_nat (length (mjoin (snd <$> pieces))) < 2 ^ 61 -> (64 <= length result)%nat ->
  (rhash_whirlpool_final (sh_feed (rhash_whirlpool_init ctx) pieces) ctx_addr
    result result_addr).2 =
  mem_write result 0 (whirlpool_digest (mjoin (snd <$> pieces))).
Proof.
  intros Hc Hp Hlen Hr. set (m := mjoin (snd <$> pieces)) in *.
  assert (Hrepr : wp_repr (sh_feed (rhash_whirlpool_init ctx) pieces) m)
    by (apply (@sh_repr_feed _ _ whirlpool_hash_spec _ [] pieces Hp); now apply wp_repr_init).
  rewrite (final_spec _ _ _ _ m) by done. unfold whirlpool_digest.
  now rewrite u64_small by (unfold in_word; lia).
Qed.

Lemma whirlpool_streaming_witness :
  (rhash_whirlpool_final (sh_feed (rhash_whirlpool_init
      (mk_ctx (replicate 8 1) (replicate 64 1) 1)) [(1, [0x61]); (2, [0x62; 0x63])])
    0 (replicate 64 0) 1).2 =
  mem_write (replicate 64 0) 0 (whirlpool_digest [0x61; 0x62; 0x63]).
Proof.
  apply (whirlpool_streaming (mk_ctx (replicate 8 1) (replicate 64 1) 1)
    [(1, [0x61]); (2, [0x62; 0x63])]); [done|by_eval|simpl; lia|done].
Defined.

(** The published test vector for the message "abc". *)
Example whirlpool_abc : be_combine (whirlpool_digest [0x61; 0x62; 0x63]) =
  0x4E2448A4C6F486BB16B6562C73B4020BF3043E3A731BCE721AE1B303D97E6D4C7181EEBDB6C57E277D0E34957114CBD6C797FC9D95D8B582D225292076D4EEF5.
Proof. vm_compute. reflexivity. Qed.
