(* ===== verification/StreebogTables.v ===== *)
(** * Streebog: the tables of src/crypto/hashing/streebog

    [T[8][256]] and [C[12][64]] of table/stribog_data.h, one definition per row of [T];
    [A], [Sbox], [Tau] and [C] of standard/stribog_data.h. *)

From Stdlib Require Import ZArith List.
Import ListNotations.
#[local] Open Scope Z_scope.
#[local] Open Scope list_scope.

Definition T0 : list Z := [
  0xE6F87E5C5B711FD0; 0x258377800924FA16; 0xC849E07E852EA4A8; 0x5B4686A18F06C16A;
  0x0B32E9A2D77B416E; 0xABDA37A467815C66; 0xF61796A81A686676; 0xF5DC0B706391954B;
  0x4862F38DB7E64BF1; 0xFF5C629A68BD85C5; 0xCB827DA6FCD75795; 0x66D36DAF69B9F089;
  0x356C9F74483D83B0; 0x7CBCECB1238C99A1; 0x36A702AC31C4708D; 0x9EB6A8D02FBCDFD6;
  0x8B19FA51E5B3AE37; 0x9CCFB5408A127D0B; 0xBC0C78B508208F5A; 0xE533E3842288ECED;
  0xCEC2C7D377C15FD2; 0xEC7817B6505D0F5E; 0xB94CC2C08336871D; 0x8C205DB4CB0B04AD;
  0x763C855B28A0892F; 0x588D1B79F6FF3257; 0x3FECF69E4311933E; 0x0FC0D39F803A18C9;
  0xEE010A26F5F3AD83; 0x10EFE8F4411979A6; 0x5DCDA10C7DE93A10; 0x4A1BEE1D1248E92C;
  0x53BFF2DB21847339; 0xB4F50CCFA6A23D09; 0x5FB4BC9CD84798CD; 0xE88A2D8B071C56F9;
  0x7F7771695A756A9C; 0xC5F02E71A0BA1EBC; 0xA663F9AB4215E672; 0x2EB19E22DE5FBB78;
  0x0DB9CE0F2594BA14; 0x82520E6397664D84; 0x2F031E6A0208EA98; 0x5C7F2144A1BE6BF0;
  0x7A37CB1CD16362DB; 0x83E08E2B4B311C64; 0xCF70479BAB960E32; 0x856BA986B9DEE71E;
  0xB5478C877AF56CE9; 0xB8FE42885F61D6FD; 0x1BDD0156966238C8; 0x622157923EF8A92E;
  0xFC97FF42114476F8; 0x9D7D350856452CEB; 0x4C90C9B0E0A71256; 0x2308502DFBCB016C;
  0x2D7A03FAA7A64845; 0xF46E8B38BFC6C4AB; 0xBDBEF8FDD477DEBA; 0x3AAC4CEBC8079B79;
  0xF09CB105E8879D0C; 0x27FA6A10AC8A58CB; 0x8960E7C1401D0CEA; 0x1A6F811E4A356928;
  0x90C4FB0773D196FF; 0x43501A2F609D0A9F; 0xF7A516E0C63F3796; 0x1CE4A6B3B8DA9252;
  0x1324752C38E08A9B; 0xA5A864733BEC154F; 0x2BF124575549B33F; 0xD766DB15440DC5C7;
  0xA7D179E39E42B792; 0xDADF151A61997FD3; 0x86A0345EC0271423; 0x38D5517B6DA939A4;
  0x6518F077104003B4; 0x02791D90A5AEA2DD; 0x88D267899C4A5D0A; 0x930F66DF0A2865C2;
  0x4EE9D4204509B08B; 0x325538916685292A; 0x412907BFC533A842; 0xB27E2B62544DC673;
  0x6C5304456295E007; 0x5AF406E95351908A; 0x1F2F3B6BC123616F; 0xC37B09DC5255E5C6;
  0x3967D133B1FE6844; 0x298839C7F0E711E2; 0x409B87F71964F9A2; 0xE938ADC3DB4B0719;
  0x0C0B4E47F9C3EBF4; 0x5534D576D36B8843; 0x4610A05AEB8B02D8; 0x20C3CDF58232F251;
  0x6DE1840DBEC2B1E7; 0xA0E8DE06B0FA1D08; 0x7B854B540D34333B; 0x42E29A67BCCA5B7F;
  0xD8A6088AC437DD0E; 0xC63BB3A9D943ED81; 0x21714DBD5E65A3B1; 0x6761EDE7B5EEA169;
  0x2431F7C8D573ABF6; 0xD51FC685E1A3671A; 0x5E063CD40410C92D; 0x283AB98F2CB04002;
  0x8FEBC06CB2F2F790; 0x17D64F116FA1D33C; 0xE07359F1A99EE4AA; 0x784ED68C74CDC006;
  0x6E2A19D5C73B42DA; 0x8712B4161C7045C3; 0x371582E4ED93216D; 0xACE390414939F6FC;
  0x7EC5F12186223B7C; 0xC0B094042BAC16FB; 0xF9D745379A527EBF; 0x737C3F2EA3B68168;
  0x33E7B8D9BAD278CA; 0xA9A32A34C22FFEBB; 0xE48163CCFEDFBD0D; 0x8E5940246EA5A670;
  0x51C6EF4B842AD1E4; 0x22BAD065279C508C; 0xD91488C218608CEE; 0x319EA5491F7CDA17;
  0xD394E128134C9C60; 0x094BF43272D5E3B3; 0x9BF612A5A4AAD791; 0xCCBBDA43D26FFD0F;
  0x34DE1F3C946AD250; 0x4F5B5468995EE16B; 0xDF9FAF6FEA8F7794; 0x2648EA5870DD092B;
  0xBFC7E56D71D97C67; 0xDDE6B2FF4F21D549; 0x3C276B463AE86003; 0x91767B4FAF86C71F;
  0x68A13E7835D4B9A0; 0xB68C115F030C9FD4; 0x141DD2C916582001; 0x983D8F7DDD5324AC;
  0x64AA703FCC175254; 0xC2C989948E02B426; 0x3E5E76D69F46C2DE; 0x50746F03587D8004;
  0x45DB3D829272F1E5; 0x60584A029B560BF3; 0xFBAE58A73FFCDC62; 0xA15A5E4E6CAD4CE8;
  0x4BA96E55CE1FB8CC; 0x08F9747AAE82B253; 0xC102144CF7FB471B; 0x9F042898F3EB8E36;
  0x068B27ADF2EFFB7A; 0xEDCA97FE8C0A5EBE; 0x778E0513F4F7D8CF; 0x302C2501C32B8BF7;
  0x8D92DDFC175C554D; 0xF865C57F46052F5F; 0xEAF3301BA2B2F424; 0xAA68B7ECBBD60D86;
  0x998F0F350104754C; 0x0000000000000000; 0xF12E314D34D0CCEC; 0x710522BE061823B5;
  0xAF280D9930C005C1; 0x97FD5CE25D693C65; 0x19A41CC633CC9A15; 0x95844172F8C79EB8;
  0xDC5432B7937684A9; 0x9436C13A2490CF58; 0x802B13F332C8EF59; 0xC442AE397CED4F5C;
  0xFA1CD8EFE3AB8D82; 0xF2E5AC954D293FD1; 0x6AD823E8907A1B7D; 0x4D2249F83CF043B6;
  0x03CB9DD879F9F33D; 0xDE2D2F2736D82674; 0x2A43A41F891EE2DF; 0x6F98999D1B6C133A;
  0xD4AD46CD3DF436FA; 0xBB35DF50269825C0; 0x964FDCAA813E6D85; 0xEB41B0537EE5A5C4;
  0x0540BA758B160847; 0xA41AE43BE7BB44AF; 0xE3B8C429D0671797; 0x819993BBEE9FBEB9;
  0xAE9A8DD1EC975421; 0xF3572CDD917E6E31; 0x6393D7DAE2AFF8CE; 0x47A2201237DC5338;
  0xA32343DEC903EE35; 0x79FC56C4A89A91E6; 0x01B28048DC5751E0; 0x1296F564E4B7DB7B;
  0x75F7188351597A12; 0xDB6D9552BDCE2E33; 0x1E9DBB231D74308F; 0x520D7293FDD322D9;
  0xE20A44610C304677; 0xFEEEE2D2B4EAD425; 0xCA30FDEE20800675; 0x61EACA4A47015A13;
  0xE74AFE1487264E30; 0x2CC883B27BF119A5; 0x1664CF59B3F682DC; 0xA811AA7C1E78AF5B;
  0x1D5626FB648DC3B2; 0xB73E9117DF5BCE34; 0xD05F7CF06AB56F5D; 0xFD257F0ACD132718;
  0x574DC8E676C52A9E; 0x0739A7E52EB8AA9A; 0x5486553E0F3CD9A3; 0x56FF48AEAA927B7E;
  0xBE756525AD8E2D87; 0x7D0E6CF9FFDBC841; 0x3B1ECCA31450CA99; 0x6913BE30E983E840;
  0xAD511009956EA71C; 0xB1B5B6BA2DB4354E; 0x4469BDCA4E25A005; 0x15AF5281CA0F71E1;
  0x744598CB8D0E2BF2; 0x593F9B312AA863B7; 0xEFB38A6E29A4FC63; 0x6B6AA3A04C2D4A9D;
  0x3D95EB0EE6BF31E3; 0xA291C3961554BFD5; 0x18169C8EEF9BCBF5; 0x115D68BC9D4E2846;
  0xBA875F18FACF7420; 0xD1EDFCB8B6E23EBD; 0xB00736F2F1E364AE; 0x84D929CE6589B6FE;
  0x70B7A2F6DA4F7255; 0x0E7253D75C6D4929; 0x04F23A3D574159A7; 0x0A8069EA0B2C108E;
  0x49D073C56BB11A11; 0x8AAB7A1939E4FFD7; 0xCD095A0B0E38ACEF; 0xC9FB60365979F548;
  0x92BDE697D67F3422; 0xC78933E10514BC61; 0xE1C1D9B975C9B54A; 0xD2266160CF1BCD80;
  0x9A4492ED78FD8671; 0xB3CCAB2A881A9793; 0x72CEBF667FE1D088; 0xD6D45B5D985A9427].

Definition T1 : list Z := [
  0xC811A8058C3F55DE; 0x65F5B43196B50619; 0xF74F96B1D6706E43; 0x859D1E8BCB43D336;
  0x5AAB8A85CCFA3D84; 0xF9C7BF99C295FCFD; 0xA21FD5A1DE4B630F; 0xCDB3EF763B8B456D;
  0x803F59F87CF7C385; 0xB27C73BE5F31913C; 0x98E3AC6633B04821; 0xBF61674C26B8F818;
  0x0FFBC995C4C130C8; 0xAAA0862010761A98; 0x6057F342210116AA; 0xF63C760C0654CC35;
  0x2DDB45CC667D9042; 0xBCF45A964BD40382; 0x68E8A0C3EF3C6F3D; 0xA7BD92D269FF73BC;
  0x290AE20201ED2287; 0xB7DE34CDE885818F; 0xD901EEA7DD61059B; 0xD6FA273219A03553;
  0xD56F1AE874CCCEC9; 0xEA31245C2E83F554; 0x7034555DA07BE499; 0xCE26D2AC56E7BEF7;
  0xFD161857A5054E38; 0x6A0E7DA4527436D1; 0x5BD86A381CDE9FF2; 0xCAF7756231770C32;
  0xB09AAED9E279C8D0; 0x5DEF1091C60674DB; 0x111046A2515E5045; 0x23536CE4729802FC;
  0xC50CBCF7F5B63CFA; 0x73A16887CD171F03; 0x7D2941AFD9F28DBD; 0x3F5E3EB45A4F3B9D;
  0x84EEFE361B677140; 0x3DB8E3D3E7076271; 0x1A3A28F9F20FD248; 0x7EBC7C75B49E7627;
  0x74E5F293C7EB565C; 0x18DCF59E4F478BA4; 0x0C6EF44FA9ADCB52; 0xC699812D98DAC760;
  0x788B06DC6E469D0E; 0xFC65F8EA7521EC4E; 0x30A5F7219E8E0B55; 0x2BEC3F65BCA57B6B;
  0xDDD04969BAF1B75E; 0x99904CDBE394EA57; 0x14B201D1E6EA40F6; 0xBBB0C08241284ADD;
  0x50F20463BF8F1DFF; 0xE8D7F93B93CBACB8; 0x4D8CB68E477C86E8; 0xC1DD1B3992268E3F;
  0x7C5AA11209D62FCB; 0x2F3D98ABDB35C9AE; 0x671369562BFD5FF5; 0x15C1E16C36CEE280;
  0x1D7EB2EDF8F39B17; 0xDA94D37DB00DFE01; 0x877BC3EC760B8ADA; 0xCB8495DFE153AE44;
  0x05A24773B7B410B3; 0x12857B783C32ABDF; 0x8EB770D06812513B; 0x536739B9D2E3E665;
  0x584D57E271B26468; 0xD789C78FC9849725; 0xA935BBFA7D1AE102; 0x8B1537A3DFA64188;
  0xD0CD5D9BC378DE7A; 0x4AC82C9A4D80CFB7; 0x42777F1B83BDB620; 0x72D2883A1D33BD75;
  0x5E7A2D4BAB6A8F41; 0xF4DAAB6BBB1C95D9; 0x905CFFE7FD8D31B6; 0x83AA6422119B381F;
  0xC0AEFB8442022C49; 0xA0F908C663033AE3; 0xA428AF0804938826; 0xADE41C341A8A53C7;
  0xAE7121EE77E6A85D; 0xC47F5C4A25929E8C; 0xB538E9AA55CDD863; 0x06377AA9DAD8EB29;
  0xA18AE87BB3279895; 0x6EDFDA6A35E48414; 0x6B7D9D19825094A7; 0xD41CFA55A4E86CBF;
  0xE5CAEDC9EA42C59C; 0xA36C351C0E6FC179; 0x5181E4DE6FABBF89; 0xFFF0C530184D17D4;
  0x9D41EB1584045892; 0x1C0D525028D73961; 0xF178EC180CA8856A; 0x9A0571018EF811CD;
  0x4091A27C3EF5EFCC; 0x19AF15239F6329D2; 0x347450EFF91EB990; 0xE11B4A078DD27759;
  0xB9561DE5FC601331; 0x912F1F5A2DA993C0; 0x1654DCB65BA2191A; 0x3E2DDE098A6B99EB;
  0x8A66D71E0F82E3FE; 0x8C51ADB7D55A08D7; 0x4533E50F8941FF7F; 0x02E6DD67BD4859EC;
  0xE068AABA5DF6D52F; 0xC24826E3FF4A75A5; 0x6C39070D88ACDDF8; 0x6486548C4691A46F;
  0xD1BEBD26135C7C0C; 0xB30F93038F15334A; 0x82D9849FC1BF9A69; 0x9C320BA85420FAE4;
  0xFA528243AFF90767; 0x9ED4D6CFE968A308; 0xB825FD582C44B147; 0x9B7691BC5EDCB3BB;
  0xC7EA619048FE6516; 0x1063A61F817AF233; 0x47D538683409A693; 0x63C2CE984C6DED30;
  0x2A9FDFD86C81D91D; 0x7B1E3B06032A6694; 0x666089EBFBD9FD83; 0x0A598EE67375207B;
  0x07449A140AFC495F; 0x2CA8A571B6593234; 0x1F986F8A45BBC2FB; 0x381AA4A050B372C2;
  0x5423A3ADD81FAF3A; 0x17273C0B8B86BB6C; 0xFE83258DC869B5A2; 0x287902BFD1C980F1;
  0xF5A94BD66B3837AF; 0x88800A79B2CABA12; 0x55504310083B0D4C; 0xDF36940E07B9EEB2;
  0x04D1A7CE6790B2C5; 0x612413FFF125B4DC; 0x26F12B97C52C124F; 0x86082351A62F28AC;
  0xEF93632F9937E5E7; 0x3507B052293A1BE6; 0xE72C30AE570A9C70; 0xD3586041AE1425E0;
  0xDE4574B3D79D4CC4; 0x92BA228040C5685A; 0xF00B0CA5DC8C271C; 0xBE1287F1F69C5A6E;
  0xF39E317FB1E0DC86; 0x495D114020EC342D; 0x699B407E3F18CD4B; 0xDCA3A9D46AD51528;
  0x0D1D14F279896924; 0x0000000000000000; 0x593EB75FA196C61E; 0x2E4E78160B116BD8;
  0x6D4AE7B058887F8E; 0xE65FD013872E3E06; 0x7A6DDBBBD30EC4E2; 0xAC97FC89CAAEF1B1;
  0x09CCB33C1E19DBE1; 0x89F3EAC462EE1864; 0x7770CF49AA87ADC6; 0x56C57ECA6557F6D6;
  0x03953DDA6D6CFB9A; 0x36928D884456E07C; 0x1EEB8F37959F608D; 0x31D6179C4EAAA923;
  0x6FAC3AD7E5C02662; 0x43049FA653991456; 0xABD3669DC052B8EE; 0xAF02C153A7C20A2B;
  0x3CCB036E3723C007; 0x93C9C23D90E1CA2C; 0xC33BC65E2F6ED7D3; 0x4CFF56339758249E;
  0xB1E94E64325D6AA6; 0x37E16D359472420A; 0x79F8E661BE623F78; 0x5214D90402C74413;
  0x482EF1FDF0C8965B; 0x13F69BC5EC1609A9; 0x0E88292814E592BE; 0x4E198B542A107D72;
  0xCCC00FCBEBAFE71B; 0x1B49C844222B703E; 0x2564164DA840E9D5; 0x20C6513E1FF4F966;
  0xBAC3203F910CE8AB; 0xF2EDD1C261C47EF0; 0x814CB945ACD361F3; 0x95FEB8944A392105;
  0x5C9CF02C1622D6AD; 0x971865F3F77178E9; 0xBD87BA2B9BF0A1F4; 0x444005B259655D09;
  0xED75BE48247FBC0B; 0x7596122E17CFF42A; 0xB44B091785E97A15; 0x966B854E2755DA9F;
  0xEEE0839249134791; 0x32432A4623C652B9; 0xA8465B47AD3E4374; 0xF8B45F2412B15E8B;
  0x2417F6F078644BA3; 0xFB2162FE7FDDA511; 0x4BBBCC279DA46DC1; 0x0173E0BDD024A276;
  0x22208C59A2BCA08A; 0x8FC4906DB836F34D; 0xE4B90D743A6667EA; 0x7147B5E0705F46EF;
  0x2782CB2A1508B039; 0xEC065EF5F45B1E7D; 0x21B5B183CFD05B10; 0xDBE733C060295C77;
  0x9FA73672394C017E; 0xCF55321186C31C81; 0xD8720E1A0D45A7ED; 0x3B8F997A3DDF8958;
  0x3AFC79C7EDFB2B2E; 0xE9A4198643EF0ECE; 0x5F09CDF67B4E2D37; 0x4F6A6BE9FA34DF04;
  0xB6ADD47038A123F9; 0x8D224D0A057EAAA1; 0xC96248B85C1BF7A8; 0xE3FD9760309A2EB5;
  0x0B2A6E5BA351820D; 0xEB42C4E1FEA75722; 0x948D58299A1D8373; 0x7FCF9CC864BAD451;
  0xA55B4FB5D4B72A50; 0x08BF5381CE3D7997; 0x46A6D8D5E42D04E5; 0xD22B80FC7E308796;
  0x57B69E77B57354A0; 0x3969441D8097D0B4; 0x3330CAFBF3E2F0CF; 0xE28E77DDE0BE8CC3;
  0x62B12E259C494F46; 0xA6CE726FB9DBD1CA; 0x41E242C1EED14DBA; 0x76032FF47AA30FB0].

Definition T2 : list Z := [
  0x45B268A93ACDE4CC; 0xAF7F0BE884549D08; 0x048354B3C1468263; 0x925435C2C80EFED2;
  0xEE4E37F27FDFFBA7; 0x167A33920C60F14D; 0xFB123B52EA03E584; 0x4A0CAB53FDBB9007;
  0x9DEAF6380F788A19; 0xCB48EC558F0CB32A; 0xB59DC4B2D6FEF7E0; 0xDCDBCA22F4F3ECB6;
  0x11DF5813549A9C40; 0xE33FDEDF568ACED3; 0xA0C1C8124322E9C3; 0x07A56B8158FA6D0D;
  0x77279579B1E1F3DD; 0xD9B18B74422AC004; 0xB8EC2D9FFFABC294; 0xF4ACF8A82D75914F;
  0x7BBF69B1EF2B6878; 0xC4F62FAF487AC7E1; 0x76CE809CC67E5D0C; 0x6711D88F92E4C14C;
  0x627B99D9243DEDFE; 0x234AA5C3DFB68B51; 0x909B1F15262DBF6D; 0x4F66EA054B62BCB5;
  0x1AE2CF5A52AA6AE8; 0xBEA053FBD0CE0148; 0xED6808C0E66314C9; 0x43FE16CD15A82710;
  0xCD049231A06970F6; 0xE7BC8A6C97CC4CB0; 0x337CE835FCB3B9C0; 0x65DEF2587CC780F3;
  0x52214EDE4132BB50; 0x95F15E4390F493DF; 0x870839625DD2E0F1; 0x41313C1AFB8B66AF;
  0x91720AF051B211BC; 0x477D427ED4EEA573; 0x2E3B4CEEF6E3BE25; 0x82627834EB0BCC43;
  0x9C03E3DD78E724C8; 0x2877328AD9867DF9; 0x14B51945E243B0F2; 0x574B0F88F7EB97E2;
  0x88B6FA989AA4943A; 0x19C4F068CB168586; 0x50EE6409AF11FAEF; 0x7DF317D5C04EABA4;
  0x7A567C5498B4C6A9; 0xB6BBFB804F42188E; 0x3CC22BCF3BC5CD0B; 0xD04336EAAA397713;
  0xF02FAC1BEC33132C; 0x2506DBA7F0D3488D; 0xD7E65D6BF2C31A1E; 0x5EB9B2161FF820F5;
  0x842E0650C46E0F9F; 0x716BEB1D9E843001; 0xA933758CAB315ED4; 0x3FE414FDA2792265;
  0x27C9F1701EF00932; 0x73A4C1CA70A771BE; 0x94184BA6E76B3D0E; 0x40D829FF8C14C87E;
  0x0FBEC3FAC77674CB; 0x3616A9634A6A9572; 0x8F139119C25EF937; 0xF545ED4D5AEA3F9E;
  0xE802499650BA387B; 0x6437E7BD0B582E22; 0xE6559F89E053E261; 0x80AD52E305288DFC;
  0x6DC55A23E34B9935; 0xDE14E0F51AD0AD09; 0xC6390578A659865E; 0x96D7617109487CB1;
  0xE2D6CB3A21156002; 0x01E915E5779FAED1; 0xADB0213F6A77DCB7; 0x9880B76EB9A1A6AB;
  0x5D9F8D248644CF9B; 0xFD5E4536C5662658; 0xF1C6B9FE9BACBDFD; 0xEACD6341BE9979C4;
  0xEFA7221708405576; 0x510771ECD88E543E; 0xC2BA51CB671F043D; 0x0AD482AC71AF5879;
  0xFE787A045CDAC936; 0xB238AF338E049AED; 0xBD866CC94972EE26; 0x615DA6EBBD810290;
  0x3295FDD08B2C1711; 0xF834046073BF0AEA; 0xF3099329758FFC42; 0x1CAEB13E7DCFA934;
  0xBA2307481188832B; 0x24EFCE42874CE65C; 0x0E57D61FB0E9DA1A; 0xB3D1BAD6F99B343C;
  0xC0757B1C893C4582; 0x2B510DB8403A9297; 0x5C7698C1F1DB614A; 0x3E0D0118D5E68CB4;
  0xD60F488E855CB4CF; 0xAE961E0DF3CB33D9; 0x3A8E55AB14A00ED7; 0x42170328623789C1;
  0x838B6DD19C946292; 0x895FEF7DED3B3AEB; 0xCFCBB8E64E4A3149; 0x064C7E642F65C3DC;
  0x3D2B3E2A4C5A63DA; 0x5BD3F340A9210C47; 0xB474D157A1615931; 0xAC5934DA1DE87266;
  0x6EE365117AF7765B; 0xC86ED36716B05C44; 0x9BA6885C201D49C5; 0xB905387A88346C45;
  0x131072C4BAB9DDFF; 0xBF49461EA751AF99; 0xD52977BC1CE05BA1; 0xB0F785E46027DB52;
  0x546D30BA6E57788C; 0x305AD707650F56AE; 0xC987C682612FF295; 0xA5AB8944F5FBC571;
  0x7ED528E759F244CA; 0x8DDCBBCE2C7DB888; 0xAA154ABE328DB1BA; 0x1E619BE993ECE88B;
  0x09F2BD9EE813B717; 0x7401AA4B285D1CB3; 0x21858F143195CAEE; 0x48C381841398D1B8;
  0xFCB750D3B2F98889; 0x39A86A998D1CE1B9; 0x1F888E0CE473465A; 0x7899568376978716;
  0x02CF2AD7EE2341BF; 0x85C713B5B3F1A14E; 0xFF916FE12B4567E7; 0x7C1A0230B7D10575;
  0x0C98FCC85ECA9BA5; 0xA3E7F720DA9E06AD; 0x6A6031A2BBB1F438; 0x973E74947ED7D260;
  0x2CF4663918C0FF9A; 0x5F50A7F368678E24; 0x34D983B4A449D4CD; 0x68AF1B755592B587;
  0x7F3C3D022E6DEA1B; 0xABFC5F5B45121F6B; 0x0D71E92D29553574; 0xDFFDF5106D4F03D8;
  0x081BA87B9F8C19C6; 0xDB7EA1A3AC0981BB; 0xBBCA12AD66172DFA; 0x79704366010829C7;
  0x179326777BFF5F9C; 0x0000000000000000; 0xEB2476A4C906D715; 0x724DD42F0738DF6F;
  0xB752EE6538DDB65F; 0x37FFBC863DF53BA3; 0x8EFA84FCB5C157E6; 0xE9EB5C73272596AA;
  0x1B0BDABF2535C439; 0x86E12C872A4D4E20; 0x9969A28BCE3E087A; 0xFAFB2EB79D9C4B55;
  0x056A4156B6D92CB2; 0x5A3AE6A5DEBEA296; 0x22A3B026A8292580; 0x53C85B3B36AD1581;
  0xB11E900117B87583; 0xC51F3A4A3FE56930; 0xE019E1EDCF3621BD; 0xEC811D2591FCBA18;
  0x445B7D4C4D524A1D; 0xA8DA6069DCAEF005; 0x58F5CC72309DE329; 0xD4C062596B7FF570;
  0xCE22AD0339D59F98; 0x591CD99747024DF8; 0x8B90C5AA03187B54; 0xF663D27FC356D0F0;
  0xD8589E9135B56ED5; 0x35309651D3D67A1C; 0x12F96721CD26732E; 0xD28C1C3D441A36AC;
  0x492A946164077F69; 0x2D1D73DC6F5F514B; 0x6F0A70F40D68D88A; 0x60B4B30ECA1EAC41;
  0xD36509D83385987D; 0x0B3D97490630F6A8; 0x9ECCC90A96C46577; 0xA20EE2C5AD01A87C;
  0xE49AB55E0E70A3DE; 0xA4429CA182646BA0; 0xDA97B446DB962F6A; 0xCCED87D4D7F6DE27;
  0x2AB8185D37A53C46; 0x9F25DCEFE15BCBA6; 0xC19C6EF9FEA3EB53; 0xA764A3931BD884CE;
  0x2FD2590B817C10F4; 0x56A21A6D80743933; 0xE573A0BB79EF0D0F; 0x155C0CA095DC1E23;
  0x6C2C4FC694D437E4; 0x10364DF623053291; 0xDD32DFC7836C4267; 0x03263F3299BCEF6E;
  0x66F8CD6AE57B6F9D; 0x8C35AE2B5BE21659; 0x31B3C2E21290F87F; 0x93BD2027BF915003;
  0x69460E90220D1B56; 0x299E276FAE19D328; 0x63928C3C53A2432F; 0x7082FEF8E91B9ED0;
  0xBC6F792C3EED40F7; 0x4C40D537D2DE53DB; 0x75E8BFAE5FC2B262; 0x4DA9C0D2A541FD0A;
  0x4E8FFFE03CFD1264; 0x2620E495696FA7E3; 0xE1F0F408B8A98F6C; 0xD1AA230FDDA6D9C2;
  0xC7D0109DD1C6288F; 0x8A79D04F7487D585; 0x4694579BA3710BA2; 0x38417F7CFA834F68;
  0x1D47A4DB0A5007E5; 0x206C9AF1460A643F; 0xA128DDF734BD4712; 0x8144470672B7232D;
  0xF2E086CC02105293; 0x182DE58DBC892B57; 0xCAA1F9B0F8931DFB; 0x6B892447CC2E5AE9;
  0xF9DD11850420A43B; 0x4BE5BEB68A243ED6; 0x5584255F19C8D65D; 0x3B67404E633FA006;
  0xA68DB6766C472A1F; 0xF78AC79AB4C97E21; 0xC353442E1080AAEC; 0x9A4F9DB95782E714].

Definition T3 : list Z := [
  0x05BA7BC82C9B3220; 0x31A54665F8B65E4F; 0xB1B651F77547F4D4; 0x8BFA0D857BA46682;
  0x85A96C5AA16A98BB; 0x990FAEF908EB79C9; 0xA15E37A247F4A62D; 0x76857DCD5D27741E;
  0xF8C50B800A1820BC; 0xBE65DCB201F7A2B4; 0x666D1B986F9426E7; 0x4CC921BF53C4E648;
  0x95410A0F93D9CA42; 0x20CDCCAA647BA4EF; 0x429A4060890A1871; 0x0C4EA4F69B32B38B;
  0xCCDA362DDE354CD3; 0x96DC23BC7C5B2FA9; 0xC309BB68AA851AB3; 0xD26131A73648E013;
  0x021DC52941FC4DB2; 0xCD5ADAB7704BE48A; 0xA77965D984ED71E6; 0x32386FD61734BBA4;
  0xE82D6DD538AB7245; 0x5C2147EA6177B4B1; 0x5DA1AB70CF091CE8; 0xAC907FCE72B8BDFF;
  0x57C85DFD972278A8; 0xA4E44C6A6B6F940D; 0x3851995B4F1FDFE4; 0x62578CCAED71BC9E;
  0xD9882BB0C01D2C0A; 0x917B9D5D113C503B; 0xA2C31E11A87643C6; 0xE463C923A399C1CE;
  0xF71686C57EA876DC; 0x87B4A973E096D509; 0xAF0D567D9D3A5814; 0xB40C2A3F59DCC6F4;
  0x3602F88495D121DD; 0xD3E1DD3D9836484A; 0xF945E71AA46688E5; 0x7518547EB2A591F5;
  0x9366587450C01D89; 0x9EA81018658C065B; 0x4F54080CBC4603A3; 0x2D0384C65137BF3D;
  0xDC325078EC861E2A; 0xEA30A8FC79573FF7; 0x214D2030CA050CB6; 0x65F0322B8016C30C;
  0x69BE96DD1B247087; 0xDB95EE9981E161B8; 0xD1FC1814D9CA05F8; 0x820ED2BBCC0DE729;
  0x63D76050430F14C7; 0x3BCCB0E8A09D3A0F; 0x8E40764D573F54A2; 0x39D175C1E16177BD;
  0x12F5A37C734F1F4B; 0xAB37C12F1FDFC26D; 0x5648B167395CD0F1; 0x6C04ED1537BF42A7;
  0xED97161D14304065; 0x7D6C67DAAB72B807; 0xEC17FA87BA4EE83C; 0xDFAF79CB0304FBC1;
  0x733F060571BC463E; 0x78D61C1287E98A27; 0xD07CF48E77B4ADA1; 0xB9C262536C90DD26;
  0xE2449B5860801605; 0x8FC09AD7F941FCFB; 0xFAD8CEA94BE46D0E; 0xA343F28B0608EB9F;
  0x9B126BD04917347B; 0x9A92874AE7699C22; 0x1B017C42C4E69EE0; 0x3A4C5C720EE39256;
  0x4B6E9F5E3EA399DA; 0x6BA353F45AD83D35; 0xE7FEE0904C1B2425; 0x22D009832587E95D;
  0x842980C00F1430E2; 0xC6B3C0A0861E2893; 0x087433A419D729F2; 0x341F3DADD42D6C6F;
  0xEE0A3FAEFBB2A58E; 0x4AEE73C490DD3183; 0xAAB72DB5B1A16A34; 0xA92A04065E238FDF;
  0x7B4B35A1686B6FCC; 0x6A23BF6EF4A6956C; 0x191CB96B851AD352; 0x55D598D4D6DE351A;
  0xC9604DE5F2AE7EF3; 0x1CA6C2A3A981E172; 0xDE2F9551AD7A5398; 0x3025AAFF56C8F616;
  0x15521D9D1E2860D9; 0x506FE31CFA45073A; 0x189C55F12B647B0B; 0x0180EC9AAE7EA859;
  0x7CEC8B40050C105E; 0x2350E5198BF94104; 0xEF8AD33455CC0DD7; 0x07A7BEE16D677F92;
  0xE5E325B90DE76997; 0x5A061591A26E637A; 0xB611EF1618208B46; 0x09F4DF3EB7A981AB;
  0x1EBB078AE87DACC0; 0xB791038CB65E231F; 0x0FD38D4574B05660; 0x67EDF702C1EA8EBE;
  0xBA5F4BE0831238CD; 0xE3C477C2CEFEBE5C; 0x0DCE486C354C1BD2; 0x8C5DB36416C31910;
  0x26EA9ED1A7627324; 0x039D29B3EF82E5EB; 0x9F28FC82CBF2AE02; 0xA8AAE89CF05D2786;
  0x431AACFA2774B028; 0xCF471F9E31B7A938; 0x581BD0B8E3922EC8; 0xBC78199B400BEF06;
  0x90FB71C7BF42F862; 0x1F3BEB1046030499; 0x683E7A47B55AD8DE; 0x988F4263A695D190;
  0xD808C72A6E638453; 0x0627527BC319D7CB; 0xEBB04466D72997AE; 0xE67E0C0AE2658C7C;
  0x14D2F107B056C880; 0x7122C32C30400B8C; 0x8A7AE11FD5DACEDB; 0xA0DEDB38E98A0E74;
  0xAD109354DCC615A6; 0x0BE91A17F655CC19; 0x8DDD5FFEB8BDB149; 0xBFE53028AF890AED;
  0xD65BA6F5B4AD7A6A; 0x7956F0882997227E; 0x10E8665532B352F9; 0x0E5361DFDACEFE39;
  0xCEC7F3049FC90161; 0xFF62B561677F5F2E; 0x975CCF26D22587F0; 0x51EF0F86543BAF63;
  0x2F1E41EF10CBF28F; 0x52722635BBB94A88; 0xAE8DBAE73344F04D; 0x410769D36688FD9A;
  0xB3AB94DE34BBB966; 0x801317928DF1AA9B; 0xA564A0F0C5113C54; 0xF131D4BEBDB1A117;
  0x7F71A2F3EA8EF5B5; 0x40878549C8F655C3; 0x7EF14E6944F05DEC; 0xD44663DCF55137D8;
  0xF2ACFD0D523344FC; 0x0000000000000000; 0x5FBC6E598EF5515A; 0x16CF342EF1AA8532;
  0xB036BD6DDB395C8D; 0x13754FE6DD31B712; 0xBBDFA77A2D6C9094; 0x89E7C8AC3A582B30;
  0x3C6B0E09CDFA459D; 0xC4AE0589C7E26521; 0x49735A777F5FD468; 0xCAFD64561D2C9B18;
  0xDA1502032F9FC9E1; 0x8867243694268369; 0x3782141E3BAF8984; 0x9CB5D53124704BE9;
  0xD7DB4A6F1AD3D233; 0xA6F989432A93D9BF; 0x9D3539AB8A0EE3B0; 0x53F2CAAF15C7E2D1;
  0x6E19283C76430F15; 0x3DEBE2936384EDC4; 0x5E3C82C3208BF903; 0x33B8834CB94A13FD;
  0x6470DEB12E686B55; 0x359FD1377A53C436; 0x61CAA57902F35975; 0x043A975282E59A79;
  0xFD7F70482683129C; 0xC52EE913699CCD78; 0x28B9FF0E7DAC8D1D; 0x5455744E78A09D43;
  0xCB7D88CCB3523341; 0x44BD121B4A13CFBA; 0x4D49CD25FDBA4E11; 0x3E76CB208C06082F;
  0x3FF627BA2278A076; 0xC28957F204FBB2EA; 0x453DFE81E46D67E3; 0x94C1E6953DA7621B;
  0x2C83685CFF491764; 0xF32C1197FC4DECA5; 0x2B24D6BD922E68F6; 0xB22B78449AC5113F;
  0x48F3B6EDD1217C31; 0x2E9EAD75BEB55AD6; 0x174FD8B45FD42D6B; 0x4ED4E4961238ABFA;
  0x92E6B4EEFEBEB5D0; 0x46A0D7320BEF8208; 0x47203BA8A5912A51; 0x24F75BF8E69E3E96;
  0xF0B1382413CF094E; 0xFEE259FBC901F777; 0x276A724B091CDB7D; 0xBDF8F501EE75475F;
  0x599B3C224DEC8691; 0x6D84018F99C1EAFE; 0x7498B8E41CDB39AC; 0xE0595E71217C5BB7;
  0x2AA43A273C50C0AF; 0xF50B43EC3F543B6E; 0x838E3E2162734F70; 0xC09492DB4507FF58;
  0x72BFEA9FDFC2EE67; 0x11688ACF9CCDFAA0; 0x1A8190D86A9836B9; 0x7ACBD93BC615C795;
  0xC7332C3A286080CA; 0x863445E94EE87D50; 0xF6966A5FD0D6DE85; 0xE9AD814F96D5DA1C;
  0x70A22FB69E3EA3D5; 0x0A69F68D582B6440; 0xB8428EC9C2EE757F; 0x604A49E3AC8DF12C;
  0x5B86F90B0C10CB23; 0xE1D9B2EB8F02F3EE; 0x29391394D3D22544; 0xC8E0A17F5CD0D6AA;
  0xB58CC6A5F7A26EAD; 0x8193FB08238F02C2; 0xD5C68F465B2F9F81; 0xFCFF9CD288FDBAC5;
  0x77059157F359DC47; 0x1D262E3907FF492B; 0xFB582233E59AC557; 0xDDB2BCE242F8B673;
  0x2577B76248E096CF; 0x6F99C4A6D83DA74C; 0xC1147E41EB795701; 0xF48BAF76912A9337].

Definition T4 : list Z := [
  0x3EF29D249B2C0A19; 0xE9E16322B6F8622F; 0x5536994047757F7A; 0x9F4D56D5A47B0B33;
  0x822567466AA1174C; 0xB8F5057DEB082FB2; 0xCC48C10BF4475F53; 0x373088D4275DEC3A;
  0x968F4325180AED10; 0x173D232CF7016151; 0xAE4ED09F946FCC13; 0xFD4B4741C4539873;
  0x1B5B3F0DD9933765; 0x2FFCB0967B644052; 0xE02376D20A89840C; 0xA3AE3A70329B18D7;
  0x419CBD2335DE8526; 0xFAFEBF115B7C3199; 0x0397074F85AA9B0D; 0xC58AD4FB4836B970;
  0xBEC60BE3FC4104A8; 0x1EFF36DC4B708772; 0x131FDC33ED8453B6; 0x0844E33E341764D3;
  0x0FF11B6EAB38CD39; 0x64351F0A7761B85A; 0x3B5694F509CFBA0E; 0x30857084B87245D0;
  0x47AFB3BD2297AE3C; 0xF2BA5C2F6F6B554A; 0x74BDC4761F4F70E1; 0xCFDFC64471EDC45E;
  0xE610784C1DC0AF16; 0x7ACA29D63C113F28; 0x2DED411776A859AF; 0xAC5F211E99A3D5EE;
  0xD484F949A87EF33B; 0x3CE36CA596E013E4; 0xD120F0983A9D432C; 0x6BC40464DC597563;
  0x69D5F5E5D1956C9E; 0x9AE95F043698BB24; 0xC9ECC8DA66A4EF44; 0xD69508C8A5B2EAC6;
  0xC40C2235C0503B80; 0x38C193BA8C652103; 0x1CEEC75D46BC9E8F; 0xD331011937515AD1;
  0xD8E2E56886ECA50F; 0xB137108D5779C991; 0x709F3B6905CA4206; 0x4FEB50831680CAEF;
  0xEC456AF3241BD238; 0x58D673AFE181ABBE; 0x242F54E7CAD9BF8C; 0x0211F1810DCC19FD;
  0x90BC4DBB0F43C60A; 0x9518446A9DA0761D; 0xA1BFCBF13F57012A; 0x2BDE4F8961E172B5;
  0x27B853A84F732481; 0xB0B1E643DF1F4B61; 0x18CC38425C39AC68; 0xD2B7F7D7BF37D821;
  0x3103864A3014C720; 0x14AA246372ABFA5C; 0x6E600DB54EBAC574; 0x394765740403A3F3;
  0x09C215F0BC71E623; 0x2A58B947E987F045; 0x7B4CDF18B477BDD8; 0x9709B5EB906C6FE0;
  0x73083C268060D90B; 0xFEDC400E41F9037E; 0x284948C6E44BE9B8; 0x728ECAE808065BFB;
  0x06330E9E17492B1A; 0x5950856169E7294E; 0xBAE4F4FCE6C4364F; 0xCA7BCF95E30E7449;
  0x7D7FD186A33E96C2; 0x52836110D85AD690; 0x4DFAA1021B4CD312; 0x913ABB75872544FA;
  0xDD46ECB9140F1518; 0x3D659A6B1E869114; 0xC23F2CABD719109A; 0xD713FE062DD46836;
  0xD0A60656B2FBC1DC; 0x221C5A79DD909496; 0xEFD26DBCA1B14935; 0x0E77EDA0235E4FC9;
  0xCBFD395B6B68F6B9; 0x0DE0EAEFA6F4D4C4; 0x0422FF1F1A8532E7; 0xF969B85EDED6AA94;
  0x7F6E2007AEF28F3F; 0x3AD0623B81A938FE; 0x6624EE8B7AADA1A7; 0xB682E8DDC856607B;
  0xA78CC56F281E2A30; 0xC79B257A45FAA08D; 0x5B4174E0642B30B3; 0x5F638BFF7EAE0254;
  0x4BC9AF9C0C05F808; 0xCE59308AF98B46AE; 0x8FC58DA9CC55C388; 0x803496C7676D0EB1;
  0xF33CAAE1E70DD7BA; 0xBB6202326EA2B4BF; 0xD5020F87201871CB; 0x9D5CA754A9B712CE;
  0x841669D87DE83C56; 0x8A6184785EB6739F; 0x420BBA6CB0741E2B; 0xF12D5B60EAC1CE47;
  0x76AC35F71283691C; 0x2C6BB7D9FECEDB5F; 0xFCCDB18F4C351A83; 0x1F79C012C3160582;
  0xF0ABADAE62A74CB7; 0xE1A5801C82EF06FC; 0x67A21845F2CB2357; 0x5114665F5DF04D9D;
  0xBF40FD2D74278658; 0xA0393D3FB73183DA; 0x05A409D192E3B017; 0xA9FB28CF0B4065F9;
  0x25A9A22942BF3D7C; 0xDB75E22703463E02; 0xB326E10C5AB5D06C; 0xE7968E8295A62DE6;
  0xB973F3B3636EAD42; 0xDF571D3819C30CE5; 0xEE549B7229D7CBC5; 0x12992AFD65E2D146;
  0xF8EF4E9056B02864; 0xB7041E134030E28B; 0xC02EDD2ADAD50967; 0x932B4AF48AE95D07;
  0x6FE6FB7BC6DC4784; 0x239AACB755F61666; 0x401A4BEDBDB807D6; 0x485EA8D389AF6305;
  0xA41BC220ADB4B13D; 0x753B32B89729F211; 0x997E584BB3322029; 0x1D683193CEDA1C7F;
  0xFF5AB6C0C99F818E; 0x16BBD5E27F67E3A1; 0xA59D34EE25D233CD; 0x98F8AE853B54A2D9;
  0x6DF70AFACB105E79; 0x795D2E99B9BBA425; 0x8E437B6744334178; 0x0186F6CE886682F0;
  0xEBF092A3BB347BD2; 0xBCD7FA62F18D1D55; 0xADD9D7D011C5571E; 0x0BD3E471B1BDFFDE;
  0xAA6C2F808EEAFEF4; 0x5EE57D31F6C880A4; 0xF50FA47FF044FCA0; 0x1ADDC9C351F5B595;
  0xEA76646D3352F922; 0x0000000000000000; 0x85909F16F58EBEA6; 0x46294573AAF12CCC;
  0x0A5512BF39DB7D2E; 0x78DBD85731DD26D5; 0x29CFBE086C2D6B48; 0x218B5D36583A0F9B;
  0x152CD2ADFACD78AC; 0x83A39188E2C795BC; 0xC3B9DA655F7F926A; 0x9ECBA01B2C1D89C3;
  0x07B5F8509F2FA9EA; 0x7EE8D6C926940DCF; 0x36B67E1AAF3B6ECA; 0x86079859702425AB;
  0xFB7849DFD31AB369; 0x4C7C57CC932A51E2; 0xD96413A60E8A27FF; 0x263EA566C715A671;
  0x6C71FC344376DC89; 0x4A4F595284637AF8; 0xDAF314E98B20BCF2; 0x572768C14AB96687;
  0x1088DB7C682EC8BB; 0x887075F9537A6A62; 0x2E7A4658F302C2A2; 0x619116DBE582084D;
  0xA87DDE018326E709; 0xDCC01A779C6997E8; 0xEDC39C3DAC7D50C8; 0xA60A33A1A078A8C0;
  0xC1A82BE452B38B97; 0x3F746BEA134A88E9; 0xA228CCBEBAFD9A27; 0xABEAD94E068C7C04;
  0xF48952B178227E50; 0x5CF48CB0FB049959; 0x6017E0156DE48ABD; 0x4438B4F2A73D3531;
  0x8C528AE649FF5885; 0xB515EF924DFCFB76; 0x0C661C212E925634; 0xB493195CC59A7986;
  0x9CDA519A21D1903E; 0x32948105B5BE5C2D; 0x194ACE8CD45F2E98; 0x438D4CA238129CDB;
  0x9B6FA9CABEFE39D4; 0x81B26009EF0B8C41; 0xDED1EBF691A58E15; 0x4E6DA64D9EE6481F;
  0x54B06F8ECF13FD8A; 0x49D85E1D01C9E1F5; 0xAFC826511C094EE3; 0xF698A33075EE67AD;
  0x5AC7822EEC4DB243; 0x8DD47C28C199DA75; 0x89F68337DB1CE892; 0xCDCE37C57C21DDA3;
  0x530597DE503C5460; 0x6A42F2AA543FF793; 0x5D727A7E73621BA9; 0xE232875307459DF1;
  0x56A19E0FC2DFE477; 0xC61DD3B4CD9C227D; 0xE5877F03986A341B; 0x949EB2A415C6F4ED;
  0x6206119460289340; 0x6380E75AE84E11B0; 0x8BE772B6D6D0F16F; 0x50929091D596CF6D;
  0xE86795EC3E9EE0DF; 0x7CF927482B581432; 0xC86A3E14EEC26DB4; 0x7119CDA78DACC0F6;
  0xE40189CD100CB6EB; 0x92ADBC3A028FDFF7; 0xB2A017C2D2D3529C; 0x200DABF8D05C8D6B;
  0x34A78F9BA2F77737; 0xE3B4719D8F231F01; 0x45BE423C2F5BB7C1; 0xF71E55FEFD88E55D;
  0x6853032B59F3EE6E; 0x65B3E9C4FF073AAA; 0x772AC3399AE5EBEC; 0x87816E97F842A75B;
  0x110E2DB2E0484A4B; 0x331277CB3DD8DEDD; 0xBD510CAC79EB9FA5; 0x352179552A91F5C7].

Definition T5 : list Z := [
  0x8AB0A96846E06A6D; 0x43C7E80B4BF0B33A; 0x08C9B3546B161EE5; 0x39F1C235EBA990BE;
  0xC1BEF2376606C7B2; 0x2C209233614569AA; 0xEB01523B6FC3289A; 0x946953AB935ACEDD;
  0x272838F63E13340E; 0x8B0455ECA12BA052; 0x77A1B2C4978FF8A2; 0xA55122CA13E54086;
  0x2276135862D3F1CD; 0xDB8DDFDE08B76CFE; 0x5D1E12C89E4A178A; 0x0E56816B03969867;
  0xEE5F79953303ED59; 0xAFED748BAB78D71D; 0x6D929F2DF93E53EE; 0xF5D8A8F8BA798C2A;
  0xF619B1698E39CF6B; 0x95DDAF2F749104E2; 0xEC2A9C80E0886427; 0xCE5C8FD8825B95EA;
  0xC4E0D9993AC60271; 0x4699C3A5173076F9; 0x3D1B151F50A29F42; 0x9ED505EA2BC75946;
  0x34665ACFDC7F4B98; 0x61B1FB53292342F7; 0xC721C0080E864130; 0x8693CD1696FD7B74;
  0x872731927136B14B; 0xD3446C8A63A1721B; 0x669A35E8A6680E4A; 0xCAB658F239509A16;
  0xA4E5DE4EF42E8AB9; 0x37A7435EE83F08D9; 0x134E6239E26C7F96; 0x82791A3C2DF67488;
  0x3F6EF00A8329163C; 0x8E5A7E42FDEB6591; 0x5CAAEE4C7981DDB5; 0x19F234785AF1E80D;
  0x255DDDE3ED98BD70; 0x50898A32A99CCCAC; 0x28CA4519DA4E6656; 0xAE59880F4CB31D22;
  0x0D9798FA37D6DB26; 0x32F968F0B4FFCD1A; 0xA00F09644F258545; 0xFA3AD5175E24DE72;
  0xF46C547C5DB24615; 0x713E80FBFF0F7E20; 0x7843CF2B73D2AAFA; 0xBD17EA36AEDF62B4;
  0xFD111BACD16F92CF; 0x4ABAA7DBC72D67E0; 0xB3416B5DAD49FAD3; 0xBCA316B24914A88B;
  0x15D150068AECF914; 0xE27C1DEBE31EFC40; 0x4FE48C759BEDA223; 0x7EDCFD141B522C78;
  0x4E5070F17C26681C; 0xE696CAC15815F3BC; 0x35D2A64B3BB481A7; 0x800CFF29FE7DFDF6;
  0x1ED9FAC3D5BAA4B0; 0x6C2663A91EF599D1; 0x03C1199134404341; 0xF7AD4DED69F20554;
  0xCD9D9649B61BD6AB; 0xC8C3BDE7EADB1368; 0xD131899FB02AFB65; 0x1D18E352E1FAE7F1;
  0xDA39235AEF7CA6C1; 0xA1BBF5E0A8EE4F7A; 0x91377805CF9A0B1E; 0x3138716180BF8E5B;
  0xD9F83ACBDB3CE580; 0x0275E515D38B897E; 0x472D3F21F0FBBCC6; 0x2D946EB7868EA395;
  0xBA3C248D21942E09; 0xE7223645BFDE3983; 0xFF64FEB902E41BB1; 0xC97741630D10D957;
  0xC3CB1722B58D4ECC; 0xA27AEC719CAE0C3B; 0x99FECB51A48C15FB; 0x1465AC826D27332B;
  0xE1BD047AD75EBF01; 0x79F733AF941960C5; 0x672EC96C41A3C475; 0xC27FEBA6524684F3;
  0x64EFD0FD75E38734; 0xED9E60040743AE18; 0xFB8E2993B9EF144D; 0x38453EB10C625A81;
  0x6978480742355C12; 0x48CF42CE14A6EE9E; 0x1CAC1FD606312DCE; 0x7B82D6BA4792E9BB;
  0x9D141C7B1F871A07; 0x5616B80DC11C4A2E; 0xB849C198F21FA777; 0x7CA91801C8D9A506;
  0xB1348E487EC273AD; 0x41B20D1E987B3A44; 0x7460AB55A3CFBBE3; 0x84E628034576F20A;
  0x1B87D16D897A6173; 0x0FE27DEFE45D5258; 0x83CDE6B8CA3DBEB7; 0x0C23647ED01D1119;
  0x7A362A3EA0592384; 0xB61F40F3F1893F10; 0x75D457D1440471DC; 0x4558DA34237035B8;
  0xDCA6116587FC2043; 0x8D9B67D3C9AB26D0; 0x2B0B5C88EE0E2517; 0x6FE77A382AB5DA90;
  0x269CC472D9D8FE31; 0x63C41E46FAA8CB89; 0xB7ABBC771642F52F; 0x7D1DE4852F126F39;
  0xA8C6BA3024339BA0; 0x600507D7CEE888C8; 0x8FEE82C61A20AFAE; 0x57A2448926D78011;
  0xFCA5E72836A458F0; 0x072BCEBB8F4B4CBD; 0x497BBE4AF36D24A1; 0x3CAFE99BB769557D;
  0x12FA9EBD05A7B5A9; 0xE8C04BAA5B836BDB; 0x4273148FAC3B7905; 0x908384812851C121;
  0xE557D3506C55B0FD; 0x72FF996ACB4F3D61; 0x3EDA0C8E64E2DC03; 0xF0868356E6B949E9;
  0x04EAD72ABB0B0FFC; 0x17A4B5135967706A; 0xE3C8E16F04D5367F; 0xF84F30028DAF570C;
  0x1846C8FCBD3A2232; 0x5B8120F7F6CA9108; 0xD46FA231ECEA3EA6; 0x334D947453340725;
  0x58403966C28AD249; 0xBED6F3A79A9F21F5; 0x68CCB483A5FE962D; 0xD085751B57E1315A;
  0xFED0023DE52FD18E; 0x4B0E5B5F20E6ADDF; 0x1A332DE96EB1AB4C; 0xA3CE10F57B65C604;
  0x108F7BA8D62C3CD7; 0xAB07A3A11073D8E1; 0x6B0DAD1291BED56C; 0xF2F366433532C097;
  0x2E557726B2CEE0D4; 0x0000000000000000; 0xCB02A476DE9B5029; 0xE4E32FD48B9E7AC2;
  0x734B65EE2C84F75E; 0x6E5386BCCD7E10AF; 0x01B4FC84E7CBCA3F; 0xCFE8735C65905FD5;
  0x3613BFDA0FF4C2E6; 0x113B872C31E7F6E8; 0x2FE18BA255052AEB; 0xE974B72EBC48A1E4;
  0x0ABC5641B89D979B; 0xB46AA5E62202B66E; 0x44EC26B0C4BBFF87; 0xA6903B5B27A503C7;
  0x7F680190FC99E647; 0x97A84A3AA71A8D9C; 0xDD12EDE16037EA7C; 0xC554251DDD0DC84E;
  0x88C54C7D956BE313; 0x4D91696048662B5D; 0xB08072CC9909B992; 0xB5DE5962C5C97C51;
  0x81B803AD19B637C9; 0xB2F597D94A8230EC; 0x0B08AAC55F565DA4; 0xF1327FD2017283D6;
  0xAD98919E78F35E63; 0x6AB9519676751F53; 0x24E921670A53774F; 0xB9FD3D1C15D46D48;
  0x92F66194FBDA485F; 0x5A35DC7311015B37; 0xDED3F4705477A93D; 0xC00A0EB381CD0D8D;
  0xBB88D809C65FE436; 0x16104997BEACBA55; 0x21B70AC95693B28C; 0x59F4C5E225411876;
  0xD5DB5EB50B21F499; 0x55D7A19CF55C096F; 0xA97246B4C3F8519F; 0x8552D487A2BD3835;
  0x54635D181297C350; 0x23C2EFDC85183BF2; 0x9F61F96ECC0C9379; 0x534893A39DDC8FED;
  0x5EDF0B59AA0A54CB; 0xAC2C6D1A9F38945C; 0xD7AEBBA0D8AA7DE7; 0x2ABFA00C09C5EF28;
  0xD84CC64F3CF72FBF; 0x2003F64DB15878B3; 0xA724C7DFC06EC9F8; 0x069F323F68808682;
  0xCC296ACD51D01C94; 0x055E2BAE5CC0C5C3; 0x6270E2C21D6301B6; 0x3B842720382219C0;
  0xD2F0900E846AB824; 0x52FC6F277A1745D2; 0xC6953C8CE94D8B0F; 0xE009F8FE3095753E;
  0x655B2C7992284D0B; 0x984A37D54347DFC4; 0xEAB5AEBF8808E2A5; 0x9A3FD2C090CC56BA;
  0x9CA0E0FFF84CD038; 0x4C2595E4AFADE162; 0xDF6708F4B3BC6302; 0xBF620F237D54EBCA;
  0x93429D101C118260; 0x097D4FD08CDDD4DA; 0x8C2F9B572E60ECEF; 0x708A7C7F18C4B41F;
  0x3A30DBA4DFE9D3FF; 0x4006F19A7FB0F07B; 0x5F6BF7DD4DC19EF4; 0x1F6D064732716E8F;
  0xF9FBCC866A649D33; 0x308C8DE567744464; 0x8971B0F972A0292C; 0xD61A47243F61B7D8;
  0xEFEB8511D4C82766; 0x961CB6BE40D147A3; 0xAAB35F25F7B812DE; 0x76154E407044329D;
  0x513D76B64E570693; 0xF3479AC7D2F90AA8; 0x9B8B2E4477079C85; 0x297EB99D3D85AC69].

Definition T6 : list Z := [
  0x7E37E62DFC7D40C3; 0x776F25A4EE939E5B; 0xE045C850DD8FB5AD; 0x86ED5BA711FF1952;
  0xE91D0BD9CF616B35; 0x37E0AB256E408FFB; 0x9607F6C031025A7A; 0x0B02F5E116D23C9D;
  0xF3D8486BFB50650C; 0x621CFF27C40875F5; 0x7D40CB71FA5FD34A; 0x6DAA6616DAA29062;
  0x9F5F354923EC84E2; 0xEC847C3DC507C3B3; 0x025A3668043CE205; 0xA8BF9E6C4DAC0B19;
  0xFA808BE2E9BEBB94; 0xB5B99C5277C74FA3; 0x78D9BC95F0397BCC; 0xE332E50CDBAD2624;
  0xC74FCE129332797E; 0x1729ECEB2EA709AB; 0xC2D6B9F69954D1F8; 0x5D898CBFBAB8551A;
  0x859A76FB17DD8ADB; 0x1BE85886362F7FB5; 0xF6413F8FF136CD8A; 0xD3110FA5BBB7E35C;
  0x0A2FEED514CC4D11; 0xE83010EDCD7F1AB9; 0xA1E75DE55F42D581; 0xEEDE4A55C13B21B6;
  0xF2F5535FF94E1480; 0x0CC1B46D1888761E; 0xBCE15FDB6529913B; 0x2D25E8975A7181C2;
  0x71817F1CE2D7A554; 0x2E52C5CB5C53124B; 0xF9F7A6BEEF9C281D; 0x9E722E7D21F2F56E;
  0xCE170D9B81DCA7E6; 0x0E9B82051CB4941B; 0x1E712F623C49D733; 0x21E45CFA42F9F7DC;
  0xCB8E7A7F8BBA0F60; 0x8E98831A010FB646; 0x474CCF0D8E895B23; 0xA99285584FB27A95;
  0x8CC2B57205335443; 0x42D5B8E984EFF3A5; 0x012D1B34021E718C; 0x57A6626AAE74180B;
  0xFF19FC06E3D81312; 0x35BA9D4D6A7C6DFE; 0xC9D44C178F86ED65; 0x506523E6A02E5288;
  0x03772D5C06229389; 0x8B01F4FE0B691EC0; 0xF8DABD8AED825991; 0x4C4E3AEC985B67BE;
  0xB10DF0827FBF96A9; 0x6A69279AD4F8DAE1; 0xE78689DCD3D5FF2E; 0x812E1A2B1FA553D1;
  0xFBAD90D6EBA0CA18; 0x1AC543B234310E39; 0x1604F7DF2CB97827; 0xA6241C6951189F02;
  0x753513CCEAAF7C5E; 0x64F2A59FC84C4EFA; 0x247D2B1E489F5F5A; 0xDB64D718AB474C48;
  0x79F4A7A1F2270A40; 0x1573DA832A9BEBAE; 0x3497867968621C72; 0x514838D2A2302304;
  0xF0AF6537FD72F685; 0x1D06023E3A6B44BA; 0x678588C3CE6EDD73; 0x66A893F7CC70ACFF;
  0xD4D24E29B5EDA9DF; 0x3856321470EA6A6C; 0x07C3418C0E5A4A83; 0x2BCBB22F5635BACD;
  0x04B46CD00878D90A; 0x06EE5AB80C443B0F; 0x3B211F4876C8F9E5; 0x0958C38912EEDE98;
  0xD14B39CDBF8B0159; 0x397B292072F41BE0; 0x87C0409313E168DE; 0xAD26E98847CAA39F;
  0x4E140C849C6785BB; 0xD5FF551DB7F3D853; 0xA0CA46D15D5CA40D; 0xCD6020C787FE346F;
  0x84B76DCF15C3FB57; 0xDEFDA0FCA121E4CE; 0x4B8D7B6096012D3D; 0x9AC642AD298A2C64;
  0x0875D8BD10F0AF14; 0xB357C6EA7B8374AC; 0x4D6321D89A451632; 0xEDA96709C719B23F;
  0xF76C24BBF328BC06; 0xC662D526912C08F2; 0x3CE25EC47892B366; 0xB978283F6F4F39BD;
  0xC08C8F9E9D6833FD; 0x4F3917B09E79F437; 0x593DE06FB2C08C10; 0xD6887841B1D14BDA;
  0x19B26EEE32139DB0; 0xB494876675D93E2F; 0x825937771987C058; 0x90E9AC783D466175;
  0xF1827E03FF6C8709; 0x945DC0A8353EB87F; 0x4516F9658AB5B926; 0x3F9573987EB020EF;
  0xB855330B6D514831; 0x2AE6A91B542BCB41; 0x6331E413C6160479; 0x408F8E8180D311A0;
  0xEFF35161C325503A; 0xD06622F9BD9570D5; 0x8876D9A20D4B8D49; 0xA5533135573A0C8B;
  0xE168D364DF91C421; 0xF41B09E7F50A2F8F; 0x12B09B0F24C1A12D; 0xDA49CC2CA9593DC4;
  0x1F5C34563E57A6BF; 0x54D14F36A8568B82; 0xAF7CDFE043F6419A; 0xEA6A2685C943F8BC;
  0xE5DCBFB4D7E91D2B; 0xB27ADDDE799D0520; 0x6B443CAED6E6AB6D; 0x7BAE91C9F61BE845;
  0x3EB868AC7CAE5163; 0x11C7B65322E332A4; 0xD23C1491B9A992D0; 0x8FB5982E0311C7CA;
  0x70AC6428E0C9D4D8; 0x895BC2960F55FCC5; 0x76423E90EC8DEFD7; 0x6FF0507EDE9E7267;
  0x3DCF45F07A8CC2EA; 0x4AA06054941F5CB1; 0x5810FB5BB0DEFD9C; 0x5EFEA1E3BC9AC693;
  0x6EDD4B4ADC8003EB; 0x741808F8E8B10DD2; 0x145EC1B728859A22; 0x28BC9F7350172944;
  0x270A06424EBDCCD3; 0x972AEDF4331C2BF6; 0x059977E40A66A886; 0x2550302A4A812ED6;
  0xDD8A8DA0A7037747; 0xC515F87A970E9B7B; 0x3023EAA9601AC578; 0xB7E3AA3A73FBADA6;
  0x0FB699311EAAE597; 0x0000000000000000; 0x310EF19D6204B4F4; 0x229371A644DB6455;
  0x0DECAF591A960792; 0x5CA4978BB8A62496; 0x1C2B190A38753536; 0x41A295B582CD602C;
  0x3279DCC16426277D; 0xC1A194AA9F764271; 0x139D803B26DFD0A1; 0xAE51C4D441E83016;
  0xD813FA44AD65DFC1; 0xAC0BF2BC45D4D213; 0x23BE6A9246C515D9; 0x49D74D08923DCF38;
  0x9D05032127D066E7; 0x2F7FDEFF5E4D63C7; 0xA47E2A0155247D07; 0x99B16FF12FA8BFED;
  0x4661D4398C972AAF; 0xDFD0BBC8A33F9542; 0xDCA79694A51D06CB; 0xB020EBB67DA1E725;
  0xBA0F0563696DAA34; 0xE4F1A480D5F76CA7; 0xC438E34E9510EAF7; 0x939E81243B64F2FC;
  0x8DEFAE46072D25CF; 0x2C08F3A3586FF04E; 0xD7A56375B3CF3A56; 0x20C947CE40E78650;
  0x43F8A3DD86F18229; 0x568B795EAC6A6987; 0x8003011F1DBB225D; 0xF53612D3F7145E03;
  0x189F75DA300DEC3C; 0x9570DB9C3720C9F3; 0xBB221E576B73DBB8; 0x72F65240E4F536DD;
  0x443BE25188ABC8AA; 0xE21FFE38D9B357A8; 0xFD43CA6EE7E4F117; 0xCAA3614B89A47EEC;
  0xFE34E732E1C6629E; 0x83742C431B99B1D4; 0xCF3A16AF83C2D66A; 0xAAE5A8044990E91C;
  0x26271D764CA3BD5F; 0x91C4B74C3F5810F9; 0x7C6DD045F841A2C6; 0x7F1AFD19FE63314F;
  0xC8F957238D989CE9; 0xA709075D5306EE8E; 0x55FC5402AA48FA0E; 0x48FA563C9023BEB4;
  0x65DFBEABCA523F76; 0x6C877D22D8BCE1EE; 0xCC4D3BF385E045E3; 0xBEBB69B36115733E;
  0x10EAAD6720FD4328; 0xB6CEB10E71E5DC2A; 0xBDCC44EF6737E0B7; 0x523F158EA412B08D;
  0x989C74C52DB6CE61; 0x9BEB59992B945DE8; 0x8A2CEFCA09776F4C; 0xA3BD6B8D5B7E3784;
  0xEB473DB1CB5D8930; 0xC3FBA2C29B4AA074; 0x9C28181525CE176B; 0x683311F2D0C438E4;
  0x5FD3BAD7BE84B71F; 0xFC6ED15AE5FA809B; 0x36CDB0116C5EFE77; 0x29918447520958C8;
  0xA29070B959604608; 0x53120EBAA60CC101; 0x3A0C047C74D68869; 0x691E0AC6D2DA4968;
  0x73DB4974E6EB4751; 0x7A838AFDF40599C9; 0x5A4ACD33B4E21F99; 0x6046C94FC03497F0;
  0xE6AB92E8D1CB8EA2; 0x3354C7F5663856F1; 0xD93EE170AF7BAE4D; 0x616BD27BC22AE67C;
  0x92B39A10397A8370; 0xABC8B3304B8E9890; 0xBF967287630B02B2; 0x5B67D607B6FC6E15].

Definition T7 : list Z := [
  0xD031C397CE553FE6; 0x16BA5B01B006B525; 0xA89BADE6296E70C8; 0x6A1F525D77D3435B;
  0x6E103570573DFA0B; 0x660EFB2A17FC95AB; 0x76327A9E97634BF6; 0x4BAD9D6462458BF5;
  0xF1830CAEDBC3F748; 0xC5C8F542669131FF; 0x95044A1CDC48B0CB; 0x892962DF3CF8B866;
  0xB0B9E208E930C135; 0xA14FB3F0611A767C; 0x8D2605F21C160136; 0xD6B71922FECC549E;
  0x37089438A5907D8B; 0x0B5DA38E5803D49C; 0x5A5BCC9CEA6F3CBC; 0xEDAE246D3B73FFE5;
  0xD2B87E0FDE22EDCE; 0x5E54ABB1CA8185EC; 0x1DE7F88FE80561B9; 0xAD5E1A870135A08C;
  0x2F2ADBD665CECC76; 0x5780B5A782F58358; 0x3EDC8A2EEDE47B3F; 0xC9D95C3506BEE70F;
  0x83BE111D6C4E05EE; 0xA603B90959367410; 0x103C81B4809FDE5D; 0x2C69B6027D0C774A;
  0x399080D7D5C87953; 0x09D41E16487406B4; 0xCDD63B1826505E5F; 0xF99DC2F49B0298E8;
  0x9CD0540A943CB67F; 0xBCA84B7F891F17C5; 0x723D1DB3B78DF2A6; 0x78AA6E71E73B4F2E;
  0x1433E699A071670D; 0x84F21BE454620782; 0x98DF3327B4D20F2F; 0xF049DCE2D3769E5C;
  0xDB6C60199656EB7A; 0x648746B2078B4783; 0x32CD23598DCBADCF; 0x1EA4955BF0C7DA85;
  0xE9A143401B9D46B5; 0xFD92A5D9BBEC21B8; 0xC8138C790E0B8E1B; 0x2EE00B9A6D7BA562;
  0xF85712B893B7F1FC; 0xEB28FED80BEA949D; 0x564A65EB8A40EA4C; 0x6C9988E8474A2823;
  0x4535898B121D8F2D; 0xABD8C03231ACCBF4; 0xBA2E91CAB9867CBD; 0x7960BE3DEF8E263A;
  0x0C11A977602FD6F0; 0xCB50E1AD16C93527; 0xEAE22E94035FFD89; 0x2866D12F5DE2CE1A;
  0xFF1B1841AB9BF390; 0x9F9339DE8CFE0D43; 0x964727C8C48A0BF7; 0x524502C6AAAE531C;
  0x9B9C5EF3AC10B413; 0x4FA2FA4942AB32A5; 0x3F165A62E551122B; 0xC74148DA76E6E3D7;
  0x924840E5E464B2A7; 0xD372AE43D69784DA; 0x233B72A105E11A86; 0xA48A04914941A638;
  0xB4B68525C9DE7865; 0xDDEABAACA6CF8002; 0x0A9773C250B6BD88; 0xC284FFBB5EBD3393;
  0x8BA0DF472C8F6A4E; 0x2AEF6CB74D951C32; 0x427983722A318D41; 0x73F7CDFFBF389BB2;
  0x074C0AF9382C026C; 0x8A6A0F0B243A035A; 0x6FDAE53C5F88931F; 0xC68B98967E538AC3;
  0x44FF59C71AA8E639; 0xE2FCE0CE439E9229; 0xA20CDE2479D8CD40; 0x19E89FA2C8EBD8E9;
  0xF446BBCFF398270C; 0x43B3533E2284E455; 0xD82F0DCD8E945046; 0x51066F12B26CE820;
  0xE73957AF6BC5426D; 0x081ECE5A40C16FA0; 0x3B193D4FC5BFAB7B; 0x7FE66488DF174D42;
  0x0E9814EF705804D8; 0x8137AC857C39D7C6; 0xB1733244E185A821; 0x695C3F896F11F867;
  0xF6CF0657E3EFF524; 0x1AABF276D02963D5; 0x2DA3664E75B91E5E; 0x0289BD981077D228;
  0x90C1FD7DF413608F; 0x3C5537B6FD93A917; 0xAA12107E3919A2E0; 0x0686DAB530996B78;
  0xDAA6B0559EE3826E; 0xC34E2FF756085A87; 0x6D5358A44FFF4137; 0xFC587595B35948AC;
  0x7CA5095CC7D5F67E; 0xFB147F6C8B754AC0; 0xBFEB26AB91DDACF9; 0x6896EFC567A49173;
  0xCA9A31E11E7C5C33; 0xBBE44186B13315A9; 0x0DDB793B689ABFE4; 0x70B4A02BA7FA208E;
  0xE47A3A7B7307F951; 0x8CECD5BE14A36822; 0xEEED49B923B144D9; 0x17708B4DB8B3DC31;
  0x6088219F2765FED3; 0xB3FA8FDCF1F27A09; 0x910B2D31FCA6099B; 0x0F52C4A378ED6DCC;
  0x50CCBF5EBAD98134; 0x6BD582117F662A4F; 0x94CE9A50D4FDD9DF; 0x2B25BCFB45207526;
  0x67C42B661F49FCBF; 0x492420FC723259DD; 0x03436DD418C2BB3C; 0x1F6E4517F872B391;
  0xA08563BC69AF1F68; 0xD43EA4BAEEBB86B6; 0x01CAD04C08B56914; 0xAC94CACB0980C998;
  0x54C3D8739A373864; 0x26FEC5C02DBACAC2; 0xDEA9D778BE0D3B3E; 0x040F672D20EEB950;
  0xE5B0EA377BB29045; 0xF30AB136CBB42560; 0x62019C0737122CFB; 0xE86B930C13282FA1;
  0xCC1CEB542EE5374B; 0x538FD28AA21B3A08; 0x1B61223AD89C0AC1; 0x36C24474AD25149F;
  0x7A23D3E9F74C9D06; 0xBE21F6E79968C5ED; 0xCF5F868036278C77; 0xF705D61BEB5A9C30;
  0x4D2B47D152DCE08D; 0x5F9E7BFDC234ECF8; 0x247778583DCD18EA; 0x867BA67C4415D5AA;
  0x4CE1979D5A698999; 0x0000000000000000; 0xEC64F42133C696F1; 0xB57C5569C16B1171;
  0xC1C7926F467F88AF; 0x654D96FE0F3E2E97; 0x15F936D5A8C40E19; 0xB8A72C52A9F1AE95;
  0xA9517DAA21DB19DC; 0x58D27104FA18EE94; 0x5918A148F2AD8780; 0x5CDD1629DAF657C4;
  0x8274C15164FB6CFA; 0xD1FB13DBC6E056F2; 0x7D6FD910CF609F6A; 0xB63F38BDD9A9AA4D;
  0x3D9FE7FAF526C003; 0x74BBC706871499DE; 0xDF630734B6B8522A; 0x3AD3ED03CD0AC26F;
  0xFADEAF2083C023D4; 0xC00D42234ECAE1BB; 0x8538CBA85CD76E96; 0xC402250E6E2458EB;
  0x47BC3413026A5D05; 0xAFD7A71F114272A4; 0x978DF784CC3F62E3; 0xB96DFC1EA144C781;
  0x21B2CF391596C8AE; 0x318E4E8D950916F3; 0xCE9556CC3E92E563; 0x385A509BDD7D1047;
  0x358129A0B5E7AFA3; 0xE6F387E363702B79; 0xE0755D5653E94001; 0x7BE903A5FFF9F412;
  0x12B53C2C90E80C75; 0x3307F315857EC4DB; 0x8FAFB86A0C61D31E; 0xD9E5DD8186213952;
  0x77F8AAD29FD622E2; 0x25BDA814357871FE; 0x7571174A8FA1F0CA; 0x137FEC60985D6561;
  0x30449EC19DBC7FE7; 0xA540D4DD41F4CF2C; 0xDC206AE0AE7AE916; 0x5B911CD0E2DA55A8;
  0xB2305F90F947131D; 0x344BF9ECBD52C6B7; 0x5D17C665D2433ED0; 0x18224FEEC05EB1FD;
  0x9E59E992844B6457; 0x9A568EBFA4A5DD07; 0xA3C60E68716DA454; 0x7E2CB4C4D7A22456;
  0x87B176304CA0BCBE; 0x413AEEA632F3367D; 0x9915E36BBC67663B; 0x40F03EEA3A465F69;
  0x1C2D28C3E0B008AD; 0x4E682A054A1E5BB1; 0x05C5B761285BD044; 0xE1BF8D1A5B5C2915;
  0xF2C0617AC3014C74; 0xB7F5E8F1D11CC359; 0x63CB4C4B3FA745EF; 0x9D1A84469C89DF6B;
  0xE33630824B2BFB3D; 0xD5F474F6E60EEFA2; 0xF58C6B83FB2D4E18; 0x4676E45F0ADF3411;
  0x20781F751D23A1BA; 0xBD629B3381AA7ED1; 0xAE1D775319F71BB0; 0xFED1C80DA32E9A84;
  0x5509083F92825170; 0x29AC01635557A70E; 0xA7C9694551831D04; 0x8E65682604D4BA0A;
  0x11F651F8882AB749; 0xD77DC96EF6793D8A; 0xEF2799F52B042DCD; 0x48EEF0B07A8730C9;
  0x22F1A2ED0D547392; 0x6142F1D32FD097C7; 0x4A674D286AF0E2E1; 0x80FD7CC9748CBED2;
  0x717E7067AF4F499A; 0x938290A9ECD1DBB3; 0x88E3B293344DD172; 0x2734158C250FA3D6].

Definition T : list (list Z) := [T0; T1; T2; T3; T4; T5; T6; T7].

Module Table.

Definition C : list (list Z) := [
[0xB1; 0x08; 0x5B; 0xDA; 0x1E; 0xCA; 0xDA; 0xE9; 0xEB; 0xCB; 0x2F; 0x81; 0xC0; 0x65; 0x7C; 0x1F;
 0x2F; 0x6A; 0x76; 0x43; 0x2E; 0x45; 0xD0; 0x16; 0x71; 0x4E; 0xB8; 0x8D; 0x75; 0x85; 0xC4; 0xFC;
 0x4B; 0x7C; 0xE0; 0x91; 0x92; 0x67; 0x69; 0x01; 0xA2; 0x42; 0x2A; 0x08; 0xA4; 0x60; 0xD3; 0x15;
 0x05; 0x76; 0x74; 0x36; 0xCC; 0x74; 0x4D; 0x23; 0xDD; 0x80; 0x65; 0x59; 0xF2; 0xA6; 0x45; 0x07];
[0x6F; 0xA3; 0xB5; 0x8A; 0xA9; 0x9D; 0x2F; 0x1A; 0x4F; 0xE3; 0x9D; 0x46; 0x0F; 0x70; 0xB5; 0xD7;
 0xF3; 0xFE; 0xEA; 0x72; 0x0A; 0x23; 0x2B; 0x98; 0x61; 0xD5; 0x5E; 0x0F; 0x16; 0xB5; 0x01; 0x31;
 0x9A; 0xB5; 0x17; 0x6B; 0x12; 0xD6; 0x99; 0x58; 0x5C; 0xB5; 0x61; 0xC2; 0xDB; 0x0A; 0xA7; 0xCA;
 0x55; 0xDD; 0xA2; 0x1B; 0xD7; 0xCB; 0xCD; 0x56; 0xE6; 0x79; 0x04; 0x70; 0x21; 0xB1; 0x9B; 0xB7];
[0xF5; 0x74; 0xDC; 0xAC; 0x2B; 0xCE; 0x2F; 0xC7; 0x0A; 0x39; 0xFC; 0x28; 0x6A; 0x3D; 0x84; 0x35;
 0x06; 0xF1; 0x5E; 0x5F; 0x52; 0x9C; 0x1F; 0x8B; 0xF2; 0xEA; 0x75; 0x14; 0xB1; 0x29; 0x7B; 0x7B;
 0xD3; 0xE2; 0x0F; 0xE4; 0x90; 0x35; 0x9E; 0xB1; 0xC1; 0xC9; 0x3A; 0x37; 0x60; 0x62; 0xDB; 0x09;
 0xC2; 0xB6; 0xF4; 0x43; 0x86; 0x7A; 0xDB; 0x31; 0x99; 0x1E; 0x96; 0xF5; 0x0A; 0xBA; 0x0A; 0xB2];
[0xEF; 0x1F; 0xDF; 0xB3; 0xE8; 0x15; 0x66; 0xD2; 0xF9; 0x48; 0xE1; 0xA0; 0x5D; 0x71; 0xE4; 0xDD;
 0x48; 0x8E; 0x85; 0x7E; 0x33; 0x5C; 0x3C; 0x7D; 0x9D; 0x72; 0x1C; 0xAD; 0x68; 0x5E; 0x35; 0x3F;
 0xA9; 0xD7; 0x2C; 0x82; 0xED; 0x03; 0xD6; 0x75; 0xD8; 0xB7; 0x13; 0x33; 0x93; 0x52; 0x03; 0xBE;
 0x34; 0x53; 0xEA; 0xA1; 0x93; 0xE8; 0x37; 0xF1; 0x22; 0x0C; 0xBE; 0xBC; 0x84; 0xE3; 0xD1; 0x2E];
[0x4B; 0xEA; 0x6B; 0xAC; 0xAD; 0x47; 0x47; 0x99; 0x9A; 0x3F; 0x41; 0x0C; 0x6C; 0xA9; 0x23; 0x63;
 0x7F; 0x15; 0x1C; 0x1F; 0x16; 0x86; 0x10; 0x4A; 0x35; 0x9E; 0x35; 0xD7; 0x80; 0x0F; 0xFF; 0xBD;
 0xBF; 0xCD; 0x17; 0x47; 0x25; 0x3A; 0xF5; 0xA3; 0xDF; 0xFF; 0x00; 0xB7; 0x23; 0x27; 0x1A; 0x16;
 0x7A; 0x56; 0xA2; 0x7E; 0xA9; 0xEA; 0x63; 0xF5; 0x60; 0x17; 0x58; 0xFD; 0x7C; 0x6C; 0xFE; 0x57];
[0xAE; 0x4F; 0xAE; 0xAE; 0x1D; 0x3A; 0xD3; 0xD9; 0x6F; 0xA4; 0xC3; 0x3B; 0x7A; 0x30; 0x39; 0xC0;
 0x2D; 0x66; 0xC4; 0xF9; 0x51; 0x42; 0xA4; 0x6C; 0x18; 0x7F; 0x9A; 0xB4; 0x9A; 0xF0; 0x8E; 0xC6;
 0xCF; 0xFA; 0xA6; 0xB7; 0x1C; 0x9A; 0xB7; 0xB4; 0x0A; 0xF2; 0x1F; 0x66; 0xC2; 0xBE; 0xC6; 0xB6;
 0xBF; 0x71; 0xC5; 0x72; 0x36; 0x90; 0x4F; 0x35; 0xFA; 0x68; 0x40; 0x7A; 0x46; 0x64; 0x7D; 0x6E];
[0xF4; 0xC7; 0x0E; 0x16; 0xEE; 0xAA; 0xC5; 0xEC; 0x51; 0xAC; 0x86; 0xFE; 0xBF; 0x24; 0x09; 0x54;
 0x39; 0x9E; 0xC6; 0xC7; 0xE6; 0xBF; 0x87; 0xC9; 0xD3; 0x47; 0x3E; 0x33; 0x19; 0x7A; 0x93; 0xC9;
 0x09; 0x92; 0xAB; 0xC5; 0x2D; 0x82; 0x2C; 0x37; 0x06; 0x47; 0x69; 0x83; 0x28; 0x4A; 0x05; 0x04;
 0x35; 0x17; 0x45; 0x4C; 0xA2; 0x3C; 0x4A; 0xF3; 0x88; 0x86; 0x56; 0x4D; 0x3A; 0x14; 0xD4; 0x93];
[0x9B; 0x1F; 0x5B; 0x42; 0x4D; 0x93; 0xC9; 0xA7; 0x03; 0xE7; 0xAA; 0x02; 0x0C; 0x6E; 0x41; 0x41;
 0x4E; 0xB7; 0xF8; 0x71; 0x9C; 0x36; 0xDE; 0x1E; 0x89; 0xB4; 0x44; 0x3B; 0x4D; 0xDB; 0xC4; 0x9A;
 0xF4; 0x89; 0x2B; 0xCB; 0x92; 0x9B; 0x06; 0x90; 0x69; 0xD1; 0x8D; 0x2B; 0xD1; 0xA5; 0xC4; 0x2F;
 0x36; 0xAC; 0xC2; 0x35; 0x59; 0x51; 0xA8; 0xD9; 0xA4; 0x7F; 0x0D; 0xD4; 0xBF; 0x02; 0xE7; 0x1E];
[0x37; 0x8F; 0x5A; 0x54; 0x16; 0x31; 0x22; 0x9B; 0x94; 0x4C; 0x9A; 0xD8; 0xEC; 0x16; 0x5F; 0xDE;
 0x3A; 0x7D; 0x3A; 0x1B; 0x25; 0x89; 0x42; 0x24; 0x3C; 0xD9; 0x55; 0xB7; 0xE0; 0x0D; 0x09; 0x84;
 0x80; 0x0A; 0x44; 0x0B; 0xDB; 0xB2; 0xCE; 0xB1; 0x7B; 0x2B; 0x8A; 0x9A; 0xA6; 0x07; 0x9C; 0x54;
 0x0E; 0x38; 0xDC; 0x92; 0xCB; 0x1F; 0x2A; 0x60; 0x72; 0x61; 0x44; 0x51; 0x83; 0x23; 0x5A; 0xDB];
[0xAB; 0xBE; 0xDE; 0xA6; 0x80; 0x05; 0x6F; 0x52; 0x38; 0x2A; 0xE5; 0x48; 0xB2; 0xE4; 0xF3; 0xF3;
 0x89; 0x41; 0xE7; 0x1C; 0xFF; 0x8A; 0x78; 0xDB; 0x1F; 0xFF; 0xE1; 0x8A; 0x1B; 0x33; 0x61; 0x03;
 0x9F; 0xE7; 0x67; 0x02; 0xAF; 0x69; 0x33; 0x4B; 0x7A; 0x1E; 0x6C; 0x30; 0x3B; 0x76; 0x52; 0xF4;
 0x36; 0x98; 0xFA; 0xD1; 0x15; 0x3B; 0xB6; 0xC3; 0x74; 0xB4; 0xC7; 0xFB; 0x98; 0x45; 0x9C; 0xED];
[0x7B; 0xCD; 0x9E; 0xD0; 0xEF; 0xC8; 0x89; 0xFB; 0x30; 0x02; 0xC6; 0xCD; 0x63; 0x5A; 0xFE; 0x94;
 0xD8; 0xFA; 0x6B; 0xBB; 0xEB; 0xAB; 0x07; 0x61; 0x20; 0x01; 0x80; 0x21; 0x14; 0x84; 0x66; 0x79;
 0x8A; 0x1D; 0x71; 0xEF; 0xEA; 0x48; 0xB9; 0xCA; 0xEF; 0xBA; 0xCD; 0x1D; 0x7D; 0x47; 0x6E; 0x98;
 0xDE; 0xA2; 0x59; 0x4A; 0xC0; 0x6F; 0xD8; 0x5D; 0x6B; 0xCA; 0xA4; 0xCD; 0x81; 0xF3; 0x2D; 0x1B];
[0x37; 0x8E; 0xE7; 0x67; 0xF1; 0x16; 0x31; 0xBA; 0xD2; 0x13; 0x80; 0xB0; 0x04; 0x49; 0xB1; 0x7A;
 0xCD; 0xA4; 0x3C; 0x32; 0xBC; 0xDF; 0x1D; 0x77; 0xF8; 0x20; 0x12; 0xD4; 0x30; 0x21; 0x9F; 0x9B;
 0x5D; 0x80; 0xEF; 0x9D; 0x18; 0x91; 0xCC; 0x86; 0xE7; 0x1D; 0xA4; 0xAA; 0x88; 0xE1; 0x28; 0x52;
 0xFA; 0xF4; 0x17; 0xD5; 0xD9; 0xB2; 0x1B; 0x99; 0x48; 0xBC; 0x92; 0x4A; 0xF1; 0x1B; 0xD7; 0x20]].

End Table.

Module Standard.

Definition A : list Z := [
0x8e20faa72ba0b470; 0x47107ddd9b505a38; 0xad08b0e0c3282d1c; 0xd8045870ef14980e;
0x6c022c38f90a4c07; 0x3601161cf205268d; 0x1b8e0b0e798c13c8; 0x83478b07b2468764;
0xa011d380818e8f40; 0x5086e740ce47c920; 0x2843fd2067adea10; 0x14aff010bdd87508;
0x0ad97808d06cb404; 0x05e23c0468365a02; 0x8c711e02341b2d01; 0x46b60f011a83988e;
0x90dab52a387ae76f; 0x486dd4151c3dfdb9; 0x24b86a840e90f0d2; 0x125c354207487869;
0x092e94218d243cba; 0x8a174a9ec8121e5d; 0x4585254f64090fa0; 0xaccc9ca9328a8950;
0x9d4df05d5f661451; 0xc0a878a0a1330aa6; 0x60543c50de970553; 0x302a1e286fc58ca7;
0x18150f14b9ec46dd; 0x0c84890ad27623e0; 0x0642ca05693b9f70; 0x0321658cba93c138;
0x86275df09ce8aaa8; 0x439da0784e745554; 0xafc0503c273aa42a; 0xd960281e9d1d5215;
0xe230140fc0802984; 0x71180a8960409a42; 0xb60c05ca30204d21; 0x5b068c651810a89e;
0x456c34887a3805b9; 0xac361a443d1c8cd2; 0x561b0d22900e4669; 0x2b838811480723ba;
0x9bcf4486248d9f5d; 0xc3e9224312c8c1a0; 0xeffa11af0964ee50; 0xf97d86d98a327728;
0xe4fa2054a80b329c; 0x727d102a548b194e; 0x39b008152acb8227; 0x9258048415eb419d;
0x492c024284fbaec0; 0xaa16012142f35760; 0x550b8e9e21f7a530; 0xa48b474f9ef5dc18;
0x70a6a56e2440598e; 0x3853dc371220a247; 0x1ca76e95091051ad; 0x0edd37c48a08a6d8;
0x07e095624504536c; 0x8d70c431ac02a736; 0xc83862965601dd1b; 0x641c314b2b8ee083].

Definition Sbox : list Z := [
0xFC; 0xEE; 0xDD; 0x11; 0xCF; 0x6E; 0x31; 0x16; 0xFB; 0xC4; 0xFA; 0xDA; 0x23; 0xC5; 0x04; 0x4D;
0xE9; 0x77; 0xF0; 0xDB; 0x93; 0x2E; 0x99; 0xBA; 0x17; 0x36; 0xF1; 0xBB; 0x14; 0xCD; 0x5F; 0xC1;
0xF9; 0x18; 0x65; 0x5A; 0xE2; 0x5C; 0xEF; 0x21; 0x81; 0x1C; 0x3C; 0x42; 0x8B; 0x01; 0x8E; 0x4F;
0x05; 0x84; 0x02; 0xAE; 0xE3; 0x6A; 0x8F; 0xA0; 0x06; 0x0B; 0xED; 0x98; 0x7F; 0xD4; 0xD3; 0x1F;
0xEB; 0x34; 0x2C; 0x51; 0xEA; 0xC8; 0x48; 0xAB; 0xF2; 0x2A; 0x68; 0xA2; 0xFD; 0x3A; 0xCE; 0xCC;
0xB5; 0x70; 0x0E; 0x56; 0x08; 0x0C; 0x76; 0x12; 0xBF; 0x72; 0x13; 0x47; 0x9C; 0xB7; 0x5D; 0x87;
0x15; 0xA1; 0x96; 0x29; 0x10; 0x7B; 0x9A; 0xC7; 0xF3; 0x91; 0x78; 0x6F; 0x9D; 0x9E; 0xB2; 0xB1;
0x32; 0x75; 0x19; 0x3D; 0xFF; 0x35; 0x8A; 0x7E; 0x6D; 0x54; 0xC6; 0x80; 0xC3; 0xBD; 0x0D; 0x57;
0xDF; 0xF5; 0x24; 0xA9; 0x3E; 0xA8; 0x43; 0xC9; 0xD7; 0x79; 0xD6; 0xF6; 0x7C; 0x22; 0xB9; 0x03;
0xE0; 0x0F; 0xEC; 0xDE; 0x7A; 0x94; 0xB0; 0xBC; 0xDC; 0xE8; 0x28; 0x50; 0x4E; 0x33; 0x0A; 0x4A;
0xA7; 0x97; 0x60; 0x73; 0x1E; 0x00; 0x62; 0x44; 0x1A; 0xB8; 0x38; 0x82; 0x64; 0x9F; 0x26; 0x41;
0xAD; 0x45; 0x46; 0x92; 0x27; 0x5E; 0x55; 0x2F; 0x8C; 0xA3; 0xA5; 0x7D; 0x69; 0xD5; 0x95; 0x3B;
0x07; 0x58; 0xB3; 0x40; 0x86; 0xAC; 0x1D; 0xF7; 0x30; 0x37; 0x6B; 0xE4; 0x88; 0xD9; 0xE7; 0x89;
0xE1; 0x1B; 0x83; 0x49; 0x4C; 0x3F; 0xF8; 0xFE; 0x8D; 0x53; 0xAA; 0x90; 0xCA; 0xD8; 0x85; 0x61;
0x20; 0x71; 0x67; 0xA4; 0x2D; 0x2B; 0x09; 0x5B; 0xCB; 0x9B; 0x25; 0xD0; 0xBE; 0xE5; 0x6C; 0x52;
0x59; 0xA6; 0x74; 0xD2; 0xE6; 0xF4; 0xB4; 0xC0; 0xD1; 0x66; 0xAF; 0xC2; 0x39; 0x4B; 0x63; 0xB6].

Definition Tau : list nat := [
0; 8; 16; 24; 32; 40; 48; 56;
1; 9; 17; 25; 33; 41; 49; 57;
2; 10; 18; 26; 34; 42; 50; 58;
3; 11; 19; 27; 35; 43; 51; 59;
4; 12; 20; 28; 36; 44; 52; 60;
5; 13; 21; 29; 37; 45; 53; 61;
6; 14; 22; 30; 38; 46; 54; 62;
7; 15; 23; 31; 39; 47; 55; 63]%nat.

Definition C : list (list Z) := [
[0xb1; 0x08; 0x5b; 0xda; 0x1e; 0xca; 0xda; 0xe9; 0xeb; 0xcb; 0x2f; 0x81; 0xc0; 0x65; 0x7c; 0x1f;
 0x2f; 0x6a; 0x76; 0x43; 0x2e; 0x45; 0xd0; 0x16; 0x71; 0x4e; 0xb8; 0x8d; 0x75; 0x85; 0xc4; 0xfc;
 0x4b; 0x7c; 0xe0; 0x91; 0x92; 0x67; 0x69; 0x01; 0xa2; 0x42; 0x2a; 0x08; 0xa4; 0x60; 0xd3; 0x15;
 0x05; 0x76; 0x74; 0x36; 0xcc; 0x74; 0x4d; 0x23; 0xdd; 0x80; 0x65; 0x59; 0xf2; 0xa6; 0x45; 0x07];
[0x6f; 0xa3; 0xb5; 0x8a; 0xa9; 0x9d; 0x2f; 0x1a; 0x4f; 0xe3; 0x9d; 0x46; 0x0f; 0x70; 0xb5; 0xd7;
 0xf3; 0xfe; 0xea; 0x72; 0x0a; 0x23; 0x2b; 0x98; 0x61; 0xd5; 0x5e; 0x0f; 0x16; 0xb5; 0x01; 0x31;
 0x9a; 0xb5; 0x17; 0x6b; 0x12; 0xd6; 0x99; 0x58; 0x5c; 0xb5; 0x61; 0xc2; 0xdb; 0x0a; 0xa7; 0xca;
 0x55; 0xdd; 0xa2; 0x1b; 0xd7; 0xcb; 0xcd; 0x56; 0xe6; 0x79; 0x04; 0x70; 0x21; 0xb1; 0x9b; 0xb7];
[0xf5; 0x74; 0xdc; 0xac; 0x2b; 0xce; 0x2f; 0xc7; 0x0a; 0x39; 0xfc; 0x28; 0x6a; 0x3d; 0x84; 0x35;
 0x06; 0xf1; 0x5e; 0x5f; 0x52; 0x9c; 0x1f; 0x8b; 0xf2; 0xea; 0x75; 0x14; 0xb1; 0x29; 0x7b; 0x7b;
 0xd3; 0xe2; 0x0f; 0xe4; 0x90; 0x35; 0x9e; 0xb1; 0xc1; 0xc9; 0x3a; 0x37; 0x60; 0x62; 0xdb; 0x09;
 0xc2; 0xb6; 0xf4; 0x43; 0x86; 0x7a; 0xdb; 0x31; 0x99; 0x1e; 0x96; 0xf5; 0x0a; 0xba; 0x0a; 0xb2];
[0xef; 0x1f; 0xdf; 0xb3; 0xe8; 0x15; 0x66; 0xd2; 0xf9; 0x48; 0xe1; 0xa0; 0x5d; 0x71; 0xe4; 0xdd;
 0x48; 0x8e; 0x85; 0x7e; 0x33; 0x5c; 0x3c; 0x7d; 0x9d; 0x72; 0x1c; 0xad; 0x68; 0x5e; 0x35; 0x3f;
 0xa9; 0xd7; 0x2c; 0x82; 0xed; 0x03; 0xd6; 0x75; 0xd8; 0xb7; 0x13; 0x33; 0x93; 0x52; 0x03; 0xbe;
 0x34; 0x53; 0xea; 0xa1; 0x93; 0xe8; 0x37; 0xf1; 0x22; 0x0c; 0xbe; 0xbc; 0x84; 0xe3; 0xd1; 0x2e];
[0x4b; 0xea; 0x6b; 0xac; 0xad; 0x47; 0x47; 0x99; 0x9a; 0x3f; 0x41; 0x0c; 0x6c; 0xa9; 0x23; 0x63;
 0x7f; 0x15; 0x1c; 0x1f; 0x16; 0x86; 0x10; 0x4a; 0x35; 0x9e; 0x35; 0xd7; 0x80; 0x0f; 0xff; 0xbd;
 0xbf; 0xcd; 0x17; 0x47; 0x25; 0x3a; 0xf5; 0xa3; 0xdf; 0xff; 0x00; 0xb7; 0x23; 0x27; 0x1a; 0x16;
 0x7a; 0x56; 0xa2; 0x7e; 0xa9; 0xea; 0x63; 0xf5; 0x60; 0x17; 0x58; 0xfd; 0x7c; 0x6c; 0xfe; 0x57];
[0xae; 0x4f; 0xae; 0xae; 0x1d; 0x3a; 0xd3; 0xd9; 0x6f; 0xa4; 0xc3; 0x3b; 0x7a; 0x30; 0x39; 0xc0;
 0x2d; 0x66; 0xc4; 0xf9; 0x51; 0x42; 0xa4; 0x6c; 0x18; 0x7f; 0x9a; 0xb4; 0x9a; 0xf0; 0x8e; 0xc6;
 0xcf; 0xfa; 0xa6; 0xb7; 0x1c; 0x9a; 0xb7; 0xb4; 0x0a; 0xf2; 0x1f; 0x66; 0xc2; 0xbe; 0xc6; 0xb6;
 0xbf; 0x71; 0xc5; 0x72; 0x36; 0x90; 0x4f; 0x35; 0xfa; 0x68; 0x40; 0x7a; 0x46; 0x64; 0x7d; 0x6e];
[0xf4; 0xc7; 0x0e; 0x16; 0xee; 0xaa; 0xc5; 0xec; 0x51; 0xac; 0x86; 0xfe; 0xbf; 0x24; 0x09; 0x54;
 0x39; 0x9e; 0xc6; 0xc7; 0xe6; 0xbf; 0x87; 0xc9; 0xd3; 0x47; 0x3e; 0x33; 0x19; 0x7a; 0x93; 0xc9;
 0x09; 0x92; 0xab; 0xc5; 0x2d; 0x82; 0x2c; 0x37; 0x06; 0x47; 0x69; 0x83; 0x28; 0x4a; 0x05; 0x04;
 0x35; 0x17; 0x45; 0x4c; 0xa2; 0x3c; 0x4a; 0xf3; 0x88; 0x86; 0x56; 0x4d; 0x3a; 0x14; 0xd4; 0x93];
[0x9b; 0x1f; 0x5b; 0x42; 0x4d; 0x93; 0xc9; 0xa7; 0x03; 0xe7; 0xaa; 0x02; 0x0c; 0x6e; 0x41; 0x41;
 0x4e; 0xb7; 0xf8; 0x71; 0x9c; 0x36; 0xde; 0x1e; 0x89; 0xb4; 0x44; 0x3b; 0x4d; 0xdb; 0xc4; 0x9a;
 0xf4; 0x89; 0x2b; 0xcb; 0x92; 0x9b; 0x06; 0x90; 0x69; 0xd1; 0x8d; 0x2b; 0xd1; 0xa5; 0xc4; 0x2f;
 0x36; 0xac; 0xc2; 0x35; 0x59; 0x51; 0xa8; 0xd9; 0xa4; 0x7f; 0x0d; 0xd4; 0xbf; 0x02; 0xe7; 0x1e];
[0x37; 0x8f; 0x5a; 0x54; 0x16; 0x31; 0x22; 0x9b; 0x94; 0x4c; 0x9a; 0xd8; 0xec; 0x16; 0x5f; 0xde;
 0x3a; 0x7d; 0x3a; 0x1b; 0x25; 0x89; 0x42; 0x24; 0x3c; 0xd9; 0x55; 0xb7; 0xe0; 0x0d; 0x09; 0x84;
 0x80; 0x0a; 0x44; 0x0b; 0xdb; 0xb2; 0xce; 0xb1; 0x7b; 0x2b; 0x8a; 0x9a; 0xa6; 0x07; 0x9c; 0x54;
 0x0e; 0x38; 0xdc; 0x92; 0xcb; 0x1f; 0x2a; 0x60; 0x72; 0x61; 0x44; 0x51; 0x83; 0x23; 0x5a; 0xdb];
[0xab; 0xbe; 0xde; 0xa6; 0x80; 0x05; 0x6f; 0x52; 0x38; 0x2a; 0xe5; 0x48; 0xb2; 0xe4; 0xf3; 0xf3;
 0x89; 0x41; 0xe7; 0x1c; 0xff; 0x8a; 0x78; 0xdb; 0x1f; 0xff; 0xe1; 0x8a; 0x1b; 0x33; 0x61; 0x03;
 0x9f; 0xe7; 0x67; 0x02; 0xaf; 0x69; 0x33; 0x4b; 0x7a; 0x1e; 0x6c; 0x30; 0x3b; 0x76; 0x52; 0xf4;
 0x36; 0x98; 0xfa; 0xd1; 0x15; 0x3b; 0xb6; 0xc3; 0x74; 0xb4; 0xc7; 0xfb; 0x98; 0x45; 0x9c; 0xed];
[0x7b; 0xcd; 0x9e; 0xd0; 0xef; 0xc8; 0x89; 0xfb; 0x30; 0x02; 0xc6; 0xcd; 0x63; 0x5a; 0xfe; 0x94;
 0xd8; 0xfa; 0x6b; 0xbb; 0xeb; 0xab; 0x07; 0x61; 0x20; 0x01; 0x80; 0x21; 0x14; 0x84; 0x66; 0x79;
 0x8a; 0x1d; 0x71; 0xef; 0xea; 0x48; 0xb9; 0xca; 0xef; 0xba; 0xcd; 0x1d; 0x7d; 0x47; 0x6e; 0x98;
 0xde; 0xa2; 0x59; 0x4a; 0xc0; 0x6f; 0xd8; 0x5d; 0x6b; 0xca; 0xa4; 0xcd; 0x81; 0xf3; 0x2d; 0x1b];
[0x37; 0x8e; 0xe7; 0x67; 0xf1; 0x16; 0x31; 0xba; 0xd2; 0x13; 0x80; 0xb0; 0x04; 0x49; 0xb1; 0x7a;
 0xcd; 0xa4; 0x3c; 0x32; 0xbc; 0xdf; 0x1d; 0x77; 0xf8; 0x20; 0x12; 0xd4; 0x30; 0x21; 0x9f; 0x9b;
 0x5d; 0x80; 0xef; 0x9d; 0x18; 0x91; 0xcc; 0x86; 0xe7; 0x1d; 0xa4; 0xaa; 0x88; 0xe1; 0x28; 0x52;
 0xfa; 0xf4; 0x17; 0xd5; 0xd9; 0xb2; 0x1b; 0x99; 0x48; 0xbc; 0x92; 0x4a; 0xf1; 0x1b; 0xd7; 0x20]].

End Standard.
