(* ===== verification/Streebog.v ===== *)
(** * Streebog (GOST R 34.11-2012): src/crypto/hashing/streebog

    The two implementations of the repository: the byte-oriented one of
    standard/stribog.c, and the table-driven one of table/stribog.c, which is the one
    that is compiled.  They are proved equivalent, and the table-driven one is proved to
    compute the hash function of the standard, stated on 512-bit numbers. *)

From S2P Require Import Prelude Words StreebogTables.

(** ** The source: what the two files share *)

(** [t = A[i] + B[i] + (t >> 8); C[i] = t & 0xFF] for i from 63 down to 0.  The output may
    be one of the inputs: position i is read before it is written. *)
Definition AddModulo512 (a b c : list Z) : list Z :=
  (for_up 64 (fun k '(t, c) =>
    let i := (63 - k)%nat in
    let t := a.[i] + b.[i] + (t >> 8) in
    (t, <[i := t .& 0xFF]> c)) (0, c)).2.

(** On the arrays seen as eight 64-bit words. *)
Definition AddXor512 (a b : list Z) : list Z :=
  words_to_bytes (xor_list (bytes_to_words 8 a) (bytes_to_words 8 b)).

Module HashX.
Section HashX.
Context (g_N : list Z -> list Z -> list Z -> list Z).

Definition zeros64 : list Z := replicate 64 0.
Definition v512_init : list Z := replicate 62 0 ++ [0x02; 0x00].

(** [(len & 0x7) == 0] as an int *)
Definition whole_bytes (len : Z) : Z := if (len .& 7) =? 0 then 1 else 0.

Record hash_state := mk_state { N : list Z; hash : list Z; Sigma : list Z; len : Z }.

(** Stage 2: [while (len >= 512)]. *)
Fixpoint stage2 (fuel : nat) (message : list Z) (s : hash_state) : hash_state :=
match fuel with
| O => s
| S fuel =>
  if 512 <=? len s then
    let m := mem_read message (Z.to_nat (len s / 8 - 63 - whole_bytes (len s))) 64 in
    let hash := g_N (N s) (hash s) m in
    let N := AddModulo512 (N s) v512_init (N s) in
    let Sigma := AddModulo512 (Sigma s) m (Sigma s) in
    stage2 fuel message (mk_state N hash Sigma (len s - 512))
  else s
end.

(** The last block: what is left of the message below a one bit. *)
Definition last_block (message : list Z) (len : Z) : list Z :=
let m := replicate 64 0 in
let m := mem_write m (Z.to_nat (63 - len / 8 + whole_bytes len))
  (mem_read message 0 (Z.to_nat (len / 8 + 1 - whole_bytes len))) in
let i := Z.to_nat (63 - len / 8) in
<[i := m.[i] .| u8 (1 << (len .& 7))]> m.

(** Stage 3. *)
Definition stage3 (message : list Z) (s : hash_state) : list Z :=
let m := last_block message (len s) in
let hash := g_N (N s) (hash s) m in
let v512 := <[63%nat := len s .& 0xFF]> v512_init in
let v512 := <[62%nat := u8 (len s >> 8)]> v512 in
let N := AddModulo512 (N s) v512 (N s) in
let Sigma := AddModulo512 (Sigma s) m (Sigma s) in
let hash := g_N zeros64 hash N in
g_N zeros64 hash Sigma.

Definition hash_X (IV message : list Z) (length : Z) (out : list Z) : list Z :=
let s := stage2 (Z.to_nat (length / 512)) message
  {| N := zeros64; hash := IV; Sigma := zeros64; len := length |} in
mem_write out 0 (stage3 message s).

Definition hash_512 (message : list Z) (length : Z) (out : list Z) : list Z :=
hash_X (replicate 64 0) message length out.

Definition hash_256 (message : list Z) (length : Z) (out : list Z) : list Z :=
let hash := hash_X (replicate 64 1) message length (replicate 64 0) in
mem_write out 0 (take 32 hash).
End HashX.
End HashX.

(** ** The source: standard/stribog.c *)

Module Standard.
Import StreebogTables.Standard.

Definition S (state : list Z) : list Z :=
  for_up 64 (fun i state => <[i := Sbox.[Z.to_nat state.[i]]]> state) state.

Definition L (state : list Z) : list Z :=
  for_up 8 (fun i state =>
    let v := for_up 8 (fun k v => for_up 8 (fun j v =>
      if (state.[i * 8 + k] .& (1 << Z.of_nat (7 - j))) =? 0 then v
      else v ^^ A.[k * 8 + j]) v) 0 in
    for_up 8 (fun k state =>
      <[(i * 8 + k)%nat := (v .& (0xFF << (Z.of_nat (7 - k) * 8))) >> (Z.of_nat (7 - k) * 8)]>
        state) state) state.

Definition P (state : list Z) : list Z :=
  let t := for_up 64 (fun i t => <[i := state.[nth i Tau 0%nat]]> t) (replicate 64 0) in
  mem_write state 0 t.

Definition KeySchedule (K : list Z) (i : nat) : list Z :=
  L (P (S (AddXor512 K (nth i C [])))).

(** The key and the state after the twelve rounds. *)
Definition E (K m : list Z) : list Z * list Z :=
  for_up 12 (fun i '(K, state) =>
    let state := L (P (S state)) in
    let K := KeySchedule K i in
    (K, AddXor512 state K)) (K, AddXor512 m K).

Definition g_N (N h m : list Z) : list Z :=
  let K := L (P (S (AddXor512 N h))) in
  let t := (E K m).2 in
  let t := AddXor512 t h in
  AddXor512 t m.

Definition hash_512 := HashX.hash_512 g_N.
Definition hash_256 := HashX.hash_256 g_N.
End Standard.

(** ** The source: table/stribog.c *)

Module Table.
Import StreebogTables.Table.

(** [T[k][x]] *)
Definition T_at (k : nat) (x : Z) : Z := (nth k T []).[Z.to_nat x].

(** One of the eight words that [F] computes. *)
Definition F_word (state : list Z) (i : nat) : Z :=
  let r := 0 in
  let r := r ^^ T_at 0 state.[56 + i] in
  let r := r ^^ T_at 1 state.[48 + i] in
  let r := r ^^ T_at 2 state.[40 + i] in
  let r := r ^^ T_at 3 state.[32 + i] in
  let r := r ^^ T_at 4 state.[24 + i] in
  let r := r ^^ T_at 5 state.[16 + i] in
  let r := r ^^ T_at 6 state.[8 + i] in
  r ^^ T_at 7 state.[0 + i].

Definition F (state : list Z) : list Z :=
  let return_state := F_word state <$> [0; 1; 2; 3; 4; 5; 6; 7]%nat in
  mem_write state 0 (words_to_bytes return_state).

Definition KeySchedule (K : list Z) (i : nat) : list Z := F (AddXor512 K (nth i C [])).

Definition E (K m : list Z) : list Z * list Z :=
  for_up 12 (fun i '(K, state) =>
    let state := F state in
    let K := KeySchedule K i in
    (K, AddXor512 state K)) (K, AddXor512 m K).

Definition g_N (N h m : list Z) : list Z :=
  let K := F (AddXor512 N h) in
  let t := (E K m).2 in
  let t := AddXor512 t h in
  AddXor512 t m.

Definition hash_512 := HashX.hash_512 g_N.
Definition hash_256 := HashX.hash_256 g_N.
End Table.


(** ** Exclusive or *)

Definition is_block (bs : list Z) : Prop := bytes bs /\ length bs = 64%nat.

Lemma AddXor512_xor a b : bytes a -> bytes b -> length a = 64%nat -> length b = 64%nat ->
  AddXor512 a b = xor_list a b.
Proof.
  intros Ha Hb Hla Hlb. unfold AddXor512.
  now rewrite words_to_bytes_xor, !words_bytes_round by (autorewrite with lens; done).
Qed.

Lemma lxor_rev_8 a b c d e f g h :
  a ^^ b ^^ c ^^ d ^^ e ^^ f ^^ g ^^ h = h ^^ g ^^ f ^^ e ^^ d ^^ c ^^ b ^^ a.
Proof.
  apply Z.bits_inj'. intros i _. rewrite !Z.lxor_spec.
  repeat match goal with |- context [Z.testbit ?x i] => destruct (Z.testbit x i) end;
    reflexivity.
Qed.

(** ** The table-driven round *)

Module Rounds.
Import StreebogTables.Standard Standard Table.

(** The contribution of a byte in column [k] to a row of the linear layer. *)
Definition lin_byte (k : nat) (x : Z) : Z :=
  for_up 8 (fun j v => if (x .& (1 << Z.of_nat (7 - j))) =? 0 then v
    else v ^^ A.[k * 8 + j]) 0.

Definition lin_row (r : list Z) : Z := for_up 8 (fun k v => v ^^ lin_byte k r.[k]) 0.

Lemma S_spec state : length state = 64%nat -> S state = (fun x => Sbox.[Z.to_nat x]) <$> state.
Proof. intros H. unfold S. rewrite <- H. apply (for_up_map (fun x => Sbox.[Z.to_nat x])). Qed.

Lemma P_spec state : length state = 64%nat ->
  P state = (fun i => state.[nth i Tau 0%nat]) <$> seq 0 64.
Proof.
  intros H. unfold P. rewrite (store_up _ 0 (fun i => state.[nth i Tau 0%nat])) by
    (rewrite length_replicate; lia).
  rewrite (mem_write_full (replicate 64 0)), mem_write_full; rewrite ?length_replicate, ?length_fmap_seq;
    simpl; rewrite ?length_fmap_seq; try lia; reflexivity.
Qed.

Lemma lin_row_loops state i : (i * 8 + 8 <= length state)%nat ->
  for_up 8 (fun k v => for_up 8 (fun j v =>
    if (state.[i * 8 + k] .& (1 << Z.of_nat (7 - j))) =? 0 then v
    else v ^^ A.[k * 8 + j]) v) 0 = lin_row (mem_read state (i * 8) 8).
Proof.
  intros H. unfold lin_row. apply for_up_ext. intros k v Hk.
  rewrite nth_mem_read by done. unfold lin_byte. set (x := state.[i * 8 + k]).
  assert (E : forall v, for_up 8 (fun j v => if (x .& (1 << Z.of_nat (7 - j))) =? 0 then v
    else v ^^ A.[k * 8 + j]) v = for_up 8 (fun j v => v ^^
      (if (x .& (1 << Z.of_nat (7 - j))) =? 0 then 0 else A.[k * 8 + j])) v).
  { intros v'. apply for_up_ext. intros j w Hj. destruct (_ =? 0); [|done].
    now rewrite Z.lxor_0_r. }
  rewrite !E. apply for_up_lxor.
Qed.

Lemma L_spec state (Hl : length state = 64%nat) :
  L state = mjoin ((fun i => be_split 8 (lin_row (mem_read state (i * 8) 8))) <$> seq 0 8).
Proof.
  unfold L.
  pose proof (for_up_rows 8 8 (fun _ r => be_split 8 (lin_row r)) state) as E.
  rewrite drop_ge, app_nil_r in E by lia. rewrite <- E;
    [|lia|intros; apply length_be_split]. clear E.
  refine (proj1 (for_up_ext_inv (fun s => length s = 64%nat) _ _ _ _ Hl _)). intros i s Hi Hs.
  rewrite lin_row_loops by lia. set (v := lin_row _).
  rewrite (store_up s (i * 8) (fun k => (v .& (0xFF << (Z.of_nat (7 - k) * 8)))
    >> (Z.of_nat (7 - k) * 8))) by lia.
  replace (_ <$> seq 0 8) with (be_split 8 v);
    [split; [done|rewrite length_mem_write; rewrite ?length_be_split; lia]|].
  rewrite <- (fmap_nth_seq (be_split 8 v) 0), length_be_split. apply fmap_seq_ext.
  intros k Hk. rewrite nth_be_split_8 by done. clearbody v.
  replace (8 * (7 - Z.of_nat k)) with (Z.of_nat (7 - k) * 8) by lia.
  unfold u8. rewrite Z.shiftr_land. f_equal. rewrite Z.shiftr_shiftl_l, Z.sub_diag by lia.
  apply Z.shiftl_0_r.
Qed.

(** The tables of [F] fold the S-box, the transposition and the linear layer. *)
Lemma T_check : all_below 8 (fun q => all_below 256 (fun x =>
  bool_decide (le_split 8 (T_at q (Z.of_nat x)) =
    be_split 8 (lin_byte (7 - q) Sbox.[x])))) = true.
Proof. vm_compute. reflexivity. Qed.

Lemma T_at_spec q x : (q < 8)%nat -> is_byte x ->
  le_split 8 (T_at q x) = be_split 8 (lin_byte (7 - q) Sbox.[Z.to_nat x]).
Proof.
  intros Hq [H0 Hx]. pose proof T_check as H.
  apply all_below_spec with (i := q) in H; [|done].
  apply all_below_spec with (i := Z.to_nat x) in H; [|change (2 ^ 8) with 256 in Hx; lia].
  rewrite Z2Nat.id in H by done. now apply bool_decide_eq_true in H.
Qed.

#[local] Opaque T_at lin_byte be_split.

Lemma lin_row_unfold r : lin_row r =
  lin_byte 0 r.[0] ^^ lin_byte 1 r.[1] ^^ lin_byte 2 r.[2] ^^ lin_byte 3 r.[3] ^^
  lin_byte 4 r.[4] ^^ lin_byte 5 r.[5] ^^ lin_byte 6 r.[6] ^^ lin_byte 7 r.[7].
Proof. unfold lin_row. now rewrite !for_up_S, for_up_0, Z.lxor_0_l. Qed.

Lemma F_word_spec state i : bytes state -> (i < 8)%nat ->
  le_split 8 (F_word state i) =
  be_split 8 (lin_row ((fun k => Sbox.[Z.to_nat state.[8 * k + i]]) <$> seq 0 8)).
Proof.
  intros Hb Hi. unfold F_word. cbv zeta. rewrite Z.lxor_0_l, lxor_rev_8.
  assert (Hbyte : forall k, is_byte state.[k])
    by (intros; apply Forall_nth_Z; auto with words).
  assert (HT : forall q k, (q < 8)%nat -> le_split 8 (T_at q state.[k]) =
    be_split 8 (lin_byte (7 - q) Sbox.[Z.to_nat state.[k]])) by (intros; now apply T_at_spec).
  rewrite lin_row_unfold, !nth_fmap_seq by lia.
  rewrite !le_split_lxor, !HT, <- !be_split_lxor by lia. now rewrite Nat.mul_0_r.
Qed.

Lemma Tau_spec i k : (i < 8)%nat -> (k < 8)%nat -> nth (i * 8 + k) Tau 0%nat = (8 * k + i)%nat.
Proof.
  intros Hi Hk.
  assert (H : all_below 8 (fun i => all_below 8 (fun k =>
    nth (i * 8 + k) Tau 0 =? 8 * k + i)%nat) = true) by reflexivity.
  apply all_below_spec with (i := i) in H; [|done].
  apply all_below_spec with (i := k) in H; [|done]. now apply Nat.eqb_eq in H.
Qed.

Lemma F_LPS state : bytes state -> length state = 64%nat -> F state = L (P (S state)).
Proof.
  intros Hb Hl. rewrite S_spec by done. set (s1 := _ <$> state).
  assert (Hl1 : length s1 = 64%nat) by (unfold s1; now rewrite length_fmap).
  rewrite P_spec by done. rewrite L_spec by apply length_fmap_seq.
  unfold F. rewrite mem_write_full by (rewrite ?length_words_to_bytes; simpl; lia).
  rewrite take_0. cbn [app]. unfold words_to_bytes.
  change [0; 1; 2; 3; 4; 5; 6; 7]%nat with (seq 0 8).
  rewrite <- list_fmap_compose. f_equal. apply fmap_seq_ext. intros i Hi. unfold compose.
  rewrite F_word_spec by done. do 2 f_equal.
  apply (nth_ext_eq _ _ 0); rewrite length_fmap_seq;
    [rewrite length_mem_read; rewrite ?length_fmap_seq; lia|].
  intros k Hk. rewrite nth_mem_read, !nth_fmap_seq, Tau_spec by lia.
  symmetry. apply (nth_fmap_lt (fun x => Sbox.[Z.to_nat x])). lia.
Qed.

(** The results are 64 bytes again. *)
Lemma F_bytes state : bytes state -> length state = 64%nat ->
  bytes (F state) /\ length (F state) = 64%nat.
Proof.
  intros Hb Hl. unfold F. rewrite mem_write_full by (rewrite ?length_words_to_bytes; simpl; lia).
  rewrite take_0. cbn [app]. rewrite length_words_to_bytes. split; [auto with words|done].
Qed.

Lemma block_xor a b : bytes a -> bytes b -> length a = 64%nat -> length b = 64%nat ->
  bytes (AddXor512 a b) /\ length (AddXor512 a b) = 64%nat.
Proof.
  intros. rewrite AddXor512_xor by done.
  split; [now apply words_xor_list|rewrite length_xor_list; lia].
Qed.

Lemma C_block i : (i < 12)%nat -> is_block (nth i StreebogTables.Table.C []) /\
  nth i StreebogTables.Table.C [] = nth i StreebogTables.Standard.C [].
Proof.
  intros Hi. split; [|reflexivity].
  assert (H : all_below 12 (fun i => bool_decide (is_block
    (nth i StreebogTables.Table.C []))) = true) by (vm_compute; reflexivity).
  apply all_below_spec with (i := i) in H; [|done]. now apply bool_decide_eq_true in H.
Qed.

(** The whole encryptions and compression functions agree. *)
Lemma E_agree K m : is_block K -> is_block m ->
  Table.E K m = Standard.E K m /\ is_block (Table.E K m).1 /\ is_block (Table.E K m).2.
Proof.
  intros HK Hm. unfold Table.E, Standard.E.
  apply (for_up_ext_inv (fun s : list Z * list Z => is_block s.1 /\ is_block s.2)).
  - split; [done|]. now apply block_xor; try apply Hm; try apply HK.
  - intros i [k s] Hi [[Hk Hkl] [Hs Hsl]]. cbn [fst snd].
    destruct (C_block i Hi) as [[HC HCl] EC]. destruct (F_bytes s Hs Hsl) as [HF HFl].
    destruct (block_xor k _ Hk HC Hkl HCl) as [Hx Hxl].
    destruct (F_bytes _ Hx Hxl) as [HK' HKl'].
    unfold KeySchedule, Standard.KeySchedule. rewrite <- EC, <- !F_LPS by done.
    split; [done|]. split; [done|]. now apply block_xor.
Qed.

Lemma g_N_agree N h m : is_block N -> is_block h -> is_block m ->
  Table.g_N N h m = Standard.g_N N h m /\ is_block (Table.g_N N h m).
Proof.
  intros [HN HNl] [Hh Hhl] [Hm Hml]. unfold Table.g_N, Standard.g_N. cbv zeta.
  destruct (block_xor N h HN Hh HNl Hhl) as [Hx Hxl].
  destruct (F_bytes _ Hx Hxl) as [HK HKl]. rewrite <- F_LPS by done.
  destruct (E_agree (F (AddXor512 N h)) m (conj HK HKl) (conj Hm Hml)) as (<- & _ & HE & HEl).
  split; [done|]. destruct (block_xor _ h HE Hh HEl Hhl) as [Hy Hyl].
  now apply block_xor.
Qed.
End Rounds.

(** ** Addition modulo 2^512 *)

Lemma AddModulo512_spec a b c : is_block a -> is_block b -> length c = 64%nat ->
  is_block (AddModulo512 a b c) /\
  be_combine (AddModulo512 a b c) = (be_combine a + be_combine b) mod 2 ^ 512.
Proof.
  intros [Ha Hla] [Hb Hlb] Hlc. unfold AddModulo512.
  pose (I := fun (k : nat) (s : Z * list Z) => (k <= 64)%nat -> 0 <= s.1 /\ length s.2 = 64%nat /\
    bytes (drop (64 - k) s.2) /\
    be_combine (drop (64 - k) s.2) + (s.1 >> 8) * 2 ^ (8 * Z.of_nat k) =
    be_combine (drop (64 - k) a) + be_combine (drop (64 - k) b)).
  assert (H : I 64%nat (for_up 64 (fun k '(t, c) =>
    let i := (63 - k)%nat in let t := a.[i] + b.[i] + (t >> 8) in
    (t, <[i := t .& 0xFF]> c)) (0, c))).
  { apply for_up_inv; unfold I.
    - intros _. cbn [fst snd]. rewrite !drop_ge by lia. repeat split; auto; try lia.
    - intros k [t c'] Hk IH _. destruct IH as (Ht & Hl & Hby & E); [lia|].
      cbn [fst snd] in *. set (i := (63 - k)%nat). set (t' := a.[i] + b.[i] + (t >> 8)).
      assert (Hbyte : forall l, bytes l -> is_byte l.[i])
        by (intros; apply Forall_nth_Z; auto with words).
      pose proof (Hbyte a Ha) as [Ha0 _]. pose proof (Hbyte b Hb) as [Hb0 _].
      assert (Ht0 : 0 <= t >> 8) by now apply Z.shiftr_nonneg.
      replace (64 - S k)%nat with i by lia.
      rewrite drop_insert_nth, (drop_nth a i), (drop_nth b i), length_insert by lia.
      replace (S i) with (64 - k)%nat by lia.
      assert (Hx : is_byte (t' .& 255)) by apply in_word_u8.
      split; [lia|]. split; [done|]. split; [now constructor|].
      rewrite !be_combine_cons by (auto using Forall_drop).
      rewrite !length_drop, Hl, Hla, Hlb. replace (64 - (64 - k))%nat with k by lia.
      replace (8 * Z.of_nat (S k)) with (8 + 8 * Z.of_nat k) by lia.
      rewrite Z.pow_add_r by lia. change (2 ^ 8) with 256.
      assert (Es : t' = (t' >> 8) * 256 + (t' .& 255)).
      { change 255 with (Z.ones 8). rewrite Z.land_ones, Z.shiftr_div_pow2 by lia.
        pose proof (Z.div_mod t' (2 ^ 8) ltac:(lia)). change (2 ^ 8) with 256 in *. lia. }
      set (q := t' >> 8) in *. set (r := t' .& 255) in *. nia. }
  destruct H as (_ & Hl & Hby & E); [lia|]. rewrite !drop_0 in *.
  set (s := for_up _ _ _) in *. clearbody s. split; [done|].
  pose proof (be_combine_range _ Hby) as Hr. rewrite Hl in Hr.
  change (8 * Z.of_nat 64) with 512 in *. rewrite <- E.
  now rewrite Z.mod_add, Z.mod_small by lia.
Qed.

(** ** The hash function of the standard, on 512-bit numbers *)

Section Standard_hash.
(** The compression function, on blocks. *)
Context (g : list Z -> list Z -> list Z -> list Z).

(** The whole blocks of the message [X], from the least significant one. *)
Fixpoint std_blocks (n : nat) (N : Z) (h : list Z) (Sigma X : Z) : Z * list Z * Z * Z :=
  match n with
  | O => (N, h, Sigma, X)
  | S n => std_blocks n ((N + 512) mod 2 ^ 512)
      (g (be_split 64 N) h (be_split 64 (X mod 2 ^ 512)))
      ((Sigma + X mod 2 ^ 512) mod 2 ^ 512) (X / 2 ^ 512)
  end.

(** [X] is the message, a number of [len] bits. *)
Definition std_hash (IV : list Z) (X len : Z) : list Z :=
  let '(N, h, Sigma, X) := std_blocks (Z.to_nat (len / 512)) 0 IV 0 X in
  let r := len mod 512 in
  let m := 2 ^ r + X in
  let h := g (be_split 64 N) h (be_split 64 m) in
  let N := (N + r) mod 2 ^ 512 in
  let Sigma := (Sigma + m) mod 2 ^ 512 in
  g (be_split 64 0) (g (be_split 64 0) h (be_split 64 N)) (be_split 64 Sigma).
End Standard_hash.

(** The bytes that a message of [len] bits takes, and its value. *)
Definition nbytes (len : Z) : nat := Z.to_nat ((len + 7) / 8).
Definition message_value (message : list Z) (len : Z) : Z := be_combine (take (nbytes len) message).

(** ** Refinement *)

Lemma whole_bytes_nbytes len : 0 <= len ->
  len / 8 + 1 - HashX.whole_bytes len = (len + 7) / 8.
Proof.
  intros H. unfold HashX.whole_bytes. change 7 with (Z.ones 3) at 1.
  rewrite Z.land_ones by lia. change (2 ^ 3) with 8.
  destruct (Z.eqb_spec (len mod 8) 0); Z.div_mod_to_equations; lia.
Qed.

Lemma block_number b x : is_block b -> be_combine b = x -> b = be_split 64 x.
Proof. intros [Hb Hl] <-. now rewrite <- Hl, be_split_combine. Qed.

Lemma is_block_split x : is_block (be_split 64 x).
Proof. split; [auto with words|apply length_be_split]. Qed.

Lemma v512_init_value : is_block HashX.v512_init /\ be_combine HashX.v512_init = 512.
Proof. split; [by_eval|reflexivity]. Qed.

Section Refinement.
Context (g : list Z -> list Z -> list Z -> list Z).
Context (Hg : forall N h m, is_block N -> is_block h -> is_block m -> is_block (g N h m)).
Context (message : list Z) (Hmsg : bytes message).

(** The state of the code against that of the standard; [X] is what is left. *)
Definition state_rel (s : HashX.hash_state) (st : Z * list Z * Z * Z) : Prop :=
  let '(N, h, Sigma, X) := st in
  is_block (HashX.N s) /\ be_combine (HashX.N s) = N /\
  HashX.hash s = h /\ is_block h /\
  is_block (HashX.Sigma s) /\ be_combine (HashX.Sigma s) = Sigma /\
  0 <= HashX.len s /\ (nbytes (HashX.len s) <= length message)%nat /\
  X = message_value message (HashX.len s) /\ X < 2 ^ HashX.len s.

Lemma take_split n : (64 <= n)%nat -> (n <= length message)%nat ->
  be_combine (take n message) =
  be_combine (take (n - 64) message) * 2 ^ 512 + be_combine (mem_read message (n - 64) 64).
Proof.
  intros H Hn. assert (Hl : length (mem_read message (n - 64) 64) = 64%nat)
    by (apply length_mem_read; lia).
  replace (take n message) with (take (n - 64) message ++ mem_read message (n - 64) 64).
  - rewrite be_combine_app, Hl by (auto using Forall_take, Forall_mem_read). done.
  - unfold mem_read. rewrite take_take_drop. f_equal. lia.
Qed.

Lemma stage2_step s N h Sigma X : 512 <= HashX.len s -> state_rel s (N, h, Sigma, X) ->
  let m := mem_read message (Z.to_nat (HashX.len s / 8 - 63 - HashX.whole_bytes (HashX.len s))) 64 in
  state_rel (HashX.mk_state (AddModulo512 (HashX.N s) HashX.v512_init (HashX.N s))
      (g (HashX.N s) (HashX.hash s) m) (AddModulo512 (HashX.Sigma s) m (HashX.Sigma s))
      (HashX.len s - 512))
    ((N + 512) mod 2 ^ 512, g (be_split 64 N) h (be_split 64 (X mod 2 ^ 512)),
     (Sigma + X mod 2 ^ 512) mod 2 ^ 512, X / 2 ^ 512).
Proof.
  intros Hlen (HN & <- & <- & Hh & HS & <- & H0 & Hnb & -> & HX). cbv zeta.
  set (L := HashX.len s) in *.
  assert (En : (nbytes (L - 512) = nbytes L - 64)%nat).
  { unfold nbytes. replace (L - 512 + 7) with (L + 7 + (-64) * 8) by lia.
    rewrite Z.div_add by lia. lia. }
  assert (Hn64 : (64 <= nbytes L)%nat).
  { unfold nbytes. pose proof (Z.div_le_mono 512 (L + 7) 8). change (512 / 8) with 64 in *. lia. }
  replace (Z.to_nat (L / 8 - 63 - HashX.whole_bytes L)) with (nbytes L - 64)%nat.
  2:{ unfold nbytes. rewrite <- whole_bytes_nbytes by lia. lia. }
  set (m := mem_read message (nbytes L - 64) 64).
  assert (Hm : is_block m).
  { split; [now apply Forall_mem_read|]. apply length_mem_read. lia. }
  pose proof (be_combine_range m (proj1 Hm)) as Hr. rewrite (proj2 Hm) in Hr.
  change (8 * Z.of_nat 64) with 512 in Hr.
  assert (EX : message_value message L = message_value message (L - 512) * 2 ^ 512 + be_combine m).
  { unfold message_value. rewrite En. now apply take_split. }
  assert (Em : message_value message L mod 2 ^ 512 = be_combine m)
    by (rewrite EX, Z.add_comm, Z.mod_add, Z.mod_small; lia).
  assert (Eq : message_value message L / 2 ^ 512 = message_value message (L - 512))
    by (rewrite EX, Z.add_comm, Z.div_add, Z.div_small; lia).
  rewrite Em, Eq, <- !(block_number _ _ HN eq_refl), <- (block_number _ _ Hm eq_refl).
  destruct v512_init_value as [Hv Ev].
  destruct (AddModulo512_spec _ _ (HashX.N s) HN Hv (proj2 HN)) as [HN' EN].
  destruct (AddModulo512_spec _ _ (HashX.Sigma s) HS Hm (proj2 HS)) as [HS' ES].
  unfold state_rel. cbn [HashX.N HashX.hash HashX.Sigma HashX.len]. rewrite Ev in EN.
  do 2 (split; [done|]). split; [done|]. split; [now apply Hg|].
  do 2 (split; [done|]). split; [lia|]. split; [lia|]. split; [done|].
  rewrite <- Eq. apply Z.div_lt_upper_bound; [lia|].
  now rewrite <- Z.pow_add_r, Zplus_minus by lia.
Qed.

Lemma stage2_spec n s N h Sigma X :
  state_rel s (N, h, Sigma, X) -> HashX.len s / 512 = Z.of_nat n ->
  state_rel (HashX.stage2 g n message s) (std_blocks g n N h Sigma X) /\
  HashX.len (HashX.stage2 g n message s) = HashX.len s mod 512.
Proof.
  revert s N h Sigma X. induction n as [|n IH]; intros s N h Sigma X Hs Hn.
  - split; [done|]. cbn. Z.div_mod_to_equations. lia.
  - cbn [HashX.stage2 std_blocks].
    assert (Hlen : 512 <= HashX.len s) by (Z.div_mod_to_equations; lia).
    destruct (Z.leb_spec 512 (HashX.len s)) as [_|]; [|lia].
    pose proof (stage2_step s N h Sigma X Hlen Hs) as H1. cbv zeta in H1.
    apply IH in H1; cbn [HashX.len] in *.
    + destruct H1 as [H1 H2]. split; [exact H1|]. rewrite H2.
      replace (HashX.len s - 512) with (HashX.len s + (-1) * 512) by lia.
      apply Z.mod_add. lia.
    + replace (HashX.len s - 512) with (HashX.len s + (-1) * 512) by lia.
      rewrite Z.div_add; lia.
Qed.

(** Setting a bit above the bits of [x] in a block that starts with zeros. *)
Lemma set_bit i x l r : is_byte x -> bytes l -> 0 <= r < 8 -> x < 2 ^ r ->
  (i + S (length l) = 64)%nat ->
  let m := replicate i 0 ++ x :: l in
  let m' := <[i := m.[i] .| u8 (1 << r)]> m in
  is_block m' /\
  be_combine m' = 2 ^ (8 * Z.of_nat (length l) + r) + be_combine m.
Proof.
  intros Hx Hl Hr Hxr Hi m m'.
  assert (Hbit : in_word 8 (1 << r)).
  { rewrite Z.shiftl_1_l. split; [lia|]. apply Z.pow_lt_mono_r; lia. }
  assert (Em' : m' = replicate i 0 ++ (x .| 1 << r) :: l).
  { unfold m', m. rewrite app_nth2, length_replicate, Nat.sub_diag by (rewrite length_replicate; lia).
    cbn [nth]. rewrite insert_app_r_alt by (rewrite length_replicate; lia).
    now rewrite length_replicate, Nat.sub_diag, (u8_small _ Hbit). }
  assert (Hy : is_byte (x .| 1 << r)) by auto with words.
  rewrite Em'. split; [split|].
  - apply Forall_app; split; [apply Forall_replicate, in_word_0; lia|now constructor].
  - rewrite length_app, length_replicate. simpl. lia.
  - unfold m. rewrite !be_combine_zeros, !be_combine_cons by (auto using Forall_cons_2).
    rewrite Z.pow_add_r by lia.
    assert (E : x .| 1 << r = x + 2 ^ r).
    { assert (E0 : x .& 1 << r = 0).
      { bitwise. destruct (Z.eq_dec i0 r) as [->|Hne].
        - rewrite (testbit_high r x r); [done|lia| |lia]. split; [apply Hx|done].
        - replace 1 with (2 ^ 0) by lia. rewrite Z.pow2_bits_false by lia. apply andb_false_r. }
      rewrite <- Z.lxor_lor, <- Z.add_nocarry_lxor by done. now rewrite Z.shiftl_1_l. }
    rewrite E. lia.
Qed.

(** Padding: the last block is the number 2^len + X. *)
Lemma last_block_spec len : 0 <= len < 512 -> (nbytes len <= length message)%nat ->
  message_value message len < 2 ^ len ->
  is_block (HashX.last_block message len) /\
  be_combine (HashX.last_block message len) = 2 ^ len + message_value message len.
Proof.
  intros Hlen Hnb HX. unfold HashX.last_block, message_value in *.
  rewrite whole_bytes_nbytes by lia. fold (nbytes len).
  change (mem_read message 0 (nbytes len)) with (take (nbytes len) message).
  assert (En : Z.of_nat (nbytes len) = len / 8 + 1 - HashX.whole_bytes len).
  { unfold nbytes. rewrite whole_bytes_nbytes by lia. rewrite Z2Nat.id; [done|].
    apply Z.div_pos; lia. }
  replace (Z.to_nat (63 - len / 8 + HashX.whole_bytes len)) with (64 - nbytes len)%nat by lia.
  set (b := take (nbytes len) message) in *.
  assert (Hb : bytes b) by now apply Forall_take.
  assert (Hbl : length b = nbytes len) by (unfold b; rewrite length_take; lia).
  assert (Hq : 0 <= len / 8 < 64) by (Z.div_mod_to_equations; lia).
  assert (Hn64 : (nbytes len <= 64)%nat).
  { unfold HashX.whole_bytes in En. destruct (_ =? 0); lia. }
  rewrite mem_write_full by (rewrite ?length_replicate, ?Hbl; lia).
  rewrite take_replicate, Nat.min_l by lia.
  assert (Er : len .& 7 = len mod 8) by (change 7 with (Z.ones 3); now rewrite Z.land_ones by lia).
  pose proof (Z.div_mod len 8 ltac:(lia)) as Edm.
  pose proof (Z.mod_pos_bound len 8 ltac:(lia)) as Hr.
  set (i := Z.to_nat (63 - len / 8)). unfold HashX.whole_bytes in En. rewrite Er in *.
  destruct (Z.eqb_spec (len mod 8) 0) as [E0|E0].
  - replace (replicate (64 - nbytes len) 0 ++ b) with (replicate i 0 ++ 0 :: b).
    2:{ replace (64 - nbytes len)%nat with (i + 1)%nat by lia.
        rewrite replicate_add, <- app_assoc. done. }
    destruct (set_bit i 0 b (len mod 8)) as [H1 H2]; try (auto with words); try lia.
    split; [exact H1|]. rewrite H2, Hbl. rewrite be_combine_zeros by auto with words.
    rewrite be_combine_cons by auto with words.
    replace (8 * Z.of_nat (nbytes len) + len mod 8) with len by lia. lia.
  - destruct b as [|x l] eqn:Eb; [simpl in Hbl; lia|]. apply Forall_cons_1 in Hb as [Hx Hl].
    simpl in Hbl. replace (64 - nbytes len)%nat with i by lia.
    rewrite be_combine_cons in HX by done.
    pose proof (be_combine_range l Hl) as Hlr.
    assert (Elen : len = 8 * Z.of_nat (length l) + len mod 8) by lia.
    assert (Hxr : x < 2 ^ (len mod 8)).
    { rewrite Elen, Z.pow_add_r in HX at 1 by lia. nia. }
    destruct (set_bit i x l (len mod 8)) as [H1 H2]; auto; try lia.
    split; [exact H1|]. rewrite H2, be_combine_zeros, <- Elen by (now constructor). done.
Qed.

Lemma v512_length len : 0 <= len < 512 ->
  let v := <[62%nat := u8 (len >> 8)]> (<[63%nat := len .& 0xFF]> HashX.v512_init) in
  is_block v /\ be_combine v = len.
Proof.
  intros Hlen v. assert (Ev : v = replicate 62 0 ++ [u8 (len >> 8); u8 len]) by reflexivity.
  rewrite Ev. split; [split; [|reflexivity]|].
  - apply Forall_app; split; [by_eval|]. auto using Forall_cons_2, Forall_nil_2 with words.
  - rewrite be_combine_zeros by auto using Forall_cons_2, Forall_nil_2 with words.
    unfold be_combine. simpl. rewrite <- (Z.mod_small len (2 ^ 16)) at 3 by lia.
    change (u8 len .| (u8 (len >> 8) .| 0 << 8) << 8) with (le_combine (le_split 2 len)).
    rewrite le_combine_split. now apply wrap_mod.
Qed.

Lemma stage3_spec s N h Sigma X :
  state_rel s (N, h, Sigma, X) -> HashX.len s < 512 ->
  HashX.stage3 g message s =
  (let m := 2 ^ HashX.len s + X in
   g (be_split 64 0) (g (be_split 64 0) (g (be_split 64 N) h (be_split 64 m))
     (be_split 64 ((N + HashX.len s) mod 2 ^ 512)))
     (be_split 64 ((Sigma + m) mod 2 ^ 512))).
Proof.
  intros (HN & <- & <- & Hh & HS & <- & H0 & Hnb & -> & HX) Hlen. unfold HashX.stage3.
  set (L := HashX.len s) in *. cbv zeta.
  destruct (last_block_spec L) as [Hm Em]; [lia|done|done|].
  destruct (v512_length L) as [Hv Ev]; [lia|].
  destruct (AddModulo512_spec _ _ (HashX.N s) HN Hv (proj2 HN)) as [HN' EN].
  destruct (AddModulo512_spec _ _ (HashX.Sigma s) HS Hm (proj2 HS)) as [HS' ES].
  rewrite Ev in EN. rewrite Em in ES.
  rewrite <- (block_number _ _ HN eq_refl), <- (block_number _ _ Hm Em).
  now rewrite <- (block_number _ _ HN' EN), <- (block_number _ _ HS' ES).
Qed.

Lemma hash_X_spec IV len out :
  is_block IV -> 0 <= len -> (nbytes len <= length message)%nat ->
  message_value message len < 2 ^ len ->
  HashX.hash_X g IV message len out =
  mem_write out 0 (std_hash g IV (message_value message len) len).
Proof.
  intros HIV Hlen Hnb HX. unfold HashX.hash_X, std_hash. f_equal.
  set (s0 := {| HashX.N := _ |}).
  assert (H0 : state_rel s0 (0, IV, 0, message_value message len)).
  { repeat split; try done; try by_eval; try apply HIV; lia. }
  assert (En : HashX.len s0 / 512 = Z.of_nat (Z.to_nat (len / 512))).
  { cbn. rewrite Z2Nat.id; [done|]. apply Z.div_pos; lia. }
  destruct (stage2_spec _ _ _ _ _ _ H0 En) as [H1 H2].
  set (s1 := HashX.stage2 _ _ _ _) in *. change (HashX.len s0) with len in H2.
  destruct (std_blocks _ _ _ _ _ _) as [[[N h] Sg] X].
  rewrite (stage3_spec s1 N h Sg X H1).
  - now rewrite H2.
  - rewrite H2. apply Z.mod_pos_bound. lia.
Qed.
End Refinement.

(** ** Properties *)

Lemma table_g_block N h m : is_block N -> is_block h -> is_block m -> is_block (Table.g_N N h m).
Proof. intros. now apply Rounds.g_N_agree. Qed.

Lemma standard_g_block N h m : is_block N -> is_block h -> is_block m ->
  is_block (Standard.g_N N h m).
Proof. intros HN Hh Hm. destruct (Rounds.g_N_agree N h m HN Hh Hm) as [<- H]. exact H. Qed.

(** The two compression functions give the same hash. *)
Lemma std_blocks_agree n N h Sigma X : is_block h ->
  std_blocks Table.g_N n N h Sigma X = std_blocks Standard.g_N n N h Sigma X /\
  is_block (std_blocks Table.g_N n N h Sigma X).1.1.2.
Proof.
  revert N h Sigma X. induction n as [|n IH]; intros N h Sigma X Hh; [done|].
  cbn [std_blocks].
  destruct (Rounds.g_N_agree (be_split 64 N) h (be_split 64 (X mod 2 ^ 512))) as [<- Hb];
    auto using is_block_split.
Qed.

Lemma std_hash_agree IV X len : is_block IV ->
  std_hash Table.g_N IV X len = std_hash Standard.g_N IV X len /\
  is_block (std_hash Table.g_N IV X len).
Proof.
  intros HIV. unfold std_hash.
  destruct (std_blocks_agree (Z.to_nat (len / 512)) 0 IV 0 X HIV) as [<- Hb].
  destruct (std_blocks Table.g_N _ _ _ _ _) as [[[N h] Sg] X']. cbv zeta. cbn [fst snd] in Hb.
  set (r := 2 ^ (len mod 512) + X'). pose proof is_block_split as HB.
  destruct (Rounds.g_N_agree _ _ _ (HB N) Hb (HB r)) as [E1 H1].
  set (h1 := Table.g_N (be_split 64 N) h (be_split 64 r)) in *. rewrite <- E1.
  set (N' := (N + len mod 512) mod 2 ^ 512).
  destruct (Rounds.g_N_agree _ _ _ (HB 0) H1 (HB N')) as [E2 H2].
  set (h2 := Table.g_N (be_split 64 0) h1 (be_split 64 N')) in *. rewrite <- E2.
  exact (Rounds.g_N_agree _ _ _ (HB 0) H2 (HB ((Sg + r) mod 2 ^ 512))).
Qed.

(** On every 64-byte state the table-driven round function is the composition of the
    S-box, the transposition and the linear layer of the byte-oriented implementation, and
    the compression functions of the two implementations agree. *)
Theorem table_g_N_standard N h m :
  is_block N -> is_block h -> is_block m ->
  Table.F m = Standard.L (Standard.P (Standard.S m)) /\ Table.g_N N h m = Standard.g_N N h m.
Proof.
  intros HN Hh [Hm Hml]. split; [now apply Rounds.F_LPS|].
  now apply Rounds.g_N_agree.
Qed.

Lemma table_g_N_standard_witness :
  let b := replicate 64 7 in
  Table.F b = Standard.L (Standard.P (Standard.S b)) /\ Table.g_N b b b = Standard.g_N b b b.
Proof. apply table_g_N_standard; by_eval. Defined.

(** [AddModulo512] is the addition of big-endian numbers modulo 2^512, also when it
    writes its result over its first argument. *)
Theorem AddModulo512_correct a b c :
  is_block a -> is_block b -> length c = 64%nat ->
  AddModulo512 a b c = be_split 64 ((be_combine a + be_combine b) mod 2 ^ 512).
Proof. intros Ha Hb Hc. apply block_number; now apply AddModulo512_spec. Qed.

Lemma AddModulo512_correct_witness :
  AddModulo512 (replicate 64 255) (replicate 63 0 ++ [2]) (replicate 64 255) =
  be_split 64 ((be_combine (replicate 64 255) + be_combine (replicate 63 0 ++ [2])) mod 2 ^ 512).
Proof. apply AddModulo512_correct; [by_eval|by_eval|done]. Defined.

(** Both implementations, for the initial value of either digest length. *)
Lemma hash_X_agree message len b out :
  bytes message -> 0 <= len -> (nbytes len <= length message)%nat ->
  message_value message len < 2 ^ len -> is_byte b ->
  let std := std_hash Standard.g_N (replicate 64 b) (message_value message len) len in
  HashX.hash_X Table.g_N (replicate 64 b) message len out = mem_write out 0 std /\
  HashX.hash_X Standard.g_N (replicate 64 b) message len out = mem_write out 0 std /\
  is_block std.
Proof.
  intros Hm H0 Hn HX Hb std.
  assert (HIV : is_block (replicate 64 b)) by (split; [now apply Forall_replicate|done]).
  destruct (std_hash_agree _ (message_value message len) len HIV) as [E Hl].
  unfold std. rewrite !hash_X_spec by auto using table_g_block, standard_g_block.
  now rewrite <- E.
Qed.

(** C30. For every message of [len] bits, whole bytes or not, [hash_512] and [hash_256] of
    both implementations compute the hash function of the standard: the message is a number
    that is cut into 512-bit blocks from its least significant end and padded with a one
    bit above its most significant one. *)
Theorem hash_standard message len out :
  bytes message -> 0 <= len -> (nbytes len <= length message)%nat ->
  message_value message len < 2 ^ len ->
  let std IV := std_hash Standard.g_N IV (message_value message len) len in
  Table.hash_512 message len out = mem_write out 0 (std (replicate 64 0)) /\
  Standard.hash_512 message len out = mem_write out 0 (std (replicate 64 0)) /\
  Table.hash_256 message len out = mem_write out 0 (take 32 (std (replicate 64 1))) /\
  Standard.hash_256 message len out = mem_write out 0 (take 32 (std (replicate 64 1))).
Proof.
  intros Hm H0 Hn HX std.
  destruct (hash_X_agree message len 0 out Hm H0 Hn HX) as (E1 & E2 & _); [by_eval|].
  destruct (hash_X_agree message len 1 (replicate 64 0) Hm H0 Hn HX) as (E3 & E4 & Hl);
    [by_eval|].
  unfold Table.hash_512, Standard.hash_512, Table.hash_256, Standard.hash_256.
  unfold HashX.hash_512, HashX.hash_256. rewrite E1, E2, E3, E4.
  rewrite (mem_write_full (replicate 64 0)) by (rewrite ?(proj2 Hl); simpl; lia).
  done.
Qed.

(** The two messages of test_data.h. *)
Definition test_message1 : list Z :=
  (fun i => 0x30 + Z.of_nat ((62 - i) mod 10)) <$> seq 0 63.

Lemma hash_standard_witness :
  let std IV := std_hash Standard.g_N IV (message_value test_message1 504) 504 in
  let out := replicate 64 0 in
  Table.hash_512 test_message1 504 out = mem_write out 0 (std (replicate 64 0)) /\
  Standard.hash_512 test_message1 504 out = mem_write out 0 (std (replicate 64 0)) /\
  Table.hash_256 test_message1 504 out = mem_write out 0 (take 32 (std (replicate 64 1))) /\
  Standard.hash_256 test_message1 504 out = mem_write out 0 (take 32 (std (replicate 64 1))).
Proof. apply hash_standard; [by_eval|lia|vm_compute; lia|vm_compute; reflexivity]. Defined.

Example test_vector1 :
  be_combine (Table.hash_512 test_message1 504 (replicate 64 0)) = 0x486f64c1917879417fef082b3381a4e211c324f074654c38823a7b76f830ad00fa1fbae42b1285c0352f227524bc9ab16254288dd6863dccd5b9f54a1ad0541b /\
  be_combine (take 32 (Table.hash_256 test_message1 504 (replicate 64 0))) = 0x00557be5e584fd52a449b16b0251d05d27f94ab76cbaa6da890b59d8ef1e159d.
Proof. split; vm_compute; reflexivity. Qed.
