(* ===== verification/KuznechikLS.v ===== *)
(** * Kuznechik: the tables precomputedLSTableLeft and precomputedLSTableRight of
    src/crypto/encryption/gost2015_kuznechik/optimised_tables.c

    One definition per row of 256 entries; an entry is the eight bytes of the union
    [qword_t], written in memory order. *)

From Stdlib Require Import ZArith List.
Import ListNotations.
#[local] Open Scope Z_scope.
#[local] Open Scope list_scope.

Definition precomputedLSTableLeft_0 : list Z := [
  0xe9fbd50c7ac08096; 0x1908e08cb2171ace; 0xbfcbd0a250b2dc77; 0x6241101a5e6342d6;
  0x4f38e5229865462f; 0x38b3396a116f4ae7; 0xfb1fb7c2067d564d; 0x4a88f89bc3a47973;
  0xc1323d8de707bb33; 0x6a7c998e18379bf7; 0x0e5c9ffb956bf349; 0x97023823cd75e7d2;
  0x0bec8242ceaacc15; 0xa5123bf86a5bd38d; 0xba7bcd1b0b73e32b; 0x335fbb28dfc586f2;
  0x31c1080d2fd0216b; 0xed04704659ea0d67; 0xe4764121675566eb; 0x586c9a55bf19afa8;
  0x1e264e1019c3820b; 0xc90fb419a1536212; 0xf40c90caebfd17a9; 0xffe012882557dbbc;
  0x85e65aedb1c83109; 0xd3d65f439bba6de8; 0x2b18e35715392e91; 0x308eb0fe573b93c6;
  0x17547f77277ce987; 0x12e462ce7cbdd6db; 0xc3ac8ea817121caa; 0x1f69f6e3612830a6;
  0x9ceeba6103df2bc7; 0x1ad9eb5a3ae90ffa; 0x1df745c6913d973f; 0xb6b9e1c56e0db7fb;
  0x148574a1af82fcb3; 0x511eab3281a6c424; 0xd66642fac07b52b4; 0x563005ae2a725ce1;
  0xeed57b90d1141853; 0xa0a22641319aecd1; 0x39fc81996984f84a; 0xac600a9f54e4b801;
  0x04ffa54a232a8df1; 0xcf6ea276726c487a; 0x71eaca275a3526a0; 0x6e833cc43b1d1606;
  0x75156f6d791fab51; 0x9bc014fda80bb302; 0x5ddc87ece4d890f4; 0xe8b46dff022b323b;
  0xdbebd6d7ddeeb4c9; 0x82c8f4711a1ca9cc; 0xbe84685128596eda; 0xb8e57e3efb6644b2;
  0xe7a74af7efab73df; 0x25447cac8052ddd8; 0x8bbac51624a3c240; 0x3b6232bc99915fd3;
  0x5af229704f0c0831; 0xc7532be23438915b; 0xef9ac363a9ffaafe; 0x321003dba72e345f;
  0x6c1d8fe1cb08b19f; 0x8e0ad8af7f62fd1c; 0x94d333f5458bf2e6; 0x93fd9d69ee5f6a23;
  0xa3732d97b964f9e5; 0x67f10da305a27d8a; 0x464ad445a6da2da3; 0x9da102927b34996a;
  0xb9aac6cd838df61f; 0x73747902aa208139; 0xdf14739dfec43938; 0xe539f9d21fbed446;
  0x2695777a08acc8ec; 0xde5bcb6e862f8b95; 0x80564754ea090e55; 0xdd8ac0b80ed19ea1;
  0x60dfa33fae76e54f; 0xc5cd98c7c42d36c2; 0x505113c1f94d7689; 0xbb3475e873985186;
  0xb7f6593616e60556; 0x0d8d942d1d95e67d; 0x226ad2302b86451d; 0xf0f33580c8d79a58;
  0x8af57de55c4870ed; 0x98111f2b20f5a636; 0x3f9d97f6babbd222; 0xd97565f22dfb1350;
  0x8119ffa792e2bcf8; 0x3d0324d34aae75bb; 0x9e700944f3ca8c5e; 0x097231673ebf6b8c;
  0xd83add015510a1fd; 0x778bdc48890a0cc8; 0x6b33217d60dc295a; 0xe1c65c983c9459b7;
  0xad2fb26c2c0f0aac; 0xe089e46b447feb1a; 0x66beb5507d49cf27; 0xf8cebc148e834379;
  0x76c464bbf1e1be65; 0x43fac9fcfd1b12ff; 0x723bc1f1d2cb3394; 0xf7dd9b1c6303029d;
  0x4e775dd1e08ef482; 0xdcc5784b763a2c0c; 0x48164bbe33b1deea; 0xdaa46e24a5050664;
  0x69ad925890c98ec3; 0xb0d8f7aabd329d93; 0xd5b7492c48854780; 0xf69223ef1be8b030;
  0x7b49f096ec745818; 0x41647ad90d0eb566; 0xcb91073c5146c58b; 0x959c8b063d60404b;
  0xaa011cf087db9269; 0xe6e8f2049740c172; 0x37a01e62fcef0b03; 0x21bbd9e6a3785029;
  0x42b5710f85f0a052; 0xd729fa09b890e019; 0xc2e3365b6ff9ae07; 0x745ad79e01f419fc;
  0xe217574eb46a4c83; 0x91632e4c1e4acdba; 0x23256ac3536df7b0; 0xc07d857e9fec099e;
  0x642006758d5c68be; 0x0f132708ed8041e4; 0x630ea8e92688f07b; 0xa89fafd577ce35f0;
  0x55e10e78a28c49d5; 0xbd556387a0a77bee; 0x9a8fac0ed0e001af; 0x03d10bd688fe1534;
  0xc8400cead9b8d0bf; 0xc4822034bcc6846f; 0x6d523712b3e30332; 0x92b2259a96b4d88e;
  0x4959f34d4b5a6c47; 0x9f3fb1b78b213ef3; 0x44d4676056cf8a3a; 0x2d79f538c60604f9;
  0x2fe7461d3613a360; 0x36efa6918404b9ae; 0x15cacc52d7694e1e; 0x1847587fcafca863;
  0x70a572d422de940d; 0xfeafaa7b5dbc6911; 0x2ea8feee4ef811cd; 0x5c933f1f9c332259;
  0xa1ed9eb249715e7c; 0xa6c3302ee2a5c6b9; 0xea2adedaf23e95a2; 0x1b9653a94202bd57;
  0x902c96bf66a17f17; 0xa45d830b12b06120; 0x68e22aabe8223c6e; 0x577fbd5d5299ee4c;
  0xfd7ea1add5427c25; 0x0000000000000000; 0x353ead470cfaac9a; 0x4bc74068bb4fcbde;
  0x47056cb6de319f0e; 0xa23c9564c18f4b48; 0x83874c8262f71b61; 0x7c675e0a47a0c0dd;
  0xd299e7b0e351df45; 0x13abda3d04566476; 0x7ef9ed2fb7b56744; 0x3ed22f05c250608f;
  0x7a064865949feab5; 0x84a9e21ec92383a4; 0x161bc7845f975b2a; 0xd148ec666bafca71;
  0xb1974f59c5d92f3e; 0x0cc22cde657e54d0; 0x29865072e52c8908; 0x0661166fd33f2a68;
  0x2c364dcbbeedb654; 0x2a575ba46dd29c3c; 0xcdf011538279efe3; 0x072eae9cabd498c5;
  0x107ad1eb8ca87142; 0x083d89944654d921; 0xf98104e7f668f1d4; 0x11356918f443c3ef;
  0x28c9e8819dc73ba5; 0xeb6566298ad5270f; 0x8778e9c841dd9690; 0xf1bc8d73b03c28f5;
  0xc61c93114cd323f6; 0xb568ea13e6f3a2cf; 0x6fcc843743f6a4ab; 0xccbfa9a0fa925d4e;
  0x347115b474111e37; 0x1cb8fd35e9d62592; 0x4da656076870e1b6; 0xf3223e5640298f6c;
  0x964d80d0b59e557f; 0x05b01db95bc13f5c; 0x61901bccd69d57e2; 0x592322a6c7f21d05;
  0x8637513b3936243d; 0x886bcec0ac5dd774; 0xb309fc7c35cc88a7; 0x89247633d4b665d9;
  0xfc31195eada9ce88; 0xab4ea403ff3020c4; 0x5380181771b363bd; 0xb42752e09e181062;
  0xe358efbdcc81fe2e; 0xce211a850a87fad7; 0x52cfa0e40958d110; 0x8c946b8a8f775a85;
  0x3a2d8a4fe17aed7e; 0xcadebfcf29ad7726; 0x54aeb68bda67fb78; 0xa78c88dd9a4e7414;
  0x995ea7d8581e149b; 0x0aa33ab1b6417eb8; 0x402bc22a75e507cb; 0x029eb325f015a799;
  0x5bbd918337e7ba9c; 0xbc1adb74d84cc943; 0x7898fb40648a4d2c; 0x79d743b31c61ff81;
  0xf54328399316a504; 0xa9d017260f25875d; 0xec4bc8b52101bfca; 0x7d28e6f93f4b7270;
  0x459bdf932e243897; 0x3c4c9c203245c716; 0x656fbe86f5b7da13; 0x014fb8f378ebb2ad;
  0x240bc45ff8b96f75; 0x5f4234c914cd376d; 0x7fb655dccf5ed5e9; 0x20f46115db93e284;
  0xaefeb9baa4f11f98; 0x5e0d8c3a6c2685c0; 0xafb10149dc1aad35; 0xd0075495134478dc;
  0xb246448f4d273a0a; 0x8f45605c07894fb1; 0x27dacf8970477a41; 0x8ddbd379f79ce828;
  0x4ce9eef4109b531b; 0xd4f8f1df306ef52d; 0xfa500f317e96e4e0; 0xf26d86a538c23dc1].

Definition precomputedLSTableLeft_1 : list Z := [
  0x2f3658eaa20c25cf; 0x4833d63a7e8c82b8; 0x5c9ce97665a2afd9; 0x0c651585091a1b9e;
  0x3b9967a6b92208ae; 0x625ef1c3aa6a3dfe; 0xe7ef6c2a3cc2446e; 0x4285281c929b7569;
  0x61d66573398d4b38; 0x1a3a73a8f08ed37b; 0xf9f6ad40cbfb9ede; 0x127cd4effe23c12e;
  0x80eae2fae042e319; 0x821abb9b02f8069d; 0x2580a6cc4e1bd21e; 0xe2b413394a28dee7;
  0x06d3eba3e50dec4f; 0x24f86b1d3f46415c; 0x4075717d702190ed; 0x8a5c1cdc0c5514c8;
  0xd548611afa10cdd7; 0x7789035ec01983dd; 0x6ccbbd2741cac3e4; 0xec215fdda18820fd;
  0xdaa5e02f60eda08f; 0xa90f51b3a7432a99; 0xd855b94e8257450b; 0x740197ee53fef51b;
  0xb1c57b7ab5771c66; 0xc8d934c09ece61a1; 0x85b19de996a87990; 0xa79a1d574ce3d483;
  0x929636151e612237; 0xde8652ed675aa944; 0x43fde5cde3c6e62b; 0x3811f3162ac57e68;
  0x2770ffadaca1379a; 0xeed106bc4332c579; 0xd0131e098cfa575e; 0x73aab19cc7ae8a16;
  0xb24defca26906aa0; 0xfb06f42129417b5a; 0x108c8d8e1c9924aa; 0xe697a1fb4d9fd72c;
  0x0bce33f79d4a6493; 0x9820c833f276d5e6; 0xb66e5d082127636b; 0x11f4405f6dc4b7e8;
  0xbda06effbc6d07f8; 0x0fed81359afd6d58; 0xf340536627ec690f; 0x5de424a714ff3c9b;
  0xbf50379e5ed7e27c; 0x47de570fe471efe0; 0x2e4e953bd351b68d; 0xc1e75e56e13ee0b6;
  0xd6c0f5aa69f7bb11; 0x21a3140e49acdbd5; 0x23534d6fab163e51; 0xf4eb7514b3bc1602;
  0x6e3be446a3702660; 0x8e7fae1e0be21d03; 0xc09f9387906373f4; 0x90666f74fcdbc7b3;
  0xf593b8c5c2e18540; 0x5a4f02d580af4396; 0x84c95038e7f5ead2; 0x19b2e7186369a5bd;
  0x6db370f6309750a6; 0x75795a3f22a36659; 0x5f147dc6f645d91f; 0xe0444a58a8923b63;
  0xb335221b57cdf9e2; 0x5209a5928e0251c3; 0xb49e0469c39d86ef; 0x32a70d30c6d289b9;
  0xb71690d9507af029; 0xc64c7824756e9fbb; 0xa3b9af954b54dd48; 0x50f9fcf36cb8b447;
  0xe802ed1fa63f2936; 0x6a185684a4c72fab; 0x9c037af1f5c1dc2d; 0x5752da81f8e8cb4a;
  0x4ac38f5b9c36673c; 0x6f432997d22db522; 0xbcd8a32ecd3094ba; 0x67058ed0dc80a777;
  0x518131221de52705; 0x995805e2832b46a4; 0xff2546e32ef67291; 0x5b37cf04f1f2d0d4;
  0xd16bd3d8fda7c41c; 0x1b42be7981d34039; 0x76f1ce8fb144109f; 0x648d1a604f67d1b1;
  0x29e5b3494701c980; 0x59c7966513483550; 0x68e80fe5467dca2f; 0x39693ec75b98ed2a;
  0x9445ddb6fb6cce78; 0x4bbb428aed6bf47e; 0x07ab267294507f0d; 0x715ae8fd25146f92;
  0x2b15ea28a5bb2c04; 0x2608327cddfca4d8; 0x20dbd9df38f14897; 0xfa7e39f0581ce818;
  0x494b1beb0fd111fa; 0x222b80beda4bad13; 0xa6e2d0863dbe47c1; 0xcd824bd3e824fb28;
  0x8c8ff77fe958f887; 0xd7b8387b18aa2853; 0x46a69ade952c7ca2; 0x88ac45bdeeeff14c;
  0x4456c3bf77969926; 0xc26fcae672d99670; 0x93eefbc46f3cb175; 0xf61b2c755106f386;
  0x093e6a967ff08117; 0xa41289e7df04a245; 0xe97a20ced762ba74; 0x2a6d27f9d4e6bf46;
  0x54da4e316b0fbd8c; 0xa2c162443a094e0a; 0xf763e1a4205b60c4; 0xcf7212b20a9e1eac;
  0xafdcba10424ec6d6; 0xfdd51f82cc4c9715; 0xce0adf637bc38dee; 0x1304193e8f7e526c;
  0xe3ccdee83b754da5; 0x8b24d10d7d08878a; 0x7eb769c8bfe902ca; 0xed59920cd0d5b3bf;
  0xe51f354bde78a1ea; 0xb8fb11ecca879d71; 0x7d3ffd782c0e740c; 0x96b584d719d62bfc;
  0x055b7f1376ea9a89; 0x18ca2ac9123436ff; 0x8741c48874129c14; 0x6b609b55d59abce9;
  0xd430accb8b4d5e95; 0x0423b2c207b709cb; 0xbb73855c5960ebb7; 0x37fc7223b0381330;
  0xd39b8ab91f1d2198; 0x9ba85c836191a320; 0x55a283e01a522ece; 0x3ae1aa77c87f9bec;
  0xc4bc214597d47a3f; 0x9ef32390177b39a9; 0xa149f6f4a9ee38cc; 0x81922f2b911f705b;
  0x89d4886c9fb2620e; 0x14af3f4c1b2e2d61; 0xb983dc3dbbda0e33; 0xac542ea0d1a9b010;
  0x8f0763cf7abf8e41; 0xf0c8c7d6b40b1fc9; 0xfe5d8b325fabe1d3; 0x0178cdd1715d9342;
  0x0846a7470ead1255; 0x0000000000000000; 0x0d1dd854784788dc; 0x3057545124686c3d;
  0x2dc6018b40b6c04b; 0x1f610cbb866449f2; 0x350c2b425282f6b4; 0xd92d749ff30ad649;
  0xdbdd2dfe11b033cd; 0xba0b488d283d78f5; 0x3d4a8c055c2fe4e1; 0x8df73aae98056bc5;
  0x3684bff2c1658072; 0xa8779c62d61eb9db; 0xc317073703840532; 0x4d68a92908661831;
  0xa56a4436ae593107; 0x1d9155da64deac76; 0x3c3241d42d7277a3; 0xefa9cb6d326f563b;
  0x452e0e6e06cb0a64; 0xaa87c50334a45c5f; 0x7c4730a95d53e74e; 0x9d7bb720849c4f6f;
  0x2cbecc5a31eb5309; 0x165f662df994c8e5; 0x038894b093e776c6; 0x5e6cb01787184a5d;
  0x4ee03d999b816ef7; 0xcb51a0700d291767; 0x3ec218b5cfc89227; 0x15d7f29d6a73be23;
  0xfcadd253bd110457; 0xaea477c133135594; 0x63263c12db37aebc; 0x0e954ce4eba0fe1a;
  0x7fcfa419ceb49188; 0x312f99805535ff7f; 0xdffe9f3c16073a06; 0xf1b00a07c5568c8b;
  0x60aea8a248d0d87a; 0x791c4fba2bb97dc7; 0x9ad0915210cc3062; 0xf88e6091baa60d9c;
  0x4c1064f8793b8b73; 0xb5e6c9b8b2c015ad; 0x410dbcac017c03af; 0xc734b5f504330cf9;
  0x7a94db0ab85e0b01; 0x7bec16dbc9039843; 0x0ab6fe26ec17f7d1; 0xdc760b8c85e04cc0;
  0xdd0ec65df4bddf82; 0xeaf2b47e4485ccb2; 0x7864826b5ae4ee85; 0xbe28fa4f2f8a713e;
  0x86390959054f0f56; 0xe13c8789d9cfa821; 0x97cd4906688bb8be; 0x667d4301addd3435;
  0xeb8a79af35d85ff0; 0xf2389eb756b1fa4d; 0xb0bdb6abc42a8f24; 0xe467f89aaf2532a8;
  0x1ce9980b15833f34; 0xca296da17c748425; 0xd2e347686e40b2da; 0xa0313b25d8b3ab8e;
  0x1e19c16af739dab0; 0x9f8bee416626aaeb; 0x562a175089b55808; 0xabff08d245f9cf1d;
  0xc9a1f911ef93f2e3; 0x6990c2343720596d; 0x911ea2a58d8654f1; 0x72d27c4db6f31954;
  0x53716843ff5fc281; 0x1727abfc88c95ba7; 0x4f98f048eadcfdb5; 0x58bf5bb46215a612;
  0x02f05961e2bae584; 0x65f5d7b13e3a42f3; 0x7022252c5449fcd0; 0x3fbad564be950165;
  0x33dfc0e1b78f1afb; 0x289d7e98365c5ac2; 0xc5c4ec94e689e97d; 0xccfa86029979686a;
  0xad2ce371a0f42352; 0x3474e69323df65f6; 0x953d10678a315d3a; 0x8362764a73a595df].

Definition precomputedLSTableLeft_2 : list Z := [
  0x37f9691b711861cd; 0x938b03f8d8db4a3b; 0xdb45634ee4871e57; 0x38fb20d314348d24;
  0x7f3709ad4d4435a1; 0xb6a0722fa6d43eed; 0xa081ad96ea4790f0; 0xb7ec33a3c6f5600d;
  0xb8ee7a6ba3d98ce4; 0xc541f11d2edf0546; 0xcc28fd7bc835eeaa; 0x5452703e3646f37e;
  0x04f3c7754384bb06; 0xb187760d45336708; 0x139e59406f364bfb; 0xb253b55ae55085eb;
  0x1c9c10880a1aa712; 0xa8a4e07c6c8c25fc; 0x029882dbc042bc03; 0x2094f72e5daa9130;
  0xf59f9c24bc203d6e; 0x4554aba599320486; 0x3b2fe384b4576fc7; 0x3fdc24f1f7d3d4c1;
  0xc32ab4b3ad190243; 0x2f96bee638867dd9; 0x765e05cbabaede4d; 0x4b1aa3e19c3fb68f;
  0x5fa3fe8310eea491; 0x9778c48d9b5ff13d; 0x1621dfb94c93ae1d; 0xa2192f4d2a052cf3;
  0x50a1b74b75c24878; 0x6ac21543a1b4795f; 0x0cd68a9fc54f0e0a; 0x717901e9484987a8;
  0xa6eae838698197f5; 0x8aa89589f16408cf; 0xe74d84e8b3372875; 0xecbc0a55959f7f9a;
  0x51edf6c715e31698; 0x795c4c03ce8232a4; 0xe126c14630f12f70; 0x1bbb14aae9fdfef7;
  0x9f5d89671d944431; 0x74c687106bec624e; 0xf8055737194e6d84; 0x5a1c787a334b4177;
  0x6758de5004da29b5; 0x36b5289711393f2d; 0xe84fcd20d61bc49c; 0x607fda72e73d7050;
  0xd22c6f28026df5bb; 0xa53e2b6fc9e27516; 0x8cc3d02772a20fca; 0xbd51fc92807c6902;
  0xfbd19460b92d8f67; 0xba76f8b0639b30e7; 0x0f0249c8652cece9; 0x4fe96494dfbb0d89;
  0x8e5b52fcb2e0b3c9; 0x897c56de5107ea2c; 0x066b45ae83c60705; 0xe5d5063373759476;
  0xf4d3dda8dc01638e; 0xc7d973c6ee9db945; 0xad1b66854f29c01a; 0xcb0ff9592bd2b74f;
  0x80155ab8b7ed01c0; 0xf0201add9f85d888; 0xd50b6b0ae18aac5e; 0x07270422e3e759e5;
  0xead74ffb1659789f; 0x56caf2e5f6044f7d; 0x4d71e64f1ff9b18a; 0x551e31b25667ad9e;
  0x433fee0b1af40383; 0x1af7552689dca017; 0x0bf18ebd26a857ef; 0xe3be439df0b39373;
  0x96348501fb7eafdd; 0x27b3f30cbe4dc8d5; 0xdd2e26e067411952; 0x4418ea29f9135a66;
  0x26ffb280de6c9635; 0x3561ebc0b15addce; 0xdc62676c076047b2; 0xa4726ae3a9c32bf6;
  0x5884faa1f309fd74; 0xcffc3e2c68560c49; 0xd0b4edf3c22f49b8; 0x7ce3cafaed27d742;
  0x5c773dd4b08d4672; 0x7e7b48212d656b41; 0xfe6e12999a886a81; 0xaa3c62a7acce99ff;
  0x2b6579937b02c6df; 0xc9977b82eb900b4c; 0x92c74274b8fa14db; 0xca43b8d54bf3e9af;
  0x4c3da7c37fd8ef6a; 0x9dc50bbcddd6f832; 0xa7a6a9b409a0c915; 0x59c8bb2d9328a394;
  0x9e11c8eb7db51ad1; 0x1dd051046a3bf9f2; 0x014c418c60215ee0; 0xc266f53fcd385ca3;
  0x28b1bac4db61243c; 0xb438f0f4669682ee; 0x1923967129bf42f4; 0x85aadc419448e426;
  0x3c08e7a657b03622; 0x40eb2d5cba97e160; 0x1e049253ca581b11; 0x95e046565b1d4d3e;
  0xab70232bccefc71f; 0xb31ff4d68571db0b; 0xeb9b0e777678267f; 0xfa9dd5ecd90cd187;
  0x2a29381f1b23983f; 0xac5727092f089efa; 0x2d0e3c3df8c4c1da; 0x252b71d77e0f74d6;
  0x4a56e26dfc1ee86f; 0xb0cb3781251239e8; 0x41a76cd0dab6bf80; 0x30de6d3992ff3828;
  0x330aae6e329cdacb; 0x65c05c8bc49895b6; 0x8be4d4059145562f; 0xef68c90235fc9d79;
  0x09690c66e6eaebec; 0x9bae4e125e10ff37; 0x6f7d93ba82119cb9; 0x84e69dcdf469bac6;
  0x15f51ceeecf04cfe; 0x758ac69c0bcd3cae; 0x61339bfe871c2eb0; 0xf94916bb796f3364;
  0x12d218cc0f17151b; 0x703540652868d948; 0xa3556ec14a247213; 0x9c894a30bdf7a6d2;
  0x4ea52518bf9a5369; 0xa9e8a1f00cad7b1c; 0x7bc4ced80ec08ea7; 0x47cc297e5970b885;
  0xe9038cacb63a9a7c; 0x7a888f546ee1d047; 0xf16c5b51ffa48668; 0xc40db0914efe5ba6;
  0xaf83e45e8f6b7c19; 0x685a979861f6c55c; 0xbe853fc5201f8be1; 0xbfc97e49403ed501;
  0x2edaff6a58a72339; 0x48ce60b63c5c546c; 0xceb07fa0087752a9; 0x3d44a62a379168c2;
  0x3246efe252bd842b; 0xe601c564d3167695; 0x6b8e54cfc19527bf; 0xbb3ab93c03ba6e07;
  0x911381231899f638; 0x0000000000000000; 0x83c199ef178ee323; 0xe06a80ca50d07190;
  0x828dd86377afbdc3; 0xd793e9d121c8105d; 0xf2b898065fc7648b; 0xcd64bcf7a814b04a;
  0x78100d8faea36c44; 0xc0fe77e40d7ae0a0; 0x63ab1925475e92b3; 0x87325e9a540a5825;
  0xfcf690425acad682; 0x94ac07da3b3c13de; 0x08254dea86cbb50c; 0x81591b34d7cc5f20;
  0x176d9e352cb2f0fd; 0x62e758a9277fcc53; 0xd891a01944e4fcb4; 0x31922cb5f2de66c8;
  0x104a9a17cf55a918; 0x21d8b6a23d8bcfd0; 0xda0922c284a640b7; 0x66149fdc64fb7755;
  0x39b7615f7415d3c4; 0xfdbad1ce3aeb8862; 0x0e4e0844050db209; 0x6e31d236e230c259;
  0x8f171370d2c1ed29; 0x9936ccc99e524334; 0x6de51161425320ba; 0xf3f4d98a3fe63a6b;
  0xdefae5b7c722fbb1; 0x883017523126b4cc; 0x0d9acb13a56e50ea; 0x8d8f91ab1283512a;
  0xd4472a8681abf2be; 0x5b5039f6536a1f97; 0xd1f8ac7fa20e1758; 0x5d3b7c58d0ac1892;
  0x03d4c357a063e2e3; 0xc8db3a0e8bb155ac; 0xc1b236686d5bbe40; 0x77124447cb8f80ad;
  0x3a63a208d4763127; 0xf64b5f731c43df8d; 0xb9a23be7c3f8d204; 0xa1cdec1a8a66ce10;
  0xc695324a8ebce7a5; 0x7daf8b768d0689a2; 0x2467305b1e2e2a36; 0xdfb6a43ba703a551;
  0x648c1d07a4b9cb56; 0x23403479fdc973d3; 0x73e18332880b3bab; 0x6916d61401d79bbc;
  0x186fd7fd499e1c14; 0xbc1dbd1ee05d37e2; 0x4273af877ad55d63; 0x1f48d3dfaa7945f1;
  0x987a8d45fe731dd4; 0x5375741cd5a1aa9b; 0xe49947bf1354ca96; 0xaecfa5d2ef4a22f9;
  0xd9dde19524c5a254; 0x220c75f59de82d33; 0x52393590b580f47b; 0x05bf86f923a5e5e6;
  0x6ca950ed22727e5a; 0xd3602ea4624cab5b; 0xff225315faa93461; 0x9ae20f9e3e31a1d7;
  0x2c427db198e59f3a; 0x29fdfb48bb407adc; 0x5eefbf0f70cffa71; 0x5786b3699625119d;
  0xedf04bd9f5be217a; 0x468068f23951e665; 0x342daa4cd17b832e; 0x72adc2bee82a654b;
  0xb574b17806b7dc0e; 0x1106db9baf74f7f8; 0xe2f202119092cd93; 0xd6dfa85d41e94ebd;
  0xee24888e55ddc399; 0x905fc0af78b8a8d8; 0x14b95d628cd1121e; 0x3e90657d97f28a21;
  0x867e1f16342b06c5; 0x4982213a5c7d0a8c; 0xf7071eff7c62816d; 0x0abdcf314689090f].

Definition precomputedLSTableLeft_3 : list Z := [
  0xa878419a639aaacc; 0xb431ad42c942379b; 0x96de29d590d51810; 0x1ee47ccc37cca479;
  0x8a97c50d3a0d8547; 0xf502cd8d2d8de605; 0x9f98648f0e8f01bf; 0xa5a7efe804e8c13f;
  0x133bd2be50becf8a; 0x39255379387904b9; 0xace1a2b29ab2d890; 0x2d9dbaf1a3f17d56;
  0x83d18857a4579ce8; 0x86ff2375f27513a3; 0xb9ee0330ae305c68; 0x76d345da89da7aed;
  0x0f723e66fa6652dd; 0x5af9b7218521faac; 0xa08944ca52ca4e74; 0x9247cafd69fd6a4c;
  0xe2a0fc1b841b5bd3; 0x34fafd0b5f0b6f4a; 0xeec81a634c63cd37; 0x6d199234e83451df;
  0x1a7d9fe4cee4d625; 0x24dbf7ab3dab64f9; 0x1f5334c698c6596e; 0xd2c3e238223846c5;
  0x18d00ff053f0ef0b; 0x37e025156d15ab73; 0x6a9aa9022302e7ba; 0x3f1120455c454fcb;
  0xae4c32a607a6e1be; 0x10210aa062a00bb3; 0x46b05bf92ff967fb; 0x6caeda3e473eacc8;
  0xbcc0a812f812d323; 0x68373916be16de94; 0x0bebdd4e034e2081; 0x3ea6684ff34fb2dc;
  0xfee910c32ec3c684; 0xa9cf0990cc9057db; 0x28b311d3f5d3f21d; 0x7c8fd09e259ea77b;
  0xf281f6bbe6bb5060; 0xbfda700cca0c171a; 0xf4b5858782871b12; 0xcba4a5c2dec254d9;
  0x0634733c643c4b72; 0xf8dd63ff4aff8df6; 0xbd77e01857182e34; 0x75c99dc4bbc4bed4;
  0x031ad81e321ec439; 0x4ceccebd83bdba6d; 0x4b6ff58b488b0c08; 0xc04f788cdd8c7458;
  0x0499e328f928725c; 0xb3b29674027481fe; 0xb69c3d5654560eb5; 0x51126a6f866fda2d;
  0xebe6b1411a41427c; 0x981b5fb9c5b9b7da; 0x2358cc9df69dd29c; 0xab62998451846ef5;
  0xb205de7ead7e7ce9; 0x99ac17b36ab34acd; 0x898d1d130813417e; 0xdf1c4c4a454a2d36;
  0x0ddfae7267726bf3; 0x31d456290929e001; 0x70e736e6ede6319f; 0x73fdeef8dff8f5a6;
  0x1dfea4d205d26040; 0x8d14fe3bf13b3322; 0xf19b2ea5d4a59459; 0x7d3898948a945a6c;
  0x17a23196a996bdd6; 0x2c2af2fb0cfb8041; 0x354db501f001925d; 0x883a5519a719bc69;
  0x6745077044708c49; 0xe1ba2405b6059fea; 0xb586e5486648ca8c; 0x645fdf6e766e4870;
  0xb11f06609f60b8d0; 0x08f105503150e4b8; 0xe523c72d4f2dedb6; 0x1c49ecd8aad89d57;
  0x6b2de1088c081aad; 0x5ccdc41de11db1de; 0xa3939cd460d48a4d; 0x7abba3a241a2ec09;
  0xe8fc695f285f8645; 0xda32e7681368a27d; 0xd7ed491a741ac98e; 0xfa70f3ebd7ebb4d8;
  0xa70a7ffc99fcf811; 0x7f95088017806342; 0xe4948f27e02710a1; 0x8fb96e2f6c2f0a0c;
  0xa13e0cc0fdc0b363; 0x5208b271b4711e14; 0xec658a77d177f419; 0x3b88c36da56d3d97;
  0xa224d4decfde775a; 0x5fd71c03d30375e7; 0x50a522652965273a; 0x4ad8bd81e781f11f;
  0x57261953e253915f; 0x558b89477f47a871; 0xdc0694547754e90f; 0xdeab0440ea40d021;
  0x9d35f49b939b3891; 0xe78e5739d239d498; 0xaffb7aaca8ac1ca9; 0x976961df3fdfe507;
  0xaad5d18efe8e93e2; 0x267667bfa0bf5dd7; 0x4d5b86b72cb7477a; 0x543cc14dd04d5566;
  0xf7af5d99b099df2b; 0xd9283f7621766644; 0x8452b3616f612a8d; 0x413360cfe4cfd19e;
  0x8266c05d0b5d61ff; 0xd65a0110db103499; 0xb72b755cfb5cf3a2; 0xdb85af62bc625f6a;
  0x2ba9c9cdc7cd3624; 0xa6bd37f636f60506; 0x38921b739773f9ae; 0xce8a0ee088e0db92;
  0x95c4f1cba2cbdc29; 0x71507eec42eccc88; 0xc355a092ef92b061; 0x8e0e2625c325f71b;
  0x9ab6cfad58ad8ef4; 0xef7f5269e3693020; 0x256cbfa192a199ee; 0xa410a7e2abe23c28;
  0xe94b215587557b52; 0x3c0bf85b6e5b8bf2; 0x6fb40220752068f1; 0x02ad90149d14392e;
  0x01b7480aaf0afd17; 0x0a5c9544ac44dd96; 0x09464d5a9e5a19af; 0x9473b9c10dc1213e;
  0xedd2c27d7e7d090e; 0x59e36f3fb73f3e95; 0x6171744c204cc73b; 0x6980711c111c2383;
  0x290459d95ad90f0a; 0xb0a84e6a306a45c7; 0x30631e23a6231d16; 0x60c63c468f463a2c;
  0x747ed5ce14ce43c3; 0x22ef849759972f8b; 0x0c68e678c87896e4; 0xcd90d6febafe1fab;
  0x7b0ceba8eea8111e; 0x5b4eff2b2a2b07bb; 0x408428c54bc52c89; 0xe317b4112b11a6c4;
  0x14b8e9889b8879ef; 0x0000000000000000; 0xfdf3c8dd1cdd02bd; 0x781633b6dcb6d527;
  0xad56eab835b82587; 0xd06e722cbf2c7feb; 0x915d12e35be3ae75; 0xfc4480d7b3d7ffaa;
  0xf96a2bf5e5f570e1; 0xea51f94bb54bbf6b; 0x85e5fb6bc06bd79a; 0x7e22408ab88a9e55;
  0x77640dd026d087fa; 0xc7cc43ba16bac23d; 0xc561d3ae8baefb13; 0x5d7a8c174e174cc9;
  0x3a3f8b670a67c080; 0xd540d90ee90ef0a0; 0x66f24f7aeb7a715e; 0x8b208d0795077850;
  0x49c2659fd59f3526; 0xc2e2e89840984d76; 0xc67b0bb0b9b03f2a; 0x569151594d596c48;
  0x4e415ea91ea98343; 0x27c12fb50fb5a0c0; 0xe6391f337d33298f; 0x93f082f7c6f7975b;
  0xbb43932433246546; 0xd1d93a26102682fc; 0x63dce458bd58fe15; 0xc1f830867286894f;
  0x45aa83e71de7a3c2; 0xc8be7ddcecdc90e0; 0x1615799c069c40c1; 0x1bcad7ee61ee2b32;
  0x20421483c48316a5; 0x9b0187a7f7a773e3; 0xf336beb149b1ad77; 0xb8594b3a013aa17f;
  0xf02c66af7baf694e; 0x2f302ae53ee54478; 0xbaf4db2e9c2e9851; 0x4ff616a3b1a37e54;
  0xbe6d38066506ea0d; 0x128c9ab4ffb4329d; 0x439ef0db79dbe8b0; 0xcf3d46ea27ea2685;
  0xc90935d643d66df7; 0x2a1e81c768c7cb33; 0x119642aacdaaf6a4; 0x150fa182348284f8;
  0xf61815931f93223c; 0x626bac5212520302; 0xcc279ef415f4e2bc; 0xe00d6c0f190f62fd;
  0x8ca3b6315e31ce35; 0x90ea5ae9f4e95362; 0x470713f380f39aec; 0xff5e58c981c93b93;
  0x817c18433943a5c6; 0x5e6054097c0988f0; 0xfbc7bbe178e149cf; 0x79a17bbc73bc2830;
  0x36576d1fc21f5664; 0x32ce8e373b372438; 0x0ec5766c556cafca; 0xd374aa328d32bbd2;
  0x3379c63d943dd92f; 0x53bffa7b1b7be303; 0x87486b7f5d7feeb4; 0x21f55c896b89ebb2;
  0xd4f7910446040db7; 0x07833b36cb36b665; 0x48752d957a95c831; 0xddb1dc5ed85e1418;
  0x6e034a2ada2a95e6; 0xc4d69ba424a40604; 0x585427351835c382; 0x9c82bc913c91c586;
  0x052eab2256228f4b; 0x196747fafcfa121c; 0xd89f777c8e7c9b53; 0x80cb5049964958d1;
  0x9e2f2c85a185fca8; 0x441dcbedb2ed5ed5; 0xca13edc871c8a9ce; 0x3dbcb051c15176e5;
  0x2e8762ef91efb96f; 0x724aa6f270f208b1; 0x4229b8d1d6d115a7; 0x65e89764d964b567].

Definition precomputedLSTableLeft_4 : list Z := [
  0x04c3b681363e4dde; 0xc53429ba337a218a; 0xdf7b409b9ce18b64; 0xb784271f65c8665a;
  0x1e8cdfa099a5e730; 0x269414a25e12a78e; 0xffacb919efd2a65b; 0xc8f2fc4b85d674fd;
  0x7bb56dd5d6205f79; 0x7af5a1643aceddaf; 0xe82505c9f6e559c2; 0xa00d9bcf7cff99c3;
  0x3e5b2622ea96ca0f; 0xe965c9781a0bdb14; 0x09056370809218a9; 0x18cf3280b4846d81;
  0xba42f2eed364332d; 0x831af55df83df145; 0x1fcc1311754b65e6; 0x339df3d35c3a9f78;
  0xb1c7ca3f48e9eceb; 0xb6c4ebae8926e48c; 0x462edce7cb47d0cf; 0x7875fac521d11ac0;
  0x5b629457a5137246; 0x80da624d0fccb4fc; 0x8c5c7b0d558e635d; 0xebe592d901141c7b;
  0x2d112c73c59f7848; 0xfb6f0f98d9eceb85; 0xd938adbbb1c001d5; 0xe060aa089a99c3bd;
  0x9e56bded966953cc; 0x361e89e386ea5070; 0x42ed6a66fd799d11; 0x43ada6d711971fc7;
  0xde3b8c2a700f09b2; 0xaf4b159fd14c0bdb; 0x56a441a613bf2731; 0xdbb8f61aaadfc6ba;
  0x703055044dad80bf; 0x3f1bea93067848d9; 0x773374958c6288d8; 0x75b32f34977d4fb7;
  0x87d943dcce03bc9b; 0x9390681c20c506bb; 0x1d4c48b06e54a289; 0xfd2ce2b8f4cd6134;
  0x9a950b6ca0571e12; 0xeaa55e68edfa9ead; 0xe5e3d03840490cb5; 0x5564d6b6e44e6288;
  0x4dabe43650ca0f09; 0x2f9177d2de80bf27; 0x8edc20ac4e91a432; 0xab88a31ee7724605;
  0xece6b348c0db141c; 0x64797ec4a36b3a9f; 0xb347919e53f62b84; 0xd5beb4fbeb82d674;
  0x911033bd3bdac1d4; 0x5ee1ee677fc3bd4e; 0x219735339fddafe9; 0x496852b766f442d7;
  0x5fa122d6932d3f98; 0x6539b2754f85b849; 0x53273b96c96fe839; 0x27d4d813b2fc2558;
  0xcc314acab3e83923; 0x61fa04f479bbf597; 0x825a39ec14d37393; 0xcff1ddda44197c9a;
  0xfa2fc32935026953; 0xbfc188de09b4fc25; 0xca72a7ea9ec9b392; 0x4e6b7326a73b4ab0;
  0x9753de9d16fb4b65; 0x9bd5c7dd4cb99cc4; 0x8d1cb7bcb960e18b; 0x68ff6784f929ed3e;
  0x1509e771022838f6; 0xfc6c2e091823e3e2; 0xfeec75a8033c248d; 0x58a2034752e237ff;
  0x120ac6e0c3e73091; 0x1b0fa59043752838; 0x108a9d41d8f8f7fe; 0xc1f79f3b05446c54;
  0xe2e0f1a9818604d2; 0x198ffe31586aef57; 0x5267f72725816aef; 0xef262458372a51a5;
  0xdcbbd78b6b10cedd; 0xf0ea374942613443; 0x3cdb7d83f1890d60; 0x9cd6e64c8d7694a3;
  0xbe81446fe55a7ef3; 0x3818cb02c7b740be; 0x2b52c153e8bef2f9; 0xc9b230fa6938f62b;
  0x24144f03450d60e1; 0x981550cdbb48d97d; 0x305d64c3abcbdac1; 0x0c8619405a42d7a1;
  0x69bfab3515c76fe8; 0x54241a0708a0e05e; 0xee66e8e9dbc4d373; 0xb5047cbe7ed7a135;
  0x4f2bbf974bd5c866; 0x395807b32b59c268; 0x6a7f3c25e2362a51; 0x1c0c840182ba205f;
  0x89df013d8f5eac55; 0x66f92565b874fdf0; 0xa58ee1ffa62f56cb; 0xe4a31c89aca78e63;
  0x72b00ea556b247d0; 0xf6a9da696f40bef2; 0x14492bc0eec6ba20; 0x02805ba11b1fc76f;
  0x50e7ac863e9ead80; 0xbd41d37f12ab3b4a; 0x9f16715c7a87d11a; 0xe3a03d186d688604;
  0x05837a30dad0cf08; 0x07032191c1cf0867; 0x889fcd8c63b02e83; 0xcb326b5b72273144;
  0x3a9890a3dca887d1; 0x8559187dd51c7bf4; 0x412dfd760a88d8a8; 0x2a120de20450702f;
  0x92d0a4adcc2b846d; 0xb98265fe24957694; 0xe6234728b7b8490c; 0xf26a6ce8597ef32c;
  0x289256431f4fb740; 0x7df680f5fb01d5c8; 0xbb023e5f3f8ab1fb; 0xf32aa059b59071fa;
  0xe7638b995b56cbda; 0xadcb4e3eca53ccb4; 0x0e0642e1415d10ce; 0x7673b824608c0a0e;
  0x3bd85c1230460507; 0x6d7c1db423f92236; 0x20d7f98273332d3f; 0xa908f8bffc6d816a;
  0x0b8538d19b8ddfc6; 0xceb1116ba8f7fe4c; 0x8f9cec1da27f26e4; 0x9493498de10a0edc;
  0x4ceb2887bc248ddf; 0x29d29af2f3a13596; 0x5a2258e649fdf090; 0xb444b00f923923e3;
  0x6ebc8aa4d408678f; 0x1a4f6921af9baaee; 0xf7e916d883ae3c24; 0x67b9e9d4549a7f26;
  0xd4fe784a076c54a2; 0xb8c2a94fc87bf442; 0xd878610a5d2e8303; 0x8a1f962d78afe9ec;
  0xdaf83aab4631446c; 0x0000000000000000; 0x3d9bb1321d678fb6; 0x99559c7c57a65bab;
  0xd3fd59dbc6a35cc5; 0x9d962afd61981675; 0x7e3617e50cf09071; 0x0643ed202d218ab1;
  0xd17d027addbc9baa; 0xaac86faf0b9cc4d3; 0xa4ce2d4e4ac1d41d; 0x03c09710f7f145b9;
  0x23176e9284c26886; 0x0ac5f46077635d10; 0x7cb64c4417ef571e; 0x2257a223682cea50;
  0x375e45526a04d2a6; 0x4aa8c5a79105076e; 0x2ed1bb63326e3df1; 0x255483b2a9e3e237;
  0xf8af98882e1dae3c; 0xddfb1b3a87fe4c0b; 0x311da87247255817; 0x74f3e3857b93cd61;
  0x59e2cff6be0cb529; 0xcd71867b5f06bbf5; 0x5d2179778832f8f7; 0x0845afc16c7c9a7f;
  0x7f76db54e01e12a7; 0xa64e76ef51de1372; 0xf9ef5439c2f32cea; 0x9050ff0cd7344302;
  0x0f468e50adb39218; 0xb087068ea4076e3d; 0xac8b828f26bd4e62; 0x60bac84595557741;
  0x6c3cd105cf17a0e0; 0x134a0a512f09b247; 0xbc011fcefe45b99c; 0x32dd3f62b0d41dae;
  0xf1aafbf8ae8fb695; 0xd67e23eb1c7393cd; 0x44ae8746d05817a0; 0x623a93e48e4ab02e;
  0xa848340e108303bc; 0x406d31c7e6665a7e; 0x95d3853c0de48c0a; 0x11ca51f034167528;
  0x8b5f5a9c94416b3a; 0x0140ccb1ecee82d6; 0x0dc6d5f1b6ac5577; 0xe12066b97677416b;
  0x6b3ff0940ed8a887; 0xc237082bf2b529ed; 0x5c61b5c664dc7a21; 0xc7b4721b2865e6e5;
  0x8419d4cc39f2f922; 0x45ee4bf73cb69576; 0x79353674cd3f9816; 0x4be809167deb85b8;
  0x48289e068a1ac001; 0x6ffc461538e6e559; 0xa70eba5ebd3091a4; 0xa28dc06e67e05eac;
  0xc0b7538ae9aaee82; 0x2c51e0c22971fa9e; 0x819aaefce322362a; 0xd03dcecb3152197c;
  0x1789bcd01937ff99; 0xa3cd0cdf8b0edc7a; 0xd2bd956a2a4dde13; 0x57e48d17ff51a5e7;
  0x717099b5a1430269; 0xa14d577e90111b15; 0xc377c49a1e5bab3b; 0x51a76037d2702f56;
  0x35de1ef3711b15c9; 0x476e105627a95219; 0xf5694d7998b1fb4b; 0xb2075d2fbf18a952;
  0xd73eef5af09d111b; 0x16c97061f5d97d4f; 0x86998f6d22ed3e4d; 0x73f0c214ba5cc506;
  0xc474e50bdf94a35c; 0x349ed2429df5971f; 0xc6f4beaac48b6433; 0x9613122cfa15c9b3;
  0xeda67ff92c3596ca; 0xf42981c8745f799d; 0xae0bd92e3da2890d; 0x637a5f5562a432f8].

Definition precomputedLSTableLeft_5 : list Z := [
  0x7980abe7a96f5097; 0x911a971614459f6e; 0x99dc5f93d1329430; 0xb942f9c2432db88b;
  0x714663626c185bc9; 0xea4a0e411d47bd0f; 0xd7564ea7d0cc5102; 0x9579f3b5979f7b41;
  0x55bba1907ddd935d; 0xda9bfbd9c6b68708; 0xdbf3e2819661be73; 0xb5e755e4058057fa;
  0x3fcc72566de69efb; 0x54d3b8c82d0aaa26; 0x7de3cf442ab5b4b8; 0xd5867c1770a123f4;
  0xbd219d61c0f75ca4; 0xa90daa0b0ac3ae37; 0xfe66392bd7734f9c; 0x3baf16f5ee3c7ad4;
  0x1d82e6b75f94c0b6; 0x3662a38bf846acde; 0x38173d1d1e863159; 0x07db4f4b7360afa2;
  0x1b31b0a47c23566f; 0xfb6d44d0047e92c8; 0x702e7a3a3ccf62b2; 0x89930c5a98dc828c;
  0x4ae975978224211d; 0xaed6e54079a30195; 0x3d1c40e6cd8bec0d; 0x2930778c07bf1e9e;
  0x8a2b27b26866c901; 0xcd0fe75bfc383e16; 0x419796fab7e961ce; 0xceb7ccb30c82759b;
  0x16fc05da6a598065; 0x6cc485d5338c9b7f; 0x1f52d407fff9b240; 0xe05cf474785dc4a7;
  0xf518da46e2be0f4f; 0xb0ec281fd68d8aae; 0xdef89f7a456c6327; 0x03b82be8f0ba4b8d;
  0xd08d01eca3acfea0; 0x8e484311ebbc2d2e; 0x23268db962a56736; 0x0a16fa35651a79a8;
  0xf3ab8c55c1099996; 0x06b3561323b796d9; 0xdf90862215bb5a5c; 0x4d323adcf1448ebf;
  0x98b446cb81e5ad4b; 0x97a9c10537f209b7; 0xad6ecea889194a18; 0x15442e329ae3cbe8;
  0xa27349663f0eeee4; 0xabdd98bbaaaedcc1; 0xc0c25225ea42e81c; 0xb65f7e0cf53a1c77;
  0x5308f7835e6a0584; 0xed91410a6e2712ad; 0xc1aa4b7dba95d167; 0xe134ed2c288afddc;
  0x62b11b43d54c06f8; 0x24fdc2f211c5c894; 0xe9f225a9edfdf682; 0x656a5408a62ca95a;
  0xecf958523ef02bd6; 0x5d7d6915b8aa9803; 0x262df042b1a8ba62; 0xbe99b689304d1729;
  0x21f6bf09c2c815c0; 0x4b816ccfd2f31866; 0x48394727224953eb; 0xcad4a8108f5891b4;
  0xf7c8e8f642d37db9; 0x7c8bd61c7a628dc3; 0xff0e207387a476e7; 0x209ea651921f2cbb;
  0xd1e518b4f37bc7db; 0x8536a07cde716dfd; 0x587614ee6ba74557; 0x49515e7f729e6a90;
  0xfa055d8854a9abb3; 0x87e692cc7e1c1f0b; 0x2745e91ae17f8319; 0xe89a3cf1bd2acff9;
  0xf470c31eb2693634; 0x5aa6265ecbca37a1; 0x66d27fe05696e2d7; 0xf013a7bd31b3d21b;
  0xcbbcb148df8fa8cf; 0x0e759e96e6c09d87; 0xe28cc6c4d830b651; 0x576b9320ddb0e1ab;
  0xc4a1368669980c33; 0x9b0c6d23715fe6c6; 0xee296ae29e9d5920; 0x1a59a9fc2cf46f14;
  0x370abad3a89195a5; 0x2eeb38c774dfb13c; 0x69cff82ee081462b; 0x8b433eea38b1f07a;
  0xafbefc18297438ee; 0xc21260954a2f9aea; 0x7f33fdf48ad8c64e; 0x64024d50f6fb9021;
  0x45f4f259343385e1; 0x142c376aca34f293; 0xfdde12c327c90411; 0xac06d7f0d9ce7363;
  0x868e8b942ecb2670; 0x769d2c291f78f46b; 0x4347a44a17841338; 0x50b0dc6baed04e09;
  0x28586ed4576827e5; 0xaab581e3fa79e5ba; 0x5ec542fd4810d38e; 0xdd40b492b5d628aa;
  0xbb92cb72e340ca7d; 0x96c1d85d672530cc; 0x050b7dfbd30ddd54; 0x7b50995709022261;
  0xf6a0f1ae120444c2; 0x2be0453ca7d26c68; 0x09aed1dd95a03225; 0xc7191d6e992247be;
  0x464cd9b1c489ce6c; 0x0dcdb57e167ad60a; 0x13f77821b9545d31; 0x610930ab25f64d75;
  0x0168195850d7397b; 0xef4173bace4a605b; 0x8df068f91b0666a3; 0xd3352a045316b52d;
  0xbc498439902065df; 0xf17bbee56164eb60; 0x3201c7287b9c48f1; 0x5c15704de87da178;
  0x02d032b0a06d72f6; 0xb1843147865ab3d5; 0x56038a788d67d8d0; 0x51d8c533fe077772;
  0xc96c83f87fe2da39; 0xd63e57ff801b6879; 0x4e8a113401fec532; 0xc8049aa02f35e342;
  0xa0a37bd69f639c12; 0x31b9ecc08b26037c; 0x224e94e132725e4d; 0xa5a8062d4c6e4146;
  0x17941c823a8eb91e; 0x3369de702b4b718a; 0x9411eaedc748423a; 0xeb2217194d908474;
  0x845eb9248ea65486; 0x08c6c885c5770b5e; 0x2595dbaa4112f1ef; 0xf9bd7660a413e03e;
  0x397f24454e510822; 0x606129f37521740e; 0xb23c1aaf76e0f858; 0xd4ee654f20761a8f;
  0x6f7cae3dc336d0f2; 0x0000000000000000; 0x6dac9c8d635ba204; 0xa1cb628ecfb4a569;
  0x129f6179e983644a; 0xd84bc96966dbf5fe; 0xa31b503e6fd9d79f; 0xa4c01f751cb9783d;
  0xcfdfd5eb5c554ce0; 0x9a64747b2188dfbd; 0xcc67fe03acef076d; 0x5260eedb0ebd3cff;
  0x1ceaffef0f43f9cd; 0x2f83219f24088847; 0x7e5be4acda0fff35; 0x93caa5a6b428ed98;
  0x422fbd1247532a43; 0xb35403f72637c123; 0x18899b4c8c991de2; 0xb82ae09a13fa81f0;
  0xfcb60b9b771e3d6a; 0x449ceb0164e4bc9a; 0xe6efa2675bea527e; 0x8c9871a14bd15fd8;
  0xc6710436c9f57ec5; 0x63d9021b859b3f83; 0xbff1afd1609a2e52; 0xf2c3950d91dea0ed;
  0x2c3b0a77d4b2c3ca; 0x11274a9119392fc7; 0x739651d2cc75293f; 0xdc28adcae50111d1;
  0xd923d031360ccc85; 0x92a2bcfee4ffd4e3; 0x3ea46b0e3d31a780; 0xd25d335c03c18c56;
  0x591e0db63b707c2c; 0x752507c1efc2bfe6; 0x19e18214dc4e2499; 0xb48f4cbc55576e81;
  0x8155c4df5dab89d2; 0xe43f90d7fb872088; 0xe557898fab5019f3; 0x0f1d87ceb617a4fc;
  0x4724c0e9945ef717; 0x9cd72268023f4964; 0x2a885c64f7055513; 0xa865b3535a14974c;
  0x5bce3f069b1d0eda; 0x8f205a49bb6b1455; 0x046364a383dae42f; 0xa6102dc5bcd40acb;
  0x72fe488a9ca21044; 0xbafad22ab397f306; 0x30d1f598dbf13a07; 0x4c5a2384a193b7c4;
  0x82edef37ad11c25f; 0x6a77d3c6103b0da6; 0x88fb1502c80bbbf7; 0x3c7459be9d5cd576;
  0x6e14b76593e1e989; 0x0b7ee36d35cd40d3; 0x9e0710d8a2523b92; 0x68a7e176b0567f50;
  0x67ba66b80641dbac; 0xc5c92fde394f3548; 0x744d1e99bf15869d; 0x40ff8fa2e73e58b5;
  0x0ca5ac2646adef71; 0xe787bb3f0b3d6b05; 0x9dbf3b3052e8701f; 0x90728e4e4492a615;
  0x7a38800f59d51b1a; 0x3ac70fadbeeb43af; 0x35da886308fce753; 0x34b2913b582bde28;
  0x9f6f0980f28502e9; 0xb7376754a5ed250c; 0xf8d56f38f4c4d945; 0x4fe2086c5129fc49;
  0x6b1fca9e40ec34dd; 0x8385f66ffdc6fb24; 0x5fad5ba518c7eaf5; 0xa778349dec0333b0;
  0x1e3acd5faf2e8b3b; 0x104f53c949ee16bc; 0xc37a79cd1af8a391; 0x78e8b2bff9b869ec;
  0x2d53132f8465fab1; 0x77f535714fafcd10; 0xe3e4df9c88e78f2a; 0x803ddd870d7cb0a9].

Definition precomputedLSTableLeft_6 : list Z := [
  0xa2c881e23bb3c265; 0x7e5eba731f4c948f; 0x65cf9b0b79d83cc1; 0x09ce1f2822cdd93a;
  0xb959a09a5d276a2b; 0xaa23a28fdcda7c18; 0x3c4019176209e36f; 0x92f74b4f2c06c0a8;
  0x39f1d5853578dbf7; 0xf0c3645c4b240a7f; 0xcb78c95337d71f06; 0xfef6cf6c77132553;
  0xe0d6228646f6b585; 0x024a788a498bce8e; 0x4e6170de08f99642; 0x4af580099a2cc99d;
  0xe567ee1411878d1d; 0x3f2f5dd8ee264aa6; 0x706b1143237bbba3; 0x0c7fd3ba75bce1a2;
  0xfa623fbbe5c67a8c; 0xc0fcaef15c9108b2; 0x4171e7abf16ade29; 0xa1a7c52db79c6bac;
  0x607e57992ea90459; 0xa7794d706cc2fafd; 0x82e20d9521d47f52; 0x532ed9fbb533af5d;
  0xb5267320289b8b89; 0x9e8898f559ba210a; 0x9663bb98bed39f77; 0x4c2b0854417258cc;
  0x1e20edea31e590d6; 0x6785e3813053f24f; 0xe3b96649cad91c4c; 0x2a8bd790b485cdc4;
  0xacfd2ad20784ed49; 0x433b9f21b8e110a7; 0x8cd7a6a51de3507e; 0xc7071ae9426bfea4;
  0x26f4042ac1392c66; 0x29e4935f38aa640d; 0x1c6a9560786e5e58; 0x4d0e341184d63f8b;
  0x9de7dc3ad59588c3; 0xf2891cd602afc4f1; 0x210fb032dfc3da70; 0x6d24b8669eb182bc;
  0xbce86c080a5652b3; 0x9a1c6822cb6f7ed5; 0x27d1386f049d4b21; 0x1481b60d9f07e025;
  0x5e743604052b29b8; 0xe442d251d423ea5a; 0xd386ace4dd6c1e81; 0xe1f31ec38352d2c2;
  0x69b048b10c64dd63; 0x499ac4c616036054; 0xab069eca197e1b5f; 0xb3f8fb7df3c51ad8;
  0xa3edbda7fe17a522; 0x0b8467a26b4617b4; 0x90bd33c5658d0e26; 0xfcbcb7e63e98ebdd;
  0xc2b6d67b151ac63c; 0x80a8751f685fb1dc; 0xe72d969e580c4393; 0x63111356a286ad90;
  0x303fcaad17b502cd; 0x2260f4fd53ec73b9; 0xf61dec01907a9b2e; 0xa869da059551b296;
  0x57ba292c27e6f082; 0x8e9dde2f54689ef0; 0xc393ea3ed0bea17b; 0xc62226ac87cf99e3;
  0x50419d34391c0694; 0x75daddd1740a833b; 0x4bd0bc4c5f88aeda; 0x6c0184235b15e5fb;
  0xa65c7135a9669dba; 0xa41609bfe0ed5334; 0xf572a8ce1c5532e7; 0xf8284731ac4db402;
  0x9cc2e07f1031ef84; 0xd2a390a118c879c6; 0xcda6410eec898e57; 0xdc963b9124ff56ea;
  0x1d4fa925bdca391f; 0x83c731d0e4701815; 0x2e1f27472650921b; 0xf1e658198e806d38;
  0xfd998ba3fb3c8c9a; 0x818d495aadfbd69b; 0xb1b283f7ba4ed456; 0x4f444c9bcd5df105;
  0x47af6ff62a344f78; 0x137a021581fd1633; 0x468a53b3ef90283f; 0x5bc5fa96525a1120;
  0xfb4703fe20621dcb; 0xed8ccd79f6ee3360; 0x9429c312f75851f9; 0x259b40e54d1685af;
  0xa53335fa25493473; 0xddb307d4e15b31ad; 0x38d4e9c0f0dcbcb0; 0x58aabe59de75b8e9;
  0x0f109775f993486b; 0xda48b3ccffa1c7bb; 0x3d652552a7ad8428; 0xe83d01eba19f0bf8;
  0xe9183dae643b6cbf; 0x18fe65b7eabb0187; 0x950cff5732fc36be; 0xeee389b67ac19aa9;
  0x7790a55b3d814db5; 0x722169c96af0752d; 0x6f6ec0ecd73a4c32; 0x5164a171fcb861d3;
  0x7f7b8636dae8f3c8; 0xdff97f5ea8d0ff23; 0xd7125c334fb9415e; 0xd47d18fcc396e897;
  0x6bfa303b45ef13ed; 0x3a9e914ab957723e; 0x202a8c771a67bd37; 0x0aa15be7aee270f3;
  0x421ea3647d4577e0; 0xcc837d4b292de910; 0x7bef76e1483dac17; 0x8fb8e26a91ccf9b7;
  0x3bbbad0f7cf31579; 0x7d31febc93633d46; 0xbf8728c78679fb7a; 0xd0e9e82b5143b748;
  0xdedc431b6d749864; 0xca5df516f2737841; 0x2c555fcd6fdb5c95; 0x19db59f22f1f66c0;
  0x76b5991ef8252af2; 0x125f3e5044597174; 0x74ffe194b1aee47c; 0xd55824b906328fd0;
  0x8b2c12bd0319a668; 0x07fbb4181efaf616; 0x598f821c1bd1dfae; 0xb097bfb27feab311;
  0x1f05d1aff441f791; 0x615b6bdceb0d631e; 0x1ab41d3da330cf09; 0xc8178d9cbbf8b6cf;
  0x974687dd7b77f830; 0x17eef2c2132849ec; 0xa94ce64050f5d5d1; 0x91980f80a0296961;
  0x9fada4b09c1e464d; 0x1b9121786694a84e; 0xbb13d81014aca4a5; 0xd1ccd46e94e7d00f;
  0x7aca4aa48d99cb50; 0xb4034f65ed3fecce; 0x5f510a41c08f4eff; 0x714e2d06e6dfdce4;
  0x0e35ab303c372f2c; 0x0000000000000000; 0x7880322ec41205de; 0x24be7ca088b2e2e8;
  0x4054dbee34ceb96e; 0x8676fd42b301208d; 0x520be5be7097c81a; 0xf3ac2093c70ba3b6;
  0x11307a9fc876d8bd; 0x28c1af1afd0e034a; 0x5c3e4e8e4ca0e736; 0x985610a882e4b05b;
  0xc1d992b499356ff5; 0xd63760768a1d2619; 0x036f44cf8c2fa9c9; 0x08eb236de769be7d;
  0xaeb752584e0f23c7; 0x64eaa74ebc7c5b86; 0x2d706388aa7f3bd2; 0x3275b2275e3ecc43;
  0x06de885ddb5e9151; 0x34ab3a7a85605d12; 0x5d1b72cb89048071; 0x843c85c8fa8aee03;
  0x311af6e8d211658a; 0xf90d7b7469e9d345; 0x93d2770ae9a2a7ef; 0x8753c10776a547ca;
  0x9b3954670ecb1992; 0x0d5aefffb01886e5; 0xcfec3984a50240d9; 0x6adf0c7e804b74aa;
  0xbdcd504dcff235f4; 0x33508e629b9aab04; 0xdb6d8f893a05a0fc; 0xeb5245242db0a231;
  0xcec905c160a6279e; 0x55f051a66e6d3e0c; 0x16cbce87d68c2eab; 0xc54d62630be0302a;
  0x48bff883d3a70713; 0x2baeebd57121aa83; 0x101546da0dd2bffa; 0xba36e455d108c3e2;
  0x79a50e6b01b66299; 0xb2ddc73836617d9f; 0x01253c45c5a46747; 0x0494f0d792d55fdf;
  0xb87c9cdf98830d6c; 0xc932b1d97e5cd188; 0xeca9f13c334a5427; 0x8519b98d3f2e8944;
  0xf457948bd9f155a0; 0x44c02b39a61be6b1; 0x5ae0c6d397fe7667; 0x2f3a1b02e3f4f55c;
  0x05b1cc9257713898; 0xd927f703738e6e72; 0x689574f4c9c0ba24; 0xadd81697c2208a0e;
  0x358e063f40c43a55; 0x569f1569e24297c5; 0xc4685e26ce44576d; 0xaf926e1d8bab4480;
  0x15a48a485aa38762; 0x7c14c2f956c75a01; 0x6e4bfca9129e2b75; 0xd802cb46b62a0935;
  0xf738d04455defc69; 0x66a0dfc4f5f79508; 0x89666a374a9268e6; 0x45e5177c63bf81f6;
  0xefc6b5f3bf65fdee; 0x37c47eb5094ff4db; 0x8df29ae0d8473739; 0xb64937efa4b42240;
  0xffd3f329b2b74214; 0x884356728f360fa1; 0xea777961e814c576; 0x62342f136722cad7;
  0xe29c5a0c0f7d7b0b; 0x3e0a619d2b822de1; 0x54d56de3abc9594b; 0xbea2148243dd9c3d;
  0xb76c0baa61104507; 0x36e142f0cceb939c; 0xe608aadb9da824d4; 0x99732ced4740d71c;
  0xa082f96872380ceb; 0x2345c8b8964814fe; 0x8a092ef8c6bdc12f; 0x7304558caf54126a].

Definition precomputedLSTableLeft_7 : list Z := [
  0x5e591d8d98fb3354; 0x9076be36c108565a; 0xb8ae1f395bcb044b; 0x1848de0576418f0f;
  0x7681bc8202386145; 0xc4191ac89eb3909b; 0x0d23f7db111f5fae; 0x841a0fd08c887fb3;
  0xc20bcc586232c3e8; 0x348c5aea447cbffd; 0x3197e732c65c2456; 0x24fcceeca102f4f7;
  0xc30c546048ec3aa0; 0xc7107180e0125843; 0x4a35ac6bd57b1abd; 0x07154ea8d65faa3b;
  0x0c246fe33bc1a6e6; 0x483b5f1b81042b2d; 0x80062a3024761d50; 0xd760e586056c1349;
  0x69dc2c2fa2264471; 0xeecf48b7500ff31a; 0xd84de12d400c7d77; 0x1b41b54d08e047d7;
  0x778624ba28e6980d; 0x9171260eebd6af12; 0x739a015a8018faee; 0xe8dd9e27ac8ea069;
  0xa1e159040754720c; 0x537aea5689e46cfa; 0xc93aed138faccf35; 0x8d25ddeb356942fe;
  0xe7f09a8ce9eece57; 0x7fbe6eb9bbd95c08; 0x8614fca0d8f74e23; 0x70936a12feb93236;
  0x4e29898b7d85785e; 0x1f5d90ada01e2534; 0x63ea955c6566b1e4; 0xe6f702b4c330371f;
  0xa7f38f94fbd5217f; 0x358bc2d26ea246b5; 0x20e0eb0c09fc9614; 0x0f2d04ab45606e3e;
  0x1662429619ff1879; 0xf39c2b6aa46ee7be; 0xafcbc59768eae57a; 0x22ee187c5d83a784;
  0xb9a987017115fd03; 0x1e5a08958ac0dc7c; 0x25fb56d48bdc0dbf; 0xbaa0ec490fb435db;
  0xbdb5a2e1d9eb9fe0; 0x8e2cb6a34bc88a26; 0x5c57eefdcc8402c4; 0x41048d2038e51660;
  0x6fcefabf5ea71702; 0x420de6684644deb8; 0x4611c388eebabc5b; 0x2bd1ca47e4629ac9;
  0xdc51c4cde8f21f94; 0xdf58af859653d74c; 0x430a7e506c9a27f0; 0xe3ecbf6c4110acb4;
  0x29df3937b01dab59; 0xb48a70da600aa2ad; 0xcb341e63dbd3fea5; 0x329e8c7ab8fdec8e;
  0xda43125d14734ce7; 0xead36d57f8f191f9; 0xbebcc9a9a74a5738; 0x03096b487ea1c8d8;
  0xa5fd7ce4afaa10ef; 0xa4fae4dc8574e9a7; 0xabd7e077c0148799; 0x64ffdbf4b3391bdf;
  0xadc536e73c95d4ea; 0x4f2e11b3575b8116; 0x851d97e8a65686fb; 0xa0e6c13c2d8a8b44;
  0x1379ff4e9bdf83d2; 0xd4698ece7bcddb91; 0xfba46169375123bb; 0xaecc5daf42341c32;
  0x946a9bd669f634b9; 0xde5f37bdbc8d2e04; 0xbba77471256acc93; 0xce2fa3bb59f3650e;
  0xa2e8324c79f5bad4; 0xf192d81af011d62e; 0x3db388d1fd9d82b0; 0xb68483aa3475933d;
  0x61e4662c31198074; 0x3682a99a10038e6d; 0xecc1bbc70470c28a; 0xc83d752ba572367d;
  0x527d726ea33a95b2; 0xb298a64a9c8bf1de; 0xd075ab2ed333b972; 0x729d9962aac603a6;
  0xebd4f56fd22f68b1; 0x966468a63d890529; 0x0e2a9c936fbe9776; 0xe2eb27546bce55fc;
  0x5661578e0bc4f751; 0x4c277afb29fa49ce; 0x40031518123bef28; 0x378531a23add7725;
  0x92784d46957767ca; 0x441f30f8bac58dcb; 0x8f2b2e9b6116736e; 0x594c53254ea4996f;
  0xdb448a653eadb5af; 0x6dc009cf0ad82692; 0x8c2245d31fb7bbb6; 0xd37cc066ad9271aa;
  0x883e6033b749d955; 0x47165bb0c4644513; 0xe5fe69fcbd91ffc7; 0x2fcdefa74c9cf82a;
  0x127e6776b1017a9a; 0x8b370b7bc9e8118d; 0x11770c3ecfa0b242; 0x546fa4fe5fbbc6c1;
  0xa8de8b3fbeb54f41; 0x87136498f229b76b; 0x2dc31cd718e3c9ba; 0x5d5076c5e65afb8c;
  0x9d5549edd01709f4; 0x39afad315563e053; 0x5f5e85b5b225ca1c; 0x26f23d9cf57dc567;
  0x051bbdd882209bab; 0xd56e16f6511322d9; 0xfcb12fc1e10e8980; 0x194f463d5c9f7647;
  0x093fd23bb9e13d4d; 0xb39f3e72b6550896; 0xfaa3f9511d8fdaf3; 0xefc8d08f7ad10a52;
  0x0a36b973c740f595; 0x30907f0aec82dd1e; 0xcd26c8f32752add6; 0xd6677dbe2fb2ea01;
  0x6bd2df5ff65975e1; 0x08384a03933fc405; 0xb58de8e24ad45be5; 0x6ec962877479ee4a;
  0x65f843cc99e7e297; 0xf58efdfa58efb4cd; 0xaad0784feaca7ed1; 0x748f4ff2564750d5;
  0x4b323453ffa5e3f5; 0xffb844899faf4158; 0x8101b2080ea8e418; 0xc102a7101c930b30;
  0xd1723316f9ed403a; 0x28d8a10f9ac35211; 0xb191cd02e22a3906; 0x9b479f7d2c965a87;
  0xdd565cf5c22ce6dc; 0x23e98044775d5ecc; 0x3fbd7ba1a9e2b320; 0x020ef370547f3190;
  0x10709406e57e4b0a; 0x0000000000000000; 0x1a462d75223ebe9f; 0x60e3fe141bc7793c;
  0x5a45386d300551b7; 0x3ebae399833c4a68; 0x6ad54767dc878ca9; 0x7194f22ad467cb7e;
  0x7588d7ca7c99a99d; 0xb7831b921eab6a75; 0x7aa5d36139f9c7a3; 0xd94a79156ad2843f;
  0x6cc791f72006dfda; 0x937fd57ebfa99e82; 0x4518a8c0901b7483; 0x9a4007450648a3cf;
  0x8939f80b9d97201d; 0x3aa6c6792bc2288b; 0x78ab20116d86f633; 0x1d5363ddf46114a4;
  0x8a309343e336e8c5; 0x9763f09e1757fc61; 0xf8ad0a2149f0eb63; 0xf9aa9219632e122b;
  0x584bcb1d647a6027; 0x2cc484ef323d30f2; 0x0612d690fc815373; 0xbcb23ad9f33566a8;
  0x9c52d1d5fac9f0bc; 0x55683cc675653f89; 0x7cb705f1c57894d0; 0x2ad6527fcebc6381;
  0x3ba15e41011cd1c3; 0x9f5bba9d84683864; 0xc617e9b8cacca10b; 0x1c54fbe5debfedec;
  0xfebfdcb1b571b810; 0x62ed0d644fb848ac; 0x7db09dc9efa66d98; 0x21e7733423226f5c;
  0xc0053f28364df278; 0xf29bb3528eb01ef6; 0xf7800e8a0c90855d; 0x33991442922315c6;
  0x984ef4355237925f; 0xa9d91307946bb609; 0x8208d94070092cc0; 0x4d20e2c30324b086;
  0xf48965c272314d85; 0xf68796b2264e7c15; 0x146cb1e64d8029e9; 0x7ba24b5913273eeb;
  0x79acb82947580f7b; 0x1765daae3321e131; 0xf0954022dacf2f66; 0xbfbb51918d94ae70;
  0xcf283b83732d9c46; 0x010798382adef948; 0xedc623ff2eae3bc2; 0xcc2150cb0d8c549e;
  0x156b29de675ed0a1; 0x27f5a5a4dfa33c2f; 0xa3efaa74532b439c; 0x0b31214bed9e0cdd;
  0x38a835097fbd191b; 0x5766cfb6211a0e19; 0x67f6b0bccd98d307; 0x830f41785ad7d588;
  0x3cb410e9d7437bf8; 0xfdb6b7f9cbd070c8; 0xacc2aedf164b2da2; 0x956d03ee4328cdf1;
  0x51741926dd9b5d6a; 0xd27b585e874c88e2; 0xe1e24c1c156f9d24; 0xe4f9f1c4974f068f;
  0xa6f417acd10bd837; 0x2eca779f66420162; 0x9e5c22a5aeb6c12c; 0xb096553ac8f4c04e;
  0x041c25e0a8fe62e3; 0xca33865bf10d07ed; 0xe0e5d4243fb1646c; 0x7eb9f6819107a540;
  0x66f12884e7462a4f; 0x5073811ef745a422; 0x493cc723abdad265; 0x5b42a0551adba8ff;
  0x99496c0d78e96b17; 0x68dbb41788f8bd39; 0xe9da061f86505921; 0xc51e82f0b46d69d3].

Definition precomputedLSTableLeft_8 : list Z := [
  0xd74812a3be2925d9; 0x634411de600e826c; 0x5e1374223d0daf72; 0xaa8c23548a011b0a;
  0xea1f775fe32a08c7; 0x2a698b4258573d53; 0x2916e47384864475; 0x9c8ec2a0afee7563;
  0xe14af3579bc64bb0; 0xa458160f555dd317; 0xeb8b52f116659e64; 0x681195d618e2c11b;
  0x9d1ae70e5aa1e3c0; 0xae99b7a9d8fe06c3; 0x2882c1dd71c9d2d6; 0xb7736c4c02f6de93;
  0x5546f02a45e1ec05; 0xd022e96f30074136; 0xaf0d92072db19060; 0x62d03470954114cf;
  0xf7e038476bddcd5e; 0xef9ec60c449a83ad; 0xb366f8b15009c35a; 0x2e7c1fbf0aa8209a;
  0x964f6306224da0b7; 0x1f140587a1692a1c; 0xa5cc33a1a01245b4; 0x24bdbe19870bf54e;
  0x88cf432f766b1c08; 0xfe5ef6d03aaf61ac; 0x037f6f31dcd17926; 0x861b7674a937d415;
  0xf50b72d8424322db; 0xf08ac38be5f3a9b1; 0x642eea12ee20e683; 0x213c0f4a20bb7e24;
  0x1b01917af39637d5; 0x1dff4f1888f7c599; 0x6985b078edad57b8; 0x895b668183248aab;
  0x43ec3b3ab5fa6aeb; 0xd8080256943a7b67; 0x5b92c5719abd2418; 0xd1b6ccc1c548d795;
  0x076afbcc8e2e64ef; 0x0ac1a1a68da3d5d4; 0x25299bb7724463ed; 0xa332edc3db73b7f8;
  0x2243607bfc6a0702; 0x61af5b4149906de9; 0x1441818fd985696b; 0xa6b35c907cc33c92;
  0x11c030dc7e35e201; 0x02eb4a9f299eef85; 0x2fe83a11ffe7b639; 0xcab75dbb36dee040;
  0x3cc34052a84cbbbd; 0x4e476150b677dbd0; 0x7dc431f734283ed3; 0xb9a75917ddaa168e;
  0x80e5a816d2562659; 0x041594fd52ff1dc9; 0x32177509771073a0; 0xc688227fc01cc7d8;
  0x410771a59c64856e; 0x0b55840878ec4377; 0xfbdf47839d1feac6; 0x6f7b6e1a96cca5f4;
  0x4bc6d00311c750ba; 0xdc1d96abc6c566ae; 0x95300c37fe9cd991; 0x84f03ceb80a93b90;
  0xbb4c1388f434f90b; 0xc71c07d13553517b; 0x16aacb10f01b86ee; 0xdef6dc34ef5b892b;
  0xdd89b305338af00d; 0x6751852332f19fa5; 0xe0ded6f96e89dd13; 0xf49f5776b70cb478;
  0x48b9bf32cd16299c; 0xe620089b15e82f5f; 0x6c04012b4a1ddcd2; 0x59798feeb323cb9d;
  0x50c74179e251676f; 0x784580a49398b5b9; 0xdae348c9bda494e2; 0xb40c037dde27a7b5;
  0x0c3f7fc4f6c22798; 0xf2618914cc6d4634; 0xbecda2db53847261; 0xf3f5acba3922d097;
  0x912598caac63c458; 0x5cf83ebd149340f7; 0x173eeebe0554104d; 0x7f2f7b681db6d156;
  0x820ee289fbc8c9dc; 0xc076fc1dbb7d3594; 0xd5a3583c97b7ca5c; 0xd99c27f86175edc4;
  0xa04d82f207a2cede; 0xa86769cba39ff48f; 0xade6d898042f7fe5; 0xbad83626017b6fa8;
  0xb18db22e79972cdf; 0xe3a1b9c8b258a435; 0xb6e749e2f7b94830; 0x20a82ae4d5f4e887;
  0x9be4396c21c0118c; 0x8564194575e6ad33; 0x7ebb5ec6e8f947f5; 0x603b7eefbcdffb4a;
  0x3796c45ad0a0f8ca; 0xc46368e0e982285d; 0xfa4b622d68507c65; 0x515364d7171ef1cc;
  0xc9c8328aea0f9966; 0x019425aef54f96a3; 0x0dab5a6a038db13b; 0x8a2409b05ff5f38d;
  0x34e9ab6b0c7181ec; 0x4d380e616aa6a2f6; 0xb01997808cd8ba7c; 0x492d9a9c3859bf3f;
  0x925af7fb70b2bd7e; 0x187efe4b2f474ef3; 0x728421021e3b606d; 0x53b82e483e801e49;
  0x4a52f5ade488c619; 0x8d4ef27cd1db9762; 0xab1806fa7f4e8da9; 0x90b1bd64592c52fb;
  0x4fd344fe43384d73; 0x9a701cc2d48f872f; 0xdb776d6748eb0241; 0xd6dc370d4b66b37a;
  0x1a95b4d406d9a176; 0xbc26e8447a1a9de4; 0x105415728b7a74a2; 0x93ced25585fd2bdd;
  0x9e65883f86709ae6; 0x97db46a8d7023614; 0x30fc3f965e8e9c25; 0x1e8020295426bcbf;
  0x0f4010f52a135ebe; 0x66c5a08dc7be0906; 0x77059051b98beb07; 0x4093540b692b13cd;
  0xa2a6c86d2e3c215b; 0xc1e2d9b34e32a337; 0x6afadf49317c2e9e; 0x12bf5feda2e49b27;
  0x54d2d584b0ae7aa6; 0x5f87518cc84239d1; 0xd35d865eecd63810; 0x65bacfbc1b6f7020;
  0xa9f34c6556d0622c; 0x3d5765fc5d032d1e; 0x4486c0f63bd40e04; 0x81718db82719b0fa;
  0xfcb5bc4f13318e29; 0xdf62f99a1a141f88; 0x466d8a69124ae181; 0xf8a028b241ce93e0;
  0xcc4983d94dbf120c; 0x0000000000000000; 0x522c0be6cbcf88ea; 0xed758c936d046c28;
  0xe4cb42043c76c0da; 0x3a3d9e30d32d49f1; 0x731004aceb74f6ce; 0x5d6c1b13e1dcd654;
  0x6eef4bb463833357; 0x8fa5b8e3f84578e7; 0xbf598775a6cbe4c2; 0xcf36ece8916e6b2a;
  0xb8337cb928e5802d; 0xe7b42d35e0a7b9fc; 0xf9340d1cb4810543; 0xfd2199e1e67e188a;
  0xb59826d32b683116; 0x09bece975172acf2; 0x47f9afc7e7057722; 0xe55f67aac9395679;
  0x31681a38abc10a86; 0xd4377d9262f85cff; 0xe8f43dc0cab4e742; 0x94a429990bd34f32;
  0x1c6b6ab67db8533a; 0x0ed4355bdf5cc81d; 0xcb237815c39176e3; 0x6d902485bf524a71;
  0x3602e1f425ef6e69; 0x357d8ec5f93e174f; 0x747aff60655a9221; 0xc5f74d4e1ccdbefe;
  0x75eedace90150482; 0xb2f2dd1fa54655f9; 0xd2c9a3f01999aeb3; 0x990f73f3085efe09;
  0x23d745d5092591a1; 0x15d5a4212ccaffc8; 0x082aeb39a43d3a51; 0x27c2d1285bda8c68;
  0x19eadbe5da08d850; 0x7691b5ff4cc47da4; 0x3942f1010ffc30d7; 0x132b7a4357ab0d84;
  0x0581b153a7b08b6a; 0xee0ae3a2b1d5150e; 0x57adbab56c7f0380; 0x9ff1ad91733f0c45;
  0xbdb2cdea8f550b47; 0x4512e558ce9b98a7; 0xffcad37ecfe0f70f; 0xc309932c67ac4cb2;
  0x3ba9bb9e2662df52; 0x7b3aef954f49cc9f; 0x8e319d4d0d0aee44; 0xe960186e3ffb71e1;
  0xc85c17241f400fc5; 0x7c501459c167a870; 0x6b6efae7c433b83d; 0x4cac2bcf9fe93455;
  0x839ac7270e875f7f; 0xece1a93d984bfa8b; 0x706f6b9d37a58fe8; 0xe2359c6647173296;
  0xf11ee62510bc3f12; 0xcddda677b8f084af; 0x5a06e0df6ff2b2bb; 0x2bfdaeecad18abf0;
  0xc29db68292e3da11; 0xa727793e898caa31; 0xa1d9a75cf2ed587d; 0x2c9755202336cf1f;
  0x06fede627b61f24c; 0x2d03708ed67959bc; 0x3e280acd81d25438; 0x71fb4e33c2ea194b;
  0x3fbc2f63749dc29b; 0xf6741de99e925bfd; 0xcea2c9466421fd89; 0x38d6d4affab3a674;
  0x338350a7825fe503; 0x878f53da5c7842b6; 0x42781e9440b5fc48; 0x8cdad7d2249401c1;
  0x2656f486ae951acb; 0x7aaeca3bba065a3c; 0xac72fd36f160e946; 0x989b565dfd1168aa;
  0x79d1a50a66d7231a; 0x8bb02c1eaaba652e; 0x58edaa40466c5d3e; 0x56399f1b99309523].

Definition precomputedLSTableLeft_9 : list Z := [
  0xa82c9d1ed97ea9b3; 0xb46ba49d6c77144c; 0x9695c3d6728fd1d8; 0x1eeb9c390ae943cd;
  0x8ad2fa55c7866c27; 0xf59950e153371dda; 0x9f36a12675f9d009; 0xa5147659630b9706;
  0x13d3777eb09c7d78; 0x39d8c1981762c624; 0xacb714a9647d96d7; 0x2d6a29b61b6d0513;
  0x837198a5c0f06df6; 0x86bca24fc3832d8b; 0xb9534fdad6022af9; 0x76e8c84493c7702c;
  0x0f944efd0595c087; 0x5ad452af36da0a26; 0xa0d94cb36078d77b; 0x920e4a61cf8ceebc;
  0xe2d1ae285ea85fc6; 0x34e02adfad17f891; 0xeebff6325aad1e6a; 0x6dce6e979a5d739c;
  0x1a70158eb7ea7ca9; 0x24c94b461c1b04c2; 0x1fbd2f64b4993cd4; 0xd2aa0d404ebc9833;
  0x18dcb034080a829b; 0x371a3c38ac8779ba; 0x6aaff1c726cecdd3; 0x3fefed9515810772;
  0xae1bb113db9d68e5; 0x10296199b10cfc53; 0x46936b2c83d3b7d9; 0x6c98ddca242d0c85;
  0xbc9e7530d5716a84; 0x6803547d992e33e1; 0x0b0fc74ab896ffe3; 0x3eb95ec8abf1786b;
  0xfe9697abeba1e239; 0xa97a2e43670ed6aa; 0x28a7135c181e456e; 0x7cb1bc539521f0d6;
  0xf2f8cfb1efa4a395; 0xbf6463d7d4e1ebaf; 0xf4cfe3bced4762c3; 0xcb200e29f8c665b1;
  0x06372c0d02e3c156; 0xf8a1bba6e942236f; 0xbdc8c66d6b01159d; 0x7512dea39257f107;
  0x03fa16e70190812b; 0x4cca1f3b85353723; 0x4bab806b39a6896c; 0xc02fc96340509a52;
  0x049b89b7bd033f64; 0xb30a3bcdd0e4aa03; 0xb6c70127d397ea7e; 0x51db95e58e4cf5c5;
  0xeb72ccd859de5e17; 0x98573e76c96a6e46; 0x23a8d416a088ba8d; 0xabd68bf9d8ee2898;
  0xb25c88906e94d51a; 0x99018d2b771a115f; 0x8928ecb2c616ed0c; 0xdf92e607f4c9a686;
  0x0d38eb47ba753eb5; 0x312d1035ae64b8ec; 0x70dfe4499124b17a; 0x7325f2ae90b43051;
  0x1d118ade0b79c2e6; 0x8db365057b15d268; 0xf102d956ee3422be; 0x7de70f0e2b518fcf;
  0x1748fec90d9f421c; 0x2c3c9aeba51d7a0a; 0x35b6998213678788; 0x887e5fef78669215;
  0x67971a809cbbf366; 0xe12bb8cf5f38deed; 0xb53d17c0d2076b55; 0x646d0c679d2b724d;
  0xb1a69e776f045431; 0x08f5d1adb9067ec8; 0xe5b03178e23be189; 0x1c473983b509bdff;
  0x6bf9429a98beb2ca; 0x5ce37ea23439cb70; 0xa3235a5461e85650; 0x7a86905e97c23180;
  0xe888da3f584edf3c; 0xda5fdcedf7bae6fb; 0xd76737aa4dcfd84e; 0xfa0d1e1c56a2dd5d;
  0xa7b8d3e3dceb6934; 0x7f4baab494b171fd; 0xe4e682255c4b9e90; 0x8f1fc0bfc4f52c5a;
  0xa18fffeede08a862; 0x522183028fdc74ee; 0xec135388e54de058; 0x3b746422a8823816;
  0xa275e909df982949; 0x5f19684535a94a5b; 0x508d26b8303c8adc; 0x4afd333687d6f675;
  0x57ecb9e88caf3493; 0x55401c52334fcaa1; 0xdc68f0e0f55927ad; 0xdec4555a4ab9d99f;
  0x9d9a049cca192e3b; 0xe71c94c25ddb1fbb; 0xaf4d024e65ed17fc; 0x97c3708bccffaec1;
  0xaa8038a4669e5781; 0x2665eefca3fbfaf0; 0x4d9cac663b45483a; 0x5416af0f8d3fb5b8;
  0xf735f55becd7e3e8; 0xd9a5ca0af62a67d0; 0x841007f57c63d3b9; 0x41f2f47c3f400996;
  0x82272bf87e8012ef; 0xd63184f7f3bfa757; 0xb791b27a6de79567; 0xdb096fb049ca99e2;
  0x2b5d05bb198ec445; 0xa6ee60be629b162d; 0x388e72c5a912b93d; 0xceed34c3fbb525cc;
  0x956fd531731f50f3; 0x718957142f54ce63; 0xc3d5df8441c01b79; 0x8e4973e27a855343;
  0x9afb9bcc768a9074; 0xefe9456fe4dd6173; 0x259ff81ba26b7bdb; 0xa442c504dd7be81f;
  0xe9de6962e63ea025; 0x3c15fb7214118659; 0x6f62cb2d25bd8dae; 0x02aca5babfe0fe32;
  0x0156b35dbe707f19; 0x0a59741706e680fa; 0x09a362f0077601d1; 0x9439666ccd6f2fea;
  0xed45e0d55b3d9f41; 0x592e4448374a8b0d; 0x61a0368d9e583230; 0x6955e720275e4cf8;
  0x29f1a001a66e3a77; 0xb0f02d2ad1742b28; 0x307ba3681014c7f5; 0x60f685d020284d29;
  0x74446dfe2c278e1e; 0x22fe674b1ef8c594; 0x0c6e581a040541ac; 0xcd172224fa25a4e7;
  0x7bd0230329b24e99; 0x5b82e1f288aa753f; 0x40a447218130768f; 0xe3871d75e0d820df;
  0x14b2e82e0c0fc337; 0x0000000000000000; 0xfd6c814cea316312; 0x782a35e42822cfb2;
  0xade1a7f4da0de9ce; 0xd006a8faf15c6601; 0x91f45c86ce1c6f97; 0xfc3a321154411c0b;
  0xf9f708fb57325c76; 0xea247f85e7ae210e; 0x8546b4a8c213aca0; 0x7e1d19e92ac10ee4;
  0x77be7b192db70f35; 0xc74e5633fcc3241d; 0xc5e2f3894323da2f; 0x5db5cdff8a49b469;
  0x3a22d77f16f2470f; 0xd5cb9210f22f267c; 0x66c1a9dd22cb8c7f; 0x8b84490879f6133e;
  0x490725d18646775e; 0xc2836cd9ffb06460; 0xc618e56e42b35b04; 0x56ba0ab532df4b8a;
  0x4e66ba813ad5c911; 0x27335da11d8b85e9; 0xe64a279fe3ab60a2; 0x9358f93c71fc91a5;
  0xbbffea6069e2d4cb; 0xd1501ba74f2c1918; 0x630c933721b8cc02; 0xc1797a3efe20e54b;
  0x45697dcb824336f2; 0xc8da18cef956e49a; 0x161e4d94b3ef3d05; 0x1b26a6d3099a03b0;
  0x2052c2f1a1183ba6; 0x9bad2891c8faef6d; 0xf3ae7cec51d4dc8c; 0xb805fc87687255e0;
  0xf0546a0b50445da7; 0x2fc68c0ca48dfb21; 0xbaa9593dd792abd2; 0x4f3009dc84a5b608;
  0xbe32d08a6a9194b6; 0x1285c4230eec0261; 0x435e51c680a0f7a4; 0xcfbb879e45c55ad5;
  0xc98cab9347269b83; 0x2a0bb6e6a7febb5c; 0x117fd2c40f7c834a; 0x15e45b73b27fbc2e;
  0xf663460652a79cf1; 0x625a206a9fc8b31b; 0xcc4191794455dbfe; 0xe07d0b92e148a1f4;
  0x8ce5d658c565ad71; 0x90a2efdb706c108e; 0x47c5d8713da3c8c0; 0xffc024f655d19d20;
  0x81dd3d1f7f1093c4; 0x5e4fdb188bd93542; 0xfb5bad41e8d2a244; 0x797c86b99652b0ab;
  0x364c8f6512f706a3; 0x32d706d2aff439c7; 0x0ec2fda0bbe5bf9e; 0xd3fcbe1df0cce72a;
  0x3381b58f118446de; 0x5377305f31ac0bf7; 0x87ea11127df35292; 0x210471ac1f6844bf;
  0xd49d214d4c5f5965; 0x07619f50bc93be4f; 0x4851968c38360847; 0xdd3e43bd4b2958b4;
  0x6e3478709bcdf2b7; 0xc4b440d4fd53a536; 0x5878f715893af414; 0x9cccb7c174695122;
  0x05cd3aea0373407d; 0x198a0369b67afd82; 0xd8f37957485a18c9; 0x808b8e42c160ecdd;
  0x9e60127bcb89af10; 0x443fce963c3349eb; 0xca76bd7446b61aa8; 0x3d43482faa61f940;
  0x2e903f511afd8438; 0x727341f32ec44f48; 0x4208e29b3ed088bd; 0x653bbf3a235b0d54].

Definition precomputedLSTableLeft_10 : list Z := [
  0xd4192dd4c2c3d39c; 0x407bcb409434a604; 0x97c0d2973c7b8184; 0x4d69b64dd9841dc1;
  0x03a234036a8cf41c; 0xd13c71d17c940cb8; 0xf80879f8e3acd6ee; 0xcac726cac0f25444;
  0x53b7bd53dbb59a19; 0x662027660af5de3e; 0xa50f8da51f25032e; 0x106e4210250dc801;
  0x6c6a9f6cb55ba376; 0x90981790ce654709; 0x5ea5c05e960521dc; 0xbd56eebdc9cfafce;
  0xc7d55bc78d42ef81; 0x20dc84204a1a5302; 0x3635ae36bbccb03b; 0xe6d672e6e19d5136;
  0xf39d6cf37ac74613; 0x78fe2c7808c459e6; 0x60a74f60de2ef506; 0x0ccdd00c6b755670;
  0x3c7f163c0462cd73; 0x7fa6e97ffada9f6b; 0xc08d9ec07f5c290c; 0xfa75e0faafe5cf47;
  0xe57446e58b11a52a; 0x2c11542c216f0572; 0x293408299f38da56; 0xce3dd7ce586066d5;
  0x7c04dd7c90566b77; 0x0758c507f21ec68d; 0xb4be62b41ced269a; 0x8129f881cdad62bd;
  0xa25748a2ed3bc5a3; 0xf03f58f0104bb20f; 0xb6c3fbb650a43f33; 0x43d9ff43feb85218;
  0x67ff8a672c30338b; 0x59fd0559641be751; 0xec9ccaec5e332c7e; 0x86713d863fb3a430;
  0xf4c5a9f488d9809e; 0xf6b830f6c4909937; 0x5cd8595cda4c3875; 0x92e58e92822c5ea0;
  0xa81df0a85295b8eb; 0xcfe27acf7ea58b60; 0x2fb3602f4be3f16e; 0xe9b996e9e064f35a;
  0x54ef785429ab5c94; 0x8f99b18fea912d64; 0xaa6069aa1edca142; 0x24267524d2886193;
  0x7116a071dde6d0b2; 0x6582136560792a22; 0x99709b991b47ce5d; 0x961f7f961abe6c31;
  0x9c55c79ca5101179; 0xddf1a1dd17e15ac8; 0x5a5f315a0e97134d; 0x80f65580eb688f08;
  0xe8663be8c6a11eef; 0x50158950b1396e05; 0x574d4c574327a888; 0xe4abebe4add4489f;
  0x1ede0b1e023187d8; 0x840ca48473fabd99; 0x154b1e159b5a1725; 0x41a46641b2f14bb1;
  0x1986ce19f02f4155; 0x265bec269ec1783a; 0xa02ad1a0a172dc0a; 0x0b95150b996b90fd;
  0x22a11d2206534aab; 0x9d8a6a9d83d5fccc; 0xf51a04f5ae1c6d2b; 0xdaa964dae5ff9c45;
  0x37ea03379d095d8e; 0xa77214a7536c1a87; 0xcd9fe3cd32ec92c9; 0x63057b63b4a2011a;
  0xbc8943bcef0a427b; 0xe22c83e2790f63a7; 0xd664b4d68e8aca35; 0x9462e69456f77598;
  0xa4d020a439e0ee9b; 0x88c17488188febe9; 0x62dad6629267ecaf; 0x2e6ccd2e6d261cdb;
  0xc8babfc88cbb4ded; 0x18596318d6eaace0; 0x06876806d4db2b38; 0x16e92a16f1d6e339;
  0x13cc76134f813c1d; 0xd29e45d21618f8a4; 0x5b809c5b2852fef8; 0xff50bcff11b21063;
  0xbbd186bb1d1484f6; 0xc2f007c2331530a5; 0xb9ac1fb9515d9d5f; 0xbf2b77bf8586b667;
  0xef3efeef34bfd862; 0xdc2e0cdc3124b77d; 0x1bfb571bbc6658fc; 0x27844127b804958f;
  0x3e028f3e482bd4da; 0xe709dfe7c758bc83; 0xb04493b0847f140b; 0x694fc3690b0c7c52;
  0x210329216cdfbeb7; 0x0f6fe40f01f9a26c; 0xf1e0f5f1368e5fba; 0x1a24fa1a9aa3b549;
  0x0d127d0d4db0bbc5; 0xa6adb9a675a9f732; 0x027d99024c4919a9; 0x6aedf76a6180884e;
  0x08372108f3e764e1; 0x4cb61b4cff41f074; 0x4993474941162f50; 0x9147ba91e8a0aabc;
  0xe18eb7e1138397bb; 0x8b63408b72031ff5; 0x1494b314bd9ffa90; 0x95bd4b957032982d;
  0xb873b2b8779870ea; 0x9e285e9ee95908d0; 0xebc40febac2deaf3; 0x6e17066ef912badf;
  0xc32faac315d0dd10; 0x98af36983d8223e8; 0x70c90d70fb233d07; 0x72b49472b76a24ae;
  0x04faf10498923291; 0xed4367ed78f6c1cb; 0xf242c1f25c02aba6; 0x47230e47662a6089;
  0x455e97452a637920; 0x9ad2af9a71cb3a41; 0xd5c680d5e4063e29; 0xd90b50d98f736859;
  0x8de4288da6d834cd; 0x3b27d33bf67c0bfe; 0x6fc8ab6fdfd7576a; 0x4ecb824eb308e9dd;
  0x34483734f785a992; 0x7433fc7463b10f96; 0x9ff7f39fcf9ce565; 0x7ddb707db69386c2;
  0x6178e261f8eb18b3; 0x316d6b3149d276b6; 0x09e88c09d5228954; 0x1213db126944d1a8;
  0x645dbe6446bcc797; 0xd7bb19d7a84f2780; 0x933a2393a4e9b315; 0x3af87e3ad0b9e64b;
  0xa388e5a3cbfe2816; 0xad38acadecc267cf; 0x1ca3921c4e789e71; 0x7e79447edc1f72de;
  0x764e65762ff8163f; 0x0000000000000000; 0x3310f233059b6f1f; 0xf7679df7e2557482;
  0x28eba528b9fd37e3; 0x237eb0232096a71e; 0xb2390ab2c8360da2; 0xbef4dabea3435bd2;
  0x42065242d87dbfad; 0x11b1ef1103c825b4; 0xc4776fc4e7ce1b9d; 0x5f7a6d5fb0c0cc69;
  0x30b2c6306f179b03; 0x01dfad0126c5edb5; 0xd8d4fdd8a9b685ec; 0x05255c05be57df24;
  0x32cf5f32235e82aa; 0xdf8c38df5ba84361; 0xba0e2bba3bd16943; 0x8e461c8ecc54c0d1;
  0x736b397391afc91b; 0xfd2d25fd5dfb09ca; 0x8c3b858c801dd978; 0xb3e6a7b3eef3e017;
  0x5692e15665e2453d; 0x2b49912bd371c3ff; 0x828bcc82a72196a1; 0x6b325a6b474565fb;
  0x87ae908719764985; 0xae9a98ae864e93d3; 0x46fca34640ef8d3c; 0xa9c25da97450555e;
  0xe0511ae035467a0e; 0xc60af6c6ab870234; 0xaf4535afa08b7e66; 0xb19b3eb1a2baf9be;
  0x0eb0490e273c4fd9; 0x891ed9893e4a065c; 0x792181792e01b453; 0xd341e8d330dd1511;
  0x2dcef92d07aae8c7; 0xc96512c9aa7ea058; 0x0a4ab80abfae7d48; 0xdb76c9dbc33a71f0;
  0x7b5c187b6248adfa; 0xde5395de7d6daed4; 0x484cea4867d3c2e5; 0xe3f32ee35fca8e12;
  0x4beede4b0d5f36f9; 0x35979a35d1404427; 0x8abced8a54c6f240; 0xfbaa4dfb892022f2;
  0x85d30985553f502c; 0xcb188bcbe637b9f1; 0xb71c56b77661d286; 0x2a963c2af5b42e4a;
  0xabbfc4ab38194cf7; 0x3fdd223f6eee396f; 0x395a4a39ba351257; 0xea1ba2ea8ae80746;
  0xb561cfb53a28cb2f; 0x51ca245197fc83b0; 0x9b0d029b570ed7f4; 0x7a83b57a448d404f;
  0xa1f57ca187b731bf; 0xd0e3dcd05a51e10d; 0x4a31734a2b9adb4c; 0x7791c877093dfb8a;
  0x5d07f45dfc89d5c0; 0x4f142f4f95cd0468; 0x1d7c3f1d68bd73c4; 0x8354618381e47b14;
  0x52681052fd7077ac; 0x25f9d825f44d8c26; 0xfe8f11fe3777fdd6; 0x3da0bb3d22a720c6;
  0x5822a85842de0ae4; 0x5530d5550f6eb121; 0xf9d7d4f9c5693b5b; 0xace701acca078a7a;
  0xfcf288fc7b3ee47f; 0x68906e682dc991e7; 0xc15233c15999c4b9; 0x3885e7389cf0ffe2;
  0x75ec51754574e223; 0x6db5326d939e4ec3; 0x1f01a61f24f46a6d; 0x17368717d7130e8c;
  0x44813a440ca69495; 0xcc404ecc14297f7c; 0xc5a8c2c5c10bf628; 0xeee153ee127a35d7].

Definition precomputedLSTableLeft_11 : list Z := [
  0xfe50717cfc9bad09; 0x6d9fd8f4eee2d1e9; 0x5394e401dd920e3a; 0xabb814531191f4f0;
  0xc05b4d89cfeb72da; 0x7dbda6246e653ba4; 0xaf51ea6731c02f72; 0x727bc66f16da5f61;
  0x2793a340fbd00698; 0xf9872e5fc486bc0b; 0x8ebec809fa887e29; 0x8a57363ddad9a5ab;
  0x3c9e43ef23b95392; 0x50aa4516c5dec4ba; 0xe1b46fe704a32381; 0x4123e5cb4ddc6836;
  0xb45c0ac8e9a97a78; 0xd7ae6c7a77718995; 0x1e4fc096f0bdc849; 0x237a5d74db81dd1a;
  0x2ac0bc1193a6ee1c; 0x75ac994c2ec74e63; 0xba31b48e9993587c; 0x86aff761ba2a0bee;
  0xdb56ad26178227d0; 0x7692385b368b84e3; 0xb762abdff1e5b0f8; 0x2f829c28bb72735f;
  0xe32110fd146aafc0; 0x51019b1bcd5b827b; 0xd2ec4c435fa514d6; 0xb11e2af1c17de73b;
  0xb6c975d2f960f639; 0x033ea117184cca80; 0x4461c5f26508f575; 0x9a7548ed5a5e4fe6;
  0x8d80691ee2c4b4a9; 0xea9bf1985c4d9cc6; 0xc4b2b3bdefbaa958; 0xadc4957d2109a333;
  0xb90f159981df92fc; 0xe28acef01cefe901; 0xe66330c43cbe3283; 0x994be9fa42128566;
  0x29fe1d068bea249c; 0xa92d6b49015878b1; 0x616719a88e117fac; 0xd07933594f6c9897;
  0x489904ae05fb5b30; 0xf19611378424c9cc; 0x915ad69202b0f0a1; 0x658ee79cae40a42e;
  0x24ad0257e39ccc18; 0x9c09c9c36ac61825; 0xc84a72e18f49071d; 0x14cb80e4a0d631cf;
  0x70eeb9750613d320; 0x39dc63d60b6dced1; 0x55e8652fed0a59f9; 0x131cdfc798cb20cd;
  0xd605b2777ff4cf54; 0xfb125145d44f304a; 0x22d18379d3049bdb; 0xdafd732b1f076111;
  0x2506dc5aeb198ad9; 0xe7c8eec9343b7442; 0xe4f64fde2c77bec2; 0xa3a92b3b51338137;
  0x8c2bb713ea41f268; 0x19989fb5c8a0d94b; 0x09bae16548273306; 0x2d17e332abbbff1e;
  0x8f151604f20d38e8; 0x9418f6ab2a646de2; 0x0d531f516876e884; 0x85915676a266c16e;
  0x577d1a35fdc3d5b8; 0x968d89b13aade1a3; 0x697626c0ceb30a6b; 0xf82cf052cc03faca;
  0x5ec7fb50b5e4e6be; 0x0e6dbe46703a2204; 0x714567780e9695e1; 0x7a6af90756782aa6;
  0x01abde0d088546c1; 0xe01fb1ea0c266540; 0x7e8307337629f124; 0x93cfa98812797ce0;
  0xce36f3cfbfd150de; 0x9f3768d4728ad2a5; 0x3ae2c2c113210451; 0xd1d2ed5447e9de56;
  0xf2a8b0209c68034c; 0xcf9d2dc2b754161f; 0x43b69ad15d15e477; 0xc9e1acec87cc41dc;
  0x4a0c7bb41532d771; 0xbde6ebada18e497e; 0x6259b8bf965db52c; 0xac6f4b70298ce5f2;
  0x02957f1a10c98c41; 0x37b1dd907b57ecd5; 0x824609559a7bd06c; 0xc1f09384c76e341b;
  0x26387d4df3554059; 0xbb9a6a8391161ebd; 0x0fc6604b78bf64c5; 0xd490cd6d6f3d4315;
  0x5b85db699d307bfd; 0x63f266b29ed8f3ed; 0x8704296cb2af4d2f; 0xbf7394b7b147c53f;
  0x972657bc3228a762; 0x46f4bae875c17934; 0xaa13ca5e1914b231; 0x4f4e5b8d3de64a32;
  0xc627cca7ff732519; 0x4ee5858035630cf3; 0x80d3764f8ab25c2d; 0x7f28d93e7eacb7e5;
  0x45ca1bff6d8db3b4; 0xeb302f9554c8da07; 0x68ddf8cdc6364caa; 0x10227ed08087ea4d;
  0x2044fc63c3cd179a; 0x5f6c255dbd61a07f; 0x4932daa30d7e1df1; 0xd347924e57205217;
  0xc2ce3293df22fe9b; 0x56d6c438f5469379; 0xe55d91d324f2f803; 0xbc4d35a0a90b0fbf;
  0x7739e6563e0ec222; 0x15605ee9a853770e; 0x306682b3434afdd7; 0xb0b5f4fcc9f8a1fa;
  0xc365ec9ed7a7b85a; 0xa6eb0b0279e71c74; 0x6a4887d7d6ffc0eb; 0x6ea179e3f6ae1b69;
  0xee720fac7c1c4744; 0x95b328a622e12b23; 0xbed84abab9c283fe; 0x3877bddb03e88810;
  0x1cdabf8ce0744408; 0xd8680c310fceed50; 0xfcc50e66ec522148; 0x6be359dade7a862a;
  0x9e9cb6d97a0f9464; 0xf3036e2d94ed458d; 0x165efffeb01fbd8e; 0xf6414e14bc39d8ce;
  0xfab98f48dcca768b; 0x1d716181e8f102c9; 0x0542203928d49d43; 0x0a844072506bf986;
  0x795458104e34e026; 0x3e0b3cf53370dfd3; 0x90f1089f0a35b660; 0x98e037f74a97c3a7;
  0xcd0852d8a79d9a5e; 0xcb74d3f69705cd9d; 0x0cf8c15c60f3ae45; 0x361a039d73d2aa14;
  0x73d018621e5f19a0; 0x0000000000000000; 0x9da217ce62435ee4; 0xe9a5508f44015646;
  0x926477851afc3a21; 0x17f521f3b89afb4f; 0x07d75f23381d1102; 0x8178a84282371aec;
  0xed4caebb64508dc4; 0xcadf0dfb9f808b5c; 0x74074741264208a2; 0xa13c542141fa0d76;
  0x5df95a47ada82c3e; 0x40883bc645592ef7; 0x78ff861d46b1a6e7; 0x83edd75892fe96ad;
  0xdd2a2c08271a7013; 0x7bc1270a5efd6c67; 0x421d44dc5590a2b6; 0xdc81f2052f9f36d2;
  0xf03dcf3a8ca18f0d; 0x2cbc3d3fa33eb9df; 0x5c52844aa52d6aff; 0x475f64e57d443ff5;
  0xa47e7418692e9035; 0x523f3a0cd51748fb; 0x5a2e056495b53d3c; 0x3fa0e2f83bf59912;
  0xd9c3d23c074bab91; 0x0b2f9e7f58eebf47; 0x2e294225b3f7359e; 0x08113f6840a275c7;
  0x60ccc7a58694396d; 0xf4d4310eacf0548f; 0x4ba7a5b91db791b0; 0xc78c12aaf7f663d8;
  0x067c812e309857c3; 0xdfbf531237d3fc52; 0x3524a28a6b9e6094; 0xfd6ed06be4d76789;
  0x1189a0dd8802ac8c; 0xb2208be6d9312dbb; 0xc5196db0e73fef99; 0xb8a4cb94895ad43d;
  0xb5f7d4c5e12c3cb9; 0x3b491ccc1ba44290; 0x2855c30b836f625d; 0xa0978a2c497f4bb7;
  0xe80e8e824c841087; 0xde148d1f3f56ba93; 0x1fe41e9bf8388e88; 0x6f0aa7eefe2b5da8;
  0x5910a4738df9f7bc; 0x32f3fda953837196; 0x843a887baae387af; 0x12b701ca904e660c;
  0x88c24927ca1029ea; 0x1b0de0afd869550a; 0x58bb7a7e857cb17d; 0xa5d5aa1561abd6f4;
  0x04e9fe342051db82; 0xa740d50f71625ab5; 0xd53b136067b805d4; 0xf57fef03a475124e;
  0x4ddb24972d2fc673; 0x3d359de22b3c1553; 0xa886b54409dd3e70; 0x335823a45b063757;
  0x21ef226ecb48515b; 0x2b6b621c9b23a8dd; 0x4c70fa9a25aa80b2; 0x1aa63ea2d0ec13cb;
  0x671b9886be89286f; 0x5443bb22e58f1f38; 0xece770b66cd5cb05; 0x9bde96e052db0927;
  0xa202f53659b6c7f6; 0x64253991a6c5e2ef; 0xefd9d1a174990185; 0x8bfce830d25ce36a;
  0x6c3406f9e6679728; 0xfffbaf71f41eebc8; 0xf7ea9019b4bc9e0f; 0x183341b8c0259f8a;
  0xb38b55ebd1b46b7a; 0x7c16782966e07d65; 0xcca38cd5af18dc9f; 0x8969972ac2956f2b;
  0xaefa346a394569b3; 0x31cd5cbe4bcfbb16; 0x348f7c87631b2655; 0x66b0468bb60c6eae].

Definition precomputedLSTableLeft_12 : list Z := [
  0x55959eb1d0a14cd9; 0xfaed87cf855d816c; 0x0cbe0a5648accc72; 0x52317b77faee3b0a;
  0xa3c613281d5001c7; 0x731cabc9f7514f53; 0xe19c709707ede975; 0x8125206202c44663;
  0x8681c5a4288b31b0; 0x023503191c322217; 0x6c075aa34d856364; 0xdfaa5143b086b11b;
  0x4ee469e9521124c0; 0xe8b39c1e793c70c3; 0x2e5d391c57388bd6; 0x3df8c220a5406b93;
  0x29f9dcda7d77fc05; 0x7d97a286a3cfa136; 0x2772d59529e91260; 0x352cce44d588e3cf;
  0xcc0faa7f42fe515e; 0xd685bdcace5728ad; 0x877a25492692205a; 0xc99e4ca07483049a;
  0x6ba3bf6567ca14b7; 0x32882b82ffc7941c; 0xcdf44a924ce740b4; 0x2318d3a7118d564e;
  0x96eadd6cc8d8e208; 0xb409ee26d74ca5ac; 0x9280db5ef0bca626; 0xc6eea5022e04fb15;
  0x914e38aae29795db; 0xe40d96483190bcb1; 0xd2efbbf8f6336c83; 0x565b7d45c28a7f24;
  0x880acceb7c15dfd5; 0x6fc9b9575fae5099; 0x106b18c8e053d3b8; 0x592b94e7980d80ab;
  0x6377b30117029ceb; 0xca50af5466a83767; 0x79fda4b49babe518; 0xb256eb0df31ac395;
  0x28023c37736eedef; 0xea869f07650e52d4; 0xecd99a2c415834ed; 0x2a373f2e6f5ccff8;
  0xc4dba61b3236d902; 0xa7ac151a253445e9; 0x17cffd0eca1ca46b; 0x5f7491ccbc5be692;
  0x628c53ec191b8d01; 0x5d4192d5a069c485; 0x065f052b24566639; 0x3a5c27e68f0f1c40;
  0x3992c4129d242fbd; 0xa1f31031016223d0; 0x07a4e5c62a4f77d3; 0x6dfcba4e439c728e;
  0x212dd0be0dbf7459; 0xba82e76983d24bc9; 0x6996bc7c7bf836a0; 0x3719cd5dc9bac1d8;
  0x3e3621d4b76b586e; 0x2547d68c35db3077; 0xc14a40c4044b8cc6; 0xf7a86d74c3e85cf4;
  0xd4b0bed3d2650aba; 0x70d2483de57a7cae; 0xf923643b9776b291; 0x9baf37d78e6d3f90;
  0x30bd289be3f5b60b; 0xf8d884d6996fa37b; 0x4a8e6fdb6a7560ee; 0x2d93dae84513b82b;
  0xbf1301b6b5af1e0d; 0x406f60a6068fcaa5; 0x49408c2f785e5313; 0x5e8f7121b242f778;
  0x4630658d22d9ac9c; 0xae83f9935be5dc5f; 0x6528b62a3354fad2; 0x24bc36613bc2219d;
  0x5cba7238ae70d56f; 0x72e74b24f9485eb9; 0x97113d81c6c1f3e2; 0xaf78197e55fccdb5;
  0x0d45eabb46b5dd98; 0xb94c049d91f97834; 0x45fe867930f29f61; 0x768d4d16c12c1a97;
  0x43a1835214a4f958; 0x51ff9883e8c508f7; 0x854f26503aa0024d; 0x5ae577138a26b356;
  0x7c6c426badd6b0dc; 0xd0dab8e1ea014e94; 0x08d40c6470c8885c; 0x0591e6df367d55c4;
  0xb8b7e4709fe069de; 0x0f70e9a25a87ff8f; 0x7a3347408980d6e5; 0xff7c6110b320d4a8;
  0xda3bb79c86fbe4df; 0xdbc0577188e2f535; 0xf2398babf5950930; 0x999a34ce925f1d87;
  0xa9271c5571aaab8c; 0x546e7e5cdeb85d33; 0x95243e98daf3d1f5; 0x686d5c9175e1274a;
  0x1cd5129ea8ff1fca; 0x6a585f8869d3055d; 0x0e8b094f549eee65; 0x937b3bb3fea5b7cc;
  0xa8dcfcb87fb3ba66; 0xcfc1498b50d562a3; 0xc284a3301660bf3b; 0xcbab4fb968b1268d;
  0x8e55c9c05843b9ec; 0x3373cb6ff1de85f6; 0x15fafe17d62e867c; 0x89f12c06720cce3f;
  0xd121580ce4185f7e; 0x1a8a17b58ca979f3; 0x9861d4239c460c6d; 0xce3aa9665ecc7349;
  0x1b71f75882b06819; 0xe3a9738e1bdfcb62; 0x9df032fcaa3b59a9; 0x8c60cad944719bfb;
  0x6e3259ba51b74173; 0x66e655de217fc92f; 0x58d0740a96149141; 0x9a54d73a80742e7a;
  0x47cb85602cc0bd76; 0x18bf14ac909b5be4; 0xad4d1a6749ceefa2; 0x1ee01187b4cd3ddd;
  0xdc64b2b7a2ad82e6; 0xa462f6ee371f7614; 0x34d72ea9db91f225; 0xfd496209af12f6bf;
  0x9fc531e5b6097bbe; 0x8fae292d565aa806; 0xed227ac14f412507; 0xf1f7685fe7be3acd;
  0xe5f676a53f89ad5b; 0x1f1bf16abad42c37; 0x82ebc39610ef759e; 0xf00c88b2e9a72b27;
  0xe63895512da29ea6; 0xc37f43dd1879aed1; 0xef1779d853730710; 0x1d2ef273a6e60e20;
  0xc0b1a0290a529d2c; 0xf6538d99cdf14d1e; 0x4b758f36646c7104; 0xeeec99355d6a16fa;
  0xe9487cf377256129; 0xe252936315c6da88; 0x16341de3c405b581; 0x53ca9b9af4f72ae0;
  0xdd9f525aacb4930c; 0x0000000000000000; 0x01fbe0ed0e1911ea; 0x8bc42f1f6e3eec28;
  0xf3c26b46fb8c18da; 0xde51b1aebe9fa0f1; 0x57a09da8cc936ece; 0x9e3ed108b8106a54;
  0x386924ff933d3e57; 0xbee8e15bbbb60fe7; 0x8a3fcff26027fdc2; 0x4f1f89045c08352a;
  0xa23df3c51349102d; 0x6142b0180b30befc; 0x9c0bd211a4224843; 0x2689357827f0038a;
  0x60b950f50529af16; 0x7806445995b2f4f2; 0xd9f5546894d0d722; 0x3c0322cdab597a79;
  0xfb1667228b449086; 0xc71545ef201deaff; 0xfe8781fdbd39c542; 0x36e22db0c7a3d032;
  0xa008f0dc0f7b323a; 0x5004786ee6dc191d; 0xf59d6e6ddfda7ee3; 0xaae9ffa163819871;
  0xd3145b15f82a7d69; 0x4194804b0896db4f; 0x7fa2a19fbffd8321; 0xa5991603390667fe;
  0xb063e814ef28e182; 0x48bb6cc2764742f9; 0x20d6305303a665b3; 0xf4668e80d1c36f09;
  0x0b1aef9062e3bba1; 0xd80eb4859ac9c6c8; 0xb7c70dd2c5679651; 0xb19808f9e131f068;
  0xd54b5e3edc7c1b50; 0x22e3334a1f9447a4; 0x4cd16af04e2306d7; 0x3fcdc139b9724984;
  0x7543aee2d307296a; 0x1944f4419e824a0e; 0x74b84e0fdd1e3880; 0x13a5fb3cf278e045;
  0xd77e5d27c04e3947; 0x84b4c6bd34b913a7; 0x7bc8a7ad8799c70f; 0x425a63bf1abde8b2;
  0x1190f825ee4ac252; 0xe067907a09f4f89f; 0x7129a8d0eb636d44; 0x3146c876edeca7e1;
  0x671db5332f66d8c5; 0xc865ac4d7a9a1570; 0x4d2a8a1d403a173d; 0xfcb282e4a10be755;
  0xb3ad0be0fd03d27f; 0x440566943eeb8e8b; 0xc52046f63c2fc8e8; 0x14011efad8379796;
  0x2bccdfc36145de12; 0x125e1bd1fc61f1af; 0xb63ced3fcb7e87bb; 0xbcdde242a7842df0;
  0x8d9b2a344a688a11; 0x90b5d847ec8e8431; 0x7776adfbcf350b7d; 0x94dfde75d4eac01f;
  0xe7c375bc23bb8f4c; 0x5b1e97fe843fa2bc; 0x64d356c73d4deb38; 0x0ae10f7d6cfaaa4b;
  0xab121f4c6d98899b; 0x03cee3f4122b33fd; 0x80dec08f0cdd5789; 0x8310237b1ef66474;
  0xa657f5f72b2d5403; 0x092fec897ed199b6; 0xacb6fa8a47d7fe48; 0x2c683a054b0aa9c1;
  0x7e594172b1e492cb; 0x2fa6d9f159219a3c; 0xb5f20ecbd955b446; 0x3ba7c70b81160daa;
  0xbd2602afa99d3c1a; 0x046a06323864442e; 0xeb7d7fea6b17433e; 0xbb7907848dcb5a23].

Definition precomputedLSTableLeft_13 : list Z := [
  0x791a2d6dc93b13e1; 0x9158cbc6fe1fb150; 0x9909d2bc887933c2; 0xb98eb69793227ecf;
  0x714b3417bf5d9173; 0xeac77154cbdc6374; 0xd7d979520f62abc6; 0x959126fbc52cf019;
  0x5505bd019f359d37; 0xdae2278b3c4be99e; 0xdb418d154237681d; 0xb51642d0de77bd14;
  0x3f9b9ff938460977; 0x54a6179fe1491cb4; 0x7dd3c050f20852a8; 0xd55ceeadf39a6a03;
  0xbd475baaa8113f86; 0xa92c84637feeb928; 0xfeacae9d1c23e5da; 0x3b5272c40375483e;
  0x1d996c2ddfe585bf; 0x36692c1d305c0a66; 0x38744fa581f10878; 0x07efd05cb9b7010f;
  0x1bd516ef182e0533; 0xfbc6e93e596c2510; 0x70e89e89c12110f0; 0x89abe04864b5f425;
  0x4a1946d3bc28d94d; 0xaec3543fc659b827; 0x3d1e0806c4bec8b2; 0x2975d7cf13414e1c;
  0x8a8ddd29e631b463; 0xcdafc52369302f76; 0x416e62c848ca1b99; 0xce89f842ebb46f30;
  0x16ee48362b07476b; 0x6cd2583a60b814cc; 0x1f1cfbd2231d447a; 0xe013ffd141422023;
  0xf5db8a86e8c1270e; 0xb07c05739b387dde; 0xde2bcab60778a8d7; 0x03263d6182844046;
  0xd036a90eb6d5aac9; 0x8e443014dd02f52a; 0x23a1594a99df0d4b; 0x0ad48e858a9e4357;
  0xf397f0442f0aa782; 0x064c7ac2c7cb808c; 0xdf88602879042954; 0x4df6968f059fd842;
  0x98aa7822f605b241; 0x9714b10439d431dc; 0xade5695e44ddf861; 0x15c87557a983072d;
  0xa25ba0788b0c7bfc; 0xaba9139c831678ed; 0xc0949bfa5a196d2e; 0xb6307fb15cf3fd52;
  0x5349c7c358fe1dbb; 0xed28a108726b627b; 0xc13731642465ecad; 0xe1b0554f3f3ea1a0;
  0x62cf3b82d11516d2; 0x244e891620680c44; 0xe9e14c3549582332; 0x6520ebde68a217dd;
  0xec8b0b960c17e3f8; 0x5d54a47be9531fa5; 0x26cb1ee9dc90cd81; 0xbe6166cb2a957fc0;
  0x2124ceb56527cc8e; 0x4bbaec4dc25458ce; 0x489cd12c40d01888; 0xca40157fd0872e79;
  0xf75e1d791439e6cb; 0x7c706ace8c74d32b; 0xff0f0403625f6459; 0x2087642b1b5b4d0d;
  0xd1950390c8a92b4a; 0x8533140f29e037fe; 0x583ee3d8ac1cdf6f; 0x493f7bb23eac990b;
  0xfa6543a02710a493; 0x87b683f0d518f63b; 0x2768b477a2ec4c02; 0xe842e6ab3724a2b1;
  0xf478201896bda68d; 0x5abb742750e41eaa; 0x6606d6bfea26579b; 0xf0b1cd25ad8ee7c4;
  0xcbe3bfe1aefbaffa; 0x0e1d63b8b1ad021e; 0xe296682ebdbae1e6; 0x57802afe63cd5cf2;
  0xc45d76c7612a2c67; 0x9b8c45437481f207; 0xee0e9c69f0ef223d; 0x1a76bc71665284b0;
  0x37ca86834e208be5; 0x2e9a0793aaf64f13; 0x69b81f9925f7d406; 0x8b2e77b7984d35e0;
  0xaf60fea1b82539a4; 0xc2110c05a6e1aceb; 0x7f5657af0ef0936d; 0x6483414016de965e;
  0x45a78ff573f95ad0; 0x146bdfc9d7ff86ae; 0xfd8a93fc9ea7a59c; 0xac46c3c03aa179e2;
  0x8615296eab6477b8; 0x76a4e44b06ea907c; 0x43ebf537b432da5c; 0x506ffaa2da7a5dfd;
  0x28d67d516d3dcf9f; 0xaa0ab902fd6af96e; 0x5e72991a6bd75fe3; 0xdd0df7d785fce891;
  0xbb0b21686fdabf0a; 0x96b71b9a47a8b05f; 0x056a47a3454fc0ca; 0x7b9fba9235c3d224;
  0xf6fdb7e76a456748; 0x2bf04030efb98fd9; 0x09f2b3e4081a0311; 0xc77b4ba6e3ae6c21;
  0x4681b294f17d1a96; 0x0d3b5ed933294258; 0x13840f956e4887a1; 0x61e906e353915694;
  0x01a3aa9e7e7c8183; 0xefad36f78e93a3be; 0x8d620d755f86b56c; 0xd310946f3451ea8f;
  0xbce4f134d66dbe05; 0xf11267bbd3f26647; 0x32a0c1200b6f4b2f; 0x5cf70ee5972f9e26;
  0x028597fffcf8c1c5; 0xb1dfafede544fc5d; 0x562380601db1dd71; 0x51cc503ca406dc7e;
  0xc966281e52036e3f; 0xd67ad3cc711e2a45; 0x4ed0abee871b9804; 0xc8c582802c7fefbc;
  0xa0de378777f4ba39; 0x3186fc4189eb0b69; 0x2202f3d4e7a38cc8; 0xa5b4702432bb7af3;
  0x174de2a8557bc6e8; 0x33036bbe7513caac; 0x94328c65bb50719a; 0xeb64dbcab5a0e2f7;
  0x8490be91579cb67d; 0x0851197a76668292; 0x25ed23885e148dc7; 0xf9437ec1a594e4d5;
  0x39d7e53bff8d89fb; 0x604aac7d2dedd717; 0xb2f9928c67c0bc1b; 0xd4ff44338de6eb80;
  0x6ff4655be23c548a; 0x0000000000000000; 0x6d71f2a41ec4954f; 0xa17d9d1909883bba;
  0x1227a50b10340622; 0xd867b074c0b3285b; 0xa3f80ae6f570fa7f; 0xa417daba4cc7fb70;
  0xcf2a52dc95c8eeb3; 0x9a2fefdd0afd7384; 0xcc0c6fbd174caef5; 0x52ea6d5d26829c38;
  0x1c3ac6b3a199043c; 0x2f39ad0dd48ace90; 0x7ef5fd31708c12ee; 0x93dd5c3902e77095;
  0x42485fa9ca4e5bdf; 0xb35a381219bc3d98; 0x18f32b8e9aaa4575; 0xb82d1c09ed5eff4c;
  0xfc293962e0db241f; 0x4404256b0d85db53; 0xe65f85138689a0af; 0x8cc1a7eb21fa34ef;
  0xc6d8e1389dd2eda2; 0x636c911caf699751; 0xbfc2cc5554e9fe43; 0xf2345ada51762601;
  0x2c1f906c560e8ed6; 0x1101986a92b04664; 0x73cea3e843a550b6; 0xdcae5d49fb806912;
  0xd9c41aeabecfa9d8; 0x927ef6a77c9bf116; 0x3e383567463a88f4; 0xd2b33ef14a2d6b0c;
  0x599d4946d2605eec; 0x7582d92a846ed03a; 0x19508110e4d6c4f6; 0xb4b5e84ea00b3c97;
  0x81faf93212d376b7; 0xe4da12ec7a71616a; 0xe579b872040de0e9; 0x0fbec926cfd1839d;
  0x4722180a8f019b15; 0x9c63951fcd36f308; 0x2a53eaae91c50e5a; 0xa88f2efd019238ab;
  0x5b18deb92e989f29; 0x8fe79a8aa37e74a9; 0x04c9ed3d3b334149; 0xa6924d45b03f3ab5;
  0x726d09763dd9d135; 0xbaa88bf611a63e89; 0x302556dff7978aea; 0x4c553c117be359c1;
  0x82dcc453905736f1; 0x6a9e22f8a7739440; 0x88084ad61ac975a6; 0x3cbda298bac24931;
  0x6e57cfc59c40d509; 0x0b77241bf4e2c2d4; 0x9ee602e031ce32cd; 0x681bb5075b8b5585;
  0x67a57c21945ad618; 0xc5fedc591f56ade4; 0x742173b4fa1251b9; 0x40cdc85636b69a1a;
  0x0c98f4474d55c3db; 0xe7fc2f8df8f5212c; 0x9dc03f81b34a728b; 0x90fb6158806330d3;
  0x7a3c100c4bbf53a7; 0x3af1d85a7d09c9bd; 0x354f117cb2d84a20; 0x34ecbbe2cca4cba3;
  0x9f45a87e4fb2b34e; 0xb793d52f228f7cd1; 0xf8e0d45fdbe86556; 0x4f730170f9671987;
  0x6b3d8866d90f15c3; 0x837f6ecdee2bb772; 0x5fd1338415abde60; 0xa731e7dbce43bb36;
  0x1ebf514c5d61c5f9; 0x10a232f4ecccc7e7; 0xc3b2a69bd89d2d68; 0x78b987f3b7479262;
  0x2dbc3af228720f55; 0x77074ed5789611ff; 0xe335c2b0c3c66065; 0x805953ac6caff734].

Definition precomputedLSTableLeft_14 : list Z := [
  0x0aaf456ef67356fb; 0xca5268e5245bd908; 0xf380f6752e6ac5cb; 0x174ecb7006aeb541;
  0x337ddbfefc424a38; 0x5f28ebaf31b588b3; 0xa3b19b839274301f; 0x373b27ad21a2d788;
  0x2adaa9b3d17f3432; 0xc98129490d13c07c; 0x670a4a5b9dbc225c; 0xd3f51aa80966a702;
  0x634cb608405cbfec; 0x8451caa141d0d612; 0xf7c60a26f38a587b; 0x3c645da771e9375f;
  0xea2784380357bbc1; 0x6529349312cc8d04; 0xd0265b04202ebe76; 0x9e25f94045a5b16c;
  0x18574d298b05c826; 0xf4154b8adac2410f; 0xaf7b5c763697540c; 0xcc37ea7e76cbebe0;
  0x7aebc4456d61c1e6; 0x83c4775eb57852d6; 0x9df6b8ec6ceda818; 0x81e709963a08fd8e;
  0xad5822beb9e7fb54; 0xa91edeed640766e4; 0xfc99702ca3c1b8ac; 0x7397c087b25a8e69;
  0xb0b9aca0493a18ee; 0x77d13cd46fba13d9; 0xa5d41918c0e402f7; 0x468f99e21c88f6b9;
  0x10db768ff2063185; 0x2b2a96d77747821e; 0x87828b0d6898cf66; 0xf92fb31bd8199330;
  0xd8aa60a2592d47d5; 0x801736f29c304ba2; 0x34e8660108eacefc; 0x315ea5367332e560;
  0x6f8671fde4bfdbff; 0x4dd0e3e84cc3166e; 0xd59098335bf695ea; 0xa60758b4e9ac1b83;
  0xba16e9cebf494e15; 0x62bc896ce66409c0; 0x9a63051398452cdc; 0x616fc8c0cf2c10b4;
  0x5d0b9567bec527eb; 0xa8eee189c23fd0c8; 0x98407bdb17358384; 0x2185d3b98134d4e5;
  0x6da50f356bcf74a7; 0xfafcf2b7f1518a44; 0x1de18e1ef0dde3ba; 0xe2abbf9e7a544262;
  0x486620df371b3df2; 0x931f01d1477e6353; 0xb36aed0c6072019a; 0x57a4d00948b67110;
  0x7044812b9b12971d; 0x19a7724d2d3d7e0a; 0x6e764e9942876dd3; 0xbc736b55edd97cfd;
  0x3d9462c3d7d18173; 0x13083723db4e28f1; 0x8672b469cea0794a; 0xdb79210e70655ea1;
  0x4a455e17b86b92aa; 0x03d341ac29481974; 0x328de49a5a7afc14; 0xbbe6d6aa1971f839;
  0x477fa686bab04095; 0x594d69346325ba5b; 0x7ead3816b0815c56; 0xe4ce3d0528c4708a;
  0xc10d12ef741039df; 0x455cd84e35c0efcd; 0x40ea1b794e18c451; 0x9c068788cad51e34;
  0x2d4f144c25d7b0f6; 0xda891e6ad65de88d; 0x28f9d77b5e0f9b6a; 0xc0fd2d8bd2288ff3;
  0x762103b0c982a5f5; 0xdf3fdd5dad85c311; 0x8d2dce639eeb999d; 0x8b484cf8cc7bab75;
  0x156db5b889de1a19; 0x5b6e17fcec551503; 0x66fa753f3b849470; 0xb50f6f9732e23372;
  0xe088c156f524ed3a; 0x6c553051cdf7c28b; 0xa241a4e7344c8633; 0xd460a757fdce23c6;
  0x5a9e28984a6da32f; 0xbfa02af9c4916589; 0x78c8ba8de2116ebe; 0x1e32cfb2d995face;
  0x0795bdfff4a884c4; 0x8234483a1340e4fa; 0x6813cc0210175f3b; 0x12f808477d769edd;
  0x58bd5650c51d0c77; 0x8f0eb0ab119b36c5; 0xe178fe32531c5b16; 0x36cb18c9879a61a4;
  0x74027d7846f20aad; 0xff4a31808a89a1d8; 0x3a01df3c237905b7; 0x793885e94429d892;
  0xdd1ca39522f56c49; 0x547791a561fe6864; 0x22569215a87ccd91; 0x05b6c3377bd82b9c;
  0x889b0d54e533b201; 0x0665829b529032e8; 0x53e22c5a9556eca0; 0x957a834a15ee51bb;
  0xe9f4c5942a1fa2b5; 0xec4206a351c78929; 0x9759fd829a9efee3; 0xd1d664608616085a;
  0x69e3f366b62fe917; 0x6a30b2ca9f67f063; 0x43395ad56750dd25; 0x411a241de820727d;
  0xae8b631290afe220; 0x0ccac7f5a4e36413; 0x7c8e46de3ff1f30e; 0x5ed8d4cb978d3e9f;
  0x44ace72a93f859e1; 0x25c32fea5cd44955; 0x097c04c2df3b4f8f; 0xbd8354314be1cad1;
  0x9fd5c624e39d0740; 0x2e9c55e00c9fa982; 0x1b840c85a24dd152; 0xd7b3e6fbd4863ab2;
  0x8ab8739c6a431d59; 0x0d3af89102dbd23f; 0x50316df6bc1ef5d4; 0x2433108efaecff79;
  0xf270c911885273e7; 0x3822a1f4ac09aaef; 0x7b1bfb21cb5977ca; 0xa192e54b1d049f47;
  0xbe50159d62a9d3a5; 0xa7f767d04f94adaf; 0x99b044bfb10d35a8; 0xf1a388bda11a6a93;
  0xebd7bb5ca56f0ded; 0x39d29e900a311cc3; 0xb72c115fbd929c2a; 0x1c11b17a56e55596;
  0x01f03f64a638b62c; 0xef91470f788f905d; 0x1fc2f0d67fad4ce2; 0x92ef3eb5e146d57f;
  0x1a7433e10475677e; 0x0000000000000000; 0x85a1f5c5e7e8603e; 0x5cfbaa0318fd91c7;
  0xedb239c7f7ff3f05; 0x5654ef6dee8ec73c; 0xc32e6c27fb609687; 0x0f1986598dab7d67;
  0xe804faf08c271499; 0xc2de53435d5820ab; 0xd95a5fc6ff15f1f9; 0xe6ed43cda7b4dfd2;
  0xb6dc2e3b1baa2a06; 0x112b49eb543e87a9; 0xc698af1080b8bd1b; 0x5587aec1c7c6de48;
  0x948abc2eb3d6e797; 0xb14993c4ef02aec2; 0x4bb561731e532486; 0xb9c5a86296015761;
  0x4ff39d20c3b3b936; 0xf636354255b2ee57; 0x9b933a773e7d9af0; 0xd20525ccaf5e112e;
  0x7f5d077216b9ea7a; 0xdecfe2390bbd753d; 0x75f2421ce0cabc81; 0x149d8adc2fe6ac35;
  0x2075ecdd270c62c9; 0xdcec9cf184cdda65; 0xaca81dda1fdf4d78; 0xab3da025eb77c9bc;
  0xf8df8c7f7e21251c; 0xfb0ccdd357693c68; 0xcdc7d51ad0f35dcc; 0xf053b7d90722dcbf;
  0xee61786bdeb72671; 0xce1494b6f9bb44b8; 0xe53e02618efcc6a6; 0x7d7e79ba99c94522;
  0xb83597063039e14d; 0x0446fc53dde09db0; 0xaacd9f414d4f7f90; 0xf5e574ee7cfaf723;
  0xc768907426800b37; 0xa062da2fbb3c296b; 0x42c965b1c1686b09; 0xcba2578182636f24;
  0x71b4be4f3d2a2131; 0xe35b80fadc6cf44e; 0xfd694f4805f90e80; 0x90cc407d6e367a27;
  0x02237ec88f70af58; 0x26106e46759c5021; 0x96a9c2e63ca648cf; 0xcfe4abd25f83f294;
  0x896b3230430b042d; 0x49961fbb91238bde; 0x2f6c6a84aaa71fae; 0x5212133e336e5a8c;
  0xb4ff50f394da855e; 0x088c3ba67903f9a3; 0x3fb71c0b58a12e2b; 0xd643d99f72be8c9e;
  0x23a6ad710e447bbd; 0x4e03a244658b0f1a; 0x609ff7a46914a698; 0x0b5f7a0a504be0d7;
  0xc4bbd1d80fc81243; 0x35185965aed278d0; 0x0ee9b93d2b93cb4b; 0x64d90bf7b4f43b28;
  0x3bf1e0588541b39b; 0x30ae9a52d50a534c; 0xc54beebca9f0a46f; 0x6bc08dae395f464f;
  0x913c7f19c80ecc0b; 0x4c20dc8ceafba042; 0xb29ad268c64ab7b6; 0xfeba0ee42cb117f4;
  0xe71d7ca9018c69fe; 0x27e05122d3a4e60d; 0x8cddf10738d32fb1; 0x3e47236ffe999807;
  0x2909e81ff8372d46; 0x7267ffe314623845; 0x2cbf2b2883ef06da; 0xa424267c66dcb4db;
  0x8efe8fcfb7a380e9; 0x51c152921a2643f8; 0xc871162dab2b7650; 0x16bef414a096036d].

Definition precomputedLSTableLeft_15 : list Z := [
  0xfbd50c7ac0809619; 0x08e08cb2171ace7b; 0xcbd0a250b2dc77c0; 0x41101a5e6342d669;
  0x38e5229865462fa2; 0xb3396a116f4ae73c; 0x1fb7c2067d564d08; 0x88f89bc3a47973c7;
  0x323d8de707bb33b7; 0x7c998e18379bf720; 0x5c9ffb956bf3490f; 0x023823cd75e7d26e;
  0xec8242ceaacc156a; 0x123bf86a5bd38d98; 0x7bcd1b0b73e32ba5; 0x5fbb28dfc586f256;
  0xc1080d2fd0216bd5; 0x04704659ea0d67dc; 0x764121675566eb35; 0x6c9a55bf19afa8d6;
  0x264e1019c3820b9d; 0x0fb419a1536212fe; 0x0c90caebfd17a9a7; 0xe012882557dbbccd;
  0xe65aedb1c831097f; 0xd65f439bba6de8a6; 0x18e35715392e918d; 0x8eb0fe573b93c675;
  0x547f77277ce98774; 0xe462ce7cbdd6db11; 0xac8ea817121caa34; 0x69f6e3612830a63d;
  0xeeba6103df2bc704; 0xd9eb5a3ae90ffa58; 0xf745c6913d973fbe; 0xb9e1c56e0db7fb29;
  0x8574a1af82fcb357; 0x1eab3281a6c4243f; 0x6642fac07b52b4c3; 0x3005ae2a725ce1d9;
  0xd57b90d1141853ff; 0xa22641319aecd1fd; 0xfc81996984f84a9c; 0x600a9f54e4b80171;
  0xffa54a232a8df1c5; 0x6ea276726c487ab8; 0xeaca275a3526a0d8; 0x833cc43b1d1606e5;
  0x156f6d791fab511d; 0xc014fda80bb302e2; 0xdc87ece4d890f4b3; 0xb46dff022b323bb9;
  0xebd6d7ddeeb4c9ef; 0xc8f4711a1ca9cc99; 0x84685128596eda60; 0xe57e3efb6644b226;
  0xa74af7efab73df16; 0x447cac8052ddd882; 0xbac51624a3c24070; 0x6232bc99915fd31f;
  0xf229704f0c083155; 0x532be23438915bf1; 0x9ac363a9ffaafe5f; 0x1003dba72e345ff6;
  0x1d8fe1cb08b19f66; 0x0ad8af7f62fd1c15; 0xd333f5458bf2e64d; 0xfd9d69ee5f6a23ab;
  0x732d97b964f9e5de; 0xf10da305a27d8a0c; 0x4ad445a6da2da34b; 0xa102927b34996aa4;
  0xaac6cd838df61f86; 0x747902aa2081395b; 0x14739dfec439382a; 0x39f9d21fbed44695;
  0x95777a08acc8eca1; 0x5bcb6e862f8b958a; 0x564754ea090e551a; 0x8ac0b80ed19ea1a9;
  0xdfa33fae76e54fea; 0xcd98c7c42d36c272; 0x5113c1f94d76899f; 0x3475e87398518605;
  0xf6593616e6055689; 0x8d942d1d95e67d2c; 0x6ad2302b86451d64; 0xf33580c8d79a5862;
  0xf57de55c4870edd0; 0x111f2b20f5a636c1; 0x9d97f6babbd222da; 0x7565f22dfb13506c;
  0x19ffa792e2bcf8ba; 0x0324d34aae75bb59; 0x700944f3ca8c5e87; 0x7231673ebf6b8ce9;
  0x3add015510a1fdcc; 0x8bdc48890a0cc89e; 0x33217d60dc295a80; 0xc65c983c9459b750;
  0x2fb26c2c0f0aacd1; 0x89e46b447feb1af0; 0xbeb5507d49cf27ac; 0xcebc148e8343792b;
  0xc464bbf1e1be653e; 0xfac9fcfd1b12ff2e; 0x3bc1f1d2cb3394fb; 0xdd9b1c6303029d84;
  0x775dd1e08ef48202; 0xc5784b763a2c0c09; 0x164bbe33b1deea44; 0xa46e24a50506644f;
  0xad925890c98ec303; 0xd8f7aabd329d936f; 0xb7492c48854780e0; 0x9223ef1be8b03024;
  0x49f096ec74581812; 0x647ad90d0eb566ad; 0x91073c5146c58b7d; 0x9c8b063d60404bed;
  0x011cf087db926937; 0xe8f2049740c172b6; 0xa01e62fcef0b0393; 0xbbd9e6a378502947;
  0xb5710f85f0a0528e; 0x29fa09b890e01963; 0xe3365b6ff9ae0794; 0x5ad79e01f419fcbd;
  0x17574eb46a4c8373; 0x632e4c1e4acdba28; 0x256ac3536df7b0c4; 0x7d857e9fec099e17;
  0x2006758d5c68be2f; 0x132708ed8041e4af; 0x0ea8e92688f07bc9; 0x9fafd577ce35f0b4;
  0xe10e78a28c49d5fa; 0x556387a0a77bee43; 0x8fac0ed0e001af42; 0xd10bd688fe153423;
  0x400cead9b8d0bf5e; 0x822034bcc6846fd2; 0x523712b3e30332c6; 0xb2259a96b4d88e0b;
  0x59f34d4b5a6c47e4; 0x3fb1b78b213ef327; 0xd4676056cf8a3ac8; 0x79f538c60604f9cb;
  0xe7461d3613a36048; 0xefa6918404b9ae33; 0xcacc52d7694e1ef7; 0x47587fcafca863db;
  0xa572d422de940d78; 0xafaa7b5dbc69116d; 0xa8feee4ef811cde8; 0x933f1f9c33225913;
  0xed9eb249715e7c5d; 0xc3302ee2a5c6b9bb; 0x2adedaf23e95a23a; 0x9653a94202bd57f8;
  0x2c96bf66a17f1788; 0x5d830b12b0612038; 0xe22aabe8223c6ea3; 0x7fbd5d5299ee4c79;
  0x7ea1add5427c254e; 0x0000000000000000; 0x3ead470cfaac9a10; 0xc74068bb4fcbde67;
  0x056cb6de319f0eeb; 0x3c9564c18f4b487e; 0x874c8262f71b6139; 0x675e0a47a0c0ddf4;
  0x99e7b0e351df4506; 0xabda3d04566476b1; 0xf9ed2fb7b5674477; 0xd22f05c250608f7a;
  0x064865949feab5b2; 0xa9e21ec92383a4df; 0x1bc7845f975b2ad4; 0x48ec666bafca7125;
  0x974f59c5d92f3ecf; 0xc22cde657e54d08c; 0x865072e52c89080e; 0x61166fd33f2a6846;
  0x364dcbbeedb6546b; 0x575ba46dd29c3c2d; 0xf011538279efe33b; 0x2eae9cabd498c5e6;
  0x7ad1eb8ca8714292; 0x3d89944654d92149; 0x8104e7f668f1d48b; 0x356918f443c3ef32;
  0xc9e8819dc73ba5ae; 0x6566298ad5270f9a; 0x78e9c841dd9690fc; 0xbc8d73b03c28f5c2;
  0x1c93114cd323f651; 0x68ea13e6f3a2cf0a; 0xcc843743f6a4ab45; 0xbfa9a0fa925d4e9b;
  0x7115b474111e37b0; 0xb8fd35e9d625921e; 0xa656076870e1b621; 0x223e5640298f6c41;
  0x4d80d0b59e557fce; 0xb01db95bc13f5c65; 0x901bccd69d57e24a; 0x2322a6c7f21d0576;
  0x37513b3936243d5c; 0x6bcec0ac5dd77453; 0x09fc7c35cc88a74c; 0x247633d4b665d9f3;
  0x31195eada9ce88ee; 0x4ea403ff3020c497; 0x80181771b363bdbc; 0x2752e09e181062aa;
  0x58efbdcc81fe2ed3; 0x211a850a87fad718; 0xcfa0e40958d1101c; 0x946b8a8f775a8596;
  0x2d8a4fe17aed7ebf; 0xdebfcf29ad7726dd; 0xaeb68bda67fb785a; 0x8c88dd9a4e74141b;
  0x5ea7d8581e149b61; 0xa33ab1b6417eb8ca; 0x2bc22a75e507cb0d; 0x9eb325f015a79983;
  0xbd918337e7ba9cf5; 0x1adb74d84cc943e3; 0x98fb40648a4d2c31; 0xd743b31c61ff8191;
  0x4328399316a50407; 0xd017260f25875d14; 0x4bc8b52101bfca7c; 0x28e6f93f4b727054;
  0x9bdf932e24389768; 0x4c9c203245c716f9; 0x6fbe86f5b7da138f; 0x4fb8f378ebb2ada0;
  0x0bc45ff8b96f7522; 0x4234c914cd376d30; 0xb655dccf5ed5e9d7; 0xf46115db93e284e7;
  0xfeb9baa4f11f98f2; 0x0d8c3a6c2685c090; 0xb10149dc1aad3552; 0x075495134478dc85;
  0x46448f4d273a0aec; 0x45605c07894fb1b5; 0xdacf8970477a4101; 0xdbd379f79ce82836;
  0xe9eef4109b531b81; 0xf8f1df306ef52d40; 0x500f317e96e4e0a8; 0x6d86a538c23dc1e1].

Definition precomputedLSTableLeft : list (list Z) := [
  precomputedLSTableLeft_0; precomputedLSTableLeft_1;
  precomputedLSTableLeft_2; precomputedLSTableLeft_3;
  precomputedLSTableLeft_4; precomputedLSTableLeft_5;
  precomputedLSTableLeft_6; precomputedLSTableLeft_7;
  precomputedLSTableLeft_8; precomputedLSTableLeft_9;
  precomputedLSTableLeft_10; precomputedLSTableLeft_11;
  precomputedLSTableLeft_12; precomputedLSTableLeft_13;
  precomputedLSTableLeft_14; precomputedLSTableLeft_15].

Definition precomputedLSTableRight_0 : list Z := [
  0x191187931bc9aeb5; 0x7b32fcabf8fef20a; 0xc0bdcaef4e88c789; 0x69c4123cd39313c0;
  0xa29eb1d7adbf9b36; 0x3c7097292fcbc0ef; 0x083578fd960ffe68; 0xc794e789a3c509aa;
  0xb74172266b9fb4df; 0x20d423721d3c7e63; 0x0f1c559b7b42304b; 0x6eed3f5a3ededde3;
  0x6a1603c57538a2d7; 0x988904cf0de1faf7; 0xa5b79cb140f25515; 0x566694ec5af36238;
  0xd562091e88a8e860; 0xdc197eb47c7f7905; 0x350be083db1c518a; 0xd6b018e72e035977;
  0x9d3c370724dfeace; 0xfe514368a530d97c; 0xa72b821f84818b0f; 0xcd3d81daf1b929d8;
  0x7fc9c034b3188d3e; 0xa6658d48e659e402; 0x8d56c73ecbc1d51e; 0x7560a667e164ad4c;
  0x742ea93083bcc241; 0x1124ff6e8dc650dd; 0x3445efd4b9c43e87; 0x3d3e987e4d13afe2;
  0x04fb3c9f4be67f34; 0x5834ce2043693d7e; 0xbe3a058c9f4825ba; 0x29af54d8e9ebef06;
  0x57289bbb382b0d35; 0x3fa286d0896071f8; 0xc36fdb16e823769e; 0xd9ac4d7c5541693c;
  0xff1f4c3fc7e8b671; 0xfd835291039b686b; 0x9c723850460785c3; 0x719b9af8aa82d278;
  0xc508f92767b6d7b0; 0xb85d27bd10dd8494; 0xd8e2422b37990631; 0xe5dcda557a8aa9d3;
  0x1deabb0c502fd181; 0xe2f5f73397c767f0; 0xb3ba4eb92079cbeb; 0xb91328ea7205eb99;
  0xef75bc0628f689a1; 0x99c70b986f3995fa; 0x60bf6596274482a5; 0x26b3014392a9df4d;
  0x160dd208608b9efe; 0x824a92a5b083e555; 0x70d595afc85abd75; 0x1f76a5a2945c0f9b;
  0x55b48515fc58d32f; 0xf14d16f3de72e937; 0x5f1de346ae24f35d; 0xf6643b95333f2714;
  0x66d847a7a8d1238b; 0x15dfc3f1c6202fe9; 0x4deb0dd185491297; 0xabe5c67d59680a53;
  0xde85601ab80ca71f; 0x0cce4462dde9815c; 0x4b8c2fe00adcb3b9; 0xa4f993e6222a3a18;
  0x86b1ae3afb659a61; 0x5be6dfd9e5c28c69; 0x2a7d45214f405e11; 0x95094ffab2d014a6;
  0xa14ca02e0b142a21; 0x8a7fea58268c1b3d; 0x1ac3966abd621fa2; 0xa979d8d39d1bd449;
  0xeac08fce01c89998; 0x72498b010c29636f; 0x9fa029a9e0ac34d4; 0x05b533c8293e1039;
  0x89adfba18027aa2a; 0x2c1a6710c0d5ff3f; 0x644459096ca2fd91; 0x62237b38e3375cbf;
  0xd0d73ad6a196f859; 0xc1f3c5b82c50a884; 0xda7e5c85f3ead82b; 0x6c7121f4faad03f9;
  0xbac13913d4ae5a8e; 0x597ac17721b15273; 0x87ffa16d99bdf56c; 0xe9129e37a763288f;
  0xcc738e8d936146d5; 0x9eee26fe82745bd9; 0x80d68c0b74f03b4f; 0x5001b6ddd566c316;
  0xd1993581c34e9754; 0xf00319a4bcaa863a; 0xaccceb1bb425c470; 0x2b334a762d98311c;
  0x3eec8987ebb81ef5; 0x2e8679be04a62125; 0xfbe470a08c0ec945; 0x842db0943f16447b;
  0x029c1eaec473de1a; 0x097b77aaf4d79165; 0x44907a7b719e83f2; 0x4f77137f413acc8d;
  0x03d211f9a6abb117; 0x6fa3300d5c06b2ee; 0xe069e99d53b4b9ea; 0x242f1fed56da0157;
  0x12f6ee972b6de1ca; 0xad82e44cd6fdab7d; 0x7d55de9a776b5324; 0xede9a2a8ec8557bb;
  0x3797fe2d1f6f8f90; 0xb60f7d710947dbd2; 0x936e6dcb3d45b588; 0x47426b82d73532e5;
  0x8e84d6c76d6a6409; 0x636d746f81ef33b2; 0x944740add0087bab; 0xbde8147539e394ad;
  0x730784566ef10c62; 0x28e15b8f8b33800b; 0xc446f670056eb8bd; 0x1743dd5f0253f1f3;
  0x2fc876e9667e4e28; 0xaf1efae2128e7567; 0xc9c6bd45ba5f56ec; 0xb49363dfcd3405c8;
  0xfaaa7ff7eed6a648; 0x43b9571d9cd34dd1; 0x42f7584afe0b22dc; 0x2306328bbb97cf74;
  0x5e53ec11ccfc9c50; 0xd24b247865e52643; 0xc6dae8dec11d66a7; 0x0be7690430a44f7f;
  0xe492d5021852c6de; 0x27fd0e14f071b040; 0xc888b212d88739e1; 0xcb5aa3eb7e2c88f6;
  0x485e3e19ac7702ae; 0x336cc2b25489f0a4; 0xf72a34c251e74819; 0xdb3053d29132b726;
  0x78e0ed525e55431d; 0x6d3f2ea398756cf4; 0xe85c9160c5bb4782; 0x13b8e1c049b58ec7;
  0x5d81fde86a572d47; 0xbb8f3644b6763583; 0x3a17b518a05e61c1; 0xf83661592aa57852;
  0x88e3f4f6e2ffc527; 0x388babb6642dbfdb; 0xa3d0be80cf67f43b; 0x79aee2053c8d2c10;
  0x4e391c2823e2a380; 0x0000000000000000; 0x106af039ef1e3fd0; 0x679648f0ca094c86;
  0xeb8e80996310f695; 0x7e87cf63d1c0e233; 0x39c5a4e106f5d0d6; 0xf4f8253bf74cf90e;
  0x066722318f95a12e; 0xb1265017e40a15f1; 0x77fcb8c925177356; 0x7a7cf3fc9a269d07;
  0xb2f441ee42a1a4e6; 0xdfcb6f4ddad4c812; 0xd42c0649ea70876d; 0x256110ba34026e5a;
  0xcfa19f7435caf7c2; 0x8c18c869a919ba13; 0x0e525acc199a5f46; 0x460c64d5b5ed5de8;
  0x6b580c9217e0cdda; 0x2d546847a20d9032; 0x3b59ba4fc2860ecc; 0xe60ecbacdc2118c4;
  0x9220629c5f9dda85; 0x4910314eceaf6da3; 0x8b31e50f44547430; 0x3222cde536519fa9;
  0xae50f5b570561a6a; 0x9a151a61c99224ed; 0xfccd5dc661430766; 0xc221d4418afb1993;
  0x514fb98ab7beac1b; 0x0aa96653527c2072; 0x45de752c1346ecff; 0x9b5b1536ab4a4be0;
  0xb0685f4086d27afc; 0x1e38aaf5f6846096; 0x219a2c257fe4116e; 0x412549b358a093cb;
  0xceef9023571298cf; 0x650a565e0e7a929c; 0x4ac220b76804dcb4; 0x76b2b79e47cf1c5b;
  0x5ccff2bf088f424a; 0x53d3a72473cd7201; 0x4ca50286e7917d9a; 0xf3d1085d1a01372d;
  0xee3bb3514a2ee6ac; 0x9795515476a3cabc; 0xbca61b225b3bfba0; 0xaaabc92a3bb0655e;
  0xd3052b2f073d494e; 0x185f88c47911c1b8; 0x1ca4b45b32f7be8c; 0x96db5e03147ba5b1;
  0xbf740adbfd904ab7; 0xdd5771e31ea71608; 0x5aa8d08e871ae364; 0x1b8d993ddfba70af;
  0x61f16ac1459ceda8; 0xca14acbc1cf4e7fb; 0x0d804b35bf31ee51; 0x83049df2d25b8a58;
  0xf5b62a6c95949603; 0xe3bbf864f51f08fd; 0x31f0dc1c90fa2ebe; 0x91f27365f9366b92;
  0x07292d66ed4dce23; 0x1491cca6a4f840e4; 0x7c1bd1cd15b33c29; 0x54fa8a429e80bc22;
  0x688a1d6bb14b7ccd; 0xf9786e0e487d175f; 0x8fcad9900fb20b04; 0xa002af7969cc452c;
  0x22483ddcd94fa079; 0x30bed34bf22241b3; 0xd7fe17b04cdb367a; 0xe740c4fbbef977c9;
  0xf29f070a78d95820; 0x90bc7c329bee049f; 0x529da87311151d0c; 0x8563bfc35dce2b76;
  0xeca7adff8e5d38b6; 0xb5dd6c88afec6ac5; 0x014e0f5762d86f0d; 0x36d9f17a7db7e09d;
  0x8198835c16285442; 0x406b46e43a78fcc6; 0xa837d784ffc3bb44; 0xe127e6ca316cd6e7].

Definition precomputedLSTableRight_1 : list Z := [
  0x7cd99e4992d35036; 0xf46c87e40ba69f33; 0x01720a54a881949c; 0x530a7bd1611db865;
  0x89c713f931f45b99; 0x2453ab81c10cbd5e; 0x67757059b2d651ef; 0x6f6320bcbb547b85;
  0x40b0c524489a93d6; 0x5f1703a78dde873a; 0x09645ab1a103bef6; 0x3d1b513972c8577c;
  0xefc069f42ba39eea; 0x16c39c326447aa1a; 0xe7d639112221b480; 0xcb93c275eaaf23b4;
  0xc805dc89d1ef5cd3; 0x7a36a272e453aef8; 0x9660d57af4b04f75; 0x74cfceac9b517a5c;
  0x115eaa5dba46c048; 0x4cadbd52a459ac89; 0x8e5a2596eff531cb; 0x619a4c62c456af21;
  0x26b7bf2952cd56a5; 0x5b1c2b34689f920f; 0xdfb44aef1d296255; 0x284ed3f72dcf8201;
  0xfd08dd55aaa521c5; 0x1bacee10200501d9; 0x4326dbd873daecb1; 0xf115a52346661e9a;
  0xd2db38cd596bc996; 0x17b19666ccc63e86; 0xf283bbdf7d2661fd; 0xed247d5cb8627511;
  0x1ed5ccd76dc58070; 0x9899b9a48bb29bd1; 0xbdb81871e23fb213; 0x7dab941d3a52c4aa;
  0x99ebb3f023330f4d; 0xf067af77eee78a06; 0xc418a4ff3d2c638c; 0xfa95eb3a74a44b97;
  0x06ef3c3b7680fece; 0x49d49f95e9992d20; 0xa8ed9abfbd38676e; 0x59f83f9cfb5e79f4;
  0xae02a684cbb899a0; 0x37e91574e88b96ed; 0x926bfde911f15a40; 0x9c9291376ef38ee4;
  0x57015342845cad50; 0xc3859290e32d09de; 0xe139052a54a14a4e; 0xe44027ed1961cbe7;
  0x75bdc4f833d0eec0; 0xd6d0105ebc2adca3; 0x2fd3e598f3cee853; 0xc78eba03066c1ceb;
  0x7759d050a011053b; 0x45c9e7e3055a127f; 0x79a0bc8edf13d19f; 0x2bd8cd0b168ffd66;
  0x5a6e2160c01e0693; 0xc977d6dd796ec84f; 0xdec640bbb5a8f6c9; 0x3bf46d020448a9b2;
  0x13babef529872bb3; 0xb5ae4894ebbd9879; 0x659164f12117ba14; 0x329037b3a54b1744;
  0x040b2893e5411535; 0xab7b844386781809; 0x51ee6f79f2dc539e; 0x762bda04089091a7;
  0x350d01dc7b4a7d16; 0xb1a560070efc8d4c; 0xc0138c6cd86d76b9; 0x52787185c99c2cf9;
  0x509c652d5a5dc702; 0x465ff91f3e1a6d18; 0x78d2b6da77924503; 0x079d366fde016a52;
  0x0d6f72224442abc3; 0xeab94b3366631f43; 0x33e23de70dca83d8; 0x88b519ad9975cf05;
  0xcf98eae60fee3681; 0xd43404f62feb3758; 0xc161863870ece225; 0x54974dbebf1cd237;
  0x20588312244da86b; 0xc2f798c44bac9d42; 0xd14d2631622bb6f1; 0xec56770810e3e18d;
  0xb4dc42c0433c0ce5; 0xad94b878f0f8e6c7; 0xbf5c0cd971fe59e8; 0x70c4e63f7e106f69;
  0x1adee44488849545; 0x908fe9418230b1bb; 0x55e547ea179d46ab; 0x84a861db75b6f05a;
  0x4ddfb7060cd83815; 0x833557b4abb79a08; 0x4b308b3d7a58c6db; 0x6d8734142895907e;
  0x698c1c87cdd4854b; 0xb2337efb35bcf22b; 0x6cf53e40801404e2; 0xb74a5c3c787c7382;
  0xbcca12254abe268f; 0xe85d5f9bf5a2f4b8; 0x5e6509f3255f13a6; 0x8dcc3b6ad4b54eac;
  0xa766fc356abb2756; 0x80a3494890f7e56f; 0x4f3ba3ae9f19d3ee; 0x3e8d4fc54988281b;
  0xffecc9fd3964ca3e; 0x95f6cb86cff03012; 0xcd7cfe4e9c2fdd7a; 0xd03f2c65caaa226d;
  0x637e58ca579744da; 0x5df3170f1e1f6cc1; 0xa36dd4a68ffa3263; 0x4e49a9fa37984772;
  0x9319f7bdb970cedc; 0x386273fe3f08d6d5; 0xd3a93299f1ea5d0a; 0xa0fbca5ab4ba4d04;
  0x567359162cdd39cc; 0xe92f55cf5d236024; 0xb34174af9d3d66b7; 0xfc7ad7010224b559;
  0x9e76859ffd32651f; 0x02e414a893c1ebfb; 0xd7a21a0a14ab483f; 0xe3dd1182c760a1b5;
  0xace6b22c5879725b; 0xa614f661c23ab3ca; 0xba252e1e3c3ed841; 0xdbbf627cf8687760;
  0x8cbe313e7c34da30; 0x3106294f9e0b6823; 0x66077a0d1a57c573; 0xdacd682850e9e3fc;
  0xd95b76d46ba99c9b; 0x2d37f130600f03a8; 0xfe9ec3a991e55ea2; 0x1427889af78641e1;
  0x48a695c14118b9bc; 0x81d1431c387671f3; 0x391079aa97894249; 0x7220f297edd18492;
  0x102ca00912c754d4; 0xf51e8db0a3270baf; 0x9f048fcb55b3f183; 0xf7fa991830e6e054;
  0xd8297c80c3280807; 0xf688934c986774c8; 0x5c811d5bb69ef85d; 0x9de09b63c6721a78;
  0x620c529eff16d046; 0x0000000000000000; 0xceeae0b2a76fa21d; 0x8f282fc24774a557;
  0x85da6b8fdd3764c6; 0xf3f1b18bd5a7f561; 0x23ce9dee1f0dd70c; 0x4254d18cdb5b782d;
  0xbb57244a94bf4cdd; 0xfbe7e16edc25df0b; 0x41c2cf70e01b074a; 0x212a89468ccc3cf7;
  0x472df34b969bf984; 0xc6fcb057aeed8877; 0x1d43d22b5685ff17; 0x588a35c853dfed68;
  0x081650e509822a6a; 0x0af2444d9a43c191; 0xdc22541326691d32; 0x057922c74dc081a9;
  0x3a866756acc93d2e; 0x3fff4591e109bc87; 0x4a428169d2d95247; 0xe5322db9b1e05f7b;
  0x183af0ec1b457ebe; 0x0c1d7876ecc33f5f; 0x64e36ea589962e88; 0xf871ff92e765a06c;
  0x3c695b6dda49c3e0; 0x7f4f80b5a9932f51; 0x2521a1d5698d29c2; 0x68fe16d3655511d7;
  0xa582e89df97accad; 0x0ef96cde7f02d4a4; 0xb9b330e2077ea726; 0xaa098e172ef98c95;
  0x2ea1efcc5b4f7ccf; 0x12c8b4a18106bf2f; 0x8a510d050ab424fe; 0x6b68082f5e156eb0;
  0xdd505e478ee889ae; 0xe6a433458aa0201c; 0xb0d76a53a67d19d0; 0x9484c1d26771a48e;
  0xc56aaeab95adf710; 0xcc0ef41a34ae49e6; 0x0b804e1932c2550d; 0x2c45fb64c88e9734;
  0x82475de003360e94; 0x1fa7c683c54414ec; 0x9b0fa758b0f2e4b6; 0xeeb263a083220a76;
  0x7352f8c34550100e; 0xa99f90eb15b9f3f2; 0x7b44a8264cd23a64; 0xcae1c821422eb728;
  0x27c5b57dfa4cc239; 0xaf70acd063390d3c; 0x7e3d8ae10112bbcd; 0x155582ce5f07d57d;
  0x347f0b88d3cbe98a; 0x0f8b668ad7834038; 0x60e846366cd73bbd; 0x03961efc3b407f67;
  0x9712df2e5c31dbe9; 0xe2af1bd66fe13529; 0x44bbedb7addb86e3; 0xa4f0e2c951fb5831;
  0x6e112ae813d5ef19; 0x1c31d87ffe046b8b; 0x9a7dad0c1873702a; 0xa21fdef2277ba6ff;
  0x864c7573e6771ba1; 0x22bc97bab78c4390; 0xb6385668d0fde71e; 0xe04b0f7efc20ded2;
  0x369b1f20400a0271; 0x91fde3152ab12527; 0xa189c00e1c3bd998; 0x3074231b368afcbf;
  0xf903f5c64fe434f0; 0x71b6ec6bd691fbf5; 0x1948fab8b3c4ea22; 0xb8c13ab6afff33ba;
  0xebcb4167cee28bdf; 0x293cd9a3854e169d; 0xd5460ea2876aa3c4; 0x2aaac75fbe0e69fa;
  0x6a1a027bf694fa2c; 0xbe2e068dd97fcd74; 0x873e7f274ef68f3d; 0x8b230751a235b062].

Definition precomputedLSTableRight_2 : list Z := [
  0x691954d6afcb3752; 0x037b5ac3527d931c; 0x63c04b198006db1a; 0x20690ff74e293802;
  0x09a2450c7db07f54; 0x723c9bc228d8b6ae; 0xad08ae66b191a0cf; 0x33c7b3ae3ba1b71f;
  0x7ab7e88fda43b84f; 0xf120fd5b8101c5ba; 0xfd0f56d10a36ccca; 0x706ef740f58e5407;
  0xc76aa0734c270481; 0x769843055174b13f; 0x59a5bdbbc6171351; 0xb5563bb164ffb22f;
  0x10d5e69a27f51c01; 0xe0dc2d8029dfa80e; 0x823550d826f202a1; 0xf7d6491e25fb2082;
  0x9c9d714a5766f579; 0xabfe1a23156b45f7; 0xe3a777437ba23b12; 0x24cdd73037853f93;
  0xb47f0df0ebd4c39a; 0xbea6123fc4192fd2; 0x058dee86f6877624; 0xa375696ee7f04b16;
  0xfe740c12584b5fd6; 0xc411fab01e5a979d; 0xdf3435a499491661; 0x2f3dfebe9763a26e;
  0xb7045733b9a95086; 0x1558081cd1726a25; 0x8abe2395d4690c40; 0x012936418f2b71b5;
  0xe8575ecddb44a6ef; 0x953f34462ad68a2d; 0x84c3e49d8208e799; 0x0ad91fcf2fcdec48;
  0xf6ff7f5faad05137; 0x4cfdb5a717657974; 0xc19c1436e8dde1b9; 0x14713e5d5e591b90;
  0x89c5795686149f5c; 0x87b8be5ed0757485; 0x57d87ab39076f888; 0x78e5840d07155ae6;
  0xde1d03e5166267d4; 0x28e27cbabcb236e3; 0xcdb3bfbc63eae8c9; 0xdab9db226fce6045;
  0x6fefe0930b31d26a; 0x2b992679eecfa5ff; 0xd060c4ed40038c0d; 0xfc266090851dbd7f;
  0x94160207a5fdfb98; 0xf882b857fcb1baee; 0x49705b21e1e20f50; 0x641fc91dabd74f97;
  0x5255943566f18eac; 0x56f14cf21f5d893d; 0x455ff0ab6ad50620; 0x06f6b445a4fae538;
  0xdd665926441ff4c8; 0x7315ad83a7f3c71b; 0x664da59f7681ad3e; 0xf9ab8e16739acb5b;
  0x5adee778946a804d; 0x1a0cf9550838f049; 0x6b4b3854729dd5fb; 0x04a4d8c779ac0791;
  0x4f86ef644518ea68; 0xf25ba798d37c56a6; 0xe62a99c58d254d36; 0x3195df2ce6f755b6;
  0xeea1ea887fbe43d7; 0x558a16314d201a21; 0x8e1afb52adc50bd1; 0x43a944eece2fe318;
  0x85ead2dc0d23962c; 0xf37291d95c572713; 0x269fbbb2ead3dd3a; 0xea05324f06124446;
  0xb289b9b54f2e26a2; 0xeb2c040e893935f3; 0x676493def9aadc8b; 0x6a620e15fdb6a44e;
  0xfad0d4d521e75847; 0x3ec12e653fbdcfda; 0xeddab04b2dc3d0cb; 0xca6c3db8483b7c44;
  0x3dba74a66dc05cc6; 0x48596d606ec97ee5; 0x12878a18faa3fea8; 0x62e97d580f2daaaf;
  0x79ccb24c883e2b53; 0x7b9edece5568c9fa; 0x428072af410492ad; 0xb850a67a60e3caea;
  0xa7d1b1a99e5c4c87; 0x0bf0298ea0e69dfd; 0xa9ac76a1c83da75e; 0xbb2bfcb9329e59f6;
  0xc83e513a956d9eed; 0x512ecef6348c1db0; 0x41fb286c137901b1; 0xf584259cf8adc22b;
  0xba02caf8bdb52843; 0xf009cb1a0e2ab40f; 0x96446e8578ab1931; 0xdc4f6f67cb34857d;
  0xe703af84020e3c83; 0x2d6f923c4a3540c7; 0x92e0b64201071ea0; 0x4624aa6838a8953c;
  0x231255341c54ab1e; 0xf4ad13dd7786b39e; 0x0e7dc7085661ebd9; 0xd5ed2a6bb684fa29;
  0x38379a209b472ae2; 0x27b68df365f8ac8f; 0x3c9342e7e2eb2d73; 0x7147c1017aa525b2;
  0xe28e4102f4894aa7; 0x37636b69420db08e; 0x6c94ba50594c4176; 0x6dbd8c11d66730c3;
  0xae73f4a5e3ec33d3; 0x5c28533d30906575; 0xd4c41c2a39af8b9c; 0xc917677b1a46ef58;
  0x0c2fab8a8b370970; 0x4eafd925ca339bdd; 0x93c980038e2c6f15; 0x9db4470bd84d84cc;
  0x1cfa4d10acc21571; 0xc6439632c30c7534; 0x9b42f34e7cb761f4; 0x162352df830ff939;
  0x185e95d7d56e12e0; 0x40d21e2d9c527004; 0x6ec6d6d2841aa3df; 0x4a0b01e2b39f9c4c;
  0x25e4e171b8ae4e26; 0xa12705ec3aa6a9bf; 0xcec8e57f31977bd5; 0x29cb4afb33994756;
  0x8c4897d07093e978; 0x8f33cd1322ee7a64; 0x5bf7d1391b41f1f8; 0xb0dbd5379278c40b;
  0xe478f5475073af9f; 0x976d58c4f7806884; 0x3fe81824b096be6f; 0x7e133048a3efbfde;
  0xff5d3a53d7602e63; 0x60bb11dad27b4806; 0x7f3a06092cc4ce6b; 0xa6f887e811773d32;
  0xef88dcc9f0953262; 0xc538ccf19171e628; 0x54a32070c20b6b94; 0xb979903befc8bb5f;
  0x814e0a1b748f91bd; 0x0000000000000000; 0x99109fcca1e1835d; 0x80673c5afba4e008;
  0xd8ebb7a0b29882ec; 0xe97e688c546fd75a; 0x9839a98d2ecaf2e8; 0xbcf47ebd194fcd7b;
  0x0d069dcb041c78c5; 0x77b17544de5fc08a; 0x1977a3965a456355; 0x5e7a3fbfedc687dc;
  0x90b2dac0dc51fc09; 0x07df82042bd1948d; 0x4dd483e6984e08c1; 0x1b25cf14871381fc;
  0x9ecf1dc88a3017d0; 0x588c8bfa493c62e4; 0xa00e33adb58dd80a; 0x2c46a47dc51e3172;
  0x9a6bc50ff39c1041; 0xb62d617236822133; 0x223b6375937fdaab; 0x9fe62b89051b6665;
  0x6192279b5d5039b3; 0xd149f2accf28fdb8; 0x088b734df29b0ee1; 0xd232a86f9d556ea4;
  0x13aebc5975888f1d; 0xcc9a89fdecc1997c; 0x11fcd0dba8de6db4; 0xd9c281e13db3f359;
  0xe551c306df58de2a; 0x170a649e0c24888c; 0xcb450bf9c7100df1; 0x919bec81537a8dbc;
  0x2ab0103861e4d44a; 0x391eac61146c5b57; 0xac2198273ebad17a; 0x7c415cca7eb95d77;
  0xc3ce78b4358b0310; 0x3a65f6a24611c84b; 0x364a5d28cd26c13b; 0x4476c6eae5fe7795;
  0xa25c5f2f68db3aa3; 0x5f5309fe62edf669; 0x3b4cc0e3c93ab9fe; 0xecf3860aa2e8a17e;
  0x32ee85efb48ac6aa; 0x8b9715d45b427df5; 0x30bce96d69dc2403; 0xa4aaeb6acc21df9b;
  0x1dd37b5123e964c4; 0x341831aa10702392; 0x831c6699a9d97314; 0xd69670a8e4f96935;
  0xd7bf46e96bd21880; 0xbddd48fc9664bcce; 0xaf5ac2e46cc74266; 0xd31b9e2e127e1f11;
  0x8d61a191ffb898cd; 0x74ca2f878c225396; 0x470d9c29b783e489; 0xa583dd2b430aae2e;
  0xe1f51bc1a6f4d9bb; 0x75e319c603092223; 0x353107eb9f5b5227; 0x8691881f5f5e0530;
  0x5007f8b7bba76c05; 0x2e14c8ff1848d3db; 0x537ca274e9daff19; 0x0f54f149d94a9a6c;
  0x7d686a8bf1922cc2; 0xfbf9e294aecc29f2; 0xbf8f247e4b325e67; 0xb3a08ff4c0055717;
  0x4b2237a33cb4edf9; 0x6830629720e046e7; 0xaad72c629a403442; 0xc2e74ef5baa072a5;
  0xb1f2e3761d53b5be; 0xdb90ed63e0e511f0; 0x02526c82dd56e2a9; 0xa88540e04716d6eb;
  0x88ec4f17093feee9; 0xc0b5227767f6900c; 0x5d01657cbfbb14c0; 0x6536ff5c24fc3e22;
  0x1f8117d3febf866d; 0x214039b6c10249b7; 0x1ea821927194f7d8; 0xcfe1d33ebebc0a60].

Definition precomputedLSTableRight_3 : list Z := [
  0x6d6bb62dbf638e1b; 0xc68029cbc0c915f8; 0xbced40d27a90f04e; 0x979a27b6d737e2d3;
  0x1706df34053a6bad; 0x54611471b02d332f; 0x5233b979cb0e0a96; 0xfb57fc269d0486a3;
  0x01a66dbdf550ea6b; 0x8bcca127aa38281d; 0x1589058d2c9a7c7b; 0xd0209b4230a3943e;
  0xf9d8269fb4a49175; 0x9fe3c91773f2be0d; 0x50bc63c0e2ae1d40; 0xadb932ee0489a25a;
  0xaa4df25b8afa7188; 0x6340f5846085eb7c; 0x9d6c13ae5a52a9db; 0xc40ff372e969022e;
  0x2d25ca6cd6842b24; 0x1df0eb2c885f20a5; 0xa5c0dc4fa04cfe84; 0x5c18fad014e86ff1;
  0xef78941644ce10b3; 0x3efe62e9813d6ee6; 0x89437b9e83983fcb; 0x483792e0cd22f9e1;
  0xd3092c46ec536983; 0x3f580f54746d848d; 0x0652ad087b2339b9; 0xcf5faad7915ca34d;
  0x29f8bddd8407054b; 0x230e89c509624e43; 0xc8ab6a621f2f709f; 0x42c1a6f84047b2e9;
  0x36878c4825f83238; 0x3a231558d3be4089; 0xd2af41fb190383e8; 0xd186f6ffc5f37e55;
  0x86ce558aa92eb0c7; 0x73b2ea05ebcc5303; 0xb61b74caf7f5bb46; 0x61cf2f3d4925fcaa;
  0x0e2b43a9dfe66567; 0x142f6830d9ca9610; 0x4ab84859e482ee37; 0x85e7e28e75de4d7a;
  0x44930bf03b648b50; 0xc25d5e7a924a3b97; 0x285ed0607157ef20; 0x8f11d696f8bb0672;
  0x22a8e478fc32a428; 0x04dd77b152832e6f; 0x5e9720693d487827; 0x5748a3756cddce92;
  0x78e2b3a093f9f260; 0x9cca7e13af0243b0; 0xfaf1919b68546cc8; 0xb1efb47f79866894;
  0xc3fb33c7671ad1fc; 0x0879eea1a4c55cde; 0x64b43531eef638ae; 0x4fc3525543512a33;
  0x8213223bfbad9ea8; 0x16a0b289f06a81c6; 0x35ae3b4cf908cf85; 0xde0bd8ebef45f159;
  0x963c4a0b226708b8; 0x7bcb04a44f090fdd; 0xe92a391e3fed290a; 0xcb82dd66c3df8d22;
  0xb532c3ce2b0546fb; 0x4d4c88ec6af13de5; 0x2c83a7d123d4c14f; 0x7f1673151d8a21b2;
  0x7944de1d66a9180b; 0xcef9c76a640c4926; 0x0329b704dcf0fdbd; 0x2b776764ada7129d;
  0x906ee70359443101; 0x0f8d2e142ab68f0c; 0xd85975e39466c8e0; 0xb2c6037ba5769529;
  0xa0bbc643079f3a80; 0xf007a583e53127c0; 0x776f9db4b94f7d6c; 0xabeb9fe67faa9be3;
  0x188bf1202f8ce4a1; 0x27d3fe745be1602c; 0xbfc4f7d6a6600df3; 0x255c24cd724177fa;
  0xe153d7bf9b2875d4; 0xb83037632813de21; 0x2e0c7d680a74d699; 0xfe2ce62a3ad742a7;
  0xc72644763599ff93; 0x4367cb45b5175882; 0x69b6c19cede0a074; 0x713d30bcc26c44d5;
  0x83b54f860efd74c3; 0x9347500785b4ccbc; 0x99b1641f08d187b4; 0xb7bd197702a5512d;
  0xa11dabfef2cfd0eb; 0x057b1a0ca7d3c404; 0xaf36e8572d29b58c; 0x404e7c4169e7a53f;
  0xf57cbf8f42e2e3c4; 0xc90d07dfea7f9af4; 0xfca33c9313775571; 0xc0d284c3bbea2c41;
  0x6e420129639373a6; 0x4b1e25e411d2045c; 0x3721e1f5d0a8d853; 0xa2341cfa2e3f2d56;
  0x511a0e7d17fef72b; 0x028fdab929a017d6; 0x1a042b99062cf377; 0xd7d45bf7bed047ec;
  0x6810ac2118b04a1f; 0x9a98d31bd4217a09; 0xa3927147db6fc73d; 0x92e13dba70e426d7;
  0xe7017ab7e00b4c6d; 0x30d521405edb0b81; 0xe428cdb33cfbb1d0; 0xa6e96b4b7cbc0339;
  0x94b390b20bc71f6e; 0xd9ff185e6136228b; 0x9515fd0ffe97f505; 0xe3dc0d06b2886202;
  0x9e45a4aa86a25466; 0xf7f365366b42f412; 0x75e0470d90ef6aba; 0x6fe46c9496c399cd;
  0x340856f10c5825ee; 0xbb198067f4e3239c; 0x20273ec1d592b3fe; 0xe58ea00ec9ab5bbb;
  0xff8a8b97cf87a8cc; 0xedf74eaf6d6e0765; 0x60694280bc7516c1; 0x3c71b850a89d7930;
  0x1ed95c2854afdd18; 0xcc761dd34dac5ef0; 0xeedef9abb19efad8; 0x809cf882d20d897e;
  0x876838375c7e5aac; 0x41e811fc9cb74f54; 0xd4fdecf36220ba51; 0x24fa497087119d91;
  0xa8c228e2a35a665e; 0xbe629a6b5330e798; 0x6512588c1ba6d2c5; 0xca24b0db368f6749;
  0x91c88abeac14db6a; 0x7a6d6919ba59e5b6; 0x88e5162376c8d5a0; 0xc174e97e4ebac62a;
  0x3b8578e526eeaae2; 0x7d99a9ac342a3664; 0x8c386192244bfbcf; 0x33fc9644822bf63c;
  0x5bec3a659a9bbc23; 0x0000000000000000; 0xa466b1f2551c14ef; 0x192d9c9ddadc0eca;
  0x0b5059a57835a163; 0x74462ab065bf80d1; 0xe6a7170a155ba606; 0xbabfedda01b3c9f7;
  0xdc840252c6e5e68f; 0xdd226fef33b50ce4; 0xbd4b2d6f8fc01a25; 0x5dbe976de1b8859a;
  0xb3606ec650267f42; 0x0d02f4ad031698da; 0x31734cfdab8be1ea; 0x390aa25c0f4ebd34;
  0xa964455f560a8c35; 0x127dc538a2e9afa9; 0x8eb7bb2b0debec19; 0x09df831c5195b6b5;
  0x62e6983995d50117; 0x6b391b25c440b7a2; 0x13dba88557b945c2; 0xeba5e3a7164d3edc;
  0x38accfe1fa1e575f; 0x1c5686917d0fcace; 0x55c779cc457dd944; 0xdad6af5abdc6df36;
  0x6ccddb904a336470; 0x6a9f769831105dc9; 0xe88c54a3cabdc361; 0x4991ff5d3872138a;
  0xea038e1ae31dd4b7; 0xa74f06f689ece952; 0x679d82353206c513; 0xf1a1c83e1061cdab;
  0x461cd14912c49c86; 0x2ad10ad958f7f8f6; 0x10f21f818b49b87f; 0x4e653fe8b601c058;
  0x325afbf9777b1c57; 0xec512312983eed0e; 0x721487b81e9cb968; 0x267593c9aeb18a47;
  0x0af634188d654b08; 0x1f7f3195a1ff3773; 0xae9085ead8795fe7; 0xfd05512ee627bf1a;
  0xb9965adedd43344a; 0x8a6acc9a5f68c276; 0x3dd7d5ed5dcd935b; 0x4535664dce34613b;
  0x76c9f0094c1f9707; 0xf655088b9e121e79; 0xdfadb5561a151b32; 0x1154723c7e195214;
  0x5395d4c43e5ee0fd; 0xf87e4b2241f47b1e; 0xd672364a4b80ad87; 0x981709a2fd816ddf;
  0xc5a99ecf1c39e845; 0x1ba24624f37c191c; 0xe0f5ba026e789fbf; 0x07f4c0b58e73d3d2;
  0x2181537c20c25995; 0x5963e0dcb33babf5; 0xb494ae73de55ac90; 0x56eecec8998d24f9;
  0x47babcf4e79476ed; 0x8d9e0c2fd11b11a4; 0x813a953f275d6315; 0x58c58d61466b419e;
  0x0ca49910f64672b1; 0x5a4a57d86fcb5648; 0x7c3fc411c17adc0f; 0xe27a60bb47d88869;
  0x7eb01ea8e8dacbd9; 0x2faa10d5ff243cf2; 0x5f314dd4c818924c; 0x709b5d01373caebe;
  0x663bef88c7562f78; 0xcdd0706eb8fcb49b; 0x84418f33808ea711; 0xdb70c2e74896355d;
  0x4ceae5519fa1d78e; 0xf4dad232b7b209af; 0x9b3ebea621719062; 0xf32e128739c1da7d;
  0xf2887f3acc913016; 0xd55b814e9770503a; 0xb049d9c28cd682ff; 0xac1f5f53f1d94831].

Definition precomputedLSTableRight_4 : list Z := [
  0x9fbecc925e72118f; 0x27609b0b90fb32b5; 0x4d3d10a8b82dbdb7; 0x268a796118f3c4bf;
  0xf5e3473176a49e8d; 0x435805c1c45d70db; 0x3f84bfb20d3b3545; 0x12af3fbb849094b4;
  0xab9b8a48c2114184; 0xfc55b98d34ecd4d7; 0x601690a131861c46; 0x79185672244eedbc;
  0x875ae82bc3b2167f; 0x37d8a364c77b8915; 0xaa7168224a19b78e; 0xc402edea07ef66a4;
  0x1345ddd10c9862be; 0xf230ace4489c19bb; 0xa22d74f480590bde; 0xb2954c9bd7d9b07e;
  0x176bd3ba69b83c96; 0x71444aa4ee0e51ec; 0xd55037efd8672b0e; 0x520adfc41bd53d71;
  0xd92225527707c976; 0x0ba1f9689158654e; 0x69a06e1d73ce561c; 0x9987c52de84260b3;
  0x47760baaa17d2ef3; 0xa03a7320534924ca; 0x7cdcba73c966459e; 0x9da9cb468d623e9b;
  0xfe42be59e7fcfbc3; 0x7ae5b3cc7f5634a2; 0x4aeefb7d86153a81; 0x1d20c8b870e8afd2;
  0x1af3236d4ed028e4; 0xe288948b1f1ca21b; 0xeced81e2636c6f77; 0xd283dc3ae65fac38;
  0xafb58423a7311fac; 0xd094dbee354f832c; 0xc99a1d3d208772d6; 0x67c57b740fbe9b70;
  0x6d8e607616ee0834; 0xcb8d1ae9f3975dc2; 0x0c7212bdaf60e278; 0x91dbd9fb2202dce3;
  0x61fc72cbb98eea4c; 0xce49f6e81ebff5e0; 0x55d9341125edba47; 0x157cd46ebaa81382;
  0xd17e3984bd477526; 0xe9296de38e44c755; 0xc7ff08545cf7bfba; 0x7d365819416eb394;
  0xffa85c336ff40dc9; 0x09b6febc42484a5a; 0xb934b5f34681d530; 0x1edd2d062bf076cc;
  0x65d27ca0dcaeb464; 0x1152da05df884daa; 0x25779cdf43eb1da1; 0x4ec0f516e33564a9;
  0x469ce9c02975d8f9; 0x5e78cd79b4b5df09; 0x249d7eb5cbe3ebab; 0x1496360432a0e588;
  0x8d11f329dae2853b; 0xc1c601ebeac7ce86; 0xa5fe9f21be618ce8; 0x7480a6a50326f9ce;
  0xf7f440e5a5b4b199; 0xdb352286a417e662; 0xbcf059f2aba97d12; 0x28ef6c08648309d3;
  0x5433d67bade54c4d; 0x3632410e4f737f1f; 0x3e6e5dd88533c34f; 0x6bb769c9a0de7908;
  0xf1cd495a1384c0a5; 0xc615ea3ed4ff49b0; 0x684a8c77fbc6a016; 0x20b370deaec3b583;
  0x97e2d0449432addf; 0x3d93b866de2b1a51; 0x39bdb60dbb0b4479; 0xb8de5799ce89233a;
  0x33f6ad0fa25bd73d; 0x93ccde2ff112f3f7; 0x73534d703d1e7ef8; 0x063909bfb630713c;
  0xb4ac452461e9c142; 0xa4147d4b36697ae2; 0x29058e62ec8bffd9; 0x501dd810c8c51265;
  0x8cfb114352ea7331; 0xb6bb42f0b2f9ee56; 0x7697a171d036d6da; 0x45610c7e726d01e7;
  0xed076388eb64997d; 0xcfa3148296b703ea; 0x4b0419170e1dcc8b; 0x62019775e2963352;
  0x3c795a0c5623ec5b; 0x42b2e7ab4c5586d1; 0x51f73a7a40cde46f; 0x88d51f2837ca2d19;
  0x7f215fcd927e9c80; 0xe175713544047b05; 0xc5e80f808fe790ae; 0x5bbc2178599d772b;
  0xa1d0914adb41d2c0; 0xa7e998f56d71a3fc; 0xb168a9258cc16960; 0x021707d4d3102f14;
  0x01eae26a8808f60a; 0x95f5d790472282cb; 0xa6037a9fe57955f6; 0xae5f66492f39e9a6;
  0xdd0c2b391227975e; 0x756a44cf8b2e0fc4; 0xa98c8d9c11016e90; 0x64389eca54a6426e;
  0xc870ff57a88f84dc; 0x662f991e87b66d7a; 0xf61ea28f2dbc4793; 0xeb3e6a375d54e841;
  0x18e424b99dc007f0; 0xc3d1063f39d7e192; 0xb37faef15fd14674; 0x215992b426cb4389;
  0x9c43292c056ac891; 0xead4885dd55c1e4b; 0xac48619dfc29c6b2; 0x0a4b1b0219509344;
  0x8f06f4fd09f2aa2f; 0x9a7a2093b35ab9ad; 0x448bee14fa65f7ed; 0x5d8528c7efad0617;
  0xfb8652580ad453e1; 0x4cd7f2c230254bbd; 0xcc5ef13ccdafdaf4; 0x9e542ef8d67ae785;
  0x4f2a177c6b3d92a3; 0xa3c7969e0851fdd4; 0x72b9af1ab51688f2; 0xd3693e506e575a32;
  0x042e0e6b65205e28; 0x234e9560f5db6c9d; 0x90313b91aa0a2ae9; 0xada283f7742130b8;
  0x86b00a414bbae075; 0xd8c8c738ff0f3f7c; 0x8eec169781fa5c25; 0xdf1b2cedc137b84a;
  0x5a56c312d1958121; 0x6a5d8ba328d68f02; 0xc23be455b1df1798; 0xf027ab309b8c36af;
  0x49131ec3dd0de39f; 0xbd1abb9823a18b18; 0x2b1289b63f9bd0cd; 0x5841c4c60285ae35;
  0x854defff10a2396b; 0x0000000000000000; 0x7ecbbda71a766a8a; 0x986d2747604a96b9;
  0x2f3c87dd5abb8ee5; 0x07d3ebd53e388736; 0x63eb751f6a9ec558; 0x31e1aadb714bf829;
  0x8163e19475826743; 0x2af86bdcb79326c7; 0xe6a69ae07a3cfc33; 0xf991558cd9c47cf5;
  0x8b28fa966cd2f407; 0x53e03dae93ddcb7b; 0xcdb4135645a72cfe; 0xdce6c9539a2f6154;
  0x2d2b800989aba1f1; 0xb751a09a3af1185c; 0xbee75e2678b95206; 0xbac9504d1d990c2e;
  0x59ab26ac8a8d583f; 0xe36276e197145411; 0x1cca2ad2f8e059d8; 0x300b48b1f9430e23;
  0x777d431b583e20d0; 0xdadfc0ec2c1f1068; 0xe8c38f89064c315f; 0xfdbf5be7bce422dd;
  0x342546da9c63500b; 0x48f9fca955051595; 0x0e6515697c70cd6c; 0x321c4f652a532137;
  0x9b90c2f93b524fa7; 0x40a5e07f9f45a9c5; 0x1b19c107c6d8deee; 0x9608322e1c3a5bd5;
  0xf409a55bfeac6887; 0xc02ce38162cf388c; 0x22a4770a7dd39a97; 0xe55b7f5e2124252d;
  0xf3da4e8ec094efb1; 0xe74c788af2340a39; 0x7b0f51a6f75ec2a8; 0x385754673303b273;
  0x84a70d9598aacf61; 0xe4b19d34a92cd327; 0xfa6cb03282dca5eb; 0x6e7385c84df6d12a;
  0x0f8ff703f4783b66; 0x57ce33c5f6fd9553; 0x35cfa4b0146ba601; 0xca67f8837b9fabc8;
  0x92263c45791a05fd; 0x414f0215174d5fcf; 0xbf0dbc4cf0b1a40c; 0x893ffd42bfc2db13;
  0x941f35facf2a74c1; 0x2cc1626301a357fb; 0x05c4ec01ed28a822; 0xe09f935fcc0c8d0f;
  0x190ec6d315c8f1fa; 0x0d98f0d727681472; 0x1f37cf6ca3f880c6; 0xd747303b0b77041a;
  0xef10645c3874b669; 0x10b8386f5780bba0; 0x5c6fcaad67a5f01d; 0xd6add251837ff210;
  0x5f922f133cbd2903; 0x808903fefd8a9149; 0x78f2b418ac461bb6; 0xbb23b2279591fa24;
  0xf87bb7e651cc8aff; 0x2ed665b7d2b378ef; 0x168131d0e1b0ca9c; 0x8ac218fce4da020d;
  0x8374e640a6924857; 0x829e042a2e9abe5d; 0x6c64821c9ee6fe3e; 0xeefa8636b07c4063;
  0xb0824b4f04c99f6a; 0x085c1cd6ca40bc50; 0x3a4053b3e0139d67; 0x5624d1af7ef56359;
  0x70aea8ce6606a7e6; 0xd4bad585506fdd04; 0xdef1ce87493f4e40; 0x03fde5be5b18d91e;
  0xa8666ff69909989a; 0x3baab1d9681b6b6d; 0xb546a74ee9e13748; 0x6f9967a2c5fe2720].

Definition precomputedLSTableRight_5 : list Z := [
  0xbe20db5ab51af0b4; 0x60e7ef550a5862aa; 0x3d37fc6789097fce; 0x8af1b0afc08e0b9d;
  0xe3f0c868364bedd0; 0x58f340e2efc70407; 0x84f4ebf268d9f327; 0xaf8f074caa918d98;
  0x9b5e6cb9df0576b1; 0x55562a4e63e24a9c; 0x164c10d94b410171; 0x18494b84e316f9cb;
  0x5a33dffdd79b6139; 0xd844562ef7a63d5c; 0x7148334315d31f86; 0x02c09f1f385c653e;
  0x459958b66047e4af; 0x309296cb052c3155; 0x2df88e9f8aacd1fd; 0x955b37e477528e0b;
  0x6bc1e7d8ce998373; 0x44f9f6587c6937b0; 0x5075799e0f7453ff; 0x0a46a663d8ef32c6;
  0x229d7b2c3ed5fa58; 0xa18a5c1102c67522; 0xa0eaf2ff1ee8a63d; 0x8754da034cab4506;
  0x76abff8c411963db; 0x3ad430a8ddc30393; 0xdc07ab10871ef720; 0xa90c656de27522da;
  0x427a9479348d98f2; 0xe573aa497eaf4292; 0xee55a2c4ba6ea34b; 0x205de43306899f66;
  0xf33fba9035ee43e3; 0x88312fb0f8d26ea3; 0xedf593359e1c156a; 0x8317273d3c138f7a;
  0xb506d3d771db116d; 0x943b990a6b7c5d14; 0x9a3ec257c32ba5ae; 0xc52e4e7a7826ddf4;
  0x8eb24d91b036c1e1; 0x8d127c60944477c0; 0x72e802b231a1a9a7; 0xdbe467dfd3d48b7d;
  0xfc5a4f2381976846; 0x495c9cf4f04c792b; 0xd924f8c0eb88ee43; 0x7ced59ef99f6511d;
  0x7e2dc6f0a1aa3423; 0x29bb73a1fa141b81; 0xfffa7ed2a5e5de67; 0x3611f4ea4dc89e17;
  0xa86ccb83fe5bf1c5; 0xb6a6e22655a9a74c; 0x34d16bf57594fb29; 0xdd6705fe9b30243f;
  0xd202f04d2f490f9a; 0x52b5e681372836c1; 0x77cb51625d37b0c4; 0xc00d1daa14b0c497;
  0x9cbda0768bcf0aec; 0x78aea4d1e94e9b61; 0x9ddd0e9897e1d9f3; 0x96fb06155320382a;
  0x11afdc161f8b7d2c; 0xc68e7f8b5c546bd5; 0xfe9ad03cb9cb0d78; 0x80b716cc1861395b;
  0xf4dc765f61243fbe; 0x35b1c51b69ba2836; 0xf09f8b61119cf5c2; 0xef350c2aa6407054;
  0x3332a73a215e8774; 0x325209d43d70546b; 0x6ee2b408a20f9a10; 0xb7c64cc849877453;
  0xcda8770698958a0c; 0x15ec21286f33b750; 0x4afcad05d43ecf0a; 0xb385b1f6393fbe2f;
  0xe29066862a653ecf; 0x93d855c53fb62149; 0xbd80eaab91684695; 0xdec7340fbf42921e;
  0xf61ce94059785a80; 0xccc8d9e884bb5913; 0x53d5486f2b06e5de; 0x39740159f9b1b5b2;
  0xac2f36bd8ee33bb9; 0x148c8fc6731d644f; 0x052353d06c961963; 0x1d6a18548f80e0a8;
  0xfbb983ecd55d141b; 0xbb03888ad98ce9d7; 0x979ba8fb4f0eeb35; 0x618741bb1676b1b5;
  0x07e3cccf54ca7c5d; 0xa34ac30e3a9a101c; 0x0443fd3e70b8ca7c; 0x0160aeee1c2ed31f;
  0x79ce0a3ff560487e; 0xb2e51f1825116d30; 0xf77c47ae4556899f; 0xd5e13c827b8373c7;
  0x213d4add1aa74c79; 0x750bce7d656bd5fa; 0xe8d6c0e5f28a0c09; 0xbce044458d46958a;
  0xd0c26f5217156aa4; 0xe9b66e0beea4df16; 0x6861d629eaeb3552; 0x172cbe37576fd26e;
  0xea165ffacad66937; 0xf5bcd8b17d0aeca1; 0x03a031f12472b621; 0x5f108c2dbb0d785a;
  0x0cc5c442900b9d84; 0x6aa14936d2b7506c; 0x8c72d28e886aa4df; 0x3814afb7e59f66ad;
  0x70289dad09fdcc99; 0x2f381180b2f0b4c3; 0x1eca29a5abf25689; 0x3e97cd96ad7bc9ef;
  0xe41304a76281918d; 0xd1a2c1bc0b3bb9bb; 0x7f4d681ebd84e73c; 0x5993ee0cf3e9d718;
  0x431a3a9728a34bed; 0xd481926c67ada0d8; 0x483c321aec62aa34; 0x4b9c03ebc8101c15;
  0x0683622148e4af42; 0x7a6e3bced112fe5f; 0x8b911e41dca0d882; 0x8594451c74f72038;
  0x863474ed50859619; 0xd721a39d43df16f9; 0x5e7022c3a723ab45; 0x543684a07fcc9983;
  0x2a1b4250de66ada0; 0xc7eed165407ab8ca; 0xb9c31795e1d08ce9; 0x690178c7f6c5e64d;
  0x2e58bf6eaede67dc; 0x4ebf503ba4860576; 0x31f238251902e24a; 0xa22a6de026b4c303;
  0xb02580071d4d080e; 0xc88b24d6f403936f; 0xec953ddb8232c675; 0x1be97a75c7644fea;
  0x56f61bbf4790fcbd; 0x5dd0133283511d64; 0x3bb49e46c1edd08c; 0x27be28fc5243e33b;
  0x136f430927d71812; 0x1a89d49bdb4a9cf5; 0x120fede73bf9cb0d; 0x41daa58810ff2ed3;
  0x4d1f61ca80f4b357; 0x0000000000000000; 0xcb2b1527d071254e; 0x6d4285f9867d2c31;
  0x3c5752899527acd1; 0xd3625ea33367dc85; 0xeb76f114d6f8ba28; 0xe13057770e1788ee;
  0x6347dea42e2ad48b; 0xf819b21df12fa23a; 0xa66990de560c097f; 0x9118cada07ea4477;
  0x28dbdd4fe63ac89e; 0xe050f99912395bf1; 0xb4667d396df5c272; 0xe6d39bb85addf4b3;
  0x2b7becbec2487ebf; 0x5115d770135a80e0; 0xe7b3355646f327ac; 0xc9eb8a38e82d4070;
  0xabccfa72da2947e4; 0x6227704a32040794; 0xca4bbbc9cc5ff651; 0x0b26088dc4c1e1d9;
  0x7d8df70185d88202; 0xdfa79ae1a36c4101; 0xc3ad2c5b30c272b6; 0xbf4075b4a93423ab;
  0x257eb7e36a1f8605; 0xf9791cf3ed017125; 0x65c4bc8566ce7bc9; 0x1c0ab6ba93ae33b7;
  0x907864341bc49768; 0xa5c9a12f727ebf5e; 0x1929e56aff382ad4; 0x0886397ce0b357f8;
  0x09e69792fc9d84e7; 0x2c982071968202e2; 0xa4a90fc16e506c41; 0x5b537113cbb5b226;
  0xda84c931cffa5862; 0x4c7fcf249cda6048; 0x0f65f5b3b4792ba5; 0x5796b5515bbe2fa2;
  0xa7093e304a22da60; 0xb1452ee90163db11; 0x6c222b179a53ff2e; 0x7388ac5c2d8f7ab8;
  0x8fd2e37fac1812fe; 0xce0846f7bce73c2d; 0xcf68e819a0c9ef32; 0x6704239a5e921ef7;
  0x26de86124e6d3024; 0x4fdffed5b8a8d669; 0x0da56aac8c254e9b; 0x3ff76378b1551af0;
  0x1faa874bb7dc8596; 0xc16db344089e1788; 0xc44ee09464080eeb; 0x9f1d9187afbdbccd;
  0x0e055b5da857f8ba; 0x98fe5d48fb77c090; 0x37715a0451e64d08; 0x4759c7a9581b8191;
  0x10cf72f803a5ae33; 0xb8a3b97bfdfe5ff6; 0x6f821ae6be21490f; 0xad4f985392cde8a6;
  0x92b8fb2b2398f256; 0x8951815ee4fcbdbc; 0xf25f147e29c090fc; 0x23fdd5c222fb2947;
  0x7b0e9520cd3c2d40; 0xd6410d735ff1c5e6; 0x81d7b822044fea44; 0xc2cd82b52ceca1a9;
  0x746b6093794506e5; 0x9e7d3f69b3936fd2; 0x64a4126b7ae0a8d6; 0xfad92d02c973c704;
  0x827789d3203d5c65; 0x5cb0bddc9f7fce7b; 0x40ba0b660cd1fdcc; 0x241e190d7631551a;
  0xaeefa9a2b6bf5e87; 0xba632664c5a23ac8; 0xf1ff258f0db226dd; 0xfd3ae1cd9db9bb59;
  0x66648d7442bccde8; 0xaaac549cc60794fb; 0x463969474435528e; 0x999ef3a6e759138f].

Definition precomputedLSTableRight_6 : list Z := [
  0xc52388a84ba007fc; 0x72c453b467fde6ee; 0x2afea196daeb16dd; 0x8916ef1e6bb35011;
  0x9d197a8af6b6f7cf; 0xa10806f592b9dd6e; 0xcd256b9fc7a22e31; 0x5ed92aa5d8f69e16;
  0x12ec4d13f8e5c9fb; 0xb2946f399acdb8c4; 0xb902e0acc5bfa6fa; 0xfd31642d69aed8da;
  0x7ac2b083ebffcf23; 0x197ac286a797d7c5; 0xe93ef1b9f4ab7f04; 0xdbcab6767946124d;
  0xa50b960fd4b828e9; 0x3962c85ad29f7377; 0x3d6158a0949e86f0; 0x56dfc99254f4b7db;
  0xcfc523e2e443b593; 0x296ecd34099b212e; 0x4ba69beeb5629599; 0x31642b6d5e9d5aba;
  0xf537871ae5acf117; 0x1aeaae2474e7e036; 0x968ff51fa9c4e9f1; 0x9a8a86d263c735bb;
  0xcbc6b318a2424014; 0x0806e3378c0229cd; 0x6c2d6d6a551bf35f; 0xf044333f533ca8c1;
  0x87f3d4ae825117f9; 0x338463107d7cc118; 0x8e851346fec29265; 0x2efd316c9ceae35a;
  0x8a8683bcb8c367e2; 0x52dc596812f5425c; 0xd92afe0b5aa789ef; 0xefdd293e914b1121;
  0x7822f8fec81e5481; 0xdaba92a989d7be1c; 0x9e89162825c6c03c; 0x1d79527ce1962242;
  0xfc4140f2993f748b; 0xabeeadbf3d5a6f01; 0xbe911cf450ce648e; 0x4ed52fcb03f2cc4f;
  0x42d05c06c9f11005; 0x3af2a4f801ef4484; 0x951f99bd7ab4de02; 0xfaa29875fcdf1aae;
  0x21682e03859908e3; 0x4836f74c6612a26a; 0x157fb14b6d940b8f; 0x97ffd1c0595545a0;
  0x7c2168048e1fa106; 0x2f8d15b36c7b4f0b; 0x4c3567b6201357ed; 0xe04836518838fa98;
  0x281ee9ebf90a8d7f; 0x906c2d98cc2487d4; 0x47a3e8237f6149d3; 0xe44ba6abce390f1f;
  0x30140fb2ae0cf6eb; 0x8ff537990e533e34; 0xbc715489732fff2c; 0x017024dff091ac51;
  0x9bfaa20d935699ea; 0x4ad6bf3145f339c8; 0x991aea70b0b70248; 0xb872c473352e0aab;
  0xa87ec11dee2a58f2; 0xc0503c8dfd305e2a; 0xdd296ef11ca67c68; 0x02e0487d23e19ba2;
  0x6ecd251776fa68fd; 0xe2a87e2cabd9613a; 0x36f7d735cbec98ce; 0xa3e84e88b15846cc;
  0xf7d7cf67c64d6ab5; 0xeead0de161dabd70; 0x6d5d49b5a58a5f0e; 0xd6bfe16443d46256;
  0x117c21b12b95fe08; 0xf842d008df3e810c; 0x928c65e5efc51c76; 0xb7e7db1c2c5de112;
  0x73b4776b976c4abf; 0x7bb2945c1b6e6372; 0x1c0976a311078e13; 0x5fa90e7a28673247;
  0x0976c7e87c93859c; 0x62c856dabcf9b4b7; 0xf932f4d72faf2d5d; 0x040390fa4601f587;
  0x60281ea79f182f15; 0x3c117c7f640f2aa1; 0x8d157fe42db2a596; 0xfea1088fbadeef29;
  0x22f842a156e93f10; 0xc12018520da1f27b; 0x7557afecf28c249a; 0x8c655b3bdd2309c7;
  0x03906ca2d37037f3; 0x5adaba5f9ef76b91; 0xffd12c504a4f4378; 0x0ae6ab4aafe3b26f;
  0xa2986a5741c9ea9d; 0x9c695e5506275b9e; 0x20180adc7508a4b2; 0x1ee93ede32e615b1;
  0xf3d45f9d804c9f32; 0xac7d51e7a82bad75; 0x986aceaf4026ae19; 0x3567bb97189caf3d;
  0xfbd2bcaa0c4eb6ff; 0x241b9a2633095135; 0x57afed4da4651b8a; 0x83f04454c450e27e;
  0x9ff932f7d5576c6d; 0x43a078d93960bc54; 0x278bf684e07966c6; 0xd3cc5541f5443b80;
  0x655baa82298876c3; 0xe6abeed6edd894bd; 0x53ac7db7e264ee0d; 0x7d514cdb7e8e0d57;
  0xbfe1382ba05fc8df; 0x7fb104a65d6f96f5; 0xad0d753858ba0124; 0x2d6d5dce4f9ad4a9;
  0x0b968f955f721e3e; 0x8683f07172c0bba8; 0xb697ffc3dccc4d43; 0xe138128e78a956c9;
  0xae9d199a8bca36d7; 0x543f81ef77152c79; 0x0573b425b69059d6; 0x414030a41a8127f6;
  0x16efdde9bee43c7c; 0xd12c1d3cd6a5a022; 0x0f951f6f1973ebb9; 0x3ef1340247eeb103;
  0x1f991a01c277b9e0; 0xc6b3e40a98d0300f; 0xe7dbca091d4938ec; 0x140f95949d05a7de;
  0x6aceb5ed30fb9d7a; 0x180ae65957067b94; 0xb50793610fbc7ab0; 0x4d454369d082fbbc;
  0x81100c29e7b179dc; 0x0ee53bb0e9e247e8; 0x554fa53087848028; 0xaa9e8960cdcbc350;
  0xe53b82743ea8a34e; 0x583af222bd16f033; 0x8463b80c5121200a; 0x0c0573cdca03dc4a;
  0x4030147bea108ba7; 0x26fbd25b10e8ca97; 0xcc554f4037338260; 0xd05c39e326340c73;
  0x4fa50b14f363601e; 0x0000000000000000; 0x594ad6fd4d875c62; 0x61583a786f898344;
  0xa69bfaad07c81f1a; 0xa47bb2d0242984b8; 0x77b7e791d16dbf38; 0x46d3ccfc8ff0e582;
  0x256bbef9c398fd64; 0x3787f3ea3b7d349f; 0x3812ec85220edf26; 0x2388667ea6789341;
  0xc453ac77bb31abad; 0xcab697c752d3ec45; 0xf447a3c5153d5d46; 0x642b8e5dd919da92;
  0x93fc413a1f54b027; 0xc7c3c0d568419c5e; 0xe84ed566043ad355; 0x8280608b34c14e2f;
  0x2b8e85492a7aba8c; 0xa90ee5c21ebbf4a3; 0xd52f8dc690a455a5; 0xbd01705683be537d;
  0x76c7c34e21fc1369; 0x3b828027f17ee8d5; 0xb3e44be66a5c1495; 0x4946d39396830e3b;
  0xd7cfc5bbb345ce07; 0xbbe2a8d1e65e3d58; 0x8bf6a7634852cbb3; 0x8866cbc19b22fc40;
  0xafed3d457b5b9a86; 0x6fbd01c8866bc4ac; 0x71543f16b48dd11d; 0xeaae9d1b27db48f7;
  0x66cbc620faf84130; 0xb104039b49bd8f37; 0xe3d85af35b48cd6b; 0xf6a7ebb836dcc6e4;
  0xc2b074f0ded1c588; 0xc3c0502f2e4069d9; 0xc856dfba713277e7; 0x695ed94fe38baa89;
  0xb477b7beff2dd6e1; 0x0d7557123a92701b; 0xed3d6143b2aa8a83; 0x32f447cf8ded6d49;
  0x70241bc9441c7d4c; 0xa078222a6228713f; 0x2c1d7911bf0b78f8; 0x503c11153114d9fe;
  0x806028f61720d58d; 0x946fbd628a257253; 0x139c69cc087465aa; 0xf13417e0a3ad0490;
  0xdfc9268c3f47e7ca; 0x682efd90131a06d8; 0x911c09473cb52b85; 0x67bbe2ff0a69ed61;
  0x44338481ac117e20; 0x4543a05e5c80d271; 0x1b9a8afb84764c67; 0x7ec12079adfe3aa4;
  0x179ff9364e75902d; 0x6bbe9132c06a312b; 0xba928c0e16cf9109; 0x85139cd3a1b08c5b;
  0x74278b33021d88cb; 0xdeb90253cfd64b9b; 0x06e3d88765e06e25; 0x7952dc21388ff8d0;
  0xd85adad4aa3625be; 0x5d4946070b86a9e5; 0x34179f48e80d036c; 0x3f8110ddb77f1d52;
  0x100c056edb045259; 0xebdeb9c4d74ae4a6; 0x0793fc589571c274; 0xec4d459c423b26d2;
  0x63b872054c6818e6; 0xd45fa9196035f9f4; 0x5c3962d8fb1705b4; 0x5baa9e806e66c7c0;
  0xd2bc719e05d597d1; 0xb0742744b92c2366; 0x514c35cac18575af; 0xceb5073d14d219c2;
  0xdc594a2eec37d039; 0xa7ebde72f759b34b; 0xf2a47b4270dd3363; 0xc926fb6581a3dbb6].

Definition precomputedLSTableRight_7 : list Z := [
  0x7cd4a41bb3820eb2; 0xf44038f84c990fec; 0x0197344ed8522c9f; 0x534d04d3cdf8a090;
  0x8903a8ad27492dc1; 0x24d19f2fda597932; 0x67f85d9609c85c46; 0x6fca3ea3061dff34;
  0x40539e6b78675116; 0x5f66b71d24a6b3db; 0x09a5577bd7878fed; 0x3d100e3e13b7733b;
  0xef6cc175f6d35d18; 0x16907e0d8b466d20; 0xe75ea240f906fe6a; 0xcbbd5e5a2c8a242a;
  0xc8c70288877c5048; 0x7a201c7c26ade676; 0x963681db7b88cf0c; 0x74e6c72ebc57adc0;
  0x11f3f224c63ba97b; 0x4c782da59139425d; 0x8e6024846a34e99a; 0x610ce5f19ce7b482;
  0x263cf7b3a9fd21cf; 0x5b7f67e6c22d03e2; 0xdfc048cbd46811f7; 0x28fa2ce133076a79;
  0xfde56f839b1e8001; 0x1b2cf98dba4a52f4; 0x4329c2b9d3912574; 0xf1cedc4d7240934a;
  0xd27ccf4be5642e23; 0x17074a43531441bf; 0xf2b4809fd9b6e728; 0xed81a9e9857705e5;
  0x1ea21d388493ce52; 0x98f05a89e17284ba; 0xbdb6f1e8e379d117; 0x7d4390556bd0222d;
  0x99676ec73920a825; 0xf059e803aa12bfd5; 0xc4ecb1466e224303; 0xfa86e3aad663445a;
  0x06f4b867952fe8c4; 0x49f6c910afe0defb; 0xa85cd337c3c9c855; 0x59920f7ab1895b1f;
  0xaea86b5056e62091; 0x37cf05976fc688b4; 0x922f51209d037f35; 0x9ce98a7207f93483;
  0x5754d4282b7310a9; 0xc38f3d6f235f8758; 0xe1aa1a276c2916ae; 0xe424fe9252f08a08;
  0x7571f3606405815f; 0xd6651fb003ef9e1a; 0x2f99a0c87e7aae22; 0xc796ed94c5d43761;
  0x779c9bfc17a1d9a2; 0x45dd7ade46becdb0; 0x795a40ae8d5b9214; 0x2b80703398f11e1b;
  0x5ae853a81a7f2f7d; 0xc95036c65f2e7cd7; 0xde577c850c3a3d68; 0x3be4b65986989bff;
  0x131e9ab8b59ff186; 0xb58492ddecac7265; 0x6515350a7a6c04bb; 0x3241e122511f1412;
  0x0419d0fbe68bb039; 0xab268fe5683fbc37; 0x51a06c4fbe5cf86d; 0x760bafb2cff3f53d;
  0x35226d0b1c62d049; 0xb19d42260a27c25c; 0xc0f561bd88a9f33a; 0x52da309d15aa8c0f;
  0x50375801660ed4f2; 0x46a7260ced48b9d2; 0x78cd74e05509be8b; 0x07638c294d7dc45b;
  0x0dbc8780310c3fd4; 0xeae225c0c80ac1be; 0x33d6d56c894d388d; 0x88949ce3ff1b015e;
  0xcfa48ea1ca019413; 0xd488772c704bc6e7; 0xc16255f350fbdfa5; 0x542e88fa808564cb;
  0x20c84fd43cd2c90b; 0xc2180921fb0dabc7; 0xd10693994e925a41; 0xec169da75d25297a;
  0xb413a69334fe5efa; 0xadd23782fd1054f3; 0xbf5b997490dd89ea; 0x70ff17d55adc1df9;
  0x1abbcdc362187e6b; 0x90c239bceea727c8; 0x55b9bcb458d74854; 0x84bf2f2d16451215;
  0x4def19eb496b6ec2; 0x83dca3045b38d64e; 0x4b1ba18cdc448606; 0x6d27563f75b9a7c9;
  0x693e86c4933217f0; 0xb2e71ef4a1d1b63e; 0x6cb06271adeb8b56; 0xb769fa419f082a98;
  0xbc21c5a63b2bfd88; 0xe80f4d5cbbae9943; 0x5ef18353fcf49f44; 0x8d1a7856c1c29df8;
  0xa70d3c2b8161af7c; 0x80a6ffd6f0cea22c; 0x4f0271773acf363f; 0x3e6a52ecb8410759;
  0xff08071fe8bad8fc; 0x954cdd09d07ebb6e; 0xcd49e63db9a5ccee; 0xd091a7d796c076de;
  0x63e18d6def43ec7f; 0x5d8bdf815702eb26; 0xa314ecd067ea1f45; 0x4e954539e29d1aa0;
  0x93b8656e455153aa; 0x389eea8b2d6eef9d; 0xd3ebfb053d3602bc; 0xa06eb002cc1c6b27;
  0x56c3e066f3213c36; 0xe998791263fcb5dc; 0xb3702aba79839aa1; 0xfc725bcd434cac9e;
  0x9e04e2ee745d6c7e; 0x02ed689c73a458fd; 0xd7f22bfedbbdb285; 0xe34772bb1f8d4e53;
  0xac4503cc2542786c; 0xa69a0865593383e3; 0xbad57dc1ae04154c; 0xdbd9983032e3a1ce;
  0x8c8d4c181990b167; 0x313bbdf0fae96070; 0x666f69d8d19a70d9; 0xda4eac7eeab18d51;
  0xd934f0ac4147f933; 0x2d74c8540ddef6df; 0xfe9f335130e8f463; 0x147d1691f8e235dd;
  0x4861fd5e77b2f264; 0x8131cb98289c8eb3; 0x3909dec5f53cc302; 0x72127f4929784504;
  0x1064c66a1e6985e4; 0xf5d70cb694cb2373; 0x9f93d6a0ac0f40e1; 0xf73a642ae76f7b8e;
  0xd8a3c4e29915d5ac; 0xf6ad50643f3d5711; 0x5c1cebcf8f50c7b9; 0x9d7ebe3cdfab181c;
  0x6276b9233711c0e0; 0x0000000000000000; 0xce33baef1253b88c; 0x8ff710cab266c505;
  0x85281b63ce173e8a; 0xf323b4d101e4cbb7; 0x23b213069724bd69; 0x42bef6f70bc309eb;
  0xbb42498f765639d3; 0xfb11d7e40e3168c5; 0x41c4aa25a0357d89; 0x215f7b9ae480e594;
  0x47301242351a954d; 0xc601d9da1d861bfe; 0x1dd841ea2f65ba30; 0x58053b3469db7780;
  0x083263350fd5a372; 0x0adf0ba97c71fb8f; 0xdcba14197f9e6595; 0x058ee4b53ed99ca6;
  0x3a7382175ecab760; 0x3ffd66a260132bc6; 0x4a8c95c20416aa99; 0xe5b3cadc8aa2a697;
  0x1856a55f11bc2696; 0x0c2bb3cee95e134b; 0x64820144a23e2824; 0xf86b8b36a5c71ca7;
  0x3c873a70cbe55fa4; 0x7faef8c918747ad0; 0x2546ab61020b55ad; 0x68a9b28a4b603b6f;
  0xa5e054b7f2c5f781; 0x0ec6db529afa4bb6; 0xb9af211305f2612e; 0xaab1bbabb06d90a8;
  0x2e0e9486a62882bd; 0x1289aef66dcddd19; 0x8a79f47f8cbf59a3; 0x6bd3ee58e0964f0d;
  0xdd2d2057a7cc490a; 0xe6c9960e2154d2f5; 0xb00a7668d275eec3; 0x94dbe947082c97f1;
  0xc57b8508b6706f9c; 0xccded27361f7e071; 0x0b483fe7a423d710; 0x2ce3fc1ad58cda40;
  0x824b974a836afad1; 0x1f3529765cc1e2cd; 0x9b8a065b4a84f0d8; 0xeefbf53b2e817187;
  0x73854b07f12a699b; 0xa9cbe7791b9be4ca; 0x7bb72832feffcae9; 0xca2a6a14f4d808b5;
  0x27abc3fd71af0d50; 0xaf3f5f1e8eb40c0e; 0x7e39cc87c026564f; 0x15ea22df20b01942;
  0x34b55945c430fcd6; 0x0f51ef1c42a86729; 0x609bd1bf44b5981d; 0x037a5cd2abf67462;
  0x97a1b595a3dae393; 0xe2d046f5c7df62cc; 0x444a4e909eece12f; 0xa47760f92a97db1e;
  0x6e5d0aedde4fd3ab; 0x1c4f75a4f73796af; 0x9a1d321592d6dc47; 0xa283d89ebfb833da;
  0x865247b165e14ae8; 0x222527484f7691f6; 0xb6fece0f475a0607; 0xe03d2e69b47b3a31;
  0x365831d9b794a42b; 0x91550df236f50b57; 0xa1f9844c144e47b8; 0x30ac89be22bb4cef;
  0xf9fcbf787d953038; 0x7168239b828e3166; 0x19c19111c9ee0a09; 0xb838155ddda04db1;
  0xeb75118e1058ed21; 0x296d18afeb5546e6; 0xd51f4362a819ea78; 0x2a17447d40a33284;
  0x6a44da1638c46392; 0xbeccad3a488fa575; 0x87c573ffbdb36677; 0x8beec03154ed753c].

Definition precomputedLSTableRight_8 : list Z := [
  0x10ecaedf6a2d01fc; 0x927cf22a20cba0ee; 0xfa27c723aad247dd; 0x99881307c7b65d11;
  0x78b79bd6e034e6cf; 0x98f6c0668971e86e; 0x7a4bfe147c794f31; 0xa6b009cf65263216;
  0x2fd4b417c8bd6efb; 0x2bef7e503327ffc4; 0x26dc30f8b38d3afa; 0xc51fddeb084228da;
  0xf8dba2e1369fee23; 0x22e7fabf4817abc5; 0x2420553a2fc09304; 0x602d6287bfee064d;
  0xad44e8e2825bcfe9; 0x493e791510845077; 0x7c8c51911bae77f0; 0xcc17590473727cdb;
  0x8112ea56986cbd93; 0x9db3d9403c2ccc2e; 0xdb428b3f304ff099; 0x239929de06d01eba;
  0xafb88d201e166617; 0x4573e4dcdee92036; 0x7584d57e609e23f1; 0x2a91ad317de04abb;
  0xb4a0c2d293469a14; 0x6aa750cb16544ecd; 0xe2bd3e72f508a75f; 0x06c7af8567d738c1;
  0x3dc47f0a3eddc6f9; 0xd8c03d9ce2c5ec18; 0xcbae25e05a62f165; 0xcf95efa7a1f8605a;
  0xfe1c0d645148d6e2; 0xf9a5718078585b5c; 0x9b7476c55bfbf4ef; 0xeacb69fcc0ff4621;
  0x0382b6a3d28a1c81; 0xfce068a6cd057f1c; 0x1f2385b576ca6d3c; 0x1755d23b433d8c42;
  0x59d2d7ca7aa9518b; 0x090884ef7b305401; 0x74fa061f2e59968e; 0x723da99a498eae4f;
  0x2d28d1d554f0c705; 0x2eaa6776867adb84; 0x1210cb1df660a802; 0x9739eb0c959684ae;
  0xf714898b2a7882e3; 0xbcd6955ca6b17b6a; 0x7df282f05569c28f; 0xe949df5f12755aa0;
  0x36309e27d9a03b06; 0x5358e586d313190b; 0x8964bdd8ad9b5ced; 0xd24a0fd04b7fa498;
  0x017ed3614ec7b57f; 0xbb6fe9b88fa1f6d4; 0x8457f3702d3199d3; 0xe7f827544055831f;
  0xbf5423ff743b67eb; 0x57632fc128898834; 0x8fa3125dca4c642c; 0x9ccd0a2172eb7951;
  0xb65ca7100f0b33ea; 0x478f811e42a489c8; 0x4d05b352eb1ec148; 0xba113ad9c16643ab;
  0x6e9c9a8cedcedff2; 0xb9938c7a13ec5f2a; 0xaec65e4150d1d368; 0xfb591442e415f2a2;
  0x19e42a30111d55fd; 0x29131b92af6a563a; 0x71bf1f399b04b2ce; 0x63afd4246d641acc;
  0x54e19962fa0394b5; 0x760663ddb2143f70; 0x7e70345387e3de0e; 0xa3f510e9d07b1656;
  0x4840aa745e43e508; 0x6c60ff4e7183760c; 0x4036fdfa6bb40476; 0x82905cf54ae6a112;
  0x0eb1f80b5220d9bf; 0x6416a8c044749772; 0x8b98d81a31d6f513; 0x3a7d03ee17cd4b47;
  0xf66a5aea64bf379c; 0x46f1527f0c633cb7; 0xf0adf56f03680f5d; 0x35b228840b2a2787;
  0xbda8463de876ce15; 0xe0415bb069450ea1; 0xac3a3b83cc9c7a96; 0xa28bc3889ebca329;
  0x908097e8bc860910; 0x255e865b6107267b; 0xc05ac4cdbd1f0c9a; 0x30f731a2be7703c7;
  0x67941e6396fe8bf3; 0x9302214b6e0c1591; 0x3e46c9a9ec57da78; 0x91fe4489f241bc6f;
  0xff62de051f8f639d; 0xe47a91f792df9f9e; 0x6bd983aa5893fbb2; 0x70c1cc58d5c307b1;
  0x6153b1e6f129b332; 0x5b2eb208e6e4f875; 0xd1c8b97399f5b819; 0x162b015a0dfa393d;
  0x0bf4e12de77dfdff; 0x5e6bab2e53b9dc35; 0x50da53250199058a; 0x0876578e35f7e17e;
  0x83ee8f940421146d; 0xb1e5dbf4261bbe54; 0x39ffb54dc54757c6; 0x0a8a324ca9ba4880;
  0x14d7649891b790c3; 0x1ca13316a44071bd; 0x65687ba10ab3220d; 0xaafd9406ab4b4257;
  0xe8370c3e5cb2efdf; 0x51a480444f5eb0f5; 0xc7e3b829940f8124; 0xa801f1c43706eba9;
  0x0d334ea880aac53e; 0xa109752b4c36bfa8; 0x1e5d56d4380dd843; 0x4e8705f13994ddc9;
  0xa077a64a02f10ad7; 0x374e4d4697678e79; 0xa97f22a579c15ed6; 0x4abccfb6c20e4cf6;
  0x1a669c93c397497c; 0xf1d3260e4dafba22; 0x3881662c8b80e2b9; 0x1b184ff28d50fc03;
  0xec0cc679a7287ee0; 0x7778b0bcfcd38a0f; 0x806c3937d6ab08ec; 0xe13f88d12782bbde;
  0x2c5602b41a37727a; 0xbe2af09e3afcd294; 0x79c948b7aef353b0; 0x15a9b7f9df7025bc;
  0xf32f43ccd1e213dc; 0xa44c6c0df96b9be8; 0xab834767e58cf728; 0x95c58ece09db2d50;
  0x7b352d7532befa4e; 0x685b35098a19e733; 0x5a506169a8234d0a; 0x5f15784f1d7e694a;
  0xd671c597b0e535a7; 0xa532bf6cb7ac2e97; 0xe686f4350e923660; 0x6d1e2c2f3f44c373;
  0xeef0a3bb3b65d71e; 0x0000000000000000; 0xf4963f28f8f29e62; 0x21654c1c9a9db744;
  0xcad0f68114a5441a; 0x3189e2c3f0b0b6b8; 0x3b03d08f590afe38; 0x189af9515fdae082;
  0xc2a6a10f2152a564; 0xed721518e9efcb9f; 0xd5f37334626f2926; 0x0c4d9dc9ce6d7041;
  0x8c21a4fe18c678ad; 0x286dc8f3e1ade345; 0x337587016cfd1f46; 0x881a6eb9e35ce992;
  0xdcfbf7db195f7d27; 0xebb5ba9d8e38f35e; 0xb8ed5f1b5d2bea55; 0x94bb5daf471c982f;
  0x66eacd02d8393e8c; 0xf25190ad9f25a6a3; 0xc4610e8a46859da5; 0x136e187cb8a71d7d;
  0xa7cedaae2be18769; 0xb2676d57f491a2d5; 0xb722747141cc8695; 0x201b9f7dd45a023b;
  0x3f381ac8a2906f07; 0xdd8524ba5798c858; 0x62d1074523a3afb3; 0x05451926b55d2440;
  0x3cbaac6b701a7386; 0x8529201163f62cac; 0xf5e8ec49b6352b1d; 0x43b44b59b93e18f7;
  0x73437afb07491b30; 0x4c7b6033a5d97437; 0xb5de11b3dd812f6b; 0xc82c934388e8ede4;
  0x42ca9838f7f9ad88; 0xde0792198512d4d9; 0xd334dcb105b811e7; 0x4bc21cd78cc9f989;
  0xe5044296dc182ae1; 0xc3d8726e6f95101b; 0x11927dbe24eab483; 0x440d37bd902e9549;
  0x6925e668c4de524c; 0x043bca47fb9a913f; 0x34ccfbe545ed92f8; 0x02fc65c29c4da9fe;
  0x6fe249eda3096a8d; 0x8eddc13c848bd153; 0xb319be36ba5617aa; 0x9a0aa5a4153c4190;
  0x559f4a03b4c421ca; 0xd70f16f6fe2280d8; 0x27a2e399fd4a8f85; 0xef8e70da75a26261;
  0xe3c3ed13bbcf1220; 0x7f0ee732c9246b71; 0xd9beeefdac025967; 0xcd698a653db5c9a4;
  0x86ab96b2b17c302d; 0xb09b089568dc0b2b; 0x41482e9b2573b109; 0xc69d6b48dac8345b;
  0x5c97ceeccff475cb; 0xc9524022c62f589b; 0xceeb3cc6ef3fd525; 0x9f4fbc82a06165d0;
  0x07b97ce429108dbe; 0xc12417acf3d8b9e5; 0x8ae60b7b7f11406c; 0x87d545d3ffbb8552;
  0xd48da0552ca89c59; 0xdf794178cbd561a6; 0x522636e79dd4ac74; 0x8d5f779f5601cdd2;
  0xda3c585e7e8845e6; 0x58ac04ab346ee4f4; 0x5de91d8d8133c0b4; 0x0fcf2b6a1ce76cc0;
  0x9647386ddb5131d1; 0xd0b66a12d7320d66; 0x9e316fe3eea6d0af; 0x1ddfe077ea87c4c2;
  0x320b5460223aaa39; 0x561dfca0664e3d4b; 0xfd9ebbc783c2ca63; 0x4ff9d690775368b6].

Definition precomputedLSTableRight_9 : list Z := [
  0xc0016b3dc4a383b4; 0x17a08059d2de39aa; 0xb247ed286d2215ce; 0x635d9a2fd454a59d;
  0x65e6064c7b5fafd0; 0x6fe861e94942b107; 0x7d4f330382738727; 0xa43257806ca02f98;
  0x076ea6927c5709b1; 0x37ffcc0c4d0f599c; 0x6b3a89ab83f1bd71; 0x75282087d5d69fcb;
  0xaaeed867940e3d39; 0x5babe335b2a9ed5c; 0x7393bce47add9586; 0xc506b98edd4c8c3e;
  0xd0cf4df66a2ab3af; 0xea5040cd696ffd55; 0x55776cd24a07fffd; 0x197c0fbe2a702b0b;
  0xc3bd25ed72478673; 0x53ccf0b1e50cf5b0; 0xfdf0c094bbb1c4ff; 0x571e18f32fbff9c6;
  0xc86678b993069b58; 0xba20feac3a870d22; 0x392343ebb5a14b3d; 0x3b4a37cad0194d06;
  0x7c9a09f2512f84db; 0xbd4e583e46d00493; 0x12a752eacb313620; 0x28385fd1c87478da;
  0xdfc6f8e041d8a2f2; 0xe9ec0e1ddf8bf892; 0x3df1aba97f12474b; 0x0d60c1374e4a1766;
  0x82d687b65c7a45e3; 0xa65b23a1091829a3; 0x7bf4af602d788d6a; 0x72468615a981967a;
  0x141cce89643a3c6d; 0x9a7fb2f9a5566d14; 0x846d1bd5f3714fae; 0xe48ccf2a91c1eff4;
  0x2a512bf0adcc7ee1; 0x6c542f39ffa6b4c0; 0x3596b82d28b75fa7; 0x1daee7fce0c3277d;
  0x1fc793dd857b2146; 0x0bdb5d54e1411d2b; 0xd8a85e723d8fab43; 0x2b8411017e907d1d;
  0xee82a88fa3dcf123; 0x1c7bdd0d339f2481; 0x59c29714d711eb67; 0x665a489ccdbbaa17;
  0xab3be29647523ec5; 0x5219ca403650f64c; 0xa35cf11210f72629; 0x91a4efad4417703f;
  0x0cb5fbc69d16149a; 0x38f6791a66fd48c1; 0xff99b4b5de09c2c4; 0x2e83c3b2677f7297;
  0x0867138457a518ec; 0x6288a0de0708a661; 0x8b64aec3d8835ef3; 0x5f790b77781ae12a;
  0x64333cbda803ac2c; 0xa289cbe3c3ab25d5; 0xdac12a535837ad78; 0x344382dcfbeb5c5b;
  0x8ddf32a0778854be; 0x205f4c559fd16036; 0xc4d3837f0e108fc2; 0xbef216eef0340154;
  0xac5544043b053774; 0x2f56f943b423716b; 0x09b2297584f91b10; 0xd11a7707b976b053;
  0x76946e5763329a0c; 0x2d3f8d62d19b7750; 0x4dde599db32bd70a; 0x9816c6d8c0ee6b2f;
  0xe6e5bb0bf479e9cf; 0x957607ef8ea47c49; 0x86046ff496c94995; 0xd7a1eb64167dba1e;
  0x48d98b2eaac4d880; 0xf597d310ec14dc13; 0xbbf5c45de9db0ede; 0xfb4b5cf714baceb2;
  0xe23753493ecae5b9; 0xae3c30255ebd314f; 0xca0f0c98f6be9d63; 0xbf272c1f236802a8;
  0x10ce26cbae89301b; 0x0a0e67a5321d1ed7; 0xdc7ab630f73ca735; 0x94a33d1e5df87fb5;
  0x0f09b5162bf2115d; 0x7f264722e7cb811c; 0x490cb1df7998db7c; 0x8303bd478f26461f;
  0xe18b1d99882ee07e; 0x1b157b9f4fc82d30; 0xcbda366925e29e9f; 0x03bc4ed0b6e405c7;
  0x8e637c70c16c5179; 0x3a9f0d3b03454efa; 0xb1fba3f8dbc61009; 0x0507d2b319ef0f8a;
  0xc9b34248405a98a4; 0x32f81ebf54e05616; 0x85b82124202d4c52; 0xe83934ec0cd7fb6e;
  0x74fd1a76068a9c37; 0x0edc8fe7f8ae12a1; 0x460504c9526aca21; 0x60e1d4ff62b0a05a;
  0xdb1410a28b6bae84; 0x40be98aafd61c06c; 0xef57927e7080f2df; 0x7848e1b09b9c88ad;
  0xf09001a3f5fbd399; 0x9071d55c974b73c3; 0xf92228d67102c889; 0xf442e9e13f48dfef;
  0x6aefb35a50adbe8d; 0x4ab0ff0fcf7cdebb; 0x6d8115c82cfab73c; 0xecebdcaec664f718;
  0x5cc545a7cefee4ed; 0x80bff39739c243d8; 0x88d8e0136e675b34; 0xcedde4da3c0d9115;
  0x8c0a0851a4d45742; 0xa78e1950da442a5f; 0xe05e27685b72e382; 0xfe4c8e440d55c138;
  0xb8498a8d5f3f0b19; 0xc6baf75e6ba889f9; 0xe3e269b8ed96e645; 0xb4fc714bc2291f83;
  0x5a7ed9c461f5eea0; 0x218a76a44c8d63ca; 0xcf08de2bef5192e9; 0x06bb9c63af0b0a4d;
  0x1372681b186d35dc; 0x04d2e842cab30c76; 0x6953fd8ae649bb4a; 0xfc25fa6568edc703;
  0xde13c2119284a10e; 0xbc9b62cf958c076f; 0xf8f71227a25ecb75; 0x332d244e87bc55ea;
  0x71fac8c51f6593bd; 0xa5e76d71bffc2c64; 0x3e4de579c9f6428c; 0x0269742165b8063b;
  0xa1358533754f2012; 0xb02e9909089a13f5; 0x22363874fa69660d; 0x99c3fc2913b268d3;
  0x42d7ec8b98d9c657; 0x0000000000000000; 0xfa9e6606c7e6cd4e; 0x4fb72dbcd693d131;
  0x3144506fe20453d1; 0x8fb6468112305285; 0xf7fea73189acda28; 0xa0e0bfc2a61323ee;
  0x51a5849080b4f38b; 0x56cb2202fce3fa3a; 0xb5294bba11751c7f; 0x5070be6153e8f077;
  0x9f78604abcb9629e; 0x23e30285293565f1; 0x971f73ceeb1c7a72; 0xafe90ad48de132b3;
  0xd97d6483eed3a8bf; 0x7ef37dd3349782e0; 0x2ceab79302c774ac; 0x3f98df881aaa4170;
  0xed3ee65f1538f4e4; 0xd2a639d70f92b594; 0x799ddb4148c08b51; 0xd41da5b4a099bfd9;
  0xa887ac46f1b63b02; 0x54a25623995bfc01; 0x6886c77b3515b8b6; 0x4302d67a4b85c5ab;
  0xc76fcdafb8f48a05; 0xd5c89f4573c5bc25; 0xddaf8cc12460a4c9; 0x3c249158ac4e44b7;
  0xd3730326dcceb668; 0xf32c4f73431fd65e; 0xf62b9dc05af0d9d4; 0x9218a17df2f375f8;
  0x111b1c3a7dd533e7; 0xd674d195c521b9e2; 0x702ff234cc399041; 0x29ed65201b287b26;
  0x9ead5abb6fe56162; 0xc1d451cc17ff8048; 0x9d11146bd90164a5; 0xf2f975829043d5a2;
  0x362af6fd9e535a60; 0x5d107f561da2e711; 0xccb490fb59b5972e; 0xb695056aa79119b8;
  0xa95296b722ea38fe; 0x30916a9e3158502d; 0xb392d7d9be7e1632; 0x18a9354ff92c28f7;
  0x816ac966ea9e4024; 0x87d1550545954a69; 0x5817ade5044de89b; 0x774154a6b06e99f0;
  0x7a219591fe248e96; 0xad807ef5e8593488; 0x678f726d1ee7a9eb; 0x4e62174d05cfd2cd;
  0x1e12a92c562722ba; 0x416ba25b2e3dc390; 0xe559f5db429dec08; 0x15c9f478b7663f91;
  0xe73081fa2725ea33; 0x4c0b636c6077d4f6; 0x8ab194320bdf5d0f; 0x6134ee0eb1eca3a6;
  0x1675baa801823a56; 0x25589ee6863e6fbc; 0x01d53af1d35c03fc; 0x4b65c5fe1c20dd47;
  0x248da41755626c40; 0x45b94a19e48ecfe6; 0xb7403f9b74cd1a44; 0xeb857a3cba33fea9;
  0xb99cb07c8c6308e5; 0xcd61aa0a8ae994d2; 0x5eac3186ab46e2d6; 0x93cd9b8c21af7604;
  0xf1453b5226a7d065; 0x26e4d03630da6a7b; 0x1ac0416e9c942ecc; 0x446c70e837d2cc1a;
  0x2731eac7e3866987; 0x890ddae2bd3b58c8; 0x47d03e388136c9dd; 0x9cc42e9a0a5d6759;
  0x9baa8808760a6ee8; 0x6e3d5b189a1eb2fb; 0x96ca493f3840798e; 0xc2681f1ca11b858f].

Definition precomputedLSTableRight_10 : list Z := [
  0xe15da9182cd1be8f; 0x50b314db6b2560b5; 0xc271d187950f3db7; 0xcfff4334eba78abf;
  0x739f6c44d2fbe38d; 0x743f1dd4991f58db; 0xc6dcd04736488445; 0x19d297f51430afb4;
  0x37707dd9d3469b84; 0x9ef6c6dfd8e355d7; 0x1d7f9635b7771646; 0x145c05466a9818bc;
  0x77326d8471bc5a7f; 0xb4f92d33bcd2d815; 0xa83c2a3653c4718e; 0x030d7050e8a302a4;
  0x869ec01a94b245be; 0x28b80a8cd4f330bb; 0xda19d742d95e2dde; 0x3e53eeaa0ea9957e;
  0xbf6d5f20d1ff6b96; 0x6679f832e00244ec; 0x780b1e57bfd6500e; 0x0f3973d3ce6a0a71;
  0x33dd7c1970012276; 0x10f10486c9dfa14e; 0xf0163caebd6fa01c; 0x2536983faa5b87b3;
  0x4dcc82eedc5276f3; 0x2781795f1a993aca; 0xb2e3cd93af57dc9e; 0x1cc50705ef16a99b;
  0x636e68c21b2442c3; 0x7688fcb429dde5a2; 0x9956b74f9307ee81; 0x30d00c4998a220d2;
  0x6bf76a819eaaf3e4; 0xccf233640304881b; 0x7abcff370f14ed77; 0x232c789fb9de8338;
  0x0e83e2e3960bb5ac; 0xdeb4d6827a19942c; 0xd79745f1a7f69ad6; 0x4658f0fdb17fc570;
  0xc9e5a394f8228e34; 0x2a0febec64318dc2; 0x4bd6624ecfd77278; 0x5713654b20c1dbe3;
  0x8233c1da37f5fc4c; 0x8cb02339a1fe49e0; 0x541e151bc862d947; 0x42f5f13d12387c82;
  0x41f8816dfa9b7e26; 0xdc0337e2cadb2955; 0x61d989a2abe6ffba; 0x2daf9a7c2fd53694;
  0xfc223f2d9ba6a8c9; 0xed69aa9b0a18b65a; 0x2ea2ea2cc7763430; 0x5204f5bbdbe7ddcc;
  0xbbc05ee072b8d264; 0x7b066e07577552aa; 0xad2bbac6a8e277a1; 0xa0a52875d64ac0a9;
  0xd280d5015cd09cf9; 0x44ef119d01bd7809; 0x3267ed2928609dab; 0xddb9a6d292ba9688;
  0xf88f3eed38e1113b; 0xa5b2b8852d6cc686; 0x813eb18adf56fee8; 0xc0c630e725cd80ce;
  0x8e07c259113cf499; 0xce45d204b3c63562; 0x881d22f902b9f012; 0x79b18f67e7b7efd3;
  0xcb5242f448e0334d; 0x2bb57adc3c50321f; 0x599087a8b6ca6e4f; 0x0d8e92b37ea8b708;
  0x4a6cf37e97b6cda5; 0xfe95de4d2b6415b0; 0x6f5a6b413ded4a16; 0x0b9472136d2db383;
  0x9378546ca64be2df; 0x3b447e5af58f9351; 0x02b7e160b0c2bd79; 0xb1eebdc347f4de3a;
  0x8d0ab209f99ff63d; 0xaa8bcb56e306ccf7; 0x9be1562f23c553f8; 0xc46b3127868a393c;
  0xfa38df8d8823ac42; 0x1e72e6655fd414e2; 0xe6fdd888673505d9; 0xf2a1ddce0dad1d65;
  0x67c36902b863fb31; 0x07a071904be4bb56; 0x3d5e9efae60a97da; 0xb0542cf31f9561e7;
  0xe5f0a8d88f96077d; 0x13fc74d6217ca3ea; 0x061ae0a01385048b; 0xe0e7382874b00152;
  0xa40829b5750d795b; 0xeb734a3b199db2d1; 0x6ded8a218d2ff76f; 0x5e30f638fd2ed519;
  0xd0373461ec122180; 0xae26ca9640417505; 0x9c4127bf6821e8ae; 0xe250d948c472bc2b;
  0xb8cd2eb09a1bd0c0; 0x7ca61f971c91e9fc; 0x5c8717584dec6860; 0xfd98ae1dc3c71714;
  0x9f4c57ef8082ea0a; 0x6ee0fa71658cf5cb; 0xe3ea48789c1303f6; 0x91cfb50c16895fa6;
  0x0a2ee323354c0c5e; 0x5f8a6708a54f6ac4; 0xcae8d3c410818c90; 0x248c090ff23a386e;
  0x48db121e277470dc; 0xd914a71231fd2f7a; 0x114b95b691be1e93; 0x219b99ff091c3e41;
  0x966fc49c5d6de4f0; 0x582a1698eeabd192; 0xa11fb9458e2b7f74; 0x94d825fcedaf5989;
  0x838950ea6f944391; 0xbed7ce10899ed44b; 0x6c571b11d54e48b2; 0x8fbd5369495d4b44;
  0x051790f0fb26062f; 0x47e261cde91e7aad; 0x2f187b1c9f178bed; 0x263be86f42f88517;
  0xc5d1a017deeb86e1; 0x5d3d8668158dd7bd; 0x71288d2462395ef4; 0x7e11fef7ac535485;
  0x3fe97f9a56c82aa3; 0x455580ad59dcc7d4; 0x04ad01c0a347b9f2; 0xbc602f70395c6932;
  0x39f39f3a454d2e28; 0x69408be12e684e9d; 0xc85f32a4a04331e9; 0xf31b4cfe55cca2b8;
  0xe87e3a6bf13eb075; 0xac912bf6f083c87c; 0x9a5bc71f7ba4ec25; 0xf7b64d3ef68b1b4a;
  0x7d1c8ea744f05621; 0x92c2c55cfe2a5d02; 0xc76641776e293b98; 0xd520a491173427af;
  0xfb824ebdd042139f; 0x17517516823b1a18; 0x1b657695a4f212cd; 0x808420ba87374135;
  0x8aaac399b27b4d6b; 0x0000000000000000; 0x4f7b638e6c90cb8a; 0xba7acfd02ad96db9;
  0x2296e9afe1bf3ce5; 0x5b2766c80608d336; 0x7fab6fc7f432eb58; 0x70921c143a58e129;
  0xb3595ca3f7366343; 0x8429217a2470f8c7; 0xf501ac5e4649a633; 0x38490e0a1d2c91f5;
  0x3ce40fcabe6b2807; 0x9075243c4ee8e07b; 0xee64dacbe2bbb4fe; 0x9562b4ccb5cee654;
  0xdf0e47b222782bf1; 0x98ec267fcb66515c; 0x75858ce4c17ee706; 0x4c7613de8433c92e;
  0x1fc8775507b5ab3f; 0x53be648b83866211; 0xaf9c5ba61820cad8; 0xefde4bfbbada0b23;
  0xa212c91566887dd0; 0x510985eb3344df68; 0x434f600d4a59c35f; 0x01ba91305861bfdd;
  0xd62dd4c1ff97250b; 0x64ce195250c0f995; 0xb64ecc530c10656c; 0x1246e5e6791d1c37;
  0xd8ae3622699c90a7; 0x16ebe426da5aa5c5; 0xf4bb3d6e1e2819ee; 0x0c34038326c908d5;
  0xecd33bab52790987; 0x3afeef6aadee2c8c; 0xf60cdc0eaeeaa497; 0x97d555ac050c5b2d;
  0xb7f45d635471dab1; 0x6a4dfbb1c6cb4c39; 0xe9c4ab5ba95f0fa8; 0x9dfbb68f30405773;
  0x15e6947632f9a761; 0x08990243858eb127; 0x5a9df7f85e696ceb; 0xab315a66bb67732a;
  0x29029bbc8c928f66; 0xa986bb060ba5ce53; 0x4961832e7f15cf01; 0xb543bc03e4b367c8;
  0x35c79cb9638426fd; 0x89a7b3c95ad84fcf; 0xeac9db0b41fc0d0c; 0xc17ca1d77dac3f13;
  0xf1acad9ee50e1fc1; 0x4042105da2fac1fb; 0xa6bfc8d5c5cfc422; 0x316a9d79c0c39f0f;
  0x09239373ddef0efa; 0xd49a35a14f559872; 0xcd48a2545b6537c6; 0x8593b04a7c11471a;
  0x186806c54c511069; 0xe44a39e8d7f7b8a0; 0xb977bf80c27a6f1d; 0x1adfe7a5fc93ad10;
  0xdba34672813f9203; 0x2c150b4c77b48949; 0x8b1052a9ea1af2b6; 0xd33a443104b12324;
  0xa70559e59dae7bff; 0xbddabe40613dd6ef; 0x202108cf517d819c; 0xa3a858253ee9c20d;
  0x4ec1f2be34f17457; 0xd18da551b4739e5d; 0x56a9f47b78a0643e; 0x8724512accd3fa63;
  0xc3cb40b7cd6e826a; 0x7225fd748a9a5c50; 0x60631892f3874067; 0x36caece98b272459;
  0xf935afdd6080aee6; 0xe74749b83f54ba04; 0x68fa1ad17609f140; 0x62d4f9f24345fd1e;
  0x55a4842b9003669a; 0xff2f4f7d7305aa6d; 0x6574886208a14648; 0x347d0d893be59920].

Definition precomputedLSTableRight_11 : list Z := [
  0xfc5e383f3f68531b; 0xee903cdadaa3bcf8; 0xddb8b0a6a6245d4e; 0x1118c595957d5fd3;
  0xcf76b44343efb2ad; 0x6ec427fafa9a462f; 0x310db39d9de28096; 0x16847ae4e4012da3;
  0xfbc2874e4e14216b; 0xc4348931310e451d; 0xfa3179dfdfc7f07b; 0xda240fd7d7582f3e;
  0x23c3b77878296f75; 0xc5c777a0a0dd940d; 0x044a7e0101cac240; 0x4d07908282b3295a;
  0xe90c83ababdfce88; 0x77481e6d6db05e7c; 0xf080ba3c3cf5d6db; 0xdbd7f146468bfe2e;
  0x9369e1545421c424; 0x2eeecbeaea673ba5; 0x99d822b7b713e284; 0xba1b95cfcf3a8df1;
  0x1777847575d2fcb3; 0x36910cecec9ef2e6; 0xf17344adad2607cb; 0xbbe86b5e5ee95ce1;
  0x14a1450505644c83; 0xcd538ba2a28ad38d; 0x5fc994676778c6b9; 0xc18d09a1a117564d;
  0xf9e7b8afaf71404b; 0x187fc70606f9c943; 0x65861a88887bb19f; 0x5a7014f7f761d5e9;
  0xe24ebed9d93e3938; 0x5c1f551717ce7689; 0xef63c24b4b706de8; 0x21e68899994c0e55;
  0x81a7e5b1b1ea2bc7; 0x1c35b90707330b03; 0x3c20cf0f0facd446; 0x420fd3f1f1981caa;
  0x8b16265252d80d67; 0x01f3fe9191d3d110; 0x8eafa6c2c2c11e37; 0x4f22af6363d6487a;
  0x05b9809090191350; 0x841e652121f33897; 0x02253fe1e1656120; 0xaebad0caca5ec172;
  0xe3bd404848ede828; 0x6a8e59fbfb50846f; 0x8f5c58535312cf27; 0xa0416d2828a62592;
  0x066f41e0e0afa360; 0x0b423d7272e1f7b0; 0xed46fdaaaa150cc8; 0x982bdc2626c03394;
  0x7fdce26f6fe719fc; 0xd4dfb23535a0cbde; 0xd3430d4444dcb9ae; 0x1fe378777785bb33;
  0xeb29bc4a4abaafa8; 0x34b4330d0dfb93c6; 0x2ccbf40b0b025a85; 0x5132298585802259;
  0xeada42dbdb697eb8; 0xc8ea0b323293c0dd; 0x48be101212aa3a0a; 0xab03505a5a47d222;
  0xf2a585dddd90b7fb; 0x2aa4b5ebebadf9e5; 0x68ab661a1a35e54f; 0xa26452c9c9c344b2;
  0xfdadc6aeaebb820b; 0x3a4f8eefef037726; 0xce854ad2d23c63bd; 0xcca075333359029d;
  0xb513d6bcbc11b801; 0x70d4a11c1ccc2c0c; 0x0efbbde2e2f8e4e0; 0x56ae96f4f4fc5029;
  0x0894fc0202574780; 0x0cde8203039d85c0; 0x76bbe0fcfc638f6c; 0x12ce04e5e5cbefe3;
  0xbfa2155f5f239ea1; 0x72f19efdfda94d2c; 0x133dfa7474183ef3; 0x47b6536161810ffa;
  0x9c61a227270af1d4; 0xb736e95d5d74d921; 0x5decab86861da799; 0x87c8a451514588a7;
  0x1552bb9494b79d93; 0xa1b293b9b975f482; 0x96d061c4c438d774; 0x2972749b9b1b49d5;
  0x10eb3b0404ae8ec3; 0x7b969c6e6e2ddbbc; 0x9a0ee3c7c7a552b4; 0xc7e2484141b8f52d;
  0xf3567b4c4c4366eb; 0x914cdeb5b544a504; 0x78405d1e1e9b6b8c; 0x6f37d96b6b49973f;
  0x9d925cb6b6d920c4; 0x9e449dc6c66f90f4; 0xb28f69cdcd6dca71; 0xb159a8bdbddb7a41;
  0x32db72eded5430a6; 0x756d218c8cd53f5c; 0x198c3997972a1853; 0x3dd3319e9e7f0556;
  0xff88f94f4fdee32b; 0x3547cd9c9c2842d6; 0x8ae5d8c3c30bdc77; 0x7e2f1cfefe34c8ec;
  0x6d12e68a8a2cf61f; 0x548ba91515993109; 0xc611b6d0d06b243d; 0x80541b202039fad7;
  0xc3a836404072376d; 0xbd872abebe46ff81; 0x0d2d7c92924e54d0; 0x575d6865652f8139;
  0xdf9d8f4747413c6e; 0xf5393aacacecc58b; 0x245f080909551d05; 0xa9266fbbbb22b302;
  0x3e05f0eeeec9b566; 0xa8d5912a2af16212; 0x43fc2d60604bcdba; 0xc919f5a3a34011cd;
  0xd709734545167bee; 0x79b3a38f8f48ba9c; 0xd6fa8dd4d4c5aafe; 0xf6effbdcdc5a75bb;
  0x7c0a231f1f51a9cc; 0x223049e9e9fabe65; 0xb9cd54bfbf8c3dc1; 0x03d6c17070b6b030;
  0xe06b8138385b5818; 0x0f084373732b35f0; 0xecb5033b3bc6ddd8; 0xde6e71d6d692ed7e;
  0x7a6562fffffe0aac; 0x94f55e25255db654; 0xb0aa562c2c08ab51; 0xbc74d42f2f952e91;
  0xdc4b4e3737f78c5e; 0xe8ff7d3a3a0c1f98; 0x28818a0a0ac898c5; 0x50c1d7141453f349;
  0x4ed151f2f205996a; 0x33288c7c7c87e1b6; 0x0ab1c3e3e33226a0; 0x4a9b2ff3f3cf5b2a;
  0xa7ddd25959da57e2; 0x97239f5555eb0664; 0x603f9a181862a2cf; 0x7302606c6c7a9c3c;
  0x1e1086e6e6566a23; 0x0000000000000000; 0x621aa5f9f907c3ef; 0x446092111137bfca;
  0x1a5af8e7e79ca863; 0xb83eaa2e2e5fecd1; 0x386ab10e0e661606; 0x827124c1c15c9bf7;
  0x6475e41919a8608f; 0x9fb7635757bc41e4; 0x267a37e8e8307c25; 0x41d91281812eac9a;
  0xad6c11babae87142; 0x45936c8080e46eda; 0x4645adf0f052deea; 0x929a1fc5c5f21534;
  0x2789c97979e3ad35; 0x5e3a6af6f6ab17a9; 0x55785784844ae019; 0x2f1d357b7bb4eab5;
  0x8c8a992323a47f17; 0xa397ac58581095a2; 0xa5f8edb8b8bf36c2; 0x7df9dd8e8e8278dc;
  0x6958988b8be6345f; 0xd52c4ca4a4731ace; 0x9506a0b4b48e6744; 0x3bbc707e7ed0a636;
  0x079cbf71717c7270; 0x58552b161604b4c9; 0xb37c975c5cbe1b61; 0x402aec1010fd7d8a;
  0x863b5ac0c09659b7; 0xac9fef2b2b3ba052; 0x1dc6479696e0da13; 0xf71c054d4d89a4ab;
  0x30fe4d0c0c315186; 0x3762f27d7d4d23f6; 0x6b7da76a6a83557f; 0xe421ff3939919a58;
  0x88c0e722226ebd57; 0xd9f2cea7a7ee9f0e; 0xe7f73e4949272a68; 0x893319b3b3bd6c47;
  0xe1987fa9a9888908; 0x1ba90676764f7973; 0x8382da50508f4ae7; 0x494dee838379eb1a;
  0x4cf46e131360f84a; 0x3ff60e7f7f1a6476; 0xf814463e3ea2915b; 0xfe7b07dede0d323b;
  0x8d7967b2b277ae07; 0x5317166464e54379; 0xaaf0aecbcb940332; 0x90bf202424977414;
  0xcacf34d3d3f6a1fd; 0xd8013036363d4e1e; 0x85ed9bb0b020e987; 0x61cc648989b173df;
  0x20157608089fdf45; 0x71275f8d8d1ffd1c; 0x67a32569691ed0bf; 0xa40b1329296ce7d2;
  0x2d380a9a9ad18b95; 0x2b574b7a7a7e28f5; 0x0967029393849690; 0x5b83ea6666b204f9;
  0xcb3cca42422570ed; 0x9bfd1d56567683a4; 0x25acf6989886cc15; 0xd095cc34346a099e;
  0xbe51ebcecef04fb1; 0xe5d201a8a8424b48; 0x6ce1181b1bff270f; 0x52e4e8f5f5369269;
  0x59a6d58787d765d9; 0xa62e2cc8c80986f2; 0x749edf1d1d06ee4c; 0xd2b0f3d5d50f68be;
  0xe604c0d8d8f4fb78; 0xf4cac43d3d3f149b; 0xb4e0282d2dc26911; 0xc07ef73030c4875d;
  0xd16632a5a5b9d88e; 0x6650dbf8f8cd01af; 0xaf492e5b5b8d1062; 0xc25bc8d1d1a1e67d;
  0x39994f9f9fb5c716; 0x4b68d162621c8a3a; 0x63e95b6868d412ff; 0xb6c517cccca70831].

Definition precomputedLSTableRight_12 : list Z := [
  0x5a2ff91c4cf21a52; 0x55488b1e81e1581c; 0x675c4558ccf1091a; 0xaf0cfb833bb18e02;
  0x683b375a01e24b54; 0xe262a0f24f17c7ae; 0xf2e781b8e96dd9cf; 0x4c42ec3d46e9911f;
  0xb961eea231aa054f; 0x4e1a41a52277e2ba; 0xd9f928dd637541ca; 0x841252e6b1a91607;
  0xfd80f3ba247e9b81; 0x2e8287da70a8a63f; 0x43259e3f8bfad351; 0x1fe253486b695c2f;
  0xb6069ca0fcb94701; 0xcb24a40fa1912c0e; 0x9f40985d123faca1; 0xe48a9499e3765282;
  0xd8d59f91513a9979; 0x58775484286c69f7; 0x9e6c2f1120707412; 0x63ecdcab040eef93;
  0x2cda2a421436d59a; 0x11a996069435c6d2; 0xffd85e2240e0e824; 0x03741ad456d1ab16;
  0x8cb1a3c3e29419d6; 0xa8c878a4a59fc39d; 0x1085214aa67a1e61; 0x6da719e5fb52756e;
  0x7992a15c95d78d86; 0x49dec282bc59af25; 0xc443d60d6c826e40; 0x3338790a7f5f89b5;
  0x9027ea5fdf2ceeef; 0xb0eea8cb50d8d22d; 0x35d04d61d33e1c99; 0x3d73bc4480031348;
  0xd7b2ed939c29db37; 0x0afb5cbd37a37c74; 0x57102686e57f2bb9; 0x7ae6bb88c3062690;
  0x910b5d13ed63365c; 0x6098c67f52df4485; 0xb2b605533446a188; 0xdf111cb6cf14d4e6;
  0x23bd5840d92597d4; 0xf40fb5d3450c4ce3; 0xc0f34ffea47d88c9; 0xef5d7f68e69af645;
  0xf0bf2c208df3aa6a; 0xa1473ecdc4ed14ff; 0xd22ec32c6699e50d; 0xeac151d71c2ac87f;
  0x83d6d1c12f875b98; 0x262176ff2395a9ee; 0xf523029f77439450; 0xfef4e96e72af3097;
  0x4d6e5b7174a649ac; 0x818e7c594b19283d; 0x62c06be736413720; 0xaa90d53cc101b038;
  0x76f5d35e58c4cfc8; 0xd15ad9f830484e1b; 0x98841b7a8c11e13e; 0x15190ff55cca205b;
  0x166d15210a1b8b4d; 0x8b7520e47cba5449; 0x3c5f0b08b24ccbfb; 0xcce027283fbf6191;
  0x5fb3d7a3b6422468; 0x1b52cabba396baa6; 0x61b4713360909c36; 0x2a321e29b85740b6;
  0x3ab73f631e2d5ed7; 0xd4c6f747caf87021; 0x08a3f125533d0fd1; 0xc850bedbf7408718;
  0x06e8346bac61952c; 0x286ab3b1dcc93313; 0x059c2ebffab03e3a; 0xf657184b21923f46;
  0x864aff7ed53765a2; 0xc56f61415ecdb6f3; 0xabbc6270f34e688b; 0x0f677202cd13424e;
  0x405184ebdd2b7847; 0xe899fc4f78b4bbda; 0x6fffb47d9fcc06cb; 0x595be3c81a23b144;
  0xbdd17751f955e3c6; 0xc61b7b95081c1de5; 0xd0766eb4020796a8; 0x54643c52b3ae80af;
  0xec2965bcb04b5d53; 0x8a5997a84ef58cfa; 0xfb68c7d1881f0ead; 0xbb39433a553476ea;
  0xcf943dfc696eca87; 0x0e4bc54eff5c9afd; 0x3e07a690d6d2b85e; 0xee71c824d4d52ef6;
  0x3f2b11dce49d60ed; 0x1826d06ff54711b0; 0xae204ccf09fe56b1; 0x82fa668d1dc8832b;
  0xdd49b12eab8aa743; 0x7d2238af5d286b0f; 0xe5a623d5d1398a31; 0x45cdaa54279b467d;
  0x528c08391fcf1583; 0x0bd7ebf105eca4c7; 0x294604fdee86eba0; 0x3788e0f9b7a06f3c;
  0xfa44709dba50d61e; 0xb1c21f8762970a9e; 0xf1939b6cbfbc72d9; 0x2df69d0e26790d29;
  0x42092973b9b50be2; 0x36a457b585efb78f; 0x8ee90e5b860a6a73; 0xb72a2beccef69fb2;
  0xad54561b5f2ffda7; 0x80a2cb157956f08e; 0xa5f7a73e0c12f276; 0x96cfde34734d7bc3;
  0xa7af0aa6688c81d3; 0xbcfdc01dcb1a3b75; 0x1ecee4045926849c; 0x0c1368d69bc2e958;
  0x97e369784102a370; 0x6c8baea9c91daddd; 0x1a7e7df791d96215; 0xebede69b2e6510cc;
  0x21e5f5d8bdbbe471; 0xceb88ab05b211234; 0x417d33a7ef64a0f4; 0x1c96499c3db8f739;
  0xed05d2f0820485e0; 0x9d1835c576a1df04; 0xc387552af2ac23df; 0xa06b8981f6a2cc4c;
  0x50d4a5a17b516626; 0x6504e8c0a86f7abf; 0x95bbc4e0259cd0d5; 0xc737ccd93a53c556;
  0x6ed30331ad83de78; 0x3b9b882f2c628664; 0x25556c2b754402f8; 0xe03a0d6a2b89b40b;
  0x07c483279e2e4d9f; 0xd69e5adfae660384; 0xdba1854507eb326f; 0x7581c98a0e1564de;
  0xbf89dac99dcb9063; 0x3214ce464d105106; 0x46b9b080714aed6b; 0xfcac44f616314332;
  0x098f46696172d762; 0x9bf001aedac04a28; 0xe7fe8e4db5a7f994; 0x88013a302a6bff5f;
  0xca08134393def4bd; 0x0000000000000000; 0x270dc1b311da715d; 0xf9306a49ec817d08;
  0x892d8d7c182427ec; 0xa31f9355a073675a; 0x1435b8b96e85f8e8; 0x77d964126a8b177b;
  0xa4db10723e5d2ac5; 0x1dbafed00ff72f8a; 0xde3dabfafd5b0c55; 0xda8d320935a4eadc;
  0x4f36f6e910383a09; 0x99a8ac36be5e398d; 0x39c325b748fcf5c1; 0xb84d59ee03e5ddfc;
  0xbea56d85af8448d0; 0x701de735f4a55ae4; 0x563c91cad730f30a; 0x38ef92fb7ab32d72;
  0x72454aad903b2941; 0x4aaad856ea880433; 0xc97c0997c50f5fab; 0x8d9d148fd0dbc165;
  0x012cb74c324fd8b3; 0xe116ba2619c66cb8; 0x5b034e507ebdc2e1; 0xb45e3138982734a4;
  0xe34e17be7d581f1d; 0xf3cb36f4db22017c; 0x853ee5aa83e6ceb4; 0xba15f476677bae59;
  0x34fcfa2de171c42a; 0x2fae309642e77e8c; 0x6a639ac2657c38f1; 0x7c0e8fe36f67b3bc;
  0x927f47c7bbb29d4a; 0x71315079c6ea8257; 0xc1dff8b29632507a; 0x13f13b9ef0abb577;
  0x3160d4921bc1fa10; 0x2479db67470bda4b; 0xb39ab21f0609793b; 0x51f812ed491ebe95;
  0x304c63de298e22a3; 0xe9b54b034afb6369; 0x1741a26d385453fe; 0x5cc7cd77e0938f7e;
  0x7f7a953739b618aa; 0xf77baf0713dde7f5; 0x190a6723c708c903; 0x9adcb6e2e88f929b;
  0x12dd8cd2c2e46dc4; 0xd5ea400bf8b7a892; 0xac78e1576d602514; 0x78be1610a7985535;
  0x4b866f1ad8c7dc80; 0x44e11d1815d49ece; 0x949773ac17d30866; 0x87664832e778bd11;
  0x5deb7a3bd2dc57cd; 0x48f275ce8e167796; 0x04b099f3c8ffe689; 0xa9e4cfe897d01b2e;
  0xf81cdd05decea5bb; 0x7bca0cc4f149fe23; 0xe6d2390187e82127; 0x53a0bf752d80cd30;
  0x2b1ea9658a189805; 0x5e9f60ef840dfcdb; 0x7e56227b0bf9c019; 0xc2abe266c0e3fb6c;
  0x20c942948ff43cc2; 0x7369fde1a274f1f2; 0x2291ef0ceb6a4f67; 0xb5728674aa68ec17;
  0x9353f08b89fd45f9; 0x6917801633ad93e7; 0x6b4f2d8e5733e042; 0x0258ad98649e73a5;
  0xd302746054d63dbe; 0xdc65066299c57ff0; 0x6670f214febed1a9; 0x0d3fdf9aa98d31eb;
  0xa2332419923cbfe9; 0x64285f8c9a20a20c; 0x8fc5b917b445b2c0; 0xcdcc90640df0b922;
  0x74ad7ec63c5abc6d; 0x9c34828944ee07b7; 0x479507cc430535d8; 0xa683bdea5ac35960].

Definition precomputedLSTableRight_13 : list Z := [
  0x795880807580b736; 0x91d61a1a1d1a8933; 0x99e9dcdc3bdc079c; 0xb9154242a3427a65;
  0x7167464653463999; 0xeaf14a4a804afc5e; 0xd76c56561556f6ef; 0x952879790e79ce85;
  0x5565bbbbd8bb03d6; 0xda739b9b549b5e3a; 0xdbadf3f320f33ff6; 0xb5d4e7e796e7b37c;
  0x3fe2cccc7dccc8ea; 0x54bbd3d3acd3621a; 0x7da6e3e366e3f080; 0xd5138686fd8634b4;
  0xbdeb2121b0213dd3; 0xa96b0d0def0da5f8; 0xfe716666df666475; 0x3b1cafaf6eaf8f5c;
  0x1d6182820d827748; 0x360362622f622789; 0x38bd1717f2172ccb; 0x075fdbdb8fdbe421;
  0x1be03131f631f2a5; 0xfb516d6db86d420f; 0x70b92e2e272e5855; 0x899793937793d801;
  0x4a7be9e93de9b6c5; 0xae34d6d660d641d9; 0x3d9d1c1c951c0ab1; 0x291d3030ca30929a;
  0x8a362b2beb2b7b96; 0xcd520f0f970f6586; 0x41e5979787979bfd; 0xcef3b7b70bb7c611;
  0x16fffcfcb7fc5a70; 0x6c06c4c45ec44ed1; 0x1f1e5252e552b513; 0xe0b15c5c4e5cb0aa;
  0xf5ef18186518494d; 0xb0f4ececf1ec9506; 0xde8df8f847f8198c; 0x03a1b8b89cb8a397;
  0xd0338d8d9a8d12ce; 0x8ec84848f8483c20; 0x235d26260426de6e; 0x0a401616ce164cf4;
  0xf36eabab9eabcca0; 0x0681b3b3fbb385ed; 0xdf53909033907840; 0x4d243232b23252e4;
  0x9837b4b44fb46650; 0x9757a9a9e6a90cde; 0xad956e6efc6ee24e; 0x155e44442b44f9e7;
  0xa2f57373557388c0; 0xab14dddd07dd67a3; 0xc04dc2c2d6c2cd53; 0xb6755f5f0a5f10eb;
  0x53e408082308863b; 0xedae91910f91187f; 0xc193aaaaa2aaac9f; 0xe16f34343a34d166;
  0x62b8b1b183b14593; 0x2402fdfd8bfd3a4f; 0xe950f2f21cf25fc9; 0x65e76a6a0c6aa1b2;
  0xec70f9f97bf979b3; 0x5d5a7d7dfe7d8d79; 0x267d2d2d632df814; 0xbe4a99992c999e44;
  0x2122f6f6ecf61c35; 0x4ba581814981d709; 0x48043939d539749e; 0xca0dd4d418d481a7;
  0xf790c8c88dc88b16; 0x7c788b8b128b914c; 0xffaf0e0eab0e05b9; 0x20fc9e9e989e7df9;
  0xd1ede5e5eee57302; 0x8556363642361118; 0x587a76769976ab03; 0x49da5151a1511552;
  0xfa8f0505cc0523c3; 0x8729e6e6aae6d343; 0x27a34545174599d8; 0xe88e9a9a689a3e05;
  0xf431707011702881; 0x5a05a6a671a66958; 0x6646d2d290d20225; 0xf0cf131302136f37;
  0xcbd3bcbc6cbce06b; 0x0ebe7575dd750b42; 0xe2ce8c8ca68c72f1; 0x571a6b6b306bc18d;
  0xc4b3a1a1c5a18ae5; 0x9b960c0cd30cc5c7; 0xee0f29299329bbe8; 0x1a3e595982599369;
  0x37dd0a0a5b0a4645; 0x2e42ebeb45eb76bb; 0x6926cfcf39cf68ab; 0x8be843439f431a5a;
  0xafeabebe14be2015; 0xc23212123e120f08; 0x7fd933338e3332db; 0x643902027802c07e;
  0x451bf4f494f4dc4b; 0x14802c2c5f2c982b; 0xfdd0dede43dec7e2; 0xac4b060688068382;
  0x86f78e8ede8eb28f; 0x76389d9ddc9dddb8; 0x439a47476f4759a6; 0x5045b0b0bfb025ac;
  0x28c35858be58f356; 0xaacab5b573b5066f; 0x5efbc5c562c52eee; 0xdd2c4040db40ba1b;
  0xbb6a92924b92b83e; 0x9689c1c192c16d12; 0x05200b0b670b267a; 0x7b2750509d50756d;
  0xf64ea0a0f9a0eada; 0x2b62e0e022e050c1; 0x09e1aeae52aeef63; 0xc712191959192972;
  0x46ba4c4c084c7fdc; 0x0d1fcdcd41cda8d5; 0x13dff7f7d0f77c0a; 0x611909091f09e604;
  0x01de6868746861cc; 0xefd14141e741da24; 0x8d69f0f064f09fb7; 0xd39235350635b159;
  0xbc354949c4495c1f; 0xf1117b7b767b0efb; 0x32fd01013c01603f; 0x5c8415158a15ecb5;
  0x027fd0d0e8d0c25b; 0xb12a84848584f4ca; 0x56c403034403a041; 0x519bd8d8cbd84460;
  0xc9ac6c6c846c2230; 0xd6b23e3e613e9723; 0x4e858a8a2e8af173; 0xc8720404f00443fc;
  0xa08aa3a3bda34a9b; 0x315cb9b9a0b9c3a8; 0x22834e4e704ebfa2; 0xa5aaa8a8daa86ce1;
  0x17219494c3943bbc; 0x33236969486901f3; 0x94f611117a11af49; 0xeb2f2222f4229d92;
  0x84885e5e365e70d4; 0x083fc6c626c68eaf; 0x25dc9595ff955b83; 0xf92ebdbd50bd8054;
  0x39637f7f867f4d07; 0x60c761616b6187c8; 0xb28b3c3c193c575d; 0xd4cdeeee89ee5578;
  0x6fa77c7cc27ced46; 0x0000000000000000; 0x6dd8acac2aac2f1d; 0xa154cbcbc9cb2b57;
  0x12019f9fa49f1dc6; 0xd80c4b4bbc4b9c61; 0xa32b1b1b211be90c; 0xa474c0c0aec00d2d;
  0xcf2ddfdf7fdfa7dd; 0x9a486464a764a40b; 0xcc8c6767e367044a; 0x523a60605760e7f7;
  0x1cbfeaea79ea1684; 0x2f9c838331831777; 0x7e075b5bfa5b5317; 0x93a9cacaf5ca4b68;
  0x42442f2f1b2f386a; 0xb35554546d543691; 0x184189896a895132; 0xb8cb2a2ad72a1ba9;
  0xfc0eb6b637b6a62e; 0x44c59c9ce09cbd87; 0xe630efefb5ef3547; 0x8cb798981098fe7b;
  0xc6cc71712d7148be; 0x6366d9d9f7d9245f; 0xbf94f1f158f1ff88; 0xf2b0c3c3eac3ad6c;
  0x2c3d3b3bad3bb4e0; 0x11a027273827be51; 0x73189696bb96fbc2; 0xdcf22828af28dbd7;
  0xd9d22323c823fdad; 0x9277a2a281a22aa4; 0x3e3ca4a409a4a926; 0xd24c5d5d725dd095;
  0x59a41e1eed1ecacf; 0x7599252540257e2f; 0x199fe1e11ee130fe; 0xb40a8f8fe28fd2b0;
  0x81a85555515556ae; 0xe44f3f3f5d3ff71c; 0xe5915757295796d0; 0x0f601d1da91d6a8e;
  0x476424247c241e10; 0x9cc9d7d75cd721e6; 0x2abc88885688310d; 0xa8b565659b65c434;
  0x5bdbcece05ce0894; 0x8f1620208c205dec; 0x04fe6363136347b6; 0xa60b10104610cf76;
  0x72c6fefecffe9a0e; 0xbab4fafa3ffad9f2; 0x3082d1d1d4d1a264; 0x4cfa5a5ac65a3328;
  0x8209ededcdedf539; 0x6a877777a577cb3c; 0x8849fbfb03fbb9cd; 0x3c437474e1746b7d;
  0x6e791414b6148c8a; 0x0b9e7e7eba7e2d38; 0x9eb60707b407e3bd; 0x68f8a7a74da70967;
  0x6798babae4ba63e9; 0xc56dc9c9b1c9eb29; 0x74474d4d344d1fe3; 0x403bfffff3fffa31;
  0x0cc1a5a535a5c919; 0xe7ee8787c187548b; 0x9d17bfbf28bf402a; 0x900872726972e8ff;
  0x7af93838e93814a1; 0x3ac2c7c71ac7ee90; 0x35a2dadab3da841e; 0x347cb2b2c7b2e5d2;
  0x9f686f6fc06f8271; 0xb7ab37377e377127; 0xf8f0d5d524d5e198; 0x4f5be2e25ae290bf;
  0x6b591f1fd11faaf0; 0x83d78585b98594f5; 0x5f25adad16ad4f22; 0xa7d578783278aeba;
  0x1ec03a3a913ad4df; 0x107e4f4f4c4fdf9d; 0xc3ec7a7a4a7a6ec4; 0x7886e8e801e8d6fa;
  0x2de35353d953d52c; 0x77e6f5f5a8f5bc74; 0xe310e4e4d2e4133d; 0x80763d3d253d3762].

Definition precomputedLSTableRight_14 : list Z := [
  0x471cd5c8662c64b5; 0xeb1ee05eac6b2f0a; 0x7858d0cf08958689; 0x718310ceddeb67c0;
  0xd45ae559c2d2cd36; 0xf8f23923e399f0ef; 0x05b8b740be362068; 0x433df8f7fe149aaa;
  0x75a23df145d399df; 0x14a599c3bdd88063; 0x3edd9f7848b73c4b; 0x4ae638f62b6a7be3;
  0xa9ba82d674716bd7; 0x5fda3b4ab0bc25f7; 0xef3fcd613453d115; 0x5148bbf597e89b38;
  0xd9a008678f94d260; 0x940f702f56d4f605; 0xb55d416b3ad9d48a; 0x01999a7f260ede77;
  0xf4914e6288d131ce; 0x1084b4fc25e07e7c; 0x7f119071fabfd90f; 0xd6ab12a78eceb2d8;
  0x08425a7ef3703f3e; 0x37065f799dc9dd02; 0xfe22e3e237bd711e; 0x9dd4b02e83aa174c;
  0xd5c37f26e4dc1341; 0x42a46288d81a44dd; 0xfd4a8e635dafd087; 0xb0e5f62b84eff4e2;
  0xe35cba205f1b1034; 0x2782eb85b829a37e; 0x380d45b99c93bdba; 0x590ae18b6498a406;
  0x195f74fdf09e9f35; 0x20cbab3b4a03fcf8; 0xa06142d7a10f8a9e; 0x3f4405076eb9e23c;
  0x58937bf442967a71; 0xc8bd26e48c7a726b; 0xbc86816aefa735c3; 0x7e880a0edcb10778;
  0xd313a5e730f892b0; 0x4b7fa2890d64a594; 0x7753ca0f09cfe631; 0xc7b63c248d2012d3;
  0xa4406fe839377481; 0xfcd3141c7ba10ef0; 0x96fe87d11ac889eb; 0x03686d816a12a199;
  0x5220d674fdfa3aa1; 0x17cdf442d7ca21fa; 0x3c2c688604ab43a5; 0x67d77ef32c2f984d;
  0x79c14ab02e9b58fe; 0xc0ff7c9a7f0a4d55; 0x369fc506bbc70375; 0x346e32f8f7db7c9b;
  0x897129ed3e72972f; 0x2e592b846d574237; 0x1ce7c3bd4ea8bf5d; 0x153c03bc9bd65e14;
  0x4f5e8fb6955c5b8b; 0xa1f8d8a8870154e9; 0x867a332d3f28f797; 0x99f59d111b92e953;
  0x04212d3f9838fe1f; 0xe6e40d60e12d305c; 0xf508d41daedfefb9; 0xa72802695325d518;
  0x23a3c6ba20115d61; 0xffbb799d11b3af69; 0x81337393cd02a811; 0xf129f92236e711a6;
  0x0c6377416b48c121; 0xc547cbdac13c6d3d; 0x9f2547d0cfb668a2; 0x09dbc001d57ee149;
  0xf96ba35cc5972e98; 0xa6b19816752b0b6f; 0x64bf1372463d39d4; 0xab4b7528386d1439;
  0x1d7e59c268a6612a; 0xf24194a35cf5b03f; 0xdf70d2a65bb05391; 0xac023596ca474bbf;
  0x72eb7d4fb7f9c659; 0x304f1fc76fe38284; 0xe77d971fc723ee2b; 0xdac865e6e58673f9;
  0xdb51ff99c388ad8e; 0x6f95248ddf5fa773; 0x6bb409b24767596c; 0x215231446c0d228f;
  0x9ebcddafe9b8b6d5; 0x2ca8dc7a214b3dd9; 0x50d1218ab1e6454f; 0x223a5cc5061f8316;
  0x3afcb247d08fc254; 0x664ee48c0a21463a; 0xa290b529ed13f570; 0xc924bc9baa74ac1c;
  0x68dc64332d75f8f5; 0x626fc9b39219b825; 0xbbcfc1d41d8d6a45; 0xb38d9baaeefd557b;
  0x902e5d10ceec081a; 0x4daf7848d9402465; 0xcbd54b65e668d3f2; 0x16546e3df1c4ff8d;
  0xd8399218a99a0c17; 0x02f1f7fe4c1c7fee; 0x6cfd490cb54d06ea; 0xf7f923e3e2c39057;
  0x9a9df090718048ca; 0xea877a218a65f17d; 0x986c076e3d9c3724; 0xc20e8b64331632bb;
  0x25731c7bf435dc90; 0x3db5f2f922a59dd2; 0x825b1e12a7100988; 0x13ecd97d4ff2dfe5;
  0x261b71fa9e277d09; 0xe415fa9ead314fb2; 0xb93e362a519115ab; 0xe034d7a13509b1ad;
  0xeea6571e125d0f62; 0x111d2e8303eea00b; 0x9b046aef578e96bd; 0x31d685b849ed5cf3;
  0x2a7806bbf56fbc28; 0x7aa927314489f967; 0x35f7a887d1d5a2ec; 0xad9bafe9ec4995c8;
  0xf3d80edc7afb6e48; 0xf0b0635d10e9cfd1; 0xb8a7ac55779fcbdc; 0xcc9c0bdb14428c74;
  0x54f00cb529debb50; 0xe2c5205f7915ce43; 0x0b2a37ff99629ea7; 0xdd81255817ac2c7f;
  0x8fa1f32cea5616de; 0x2fc0b1fb4b599c40; 0x7de0678fb6a3a6e1; 0xa5d9f5971f39aaf6;
  0x2d3146050745e3ae; 0xc62fa65bab2ecca4; 0x5d2bccb4fca05a19; 0xaf6a5817a055ea26;
  0x3327724605f1231d; 0x92dfaaee82f077f4; 0x6945fe4c0b7b2682; 0xd28a3f9816f64cc7;
  0x8cc99ead8044b747; 0x93463091a4fea983; 0x8b80de13726ee8c1; 0x63f653ccb4176652;
  0x556996ca0fd06527; 0x1bae8303bc82e0db; 0x9c4d2a51a5a4c93b; 0x7b30bd4e62872710;
  0x5e43a13596b2fb80; 0x0000000000000000; 0x0ab3ad80bf6c40d0; 0x074940bef22a5f86;
  0xb17c6c54a2e12a95; 0x4055957694063b33; 0x53b94c0bdbf4e4d6; 0x85125eac553a560e;
  0x7372e73091f7182e; 0x06d0dac1d42481f1; 0x0dfaed3e4d461f56; 0xa3092f56cb1d2b07;
  0xdee948d97dbe8de6; 0x4c36e237ff4efa12; 0x91b7c76fe8e2d66d; 0xbfeeeceb85b5945a;
  0x46854fb74022bac2; 0xb6352cea50cb7513; 0x76ca50702fc13846; 0x5bfb16752884dbe8;
  0xe1ad4dde13076fda; 0xba565bab3b83b432; 0xc397111b1518eccc; 0x1f8fae3c24ba1ec4;
  0xca4cd11ac0660d85; 0x6526890d6033e7a3; 0x8d5004d2a64a6930; 0x8e386953cc58c8a9;
  0x32bee83923fffd6a; 0xcff4665a7e502ded; 0x80aae9eceb0c7666; 0xe8768ddfc6798e93;
  0x6a2d93cd6169871b; 0x9596ea5070da2872; 0x83c2846d811ed7ff; 0x87e3a952192629e0;
  0x4ec715c9b35285fc; 0x7c79fdf090ad7896; 0x5cb256cbdaae846e; 0x609e3e4dde05c7cb;
  0x0e9280bf2754becf; 0x97671dae3cc6579c; 0xbd1f1b15c9a9ebb4; 0x45ed22362a301b5b;
  0xc4de51a5e732b34a; 0xfa03ceddaf858f01; 0xce6dfc25585ef39a; 0xbe777694a3bb4a2d;
  0x1a37197c9a8c3eac; 0x6107a432f80b19bc; 0xa82318a9527fb5a0; 0xd1e252197ce4ed5e;
  0xaad2ef571e63ca4e; 0x0f0b1ac0015a60b8; 0xec57a0e05e41708c; 0x29106b3a9f7d1db1;
  0x701a8ab1fbe5b9b7; 0xdc18bf2731a2f208; 0xb7acb69576c5ab64; 0xd73288d8a8c06caf;
  0x743ba78e63dd47a8; 0xedce3a9f784faefb; 0xaef3c268865b3451; 0x88e8b392187c4958;
  0xcd0591a4324c5203; 0xb4c4db141cd70afd; 0x5601fb4b65c2c4be; 0x1275430269fc0192;
  0x3b652838f6811c23; 0xe9ef17a0e07750e4; 0xd07bc8665aea3329; 0xc166e6e559049322;
  0x3994dfc6ba9d63cd; 0x2be19cc4d361625f; 0x6e0cbef2f9517904; 0x4474b8490c3ec52c;
  0x848bc4d373348879; 0x1e16344302b4c0b3; 0x498e55774178da7a; 0x5798613443cc1ac9;
  0xf660b99cc4cd4e20; 0x5a628c0a0e8a059f; 0xb21401d5c8f38b0c; 0xfb9a54a2898b5176;
  0x8a19446c546036b6; 0xe58c60e18b3f91c5; 0x4817cf086776040d; 0x6d64d3739343d89d;
  0x18c6ee82d6904142; 0x2889f145b973c3c6; 0x41cc0f09b208e544; 0x24ea8604d23b02e7].

Definition precomputedLSTableRight_15 : list Z := [
  0x1187931bc9aeb5fc; 0x32fcabf8fef20aee; 0xbdcaef4e88c789dd; 0xc4123cd39313c011;
  0x9eb1d7adbf9b36cf; 0x7097292fcbc0ef6e; 0x3578fd960ffe6831; 0x94e789a3c509aa16;
  0x4172266b9fb4dffb; 0xd423721d3c7e63c4; 0x1c559b7b42304bfa; 0xed3f5a3ededde3da;
  0x1603c57538a2d723; 0x8904cf0de1faf7c5; 0xb79cb140f2551504; 0x6694ec5af362384d;
  0x62091e88a8e860e9; 0x197eb47c7f790577; 0x0be083db1c518af0; 0xb018e72e035977db;
  0x3c370724dfeace93; 0x514368a530d97c2e; 0x2b821f84818b0f99; 0x3d81daf1b929d8ba;
  0xc9c034b3188d3e17; 0x658d48e659e40236; 0x56c73ecbc1d51ef1; 0x60a667e164ad4cbb;
  0x2ea93083bcc24114; 0x24ff6e8dc650ddcd; 0x45efd4b9c43e875f; 0x3e987e4d13afe2c1;
  0xfb3c9f4be67f34f9; 0x34ce2043693d7e18; 0x3a058c9f4825ba65; 0xaf54d8e9ebef065a;
  0x289bbb382b0d35e2; 0xa286d0896071f85c; 0x6fdb16e823769eef; 0xac4d7c5541693c21;
  0x1f4c3fc7e8b67181; 0x835291039b686b1c; 0x723850460785c33c; 0x9b9af8aa82d27842;
  0x08f92767b6d7b08b; 0x5d27bd10dd849401; 0xe2422b379906318e; 0xdcda557a8aa9d34f;
  0xeabb0c502fd18105; 0xf5f73397c767f084; 0xba4eb92079cbeb02; 0x1328ea7205eb99ae;
  0x75bc0628f689a1e3; 0xc70b986f3995fa6a; 0xbf6596274482a58f; 0xb3014392a9df4da0;
  0x0dd208608b9efe06; 0x4a92a5b083e5550b; 0xd595afc85abd75ed; 0x76a5a2945c0f9b98;
  0xb48515fc58d32f7f; 0x4d16f3de72e937d4; 0x1de346ae24f35dd3; 0x643b95333f27141f;
  0xd847a7a8d1238beb; 0xdfc3f1c6202fe934; 0xeb0dd1854912972c; 0xe5c67d59680a5351;
  0x85601ab80ca71fea; 0xce4462dde9815cc8; 0x8c2fe00adcb3b948; 0xf993e6222a3a18ab;
  0xb1ae3afb659a61f2; 0xe6dfd9e5c28c692a; 0x7d45214f405e1168; 0x094ffab2d014a6a2;
  0x4ca02e0b142a21fd; 0x7fea58268c1b3d3a; 0xc3966abd621fa2ce; 0x79d8d39d1bd449cc;
  0xc08fce01c89998b5; 0x498b010c29636f70; 0xa029a9e0ac34d40e; 0xb533c8293e103956;
  0xadfba18027aa2a08; 0x1a6710c0d5ff3f0c; 0x4459096ca2fd9176; 0x237b38e3375cbf12;
  0xd73ad6a196f859bf; 0xf3c5b82c50a88472; 0x7e5c85f3ead82b13; 0x7121f4faad03f947;
  0xc13913d4ae5a8e9c; 0x7ac17721b15273b7; 0xffa16d99bdf56c5d; 0x129e37a763288f87;
  0x738e8d936146d515; 0xee26fe82745bd9a1; 0xd68c0b74f03b4f96; 0x01b6ddd566c31629;
  0x993581c34e975410; 0x0319a4bcaa863a7b; 0xcceb1bb425c4709a; 0x334a762d98311cc7;
  0xec8987ebb81ef5f3; 0x8679be04a6212591; 0xe470a08c0ec94578; 0x2db0943f16447b6f;
  0x9c1eaec473de1a9d; 0x7b77aaf4d791659e; 0x907a7b719e83f2b2; 0x77137f413acc8db1;
  0xd211f9a6abb11732; 0xa3300d5c06b2ee75; 0x69e99d53b4b9ea19; 0x2f1fed56da01573d;
  0xf6ee972b6de1caff; 0x82e44cd6fdab7d35; 0x55de9a776b53248a; 0xe9a2a8ec8557bb7e;
  0x97fe2d1f6f8f906d; 0x0f7d710947dbd254; 0x6e6dcb3d45b588c6; 0x426b82d73532e580;
  0x84d6c76d6a6409c3; 0x6d746f81ef33b2bd; 0x4740add0087bab0d; 0xe8147539e394ad57;
  0x0784566ef10c62df; 0xe15b8f8b33800bf5; 0x46f670056eb8bd24; 0x43dd5f0253f1f3a9;
  0xc876e9667e4e283e; 0x1efae2128e7567a8; 0xc6bd45ba5f56ec43; 0x9363dfcd3405c8c9;
  0xaa7ff7eed6a648d7; 0xb9571d9cd34dd179; 0xf7584afe0b22dcd6; 0x06328bbb97cf74f6;
  0x53ec11ccfc9c507c; 0x4b247865e5264322; 0xdae8dec11d66a7b9; 0xe7690430a44f7f03;
  0x92d5021852c6dee0; 0xfd0e14f071b0400f; 0x88b212d88739e1ec; 0x5aa3eb7e2c88f6de;
  0x5e3e19ac7702ae7a; 0x6cc2b25489f0a494; 0x2a34c251e74819b0; 0x3053d29132b726bc;
  0xe0ed525e55431ddc; 0x3f2ea398756cf4e8; 0x5c9160c5bb478228; 0xb8e1c049b58ec750;
  0x81fde86a572d474e; 0x8f3644b676358333; 0x17b518a05e61c10a; 0x3661592aa578524a;
  0xe3f4f6e2ffc527a7; 0x8babb6642dbfdb97; 0xd0be80cf67f43b60; 0xaee2053c8d2c1073;
  0x391c2823e2a3801e; 0x0000000000000000; 0x6af039ef1e3fd062; 0x9648f0ca094c8644;
  0x8e80996310f6951a; 0x87cf63d1c0e233b8; 0xc5a4e106f5d0d638; 0xf8253bf74cf90e82;
  0x6722318f95a12e64; 0x265017e40a15f19f; 0xfcb8c92517735626; 0x7cf3fc9a269d0741;
  0xf441ee42a1a4e6ad; 0xcb6f4ddad4c81245; 0x2c0649ea70876d46; 0x6110ba34026e5a92;
  0xa19f7435caf7c227; 0x18c869a919ba135e; 0x525acc199a5f4655; 0x0c64d5b5ed5de82f;
  0x580c9217e0cdda8c; 0x546847a20d9032a3; 0x59ba4fc2860ecca5; 0x0ecbacdc2118c47d;
  0x20629c5f9dda8569; 0x10314eceaf6da3d5; 0x31e50f4454743095; 0x22cde536519fa93b;
  0x50f5b570561a6a07; 0x151a61c99224ed58; 0xcd5dc661430766b3; 0x21d4418afb199340;
  0x4fb98ab7beac1b86; 0xa96653527c2072ac; 0xde752c1346ecff1d; 0x5b1536ab4a4be0f7;
  0x685f4086d27afc30; 0x38aaf5f684609637; 0x9a2c257fe4116e6b; 0x2549b358a093cbe4;
  0xef9023571298cf88; 0x0a565e0e7a929cd9; 0xc220b76804dcb4e7; 0xb2b79e47cf1c5b89;
  0xcff2bf088f424ae1; 0xd3a72473cd72011b; 0xa50286e7917d9a83; 0xd1085d1a01372d49;
  0x3bb3514a2ee6ac4c; 0x95515476a3cabc3f; 0xa61b225b3bfba0f8; 0xabc92a3bb0655efe;
  0x052b2f073d494e8d; 0x5f88c47911c1b853; 0xa4b45b32f7be8caa; 0xdb5e03147ba5b190;
  0x740adbfd904ab7ca; 0x5771e31ea71608d8; 0xa8d08e871ae36485; 0x8d993ddfba70af61;
  0xf16ac1459ceda820; 0x14acbc1cf4e7fb71; 0x804b35bf31ee5167; 0x049df2d25b8a58a4;
  0xb62a6c959496032d; 0xbbf864f51f08fd2b; 0xf0dc1c90fa2ebe09; 0xf27365f9366b925b;
  0x292d66ed4dce23cb; 0x91cca6a4f840e49b; 0x1bd1cd15b33c2925; 0xfa8a429e80bc22d0;
  0x8a1d6bb14b7ccdbe; 0x786e0e487d175fe5; 0xcad9900fb20b046c; 0x02af7969cc452c52;
  0x483ddcd94fa07959; 0xbed34bf22241b3a6; 0xfe17b04cdb367a74; 0x40c4fbbef977c9d2;
  0x9f070a78d95820e6; 0xbc7c329bee049ff4; 0x9da87311151d0cb4; 0x63bfc35dce2b76c0;
  0xa7adff8e5d38b6d1; 0xdd6c88afec6ac566; 0x4e0f5762d86f0daf; 0xd9f17a7db7e09dc2;
  0x98835c1628544239; 0x6b46e43a78fcc64b; 0x37d784ffc3bb4463; 0x27e6ca316cd6e7b6].

Definition precomputedLSTableRight : list (list Z) := [
  precomputedLSTableRight_0; precomputedLSTableRight_1;
  precomputedLSTableRight_2; precomputedLSTableRight_3;
  precomputedLSTableRight_4; precomputedLSTableRight_5;
  precomputedLSTableRight_6; precomputedLSTableRight_7;
  precomputedLSTableRight_8; precomputedLSTableRight_9;
  precomputedLSTableRight_10; precomputedLSTableRight_11;
  precomputedLSTableRight_12; precomputedLSTableRight_13;
  precomputedLSTableRight_14; precomputedLSTableRight_15].
