(* ===== verification/KuznechikInvLS.v ===== *)
(** * Kuznechik: the tables precomputedInversedLSTableLeft and precomputedInversedLSTableRight of
    src/crypto/encryption/gost2015_kuznechik/optimised_tables.c

    One definition per row of 256 entries; an entry is the eight bytes of the union
    [qword_t], written in memory order. *)

From Stdlib Require Import ZArith List.
Import ListNotations.
#[local] Open Scope Z_scope.
#[local] Open Scope list_scope.

Definition precomputedInversedLSTableLeft_0 : list Z := [
  0xa5cc0e86c24fba59; 0x2d039694956c2ab6; 0x3217b1aba6f911d2; 0x8fa58244279665bf;
  0x0ed434ace0a929a0; 0x30fc7ad286405f68; 0x38d6d0f506e1a4c5; 0xc0762bce5dc3bf63;
  0x54d2db4709717d0f; 0xe62058d9780a079f; 0x9e6591d7f4aa777b; 0x39425428165c8398;
  0x55465f9a19cc5a52; 0x7ebb5785eca8a2e9; 0x522c45cc6979af02; 0x912521a604be7986;
  0x642ea1958f312267; 0x037f4fa4300469e7; 0x57ad94e3397514e8; 0x5a06efebe9d854af;
  0x1c6b689b03915283; 0x603bf467cf80bed0; 0x076a1a5670b5f550; 0x187e3d694320ce34;
  0x213c6941557c4dac; 0x7284a8502cb8c5f3; 0xa867758e12e2fa1e; 0xd1b6385d8effada7;
  0x2916c366d5ddb601; 0xc688b5453dcb6d6e; 0xa4588a5bd2f29d04; 0x3fbccaa376545195;
  0xe0dec6521802d592; 0x27c2f7ca35749fa1; 0x8d4e493d072f2b05; 0x0c3fffd5c010671a;
  0x820ef94cf73b25f8; 0xea1fa70cb81a6085; 0xae99eb0572ea2813; 0xb40c1d151173a89d;
  0x9a70c425b41bebcc; 0x6344bbc3ff84d737; 0x492d37011a5d08d1; 0xe55f177d480e6e78;
  0x4278d282aaf89a9b; 0xe4cb93a058b34925; 0x15d54661938d8e73; 0xb77352b12177c17a;
  0xc85c81e9dd6244ce; 0x06fe9e8b6008d20d; 0x706f63290c018b49; 0x9d1ade73c4ae1e9c;
  0x41079d269afcf37c; 0x75eeb2065c0d30a3; 0x19eab9b4539de969; 0xc9c80534cddf6393;
  0xaa8cbef7325bb4a4; 0xfcb5aec91b938711; 0x4d3862f35aec9466; 0xbf59f896a1d63ad7;
  0x2a698cc2e5d9dfe6; 0x73102c8d3c05e2ae; 0x84f067c79733f7f5; 0xd5a36dafce4e3110;
  0xc309646a6dc7d684; 0xaf0d6fd862570f4e; 0x2bfd081ff564f8bb; 0x861bacbeb78ab94f;
  0xa727c5ffe2f6f4e3; 0xb18dcc3a417f1377; 0xb2f2839e717b7a90; 0x5b926b36f96573f2;
  0x466d8770ea49062c; 0xd35df324ae46e31d; 0x9ff1150ae4175026; 0xfd212a140b2ea04c;
  0xd437e972def3164d; 0x0f40b071f0140efd; 0x9c8e5aaed41339c1; 0x2fe85dedb5d5640c;
  0x9be440f8a4a6cc91; 0x43ec565fba45bdc6; 0xef9e7623e816db6f; 0xd99c927a0e5e560a;
  0x79d14dd39c1d57b9; 0xb6e7d66c31cae627; 0x53b8c11179c4885f; 0x7f2fd358fc1585b4;
  0xc1e2af134d7e983e; 0xf08a511cdb83e00b; 0x23d7a23875c50316; 0xe7b4dc0468b720c2;
  0x25293cb315cdd11b; 0x5e13ba19a969c818; 0xb59899c801ce8fc0; 0x1e80a3e223281c39;
  0xa2a614d0b2fa4f09; 0xdf620cf16e568407; 0xa6b34122f24bd3be; 0xfe5e65b03b2ac9ab;
  0xac72207c525366a9; 0x224326e56578244b; 0xf9347fe64b9f3cfb; 0xe2350d2b38bb9b28;
  0x4a5278a52a596136; 0xbc26b73291d25330; 0x357dabfdd64ce482; 0xcab74a90fddb0a74;
  0xee0af2fef8abfc32; 0x7845c90e8ca070e4; 0x0581d12f500cbbea; 0x6b6e11e47f252c9a;
  0x51530a68597dc6e5; 0xe14a428f08bff2cf; 0x5979a04fd9dc3d48; 0xa332900da2476854;
  0xf2619a65fb3aaeb1; 0x71fbe7f41cbcac14; 0x5639103e29c833b5; 0x11c01393d33c12c4;
  0x6afa95396f980bc7; 0x895b1ccf479eb7b2; 0x94a4f08954b2c26c; 0x65ba25489f8c053a;
  0x8cdacde017920c58; 0xbb4cad64e167a660; 0x7705797f7cb47e19; 0x3cc3850746503872;
  0x7b3a86aabca41903; 0x288247bbc560915c; 0xab183a2a22e693f9; 0xd2c977f9befbc440;
  0x3168fe0f96fd7835; 0xdef6882c7eeba35a; 0xc4637e3c1d7223d4; 0x5f873ec4b9d4ef45;
  0xcc49d41b9dd3d879; 0xcf369bbfadd7b19e; 0x7691fda26c095944; 0x2c97124985d10deb;
  0xb833e2c0d163cf87; 0xd80816a71ee37157; 0x2e7cd930a5684351; 0x3602e459e6488d65;
  0xdb7759032ee718b0; 0x6985da9d5f9c6220; 0xb366074361c65dcd; 0x1441c2bc8330a92e;
  0x95307454440fe531; 0xbecd7c4bb16b1d8a; 0x62d03f1eef39f06a; 0xa1d95b7482fe26ee;
  0x3ba99f5136e5cd22; 0x16aa09c5a389e794; 0x66c56aecaf886cdd; 0xe960e8a8881e0962;
  0x5cf8716089d086a2; 0x6c040bb20f90d9ca; 0x6d908f6f1f2dfe97; 0xade6a4a142ee41f4;
  0x37966084f6f5aa38; 0x61af70badf3d998d; 0x4bc6fc783ae4466b; 0xb9a7661dc1dee8da;
  0xe3a189f62806bc75; 0xbad829b9f1da813d; 0xf11ed5c1cb3ec756; 0xa04ddfa9924301b3;
  0x8564e31a878ed0a8; 0x839a7d91e78602a5; 0xdae3ddde3e5a3fed; 0x47f903adfaf42171;
  0xc5f7fae10dcf0489; 0xb01948e751c2342a; 0x33833576b644368f; 0xfa4b30427b9b551c;
  0x964f3bf0740b8cd6; 0x6f7b44163f94b02d; 0x6eefc0cb2f299770; 0xc29de0b77d7af1d9;
  0xf674cf97bb8b3206; 0x50c78eb549c0e1b8; 0xffcae16d2b97eef6; 0x5d6cf5bd996da1ff;
  0xa9f3f153025fdd43; 0x8e310699372b42e2; 0x173e8d18b334c0c9; 0x1b0172cd7324a7d3;
  0x97dbbf2d64b6ab8b; 0x7dc41821dcaccb0e; 0xece13987d812b288; 0x58ed2492c9611a15;
  0xf7e04b4aab36155b; 0x1f14273f33953b64; 0xfbdfb49f6b267241; 0x7c509cfccc11ec53;
  0x09be2efa901cdcf0; 0x0dab7b08d0ad4047; 0x7aae0277ac193e5e; 0x6751ee31bf354b80;
  0x4512c8d4da4d6fcb; 0x878f2863a7379e12; 0xdc1d43555e52ede0; 0xe8f46c7598a32e3f;
  0x4fd3a98a7a55dadc; 0x1dffec46132c75de; 0x4e472d576ae8fd81; 0x041555f240b19cb7;
  0xeb8b23d1a8a747d8; 0xf8a0fb3b5b221ba6; 0xf3f51eb8eb8789ec; 0x3e284e7e66e976c8;
  0x3d5701da56ed1f2f; 0xbdb233ef816f746d; 0x8a24536b779ade55; 0x88cf9812572390ef;
  0xdd89c7884eefcabd; 0xcddd50c68d6eff24; 0x0b55e583b0a5924a; 0x132bd8eaf3855c7e;
  0x989b0f5c94a2a576; 0x02ebcb7920b94eba; 0x93ceeadf2407373c; 0x80e53235d7826b42;
  0x90b1a57b14035edb; 0xd022bc809e428afa; 0x24bdb86e0570f646; 0x34e92f20c6f1c3df;
  0xcb23ce4ded662d29; 0xed75bd5ac8af95d5; 0xf49f04ee9b327cbc; 0xcea21f62bd6a96c3;
  0x990f8b81841f822b; 0x1054974ec3813599; 0x44864c09caf04896; 0x409319fb8a41d421;
  0x925a6e0234ba1061; 0x3a3d1b8c2658ea7f; 0x019484dd10bd275d; 0x2656731725c9b8fc;
  0x12bf5c37e3387b23; 0x1a95f6106399808e; 0x48b9b3dc0ae02f8c; 0x68115e404f21457d;
  0xf50b80338b8f5be1; 0x8171b6e8c73f4c1f; 0x8bb0d7b66727f908; 0xc71c31982d764a33;
  0xd6dc220bfe4a58f7; 0x20a8ed9c45c16af1; 0x0ac1615ea018b517; 0x082aaa2780a1fbad;
  0x0000000000000000; 0x4cace62e4a51b33b; 0xd748a6d6eef77faa; 0x747a36db4cb017fe].

Definition precomputedInversedLSTableLeft_1 : list Z := [
  0xccec18151b1197c3; 0x03524c32a49105cd; 0x170c9aa9189239d8; 0xa543ab0486682c3c;
  0xd4393d467213bf64; 0xfc8552b3c915c74e; 0xd6e4f4db0b4cb953; 0x76518b89a2549afb;
  0xd29da522f9f2b53d; 0x204ecdc49cb960f6; 0x652440d94878af4d; 0x424190d682eec618;
  0x4638c12f7050ca76; 0xbb321633648b0ec2; 0x2cc53e0c49b87444; 0x25b81992b3c96f62;
  0x2e18f79130e77273; 0x7f2cac17582581dd; 0xadb10935a1d734e0; 0x06a498648be10a59;
  0x6b727a8ce426bdc8; 0x3bc9a4a5512a4d9c; 0x6afdff2339e8be32; 0x7ea329b885eb8227;
  0x3ce2b96e0705443f; 0x8482e36fc71f4f30; 0x67f989443127a97a; 0xb63660546c44198a;
  0x16831f06c55c3a22; 0x880910a7121e5b82; 0x58497c1892b3e888; 0xbc190bf832a40761;
  0xde1656ea2cf3a18f; 0xc2ba2240b74f8546; 0x4eca631e57efd2aa; 0x3fb0f55ca39441f2;
  0x0e563a55ac5e1285; 0x1ffe38983f2d2104; 0x99a1126a816d6803; 0x0c8bf3c8d50114b2;
  0x70f513ed29b590a2; 0x44e508b2090fcc41; 0x2d4abba3947677be; 0x5f6261d3c49ce12b;
  0x7807b1dc0e0a887e; 0xcbc705de4d3e9e60; 0xd5b6b8e9afddbc9e; 0x73a75fdf8d24956f;
  0x5c302de1600de4e6; 0xfe589b2eb04ac179; 0x6f0b2b751698b1a6; 0x1a08ecce105d2e90;
  0x072b1dcb562f09a3; 0xee7f1c4cfef7f102; 0xea064db50c49fd6c; 0xc89549ece9af9bad;
  0x8c70415ee0a057ec; 0xb5642c66c8d51c47; 0x389be897f5bb4851; 0x59c6f9b74f7deb72;
  0x69afb3119d79bbff; 0x102787624ebd307b; 0xf00ea17b1c14d3fc; 0xa3e733600d892665;
  0x097d279efa711b26; 0x0d04766708cf1748; 0xfd0ad71c14dbc4b4; 0x1b876961cd932d6a;
  0x2765d00fca966955; 0x8dffc4f13d6e5416; 0xf2d368e6654bd5cb; 0x9201fc6902437512;
  0x6dd6e2e86fc7b791; 0x5dbfa84ebdc3e71c; 0xf18124d4c1dad006; 0x21c1486b4177630c;
  0x3742576d842b592e; 0x409c594bfbb1c02f; 0x8ead88c399ff51db; 0xe8db84287516fb5b;
  0xe45077e0a017efe9; 0xeca2d5d187a8f735; 0x9e8a0fa1d74261a0; 0x9c57c63cae1d6797;
  0xd1cfe9105d63b0f0; 0xe7023bd20486ea24; 0xb8605a01c01a0b0f; 0x2f97723eed297189;
  0xe2f4ef842bf6e5b0; 0x8ad4d93a6b415db5; 0xd76b7174d682baa9; 0xb4eba9c9151b1fbd;
  0x2933ea5a66c87bd0; 0x1375cb50ea2c35b6; 0x982e97c55ca36bf9; 0x80fbb29635a1435e;
  0xa611e73622f929f1; 0x620f5d121e57a6ee; 0xb3c0b4024334161e; 0x5eede47c1952e2d1;
  0x7228da7050ea9695; 0x43ce15795f20c5e2; 0x34101b5f20ba5ce3; 0x359f9ef0fd745f19;
  0x526617b4cc53f663; 0x26ea55a017586aaf; 0x7df1658a217a87ea; 0xb7b9e5fbb18a1a70;
  0x0a2f6bac5ee01eeb; 0x456a8d1dd4c1cfbb; 0x81743739e86f40a4; 0x6e84aedacb56b25c;
  0x53e9921b119df599; 0x4ab332e7a551dec4; 0x79883473d3c48b84; 0x32b4833bab5b56ba;
  0x615d1120bac6a323; 0xfbae4f789f3aceed; 0x39146d3828754bab; 0xc067ebddce108371;
  0xfa21cad742f4cd17; 0x5b1b302a3622ed45; 0xa4cc2eab5ba62fc6; 0xbabd939cb9450d38;
  0xda6f0713de4dade1; 0x4c17aa832eb0d49d; 0x05f6d4562f700f94; 0xc335a7ef6a8186bc;
  0x3a46210a8ce44e66; 0x82267b0b4cfe4569; 0x18d52553690228a7; 0xc91acc4334619857;
  0x682036be40b7b805; 0xf6aa391f97f5d9a5; 0x6380d8bdc399a514; 0x87d0af5d638e4afd;
  0x49e17ed501c0db09; 0x36cdd2c259e55ad4; 0x9153b05ba6d270df; 0x97f7283f2d337a86;
  0x333b069476955540; 0x08f2a23127bf18dc; 0x7c7ee025fcb48410; 0x02ddc99d795f0637;
  0x77de0e267f9a9901; 0x850d66c01ad14cca; 0x66760cebece9aa80; 0x4113dce4267fc3d5;
  0x30694aa6d204508d; 0xcd639dbac6df9439; 0xd0406cbf80adb30a; 0xd93d4b217adca82c;
  0xa9c858cc5369388e; 0xaa9a14fef7f83d43; 0xc5913f8be1608ce5; 0x60d2948f6708a0d9;
  0xf8fc034a3babcb20; 0x047951f9f2be0c6e; 0x90dc35f47b1c7325; 0xe68dbe7dd948e9de;
  0x9678ad90f0fd797c; 0xaf6cc0a8d88832d7; 0xc6c373b945f18928; 0xa79e6299ff372a0b;
  0xa13afafd74d62052; 0xd8b2ce8ea712abd6; 0x1e71bd37e2e322fe; 0x4d982f2cf37ed767;
  0x64abc57695b6acb7; 0x9af35e5825fc6dce; 0xe37b6a2bf638e64a; 0xf97386e5e665c8da;
  0xf725bcb04a3bda5f; 0x195aa0fcb4cc2b5d; 0x83a9fea491304693; 0x4b3cb748789fdd3e;
  0x4f45e6b18a21d150; 0x7b55fdeeaa9b8db3; 0xeff099e32339f2f8; 0x9dd8439373d3646d;
  0x748c4214db0b9ccc; 0xc74cf616983f8ad2; 0xca48807190f09d9a; 0x6c596747b209b46b;
  0xf35ced49b885d631; 0x31e6cf090fca5377; 0x3e3f70f37e5a4208; 0x018f85afddce03fa;
  0xdbe082bc0383ae1b; 0xc41eba243cae8f1f; 0xe1a6a3b68f67e07d; 0xed2d507e5a66f4cf;
  0xe029261952a9e387; 0x145ed69bbc033c15; 0xdf99d345f13da275; 0x50bbde29b50cf054;
  0xbec4c2654bfb0156; 0xab1591512a363eb9; 0xaee345070546312d; 0x51345b8668c2f3ae;
  0x12fa4eff37e2364c; 0x8f220d6c44315221; 0x1d23f10546722733; 0xf477f082eeaadf92;
  0xd312208d243cb6c7; 0xffd71e816d84c283; 0x47b74480ad9ec98c; 0x15d1533461cd3fef;
  0x8b5b5c95b68f5e4f; 0xa0b57f52a91823a8; 0xf5f8752d3364dc68; 0x28bc6ff5bb06782a;
  0x5790c3e2e323f9f7; 0xb24f31ad9efa15e4; 0x24379c3d6e076c98; 0xcfbe5427bf80920e;
  0x89869508cfd05878; 0xdd441ad88862a442; 0x554d0a7f9a7cffc0; 0x2bee23c71f977de7;
  0x9b7cdbf7f8326e34; 0xeb89c81ad187fe96; 0xce31d188624e91f4; 0xe5dff24f7dd9ec13;
  0xb11d7d9f3a6b1029; 0x22930459e5e666c1; 0xbd968e57ef6a049b; 0xe9540187a8d8f8a1;
  0x231c81f63828653b; 0x7503c7bb06c59f36; 0x9f058a0e0a8c625a; 0xa268b6cfd047259f;
  0x0fd9bffa7190117f; 0x54c28fd047b2fc3a; 0x865f2af2be404907; 0x938e79c6df8d76e8;
  0x5a94b585ebeceebf; 0x3d6d3cc1dacb47c5; 0x94a5640d89a27f4b; 0x561f464d3eedfa0d;
  0xbf4b47ca963502ac; 0x952ae1a2546c7cb1; 0xb9efdfae1dd408f5; 0x11a802cd93733381;
  0x0ba0ee03832e1d11; 0x717a9642f47b9358; 0xb092f830e7a513d3; 0x1cac74aa9bbc24c9;
  0xdccb9f7755aca7b8; 0xa847dd638ea73b74; 0xc1e86e7213de808b; 0x2a61a668c2597e1d;
  0x0000000000000000; 0xac3e8c9a7c19371a; 0x486efb7adc0ed8f3; 0x7ada784177558e49].

Definition precomputedInversedLSTableLeft_2 : list Z := [
  0x4735efb5efef30e6; 0xe963bae4baba9867; 0x8fb28ede8e8ef786; 0x4ee26efc6e6e95ad;
  0x03ab769976767a58; 0xcfca1eed1e1ea459; 0x0ce91b211b1b2ba3; 0xbaae78327878d5a7;
  0x126dc192c1c18996; 0xf0aa1fd11f1f596b; 0x2b982c5f2c2c8014; 0x2cd553d95353e32d;
  0x3251896a89894118; 0x1bba40db40402cdd; 0xd2e5b2c7b2b27c34; 0x080f123e121232c2;
  0xdda7df7fdfdf2dcf; 0x6044d8cbd8d89b51; 0x72291959191912c7; 0x11c6b70bb7b7f3ce;
  0x0695ecf1ececf4b0; 0x5d573c193c3c8bb2; 0xe0b43bad3b3b3d2c; 0x86650f970f0f52cd;
  0xaab05c4e5c5cb1e0; 0x5869a671a6a6055a; 0x24da41e74141d1ef; 0xdfd43a913a3ac01e;
  0x6993598259593e1a; 0x7a260b670b0b2005; 0x6709a74da7a7f868; 0xec5d208c2020168f;
  0x30226c846c6cacc9; 0x6a382f1b2f2f4442; 0x0e9afecffefec672; 0x43d3e6aae6e62987;
  0x2d0dc0aec0c074a4; 0xb379f97bf9f970ec; 0xe45232b23232244d; 0x224fad16adad255f;
  0xab68cf39cfcf2669; 0x3d13e4d2e4e410e3; 0x34c4659b6565b5a8; 0x90eec71ac7c7c23a;
  0x97a3b89cb8b8a103; 0xb0d28fe28f8f0ab4; 0xe58aa1c5a1a1b3c4; 0x420b75dd7575be0e;
  0x798d7dfe7d7d5a5d; 0xc08873557373f5a2; 0x1811364236365685; 0x4bdcf494f4f41b45;
  0xf7e7605760603a52; 0xb8dd9ddc9d9d3876; 0xa659476f47479a43; 0x59b13506353592d3;
  0x64a2d1d4d1d18230; 0x36b7807580805879; 0xb43486fd868613d5; 0x81287011707031f4;
  0x09d781498181a54b; 0x7855ee89eeeecdd4; 0xed85b3fbb3b38106; 0x5f24d9f7d9d96663;
  0xdaeaa0f9a0a04ef6; 0xc46e7a4a7a7aecc3; 0x29ebc9b1c9c96dc5; 0xadfd23c82323d2d9;
  0x074d7f867f7f6339; 0x8283068806064bac; 0xe2c7de43deded0fd; 0x31fafff3ffff3b40;
  0x17535bfa5b5b077e; 0x9facaaa2aaaa93c1; 0x0ba464a76464489a; 0x168bc88dc8c890f7;
  0x7f18910f9191aeed; 0x23973e613e3eb2d6; 0x6be0bc6cbcbcd3cb; 0xa91b2ad72a2acbb8;
  0x8b5487c18787eee7; 0xb79ff064f0f0698d; 0x13b552e552521e1f; 0x1cf73f5d3f3f4fe4;
  0xfb0e7b767b7b11f1; 0x62373d253d3d7680; 0xf2d9fa3ffafab4ba; 0x3b8608230808e453;
  0x9a9230ca30301d29; 0x756466df666671fe; 0xeac8cc7dcccce23f; 0xd0965729575791e5;
  0x2a40bf28bfbf179d; 0x9136546d545455b3; 0x0273e5eee5e5edd1; 0x46ed7cc27c7ca76f;
  0xa781d418d4d40dca; 0xdc7f4c084c4cba46; 0x2771377e3737abb7; 0x76cf104610100ba6;
  0xa42aa281a2a27792; 0xcaf4848584842ab1; 0x967b2beb2b2b368a; 0x705afcb7fcfcff16;
  0x5480bd50bdbd2ef9; 0xe16ca8daa8a8aaa5; 0x6f06b573b5b5caaa; 0x39f5edcdeded0982;
  0x33891a1d1a1ad691; 0xdb32338e3333d97f; 0xa0ccab9eabab6ef3; 0xfe30e11ee1e19f19;
  0xb2a16a0c6a6ae765; 0x101e247c24246447; 0x71826fc06f6f689f; 0x87bd9ce09c9cc544;
  0x351cf6ecf6f62221; 0x382d7eba7e7e9e0b; 0x521551a15151da49; 0x657a42a3424215b9;
  0xde0ca9e6a9a95797; 0x8e6a1da91d1d600f; 0xa8c3b9a0b9b95c31; 0xfd9b97879797e541;
  0x2ea6b637b6b60efc; 0x01d8937793939789; 0xf8a50def0d0d6ba9; 0x8c19f847f8f88dde;
  0xbb76eb45ebeb422e; 0x49af117a1111f694; 0x449e992c99994abe; 0xbf90e25ae2e25b4f;
  0xeff6561556566cd7; 0xfc4304f0040472c8; 0x3a5e9b549b9b73da; 0xb10a1c951c1c9d3d;
  0xf97d9e989e9efc20; 0x9939465346466771; 0xd89945174545a327; 0xc95ff21cf2f250e9;
  0x619c4bbc4b4b0cd8; 0x3ccb77a57777876a; 0x8927622f62620336; 0x0f426db86d6d51fb;
  0x5c8faf6eafaf1c3b; 0xbe48712d7171ccc6; 0xc2fb96bb96961873; 0xc5b6e93de9e97b4a;
  0x88fff158f1f194bf; 0xa11438e93838f97a; 0x1d2fac2aacacd86d; 0xc7c50cd30c0c969b;
  0x6cadc3eac3c3b0f2; 0x85ce790e79792895; 0x9ddf4f4c4f4f7e10; 0xd33d21b02121ebbd;
  0xd14ec45ec4c4066c; 0x1e84dab3dadaa235; 0x3eb8924b92926abb; 0x8416ea79eaeabf1c;
  0x2f7e254025259975; 0x7d6b74e17474433c; 0x74bcf5a8f5f5e677; 0x41a003440303c456;
  0x5066b44fb4b43798; 0x21e4db8fdbdb5f07; 0x55582e272e2eb970; 0xe7f9442b44445e15;
  0xcdb9fb03fbfb4988; 0x0d3188568888bc2a; 0x7cb3e796e7e7d4b5; 0x376f13021313cff0;
  0x1a62d3acd3d3bb54; 0xa2bf4e704e4e8322; 0xaf8ec626c6c63f08; 0xf63ff320f3f3addb;
  0xe8bb299329290fee; 0x7ec0027802023964; 0x5efc4a804a4af1ea; 0xfad6e801e8e88678;
  0xb5ec158a1515845c; 0x929d22f422222feb; 0x56f358be5858c328; 0xf1728ca68c8ccee2;
  0x04e6091f09091961; 0x6ede260426265d23; 0xa5f231f63131e01b; 0xe621d75cd7d7c99c;
  0xc887616b6161c760; 0x7bfe98109898b78c; 0x73f18a2e8a8a854e; 0x51be27382727a011;
  0x95d05d725d5d4cd2; 0x66d1343a34346fe1; 0xd603bbd8bbbb6555; 0x5bc2d0e8d0d07f02;
  0xe31f4d344d4d4774; 0x63efae52aeaee109; 0x9b4aa3bda3a38aa0; 0xbde307b40707b69e;
  0x7717833183839c2f; 0x8dc16b306b6b1a57; 0xbc3b94c394942117; 0xf301694869692333;
  0xf44c16ce1616400a; 0x26a9a409a4a43c3e; 0xd4705e365e5e8884; 0x80f0e366e3e3a67d;
  0x9345b183b1b1b862; 0xb64763136363fe04; 0x1520be14bebeeaaf; 0xcc6168746868de01;
  0xac25b0bfb0b04550; 0xc150e022e0e0622b; 0xee2ec562c5c5fb5e; 0xae5655515555a881;
  0x9c07dc3bdcdce999; 0xd941d660d6d634ae; 0xa367dd07dddd14ab; 0x2502d290d2d24666;
  0xeb105f0a5f5f75b6; 0x40789033909053df; 0x4877820d8282611d; 0x6d75509d5050277b;
  0x28335ac65a5afa4c; 0xffe8726972720890; 0x0a7cf7d0f7f7df13; 0x4f3afd8bfdfd0224;
  0x19c9a535a5a5c10c; 0x53cdc2d6c2c24dc0; 0xf59485b98585d783; 0xb9050eab0e0eafff;
  0xcb2c17f21717bd38; 0x45460a5b0a0add37; 0x572bcbc9cbcb54a1; 0xd7db28af2828f2dc;
  0x684bcaf5cacaa993; 0x4c918b128b8b787c; 0x203c48f84848c88e; 0x4a0467e367678ccc;
  0x053e9a689a9a8ee8; 0xc61d9fa49f9f0112; 0x14f82d632d2d7d26; 0x9e7439d539390448;
  0xd5a8cd41cdcd1f0d; 0x4d4918651818eff5; 0xce128d9a8d8d33d0; 0x5a1a439f4343e88b;
  0x3f60013c0101fd32; 0x8a8c14b61414796e; 0x835b95ff9595dc25; 0xc32305cc05058ffa;
  0x0000000000000000; 0x9408ce05cecedb5b; 0x1f5c49c4494935bc; 0x98e1d524d5d5f0f8].

Definition precomputedInversedLSTableLeft_3 : list Z := [
  0xab5f0fc597097cc9; 0xbba5cede05dd1cf8; 0x8315cf1f39088c52; 0x0de599662cc32ed2;
  0x3a3eb0fabf2e9c05; 0x4a9db2bbc7477f92; 0xe8f8856eb9b83514; 0xeb318da99adf3f0d;
  0x8fb7ef85b557a436; 0xbe3dd654607402d3; 0x0f6b285daf38227d; 0x6dbc5a3cc67ead74;
  0x0af330d7ca913c56; 0x290d79260e9df62d; 0x17ec68aa748672b5; 0xb01147f56fd02618;
  0xc52a5d3e7210dba4; 0x4ccca2f681896ba0; 0xc37b4d7334decf96; 0xb5895f7f0a793833;
  0x747ca337bd5cfb0a; 0x94f9a7b54d8efee7; 0x1d1f587dbe174ee3; 0x25af59bc82c2de49;
  0x4813038044bc733d; 0xdabbb4784ffc99e8; 0xddad1dc9a9ae8b6c; 0xe9bf3c92192433a2;
  0xea7634553a4339bb; 0x736a0a865b0ee98e; 0x2e1bd097e8cfe4a9; 0xf5e7dd1307af7bf7;
  0x2666517ba1a5d450; 0xd04884af856da5be; 0xc46de4c2d28cdd12; 0xf3b6cd5e41616fc5;
  0x7b178b6a1264d977; 0x4d8b1b0a21156d16; 0x45f69ae6687f5def; 0xa9d1befe14f27066;
  0x5eb8d2d690a6073e; 0xd8350543cc079547; 0x7e8f93e077cdc75c; 0xf2f174a2e1fd6973;
  0x902606c388bbe67a; 0x77b5abf09e3bf113; 0x535d4bb0bc6529ec; 0xe51d1c08957b1bc6;
  0x4954ba7ce420758b; 0x985b872fc1d1d683; 0x1333c9dcb1b36a28; 0x43a78aab2eb149dd;
  0xdceaa43509328dda; 0xc7a4ec05f1ebd70b; 0xa0eb86eefd044629; 0xcc10652e9be6edeb;
  0x1425606d57e178ac; 0x521af24c1cf92f5a; 0x2f5c696b4853e21f; 0x47782bddeb845140;
  0xa6ba96a3bbca521b; 0x5fff6b2a303a0188; 0xe34c0c45d3b50ff4; 0xb86cc61926ba16e1;
  0xa7fd2f5f1b5654ad; 0xc0b245b417b9c58f; 0x23fe49f1c40cca7b; 0x2ac471e12dfafc34;
  0x62d7726169468f09; 0x7d469b2754aacd45; 0x318a39d1d523a6e5; 0x30cd802d75bfa053;
  0xc1f5fc48b725c339; 0x20374136e76bc062; 0x8a2ff70fd0feba1d; 0xd75e2d1e633fb73a;
  0x3d28194b597c8e81; 0xbf7a6fa8c0e80465; 0xc6e355f95177d1bd; 0x722db37afb92ef38;
  0xdbfc0d84ef609f5e; 0x1562d991f77d7e1a; 0x991c3ed3614dd035; 0x4bda0b4767db7924;
  0x3412215bb08ab8ce; 0x6059c35aeabd83a6; 0x92a8b7f80b40ead5; 0xac49a674715b6e4d;
  0x6e7552fbe519a76d; 0xa1ac3f125d98409f; 0x819b7e24baf380fd; 0x3b7909061fb29ab3;
  0x19c0f90b7b22567e; 0xe45aa5f435e71d70; 0x2c9561ac6b34e806; 0xbdf4de93431308ca;
  0xb64057b8291e322a; 0xd3818c68a60aafa7; 0xe793ad3316801769; 0x9b928fe8e2b6dc9a;
  0x8c7ee7429630ae2f; 0x04dfa176c535189d; 0x868dd7955ca19279; 0xefee2cdf5fea2790;
  0x32433116f644acfc; 0x0bb4892b6a0d3ae0; 0x9e0a9762871fc2b1; 0x80dcc7d81a6f864b;
  0x1c58e1811e8b4855; 0xb156fe09cf4c20ae; 0xd49725d94058bd23; 0x7a503296b2f8dfc1;
  0x5b20ca5cf50f1915; 0xa3228e29de634c30; 0xf945fd898bf05393; 0x330488ea56d8aa4a;
  0x682442b6a3d7b35f; 0x9677168ece75f248; 0x463f92214b1857f6; 0x028eb13b83fb0caf;
  0xff14edc4cd3e47a1; 0x95be1e49ed12f851; 0x6486622c2f889b3b; 0x406e826c0dd643c4;
  0x41293b90ad4a4572; 0x16abd156d41a7403; 0x0e2c91a10fa424cb; 0xb92b7fe586261057;
  0xfd9a5cff4ec54b0e; 0x6f32eb074585a1db; 0x9161bf3f2827e0cc; 0xa5739e6498ad5802;
  0xcfd96de9b881e7f2; 0x56c5533ad9cc37c7; 0xbae27722a5411a4e; 0x611e7aa64a218510;
  0x188740f7dbbe50c8; 0x544be2015a373b68; 0x8b684ef37062bcab; 0x3ee1118c7a1b8498;
  0x5a6773a055931fa3; 0xce9ed415181de144; 0xf7696c2884547758; 0xd2c635940696a911;
  0x825276e399948ae4; 0xb3d84f324cb72c01; 0xb4cee683aae53e85; 0xd61994e2c3a3b18c;
  0xe1c2bd7e504e035b; 0xc23cf48f9442c920; 0x5d71da11b3c10d27; 0xfa8cf54ea897598a;
  0xa434279838315eb4; 0x1f91e9463dec424c; 0x0ca2209a8c5f2864; 0x0147b9fca09c06b6;
  0x2dd2d850cba8eeb0; 0x674f6aeb0cef9122; 0xe20bb5b973290942; 0x093a3810e9f6364f;
  0x5782eac679503171; 0x11bd78e732486687; 0xb707ee448982349c; 0xdf23acf22a5587c3;
  0x6aaaf38d202cbff0; 0x93ef0e04abdcec63; 0x24e8e040225ed8ff; 0x7fc82a1cd751c1ea;
  0x6608d317ac739794; 0xfe5354386da24117; 0x0716a9b1e6521284; 0x44b1231ac8e35b59;
  0x3fa6a870da87822e; 0xf80244752b6c5525; 0x0651104d46ce1432; 0xca417563dd28f9d9;
  0xad0e1f88d1c768fb; 0x2b83c81d8d66fa82; 0xaec7174ff2a062e2; 0x22b9f00d6490cccd;
  0x39f7b83d9c49961c; 0xde64150e8ac98175; 0x1ed650ba9d7044fa; 0xa8960702b46e76d0;
  0x58e9c29bd668130c; 0x88a146345305b6b2; 0x9ad53614422ada2c; 0x6963fb4a034bb5e9;
  0x284ac0daae01f09b; 0x65c1dbd08f149d8d; 0xd5d09c25e0c4bb95; 0x7c0122dbf436cbf3;
  0xbcb3676fe38f0e7c; 0x38b001c13cd590aa; 0x4f05aa31a2ee61b9; 0xe0850482f0d205ed;
  0x2721e8870139d2e6; 0x76f2120c3ea7f7a5; 0x78de83ad3103d36e; 0x89e6ffc8f399b004;
  0x8d395ebe36aca899; 0xaf80aeb3523c6454; 0x9f4d2e9e2783c407; 0x840366aedf5a9ed6;
  0xe6d414cfb61c11df; 0xf1387c65c29a636a; 0x6390cb9dc9da89bf; 0x51d3fa8b3f9e2543;
  0xc8cfc4585ed3f576; 0x03c908c723670a19; 0xed609de4dc112b3f; 0x70a302417869e397;
  0x3c6fa0b7f9e08837; 0x8ef0567915cba280; 0xd972bcbf6c9b93f1; 0x10fac11b92d46031;
  0x1a09f1cc58455c67; 0x9dc39fa5a478c8a8; 0xeea99523ff762126; 0xcb06cc9f7db4ff6f;
  0x9730af726ee9f4fe; 0xc9887da4fe4ff3c0; 0x79993a51919fd5d8; 0xb29ff6ceec2b2ab7;
  0x355598a71016be78; 0x6cfbe3c066e2abc2; 0x9c84265904e4ce1e; 0x1b4e4830f8d95ad1;
  0x0598188a65a91e2b; 0x509443779f0223f5; 0xf07fc599620665dc; 0xd10f3d5325f1a308;
  0x12747020112f6c9e; 0x87ca6e69fc3d94cf; 0x087d81ec496a30f9; 0x59ae7b6776f415ba;
  0xfcdde503ee594db8; 0x2170f8ca47f7c6d4; 0x8544df527fc69860; 0x550c5bfdfaab3dde;
  0x4e4213cd0272670f; 0xec2724187c8d2d89; 0xfbcb4cb2080b5f3c; 0x369c90603371b461;
  0x753b1acb1dc0fdbc; 0x37db299c93edb2d7; 0x5c3663ed135d0b91; 0xf62ed5d424c871ee;
  0xf4a064efa7337d41; 0xcd57dcd23b7aeb5d; 0x6bed4a7180b0b946; 0xa26537d57eff4a86;
  0x0000000000000000; 0xaa18b63937957a7f; 0x71e4bbbdd8f5e521; 0x42e033578e2d4f6b].

Definition precomputedInversedLSTableLeft_4 : list Z := [
  0xc236bfb8b8edf8a5; 0x958bd19a9a0a382d; 0xa63054eded72db32; 0x27cf125353585c8f;
  0xe0e4f8e2e2bdfb0e; 0x8651310c0c4dfe30; 0x0616660e0eb16a38; 0x5d87c43030f77ec0;
  0x0931991515a98b54; 0x78fbf4d8d8c004e6; 0xf4906fc6c69d449e; 0x16c7b59f9f4f9939;
  0x19e04a8484577855; 0xecc834fefe1c2f7e; 0x699236f5f5e8e452; 0x04a544b5b5de4c91;
  0x8f60a81919e47564; 0x30b0b67070c1d603; 0x39812f6565685d57; 0xe9d561f7f714705a;
  0x030b330707b9351c; 0xcfa26218189a3f60; 0x70727c7171bf9c07; 0x43c9f90606c77f18;
  0x550e4c999988e621; 0x2c4da9fdfd9ef172; 0x1262f12a2a91d5a8; 0x8ed8b9a5a53266d1;
  0xd5491b9b9b747229; 0x3d246bd0d0b611c6; 0xd2e76c2929130ba4; 0x76641a7f7f0ef63f;
  0x18585b3838816be0; 0x35ade37979c98927; 0x07ae77b2b267798d; 0xc0859d030382de0c;
  0xf79b5cc1c1247182; 0xb87e69dbdb42daea; 0x72c15ecacad0baae; 0x1169c22d2d28e0b4;
  0xb452a5c7c7e30e9a; 0xff12d468685be963; 0x1aeb798383ee4d49; 0x484b42a8a801d2e5;
  0xaa1c98f1f1d30f42; 0x589a913939ff21e4; 0x939db79494bb5215; 0x21d9745d5de936b7;
  0xddc09332320beac8; 0x60a3afe0e0416f06; 0x0c2ccc1c1ca1d470; 0xc420d9b6b65c929d;
  0x9aac2e818112d941; 0x5c3fd58c8c216d75; 0x53182a9797398c19; 0xcd1140a3a3f519c9;
  0x320394cbcbaef0aa; 0x1b53683f3f385efc; 0x5a29b3828290074d; 0xa19e235f5f15a2bf;
  0xe5f9adebebb5a42a; 0x3c9c7a6c6c600273; 0x9738f32121651e84; 0xce1a73a4a44c2cd5;
  0x6d3772404036a8c3; 0x62108d5b5b2e49af; 0xf5287e7a7a4b572b; 0xb75996c0c05a3b86;
  0xe257da5959d2dda7; 0x417adbbdbda859b1; 0x71ca6dcdcd698fb2; 0xf904b26666ea835b;
  0xeade52f0f0ad4546; 0xaeb9dc44440d43d3; 0xe441bc575763b79f; 0x0b82bbaeaec6adfd;
  0xdecba03535b2dfd4; 0xf0352b737343080f; 0xd4f10a2727a2619c; 0xb5eab47b7b351d2f;
  0xa4837656561dfd9b; 0xbacd4b60602dfc43; 0xe86d704b4bc263ef; 0x0e9feea7a7cef2d9;
  0x9cba488f8fa3b379; 0x3108a7cccc17c5b6; 0x7943e56464161753; 0xfc19e76f6fe2dc7f;
  0x4d5617a1a1098dc1; 0xdbd6f53c3cba80f0; 0x756f297878b7c323; 0x682a2749493ef7e7;
  0x15cc869898f6ac25; 0xa917abf6f66a3a5e; 0x01b811bcbcd613b5; 0x236a56e6e686101e;
  0xb244c3c9c95264a2; 0x6e3c4147478f9ddf; 0xf28609c8c82c2ea6; 0x3b320ddede077bfe;
  0x52a03b2b2bef9fac; 0x65befae9e9493022; 0x4b4071afafb8e7f9; 0x38393ed9d9be4ee2;
  0x2a5bcff3f32f9b4a; 0x912e952f2fd474bc; 0xd642289c9ccd4735; 0xfda1f6d3d334cfca;
  0xf8bca3dada3c90ee; 0x8c6b9b1e1e5d4078; 0x501319909080b905; 0x7f55836a6aa77d6b;
  0x5922808585293251; 0x088988a9a97f98e1; 0xd965d78787d5a659; 0xa295105858ac97a3;
  0xfbb790dddd85a5f2; 0x1cfd1f8d8d5f2771; 0x2950fcf4f496ae56; 0xd35f7d9595c51811;
  0x6f8450fbfb598e6a; 0x476cbdb3b3193389; 0x54b65d25255ef594; 0x9fb17b88881a8665;
  0x177fa42323998a8c; 0xe15ce95e5e6be8bb; 0x7c5eb06d6d1e4877; 0x46d4ac0f0fcf203c;
  0xbcdb2d6e6e9c967b; 0xc598c80a0a8a8128; 0x22d2475a5a5003ab; 0xbe680fd5d5f3b0d2;
  0x9680e29d9db30d31; 0x7eed92d6d6716ede; 0x1d450e31318934c4; 0xb9c678676794c95f;
  0x9d0259333375a0cc; 0xadb2ef4343b476cf; 0x6c8f63fcfce0bb76; 0x855a020b0bf4cb2c;
  0xd1ec5f2e2eaa3eb8; 0x1e4e3d36363001d8; 0xa53b67eaeacbee2e; 0xe6f29eecec0c9136;
  0x2efe8b4646f1d7db; 0x5f34e68b8b985869; 0x611bbe5c5c977cb3; 0x834c64050545a114;
  0x44678eb4b4a00695; 0xb14ff0ceceeb51be; 0xefc307f9f9a51a62; 0x82f475b9b993b2a1;
  0x36a6d07e7e70bc3b; 0xa32d01e4e47a8416; 0xaf01cdf8f8db5066; 0x88cedfabab830ce9;
  0x8976ce1717551f5c; 0x0f27ff1b1b18e16c; 0x1ff62c8a8ae6126d; 0x4271e8baba116cad;
  0xf6234d7d7df26237; 0xdf73b1898964cc61; 0x3a8a1c6262d1684b; 0xc13d8cbfbf54cdb9;
  0x28e8ed484840bde3; 0xf18d3acfcf951bba; 0xcb0726adad4473f1; 0x9225a628286d41a0;
  0x87e920b0b09bed85; 0xe74a8f5050da8283; 0x3e2f58d7d70f24da; 0xfa0f81616153b647;
  0x0d94dda0a077c7c5; 0x51ab082c2c56aab0; 0xb6e1877c7c8c2833; 0x7bf0c7dfdf7931fa;
  0x74d738c4c461d096; 0x3f97496b6bd9376f; 0x2f469afafa27c46e; 0x7de6a1d1d1c85bc2;
  0xbb755adcdcfbeff6; 0x49f3531414d7c150; 0x2be3de4f4ff988ff; 0x99a71d8686abec5d;
  0x02b322bbbb6f26a9; 0x371ec1c2c2a6af8e; 0xb3fcd27575847717; 0x73794f767606a91b;
  0x6406eb55559f2397; 0xdc78828e8eddf97d; 0xd8ddc63b3b03b5ec; 0xc9b40416162b5558;
  0xaba4894d4d051cf7; 0x33bb85777778e31f; 0x6b21144e4e87c2fb; 0xcca9511f1f230a7c;
  0x9096849393026709; 0xd0544e92927c2d0d; 0xac0afeffff62657a; 0xbfd01e696925a367;
  0xda6ee480806c9345; 0xa788455151a4c887; 0x5e8cf737374e4bdc; 0x981f0c3a3a7dffe8;
  0x7a48d66363af224f; 0x13dae0969647c61d; 0x6a9905f2f251d14e; 0x40c2ca01017e4a04;
  0xa8afba4a4abc29eb; 0x5b91a23e3e4614f8; 0xeb66434c4c7b56f3; 0x66b5c9eeeef0053e;
  0x56057f9e9e31d33d; 0x81ff46bebe2a87bd; 0x77dc0bc3c3d8e58a; 0x57bd6e2222e7c088;
  0x4e5d24a6a6b0b8dd; 0x8dd38aa2a28b53cd; 0xb0f7e172723d420b; 0xf33e187474fa3d13;
  0x9433c02626dc2b98; 0x206165e1e13f2502; 0x24c4215454e16993; 0xd7fa3920201b5480;
  0x147497242420bf90; 0x9e096a3434cc95d0; 0x051d550909085f24; 0xc693fb0d0d33b434;
  0xed70254242ca3ccb; 0xc80c15aaaafd46ed; 0x9b143f3d3dc4caf4; 0xbd633cd2d24a85ce;
  0x84e213b7b722d899; 0xc38eae04043beb10; 0xcabf371111926044; 0x8a7dfd1010ec2a40;
  0x3415f2c5c51f9a92; 0x267703efef8e4f3a; 0x10d1d39191fef301; 0x257c30e8e8377a26;
  0xe3efcbe5e504ce12; 0x63a89ce7e7f85a1a; 0x0a3aaa121210be48; 0x4fe5351a1a66ab68;
  0x8bc5ecacac3a39f5; 0xc72beab1b1e5a781; 0x670dd8525226168b; 0x2df5b8414148e2c7;
  0xfeaac5d4d48dfad6; 0x45df9f0808761520; 0xa02632e3e3c3b10a; 0x8047570202fc9408;
  0x0000000000000000; 0x4af86013136ef44c; 0xee7b1645457309d7; 0x4cee061d1ddf9e74].

Definition precomputedInversedLSTableLeft_5 : list Z := [
  0xd8ca2018a65b9caf; 0x6910514cc5066818; 0xc0d01b9ab02ecdb8; 0xbaffe6aba289d961;
  0x164aed3d416b5a6f; 0x87097952ab3bd3ec; 0x58eb32f4c76fab7f; 0x5924278be9ecca36;
  0xc46a4fa508678a5f; 0x6a826ecdb740cbc3; 0x0575414096ca26ae; 0x9a6603902b84a455;
  0x06e77ec1e48c8575; 0xa65f89160cb5cf91; 0x0dc2e93e2558a8a3; 0xd1b29d193b4a73eb;
  0x436336f7a35c59b3; 0x855453acf7fe117e; 0x413e1c09ff999b21; 0xd220a298490cd030;
  0x2c94197a82d6b4de; 0xcd12f2a49576651b; 0x0b2597ffc1d42dd6; 0xa2e5dd29b4fc8876;
  0x3883deb99f782c23; 0xf7cc06e356cb8baa; 0x4bd49e8910ced7be; 0xe6ae8060ddaf35f9;
  0xe761951ff32c54b0; 0x908c8110c4d3e8ca; 0x1a47117c4ab09385; 0x53cea50b06bb86a9;
  0xa32ac8569a7fe93f; 0xf12b7822b2470edf; 0xfd268463b99cc735; 0x51938ff55a7e443b;
  0x29e1583a141c9270; 0x3b11e138ed3e8ff8; 0x827c38123df1f542; 0x674087f392186360;
  0x8b048513a0e01a06; 0x4846a10862887465; 0x2a7367bb665a31ab; 0xefd63d6140bedabd;
  0x70c57fb1fdf05846; 0x2d5b0c05ac55d597; 0x31fb63b80269c367; 0xe214d45f65e6721e;
  0x86c66c2d85b8b2a5; 0xc9a8a69b2d3f22fc; 0xb015642b4dde95fe; 0x802112ec613437d0;
  0xf5912c1d0a0e4938; 0xfce9911c971fa67c; 0x6068ec4d5817875c; 0x444b5d496953bd8f;
  0x0c0dfc410bdbc9ea; 0x8fbed12c18a95de1; 0xa402a3e850700d03; 0x3df69ff909b20a8d;
  0x6235c6b304d245ce; 0x35413787ba208480; 0xe049fea13923b08c; 0x68df4433eb850951;
  0xdc7074271e12db48; 0x40f10976d11afa68; 0xa0b8f7d7e8394ae4; 0xa7909c692236aed8;
  0x9f1342d0bd4e82fb; 0x2bbc72c448d950e2; 0xaee82168bf27419c; 0x10ad93fca5e7df1a;
  0xfeb4bbe2cbda64ee; 0xa177e2a8c6ba2bad; 0xc7f870247a212984; 0x4d33e048f44252cb;
  0xaa527557076e067b; 0xd4c7dc59ad805545; 0x42ac23888ddf38fa; 0x2ec93384de13764c;
  0x4989b4774c0b152c; 0xb2484ed5111b576c; 0x77ed140f37ffbc7a; 0x394ccbc6b1fb4d6a;
  0xad7a1ee9cd61e247; 0x2099e53b890d7d34; 0xcf4fd85ac9b3a789; 0x64d2b872e05ec0bb;
  0x9ba916ef0507c51c; 0xde2d5ed942d719da; 0x7f5abc71846d3277; 0xa80f5fa95babc4e9;
  0xb6f21aeaa952108b; 0x5c5166cb7f26ec98; 0xa5cdb6977ef36c4a; 0x6b4d7bb299c3aa8a;
  0xd3efb7e7678fb179; 0xf0e46d5d9cc46f96; 0x5d9e73b451a58dd1; 0xc867b3e403bc43b5;
  0xc5a55ada26e4eb16; 0xbdd78d1568863d5d; 0xc342241bc2686e63; 0xe4f3aa9e816af76b;
  0xaf27341791a420d5; 0xb8a2cc55fe4c1bf3; 0xcbf58c6571fae06e; 0xc11f0ee59eadacf1;
  0xb560256bdb14b350; 0x6ff72f8d218aed6d; 0x4cfcf537dac13382; 0x97a4eaae0edc0cf6;
  0x8896ba92d2a6b9dd; 0x61a7f9327694e615; 0x5774f134bef2c14e; 0x116286838b64be53;
  0x99f43c1159c2078e; 0x7298554fa1359ad4; 0x83b32d6d1372940b; 0xbf8aa7eb3443ffcf;
  0x5529dbcae23703dc; 0x735740308fb6fb9d; 0x9d4e682ee18b4069; 0x81ee07934fb75699;
  0x3fabb5075577c81f; 0xb3875baa3f983625; 0xbb30f3d48c0ab828; 0xd69af6a7f14597d7;
  0xeaa37c21d674fc13; 0x25eca47b1fc75b9a; 0xce80cd25e730c6c0; 0x63fad3cc2a512487;
  0x4584483647d0dcc6; 0x32695c39702f60bc; 0xd755e3d8dfc6f69e; 0x9edc57af93cde3b2;
  0x08b7a87eb3928e0d; 0x8de3fbd2446c9f73; 0x79bdc2b060e1b702; 0xab9d602829ed6732;
  0x36d30806c866275b; 0xfbc1faa25d104240; 0xec4402e032f87966; 0x4ea1dfc98604f110;
  0x7e95a90eaaee533e; 0xd07d886615c912a2; 0x6c65100c53cc4eb6; 0xf37652dcee82cc4d;
  0x5fc3594a0d604f43; 0xff7bae9de55905a7; 0x8acb906c8e637b4f; 0x56bbe44b9071a007;
  0xddbf61583091ba01; 0xb4af3014f597d219; 0x04ba543fb84947e7; 0xbe45b2941ac09e86;
  0x1b8804036433f2cc; 0x9c817d51cf082120; 0x5e0c4c3523e32e0a; 0x07286bbeca0fe43c;
  0x8c2ceead6aeffe3a; 0x0f9fc3c0799d6a31; 0x6daa05737d4f2fff; 0xf45e3962248d2871;
  0x267e9bfa6d81f841; 0x710a6aced373390f; 0x1ca06fbdae3c16f0; 0x9436d52f7c9aaf2d;
  0x22c4cfc5d5c8bfa6; 0xeb6c695ef8f79d5a; 0xbc18986a46055c14; 0x3c398a8627316bc4;
  0x15d8d2bc332df9b4; 0xe93143a0a4325fc8; 0x025d2afe5cc5c292; 0x461677b735967f1d;
  0xda970ae6fa9e5e3d; 0x19d52efd38f6305e; 0xdb581f99d41d3f74; 0x1efd4543f2f9d462;
  0x1785f8426fe83b26; 0x4a1b8bf63e4db6f7; 0x0aea8280ef574c9f; 0xd905356788d8fde6;
  0x8959afedfc25d894; 0x7872d7cf4e62d64b; 0x76220170197cdd33; 0x27b18e8543029908;
  0x181a3b8216755117; 0x230bdabafb4bdeef; 0xf2b947a3c001ad04; 0x95f9c0505219ce64;
  0xd508c9268303340c; 0xa9c04ad67528a5a0; 0x849b46d3d97d7037; 0xe186ebde17a0d1c5;
  0x1d6f7ac280bf77b9; 0x931ebe91b6954b11; 0x282e4d453a9ff339; 0xc637655b54a248cd;
  0x7be0e84e3c247590; 0x651dad0dcedda1f2; 0x75b03ef16b3a7ee8; 0x7cc883f0f62b91ac;
  0xe3dbc1204b651357; 0xee19281e6e3dbbf4; 0x2156f044a78e1c7d; 0x8e71c453362a3ca8;
  0xf99cd05c01d580d2; 0x01cf157f2e836149; 0x5b790d75b52908a4; 0x9143946fea508983;
  0x1417c7c31dae98fd; 0x7a2ffd3112a714d9; 0xf603139c7848eae3; 0xb1da7154635df4b7;
  0xb73d0f9587d171c2; 0xca3a991a5f798127; 0x5ab6180a9baa69ed; 0xf853c5232f56e19b;
  0xccdde7dbbbf50452; 0x47d962c81b151e54; 0x966bffd1205f6dbf; 0x6e383af20f098c24;
  0x133fac7dd7a17cc1; 0x2423b10431443ad3; 0x747f2b8e45b91fa1; 0x0978bd019d11ef44;
  0x03923f817246a3db; 0x303476c72ceaa22e; 0x505c9a8a74fd2572; 0x4f6ecab6a8879059;
  0x0e50d6bf571e0b78; 0x7d07968fd8a8f0e5; 0xb96dd92ad0cf7aba; 0x371c1d79e6e54612;
  0x54e6ceb5ccb46295; 0x1f32503cdc7ab52b; 0xc28d3164eceb0f2a; 0x33a649465eac01f5;
  0x3adef447c3bdeeb1; 0xe53cbfe1afe99622; 0xe8fe56df8ab13e81; 0x12f0b902f9221d88;
  0x92d1abee98162a58; 0xacb50b96e3e2830e; 0x348e22f894a3e5c9; 0x5201b0742838e7e0;
  0xed8b179f1c7b182f; 0xfa0eefdd73932309; 0x983b296e774166c7; 0xdfe24ba66c547893;
  0x0000000000000000; 0x668f928cbc9b0229; 0x2f0626fbf0901705; 0x3e64a0787bf4a956].

Definition precomputedInversedLSTableLeft_6 : list Z := [
  0x518bc04841db9d79; 0x33ea2527fa8130e7; 0xa4985a404842b3c9; 0x67eb11d71497c259;
  0x0ad72bb39d59de4d; 0xe733d57d3a1c1b11; 0x28daac8931a7fef7; 0x1accd237e8706c44;
  0x6cc061fdaa98be40; 0x65d0a726523b45f1; 0xfa4e45033b0d9f3a; 0xe86e0a760888aa9b;
  0xac74c70293b7ea2c; 0x5aa0b062ffd4e160; 0xa9fe33ba3c7a85eb; 0x302dc84f9f7b151b;
  0x8bf3b4809084a551; 0x831f29c24b71fcb4; 0xefdf483fe1e942f4; 0x66174a4e37c1600d;
  0x146d56a5f9b27f9a; 0x0d6669fa74383622; 0x058af4b8afcd6fc7; 0x92f88bdf1d0eece9;
  0x7a9681a915864672; 0x13dc14ec10d397f5; 0xd843c23997f3bf80; 0x876986e3c7ea3127;
  0xb57ff85d1e3da394; 0xdff280707e9257ef; 0x913f66b778f4c915; 0x2d5058319e6a9130;
  0xa0eef561c4d97e5a; 0xbfa8d3ee83647dd9; 0x24409eea66c96a81; 0x497ca48eef077695;
  0xee2313a6c2bfe0a0; 0x2cac03a8bd3c3364; 0x1d7d907e0111842b; 0xcc2e949c6e41c01a;
  0x7cdb9879dfb10c49; 0x8e7940383f49ca96; 0xb81991a76a0595b6; 0xe6cf8ee4194ab945;
  0xf4efc1912acf8ce4; 0x267b281b2065ed29; 0x1b3089aecb26ce10; 0x4f31bd5e25303cae;
  0xd525abc3e3cb89a2; 0xc53e524796e23bab; 0x50779bd1628d3f2d; 0x79516cc1707c638e;
  0x77f0e85361be7050; 0x1656e054bf1ef832; 0x524c2d202421b885; 0x15910d3cdae4ddce;
  0x9be84d04e5ad1758; 0xb483a3c43d6b01c0; 0x3e8c4cdd8eb906c5; 0x80d8c4aa2e8bd948;
  0x3660d19f554c5f20; 0xd368b21329fcc399; 0x2b1d41e1545ddb0b; 0x01fc5b992356a254;
  0x99d3fbf5a30190f0; 0xddc93681383ed047; 0xf6d477606c630b4c; 0x68b6cedc260373d3;
  0x12204f75338535a1; 0x8a0fef19b3d20705; 0x0910c6dbf8a3fbb1; 0xa6a3ecb10eee3461;
  0x727a1cebce731f97; 0xc4c209deb5b499ff; 0x3afae3fc0222cb56; 0x7437053b044455ac;
  0xc148fd661a79f638; 0xca638d4ca4768a21; 0xb9e5ca3e495337e2; 0x7041aa1a88df983f;
  0xbc6f3e86e69e5825; 0x345b676e13e0d888; 0x6a8d782d60aff47b; 0x4880ff17cc51d4c1;
  0x5f2a44da50198ea7; 0x8f851ba11c1f68c2; 0x694a95450555d187; 0x9a14169dc6fbb50c;
  0xda7874c8d15f3828; 0xfdff074ad26c7755; 0x393d0e9467d8eeaa; 0xa56401d96b14119d;
  0xfc035cd3f13ad501; 0xe0829734d37df37e; 0x0c9a3263576e9476; 0x57c6d9988becd742;
  0x540134f0ee16f2be; 0x8dbead505ab3ef6a; 0xd294e98a0aaa61cd; 0xf7282cf94f35a918;
  0x5ed61f43734f2cf3; 0xf989a86b5ef7bac6; 0xf2a2d841e0f8c6df; 0xe3457a5cb687d682;
  0x3b06b86521746902; 0x03c7ed6865fa25fc; 0xa112aef8e78fdc0e; 0x968e24fe9195217a;
  0xaa39ded25980a017; 0x9f9ee2256936dacb; 0x46217b85dd93c71f; 0x419039cc34f22f70;
  0x2ae11a78770b795f; 0x605a539efdf62a36; 0xe508638c7cb09cb9; 0x94b5920fd739a6d2;
  0xbe548877a032df8d; 0x90c33d2e5ba26b41; 0x2f6beec0d8c61698; 0x9da554d42f9a5d63;
  0x81249f330ddd7b1c; 0xa2d543908275f9f2; 0x760cb3ca42e8d204; 0x4b47127fa9abf13d;
  0xe4f438155fe63eed; 0x064d19d0ca374a3b; 0x55fd6f69cd4050ea; 0xae4f71f3d51b6d84;
  0x1c81cbe72247267f; 0x75cb5ea22712f7f8; 0x5b5cebfbdc824334; 0x0476af218c9bcd93;
  0x2787738203334f7d; 0x4d0a0baf639cbb06; 0x9c590f4d0cccff37; 0x203631cbea52a712;
  0x53b076b907771ad1; 0xd0af5f7b4c06e665; 0x9549c996f46f0486; 0xf35e83d8c3ae648b;
  0x855230128146b68f; 0x883459e8f57e80ad; 0xb0f50ce5b1f0cc53; 0x220d873aacfe20ba;
  0x0b2b702abe0f7c19; 0x023bb6f146ac87a8; 0xc9a46024c18cafdd; 0xdb842f51f2099a7c;
  0xb6b815357bc78668; 0x406c625517a48d24; 0x4ecde6c706669efa; 0xd71e1d32a5670e0a;
  0xabc5854b7ad60243; 0x982fa06c805732a4; 0xc8583bbde2da0d89; 0xafb32a6af64dcfd0;
  0xa3291809a1235ba6; 0x441acd749b3f40b7; 0x84ae6b8ba21014db; 0x9e62b9bc4a60789f;
  0xe2b921c595d174d6; 0xcdd2cf054d17624e; 0xfbb21e9a185b3d6e; 0x45e696edb869e2e3;
  0x23f1dca38fa882ee; 0xc6f9bf2ff3181e57; 0x3d4ba1b5eb432339; 0x17aabbcd9c485a66;
  0xeba9e71e6d728f67; 0x2e97b559fb90b4cc; 0xcb9fd6d587202875; 0xb2ceba14f75c4bfb;
  0x5ceda9b235e3ab5b; 0x4abb49e68afd5369; 0x642cfcbf716de7a5; 0x71bdf183ab893a6b;
  0x35a73cf730b67adc; 0xc705e4b6d04ebc03; 0x07b14249e961e86f; 0x59675d0a9a2ec49c;
  0x38c1550d448e4cfe; 0xea55bc874e242d33; 0x379c8a06761afd74; 0x639dbef6980c0fca;
  0x18f764c6aedcebec; 0xa75fb7282db89635; 0x589b0693b97866c8; 0x11e7a21d567f105d;
  0xf5139a0809992eb0; 0xd9bf99a0b4a51dd4; 0xe99251ef2bde08cf; 0x25bcc573459fc8d5;
  0xf875f3f27da11892; 0x97727f67b2c3832e; 0xb109577c92a66e07; 0x190b3f5f8d8a49b8;
  0x0f5ddf0b3294b18a; 0x89c80271d62822f9; 0xdc356d181b687213; 0x08ec9d42dbf559e5;
  0xf16535298502e323; 0xa80268231f2c27bf; 0x0ea1849211c213de; 0x6f078c95cf629bbc;
  0x7d27c3e0fce7ae1d; 0xd4d9f05ac09d2bf6; 0xbd93651fc5c8fa71; 0x8695dd7ae4bc9373;
  0xec18a55784136708; 0x32167ebed9d792b3; 0x7ee02e88991d8be1; 0xede4fecea745c55c;
  0x6efbd70cec3439e8; 0xc3734b975cd57190; 0x21ca6a52c9040546; 0x6261e56fbb5aad9e;
  0xce15226d28ed47b2; 0x9304d0463e584ebd; 0x4cf6503640ca1952; 0xde0edbe95dc4f5bb;
  0x3f701744adefa491; 0x43ab8f3d725ea8d8; 0x73864772ed25bdc3; 0xad889c9bb0e14878;
  0xf0996eb0a6544177; 0x47dd201cfec5654b; 0x3cb7fa2cc815816d; 0x61a60807dea08862;
  0x563a8201a8ba7516; 0x2926f71012f15ca3; 0x7b6ada3036d0e426; 0x101bf9847529b209;
  0xffc4b1bb94c0f0fd; 0x5d11f22b16b5090f; 0x31d193d6bc2db74f; 0xb7444eac5891243c;
  0xb332e18dd40ae9af; 0x6b7123b443f9562f; 0xc0b4a6ff392f546c; 0x7f1c7511ba4b29b5;
  0x1eba7d1664eba1d7; 0xd15304e26f504431; 0x78ad3758532ac1da; 0xc28f100e7f83d3c4;
  0xbbde7ccf0fffb04a; 0x6d3c3a6489ce1c14; 0xe17eccadf02b512a; 0x1f46268f47bd0383;
  0x82e3725b68275ee0; 0xba2227562ca9121e; 0x8c42f6c979e54d3e; 0xcfe979f40bbbe5e6;
  0x0000000000000000; 0xfe38ea22b79652a9; 0x4257d4a451080a8c; 0xd6e246ab8631ac5e].

Definition precomputedInversedLSTableLeft_7 : list Z := [
  0xa59d85468a0e61c4; 0x2d307cb1b296ab86; 0x32b329f1e6b15361; 0x8fc26955f082f27d;
  0x0edee3875334707e; 0x301b4907fb7a4373; 0x38fe0a598fd0033b; 0xc06ce71c6a2bcf0f;
  0x54be1b26f4dbe5b1; 0xe645887e5e583cda; 0x9e9fdf92f7917ae4; 0x39aa3a2260540b32;
  0x55ea2b5d1b5fedb8; 0x7ee1f7358e577608; 0x5285bbffd345d587; 0x91150c6e4b210293;
  0x64a552210fa1a6c2; 0x03fc508df24f181b; 0x57424bab0694fdaa; 0x5a60f8a1a7ef95cf;
  0x1c7f05cda668e0fc; 0x6036920e35f486e6; 0x076f90a2c81a383f; 0x18ecc5e29c3dc0d8;
  0x2146ffc0fc69cbea; 0x72977444c0a81664; 0xa8bf364c2b7509a1; 0xd13151db6d384796;
  0x29a3bc9e88c38ba2; 0xc65747c54db5ff39; 0xa4c9b53d658a69cd; 0x3f919afb47ca3b04;
  0xe07e28a779c60cec; 0x277d5f19dbf7fbdc; 0x8d6a09a3ed49e26f; 0x0c7683714eff606c;
  0x82e0da5f51f99a18; 0xea330b0f10a75cb6; 0xae8496950ceb3997; 0xb4c033818d1de95d;
  0x9a0c1fbdcdc45ac0; 0x63cac283c7bb9efd; 0x49952e90bd370d44; 0xe5b9d8f3ac1724c1;
  0x428c3d433bd25517; 0xe4ede88843932cc8; 0x15ce76e83d46a8bd; 0xb73c630c7f52f146;
  0xc889a4421e818f47; 0x063ba0d9279e3036; 0x703f14b2dd630676; 0x9d638f1f05de62ff;
  0x41706dcec99d4d0c; 0x75f8e4e608b22e5b; 0x19b8f59973b9c8d1; 0xc9dd9439f105874e;
  0xaa1756ba36be19b3; 0xfc012d6adfaeec10; 0x4d06eebf87622d60; 0xbfd920520bf8b10e;
  0x2a5fec137a8c93b9; 0x73c3443f2f2c1e6d; 0x84db7a867667aa2e; 0xd5a291f4576d67b2;
  0xc390b7919864d714; 0xafd0a6eee36f319e; 0x2b0bdc6895089bb0; 0x86731a706bacba3c;
  0xa735e5b097c571d6; 0xb107c3d558ccc170; 0xb2fb9358aa83d96b; 0x5b34c8da486b9dc6;
  0x461ffd6c01877533; 0xd399312d70f35784; 0x9fcbefe9181572ed; 0xfd551d11302ae419;
  0xd4f6a18fb8e96fbb; 0x0f8ad3fcbcb07877; 0x9c37bf64ea5a6af6; 0x2f981c47af5dbb94;
  0x9b582fc6224052c9; 0x43d80d38d4565d1e; 0xeff4fb5bc576749b; 0xd9d41285199207de;
  0x798e6797464d4e37; 0xb668537790d6f94f; 0x53d18b843cc1dd8e; 0x7fb5c74e61d37e01;
  0xc138d76785afc706; 0xf077ae1b91518c7c; 0x23ee9f36e1a2dbf8; 0xe711b805b1dc34d3;
  0x25d53fefc63cebce; 0x5ef3388e9dbab5eb; 0xb59403fa6299e154; 0x1ed7653bbba3f0ee;
  0xa2f215e4421459fb; 0xdfefb25c3e0c37e8; 0xa661d5cb784179df; 0xfea94d9cc265fc02;
  0xac2cf66311202985; 0x22baaf4d0e26d3f1; 0xf9c6dd3e0a7fc43d; 0xe2d64851640d1cfe;
  0x4a697e1d4f78155f; 0xbc2570dff9b7a915; 0x35dcb9532eab6b5e; 0xca21c4b4034a9f55;
  0xeea0cb202af27c92; 0x78da57eca9c9463e; 0x05c7f054d5d1282d; 0x6b2f81ddb311deb5;
  0x5179eb72210acd9c; 0xe12a18dc964204e5; 0x599ca82c55a08dd4; 0xa3a6259fad9051f2;
  0xf2dfceed8c9a9c6e; 0x716b24c932e70e7f; 0x56167bd0e910f5a3; 0x115db6c707138899;
  0x6a7bb1a65c95d6bc; 0x89f9c98cd71cc24b; 0x94d2fc3a9ef02abe; 0x65f1625ae025aecb;
  0x8c3e39d802cdea66; 0xbb4ae07d31ad912a; 0x7750841015793e49; 0x3c6dca76b585231f;
  0x7b2607615b865e25; 0x28f78ce5674783ab; 0xab4366c1d93a11ba; 0xd2cd01569f775f8d;
  0x314f797c14fe4b7a; 0xdebb8227d1883fe1; 0xc4ff2733507eef2b; 0x5fa708f5723ebde2;
  0xcc1a646d24d4af63; 0xcfe634e0d69bb778; 0x7604b46bfafd3640; 0x2c644cca5d12a38f;
  0xb8b6b0f0c3e28931; 0xd88022fef6160fd7; 0x2ecc2c3c40d9b39d; 0x3620e9dedce47345;
  0xdb7c7273045917cc; 0x6987e12baedacea7; 0xb3afa3234507d162; 0x149a4693d2c2a0b4;
  0x9586cc41717422b7; 0xbe8d1029e47cb907; 0x629ef2f8283f96f4; 0xa10e4569b05b41e0;
  0x3b025ad47d9f1b20; 0x16322665cf09b0a6; 0x660d32d7126ab6d0; 0xe9cf5b82e2e844ad;
  0x5c5b58788071a5f9; 0x6c40117f7b0be68a; 0x6d142104948fee83; 0xad78c618fea4218c;
  0x3774d9a533607b4c; 0x6162a275da708eef; 0x4b3d4e66a0fc1d56; 0xb9e2808b2c668138;
  0xe382782a8b8914f7; 0xba1ed006de299923; 0xf1239e607ed58475; 0xa05a75125fdf49e9;
  0x858f4afd99e3a227; 0x83b4ea24be7d9211; 0xda284208ebdd1fc5; 0x474bcd17ee037d3a;
  0xc5ab1748bffae722; 0xb053f3aeb748c979; 0x33e7198a09355b68; 0xfa3a8db3f830dc26;
  0x967a9ccc833b3aac; 0x6fbc41f28944fe91; 0x6ee8718966c0f698; 0xc2c487ea77e0df1d;
  0xf64c0ec2b6cfbc4a; 0x502ddb09ce8ec595; 0xfffd7de72de1f40b; 0x5d0f68036ff5adf0;
  0xa9eb0637c4f101a8; 0x8e96592e1f06fa74; 0x1766161e208db8af; 0x1b10956f6e72d8c3;
  0x972eacb76cbf32a5; 0x7d1da7b87c186e13; 0xec08abd637396c80; 0x58c89857ba2485dd;
  0xf7183eb9594bb443; 0x1f8355405427f8e7; 0xfb6ebdc817b4d42f; 0x7c4997c3939c661a;
  0x09b173259b2e4841; 0x0d22b30aa17b6865; 0x7a72371ab402562c; 0x675902acfdeebed9;
  0x45e3ade1f3c86d28; 0x87272a0b8428b235; 0xdc13e2d1cc432ff3; 0xe89b6bf90d6c4ca4;
  0x4fae8e499aa93d72; 0x1d2b35b649ece8f5; 0x4efabe32752d357b; 0x0493c02f3a552024;
  0xeb673b74ff2354bf; 0xf892ed45e5fbcc34; 0xf38bfe96631e9467; 0x3ec5aa80a84e330d;
  0x3d39fa0d5a012b16; 0xbd7140a41633a11c; 0x8a0599012553da50; 0x88adf9f73898ca42;
  0xdd47d2aa23c727fa; 0xcd4e5416cb50a76a; 0x0b1913d386e55853; 0x13f5d6311ad8988b;
  0x98a47f4bd00f4ad2; 0x02a860f61dcb1012; 0x93bd6c9856ea1281; 0x8048baa94c328a0a;
  0x90413c15a4a50a9a; 0xd06561a082bc4f9f; 0x24810f9429b8e3c7; 0x34888928c12f6357;
  0xcb75f4cfecce975c; 0xed5c9badd8bd6489; 0xf4e46e34ab04ac58; 0xceb2049b391fbf71;
  0x99f04f303f8b42db; 0x100986bce8978090; 0x44b79d9a1c4c6521; 0x40245db526194505;
  0x92e95ce3b96e1a88; 0x3a566aaf921b1329; 0x0154307bef840809; 0x26296f623473f3d5;
  0x12a1e64af55c9082; 0x1a44a51481f6d0ca; 0x48c11eeb52b3054d; 0x68d3d150415ec6ae;
  0xf5b05e4f4480a451; 0x811c8ad2a3b68203; 0x8b51a97acad7d259; 0xc70377bea231f730;
  0xd65ec179a5227fa9; 0x2012cfbb13edc3e3; 0x0a4d23a86961505a; 0x08e5435e74aa4048;
  0x0000000000000000; 0x4c52dec468e62569; 0xd70af1024aa677a0; 0x74acd49de7362652].

Definition precomputedInversedLSTableLeft_8 : list Z := [
  0x99aa1604c2958c4a; 0x93e3daa395b5a197; 0x88fd2b3ba6c521bc; 0xae16296c271aaae1;
  0x8bbe0955e074cd78; 0xbd8228a686940e2e; 0x69bd24970613b223; 0xb14da0dd5d1538b8;
  0x6ebb7ed009dd4c95; 0x3830957d78bffcf9; 0x3eb6d1a1f41ee7b2; 0x9263c43816da446a;
  0x95659e7f1914badc; 0x590741b8ec526a3e; 0x313a7bb4692e3de0; 0x4ed6385b04a3dc83;
  0xd33956768f4942bb; 0xcea1e3323098d9db; 0xa01a9de23945954e; 0xe5057785e9a981ed;
  0xd5bf12aa03e859f0; 0xb9c7508fcfeb1c5c; 0xa45fe5cb703a873c; 0xbf411453434a0717;
  0x2d22d06b5590437d; 0xe7c64b702c7788d4; 0xdcb5fc63127998e9; 0x21ed58108e1175eb;
  0xf91ddc5ad517ff70; 0xeecca5b93de649cd; 0x6274f6abd25c7a03; 0xcde2c15c7629351f;
  0x67b19019184c8d8c; 0x72a3d50f35633208; 0x9b692af1074b8573; 0xbec10ac8c025e2ea;
  0xeb09c30bf7f6be42; 0x86f19fb5b89a1e13; 0x8334f907728ae99c; 0x090aeec91191c119;
  0x5448d758b4bcb955; 0x7766b3bdff73c587; 0x40da8cd51afce32c; 0xf691764f48272522;
  0x5a4463d6aae386fa; 0x0d4f96e058eed36b; 0xfa5efe3493a613b4; 0xc7ab0dfb210918c2;
  0x6572acecdd9284b5; 0x5f81056460f37175; 0xd2b948ed0c26a746; 0xf0173293c4863e69;
  0x94e580e49a7b5f21; 0x4399aebb5c4d0fe8; 0x449ff4fc5383f15e; 0x9eac4c43cd5b72fc;
  0xe9cafffe3228b77b; 0xb20e82b31ba4d47c; 0x2a248a2c5a5ebdcb; 0x139401caa18ea4cf;
  0x37bc3f68e58f26ab; 0x1c18abdf3cbe7e9d; 0xb488c66f9705cf37; 0x4b135ee9ceb32b0c;
  0x7fec43ef6d8de163; 0x78ea19a862431fd5; 0xcc62dfc7f546d0e2; 0x81f7c5f2b754e0a5;
  0xacd51599e2c4a3d8; 0x982a089f41fa69b7; 0x568bebad7162b06c; 0x1edb972af96077a4;
  0x30ba652fea41d81d; 0x14925b8dae405a79; 0xc568310ee4d711fb; 0x49d0621c0b6d2235;
  0xb0cdbe46de7add45; 0x7060e9faf0bd3b31; 0x0bc9d23cd44fc820; 0xa69cd93eb5e48e05;
  0xaf9637f7a4754f1c; 0xa19a8379ba2a70b3; 0x17d179e3e8f1b6bd; 0xf5d254210e96c9e6;
  0xfd58a4739c68ed02; 0x3c75ed5431c0ee8b; 0xcae49b1b79e7cba9; 0xa2d9a117fc9b9c77;
  0x4a9340724ddccef1; 0x0ccf887bdb813696; 0x185dd3f675c16cef; 0xc3ee75d268760ab0;
  0x47dcd69215321d9a; 0x8ffb717ca90bdf0a; 0xf2d40e6601583750; 0xe0c0113723b97662;
  0x3df5f3cfb2af0b76; 0xaa5351456e65b893; 0x570bf536f20d5591; 0x8771812e3bf5fbee;
  0xb64bfa9a52dbc60e; 0xe383335965089aa6; 0x232e64e54bcf7cd2; 0x52ce9384381da21e;
  0x8e7b6fe72a643af7; 0xdd35e2f891167d14; 0x2ca2cef0d6ffa680; 0x500daf71fdc3ab27;
  0xec0f994cf83840f4; 0x068644dc8ca11b4b; 0x9120e656506ba8ae; 0xa359bf8c7ff4798a;
  0xff9b988659b6e43b; 0x9c6f70b608857bc5; 0x2ba494b7d9315836; 0xc62b1360a266fd3f;
  0x39b08be6fbd01904; 0x2967a8421cef510f; 0x5bc47d4d298c6307; 0x90a0f8cdd3044d53;
  0x58875f236f3d8fc3; 0xf1972c0847e9db94; 0xdff6de0d54c8742d; 0x28e7b6d99f80b4f2;
  0x60b7ca5e1782733a; 0x796a0733e12cfa28; 0x76e6ad267c1c207a; 0x0343226e46b1ecc4;
  0xc827a7eebc39c290; 0x02c33cf5c5de0939; 0x12141f5122e14132; 0xef4cbb22be89ac30;
  0x465cc809965df867; 0x518db1ea7eac4eda; 0xdbb3a6241db7665f; 0x742591d3b9c22943;
  0x0f8caa159d30da52; 0xc12d4927ada80389; 0x8d384d896cd5d633; 0x683d3a0c857c57de;
  0xb7cbe401d1b423f3; 0x0e0cb48e1e5f3faf; 0x5d423991a52d784c; 0xe2032dc2e6677f5b;
  0xc0ad57bc2ec7e674; 0x9626bc115fa55618; 0xad550b0261ab4625; 0x01801e9b836fe5fd;
  0x24283ea244018264; 0xe84ae165b1475286; 0x8cb85312efba33ce; 0xf35410fd8237d2ad;
  0xa71cc7a5368b6bf8; 0x34ff1d06a33eca6f; 0xe64655ebaf186d29; 0x48507c878802c7c8;
  0xba8472e1895af098; 0x07065a470fcefeb6; 0xfcd8bae81f0708ff; 0x4d951a3542123047;
  0x19ddcd6df6ae8912; 0x4219b020df22ea15; 0x75a58f483aadccbe; 0x4c1504aec17dd5ba;
  0xa910732b28d45457; 0x82b4e79cf1e50c61; 0xf71168d4cb48c0df; 0x088af05292fe24e4;
  0x4f5626c087cc397e; 0x10d723a4e73f480b; 0x3b73b7133e0e103d; 0xcb648580fa882e54;
  0x206d468b0d7e9016; 0x63f4e83051339ffe; 0x7323cb94b60cd7f5; 0xed8f87d77b57a509;
  0xea89dd9074995bbf; 0xc9a7b9753f56276d; 0x327959da2f9fd124; 0x8432a3407d44172a;
  0x534e8d1fbb7247e3; 0x04457829497f1272; 0x7caf61812b3c0da7; 0x415a924e999306d1;
  0x276b1ccc02b06ea0; 0x55c8c9c337d35ca8; 0xcf21fda9b3f73c26; 0x71e0f76173d2decc;
  0x11573d3f6450adf6; 0x97a6a28adccab3e5; 0xd9709ad1d8696f66; 0xd07a7418c9f8ae7f;
  0xa8906db0abbbb1aa; 0x1b1ef1983370802b; 0x165167786b9e5340; 0x6c784225cc0345ac;
  0x2fe1ec9e904e4a44; 0x451fea67d0ec14a3; 0x33f94741acf034d9; 0x1d98b544bfd19b60;
  0xfe1b861ddad901c6; 0x7a29255da79d16ec; 0x64f2b2775efd6148; 0xb38e9c2898cb3181;
  0x1f5b89b17a0f9259; 0x2e61f2051321afb9; 0xe485691e6ac66410; 0x6afe06f940a25ee7;
  0x7d2f7f1aa853e85a; 0xd8f0844a5b068a9b; 0xc26e6b49eb19ef4d; 0x363c21f366e0c356;
  0xf89dc2c156781a8d; 0x26eb025781df8b5d; 0x3f36cf3a7771024f; 0x0a49cca757202ddd;
  0x9f2c52d84e349701; 0xf4524aba8df92c1b; 0x1a9eef03b01f65d6; 0xa5dffb50f35562c1;
  0x6137d4c594ed96c7; 0x357f039d20512f92; 0x7ba93bc624f2f311; 0xde76c096d7a791d0;
  0xb508d8f4146a2aca; 0xda33b8bf9ed883a2; 0xbc02363d05fbebd3; 0xd77c2e5fc63650c9;
  0xabd34fdeed0a5d6e; 0x22ae7a7ec8a0992f; 0x66318e829b236871; 0x3af3a988bd61f5c0;
  0x9ae9346a8424608e; 0x6b7e1862c3cdbb1a; 0x05c566b2ca10f78f; 0x6f3b604b8ab2a968;
  0x8077db69343b0558; 0x5cc2270a26429db1; 0xfbdee0af10c9f649; 0x897d35a025aac441;
  0x5e011bffe39c9488; 0x8a3e17ce631b2885; 0xbb046c7a0a351565; 0x6df85cbe4f6ca051;
  0x9def6e2d8bea9e38; 0x25a82039c76e6799; 0xc4e82f9567b8f406; 0x151245162d2fbf84;
  0x85b2bddbfe2bf2d7; 0xd6fc30c44559b534; 0xe1400faca0d6939f; 0xd43f0c318087bc0d;
  0x0000000000000000; 0xd1fa6a834a974b82; 0x7e6c5d74eee2049e; 0xb8474e144c84f9a1].

Definition precomputedInversedLSTableLeft_9 : list Z := [
  0xa555a490c68d2fd5; 0x2d90754e36f99f17; 0x329f4c809d5fd4f3; 0x8f0b946d4bb17f15;
  0x0e5f8aa5b5495d6d; 0x3041f8fa20c6cb66; 0x38bf6dd191e7b777; 0xc0c7666e809eaa5b;
  0x54bc6039d978a043; 0xe618684c0572b863; 0x9e5b2706555e699c; 0x39d037ec2e4a59dc;
  0x55d33a0466d54ee8; 0x7ee250c45444f083; 0x521d7fb7dd10813f; 0x916bf79e5fbada5a;
  0x64fd98c3f9be6b25; 0x03b1ee470234f13e; 0x570d8e7edb4c517d; 0x5ae3ea9c6c31fd2e;
  0x1cbed789a992bada; 0x60823337404f55cc; 0x07ce45b3bbc5cfd7; 0x18c17c7d10638433;
  0x21114b913e29ddef; 0x72636e1b5c94b27b; 0xa8bbc07271f08386; 0xd197d5059e71bcd2;
  0x29efdeba8f08a1fe; 0xc66679e084f68b27; 0xa43afead7920c17e; 0x3f7128622a2278a0;
  0xe0b977c2011a991f; 0x27b0541f3a41fc93; 0x8dd52017f6286080; 0x0c813edf08d042f8;
  0x82e5f08ffcccd346; 0xea9956930da2fa9b; 0xae1adffc7598a2fa; 0xb40517fbd862395c;
  0x9a248cf2ecaf5775; 0x6333dd70427ba4f2; 0x496ded8dcf47f432; 0xe5a9860b0746495d;
  0x422296e17c52791d; 0xe4c6dc36b8eba7f6; 0x152f189fa71e2860; 0xb7b4f9bcda56c862;
  0xc839f34531bfd64a; 0x06a11f8e0468217c; 0x70bdda61e10dadee; 0x9deac941576a98a2;
  0x419378a67e668823; 0x75ad2ba8e7517dac; 0x19ae2640afce6a98; 0xc956a9788e1238e1;
  0xaa657408cc699c13; 0xfc07a04ba88823c5; 0x4d12467976b6cadb; 0xbf4a6c976b77b473;
  0x2a5e30fd8d3c50c0; 0x730c3426e3395cd0; 0x8444ef01f8a4f23a; 0xd5e87ef12780823b;
  0xc376882982aa5b65; 0xaf7585c1ca354c51; 0x2b316ac03291be6b; 0x869a5b7b453dedaf;
  0xa78b10ea7b143040; 0xb115e632de3ee91e; 0xb2a40875dc0a1820; 0x5b8cb0a1d39c1385;
  0x465d3d15c5a347f4; 0xd349617f23e8a347; 0x9f347d3beaf38737; 0xfd68fa761725cd6e;
  0xd48724cc982d6c90; 0x0f30d0980ae4b3c6; 0x9c85937ce8c77609; 0x2f4ec1348b608082;
  0x9b4bd6cf5302b9de; 0x434dccdcc3ff97b6; 0xef89a75a0bfe2ad9; 0xd969402e2f50c0c3;
  0x792c1577ef813f54; 0xb6dba38165fb26c9; 0x5372258a62bd6f94; 0x7f8d0af9ebe91e28;
  0xc1a83c533f3344f0; 0xf0869e94a058613d; 0x23cfffeb83b0c27a; 0xe7773271badf56c8;
  0x256ee06587d8e306; 0x5e9c4168d5c0c3c7; 0xb56a4dc667cfd7f7; 0x1e6063f3140ba54f;
  0xa29be1237d48e002; 0xdfc85fa02b38e1bf; 0xa6e44ad7c4b9deeb; 0xfed9143115113c50;
  0xacc46b86c801bd6f; 0x22a0a5d63c1d2cd1; 0xf9175182aed4f387; 0xe267c3b8bc83868a;
  0x4adc03cacd73050c; 0xbcfb82d06943454d; 0x35510933269a1b24; 0xcae7473f8c26c9df;
  0xeee6fd67b453c472; 0x78434f4a502cd1ff; 0x0510f1c9065cd042; 0x6bcd485bf35ad8e3;
  0x51ac91f0df247001; 0xe1d62dffbeb777b4; 0x595204db6e050c10; 0xa3f4bb1ec2e50ea9;
  0xf2582aee1dc17ea8; 0x71d2805c5ea04345; 0x5662d44364e1bfd6; 0x1150b36b1eef1689;
  0x6aa212664cf73648; 0x89aa8be34fd95e69; 0x947b065759e60a18; 0x6592c2fe4613858e;
  0x8cba7a2a49858e2b; 0xbb35c763d2868a9a; 0x77739fd25ac86239; 0x3cc0c6252816899e;
  0x7bf2a10d521820c1; 0x2880848730a54f55; 0xab0a2e3573c472b8; 0xd2263b429c454dec;
  0x312ea2c79f6b25cd; 0xdea7059d94950f14; 0xc4b8cd9a396f94b2; 0x5ff31b556a6d2d6c;
  0xcc4658b1884ee8a3; 0xcff7b6f68a7a199d; 0x761cc5efe5658c92; 0x2cff2f73895471bc;
  0xb8842924d0b27ba4; 0xd8061a1390fd2e68; 0x2e219b0934cd6e29; 0x36e0e77424aeea1a;
  0xdbb7f45492c9df56; 0x6913fc214ec3c776; 0xb3cb524863a7f68b; 0x144042a218b3c6cb;
  0x95145c6ae64be4b3; 0xbe2536aad4da5ad8; 0x625c874dfdd64a59; 0xa12a0f647f7c113c;
  0x3b0e839693d34649; 0x169ef6d8a52ad95e; 0x66232cb9442774b0; 0xe928b8d40f960ba5;
  0x5c42f5126859dc52; 0x6c030de8489f1734; 0x6d6c57d5f732f99f; 0xadab31bb77ac53c4;
  0x378fbd499b0304b1; 0x61ed690affe2bb67; 0x4bb359f772deeba7; 0xb9eb73196f1f950f;
  0xe3089985032e6821; 0xba5a9d5e6d2b6431; 0xf1e9c4a91ff58f96; 0xa0455559c0d1ff97;
  0x852bb53c47091c91; 0x838aaab243613ded; 0xdad8ae692d6431fd; 0x473267287a0ea95f;
  0xc5d797a786c27a19; 0xb07abc0f619307b5; 0x33f016bd22f23a58; 0xfaa6bfc5ace002b9;
  0x96a5b22de47f158d; 0x6fb2e3af4aabe60a; 0x6eddb992f50608a1; 0xc219d2143d07b5ce;
  0xf627811aa4304041; 0x50c3cbcd60899eaa; 0xffb64e0caabcd2fb; 0x5d2daf2fd7f432f9;
  0xa9d49a4fce5d6d2d; 0x8e64ce50f41c91be; 0x17f1ace51a8737f5; 0x1b70923a1257750d;
  0x97cae8105bd2fb26; 0x7d53be83567001bd; 0xec38491d09cadbe7; 0x583d5ee6d1a8e2bb;
  0xf748db271b9daeea; 0x1f0f39ceaba64be4; 0xfbc9e5f8134dec12; 0x7c3ce4bee9ddef16;
  0x0991cf160e8c92ba; 0x0dee64e2b77dac53; 0x7a9dfb30edb5ce6a; 0x674c7684fb8a9a1b;
  0x45ecd352c797b6ca; 0x87f50146fa900304; 0xdc79b1e7290c1081; 0xe847e2e9b03be50e;
  0x4fccf203cb2fd54e; 0x1dd18db4163f5471; 0x4ea3a83e74823be5; 0x047fabf4b9f13ee9;
  0xebf60caeb20f1430; 0xf8780bbf11791d2c; 0xf33770d3a26c9003; 0x3e1e725f958f960b;
  0x3daf9c1897bb6735; 0xbd94d8edd6eeabe6; 0x8a1b65a44dedaf57; 0x88c5d1def074b0c2;
  0xdd16ebda96a1fe2a; 0xcd29028c37e30608; 0x0b4f7b6cb3158d2f; 0x138e0711a376091c;
  0x98fa3888513648e0; 0x02deb47abd991f95; 0x93b543e4e223c5cf; 0x803b44f54155ccd3;
  0x9004ada3e01734f1; 0xd0f88f3821dc5279; 0x2401ba5838750dad; 0x343e530e9937f58f;
  0xcb881d02338b2774; 0xed571320b667354c; 0xf4f9356019a95fd4; 0xce98eccb35d7f736;
  0x999562b5ee9ba64b; 0x103fe956a142f822; 0x4483896f783a5861; 0x40fc229bc1cb6688;
  0x92da19d95d8e2b64; 0x3a61d9ab2c7ea8e2; 0x016f5a3dbfadeeab; 0x26df0e2285ec1238;
  0x12e15d2c1cdbe7b7; 0x1a1fc807adfa9ba6; 0x4802b7b070ea1a99; 0x687ca61cf16e29dd;
  0xf5966f5da604b17f; 0x81541ec8fef82278; 0x8b743f99f24041fc; 0xc70923dd3b5b658c;
  0xd65990b625b47305; 0x207e11ac81843344; 0x0a2021510cb86384; 0x08fe952bb1217c11;
  0x0000000000000000; 0x4c7d1c44c91b2470; 0xd736ca8b9a199dae; 0x74c2719558fc9307].

Definition precomputedInversedLSTableLeft_10 : list Z := [
  0x51f65fccc9bb4bca; 0x33aea503f872cf10; 0xa46a1517526fc2d0; 0x67dee5a5d27efaff;
  0x0acf3ed405adfc4a; 0xe7849dfc9297e609; 0x28baf8d614f176eb; 0x1a5531760d191e24;
  0x6c50b7d23649a16a; 0x655c3d20d3897782; 0xfad56b657dce0b75; 0xe8cdbc42748d6466;
  0xac27f3465635b3e7; 0x5a780dbb2d8c105f; 0xa9a1ec2cb582cdc2; 0x306d1125181fe5b2;
  0x8bd42a2ea4de4763; 0x8399cc7fa0843654; 0xefc97bad96cd973e; 0x669f890633e45d20;
  0x145d7c6b0a993b94; 0x0dcbf93be7ed0f12; 0x05861f6ae3b77e25; 0x9242af7e49aa73e5;
  0x7a8f133c3d271783; 0x1359bb84e8d9c8cc; 0xd8a0ad676c9281d4; 0x875ebfb6a2a9efae;
  0xb5b17616bb418761; 0xdfa46a888ed2728c; 0x91811b58a9c75947; 0x2d3ce7bcf74608ce;
  0xa0ad66de50421b2a; 0xbf7e48c2beec7b2b; 0x24306d4e1286de26; 0x4921b63fc555d893;
  0xee88170e775730e1; 0x2c7d8b1f16dcaf11; 0x1d51f699ef59ed7c; 0xccfdd10c660bba40;
  0x7ccab8703efd4304; 0x8e52354447693946; 0xb87a8f2d5cac8873; 0xe6c5f15f730d41d6;
  0xf4dd26787a4e2ec5; 0x26b2b5cb1371535b; 0x1b145dd5ec83b9fb; 0x4f641d73c68f8c14;
  0xd56b545c8b7f8ec6; 0xc5f15bfe83cb6ca8; 0x50b7336f2821ec15; 0x794ca71add4a3d21;
  0x7744ea07daca1891; 0x16dfa4ee0b6eb6e9; 0x5235ebea29d66168; 0x151c10c8eb039c4b;
  0x9b4e258cac6aa50d; 0xb4f01ab55adb20be; 0x3e655c381f9fc002; 0x805a785940e91cf6;
  0x3628ba691bc5b135; 0xd32eff1088a5da41; 0x2b794cf0f49c5c49; 0x01416ca3e19aa7df;
  0x99ccfd09ad9d2870; 0xdd26b20d8f25fff1; 0xf65ffefd7bb9a3b8; 0x6897c41b34647890;
  0x1218d72709436f13; 0x8a95468d4544e0bc; 0x090c8af2e5c0d6e8; 0xa6e8cd9253984fad;
  0x72c2f56d397d66b4; 0xc4b0375d6251cb77; 0x3aa22ff11db219f8; 0x74875e213aa73233;
  0xc136283781e6b552; 0xcab87a4065d1eec7; 0xb93be38ebd362fac; 0x70402de8388aebc9;
  0xbcbdfce45e815189; 0x34aa62ec1a323c48; 0x6a151c9e3593f5ed; 0x4860da9c24cf7f4c;
  0x5ffe12d1ce3b6e7a; 0x8f1359e7a6f39e99; 0x69d6a8b8d5fedf4f; 0x9a0f492f4df002d2;
  0xda2275e26d650ca9; 0xfdd1ac8a9f8ef82d; 0x39619bd7fddf335a; 0xa52b79b4b3f5650f;
  0xfc90c0297e145ff2; 0xe0805a1370d71551; 0x0c8a95980677a8cd; 0x57b3f480ca611f4d;
  0x547040a62a0c35ef; 0x8d918162a70413e4; 0xd26f93b3693f7d9e; 0xf71e925e9a230467;
  0x5ebf7e722fa1c9a5; 0xf916df439da321d7; 0xf2988d3479947a42; 0xe343ee3590ba3ff3;
  0x3be34352fc28be27; 0x03c3b426e06d2aa2; 0xa1ec0a7db1d8bcf5; 0x9685dcb74b87aa1f;
  0xaa62580a55efe760; 0x9f895645ae477cf7; 0x46689781234f5afc; 0x416c506ec10fa9a4;
  0x2a3820531506fb96; 0x60da224a303e09a7; 0xe506457993606b74; 0x940704324a702762;
  0xbe3f24615f76dcf4; 0x90c077fb485dfe98; 0x2fbe3f39f6b185b3; 0x9d0b8ec0afb0f18a;
  0x811b14faa173bb29; 0xa22fbe5b51b59657; 0x760586a43b50bf4e; 0x4ba36ebac4a255ee;
  0xe44729da72faccab; 0x0645ab4c03da5487; 0x55312c05cb969230; 0xaea52bc357c23e9a;
  0x1c109a3a0ec34aa3; 0x75c63282db3d95ec; 0x5b396118cc16b780; 0x04c773c9022dd9fa;
  0x27f3d968f2ebf484; 0x4de6c5f6c7780169; 0x9c4ae2634e2a5655; 0x20f71e8710ab07dc;
  0x53748749c84cc6b7; 0xd0ed4b3668c8f0e3; 0x95466891abea80bd; 0xf3d9e197980edd9d;
  0x85dc6733a35e62d3; 0x88179e0844b36dc1; 0xb037697c58f6f944; 0x2275c602115c8aa1;
  0x0b8e5277e4375b95; 0x0282d88501f78d7d; 0xc97bce6685bcc465; 0xdb6319418cffab76;
  0xb672c2305b2cadc3; 0x402d3ccd20950e7b; 0x4e2571d027152bcb; 0xd7e98cd98a8803bb;
  0xab2334a9b47540bf; 0x988d91aa4c078faf; 0xc83aa2c5642663ba; 0xafe44760b6589945;
  0xa36ed2f8b02f3188; 0x44ea4f0422b8d781; 0x849d0b9042c4c50c; 0x9ec83ae64fdddb28;
  0xe20282967120982c; 0xcdbcbdaf87911d9f; 0xfb9407c69c54acaa; 0x45ab23a7c322705e;
  0x2334aaa1f0c62d7e; 0xc632efd863a6460a; 0x3da6e81efff2eaa0; 0x179ec84deaf41136;
  0xeb0e086494e04ec4; 0x2eff539a172b226c; 0xcbf916e3844b4918; 0xb2b5b1f959017439;
  0x5c3da6f72e5644d8; 0x4ae202192538f231; 0x641d51833213d05d; 0x7101414bd9104c16;
  0x35eb0e4ffba89b97; 0xc773837b823ce1d5; 0x0704c7efe240f358; 0x59bbb99dcde13afd;
  0x3820f7741c459485; 0xea4f64c7757ae91b; 0x3769d6cafa5f16ea; 0x6319966cd0532305;
  0x18d7e9f30cee9359; 0xa7a9a131b202e872; 0x58fad53e2c7b9d22; 0x11db6301e92e45b1;
  0xf59c4adb9bd4891a; 0xd9e1c1c48d08260b; 0xe98cd0e19517c3b9; 0x257101edf31c79f9;
  0xf857b3e07c398608; 0x97c4b014aa1d0dc0; 0xb17605dfb96c5e9b; 0x19968550ed743486;
  0x0f4921bee61a826f; 0x8956f2aba529ca1e; 0xdc67deae6ebf582e; 0x084de651045a7137;
  0xf15b391299f950e0; 0xa8e0808f54186a1d; 0x0e084d1d078025b0; 0x6f9303f4d6248bc8;
  0x7d8bd4d3df67e4db; 0xd42a38ff6ae52919; 0xbdfc9047bf1bf656; 0x861fd31543334871;
  0xec0acf8b76a0bd9c; 0x32efc9a019e868cf; 0x7e4860f53f0ace79; 0xed4ba328973a1a43;
  0x6ed26f5737be2c17; 0xc3b4f0b28011382f; 0x21b67224f131a003; 0x6258facf31c984da;
  0xce7f098967fc373d; 0x9303c3dda830d43a; 0x4ca7a95526e2a6b6; 0xdee5062b6f48d553;
  0x3f24309bfe0567dd; 0x43ee88ebc0f824d9; 0x738399ced8e7c16b; 0xad669fe5b7af1438;
  0xf01a55b17863f73f; 0x4729fb22c2d5fd23; 0x3ce784bd1e684d7f; 0x619b4ee9d1a4ae78;
  0x56f298232bfbb892; 0x29fb9475f56bd134; 0x7bce7f9fdcbdb05c; 0x109a0fa208b4e26e;
  0xff53740f9e797550; 0x5d7cca54cfcce307; 0x312c7d86f985426d; 0xb733ae93bab60a1c;
  0xb3f4dd5ab89bd3e6; 0x6b54703dd4095232; 0xc0774494607c128d; 0x7f090c56de9069a6;
  0x1e9242bf0f34c7de; 0xd1ac27958952573c; 0x780dcbb93cd09afe; 0xc2f59c11618b9ff0;
  0xbbb93b0bbcc1a2d1; 0x6d11db71d7d306b5; 0xe1c136b0914db28e; 0x1fd32e1ceeae6001;
  0x82d8a0dc411e918b; 0xbaf857a85d5b050e; 0x8cd0edc1469eb43b; 0xcf3e652a866690e2;
  0x0000000000000000; 0xfe1218ac7fe3d28f; 0x42afe44821628306; 0xd6a8e07a6b12a464].

Definition precomputedInversedLSTableLeft_11 : list Z := [
  0xd859e0f8d22aca1c; 0x69b674385c6410ef; 0xc0d241db4a91d0a1; 0xbabff75c5408ffc7;
  0x16a0c6fb778c4a68; 0x8768acfe5ba509f4; 0x58c59e6a1f75eb63; 0x5963f57eafd12456;
  0xc40f2e8bcf446a75; 0x6a9fc9044f4b82b0; 0x057b0444357175e1; 0x9a980999f66f66a8;
  0x0652b978265ee7be; 0xa6e9392f49665fae; 0x0d02dae4fc18c28a; 0xd186554cabe7b242;
  0x4367827594e16381; 0x85e77ad6f82e549e; 0x41e8545d376a3eeb; 0xd2afe870b8c8201d;
  0x2c834f35eedb94d0; 0xcdd09b3fb689122b; 0x0b50639cda462534; 0xa234567fccb3e57a;
  0x38ac5fe63adc83d2; 0xf7f312f12fdecc93; 0x4b1e5cd55d88d4ea; 0xe6a70666cea8ae70;
  0xe7016d727e0c6145; 0x906e01119c8d8ca9; 0x1a04770b3b3047d7; 0x5395fdf6c533ce57;
  0xa3923d6b7c172a4f; 0xf1a1ab8909802b2d; 0xfd051a79453c2692; 0x511a2bde66b8933d;
  0x29f84b71dbaae131; 0x3b85e2da29f3118d; 0x8213a8ba6ed47c15; 0x679d13e0b353403a;
  0x8bcc1d0e1719044b; 0x4837e1e94ea746b5; 0x2ad1f64dc885736e; 0xef78b3d2b765d62e;
  0x709bbe0f747bc567; 0x2d2524215e7f5be5; 0x3173ea524311fb8c; 0xe27a69364b7d14a4;
  0x86cec7eaeb01c6c1; 0xc90df46f335ca8ff; 0xb049ffd43eea15c6; 0x809c7e92cd5f217f;
  0xf57cc4d98c5591f9; 0xfca3716df598e9a7; 0x6069c18c25a968b1; 0x44935019021b4b0a;
  0x0ca4b1f04cbc0dbf; 0x8f11725e92ccbe9f; 0xa466ef07eaed02c4; 0x3dd75ba20fadf633;
  0x62e617a4862235db; 0x35ae8502c6c44158; 0xe0f5bf1ee8f649ce; 0x68101f2cecc0dfda;
  0xdc848fa857ff70c8; 0x404e3f4987cef1de; 0xa0bb80576f38b810; 0xa74f523bf9c2909b;
  0x9fe30dddc31e1349; 0x2b779d597821bc5b; 0xae90e78f800fe8c5; 0x10f27f8351d2add6;
  0xfe2ca7455613b4cd; 0xa11deb43df9c7725; 0xc72693b7dc6bf82a; 0x4d4ce5ad7bd63354;
  0xaa4d88df05da5211; 0xd4fd51089e96c7a3; 0x42c1e9612445acb4; 0x2e0c991d4d50c9ba;
  0x49918afdfe038980; 0xb2c629fc9d6148ac; 0x776f6c63e281edec; 0x390a34f28a784ce7;
  0xadb95ab393207a9a; 0x2027fec5a267996f; 0xcf5f4d1715024f41; 0x64b4aedca07cd265;
  0x9b3e628d46cba99d; 0xde0b5980f4742da2; 0x7f16b2c32be85a87; 0xa8c25ef7a6510f7b;
  0xb61b46ac18b4f278; 0x5c18f13a9aa051b7; 0xa5c084135a49cdf1; 0x6b39a210ffef4d85;
  0xd3098364086cef28; 0xf007c09db924e418; 0x5dbe9a2e2a049e82; 0xc8ab9f7b83f867ca;
  0xc5a9459f7fe0a540; 0xbd4b2530c2f2d74c; 0xc3fbfce759be42fe; 0xe428d04e6d23f31a;
  0xaf368c9b30ab27f0; 0xb8302174f783a2ad; 0xcb82224790d7f595; 0xc1742acffa351f94;
  0xb532fb900b9b6027; 0x6fe4cd407a3af751; 0x4cea8eb9cb72fc61; 0x979ad37d0a77a422;
  0x88e5a03204369614; 0x61cfaa98950da784; 0x574892a640e67483; 0x11541497e17662e3;
  0x99b1b4a5e540f4f7; 0x72146827d7f0980d; 0x83b5c3aede70b320; 0xbfc4f31861798a26;
  0x55c7448ee36d29e9; 0x73b2033367545738; 0x9d6cdbf560954e23; 0x813a15867dfbee4a;
  0x3f588d8aac26ab59; 0xb36042e82dc58799; 0xbb199c48e4ac30f2; 0xd67287203d1d9ac9;
  0xea03b7968214a3cf; 0x255cfa819716ec8e; 0xcef92603a5a68074; 0x63407cb03686faee;
  0x45353b0db2bf843f; 0x325a576e503e69d3; 0xd7d4ec348db955fc; 0x9e4566c973badc7c;
  0x0879dea0c969b76b; 0x8d9ea4763147e3f5; 0x79440bbb0db6bd39; 0xabebe3cbb57e9d24;
  0x3687383ed5ebd307; 0xfb57a3016362c12c; 0xec510eeea44a4471; 0x4e65589168f9a10b;
  0x7eb0d9d79b4c95b2; 0xd0203e581b437d77; 0x6ccd707c6915650e; 0xf32e7da1aa0b7647;
  0x5f314c06898fc3e8; 0xff8acc51e6b77bf8; 0x8a6a761aa7bdcb7e; 0x56eef9b2f042bbb6;
  0xdd22e4bce75bbffd; 0xb4949084bb3faf12; 0x04dd6f5085d5bad4; 0xbe62980cd1dd4513;
  0x1ba21c1f8b9488e2; 0x9ccab0e1d0318116; 0x5e972712392b0cdd; 0x07f4d26c96fa288b;
  0x8c38cf6281e32cc0; 0x0f8d0ccc5f939fe0; 0x6d6b1b68d9b1aa3b; 0xf4daafcd3cf15ecc;
  0x267547bd84397ed1; 0x713dd51bc4df0a52; 0x1c56ce731d6ea069; 0x94b36e411958367d;
  0x22a828ed01ecc405; 0xeba5dc8232b06cfa; 0xbced4e2472561879; 0x3c7130b6bf093906;
  0x15897bc764a3d837; 0xe92a0aaa913b3190; 0x028fd628a38b5d6a; 0x461c8631a1901660;
  0xdad636d071a19776; 0x192dca37281fd588; 0xdb705dc4c1055843; 0x1ed9185bbee5fd03;
  0x1706adefc728855d; 0x4ab837c1ed2c1bdf; 0x0af608886ae2ea01; 0xd9ff8bec628e0529;
  0x8943cb26b4925921; 0x78e260afbd12720c; 0x76c90777522522d9; 0x27d32ca9349db1e4;
  0x188ba12398bb1abd; 0x230e43f9b1480b30; 0xf28816b51aafb972; 0x95150555a9fcf948;
  0xd55b3a1c2e320896; 0xa96435e316f5c04e; 0x844111c2488a9bab; 0xe153d40a585286fb;
  0x1df0a567adca6f5c; 0x9347bc2d8fa21ef6; 0x285e20656b0e2e04; 0xc680f8a36ccf371f;
  0x7bcbdd93ae3de053; 0x6512c5c810d81d50; 0x75e0ba4b410ab086; 0x7c3f0fff38c7c8d8;
  0xe3dc0222fbd9db91; 0xeeded8c607c1191b; 0x218195d112c3565a; 0x8eb7194a226871aa;
  0xf9d87529c0e99c46; 0x01a66b14b0a4cf35; 0x5bec23560c5a793c; 0x91c86a052c29439c;
  0x142f10d3d4071702; 0x7a6db6871e992f66; 0xf65579e59f7a03a6; 0xb1ef94c08e4edaf3;
  0xb7bd2db8a8103d4d; 0xca24495320733aa0; 0x5a4a4842bcfeb609; 0xf87e1e3d704d5373;
  0xcc76f02b062ddd1e; 0x47baed251134d955; 0x963cb869bad36b17; 0x6e42a654ca9e3864;
  0x13dbc2bf42fd3f89; 0x24fa919527b223bb; 0x7446d15ff1ae7fb3; 0x09dfb5b479cd785e;
  0x0329bd3c132f925f; 0x30d58146f3b534b9; 0x50bc40cad61c5c08; 0x4fc33385d85d6e3e;
  0x0e2b67d8ef3750d5; 0x7d9964eb886307ed; 0xb9964a6047276d98; 0x3721532a654f1c32;
  0x54612f9a53c9e6dc; 0x1f7f734f0e413236; 0xc25d97f3e91a8dcb; 0x33fc3c7ae09aa6e6;
  0x3a2389ce9957deb8; 0xe58ebb5add873c2f; 0xe88c61be219ffea5; 0x127da9abf259f0bc;
  0x92e1d7393f06d1c3; 0xac1f31a72384b5af; 0x3408ee1676608e6d; 0x523396e275970162;
  0xedf765fa14ee8b44; 0xfaf1c815d3c60e19; 0x9817dfb155e43bc2; 0xdfad329444d0e297;
  0x0000000000000000; 0x663b78f403f78f0f; 0x2faaf209fdf4068f; 0x3efee69e1c82646c].

Definition precomputedInversedLSTableLeft_12 : list Z := [
  0xc245b95785a8db13; 0x9559c2207c538121; 0xa67393632901426e; 0x2778483d6920975e;
  0xe0c86694e37559d8; 0x869cc41249d11c46; 0x06a65b150a17a7e6; 0x5d359648e7c270db;
  0x097a21d41bd3989a; 0x782f56c788ef3b66; 0xf49a7feadf070dc9; 0x163091cc3a7f88f2;
  0x19eceb0d2bbbb78e; 0xec47d0bef75bd4d7; 0x6988d847bb607ae2; 0x04c4d3a70c1a7b05;
  0x8fe6e5c6520284dc; 0x30799da850b8713c; 0x3903bc7c4b6be9a6; 0xe9b24740f8a6c142;
  0x0353cceb05eab273; 0xcffb4b249261388c; 0x7064334a90dbcd6c; 0x434e6209c5890e23;
  0x557ef3c5fff686d1; 0x2c60e15b74fed327; 0x12f4426b3665f3f7; 0x8ed7a19f51e5ea4c;
  0xd5446cc2bc303d71; 0x3dc76fdb477192a3; 0xd2d3738eb5c0f407; 0x76c2685f9acc6a8a;
  0x18ddaf54285cd91e; 0x358c0a565f4564a9; 0x07971f4c09f0c976; 0xc02731e583a507f0;
  0xf7c9b301daedbfba; 0xb80867220b4a3c96; 0x7206bbf896d6118f; 0x11a78e80338f4184;
  0xb487d1081f64b199; 0xff82d68cc2d949b0; 0x1abf27e62e5105fd; 0x4856cb6fd8574a5a;
  0xaafc25493d2fcf61; 0x58c001b6e83f654e; 0x93ff9935764426c7; 0x21de1328633730b8;
  0xdd0f094fa404cb7b; 0x60f2f993a0b3e278; 0x0c8fb62a142e8d0f; 0xc4e3e2428fbf7cf5;
  0x9a85b8e16d97be5d; 0x5c04d211e4251e4b; 0x53d8a8d0f5e12137; 0xcd99c396946ce46f;
  0x321b151a56b5addf; 0x1b8e63bf2db66b6d; 0x5aa28904ee32b9ad; 0xa1e48c2f20f18b18;
  0xe53df16aec884c4d; 0x3cf62b824496fc33; 0x973b4a927a5e5dc2; 0xceca0f7d9186561c;
  0x6d4c0be0b77a01e7; 0x62907121a6be3e9b; 0xf5ab3bb3dce06359; 0xb7d41de31a8e03ea;
  0xe2aaee26e578853b; 0x412ceabbc384d2c0; 0x71557713933ca3fc; 0xf9248d99c8ceee56;
  0xeae18babfd4c7331; 0xae38f6ee3135b464; 0xe40cb533ef6f22dd; 0x0b18a9661dde4479;
  0xde5cc5a4a1ee7908; 0xf05eac4dd31d76cc; 0xd475289bbfd753e1; 0xb5b695511c83df09;
  0xa4111bd12f0c9e8d; 0xba6aef900d47e075; 0xe8830319fb41afd2; 0x0eed3e98122351ec;
  0x9c23e3f4678019bb; 0x3148d9f1535f1fac; 0x791e129e8b0855f6; 0xfcd11a67c733fbc3;
  0x4da35c91d7aa5fcf; 0xdba9525aae136c9d; 0x7591a4b49f26d8f9; 0x68b99c1eb8871472;
  0x15635d273f953a81; 0xa9afe9a238c57d12; 0x0131445903e76e90; 0x23bc9b9a653aec5b;
  0xb2218a1d1573167f; 0x6e1fc70bb290b394; 0xf23c24ffd510aa2f; 0x3b6134ce4d663545;
  0x52e9ec89f6064fa7; 0x65076e6daf4ef7ed; 0x4b050784ddbdf829; 0x3832f825488c8736;
  0x2ac6ba4e7ee974c1; 0x919d11877049fa24; 0xd617a029b9da8f02; 0xfde05e3ec4d49553;
  0xf815c9c0cb2980c6; 0x8cb5292d57e836af; 0x508b643bf00b9344; 0x7fb8498b811ff210;
  0x59f145efebd80bde; 0x084b658d1834f60a; 0xd9cbdae8a81eb07e; 0xa2b740c4251b396b;
  0xfb46052bcec332b5; 0x1c197cf32446a21b; 0x299576a57b03c6b2; 0xd3e237d7b6279a97;
  0x6f2e8352b177dd04; 0x478ab1aec9937526; 0x544fb79cfc11e841; 0x9f702f1f626aabc8;
  0x1701d5953998e662; 0xe1f922cde0923748; 0x7ceb856084f54063; 0x46bbf5f7ca741bb6;
  0xbcccb48507504793; 0xc5d2a61b8c581265; 0x228ddfc366dd82cb; 0xbeae3c37015d9b70;
  0x960a0ecb79b93352; 0x7e890dd282f89c80; 0x1d2838aa27a1cc8b; 0xb939237b08ad5206;
  0x9d12a7ad6467772b; 0xad6b3a0534df0617; 0x6c7d4fb9b49d6f77; 0x85cf08f94c3bae35;
  0xd180bf65b02a4674; 0x1e7bf441224b7ef8; 0xa5205f882cebf01d; 0xe66e3d81e962fe3e;
  0x2e0269e972f30fc4; 0x5f571efae1cfac38; 0x61c3bdcaa3548ce8; 0x836953ec462c09d3;
  0x44d97d45cc79c755; 0xb17246f61099a40c; 0xef141c55f2b166a4; 0x825817b545cb6743;
  0x36dfc6bd5aafd6da; 0xa386049d26fc57fb; 0xaf09b2b732d2daf4; 0x8871fa8a5bf24daa;
  0x8940bed35815233a; 0x0fdc7ac111c43f7c; 0x1f4ab01821ac1068; 0x427f2650c66e60b3;
  0xf6f8f758d90ad12a; 0xdf6d81fda2091798; 0x3a5070974e815bd5; 0xc11675bc80426960;
  0x28a432fc78e4a822; 0xf16fe814d0fa185c; 0xcb3f98839e7b4389; 0x92cedd6c75a34857;
  0x87ad804b4a3672d6; 0xe75f79d8ea8590ae; 0x3e94a330429b20d0; 0xfa774172cd245c25;
  0x0dbef27317c9e39f; 0x51ba2062f3ecfdd4; 0xb6e559ba19696d7a; 0x7b7c9a2c8d058915;
  0x74a0e0ed9cc1b669; 0x3fa5e769417c4e40; 0x2f332db071146154; 0x7ddac13987122ef3;
  0xbb5babc90ea08ee5; 0x49678f36dbb024ca; 0x2bf7fe177d0e1a51; 0x99d6740a687d0c2e;
  0x026288b2060ddce3; 0x37ee82e45948b84a; 0xb310ce44169478ef; 0x7337ffa195317f1f;
  0x64362a34aca9997d; 0xdc3e4d16a7e3a5eb; 0xd8fa9eb1abf9deee; 0xc95d103198769f6a;
  0xabcd61103ec8a1f1; 0x332a51435552c34f; 0x6bea50f5bd6da601; 0xcca887cf978b8aff;
  0x90ac55de73ae94b4; 0xd0b1fb3cb3cd28e4; 0xac5a7e5c37386887; 0xbf9f786e02baf5e0;
  0xda981603adf4020d; 0xa742d73a2ae62cfe; 0x5e665aa3e228c2a8; 0x98e730536b9a62be;
  0x7a4dde758ee2e785; 0x13c5063235829d67; 0x6adb14acbe8ac891; 0x401daee2c063bc50;
  0xa89eadfb3b221382; 0x5b93cd5dedd5d73d; 0xebd0cff2feab1da1; 0x6654a286aaa4459e;
  0x562d3f2efa1c34a2; 0x810bdb5e4021d530; 0x77f32c06992b041a; 0x571c7b77f9fb5a32;
  0x4ef0907ad240edbc; 0x8d846d74540f583f; 0xb04302af137eca9c; 0xf30d60a6d6f7c4bf;
  0x946886797fb4efb1; 0x20ef577160d05e28; 0x242b84d66cca252d; 0xd726e470ba3de192;
  0x1452197e3c725411; 0x9e416b46618dc558; 0x05f597fe0ffd1595; 0xc6816af089b2a016;
  0xed7694e7f4bcba47; 0xc86c54689b91f1fa; 0x9bb4fcb86e70d0cd; 0xbdfdf0dc04b72903;
  0x84fe4ca04fdcc0a5; 0xc374fd0e864fb583; 0xca0edcda9d9c2d19; 0x8a1372385dff9149;
  0x34bd4e0f5ca20a39; 0x26490c646ac7f9ce; 0x1096cad930682f14; 0x251ac08f6f2d4bbd;
  0xe39baa7fe69febab; 0x63a13578a559500b; 0x0a29ed3f1e392ae9; 0x4fc1d423d1a7832c;
  0x8b2236615e18ffd9; 0xc7b02ea98a55ce86; 0x6765e6dfa9432b0e; 0x2d51a5027719bdb7;
  0xfeb392d5c13e2720; 0x45e8391ccf9ea9c5; 0xa0d5c8762316e588; 0x803a9f0743c6bba0;
  0x0000000000000000; 0x4a3443ddde5a96b9; 0xee25580cf1560834; 0x4c9218c8d44d315f].

Definition precomputedInversedLSTableLeft_13 : list Z := [
  0xabda7f9375633b22; 0xbbd9f4a6c11bf5e1; 0x833c0e0284af03e7; 0x0d8c0340edc460d0;
  0x3addd3eab2bb9f26; 0x4ad4e4613810b02a; 0xe8f2ca2e8da93998; 0xebd61647e04085a8;
  0x8facf865f38db627; 0xbeb5531d76e3f2b1; 0x0fb42a0e1acb09f0; 0x6d86bffed317811f;
  0x0ad88db5ad330ea0; 0x29fa84b66b2aedd5; 0x175705c0f48fa0b3; 0xb01d8c34f6ce2e51;
  0xc5781c04cb9d060d; 0x4c9c9fb3e2010b4a; 0xc33067d6118cbd6d; 0xb5712b8f41362901;
  0x74796517a7b5fd4c; 0x946b0bc27020a354; 0x1d8f887559bcae13; 0x256a72d11c085815;
  0x48eccd2fcf1fd90a; 0xdacfbd3f652ec13e; 0xdd9b33ca25d9af4e; 0xe9ee3f09174fec88;
  0xeacae3607aa650b8; 0x732debe2e742933c; 0x2eae0a432bdd83a5; 0xf57d425bd415978b;
  0x264eaeb871e1e425; 0xd017308ac81dcf9e; 0xc464e923517bd31d; 0xf33539890e042ceb;
  0x7bcd4f19bd7ef4bc; 0x4d806a9478e7de5a; 0x4560ce6f22dbb9da; 0xa9e256dd826c5202;
  0x5ea73dc8a176aca9; 0xd8f794719221a81e; 0x7ea1e8a20a86f3ec; 0xf229ccae94e2f9fb;
  0x901b595e5d3e7114; 0x775db97eca5c417c; 0x532b3e884cb2cc79; 0xe57ec96e606d5948;
  0x49f0380855f90c1a; 0x98fbfda507021694; 0x1327575cd99172f3; 0x4328b5bdf8ca02ba;
  0xdc87c6edbf3f7a5e; 0xc740354a3c926f2d; 0xa01e070142b6e092; 0xcc844dd80b47b49d;
  0x1473d9a999661c83; 0x5237cbafd6541969; 0x2fb2ff64b13b56b5; 0x4758e721d5d4d0fa;
  0xa6567cd398a75bf2; 0x5fbbc8ef3b9079b9; 0xe336b2bcba7ce228; 0xb8fd28cfacf249d1;
  0xa74a89f402418ee2; 0xc014bbbf7c65015d; 0x23220903c619e375; 0x2ade58df06c351e5;
  0x623295f0c9dc88ef; 0x7d8534cb676f4fdc; 0x3119ab78856e4496; 0x30055e5f1f889186;
  0xc1084e98e683d44d; 0x2006d56aabf05f45; 0x8ac05fde4475b177; 0xd743be7f88eaa1ee;
  0x3d895d1ff24cf156; 0xbfa9a63aec0527a1; 0xc65cc06da674ba3d; 0x72311ec57da4462c;
  0xdbd34818ffc8142e; 0x156f2c8e0380c993; 0x99e708829de4c384; 0x4bc81146a2f6653a;
  0x34750cc3329643c6; 0x600abcbe3ed3e1cf; 0x92237010aa311834; 0xac8ef16635945552;
  0x6ea26397befe3d2f; 0xa102f226d8503582; 0x8104274c73a06ac7; 0x3bc126cd285d4a36;
  0x19ffdae974a27c53; 0xe4623c49fa8b8c58; 0x2c96230ddcd2ea85; 0xbd918f741b0a4e81;
  0xb655f7e62cdf9531; 0xd333ece3a5f473ae; 0xe746e02097623068; 0x9bdf21cc6aebaaa4;
  0x8c88240c9e640a17; 0x0470529c2d1ed240; 0x8650a9b9335704b7; 0xefa644dbcd5e57e8;
  0x323d7711e887f8a6; 0x0bc4789237d5dbb0; 0x9eb38677dd13adf4; 0x8018d26be946bfd7;
  0x1c937d52c35a7b03; 0xb10179136c28fb41; 0xd4676216e5031dde; 0x7ad1ba3e279821ac;
  0x5bcb9a73168eabf9; 0xa33adb682f5f5ca2; 0xf9edb43ca337224b; 0x3321823672612db6;
  0x68ea184564ef864f; 0x9653228c872fca74; 0x464412064f3205ea; 0x0238294ef70f6920;
  0xffa5cfee7926992b; 0x9577fee5eac67644; 0x647aee2213cd338f; 0x400c69d49523be8a;
  0x41109cf30fc56b9a; 0x164bf0e76e6975a3; 0x0ea8df29802ddce0; 0xb9e1dde836149cc1;
  0xfd9de6a08e29f00b; 0x6fbe96b02418e83f; 0x9107ac79c7d8a404; 0xa572a0baf54ee7c2;
  0xcfa091b166ae08ad; 0x56479933fb4acb29; 0xbac501815bfd20f1; 0x61164999a43534df;
  0x18e32fceee44a943; 0x547fb07d0c45a209; 0x8bdcaaf9de936467; 0x3ead81769fa54d66;
  0x5ad76f548c687ee9; 0xcebc6496fc48ddbd; 0xf7456b15231afeab; 0xd22f19c43f12a6be;
  0x8220fb251e49d6f7; 0xb339505d9b279261; 0xb46ddea8dbd0fc11; 0xd65f4b58120c74fe;
  0xe10e9bf24d738b08; 0xc22c92f18b6a687d; 0x5d83e1a1cc9f1099; 0xfac96855cede9e7b;
  0xa46e559d6fa832d2; 0x1fb7a13baeb3c733; 0x0c90f6677722b5c0; 0x011cf5279ae6d510;
  0x2d8ad62a46343f95; 0x675e324b7e248fbf; 0xe22a479b209a3738; 0x09fc51dcc0dab290;
  0x575b6c1461ac1e39; 0x111f7e122e9e1bd3; 0xb74902c1b6394021; 0xdfa31a84d2d6c66e;
  0x6ad2310b93e0ef6f; 0x933f853730d7cd24; 0x247687f686ee8d05; 0x7fbd1d85906026fc;
  0x6642c76ce4c25aaf; 0xfeb93ac9e3c04c3b; 0x07548ef540f76e70; 0x447c3b48b83d6cca;
  0x3fb1745105439876; 0xf8f1411b39d1f75b; 0x06487bd2da11bb60; 0xcacc360ad1560ffd;
  0xad920441af728042; 0x2bc2adf89c2584f5; 0xaeb6d828c29b3c72; 0x223efc245cff3665;
  0x39f90f83df522316; 0xdebfefa34830137e; 0x1eab541c34551223; 0xa8fea3fa188a8712;
  0x58ef461a7b6717c9; 0x88f87690b37ad857; 0x9ac3d4ebf00d7fb4; 0x69f6ed62fe09535f;
  0x28e67191f1cc38c5; 0x65661b05892be69f; 0xd57b97317fe5c8ce; 0x7c99c1ecfd899acc;
  0xbc8d7a5381ec9b91; 0x38e5faa445b4f606; 0x4fb843da8fe8b77a; 0xe0126ed5d7955e18;
  0x27525b9feb073135; 0x76414c5950ba946c; 0x78e99370d097488c; 0x89e483b7299c0d47;
  0x8d94d12b0482df07; 0xafaa2d0f587de962; 0x9faf735047f578e4; 0x846880f7c4586d97;
  0xe65a15070d84e578; 0xf10d10c7f90b45cb; 0x632e60d7533a5dff; 0x511317c6bbbda559;
  0xc8f41f44265966dd; 0x0324dc696de9bc30; 0xed9e6d953a513ec8; 0x7009378b8aab2f0c;
  0x3c95a83868aa2446; 0x8eb00d42696b6337; 0xd9eb615608c77d0e; 0x10038b35b478cec3;
  0x1adb0680194bc063; 0x9d975a1eb0fa11c4; 0xeebab1fc57b882f8; 0xcbd0c32d4bb0daed;
  0x974fd7ab1dc91f64; 0xc9e8ea63bcbfb3cd; 0x79f566574a719d9c; 0xb225a57a01c14771;
  0x3569f9e4a87096d6; 0x6c9a4ad949f1540f; 0x9c8baf392a1cc4d4; 0x1bc7f3a783ad1573;
  0x056ca7bbb7f80750; 0x500fe2e1215b7049; 0xf011e5e063ed90db; 0xd10bc5ad52fb1a8e;
  0x123ba27b4377a7e3; 0x874c5c9ea9b1d1a7; 0x08e0a4fb5a3c6780; 0x59f3b33de181c2d9;
  0xfc81138714cf251b; 0x211a204d31168a55; 0x857475d05ebeb887; 0x5563455a96a37719;
  0x4ea4b6fd150e626a; 0xec8298b2a0b7ebd8; 0xfbd59d7254384b6b; 0x364d258dc5992ae6;
  0x756590303d53285c; 0x3751d0aa5f7ffff6; 0x5c9f14865679c589; 0xf6599e32b9fc2bbb;
  0xf461b77c4ef3429b; 0xcd98b8ff91a1618d; 0x6bcec42c09063a7f; 0xa2262e4fb5b989b2;
  0x0000000000000000; 0xaac68ab4ef85ee32; 0x7115c2ac104dfa1c; 0x4234409a622cd7aa].

Definition precomputedInversedLSTableLeft_14 : list Z := [
  0x4752d9d26981424a; 0xe9db315c2edf1297; 0x8f26be4a2512cabc; 0x4e4aa1542a0539e1;
  0x03459277dab6d278; 0xcf7c4f5bccefa12e; 0x0cd70d1fee9dce23; 0xba33ffafb63ac1b8;
  0x1230f0cf86cbf695; 0xf034e44fc6f503f9; 0x2bf2bc35fb7e33b2; 0x2cfa94f67b021a6a;
  0x321d6926135422dc; 0x1b288849c54f8d3e; 0xd2de20fc7e0f4be0; 0x089ab7abb4573583;
  0xdd4cbf944a2457bb; 0x607768f87c62bfdb; 0x72479837faa9494e; 0x117562b85c7d24ed;
  0x068ae7ee77af67f0; 0x5df89eb65b1d815c; 0xe0c349da6d5b693c; 0x863ec6cc6696b117;
  0xaac4523a1d94ab7d; 0x5837eb2ff60434d4; 0x2460235dcf552fe9; 0xdf8be2ce6741cbeb;
  0x696f107e3fe6c470; 0x7add2f9c4efe7ccd; 0x677f403bfc1e9603; 0xec1444c583c6a71f;
  0x30da347c3e31be8c; 0x6a2a8209e5501608; 0x0e105045c3f85273; 0x431f6366334bb9ea;
  0x2d785bdb8cd15442; 0xb32b8729f5beba13; 0xe48ef36e3791929c; 0x22eac4b3b8fa4819;
  0xab469d17ea47e555; 0x3d8ff64e277f3e87; 0x34978ec864fb452c; 0x90438cb7ba97bc22;
  0x974ba4743aeb95fa; 0xb06e155e2f08686b; 0xe50c3c43c042dcb4; 0x429dac4bc498f7c2;
  0x7998bdeb9448aeb5; 0xc0eed033f8c4bd75; 0x186d1a3e1ff95f46; 0x4b85d4cd871c8c69;
  0xf73ccc8c46892a21; 0xb8f4a2f59b5f5de8; 0xa6135f25f309655e; 0x59b5240201d77afc;
  0x643ad24c26a8447b; 0x3650d392499ed97c; 0xb423afea75c293cb; 0x8136ee0fe6ea98cf;
  0x0918788643847bab; 0x781a72c6639be09d; 0xed968be87415e937; 0x5f3fc3ec76781d0c;
  0xda449757ca587e63; 0xc4a36a87a20e46d5; 0x2935e16fd61bafe2; 0xadcc7af99de882a5;
  0x070828c3807c29d8; 0x82737c783c5c4ab7; 0xe2041480403ef56c; 0x3158fb51c9e2f0a4;
  0x17ff85562bd2431d; 0x9fd113df8ebca079; 0x0bdf25dc6ee1e7fb; 0x167d4a7bdc010d35;
  0x7f125a05e3e7c945; 0x23680b9e4f290631; 0x6ba84d2412835820; 0xa981c04dc7227905;
  0x8b6b04fe7fd8311c; 0xb7663d9daf7441b3; 0x13b23fe27118b8bd; 0x1c20a08a4533a4e6;
  0xfbebc193a814e402; 0x62b035a25107238b; 0xf2f3b915eb909fa9; 0x3b0511a050d05977;
  0x9a1e664623a515f1; 0x754fb0f47ad56096; 0xea9ea32bf469c0ef; 0xd0197da6536ad7b0;
  0x2a7073180cad7d9a; 0x91c1439a4d44f20a; 0x02c75d5a2d659c50; 0x46d016ff9e520c62;
  0xa791900804da2b76; 0xdcce70b9bdf71993; 0x2725b12a15e3fd91; 0x760a2283a063b2ee;
  0xa4d4027fde6cf90e; 0xcab33ac261f614a6; 0x96c96b59cd38dbd2; 0x7080c56dd7ccd51e;
  0x54e0e6301899faf7; 0xe14186f79a882714; 0x6fe5f7904849a380; 0x39c24cfa7db5c527;
  0x339fa60be4876cf4; 0xdbc6587a3d8b304b; 0xa099b8cb84a602ae; 0xfe24b40a050d518a;
  0xb2a94804026df43b; 0x10f7ad95abae6ac5; 0x71020a40201f9b36; 0x87bc09e19145ff3f;
  0x351541e593280b04; 0x384083d78a668b0f; 0x526a01de6f369d07; 0x65b81d61d17b0a53;
  0xde092de3909285c3; 0x8ea47167d2c18494; 0xa8030f6030f1372d; 0xfd61267ddfbb83f2;
  0x2e3dc9ac5667863a; 0x0182cf2df7d34e28; 0xf8ae53e472a2367a; 0x8c632c3dffa418c4;
  0xbbb1308241e98f90; 0x49428997aa791039; 0x44174ba5b3379032; 0xbffc8a361b237430;
  0xef51d6b259707567; 0xfce3e9502868cdda; 0x3a87de8da703175f; 0xb1ecda73d8db2643;
  0xf92c9cc985717852; 0x995bf431f913c789; 0xd883ca0de73de233; 0xc9f6a8b5bb40c6de;
  0x61f5a7d58bb1f1f3; 0x3c0d3963d0ac70af; 0x89ac59a452bdad4c; 0x0f929f68342b1c5b;
  0x5c7a519baccecf74; 0xbe7e451becf03a18; 0xc2298d69d5a12125; 0xc521a5aa55dd08fd;
  0x882e9689a56ee364; 0xa11b77e673754c86; 0x1da26fa7b2e0eace; 0xc7e6f8f078b894ad;
  0x6ca065e792ff71f8; 0x857b54bbbc20636f; 0x9d164e85a3d93c29; 0xd35cefd189dc05c8;
  0xd19bb28ba4b99998; 0x1ee7fdd0685638b6; 0x3eca6439fdc9ecff; 0x84f99b964bf32d47;
  0x2fbf0681a1b4c812; 0x7dd5075fce825515; 0x74cd7fd98d062ebe; 0x41d83e3c1e2e25ba;
  0x50ad5c8442530157; 0x21af56c4624c9a61; 0x5562291def4ab4df; 0xe7cb6119ed2740e4;
  0xcdbb1201e18a3d7e; 0x0d55c232194e800b; 0x7c57c87239511b3d; 0x37d21cbfbe4d9754;
  0x1aaa4764329cc316; 0xa25ee591a9c39efe; 0xaf0b27a3b08d1ef5; 0xf6be03a1b15a6409;
  0xe859fe71d90c5cbf; 0x7e9095281434876d; 0x5ebd0cc181ab5324; 0xfa690ebe5fc7aa2a;
  0xb5a160c78211dde3; 0x9284d1ed97f22072; 0x5627bb6a35fc66a7; 0xf1b62b6231264dd1;
  0x044dbab45acafba0; 0x6e6738bdbf9aeda8; 0xa556cd5229bfb726; 0xe649ae341af40ecc;
  0xc87467984c9388f6; 0x7b5fe0b1b92d32e5; 0x73c5571a0d7a0766; 0x512f93a9b5804f7f;
  0x958cf92e178e09aa; 0x66fd8f160bcdd82b; 0xd6939a4824c5b040; 0x5b7279582cb2e6ac;
  0xe386dbadb7edbb44; 0x6332fa8fa6d46da3; 0x9b9ca96bd4765bd9; 0xbd3bd76c3646e860;
  0x7788edae57b0fcc6; 0x8de1e310087756ec; 0xbcb91841c195a648; 0xf37176381c43d181;
  0xf4795efb9c3ff859; 0x26a77e07e230b3b9; 0xd454c71209a02c10; 0x80b421221139d6e7;
  0x93061ec060216e5a; 0xb6e4f2b058a70f9b; 0x1538d80c06b7df4d; 0xcc39dd2c16597356;
  0xac4eb5d46a3bcc8d; 0xc16c1f1e0f17f35d; 0xeed3199faea33b4f; 0xae89e88e475e50dd;
  0x9c9481a8540a7201; 0xd901052010eeac1b; 0xa3dc2abc5e10d0d6; 0x25e2ec70388661c1;
  0xeb1c6c0603ba8ec7; 0x405af111e9fd6b92; 0x48c046ba5daa5e11; 0x6d22aaca652c3fd0;
  0x28b72e4221c8e1ca; 0xffa67b27f2de1fa2; 0x0a5deaf19932a9d3; 0x4fc86e79ddd677c9;
  0x19efd513e82a116e; 0x53e8cef398e5d32f; 0xf5fb91d66becb671; 0xb9766dd86c8c13c0;
  0xcb31f5ef96255a8e; 0x4595848844e4de1a; 0x57a57447c22f288f; 0xd7115565d316fe68;
  0x68eddf53c8358a58; 0x4c8dfc0e0760a5b1; 0x202d99e9959fd449; 0x4a071be070cfc241;
  0x05cf7599ad19b588; 0xc66437dd8f6bda85; 0x14ba1721f1649165; 0x9e53dcf2796fee51;
  0xd5d6083ffe736238; 0x4d0f3323f0b3eb99; 0xcefe80763b3cef06; 0x5af0b675db61a884;
  0x3f48ab140a1aa2d7; 0x8ae9cbd3880b7f34; 0x83f1b355cb8f049f; 0xc3ab424422726f0d;
  0x0000000000000000; 0x940e3603e05d4782; 0x1f6532fd9f85769e; 0x98d93b1c0ec089a1].

Definition precomputedInversedLSTableLeft_15 : list Z := [
  0xcc0e86c24fba593b; 0x039694956c2ab6f5; 0x17b1aba6f911d203; 0xa58244279665bf60;
  0xd434ace0a929a09f; 0xfc7ad286405f68b0; 0xd6d0f506e1a4c539; 0x762bce5dc3bf6385;
  0xd2db4709717d0fb6; 0x2058d9780a079ff2; 0x6591d7f4aa777b09; 0x425428165c839881;
  0x465f9a19cc5a520e; 0xbb5785eca8a2e9ed; 0x2c45cc6979af02a0; 0x2521a604be79862e;
  0x2ea1958f31226706; 0x7f4fa4300469e70b; 0xad94e3397514e8bd; 0x06efebe9d854af29;
  0x6b689b03915283fd; 0x3bf467cf80bed0a3; 0x6a1a5670b5f550ae; 0x7e3d694320ce3458;
  0x3c6941557c4dacd9; 0x84a8502cb8c5f3c1; 0x67758e12e2fa1eaf; 0xb6385d8effada7ec;
  0x16c366d5ddb60150; 0x88b5453dcb6d6e93; 0x588a5bd2f29d0483; 0xbccaa37654519597;
  0xdec6521802d592e4; 0xc2f7ca35749fa1cf; 0x4e493d072f2b05d3; 0x3fffd5c010671a2c;
  0x0ef94cf73b25f8f4; 0x1fa70cb81a6085de; 0x99eb0572ea2813b9; 0x0c1d151173a89d52;
  0x70c425b41bebccac; 0x44bbc3ff84d737a8; 0x2d37011a5d08d1f3; 0x5f177d480e6e78f9;
  0x78d282aaf89a9b71; 0xcb93a058b3492541; 0xd54661938d8e73cc; 0x7352b12177c17a59;
  0x5c81e9dd6244ce0c; 0xfe9e8b6008d20d16; 0x6f63290c018b4972; 0x1ade73c4ae1e9c02;
  0x079d269afcf37c7a; 0xeeb2065c0d30a36f; 0xeab9b4539de969e0; 0xc80534cddf6393b4;
  0x8cbef7325bb4a41c; 0xb5aec91b93871119; 0x3862f35aec946656; 0x59f896a1d63ad7d0;
  0x698cc2e5d9dfe65b; 0x102c8d3c05e2ae79; 0xf067c79733f7f5e2; 0xa36dafce4e311049;
  0x09646a6dc7d6848e; 0x0d6fd862570f4e01; 0xfd081ff564f8bbe3; 0x1bacbeb78ab94f51;
  0x27c5ffe2f6f4e388; 0x8dcc3a417f13774f; 0xf2839e717b7a9044; 0x926b36f96573f291;
  0x6d8770ea49062cd4; 0x5df324ae46e31d5f; 0xf1150ae4175026b1; 0x212a140b2ea04ca1;
  0x37e972def3164df1; 0x40b071f0140efd27; 0x8e5aaed41339c1ba; 0xe85dedb5d5640c46;
  0xe440f8a4a6cc9114; 0xec565fba45bdc6c9; 0x9e7623e816db6fc3; 0x9c927a0e5e560a65;
  0xd14dd39c1d57b943; 0xe7d66c31cae627e1; 0xb8c11179c4885f18; 0x2fd358fc1585b455;
  0xe2af134d7e983e3d; 0x8a511cdb83e00b35; 0xd7a23875c503166a; 0xb4dc0468b720c24a;
  0x293cb315cdd11b7c; 0x13ba19a969c8188c; 0x9899c801ce8fc0ea; 0x80a3e223281c394e;
  0xa614d0b2fa4f0995; 0x620cf16e56840773; 0xb34122f24bd3be30; 0x5e65b03b2ac9abaa;
  0x72207c525366a90a; 0x4326e56578244bd2; 0x347fe64b9f3cfb04; 0x350d2b38bb9b2857;
  0x5278a52a596136f8; 0x26b73291d25330db; 0x7dabfdd64ce482ad; 0xb74a90fddb0a74bf;
  0x0af2fef8abfc327b; 0x45c90e8ca070e4fb; 0x81d12f500cbbea1d; 0x6e11e47f252c9a21;
  0x530a68597dc6e5ab; 0x4a428f08bff2cf5c; 0x79a04fd9dc3d4822; 0x32900da24768542d;
  0x619a65fb3aaeb186; 0xfbe7f41cbcac14ca; 0x39103e29c833b505; 0xc01393d33c12c469;
  0xfa95396f980bc799; 0x5b1ccf479eb7b276; 0xa4f08954b2c26c33; 0xba25489f8c053abe;
  0xdacde017920c586b; 0x4cad64e167a66075; 0x05797f7cb47e19dc; 0xc38507465038729c;
  0x3a86aabca41903f0; 0x8247bbc560915ce8; 0x183a2a22e693f9a4; 0xc977f9befbc440e7;
  0x68fe0f96fd783508; 0xf6882c7eeba35acb; 0x637e3c1d7223d420; 0x873ec4b9d4ef4534;
  0x49d41b9dd3d879a9; 0x369bbfadd7b19ea2; 0x91fda26c09594464; 0x97124985d10deb4d;
  0x33e2c0d163cf877e; 0x0816a71ee37157dd; 0x7cd930a5684351fe; 0x02e459e6488d65a6;
  0x7759032ee718b0d6; 0x85da9d5f9c622092; 0x66074361c65dcdfc; 0x41c2bc8330a92e74;
  0x307454440fe5318b; 0xcd7c4bb16b1d8a68; 0xd03f1eef39f06a10; 0xd95b7482fe26ee9e;
  0xa99f5136e5cd2232; 0xaa09c5a389e794c7; 0xc56aecaf886cddb5; 0x60e8a8881e0962d5;
  0xf8716089d086a23f; 0x040bb20f90d9ca8f; 0x908f6f1f2dfe9737; 0xe6a4a142ee41f4b2;
  0x966084f6f5aa381e; 0xaf70badf3d998d1b; 0xc6fc783ae4466b40; 0xa7661dc1dee8dac6;
  0xa189f62806bc75ef; 0xd829b9f1da813dcd; 0x1ed5c1cb3ec7568d; 0x4ddfa9924301b326;
  0x64e31a878ed0a85a; 0x9a7d91e78602a54c; 0xe3ddde3e5a3fed6e; 0xf903adfaf421716c;
  0xf7fae10dcf048998; 0x1948e751c2342af7; 0x833576b644368fbb; 0x4b30427b9b551c0f;
  0x4f3bf0740b8cd680; 0x7b44163f94b02d84; 0xefc0cb2f2997703c; 0x9de0b77d7af1d936;
  0x74cf97bb8b320623; 0xc78eb549c0e1b813; 0xcae16d2b97eef612; 0x6cf5bd996da1ff87;
  0xf3f153025fdd4317; 0x310699372b42e2d8; 0x3e8d18b334c0c97f; 0x0172cd7324a7d353;
  0xdbbf2d64b6ab8b38; 0xc41821dcaccb0ee6; 0xe13987d812b288c8; 0xed2492c9611a159a;
  0xe04b4aab36155b9b; 0x14273f33953b64f6; 0xdfb49f6b267241b7; 0x509cfccc11ec535e;
  0xbe2efa901cdcf031; 0xab7b08d0ad404794; 0xae0277ac193e5e48; 0x51ee31bf354b800d;
  0x12c8d4da4d6fcbdf; 0x8f2863a7379e12e9; 0x1d43555e52ede078; 0xf46c7598a32e3f6d;
  0xd3a98a7a55dadce5; 0xffec46132c75de45; 0x472d576ae8fd815d; 0x1555f240b19cb7a5;
  0x8b23d1a8a747d866; 0xa0fb3b5b221ba6bc; 0xf51eb8eb8789ec3e; 0x284e7e66e976c82f;
  0x5701da56ed1f2f24; 0xb233ef816f746d63; 0x24536b779ade557d; 0xcf9812572390efce;
  0x89c7884eefcabdc0; 0xdd50c68d6eff2411; 0x55e583b0a5924a82; 0x2bd8eaf3855c7eda;
  0x9b0f5c94a2a5761f; 0xebcb7920b94ebab3; 0xceeadf2407373c9d; 0xe53235d7826b4247;
  0xb1a57b14035edb96; 0x22bc809e428afa54; 0xbdb86e0570f646c4; 0xe92f20c6f1c3df15;
  0x23ce4ded662d2907; 0x75bd5ac8af95d570; 0x9f04ee9b327cbc90; 0xa21f62bd6a96c31a;
  0x0f8b81841f822ba7; 0x54974ec3813599d1; 0x864c09caf0489667; 0x9319fb8a41d421c2;
  0x5a6e0234ba106125; 0x3d1b8c2658ea7f8a; 0x9484dd10bd275db8; 0x56731725c9b8fc77;
  0xbf5c37e3387b2362; 0x95f6106399808eeb; 0xb9b3dc0ae02f8c4b; 0x115e404f21457d2a;
  0x0b80338b8f5be128; 0x71b6e8c73f4c1fff; 0xb0d7b66727f908c5; 0x1c31982d764a332b;
  0xdc220bfe4a58f742; 0xa8ed9c45c16af161; 0xc1615ea018b5173a; 0x2aaa2780a1fbad89;
  0x0000000000000000; 0xace62e4a51b33bee; 0x48a6d6eef77faafa; 0x7a36db4cb017fed7].

Definition precomputedInversedLSTableLeft : list (list Z) := [
  precomputedInversedLSTableLeft_0; precomputedInversedLSTableLeft_1;
  precomputedInversedLSTableLeft_2; precomputedInversedLSTableLeft_3;
  precomputedInversedLSTableLeft_4; precomputedInversedLSTableLeft_5;
  precomputedInversedLSTableLeft_6; precomputedInversedLSTableLeft_7;
  precomputedInversedLSTableLeft_8; precomputedInversedLSTableLeft_9;
  precomputedInversedLSTableLeft_10; precomputedInversedLSTableLeft_11;
  precomputedInversedLSTableLeft_12; precomputedInversedLSTableLeft_13;
  precomputedInversedLSTableLeft_14; precomputedInversedLSTableLeft_15].

Definition precomputedInversedLSTableRight_0 : list Z := [
  0x3be3ef79825311f0; 0xf59cbae7378391bd; 0x03c38ec9905892ad; 0x60da6e5928516884;
  0x9f89764df9c11351; 0xb0371e1174b41571; 0x39611bf762824c87; 0x85dc784413955407;
  0xb672c1409704f2e8; 0xf2981ff1a4bab9fe; 0x090c2c3a764b78c5; 0x811b539b10f4eee9;
  0x0e08892ce5725086; 0xed4b40603d068b9c; 0xa0adb2eb78f3b84f; 0x2eff121bfdfcc9fa;
  0x0645df51e3b0e799; 0x0b8ed8b4969a25b2; 0xbdfc19f4019ed75a; 0x29fbb70d6ec5e1b9;
  0xfdd1ec9a314126a2; 0xa36e3c22e8ab2ae2; 0xaea53bc79d81e8c9; 0x58fa0fe93a5aebd9;
  0xd9e15c722aae0530; 0xc136a6f5202b1f11; 0xafe44180ed082713; 0xec0a3a274d8f4446;
  0x50b759943c985cc6; 0x93030beffc621ea0; 0x8399a715f025b39e; 0x97c42030ff03a44e;
  0xe4476c5a4b4df359; 0xcf3e2fd9c5594f97; 0xd32efe81ccbdef58; 0x2c7de6951d2d948d;
  0xf4ddc0a0470a5e67; 0xdee5f964b9972d73; 0xb93b322b02ff6db4; 0x5235ad1adc4901b1;
  0xac27cf497d50b5be; 0xa8e0e4967e310f50; 0xf3d965b6d4337624; 0xf916c74532209c4c;
  0x7101b8e4549f0a60; 0x416c8f2940563e22; 0xccfda1105501dd3a; 0x59bb75ae4ad32403;
  0x0c8a7da205a30df1; 0x16df73abeff74aa7; 0x72c2362dc4c798cd; 0x0282f48ee0d15d77;
  0x7a8f6050c2052fd2; 0x6f939d32bdaaf7d8; 0xe0804785482c49b7; 0xb4f035ce77d5af9f;
  0x1c10d15809e4a0cf; 0x199680c07a0cd5fb; 0x56f286c5df28bb5f; 0xd0ed70485ce57df5;
  0x5b398120aa027974; 0x794cee99525dbd7f; 0xe202b30ba8fd14c0; 0x4921d9544694893d;
  0x8e52a0f0850f71b5; 0x01417a477089cfda; 0xe343c94cd874db1a; 0x51f623d34c11931c;
  0x88177fa166bf962c; 0x4f640605a5246ea4; 0x44eadeb133be4b16; 0x9181ff611cb343d7;
  0xd42a5b975f84c71b; 0x5ffeaaffa963c39a; 0xb1766456043ddaab; 0xa1ecc8ac087a7795;
  0xf15b913834e22b53; 0x27f33e218bb7b13f; 0xbaf8bce292a7ff19; 0x46682a3fd36f1661;
  0x145d87250f2617d0; 0xc97bf08826e9a80e; 0xc3b4527bc0fa4266; 0x655c3fc15bb91db0;
  0x43ee7ba7a0876355; 0xe1c13dc238a5866d; 0x18d7fa870a851a21; 0x5531080c4f7029f2;
  0x3da6302861e3f669; 0x35eb665567214176; 0x6a15ccaace4282ec; 0x4ae2579dd6cc1b90;
  0x7ccabf0121b5c84b; 0x8cd0547e65de2cc2; 0xea4fe576ae3fa3df; 0x4e257c42d5ada17e;
  0x9546d4be1fd2f939; 0x73834c6ab44e5717; 0x306d37cd14c93442; 0xaa6210189ee05227;
  0x0acfa2f3e613ea68; 0xd26f84c6bc342082; 0x04c72bdf0361baee; 0x57b3fc82afa17485;
  0xf857bd0242a95396; 0xdb63a8fcca7f5847; 0xad66b50e0dd97a64; 0xbf7eed7ae14f8a2d;
  0x7bce1a17b28ce008; 0xfb9433cbd2f1c13b; 0x1d51ab1f796d6f15; 0x21b6e170680756a6;
  0xab236a5fee699dfd; 0x5c3d2436393b5137; 0x22756fb9f85fc40b; 0x2d3c9cd26da45b57;
  0x861ff68d83cdc6aa; 0xcab87e41b6b13aa3; 0x0586519873e87534; 0x69d642635e1a1041;
  0x99cca91c1a71f4c8; 0x76051df2c7a62223; 0x33aeb9048491a6ef; 0xbe3f973d91c645f7;
  0x6b54b6edbecb4d36; 0x75c6933b57feb08e; 0xdc670dea59467004; 0x9c4af884699981fc;
  0xf01aeb7f446be489; 0xe8cd11f84eeefea8; 0xa46a99347b9202a1; 0xe784e293db1561f4;
  0x084d567d06c2b71f; 0xcbf90406c638f579; 0x20f79b37188e997c; 0x34aa1c1217a88eac;
  0xa9a19ed10eb8c08a; 0xa22f46659822e538; 0x641d45862b30d26a; 0x4de6f28b45f533d3;
  0x7e484b8fc164953c; 0xdd2677ad29cfbfde; 0xfe126253a119b40f; 0xa6e86dba9b435fd6;
  0xd6a8af19bf559a6c; 0x924271a88cebd17a; 0xfc9096dd41c8e978; 0x7487e97c27777f54;
  0x8bd4f168f6e70481; 0x689738242e93df9b; 0x109aacfa0c47ad3e; 0x9ec80c0a8948dc8b;
  0x32efc343f4186935; 0xc77379a4c39bf888; 0xb5b14f89075c6045; 0xd56b21d02f0d08c1;
  0x3f24c4a68132ab1e; 0x8f13dab7f586be6f; 0x376992db87f01c01; 0xb2b5ea9f94654806;
  0x1e9225d6e935fdb8; 0x1b14744e9add888c; 0x402df56e30dff1f8; 0xc63203e3b3123752;
  0xefc9b4eeddd7d6eb; 0xcdbcdb57258812e0; 0x8d912e391557e318; 0x26b24466fb3e7ee5;
  0x5a78fb67da8bb6ae; 0x4ca788cc357cfc09; 0x6ed2e775cd233802; 0x6c5013fb2df26575;
  0x988dd35b6af83b12; 0xf71e4e69d752ccca; 0xbbb9c6a5e22e30c3; 0x0f49f36b95fb9f5c;
  0x805a29dc607d2133; 0x849d0203631c9bdd; 0x3ce74a6f116a39b3; 0x3628e89cf779d3db;
  0x233415fe88d60bd1; 0x135922339c1f3f93; 0x12185874ec96f049; 0x875e8ccaf3440970;
  0x179e09ec9f7e857d; 0xd8a026355a27caea; 0x7f0931c8b1ed5ae6; 0x5374d75dacc0ce6b;
  0x382061b0120b835d; 0xe6c598d4ab9cae2e; 0xc83a8acf566067d4; 0x9a0f27d58a296665;
  0x9b4e5d92faa0a9bf; 0xf65f342ea7db0310; 0xb733bb07e78d3d32; 0x5ebfd0b8d9ea0c40;
  0x312c4d8a6440fb98; 0x9407aef96f5b36e3; 0x4860a313361d46e7; 0x0dcb07e5752ac22b;
  0xdfa48323c91ee2a9; 0xe98c6bbf3e673172; 0x780d94de22d472a5; 0x6d1169bc5d7baaaf;
  0xe506161d3bc43c83; 0x45aba4f6433784cc; 0x5d7c5e7149b29eed; 0xa52be3730b1bcd7b;
  0x669fb108cbe18f1d; 0xbcbd63b371171880; 0x3e65bee1f1bb64c4; 0x2fbe685c8d750620;
  0x2430b0e81bef2392; 0x6319e090b809fa29; 0x7d8bc546513c0791; 0xce7f559eb5d0804d;
  0xc077dcb250a2d0cb; 0x11dbd6bd7cce62e4; 0x82d8dd5280ac7c44; 0xda22d2bbbaf6979d;
  0x1fd35f9199bc3262; 0xb3f490d8e4ec87dc; 0x9d0b82c319104e26; 0x47295078a3e6d9bb;
  0x96855a778f8a6b94; 0x5470724b3ff9e628; 0xc4b0f76d53c36a25; 0x151cfd627fafd80a;
  0x0704a51693392843; 0x7040c2a32416c5ba; 0x90c085266c3a8c0d; 0x1a550e09ea544756;
  0xa7a917fdebca900c; 0xd1ac0a0f2c6cb22f; 0x67decb4fbb6840c7; 0xc2f5283cb0738dbc;
  0x2571caaf6b66ec48; 0x8a958b2f866ecb5b; 0xb87a486c7276a26e; 0x774467b5b72fedf9;
  0x62589ad7c88035f3; 0xeb0e9f31deb66c05; 0x4ba32ddaa645d44a; 0x2a3839c4fe9d7314;
  0x28bacd4a1e4c2e63; 0xff531814d1907bd5; 0xc5f18d2a234aa5ff; 0x2b7943838e14bcce;
  0x42af01e0d00eac8f; 0x619b141e58d8a75e; 0x3aa2953ef2dade2a; 0x895605e6163659f6;
  0x0000000000000000; 0xee88cea9ad5e1931; 0xfad5498ca2780ee1; 0xd7e9d55ecfdc55b6].

Definition precomputedInversedLSTableRight_1 : list Z := [
  0xf09a7d3e773a939b; 0xbd7b440e71ada623; 0xad0af246787d0274; 0x84833517db7b4098;
  0x51c4184e791bea40; 0x7126b7de6b7861ee; 0x879660fb276c2ec3; 0x079899fe6f23473e;
  0xe83290529b826506; 0xfe698c01a97c1de7; 0xc5369b11abb00e8f; 0xe980a3b7cf8ffe8e;
  0x8624531e7361b54b; 0x9c2bd87b37c3b605; 0x4f465f39ae8dc06b; 0xfae440133a483482;
  0x9914278cf0fa04e8; 0xb23a86d4fbe6b3d7; 0x5a0816866064d6d1; 0xb9f6881ce2998f46;
  0xa24b309cf2361780; 0xe24cad7fd6f0c21f; 0xc9620c27ddec7520; 0xd913ba6fd43cd177;
  0x309319d81bb32ff9; 0x11c385ad5ddd3fdf; 0x1364e3a4f5c7ca0c; 0x462d37f81fe80929;
  0xc623cefd57a760d4; 0xa0ec56955a2ce253; 0x9e8cbe729fd943d6; 0x4ef46cdcfa805be3;
  0x591d436a9c73b88a; 0x97e7d6b32ebc8a94; 0x58af708fc87e2302; 0x8de85dd66a1e89da;
  0x677dab8d5986190f; 0x7381d1d7c362943d; 0xb4102ccfc0c86f61; 0xb12fd33807f1dd8c;
  0xbe6e11e28dbac878; 0x50762bab2d1671c8; 0x246f63828157a2cb; 0x4c530ad5529aae30;
  0x60e5327336a55e31; 0x2245c999ba797e7d; 0x3aed24f556c188e0; 0x031555ecfc176e5b;
  0xf1284edb23370813; 0xa774cf6b350fa56d; 0xcdefc0354ed85c45; 0x770c1dc55056bd58;
  0xd2dfb4a7cd43ede6; 0xd8a1898a80314aff; 0xb70579233cdf013a; 0x9f3e8d97cbd4d85e;
  0xcf48a63ce6c2a996; 0xfb5673f66e45af0a; 0x5f37e971a75d643c; 0xf5a582c9b0032176;
  0x74194829ac41d303; 0x7fd546e1b53eef92; 0xc00964e66c89bc62; 0x3d75bd0b39e2cfde;
  0xb5a21f2a94c5f4e9; 0xda06ef83282bbf2c; 0x1a0f8b6544a2034e; 0x1c25217e7f8cdff8;
  0x2cb638a6643ff001; 0xa4619a87c918cb36; 0x165b1c5332fe78e1; 0xd7e04b500a7a5f0b;
  0x1bbdb88010af98c6; 0x9a0172600ced6ab3; 0xab20585d4353dec2; 0x9540b0ba86a67f47;
  0x53637e47d1011f93; 0x3fd2db0291f83a0d; 0x191ade89b8b56d15; 0x6157019662a8c5b9;
  0xd078d2ae65591835; 0x0ef3f13fde468e7c; 0x66cf98680d8b8287; 0xb09de0dd53fc4604;
  0x5549d45cea2fc325; 0x6d0396a014f4be16; 0x21509c75466e1026; 0xf23d1b37df206648;
  0x698e5ab287c09773; 0x76be2e20045b26d0; 0xecbf5c4008b64c63; 0x907f4f4d419fcdaa;
  0x4bcb932b3db9e90e; 0xc2ae02efc49349b1; 0xdf391074ef120dc1; 0x7e677504e133741a;
  0x39f87119aad6e6bb; 0x17e92fb666f3e369; 0x42a0fbea8cdc204c; 0x277a366e7d40cc90;
  0x683c6957d3cd0cfb; 0x82a99f0ce0559c2e; 0xee183a49a0acb9b0; 0x853106f28f76db10;
  0x9655e5567ab1111c; 0x479f041d4be592a1; 0x6468fe61a5917754; 0x2d040b4330326b89;
  0x08d95b24e56852ca; 0x3b5f171002cc1368; 0x154e49bfcee916ba; 0xa6c6fc8e61023ee5;
  0xfd7cd9ed556b73bc; 0x370b8026749068c7; 0x0bcc0ec8197f3c91; 0x57eeb255423536f6;
  0xaa926bb8175e454a; 0xa3f90379a63b8c08; 0x341ed5ca8887069c; 0x41b5ae0670cb4e17;
  0xc8d03fc289e1eea8; 0x23f7fa7cee74e5f5; 0xefaa09acf4a12238; 0xf702e4c01819d4a5;
  0x36b9b3c3209df34f; 0x8efd083a9609e781; 0x048dcc1293342965; 0xfcceea080166e834;
  0x896591c4f92aa0bf; 0xa8350db1bf44b099; 0xa15e65700e2179db; 0xf417b12ce40ebafe;
  0x1f307492839bb1a3; 0x79ffecfa8e103324; 0x7cc0130d492981c9; 0xacb8c1a32c7099fc;
  0x8a70c428053dcee4; 0x384a42fcfedb7d33; 0x6a9b0f5e7bd7f928; 0xd36d8742994e766e;
  0x3cc78eee6def5456; 0xde8b2391bb1f9649; 0x0f41c2da8a4b15f4; 0xd65278b55e77c483;
  0x6cb1a54540f9259e; 0x7aeab91672075d7f; 0x784ddf1fda1da8ac; 0x54fbe7b9be2258ad;
  0x81bccae01c42f275; 0x9bb3418558e0f13b; 0x3e60e8e7c5f5a185; 0x8bc2f7cd5130556c;
  0x35ace62fdc8a9d14; 0x88d7a221ad273b37; 0x45386214e3ff6772; 0xc1bb5703388427ea;
  0x1e824777d7962a2b; 0x6fa4f0a9bcee4bc5; 0x01b233e5540d9b88; 0x062aaa1b3b2edcb6;
  0xb844bbf9b69414ce; 0x8c5a6e333e131252; 0xf843261a9252c151; 0x52d14da2850c841b;
  0xeb27c5be67950b5d; 0xe0ebcb767eea37cc; 0x18a8ed6cecb8f69d; 0xe5d43481b9d38521;
  0xae1fa7aa846a6c2f; 0x096b68c1b165c942; 0x02a76609a81af5d3; 0x75ab7bccf84c488b;
  0x12d6d041a1ca5184; 0xca7759cb21fb1b7b; 0xc31c310a909ed239; 0x5c22bc9d5b4a0a67;
  0x33864c34e7a441a2; 0xdd9e767d4708f812; 0xb388b531afeb285f; 0xdbb4dc667c2624a4;
  0xd1cae14b315483bd; 0x936a1aa1bd88a3f1; 0x496cf52295a31cdd; 0x7094843b3f75fa66;
  0x7d7220e81d241a41; 0xea95f65b339890d5; 0xe6c1616d45c4eb7a; 0x6b293cbb2fda62a0;
  0x5d908f780f4791ef; 0x2e115eafcc2505d2; 0xd4f51ebcf66d3150; 0x65dacd84f19cecdc;
  0xbfdc2207d9b753f0; 0x1071b64809d0a457; 0x32347fd1b3a9da2a; 0x40079de324c6d59f;
  0x98a61469a4f79f60; 0xe3fe9e9a82fd5997; 0xe773528811c970f2; 0x2b2ea1580b1cb73f;
  0xa9873e54eb492b11; 0x7233e232976f0fb5; 0xa5d3a9629d1550be; 0xafad944fd067f7a7;
  0x831bace9b45807a6; 0xcc5df3d01ad5c7cd; 0xed0d6fa55cbbd7eb; 0x7b588af3260ac6f7;
  0x1d97129b2b814470; 0x800ef905484f69fd; 0xc484a8f4ffbd9507; 0x20e2af9012638bae;
  0x92d82944e9853879; 0x2989c751a30642ec; 0x91cd7ca815925622; 0x4de13930069735b8;
  0xcbc56a2e75f680f3; 0xe4660764edde1ea9; 0x448a51f1b7f2fcfa; 0x9d99eb9e63ce2d8d;
  0x6242547a9ebfabe2; 0xdc2c45981305639a; 0x26c8058b294d5718; 0xbb51ee154a837a95;
  0x94f2835fd2abe4cf; 0x283bf4b4f70bd964; 0x25dd5067d55a3943; 0x0a7e3d2d4d72a719;
  0x4312c80fd8d1bbc4; 0xbae3ddf01e8ee11d; 0x0de6a4d32251e027; 0x565c81b01638ad7e;
  0x0c549736765c7baf; 0x2fa36d4a98289e5a; 0xc791fd1803aafb5c; 0xbcc977eb25a03dab;
  0x48dec6c7c1ae8755; 0x5bba256334694d59; 0x6e16c34ce8e3d04d; 0xf9f115ffc65f5ad9;
  0xf38f28d28b2dfdc0; 0x053ffff7c739b2ed; 0x4a79a0ce69b47286; 0x14fc7a5a9ae48d32;
  0x63f0679fcab2306a; 0xd5472d59a260aad8; 0xffdbbfe4fd71866f; 0xcefa95d9b2cf321e;
  0x8f4f3bdfc2047c09; 0x5e85da94f350ffb4; 0x2a9c92bd5f112cb7; 0xf6b0d7254c144f2d;
  0x0000000000000000; 0x31212a3d4fbeb471; 0xe159f8932ae7ac44; 0xb6b74ac668d29ab2].

Definition precomputedInversedLSTableRight_2 : list Z := [
  0xafa0898613855fe6; 0x18d65a94217ca567; 0xb87764ab6e291586; 0x61f8dd445e69e5ad;
  0x6fdf1cacd8e33e58; 0xec5e60d246499d59; 0x7ffa70f5e60af8a3; 0x36bb43cedbe731a7;
  0x5fb0a8479a1bb796; 0xc3150fd966883d6b; 0xae86ffd7c9df6b14; 0x550f7228f23abc2d;
  0x7545aa9a8e2bf318; 0x91e8fc85d7f70ddd; 0xa3cba4cce2bbec34; 0xebace1a6050c11c2;
  0xb3eec895dc522acf; 0x7edc06a43c50cc51; 0x216caee3a64b7bc7; 0x306fb4eb42f889ce;
  0xde7d389b73057cb0; 0x1bbcc0678c92f9b2; 0xd68e0e566c901f2c; 0x762f306923c5afcd;
  0x23204241d1ff13e0; 0xaa1ee4502774bb5a; 0xbea3938ef736adef; 0xf9c5615d4c51bf1e;
  0xb084526671bc761a; 0xcac04f45a3476a05; 0x85558b5b07b51b68; 0xa9747ea38a9ae78f;
  0x3f6e03521e2866c9; 0xdf5b4ecaa95f4842; 0x35d1d93d76096d72; 0x3bf618d5f083b687;
  0x70fbc74cbada17a4; 0xf8e3170c960b8bec; 0x42d89f058f96f64d; 0x60deab158433d15f;
  0x06d4f725991fb869; 0x6560c6c3b0c235e3; 0xab389201fd2e8fa8; 0xbdc9097d5ad8f13a;
  0x46408482613d2603; 0x973c0ba04ee8b5b4; 0x672c2a61c7765dc4; 0x1e02adb1b8631d0e;
  0xa51f53e97ba4545d; 0xfc7b0c8b78a05ba2; 0xfe37e0290f143385; 0xd05af973f58fa745;
  0x389c82265d6dea52; 0x7c90ea064be4a476; 0x5cda32b437f5eb43; 0x8fea51346f9410d3;
  0xea8a97f7df562530; 0xe1133bc96d2d1a79; 0x036a9af3adee5cd5; 0x8da6bd96182078f4;
  0xce5854c24decba4b; 0x80ebe68d3344ffd4; 0x8c80cbc7c27a4c06; 0x519769af1c916c63;
  0x4867456ae7b7fdf6; 0x682d9dd89ba6b2c3; 0xe4ad561f59dcfec5; 0xd8a9cfbeea1ac4d9;
  0xfb898dff3be5d739; 0xe279a13ac0c346ac; 0x9ca5a79efc938afd; 0x1a9ab63656c8cd40;
  0xee128c7031fdf57e; 0xadec6524643137c1; 0x8473fd0addef2f9a; 0xcbe63914791d5ef7;
  0x7b626b7208a128ed; 0x452a1e71ccd37ad6; 0xfaaffbaee1bfe3cb; 0x4cff5eed091c2db8;
  0x2c21f5f88d2ffce7; 0x6cb5865f750d628d; 0x7a441d23d2fb1c1f; 0x6a61717aec12dae4;
  0x4766f2d3bb6712f1; 0x34f7af6cac535980; 0x893ea611f68ba8ba; 0xbb1dfe58c3c74953;
  0x1c4e4113cfd77529; 0xdae5231c9daeacfe; 0x77094638f99f9b3f; 0xe9e00d0472b879e5;
  0x8b724ab3813fc09d; 0x983dbc1912385ab3; 0x4a2ba9c8900395d1; 0x8a543ce25b65f46f;
  0x792e87d07f1540ca; 0x961a7df194b28146; 0xd17c8f222fd593b7; 0xb53a3fb0454d92a6;
  0x16f19b7ca7f67e92; 0x5dfc44e5edafdfb1; 0x63b431e629dd8d8a; 0x6b47072b3648ee16;
  0xd5e494a5c17e43f9; 0xf37abb322470b4a5; 0x6ef96afd02b90aaa; 0xf136579053c4dc82;
  0x50b11ffec6cb5891; 0x6d93f00eaf57567f; 0x82a70a2f44f097f3; 0xf6c4d6e410815019;
  0xdd17a268deeb2065; 0x159b018f0a182247; 0x4eb3b24f7ea8459f; 0x53db850d6b250444;
  0x8ecc2765b5ce2421; 0xd4c2e2f41b24770b; 0x0b99ac3eb27b3f49; 0xcf7e229397b68eb9;
  0xdc31d43904b11497; 0x9d83d1cf26c9be0f; 0x690beb8941fc8631; 0x991bca48c8626e41;
  0x1f24dbe0623929fc; 0x25f4b56448e0ab89; 0x28b9ee7f63842ca9; 0xd7a87807b6ca2bde;
  0x134ff6aa93079a2e; 0x9a7150bb658c3294; 0xc07f952acb6661be; 0x871967f97001734f;
  0xc6ab620f5279d9d7; 0xbcef7f2c8082c5c8; 0x9ee94b3c8b27e2da; 0xb2c8bec406081e3d;
  0x0d4d5b1b2b648720; 0x73915dbf17344b71; 0x024ceca277b46827; 0x32235849354ce1e9;
  0x5b28b3c074b067d8; 0x409473a7f8229e6a; 0x660a5c301d2c6936; 0x10256c593ee9c6fb;
  0x3e487503c472523b; 0xa2edd29d38e1d8c6; 0xb650a543e8a3ce73; 0x4dd928bcd346194a;
  0x43fee95455ccc2bf; 0xa753bf4b0c103c7a; 0x4f95c41ea4f2716d; 0x07f2817443458c9b;
  0x01267651da5a34f2; 0x19f02cc5fb269195; 0xe7c7ccecf432a210; 0x863f11a8aa5b47bd;
  0xcc14b8603a58d26c; 0x204ad8b27c114f35; 0x0abfda6f68210bbb; 0x3c0499a1b3c63a1c;
  0x3ad06e842ad98275; 0x3149c2ba98a2bd3c; 0xff119678d54e0777; 0x71ddb11d60802356;
  0x41b205f62278aa98; 0x0f01b7b95cd0ef07; 0xf01021c1899ee870; 0x2d0783a95775c815;
  0xa675c91ad64a0888; 0x5a0ec591aeea532a; 0x14bd77ded04216b5; 0xc4e78ead25cdb1f0;
  0xb41c49e19f17a654; 0xc88ca3e7d4f30222; 0x928266767a195108; 0x1d683742158d41db;
  0x3d22eff0699c0eee; 0x5e96de1640418364; 0x7463dccb5471c7ea; 0x629247b7f387b978;
  0x269e2f97e50ef75c; 0xf7e2a0b5cadb64eb; 0x9fcf3d6d517dd628; 0xe6e1babd2e6896e2;
  0x94569153e306e961; 0x4b0ddf994a59a123; 0x33052e18ef16d51b; 0x08f336cd1f95639c;
  0x17d7ed2d7dac4a60; 0xef34fa21eba7c18c; 0x04981b87eeabd04e; 0x6446b0926a980111;
  0x0c6b2d4af13eb3d2; 0xa0a13e3f4f55b0e1; 0x379d359f01bd0555; 0xc5c1f8fcff978502;
  0xb95112fab4732174; 0x11031a08e4b3f209; 0x39baf4778737dea0; 0xcd32ce31e002e69e;
  0x90ce8ad40dad392f; 0xf25ccd63fe2a8057; 0xe8c67b55a8e24d17; 0xacca1375be6b0333;
  0x57439e8a858ed40a; 0xf4883a466735383e; 0x7db69c5791be9084; 0xa85208f250c0d37d;
  0xd21615d1823bcf62; 0x4941333b3dedc904; 0xa43925b8a1fe60af; 0x83817c7e9eaaa301;
  0xfd5d7adaa2fa6f50; 0xd98fb9ef3040f02b; 0xe35fd76b1a99725e; 0xb776d31232f9fa81;
  0xc2337988bcd20999; 0x27b859c63f54c3ae; 0xed7816839c13a9ab; 0x9b5726eabfd60666;
  0x52fdf35cb17f30b6; 0x54290479286088df; 0xbf85e5df2d6c991d; 0x24d2c33592ba9f7b;
  0xc159e37b113c554c; 0xd33063805861fb90; 0xa187486e950f8413; 0x440c682016894e24;
  0xdbc3554d47f4980c; 0x2e6d195afa9b94c0; 0x72b72beecd6e7f83; 0x59645f6203040fff;
  0x7808f181a54f7438; 0xe58b204e8386ca37; 0xba3b8809199d7da1; 0x126980fb495daedc;
  0x9570e702395cdd93; 0x2bd3748cce6a707c; 0x2af502dd1430448e; 0xf5ae4c17bd6f0ccc;
  0xb1a22437abe642e8; 0x220634100ba52712; 0x81cd90dce91ecb26; 0x8818d0402cd19c48;
  0x58422933d95e3b0d; 0x0e27c1e8868adbf5; 0xc9aad5b60ea936d0; 0xe0354d98b7772e8b;
  0x2f4b6f0b20c1a032; 0x09d5409cc5cf576e; 0xc78d145e8823ed25; 0x93a41027a04365fa;
  0x0000000000000000; 0x299f982eb9de185b; 0x05be6dd634f1e4bc; 0x5665e8db5fd4e0f8].

Definition precomputedInversedLSTableRight_3 : list Z := [
  0x42c539bdfd8187fe; 0x12de4561c3dfcc2b; 0xca1fffa89e12d51c; 0x396656242b055f06;
  0xd2fa54332ab62865; 0xa1bbe36290ef1a0b; 0xce6e93cca89da057; 0xc1a90a4b053a682c;
  0xf685def16fcb7333; 0x03542d2bf7f557a6; 0x335db8de5c7e6e54; 0x1a3c9da9af0226bd;
  0x22d7d0946854f5d9; 0x8d26b168b94fabcb; 0x4baafa6c7d0fe10a; 0x35f5e2887157c0db;
  0x573e3d93ff246938; 0xbff612af096249fd; 0x4973cc5e66a93ace; 0x247f8ac2457d5b56;
  0x6737a86654af50ca; 0x81b505c4e31d3416; 0x697d2af8155b14d3; 0xb1bc903148960de4;
  0xab800d98e7942b59; 0x3478f9919d044cb9; 0x2fc97f21de55e666; 0xcb92e4b17241597e;
  0xc4557d36dfe69105; 0x7c862ed617fefa15; 0x969737d8fa1e0114; 0xa713b934bdc6b484;
  0xbe7b09b6e531c59f; 0x16af2905f550b960; 0x52c24aee25f89011; 0xb95e48f9244be772;
  0x546a10b808d13e9e; 0xba0a65d2d3beb0d4; 0x92e65bbccc91745f; 0x48fed7478afab6ac;
  0xe5d680894047337a; 0x3e43176bea7f7deb; 0x45e078f23cfba513; 0xbca23f84fe971e5b;
  0x95c31af30deb56b2; 0x68f031e1f90898b1; 0xdcb0d6ad6b426c7c; 0xf708c5e88398ff51;
  0xae7c7ae53d48d270; 0xbd2f249d12c49239; 0x5fdce55b93f983ae; 0x8cabaa71551c27a9;
  0x2a35085c04891f4f; 0x5d05d369885f586a; 0x65ee9e544f098b0e; 0x7a2e74803ad7549a;
  0x446d63ebd0a82971; 0xd94ca1d0b19e9555; 0x936b40a520c2f83d; 0x98ddb546bbea450d;
  0x7ba36f99d684d8f8; 0xe02af7f49a9bca53; 0xe94534251a15aca7; 0x1d19dce66e780450;
  0x7e5f18e40c5821d1; 0x46b455d9cb0ef2b5; 0xaff161fcd11b5e12; 0x82e128ef14e863b0;
  0x29612577f37c48e9; 0x4a27e175915c6d68; 0xf5d1f3da983e2495; 0xf02d84a742e2ddbc;
  0x434822a411d20b9c; 0xa036f87b7cbc9669; 0xe70fb6bb5be1e8be; 0x0d1eafb5b60113bf;
  0xc94bd28369e782ba; 0x06a85a562d29ae8f; 0x58f9a4145283a143; 0x797a59abcd22033c;
  0x31848eec47d8b590; 0x419114960a74d058; 0xb8d353e0c8186b10; 0xa447941f4a33e322;
  0xe45b9b90ac14bf18; 0x235acb8d840779bb; 0x9ff8f4097a9067e0; 0x5974bf0dbed02d21;
  0x15fb042e02a5eec6; 0x6012e92995d57227; 0xc0241152e969e44e; 0xd706234ef06ad14c;
  0x7d0b35cffbad7677; 0xf2f4b29559440678; 0x9cacd9228d653046; 0x0c93b4ac5a529fdd;
  0x2bb81345e8da932d; 0x1968b08258f7711b; 0xfd332b12f4e3ce03; 0xb2e8bd1abf635a42;
  0xf9424776c26cbb48; 0x14761f37eef662a4; 0xdb9597e2aa384e91; 0xd5df157cebcc0a88;
  0xfa166a5d3599ecee; 0x272ba7e9b2880cf0; 0xa362d5508b49c1cf; 0xc5d8662f33b51d67;
  0x6c815d85cf87edfa; 0x300995f5ab8b39f2; 0x02d936321ba6dbc4; 0x519667c5d20dc7b7;
  0xf45ce8c3746da8f7; 0x6a2907d3e2ae4375; 0x9b89986d4c1f12ab; 0xffea1d20ef4515c7;
  0x0bb6f5e39b28bd30; 0x8b8eeb3e94660544; 0x9d21c23b6136bc24; 0x0a3beefa777b3152;
  0x85c469a0d592415d; 0x844972b939c1cd3f; 0x372cd4ba6af11b1f; 0x836c33f6f8bbefd2;
  0x8690448b226716fb; 0x4e568d11a7d31823; 0x36a1cfa386a2977d; 0x18e5ab9bb4a4fd79;
  0x8fff875aa2e9700f; 0x10077353d87917ef; 0x903f6d8ed737af9b; 0x7464f61e7b231083;
  0x75e9ed0797709ce1; 0xcd3abee75f68f7f1; 0x1722321c19033502; 0x26a6bcf05edb8092;
  0x78f742b221718f5e; 0xc701501d2813c6a3; 0xe2f3c1c6813d1197; 0xc68c4b04c4404ac1;
  0xf1a09fbeaeb151de; 0x70159a7a4dac65c8; 0xad2857cecabd85d6; 0x1c94c7ff822b8832;
  0xcfe388d544ce2c35; 0x3a327b0fdcf008a0; 0x2183fdbf9fa1a27f; 0x08e2d8c86cddea96;
  0xe37edadf6d6e9df5; 0x4c8fbb23bc75c3e7; 0xea11190eede0fb01; 0x944e01eae1b8dad0;
  0x71988163a1ffe9aa; 0x6346c40262202581; 0x3c9a2159f1d9a62f; 0x05fc777ddadcf929;
  0x9950ae5f57b9c96f; 0x38eb4d3dc756d364; 0xecb94358c0c9558e; 0x2d104913c5f33da2;
  0xc8c6c99a85b40ed8; 0x55e70ba1e482b2fc; 0x2e44643832066a04; 0x25f291dba92ed734;
  0x018d1b19ec538c62; 0x9a048374a04c9ec9; 0xb440e74c924af4cd; 0x401c0f8fe6275c3a;
  0x3d173a401d8a2a4d; 0x80381edd0f4eb874; 0x1bb186b04351aadf; 0x971a2cc1164d8d76;
  0xc3703c791e9cb3e8; 0x9e75ef1096c3eb82; 0x1e4df1cd998d53f6; 0x6463854da35a076c;
  0x5c88c870640cd408; 0x871d5f92ce349a99; 0x534f51f7c9ab1c73; 0xaa0d16810bc7a73b;
  0xdd3dcdb48711e01e; 0x200ee6a673f22e1d; 0x66bab37fb8fcdca8; 0x4d02a03a50264f85;
  0xfb9b7144d9ca608c; 0xed3458412c9ad9ec; 0xb714ca6765bfa36b; 0x0e4a829e41f44419;
  0x88dac615639352e2; 0x32d0a3c7b02de236; 0x0725414fc17a22ed; 0x4fdb96084b809441;
  0x096fc3d1808e66f4; 0xd8c1bac95dcd1937; 0xb0318b28a4c58186; 0xe682ada2b7b264dc;
  0xbb877ecb3fed3cb6; 0x6d0c469c23d46198; 0x5bad893fa576f6e5; 0xe8c82f3cf64620c5;
  0xfcbe300b18b04261; 0x56b3268a1377e55a; 0xa69ea22d519538e6; 0xd1ae7918dd437fc3;
  0xf8cf5c6f2e3f372a; 0xb365a6035330d620; 0x2c9d520a29a0b1c0; 0xd68b38571c395d2e;
  0x6e586bb7d421363e; 0x0fc79987ada7c87b; 0xdfe4fb869cb73bda; 0x7341b751ba59326e;
  0xccb7a5feb33b7b93; 0xf379a98cb5178a1a; 0x3bbf601630a384c2; 0x501b7cdc3e5e4bd5;
  0x72ccac48560abe0c; 0xaca54cd726ee09b4; 0xd02362013110f3a1; 0x619ff2307986fe45;
  0x8e729c434ebafc6d; 0x6ba41cca0efdcf17; 0x5e51fe427faa0fcc; 0x3fce0c72062cf189;
  0xe1a7eced76c84631; 0x1fc0ead475dedf94; 0xa9593baafc32f09d; 0x7730db358cd64725;
  0x118a684a342a9b8d; 0xd3774f2ac6e5a407; 0xb699d17e89ec2f09; 0x13535e782f8c4049;
  0x5a20922649257a87; 0xde69e09f70e4b7b8; 0x28ec3e6e1f2fc48b; 0xfe670639031699a5;
  0x8a03f02778358926; 0xa5ca8f06a6606f40; 0xd4520e65079f86ea; 0xc2fd2760f2cf3f8a;
  0xb5cdfc557e1978af; 0xda188cfb466bc2f3; 0x91b276973b6423f9; 0xee60756adb6f8e4a;
  0x62cbdf1b8e73a9e3; 0xeb9c021701b37763; 0xefed6e73373c0228; 0xa8d420b310617cff;
  0xa2efce49671a4dad; 0x7fd203fde00badb3; 0x04716c64368f754b; 0x6fd570ae3872ba5c;
  0x0000000000000000; 0x47394ec0275d7ed7; 0x76bdc02c6085cb47; 0x8957dd0c8fc0de80].

Definition precomputedInversedLSTableRight_4 : list Z := [
  0xff6a2da54a84525c; 0x73c62f2d9724db4d; 0x62a72832bc572697; 0x1d07498fe1724ac8;
  0xe195960e78674571; 0xc35798302e817c06; 0x02111d38235fd707; 0x8a9f25c0b8413318;
  0x07dac854952f30eb; 0x289767e6f906346c; 0xedf3d89eb266f263; 0xb36945396a34faae;
  0xb6a29055dc441d42; 0xe5b7ac7e3ed9287f; 0x2709db52e096de9b; 0xbd1e1691836a9abb;
  0xc48d5064bbae4ced; 0x1088e803dbbd7738; 0x175220574e9247d3; 0xe64f5e5aed48759a;
  0x01e9ef1cf0ce8ae2; 0x45aef3605cc1f80c; 0x91ab4b073cd2c3d9; 0x80ca4c1817a13e03;
  0x33a309217d95c4ad; 0xa5d28a72d468379f; 0x0e7753a8e95e6015; 0x7a6bb4d1eb558bb3;
  0xf2e58c29704b6fac; 0xaa4c36c6cdf8dd68; 0x4e1275a403ef7ff5; 0x93ba563f1f8d14de;
  0x084474e08cbfda1c; 0x13701a27082c2add; 0xbcf7f98d73a41059; 0x4065260ceab11fe0;
  0xec1a378242a87881; 0x68f241ea13b72b8c; 0x2ea440ae9ce78e65; 0x0f9ebcb41990eaf7;
  0x6cd07b9a55094682; 0x55261b63877c8f34; 0xb74b7f492c8a97a0; 0x381f8fe522bb4354;
  0x66851242fae94b99; 0x8967d7e46bd06efd; 0x71d73215b47b0c4a; 0x1f1654b7c22d9dcf;
  0x4bd9a0c8b59f9819; 0x20d3130675b9ee70; 0x04223a7046be6d0e; 0xfd7b309d69db855b;
  0x760dfa4121543ca1; 0x3479c175e8baf446; 0x31b214195eca13aa; 0xfaa1f8c9fcf4b5b0;
  0xaf87e3aa7b883a84; 0x09ad9bfc7c7150fe; 0x3668dc4dcbe52341; 0xde50d1bfcff336ce;
  0xe26d642aabf61894; 0x14aad2739d031a36; 0xccc92484371196f1; 0xfb4817d50c3a3f52;
  0x9a17cdc363fc4420; 0x9fdc18afd58ca3cc; 0x53153c2be29d353d; 0x6d399486a5c7cc60;
  0x5e9a9da7d85208cd; 0x3fc547b1b79473bf; 0x2f4dafb26c290487; 0x5737065ba4235833;
  0xe7a6b1461d86ff78; 0xdb9b04d37983d122; 0x5c8b809ffb0ddfca; 0xb8d5c3fd351a7d57;
  0x4a304fd4455112fb; 0x50edce0f310c68d8; 0x4c03689c20b0a8f2; 0xd2369f2f05f281dc;
  0xdda8239b1c626b2b; 0xd7fd4a43b3826630; 0x58a9baefbdb3b2c4; 0xbb2d31d9e68b20b2;
  0x741ce779020beba6; 0xae6e0cb68b46b066; 0x96718353a9fdf332; 0x54cff47f77b205d6;
  0x3be77dc1f12a1eb1; 0x49c8bdf096c04f1e; 0x9253b923ef439e3c; 0x99ef3fe7b06d19c5;
  0xb280aa259afa704c; 0x676cfd5e0a27c17b; 0xbee6e4b550fbc75e; 0xa0195f1e6218d073;
  0x6ec166a276569185; 0x9bfe22df9332cec2; 0xefe2c5a691392564; 0xa85d2bfeeea70a6f;
  0x8f54f0ac0e31d4f4; 0x232be122a628b395; 0x39f660f9d275c9b6; 0xa9b4c4e21e69808d;
  0xa7c3974af737e098; 0xced839bc144e41f6; 0xf30c63358085e54e; 0xea2910ca2749c288;
  0xe9d1e2eef4d89f6d; 0xc564bf784b60c60f; 0x305bfb05ae049948; 0x94609e6b8aa22435;
  0x378133513b2ba9a3; 0xb93c2ce1c5d4f7b5; 0xf6c7b65936f502a2; 0xdfb93ea33f3dbc2c;
  0xe8380df20416158f; 0xb55a62710fd540a7; 0xa62a785607f96a7a; 0xf0f491115314b8ab;
  0x2518c66ac3c9099c; 0x3dd45a8994cba4b8; 0x8d45ed942d6e03f3; 0x75f50865f2c56144;
  0x0d8fa18c3acf3df0; 0x5f7372bb289c822f; 0x958971777a6caed7; 0x8332be3cc43063e6;
  0xd5ec577b90ddb137; 0x439dd42839204205; 0x1effbbab32e3172d; 0x6ae35cd230e8fc8b;
  0x722fc03167ea51af; 0x2a867adeda59e36b; 0x0bbc86c45f2e87f9; 0xd614a55f434cecd2;
  0xcafa03cc52f02cf8; 0xda72ebcf894d5bc0; 0x24f129763307837e; 0xc2be772cde4ff6e4;
  0x4ffb9ab8f321f517; 0x0a5569d8afe00d1b; 0x634ec72e4c99ac75; 0xe3848b365b389276;
  0x1add81db745d7a23; 0x35902e6918747ea4; 0x9e35f7b32542292e; 0xc0af6a14fd1021e3;
  0x3c3db59564052e5a; 0x6f2889be86981b67; 0xe45e4362ce17a29d; 0x7e498ea1adebe6bd;
  0x1299f53bf8e2a03f; 0x615fda166fc67b72; 0x657de0662978167c; 0x787aa9e9c80a5cb4;
  0xc69c4d5c98f19bea; 0x05cbd56cb670e7ec; 0xb4b38d6dff1bca45; 0x3e2ca8ad475af95d;
  0x52fcd3371253bfdf; 0xf4d6ab6115aad5a5; 0x16bbcf4bbe5ccd31; 0xfe83c2b9ba4ad8be;
  0x18cc9ce35702ad24; 0xee0b2aba61f7af86; 0xf8b0e5f1dfab62b7; 0xcf31d6a0e480cb14;
  0x7db17c857e7abb58; 0x5d626f830bc35528; 0xaba5d9da3d36578a; 0x56dee94754edd2d1;
  0xbac4dec51645aa50; 0x8ebd1fb0feff5e16; 0xd3df7033f53c0b3e; 0x297e88fa09c8be8e;
  0x2cb55d96bfb85962; 0x15433d6f6dcd90d4; 0xa43b656e24a6bd7d; 0x2b6f95c22a976989;
  0x691baef6e379a16e; 0x86f96b507240840a; 0x192573ffa7cc27c6; 0x77e4155dd19ab643;
  0xbf0f0ba9a0354dbc; 0xac7f118ea8196761; 0xd027821726ad56db; 0x9042a41bcc1c493b;
  0x9dcd0597f6d374cb; 0xf53f447de5645f47; 0x482152ec660ec5fc; 0x47bfee587f9e2f0b;
  0xd863f6f7aa128cc7; 0x1161071f2b73fdda; 0x9806d0fb40a39327; 0x44471c7cac0f72ee;
  0x703edd0944b586a8; 0xf11d7e0da3da3249; 0x64940f7ad9b69c9e; 0xd405b86760133bd5;
  0xf72e5945c63b8840; 0xdc41cc87ecace1c9; 0x8b76cadc488fb9fa; 0xc902f1e88161711d;
  0x97986c4f593379d0; 0xb091b71db9a5a74b; 0x26e0344e10585479; 0x8123a304e76fb4e1;
  0xd98a19eb5adc0625; 0x888e38f89b1ee41f; 0x594055f34d7d3826; 0x22c20e3e56e63977;
  0x324ae63d8d5b4e4f; 0x7fa061bd5d256c5f; 0x2d5cb28a4f76d380; 0x8cac0288dda08911;
  0x3a0e92dd01e49453; 0x7b825bcd1b9b0151; 0xd1ce6d0bd663dc39; 0x51042113c1c2e23a;
  0xcd20cb98c7df1c13; 0xa1f0b00292d65a91; 0x1ceea69311bcc02a; 0x4dea8780d07e2210;
  0x0c664e90ca01b712; 0xcb13ecd0a23ea61a; 0x03f8f224d3915de5; 0x42743b34c9eec8e7;
  0x5b5148cb6e22ef21; 0xf9590aed2f65e855; 0xc8eb1ef471affbff; 0x6b0ab3cec0267669;
  0x7c5893998eb431ba; 0x418cc9101a7f9502; 0x465601448f50a5e9; 0xc775a240683f1108;
  0xad96fe9258d7ed83; 0xa3e1ad3ab1898d96; 0xb1785801496b2da9; 0xa208422641470774;
  0xe07c791288a9cf93; 0x213afc1a85776492; 0x0633274865e1ba09; 0x84e87668511f530d;
  0x799346f538c4d656; 0xfc92df8199150fb9; 0x9c24ea8b061dfe29; 0x1b346ec78493f0c1;
  0xebc0ffd6d787486a; 0x82db512034fee904; 0x60b6350a9f08f190; 0xc14685080ddeab01;
  0x0000000000000000; 0x8710844c828e0ee8; 0x5ab8a7d79eec65c3; 0x85019974a1d1d9ef].

Definition precomputedInversedLSTableRight_5 : list Z := [
  0x78d91d808c853b8c; 0xbf31b787a17cf5a1; 0xb7bedf6c21290321; 0x42a1dc1eaa6960aa;
  0xc992ec32cde39fcd; 0xd94f3c270e49b00e; 0xa20d36c8b20a39b2; 0xe2fff09c38e78538;
  0x74f041ff4c1bb64c; 0x7fe43e7bfc88f2fc; 0x83bc58c7e7df09e7; 0x9594a60c443a8144;
  0x4369d13bba2b0eba; 0x4e8880616af7ed6a; 0xc620a7223dbba03d; 0x7db72431dc0c2edc;
  0xadbf7dd842520642; 0x5968738fd9500bd9; 0x2d983270954bbd95; 0xbd62adcd81f82981;
  0x51e71b645905fd59; 0x719e784e1c92a31c; 0x854976198790ae87; 0x8dc61ef207c55807;
  0x1852b8fe43ffd943; 0xe9eb8f188874c188; 0xe823823d9836af98; 0x23e274457551ec75;
  0x6310b211ffbc50ff; 0x502f164149479349; 0x4f408d447ab5837a; 0x274440d1359a9735;
  0xcd34d8a68d28e48d; 0xaa825e23325fcf32; 0x2c503f558509d385; 0xa7630f79e2832ce2;
  0xd25b43a3bedaf4be; 0xd88731021e0bde1e; 0x5af364e0e996b9e9; 0xb9c49959c13352c1;
  0x5f9d5d51b91facb9; 0x28f60bc1c5c2a8c5; 0x128eca5fe32ef3e3; 0x268c4df425d8f925;
  0x30a4b33f863d7186; 0x1115dd30d3e841d3; 0x1d3c814f1376cc13; 0xe0acead618635918;
  0x99bdfa7384a40c84; 0xb2d0e6dd71a01671; 0x871a6c53a71472a7; 0xdad42b483e8f023e;
  0x69ccc0b05f6d7a5f; 0x6ca2f9010fe46f0f; 0xba5f8e36f1f5e0f1; 0xae246ab77294b472;
  0x86d26176b7561cb7; 0x9cd3c3c2d42d19d4; 0xceafcfc9bdee56bd; 0x9beee039a420d0a4;
  0x3a78c19e26ec5b26; 0xde721fdc7e44797e; 0x608ba57ecf7ae2cf; 0xffc371d32b91492b;
  0xbb978313e1b78ee1; 0x6d6af4241fa6011f; 0x0de1515ad0dce3d0; 0x0e7a4635e01a51e0;
  0x1628fecba3e588a3; 0x527c0c0b69c34f69; 0x0b147f84b09344b0; 0x8afb3d0977c89177;
  0xec85b6a9d8fdd4d8; 0x4d13970e5a315f5a; 0xb425c80311efb111; 0xab4a5306221da122;
  0xc85ae117dda1f1dd; 0xfe0b7cf63bd3273b; 0xed4dbb8cc8bfbac8; 0xd1c054cc8e1c468e;
  0x6804cd954f2f144f; 0x073d23fb700dc970; 0x333fa450b6fbc3b6; 0x58a07eaac91265c9;
  0xcbc1f678ed6743ed; 0xd7357a12ee53e1ee; 0xf1b937e6cb8b18cb; 0x791110a59cc7559c;
  0xd5666058ced73dce; 0x3bb0ccbb36ae3536; 0x76a35bb56c9f6a6c; 0x487daebf0ab84a0a;
  0xc473bd681d3f7c1d; 0x6143a85bdf388cdf; 0x8e5d099d3703ea37; 0x3f16f82f76654e76;
  0xfd906b990b15950b; 0xea709877b8b273b8; 0x21b16e0f55d53055; 0xf2222089fb4daafb;
  0x340287abc6f60ac6; 0x413acb719aafd29a; 0x776b56907cdd047c; 0xa3c53beda24857a2;
  0x4be6b9d03a7ef83a; 0xc28693b67d70db7d; 0x32f7a975a6b9ada6; 0xf74c1938abc4bfab;
  0x04a6349440cb7b40; 0xfc5866bc1b57fb1b; 0xebb89552a8f01da8; 0x53b4012e79812179;
  0x9f48d4ade4ebabe4; 0xfaad48627b185c7b; 0xe40ade4258a82258; 0xca09fb5dfd252dfd;
  0x55412ff019ce8619; 0xb083fc975124ca51; 0x1a01a2b4637b0563; 0xc11d84d94db6694d;
  0x642d91ea8fb1998f; 0xf0713ac3dbc976db; 0x960fb16374fc3374; 0x9a26ed1cb462beb4;
  0x1bc9af9173396b73; 0x47cfe5affae075fa; 0x02531a4a2084dc20; 0x7e2c335eecca9cec;
  0xa5301533c207f0c2; 0x548922d5098ce809; 0xb14bf1b24166a441; 0x7a8a07caac01e7ac;
  0xeed6ace3f87908f8; 0xdde908b34e82cb4e; 0x3edef50a66272066; 0x56da389f29083429;
  0x459cffe5da64a9da; 0x1cf48c6a0334a203; 0x35ca8a8ed6b464d6; 0x88a82743574c4d57;
  0x1ea7962023b07e23; 0x6f39ee6e3f22dd3f; 0xe659c408782cfe78; 0x6b9fdafa7fe9a67f;
  0x36519de1e672d6e6; 0x3d45e26556e19256; 0x3c8def4046a3fc46; 0x2aa5118be54674e5;
  0xa19621a782cc8b82; 0xac7770fd52106852; 0x1f6f9b0533f21033; 0xa4f81816d2459ed2;
  0xfb6545476b5a326b; 0x4454f2c0ca26c7ca; 0xc34e9e936d32b56d; 0x81ef428dc75bd5c7;
  0x0fb24b10f0583ff0; 0xd6fd7737fe118ffe; 0xe164e7f308213708; 0x039b176f30c6b230;
  0x5c064a3e89d91e89; 0x4607e88aeaa21bea; 0x7c7f2914cc4e40cc; 0x293e06e4d580c6d5;
  0x945cab295478ef54; 0x7056756b0cd0cd0c; 0x0c295c7fc09e8dc0; 0x936188d224752624;
  0x571235ba394a5a39; 0xe5c2d36748ea4c48; 0x01c80d2510426e10; 0xdb1c266d2ecd6c2e;
  0x094765ce90179890; 0x65e59ccf9ff3f79f; 0x80274fa8d719bbd7; 0x2e03251fa58d0fa5;
  0xf8fe52285b9c805b; 0x8f9504b827418427; 0xb80c947cd1713cd1; 0x8c0e13d717873617;
  0x89602a66470e2347; 0xa8d1446912db1312; 0xc5bbb04d0d7d120d; 0x382bdbd406688706;
  0xdfba12f96e06176e; 0x75384cda5c59d85c; 0x73cd62043c167f3c; 0xd4ae6d7dde9553de;
  0xcf67c2ecadac38ad; 0x17e0f3eeb3a7e6b3; 0x6a57d7df6fabc86f; 0xd3934e86ae989aae;
  0xbef9baa2b13e9bb1; 0x088f68eb8055f680; 0x199ab5db53bdb753; 0x2079632a45975e45;
  0x4cdb9a2b4a73314a; 0x90fa9fbd14b39414; 0x92a985f734374834; 0xf4d70e579b020d9b;
  0xb5edc52601addf01; 0x39e3d6f1162ae916; 0xb318ebf861e27861; 0xb676d249316b6d31;
  0xa05e2c82928ee592; 0x667e8ba0af3545af; 0x97c7bc4664be5d64; 0xdc2105965ec0a55e;
  0xef1ea1c6e83b66e8; 0x40f2c6548aedbc8a; 0x62d8bf34effe3eef; 0x10ddd015c3aa2fc3;
  0x49b5a39a1afa241a; 0xf51f03728b40638b; 0xa919494c02997d02; 0xc7e8aa072df9ce2d;
  0x84817b3c97d2c097; 0x72056f212c54112c; 0x222a796065138265; 0xafec679262d6da62;
  0x316cbe1a967f1f96; 0x6ef1e34b2f60b32f; 0x1346c77af36c9df3; 0xbcaaa0e891ba4791;
  0x4a2eb4f52a3c962a; 0x147be48183615483; 0xf3ea2daceb0fc4eb; 0x056e39b150891550;
  0xc0d589fc5df4075d; 0x5dce471b999b7099; 0xe791c92d686e9068; 0x2b6d1caef5041af5;
  0x06f52ede604fa760; 0xf684141dbb86d1bb; 0x827455e2f79d67f7; 0x5e555074a95dc2a9;
  0x24df57be055c2505; 0xccfcd5839d6a8a9d; 0x379990c4f630b8f6; 0x9d1bcee7c46f77c4;
  0x9875f75694e66294; 0xe337fdb928a5eb28; 0x25175a9b151e4b15; 0x0adc72a1a0d12aa0;
  0xd00859e99e5e289e; 0x8b33302c678aff67; 0x9e80d988f4a9c5f4; 0x67b68685bf772bbf;
  0xa6ab025cf2c142f2; 0x2fcb283ab5cf61b5; 0x15b3e9a493233a93; 0x7b420aefbc4389bc;
  0x0000000000000000; 0xf9365f0d4bdeee4b; 0x9132929804f1fa04; 0x5b3b69c5f9d4d7f9].

Definition precomputedInversedLSTableRight_6 : list Z := [
  0x045bb3426ee518c6; 0xa306f712658f4c36; 0x3b2e19ca9c049a9d; 0x6c89a6396b80ab4b;
  0x556b07d2c0173db5; 0xa63b18a1f1c25220; 0x976f1cce865cf491; 0xddec60c1428e8b80;
  0xd0672af60acaa5d9; 0x7d407303ea3acd05; 0xa1ca4f33521c4055; 0x3884fd1a513f902e;
  0x7f8ccb22dda9c166; 0xb8b53f8d0faf1654; 0xb458294bbd433edd; 0x5b4aa9354568195f;
  0x765c3257fb08f7f9; 0x32fee0bfbaa5ac02; 0xe299ca49b06f09db; 0x850c2d24cadd986c;
  0xaad60e67432e7aa9; 0x8f7630812147a440; 0xcbd4e26960eaffbb; 0x53fc0cb199612910;
  0x6b78f1abc85eb93e; 0x70cb3934a27ee35c; 0x63ce542f14578971; 0x10af89cb7b12609e;
  0x5a2cf5c4bfc01f8f; 0xb9d3637cf5071084; 0xabb05296b9867c79; 0x5cbbfea7e6b60b2a;
  0x197f70be5db35601; 0x0f47f2167fd7223a; 0xf19ca752064663f6; 0xc87e06b9add1f508;
  0x0b1c415411323afc; 0xb53e75ba47eb380d; 0x07f15792a3de1275; 0xc9185a485779f3d8;
  0x58e04de5885313ec; 0xbd88d03e9be20842; 0xd55ac5459e87bbcf; 0x4fbe93bc509f6107;
  0xd6f0219553bcb17c; 0xe055726887fc05b8; 0x3469ebdce3d3b8a7; 0xfbe6baf7eddc5fda;
  0xecb864ae35102d31; 0x643f03bdb7899b04; 0xedde385fcfb82be1; 0x9334af8ce8b9ec57;
  0xe40ec12ae9191d7e; 0xbb1fdb5dc2941ce7; 0xfc17ed654e024daf; 0x4353857ae273498e;
  0xfedb5544799141cc; 0xb3a97ed91e9d2ca8; 0x2c70c79344c8e876; 0xcab2be989a42f96b;
  0x68d2157b0565b38d; 0xdf20d8e0751d87e3; 0x6f2342e9a6bba1f8; 0xe9858b1da15d3327;
  0xef12807ef82b2782; 0xa81ab64674bd76ca; 0xc739f4afd206d732; 0xf2364382cb7d6945;
  0x994eb2290323d07b; 0x9fd9b94a5a55c4de; 0xad2759f5e0f068dc; 0x2ae7ccf01dbefcd3;
  0x2fda234389f3e2c5; 0x8dba88a016d4a823; 0x0e21aee7857f24ea; 0x1c429f0dc9fe4817;
  0x466e6ac9763e5798; 0xfa80e6061774590a; 0x3cdf4e583fda88e8; 0x3e13f6790849848b;
  0xf70bac315f307753; 0x791bc04184dfd5c3; 0xe3ff96b84ac70f0b; 0x21fb8da40c8cc62f;
  0x7361dde46f45e9ef; 0x540d5b233abf3b65; 0x1bb3c89f6a205a62; 0x175ede59d8cc72eb;
  0x7207811595edef3f; 0x7bd77860b34cd9a0; 0xf66df0c0a5987183; 0xd2ab92d73d59a9ba;
  0x9252f37d1211ea87; 0x7c262ff21092cbd5; 0x66f3bb9c801a9767; 0x37c30f0c2ee8b214;
  0xcf8f512b0e0fe77d; 0x45c48e19bb055d2b; 0x36a553fdd440b4c4; 0x2ebc7fb2735be415;
  0x9ae456f9ce18dac8; 0x5986111472fb153c; 0xe5689ddb13b11bae; 0x846a71d530759ebc;
  0xe7a425fa242217cd; 0xf84c5e2720e75569; 0xf0fafba3fcee6526; 0x71ad65c558d6e58c;
  0x4c14776c9da46bb4; 0xdc8a3c30b8268d50; 0x56c1e3020d2c3706; 0x8cdcd451ec7caef3;
  0x86a6c9f407e692df; 0xb694916a8ad032be; 0xb7f2cd9b7078346e; 0x6064b0ffd96c83c2;
  0xe6c2790bde8a111d; 0x4235d98b18db4f5e; 0x4d722b9d670c6d64; 0xcd43e90a399ceb1e;
  0x233735853b1fca4c; 0x08b6a584dc09304f; 0x0d8b4a3748442e59; 0xd9b7d3832c6b9346;
  0x5e774686d1250749; 0x3398bc4e400daad2; 0x260ada36af52d45a; 0x6e451e185c13a728;
  0xee74dc8f02832152; 0xf5c7141068a37b30; 0x5130b490aef22573; 0x22516974c1b7cc9c;
  0x09d0f97526a1369f; 0xea2f6fcd6c663994; 0x24c6621798c1d839; 0xd3cdce26c7f1af6a;
  0x15926678ef5f7e88; 0x276c86c755fad28a; 0x89e13be27831b0e5; 0x0ced16c6b2ec2889;
  0x01665cf1faa806d0; 0x8e106c70dbefa290; 0x91f817addf2ae034; 0xc2041b1c464bc924;
  0xbcee8ccf614a0e92; 0x11c9d53a81ba664e; 0x02ccb82137930c63; 0x9b820a0834b0dc18;
  0xa260abe39f274ae6; 0x65595f4c4d219dd4; 0x126331ea4c816cfd; 0xfd71b194b4aa4b7f;
  0xa591fc713cf95893; 0x06970b63597614a5; 0xeb49333c96ce3f44; 0x87c09505fd4e940f;
  0xe1332e997d540368; 0x470836388c965148; 0xe8e3d7ec5bf535f7; 0x350fb72d197bbe77;
  0x6deffac89128ad9b; 0x209dd155f624c0ff; 0x484fc42ef3417372; 0xae8dbd252dcb626f;
  0x2b819001e716fa03; 0x9c735d9a976ece6d; 0xd43c99b4642fbd1f; 0x529a504063c92fc0;
  0xc0c8a33d71d8c547; 0xa4f7a080c6515e43; 0x13056d1bb6296a2d; 0x8031c2975e90867a;
  0x8b2d83c34fa2bc86; 0x3032589e8d36a061; 0x94c5f81e4b67fe22; 0xd7967d64a914b7ac;
  0x909e4b5c2582e6e4; 0x75f6d6873633fd4a; 0xda1d3753e15099f5; 0x40f961aa2f48433d;
  0x1fe87bdd04c542a4; 0x294d2820d085f660; 0x81579e66a43880aa; 0x4ed8cf4daa3767d7;
  0xcc25b5fbc334edce; 0xc36247edbce3cff4; 0xa97ceab78e15701a; 0x6102ec0e23c48512;
  0x3f75aa88f2e1825b; 0x8a4bdf32b50aba56; 0xd1017607f062a309; 0x18192c4fa71b50d1;
  0xb0039a09d3a6261b; 0x9828eed8f98bd6ab; 0x787d9cb07e77d313; 0x25a03ee66269dee9;
  0x9ebfe5bba0fdc20e; 0x6795e76d7ab291b7; 0x419f3d5bd5e045ed; 0x44a2d2e841ad5bfb;
  0x1d24c3fc33564ec7; 0x5ddda2561c1e0dfa; 0x773a6ea601a0f129; 0x282b74d12a2df0b0;
  0xb165c6f8290e20cb; 0x053defb3944d1e16; 0x1e8e272cfe6d4474; 0xf92a02d6da4f53b9;
  0x1ad5946e90885cb2; 0x4a837c0fc4d27f11; 0x492998df09e975a2; 0xf3501f7331d56f95;
  0xc1aeffcc8b70c397; 0x57a7bff3f78431d6; 0x3a48453b66ac9c4d; 0xa75d44500b6a54f0;
  0xd8d18f72d6c39596; 0xba7987ac383c1a37; 0x03aae4d0cd3b0ab3; 0x5056e861545a23a3;
  0xc5f54c8ee595db51; 0x9d15016b6dc6c8bd; 0xc65fa85e28aed1e2; 0x9609403f7cf4f241;
  0xf4a148e1920b7de0; 0xbf44681fac710421; 0x3db912a9c5728e38; 0x5f111a772b8d0199;
  0xde4684118fb58133; 0x7eea97d32701c7b6; 0x82fd7ab669038a19; 0x888767138299b635;
  0x6a1ead5a32f6bfee; 0x62a808deeeff8fa1; 0xb2cf2228e4352a78; 0x4be520fe3e7a79c1;
  0x69b4498affcdb55d; 0x0a7a1da5eb9a3c2c; 0xafebe1d4d76364bf; 0xa0ac13c2a8b44685;
  0xffbd09b58339471c; 0xcee90ddaf4a7e1ad; 0x7ab1249149e4df70; 0xbe2234ee56d902f1;
  0x2d169b62be60eea6; 0x39e2a1ebab9796fe; 0x95a3a4efb1cff8f2; 0x163882a82264743b;
  0xdb7b6ba21bf89f25; 0xc493107f1f3ddd81; 0xac4105041a586e0c; 0x3154046f779ea6b1;
  0x0000000000000000; 0x839b264793ab8cc9; 0x74908a76cc9bfb9a; 0x14f43a8915f77858].

Definition precomputedInversedLSTableRight_7 : list Z := [
  0x42e7b4cac03df4e8; 0x123fbc1025e61ef1; 0xcaf8a0d05ac49637; 0x39b6e7ff113ae82f;
  0xd2dc1d4a2b01046c; 0xa1912509d545d723; 0xcef674ebac041073; 0xc1019424d2d7da8c;
  0xf6a2a66a610e384d; 0x03e55f82a7508333; 0x33ade67545196485; 0x1a23d7660aa5d179;
  0x227705e7c7aff947; 0x8df3f55fb009248a; 0x4b19eac2334efb71; 0x35a458b2c8b9a1e3;
  0x57338363b44bef6e; 0xbfbc26542920801e; 0x491e803e482eb853; 0x247ebb204a0f3c21;
  0x677b3a94560208d8; 0x81e14a12698a6d46; 0x696eef25f4e10236; 0xb1a9f3e58bc38af0;
  0xab8a248381665b89; 0x34466dcc148961f2; 0x2f878fd4c21c709a; 0xcb1a95ae86f45626;
  0xc4ed7561f8279cd9; 0x7cbad88c809719b0; 0x96321747669c35e2; 0xa7989bce58e51245;
  0xbe5e132af510400f; 0x1631682bd32698b5; 0x52df62269ebba93b; 0xb9b59893a4804578;
  0x54d6dce1131b6c5d; 0xba50c71103d0c64b; 0x923cc37c905cb3a6; 0x48fcb540941e7842;
  0xe57f2f0498d8e6ad; 0x3e5d6c4640aaed58; 0x450c3f7391adf19f; 0xbc5979d68e70032d;
  0x95d748c5c1ccb6d1; 0x688cda5b28d1c227; 0xdcc9c8fb89e20e82; 0xf7409314bd3ef85c;
  0xae66c5c6ab961ddc; 0xbdbb4ca85240c33c; 0x5f2fe8159b0820e6; 0x8c11c0216c39e49b;
  0x2a6b6e91e8ec36cf; 0x5d2882e9e06863c4; 0x657c50682d624bfa; 0x7ab3664b0d37dcd6;
  0x44ee0a0d4d9d318e; 0xd92529bea31248d7; 0x93def6024c6c73b7; 0x9827c2f6c47f3f0c;
  0x7b515335d1071cc7; 0xe093ce41b228a0f8; 0xe96d9049415baf61; 0x1dc85cdf5b35d40e;
  0x7ebdb270fbf75a92; 0x46e960f136fd72ac; 0xaf84f0b877a6ddcd; 0x82041590cedaee75;
  0x298e31134fbcb5fc; 0x4afbdfbcef7e3b60; 0xf547f9e8c65ebb7e; 0xf0ab18adecaefd2b;
  0x430581b41c0d34f9; 0xa073107709751732; 0xe77845f8e3b8a58f; 0x0df08a3305b389dd;
  0xc91dff52fd941504; 0x0609bec78da0c566; 0x58c463acca982591; 0x795639c9aa675fe5;
  0x31aa8c893e7927a7; 0x4102eb48676d77db; 0xb857aded78b08569; 0xa47dc44cffb59176;
  0xe49d1a7a44e826bc; 0x239530991b9f3956; 0x9fcc494f95ef3a7b; 0x592656d216a8e580;
  0x15d437a974761b86; 0x6090b12d07920daf; 0xc0e3a15a0ee71a9d; 0xd730fc0f01f14239;
  0x7d58edf25ca7d9a1; 0xf2ac725197cebe09; 0x9c2916cd32bfb948; 0x0c12bf4dd98349cc;
  0x2b895bef34dcf6de; 0x19c688e4adf5524a; 0xfd5b929ee91d74f6; 0xb24cac672c9309c3;
  0xf95546a51fddf2b2; 0x143602d7a846db97; 0xdb224342d8720bf5; 0xd53796f37a91011b;
  0xfab01927b88d7181; 0x279be4a2ed5fbf12; 0xa3964ff5ae259401; 0xc50f401f24175cc8;
  0x6c820e60de114463; 0x3048b9f7e249e7b6; 0x02076afc7b604322; 0x513a3da439eb2a08;
  0xf4a5cc961a6e7b6f; 0x6a8bb0a753b18105; 0x9bc29d74632fbc3f; 0xff5cf862927d37d4;
  0x0bf934f488134cbb; 0x8bfa4b983da9e1ec; 0x9dcb23b3ee8f7959; 0x0a1b018a54238caa;
  0x85ef9e299f4aeb02; 0x840dab57437a2b13; 0x37a3324eb3d9e2c1; 0x83e620ee12ea2e64;
  0x860ac1ab381a6831; 0x4ef50b8719bebd24; 0x364107306fe922d0; 0x1824bd9a71c5925b;
  0x8ff49fa3cb6967a8; 0x1038d6ec5e865dd3; 0x903ba980eb3cf084; 0x74a6b3faafd4d638;
  0x7544868473e41629; 0xcd132b690b549340; 0x17d35d550f1658a4; 0x2679d1dc316f7f03;
  0x78b40cb776579ff4; 0xc7082ae35f771fea; 0xe294a4bdc948e3da; 0xc6ea1f9d8347dffb;
  0xf1492dd3309e3d3a; 0x70a867c15914507c; 0xad839a440cc69eef; 0x1c2a69a18705141f;
  0xcf1441957034d062; 0x3a53b87db66a6b1c; 0x21925a6560ff7a74; 0x081c6b762f43cf88;
  0xe37691c3157823cb; 0x4cf2617b62defe06; 0xea88cfcbe60b2c52; 0x94357dbb1dfc76c0;
  0x714a52bf8524906d; 0x6375eeafa0c28e9c; 0x3c5a06ba3bcaae7a; 0x05ece1452af04655;
  0x99c5f788184fff1d; 0x3854d281cd0a283e; 0xec81710c6babe934; 0x2d80e528b97c33b8;
  0xc8ffca2c21a4d515; 0x5534e99fcf2bac4c; 0x2e65baaa1e2cb08b; 0x259c8e5e963ffc30;
  0x01e2357edc30c011; 0x9a20a80abf1f7c2e; 0xb44512a0a133cca5; 0x40e0de36bb5db7ca;
  0x3db833c4e7fa6e6b; 0x80037f6cb5baad57; 0x1bc1e218d6951168; 0x97d02239baacf5f3;
  0xc306fed8a9b799ae; 0x9e2e7c3149dffa6a; 0x1e2d035dfc65573d; 0x649e6516f1528beb;
  0x5ccab7973c58a3d5; 0x87e8f4d5e42aa820; 0x533d5758428b692a; 0xaa6811fd5d569b98;
  0xdd2bfd8555d2ce93; 0x20706f1bbccfba65; 0x66990fea8a32c8c9; 0x4d105405beee3e17;
  0xfb522c5964bdb190; 0xed634472b79b2925; 0xb7a04d2206634f96; 0x0e15d5b1a2e30aee;
  0x881f141a9af962df; 0x324fd30b9929a494; 0x07eb8bb951900577; 0x4f173ef9c58e7d35;
  0x09fe5e08f3730f99; 0xd8c71cc07f2288c6; 0xb04bc69b57f34ae1; 0xe69a70863f88659e;
  0xbbb2f26fdfe0065a; 0x6d603b1e02218472; 0x5b213c2e6dc8a6a2; 0xe88fa5379d6b6f70;
  0xfcb9a7e0352db4e7; 0x56d1b61d687b2f7f; 0xa67aaeb084d5d254; 0xd13942c88c51875f;
  0xf8b773dbc3ed32a3; 0xb3ae9919f0a3c9d2; 0x2c62d056654cf3a9; 0xd6d2c971ddc18228;
  0x6e85649ca5710741; 0x0ff7e0cf7ed3caff; 0xdf2c97792eb28db1; 0x734d3843fe44d34f;
  0xccf11e17d7645351; 0xf34e472f4bfe7e18; 0x3bb18d036a5aab0d; 0x50d808dae5dbea19;
  0x72af0d3d2274135e; 0xac61af3ad0f65efe; 0xd0db77b65061474e; 0x61728453dba2cdbe;
  0x8e16aadd1759a7b9; 0x6b6985d98f814114; 0x5ecddd6b4738e0f7; 0x3fbf59389c9a2d49;
  0xe171fb3f6e1860e9; 0x1fcf36232055972c; 0xa98d4e7ffa0618ab; 0x7743ec780884550b;
  0x11dae39282b69dc2; 0xd33e2834f731c47d; 0xb642785cda538f87; 0x13dd896ef9d6dee0;
  0x5ac30950b1f866b3; 0xdecea207f2824da0; 0x286c046d938c75ed; 0xfebecd1c4e4df7c5;
  0x8a187ee6e19921fd; 0xa59ff13223855167; 0xd4d5a38da6a1c10a; 0xc2e4cba6758759bf;
  0xb5a727de7d030cb4; 0xdac0763c0442cbe4; 0x91d99cfe370c3095; 0xee861bf010cbaa16;
  0x6297dbd17cf24e8d; 0xeb6afab53a3bec43; 0xef642e8eccfb6a07; 0xa86f7b012636d8ba;
  0xa2747a8b72155410; 0x7f5f870e27c79a83; 0x040ed43bf6c08644; 0x6f6751e27941c750;
  0x0000000000000000; 0x470b558feacdb2bd; 0x76a1d906d4b4951a; 0x89fd216446c9a2ce].

Definition precomputedInversedLSTableRight_8 : list Z := [
  0x63ebf049210aadf8; 0x1b19bd7f0935a838; 0xafb5ad3e658a44db; 0xc40284ccfdee575c;
  0xbb2351376961a4fb; 0x10b871b5b1dcbffe; 0xa98c87dc6747d56a; 0x40a5079181f6b97e;
  0x8d11e8c97b0b378b; 0xe362fea8e0251c04; 0xcb8dc5baf8301f44; 0x176be9780d6c4999;
  0x33f6866d1120ab78; 0x2af89c4ca7efcd2f; 0x8f064f97c4f1f9e4; 0xce49fa29fb7a274c;
  0x9da9997ccad78875; 0x01eab22fbe7d67d6; 0x8cfb5ae6c576505d; 0x3632b9fe126a9370;
  0xb546a26ed2c28b35; 0x20b3e2a9a17bbd3f; 0xbcf0c9fad5d1529c; 0x085cd9bbb96ebe7f;
  0x1f3730c3b402f7e6; 0x2ed611f01ad892f1; 0xd9221351f6166ed5; 0x4f2a46e78428f166;
  0xa603c6aa62999d72; 0x42b2a0cf3e0c7711; 0xdd0c9eed4b21310b; 0x157c4e26b29687f6;
  0xe17559f65fdfd26b; 0x1d20979d0bf83989; 0x7b0f584729b8ac79; 0x042e8dbcbd375fde;
  0x7ecb67d42af29471; 0xe74c73145d1243da; 0xdb35b40f49eca0ba; 0x6c64b13f24d4e5e0;
  0x7697be6f939c2a0e; 0x215950861f06dae9; 0x86b02403c3e2204d; 0xe2884c875e587bd2;
  0x3e6e6045ab042d0f; 0x5c6f22233473e721; 0xb2953aa36e727d52; 0x6d8e03109aa98236;
  0xf991f1f8576dd3ea; 0x0217a75ebfface6f; 0x91dbcd7bce8e69d4; 0xca677795464d7892;
  0x3f84d26a15794ad9; 0x9226d80acf09c06d; 0xb6bbb71fd345228c; 0x47769f5c3d464f19;
  0x662fcfda224095f0; 0x5433fb988d1d595e; 0x3baa5fd6a84e1507; 0xd4baf5794c32e8a2;
  0xa7e97485dce4faa4; 0x90317f5470f30e02; 0x7cdcc08a95085a1e; 0xf2303d32ef84c42c;
  0x414fb5be3f8bdea8; 0x65d2daab23c73c49; 0x190e1a21b6cf6657; 0xc3d11c01415ea13b;
  0xdce62cc2f55c56dd; 0x6f99a44e25534c59; 0x6e7316619b2e2b8f; 0x88d5d75a78410f83;
  0x83741b90c0a81845; 0xf0279a6c507e0a43; 0x756aab1e921b83b7; 0xead4953ce736c5ad;
  0x4cd7539685af58df; 0x05c43f93034a3808; 0x748019312c66e461; 0xa41461f4dd63531d;
  0xc870d0cbf9b7b6fd; 0x80890ee1c12fb1fc; 0xe4b166655c95ea63; 0xf61eb08e52b39bf2;
  0x960855b6723e9fb3; 0xd3696db4f0821ec5; 0x31e12133aeda6517; 0x941ff2e8cdc451dc;
  0xfe426935ebdd258d; 0x501d7624302a0680; 0xa03aec4860540cc3; 0x5d85900c8a0e80f7;
  0xa22d4b16dfaec2ac; 0x8b28c22b79c6a63a; 0xd283df9b4eff7913; 0x0a4b7ee506947010;
  0xdf1b39b3f4dbff64; 0xf40917d0ed49559d; 0x620142669f77ca2e; 0xeb3e2713594ba27b;
  0x643868849dba5b9f; 0x1edd82ec0a7f9030; 0x57ceeee98c9af0e7; 0x5e78857d8b89294e;
  0x875a962c7d9f479b; 0xd5504756f24f8f74; 0x134564c4b05b1647; 0x469c2d73833b28cf;
  0x5a5608c136be7690; 0x28ef3b1218150340; 0x03fd15710187a9b9; 0x986da6efc99db07d;
  0x8eecfdb87a8c9e32; 0x5f92375235f44e98; 0x37d80bd1ac17f4a6; 0x61fc57179ef06397;
  0xef10aaafe47cfda5; 0x2f3ca3dfa4a5f527; 0x321c3442af5dccae; 0x0f8f417605de4818;
  0x268ac84ba3b62c8e; 0xc615239242149933; 0xcdb4ef58fafd8ef5; 0x234ef7d8a0fc1486;
  0xc5e836e34393308a; 0x69a08eac279edde8; 0x2d2b04811b5f3b48; 0x1496fc090cebe020;
  0x2905893da6686496; 0x18e4a80e08b20181; 0xd8c8a17e486b0903; 0x4ec0f4c83a5596b0;
  0xae5f1f11dbf7230d; 0x4aee79748762c96e; 0xfdbf7c44ea5a8c34; 0x35cfac8f13ed3ac9;
  0x448b8a2d3cc1e6a0; 0x4561380282bc8176; 0x93cc6a257174a7bb; 0xa5fed3db631e34cb;
  0x684a3c8399e3ba3e; 0x48f9de2a38980701; 0x1af30f50b748cfee; 0x12afd6eb0e267191;
  0x49136c0586e560d7; 0x27607a641dcb4b58; 0xd09478c5f105b77c; 0x0c7254070459e1a1;
  0x735381fc90d61206; 0x6a5d9bdd26197451; 0x9fbe3e22752d461a; 0xdef18b9c4aa698b2;
  0xa86635f3d93ab2bc; 0xb37f888cd00f1a84; 0x22a445f71e817350; 0xe6a6c13be36f240c;
  0x34251ea0ad905d1f; 0x249d6f151c4ce2e1; 0x9a7a01b176677e12; 0xdadf0620f791c76c;
  0xac48b84f640ded62; 0x9e548c0dcb5021cc; 0x39bdf88817b4db68; 0xd6ad5227f3c826cd;
  0xe09febd9e1a2b5bd; 0xd747e0084db5411b; 0xeefa18805a019a73; 0x6016e538208d0441;
  0xc23bae2eff23c6ed; 0xc02c097040d90882; 0xf7f402a1eccefc24; 0x3d937534aa8384b6;
  0x435812e0807110c7; 0xd17ecaea4f78d0aa; 0x1152c39a0fa1d828; 0x56245cc632e79731;
  0x72b933d32eab75d0; 0x2577dd3aa2318537; 0x9b90b39ec81a19c4; 0xffa8db1a55a0425b;
  0x520ad17a8fd0c8ef; 0x300b931c10a702c1; 0x55d949b733603e88; 0x8ac27004c7bbc1ec;
  0x67c57df59c3df226; 0x7ae5ea6897c5cbaf; 0x0d98e628ba248677; 0x09b66b940713d9a9;
  0xcc5e5d774480e923; 0x2b122e631992aaf9; 0xe55bd44ae2e88db5; 0x893f6575c63c6855;
  0xecedbfdee5fb541c; 0xb4ac10416cbfece3; 0xe8c3326258cc0bc2; 0x95f540c773b9360a;
  0x07d398cdbcb0f667; 0xbac9e318d71cc32d; 0x97e2e799cc43f865; 0x9c432b5374aaefa3;
  0x829ea9bf7ed57f93; 0x7d3672a52b753dc8; 0xf5e3a5ff5334324b; 0x5841af9f8944b8ff;
  0x84a7835d7c18ee22; 0x0ba1cccab8e917c6; 0x3a40edf9163372d1; 0xbd1a7bd56bac354a;
  0x59ab1db03739df29; 0xe929804de6b16c14; 0x51f7c40b8e576156; 0xab9b2082d8bd1b05;
  0xaa7192ad66c07cd3; 0x6bb729f298641387; 0xc7ff91bdfc69fee5; 0x78f24d36283f05c0;
  0x4b04cb5b391faeb8; 0xfa6ce48956ea7a53; 0xb8de444668e60d42; 0xb0829dfdd188b33d;
  0xc99a62e447cad12b; 0xbf0ddc8bd456fb25; 0x714426a22f2cdc69; 0xc1c6bb5ffea46f54;
  0x70ae948d9151bbbf; 0xf1cd2843ee036d95; 0x1cca25b2b5855e5f; 0xada20a60da708ab4;
  0xf87b43d7e910b43c; 0x5bbcbaee88c31146; 0xed070df15b8633ca; 0xfb8656a6e8971d85;
  0x777d0c402de14dd8; 0xb1682fd26ff5d4eb; 0x3c79c71b14fee360; 0x8163bcce7f52d62a;
  0xcfa348064507409a; 0x16815b57b3112e4f; 0xbee76ea46a2b9cf3; 0xa3c7f93961d3a57a;
  0x0e65f359bba32fce; 0xb75105306d38455a; 0x38574aa7a9c9bcbe; 0x998714c077e0d7ab;
  0x53e0635531adaf39; 0x7f21d5fb948ff3a7; 0x7918ff1996426216; 0xfc55ce6b5427ebe2;
  0xf3da8f1d51f9a3fa; 0xa1d05e67de296b15; 0x06392ae202cd91b1; 0xb934f669d69b6a94;
  0x0000000000000000; 0x854d3172c26589f4; 0x4d3de1b93bd23f09; 0x2cc1b6aea5225c9e].

Definition precomputedInversedLSTableRight_9 : list Z := [
  0x71800489cb721b5d; 0x6287a35a488aa415; 0xbf6c3b64ae3d18e9; 0x811e6cdde4ac86d3;
  0xe732551ccea872f5; 0x9e27a660c105c9ce; 0x1ac89770bee50b52; 0x3d9cdd438214a2be;
  0x23ffd0a85e7ff9df; 0x0b7b7d0f0c5a9ce2; 0xbbc7a1ffccb348da; 0xeb0c387268f982a0;
  0xd23b7faa8863702d; 0xd361b8fc71a16451; 0x4022b4a4ef3749b6; 0xad315be1d407b3dd;
  0xbdd876c89f7a3011; 0xd08f3206b92458d5; 0xf370e2aee75ba10a; 0xc4cd85b490d78b2a;
  0x0d64aa385f93e429; 0xff4e8fc0410a515f; 0x9219cb0e6754399b; 0x4ff2533081e38567;
  0xa4fe6b42e91a07c7; 0x151870e4d031c783; 0x463d6393bcfe317d; 0x07451061aa0b6cb7;
  0x20115a5296fac55b; 0x5e41b94f335c12d7; 0x8044ab8b1d6e92af; 0x88d15c7ed9b132c9;
  0x68a61903bd122c8b; 0xc7230f4e5852b7ae; 0xa055f1d98b9457f4; 0xc679c818a190a3d2;
  0xb6a30bc79320acf3; 0xcd02b517adca3f30; 0x25e0079f0db68114; 0x4b59c9abe36dd554;
  0xf95158f712c32994; 0x2fc1bdc6f82e098a; 0xdf5fd592d7f09404; 0xdbf44f09b57ec437;
  0x8b3fd68411340e4d; 0x2a30e00b63624dc5; 0x784f342af66faf47; 0x9bd6fbad5a498d81;
  0xb973ec53fdf46022; 0x63dd640cb148b069; 0x3453ede0bf0916a4; 0x6b4893f97597100f;
  0x5bb0e482a8105698; 0x8701bbeab765fe18; 0xbe36fc3257ff0c95; 0x48b743512be8e9d0;
  0x6776fe97d3c6e05a; 0x65c2b33be281c8a2; 0x9dc92c9a0980f54a; 0x1f39cabd25a94f1d;
  0xf09e68542fde9d8e; 0xe4dcdfe6062d4e71; 0xd57e6fcb22681c9a; 0x45d3e969747b0df9;
  0xed13ef453b30fa6b; 0xd424a89ddbaa08e6; 0x015ac756f9c2147c; 0xf435f2cf4d50cdbd;
  0x50cb998da44aca7a; 0xf80b9fa1eb013de8; 0x2884ada75225653d; 0x35092ab646cb02d8;
  0xc9a92f8ccf446f03; 0x260e8d65c533bd90; 0x4a030efd1aafc128; 0x94061c39349d4150;
  0xb417466ba267840b; 0x16f6fa1e18b4fb07; 0x9a8c3cfba38b99fd; 0x43cc3e5e27b27532;
  0x0895f7f5c4dfa066; 0x7afb7986c72887bf; 0x7e50e31da5a6d78c; 0x83aa2171d5ebae2b;
  0x417873f216f55dca; 0x6a1254af8c550473; 0xb1e61ba6392bc044; 0x22a517fea7bdeda3;
  0xcc58724154082b4c; 0xa3bb7b2343116b70; 0x85b5f6468622d6e0; 0xfabfd20dda461510;
  0xe668924a376a6689; 0x865b7cbc4ea7ea64; 0xba9d66a935715ca6; 0x2c2f373c30ab350e;
  0xe399cf87ac2622c6; 0xe077457d64a31e42; 0xa10f368f72564388; 0x44892e3f8db91985;
  0x04ab9a9b628e5033; 0x74715944503e5f12; 0xd690e531eaed201e; 0x49ed8407d22afdac;
  0x0fd0e7946ed4ccd1; 0xcfb6f8bb9c8d17c8; 0x2d75f06ac9692172; 0x9838715792ccb105;
  0x8f944c1f73ba5e7e; 0xb0bcdcf0c0e9d438; 0xb352560a086ce8bc; 0xab2e8cd687cecb16;
  0x90ad86a256131163; 0x9962b6016b0ea579; 0x1442b7b229f3d3ff; 0x125d60857a3aab34;
  0x82f0e6272c29ba57; 0xc59742e269159f56; 0x02b44dac314728f8; 0x3ad9cd22281fce09;
  0x5aea23d451d242e4; 0xe2c308d155e436ba; 0x1e630debdc6b5b61; 0x4c1cd9ca4966b9e3;
  0x51915edb5d88de06; 0x5daf33b5fbd92e53; 0xa64a26eed85d2f3f; 0x585e6e7860956a1c;
  0x6033eef679cd8ced; 0xd1d5f55040e64ca9; 0x96b2519505da69a8; 0xd7ca2267132f3462;
  0x6fe309621719403c; 0x11b3ea7fb2bf97b0; 0x7f0a244b5c64c3f0; 0x779fd3be98bb6396;
  0xfbe5155b2384016c; 0x2b6a275d9aa059b9; 0x578e89ec0e41a6cd; 0x93430c589e962de7;
  0x8d2001b342fd7686; 0x726e8e7303f727d9; 0xb208915cf1aefcc0; 0xfdfac26c704d79a7;
  0xa2e1bc75bad37f0c; 0x8a6511d2e8f61a31; 0xd94002a58439eccf; 0x898b9b28207326b5;
  0xefa7a2e90a77d293; 0xeefd65bff3b5c6ef; 0xde0512c42e328078; 0x3316fd8115027a13;
  0xca47a57607c15387; 0xa8c0062c4f4bf792; 0x9c93ebccf042e136; 0x1d8d871114ee67e5;
  0xa710e1b8219f3b43; 0x393747d8e09af28d; 0xc8f3e8da36867b7f; 0xf56f3599b492d9c1;
  0x0c3e6d6ea651f055; 0x0e8a20c29716d8ad; 0xfe144896b8c84523; 0x7ce4aeb194e1ff74;
  0xb8292b050436745e; 0xac6b9cb72dc5a7a1; 0x527fd421950de282; 0xc2d25283c31ef3e1;
  0x24bac0c9f4749568; 0x4767a4c5453c2501; 0x532513776ccff6fe; 0x386d808e1958e6f1;
  0x8ece8b498a784a02; 0x09cf30a33d1db41a; 0x4ea894667821911b; 0x061fd73753c978cb;
  0x3f2890efb3538a46; 0xe9b875de59beaa58; 0x187cdadc8fa223aa; 0x1cd74047ed2c7399;
  0xc0661f2ff259db19; 0x616929a0800f9891; 0xb54d813d5ba59077; 0x56d44ebaf783b2b1;
  0xb7f9cc916ae2b88f; 0x70dac3df32b00f21; 0x5904a92e99577e60; 0x9f7d613638c7ddb2;
  0xceec3fed654f03b4; 0x03ee8afac8853c84; 0xaedfd11b1c828f59; 0xe58618b0ffef5a0d;
  0x31a2b02d244552eb; 0xddeb983ee6b7bcfc; 0xf7db783585d5f139; 0xf22a25f81e99b576;
  0x752b9e12a9fc4b6e; 0x37bd671a778c2a20; 0x91f741f4afd1051f; 0x6d5744ce265e68c4;
  0x19261d8a766037d6; 0x05f15dcd9b4c444f; 0x30f8777bdd874697; 0xec492813c2f2ee17;
  0xbc82b19e66b8246d; 0xfca0053a898f6ddb; 0x4d461e9cb0a4ad9f; 0x4296f908de70614e;
  0x3cc61a157bd6b6c2; 0x27544a333cf1a9ec; 0x73344925fa3533a5; 0x7915f37c0fadbb3b;
  0xa99ac17ab689e3ee; 0x3e7257b94a919e3a; 0x324c3ad7ecc06e6f; 0x1307a7d383f8bf48;
  0xc13cd8790b9bcf65; 0x0a21ba59f598889e; 0x54600316c6c49a49; 0x1b92502647271f2e;
  0xd81ac5f37dfbf8b3; 0x214b9d046f38d127; 0x8c7ac6e5bb3f62fa; 0x97e896c3fc187dd4;
  0x5cf5f4e3021b3a2f; 0xf681bf637c17e545; 0x17ac3d48e176ef7b; 0xdcb15f681f75a880;
  0x69fcde5544d038f7; 0x5f1b7e19ca9e06ab; 0xe12d822b9d610a3e; 0xdaae885f4cbcd04b;
  0x29de6af1abe77141; 0xcb1d6220fe0347fb; 0xe8e2b288a07cbe24; 0xaa744b807e0cdf6a;
  0x7dbe69e76d23eb08; 0x3b830a74d1ddda75; 0xf1c4af02d61c89f2; 0x36e7a04c8e4e3e5c;
  0xea56ff24913b96dc; 0x6eb9ce34eedb5440; 0x2e9b7a9001ec1df6; 0x7ba1bed03eea93c3;
  0x10e92d294b7d83cc; 0x662c39c12a04f426; 0xc38895d53adce79d; 0xaf85164de5409b25;
  0x955cdb6fcd5f552c; 0x553ac4403f068e35; 0xa5a4ac1410d813bb; 0x84ef31107fe0c29c;
  0x0000000000000000; 0x6c0d8398df9c7cb8; 0x6498746d1b43dcde; 0x76c514e8617977ea].

Definition precomputedInversedLSTableRight_10 : list Z := [
  0x7e52ea5b67a2efe6; 0xacdb4106b866ba67; 0x7026cb2e948b8e86; 0x184a1989a8ce6ead;
  0x5745a76bee147658; 0x2c7c703bb60d1e59; 0x9fd7d96f3e501ba3; 0xb03303ec9d3478a7;
  0xcc3025675dd8c196; 0xdd34ec409eca1f6b; 0x93f234ca6a372c14; 0xb1fa65842f13532d;
  0xe21d998c4c9b8918; 0xaa28d6b592b440dd; 0x28de2b583b91b234; 0xea9a2f4a956012c2;
  0xe04c555cebd5dfcf; 0x727707fe33c5d851; 0xbe4722996e1d19c7; 0x9b75820cb3ccb7ce;
  0xae8a8dd61f28ecb0; 0x58f8e076af1a3cb2; 0xcac3b2d4770a3b2c; 0x163e38fc5be70fcd;
  0xa7c45d7874f45ce0; 0xa137cacb5e26a65a; 0x5b604aceba7341ef; 0x3b8b2eaf5fcd3a1e;
  0x146ff42cfca9591a; 0x54dd0dd3fb7d0b05; 0x507f56b076e1a768; 0x55146bbb495a208f;
  0x39dae27ff8836cc9; 0x432a534712bd2f42; 0x4410a29c8a48fe72; 0x0b1f1c7ecc92e687;
  0x3d78b91c751fc0a4; 0xd62bf03e5258f9ec; 0xbf8e44f1dc3a324d; 0xf5eac718a55bad5f;
  0x2b4681e02ef8cf69; 0x2a8fe7889cdfe4e3; 0x4c97145a53b365a8; 0xaf43ebbead0fc73a;
  0x8d4bbaf0e82bb803; 0x816e5755bc4c8fb4; 0x330c98698636a1c4; 0x879dc0e6969e750e;
  0x0398aab815697d5d; 0xe4ee0e3f664973a2; 0xfd6d71de7ca03685; 0xe185333459f2f445;
  0xff3cbd0edbee6052; 0x6bf4781f292c9d76; 0x381384174aa44743; 0x2db51653042a35d3;
  0x073af1db98f5d130; 0x97506fa9e7ab8079; 0xf423a170177c86d5; 0x343669b21ec370f4;
  0x6618f3d2cf6c814b; 0x8f1a76204f65eed4; 0xd996b7231356b306; 0x833f9b851b02d963;
  0xc2440412aef1a0f6; 0x91a3f81acd797ac3; 0x48354f39de2fc9c5; 0x85cc0c3631d023d9;
  0x2208514e45247f39; 0x6373ced9f0d706ac; 0x1104c927c312defd; 0xb5583ee7a28fff40;
  0x35ff0fdaace45b7e; 0x67d195ba7d4baac1; 0xbddf88217b74649a; 0xb97dd342f6e8c8f7;
  0xad12276e0a4191ed; 0x79681b80ff573ed6; 0xcfa88fdf48b1bccb; 0xf081fa139ae02ab8;
  0x056b3d0b3fbb87e7; 0xa366061bf968f08d; 0x40b2f9ff07d4521f; 0x882087fbd7903fe4;
  0x60eb6461e5be7bf1; 0xa9b07c0d87dd3d80; 0x06f397b32ad2faba; 0x84056a5e83f70853;
  0x9e1ebf078c773029; 0x9c4f73d72b3966fe; 0xfb9ee66d5672cc3f; 0xf31950ab8f8957e5;
  0x1f70e852303bbf9d; 0x23c13726f70354b3; 0xdbc77bf3b418e5d1; 0xf2d036c33dae7c6f;
  0xb491588f10a8d4ca; 0x6cce89c4b1d94c46; 0x0c25eda5546737b7; 0xcb0ad4bcc52d10a6;
  0xe3d4ffe4febca292; 0xd5b35a86473184b1; 0x01c96668b2272b8a; 0x6580596ada05fc16;
  0x3ee013a46076bdf9; 0x46416e4c2d06a8a5; 0xbae579fae381b5aa; 0x5fc211ad37efed82;
  0x6e9f451416971a91; 0x4ec6d88af4fd337f; 0x969909c1558cabf3; 0x99244edc1482e119;
  0x5aa92ca608546a65; 0x17f75e94e9c02447; 0xe90285f280096f9f; 0x9abce46401eb9c44;
  0xc015c8c209bff621; 0xd340cd356de37e0b; 0x906a9e727f5e5149; 0x8bb82d43c2f942b9;
  0xb709f23705c1a997; 0xfca417b6ce871d0f; 0x7c03268bc0ecb931; 0xce61e9b7fa969741;
  0x6a3d1e779b0bb6fc; 0x8c82dc985a0c9389; 0x37aec30a0baa0da9; 0x27636c457a9ff8de;
  0x3cb1df74c738eb2e; 0x3a4248c7edea1194; 0x29174d3089b699be; 0x49fc29516c08e24f;
  0x0251ccd0a74e56d7; 0x42e3352fa09a04c8; 0x0887b6c6d9fb9bda; 0x0dec8bcde6401c3d;
  0xbb2c1f9251a69e20; 0xc95b186c62634671; 0x19837fe11ae94527; 0x82f6fdeda925f2e9;
  0xfef5db6669c94bd8; 0xa60d3b10c6d3776a; 0xdeac46f88ba36236; 0xc8927e04d0446dfb;
  0xd47a3ceef516af3b; 0xc57ef5c9360471c6; 0x3f2975ccd2519673; 0x1d2124829775e94a;
  0x522e9a60d1aff1bf; 0x1a1bd5590f80387a; 0x04a25b638d9cac6d; 0xc6e65f71236d0c9b;
  0xeda0de910d95c3f2; 0x417b9f97b5f37995; 0xbc16ee49c9534f10; 0xa45cf7c0619d21bd;
  0x7f9b8c33d585c46c; 0x53e7fc086388da35; 0x7dca40e372cb92bb; 0xcdf9430fefffea1c;
  0xe6bfc2efc1072575; 0x76d55c9dbe59743c; 0x10cdaf4f7135f577; 0xd0d8678d788a0356;
  0x4bade581cb46b498; 0xa2af60734b4fdb07; 0xb262cf3c3a7a2e70; 0xe8cbe39a322e4415;
  0xf7bb0bc80215fb88; 0x135505f7645c882a; 0xfa578005e455e7b5; 0x1bd2b331bda713f0;
  0x26aa0a2dc8b8d354; 0x4d5e7232e1944e22; 0x5e0b77c585c8c608; 0x73be619681e2f3db;
  0x20599d9ee26a29ee; 0x2190fbf6504d0264; 0x0fbd471d410e4aea; 0xec69b8f9bfb2e878;
  0x78a17de84d70155c; 0x7484904d191722eb; 0xe5276857d46e5828; 0x51b630d8c4c68ce2;
  0x754df625ab300961; 0x3667a562b98d2623; 0x6f56237ca4b0311b; 0x64493f026822d79c;
  0x0e742175f3296160; 0xd85fd14ba171988c; 0x32c5fe0134118a4e; 0xc72f3919914a2711;
  0x568cc1035c335dd2; 0xdcfd8a282ced34e1; 0x5d93dd7d90a1bb55; 0xf6726da0b032d002;
  0x9d8615bf991e4d74; 0x2532a095ddd1ae09; 0x129c639fd67ba3a0; 0x923b52a2d810079e;
  0x478808249f21832f; 0xabe1b0dd20936b57; 0x1eb98e3a821c9417; 0x8a714b2b70de6933;
  0xa8791a6535fa160a; 0x80a7313d0e6ba43e; 0x8654a68e24b95e84; 0xb8b4b52a44cfe37d;
  0xf8064cd5431bb162; 0x2fe4da83a3646304; 0xee38742918fcbeaf; 0x7b39d75058196801;
  0x094ed0ae6bdcb050; 0x686cd2a73c45e02b; 0x8ed31048fd42c55e; 0xd289ab5ddfc45581;
  0x309432d1935fdc99; 0x9501a37940e5d6ae; 0xc1dcaeaabb98ddab; 0xd7e29656e07fd266;
  0x771c3af50c7e5fb6; 0x5c5abb15228690df; 0xb6c0945fb7e6821d; 0x612202095799507b;
  0xc4b793a184235a4c; 0x15a692444e8e7290; 0x315d54b92178f713; 0x94c8c511f2c2fd24;
  0x71efad4626aca50c; 0x1ce842ea2552c2c0; 0x24fbc6fd6ff68583; 0xe776a48773200eff;
  0x5931861e1d3d1738; 0xa59591a8d3ba0a37; 0x69a5b4cf8e62cba1; 0xd11101e5caad28dc;
  0x98ed28b4a6a5ca93; 0xc38d627a1cd68b7c; 0x2e2dbceb1143488e; 0x6d07efac03fe67cc;
  0xf9cf2abdf13c9ae8; 0x4a6483e979619f12; 0x62baa8b142f02d26; 0xeb53492227473948;
  0x0ad67a167eb5cd0d; 0x4f0fbee246da18f5; 0xa0feaca3ec018dd0; 0x7af0b138ea3e438b;
  0xf1489c7b28c70132; 0x89e9e19365b7146e; 0xeff11241aadb9525; 0xb3aba954885d05fa;
  0x0000000000000000; 0xda0e1d9b063fce5b; 0xdf652090398449bc; 0x45d9c4f4386fd5f8].

Definition precomputedInversedLSTableRight_11 : list Z := [
  0x1758254772a81d31; 0x82eeaae98a53b7c0; 0x55ac5e8f3d01df89; 0x32a4914eac20dc8e;
  0x8d243c03a875ecfe; 0xe0a017cf05d13c6c; 0x7190f00ce517367e; 0x06c55cba14c2f073;
  0x4a3bab127fd341bd; 0x1b119df05aef3ed7; 0x68c2592bb3075839; 0xca96352cf97fa6ed;
  0xf13d6e3263bbd12e; 0x6fc71f1ba15b8002; 0x562f70d23760a751; 0x5ee0a008071a2454;
  0xaa9bbcdd7a027dd1; 0x0e0a8c6024b87376; 0x443127725b6b32cb; 0xc71f9711d7a6ad43;
  0xd948780693ea1b3f; 0x03832e5d0a6178d8; 0xa7121ee054db767f; 0x7050ea86e3891e36;
  0xbac6dfaa1af6b8db; 0x57ef6a5831fe8f19; 0x94769524fe6582b9; 0x5ca394df0be574c4;
  0x2bf63869fa30b2c9; 0x1ad1877a5c71169f; 0xac5ee0676ec08da2; 0xd682eeecb1cc4001;
  0x07054630125cd83b; 0xa6d2046a52455e37; 0x87a8d80e94f03f6b; 0x3828754390a50f1b;
  0xb18a212d20ed4306; 0x2339e8b3ca4a31cc; 0x88624ee4b6d66455; 0x4d3eed226d8f9986;
  0xc1dacbabc3645d30; 0x0d89a23d2ed90bae; 0x28751634f051ca11; 0x151b11907e574da1;
  0xb74f7d97342fb375; 0xae1dd4b0623fdd32; 0xf37e5ae56f4481be; 0x433461424937eaf0;
  0x97f5bb79f404fa61; 0x1c14dbc048b3e6ec; 0xe2e32318092e6cfc; 0x66c8d54b97bf2b4f;
  0xb945f1f71097c003; 0xf0fd74b86525f966; 0xcb562fa6ffe18ea5; 0x2cf37e59e86c6af2;
  0x217adc64c6b5615c; 0xde4d3e3681b6c304; 0x816d84b48032cf18; 0xd2048681a9f1e0e2;
  0x25fcb409de88c1bf; 0xece9af782d961f8a; 0xad9efaed685ea5ea; 0xf5bb065f7b8671cd;
  0x08cfd0da307a8305; 0x33648bc4aabef4c6; 0x9efa7129c2e0512c; 0x1892b3ad508e460f;
  0xa2546c074a78fed4; 0x5f20ba8201840c1c; 0x512a36e2253c7f6a; 0x7c195231cbce3dd0;
  0x1e57ef17444cb67c; 0xe9afdd9f33359721; 0xd3c49c0baf6fc8aa; 0x654bfb169dde5397;
  0x4ebdc37f67eee15e; 0x3622f923b41d7c6d; 0xddce106b8bd7bbdc; 0x37e2e3a9b2835425;
  0x7adc0e8bdf0ccda3; 0x0c49b8b7284723e6; 0x3127bf13a641a456; 0xcd93731ceb237ed6;
  0xc8d501fbf580f67d; 0xf832a462555f7a63; 0xed29b5f22b0837c2; 0xd4c1da3bbd331091;
  0xbdc3999a08aa60e0; 0xe6654b751113cc1f; 0x0fca96ea22265b3e; 0xa01758d04687ae44;
  0x13de4d2a6a95bdd2; 0x6e070591a7c5a84a; 0xf638280271e70915; 0x6c443146ab3af8da;
  0xb04a3ba726736b4e; 0xd187a8dca390983a; 0x1952a92756106e47; 0x6b417776b96620e1;
  0x3d6e07a48e0687b0; 0xb4cc53ca3e4ecbad; 0xcc536996edbd569e; 0xb2090f702a8c3bde;
  0x267f9a54d4e9b967; 0xdc0e0ae18d499394; 0xf2be406f69daa9f6; 0x22f9f239ccd41984;
  0x8a217a33ba2934c5; 0x73d3c4dbe9e866ee; 0x121e57a06c0b959a; 0x9cb945fece1f01bc;
  0x5825fcb213d8d427; 0xbc0383100e3448a8; 0xc9151b71f31ede35; 0x0b4cfe873a1bfbdd;
  0x5369023529c32ffa; 0x59e5e6381546fc6f; 0xff37e2524703a258; 0x5a66c8651f2784b7;
  0x27bf80ded277912f; 0x2eb04a8ee4933a62; 0x4cfef7a86b11b1ce; 0x119d79fd666aed42;
  0x3cae1d2e8898aff8; 0x7b1c1401d992e5eb; 0x45f13df85df51a83; 0xd888628c95743377;
  0x7dd948bbcd501598; 0x90f0fd49e658225a; 0x9a7c1944daddf1cf; 0x52a918bf2f5d07b2;
  0x5ba6d2ef19b9acff; 0x6a816dfcbff808a9; 0xafddce3a64a1f57a; 0xd501c0b1bbad38d9;
  0x3eed29f98467ff68; 0x30e7a599a0df8c1e; 0xfef7f8d8419d8a10; 0x39e86fc9963b2753;
  0x75169861fd2a969d; 0x7695b63cf74bee45; 0x8ce42689aeebc4b6; 0xfcb4cc0f4d62da80;
  0x789f3a5cd3f39d33; 0x29b50cbef6cfe259; 0xea2cf3c23954eff9; 0x48789fc5732c112d;
  0xf7f832887779215d; 0x690243a1b5997071; 0xb68f671d32b19b3d; 0xbe40b7c702cb1838;
  0x7f9a7c6cc1af4508; 0xfd74d6854bfcf2c8; 0x1f97f59d42d29e34; 0x2d3364d3eef242ba;
  0xdb0b4cd19f154baf; 0x3bab5b1e9ac477c3; 0x80ad9e3e86ace750; 0x8668c284926e1723;
  0x47b2092f510a4a13; 0xb885eb7d1609e84b; 0x9d795f74c88129f4; 0xce105d41e142060e;
  0x090fca5036e4ab4d; 0xc01ad121c5fa7578; 0x5d638e550d7b5c8c; 0x054672e71ea388ab;
  0x16983fcd74363579; 0x0a8ce40d3c85d395; 0xc399ff7ccf9b0da0; 0xa5512a37582426ef;
  0x14db0b1a78c965e9; 0xe4267fa21dec9c8f; 0xeeaa9baf21694f1a; 0xc259e5f6c90525e8;
  0xf9f2bee853c1522b; 0x35a1d77ebe7c04b5; 0x8ea7125ea2149426; 0xb3c915fa2c121396;
  0xfa7190b559a02af3; 0xe32339920fb044b4; 0xd047b256a50eb072; 0x600d89f1837ddb3c;
  0x2f705004e20d122a; 0x89a2546eb0484c1d; 0x467213a55794625b; 0x7e5a66e6c7316d40;
  0x42f47bc84fa9c2b8; 0x61cd937b85e3f374; 0x3f2d337382f9d720; 0x7213de51ef764ea6;
  0x4177559545c8ba60; 0xd742f466b7526849; 0x795f20d6d56db57b; 0xdacb565b998b63e7;
  0x2a3622e3fcae9a81; 0x832eb0638ccd9f88; 0xc6df8d9bd138850b; 0xa49130bd5eba0ea7;
  0x105d637760f4c50a; 0xa394768d4ce6d69c; 0xdf8d24bc8728eb4c; 0x9635a1f3f29ad229;
  0x3461cdf4b8e22cfd; 0x624ebd268f828bac; 0x8f6708d4a48abc6e; 0xa918928070630509;
  0x983f2d93d622a15f; 0x7755acb6f1d5c60d; 0xe86fc71535abbf69; 0x6d842bccada4d092;
  0x638ea7ac891ca3e4; 0x6708cfc191210307; 0x20bac6eec02b4914; 0x95b68faef8fbaaf1;
  0x648be19c9b407bdf; 0x85ebecd9980f6ffb; 0x9f3a6ba3c47e7964; 0xef6a812527f76752;
  0x74d682ebfbb4bed5; 0xb50c494038d0e3e5; 0xebece9483fcac7b1; 0x0486686d183da0e3;
  0xe5e665281b72b4c7; 0xe7a551ff178de457; 0xa8d8880a76fd2d41; 0x49b8854f75b23965;
  0x99ff3719d0bc8917; 0x842bf6539e9147b3; 0x4f7dd9f56170c916; 0x8be160b9bcb71c8d;
  0xcfd047cbe7dc2e46; 0xe1600d45034f1424; 0xab5ba6577c9c5599; 0x024334d70cff5090;
  0x50ea2c6823a25722; 0xc49cb94cddc7d59b; 0xbb06c5201c689093; 0x1dd4c14a4e2dcea4;
  0x546c44053b9ff7c1; 0xc55ca3c6db59fdd3; 0x9373d314ec395a82; 0x92b3c99eeaa772ca;
  0xf47b1cd57d185985; 0xbf80ad4d04553070; 0x9bbc03cedc43d987; 0xa1d7425a4019860c;
  0xfbb18a3f5f3e02bb; 0x01c01a8a069e2848; 0x243cae83d816e9f7; 0x9130e7c3e0c60a12;
  0x0000000000000000; 0x3a6b41949c5a5f8b; 0x40b74f1f43569228; 0x4bfbb198794d69f5].

Definition precomputedInversedLSTableRight_12 : list Z := [
  0x2a3fb0b9b00b7bc6; 0x64561fc21f6d5736; 0x91389b939bf4359d; 0x080c8b488bf56f4b;
  0x8cca486648e586b5; 0xa51683c483144220; 0x75aee35be3125d91; 0xd15849964950cb80;
  0x44667621763f28d9; 0x4b8f225622ab2e05; 0x71a8477f47898b55; 0x6fb9ef91ef62872e;
  0x5e717aeb7a4ff266; 0x66554dd04dc13c54; 0x18145ed85edcb1dd; 0xe77503d3031cd75f;
  0xe170f5e5f52b6af9; 0x2e39149d1490ad02; 0x6a5f62bc62af85db; 0xc8ac3e473edaae6c;
  0xdb5790cc9009cfa9; 0x892cc54bc5288440; 0x46652433249343bb; 0xb30ba062a00a2110;
  0xdcb24ff34f68a63e; 0xdeb11de11dc4cd5c; 0x88ccec42ec7e5071; 0xa8fc85a1852c2f9e;
  0x0c0a2f6c2f6eb98f; 0x8d2a616f61b35284; 0x3028bc73bc7ba179; 0x33cbc768c7811e2a;
  0x17fd0aaf0a48b701; 0x80c0670a678b3f3a; 0x3c22931f931518f6; 0xb8e450315005f108;
  0xaaffd7b3d78044fc; 0xf36b726772aedf0d; 0xd4bec4bbc49dc975; 0x539b7c8e7c779fd8;
  0x19f477d1778a65ec; 0xa715d1d6d1b82942; 0x8526ea27ea463dcf; 0x65b636cb363b8307;
  0x7ba79e259ed08f7c; 0x7fa13a013a4b59b8; 0x11f8fc99fc7f0aa7; 0x7da2681368e732da;
  0x01e029092956d431; 0x5c7228f928e39904; 0xea9f05b60524bae1; 0x5f9153e253192657;
  0x559e8ab88a40227e; 0x98d439d239578ee7; 0xa91caca8ac7afbaf; 0x1bf725c325260e8e;
  0xbce2f415f49e27cc; 0xccaa9a639a4178a8; 0xed7ada89da45d376; 0xad1a088c08e12d6b;
  0x22333bf13bfe148d; 0xc4a6112b11b417e3; 0xf68dff4aff63ddf8; 0xc0a0b50fb52fc127;
  0xff615d0b5dc06682; 0xcea9c871c8ed13ca; 0x3824373b378ece32; 0xc2a3e71de783aa45;
  0x1e11a8eea8eb0c7b; 0x21d040ea4004abde; 0x0fe95477549406dc; 0xd2bb328d32aa74d3;
  0x13fbae8baed361c5; 0x9cd29df69dcc5823; 0x6bbf4bb54bf951ea; 0xd6bd96a99631a217;
  0xdab7b9c5b95f1b98; 0x96dd44ac44955c0a; 0x45865f285f69fce8; 0x50780795078d208b;
  0x03e37b1b7bfabf53; 0x61b092ef92a055c3; 0x81204e034eddeb0b; 0x7844e53ee52a302f;
  0x203069e369527fef; 0x67b564d96497e865; 0x0203521252ac6b62; 0x7c42411a41b1e6eb;
  0xcb4f455c4520113f; 0x744eca52ca4489a0; 0xe89c57a45788d183; 0x51982e9c2edbf4ba;
  0xb4ee7f5d7f6b4887; 0xa0f00ee90ed940d5; 0x498c704470074567; 0xef79889b88e9b814;
  0x6c5a948a9498387d; 0x2436cdc7cdc9a92b; 0x0406a424a49bd6c4; 0xf884823482a10f15;
  0xe090dcecdc7dbec8; 0xf28b5b6e5bf80b3c; 0xbee1a607a6324cae; 0x23d312f812a8c0bc;
  0xab1ffebafed690cd; 0x83231c111c718069; 0xd75dbfa0bf677626; 0x35ce315e31b6a38c;
  0x9b3742c942ad31b4; 0x3a2765296522a550; 0x724b3c643c733406; 0x77adb149b1be36f3;
  0x362d4a454a4c1cdf; 0x0dea066506386dbe; 0xe6952ada2a4a036e; 0x764d984098e8e2c2;
  0x4060d205d2a4fe1d; 0xf088097c0954605e; 0x70486e766edf5f64; 0x79a4cc37cc7ce41e;
  0x6dbabd83bdceec4c; 0x547ea3b1a316f64f; 0x953e3fb73f6fe359; 0xfb67f92ff95bb046;
  0x26359fd59f65c249; 0xc546382238e2c3d2; 0xacfa218521b7f95a; 0x1df2d3f5d311b328;
  0x141e71b471b20852; 0x161d23a6231e6330; 0xa6f5f8dff8eefd73; 0x86c5913c91bc829c;
  0xbf018f0e8f64989f; 0x3e21c10dc1b97394; 0xb904793879532539; 0xbae7022302a99a6a;
  0x69bc19a719553a88; 0x47850d3a0dc5978a; 0xb6ed2d4f2dc723e5; 0x7e411308131d8d89;
  0xeb7f2cbf2c726ed0; 0x6253e9f4e95aea90; 0x4a6f0b5f0bfdfa34; 0xf964ab3dabf7db24;
  0x4c6afd69fdca4792; 0x4383a91ea95e414e; 0x15fe58bd58e4dc63; 0x0beff053f00fd018;
  0x8f29337d331f39e6; 0xb70d04460491f7d4; 0xbd02dd1cddc8f3fd; 0x426380178008957f;
  0x5b97f7c6f782f093; 0x3fc1e804e8efa7a5; 0xd55eedb2edcb1d44; 0xdd5266fa663e720f;
  0x94de16be16393768; 0x31c8957a952d7548; 0x2bdf99b0995daff7; 0xfa87d026d00d6477;
  0xe373a7f7a787019b; 0x933bc981c9585eff; 0xb108f270f2a64a72; 0xf16820752002b46f;
  0x39c41e321ed81a03; 0xdf5134e83492196d; 0x6e59c698c634531f; 0x58748cdd8c784fc0;
  0xec9af380f3130747; 0xb0e8db79dbf09e43; 0x567df1a3f1ba9d2d; 0x09eca241a2a3bb7a;
  0xa31375f27523ff86; 0x3bc74c204c747161; 0x8b2f97599784ef22; 0x90d8b29ab2a2e1ac;
  0xa11027e0278f94e4; 0x1ff181e781bdd84a; 0x05e68d2d8dcd02f5; 0xe57651c151b0bc3d;
  0x283ce2abe2a710a4; 0x2c3a468f463cc660; 0xe2938efe8ed1d5aa; 0x8ec91a741a49edd7;
  0x92dbe088e00e8ace; 0x121b87828785b5f4; 0x25d6e4cee49f7d1a; 0x9d32b4ffb49a8c12;
  0xbb072b2a2bff4e5b; 0x486c594d59519156; 0xaf195a9e5a4d4609; 0xfc822610263ad9d1;
  0x322bee61eed7ca1b; 0xf56e8451849962ab; 0x8acfbe50bed23b13; 0x527b558755214be9;
  0xcaaf6c556c76c50e; 0xa2f35cfb5c752bb7; 0x0e097d7e7dc2d2ed; 0xcf49e178e1bbc7fb;
  0x3dc2ba16ba43ccc7; 0xd8b4ebd7ebf370fa; 0x0a0fd95ad9590429; 0xc7456a306a4ea8b0;
  0xd954c2dec2a5a4cb; 0xc1409c069c791516; 0xc343ce14ced57e74; 0x685c30ae3003eeb9;
  0xe97c7ead7ede05b2; 0xa4f6aacdaa429611; 0x5a77decfded424a2; 0x29dccba2cbf1c495;
  0x07e5df3fdf616997; 0x993410db10015ad6; 0x7a47b72cb7865b4d; 0x4e69af7baf662cf0;
  0x1018d590d529de96; 0x73ab156d1525e037; 0xfe8174027496b2b3; 0x4d8ad460d49c93a3;
  0x2dda6f866f6a1251; 0x342e185718e077bd; 0xd35b1b841bfca0e2; 0x9ed1cfe4cf603341;
  0xfd620f190f6c0de0; 0xb2eb896b895cf521; 0xaef97397731b9238; 0xcd4ab36ab317ac99;
  0x2fd93d943dc67933; 0xb50e5654563d9cb6; 0x1c12fafcfa476719; 0x5d9201f001b54d35;
  0x37cd634c631ac8ee; 0x63b3c0fdc00c3ea1; 0x27d5b6dcb6331678; 0x4f8986728630f8c1;
  0xc94c174e178c7a5d; 0x4180fb0cfbf22a2c; 0x1a170cca0c70dabf; 0x9ad76bc06bfbe585;
  0x579dd8aad8ec491c; 0x8725b835b8ea56ad; 0x9f31e6ede636e770; 0x5994a5d4a52e9bf1;
  0x0605f636f637bda6; 0x84c6c32ec310e9fe; 0x6050bbe6bbf681f2; 0x973d6da56dc3883b;
  0xee99a192a1bf6c25; 0xc6a5433943187c81; 0xe49678c878e6680c; 0xd0b8609f60061fb1;
  0x0000000000000000; 0xf76dd643d63509c9; 0xf48ead58adcfb69a; 0x82c3351835275458].

Definition precomputedInversedLSTableRight_13 : list Z := [
  0xb740a684c22209da; 0x54a2c52495e1ddd9; 0x2236b057a6e7083c; 0xca0fa27227d0c38c;
  0x52194167e0262edd; 0xbef2ab81862a47d4; 0x8b64c75f0698b8f2; 0xbd4ee9415da8dfd6;
  0xfa9e082f092757ac; 0x0edcb70678b174b5; 0xee829666f4f038b4; 0xc5062b34161f7e86;
  0xb4fce44419a091d8; 0x87d10cd9ecd59dfa; 0x9d11259669b38657; 0xf2f93b6a0451d01d;
  0x446ca3ae8f0d1078; 0xd2a6f7bd304a899c; 0x2838ff92396dde30; 0xa8874948e9017971;
  0xa43282ce034c5c79; 0xbf2795c1cf548e6b; 0x29edc1d27013178f; 0x5f79b4a14315c26a;
  0x9a7f9f95550abcec; 0x490c56682c3efccf; 0x37ff105e124eae9b; 0x99c3dd558e8824ee;
  0xafe9f34bd5b843ca; 0xdac1c4f83d3c0e2d; 0xf9224aefd2a5cfae; 0xa289068d768baf7d;
  0x69539abf1825a54e; 0xfdf0b22c359e6d17; 0x56cbb9a4071d8c64; 0xcedd5ab1c0eb6135;
  0x4ab014a8f7bc64cd; 0xc001edb7b85a1580; 0x50703de772da7f60; 0x93cd92901102f2e2;
  0x15c9a009b4a9a6a7; 0x6d81627cff1e07f7; 0x10ce668a1aeccda1; 0xdc7a40bb48fbfd29;
  0xf7fefde9aa14bb1b; 0x9218acd0587c3b5d; 0xdfc6027b9379652b; 0x416b652d21487b7e;
  0x88d8859fdd1a20f0; 0x678f2db96094d1fb; 0xd5c84dbe0cf3b327; 0x3c2461dbc4bab128;
  0x25580a549a5e3287; 0x60e197ba5c2deb40; 0x111b58ca5392041e; 0xc6ba69f4cd9de684;
  0xab3b0b883283e173; 0xcd6118711b69f937; 0xeb8550e55ab553b2; 0x74fd09f3a1fa8458;
  0x7d4f04f6e5f2ca56; 0x076eba033cb93abb; 0x2d3f39119728b536; 0x6288eb3aced1bafd;
  0x6fe81efc6de2564a; 0x1e12d18c625db914; 0x332de89df5750c22; 0xb1fb22c7b7e5fade;
  0x2b84bd52e2ef4632; 0x26e4489441dcaa85; 0xf442bf2971962319; 0xe6e5a523f986bf05;
  0x0cb5cb86ea4d2508; 0x0507c683ae456b06; 0xa0e07a0de477fec0; 0x8303f41a0bee3f43;
  0x2cea0751de567c89; 0x1c7bad0cf0a1e8a9; 0x72468db0d43d775c; 0xc866def2b52c9231;
  0x5bab4c62a42e60d3; 0xb99c1182ba937d6f; 0x752837b3e8844de7; 0xac55b18b0e3adbc8;
  0xae3ccd0b9cc68a75; 0x0f09894631cfbd0a; 0xd373c9fd79344023; 0xc9b3e0b2fc525b8e;
  0xf32c052a4d2f19a2; 0x03bc42c0db829802; 0x06bb844375c7f304; 0x40be5b6d6836b2c1;
  0x6134a9fa155322ff; 0x53cc7f27a958e762; 0xddaf7efb01853496; 0x38f6991823811391;
  0x9ead6756b2311e55; 0xcbda9c326eae0a33; 0x65e65139f2688046; 0x51a503a73ba4b6df;
  0xccb4263152173088; 0x48d9682865403570; 0x7848c2754bb7a150; 0xf597816938e8eaa6;
  0xc26891372aa6443d; 0xa65bfe4e91b00dc4; 0x0bdb7185d6f41fb3; 0x141c9e49fdd76f18;
  0x3b4adbd8f8038b93; 0xe05e21608c414c01; 0xb529da0450de5867; 0x58170ea27facf8d1;
  0x4fb7d22b59f90fcb; 0x273176d408a2633a; 0x7a21bef5d94bf0ed; 0xd0cf8b3da2b6d821;
  0x9f785916fb4fd7ea; 0x9baaa1d51c747553; 0x665a13f929ea1844; 0x248d3414d320fb38;
  0x1675e2c96f2b3ea5; 0xad808fcb47441277; 0x47d0e16e548f887a; 0x0a0e4fc59f8ad60c;
  0x18a955cf179a4a10; 0x8fb63f9ce1a31a4b; 0xfc258c6c7ce0a4a8; 0x702ff13046c126e1;
  0x32f8d6ddbc0bc59d; 0xe18b1f20c53f85be; 0xe559e7e322042707; 0x4b652ae8bec2ad72;
  0xf09047ea96ad81a0; 0x85b870597e29cc47; 0x4605df2e1df141c5; 0x1dae934cb9df2116;
  0x7393b3f09d43bee3; 0xa135444dad09377f; 0xb24760076c6762dc; 0x1ac0294f85661bad;
  0x5d10c821d1e993d7; 0xe2375de01ebd1dbc; 0x86043299a5ab5445; 0xd97d8638e6be962f;
  0x3091aa5d2ef79420; 0xc4d315745f61b739; 0xba2053426111e56d; 0x91a4ee1083fea35f;
  0x09b20d0544084e0e; 0x3a9fe598b17d422c; 0x23e38e17ef99c183; 0x4c0b90eb827b97c9;
  0x59c230e236d2316e; 0x0d60f5c6a333ecb7; 0xd8a8b878afc05f90; 0x12a71a0a88109c1c;
  0xcf0864f18995a88a; 0x71facf700fbfef5e; 0x3f98231b1f38292a; 0x82d6ca5a4290f6fc;
  0x971f6a53f639505b; 0xf14579aadfd3481f; 0x8c0a7d5c3a218249; 0x1372244ac16e55a3;
  0xbbf56d02286f2cd2; 0xc1d4d3f7f124dc3f; 0x4ddeaeabcb055e76; 0x02697c8092fc51bd;
  0x635dd57a87af7342; 0x04d2f8c3e73ba2b9; 0x7ef346363e705254; 0x42d727edfacae37c;
  0x086733450d7687b1; 0x6886a4ff515b6cf1; 0x6c545c3cb660ce48; 0xaaee35c87bfd28cc;
  0xdb14fab87442c792; 0xa35c38cd3ff566c2; 0xed3ed4a62f72a0b6; 0x218af2977d65903e;
  0x64336f79bb1649f9; 0x01d53e40497ec9bf; 0x1fc7efcc2b2370ab; 0x816a889a99126efe;
  0x799dfc3502c968ef; 0x846d4e19375705f8; 0x430219adb3b42ac3; 0x8ddf431c735f4bf6;
  0x957616d364c501e6; 0x5577fb64dc9f1466; 0xa78ec00ed8cec47b; 0x3443529ec9cc3699;
  0x2a518312ab918f8d; 0x769475733306d5e5; 0xe48cd9a36b7aeeb8; 0x1b15170fcc18d212;
  0x7bf480b590353952; 0x80bfb6dad06ca741; 0x7c9a3ab6ac8c03e9; 0x96ca5413bf4799e4;
  0xde133c3bda07ac94; 0xff99ceaca7623caa; 0x197c6b8f5ee483af; 0x5cc5f66198975a68;
  0x77414b337a781c5a; 0xea506ea513cb9a0d; 0x3923a7586affda2e; 0xfb4b366f40599e13;
  0x8e6301dca8ddd3f4; 0x362a2e1e5b306724; 0xd11ab57debc8119e; 0xecebeae6660c6909;
  0x3e4d1d5b5646e095; 0xe83912258137cbb0; 0x7f267876770e9beb; 0xe3e263a057c3d403;
  0x571e87e44e6345db; 0x3df15f9b8dc47897; 0xe7309b63b0f876ba; 0xb8492fc2f3edb4d0;
  0x890dbbdf9464e94f; 0x9cc41bd620cd4fe8; 0x6e3d20bc249c9ff5; 0xd6740f7ed7712b25;
  0xbc9bd70114d61669; 0xd7a1313e9e0fe29a; 0x2f56459105d4e48b; 0x45b99deec673d9c7;
  0x5a7e7222ed50a96c; 0xe9ec2c65c849020f; 0xf8f774af9bdb0611; 0xef57a826bd8ef10b;
  0xc76f57b484e32f3b; 0x6aefd87fc3a73d4c; 0x9071d050ca806ae0; 0x6b3ae63f8ad9f4f3;
  0x205fccd7341b5981; 0x17a0dc892655f71a; 0x4e62ec6b1087c674; 0xb3925e472519ab63;
  0xf62bc3a9e36a72a4; 0xc3bdaf7763d88d82; 0x5eac8ae10a6b0bd5; 0x8ab1f91f4fe6714d;
  0xb69598c48b5cc065; 0x9816e315c7f6ed51; 0x3144941d67895d9f; 0x94a328932dbbc859;
  0xb02e1c87fe9b3361; 0xd41d73fe458d7a98; 0xa9527708a07fb0ce; 0x35966cde80b2ff26;
  0x0000000000000000; 0xa5e7bc8e4a3295c6; 0xfe4cf0ecee1cf515; 0x2e837bd14caa2d34].

Definition precomputedInversedLSTableRight_14 : list Z := [
  0x4ee7535da930477c; 0x343f83150b98e91c; 0x87f858e97ff78f8c; 0x8db651d33b954e2e;
  0x2ddcc1f5f17a039c; 0x8891b4ce19a4cf7f; 0xb4f68252422b0c35; 0x650195be64d5ba3f;
  0x45a204dfe78912a4; 0x84e5bae26159f002; 0x13ad4bdabe802b22; 0x5223f4a071e32cad;
  0xa377722dd441323c; 0x86f30651752c1bf6; 0x5419f3b64d7cd272; 0xd8a4fcdd7c320826;
  0xcd33b011fe2ddddb; 0xe9bc9ad5559b606b; 0xac1e9e0ab21272cf; 0x687ec52a16f31138;
  0x5a7b412921f406fb; 0xd3e1ab5f328b5dfe; 0xf76e819b993de04e; 0x44a95a67ed5286de;
  0x168aaec79cb1aa73; 0xa4462b83e2055899; 0x8a87087d0dd1248b; 0xfb1a8fb7e1c0df33;
  0x2aed985bc73e6939; 0x74ba62d7ce207ae9; 0xa83225af9af867e4; 0x439803c9db16ec7b;
  0x955e4d8bcbac30d4; 0x073159ae36446aa5; 0x82dfbdf45dc60edd; 0x22b52dd29729436f;
  0x49d60af39f742dd9; 0xa6509730f670b36d; 0x9b3cff14a724e45d; 0xd0fc49542c252270;
  0x0d7f50947226ab07; 0x3a5d318a67103d95; 0xf90c3304f5b534c7; 0x6d59203734c29069;
  0x2cd79f4dfba197e6; 0x8b8c56c5070ab0f1; 0x80c9014749b3e529; 0x3940d38179be421b;
  0x5966a3223f5a7975; 0x11bbf769aaf5c0d6; 0xab2fc7a48456186a; 0xfa11d10feb1b4b49;
  0xc56b0598ae3af78d; 0x5328aa187b38b8d7; 0xa27c2c95de9aa646; 0xbfb3d5d00c9259ed;
  0x85eee45a6b826478; 0xcf250ca2ea58362f; 0xe7de284a3913b4e2; 0x0527e51d22318151;
  0xc351028e92a50952; 0x42935d71d1cd7801; 0x586dfd9a3581ed0f; 0xe5c894f92d665f16;
  0x8cbd0f6b314eda54; 0x7de989e694ecc4c5; 0x2584747ca16d29ca; 0x570411bd53d2adfc;
  0x418ebf7acf63078f; 0x28fb24e8d34b82cd; 0xc147be3d86d0e2a6; 0x8eabb3d8253b31a0;
  0x32058403370717c3; 0xf473639087939fc0; 0xf5783d288d480bba; 0x29f07a50d99016b7;
  0x031de20b1eae7f8e; 0xcb09b707c2b22304; 0x1cc4a7fdd8d36bd1; 0x3b566f326dcba9ef;
  0xebaa266641ee8b9f; 0xca02e9bfc869b77e; 0x5e57fa8c091e13d0; 0xc77db92bba4f1c79;
  0x719d87caec11fbb8; 0xdf95a5734a766283; 0xb2cc85447eb4f2ea; 0x602670a346e43b6e;
  0x83d4e34c571d9aa7; 0xed9021707d717540; 0x19e342e0fae2ea80; 0x6230cc105291d09a;
  0x0858b58950172a56; 0x76acde64da55911d; 0x36293fa61fed02e8; 0x5512ad0e47a74608;
  0xb989d2c6300da732; 0xd6c64e4210badcaf; 0xa75bc988fcab2717; 0xc04ce0858c0b76dc;
  0x94551333c177a4ae; 0xff363412c92aca18; 0x3722611e15369692; 0x9a37a1acadff7027;
  0x10b0a9d1a02e54ac; 0xec9b7fc877aae13a; 0x7096d972e6ca6fc2; 0x560f4f0559093986;
  0xb8828c7e3ad63348; 0x9748f138dfd9db20; 0xf8076dbcff6ea0bd; 0x063a07163c9ffedf;
  0xbda5696318e7b219; 0x738b3b79f864104c; 0x81c25fff43687153; 0x5f5ca43403c587aa;
  0xe2f9cd571b2235b3; 0x4dfab156b79e38f2; 0x4acbe8f881da5257; 0x9e1b1a098515650c;
  0xe0ef71e40f57de47; 0x9c0da6ba91608ef8; 0x20a39161835ca89b; 0x2be6c6e3cde5fd43;
  0x640acb066e0e2e45; 0x1bf5fe53ee970174; 0x5c41463f1d6bf824; 0xaa24991c8e8d8c10;
  0x7ef46bed8a42bb4b; 0xcc38eea9f4f649a1; 0x633b92a8584a44e0; 0x12a61562b45bbf58;
  0x6e44c23c2a6cefe7; 0x301338b02372fc37; 0x7bd38ef0a8733a1a; 0x9079a896e99db185;
  0x47b4b86cf3fcf950; 0xae0822b9a667993b; 0xba9430cd2ea3d8bc; 0xd2eaf5e73850c984;
  0xf2496486bb0c611f; 0x21a8cfd989873ce1; 0xdd8319c05e038977; 0x992a43a7b3510fa9;
  0xc814550cdc1c5c8a; 0x0953eb315accbe2c; 0x2792c8cfb518c23e; 0x661c77b57a7bc5b1;
  0xc676e793b0948803; 0xe3f293ef11f9a1c9; 0xdc88477854d81d0d; 0x503548136596c759;
  0x5d4a188717b06c5e; 0x69759b921c288542; 0xc25a5c36987e9d28; 0x4fec0de5a3ebd306;
  0x79c53243bc06d1ee; 0xf154868da5a21e91; 0x1781f07f966a3e09; 0x728065c1f2bf8436;
  0x7fff355580992f31; 0x3534ddad01437d66; 0xf665df2393e67434; 0x149c127488c44187;
  0x7ce2d75e9e3750bf; 0xfd2088a1dd5f21ec; 0x0b4557824eb955d8; 0xb6e03ee1565ee7c1;
  0xbeb88b680649cd97; 0xaf037c01acbc0d41; 0x2ec123feefd47c12; 0xd4d0f2f104cf375b;
  0x9d06f8029bbb1a82; 0xce2e521ae083a255; 0x612d2e1b4c3faf14; 0xde9efbcb40adf6f9;
  0x2fca7d46e50fe868; 0x18e81c58f0397efa; 0xfe3d6aaac3f15e62; 0x6a6879990286facc;
  0xfc2bd619d784b596; 0x5b701f912b2f9281; 0x26999677bfc35644; 0x9f1044b18fcef176;
  0x6c527e8f3e190413; 0x6b632721085d6eb6; 0x8fa0ed602fe0a5da; 0xad15c0b2b8c9e6b5;
  0xc91f0bb4d6c7c8f0; 0x6f4f9c8420b77b9d; 0xb7eb60595c8573bb; 0x6717290d70a051cb;
  0x1afea0ebe44c950e; 0xb3c7dbfc746f6690; 0x384b8d397365d661; 0x899aea76137f5b05;
  0xdab2406e6847e3d2; 0xc4605b20a4e163f7; 0x98211d1fb98a9bd3; 0x248f2ac4abb6bdb0;
  0xdbb91ed6629c77a8; 0xb1d1674f601a8d64; 0x3f7ad4974521bcc4; 0xa9397b179023f39e;
  0xe8b7c46d5f40f411; 0xbcae37db123c2663; 0x0e62b29f6c88d489; 0x1ed21b4ecca68025;
  0x4085e1c2c5b893f5; 0xd1f717ec26feb60a; 0x042cbba528ea152b; 0xa54d753be8decce3;
  0x4cf1efeebd45ac88; 0x0a4e093a4462c1a2; 0x75b13c6fc4fbee93; 0x7ad8d048a2a8ae60;
  0xd9afa26576e99c5c; 0xa161ce9ec034d9c8; 0xd5dbac490e14a321; 0x9172f62ee34625ff;
  0x0216bcb31475ebf4; 0x0f69ec27665340f3; 0xd7cd10fa1a6148d5; 0x46bfe6d4f9276d2a;
  0x3e718a2f4ffa28be; 0x1dcff945d208ffab; 0xee8dc37b63df0ace; 0x9643af80d5024f5a;
  0xb0da39f76ac1191e; 0x513e16ab6f4d5323; 0xf3423a3eb1d7f565; 0x48dd544b95afb9a3;
  0xe4c3ca4127bdcb6c; 0x78ce6cfbb6dd4594; 0x3d6c682451545730; 0x23be736a9df2d715;
  0x3118660829a9684d; 0xbb9f6e7524784cc6; 0xe6d576f233c82098; 0xe1e42f5c058c4a3d;
  0x77a780dcd08e0567; 0x4bc0b6408b01c62d; 0x1fd945f6c67d145f; 0xef869dc369049eb4;
  0x15974ccc821fd5fd; 0xa06a9026caef4db2; 0x93644a9df733ce0b; 0x926f1425fde85a71;
  0x0c740e2c78fd3f7d; 0xf05fd835af798aeb; 0x330edabb3ddc83b9; 0x3c67369c5b8fc34a;
  0x0000000000000000; 0x010b5eb80adb947a; 0xeaa178de4b351fe5; 0xb5fddcea48f0984f].

Definition precomputedInversedLSTableRight_15 : list Z := [
  0xe3ef79825311f0cd; 0x9cbae7378391bd5b; 0xc38ec9905892ad69; 0xda6e5928516884be;
  0x89764df9c1135150; 0x371e1174b4157134; 0x611bf762824c8783; 0xdc784413955407d0;
  0x72c1409704f2e8e6; 0x981ff1a4bab9feae; 0x0c2c3a764b78c5dc; 0x1b539b10f4eee94c;
  0x08892ce572508629; 0x4b40603d068b9c95; 0xadb2eb78f3b84f01; 0xff121bfdfcc9fa43;
  0x45df51e3b0e799d2; 0x8ed8b4969a25b292; 0xfc19f4019ed75a74; 0xfbb70d6ec5e1b9b6;
  0xd1ec9a314126a2a0; 0x6e3c22e8ab2ae268; 0xa53bc79d81e8c928; 0xfa0fe93a5aebd91a;
  0xe15c722aae053056; 0x36a6f5202b1f1198; 0xe44180ed0827130f; 0x0a3a274d8f4446b2;
  0xb759943c985cc6e1; 0x030beffc621ea037; 0x99a715f025b39e02; 0xc42030ff03a44eab;
  0x476c5a4b4df35949; 0x3e2fd9c5594f97b1; 0x2efe81ccbdef58e3; 0x7de6951d2d948d0d;
  0xddc0a0470a5e677c; 0xe5f964b9972d73a3; 0x3b322b02ff6db4e8; 0x35ad1adc4901b1af;
  0x27cf497d50b5be66; 0xe0e4967e310f50fa; 0xd965b6d433762489; 0x16c74532209c4c3c;
  0x01b8e4549f0a60ac; 0x6c8f2940563e22f3; 0xfda1105501dd3ad8; 0xbb75ae4ad324033d;
  0x8a7da205a30df167; 0xdf73abeff74aa7e7; 0xc2362dc4c798cdc5; 0x82f48ee0d15d774e;
  0x8f6050c2052fd23e; 0x939d32bdaaf7d8b0; 0x804785482c49b7d5; 0xf035ce77d5af9fa8;
  0x10d15809e4a0cf52; 0x9680c07a0cd5fbe9; 0xf286c5df28bb5f33; 0xed70485ce57df58a;
  0x398120aa02797473; 0x4cee99525dbd7f57; 0x02b30ba8fd14c09b; 0x21d9544694893d08;
  0x52a0f0850f71b542; 0x417a477089cfda27; 0x43c94cd874db1abc; 0xf623d34c11931cc6;
  0x177fa166bf962c90; 0x640605a5246ea4da; 0xeadeb133be4b1648; 0x81ff611cb343d779;
  0x2a5b975f84c71b16; 0xfeaaffa963c39aef; 0x766456043ddaab13; 0xecc8ac087a779526;
  0x5b913834e22b53c7; 0xf33e218bb7b13f9f; 0xf8bce292a7ff1981; 0x682a3fd36f166106;
  0x5d87250f2617d0a9; 0x7bf08826e9a80e63; 0xb4527bc0fa4266d6; 0x5c3fc15bb91db005;
  0xee7ba7a0876355bd; 0xc13dc238a5866df2; 0xd7fa870a851a21ce; 0x31080c4f7029f25a;
  0xa6302861e3f6691f; 0xeb665567214176e4; 0x15ccaace4282ec0b; 0xe2579dd6cc1b9061;
  0xcabf0121b5c84bec; 0xd0547e65de2cc20c; 0x4fe576ae3fa3df60; 0x257c42d5ada17efd;
  0x46d4be1fd2f939e5; 0x834c6ab44e5717e2; 0x6d37cd14c934425f; 0x6210189ee05227b4;
  0xcfa2f3e613ea68b5; 0x6f84c6bc342082c4; 0xc72bdf0361baee9c; 0xb3fc82afa1748514;
  0x57bd0242a953961b; 0x63a8fcca7f584718; 0x66b50e0dd97a6441; 0x7eed7ae14f8a2d3a;
  0xce1a17b28ce00819; 0x9433cbd2f1c13b72; 0x51ab1f796d6f1575; 0xb6e170680756a64d;
  0x236a5fee699dfd93; 0x3d2436393b513786; 0x756fb9f85fc40b24; 0x3c9cd26da45b572a;
  0x1ff68d83cdc6aab9; 0xb87e41b6b13aa30a; 0x86519873e87534bb; 0xd642635e1a104162;
  0xcca91c1a71f4c882; 0x051df2c7a6222359; 0xaeb9048491a6ef36; 0x3f973d91c645f71d;
  0x54b6edbecb4d362c; 0xc6933b57feb08e30; 0x670dea59467004ed; 0x4af884699981fc39;
  0x1aeb7f446be489e0; 0xcd11f84eeefea82e; 0x6a99347b9202a19d; 0x84e293db1561f420;
  0x4d567d06c2b71ffb; 0xf90406c638f5792d; 0xf79b37188e997c6a; 0xaa1c1217a88eacc3;
  0xa19ed10eb8c08add; 0x2f46659822e5384f; 0x1d45862b30d26a22; 0xe6f28b45f533d394;
  0x484b8fc164953ca2; 0x2677ad29cfbfdeca; 0x126253a119b40fc9; 0xe86dba9b435fd6d3;
  0xa8af19bf559a6c58; 0x4271a88cebd17a10; 0x9096dd41c8e97887; 0x87e97c27777f5417;
  0xd4f168f6e70481f9; 0x9738242e93df9b45; 0x9aacfa0c47ad3e35; 0xc80c0a8948dc8b77;
  0xefc343f418693511; 0x7379a4c39bf8884a; 0xb14f89075c60458f; 0x6b21d02f0d08c131;
  0x24c4a68132ab1e51; 0x13dab7f586be6f65; 0x6992db87f01c01aa; 0xb5ea9f946548067a;
  0x9225d6e935fdb81c; 0x14744e9add888ca7; 0x2df56e30dff1f8d4; 0x3203e3b31237526d;
  0xc9b4eeddd7d6ebdb; 0xbcdb57258812e0ff; 0x912e391557e3182b; 0xb24466fb3e7ee5b8;
  0x78fb67da8bb6ae54; 0xa788cc357cfc09b3; 0xd2e775cd23380297; 0x5013fb2df26575d9;
  0x8dd35b6af83b12a5; 0x1e4e69d752ccca15; 0xb9c6a5e22e30c3a6; 0x49f36b95fb9f5c0e;
  0x5a29dc607d21336b; 0x9d0203631c9bddf7; 0xe74a6f116a39b338; 0x28e89cf779d3db8d;
  0x3415fe88d60bd103; 0x5922339c1f3f935c; 0x185874ec96f0497b; 0x5e8ccaf34409709e;
  0x9e09ec9f7e857dc0; 0xa026355a27caea71; 0x0931c8b1ed5ae685; 0x74d75dacc0ce6b88;
  0x2061b0120b835da4; 0xc598d4ab9cae2e07; 0x3a8acf566067d444; 0x0f27d58a296665eb;
  0x4e5d92faa0a9bfcc; 0x5f342ea7db031032; 0x33bb07e78d3d32c1; 0xbfd0b8d9ea0c40c8;
  0x2c4d8a6440fb9878; 0x07aef96f5b36e3c2; 0x60a313361d46e72f; 0xcb07e5752ac22b40;
  0xa48323c91ee2a984; 0x8c6bbf3e67317209; 0x0d94de22d472a570; 0x1169bc5d7baaaffe;
  0x06161d3bc43c836e; 0xaba4f6433784cc6f; 0x7c5e7149b29eeda1; 0x2be3730b1bcd7bba;
  0x9fb108cbe18f1d6c; 0xbd63b37117188053; 0x65bee1f1bb64c476; 0xbe685c8d75062064;
  0x30b0e81bef2392f6; 0x19e090b809fa29d7; 0x8bc546513c0791cb; 0x7f559eb5d0804d96;
  0x77dcb250a2d0cbbf; 0xdbd6bd7cce62e412; 0xd8dd5280ac7c4425; 0x22d2bbbaf6979d3f;
  0xd35f9199bc32623b; 0xf490d8e4ec87dc5d; 0x0b82c319104e261e; 0x295078a3e6d9bb21;
  0x855a778f8a6b948c; 0x70724b3ff9e6287d; 0xb0f76d53c36a2523; 0x1cfd627fafd80a8e;
  0x04a51693392843f5; 0x40c2a32416c5ba8b; 0xc085266c3a8c0d5e; 0x550e09ea54475680;
  0xa917fdebca900cf4; 0xac0a0f2c6cb22fad; 0xdecb4fbb6840c74b; 0xf5283cb0738dbcf1;
  0x71caaf6b66ec48d1; 0x958b2f866ecb5bde; 0x7a486c7276a26ecf; 0x4467b5b72fedf97e;
  0x589ad7c88035f3f0; 0x0e9f31deb66c0547; 0xa32ddaa645d44a46; 0x3839c4fe9d7314df;
  0xbacd4a1e4c2e6391; 0x531814d1907bd5ee; 0xf18d2a234aa5ff04; 0x7943838e14bccef8;
  0xaf01e0d00eac8f9a; 0x9b141e58d8a75e99; 0xa2953ef2dade2aea; 0x5605e6163659f6b7;
  0x0000000000000000; 0x88cea9ad5e1931fc; 0xd5498ca2780ee155; 0xe9d55ecfdc55b67f].

Definition precomputedInversedLSTableRight : list (list Z) := [
  precomputedInversedLSTableRight_0; precomputedInversedLSTableRight_1;
  precomputedInversedLSTableRight_2; precomputedInversedLSTableRight_3;
  precomputedInversedLSTableRight_4; precomputedInversedLSTableRight_5;
  precomputedInversedLSTableRight_6; precomputedInversedLSTableRight_7;
  precomputedInversedLSTableRight_8; precomputedInversedLSTableRight_9;
  precomputedInversedLSTableRight_10; precomputedInversedLSTableRight_11;
  precomputedInversedLSTableRight_12; precomputedInversedLSTableRight_13;
  precomputedInversedLSTableRight_14; precomputedInversedLSTableRight_15].
