(* ===== verification/Kuznechik.v ===== *)
(** * Kuznechik (GOST R 34.12-2015):
      src/crypto/encryption/gost2015_kuznechik/optimised.c

    The block cipher with its precomputed tables, on the memory that holds the round keys
    and the block; then the cipher of the standard (the maps X, S and L on 16-byte
    blocks), which the code is proved to implement. *)

From S2P Require Import Prelude Words GF256 KuznechikTables KuznechikLS KuznechikInvLS.

(** ** The source *)

Definition NumberOfRounds : nat := 10.
Definition NumberOfRoundsInKeySchedule : nat := 8.
Definition BlockLengthInBytes : nat := 16.

(** [union qword_t]: the eight bytes of an entry in memory order, read as a word. *)
Definition asQWord (e : Z) : Z := bswap64 e.

Definition applySTransformation (block : list Z) : list Z :=
  for_up BlockLengthInBytes (fun i block => <[i := Pi.[Z.to_nat block.[i]]]> block) block.

Definition applyInversedSTransformation (block : list Z) : list Z :=
  for_up BlockLengthInBytes (fun i block => <[i := InversedPi.[Z.to_nat block.[i]]]> block) block.

(** Two distinct blocks of two words each. *)
Definition swapBlocks (left right : list Z) : list Z * list Z :=
  let left := xor_list left right in
  let right := xor_list left right in
  let left := xor_list left right in
  (left, right).

Definition table_at (t : list (list Z)) (i : nat) (x : Z) : Z := (nth i t []).[Z.to_nat x].

Definition apply_table (t : list (list Z)) (input : list Z) : Z :=
  for_up 16 (fun i w => w ^^ asQWord (table_at t i input.[i])) 0.

Definition applyLSTransformation (input : list Z) : list Z :=
  [apply_table precomputedLSTableLeft input; apply_table precomputedLSTableRight input].

Definition applyInversedLSTransformation (input : list Z) : list Z :=
  [apply_table precomputedInversedLSTableLeft input;
   apply_table precomputedInversedLSTableRight input].

Definition applyFTransformation (constantIndex : nat) (left right : list Z)
    : list Z * list Z :=
  let temp1 := [left.[0] ^^ asQWord roundConstantsLeft.[constantIndex];
                left.[1] ^^ asQWord roundConstantsRight.[constantIndex]] in
  let temp2 := applyLSTransformation (words_to_bytes temp1) in
  let right := xor_list right temp2 in
  swapBlocks left right.

(** The round keys are an array of 20 words; block [n] is the words [2 n] and [2 n + 1]. *)
Definition block_at (roundKeys : list Z) (n : nat) : list Z := mem_read roundKeys (2 * n) 2.

(** One step of the outer loop: [next] is [nextKeyIndex_]. *)
Definition schedule_pair (next : nat) (constantIndex : nat) (roundKeys : list Z) : list Z :=
  let roundKeys := mem_write roundKeys (2 * next) (mem_read roundKeys (2 * (next - 2)) 4) in
  for_up NumberOfRoundsInKeySchedule (fun i roundKeys =>
    let '(left_, right_) := applyFTransformation (constantIndex + i)
      (block_at roundKeys next) (block_at roundKeys (next + 1)) in
    mem_write (mem_write roundKeys (2 * next) left_) (2 * (next + 1)) right_) roundKeys.

Definition scheduleEncryptionRoundKeysForGost15 (roundKeys key : list Z) : list Z :=
  let roundKeys := mem_write roundKeys 0 (bytes_to_words 4 (mem_read key 0 (BlockLengthInBytes * 2))) in
  for_up ((NumberOfRounds - 2) / 2) (fun k roundKeys =>
    schedule_pair (2 + 2 * k) (NumberOfRoundsInKeySchedule * k) roundKeys) roundKeys.

Definition scheduleDecryptionRoundKeysForGost15 (roundKeys key : list Z) : list Z :=
  let roundKeys := scheduleEncryptionRoundKeysForGost15 roundKeys key in
  for_up 8 (fun k roundKeys =>
    let roundKeyIndex := S k in
    let cache := applySTransformation (words_to_bytes (block_at roundKeys roundKeyIndex)) in
    mem_write roundKeys (2 * roundKeyIndex) (applyInversedLSTransformation cache)) roundKeys.

(** The block functions work on a memory [m] of bytes, with the round keys at [rk] and the
    block at [data]; the two may overlap. *)
Definition key_word (m : list Z) (rk : nat) (i : nat) : Z := load64_le m (rk + 8 * i).
Definition store_words (m : list Z) (data : nat) (ws : list Z) : list Z :=
  mem_write m data (words_to_bytes ws).

Definition encrypt_round (rk data : nat) (round : nat) (m : list Z) : list Z :=
  let cache := [load64_le m data ^^ key_word m rk (2 * round);
                load64_le m (data + 8) ^^ key_word m rk (2 * round + 1)] in
  store_words m data (applyLSTransformation (words_to_bytes cache)).

Definition xor_key (rk data : nat) (round : nat) (m : list Z) : list Z :=
  let m := store_words m data [load64_le m data ^^ key_word m rk (2 * round)] in
  store_words m (data + 8) [load64_le m (data + 8) ^^ key_word m rk (2 * round + 1)].

Definition encryptBlockWithGost15 (m : list Z) (rk data : nat) : list Z :=
  let m := for_up (NumberOfRounds - 1) (encrypt_round rk data) m in
  xor_key rk data (NumberOfRounds - 1) m.

(** The cached block and the memory, after one step of the decryption loop. *)
Definition decrypt_round (rk data : nat) (round : nat) (s : list Z * list Z) : list Z * list Z :=
  let '(cache, m) := s in
  let m := store_words m data (applyInversedLSTransformation (words_to_bytes cache)) in
  ([load64_le m data ^^ key_word m rk (2 * round);
    load64_le m (data + 8) ^^ key_word m rk (2 * round + 1)], m).

Definition decryptBlockWithGost15 (m : list Z) (rk data : nat) : list Z :=
  let round := (NumberOfRounds - 1)%nat in
  let m := xor_key rk data round m in
  let m := mem_write m data (applySTransformation (mem_read m data 16)) in
  let cache := applyInversedLSTransformation (mem_read m data 16) in
  let s := decrypt_round rk data (round - 1) (cache, m) in
  let '(cache, m) := for_up (round - 2) (fun k => decrypt_round rk data (round - 2 - k)) s in
  let cache := bytes_to_words 2 (applyInversedSTransformation (words_to_bytes cache)) in
  let m := store_words m data [cache.[0] ^^ key_word m rk 0] in
  store_words m (data + 8) [cache.[1] ^^ key_word m rk 1].

(** ** The specification *)

(** GF(2^8) modulo x^8 + x^7 + x^6 + x + 1. *)
Abbreviation gmul := (gf_mul 0x1c3).

(** The linear function of the shift register, on the bytes a15 ... a0. *)
Definition l_coef : list Z := [148; 32; 133; 16; 194; 192; 1; 251; 1; 192; 194; 16; 133; 32; 148; 1].
Definition l (a : list Z) : Z :=
  for_up 16 (fun i r => r ^^ gmul l_coef.[i] a.[i]) 0.

Definition R (a : list Z) : list Z := l a :: take 15 a.
Definition R_inv (a : list Z) : list Z := drop 1 a ++ [l (drop 1 a ++ [a.[0]])].

Definition L (a : list Z) : list Z := Nat.iter 16 R a.
Definition L_inv (a : list Z) : list Z := Nat.iter 16 R_inv a.
Definition Sub (a : list Z) : list Z := (fun x => Pi.[Z.to_nat x]) <$> a.
Definition Sub_inv (a : list Z) : list Z := (fun x => InversedPi.[Z.to_nat x]) <$> a.
Definition X (k a : list Z) : list Z := xor_list a k.

(** The constants of the key schedule: L of the number of the constant, from 1. *)
Definition round_constant (i : nat) : list Z := L (replicate 15 0 ++ [Z.of_nat (S i)]).

(** One Feistel step of the key schedule. *)
Definition feistel (c : list Z) (ks : list Z * list Z) : list Z * list Z :=
  let '(a1, a0) := ks in (xor_list (L (Sub (X c a1))) a0, a1).

(** The round keys, two at a time. *)
Fixpoint std_pair (k : nat) (ks : list Z * list Z) : list Z * list Z :=
  match k with
  | O => ks
  | S k => for_up 8 (fun i => feistel (round_constant (8 * k + i))) (std_pair k ks)
  end.
Definition std_round_key (key : list Z) (n : nat) : list Z :=
  let p := std_pair (n / 2) (take 16 key, drop 16 key) in
  if (n mod 2 =? 0)%nat then p.1 else p.2.

(** Encryption and decryption with the ten round keys [ks]. *)
Definition std_encrypt (ks : nat -> list Z) (a : list Z) : list Z :=
  X (ks 9%nat) (for_up 9 (fun i a => L (Sub (X (ks i) a))) a).
Definition std_decrypt (ks : nat -> list Z) (a : list Z) : list Z :=
  for_up 9 (fun i a => X (ks (8 - i)%nat) (Sub_inv (L_inv a))) (X (ks 9%nat) a).

(** ** The linear maps *)

Definition is_block (a : list Z) : Prop := bytes a /\ length a = 16%nat.

Definition zeros16 : list Z := replicate 16 0.

(** The maps on blocks that preserve exclusive or. *)
Definition linear (f : list Z -> list Z) : Prop :=
  (forall a, is_block a -> is_block (f a)) /\
  (forall a b, is_block a -> is_block b -> f (xor_list a b) = xor_list (f a) (f b)).

Lemma is_block_xor a b : is_block a -> is_block b -> is_block (xor_list a b).
Proof.
  intros [Ha Hla] [Hb Hlb]. split; [now apply words_xor_list|rewrite length_xor_list; lia].
Qed.

Lemma is_block_zeros : is_block zeros16.
Proof. by_eval. Qed.

Lemma xor_list_self a : length a = 16%nat -> xor_list a a = zeros16.
Proof.
  intros H. apply (nth_ext_eq _ _ 0); rewrite length_xor_list, H; [done|].
  intros i Hi. rewrite nth_xor_list, Z.lxor_nilpotent by done. unfold zeros16.
  symmetry. apply nth_zeros.
Qed.

Lemma linear_zeros f : linear f -> f zeros16 = zeros16.
Proof.
  intros [Hb Hx]. pose proof is_block_zeros as H0. pose proof (Hx _ _ H0 H0) as E.
  rewrite (xor_list_self zeros16), xor_list_self in E by (done || now apply Hb). exact E.
Qed.

Lemma linear_iter n f : linear f -> linear (Nat.iter n f).
Proof.
  intros [Hb Hx]. induction n as [|n [IHb IHx]]; [split; [done|reflexivity]|]. split; simpl.
  - intros a Ha. now apply Hb, IHb.
  - intros a b Ha Hc. rewrite IHx by done. apply Hx; now apply IHb.
Qed.

(** A linear map of a (conditional) sum. *)
Definition xor_sum (n : nat) (c : nat -> bool) (u : nat -> list Z) : list Z :=
  for_up n (fun k acc => if c k then xor_list acc (u k) else acc) zeros16.

Lemma xor_sum_block n c u : (forall k, (k < n)%nat -> is_block (u k)) -> is_block (xor_sum n c u).
Proof.
  intros H. unfold xor_sum. apply (for_up_inv (fun _ => is_block)); [apply is_block_zeros|].
  intros i s Hi Hs. destruct (c i); [apply is_block_xor; auto|done].
Qed.

Lemma linear_sum f n c u : linear f -> (forall k, (k < n)%nat -> is_block (u k)) ->
  f (xor_sum n c u) = xor_sum n c (fun k => f (u k)).
Proof.
  intros Hf Hu. induction n as [|n IH]; [now apply linear_zeros|].
  unfold xor_sum in *. rewrite !for_up_S, <- IH by auto. destruct (c n); [|done].
  apply Hf; [|apply Hu; lia]. apply (xor_sum_block n c u). auto.
Qed.

(** A block is the sum of its bytes in place, a byte the sum of its bits. *)
Definition unit_block (i : nat) (x : Z) : list Z := <[i := x]> zeros16.

Lemma unit_block_block i x : is_byte x -> is_block (unit_block i x).
Proof.
  intros Hx. unfold unit_block. split; [|now rewrite length_insert].
  apply Forall_insert; [apply is_block_zeros|done].
Qed.

Lemma block_sum a : length a = 16%nat ->
  a = xor_sum 16 (fun _ => true) (fun i => unit_block i a.[i]).
Proof.
  intros H. do 16 (destruct a as [|? a]; [discriminate|]). destruct a; [|discriminate].
  cbn. now rewrite !Z.lxor_0_l, ?Z.lxor_0_r.
Qed.

Lemma unit_block_bits i y : (i < 16)%nat -> is_byte y ->
  unit_block i y = xor_sum 8 (fun k => Z.testbit y (Z.of_nat k)) (fun k => unit_block i (2 ^ Z.of_nat k)).
Proof.
  intros Hi [H0 Hy].
  assert (H : all_below 16 (fun i => all_below 256 (fun y => bool_decide (
    unit_block i (Z.of_nat y) = xor_sum 8 (fun k => Z.testbit (Z.of_nat y) (Z.of_nat k))
      (fun k => unit_block i (2 ^ Z.of_nat k))))) = true) by (vm_compute; reflexivity).
  apply all_below_spec with (i := i) in H; [|done].
  apply all_below_spec with (i := Z.to_nat y) in H; [|change (2 ^ 8) with 256 in Hy; lia].
  apply bool_decide_eq_true in H. now rewrite Z2Nat.id in H.
Qed.

(** ** The tables of a linear map after a substitution *)

Section TableCheck.
Context (f : list Z -> list Z) (Hf : linear f).
Context (box : list Z) (Hbox : forall x, is_byte x -> is_byte box.[Z.to_nat x]).
Context (tl tr : list (list Z)).

Definition entry (i : nat) (x : Z) : list Z :=
  be_split 8 (table_at tl i x) ++ be_split 8 (table_at tr i x).

(** The test that the two halves of the table hold [f] of the substituted byte in place. *)
Definition table_ok : bool :=
  all_below 16 (fun i =>
    let basis := (fun k => f (unit_block i (2 ^ Z.of_nat k))) <$> seq 0 8 in
    all_below 256 (fun x => bool_decide (entry i (Z.of_nat x) =
      xor_sum 8 (fun k => Z.testbit box.[x] (Z.of_nat k)) (fun k => nth k basis [])))).

Context (Hok : table_ok = true).

Lemma entry_spec i x : (i < 16)%nat -> is_byte x ->
  entry i x = f (unit_block i box.[Z.to_nat x]).
Proof.
  intros Hi Hx. pose proof Hok as H. unfold table_ok in H.
  apply all_below_spec with (i := i) in H; [|done]. cbv zeta in H.
  apply all_below_spec with (i := Z.to_nat x) in H;
    [|destruct Hx as [? Hx]; change (2 ^ 8) with 256 in Hx; lia].
  apply bool_decide_eq_true in H. rewrite Z2Nat.id in H by apply Hx. rewrite H.
  rewrite (unit_block_bits i) by auto. rewrite linear_sum.
  - unfold xor_sum. apply for_up_ext. intros k acc Hk. now rewrite nth_fmap_seq.
  - done.
  - intros k Hk. apply unit_block_block. split; [lia|]. apply Z.pow_lt_mono_r; lia.
Qed.

Lemma apply_table_sum n input :
  le_split 8 (for_up n (fun i w => w ^^ asQWord (table_at tl i input.[i])) 0) ++
  le_split 8 (for_up n (fun i w => w ^^ asQWord (table_at tr i input.[i])) 0) =
  xor_sum n (fun _ => true) (fun i => entry i input.[i]).
Proof.
  unfold xor_sum. induction n as [|n IH]; [reflexivity|].
  rewrite !for_up_S, !le_split_lxor, <- IH. unfold entry, asQWord.
  rewrite xor_list_app by now rewrite !length_le_split. now rewrite !le_split_bswap64.
Qed.

Lemma apply_tables_spec input : is_block input ->
  words_to_bytes [apply_table tl input; apply_table tr input] =
  f ((fun x => box.[Z.to_nat x]) <$> input).
Proof.
  intros [Hb Hl]. rewrite !words_to_bytes_cons, app_nil_r. unfold apply_table.
  rewrite apply_table_sum. set (sub := _ <$> input).
  assert (Hsl : length sub = 16%nat) by (unfold sub; now rewrite length_fmap).
  assert (Hbyte : forall i, is_byte input.[i]) by (intros; apply Forall_nth_Z; auto with words).
  assert (Hsub : forall i, (i < 16)%nat -> sub.[i] = box.[Z.to_nat input.[i]])
    by (intros i Hi; apply (nth_fmap_lt (fun x => box.[Z.to_nat x])); lia).
  rewrite (block_sum sub Hsl), linear_sum; [|done|].
  - unfold xor_sum. apply for_up_ext. intros i acc Hi.
    now rewrite entry_spec, Hsub by auto.
  - intros i Hi. apply unit_block_block. rewrite Hsub by done. auto.
Qed.
End TableCheck.

(** ** The linear layer *)

Lemma l_xor a b : length a = length b -> l (xor_list a b) = l a ^^ l b.
Proof.
  intros H. unfold l. rewrite <- for_up_lxor_add. apply for_up_ext. intros i r Hi.
  rewrite nth_xor_list by done. f_equal. apply gf_mul_lxor.
Qed.

Lemma l_byte a : is_byte (l a).
Proof.
  unfold l. apply (for_up_inv (fun _ r => is_byte r)); [by_eval|].
  intros i r Hi Hr. apply in_word_lxor; [lia|done|].
  apply gf_mul_byte; [lia|]. revert i Hi. apply (Forall_nth_lt _ l_coef). by_eval.
Qed.

(** The coefficient of the last byte is one. *)
Lemma l_snoc t x : length t = 15%nat -> is_byte x -> l (t ++ [x]) = l (t ++ [0]) ^^ x.
Proof.
  intros Ht [H0 Hx].
  assert (H1 : gmul 1 x = x).
  { assert (H : all_below 256 (fun x => gmul 1 (Z.of_nat x) =? Z.of_nat x) = true) by reflexivity.
    apply all_below_spec with (i := Z.to_nat x) in H; [|change (2 ^ 8) with 256 in Hx; lia].
    rewrite Z2Nat.id in H by done. now apply Z.eqb_eq. }
  assert (Hn : forall y, (t ++ [y]).[15] = y)
    by (intros; rewrite app_nth2, Ht by lia; reflexivity).
  assert (E : forall y, for_up 15 (fun i r => r ^^ gmul l_coef.[i] (t ++ [y]).[i]) 0 =
    for_up 15 (fun i r => r ^^ gmul l_coef.[i] t.[i]) 0).
  { intros y. apply for_up_ext. intros i r Hi. now rewrite app_nth1 by lia. }
  unfold l. rewrite !(for_up_S 15), !E, !Hn. change l_coef.[15] with 1.
  now rewrite H1, gf_mul_0_r, Z.lxor_0_r.
Qed.

Lemma R_linear : linear R.
Proof.
  split; unfold R.
  - intros a [Ha Hl]. split; [|simpl; rewrite length_take; lia].
    constructor; [apply l_byte|now apply Forall_take].
  - intros a b [Ha Hla] [Hb Hlb]. rewrite l_xor, take_xor_list by lia. reflexivity.
Qed.

Lemma nth_bytes a i : bytes a -> is_byte a.[i].
Proof. intros. apply Forall_nth_Z; auto with words. Qed.

Lemma R_inv_linear : linear R_inv.
Proof.
  split; unfold R_inv.
  - intros a [Ha Hl]. split; [|rewrite length_app, length_drop; simpl; lia].
    apply Forall_app; split; [now apply Forall_drop|]. constructor; [apply l_byte|constructor].
  - intros a b [Ha Hla] [Hb Hlb].
    rewrite nth_xor_list, drop_xor_list by lia.
    change [a.[0] ^^ b.[0]] with (xor_list [a.[0]] [b.[0]]).
    rewrite <- xor_list_app, l_xor by (rewrite ?length_app, ?length_drop; simpl; lia).
    rewrite xor_list_app by (rewrite !length_drop; lia). reflexivity.
Qed.

Lemma R_inv_R a : is_block a -> R_inv (R a) = a.
Proof.
  intros [Ha Hl]. unfold R_inv, R. cbn [drop nth]. rewrite drop_0.
  assert (Ea : a = take 15 a ++ [a.[15]]).
  { rewrite <- (take_drop 15 a) at 1. f_equal. rewrite drop_nth, drop_ge by lia. done. }
  assert (Ht : length (take 15 a) = 15%nat) by (rewrite length_take; lia).
  rewrite (l_snoc _ (l a)) by (done || apply l_byte).
  replace (l a) with (l (take 15 a ++ [0]) ^^ a.[15]).
  - now rewrite lxor_cancel_l, <- Ea.
  - transitivity (l (take 15 a ++ [a.[15]])); [|now rewrite <- Ea].
    symmetry. apply l_snoc; [done|now apply nth_bytes].
Qed.

Lemma R_R_inv a : is_block a -> R (R_inv a) = a.
Proof.
  intros [Ha Hl]. unfold R, R_inv.
  assert (Ht : length (drop 1 a) = 15%nat) by (rewrite length_drop; lia).
  rewrite (l_snoc _ (l _)) by (done || apply l_byte).
  rewrite (l_snoc _ a.[0]) by (done || now apply nth_bytes).
  rewrite lxor_cancel_l, take_app_length' by done.
  symmetry. apply (drop_nth a 0). lia.
Qed.

Lemma iter_cancel n (f g : list Z -> list Z) a :
  (forall a, is_block a -> is_block (f a)) -> (forall a, is_block a -> g (f a) = a) ->
  is_block a -> Nat.iter n g (Nat.iter n f a) = a.
Proof.
  intros Hb Hgf. revert a. induction n as [|n IH]; intros a Ha; [done|].
  rewrite Nat.iter_succ_r. simpl. rewrite Hgf; [auto|]. clear IH.
  induction n; simpl; auto.
Qed.

Lemma L_linear : linear L. Proof. apply linear_iter, R_linear. Qed.
Lemma L_inv_linear : linear L_inv. Proof. apply linear_iter, R_inv_linear. Qed.

Lemma L_inv_L a : is_block a -> L_inv (L a) = a.
Proof. apply iter_cancel; [apply R_linear|apply R_inv_R]. Qed.
Lemma L_L_inv a : is_block a -> L (L_inv a) = a.
Proof. apply iter_cancel; [apply R_inv_linear|apply R_R_inv]. Qed.

(** ** The substitution *)

Lemma box_check : all_below 256 (fun x =>
  (InversedPi.[Z.to_nat Pi.[x]] =? Z.of_nat x) && (Pi.[Z.to_nat InversedPi.[x]] =? Z.of_nat x) &&
  bool_decide (is_byte Pi.[x]) && bool_decide (is_byte InversedPi.[x])) = true.
Proof. vm_compute. reflexivity. Qed.

Lemma box_spec x : is_byte x ->
  InversedPi.[Z.to_nat Pi.[Z.to_nat x]] = x /\ Pi.[Z.to_nat InversedPi.[Z.to_nat x]] = x /\
  is_byte Pi.[Z.to_nat x] /\ is_byte InversedPi.[Z.to_nat x].
Proof.
  intros [H0 Hx]. pose proof box_check as H.
  apply all_below_spec with (i := Z.to_nat x) in H; [|change (2 ^ 8) with 256 in Hx; lia].
  rewrite Z2Nat.id in H by done. rewrite !andb_true_iff, !Z.eqb_eq in H.
  destruct H as (((H1 & H2) & H3) & H4). apply bool_decide_eq_true in H3, H4. auto.
Qed.

Lemma Sub_block a : is_block a -> is_block (Sub a).
Proof.
  intros [Ha Hl]. split; [|unfold Sub; now rewrite length_fmap].
  apply Forall_fmap. eapply Forall_impl; [|exact Ha]. intros x Hx. now apply box_spec.
Qed.

Lemma Sub_inv_block a : is_block a -> is_block (Sub_inv a).
Proof.
  intros [Ha Hl]. split; [|unfold Sub_inv; now rewrite length_fmap].
  apply Forall_fmap. eapply Forall_impl; [|exact Ha]. intros x Hx. now apply box_spec.
Qed.

Lemma Sub_inv_Sub a : bytes a -> Sub_inv (Sub a) = a.
Proof.
  unfold Sub, Sub_inv. induction 1 as [|x a Hx Ha IH]; [done|].
  cbn [fmap list_fmap]. f_equal; [now apply box_spec|exact IH].
Qed.

(** ** The tables *)

Lemma LS_tables_ok : table_ok L Pi precomputedLSTableLeft precomputedLSTableRight = true.
Proof. vm_compute. reflexivity. Qed.

Lemma InversedLS_tables_ok :
  table_ok L_inv InversedPi precomputedInversedLSTableLeft precomputedInversedLSTableRight = true.
Proof. vm_compute. reflexivity. Qed.

Lemma Pi_byte x : is_byte x -> is_byte Pi.[Z.to_nat x].
Proof. intros Hx. now apply box_spec. Qed.
Lemma InversedPi_byte x : is_byte x -> is_byte InversedPi.[Z.to_nat x].
Proof. intros Hx. now apply box_spec. Qed.

#[local] Opaque L L_inv.

Lemma applyLS_spec a : is_block a -> words_to_bytes (applyLSTransformation a) = L (Sub a).
Proof.
  intros H. unfold applyLSTransformation, Sub.
  exact (apply_tables_spec L L_linear Pi Pi_byte _ _ LS_tables_ok a H).
Qed.

Lemma applyInversedLS_spec a : is_block a ->
  words_to_bytes (applyInversedLSTransformation a) = L_inv (Sub_inv a).
Proof.
  intros H. unfold applyInversedLSTransformation, Sub_inv.
  exact (apply_tables_spec L_inv L_inv_linear InversedPi InversedPi_byte _ _
    InversedLS_tables_ok a H).
Qed.

(** ** The block functions *)

Section Memory.
Context (m0 : list Z) (rk data : nat).

(** The block and the round keys are apart, inside the memory. *)
Context (Hm0 : bytes m0) (Hrk : (rk + 160 <= length m0)%nat)
  (Hdata : (data + 16 <= length m0)%nat)
  (Hapart : (rk + 160 <= data \/ data + 16 <= rk)%nat).

Definition key (n : nat) : list Z := mem_read m0 (rk + 16 * n) 16.

Lemma key_block n : (n < 10)%nat -> is_block (key n).
Proof. intros Hn. split; [now apply Forall_mem_read|apply length_mem_read; lia]. Qed.

(** The memory in the middle of a computation: the block is [b]. *)
Definition with_block (b : list Z) : list Z := mem_write m0 data b.

Lemma with_block_bytes b : bytes b -> bytes (with_block b).
Proof. intros. now apply Forall_mem_write. Qed.

Lemma length_with_block b : length b = 16%nat -> length (with_block b) = length m0.
Proof. intros H. apply length_mem_write. lia. Qed.

Lemma write_with_block b b' : length b = 16%nat -> length b' = 16%nat ->
  mem_write (with_block b) data b' = with_block b'.
Proof. intros Hb Hb'. apply mem_write_write; lia. Qed.

Lemma load_load a b i j : bytes a -> bytes b -> (i + 8 <= length a)%nat -> (j + 8 <= length b)%nat ->
  le_split 8 (load64_le a i ^^ load64_le b j) = xor_list (mem_read a i 8) (mem_read b j 8).
Proof.
  intros Ha Hb Hi Hj. rewrite le_split_lxor. unfold load64_le.
  f_equal; [rewrite <- (length_mem_read a i 8) at 1 by done|
    rewrite <- (length_mem_read b j 8) at 1 by done];
    now apply le_split_combine, Forall_mem_read.
Qed.

(** The words of the block xor those of a round key. *)
Lemma xor_words b n : is_block b -> (n < 10)%nat ->
  words_to_bytes [load64_le (with_block b) data ^^ key_word (with_block b) rk (2 * n);
    load64_le (with_block b) (data + 8) ^^ key_word (with_block b) rk (2 * n + 1)] =
  X (key n) b.
Proof.
  intros [Hb Hl] Hn. unfold key_word. pose proof (with_block_bytes b Hb) as Hw.
  pose proof (length_with_block b Hl) as Hwl.
  rewrite !words_to_bytes_cons, app_nil_r, !load_load by (done || lia).
  rewrite <- xor_list_app by (rewrite !length_mem_read; lia).
  rewrite <- mem_read_add. replace (rk + 8 * (2 * n + 1))%nat with (rk + 8 * (2 * n) + 8)%nat by lia.
  rewrite <- mem_read_add. unfold X, with_block. f_equal.
  - apply mem_read_write_len; lia.
  - unfold key. replace (rk + 8 * (2 * n))%nat with (rk + 16 * n)%nat by lia.
    apply mem_read_write_other; lia.
Qed.

Lemma X_block k a : is_block k -> is_block a -> is_block (X k a).
Proof. intros. now apply is_block_xor. Qed.

Lemma encrypt_round_spec b n : is_block b -> (n < 10)%nat ->
  encrypt_round rk data n (with_block b) = with_block (L (Sub (X (key n) b))).
Proof.
  intros Hb Hn. unfold encrypt_round, store_words. rewrite xor_words by done.
  pose proof (X_block (key n) b (key_block n Hn) Hb) as Hx.
  rewrite applyLS_spec by done. apply write_with_block; [apply Hb|].
  apply L_linear, Sub_block, Hx.
Qed.

Lemma xor_key_spec b n : is_block b -> (n < 10)%nat ->
  xor_key rk data n (with_block b) = with_block (X (key n) b).
Proof.
  intros Hb Hn. unfold xor_key, store_words. pose proof (length_with_block b (proj2 Hb)) as Hwl.
  set (w0 := load64_le (with_block b) data ^^ key_word (with_block b) rk (2 * n)).
  assert (Hl0 : length (words_to_bytes [w0]) = 8%nat) by apply length_words_to_bytes.
  assert (E1 : load64_le (mem_write (with_block b) data (words_to_bytes [w0])) (data + 8) =
    load64_le (with_block b) (data + 8)).
  { unfold load64_le. f_equal. apply mem_read_write_other; lia. }
  assert (E2 : key_word (mem_write (with_block b) data (words_to_bytes [w0])) rk (2 * n + 1) =
    key_word (with_block b) rk (2 * n + 1)).
  { unfold key_word, load64_le. f_equal. apply mem_read_write_other; lia. }
  rewrite E1, E2. set (w1 := load64_le _ (data + 8) ^^ key_word _ rk (2 * n + 1)).
  replace (data + 8)%nat with (data + length (words_to_bytes [w0]))%nat by lia.
  rewrite mem_write_app by (rewrite ?length_words_to_bytes; simpl; lia).
  rewrite <- words_to_bytes_app. cbn [app]. unfold w0, w1. rewrite xor_words by done.
  apply write_with_block; [apply Hb|]. apply X_block; [now apply key_block|done].
Qed.

Lemma encrypt_spec : encryptBlockWithGost15 m0 rk data =
  with_block (std_encrypt key (mem_read m0 data 16)).
Proof.
  unfold encryptBlockWithGost15, std_encrypt. set (b := mem_read m0 data 16).
  assert (Hb : is_block b).
  { split; [now apply Forall_mem_read|apply length_mem_read; lia]. }
  assert (E0 : m0 = with_block b) by (symmetry; apply mem_write_read; lia).
  assert (I : forall n, (n <= 9)%nat ->
    for_up n (encrypt_round rk data) m0 =
      with_block (for_up n (fun i a => L (Sub (X (key i) a))) b) /\
    is_block (for_up n (fun i a => L (Sub (X (key i) a))) b)).
  { induction n as [|n IH]; intros Hn; [done|]. destruct IH as [E HB]; [lia|].
    rewrite !for_up_S, E, encrypt_round_spec by (done || lia). split; [done|].
    apply L_linear, Sub_block, X_block; [apply key_block; lia|done]. }
  change (NumberOfRounds - 1)%nat with 9%nat.
  destruct (I 9%nat) as [-> HB]; [lia|]. apply xor_key_spec; [done|lia].
Qed.

(** Decryption: the inner keys are the images under the inverse of L. *)
Context (ks : nat -> list Z) (Hks : forall n, (n < 10)%nat -> is_block (ks n)).
Context (Hk0 : key 0 = ks 0) (Hk9 : key 9 = ks 9%nat)
  (Hki : forall n, (1 <= n <= 8)%nat -> key n = L_inv (ks n)).

Definition dec_step (n : nat) (a : list Z) : list Z := X (ks n) (Sub_inv (L_inv a)).

Lemma dec_step_block n a : (n < 10)%nat -> is_block a -> is_block (dec_step n a).
Proof. intros Hn Ha. apply X_block; [auto|]. now apply Sub_inv_block, L_inv_linear. Qed.

Lemma decrypt_round_spec n a cache b : (1 <= n <= 8)%nat -> is_block a -> length b = 16%nat ->
  words_to_bytes cache = L_inv a ->
  exists cache' b', decrypt_round rk data n (cache, with_block b) = (cache', with_block b') /\
    words_to_bytes cache' = L_inv (dec_step n a) /\ length b' = 16%nat.
Proof.
  intros Hn Ha Hb Hc. pose proof (Sub_inv_block _ (proj1 L_inv_linear a Ha)) as Hs.
  pose proof (proj1 L_inv_linear _ Hs) as Hls.
  assert (HcB : is_block (words_to_bytes cache)) by (rewrite Hc; now apply L_inv_linear).
  unfold decrypt_round, store_words.
  rewrite applyInversedLS_spec, Hc, write_with_block by (done || apply Hls).
  eexists _, _. split; [reflexivity|]. split; [|apply Hls].
  rewrite xor_words by (done || lia). rewrite Hki by done. unfold dec_step, X.
  symmetry. apply L_inv_linear; [done|apply Hks; lia].
Qed.

Lemma applyS_Sub a : is_block a -> applySTransformation a = Sub a.
Proof.
  intros [_ Hl]. unfold applySTransformation, BlockLengthInBytes. rewrite <- Hl.
  apply (for_up_map (fun x => Pi.[Z.to_nat x])).
Qed.

Lemma applyInversedS_Sub a : is_block a -> applyInversedSTransformation a = Sub_inv a.
Proof.
  intros [_ Hl]. unfold applyInversedSTransformation, BlockLengthInBytes. rewrite <- Hl.
  apply (for_up_map (fun x => InversedPi.[Z.to_nat x])).
Qed.

(** The last two stores. *)
Lemma final_xor a b : is_block a -> length b = 16%nat ->
  let cache := bytes_to_words 2 a in
  let m := store_words (with_block b) data [cache.[0] ^^ key_word (with_block b) rk 0] in
  store_words m (data + 8) [cache.[1] ^^ key_word m rk 1] = with_block (X (key 0) a).
Proof.
  intros [Ha Hl] Hb cache m. pose proof (length_with_block b Hb) as Hwl.
  set (w0 := cache.[0] ^^ key_word (with_block b) rk 0) in *.
  assert (Hl0 : length (words_to_bytes [w0]) = 8%nat) by apply length_words_to_bytes.
  assert (EK : forall n i, (i + 8 <= rk + 160)%nat -> (rk <= i)%nat -> length n = 8%nat ->
    load64_le (mem_write (with_block b) data n) i = load64_le m0 i).
  { intros n i Hi1 Hi2 Hn. unfold load64_le, with_block. f_equal.
    rewrite !mem_read_write_other by (rewrite ?length_mem_write; lia). done. }
  assert (E2 : key_word m rk 1 = load64_le m0 (rk + 8)) by (apply EK; lia).
  assert (E0 : key_word (with_block b) rk 0 = load64_le m0 (rk + 0)).
  { unfold key_word, load64_le, with_block. f_equal. apply mem_read_write_other; lia. }
  rewrite E2. unfold m, store_words.
  replace (data + 8)%nat with (data + length (words_to_bytes [w0]))%nat by lia.
  rewrite mem_write_app by (rewrite ?length_words_to_bytes; simpl; lia).
  rewrite write_with_block by (rewrite ?length_app, ?length_words_to_bytes; done). f_equal.
  unfold w0, X, key. rewrite <- words_to_bytes_app. cbn [app].
  rewrite E0, !words_to_bytes_cons, app_nil_r.
  change (cache.[0]) with (load64_le a 0). change (cache.[1]) with (load64_le a 8).
  rewrite !load_load by (done || lia).
  rewrite <- xor_list_app by (rewrite !length_mem_read; lia).
  rewrite Nat.add_0_r, Nat.mul_0_r, Nat.add_0_r.
  rewrite <- (mem_read_add m0 rk 8 8).
  rewrite <- (mem_read_add a 0 8 8 : mem_read a 0 16 = mem_read a 0 8 ++ mem_read a 8 8).
  rewrite <- Hl at 1. now rewrite mem_read_all.
Qed.

Lemma decrypt_spec : decryptBlockWithGost15 m0 rk data =
  with_block (std_decrypt ks (mem_read m0 data 16)).
Proof.
  unfold decryptBlockWithGost15, std_decrypt. set (b := mem_read m0 data 16).
  change (NumberOfRounds - 1)%nat with 9%nat.
  assert (Hb : is_block b).
  { split; [now apply Forall_mem_read|apply length_mem_read; lia]. }
  assert (E0 : m0 = with_block b) by (symmetry; apply mem_write_read; lia).
  set (d0 := X (ks 9%nat) b).
  assert (EX : xor_key rk data 9 m0 = with_block d0).
  { rewrite E0 at 1. rewrite xor_key_spec, Hk9 by (done || lia). done. }
  rewrite !EX.
  assert (Hd0 : is_block d0) by (apply X_block; [apply Hks; lia|done]).
  assert (Hrd : forall c, length c = 16%nat -> mem_read (with_block c) data 16 = c)
    by (intros c Hc; apply mem_read_write_len; lia).
  assert (Hs0 : is_block (Sub d0)) by now apply Sub_block.
  rewrite (Hrd d0), applyS_Sub, write_with_block, Hrd by (done || apply Hd0 || apply Hs0).
  assert (Hc0 : words_to_bytes (applyInversedLSTransformation (Sub d0)) = L_inv d0).
  { rewrite applyInversedLS_spec, Sub_inv_Sub by (apply Hd0 || now apply Sub_block). done. }
  set (c0 := applyInversedLSTransformation (Sub d0)) in *.
  assert (I : forall n, (n <= 7)%nat -> exists cache b',
    for_up n (fun k => decrypt_round rk data (7 - k))
      (decrypt_round rk data 8 (c0, with_block (Sub d0))) = (cache, with_block b') /\
    words_to_bytes cache = L_inv (for_up (S n) (fun i => dec_step (8 - i)) d0) /\
    length b' = 16%nat /\ is_block (for_up (S n) (fun i => dec_step (8 - i)) d0)).
  { induction n as [|n IH]; intros Hn.
    - destruct (decrypt_round_spec 8 d0 c0 (Sub d0)) as (c & b' & E & Ec & Eb);
        [lia|done|now apply Sub_block|done|].
      exists c, b'. split; [exact E|]. do 2 (split; [done|]). apply dec_step_block; [lia|done].
    - destruct IH as (c & b' & E & Ec & Eb & HB); [lia|]. rewrite for_up_S, E.
      destruct (decrypt_round_spec (7 - n) _ c b' ltac:(lia) HB Eb Ec) as (c' & b'' & E' & Ec' & Eb').
      exists c', b''. split; [exact E'|]. rewrite for_up_S.
      replace (8 - S n)%nat with (7 - n)%nat by lia.
      do 2 (split; [done|]). apply dec_step_block; [lia|done]. }
  destruct (I 7%nat) as (c & b' & E & Ec & Eb & HB); [lia|].
  change (9 - 1)%nat with 8%nat. change (9 - 2)%nat with 7%nat. rewrite E, Ec.
  rewrite applyInversedS_Sub by now apply L_inv_linear.
  pose proof (Sub_inv_block _ (proj1 L_inv_linear _ HB)) as HF.
  rewrite (final_xor _ b' HF Eb), Hk0. f_equal.
Qed.
End Memory.

(** Decryption inverts encryption, in the standard. *)
Lemma std_decrypt_encrypt ks a : (forall n, (n < 10)%nat -> is_block (ks n)) -> is_block a ->
  std_decrypt ks (std_encrypt ks a) = a.
Proof.
  intros Hks Ha. unfold std_decrypt, std_encrypt.
  set (f := fun i a => L (Sub (X (ks i) a))).
  set (g := fun i a => X (ks (8 - i)%nat) (Sub_inv (L_inv a))).
  assert (HX : forall k b, is_block k -> is_block b -> X k (X k b) = b).
  { intros k b Hk Hb. apply xor_list_cancel. destruct Hk, Hb. lia. }
  assert (HB : forall n, (n <= 9)%nat -> is_block (for_up n f a)).
  { induction n as [|n IH]; intros Hn; [done|]. rewrite for_up_S.
    apply L_linear, Sub_block, X_block; [apply Hks; lia|apply IH; lia]. }
  rewrite HX by (apply Hks || apply HB; lia).
  assert (H : forall n, (n <= 9)%nat -> for_up n g (for_up 9 f a) = for_up (9 - n) f a).
  { induction n as [|n IH]; intros Hn; [done|]. rewrite for_up_S, IH by lia.
    replace (9 - n)%nat with (S (8 - n)) by lia. rewrite for_up_S. unfold f at 1, g.
    replace (9 - S n)%nat with (8 - n)%nat by lia.
    assert (Hx : is_block (X (ks (8 - n)%nat) (for_up (8 - n) f a)))
      by (apply X_block; [apply Hks; lia|apply HB; lia]).
    rewrite L_inv_L, Sub_inv_Sub, HX; [done|apply Hks; lia|apply HB; lia|apply Hx|].
    now apply Sub_block. }
  now rewrite H by lia.
Qed.

(** ** The key schedule *)

(** A pair of blocks as words, and as bytes. *)
Definition pair_rel (p q : list Z * list Z) : Prop :=
  (words 64 p.1 /\ length p.1 = 2%nat /\ words_to_bytes p.1 = q.1) /\
  (words 64 p.2 /\ length p.2 = 2%nat /\ words_to_bytes p.2 = q.2).

Lemma swapBlocks_spec a b : length a = length b -> swapBlocks a b = (b, a).
Proof.
  intros H. unfold swapBlocks. rewrite xor_list_cancel by done. f_equal.
  rewrite (xor_list_comm a b). now apply xor_list_cancel.
Qed.

Lemma constants_check : all_below 32 (fun i => bool_decide (
  be_split 8 roundConstantsLeft.[i] ++ be_split 8 roundConstantsRight.[i] = round_constant i /\
  is_block (round_constant i))) = true.
Proof. vm_compute. reflexivity. Qed.

Lemma constants_spec i : (i < 32)%nat ->
  be_split 8 roundConstantsLeft.[i] ++ be_split 8 roundConstantsRight.[i] = round_constant i /\
  is_block (round_constant i).
Proof.
  intros Hi. pose proof constants_check as H. apply all_below_spec with (i := i) in H; [|done].
  now apply bool_decide_eq_true in H.
Qed.

Lemma apply_table_word t a : in_word 64 (apply_table t a).
Proof.
  unfold apply_table. apply (for_up_inv (fun _ r => in_word 64 r)); [by_eval|].
  intros. unfold asQWord. auto with words.
Qed.

#[local] Opaque round_constant.

Lemma applyF_spec c p q : (c < 32)%nat -> pair_rel p q ->
  pair_rel (applyFTransformation c p.1 p.2) (feistel (round_constant c) q).
Proof.
  destruct p as [a b], q as [qa qb]. intros Hc Hpq. unfold pair_rel in Hpq. cbn [fst snd] in Hpq.
  destruct Hpq as ((Ha & Hla & <-) & (Hb & Hlb & <-)). cbn [fst snd]. destruct (constants_spec c Hc) as [Ec HC].
  assert (HA : is_block (words_to_bytes a)).
  { split; [auto with words|now rewrite length_words_to_bytes, Hla]. }
  assert (Et : words_to_bytes [a.[0] ^^ asQWord roundConstantsLeft.[c];
    a.[1] ^^ asQWord roundConstantsRight.[c]] = X (round_constant c) (words_to_bytes a)).
  { rewrite !words_to_bytes_cons, app_nil_r, !le_split_lxor. unfold asQWord.
    rewrite !le_split_bswap64, <- xor_list_app by (rewrite length_rev, !length_le_split; done).
    change (rev (le_split 8 ?x)) with (be_split 8 x). unfold X. rewrite <- Ec. f_equal.
    destruct a as [|a0 [|a1 [|? ?]]]; try discriminate.
    rewrite !words_to_bytes_cons. cbn [nth]. now rewrite app_nil_r. }
  unfold applyFTransformation. rewrite Et.
  set (x := X (round_constant c) (words_to_bytes a)) in *.
  assert (HX : is_block x) by now apply X_block.
  pose proof (applyLS_spec x HX) as EL.
  assert (Hw : words 64 (applyLSTransformation x))
    by (apply Forall_cons_2; [|apply Forall_singleton]; apply apply_table_word).
  assert (Hwl : length (applyLSTransformation x) = 2%nat) by reflexivity.
  set (t := applyLSTransformation x) in *. clearbody t.
  rewrite swapBlocks_spec by (rewrite length_xor_list, Hlb, Hwl, Hla; reflexivity).
  split; cbn [fst snd feistel].
  - split; [apply words_xor_list; [lia|exact Hb|exact Hw]|].
    split; [rewrite length_xor_list, Hlb, Hwl; reflexivity|].
    rewrite words_to_bytes_xor, EL by now rewrite Hlb, Hwl. apply xor_list_comm.
  - split; [exact Ha|]. split; [exact Hla|reflexivity].
Qed.

(** The pairs of round keys, as words. *)
Fixpoint word_pair (p : list Z * list Z) (k : nat) : list Z * list Z :=
  match k with
  | O => p
  | S k => for_up 8 (fun i p => applyFTransformation (8 * k + i) p.1 p.2) (word_pair p k)
  end.

Lemma for_up_rel {A B} (Rel : A -> B -> Prop) n (f : nat -> A -> A) (g : nat -> B -> B) a b :
  Rel a b -> (forall i a b, (i < n)%nat -> Rel a b -> Rel (f i a) (g i b)) ->
  Rel (for_up n f a) (for_up n g b).
Proof.
  intros H0 H. induction n as [|n IH]; [done|]. rewrite !for_up_S. apply H; [lia|].
  apply IH. intros; apply H; [lia|done].
Qed.

Lemma word_pair_spec p q k : (k <= 4)%nat -> pair_rel p q ->
  pair_rel (word_pair p k) (std_pair k q).
Proof.
  intros Hk H. induction k as [|k IH]; [done|]. cbn [word_pair std_pair].
  apply for_up_rel; [apply IH; lia|]. intros i p' q' Hi Hpq. apply applyF_spec; [lia|done].
Qed.

(** One step of the outer loop stores the next pair, leaving the others. *)
Lemma schedule_pair_spec next c K :
  (2 <= next)%nat -> (2 * next + 4 <= length K)%nat ->
  schedule_pair next c K =
  mem_write K (2 * next) (let p := for_up 8 (fun i p => applyFTransformation (c + i) p.1 p.2)
    (block_at K (next - 2), block_at K (next - 1)) in p.1 ++ p.2).
Proof.
  intros Hn Hl. unfold schedule_pair, NumberOfRoundsInKeySchedule.
  set (p0 := (block_at K (next - 2), block_at K (next - 1))).
  pose (f := fun i (p : list Z * list Z) => applyFTransformation (c + i) p.1 p.2).
  assert (I : forall n, (n <= 8)%nat -> let p := for_up n f p0 in
    for_up n (fun i K => let '(left_, right_) := applyFTransformation (c + i)
      (block_at K next) (block_at K (next + 1)) in
      mem_write (mem_write K (2 * next) left_) (2 * (next + 1)) right_)
      (mem_write K (2 * next) (mem_read K (2 * (next - 2)) 4)) =
    mem_write K (2 * next) (p.1 ++ p.2) /\ length p.1 = 2%nat /\ length p.2 = 2%nat).
  { induction n as [|n IH]; intros Hn8.
    - cbv zeta. rewrite !for_up_0. unfold p0. cbn [fst snd]. unfold block_at.
      rewrite !length_mem_read by lia. split; [|done].
      rewrite (mem_read_add K (2 * (next - 2)) 2 2 : mem_read K (2 * (next - 2)) 4 = _).
      do 3 f_equal. lia.
    - destruct IH as (E & E1 & E2); [lia|]. cbv zeta. rewrite !for_up_S, E.
      set (p := for_up n f p0) in *.
      change (f n p) with (applyFTransformation (c + n) p.1 p.2).
      assert (Eb1 : block_at (mem_write K (2 * next) (p.1 ++ p.2)) next = p.1).
      { unfold block_at. rewrite <- (mem_write_app K (2 * next) p.1 p.2) by lia.
        rewrite mem_read_write_other by (rewrite ?length_mem_write; lia).
        apply mem_read_write_len; lia. }
      assert (Eb2 : block_at (mem_write K (2 * next) (p.1 ++ p.2)) (next + 1) = p.2).
      { unfold block_at. rewrite <- (mem_write_app K (2 * next) p.1 p.2) by lia.
        replace (2 * (next + 1))%nat with (2 * next + length p.1)%nat by lia.
        apply mem_read_write_len; [rewrite length_mem_write; lia|done]. }
      rewrite Eb1, Eb2.
      assert (EL : length (applyFTransformation (c + n) p.1 p.2).1 = 2%nat /\
        length (applyFTransformation (c + n) p.1 p.2).2 = 2%nat).
      { unfold applyFTransformation. cbv zeta. rewrite swapBlocks_spec by
          (rewrite length_xor_list, E1, E2; done).
        cbn [fst snd]. rewrite length_xor_list, E2. done. }
      destruct (applyFTransformation (c + n) p.1 p.2) as [a b]. cbn [fst snd] in *.
      destruct EL as [ELa ELb]. split; [|done].
      replace (2 * (next + 1))%nat with (2 * next + length a)%nat by lia.
      rewrite mem_write_app by (rewrite length_mem_write; rewrite ?length_app; lia).
      apply mem_write_write; rewrite !length_app; lia. }
  destruct (I 8%nat) as (E & _); [lia|]. exact E.
Qed.

(** The two blocks of a stored pair. *)
Lemma block_at_pair K j a b : length a = 2%nat -> length b = 2%nat ->
  mem_read K (2 * (2 * j)) 4 = a ++ b -> block_at K (2 * j) = a /\ block_at K (2 * j + 1) = b.
Proof.
  intros Ha Hb E.
  pose proof (mem_read_add K (2 * (2 * j)) 2 2 : mem_read K (2 * (2 * j)) 4 = _) as E'.
  rewrite E in E'. unfold block_at. replace (2 * (2 * j + 1))%nat with (2 * (2 * j) + 2)%nat by lia.
  assert (Hl : length (mem_read K (2 * (2 * j)) 2) = 2%nat).
  { assert (length (a ++ b) <= length K - 2 * (2 * j))%nat.
    { rewrite <- E. unfold mem_read. rewrite length_take, length_drop. lia. }
    apply length_mem_read. rewrite length_app in *. lia. }
  apply app_inj_1 in E' as [-> ->]; [done|lia].
Qed.

Definition key_pair (key : list Z) : list Z * list Z :=
  let ws := bytes_to_words 4 (mem_read key 0 32) in (take 2 ws, drop 2 ws).

Lemma key_pair_rel key : bytes key -> length key = 32%nat ->
  pair_rel (key_pair key) (take 16 key, drop 16 key).
Proof.
  intros Hb Hl. unfold key_pair. replace (mem_read key 0 32) with key
    by (symmetry; rewrite <- Hl; apply mem_read_all).
  pose proof (words_bytes_to_words 4 key Hb) as Hw. pose proof (length_bytes_to_words 4 key) as Hwl.
  pose proof (words_bytes_round 4 key Hb Hl) as E. cbv zeta.
  set (ws := bytes_to_words 4 key) in *. clearbody ws.
  pose proof (mem_read_words_to_bytes ws 0 2) as E1. rewrite E in E1.
  pose proof (mem_read_words_to_bytes ws 2 2) as E2. rewrite E in E2.
  split; cbn [fst snd]; split.
  - now apply Forall_take.
  - split; [rewrite length_take; lia|]. symmetry. exact E1.
  - now apply Forall_drop.
  - split; [rewrite length_drop; lia|]. transitivity (words_to_bytes (mem_read ws 2 2)).
    + unfold mem_read. rewrite take_ge by (rewrite length_drop; lia). done.
    + rewrite <- E2. unfold mem_read. apply take_ge. rewrite length_drop, Hl. simpl. lia.
Qed.

(** The outer loop stores the pairs one after the other. *)
Lemma schedule_pairs_spec K1 p :
  (forall j, (j <= 4)%nat -> length (word_pair p j).1 = 2%nat /\ length (word_pair p j).2 = 2%nat) ->
  length K1 = 20%nat -> mem_read K1 0 4 = p.1 ++ p.2 ->
  forall k, (k <= 4)%nat ->
    let K := for_up k (fun k K => schedule_pair (2 + 2 * k) (8 * k) K) K1 in
    length K = 20%nat /\ forall j, (j <= k)%nat ->
      mem_read K (2 * (2 * j)) 4 = (word_pair p j).1 ++ (word_pair p j).2.
Proof.
  intros HP HL1 H1. induction k as [|k IH]; intros Hk; cbv zeta in *.
  - split; [exact HL1|]. intros j Hj. now replace j with 0%nat by lia.
  - destruct IH as [HL HI]; [lia|]. rewrite for_up_S. set (K := for_up k _ K1) in *.
    destruct (HP k ltac:(lia)) as [La Lb]. destruct (HP (S k) ltac:(lia)) as [La' Lb'].
    destruct (block_at_pair K k _ _ La Lb (HI k ltac:(lia))) as [E1 E2].
    rewrite schedule_pair_spec by lia. cbv zeta.
    replace (2 + 2 * k - 2)%nat with (2 * k)%nat by lia.
    replace (2 + 2 * k - 1)%nat with (2 * k + 1)%nat by lia.
    rewrite E1, E2, <- surjective_pairing.
    change (for_up 8 _ (word_pair p k)) with (word_pair p (S k)).
    assert (HL4 : length ((word_pair p (S k)).1 ++ (word_pair p (S k)).2) = 4%nat)
      by (rewrite length_app; lia).
    split; [rewrite length_mem_write; lia|]. intros j Hj.
    destruct (Nat.eq_dec j (S k)) as [->|Hne].
    + replace (2 * (2 * S k))%nat with (2 * (2 + 2 * k))%nat by lia.
      apply mem_read_write_len; lia.
    + rewrite mem_read_write_other by lia. apply HI. lia.
Qed.

Lemma schedule_spec K0 key : bytes key -> length key = 32%nat -> length K0 = 20%nat ->
  let K := scheduleEncryptionRoundKeysForGost15 K0 key in
  length K = 20%nat /\ forall n, (n < 10)%nat -> is_block (words_to_bytes (block_at K n)) /\
    words_to_bytes (block_at K n) = std_round_key key n.
Proof.
  intros Hb Hl HK0. pose proof (key_pair_rel key Hb Hl) as H0.
  set (p := key_pair key) in *.
  assert (HP : forall j, (j <= 4)%nat -> pair_rel (word_pair p j) (std_pair j (take 16 key, drop 16 key)))
    by (intros; now apply word_pair_spec).
  unfold scheduleEncryptionRoundKeysForGost15, BlockLengthInBytes, NumberOfRoundsInKeySchedule.
  change ((NumberOfRounds - 2) / 2)%nat with 4%nat. change (16 * 2)%nat with 32%nat.
  set (K1 := mem_write K0 0 _).
  assert (H4 : length (bytes_to_words 4 (mem_read key 0 32)) = 4%nat)
    by apply length_bytes_to_words.
  destruct (schedule_pairs_spec K1 p) with (k := 4%nat) as [HL HI]; [| | |lia|].
  { intros j Hj. destruct (HP j Hj) as ((_ & La & _) & (_ & Lb & _)). done. }
  { unfold K1. rewrite length_mem_write; lia. }
  { unfold K1. rewrite mem_read_write_len by lia. symmetry. apply take_drop. }
  cbv zeta. split; [exact HL|]. intros n Hn.
  set (K := for_up 4 _ K1) in *. unfold std_round_key.
  assert (Hj : (n / 2 <= 4)%nat) by (apply Nat.lt_succ_r, Nat.Div0.div_lt_upper_bound; lia).
  pose proof (Nat.div_mod_eq n 2) as En. pose proof (Nat.mod_upper_bound n 2 ltac:(lia)) as Hm.
  destruct (HP (n / 2)%nat Hj) as ((_ & La & Ea) & (_ & Lb & Eb)).
  destruct (block_at_pair K (n / 2) _ _ La Lb (HI _ Hj)) as [E1 E2].
  destruct (Nat.eqb_spec (n mod 2) 0) as [E0|E0].
  - replace n with (2 * (n / 2))%nat at 1 2 by lia. rewrite E1. split; [|exact Ea].
    split; [auto with words|]. rewrite length_words_to_bytes. lia.
  - replace n with (2 * (n / 2) + 1)%nat at 1 2 by lia. rewrite E2. split; [|exact Eb].
    split; [auto with words|]. rewrite length_words_to_bytes. lia.
Qed.

Lemma decryption_schedule_spec K0 key : bytes key -> length key = 32%nat -> length K0 = 20%nat ->
  let K := scheduleDecryptionRoundKeysForGost15 K0 key in
  length K = 20%nat /\ forall n, (n < 10)%nat -> words_to_bytes (block_at K n) =
    if ((1 <=? n) && (n <=? 8))%nat then L_inv (std_round_key key n) else std_round_key key n.
Proof.
  intros Hb Hl HK0. destruct (schedule_spec K0 key Hb Hl HK0) as [HL HE].
  unfold scheduleDecryptionRoundKeysForGost15.
  set (K1 := scheduleEncryptionRoundKeysForGost15 K0 key) in *. clearbody K1.
  set (ks := std_round_key key) in *. clearbody ks.
  assert (I : forall m, (m <= 8)%nat ->
    let K := for_up m (fun k K => let roundKeyIndex := S k in
      let cache := applySTransformation (words_to_bytes (block_at K roundKeyIndex)) in
      mem_write K (2 * roundKeyIndex) (applyInversedLSTransformation cache)) K1 in
    length K = 20%nat /\ forall n, (n < 10)%nat -> words_to_bytes (block_at K n) =
      if ((1 <=? n) && (n <=? m))%nat then L_inv (ks n) else ks n).
  { induction m as [|m IH]; intros Hm.
    - split; [exact HL|]. intros n Hn. rewrite for_up_0. destruct n; now apply HE.
    - destruct IH as [HLK HI]; [lia|]. cbv zeta in *. rewrite for_up_S.
      set (K := for_up m _ K1) in *. clearbody K.
      destruct (HE (S m)) as [HB HBE]; [lia|]. rewrite HBE in HB.
      assert (Ec : words_to_bytes (block_at K (S m)) = ks (S m)).
      { rewrite HI by lia. destruct (Nat.leb_spec (S m) m); [lia|]. now rewrite andb_false_r. }
      rewrite Ec, applyS_Sub by done.
      pose proof (applyInversedLS_spec _ (Sub_block _ HB)) as EI.
      rewrite Sub_inv_Sub in EI by apply HB.
      assert (Hl2 : length (applyInversedLSTransformation (Sub (ks (S m)))) = 2%nat) by reflexivity.
      set (t := applyInversedLSTransformation _) in *. clearbody t.
      split; [rewrite length_mem_write; lia|]. intros n Hn. unfold block_at.
      destruct (Nat.eq_dec n (S m)) as [->|Hne].
      + rewrite mem_read_write_len by lia. destruct (Nat.leb_spec (S m) (S m)); [exact EI|lia].
      + rewrite mem_read_write_other by lia. change (mem_read K (2 * n) 2) with (block_at K n).
        rewrite HI by lia. destruct (Nat.leb_spec n m), (Nat.leb_spec n (S m)); done || lia. }
  exact (I 8%nat ltac:(lia)).
Qed.

(** Whether or not the round keys overlap the block, encryption only writes the block. *)
Lemma encryptBlock_shape m rk data : bytes m -> (data + 16 <= length m)%nat ->
  exists x, bytes x /\ length x = 16%nat /\ encryptBlockWithGost15 m rk data = mem_write m data x.
Proof.
  intros Hm Hd. unfold encryptBlockWithGost15.
  assert (I : exists x, bytes x /\ length x = 16%nat /\
    for_up (NumberOfRounds - 1) (encrypt_round rk data) m = mem_write m data x).
  { apply (for_up_inv (fun _ m' => exists x, bytes x /\ length x = 16%nat /\ m' = mem_write m data x)).
    - exists (mem_read m data 16). split; [now apply Forall_mem_read|].
      split; [now apply length_mem_read|]. symmetry. now apply mem_write_read.
    - intros i s Hi (x & Hx & Hl & ->). unfold encrypt_round, store_words.
      set (ws := applyLSTransformation _). assert (Hw : length (words_to_bytes ws) = 16%nat)
        by (rewrite length_words_to_bytes; reflexivity).
      clearbody ws. exists (words_to_bytes ws). split; [apply bytes_words_to_bytes|].
      split; [exact Hw|]. apply mem_write_write; lia. }
  destruct I as (x & Hx & Hl & ->). unfold xor_key, store_words.
  set (a := words_to_bytes [load64_le (mem_write m data x) data ^^ _]).
  set (b := words_to_bytes [load64_le (mem_write _ _ a) _ ^^ _]).
  assert (Ha : length a = 8%nat) by (unfold a; now rewrite length_words_to_bytes).
  assert (Hb : length b = 8%nat) by (unfold b; now rewrite length_words_to_bytes).
  assert (Hab : bytes (a ++ b)) by (apply Forall_app_2; apply bytes_words_to_bytes).
  clearbody a b. exists (a ++ b). split; [exact Hab|]. split; [rewrite length_app; lia|].
  replace (data + 8)%nat with (data + length a)%nat by lia.
  rewrite mem_write_app by (rewrite length_mem_write; lia).
  apply mem_write_write; rewrite ?length_app; lia.
Qed.

(** ** Properties *)

(** Round keys stored in memory. *)
Lemma key_of_memory m rk K n : mem_read m rk 160 = words_to_bytes K -> length K = 20%nat ->
  (n < 10)%nat -> key m rk n = words_to_bytes (block_at K n).
Proof.
  intros E HK Hn. unfold key, block_at.
  rewrite <- mem_read_words_to_bytes, <- E. change (8 * 2)%nat with 16%nat.
  replace (8 * (2 * n))%nat with (16 * n)%nat by lia. unfold mem_read at 2 3.
  rewrite skipn_firstn_comm, take_take, drop_drop. unfold mem_read. f_equal. lia.
Qed.

Lemma std_encrypt_ext ks ks' a : (forall n, (n < 10)%nat -> ks n = ks' n) ->
  std_encrypt ks a = std_encrypt ks' a.
Proof.
  intros H. unfold std_encrypt. rewrite H by lia. f_equal. apply for_up_ext.
  intros i b Hi. now rewrite H by lia.
Qed.

Lemma std_encrypt_block ks a : (forall n, (n < 10)%nat -> is_block (ks n)) -> is_block a ->
  is_block (std_encrypt ks a).
Proof.
  intros Hks Ha. unfold std_encrypt. apply X_block; [apply Hks; lia|].
  apply (for_up_inv (fun _ => is_block)); [done|]. intros i s Hi Hs.
  apply L_linear, Sub_block, X_block; [apply Hks; lia|done].
Qed.

Lemma std_decrypt_block ks a : (forall n, (n < 10)%nat -> is_block (ks n)) -> is_block a ->
  is_block (std_decrypt ks a).
Proof.
  intros Hks Ha. unfold std_decrypt.
  apply (for_up_inv (fun _ => is_block)); [apply X_block; [apply Hks; lia|done]|]. intros i s Hi Hs.
  apply X_block; [apply Hks; lia|]. now apply Sub_inv_block, L_inv_linear.
Qed.

Lemma matrices_check : all_below 16 (fun i => bool_decide (
  nth i LTransformationMatrix [] = L (unit_block i 1) /\
  nth i inversedLTransformationMatrix [] = L_inv (unit_block i 1))) = true.
Proof. vm_compute. reflexivity. Qed.

Lemma logarithms_check : all_below 255 (fun n => bool_decide (
  exponentialTable.[n] = Nat.iter n (gf_double 0x1c3) 1 /\
  logarithmicTable.[Z.to_nat exponentialTable.[n]] = Z.of_nat n)) = true.
Proof. vm_compute. reflexivity. Qed.

Lemma roundConstants_check : all_below 32 (fun i => bool_decide (
  mem_read roundConstants (16 * i) 16 = round_constant i)) = true.
Proof. vm_compute. reflexivity. Qed.

Lemma encryptBlock_std m rk data K0 k :
  bytes m -> (rk + 160 <= length m)%nat -> (data + 16 <= length m)%nat ->
  (rk + 160 <= data \/ data + 16 <= rk)%nat ->
  bytes k -> length k = 32%nat -> length K0 = 20%nat ->
  mem_read m rk 160 = words_to_bytes (scheduleEncryptionRoundKeysForGost15 K0 k) ->
  encryptBlockWithGost15 m rk data =
  mem_write m data (std_encrypt (std_round_key k) (mem_read m data 16)).
Proof.
  intros Hm Hrk Hd Ha Hk Hkl HK E. destruct (schedule_spec K0 k Hk Hkl HK) as [HL HE].
  rewrite encrypt_spec by done. unfold with_block. f_equal. apply std_encrypt_ext.
  intros n Hn. rewrite (key_of_memory m rk _ n E HL Hn). now apply HE.
Qed.

(** C32. With the scheduled round keys in memory, apart from the block, encryption replaces
    the block by its encryption with the cipher of the standard and changes nothing else. *)
Theorem encryptBlock_correct m rk data K0 k :
  bytes m -> (rk + 160 <= length m)%nat -> (data + 16 <= length m)%nat ->
  (rk + 160 <= data \/ data + 16 <= rk)%nat ->
  bytes k -> length k = 32%nat -> length K0 = 20%nat ->
  mem_read m rk 160 = words_to_bytes (scheduleEncryptionRoundKeysForGost15 K0 k) ->
  encryptBlockWithGost15 m rk data =
  mem_write m data (std_encrypt (std_round_key k) (mem_read m data 16)).
Proof. apply encryptBlock_std. Qed.

(** The example of the standard. *)
Definition gost_key : list Z :=
  be_split 32 0x8899aabbccddeeff0011223344556677fedcba98765432100123456789abcdef.
Definition gost_plain : list Z := be_split 16 0x1122334455667700ffeeddccbbaa9988.
Definition gost_memory : list Z :=
  words_to_bytes (scheduleEncryptionRoundKeysForGost15 (replicate 20 0) gost_key) ++ gost_plain.

Lemma encryptBlock_correct_witness :
  encryptBlockWithGost15 gost_memory 0 160 =
  mem_write gost_memory 160 (std_encrypt (std_round_key gost_key) (mem_read gost_memory 160 16)).
Proof.
  apply (encryptBlock_correct gost_memory 0 160 (replicate 20 0));
    [by_eval|vm_compute; lia|vm_compute; lia|left; lia|by_eval|reflexivity|reflexivity|].
  vm_compute. reflexivity.
Defined.

Example gost_vector : be_combine (drop 160 (encryptBlockWithGost15 gost_memory 0 160)) =
  0x7f679d90bebc24305a468d42b9d4edcd.
Proof. vm_compute. reflexivity. Qed.

(** *** Round keys followed by a block *)

Lemma keyed_block (r b : list Z) : length r = 160%nat -> length b = 16%nat ->
  mem_read (r ++ b) 160 16 = b /\ mem_read (r ++ b) 0 160 = r /\ length (r ++ b) = 176%nat /\
  forall b', length b' = 16%nat -> mem_write (r ++ b) 160 b' = r ++ b'.
Proof.
  intros Hr Hb. unfold mem_read. rewrite drop_app_length', take_ge, drop_0, take_app_length' by lia.
  split; [done|]. split; [done|]. split; [rewrite length_app; lia|]. intros b' Hb'.
  rewrite mem_write_full by (rewrite length_app; lia). now rewrite take_app_length'.
Qed.

Lemma bytes_keyed ws b : bytes b -> bytes (words_to_bytes ws ++ b).
Proof. intros Hb. apply Forall_app. split; [apply bytes_words_to_bytes|exact Hb]. Qed.

Lemma std_round_keys_blocks k : bytes k -> length k = 32%nat ->
  forall n, (n < 10)%nat -> is_block (std_round_key k n).
Proof.
  intros Hk Hkl n Hn.
  destruct (schedule_spec (replicate 20 0) k Hk Hkl eq_refl) as [_ HE].
  destruct (HE n Hn) as [HB <-]. exact HB.
Qed.

(** Decryption under a key schedule is that of the standard. *)
Lemma decryptBlock_std K1 k c : bytes k -> length k = 32%nat -> length K1 = 20%nat -> is_block c ->
  let dec := words_to_bytes (scheduleDecryptionRoundKeysForGost15 K1 k) in
  decryptBlockWithGost15 (dec ++ c) 0 160 = dec ++ std_decrypt (std_round_key k) c.
Proof.
  intros Hk Hkl HK1 Hc dec. destruct (decryption_schedule_spec K1 k Hk Hkl HK1) as [HLd HD].
  pose proof (std_round_keys_blocks k Hk Hkl) as Hks.
  assert (Hdl : length dec = 160%nat) by (unfold dec; rewrite length_words_to_bytes; lia).
  destruct (keyed_block dec c Hdl (proj2 Hc)) as (D1 & D2 & D3 & D4).
  assert (HKey : forall n, (n < 10)%nat -> key (dec ++ c) 0 n =
    if ((1 <=? n) && (n <=? 8))%nat then L_inv (std_round_key k n) else std_round_key k n).
  { intros n Hn. rewrite (key_of_memory _ 0 _ n D2 HLd Hn). now apply HD. }
  assert (Hki : forall n, (1 <= n <= 8)%nat -> key (dec ++ c) 0 n = L_inv (std_round_key k n)).
  { intros n Hn. rewrite HKey by lia.
    destruct (Nat.leb_spec 1 n), (Nat.leb_spec n 8); cbn [andb]; (reflexivity || lia). }
  assert (Hk0 : key (dec ++ c) 0 0 = std_round_key k 0)
    by (rewrite HKey by lia; cbn [Nat.leb andb]; reflexivity).
  assert (Hk9 : key (dec ++ c) 0 9 = std_round_key k 9)
    by (rewrite HKey by lia; cbn [Nat.leb andb]; reflexivity).
  pose proof (bytes_keyed _ c (proj1 Hc) : bytes (dec ++ c)) as Hb.
  pose proof (std_decrypt_block _ _ Hks Hc) as HB.
  clearbody dec. generalize dependent (std_round_key k). intros ks.
  set (m := dec ++ c) in *. clearbody m. intros.
  rewrite (decrypt_spec m 0 160) with (ks := ks); [|try assumption; try lia..].
  unfold with_block. rewrite D1. now apply D4, HB.
Qed.

(** Decryption with the decryption key schedule undoes encryption with the encryption
    key schedule, for every key and every block. *)
Theorem decryptBlock_encryptBlock K0 K1 k a :
  bytes k -> length k = 32%nat -> length K0 = 20%nat -> length K1 = 20%nat -> is_block a ->
  let enc := words_to_bytes (scheduleEncryptionRoundKeysForGost15 K0 k) in
  let dec := words_to_bytes (scheduleDecryptionRoundKeysForGost15 K1 k) in
  let c := drop 160 (encryptBlockWithGost15 (enc ++ a) 0 160) in
  length c = 16%nat /\ decryptBlockWithGost15 (dec ++ c) 0 160 = dec ++ a.
Proof.
  intros Hk Hkl HK0 HK1 Ha enc dec c. pose proof Ha as [Hab Hal].
  pose proof (std_round_keys_blocks k Hk Hkl) as Hks. destruct (schedule_spec K0 k Hk Hkl HK0) as [HLe _].
  assert (Hel : length enc = 160%nat) by (unfold enc; rewrite length_words_to_bytes; lia).
  destruct (keyed_block enc a Hel Hal) as (E1 & E2 & E3 & E4).
  pose proof (std_encrypt_block _ _ Hks Ha) as HC. set (ct := std_encrypt (std_round_key k) a) in *.
  assert (Ec : c = ct).
  { unfold c. rewrite (encryptBlock_std (enc ++ a) 0 160 K0 k (bytes_keyed _ _ Hab)
      ltac:(lia) ltac:(lia) ltac:(left; lia) Hk Hkl HK0 E2).
    rewrite E1, E4 by apply HC. fold ct. now apply drop_app_length'. }
  rewrite Ec. split; [apply HC|]. unfold dec. rewrite (decryptBlock_std K1 k ct Hk Hkl HK1 HC).
  unfold ct. now rewrite (std_decrypt_encrypt _ _ Hks Ha).
Qed.

Lemma decryptBlock_encryptBlock_witness :
  let enc := words_to_bytes (scheduleEncryptionRoundKeysForGost15 (replicate 20 0) gost_key) in
  let dec := words_to_bytes (scheduleDecryptionRoundKeysForGost15 (replicate 20 7) gost_key) in
  let c := drop 160 (encryptBlockWithGost15 (enc ++ gost_plain) 0 160) in
  length c = 16%nat /\ decryptBlockWithGost15 (dec ++ c) 0 160 = dec ++ gost_plain.
Proof. apply decryptBlock_encryptBlock; [by_eval|reflexivity|reflexivity|reflexivity|by_eval]. Defined.

(** Every entry of the precomputed tables is the image of a substituted byte under the
    linear layer (or its inverse), and the tables of shared/tables.c agree with the field,
    the linear layer and the constants of the standard. *)
Theorem tables_correct :
  (forall i x, (i < 16)%nat -> is_byte x ->
    be_split 8 (table_at precomputedLSTableLeft i x) ++
      be_split 8 (table_at precomputedLSTableRight i x) =
      L (unit_block i Pi.[Z.to_nat x]) /\
    be_split 8 (table_at precomputedInversedLSTableLeft i x) ++
      be_split 8 (table_at precomputedInversedLSTableRight i x) =
      L_inv (unit_block i InversedPi.[Z.to_nat x])) /\
  (forall x, is_byte x -> InversedPi.[Z.to_nat Pi.[Z.to_nat x]] = x /\
    Pi.[Z.to_nat InversedPi.[Z.to_nat x]] = x) /\
  (forall i, (i < 16)%nat -> nth i LTransformationMatrix [] = L (unit_block i 1) /\
    nth i inversedLTransformationMatrix [] = L_inv (unit_block i 1)) /\
  (forall n, (n < 255)%nat -> exponentialTable.[n] = Nat.iter n (gf_double 0x1c3) 1 /\
    logarithmicTable.[Z.to_nat exponentialTable.[n]] = Z.of_nat n) /\
  (forall i, (i < 32)%nat -> mem_read roundConstants (16 * i) 16 = round_constant i /\
    be_split 8 roundConstantsLeft.[i] ++ be_split 8 roundConstantsRight.[i] = round_constant i).
Proof.
  split; [|split; [|split; [|split]]].
  - intros i x Hi Hx. split.
    + exact (entry_spec L L_linear Pi Pi_byte _ _ LS_tables_ok i x Hi Hx).
    + exact (entry_spec L_inv L_inv_linear InversedPi InversedPi_byte _ _
        InversedLS_tables_ok i x Hi Hx).
  - intros x Hx. destruct (box_spec x Hx) as (H1 & H2 & _). done.
  - intros i Hi. pose proof matrices_check as H.
    apply all_below_spec with (i := i) in H; [|done]. now apply bool_decide_eq_true in H.
  - intros n Hn. pose proof logarithms_check as H.
    apply all_below_spec with (i := n) in H; [|done]. now apply bool_decide_eq_true in H.
  - intros i Hi. split; [|now apply constants_spec]. pose proof roundConstants_check as H.
    apply all_below_spec with (i := i) in H; [|done]. now apply bool_decide_eq_true in H.
Qed.

Lemma tables_correct_witness :
  be_split 8 (table_at precomputedLSTableLeft 3 7) ++
    be_split 8 (table_at precomputedLSTableRight 3 7) = L (unit_block 3 Pi.[Z.to_nat 7]).
Proof.
  assert (H3 : (3 < 16)%nat) by lia. assert (H7 : is_byte 7) by by_eval.
  exact (proj1 (proj1 tables_correct 3%nat 7 H3 H7)).
Defined.
