(* ===== verification/Threefish.v ===== *)
(** * Threefish: src/crypto/encryption/three_fish/libskein_skein.cc

    The tweakable block cipher of the second intermediate encryption function, for its
    three block sizes.  The file keeps the parameters of the current block size in
    static variables, which are the record [statics] here; [alloc n] is what the n words
    returned by [new uint64_t[n]] hold.  A pointer argument is the object it points to
    (the tests for null pointers are then false). *)

From S2P Require Import Prelude Words.

(** ** The source *)

Definition Pi_4 : list Z := [0; 3; 2; 1].
Definition Pi_8 : list Z := [2; 1; 4; 7; 6; 5; 0; 3].
Definition Pi_16 : list Z := [0; 9; 2; 13; 6; 11; 4; 15; 10; 7; 12; 3; 14; 5; 8; 1].
Definition RPi_4 : list Z := [0; 3; 2; 1].
Definition RPi_8 : list Z := [6; 1; 0; 7; 2; 5; 4; 3].
Definition RPi_16 : list Z := [0; 15; 2; 11; 6; 13; 4; 9; 14; 1; 8; 5; 10; 3; 12; 7].

Definition R_4 : list (list Z) :=
  [[14; 16]; [52; 57]; [23; 40]; [5; 37]; [25; 33]; [46; 12]; [58; 22]; [32; 32]].
Definition R_8 : list (list Z) :=
  [[46; 36; 19; 37]; [33; 27; 14; 42]; [17; 49; 36; 39]; [44; 9; 54; 56];
   [39; 30; 34; 24]; [13; 50; 10; 17]; [25; 29; 39; 43]; [8; 35; 56; 22]].
Definition R_16 : list (list Z) :=
  [[24; 13; 8; 47; 8; 17; 22; 37]; [38; 19; 10; 55; 49; 18; 23; 52];
   [33; 4; 51; 13; 34; 41; 59; 17]; [5; 20; 48; 41; 47; 28; 16; 25];
   [41; 9; 37; 31; 12; 47; 44; 30]; [16; 34; 56; 51; 4; 53; 42; 41];
   [31; 44; 47; 46; 19; 42; 44; 25]; [9; 48; 35; 52; 23; 31; 37; 20]].

(** The static variables. *)
Record statics := mk_statics { Pi : list Z; RPi : list Z; Nr : nat; Nw : nat }.
Definition initial_statics : statics := mk_statics [] [] 0 0.

(** [b & 0xff] for the signed [char] that the byte [x] is read as. *)
Definition char_of (x : Z) : Z := if x <? 128 then x else x - 256.

Definition bytesToWords (W bytes : list Z) (bytes_size : nat) : list Z :=
  if (bytes_size =? 0)%nat then W
  else for_up (bytes_size / 8) (fun i W =>
    let b := (fun j => char_of bytes.[i * 8 + j]) <$> seq 0 8 in
    <[i := (b.[0] .& 0xff) .| ((b.[1] .& 0xff) << 8) .| ((b.[2] .& 0xff) << 16)
           .| ((b.[3] .& 0xff) << 24) .| ((b.[4] .& 0xff) << 32) .| ((b.[5] .& 0xff) << 40)
           .| ((b.[6] .& 0xff) << 48) .| ((b.[7] .& 0xff) << 56)]> W) W.

(** The rotation distance, read from the table of the block size. *)
Definition rotation (d i block_size : nat) : Z :=
  if (block_size =? 256)%nat then (nth (d mod 8) R_4 []).[i]
  else if (block_size =? 512)%nat then (nth (d mod 8) R_8 []).[i]
  else (nth (d mod 8) R_16 []).[i].

Definition mix (x0 x1 : Z) (d i block_size : nat) : Z * Z :=
  let r := rotation d i block_size in
  let y0 := u64 (x0 + x1) in
  (y0, (u64 (x1 << r) .| (x1 >> (64 - r))) ^^ y0).

Definition mix_inverse (y0 y1 : Z) (d i block_size : nat) : Z * Z :=
  let r := rotation d i block_size in
  let x1 := ((y1 ^^ y0) >> r) .| u64 ((y1 ^^ y0) << (64 - r)) in
  (u64 (y0 - x1), x1).

Definition wordsToBytes (B words : list Z) (words_size : nat) : list Z :=
  if (words_size =? 0)%nat then B
  else for_up words_size (fun i B =>
    let w := words.[i] in
    mem_write B (i * 8)
      [u8 w; u8 ((w >> 8) .& 0xff); u8 ((w >> 16) .& 0xff); u8 ((w >> 24) .& 0xff);
       u8 ((w >> 32) .& 0xff); u8 ((w >> 40) .& 0xff); u8 ((w >> 48) .& 0xff);
       u8 ((w >> 56) .& 0xff)]) B.

Section Source.
Variable alloc : nat -> list Z.

(** The words [k] with the parity word, and the tweak words [t]. *)
Definition key_words (g : statics) (K : list Z) (P_size : nat) : list Z :=
  let k := bytesToWords (alloc (Nw g + 1)) K P_size in
  let kNw := for_up (Nw g) (fun i kNw => kNw ^^ k.[i]) 0x1bd11bdaa9fc1a22 in
  <[Nw g := kNw]> k.

Definition tweak_words (T : list Z) : list Z :=
  let t := bytesToWords (alloc 3) T 16 in
  <[2%nat := t.[0] ^^ t.[1]]> t.

(** The key schedule, row by row. *)
Definition schedule_row (Nw : nat) (k t : list Z) (d : nat) (row : list Z) : list Z :=
  for_up Nw (fun i row =>
    let row := <[i := k.[(d + i) mod (Nw + 1)]]> row in
    if (i =? Nw - 1)%nat then <[i := u64 (row.[i] + Z.of_nat d)]> row
    else if (i =? Nw - 2)%nat then <[i := u64 (row.[i] + t.[(d + 1) mod 3])]> row
    else if (i =? Nw - 3)%nat then <[i := u64 (row.[i] + t.[d mod 3])]> row
    else row) row.

Definition key_schedule (g : statics) (k t : list Z) : list (list Z) :=
  let s := (fun _ => alloc (Nw g)) <$> seq 0 (Nr g / 4 + 1) in
  for_up (Nr g / 4 + 1) (fun d s => <[d := schedule_row (Nw g) k t d (nth d s [])]> s) s.

Definition add_row (Nw : nat) (v row : list Z) : list Z :=
  for_up Nw (fun i v => <[i := u64 (v.[i] + row.[i])]> v) v.
Definition sub_row (Nw : nat) (v row : list Z) : list Z :=
  for_up Nw (fun i v => <[i := u64 (v.[i] - row.[i])]> v) v.

(** The body of the loop over [d] in threefish_encrypt ... *)
Definition encrypt_step (g : statics) (s : list (list Z)) (block_size d : nat) (v : list Z)
    : list Z :=
  let v := if (d mod 4 =? 0)%nat then add_row (Nw g) v (nth (d / 4) s []) else v in
  let f := for_up (Nw g / 2) (fun i f =>
    let '(y0, y1) := mix v.[i * 2] v.[i * 2 + 1] d i block_size in
    <[(i * 2 + 1)%nat := y1]> (<[(i * 2)%nat := y0]> f)) (alloc (Nw g)) in
  for_up (Nw g) (fun i v => <[i := f.[Z.to_nat (Pi g).[i]]]> v) v.

(** ... and in threefish_decrypt. *)
Definition decrypt_step (g : statics) (s : list (list Z)) (block_size d : nat) (v : list Z)
    : list Z :=
  let f := for_up (Nw g) (fun i f => <[i := v.[Z.to_nat (RPi g).[i]]]> f) (alloc (Nw g)) in
  let v := for_up (Nw g / 2) (fun i v =>
    let '(x0, x1) := mix_inverse f.[i * 2] f.[i * 2 + 1] d i block_size in
    <[(i * 2 + 1)%nat := x1]> (<[(i * 2)%nat := x0]> v)) v in
  if (d mod 4 =? 0)%nat then sub_row (Nw g) v (nth (d / 4) s []) else v.

(** [for(size_t d = Nr - 1;; d--) { ...; if(d == 0) break; }] *)
Fixpoint decrypt_steps (g : statics) (s : list (list Z)) (block_size d : nat) (v : list Z)
    : list Z :=
  let v := decrypt_step g s block_size d v in
  match d with O => v | Datatypes.S d => decrypt_steps g s block_size d v end.

Definition threefish_encrypt (g : statics) (E K T P : list Z) (P_size block_size : nat)
    : list Z :=
  if (P_size =? 0)%nat || (block_size =? 0)%nat then E
  else
    let v := bytesToWords (alloc (Nw g)) P P_size in
    let s := key_schedule g (key_words g K P_size) (tweak_words T) in
    let v := for_up (Nr g) (encrypt_step g s block_size) v in
    wordsToBytes E (add_row (Nw g) v (nth (Nr g / 4) s [])) (Nw g).

Definition threefish_decrypt (g : statics) (D K T C : list Z) (C_size block_size : nat)
    : list Z :=
  if (C_size =? 0)%nat || (block_size =? 0)%nat then D
  else
    let v := bytesToWords (alloc (Nw g)) C C_size in
    let s := key_schedule g (key_words g K C_size) (tweak_words T) in
    let v := sub_row (Nw g) v (nth (Nr g / 4) s []) in
    wordsToBytes D (decrypt_steps g s block_size (Nr g - 1) v) (Nw g).

(** The public functions: they set the static variables and return the new contents of
    the result. *)
Definition libskein_threefish_encrypt (g : statics) (E K T P : list Z)
    (P_size block_size : nat) : statics * list Z :=
  if (P_size =? 0)%nat || (block_size =? 0)%nat then (g, E)
  else
    let set Nr Nw Pi := let g := mk_statics Pi (RPi g) Nr Nw in
      (g, threefish_encrypt g E K T P P_size block_size) in
    if (block_size =? 256)%nat then set 72%nat 4%nat Pi_4
    else if (block_size =? 512)%nat then set 72%nat 8%nat Pi_8
    else if (block_size =? 1024)%nat then set 80%nat 16%nat Pi_16
    else (g, E).

Definition libskein_threefish_decrypt (g : statics) (D K T C : list Z)
    (C_size block_size : nat) : statics * list Z :=
  if (C_size =? 0)%nat || (block_size =? 0)%nat then (g, D)
  else
    let set Nr Nw RPi := let g := mk_statics (Pi g) RPi Nr Nw in
      (g, threefish_decrypt g D K T C C_size block_size) in
    if (block_size =? 256)%nat then set 72%nat 4%nat RPi_4
    else if (block_size =? 512)%nat then set 72%nat 8%nat RPi_8
    else if (block_size =? 1024)%nat then set 80%nat 16%nat RPi_16
    else (g, D).
End Source.

(** ** The specification of Threefish (The Skein Hash Function Family, section 3.3) *)

Record params := mk_params { p_w : nat; p_r : nat; p_perm : list nat; p_rot : nat -> nat -> Z }.

Definition threefish256 : params :=
  mk_params 4 72 [0; 3; 2; 1]%nat (fun d i => (nth (d mod 8) R_4 []).[i]).
Definition threefish512 : params :=
  mk_params 8 72 [2; 1; 4; 7; 6; 5; 0; 3]%nat (fun d i => (nth (d mod 8) R_8 []).[i]).
Definition threefish1024 : params :=
  mk_params 16 80 [0; 9; 2; 13; 6; 11; 4; 15; 10; 7; 12; 3; 14; 5; 8; 1]%nat
    (fun d i => (nth (d mod 8) R_16 []).[i]).

Definition add64 (a b : Z) : Z := wrap 64 (a + b).
Definition sub64 (a b : Z) : Z := wrap 64 (a - b).

(** The extended key and tweak. *)
Definition ext_key (k : list Z) : list Z := k ++ [fold_left Z.lxor k 0x1bd11bdaa9fc1a22].
Definition ext_tweak (t : list Z) : list Z := t ++ [t.[0] ^^ t.[1]].

(** Word [i] of the [s]-th subkey. *)
Definition subkey_word (w : nat) (k t : list Z) (s i : nat) : Z :=
  let ki := (ext_key k).[(s + i) mod (w + 1)] in
  if (i =? w - 3)%nat then add64 ki (ext_tweak t).[s mod 3]
  else if (i =? w - 2)%nat then add64 ki (ext_tweak t).[(s + 1) mod 3]
  else if (i =? w - 1)%nat then add64 ki (Z.of_nat s)
  else ki.
Definition subkey (w : nat) (k t : list Z) (s : nat) : list Z :=
  subkey_word w k t s <$> seq 0 w.

Definition MIX (r x0 x1 : Z) : Z * Z :=
  let y0 := add64 x0 x1 in (y0, rotl 64 x1 r ^^ y0).
Definition UNMIX (r y0 y1 : Z) : Z * Z :=
  let x1 := rotr 64 (y1 ^^ y0) r in (sub64 y0 x1, x1).

(** A function of pairs of words, applied to the successive pairs of a list. *)
Definition on_pairs (h : nat -> Z -> Z -> Z * Z) (n : nat) (v : list Z) : list Z :=
  mjoin ((fun i => let '(a, b) := h i v.[i * 2] v.[i * 2 + 1] in [a; b]) <$> seq 0 n).
Definition permute (perm : list nat) (f : list Z) : list Z := (fun i => f.[i]) <$> perm.

Definition round (p : params) (k t : list Z) (d : nat) (v : list Z) : list Z :=
  let e := if (d mod 4 =? 0)%nat then zip_with add64 v (subkey (p_w p) k t (d / 4)) else v in
  permute (p_perm p) (on_pairs (fun i => MIX (p_rot p d i)) (p_w p / 2) e).

Definition Threefish (p : params) (k t v : list Z) : list Z :=
  zip_with add64 (for_up (p_r p) (round p k t) v) (subkey (p_w p) k t (p_r p / 4)).

(** The block sizes that the public functions accept. *)
Definition block_params (block_size : nat) : option params :=
  if (block_size =? 256)%nat then Some threefish256
  else if (block_size =? 512)%nat then Some threefish512
  else if (block_size =? 1024)%nat then Some threefish1024
  else None.

(** ** Lemmas *)

(** *** Conversions *)

Lemma char_byte x : is_byte x -> char_of x .& 0xff = x.
Proof.
  intros Hx. change 0xff with (Z.ones 8). rewrite Z.land_ones by lia. unfold char_of.
  destruct (Z.ltb_spec x 128) as [H|H]; unfold in_word in Hx.
  - apply Z.mod_small. lia.
  - replace (x - 256) with (x + -1 * 2 ^ 8) by lia. rewrite Z.mod_add by lia.
    apply Z.mod_small. lia.
Qed.

Lemma take_S_nth (l : list Z) n : (n < length l)%nat ->
  take (Datatypes.S n) l = take n l ++ [l.[n]].
Proof.
  intros H. apply take_S_r. rewrite nth_lookup_def.
  now destruct (lookup_lt_is_Some_2 l n H) as [x ->].
Qed.

(** A loop that stores to the first elements of an array. *)
Lemma store_first n f (l : list Z) : (n <= length l)%nat ->
  for_up n (fun i l => <[i := f i]> l) l = (f <$> seq 0 n) ++ drop n l.
Proof.
  intros H. etransitivity; [exact (store_up l 0 f n ltac:(lia))|].
  unfold mem_write. now rewrite length_fmap_seq.
Qed.

Lemma store_all n f (l : list Z) : length l = n ->
  for_up n (fun i l => <[i := f i]> l) l = f <$> seq 0 n.
Proof. intros H. rewrite store_first, drop_ge by lia. apply app_nil_r. Qed.

(** A loop that rewrites every element of an array in place. *)
Lemma update_all n f (l : list Z) : length l = n ->
  for_up n (fun i l => <[i := f i l.[i]]> l) l = (fun i => f i l.[i]) <$> seq 0 n.
Proof.
  intros H. rewrite <- (store_all n (fun i => f i l.[i]) l H).
  assert (G : forall m, (m <= n)%nat ->
    for_up m (fun i l => <[i := f i l.[i]]> l) l =
    for_up m (fun i l' => <[i := f i l.[i]]> l') l); [|now apply G].
  induction m as [|m IH]; intros Hm; [done|]. rewrite !for_up_S, IH by lia. f_equal.
  rewrite store_first by lia.
  rewrite app_nth2, length_fmap_seq, nth_drop_add by (rewrite length_fmap_seq; lia).
  now rewrite Nat.sub_diag, Nat.add_0_r.
Qed.

Lemma load_word b m : bytes b -> (8 * m + 8 <= length b)%nat ->
  let c := (fun j => char_of b.[m * 8 + j]) <$> seq 0 8 in
  (c.[0] .& 0xff) .| ((c.[1] .& 0xff) << 8) .| ((c.[2] .& 0xff) << 16)
    .| ((c.[3] .& 0xff) << 24) .| ((c.[4] .& 0xff) << 32) .| ((c.[5] .& 0xff) << 40)
    .| ((c.[6] .& 0xff) << 48) .| ((c.[7] .& 0xff) << 56) = load64_le b (8 * m).
Proof.
  intros Hb Hm c. unfold c. rewrite !nth_fmap_seq by lia.
  rewrite !char_byte by (apply Forall_nth_Z; [done|apply in_word_0; lia]).
  unfold load64_le. replace (mem_read b (8 * m) 8) with ((fun j => b.[m * 8 + j]) <$> seq 0 8).
  - cbn [seq fmap list_fmap le_combine]. rewrite Z.shiftl_0_l, Z.lor_0_r, !Z.shiftl_lor.
    now rewrite !Z.shiftl_shiftl, !Z.lor_assoc by done.
  - apply (nth_ext_eq _ _ 0); rewrite length_fmap_seq; [now rewrite length_mem_read|].
    intros i Hi. rewrite nth_fmap_seq, nth_mem_read by done. f_equal. lia.
Qed.

Lemma bytesToWords_spec W b n : bytes b -> (0 < n)%nat -> (8 * n <= length b)%nat ->
  (n <= length W)%nat -> bytesToWords W b (8 * n) = bytes_to_words n b ++ drop n W.
Proof.
  intros Hb Hn Hl HW. unfold bytesToWords. destruct (Nat.eqb_spec (8 * n) 0); [lia|].
  rewrite (Nat.mul_comm 8 n), Nat.div_mul by lia.
  unfold bytes_to_words. rewrite <- store_first by done. apply for_up_ext. intros i W' Hi. f_equal.
  apply load_word; [done|lia].
Qed.

Lemma bytesToWords_all W b n : bytes b -> (0 < n)%nat -> (8 * n <= length b)%nat ->
  length W = n -> bytesToWords W b (8 * n) = bytes_to_words n b.
Proof.
  intros. rewrite bytesToWords_spec, drop_ge by lia || done. apply app_nil_r.
Qed.

Lemma wordsToBytes_spec B ws n : length ws = n -> (0 < n)%nat -> (8 * n <= length B)%nat ->
  wordsToBytes B ws n = mem_write B 0 (words_to_bytes ws).
Proof.
  intros Hw Hn HB. unfold wordsToBytes. destruct (Nat.eqb_spec n 0); [lia|].
  assert (G : forall m, (m <= n)%nat ->
    for_up m (fun i B => mem_write B (i * 8) (le_split 8 ws.[i])) B =
    mem_write B 0 (words_to_bytes (take m ws))).
  { induction m as [|m IH]; intros Hm; [symmetry; apply mem_write_nil; lia|].
    assert (Hlen : length (words_to_bytes (take m ws)) = (8 * m)%nat)
      by (rewrite length_words_to_bytes, length_take; lia).
    rewrite for_up_S, IH, take_S_nth, words_to_bytes_app by lia.
    rewrite <- mem_write_app by (rewrite Hlen, length_words_to_bytes; simpl; lia).
    rewrite Hlen, words_to_bytes_cons. cbn [words_to_bytes fmap list_fmap mjoin list_join].
    rewrite app_nil_r. f_equal. lia. }
  transitivity (mem_write B 0 (words_to_bytes (take n ws)));
    [|now rewrite firstn_all2 by lia].
  rewrite <- G by lia. apply for_up_ext. intros i s Hi. cbv zeta. f_equal.
  assert (Hu : forall x, u8 (x .& 0xff) = u8 x)
    by (intros x; apply (wrap_wrap 8); lia).
  cbn [le_split]. now rewrite !Hu, !Z.shiftr_shiftr by lia.
Qed.

(** *** Pairs of words *)

Section Pairs.
Variable h : nat -> Z * Z.

Definition pair_list (n : nat) : list Z :=
  mjoin ((fun i => let '(a, b) := h i in [a; b]) <$> seq 0 n).

Lemma length_pair_list n : length (pair_list n) = (n * 2)%nat.
Proof. apply length_mjoin_rows. intros i _. now destruct (h i). Qed.

Lemma pair_list_S n : pair_list (Datatypes.S n) = pair_list n ++ [(h n).1; (h n).2].
Proof.
  unfold pair_list. rewrite seq_S, fmap_app, join_app. simpl. now destruct (h n).
Qed.

Lemma nth_pair_list n i : (i < n)%nat ->
  (pair_list n).[i * 2] = (h i).1 /\ (pair_list n).[i * 2 + 1] = (h i).2.
Proof.
  induction n as [|n IH]; intros Hi; [lia|]. rewrite pair_list_S.
  destruct (decide (i = n)) as [->|Hne].
  - rewrite !app_nth2, length_pair_list by (rewrite length_pair_list; lia).
    replace (n * 2 - n * 2)%nat with 0%nat by lia.
    now replace (n * 2 + 1 - n * 2)%nat with 1%nat by lia.
  - rewrite !app_nth1 by (rewrite length_pair_list; lia). apply IH. lia.
Qed.

Lemma words_pair_list w n :
  (forall i, (i < n)%nat -> in_word w (h i).1 /\ in_word w (h i).2) -> words w (pair_list n).
Proof.
  induction n as [|n IH]; intros H; [constructor|]. rewrite pair_list_S, Forall_app.
  split; [apply IH; intros; apply H; lia|]. destruct (H n) as [H1 H2]; [lia|].
  now apply Forall_cons; [|apply Forall_cons; [|apply Forall_nil]].
Qed.

(** The loop that stores the pairs. *)
Lemma store_pairs n (f : list Z) : length f = (n * 2)%nat ->
  for_up n (fun i f => let '(a, b) := h i in
    <[(i * 2 + 1)%nat := b]> (<[(i * 2)%nat := a]> f)) f = pair_list n.
Proof.
  intros Hf.
  assert (G : forall m, (m <= n)%nat ->
    for_up m (fun i f => let '(a, b) := h i in
      <[(i * 2 + 1)%nat := b]> (<[(i * 2)%nat := a]> f)) f = pair_list m ++ drop (m * 2) f).
  { induction m as [|m IH]; intros Hm; [done|]. rewrite for_up_S, IH, pair_list_S by lia.
    destruct (h m) as [a b] eqn:E. rewrite <- app_assoc.
    rewrite (drop_nth f), (drop_nth f (Datatypes.S (m * 2))) by lia.
    pose proof (length_pair_list m) as HL.
    replace (m * 2)%nat with (length (pair_list m) + 0)%nat at 2 by lia.
    replace (m * 2 + 1)%nat with (length (pair_list m) + 1)%nat by lia.
    now rewrite !insert_app_r. }
  rewrite G, drop_ge by lia. apply app_nil_r.
Qed.
End Pairs.

Lemma on_pairs_list h n v : on_pairs h n v = pair_list (fun i => h i v.[i * 2] v.[i * 2 + 1]) n.
Proof. reflexivity. Qed.

(** The pairs of a list, put together again. *)
Lemma pair_list_nth v n : length v = (n * 2)%nat ->
  pair_list (fun i => (v.[i * 2], v.[i * 2 + 1])) n = v.
Proof.
  intros Hv. assert (G : forall m, (m <= n)%nat ->
    pair_list (fun i => (v.[i * 2], v.[i * 2 + 1])) m = take (m * 2) v).
  { induction m as [|m IH]; intros Hm; [done|]. rewrite pair_list_S, IH by lia. simpl.
    change (Datatypes.S m * 2)%nat with (Datatypes.S (Datatypes.S (m * 2))).
    rewrite !take_S_nth, <- app_assoc by lia. simpl. do 4 f_equal. f_equal. lia. }
  rewrite G by done. now rewrite firstn_all2 by lia.
Qed.

Lemma on_pairs_inverse h h' n v : length v = (n * 2)%nat ->
  (forall i, (i < n)%nat -> (let '(a, b) := h i v.[i * 2] v.[i * 2 + 1] in h' i a b) =
    (v.[i * 2], v.[i * 2 + 1])) ->
  on_pairs h' n (on_pairs h n v) = v.
Proof.
  intros Hv H. rewrite <- (pair_list_nth v n) at 2 by done. rewrite !on_pairs_list.
  unfold pair_list at 1. unfold pair_list at 3. f_equal. apply fmap_seq_ext. intros i Hi.
  destruct (nth_pair_list (fun i => h i v.[i * 2] v.[i * 2 + 1]) n i Hi) as [-> ->].
  specialize (H i Hi). destruct (h i _ _) as [a b]. simpl. now rewrite H.
Qed.

(** *** Permutations *)

Lemma permute_inverse perm rperm f : length f = length perm -> length rperm = length perm ->
  (forall i, (i < length perm)%nat -> nth (nth i rperm 0%nat) perm 0%nat = i) ->
  (forall i, (i < length perm)%nat -> (nth i rperm 0 < length perm)%nat) ->
  permute rperm (permute perm f) = f.
Proof.
  intros Hf Hl H Hb. unfold permute. apply (nth_ext_eq _ _ 0); [now rewrite length_fmap, Hl|].
  rewrite length_fmap. intros i Hi. rewrite (nth_fmap_lt _ _ _ _ 0%nat) by done.
  rewrite (nth_fmap_lt _ _ _ _ 0%nat) by (apply Hb; lia). rewrite H by lia. done.
Qed.

Lemma words_permute w perm f : 0 <= w -> words w f -> words w (permute perm f).
Proof.
  intros Hw Hf. unfold permute. apply Forall_fmap, Forall_true. intros i. simpl.
  apply Forall_nth_Z; [done|now apply in_word_0].
Qed.

(** The loop over a permutation table. *)
Lemma permute_loop w perm f v : length perm = w -> length v = w ->
  for_up w (fun i v => <[i := f.[Z.to_nat (Z.of_nat <$> perm).[i]]]> v) v = permute perm f.
Proof.
  intros Hp Hv. rewrite store_all by done. unfold permute.
  apply (nth_ext_eq _ _ 0); [now rewrite length_fmap_seq, length_fmap|].
  rewrite length_fmap_seq. intros i Hi. rewrite nth_fmap_seq by done.
  rewrite !(nth_fmap_lt _ perm _ _ 0%nat) by lia. now rewrite Nat2Z.id.
Qed.

(** *** The mixing function *)

Lemma mix_MIX x0 x1 d i bs r : rotation d i bs = r -> mix x0 x1 d i bs = MIX r x0 x1.
Proof. intros <-. reflexivity. Qed.

Lemma mix_inverse_UNMIX y0 y1 d i bs r :
  rotation d i bs = r -> mix_inverse y0 y1 d i bs = UNMIX r y0 y1.
Proof. intros <-. reflexivity. Qed.

Lemma UNMIX_MIX r x0 x1 : 0 <= r <= 64 -> in_word 64 x0 -> in_word 64 x1 ->
  (let '(y0, y1) := MIX r x0 x1 in UNMIX r y0 y1) = (x0, x1).
Proof.
  intros Hr H0 H1. unfold MIX, UNMIX. rewrite lxor_cancel_r, rotr_rotl by done.
  f_equal. unfold sub64, add64. now apply wrap_sub_add.
Qed.

Lemma in_word_add64 a b : in_word 64 (add64 a b).
Proof. now apply in_word_wrap. Qed.
#[export] Hint Resolve in_word_add64 : words.


Lemma words_add_list a b : words 64 (zip_with add64 a b).
Proof. revert b. induction a as [|x a IH]; intros [|y b]; simpl; auto with words. Qed.

Lemma sub_add_list v k : words 64 v -> length k = length v ->
  zip_with sub64 (zip_with add64 v k) k = v.
Proof.
  intros Hv. revert k. induction Hv as [|x v Hx Hv IH]; intros [|y k] Hk; simpl in *;
    try lia; [done|]. rewrite IH by lia. f_equal. now apply wrap_sub_add.
Qed.

(** *** A block size *)

(** What the static variables and the tables hold when block size [bs] is selected. *)
Record selects (g : statics) (p : params) (bs : nat) : Prop := {
  sel_w : Nw g = p_w p;
  sel_r : Nr g = p_r p;
  sel_pairs : p_w p = (p_w p / 2 * 2)%nat;
  sel_w3 : (3 <= p_w p)%nat;
  sel_rot : forall d i, rotation d i bs = p_rot p d i /\ 0 <= p_rot p d i <= 64;
  sel_perm : length (p_perm p) = p_w p;
}.

(** The permutation tables of the encryption and of the decryption. *)
Definition inverse_perm (perm rperm : list nat) : Prop :=
  length rperm = length perm /\ forall i, (i < length perm)%nat ->
    nth (nth i rperm 0%nat) perm 0%nat = i /\ (nth i rperm 0 < length perm)%nat.

Definition inv_round (p : params) (rperm : list nat) (k t : list Z) (d : nat) (v : list Z)
    : list Z :=
  let e := on_pairs (fun i => UNMIX (p_rot p d i)) (p_w p / 2) (permute rperm v) in
  if (d mod 4 =? 0)%nat then zip_with sub64 e (subkey (p_w p) k t (d / 4)) else e.

Lemma length_subkey w k t s : length (subkey w k t s) = w.
Proof. apply length_fmap_seq. Qed.

Lemma length_on_pairs h n v : length (on_pairs h n v) = (n * 2)%nat.
Proof. apply length_pair_list. Qed.

Section BlockSize.
Context (alloc : nat -> list Z) (alloc_length : forall n, length (alloc n) = n).
Context (g : statics) (p : params) (bs : nat) (Hsel : selects g p bs).

(** **** Key schedule *)

Lemma xor_loop k c : for_up (length k) (fun i a => a ^^ k.[i]) c = fold_left Z.lxor k c.
Proof.
  assert (G : forall n, (n <= length k)%nat ->
    for_up n (fun i a => a ^^ k.[i]) c = fold_left Z.lxor (take n k) c).
  { induction n as [|n IH]; intros Hn; [done|].
    now rewrite for_up_S, IH, take_S_nth, fold_left_app by lia. }
  now rewrite G, firstn_all.
Qed.

Lemma key_words_ext K : bytes K -> (8 * p_w p <= length K)%nat ->
  key_words alloc g K (8 * p_w p) = ext_key (bytes_to_words (p_w p) K).
Proof.
  intros HK Hl. destruct Hsel as [Hw _ _ H3 _ _]. unfold key_words, ext_key. rewrite Hw.
  rewrite bytesToWords_spec by (rewrite ?alloc_length; lia || done).
  set (k := bytes_to_words _ _). assert (Hk : length k = p_w p) by apply length_bytes_to_words.
  assert (Hd : exists x, drop (p_w p) (alloc (p_w p + 1)) = [x]).
  { pose proof (alloc_length (p_w p + 1)) as Ha.
    rewrite (drop_nth (alloc _)), drop_ge by lia. eauto. }
  destruct Hd as [x ->]. rewrite <- Hk at 1.
  replace (length k) with (length k + 0)%nat at 1 by lia. rewrite insert_app_r. simpl.
  do 2 f_equal. rewrite <- xor_loop, Hk. apply for_up_ext. intros i a Hi.
  now rewrite app_nth1 by lia.
Qed.

Lemma tweak_words_ext T : bytes T -> (16 <= length T)%nat ->
  tweak_words alloc T = ext_tweak (bytes_to_words 2 T).
Proof.
  intros HT Hl. unfold tweak_words, ext_tweak. change 16%nat with (8 * 2)%nat.
  rewrite bytesToWords_spec by (rewrite ?alloc_length; lia || done).
  pose proof (alloc_length 3) as Ha. rewrite (drop_nth (alloc _)), drop_ge by lia.
  set (t := bytes_to_words _ _). assert (Ht : length t = 2%nat) by apply length_bytes_to_words.
  rewrite <- Ht at 1. replace (length t) with (length t + 0)%nat by lia.
  rewrite insert_app_r. now rewrite !app_nth1 by lia.
Qed.

Lemma schedule_row_subkey k t d row : length row = p_w p ->
  schedule_row (p_w p) (ext_key k) (ext_tweak t) d row = subkey (p_w p) k t d.
Proof.
  intros Hr. unfold subkey. rewrite <- (store_all _ _ row Hr).
  apply (for_up_ext_inv (fun row => length row = p_w p)); [done|]. intros i r Hi Hl.
  destruct Hsel as [_ _ _ H3 _ _]. cbv zeta. rewrite !list_insert_insert_eq.
  assert (Hn : forall x, (<[i := x]> r).[i] = x).
  { intros x. now rewrite nth_lookup_def, list_lookup_insert_eq by lia. }
  rewrite !Hn. unfold subkey_word, add64. rewrite !u64_wrap.
  destruct (Nat.eqb_spec i (p_w p - 1)), (Nat.eqb_spec i (p_w p - 2)),
    (Nat.eqb_spec i (p_w p - 3)); try lia; split; rewrite ?length_insert; done.
Qed.

Lemma key_schedule_nth k t d : (d <= p_r p / 4)%nat ->
  nth d (key_schedule alloc g (ext_key k) (ext_tweak t)) [] = subkey (p_w p) k t d.
Proof.
  intros Hd. destruct Hsel as [Hw Hr _ _ _ _]. unfold key_schedule. rewrite Hw, Hr.
  set (rows := _ <$> _).
  assert (G : forall n, (n <= p_r p / 4 + 1)%nat ->
    let s := for_up n (fun d s => <[d := schedule_row (p_w p) (ext_key k) (ext_tweak t) d
      (nth d s [])]> s) rows in
    length s = (p_r p / 4 + 1)%nat /\
    forall i, (i < p_r p / 4 + 1)%nat ->
      if decide (i < n)%nat then nth i s [] = subkey (p_w p) k t i
      else length (nth i s []) = p_w p).
  { induction n as [|n IH]; intros Hn s.
    - split; [apply length_fmap_seq|]. intros i Hi. rewrite decide_False by lia.
      unfold s, rows. rewrite for_up_0. rewrite nth_fmap_seq by done. apply alloc_length.
    - destruct IH as [IHl IHn]; [lia|]. unfold s. rewrite for_up_S, length_insert.
      split; [exact IHl|]. intros i Hi. rewrite !nth_lookup_def.
      pose proof (IHn i Hi) as Hi'. destruct (decide (i = n)) as [->|Hne].
      + rewrite decide_False in Hi' by lia. rewrite decide_True by lia.
        rewrite list_lookup_insert_eq by lia. simpl. apply schedule_row_subkey.
        rewrite <- nth_lookup_def. exact Hi'.
      + rewrite list_lookup_insert_ne, <- nth_lookup_def by done.
        destruct (decide (i < n)%nat), (decide (i < Datatypes.S n)%nat); lia || exact Hi'. }
  destruct (G (p_r p / 4 + 1)%nat) as [_ Gn]; [lia|]. specialize (Gn d ltac:(lia)).
  rewrite decide_True in Gn by lia. exact Gn.
Qed.

(** **** Rounds *)

Lemma update_zip f v k : length v = p_w p -> length k = p_w p ->
  for_up (Nw g) (fun i v => <[i := f v.[i] k.[i]]> v) v = zip_with f v k.
Proof.
  intros Hv Hk. rewrite (sel_w _ _ _ Hsel).
  rewrite (update_all (p_w p) (fun i x => f x k.[i])) by done.
  apply (nth_ext_eq _ _ 0); [rewrite length_fmap_seq, length_zip_with; lia|].
  rewrite length_fmap_seq. intros i Hi. rewrite nth_fmap_seq by done.
  rewrite !nth_lookup_def, lookup_zip_with.
  destruct (lookup_lt_is_Some_2 v i) as [x ->]; [lia|].
  now destruct (lookup_lt_is_Some_2 k i) as [y ->]; [lia|].
Qed.

Lemma add_row_zip v k : length v = p_w p -> length k = p_w p ->
  add_row (Nw g) v k = zip_with add64 v k.
Proof. exact (update_zip add64 v k). Qed.

Lemma sub_row_zip v k : length v = p_w p -> length k = p_w p ->
  sub_row (Nw g) v k = zip_with sub64 v k.
Proof. exact (update_zip sub64 v k). Qed.

Lemma encrypt_step_round k t d v :
  Pi g = Z.of_nat <$> p_perm p -> (d < p_r p)%nat -> length v = p_w p ->
  encrypt_step alloc g (key_schedule alloc g (ext_key k) (ext_tweak t)) bs d v =
  round p k t d v.
Proof.
  intros HP Hd Hv. pose proof (Hsel) as [Hw Hr H2 H3 Hrot Hperm]. unfold encrypt_step, round.
  assert (Hs : (d / 4 <= p_r p / 4)%nat) by (apply Nat.Div0.div_le_mono; lia).
  rewrite key_schedule_nth, add_row_zip by (done || apply length_subkey).
  set (e := if (d mod 4 =? 0)%nat then _ else _). assert (He : length e = p_w p).
  { unfold e. destruct (d mod 4 =? 0)%nat; [|done].
    rewrite length_zip_with, length_subkey. lia. }
  rewrite Hw, HP, permute_loop by done. f_equal. rewrite on_pairs_list.
  rewrite <- (store_pairs _ _ (alloc (p_w p))) by (rewrite alloc_length; lia).
  apply for_up_ext. intros i f Hi. now rewrite (mix_MIX _ _ _ _ _ (p_rot p d i)) by apply Hrot.
Qed.

Lemma decrypt_step_inv_round rperm k t d v :
  RPi g = Z.of_nat <$> rperm -> length rperm = p_w p -> (d < p_r p)%nat -> length v = p_w p ->
  decrypt_step alloc g (key_schedule alloc g (ext_key k) (ext_tweak t)) bs d v =
  inv_round p rperm k t d v.
Proof.
  intros HP Hl Hd Hv. pose proof (Hsel) as [Hw Hr H2 H3 Hrot Hperm].
  unfold decrypt_step, inv_round. rewrite Hw, HP.
  assert (Hs : (d / 4 <= p_r p / 4)%nat) by (apply Nat.Div0.div_le_mono; lia).
  rewrite key_schedule_nth by done.
  rewrite permute_loop by (rewrite ?alloc_length; done).
  set (f := permute rperm v). set (e := for_up (p_w p / 2) _ v).
  assert (E : e = on_pairs (fun i => UNMIX (p_rot p d i)) (p_w p / 2) f).
  { rewrite on_pairs_list, <- (store_pairs _ _ v) by lia. apply for_up_ext. intros i s Hi.
    now rewrite (mix_inverse_UNMIX _ _ _ _ _ (p_rot p d i)) by apply Hrot. }
  clearbody e. subst e. rewrite <- Hw at 1.
  rewrite sub_row_zip; [done| |apply length_subkey]. rewrite length_on_pairs. lia.
Qed.

(** A state of the cipher. *)
Definition good (v : list Z) : Prop := words 64 v /\ length v = p_w p.

Lemma good_on_pairs_MIX d v : good v ->
  good (on_pairs (fun i => MIX (p_rot p d i)) (p_w p / 2) v).
Proof.
  intros [Hv Hl]. pose proof (Hsel) as [_ _ H2 _ Hrot _].
  split; [|rewrite length_on_pairs; lia]. rewrite on_pairs_list. apply words_pair_list.
  intros i Hi. simpl. split; [apply in_word_add64|].
  apply in_word_lxor; [lia| |apply in_word_add64]. apply in_word_rotl; [apply (Hrot d i)|].
  apply Forall_nth_Z; [done|]. apply in_word_0. lia.
Qed.

Lemma good_add v k : good v -> length k = p_w p -> good (zip_with add64 v k).
Proof.
  intros [Hv Hl] Hk. split; [apply words_add_list|]. rewrite length_zip_with. lia.
Qed.

Lemma good_round k t d v : good v -> good (round p k t d v).
Proof.
  intros Hv. pose proof (Hsel) as [_ _ _ _ _ Hperm]. unfold round.
  set (e := if (d mod 4 =? 0)%nat then zip_with add64 _ _ else _). assert (He : good e).
  { unfold e. destruct (_ =? 0)%nat; [|done]. apply good_add; [done|apply length_subkey]. }
  destruct (good_on_pairs_MIX d e He) as [H1 H2]. split.
  - apply words_permute; [lia|done].
  - unfold permute. now rewrite length_fmap.
Qed.

Lemma inv_round_round rperm k t d v : inverse_perm (p_perm p) rperm -> good v ->
  inv_round p rperm k t d (round p k t d v) = v.
Proof.
  intros [Hrl Hri] Hv. pose proof (Hsel) as [_ _ H2 _ Hrot Hperm].
  unfold inv_round, round. set (e := if (d mod 4 =? 0)%nat then zip_with add64 _ _ else _).
  assert (He : good e).
  { unfold e. destruct (_ =? 0)%nat; [|done]. apply good_add; [done|apply length_subkey]. }
  destruct (good_on_pairs_MIX d e He) as [_ Hm].
  rewrite permute_inverse by (rewrite ?Hm; auto; intros; now apply Hri).
  rewrite on_pairs_inverse.
  - unfold e. destruct (d mod 4 =? 0)%nat; [|done].
    apply sub_add_list; [apply Hv|]. destruct Hv as [_ ->]. apply length_subkey.
  - destruct He as [_ ->]. exact H2.
  - intros i Hi. destruct He as [Hew _].
    apply UNMIX_MIX; [apply Hrot|..]; (apply Forall_nth_Z; [done|apply in_word_0; lia]).
Qed.

(** **** The rounds together *)

Lemma good_rounds k t v n : good v -> good (for_up n (round p k t) v).
Proof. intros Hv. apply (for_up_inv (fun _ => good)); auto using good_round. Qed.

Lemma encrypt_rounds k t v n : Pi g = Z.of_nat <$> p_perm p -> (n <= p_r p)%nat -> good v ->
  for_up n (encrypt_step alloc g (key_schedule alloc g (ext_key k) (ext_tweak t)) bs) v =
  for_up n (round p k t) v.
Proof.
  intros HP Hn Hv. induction n as [|n IH]; [done|]. rewrite !for_up_S, IH by lia.
  apply encrypt_step_round; [done|lia|]. now apply (good_rounds k t v n).
Qed.

Lemma decrypt_steps_rounds rperm k t v n :
  RPi g = Z.of_nat <$> rperm -> inverse_perm (p_perm p) rperm -> (n < p_r p)%nat -> good v ->
  decrypt_steps alloc g (key_schedule alloc g (ext_key k) (ext_tweak t)) bs n
    (for_up (Datatypes.S n) (round p k t) v) = v.
Proof.
  intros HP Hr Hn Hv. pose proof (Hsel) as [_ _ _ _ _ Hperm]. revert v Hv.
  induction n as [|n IH]; intros v Hv; cbn [decrypt_steps]; rewrite for_up_S;
    (rewrite (decrypt_step_inv_round rperm);
      [rewrite inv_round_round; [|done|now apply good_rounds]|done|destruct Hr; lia|lia|
       apply good_round; now apply good_rounds]).
  - done.
  - apply IH; [lia|done].
Qed.

Lemma good_Threefish k t v : good v -> good (Threefish p k t v).
Proof. intros Hv. apply good_add; [now apply good_rounds|apply length_subkey]. Qed.

(** **** The block functions *)

Lemma threefish_encrypt_spec E K T P : bs <> 0%nat ->
  Pi g = Z.of_nat <$> p_perm p -> bytes K -> bytes T -> bytes P ->
  (8 * p_w p <= length K)%nat -> (16 <= length T)%nat -> (8 * p_w p <= length P)%nat ->
  (8 * p_w p <= length E)%nat ->
  threefish_encrypt alloc g E K T P (8 * p_w p) bs =
  mem_write E 0 (words_to_bytes
    (Threefish p (bytes_to_words (p_w p) K) (bytes_to_words 2 T) (bytes_to_words (p_w p) P))).
Proof.
  intros Hb HP HK HT HPb HlK HlT HlP HlE. pose proof (Hsel) as [Hw Hr _ H3 _ _].
  unfold threefish_encrypt.
  destruct (Nat.eqb_spec (8 * p_w p) 0); [lia|]. destruct (Nat.eqb_spec bs 0); [done|].
  cbn [orb]. rewrite bytesToWords_all by (rewrite ?alloc_length; lia || done).
  rewrite key_words_ext, tweak_words_ext by done.
  set (v := bytes_to_words _ P). assert (Hv : good v)
    by (split; [now apply words_bytes_to_words|apply length_bytes_to_words]).
  rewrite Hr, encrypt_rounds by done.
  destruct (good_rounds (bytes_to_words (p_w p) K) (bytes_to_words 2 T) v (p_r p) Hv) as [_ Hl].
  rewrite key_schedule_nth, add_row_zip by (done || apply length_subkey).
  rewrite Hw, wordsToBytes_spec; [done| |lia..].
  rewrite length_zip_with, length_subkey. lia.
Qed.

Lemma threefish_decrypt_spec rperm D K T C v : bs <> 0%nat ->
  RPi g = Z.of_nat <$> rperm -> inverse_perm (p_perm p) rperm -> (0 < p_r p)%nat ->
  bytes K -> bytes T ->
  (8 * p_w p <= length K)%nat -> (16 <= length T)%nat -> (8 * p_w p <= length D)%nat ->
  good v -> bytes C -> (8 * p_w p <= length C)%nat ->
  bytes_to_words (p_w p) C =
    Threefish p (bytes_to_words (p_w p) K) (bytes_to_words 2 T) v ->
  threefish_decrypt alloc g D K T C (8 * p_w p) bs = mem_write D 0 (words_to_bytes v).
Proof.
  intros Hb HP Hinv Hr0 HK HT HlK HlT HlD Hv HC HlC HE.
  pose proof (Hsel) as [Hw Hr _ H3 _ _]. unfold threefish_decrypt.
  destruct (Nat.eqb_spec (8 * p_w p) 0); [lia|]. destruct (Nat.eqb_spec bs 0); [done|].
  cbn [orb]. rewrite bytesToWords_all by (rewrite ?alloc_length; lia || done).
  rewrite key_words_ext, tweak_words_ext by done. rewrite HE. unfold Threefish.
  set (k := bytes_to_words _ K). set (t := bytes_to_words 2 T).
  destruct (good_rounds k t v (p_r p) Hv) as [Hgw Hgl].
  rewrite Hr, key_schedule_nth by done.
  rewrite sub_row_zip by (rewrite ?length_zip_with, ?length_subkey; lia).
  rewrite sub_add_list by (rewrite ?length_subkey; done).
  replace (p_r p) with (Datatypes.S (p_r p - 1)) at 2 by lia.
  rewrite (decrypt_steps_rounds rperm) by (done || lia).
  rewrite Hw, wordsToBytes_spec; [done|apply Hv|lia..].
Qed.
End BlockSize.

(** *** The three block sizes *)

Lemma rotation_bounds (R : list (list Z)) : Forall (Forall (fun r => 0 <= r <= 64)) R ->
  forall d i, 0 <= (nth (d mod 8) R []).[i] <= 64.
Proof.
  intros H d i. apply (Forall_nth_Z (fun r => 0 <= r <= 64)); [|lia].
  rewrite nth_lookup_def. destruct (R !! (d mod 8)%nat) as [row|] eqn:E; [|constructor].
  exact (Forall_lookup_1 _ _ _ _ H E).
Qed.

Lemma selects_256 pi rpi : selects (mk_statics pi rpi 72 4) threefish256 256.
Proof.
  split; try reflexivity; [simpl; lia|]. intros d i. split; [reflexivity|].
  apply (rotation_bounds R_4). by_eval.
Qed.
Lemma selects_512 pi rpi : selects (mk_statics pi rpi 72 8) threefish512 512.
Proof.
  split; try reflexivity; [simpl; lia|]. intros d i. split; [reflexivity|].
  apply (rotation_bounds R_8). by_eval.
Qed.
Lemma selects_1024 pi rpi : selects (mk_statics pi rpi 80 16) threefish1024 1024.
Proof.
  split; try reflexivity; [simpl; lia|]. intros d i. split; [reflexivity|].
  apply (rotation_bounds R_16). by_eval.
Qed.

(** For each block size, the parameters and permutation tables that the public functions
    select are those of the specification. *)
Lemma block_cases bs p : block_params bs = Some p ->
  bs <> 0%nat /\ exists pi rperm,
    pi = Z.of_nat <$> p_perm p /\ inverse_perm (p_perm p) rperm /\ (0 < p_r p)%nat /\
    (forall pi rpi, selects (mk_statics pi rpi (p_r p) (p_w p)) p bs) /\
    (forall alloc g E K T P n, n <> 0%nat ->
      libskein_threefish_encrypt alloc g E K T P n bs =
      let g' := mk_statics pi (RPi g) (p_r p) (p_w p) in
      (g', threefish_encrypt alloc g' E K T P n bs)) /\
    (forall alloc g D K T C n, n <> 0%nat ->
      libskein_threefish_decrypt alloc g D K T C n bs =
      let g' := mk_statics (Pi g) (Z.of_nat <$> rperm) (p_r p) (p_w p) in
      (g', threefish_decrypt alloc g' D K T C n bs)).
Proof.
  unfold block_params. intros H.
  destruct (Nat.eqb_spec bs 256) as [->|H1]; [|destruct (Nat.eqb_spec bs 512) as [->|H2];
    [|destruct (Nat.eqb_spec bs 1024) as [->|H3]; [|done]]]; injection H as <-;
    (split; [lia|]);
    [exists Pi_4, [0; 3; 2; 1]%nat | exists Pi_8, [6; 1; 0; 7; 2; 5; 4; 3]%nat
    |exists Pi_16, [0; 15; 2; 11; 6; 13; 4; 9; 14; 1; 8; 5; 10; 3; 12; 7]%nat];
    (split; [reflexivity|]);
    (split; [split; [reflexivity|];
      intros i Hi; cbn [threefish256 threefish512 threefish1024 p_perm length] in Hi;
      do 16 (destruct i as [|i]; [cbn; lia|]); lia|]);
    (split; [cbn; lia|]);
    (split; [intros; apply selects_256 || apply selects_512 || apply selects_1024|]);
    (split; intros alloc g E K T P n Hn; apply Nat.eqb_neq in Hn;
      unfold libskein_threefish_encrypt, libskein_threefish_decrypt; rewrite Hn; reflexivity).
Qed.

(** The public function on the three block sizes. *)
Lemma libskein_encrypt_spec alloc g E K T P bs p :
  (forall n, length (alloc n) = n) -> block_params bs = Some p ->
  bytes K -> bytes T -> bytes P ->
  (8 * p_w p <= length K)%nat -> (16 <= length T)%nat -> (8 * p_w p <= length P)%nat ->
  (8 * p_w p <= length E)%nat ->
  (libskein_threefish_encrypt alloc g E K T P (8 * p_w p) bs).2 =
  mem_write E 0 (words_to_bytes
    (Threefish p (bytes_to_words (p_w p) K) (bytes_to_words 2 T) (bytes_to_words (p_w p) P))).
Proof.
  intros Ha Hp. intros. destruct (block_cases bs p Hp) as (Hb & pi & rp & Hpi & _ & _ & Hs & He & _).
  pose proof (sel_w3 _ _ _ (Hs [] [])) as Hw3. rewrite He by lia. simpl.
  apply threefish_encrypt_spec; auto.
Qed.

(** ** Theorems *)

(** Threefish-512 with the zero tweak, as the block hash uses it. *)
Lemma threefish512_spec alloc g E K P :
  (forall n, length (alloc n) = n) -> bytes K -> bytes P ->
  (64 <= length K)%nat -> (64 <= length P)%nat -> (64 <= length E)%nat ->
  (libskein_threefish_encrypt alloc g E K (replicate 16 0) P 64 512).2 =
  mem_write E 0 (words_to_bytes
    (Threefish threefish512 (bytes_to_words 8 K) [0; 0] (bytes_to_words 8 P))).
Proof.
  intros Ha HK HP HlK HlP HlE.
  exact (libskein_encrypt_spec alloc g E K (replicate 16 0) P 512 threefish512 Ha eq_refl HK
    ltac:(by_eval) HP HlK (le_n 16) HlP HlE).
Qed.

(** C33. For the three block sizes, and whatever earlier calls left in the static
    variables and [new] in the arrays, libskein_threefish_encrypt writes the Threefish
    encryption of the block under the key and tweak to the start of the result. *)
Theorem threefish_encrypt_correct alloc g E K T P bs p :
  (forall n, length (alloc n) = n) -> block_params bs = Some p ->
  bytes K -> bytes T -> bytes P ->
  (8 * p_w p <= length K)%nat -> (16 <= length T)%nat -> (8 * p_w p <= length P)%nat ->
  (8 * p_w p <= length E)%nat ->
  (libskein_threefish_encrypt alloc g E K T P (8 * p_w p) bs).2 =
  mem_write E 0 (words_to_bytes
    (Threefish p (bytes_to_words (p_w p) K) (bytes_to_words 2 T) (bytes_to_words (p_w p) P))).
Proof. apply libskein_encrypt_spec. Qed.

(** Decryption undoes encryption: with the same key and tweak it writes the
    plaintext back, for every block size and whatever the static variables hold when
    the two functions are called. *)
Theorem threefish_decrypt_encrypt alloc g g' E D K T P bs p :
  (forall n, length (alloc n) = n) -> block_params bs = Some p ->
  bytes K -> bytes T -> bytes P -> bytes E ->
  (8 * p_w p <= length K)%nat -> (16 <= length T)%nat -> length P = (8 * p_w p)%nat ->
  (8 * p_w p <= length E)%nat -> (8 * p_w p <= length D)%nat ->
  let C := (libskein_threefish_encrypt alloc g E K T P (8 * p_w p) bs).2 in
  (libskein_threefish_decrypt alloc g' D K T C (8 * p_w p) bs).2 = mem_write D 0 P.
Proof.
  intros Ha Hp HK HT HP HE HlK HlT HlP HlE HlD C.
  destruct (block_cases bs p Hp) as (Hb & pi & rp & Hpi & Hinv & Hr & Hs & He & Hd).
  pose proof (sel_w3 _ _ _ (Hs [] [])) as H3. unfold C. rewrite He, Hd by lia. simpl. clear C.
  rewrite (threefish_encrypt_spec alloc Ha _ p bs (Hs _ _)) by (auto; lia).
  set (c := Threefish _ _ _ _).
  assert (Hg : good p (bytes_to_words (p_w p) P))
    by (split; [now apply words_bytes_to_words|apply length_bytes_to_words]).
  assert (Hc : good p c).
  { now apply (good_Threefish (mk_statics pi [] (p_r p) (p_w p)) p bs (Hs _ _)). }
  destruct Hc as [Hcw Hcl].
  rewrite (threefish_decrypt_spec alloc Ha _ p bs (Hs _ _) rp D K T _
    (bytes_to_words (p_w p) P)); auto.
  - now rewrite words_bytes_round.
  - apply Forall_mem_write; [done|apply bytes_words_to_bytes].
  - rewrite length_mem_write; rewrite ?length_words_to_bytes; lia.
  - fold c. unfold mem_write. rewrite take_0, app_nil_l.
    rewrite bytes_to_words_app by (rewrite length_words_to_bytes; lia).
    rewrite <- Hcl. now apply bytes_words_round.
Qed.

(** ** Witnesses and a test vector *)

Definition ex_alloc (n : nat) : list Z := replicate n 7.
Definition ex_key : list Z := Z.of_nat <$> seq 16 64.
Definition ex_block : list Z := Z.of_nat <$> seq 100 64.
Definition ex_tweak : list Z := Z.of_nat <$> seq 0 16.

(** The published vector for Threefish-512 with zero key, tweak and plaintext. *)
Example threefish512_zero :
  (libskein_threefish_encrypt ex_alloc initial_statics (replicate 64 0) (replicate 64 0)
    (replicate 16 0) (replicate 64 0) 64 512).2 =
  [0xb1; 0xa2; 0xbb; 0xc6; 0xef; 0x60; 0x25; 0xbc; 0x40; 0xeb; 0x38; 0x22; 0x16; 0x1f; 0x36;
   0xe3; 0x75; 0xd1; 0xbb; 0x0a; 0xee; 0x31; 0x86; 0xfb; 0xd1; 0x9e; 0x47; 0xc5; 0xd4; 0x79;
   0x94; 0x7b; 0x7b; 0xc2; 0xf8; 0x58; 0x6e; 0x35; 0xf0; 0xcf; 0xf7; 0xe7; 0xf0; 0x30; 0x84;
   0xb0; 0xb7; 0xb1; 0xf1; 0xab; 0x39; 0x61; 0xa5; 0x80; 0xa3; 0xe9; 0x7e; 0xb4; 0x1e; 0xa1;
   0x4a; 0x6d; 0x7b; 0xbe].
Proof. vm_compute. reflexivity. Qed.

Lemma threefish_encrypt_correct_witness :
  (libskein_threefish_encrypt ex_alloc initial_statics ex_block ex_key ex_tweak ex_block 64 512).2
  = mem_write ex_block 0 (words_to_bytes (Threefish threefish512 (bytes_to_words 8 ex_key)
      (bytes_to_words 2 ex_tweak) (bytes_to_words 8 ex_block))).
Proof.
  apply (threefish_encrypt_correct ex_alloc initial_statics ex_block ex_key ex_tweak ex_block
    512 threefish512); try by_eval; try reflexivity; try (cbn; lia).
  intros n. apply length_replicate.
Defined.

Lemma threefish_decrypt_encrypt_witness :
  let C := (libskein_threefish_encrypt ex_alloc initial_statics ex_block ex_key ex_tweak
    ex_block 64 512).2 in
  (libskein_threefish_decrypt ex_alloc (mk_statics Pi_4 RPi_4 72 4) (replicate 70 0) ex_key
    ex_tweak C 64 512).2 = ex_block ++ replicate 6 0.
Proof.
  apply (threefish_decrypt_encrypt ex_alloc initial_statics (mk_statics Pi_4 RPi_4 72 4)
    ex_block (replicate 70 0) ex_key ex_tweak ex_block 512 threefish512);
    try by_eval; try reflexivity; try (cbn; lia).
  intros n. apply length_replicate.
Defined.
