(* ===== verification/Blob.v ===== *)
(** * Opaque blobs: src/uint256.h and src/uint256.cpp

    The byte arrays [uint160], [uint256], [uint512] and [uint1024] (the template
    [base_blob<BITS>], whose [data] is a list of BITS / 8 bytes), with the operations the
    block hash uses and the conversions to and from hexadecimal.  A C string is the list of
    its characters, without the terminating zero. *)

From Stdlib Require Ascii String.
From S2P Require Import Prelude Words.

(** ** The source *)

(** [base_blob<BITS>::base_blob()] and [SetNull] *)
Definition null_blob (WIDTH : nat) : list Z := replicate WIDTH 0.
Definition IsNull (data : list Z) : bool := forallb (fun b => b =? 0) data.

(** memcmp of two arrays of the same length; the operators == and < test its result. *)
Fixpoint memcmp (a b : list Z) : Z :=
  match a, b with
  | x :: a, y :: b => if x =? y then memcmp a b else x - y
  | _, _ => 0
  end.
Definition blob_eq (a b : list Z) : bool := memcmp a b =? 0.
Definition blob_lt (a b : list Z) : bool := memcmp a b <? 0.

(** [GetUint64]: eight bytes from position [8 pos], the least significant first. *)
Definition GetUint64 (data : list Z) (pos : nat) : Z :=
  let ptr := drop (pos * 8) data in
  ptr.[0] .| (ptr.[1] << 8) .| (ptr.[2] << 16) .| (ptr.[3] << 24) .| (ptr.[4] << 32)
    .| (ptr.[5] << 40) .| (ptr.[6] << 48) .| (ptr.[7] << 56).

(** The character of a hexadecimal digit in the format "%02x". *)
Definition hex_char (d : Z) : Z := if d <? 10 then 48 + d else 97 + (d - 10).
Definition GetHex (data : list Z) : list Z :=
  mjoin ((fun i => let b := data.[length data - i - 1] in [hex_char (b / 16); hex_char (b mod 16)])
    <$> seq 0 (length data)).

Definition p_util_hexdigit : list Z :=
  replicate 48 (-1) ++ [0; 1; 2; 3; 4; 5; 6; 7; 8; 9] ++ replicate 7 (-1) ++
  [0xa; 0xb; 0xc; 0xd; 0xe; 0xf] ++ replicate 26 (-1) ++
  [0xa; 0xb; 0xc; 0xd; 0xe; 0xf] ++ replicate 153 (-1).
Definition HexDigit (c : Z) : Z := p_util_hexdigit.[Z.to_nat c].

(** The C library's functions, in the "C" locale. *)
Definition isspace (c : Z) : bool := (c =? 32) || ((9 <=? c) && (c <=? 13)).
Definition tolower (c : Z) : Z := if (65 <=? c) && (c <=? 90) then c + 32 else c.

Fixpoint skip_spaces (psz : list Z) : list Z :=
  match psz with c :: s => if isspace c then skip_spaces s else psz | [] => [] end.
Definition skip_0x (psz : list Z) : list Z :=
  match psz with c :: d :: s => if (c =? 48) && (tolower d =? 120) then s else psz | _ => psz end.
(** The characters from [pbegin] to [psz]: the leading hexadecimal digits. *)
Fixpoint leading_digits (psz : list Z) : list Z :=
  match psz with
  | c :: s => if HexDigit c =? -1 then [] else c :: leading_digits s
  | [] => []
  end.

(** The loop that stores the digits from the last one on, in [room] bytes. *)
Fixpoint store_digits (digits : list Z) (room : nat) : list Z :=
  match digits, room with
  | c :: d :: digits, S room =>
      (HexDigit c .| u8 (HexDigit d << 4)) :: store_digits digits room
  | [c], S _ => [HexDigit c]
  | _, _ => []
  end.

Definition SetHex (WIDTH : nat) (psz : list Z) : list Z :=
  let digits := rev (leading_digits (skip_0x (skip_spaces psz))) in
  mem_write (null_blob WIDTH) 0 (store_digits digits WIDTH).

(** The characters of a string literal, and [uint256S]. *)
Definition chars (str : String.string) : list Z :=
  (fun c => Z.of_N (Ascii.N_of_ascii c)) <$> String.list_ascii_of_string str.
Definition uint256S (str : String.string) : list Z := SetHex 32 (chars str).

(** [pDestinationNumbers [ i ] ^= pSourceNumbers [ i ]] for [n] words of 64 bits, from
    offset [off] of the data. *)
Definition xor_words (n : nat) (data : list Z) (off : nat) (src : list Z) : list Z :=
  for_up n (fun i data =>
    mem_write data (off + 8 * i)
      (le_split 8 (load64_le data (off + 8 * i) ^^ load64_le src (8 * i)))) data.

(** The operators of [uint512] (of a [uint512], of a [uint256] at an offset and of 64 bytes
    in memory) and of [uint1024]. *)
Definition XOROperator512 (data b : list Z) : list Z := xor_words (512 / 8 / 8) data 0 b.
Definition XOROperator512_256 (data b : list Z) (_iOffset : nat) : list Z :=
  xor_words (256 / 8 / 8) data _iOffset b.
Definition XOROperator512_data (data _pData : list Z) : list Z :=
  xor_words (512 / 8 / 8) data 0 _pData.
Definition XOROperator1024 (data : list Z) (_iDestinationOffset : nat) (_pData : list Z)
    : list Z :=
  xor_words (512 / 8 / 8) data _iDestinationOffset _pData.

Definition trim256 (data : list Z) : list Z := mem_write (null_blob 32) 0 (mem_read data 0 32).

(** ** Lemmas *)

Lemma blob_eq_refl x : blob_eq x x = true.
Proof.
  unfold blob_eq. apply Z.eqb_eq. induction x as [|b x IH]; [done|]. cbn [memcmp]. now rewrite Z.eqb_refl.
Qed.

Lemma blob_eq_spec x y : length x = length y -> blob_eq x y = true <-> x = y.
Proof.
  intros Hl. split; [|intros ->; apply blob_eq_refl]. unfold blob_eq. rewrite Z.eqb_eq.
  revert y Hl. induction x as [|b x IH]; intros [|c y] Hl; try done. cbn [memcmp length] in *.
  destruct (Z.eqb_spec b c) as [->|Hne]; [|lia]. intros E. f_equal. apply IH; [lia|done].
Qed.

Lemma length_XOROperator1024 data off src : (off + 64 <= length data)%nat ->
  length (XOROperator1024 data off src) = length data.
Proof.
  intros H. unfold XOROperator1024, xor_words.
  apply (for_up_inv (fun _ d => length d = length data)); [done|]. intros i s Hi Hs.
  change (512 / 8 / 8)%nat with 8%nat in Hi.
  rewrite length_mem_write; [exact Hs|]. rewrite length_le_split. lia.
Qed.

(** Xoring whole words is xoring the bytes. *)
Lemma xor_words_spec n data off src : bytes data -> bytes src ->
  (off + 8 * n <= length data)%nat -> (8 * n <= length src)%nat ->
  xor_words n data off src =
  mem_write data off (xor_list (mem_read data off (8 * n)) (mem_read src 0 (8 * n))).
Proof.
  intros Hd Hs Hl Hsl. unfold xor_words.
  induction n as [|n IH].
  - rewrite Nat.mul_0_r. symmetry. exact (mem_write_nil data off ltac:(lia)).
  - rewrite for_up_S, IH by lia. remember (8 * n)%nat as k eqn:Ek.
    set (x := xor_list (mem_read data off k) (mem_read src 0 k)).
    assert (Hx : length x = k).
    { unfold x. rewrite length_xor_list, !length_mem_read by lia. lia. }
    replace (8 * S n)%nat with (k + 8)%nat by lia.
    rewrite !mem_read_add, xor_list_app by (rewrite !length_mem_read; lia). fold x.
    assert (Hy : forall o o', (length (xor_list (mem_read data o 8) (mem_read src o' 8)) <= 8)%nat)
      by (intros; rewrite length_xor_list; unfold mem_read; rewrite length_take; lia).
    rewrite <- mem_write_app, Hx by (specialize (Hy (off + k)%nat (0 + k)%nat); lia).
    f_equal. unfold load64_le.
    rewrite mem_read_write_other by lia. rewrite le_split_lxor.
    assert (R : forall m o, bytes m -> (o + 8 <= length m)%nat ->
      le_split 8 (le_combine (mem_read m o 8)) = mem_read m o 8).
    { intros m o Hm Ho. rewrite <- (length_mem_read m o 8) at 1 by done.
      apply le_split_combine. now apply Forall_mem_read. }
    now rewrite !R by (done || lia).
Qed.

Lemma XOROperator1024_spec data off src : bytes data -> bytes src ->
  (off + 64 <= length data)%nat -> (64 <= length src)%nat ->
  XOROperator1024 data off src =
  mem_write data off (xor_list (mem_read data off 64) (mem_read src 0 64)).
Proof. intros. now apply (xor_words_spec 8). Qed.

Lemma trim256_take data : (32 <= length data)%nat -> trim256 data = take 32 data.
Proof.
  intros H. unfold trim256, mem_read. rewrite drop_0.
  rewrite mem_write_full; rewrite ?length_take; unfold null_blob; rewrite ?length_replicate; done || lia.
Qed.

(** *** Hexadecimal *)

Lemma hex_char_check : all_below 16 (fun d => let c := hex_char (Z.of_nat d) in
  (HexDigit c =? Z.of_nat d) && negb (isspace c) && negb (tolower c =? 120)) = true.
Proof. reflexivity. Qed.

Lemma hex_char_spec d : 0 <= d < 16 -> HexDigit (hex_char d) = d /\
  isspace (hex_char d) = false /\ (tolower (hex_char d) =? 120) = false.
Proof.
  intros Hd. pose proof (all_below_spec _ _ hex_char_check (Z.to_nat d) ltac:(lia)) as H.
  cbv beta zeta in H. rewrite Z2Nat.id in H by lia.
  apply andb_prop in H as [H H3]. apply andb_prop in H as [H1 H2].
  apply Z.eqb_eq in H1. now rewrite <- negb_true_iff, <- (negb_true_iff (tolower _ =? _)).
Qed.

Definition hex_pair (b : Z) : list Z := [hex_char (b / 16); hex_char (b mod 16)].

Lemma nibbles_check : all_below 256 (fun n => let b := Z.of_nat n in
  (0 <=? b / 16) && (b / 16 <? 16) && (b mod 16 .| u8 ((b / 16) << 4) =? b)) = true.
Proof. vm_compute. reflexivity. Qed.

Lemma nibbles b : is_byte b -> 0 <= b / 16 < 16 /\ 0 <= b mod 16 < 16 /\
  b mod 16 .| u8 ((b / 16) << 4) = b.
Proof.
  unfold in_word. intros Hb. change (2 ^ 8) with 256 in Hb.
  pose proof (all_below_spec _ _ nibbles_check (Z.to_nat b) ltac:(lia)) as H.
  cbv beta zeta in H. rewrite Z2Nat.id in H by lia.
  apply andb_prop in H as [H H3]. apply andb_prop in H as [H1 H2].
  apply Z.eqb_eq in H3. apply Z.leb_le in H1. apply Z.ltb_lt in H2.
  split; [lia|]. split; [apply Z.mod_pos_bound; lia|exact H3].
Qed.

Lemma GetHex_rev data : GetHex data = mjoin (hex_pair <$> rev data).
Proof.
  unfold GetHex. f_equal. apply (nth_ext _ _ [] []).
  - now rewrite length_fmap_seq, length_fmap, length_rev.
  - rewrite length_fmap_seq. intros i Hi. rewrite nth_fmap_seq by done.
    rewrite (nth_fmap_lt _ _ _ _ 0) by (now rewrite length_rev). unfold hex_pair.
    rewrite rev_nth by done. now replace (length data - S i)%nat with (length data - i - 1)%nat by lia.
Qed.

Lemma hex_pairs_cons b l : mjoin (hex_pair <$> b :: l) =
  hex_char (b / 16) :: hex_char (b mod 16) :: mjoin (hex_pair <$> l).
Proof. reflexivity. Qed.

(** All the digits of a printed blob are read. *)
Lemma leading_digits_hex l : bytes l ->
  leading_digits (mjoin (hex_pair <$> l)) = mjoin (hex_pair <$> l).
Proof.
  induction 1 as [|b l Hb Hl IH]; [done|]. rewrite hex_pairs_cons. cbn [leading_digits].
  destruct (nibbles b Hb) as (H1 & H2 & _).
  destruct (hex_char_spec _ H1) as (-> & _). destruct (hex_char_spec _ H2) as (-> & _).
  destruct (Z.eqb_spec (b / 16) (-1)); [lia|]. destruct (Z.eqb_spec (b mod 16) (-1)); [lia|].
  now rewrite IH.
Qed.

Lemma skip_hex l : bytes l ->
  skip_0x (skip_spaces (mjoin (hex_pair <$> l))) = mjoin (hex_pair <$> l).
Proof.
  intros [|b l' Hb Hl]; [done|]. rewrite hex_pairs_cons. cbn [skip_spaces].
  destruct (nibbles b Hb) as (H1 & H2 & _).
  destruct (hex_char_spec _ H1) as (_ & -> & _). cbn [skip_0x].
  destruct (hex_char_spec _ H2) as (_ & _ & ->). now rewrite andb_false_r.
Qed.

Lemma store_digits_hex l : bytes l ->
  store_digits (rev (mjoin (hex_pair <$> rev l))) (length l) = l.
Proof.
  induction 1 as [|b l Hb Hl IH]; [done|]. simpl.
  rewrite fmap_app, join_app, rev_app_distr. simpl.
  destruct (nibbles b Hb) as (H1 & H2 & H3).
  destruct (hex_char_spec _ H1) as (-> & _). destruct (hex_char_spec _ H2) as (-> & _).
  rewrite H3. f_equal. exact IH.
Qed.

(** ** Properties *)

(** Reading the hexadecimal form of a blob gives the blob back. *)
Theorem SetHex_GetHex data : bytes data -> SetHex (length data) (GetHex data) = data.
Proof.
  intros Hd. unfold SetHex. assert (Hr : bytes (rev data)) by now apply Forall_rev.
  rewrite GetHex_rev, skip_hex, leading_digits_hex, store_digits_hex by done.
  unfold null_blob. rewrite mem_write_full; rewrite ?length_replicate; done || lia.
Qed.

Example SetHex_prefix : SetHex 4 [32; 48; 120; 49; 50; 51; 52; 53; 122; 54] = [0x45; 0x23; 0x1; 0].
Proof. reflexivity. Qed.

Lemma SetHex_GetHex_witness :
  SetHex 3 (GetHex [0xab; 0x00; 0x7f]) = [0xab; 0x00; 0x7f].
Proof. apply (SetHex_GetHex [0xab; 0x00; 0x7f]). by_eval. Defined.
