(* ===== verification/PowHash.v ===== *)
(** * The block hash: src/hash.h, src/primitives/block.h and src/primitives/block.cpp

    The table of intermediate hash and encryption functions (hash.h), the two block hash
    functions [HashX11] and [GetHash_SHA256AndX11] with its memory-hard part, and the choice made by [CBlockHeader::GetHash].

    The functions exchange pointers into the objects of their caller, so the model has a
    memory of objects and pointers into it.  A read or write outside its object, a call
    through a null function pointer and a call through an index outside the table give
    [None]: a theorem that a function returns [Some] result is also a proof that none of
    this happens. *)

From S2P Require Import Prelude Words BlockBuffer Salsa20 Whirlpool Streebog Kuznechik.
From S2P Require Import Threefish Blob.

(** ** Memory *)

(** The local variables of the hash functions, the block header and "no object". *)
Inductive object :=
  o_null | o_header | o_hash | o_additional | o_combined | o_area.

#[export] Instance object_eq_dec : EqDecision object.
Proof. solve_decision. Defined.

(** A function pointer of each of the two tables. *)
Inductive hash_fn :=
  | f_blake | f_bmw | f_groestl | f_jh | f_keccak | f_skein | f_luffa | f_cubehash
  | f_shavite | f_simd | f_echo | f_streebog | f_whirlpool.
Inductive enc_fn := f_kuznechik | f_threefish | f_camellia.

(** The state: the objects, the static variables of libskein_skein.cc and the two global
    tables of function pointers ([None] is the null pointer). *)
Record world := mk_world {
  header : list Z; hash : list Z; additional : list Z; combined : list Z; area : list Z;
  skein : statics;
  aIntermediateHashFunctions : list (option hash_fn);
  aIntermediateEncryptionFunctions : list (option enc_fn) }.

Definition get (o : object) (w : world) : list Z :=
  match o with
  | o_null => [] | o_header => header w | o_hash => hash w | o_additional => additional w
  | o_combined => combined w | o_area => area w
  end.

Definition put (o : object) (b : list Z) (w : world) : world :=
  let '(mk_world h ha ad co ar g t1 t2) := w in
  match o with
  | o_null => w
  | o_header => mk_world b ha ad co ar g t1 t2
  | o_hash => mk_world h b ad co ar g t1 t2
  | o_additional => mk_world h ha b co ar g t1 t2
  | o_combined => mk_world h ha ad b ar g t1 t2
  | o_area => mk_world h ha ad co b g t1 t2
  end.

Definition set_skein (g : statics) (w : world) : world :=
  let '(mk_world h ha ad co ar _ t1 t2) := w in mk_world h ha ad co ar g t1 t2.

Definition set_tables (t1 : list (option hash_fn)) (t2 : list (option enc_fn)) (w : world)
    : world :=
  let '(mk_world h ha ad co ar g _ _) := w in mk_world h ha ad co ar g t1 t2.

Definition ptr : Type := object * nat.
Definition nullptr : ptr := (o_null, 0%nat).
Definition shift (p : ptr) (n : nat) : ptr := (p.1, (p.2 + n)%nat).

(** The bytes of the object from the pointer on, when there are at least [n] of them. *)
Definition from_ptr (p : ptr) (n : nat) (w : world) : option (list Z) :=
  if decide (p.2 + n <= length (get p.1 w))%nat then Some (drop p.2 (get p.1 w)) else None.

Definition load (p : ptr) (n : nat) (w : world) : option (list Z) :=
  take n <$> from_ptr p n w.

Definition store (p : ptr) (b : list Z) (w : world) : option world :=
  if decide (p.2 + length b <= length (get p.1 w))%nat
  then Some (put p.1 (mem_write (get p.1 w) p.2 b) w) else None.

(** Rewrite the object from the pointer on. *)
Definition replace_from (p : ptr) (b : list Z) (w : world) : world :=
  put p.1 (take p.2 (get p.1 w) ++ b) w.

Definition memcpy (dst src : ptr) (n : nat) (w : world) : option world :=
  b ← load src n w; store dst b w.

(** A loop whose body can fail. *)
Definition for_upM {S} (n : nat) (f : nat -> S -> option S) (s : S) : option S :=
  fold_left (fun o i => s ← o; f i s) (seq 0 n) (Some s).

(** ** The environment *)

(** The eleven hash functions of the sphlib library, each one an implementation of the
    interface of hash functions together with the contents of the uninitialised local
    variable that is its context. *)
Inductive sph_fn :=
  | blake512 | bmw512 | groestl512 | jh512 | keccak512 | skein512 | luffa512 | cubehash512
  | shavite512 | simd512 | echo512.

Record hash_impl := mk_impl {
  hi_ctx : Type;
  hi_ops :: StreamHash hi_ctx;
  hi_fresh : hi_ctx }.

(** What the functions use besides the memory: those libraries, OpenSSL's Camellia (which
    is not part of the repository), the addresses of objects (on which alignment tests
    depend) and the contents of uninitialised variables. *)
Record environment := mk_env {
  sph : sph_fn -> hash_impl;
  CAMELLIA_KEY : Type;
  Camellia_set_key : list Z -> Z -> CAMELLIA_KEY;
  Camellia_encrypt : list Z -> CAMELLIA_KEY -> list Z;
  address : ptr -> Z;
  whirlpool_fresh : whirlpool_ctx;
  whirlpool_address : Z;
  salsa_fresh : ECRYPT_ctx;
  salsa_tmp : list Z;
  alloc : nat -> list Z }.

Section Source.
Variable env : environment.

(** ** hash.h: the intermediate functions *)

(** Data, size, key, result: the type of the functions of both tables. *)
Definition TCryptographyFunction : Type := ptr -> Z -> ptr -> ptr -> world -> option world.

(** [sph_X512_init], [sph_X512] and [sph_X512_close] on a local context. *)
Definition sph_oneshot (f : sph_fn) (_pData : ptr) (_iDataSize : Z) (_pResult : ptr)
    (w : world) : option world :=
  let i := sph env f in
  data ← load _pData (Z.to_nat _iDataSize) w;
  let ctx := sh_update (sh_init (hi_fresh i)) (address env _pData) data in
  store _pResult (sh_close ctx) w.

Definition IntermediateHashFunction_Blake : TCryptographyFunction :=
  fun _pData _iDataSize _pKey _pResult => sph_oneshot blake512 _pData _iDataSize _pResult.
Definition IntermediateHashFunction_BMW : TCryptographyFunction :=
  fun _pData _iDataSize _pKey _pResult => sph_oneshot bmw512 _pData _iDataSize _pResult.
Definition IntermediateHashFunction_Groestl : TCryptographyFunction :=
  fun _pData _iDataSize _pKey _pResult => sph_oneshot groestl512 _pData _iDataSize _pResult.
Definition IntermediateHashFunction_JH : TCryptographyFunction :=
  fun _pData _iDataSize _pKey _pResult => sph_oneshot jh512 _pData _iDataSize _pResult.
Definition IntermediateHashFunction_Keccak : TCryptographyFunction :=
  fun _pData _iDataSize _pKey _pResult => sph_oneshot keccak512 _pData _iDataSize _pResult.
Definition IntermediateHashFunction_Skein : TCryptographyFunction :=
  fun _pData _iDataSize _pKey _pResult => sph_oneshot skein512 _pData _iDataSize _pResult.
Definition IntermediateHashFunction_Luffa : TCryptographyFunction :=
  fun _pData _iDataSize _pKey _pResult => sph_oneshot luffa512 _pData _iDataSize _pResult.
Definition IntermediateHashFunction_Cubehash : TCryptographyFunction :=
  fun _pData _iDataSize _pKey _pResult => sph_oneshot cubehash512 _pData _iDataSize _pResult.
Definition IntermediateHashFunction_Shavite : TCryptographyFunction :=
  fun _pData _iDataSize _pKey _pResult => sph_oneshot shavite512 _pData _iDataSize _pResult.
Definition IntermediateHashFunction_Simd : TCryptographyFunction :=
  fun _pData _iDataSize _pKey _pResult => sph_oneshot simd512 _pData _iDataSize _pResult.
Definition IntermediateHashFunction_Echo : TCryptographyFunction :=
  fun _pData _iDataSize _pKey _pResult => sph_oneshot echo512 _pData _iDataSize _pResult.

(** The size in bytes is passed as [hash_512]'s length in bits. *)
Definition IntermediateHashFunction_GOST_2012_Streebog : TCryptographyFunction :=
  fun _pData _iDataSize _pKey _pResult w =>
    message ← from_ptr _pData (nbytes _iDataSize) w;
    out ← from_ptr _pResult 64 w;
    Some (replace_from _pResult (Table.hash_512 message _iDataSize out) w).

Definition IntermediateHashFunction_Whirlpool : TCryptographyFunction :=
  fun _pData _iDataSize _pKey _pResult w =>
    data ← load _pData (Z.to_nat _iDataSize) w;
    result ← from_ptr _pResult 64 w;
    let ctx := rhash_whirlpool_init (whirlpool_fresh env) in
    let ctx := rhash_whirlpool_update ctx (address env _pData) data in
    let r := rhash_whirlpool_final ctx (whirlpool_address env) result (address env _pResult) in
    Some (replace_from _pResult r.2 w).

(** [encryptBlockWithGost15(roundKeys, data)] on pointers.  When the two point into the same
    object they may overlap; otherwise the objects are put side by side. *)
Definition encryptBlock_at (roundKeys data : ptr) (w : world) : option world :=
  m ← from_ptr (data.1, 0%nat) (data.2 + 16) w;
  k ← from_ptr (roundKeys.1, 0%nat) (roundKeys.2 + 160) w;
  Some (put data.1
    (if decide (roundKeys.1 = data.1) then encryptBlockWithGost15 m roundKeys.2 data.2
     else take (length m) (encryptBlockWithGost15 (m ++ k) (length m + roundKeys.2) data.2)) w).

Definition IntermediateEncryptionFunction_GOST_2015_Kuznechik : TCryptographyFunction :=
  fun _pData _iDataSize _pKey _pResult w =>
    w ← encryptBlock_at _pKey _pResult w;
    w ← encryptBlock_at _pData (shift _pResult 16) w;
    w ← encryptBlock_at _pKey (shift _pResult 32) w;
    encryptBlock_at _pData (shift _pResult 48) w.

Definition IntermediateEncryptionFunction_ThreeFish : TCryptographyFunction :=
  fun _pData _iDataSize _pKey _pResult w =>
    E ← from_ptr _pResult 64 w;
    K ← from_ptr _pKey 64 w;
    P ← from_ptr _pData 64 w;
    let '(g, E) := libskein_threefish_encrypt (alloc env) (skein w) E K (replicate 16 0) P 64 512 in
    Some (set_skein g (replace_from _pResult E w)).

Definition IntermediateEncryptionFunction_Camellia : TCryptographyFunction :=
  fun _pData _iDataSize _pKey _pResult w =>
    key ← load _pKey (256 / 8) w;
    data ← load _pData 16 w;
    let stKey := Camellia_set_key env key 256 in
    store _pResult (Camellia_encrypt env data stKey) w.

Definition hash_function (f : hash_fn) : TCryptographyFunction :=
  match f with
  | f_blake => IntermediateHashFunction_Blake
  | f_bmw => IntermediateHashFunction_BMW
  | f_groestl => IntermediateHashFunction_Groestl
  | f_jh => IntermediateHashFunction_JH
  | f_keccak => IntermediateHashFunction_Keccak
  | f_skein => IntermediateHashFunction_Skein
  | f_luffa => IntermediateHashFunction_Luffa
  | f_cubehash => IntermediateHashFunction_Cubehash
  | f_shavite => IntermediateHashFunction_Shavite
  | f_simd => IntermediateHashFunction_Simd
  | f_echo => IntermediateHashFunction_Echo
  | f_streebog => IntermediateHashFunction_GOST_2012_Streebog
  | f_whirlpool => IntermediateHashFunction_Whirlpool
  end.

Definition encryption_function (f : enc_fn) : TCryptographyFunction :=
  match f with
  | f_kuznechik => IntermediateEncryptionFunction_GOST_2015_Kuznechik
  | f_threefish => IntermediateEncryptionFunction_ThreeFish
  | f_camellia => IntermediateEncryptionFunction_Camellia
  end.

Definition I_AMOUNT_OF_INTERMEDIATE_HASH_FUNCTIONS : Z := 14.
Definition I_AMOUNT_OF_INTERMEDIATE_ENCRYPTION_FUNCTIONS : Z := 3.

(** Calls through the tables: [aIntermediateHashFunctions [ i ] ( ... )]. *)
Definition call_hash (i : Z) (_pData : ptr) (_iDataSize : Z) (_pKey _pResult : ptr) (w : world)
    : option world :=
  f ← (aIntermediateHashFunctions w !! Z.to_nat i) ≫= id;
  hash_function f _pData _iDataSize _pKey _pResult w.

Definition call_encryption (i : Z) (_pData : ptr) (_iDataSize : Z) (_pKey _pResult : ptr)
    (w : world) : option world :=
  f ← (aIntermediateEncryptionFunctions w !! Z.to_nat i) ≫= id;
  encryption_function f _pData _iDataSize _pKey _pResult w.

(** The tables before [HashGenerator_Init] is called, and after. *)
Definition null_tables (w : world) : world :=
  set_tables (replicate (Z.to_nat I_AMOUNT_OF_INTERMEDIATE_HASH_FUNCTIONS) None)
    (replicate (Z.to_nat I_AMOUNT_OF_INTERMEDIATE_ENCRYPTION_FUNCTIONS) None) w.

Definition HashGenerator_Init (w : world) : world :=
  let t := aIntermediateHashFunctions w in
  let t := <[0%nat := Some f_blake]> t in
  let t := <[1%nat := Some f_bmw]> t in
  let t := <[2%nat := Some f_groestl]> t in
  let t := <[3%nat := Some f_jh]> t in
  let t := <[4%nat := Some f_keccak]> t in
  let t := <[5%nat := Some f_skein]> t in
  let t := <[6%nat := Some f_luffa]> t in
  let t := <[7%nat := Some f_cubehash]> t in
  let t := <[8%nat := Some f_shavite]> t in
  let t := <[9%nat := Some f_simd]> t in
  let t := <[10%nat := Some f_echo]> t in
  let t := <[11%nat := Some f_streebog]> t in
  let t := <[12%nat := Some f_whirlpool]> t in
  let t := <[13%nat := Some f_streebog]> t in
  let e := aIntermediateEncryptionFunctions w in
  let e := <[0%nat := Some f_kuznechik]> e in
  let e := <[1%nat := Some f_threefish]> e in
  let e := <[2%nat := Some f_camellia]> e in
  set_tables t e w.

(** [& hash [ i ]] *)
Definition hash_at (i : nat) : ptr := (o_hash, (64 * i)%nat).

(** The declarations [uint512 hash[11]] and so on: the constructors clear the objects. *)
Definition new_hash (w : world) : world := put o_hash (replicate (11 * 64) 0) w.

(** [HashX11 ( pbegin, pend )] on the [n] bytes at [pbegin] (for an empty range the source
    passes one of its own bytes, none of which is read). *)
Definition HashX11 (pbegin : ptr) (n : Z) (w : world) : option (world * list Z) :=
  let w := new_hash w in
  w ← sph_oneshot blake512 pbegin n (hash_at 0) w;
  w ← sph_oneshot bmw512 (hash_at 0) 64 (hash_at 1) w;
  w ← sph_oneshot groestl512 (hash_at 1) 64 (hash_at 2) w;
  w ← sph_oneshot skein512 (hash_at 2) 64 (hash_at 3) w;
  w ← sph_oneshot jh512 (hash_at 3) 64 (hash_at 4) w;
  w ← sph_oneshot keccak512 (hash_at 4) 64 (hash_at 5) w;
  w ← sph_oneshot luffa512 (hash_at 5) 64 (hash_at 6) w;
  w ← sph_oneshot cubehash512 (hash_at 6) 64 (hash_at 7) w;
  w ← sph_oneshot shavite512 (hash_at 7) 64 (hash_at 8) w;
  w ← sph_oneshot simd512 (hash_at 8) 64 (hash_at 9) w;
  w ← sph_oneshot echo512 (hash_at 9) 64 (hash_at 10) w;
  h ← load (hash_at 10) 64 w;
  Some (w, trim256 h).

(** ** block.h and block.cpp *)

(** The fields of the header as the program stores them. *)
Record CBlockHeader := mk_header {
  nVersion : Z; hashPrevBlock : list Z; hashMerkleRoot : list Z;
  nTime : Z; nBits : Z; nNonce : Z }.

(** The bytes from [& nVersion] to the end of [nNonce]. *)
Definition header_bytes (h : CBlockHeader) : list Z :=
  le_split 4 (nVersion h) ++ hashPrevBlock h ++ hashMerkleRoot h ++
  le_split 4 (nTime h) ++ le_split 4 (nBits h) ++ le_split 4 (nNonce h).

Definition I_ALGORITHM_RECONFIGURATION_TIME_PERIOD_IN_SECONDS : Z := 604800.
Definition I_PRIME_NUMBER_FOR_MEMORY_HARD_HASHING : Z := 3571.

(** The macro I_AMOUNT_OF_BYTES_FOR_MEMORY_HARD_FUNCTION is [32 * 1024] without parentheses:
    [x % I_AMOUNT...] is [x % 32 * 1024], [I_AMOUNT... / 64] is [32 * 1024 / 64]. *)
Definition area_size : nat := 32 * 1024.

Definition GetUint64IndexFrom512BitsKey (_pKey : list Z) (pos : nat) : Z :=
  let pAdress i := load64_le _pKey (pos + 8 * i) in
  pAdress 0%nat ^^ pAdress 1%nat ^^ pAdress 2%nat ^^ pAdress 3%nat ^^
  pAdress 4%nat ^^ pAdress 5%nat ^^ pAdress 6%nat ^^ pAdress 7%nat.

Definition iWeekNumber (_iTimeFromGenesisBlock : Z) : Z :=
  u32 (_iTimeFromGenesisBlock / I_ALGORITHM_RECONFIGURATION_TIME_PERIOD_IN_SECONDS
       * I_ALGORITHM_RECONFIGURATION_TIME_PERIOD_IN_SECONDS).

(** Where step [i] of the first loop writes. *)
Definition iWriteIndex (key : list Z) (i : nat) : Z :=
  u64 (u64 (GetUint64IndexFrom512BitsKey key 0 mod 32 * 1024)
       + u32 (Z.of_nat i * I_PRIME_NUMBER_FOR_MEMORY_HARD_HASHING))
  mod (32 * 1024 - 8 * ECRYPT_BLOCKLENGTH).

(** [uint1024CombinedHashes.XOROperator ( 64, p )] *)
Definition xor_combined (p : ptr) (w : world) : option world :=
  data ← load p 64 w;
  d ← from_ptr (o_combined, 0%nat) (64 + 64) w;
  Some (put o_combined (XOROperator1024 d 64 data) w).

(** The body of the first loop (random writes) ... *)
Definition amplify_step (i : nat) (s : ECRYPT_ctx * world) : option (ECRYPT_ctx * world) :=
  let '(ctx, w) := s in
  key ← from_ptr (o_combined, 64%nat) 64 w;
  let index := Z.to_nat (iWriteIndex key i) in
  data ← load (o_combined, 64%nat) 64 w;
  '(ctx, c) ← ECRYPT_encrypt_blocks ctx data 1 (salsa_tmp env);
  w ← store (o_area, index) c w;
  w ← xor_combined (o_area, index) w;
  Some (ctx, w).

(** ... and the two loops together. *)
Definition memory_hard (ctx : ECRYPT_ctx) (w : world) : option world :=
  s ← for_upM (32 * 1024 / 64 / 2) amplify_step (ctx, w);
  for_upM (32 * 1024 / 64) (fun i => xor_combined (o_area, (i * 64)%nat)) s.2.

Definition GetHash_X11 (h : CBlockHeader) (_iTimeFromGenesisBlock : Z) (w : world)
    : option (world * list Z) :=
  HashX11 (o_header, 0%nat) 80 w.

Definition GetHash_SHA256AndX11 (h : CBlockHeader) (_iTimeFromGenesisBlock : Z) (w : world)
    : option (world * list Z) :=
  let w := new_hash w in
  let w := put o_additional (replicate 64 0) w in
  let w := put o_combined (replicate 128 0) w in
  w ← call_hash 0 (o_header, 0%nat) 80 nullptr (hash_at 0) w;
  w ← call_hash 1 (hash_at 0) 64 nullptr (o_additional, 0%nat) w;
  let week := iWeekNumber _iTimeFromGenesisBlock in
  let iIndex := u64 (week + nBits h) mod I_AMOUNT_OF_INTERMEDIATE_HASH_FUNCTIONS in
  w ← call_hash iIndex (o_additional, 0%nat) 64 nullptr (hash_at 1) w;
  w ← call_hash 2 (hash_at 1) 64 nullptr (hash_at 2) w;
  w ← call_hash 5 (hash_at 2) 64 nullptr (o_combined, 64%nat) w;
  w ← call_hash 3 (o_combined, 64%nat) 64 nullptr (o_combined, 0%nat) w;
  let w := put o_area (replicate area_size 0) w in
  key ← from_ptr (hash_at 1) 32 w;
  iv ← from_ptr (hash_at 2) 8 w;
  let ctx := ECRYPT_ivsetup (ECRYPT_keysetup (salsa_fresh env) key 256) iv in
  w ← memory_hard ctx w;
  w ← call_hash 4 (o_combined, 0%nat) 128 nullptr (hash_at 5) w;
  w ← call_hash 6 (hash_at 5) 64 nullptr (hash_at 6) w;
  w ← call_hash 7 (hash_at 6) 64 nullptr (hash_at 7) w;
  w ← memcpy (hash_at 6) (hash_at 7) 64 w;
  let iIndex := u64 (week + nBits h) mod I_AMOUNT_OF_INTERMEDIATE_ENCRYPTION_FUNCTIONS in
  w ← call_encryption iIndex (hash_at 6) 64 (hash_at 0) (hash_at 7) w;
  w ← call_hash 8 (hash_at 7) 64 nullptr (hash_at 8) w;
  w ← call_hash 9 (hash_at 8) 64 nullptr (o_additional, 0%nat) w;
  let iIndex := u64 (week + nBits h + 10) mod I_AMOUNT_OF_INTERMEDIATE_HASH_FUNCTIONS in
  w ← call_hash iIndex (o_additional, 0%nat) 64 nullptr (hash_at 9) w;
  w ← call_hash 10 (hash_at 9) 64 nullptr (hash_at 10) w;
  r ← load (hash_at 10) 64 w;
  Some (w, trim256 r).

(** The member table [aHashFunctions], set by the constructor. *)
Definition aHashFunctions : list (CBlockHeader -> Z -> world -> option (world * list Z)) :=
  [GetHash_X11; GetHash_SHA256AndX11].

(** [genesis_time] is [Params().GenesisBlock().nTime]; the call through the table gets the
    header object in memory. *)
Definition iTimeFromGenesisBlock (genesis_time : Z) (h : CBlockHeader) : Z :=
  u32 (nTime h - genesis_time).
Definition iAlgorithmSelector (t : Z) : nat := if t <? 3528000 then 0%nat else 1%nat.

Definition GetHash (genesis_time : Z) (h : CBlockHeader) (w : world) : option (world * list Z) :=
  let w := put o_header (header_bytes h) w in
  let t := iTimeFromGenesisBlock genesis_time h in
  f ← aHashFunctions !! iAlgorithmSelector t;
  f h t w.

Definition GetGenesisInitializationHash (h : CBlockHeader) (w : world)
    : option (world * list Z) :=
  let w := HashGenerator_Init w in
  let w := put o_header (header_bytes h) w in
  HashX11 (o_header, 0%nat) 80 w.
End Source.

(** ** The specification *)

(** An implementation of a 512-bit hash function: it meets the interface of hash functions,
    the uninitialised context is an acceptable one, and digests are 64 bytes. *)
Class HashImplOk (i : hash_impl) := {
  hio_spec : @StreamHashSpec (hi_ctx i) (hi_ops i);
  hio_fresh : @sh_raw _ _ hio_spec (hi_fresh i);
  hio_digest : forall m, bytes m ->
    bytes (@sh_digest _ _ hio_spec m) /\ length (@sh_digest _ _ hio_spec m) = 64%nat }.

(** The environment: OpenSSL's Camellia transforms blocks of 16 bytes, and uninitialised
    variables hold any values of their types. *)
Record environment_ok (env : environment) := {
  eo_sph : forall f, HashImplOk (sph env f);
  eo_camellia : forall d k, bytes d -> length d = 16%nat ->
    bytes (Camellia_encrypt env d k) /\ length (Camellia_encrypt env d k) = 16%nat;
  eo_whirlpool : length (message (whirlpool_fresh env)) = 64%nat;
  eo_salsa : wf_ctx (salsa_fresh env);
  eo_tmp : bytes (salsa_tmp env) /\ length (salsa_tmp env) = 64%nat;
  eo_alloc : forall n, length (alloc env n) = n }.

Section Spec.
Context (env : environment) (Henv : environment_ok env).

Definition sph_digest (f : sph_fn) (m : list Z) : list Z :=
  @sh_digest _ _ (@hio_spec _ (eo_sph env Henv f)) m.

(** The value of each intermediate hash function on [n] bytes. *)
Definition digest (f : hash_fn) (n : nat) (m : list Z) : list Z :=
  match f with
  | f_blake => sph_digest blake512 (take n m)
  | f_bmw => sph_digest bmw512 (take n m)
  | f_groestl => sph_digest groestl512 (take n m)
  | f_jh => sph_digest jh512 (take n m)
  | f_keccak => sph_digest keccak512 (take n m)
  | f_skein => sph_digest skein512 (take n m)
  | f_luffa => sph_digest luffa512 (take n m)
  | f_cubehash => sph_digest cubehash512 (take n m)
  | f_shavite => sph_digest shavite512 (take n m)
  | f_simd => sph_digest simd512 (take n m)
  | f_echo => sph_digest echo512 (take n m)
  | f_streebog => std_hash Standard.g_N (replicate 64 0) (message_value m (Z.of_nat n)) (Z.of_nat n)
  | f_whirlpool => @sh_digest _ _ whirlpool_hash_spec (take n m)
  end.

(** The value of each intermediate encryption function on blocks [d] (data) and [k] (key) of
    the array of blocks [bs], for the result block [r]. *)
Definition kuznechik_blocks (m : list Z) (data key result : nat) : list Z :=
  let m := encryptBlockWithGost15 m key result in
  let m := encryptBlockWithGost15 m data (result + 16) in
  let m := encryptBlockWithGost15 m key (result + 32) in
  encryptBlockWithGost15 m data (result + 48).

Definition encrypted (f : enc_fn) (bs : list (list Z)) (d k r : nat) : list Z :=
  match f with
  | f_kuznechik =>
      mem_read (kuznechik_blocks (mjoin bs) (64 * d) (64 * k) (64 * r)) (64 * r) 64
  | f_threefish =>
      words_to_bytes (Threefish threefish512 (bytes_to_words 8 (nth k bs [])) [0; 0]
        (bytes_to_words 8 (nth d bs [])))
  | f_camellia =>
      Camellia_encrypt env (take 16 (nth d bs [])) (Camellia_set_key env (take 32 (nth k bs [])) 256)
      ++ drop 16 (nth r bs [])
  end.

Definition hash_table : list hash_fn :=
  [f_blake; f_bmw; f_groestl; f_jh; f_keccak; f_skein; f_luffa; f_cubehash; f_shavite; f_simd;
   f_echo; f_streebog; f_whirlpool; f_streebog].
Definition enc_table : list enc_fn := [f_kuznechik; f_threefish; f_camellia].

(** [HashGenerator_Init] has been called. *)
Definition initialised (w : world) : Prop :=
  aIntermediateHashFunctions w = Some <$> hash_table /\
  aIntermediateEncryptionFunctions w = Some <$> enc_table.

(** The choice among [n] functions: the number of the week does not take part in it. *)
Definition select (nBits n : Z) : nat := Z.to_nat (nBits mod n).
Definition chosen_hash (k : Z) : hash_fn := nth (select k 14) hash_table f_blake.
Definition chosen_encryption (k : Z) : enc_fn := nth (select k 3) enc_table f_kuznechik.

(** The memory-hard part, from the blocks [ks] of the key stream and the block [s]: before
    step [i + 1] the accumulator is block [i] of the key stream, whatever was stored. *)
Definition accumulator (ks : nat -> list Z) (s : list Z) (i : nat) : list Z :=
  match i with O => s | S i => ks i end.

Definition filled_area (ks : nat -> list Z) (s : list Z) (n : nat) : list Z :=
  for_up n (fun i a => mem_write a (Z.to_nat (iWriteIndex (accumulator ks s i) i))
    (xor_list (accumulator ks s i) (ks i))) (replicate area_size 0).

Definition amplified (ks : nat -> list Z) (s : list Z) : list Z :=
  for_up 512 (fun i x => xor_list x (mem_read (filled_area ks s 256) (64 * i) 64))
    (accumulator ks s 256).

Definition salsa_input (key iv : list Z) : list Z :=
  input (ECRYPT_ivsetup (ECRYPT_keysetup (salsa_fresh env) key 256) iv).
Definition stream (j : list Z) (i : nat) : list Z := salsa20_block (seek i j).

(** The two block hash functions, as the flow of 64-byte blocks. *)
Definition x11_hash (m : list Z) : list Z :=
  take 32 (foldl (fun x f => sph_digest f x) m
    [blake512; bmw512; groestl512; skein512; jh512; keccak512; luffa512; cubehash512;
     shavite512; simd512; echo512]).

Definition zero_block : list Z := replicate 64 0.

Definition pow_hash (nBits : Z) (m : list Z) : list Z :=
  let h0 := digest f_blake 80 m in
  let h1 := digest (chosen_hash nBits) 64 (digest f_bmw 64 h0) in
  let h2 := digest f_groestl 64 h1 in
  let s := digest f_skein 64 h2 in
  let j := digest f_jh 64 s in
  let s' := amplified (stream (salsa_input h1 h2)) s in
  let h5 := digest f_keccak 128 (j ++ s') in
  let h6 := digest f_cubehash 64 (digest f_luffa 64 h5) in
  let bs := [h0; h1; h2; zero_block; zero_block; h5; h6; h6; zero_block; zero_block; zero_block] in
  let h7 := encrypted (chosen_encryption nBits) bs 6 0 7 in
  let h8 := digest f_shavite 64 h7 in
  let h9 := digest (chosen_hash (nBits + 10)) 64 (digest f_simd 64 h8) in
  take 32 (digest f_echo 64 h9).
End Spec.

(** ** Lemmas *)

Definition block64 (b : list Z) : Prop := bytes b /\ length b = 64%nat.

(** *** Arrays of blocks *)

Lemma length_blocks bs : Forall block64 bs -> length (mjoin bs) = (64 * length bs)%nat.
Proof.
  induction 1 as [|b bs [_ Hb] Hbs IH]; [done|].
  change (mjoin (b :: bs)) with (b ++ mjoin bs). rewrite length_app, IH. simpl. lia.
Qed.

Lemma bytes_blocks bs : Forall block64 bs -> bytes (mjoin bs).
Proof.
  induction 1 as [|b bs [Hb _] Hbs IH]; [constructor|].
  change (mjoin (b :: bs)) with (b ++ mjoin bs). now apply Forall_app_2.
Qed.

Lemma drop_blocks i bs : Forall block64 bs -> drop (64 * i) (mjoin bs) = mjoin (drop i bs).
Proof.
  intros H. revert i. induction H as [|b bs [Hb Hl] Hbs IH]; intros i.
  - rewrite drop_nil. exact (drop_nil (64 * i)).
  - destruct i as [|i]; [now rewrite Nat.mul_0_r, !drop_0|].
    change (mjoin (b :: bs)) with (b ++ mjoin bs).
    rewrite drop_app_ge by lia. cbn [drop]. rewrite <- IH. f_equal. lia.
Qed.

Lemma nth_block i bs : Forall block64 bs -> (i < length bs)%nat -> block64 (nth i bs []).
Proof.
  intros H Hi. destruct (lookup_lt_is_Some_2 bs i Hi) as [b Hb].
  rewrite nth_lookup_def, Hb. exact (Forall_lookup_1 _ _ _ _ H Hb).
Qed.

Lemma drop_blocks_cons i bs : Forall block64 bs -> (i < length bs)%nat ->
  drop (64 * i) (mjoin bs) = nth i bs [] ++ mjoin (drop (S i) bs).
Proof.
  intros H Hi. rewrite drop_blocks by done.
  destruct (lookup_lt_is_Some_2 bs i Hi) as [b Hb].
  now rewrite (drop_S bs b i Hb), nth_lookup_def, Hb.
Qed.

Lemma read_block i bs : Forall block64 bs -> (i < length bs)%nat ->
  mem_read (mjoin bs) (64 * i) 64 = nth i bs [].
Proof.
  intros H Hi. unfold mem_read. rewrite drop_blocks_cons by done.
  apply take_app_length'. now destruct (nth_block i bs H Hi).
Qed.

Lemma write_block i bs b : Forall block64 bs -> (i < length bs)%nat -> length b = 64%nat ->
  mem_write (mjoin bs) (64 * i) b = mjoin (<[i := b]> bs).
Proof.
  intros H Hi Hb. unfold mem_write. rewrite insert_take_drop by done.
  rewrite join_app. change (mjoin (b :: drop (S i) bs)) with (b ++ mjoin (drop (S i) bs)).
  rewrite Hb, <- drop_blocks by done. f_equal; [|do 2 f_equal; lia].
  rewrite <- (take_drop i bs) at 1. rewrite join_app. apply take_app_length'.
  rewrite length_blocks by now apply Forall_take. rewrite length_take. lia.
Qed.

Lemma Forall_insert_block i bs b : Forall block64 bs -> block64 b -> Forall block64 (<[i := b]> bs).
Proof. intros. now apply Forall_insert. Qed.

(** *** Memory *)

Lemma from_ptr_Some p n w : (p.2 + n <= length (get p.1 w))%nat ->
  from_ptr p n w = Some (drop p.2 (get p.1 w)).
Proof. intros H. unfold from_ptr. now rewrite decide_True. Qed.

Lemma load_Some p n w : (p.2 + n <= length (get p.1 w))%nat ->
  load p n w = Some (mem_read (get p.1 w) p.2 n).
Proof. intros H. unfold load. now rewrite from_ptr_Some. Qed.

Lemma store_Some p b w : (p.2 + length b <= length (get p.1 w))%nat ->
  store p b w = Some (put p.1 (mem_write (get p.1 w) p.2 b) w).
Proof. intros H. unfold store. now rewrite decide_True. Qed.

Lemma replace_from_write p b n w : (p.2 + n <= length (get p.1 w))%nat -> length b = n ->
  replace_from p (mem_write (drop p.2 (get p.1 w)) 0 b) w =
  put p.1 (mem_write (get p.1 w) p.2 b) w.
Proof.
  intros H Hb. unfold replace_from. f_equal. unfold mem_write. f_equal.
  rewrite take_0, app_nil_l. f_equal. now rewrite drop_drop.
Qed.

(** *** Loops that can fail *)

Lemma for_upM_S {S} n (f : nat -> S -> option S) s :
  for_upM (Datatypes.S n) f s = (s ← for_upM n f s; f n s).
Proof. unfold for_upM. now rewrite seq_S, fold_left_app. Qed.

Lemma for_upM_Some {S} (g : nat -> S) n (f : nat -> S -> option S) :
  (forall i, (i < n)%nat -> f i (g i) = Some (g (Datatypes.S i))) ->
  for_upM n f (g 0%nat) = Some (g n).
Proof.
  induction n as [|n IH]; intros H; [done|]. rewrite for_upM_S, IH by (intros; apply H; lia).
  simpl. apply H. lia.
Qed.

Section Proofs.
Context (env : environment) (Henv : environment_ok env).

(** *** The intermediate hash functions *)

Lemma sph_digest_block f m : bytes m -> block64 (sph_digest env Henv f m).
Proof. intros H. unfold sph_digest. now apply hio_digest. Qed.

Lemma nbytes_le n : (nbytes (Z.of_nat n) <= n)%nat.
Proof.
  unfold nbytes. apply Nat2Z.inj_le. rewrite Z2Nat.id by (apply Z.div_pos; lia).
  apply Z.lt_succ_r, Z.div_lt_upper_bound; lia.
Qed.

Lemma message_value_bound m n : bytes m -> (n <= length m)%nat -> (n mod 8 = 0)%nat ->
  message_value m (Z.of_nat n) < 2 ^ Z.of_nat n.
Proof.
  intros Hm Hl H8. unfold message_value. set (x := take _ _).
  assert (Hx : bytes x) by now apply Forall_take.
  destruct (be_combine_range x Hx) as [_ H]. eapply Z.lt_le_trans; [exact H|].
  apply Z.pow_le_mono_r; [lia|]. unfold x, nbytes. rewrite length_take.
  pose proof (Nat.div_mod_eq n 8) as E. rewrite H8, Nat.add_0_r in E.
  replace (Z.of_nat n + 7) with (7 + Z.of_nat (n / 8) * 8) by lia.
  rewrite Z.div_add by lia. change (7 / 8) with 0. lia.
Qed.

Lemma digest_block f n m : bytes m -> (n <= length m)%nat -> (n mod 8 = 0)%nat ->
  block64 (digest env Henv f n m).
Proof.
  intros Hm Hl H8. assert (Ht : bytes (take n m)) by now apply Forall_take.
  destruct f; try (now apply sph_digest_block); cbn [digest].
  - apply (hash_X_agree m (Z.of_nat n) 0 []); [done|lia| |now apply message_value_bound|by_eval].
    pose proof (nbytes_le n). lia.
  - split; [apply bytes_digest_of | apply length_digest_of]; auto using bytes_pad.
Qed.

Lemma sph_oneshot_spec f p n r w : bytes (get p.1 w) ->
  (p.2 + n <= length (get p.1 w))%nat -> (r.2 + 64 <= length (get r.1 w))%nat ->
  sph_oneshot env f p (Z.of_nat n) r w =
  Some (put r.1 (mem_write (get r.1 w) r.2
    (sph_digest env Henv f (take n (drop p.2 (get p.1 w))))) w).
Proof.
  intros Hb Hp Hr. unfold sph_oneshot. rewrite Nat2Z.id, load_Some by done. simpl.
  set (d := mem_read _ _ _). assert (Hd : bytes d) by now apply Forall_mem_read.
  pose proof (@sh_oneshot_digest _ _ (@hio_spec _ (eo_sph env Henv f)) (hi_fresh (sph env f))
    (address env p) d (@hio_fresh _ (eo_sph env Henv f)) Hd) as E.
  unfold sh_oneshot in E. rewrite E. fold (sph_digest env Henv f d).
  rewrite store_Some; [done|]. now rewrite (proj2 (sph_digest_block f d Hd)).
Qed.

Lemma hash_function_spec f p n k r w : bytes (get p.1 w) ->
  (p.2 + n <= length (get p.1 w))%nat -> (r.2 + 64 <= length (get r.1 w))%nat ->
  (n mod 8 = 0)%nat ->
  hash_function env f p (Z.of_nat n) k r w =
  Some (put r.1 (mem_write (get r.1 w) r.2 (digest env Henv f n (drop p.2 (get p.1 w)))) w).
Proof.
  intros Hb Hp Hr H8. assert (Hd : bytes (drop p.2 (get p.1 w))) by now apply Forall_drop.
  assert (Hl : (n <= length (drop p.2 (get p.1 w)))%nat) by (rewrite length_drop; lia).
  destruct f; try (now apply sph_oneshot_spec); cbn [hash_function].
  - unfold IntermediateHashFunction_GOST_2012_Streebog.
    pose proof (nbytes_le n) as Hn. rewrite !from_ptr_Some by lia. simpl.
    pose proof (digest_block f_streebog n _ Hd Hl H8) as [_ HB].
    destruct (hash_X_agree (drop p.2 (get p.1 w)) (Z.of_nat n) 0 (drop r.2 (get r.1 w)))
      as (E & _); [done|lia|pose proof (nbytes_le n); lia|now apply message_value_bound|by_eval|].
    unfold Table.hash_512, HashX.hash_512. rewrite E. f_equal.
    now apply (replace_from_write _ _ 64).
  - unfold IntermediateHashFunction_Whirlpool. rewrite Nat2Z.id.
    rewrite load_Some, from_ptr_Some by done. simpl. f_equal.
    assert (Ht : bytes (mem_read (get p.1 w) p.2 n)) by now apply Forall_mem_read.
    pose proof (wp_repr_update _ (address env p) [] _ Ht
      (wp_repr_init _ (eo_whirlpool env Henv))) as HR.
    rewrite (final_spec _ _ _ _ _ HR) by (rewrite length_drop; lia).
    apply (replace_from_write _ _ 64); [done|]. apply length_digest_of; [done|apply bytes_pad].
Qed.

(** Only the digested bytes matter. *)
Lemma digest_take f n m m' : (n <= length m)%nat -> take n m = take n m' ->
  digest env Henv f n m = digest env Henv f n m'.
Proof.
  intros Hl E. destruct f; cbn [digest]; rewrite ?E; try done.
  unfold message_value. pose proof (nbytes_le n) as Hn.
  assert (T : forall x : list Z, take (nbytes (Z.of_nat n)) x = take (nbytes (Z.of_nat n)) (take n x))
    by (intros; rewrite take_take; f_equal; lia).
  now rewrite T, E, <- T.
Qed.

Lemma digest_from_block f bs i : Forall block64 bs -> (i < length bs)%nat ->
  digest env Henv f 64 (drop (64 * i) (mjoin bs)) = digest env Henv f 64 (nth i bs []).
Proof.
  intros H Hi. destruct (nth_block i bs H Hi) as [_ Hl].
  rewrite drop_blocks_cons by done. apply digest_take.
  - rewrite length_app. lia.
  - now rewrite take_app_le by lia.
Qed.

(** *** The intermediate encryption functions *)

Lemma kuznechik_blocks_shape m d k r : bytes m -> (r + 64 <= length m)%nat ->
  exists x, block64 x /\ kuznechik_blocks m d k r = mem_write m r x.
Proof.
  intros Hm Hr. unfold kuznechik_blocks.
  destruct (encryptBlock_shape m k r Hm) as (x1 & B1 & L1 & ->); [lia|].
  assert (Hw : forall x, bytes x -> bytes (mem_write m r x)) by (intros; now apply Forall_mem_write).
  assert (Hl : forall x, (length x <= 64)%nat -> length (mem_write m r x) = length m)
    by (intros; apply length_mem_write; lia).
  destruct (encryptBlock_shape (mem_write m r x1) d (r + 16)) as (x2 & B2 & L2 & ->);
    [auto|rewrite Hl; lia|].
  assert (A : forall x y o, o = (r + length x)%nat -> (r + length x + length y <= length m)%nat ->
    mem_write (mem_write m r x) o y = mem_write m r (x ++ y))
    by (intros x y o -> H; now apply mem_write_app).
  rewrite A by lia.
  assert (B12 : bytes (x1 ++ x2)) by now apply Forall_app_2.
  assert (L12 : length (x1 ++ x2) = 32%nat) by (rewrite length_app; lia).
  destruct (encryptBlock_shape (mem_write m r (x1 ++ x2)) k (r + 32)) as (x3 & B3 & L3 & ->);
    [auto|rewrite Hl; lia|].
  rewrite A by lia.
  assert (B123 : bytes ((x1 ++ x2) ++ x3)) by now apply Forall_app_2.
  assert (L123 : length ((x1 ++ x2) ++ x3) = 48%nat) by (rewrite length_app; lia).
  destruct (encryptBlock_shape (mem_write m r ((x1 ++ x2) ++ x3)) d (r + 48))
    as (x4 & B4 & L4 & ->); [auto|rewrite Hl; lia|].
  rewrite A by lia.
  exists (((x1 ++ x2) ++ x3) ++ x4). split; [|done].
  split; [now apply Forall_app_2|]. rewrite length_app. lia.
Qed.

Lemma encryptBlock_at_same i j w :
  (i + 160 <= length (hash w))%nat -> (j + 16 <= length (hash w))%nat ->
  encryptBlock_at (o_hash, i) (o_hash, j) w =
  Some (put o_hash (encryptBlockWithGost15 (hash w) i j) w).
Proof.
  intros Hi Hj. unfold encryptBlock_at. cbn [fst snd].
  rewrite !from_ptr_Some by (simpl; lia). reflexivity.
Qed.

Lemma hash_put b w : hash (put o_hash b w) = b.
Proof. now destruct w. Qed.
Lemma put_put b b' w : put o_hash b' (put o_hash b w) = put o_hash b' w.
Proof. now destruct w. Qed.
Lemma set_skein_id w : set_skein (skein w) w = w.
Proof. now destruct w. Qed.

Lemma kuznechik_spec m d k r w : bytes m -> hash w = m ->
  (d + 160 <= length m)%nat -> (k + 160 <= length m)%nat -> (r + 64 <= length m)%nat ->
  IntermediateEncryptionFunction_GOST_2015_Kuznechik (o_hash, d) 64 (o_hash, k) (o_hash, r) w =
  Some (put o_hash (kuznechik_blocks m d k r) w).
Proof.
  intros Hm Hw Hd Hk Hr. unfold IntermediateEncryptionFunction_GOST_2015_Kuznechik, shift.
  cbn [fst snd]. unfold kuznechik_blocks.
  assert (P : forall m' i j, bytes m' -> length m' = length m -> (j + 16 <= length m)%nat ->
    bytes (encryptBlockWithGost15 m' i j) /\ length (encryptBlockWithGost15 m' i j) = length m).
  { intros m' i j Hb Hl Hj. destruct (encryptBlock_shape m' i j Hb) as (x & Bx & Lx & ->); [lia|].
    split; [now apply Forall_mem_write|]. rewrite length_mem_write; lia. }
  rewrite encryptBlock_at_same, Hw by (rewrite Hw; lia). simpl.
  destruct (P m k r Hm eq_refl ltac:(lia)) as [B1 L1].
  rewrite encryptBlock_at_same, hash_put, put_put by (rewrite hash_put; lia). simpl.
  destruct (P _ d (r + 16)%nat B1 L1 ltac:(lia)) as [B2 L2].
  rewrite encryptBlock_at_same, hash_put, put_put by (rewrite hash_put; lia). simpl.
  destruct (P _ k (r + 32)%nat B2 L2 ltac:(lia)) as [B3 L3].
  now rewrite encryptBlock_at_same, hash_put, put_put by (rewrite hash_put; lia).
Qed.

Lemma encrypted_block f bs d k r : Forall block64 bs ->
  (d < length bs)%nat -> (k < length bs)%nat -> (r < length bs)%nat ->
  block64 (encrypted env f bs d k r).
Proof.
  intros H Hd Hk Hr. pose proof (length_blocks bs H) as Hl. destruct f; cbn [encrypted].
  - destruct (kuznechik_blocks_shape (mjoin bs) (64 * d) (64 * k) (64 * r)) as (x & [Bx Lx] & ->);
      [now apply bytes_blocks|lia|]. rewrite mem_read_write_len by (lia || done). done.
  - split; [apply bytes_words_to_bytes|]. rewrite length_words_to_bytes.
    destruct (nth_block d bs H Hd) as [Bd Ld].
    destruct (good_Threefish (mk_statics [] [] 72 8) threefish512 512 (selects_512 _ _)
      (bytes_to_words 8 (nth k bs [])) [0; 0] (bytes_to_words 8 (nth d bs []))) as [_ E].
    + split; [now apply words_bytes_to_words|apply length_bytes_to_words].
    + rewrite E. reflexivity.
  - destruct (nth_block d bs H Hd) as [Bd Ld]. destruct (nth_block r bs H Hr) as [Br Lr].
    destruct (eo_camellia env Henv (take 16 (nth d bs [])) (Camellia_set_key env
      (take 32 (nth k bs [])) 256)) as [B L]; [now apply Forall_take|rewrite length_take; lia|].
    split; [apply Forall_app_2; [done|now apply Forall_drop]|].
    rewrite length_app, length_drop. lia.
Qed.

(** Unfold the flow of blocks before the ciphers when terms are compared. *)
Strategy expand [encrypted stream].

Section OnBlocks.
Context (d k r : nat) (w : world) (bs : list (list Z)).
Context (Hw : hash w = mjoin bs) (H : Forall block64 bs) (H11 : length bs = 11%nat).
Context (Hd : (d <= 8)%nat) (Hk : (k <= 8)%nat) (Hr : (r < 11)%nat).

Definition enc_result (f : enc_fn) : list Z := mjoin (<[r := encrypted env f bs d k r]> bs).

Lemma length_nth_block i : (i < 11)%nat -> length (nth i bs []) = 64%nat.
Proof. intros Hi. apply nth_block; [done|lia]. Qed.

Lemma enc_result_write f :
  enc_result f = mem_write (mjoin bs) (64 * r) (encrypted env f bs d k r).
Proof.
  destruct (encrypted_block f bs d k r) as [BE LE]; [done|lia..|].
  unfold enc_result. now rewrite write_block by (done || lia).
Qed.

Lemma kuznechik_on_blocks :
  IntermediateEncryptionFunction_GOST_2015_Kuznechik (hash_at d) 64 (hash_at k) (hash_at r) w =
  Some (put o_hash (enc_result f_kuznechik) w).
Proof.
  pose proof (length_blocks bs H) as Hl. pose proof (bytes_blocks bs H) as Hb.
  rewrite enc_result_write. unfold hash_at. rewrite (kuznechik_spec (mjoin bs)) by (done || lia).
  cbn [encrypted].
  destruct (kuznechik_blocks_shape (mjoin bs) (64 * d) (64 * k) (64 * r)) as (x & [Bx Lx] & E);
    [done|lia|]. rewrite E. now rewrite mem_read_write_len by (lia || done).
Qed.

Lemma threefish_on_blocks : exists g,
  IntermediateEncryptionFunction_ThreeFish env (hash_at d) 64 (hash_at k) (hash_at r) w =
  Some (set_skein g (put o_hash (enc_result f_threefish) w)).
Proof.
  pose proof (length_blocks bs H) as Hl. pose proof (bytes_blocks bs H) as Hb.
  pose proof (proj2 (encrypted_block f_threefish bs d k r H ltac:(lia) ltac:(lia) ltac:(lia))) as LE.
  rewrite enc_result_write. unfold IntermediateEncryptionFunction_ThreeFish, hash_at.
  pose proof (threefish512_spec (alloc env) (skein w)) as E. unfold encrypted in LE |- *.
  revert E LE. generalize (libskein_threefish_encrypt (alloc env) (skein w)).
  generalize (Threefish threefish512). intros TF F E LE.
  rewrite !from_ptr_Some by (cbn [fst snd get]; rewrite Hw; lia). cbn [fst snd get]. rewrite Hw.
  specialize (E (drop (64 * r) (mjoin bs)) (drop (64 * k) (mjoin bs)) (drop (64 * d) (mjoin bs))
    (eo_alloc env Henv)).
  cbn [mbind option_bind]. destruct (F _ _ _ _ _ _) as [g E']. exists g. cbn [snd] in E.
  rewrite E by (auto using Forall_drop; rewrite length_drop; lia). clear E E'.
  rewrite (drop_blocks_cons d), (drop_blocks_cons k) by (done || lia).
  rewrite !bytes_to_words_app by (apply length_nth_block; lia).
  set (c := words_to_bytes _) in *. clearbody c. rewrite <- Hw.
  do 2 apply f_equal. exact (replace_from_write (o_hash, (64 * r)%nat) _ 64 w
    ltac:(cbn [fst snd get]; rewrite Hw; lia) LE).
Qed.

Lemma camellia_on_blocks :
  IntermediateEncryptionFunction_Camellia env (hash_at d) 64 (hash_at k) (hash_at r) w =
  Some (put o_hash (enc_result f_camellia) w).
Proof.
  pose proof (length_blocks bs H) as Hl.
  destruct (encrypted_block f_camellia bs d k r) as [BE LE]; [done|lia..|].
  rewrite enc_result_write. unfold IntermediateEncryptionFunction_Camellia, hash_at.
  change (256 / 8)%nat with 32%nat. rewrite !load_Some by (cbn [fst snd get]; rewrite Hw; lia).
  cbn [fst snd get mbind option_bind]. rewrite Hw.
  assert (Et : forall n i, (n <= 64)%nat -> (i < 11)%nat ->
    mem_read (mjoin bs) (64 * i) n = take n (nth i bs [])).
  { intros n i Hn Hi. unfold mem_read. rewrite drop_blocks_cons by (done || lia).
    apply take_app_le. now rewrite length_nth_block. }
  rewrite !Et by lia. cbn [encrypted] in LE |- *.
  set (c := Camellia_encrypt env _ _) in *. pose proof (length_nth_block r Hr) as Lr.
  assert (Lc : length c = 16%nat) by (rewrite length_app, length_drop in LE; lia).
  rewrite store_Some by (cbn [fst snd get]; rewrite Hw; lia). cbn [fst snd get]. rewrite Hw.
  do 2 f_equal. rewrite <- mem_write_app by (rewrite length_drop; lia).
  symmetry. rewrite <- (read_block r bs), Lc by (done || lia).
  replace (drop 16 (mem_read (mjoin bs) (64 * r) 64)) with
    (mem_read (mem_write (mjoin bs) (64 * r) c) (64 * r + 16) 48).
  - apply mem_write_read. rewrite length_mem_write; lia.
  - rewrite mem_read_write_other by lia. unfold mem_read.
    rewrite skipn_firstn_comm, drop_drop. done.
Qed.

Lemma encryption_function_spec f : exists g,
  encryption_function env f (hash_at d) 64 (hash_at k) (hash_at r) w =
  Some (set_skein g (put o_hash (enc_result f) w)).
Proof.
  destruct f; [|exact threefish_on_blocks|]; cbn [encryption_function].
  - exists (skein (put o_hash (enc_result f_kuznechik) w)). rewrite set_skein_id.
    apply kuznechik_on_blocks.
  - exists (skein (put o_hash (enc_result f_camellia) w)). rewrite set_skein_id.
    apply camellia_on_blocks.
Qed.
End OnBlocks.

(** *** The memory-hard part *)

Lemma iWriteIndex_bounds key i : 0 <= iWriteIndex key i /\ iWriteIndex key i + 64 <= 32 * 1024.
Proof.
  unfold iWriteIndex, ECRYPT_BLOCKLENGTH.
  pose proof (Z.mod_pos_bound (u64 (u64 (GetUint64IndexFrom512BitsKey key 0 mod 32 * 1024)
    + u32 (Z.of_nat i * I_PRIME_NUMBER_FOR_MEMORY_HARD_HASHING))) (32 * 1024 - 8 * 64)
    ltac:(lia)). lia.
Qed.

Lemma xor_list_cancel_l x k : length k = length x -> xor_list x (xor_list x k) = k.
Proof.
  intros H. rewrite (xor_list_comm x k), (xor_list_comm x). now apply xor_list_cancel.
Qed.

Section MemoryHard.
Context (j : list Z) (Hj : wf_input j) (A s : list Z) (HA : block64 A) (Hs : block64 s).
Context (w : world).

Lemma stream_block i : block64 (stream j i).
Proof.
  destruct (wf_seek i j Hj) as [Hl _]. split; [apply bytes_join_split4|].
  now apply length_salsa20_block.
Qed.

Lemma accumulator_block i : block64 (accumulator (stream j) s i).
Proof. destruct i; [done|apply stream_block]. Qed.

Lemma index_fits (a x : list Z) i : length a = area_size ->
  (Z.to_nat (iWriteIndex x i) + 64 <= length a)%nat.
Proof.
  intros La. destruct (iWriteIndex_bounds x i) as [H1 H2]. rewrite La. unfold area_size. lia.
Qed.

Lemma length_area_write (a : list Z) i (c : list Z) : length a = area_size -> length c = 64%nat ->
  (Z.to_nat (iWriteIndex (accumulator (stream j) s i) i) + length c <= length a)%nat.
Proof.
  intros Ha Hc. rewrite Hc. now apply index_fits.
Qed.

Lemma cipher_block i : block64 (xor_list (accumulator (stream j) s i) (stream j i)).
Proof.
  destruct (accumulator_block i) as [B1 L1]. destruct (stream_block i) as [B2 L2].
  split; [apply words_xor_list; [lia|done|done]|]. rewrite length_xor_list. lia.
Qed.

Lemma filled_area_ok n : bytes (filled_area (stream j) s n) /\
  length (filled_area (stream j) s n) = area_size.
Proof.
  unfold filled_area.
  apply (for_up_inv (fun _ a => bytes a /\ length a = area_size)).
  - split; [apply Forall_replicate, in_word_0; lia|apply length_replicate].
  - intros i a Hi [Ba La]. destruct (cipher_block i) as [B L]. split; [now apply Forall_mem_write|].
    rewrite length_mem_write; [done|]. now apply length_area_write.
Qed.

Lemma filled_area_S n : filled_area (stream j) s (S n) =
  mem_write (filled_area (stream j) s n) (Z.to_nat (iWriteIndex (accumulator (stream j) s n) n))
    (xor_list (accumulator (stream j) s n) (stream j n)).
Proof. unfold filled_area. now rewrite for_up_S. Qed.

(** One block of the stream cipher. *)
Lemma encrypt_one_block i m : block64 m ->
  ECRYPT_encrypt_blocks (Salsa20.mk_ctx (seek i j)) m 1 (salsa_tmp env) =
  Some (Salsa20.mk_ctx (seek (S i) j), xor_list m (stream j i)).
Proof.
  intros [Bm Lm]. destruct (eo_tmp env Henv) as [Bt Lt].
  pose proof (wf_seek i j Hj) as Hw. unfold ECRYPT_encrypt_blocks.
  change (1 * ECRYPT_BLOCKLENGTH) with 64.
  rewrite encrypt_bytes_spec by (done || lia). cbn [input].
  rewrite (blocks_of_le_64 64), seek_seek by (done || lia). change (Z.to_nat 64) with 64%nat.
  rewrite Nat.add_1_r. do 3 f_equal; [rewrite <- Lm; apply firstn_all|].
  rewrite keystream_1 by done. change (salsa20_block (seek i j)) with (stream j i).
  apply take_ge. rewrite (proj2 (stream_block i)). apply le_n.
Qed.

Lemma xor_combined_spec a x d w0 : bytes d -> (a + 64 <= length d)%nat -> block64 x ->
  area w0 = d -> combined w0 = A ++ x ->
  xor_combined (o_area, a) w0 =
  Some (put o_combined (A ++ xor_list x (mem_read d a 64)) w0).
Proof.
  intros Bd Hd [Bx Lx] Ed Ec. destruct HA as [BA LA]. unfold xor_combined.
  rewrite load_Some by (cbn [fst snd get]; rewrite Ed; lia).
  rewrite from_ptr_Some by (cbn [fst snd get]; rewrite Ec, length_app; lia).
  cbn [fst snd get mbind option_bind]. rewrite Ed, Ec, drop_0.
  rewrite XOROperator1024_spec by
    (rewrite ?length_app, ?length_mem_read; auto using Forall_app_2, Forall_mem_read; lia).
  do 3 f_equal. assert (Hr : length (mem_read d a 64) = 64%nat) by now apply length_mem_read.
  set (r := mem_read d a 64) in *.
  assert (Er : mem_read r 0 64 = r)
    by (transitivity (mem_read r 0 (length r)); [now rewrite Hr|apply mem_read_all]).
  rewrite Er. clearbody r.
  unfold mem_read at 1. rewrite drop_app_length', take_ge by lia.
  rewrite mem_write_full by (rewrite ?length_app, ?length_xor_list; lia).
  now rewrite take_app_length'.
Qed.

(** The state before step [i]. *)
Definition amplify_state (i : nat) : ECRYPT_ctx * world :=
  (Salsa20.mk_ctx (seek i j),
   put o_area (filled_area (stream j) s i) (put o_combined (A ++ accumulator (stream j) s i) w)).

Lemma accumulator_S ks x i : accumulator ks x (S i) = ks i.
Proof. reflexivity. Qed.

Lemma get_area_put a c w0 : area (put o_area a (put o_combined c w0)) = a.
Proof. now destruct w0. Qed.
Lemma get_combined_put a c w0 : combined (put o_area a (put o_combined c w0)) = c.
Proof. now destruct w0. Qed.
Lemma put_twice a c a' c' w0 :
  put o_combined c' (put o_area a' (put o_area a (put o_combined c w0))) =
  put o_area a' (put o_combined c' w0).
Proof. now destruct w0. Qed.
Lemma put_combined_again a c c' w0 :
  put o_combined c' (put o_area a (put o_combined c w0)) = put o_area a (put o_combined c' w0).
Proof. now destruct w0. Qed.

(** One step, from any state: the accumulator becomes the key stream block. *)
Lemma amplify_step_core i c c' x k a w0 :
  ECRYPT_encrypt_blocks c x 1 (salsa_tmp env) = Some (c', xor_list x k) ->
  block64 x -> block64 k -> bytes a -> length a = area_size ->
  area w0 = a -> combined w0 = A ++ x ->
  amplify_step env i (c, w0) =
  Some (c', put o_combined (A ++ k)
    (put o_area (mem_write a (Z.to_nat (iWriteIndex x i)) (xor_list x k)) w0)).
Proof.
  intros E [Bx Lx] [Bk Lk] Ba La Ea Ec. destruct HA as [BA LA].
  pose proof (index_fits a x i La) as Hidx. unfold amplify_step.
  revert E Hidx. generalize iWriteIndex, ECRYPT_encrypt_blocks. intros index enc E Hidx.
  rewrite from_ptr_Some by (cbn [fst snd get]; rewrite Ec, length_app; lia).
  rewrite load_Some by (cbn [fst snd get]; rewrite Ec, length_app; lia).
  cbn [fst snd get mbind option_bind]. rewrite Ec. unfold mem_read at 1.
  rewrite drop_app_length', take_ge, E by lia. cbn [mbind option_bind].
  set (idx := Z.to_nat (index x i)) in *. clearbody idx.
  assert (Lc : length (xor_list x k) = 64%nat) by (rewrite length_xor_list; lia).
  rewrite store_Some by (cbn [fst snd get]; rewrite Ea; lia).
  cbn [fst snd get mbind option_bind]. rewrite Ea.
  rewrite (xor_combined_spec idx x (mem_write a idx (xor_list x k))).
  - cbn [mbind option_bind]. rewrite mem_read_write_len by lia.
    now rewrite xor_list_cancel_l by lia.
  - apply Forall_mem_write; [exact Ba|]. apply (words_xor_list 8); [lia|exact Bx|exact Bk].
  - rewrite length_mem_write; lia.
  - done.
  - destruct w0; reflexivity.
  - destruct w0; exact Ec.
Qed.

Lemma amplify_step_spec i :
  amplify_step env i (amplify_state i) = Some (amplify_state (S i)).
Proof.
  destruct (filled_area_ok i) as [Ba La]. unfold amplify_state.
  rewrite (amplify_step_core i _ _ _ _ _ _ (encrypt_one_block i _ (accumulator_block i))
    (accumulator_block i) (stream_block i) Ba La (get_area_put _ _ _) (get_combined_put _ _ _)).
  now rewrite put_twice, filled_area_S, accumulator_S.
Qed.

(** The second loop. *)
Lemma xor_rows_spec d x n w0 : bytes d -> (n * 64 <= length d)%nat -> block64 x ->
  area w0 = d -> combined w0 = A ++ x ->
  let f i x := xor_list x (mem_read d (64 * i) 64) in
  block64 (for_up n f x) /\
  for_upM n (fun i => xor_combined (o_area, (i * 64)%nat)) w0 =
  Some (put o_combined (A ++ for_up n f x) w0).
Proof.
  intros Bd Hd Bx Ea Ec f. induction n as [|n IH].
  - split; [exact Bx|]. rewrite for_up_0, <- Ec. now destruct w0.
  - destruct IH as [[B L] E]; [lia|]. rewrite for_upM_S, for_up_S, E. cbn [mbind option_bind].
    set (y := for_up n f x) in *. clearbody y. unfold f. split.
    + split; [apply (words_xor_list 8); [lia|exact B|now apply Forall_mem_read]|].
      rewrite length_xor_list, length_mem_read; lia.
    + rewrite (xor_combined_spec (n * 64) y d _ Bd); [|lia|done|now destruct w0|now destruct w0].
      rewrite (Nat.mul_comm n 64). now destruct w0.
Qed.

Lemma amplified_rows ks x : amplified ks x =
  for_up 512 (fun i y => xor_list y (mem_read (filled_area ks x 256) (64 * i) 64))
    (accumulator ks x 256).
Proof. reflexivity. Qed.

Lemma memory_hard_spec : combined w = A ++ s -> area w = replicate area_size 0 ->
  memory_hard env (Salsa20.mk_ctx j) w =
  Some (put o_area (filled_area (stream j) s 256) (put o_combined (A ++ amplified (stream j) s) w)).
Proof.
  intros Ec Ea. unfold memory_hard. change (32 * 1024 / 64 / 2)%nat with 256%nat.
  change (32 * 1024 / 64)%nat with 512%nat.
  replace (Salsa20.mk_ctx j, w) with (amplify_state 0).
  2:{ unfold amplify_state. rewrite seek_0 by done. apply f_equal.
      change (accumulator (stream j) s 0) with s.
      change (filled_area (stream j) s 0) with (replicate area_size 0).
      rewrite <- Ec, <- Ea. now destruct w. }
  rewrite for_upM_Some by (intros; apply amplify_step_spec).
  destruct (filled_area_ok 256) as [Ba La]. rewrite amplified_rows. unfold amplify_state.
  cbn [mbind option_bind snd].
  destruct (xor_rows_spec (filled_area (stream j) s 256) (accumulator (stream j) s 256) 512 _ Ba
    ltac:(rewrite La; unfold area_size; lia) (accumulator_block 256)
    (get_area_put (filled_area (stream j) s 256) (A ++ accumulator (stream j) s 256) w)
    (get_combined_put _ _ _)) as [_ ->].
  now rewrite put_combined_again.
Qed.
End MemoryHard.

(** *** The choice of functions *)

Lemma week_multiple t : in_word 32 t -> exists q, 0 <= q /\ iWeekNumber t = 604800 * q /\
  iWeekNumber t < 2 ^ 32.
Proof.
  unfold in_word, iWeekNumber, I_ALGORITHM_RECONFIGURATION_TIME_PERIOD_IN_SECONDS. intros Ht.
  exists (t / 604800). pose proof (Z.mul_div_le t 604800 ltac:(lia)).
  pose proof (Z.div_pos t 604800 ltac:(lia) ltac:(lia)).
  rewrite u32_small by (unfold in_word; lia). lia.
Qed.

(** The week number is a multiple of 604800, which both table sizes divide. *)
Lemma selected t nBits a n : in_word 32 t -> in_word 32 nBits -> 0 <= a <= 10 -> 0 < n ->
  604800 mod n = 0 ->
  Z.to_nat (u64 (iWeekNumber t + nBits + a) mod n) = select (nBits + a) n.
Proof.
  intros Ht Hn Ha H0 Hd. destruct (week_multiple t Ht) as (q & Hq & E & Hw).
  unfold in_word in Hn. rewrite u64_small by (unfold in_word; lia). rewrite E. unfold select.
  apply Z.mod_divide in Hd as [c Hc]; [|lia]. rewrite Hc. f_equal.
  replace (c * n * q + nBits + a) with (nBits + a + (c * q) * n) by lia.
  apply Z.mod_add. lia.
Qed.

Lemma select_lt k n : 0 < n -> (select k n < Z.to_nat n)%nat.
Proof. intros H. unfold select. pose proof (Z.mod_pos_bound k n H). lia. Qed.

Lemma table_lookup {A} (l : list A) i d : (i < length l)%nat -> l !! i = Some (nth i l d).
Proof.
  intros H. destruct (lookup_lt_is_Some_2 l i H) as [x E]. now rewrite nth_lookup_def, E.
Qed.

Lemma chosen_hash_lookup k : hash_table !! select k 14 = Some (chosen_hash k).
Proof. apply (table_lookup hash_table). apply (select_lt k 14). lia. Qed.

Lemma chosen_encryption_lookup k : enc_table !! select k 3 = Some (chosen_encryption k).
Proof. apply (table_lookup enc_table). apply (select_lt k 3). lia. Qed.

(** *** Calls in the states of the block hash *)

Definition good_blocks (bs : list (list Z)) : Prop := Forall block64 bs /\ length bs = 11%nat.

(** A state whose array of hashes holds the blocks [bs]. *)
Definition st hd bs ad co ar g : world :=
  mk_world hd (mjoin bs) ad co ar g (Some <$> hash_table) (Some <$> enc_table).

Lemma call_hash_table i f p n k r w : initialised w -> hash_table !! Z.to_nat i = Some f ->
  call_hash env i p n k r w = hash_function env f p n k r w.
Proof.
  intros [H _] E. unfold call_hash. rewrite H, list_lookup_fmap, E. reflexivity.
Qed.

Lemma call_encryption_table i f p n k r w : initialised w -> enc_table !! Z.to_nat i = Some f ->
  call_encryption env i p n k r w = encryption_function env f p n k r w.
Proof.
  intros [_ H] E. unfold call_encryption. rewrite H, list_lookup_fmap, E. reflexivity.
Qed.

Section Calls.
Context (hd : list Z) (bs : list (list Z)) (ad co ar : list Z) (g : statics).
Context (Hbs : good_blocks bs).
Abbreviation w := (st hd bs ad co ar g).
Context (i : Z) (f : hash_fn) (Hf : hash_table !! Z.to_nat i = Some f) (k : ptr).

Lemma st_initialised : initialised w.
Proof. split; reflexivity. Qed.

Lemma length_st_hash : length (mjoin bs) = 704%nat.
Proof. destruct Hbs as [H L]. rewrite length_blocks, L by done. reflexivity. Qed.

(** From the array, an object or the array to the array. *)
Lemma call_to_hash o n size b : size = Z.of_nat n -> o <> o_hash -> bytes (get o w) -> (n <= length (get o w))%nat ->
  (n mod 8 = 0)%nat -> (b < 11)%nat ->
  call_hash env i (o, 0%nat) size k (hash_at b) w =
  Some (st hd (<[b := digest env Henv f n (get o w)]> bs) ad co ar g).
Proof.
  intros -> Ho HB Hn H8 Hb. rewrite (call_hash_table i f) by (done || apply st_initialised).
  pose proof length_st_hash as HL. destruct Hbs as [H L].
  rewrite hash_function_spec by (cbn [fst snd hash_at get st hash]; done || lia).
  cbn [fst snd hash_at]. rewrite drop_0.
  change (get o_hash w) with (mjoin bs). rewrite write_block by
    (done || lia || now apply digest_block). reflexivity.
Qed.

Lemma call_hash_hash a b : (a < 11)%nat -> (b < 11)%nat ->
  call_hash env i (hash_at a) 64 k (hash_at b) w =
  Some (st hd (<[b := digest env Henv f 64 (nth a bs [])]> bs) ad co ar g).
Proof.
  intros Ha Hb. rewrite (call_hash_table i f) by (done || apply st_initialised).
  pose proof length_st_hash as HL. destruct Hbs as [H L]. pose proof (bytes_blocks bs H) as HB.
  destruct (nth_block a bs H) as [Bn Ln]; [lia|].
  rewrite (hash_function_spec f _ 64) by (cbn [fst snd hash_at get st hash]; done || lia).
  cbn [fst snd hash_at]. change (get o_hash w) with (mjoin bs).
  rewrite digest_from_block by (done || lia).
  rewrite write_block; [reflexivity|done|lia|]. apply digest_block; [done|lia|done].
Qed.

Lemma call_hash_additional a : (a < 11)%nat -> length ad = 64%nat ->
  call_hash env i (hash_at a) 64 k (o_additional, 0%nat) w =
  Some (st hd bs (digest env Henv f 64 (nth a bs [])) co ar g).
Proof.
  intros Ha Hl. rewrite (call_hash_table i f) by (done || apply st_initialised).
  pose proof length_st_hash as HL. destruct Hbs as [H L]. pose proof (bytes_blocks bs H) as HB.
  destruct (nth_block a bs H) as [Bn Ln]; [lia|].
  rewrite (hash_function_spec f _ 64) by (cbn [fst snd hash_at get st hash additional]; done || lia).
  cbn [fst snd hash_at]. change (get o_hash w) with (mjoin bs).
  rewrite digest_from_block by (done || lia).
  destruct (digest_block f 64 _ Bn ltac:(lia) eq_refl) as [_ HD].
  change (get o_additional w) with ad. rewrite mem_write_full by lia. reflexivity.
Qed.

Lemma call_hash_combined a : (a < 11)%nat -> length co = 128%nat ->
  call_hash env i (hash_at a) 64 k (o_combined, 64%nat) w =
  Some (st hd bs ad (take 64 co ++ digest env Henv f 64 (nth a bs [])) ar g).
Proof.
  intros Ha Hl. rewrite (call_hash_table i f) by (done || apply st_initialised).
  pose proof length_st_hash as HL. destruct Hbs as [H L]. pose proof (bytes_blocks bs H) as HB.
  destruct (nth_block a bs H) as [Bn Ln]; [lia|].
  rewrite (hash_function_spec f _ 64) by (cbn [fst snd hash_at get st hash combined]; done || lia).
  cbn [fst snd hash_at]. change (get o_hash w) with (mjoin bs).
  rewrite digest_from_block by (done || lia).
  destruct (digest_block f 64 _ Bn ltac:(lia) eq_refl) as [_ HD].
  change (get o_combined w) with co. rewrite mem_write_full by lia. reflexivity.
Qed.

Lemma call_combined_combined a s : co = a ++ s -> length a = 64%nat -> block64 s ->
  bytes a -> call_hash env i (o_combined, 64%nat) 64 k (o_combined, 0%nat) w =
  Some (st hd bs ad (digest env Henv f 64 s ++ s) ar g).
Proof.
  intros Ec La [Bs Ls] Ba. rewrite (call_hash_table i f) by (done || apply st_initialised).
  assert (HB : bytes co) by (rewrite Ec; now apply Forall_app_2).
  assert (HL : length co = 128%nat) by (rewrite Ec, length_app; lia).
  rewrite (hash_function_spec f _ 64) by (cbn [fst snd get st combined]; done || lia).
  cbn [fst snd]. change (get o_combined w) with co. rewrite Ec, drop_app_length' by done.
  destruct (digest_block f 64 _ Bs ltac:(lia) eq_refl) as [_ HD].
  unfold mem_write. rewrite take_0, app_nil_l, drop_app_length' by lia. reflexivity.
Qed.
End Calls.

Lemma memcpy_blocks hd bs ad co ar g a b : good_blocks bs -> (a < 11)%nat -> (b < 11)%nat ->
  memcpy (hash_at b) (hash_at a) 64 (st hd bs ad co ar g) =
  Some (st hd (<[b := nth a bs []]> bs) ad co ar g).
Proof.
  intros Hbs Ha Hb. pose proof (length_st_hash bs Hbs) as HL. destruct Hbs as [H L].
  unfold memcpy. rewrite load_Some by (cbn [fst snd hash_at get st hash]; lia).
  cbn [mbind option_bind fst snd hash_at get st hash]. rewrite read_block by (done || lia).
  destruct (nth_block a bs H) as [Bn Ln]; [lia|].
  rewrite store_Some by (cbn [fst snd hash_at get st hash]; lia).
  cbn [fst snd hash_at get st hash]. rewrite write_block by (done || lia). reflexivity.
Qed.

Lemma call_encryption_hash hd bs ad co ar g i f d k r : good_blocks bs ->
  enc_table !! Z.to_nat i = Some f -> (d <= 8)%nat -> (k <= 8)%nat -> (r < 11)%nat ->
  exists g', call_encryption env i (hash_at d) 64 (hash_at k) (hash_at r)
    (st hd bs ad co ar g) =
  Some (st hd (<[r := encrypted env f bs d k r]> bs) ad co ar g').
Proof.
  intros [H L] Hf Hd Hk Hr. rewrite (call_encryption_table i f) by (done || split; reflexivity).
  destruct (encryption_function_spec d k r (st hd bs ad co ar g) bs eq_refl H L Hd Hk Hr f)
    as [g' E]. exists g'. exact E.
Qed.

Lemma good_insert bs b x : good_blocks bs -> block64 x -> good_blocks (<[b := x]> bs).
Proof.
  intros [H L] Hx. split; [now apply Forall_insert_block|now rewrite length_insert].
Qed.

(** *** The block hash *)

Lemma zero_block_ok : block64 zero_block.
Proof. by_eval. Qed.

Lemma length_header h : length (hashPrevBlock h) = 32%nat -> length (hashMerkleRoot h) = 32%nat ->
  length (header_bytes h) = 80%nat.
Proof.
  intros H1 H2. unfold header_bytes. rewrite !length_app, !length_le_split, H1, H2. reflexivity.
Qed.

Lemma bytes_header h : bytes (hashPrevBlock h) -> bytes (hashMerkleRoot h) ->
  bytes (header_bytes h).
Proof. intros H1 H2. unfold header_bytes. rewrite !Forall_app. auto 10 with words. Qed.

(** The blocks of the state of the next call are well formed: a hypothesis [G]. *)
Ltac next_blocks G :=
  lazymatch goal with
  | |- context [st _ ?bs _ _ _ _ ] =>
      assert (G : good_blocks bs) by
        (split; [repeat (apply Forall_cons; [assumption || exact zero_block_ok|]);
          apply Forall_nil|reflexivity])
  end.

(** From the header to the two halves of the memory-hard part. *)
Lemma first_stage nBits t hd ar g : in_word 32 t -> in_word 32 nBits ->
  bytes hd -> length hd = 80%nat ->
  let h0 := digest env Henv f_blake 80 hd in
  let a := digest env Henv f_bmw 64 h0 in
  let h1 := digest env Henv (chosen_hash nBits) 64 a in
  let h2 := digest env Henv f_groestl 64 h1 in
  let s := digest env Henv f_skein 64 h2 in
  let z := zero_block in
  (w ← call_hash env 0 (o_header, 0%nat) 80 nullptr (hash_at 0)
     (st hd [z; z; z; z; z; z; z; z; z; z; z] z (replicate 128 0) ar g);
   w ← call_hash env 1 (hash_at 0) 64 nullptr (o_additional, 0%nat) w;
   w ← call_hash env (u64 (iWeekNumber t + nBits) mod I_AMOUNT_OF_INTERMEDIATE_HASH_FUNCTIONS)
     (o_additional, 0%nat) 64 nullptr (hash_at 1) w;
   w ← call_hash env 2 (hash_at 1) 64 nullptr (hash_at 2) w;
   w ← call_hash env 5 (hash_at 2) 64 nullptr (o_combined, 64%nat) w;
   call_hash env 3 (o_combined, 64%nat) 64 nullptr (o_combined, 0%nat) w) =
  Some (st hd [h0; h1; h2; z; z; z; z; z; z; z; z] a (digest env Henv f_jh 64 s ++ s) ar g) /\
  block64 h0 /\ block64 a /\ block64 h1 /\ block64 h2 /\ block64 s.
Proof.
  intros Ht Hn Hb Hl h0 a h1 h2 s z. pose proof zero_block_ok as Bz. fold z in Bz.
  assert (D : forall f m, block64 m -> block64 (digest env Henv f 64 m))
    by (intros f m [Bm Lm]; apply digest_block; [done|lia|done]).
  assert (B0 : block64 h0) by (apply digest_block; [done|lia|done]).
  assert (Ba : block64 a) by now apply D. assert (B1 : block64 h1) by now apply D.
  assert (B2 : block64 h2) by now apply D. assert (Bs : block64 s) by now apply D.
  split; [|done].
  next_blocks G1.
  rewrite (call_to_hash hd _ z (replicate 128 0) ar g G1 0 f_blake eq_refl nullptr
    o_header 80 80 0 eq_refl ltac:(done) Hb ltac:(cbn [get st header]; lia) eq_refl ltac:(lia)).
  cbn [mbind option_bind get st header insert list_insert]. fold h0. clearbody h0.
  next_blocks G2.
  rewrite (call_hash_additional hd _ z (replicate 128 0) ar g G2 1 f_bmw eq_refl
    nullptr 0 ltac:(lia) (proj2 Bz)). cbn [mbind option_bind nth]. fold a. clearbody a.
  pose proof (selected t nBits 0 14 Ht Hn ltac:(lia) ltac:(lia) eq_refl) as Es.
  rewrite !Z.add_0_r in Es. pose proof (chosen_hash_lookup nBits) as Hc. rewrite <- Es in Hc.
  change I_AMOUNT_OF_INTERMEDIATE_HASH_FUNCTIONS with 14. next_blocks G3.
  rewrite (call_to_hash hd _ a (replicate 128 0) ar g G3 _ _ Hc nullptr
    o_additional 64 64 1 eq_refl ltac:(done) (proj1 Ba)
    ltac:(cbn [get st additional]; destruct Ba; lia) eq_refl ltac:(lia)).
  cbn [mbind option_bind get st additional insert list_insert]. fold h1. clearbody h1.
  next_blocks G4.
  rewrite (call_hash_hash hd _ a (replicate 128 0) ar g G4 2 f_groestl eq_refl
    nullptr 1 2 ltac:(lia) ltac:(lia)).
  cbn [mbind option_bind nth insert list_insert]. fold h2. clearbody h2.
  next_blocks G5.
  rewrite (call_hash_combined hd _ a (replicate 128 0) ar g G5 5 f_skein eq_refl
    nullptr 2 ltac:(lia) eq_refl). cbn [mbind option_bind nth]. fold s. clearbody s.
  exact (call_combined_combined hd _ a (take 64 (replicate 128 0) ++ s) ar g 3 f_jh eq_refl
    nullptr (take 64 (replicate 128 0)) s eq_refl eq_refl Bs ltac:(by_eval)).
Qed.

Lemma digest_block64 f m : block64 m -> block64 (digest env Henv f 64 m).
Proof. intros [Bm Lm]. apply digest_block; [done|lia|done]. Qed.

(** The key and the initialisation vector are read at the start of longer arrays. *)
Lemma U8TO32_app k r off : (off + 4 <= length k)%nat ->
  U8TO32_LITTLE (k ++ r) off = U8TO32_LITTLE k off.
Proof. intros H. unfold U8TO32_LITTLE. now rewrite !app_nth1 by lia. Qed.

Lemma salsa_input_app k r iv r' : (32 <= length k)%nat -> (8 <= length iv)%nat ->
  input (ECRYPT_ivsetup (ECRYPT_keysetup (salsa_fresh env) (k ++ r) 256) (iv ++ r')) =
  salsa_input env k iv.
Proof.
  intros Hk Hiv. unfold salsa_input, ECRYPT_ivsetup, ECRYPT_keysetup. cbn [Z.eqb Pos.eqb].
  rewrite drop_app_le by lia.
  assert (Hd : (16 <= length (drop 16 k))%nat) by (rewrite length_drop; lia).
  now rewrite !U8TO32_app by lia.
Qed.

Lemma wf_salsa_input k iv : bytes k -> bytes iv -> wf_input (salsa_input env k iv).
Proof.
  intros Hk Hiv. unfold salsa_input. destruct (eo_salsa env Henv) as [H1 H2].
  apply wf_ivsetup; [|done]. now apply wf_keysetup.
Qed.

Lemma amplified_block j s : wf_input j -> block64 s -> block64 (amplified (stream j) s).
Proof.
  intros Hj Hs. rewrite amplified_rows. destruct (filled_area_ok j Hj s Hs 256) as [Ba La].
  apply (xor_rows_spec zero_block zero_block_ok (filled_area (stream j) s 256) _ 512
    (put o_area (filled_area (stream j) s 256) (put o_combined (zero_block ++
      accumulator (stream j) s 256) (mk_world [] [] [] [] [] initial_statics [] []))) Ba);
    [rewrite La; unfold area_size; lia|now apply accumulator_block|reflexivity|reflexivity].
Qed.

(** From the memory-hard part to the input of the encryption. *)
Lemma second_stage hd h0 h1 h2 a j s ar g :
  block64 h0 -> block64 h1 -> block64 h2 -> block64 a -> block64 j -> block64 s ->
  let z := zero_block in
  let s' := amplified (stream (salsa_input env h1 h2)) s in
  let h5 := digest env Henv f_keccak 128 (j ++ s') in
  let h6 := digest env Henv f_cubehash 64 (digest env Henv f_luffa 64 h5) in
  exists co ar',
  (let w := put o_area (replicate area_size 0)
     (st hd [h0; h1; h2; z; z; z; z; z; z; z; z] a (j ++ s) ar g) in
   key ← from_ptr (hash_at 1) 32 w;
   iv ← from_ptr (hash_at 2) 8 w;
   let ctx := ECRYPT_ivsetup (ECRYPT_keysetup (salsa_fresh env) key 256) iv in
   w ← memory_hard env ctx w;
   w ← call_hash env 4 (o_combined, 0%nat) 128 nullptr (hash_at 5) w;
   w ← call_hash env 6 (hash_at 5) 64 nullptr (hash_at 6) w;
   w ← call_hash env 7 (hash_at 6) 64 nullptr (hash_at 7) w;
   memcpy (hash_at 6) (hash_at 7) 64 w) =
  Some (st hd [h0; h1; h2; z; z; h5; h6; h6; z; z; z] a co ar' g) /\
  block64 h5 /\ block64 h6.
Proof.
  intros B0 B1 B2 Ba Bj Bs z s' h5 h6. pose proof zero_block_ok as Bz. fold z in Bz.
  pose proof (wf_salsa_input h1 h2 (proj1 B1) (proj1 B2)) as Hwf.
  pose proof (amplified_block _ s Hwf Bs) as Bs'. fold s' in Bs'.
  assert (Bjs : block64 h5).
  { apply digest_block; [apply Forall_app_2; [apply Bj|apply Bs']| |done].
    rewrite length_app. destruct Bj, Bs'. lia. }
  assert (B6 : block64 h6) by now do 2 apply digest_block64.
  set (bs := [h0; h1; h2; z; z; z; z; z; z; z; z]).
  assert (G : good_blocks bs)
    by (split; [repeat (apply Forall_cons; [assumption|]); apply Forall_nil|reflexivity]).
  exists (j ++ s'), (filled_area (stream (salsa_input env h1 h2)) s 256). split; [|done].
  change (put o_area _ (st hd bs a (j ++ s) ar g)) with
    (st hd bs a (j ++ s) (replicate area_size 0) g). cbv zeta.
  pose proof (length_st_hash bs G) as HL. pose proof G as [GF GL].
  rewrite !from_ptr_Some by (cbn [fst snd hash_at get st hash]; lia).
  cbn [mbind option_bind fst snd hash_at get st hash]. rewrite !drop_blocks_cons by (done || simpl; lia).
  change (nth 1 bs []) with h1. change (nth 2 bs []) with h2.
  generalize (mjoin (drop 2 bs)), (mjoin (drop 3 bs)). intros r1 r2.
  pose proof (salsa_input_app h1 r1 h2 r2 ltac:(destruct B1; lia) ltac:(destruct B2; lia)) as Ei.
  destruct (ECRYPT_ivsetup _ _) as [i0]. cbn [input] in Ei. subst i0.
  rewrite (memory_hard_spec _ Hwf j s Bj Bs (st hd bs a (j ++ s) (replicate area_size 0) g)
    eq_refl eq_refl). cbn [mbind option_bind]. fold s'.
  set (ar' := filled_area _ _ _). clearbody ar'.
  change (put o_area ar' (put o_combined (j ++ s') (st hd bs a (j ++ s) (replicate area_size 0) g)))
    with (st hd bs a (j ++ s') ar' g). clearbody s'.
  rewrite (call_to_hash hd bs a (j ++ s') ar' g G 4 f_keccak eq_refl nullptr o_combined 128 128 5
    eq_refl ltac:(done) ltac:(apply Forall_app_2; [apply Bj|apply Bs'])
    ltac:(cbn [get st combined]; rewrite length_app; destruct Bj, Bs'; lia) eq_refl ltac:(lia)).
  unfold bs. cbn [mbind option_bind get st combined insert list_insert]. fold h5. clearbody h5.
  next_blocks G1. rewrite (call_hash_hash hd _ a (j ++ s') ar' g G1 6 f_luffa eq_refl
    nullptr 5 6 ltac:(lia) ltac:(lia)). cbn [mbind option_bind nth insert list_insert].
  pose proof (digest_block64 f_luffa h5 Bjs) as Bl. subst h6. set (l6 := digest env Henv f_luffa 64 h5) in *.
  clearbody l6.
  next_blocks G2. rewrite (call_hash_hash hd _ a (j ++ s') ar' g G2 7 f_cubehash eq_refl
    nullptr 6 7 ltac:(lia) ltac:(lia)). cbn [mbind option_bind nth insert list_insert].
  set (h6 := digest env Henv f_cubehash 64 l6) in *. clearbody h6.
  next_blocks G3. now rewrite (memcpy_blocks hd _ a (j ++ s') ar' g 7 6 G3 ltac:(lia) ltac:(lia)).
Qed.

Lemma nth_new bs b x : good_blocks bs -> (b < 11)%nat -> nth b (<[b := x]> bs) [] = x.
Proof.
  intros [_ L] Hb. now rewrite nth_lookup_def, list_lookup_insert_eq by lia.
Qed.

(** The encryption and the last hashes. *)
Lemma third_stage nBits t hd bs a co ar g : in_word 32 t -> in_word 32 nBits ->
  good_blocks bs -> block64 a ->
  let h7 := encrypted env (chosen_encryption nBits) bs 6 0 7 in
  let h8 := digest env Henv f_shavite 64 h7 in
  let h9 := digest env Henv (chosen_hash (nBits + 10)) 64 (digest env Henv f_simd 64 h8) in
  exists w',
  (w ← call_encryption env (u64 (iWeekNumber t + nBits) mod
     I_AMOUNT_OF_INTERMEDIATE_ENCRYPTION_FUNCTIONS) (hash_at 6) 64 (hash_at 0) (hash_at 7)
     (st hd bs a co ar g);
   w ← call_hash env 8 (hash_at 7) 64 nullptr (hash_at 8) w;
   w ← call_hash env 9 (hash_at 8) 64 nullptr (o_additional, 0%nat) w;
   w ← call_hash env (u64 (iWeekNumber t + nBits + 10) mod I_AMOUNT_OF_INTERMEDIATE_HASH_FUNCTIONS)
     (o_additional, 0%nat) 64 nullptr (hash_at 9) w;
   w ← call_hash env 10 (hash_at 9) 64 nullptr (hash_at 10) w;
   r ← load (hash_at 10) 64 w;
   Some (w, trim256 r)) = Some (w', take 32 (digest env Henv f_echo 64 h9)) /\ initialised w'.
Proof.
  intros Ht Hn G Ba h7 h8 h9. pose proof G as [GF GL].
  assert (B7 : block64 h7) by (apply encrypted_block; [done|lia..]).
  pose proof (digest_block64 f_shavite h7 B7) as B8. fold h8 in B8.
  pose proof (digest_block64 f_simd h8 B8) as Bs.
  pose proof (digest_block64 (chosen_hash (nBits + 10)) _ Bs) as B9. fold h9 in B9.
  pose proof (digest_block64 f_echo h9 B9) as Be.
  pose proof (selected t nBits 0 3 Ht Hn ltac:(lia) ltac:(lia) eq_refl) as Es.
  rewrite !Z.add_0_r in Es. pose proof (chosen_encryption_lookup nBits) as Hc. rewrite <- Es in Hc.
  change I_AMOUNT_OF_INTERMEDIATE_ENCRYPTION_FUNCTIONS with 3.
  change I_AMOUNT_OF_INTERMEDIATE_HASH_FUNCTIONS with 14.
  destruct (call_encryption_hash hd bs a co ar g _ _ 6 0 7 G Hc ltac:(lia) ltac:(lia) ltac:(lia))
    as [g' ->]. cbn [mbind option_bind]. fold h7. clearbody h7.
  pose proof (good_insert bs 7 h7 G B7) as G7. set (bs7 := <[7%nat := h7]> bs) in *.
  pose proof (nth_new bs 7 h7 G ltac:(lia) : nth 7 bs7 [] = h7) as E7.
  rewrite (call_hash_hash hd bs7 a co ar g' G7 8 f_shavite eq_refl nullptr 7 8 ltac:(lia) ltac:(lia)).
  rewrite E7. fold h8. cbn [mbind option_bind]. clearbody h8.
  pose proof (good_insert bs7 8 h8 G7 B8) as G8. set (bs8 := <[8%nat := h8]> bs7) in *.
  pose proof (nth_new bs7 8 h8 G7 ltac:(lia) : nth 8 bs8 [] = h8) as E8.
  rewrite (call_hash_additional hd bs8 a co ar g' G8 9 f_simd eq_refl nullptr 8 ltac:(lia) (proj2 Ba)).
  rewrite E8. cbn [mbind option_bind]. set (si := digest env Henv f_simd 64 h8) in *. clearbody si.
  pose proof (selected t nBits 10 14 Ht Hn ltac:(lia) ltac:(lia) eq_refl) as Es'.
  pose proof (chosen_hash_lookup (nBits + 10)) as Hc'. rewrite <- Es' in Hc'.
  rewrite (call_to_hash hd bs8 si co ar g' G8 _ _ Hc' nullptr o_additional 64 64 9 eq_refl
    ltac:(done) (proj1 Bs) ltac:(cbn [get st additional]; destruct Bs; lia) eq_refl ltac:(lia)).
  cbn [mbind option_bind get st additional]. fold h9. clearbody h9.
  pose proof (good_insert bs8 9 h9 G8 B9) as G9. set (bs9 := <[9%nat := h9]> bs8) in *.
  pose proof (nth_new bs8 9 h9 G8 ltac:(lia) : nth 9 bs9 [] = h9) as E9.
  rewrite (call_hash_hash hd bs9 si co ar g' G9 10 f_echo eq_refl nullptr 9 10 ltac:(lia) ltac:(lia)).
  rewrite E9. cbn [mbind option_bind]. set (he := digest env Henv f_echo 64 h9) in *. clearbody he.
  pose proof (good_insert bs9 10 he G9 Be) as G10. set (bs10 := <[10%nat := he]> bs9) in *.
  exists (st hd bs10 si co ar g'). split; [|apply st_initialised].
  rewrite load_Some by (cbn [fst snd hash_at get st hash]; rewrite (length_st_hash bs10 G10); lia).
  cbn [mbind option_bind fst snd hash_at get st hash].
  rewrite read_block by (apply G10 || (destruct G10; lia)).
  pose proof (nth_new bs9 10 he G9 ltac:(lia) : nth 10 bs10 [] = he) as E10.
  rewrite E10, trim256_take by (destruct Be; lia). reflexivity.
Qed.

(** *** HashX11 *)

Lemma initialised_put o b w : initialised w -> initialised (put o b w).
Proof. now destruct o, w. Qed.

(** The chain of hashes from one block of the array to the next. *)
Fixpoint x11_chain (fs : list sph_fn) (i : nat) (w : world) : option world :=
  match fs with
  | [] => Some w
  | f :: fs => w ← sph_oneshot env f (hash_at i) 64 (hash_at (S i)) w; x11_chain fs (S i) w
  end.

Lemma x11_chain_spec fs i w bs x : hash w = mjoin bs -> good_blocks bs -> nth i bs [] = x ->
  (i + length fs < 11)%nat ->
  exists w' bs', x11_chain fs i w = Some w' /\ hash w' = mjoin bs' /\ good_blocks bs' /\
    nth (i + length fs) bs' [] = foldl (fun x f => sph_digest env Henv f x) x fs /\
    (initialised w -> initialised w').
Proof.
  revert i w bs x. induction fs as [|f fs IH]; intros i w bs x Hw G Hx Hi.
  - exists w, bs. rewrite Nat.add_0_r. done.
  - pose proof (length_st_hash bs G) as HL. pose proof G as [GF GL]. simpl in Hi.
    destruct (nth_block i bs GF) as [Bn Ln]; [lia|]. rewrite Hx in Bn, Ln.
    cbn [x11_chain]. rewrite (sph_oneshot_spec f (hash_at i) 64) by
      (cbn [fst snd hash_at get]; rewrite ?Hw; lia || now apply bytes_blocks).
    cbn [mbind option_bind fst snd hash_at get]. rewrite Hw.
    rewrite drop_blocks_cons, Hx, take_app_length' by (done || lia).
    pose proof (sph_digest_block f x Bn) as Bd.
    rewrite write_block by (done || lia || apply Bd).
    destruct (IH (S i) (put o_hash (mjoin (<[S i := sph_digest env Henv f x]> bs)) w)
      (<[S i := sph_digest env Henv f x]> bs) (sph_digest env Henv f x))
      as (w' & bs' & E & Hw' & G' & Hn & Hi'); [apply hash_put|now apply good_insert
      |apply nth_new; [done|lia]|lia|].
    exists w', bs'. split; [exact E|]. split; [done|]. split; [done|]. split.
    + cbn [foldl]. rewrite <- Hn. f_equal. simpl. lia.
    + intros Hiw. apply Hi'. now apply initialised_put.
Qed.

(** Run a sequence of calls whose result is known. *)
Ltac run_stage E :=
  repeat (lazymatch type of E with
    | mbind _ ?a = Some _ => destruct a; [|discriminate E]; cbn [mbind option_bind] in E |- *
    end); rewrite E; clear E; cbn [mbind option_bind].

Lemma HashX11_spec p n w : p.1 <> o_hash -> bytes (get p.1 w) ->
  (p.2 + n <= length (get p.1 w))%nat ->
  exists w', HashX11 env p (Z.of_nat n) w =
    Some (w', x11_hash env Henv (take n (drop p.2 (get p.1 w)))) /\
    (initialised w -> initialised w').
Proof.
  intros Hp Hb Hl. unfold HashX11.
  assert (Eg : get p.1 (new_hash w) = get p.1 w) by (destruct p as [[] ?], w; done).
  set (bs := replicate 11 zero_block).
  assert (G : good_blocks bs) by (split; [apply Forall_replicate, zero_block_ok|done]).
  assert (Ew : hash (new_hash w) = mjoin bs) by (destruct w; reflexivity).
  pose proof (length_st_hash bs G) as HL.
  rewrite sph_oneshot_spec by (rewrite ?Eg; cbn [fst snd hash_at get]; rewrite ?Ew; done || lia).
  rewrite Eg. set (m := take n _). assert (Bm : bytes m) by now apply Forall_take, Forall_drop.
  pose proof (sph_digest_block blake512 m Bm) as B0.
  cbn [mbind option_bind fst snd hash_at get]. rewrite Ew, (write_block 0) by (apply G || apply B0 || (simpl; lia)).
  destruct (x11_chain_spec [bmw512; groestl512; skein512; jh512; keccak512; luffa512; cubehash512;
     shavite512; simd512; echo512] 0 (put o_hash (mjoin (<[0%nat := sph_digest env Henv blake512 m]> bs))
     (new_hash w)) _ (sph_digest env Henv blake512 m) (hash_put _ _)
     (good_insert bs 0 _ G B0) (nth_new bs 0 _ G ltac:(lia)) ltac:(simpl; lia))
    as (w' & bs' & E & Hw' & G' & Hn & Hi').
  exists w'. split; [|intros Hw; apply Hi'; now do 2 apply initialised_put]. clear Hi'.
  unfold x11_hash. cbn [foldl]. cbn [x11_chain] in E. cbn [length Nat.add foldl] in Hn.
  set (r := sph_digest env Henv echo512 _) in *. clearbody r. revert E.
  repeat (match goal with
    | |- mbind _ ?a = Some _ -> _ => destruct a; [|discriminate]; cbn [mbind option_bind]
    end). intros E. injection E as ->.
  rewrite load_Some by (cbn [fst snd hash_at get]; rewrite Hw', (length_st_hash bs' G'); lia).
  cbn [mbind option_bind fst snd hash_at get]. rewrite Hw', read_block by (apply G' || (destruct G'; lia)).
  rewrite Hn. rewrite trim256_take; [reflexivity|]. rewrite <- Hn.
  destruct (nth_block 10 bs') as [_ ->]; [apply G'|destruct G'; lia|lia].
Qed.

(** The header as the program stores it. *)
Record header_ok (h : CBlockHeader) : Prop := {
  ho_prev : bytes (hashPrevBlock h) /\ length (hashPrevBlock h) = 32%nat;
  ho_root : bytes (hashMerkleRoot h) /\ length (hashMerkleRoot h) = 32%nat;
  ho_bits : in_word 32 (nBits h) }.

Lemma start_state w : initialised w ->
  put o_combined (replicate 128 0) (put o_additional (replicate 64 0) (new_hash w)) =
  st (header w) (replicate 11 zero_block) zero_block (replicate 128 0) (area w) (skein w).
Proof.
  destruct w as [hd ha ad co ar g t1 t2]. intros [H1 H2].
  cbn [aIntermediateHashFunctions aIntermediateEncryptionFunctions] in H1, H2.
  rewrite H1, H2. reflexivity.
Qed.

Lemma GetHash_SHA256AndX11_spec h t w : header_ok h -> in_word 32 t -> initialised w ->
  header w = header_bytes h ->
  exists w', GetHash_SHA256AndX11 env h t w =
    Some (w', pow_hash env Henv (nBits h) (header_bytes h)) /\ initialised w'.
Proof.
  intros [[Bp Lp] [Br Lr] Hn] Ht [Hi1 Hi2] Hh.
  pose proof (length_header h Lp Lr) as HL. pose proof (bytes_header h Bp Br) as HB.
  unfold GetHash_SHA256AndX11. rewrite start_state by (split; done). rewrite Hh.
  generalize (area w), (skein w). intros ar g.
  set (hd := header_bytes h) in *. clearbody hd.
  destruct (first_stage (nBits h) t hd ar g Ht Hn HB HL) as (E & B0 & Ba & B1 & B2 & Bs).
  cbv zeta in E |- *. change (replicate 11 zero_block) with [zero_block; zero_block; zero_block;
    zero_block; zero_block; zero_block; zero_block; zero_block; zero_block; zero_block; zero_block].
  run_stage E. unfold pow_hash.
  set (h0 := digest env Henv f_blake 80 hd) in *. set (a := digest env Henv f_bmw 64 h0) in *.
  set (h1 := digest env Henv (chosen_hash (nBits h)) 64 a) in *.
  set (h2 := digest env Henv f_groestl 64 h1) in *. set (s := digest env Henv f_skein 64 h2) in *.
  pose proof (digest_block64 f_jh s Bs) as Bj. set (j := digest env Henv f_jh 64 s) in *.
  clearbody h0 a h1 h2 s j.
  destruct (second_stage hd h0 h1 h2 a j s ar g B0 B1 B2 Ba Bj Bs) as (co' & ar' & E & B5 & B6).
  cbv zeta in E |- *. run_stage E.
  set (s' := amplified _ s) in *. set (h5 := digest env Henv f_keccak 128 (j ++ s')) in *.
  set (h6 := digest env Henv f_cubehash 64 _) in *. clearbody s' h5 h6. next_blocks G.
  exact (third_stage (nBits h) t hd _ a co' ar' g Ht Hn G Ba).
Qed.

(** The first era needs no table. *)
Lemma GetHash_X11_spec h t w : header_ok h -> header w = header_bytes h ->
  exists w', GetHash_X11 env h t w = Some (w', x11_hash env Henv (header_bytes h)) /\
    (initialised w -> initialised w').
Proof.
  intros [[Bp Lp] [Br Lr] Hn] Ew. pose proof (length_header h Lp Lr) as HL.
  destruct (HashX11_spec (o_header, 0%nat) 80 w) as (w' & E & Hw');
    [done|cbn [fst get]; rewrite Ew; now apply bytes_header|cbn [fst snd get]; rewrite Ew; lia|].
  exists w'. split; [|exact Hw']. unfold GetHash_X11. etransitivity; [exact E|]. cbn [fst snd get].
  rewrite Ew, drop_0, take_ge by lia. reflexivity.
Qed.

(** The hash of a header, as [GetHash] selects it. *)
Definition block_hash (genesis_time : Z) (h : CBlockHeader) : list Z :=
  if (nTime h - genesis_time) mod 2 ^ 32 <? 3528000 then x11_hash env Henv (header_bytes h)
  else pow_hash env Henv (nBits h) (header_bytes h).

Lemma GetHash_spec genesis_time h w : header_ok h -> initialised w ->
  exists w', GetHash env genesis_time h w = Some (w', block_hash genesis_time h) /\ initialised w'.
Proof.
  intros Hh Hi. pose proof Hh as [[Bp Lp] [Br Lr] Hn]. unfold GetHash, block_hash.
  set (w0 := put o_header (header_bytes h) w).
  assert (Hi0 : initialised w0) by now apply initialised_put.
  assert (Ew : header w0 = header_bytes h) by (destruct w; reflexivity).
  assert (Et : iTimeFromGenesisBlock genesis_time h = (nTime h - genesis_time) mod 2 ^ 32)
    by (unfold iTimeFromGenesisBlock; now rewrite u32_wrap, wrap_mod).
  rewrite Et. set (t := (nTime h - genesis_time) mod 2 ^ 32).
  assert (Ht : in_word 32 t) by (apply Z.mod_pos_bound; lia).
  unfold iAlgorithmSelector. destruct (t <? 3528000); cbn [lookup list_lookup aHashFunctions mbind option_bind].
  - destruct (GetHash_X11_spec h t w0 Hh Ew) as (w' & E & Hw'). exists w'. split; [exact E|auto].
  - now apply GetHash_SHA256AndX11_spec.
Qed.

Lemma initialised_init w : length (aIntermediateHashFunctions w) = 14%nat ->
  length (aIntermediateEncryptionFunctions w) = 3%nat -> initialised (HashGenerator_Init w).
Proof.
  destruct w as [hd ha ad co ar g t1 t2].
  cbn [aIntermediateHashFunctions aIntermediateEncryptionFunctions]. intros L1 L2.
  do 14 (destruct t1 as [|? t1]; [discriminate L1|]). destruct t1; [|discriminate L1].
  do 3 (destruct t2 as [|? t2]; [discriminate L2|]). destruct t2; [|discriminate L2].
  split; reflexivity.
Qed.

Lemma genesis_spec h w : header_ok h -> length (aIntermediateHashFunctions w) = 14%nat ->
  length (aIntermediateEncryptionFunctions w) = 3%nat ->
  exists w', GetGenesisInitializationHash env h w = Some (w', x11_hash env Henv (header_bytes h))
    /\ initialised w'.
Proof.
  intros Hh L1 L2. unfold GetGenesisInitializationHash.
  destruct (GetHash_X11_spec h 0 (put o_header (header_bytes h) (HashGenerator_Init w)) Hh)
    as (w' & E & Hw'); [destruct (HashGenerator_Init w); reflexivity|].
  exists w'. split; [exact E|]. now apply Hw', initialised_put, initialised_init.
Qed.
End Proofs.

(** ** Properties *)

(** C1. [CBlockHeader::GetHash] returns, touches no memory outside its objects and calls no
    null pointer once the tables are initialised, and its value is the specified flow of
    digests: the X11 chain in the first 3528000 seconds after the genesis block, the
    memory-hard function after it. *)
Theorem GetHash_correct env (Henv : environment_ok env) genesis_time h w :
  header_ok h -> initialised w ->
  exists w', GetHash env genesis_time h w = Some (w', block_hash env Henv genesis_time h) /\
    initialised w'.
Proof. apply GetHash_spec. Qed.

(** Hash headers one after the other, as the program does after its start. *)
Fixpoint hash_headers (env : environment) (genesis_time : Z) (hs : list CBlockHeader) (w : world)
    : option (list (list Z)) :=
  match hs with
  | [] => Some []
  | h :: hs =>
      '(w, x) ← GetHash env genesis_time h w;
      xs ← hash_headers env genesis_time hs w;
      Some (x :: xs)
  end.

(** After [GetGenesisInitializationHash] has filled the tables, whatever headers are
    hashed in whatever order and whatever the calls leave behind in the static variables of
    Skein, each call returns the hash that its header alone determines. *)
Theorem hash_headers_independent env (Henv : environment_ok env) genesis_time g hs w :
  header_ok g -> Forall header_ok hs ->
  ('(w, _) ← GetGenesisInitializationHash env g (null_tables w);
   hash_headers env genesis_time hs w) = Some (block_hash env Henv genesis_time <$> hs).
Proof.
  intros Hg Hh.
  destruct (genesis_spec env Henv g (null_tables w) Hg) as (w' & -> & Hi); [now destruct w..|].
  cbn [mbind option_bind]. clear w. revert w' Hi.
  induction Hh as [|h hs Hok Hhs IH]; intros w Hi; [reflexivity|]. cbn [hash_headers].
  destruct (GetHash_spec env Henv genesis_time h w Hok Hi) as (w' & -> & Hi').
  cbn [mbind option_bind]. now rewrite (IH w' Hi').
Qed.

(** Before the tables are filled, [GetHash] fails by a call through a null pointer for
    the headers of the second era, and only for them. *)
Theorem GetHash_null_tables env (Henv : environment_ok env) genesis_time h w : header_ok h ->
  GetHash env genesis_time h (null_tables w) = None <->
  3528000 <= (nTime h - genesis_time) mod 2 ^ 32.
Proof.
  intros Hh. unfold GetHash, iTimeFromGenesisBlock. rewrite u32_wrap, wrap_mod by lia.
  set (t := (nTime h - genesis_time) mod 2 ^ 32). unfold iAlgorithmSelector.
  destruct (Z.ltb_spec t 3528000) as [Ht|Ht]; cbn [lookup list_lookup aHashFunctions mbind option_bind].
  - destruct (GetHash_X11_spec env Henv h t (put o_header (header_bytes h) (null_tables w)) Hh)
      as (w' & -> & _); [now destruct w|]. split; [discriminate|lia].
  - split; [done|]. intros _. destruct w; reflexivity.
Qed.

(** The memory-hard part writes and reads inside the 32 KiB area, and the running value
    before step [i + 1] is block [i] of the Salsa20 key stream: the area is filled at
    positions that depend on the key stream alone, and the result is the xor of all its
    rows with the last block. *)
Theorem memory_hard_keystream env (Henv : environment_ok env) j A s w :
  wf_input j -> block64 A -> block64 s ->
  combined w = A ++ s -> area w = replicate area_size 0 ->
  memory_hard env (Salsa20.mk_ctx j) w =
  Some (put o_area (filled_area (stream j) s 256)
    (put o_combined (A ++ amplified (stream j) s) w)).
Proof. intros. now apply memory_hard_spec. Qed.

(** The weekly reconfiguration has no effect: the indices of the chosen hash functions
    and of the encryption function are the same for every time, since the number of seconds
    in a week is divisible by both table sizes. *)
Theorem selection_ignores_time t t' bits offset n :
  in_word 32 t -> in_word 32 t' -> in_word 32 bits -> 0 <= offset <= 10 ->
  n = I_AMOUNT_OF_INTERMEDIATE_HASH_FUNCTIONS \/
    n = I_AMOUNT_OF_INTERMEDIATE_ENCRYPTION_FUNCTIONS ->
  u64 (iWeekNumber t + bits + offset) mod n = u64 (iWeekNumber t' + bits + offset) mod n.
Proof.
  intros Ht Ht' Hb Ho Hn.
  assert (0 < n /\ 604800 mod n = 0) as [H0 H1] by (destruct Hn as [-> | ->]; by_eval).
  apply Z2Nat.inj; [apply Z.mod_pos_bound; lia..|]. now rewrite !selected.
Qed.

(** *** A concrete environment *)

Definition demo_env : environment := {|
  sph _ := mk_impl whirlpool_ctx _ (Whirlpool.mk_ctx (replicate 8 1) (replicate 64 1) 1);
  CAMELLIA_KEY := list Z;
  Camellia_set_key k _ := k;
  Camellia_encrypt d k := xor_list d (replicate 16 0x5A);
  address p := Z.of_nat p.2;
  whirlpool_fresh := Whirlpool.mk_ctx (replicate 8 2) (replicate 64 3) 5;
  whirlpool_address := 4;
  salsa_fresh := Salsa20.mk_ctx (replicate 16 9);
  salsa_tmp := replicate 64 8;
  alloc n := replicate n 7 |}.

#[export] Program Instance demo_impl_ok f : HashImplOk (sph demo_env f) :=
  { hio_spec := whirlpool_hash_spec }.
Next Obligation. reflexivity. Qed.
Next Obligation.
  intros f m Hm. split; [apply bytes_digest_of | apply length_digest_of]; auto using bytes_pad.
Qed.

Lemma demo_env_ok : environment_ok demo_env.
Proof.
  split.
  - exact demo_impl_ok.
  - intros d k Hd Hl. split.
    + apply words_xor_list; [lia|done|by_eval].
    + cbn [Camellia_encrypt demo_env]. rewrite length_xor_list, length_replicate. lia.
  - reflexivity.
  - split; by_eval.
  - split; by_eval.
  - intros n. apply length_replicate.
Qed.

(** A header, and the state in which the program starts. *)
Definition demo_header (time : Z) : CBlockHeader :=
  mk_header 2 (replicate 32 1) (replicate 32 2) time 0x1e0ffff0 5.

Lemma demo_header_ok time : header_ok (demo_header time).
Proof. split; cbn [hashPrevBlock hashMerkleRoot nBits demo_header]; [split; by_eval..|by_eval]. Qed.

Definition start : world := mk_world [] [] [] [] [] initial_statics
  (replicate 14 None) (replicate 3 None).

Lemma GetHash_correct_witness :
  exists w', GetHash demo_env 1000 (demo_header 4000000000) (HashGenerator_Init start) =
    Some (w', block_hash demo_env demo_env_ok 1000 (demo_header 4000000000)) /\ initialised w'.
Proof.
  apply (GetHash_correct demo_env demo_env_ok 1000 (demo_header 4000000000)
    (HashGenerator_Init start)); [apply demo_header_ok|split; reflexivity].
Defined.

Lemma hash_headers_independent_witness :
  ('(w, _) ← GetGenesisInitializationHash demo_env (demo_header 1000) (null_tables start);
   hash_headers demo_env 1000 [demo_header 2000; demo_header 9000000] w) =
  Some (block_hash demo_env demo_env_ok 1000 <$> [demo_header 2000; demo_header 9000000]).
Proof.
  apply (hash_headers_independent demo_env demo_env_ok 1000 (demo_header 1000)
    [demo_header 2000; demo_header 9000000] start).
  - apply demo_header_ok.
  - do 2 (constructor; [apply demo_header_ok|]). constructor.
Defined.

Lemma GetHash_null_tables_witness :
  GetHash demo_env 1000 (demo_header 9000000) (null_tables start) = None <->
  3528000 <= (9000000 - 1000) mod 2 ^ 32.
Proof.
  apply (GetHash_null_tables demo_env demo_env_ok 1000 (demo_header 9000000) start).
  apply demo_header_ok.
Defined.

Lemma memory_hard_keystream_witness :
  let w := put o_area (replicate area_size 0)
    (put o_combined (replicate 64 1 ++ replicate 64 2) start) in
  memory_hard demo_env (Salsa20.mk_ctx (replicate 16 3)) w =
  Some (put o_area (filled_area (stream (replicate 16 3)) (replicate 64 2) 256)
    (put o_combined (replicate 64 1 ++ amplified (stream (replicate 16 3)) (replicate 64 2)) w)).
Proof.
  intros w. apply (memory_hard_keystream demo_env demo_env_ok (replicate 16 3) (replicate 64 1)
    (replicate 64 2) w); [split; by_eval|split; by_eval|split; by_eval|exact eq_refl|exact eq_refl].
Defined.

Lemma selection_ignores_time_witness :
  u64 (iWeekNumber 5000000 + 0x1e0ffff0 + 10) mod 14 =
  u64 (iWeekNumber 4000000000 + 0x1e0ffff0 + 10) mod 14.
Proof.
  apply (selection_ignores_time 5000000 4000000000 0x1e0ffff0 10 14);
    [by_eval|by_eval|by_eval|lia|left; exact eq_refl].
Defined.
