(* ===== verification/Arith256.v ===== *)
(** * 256-bit unsigned integers: src/arith_uint256.h and src/arith_uint256.cpp

    [base_uint<256>] is its array [pn] of eight 32-bit words, the least significant first.
    Every operator is the loop of the source over these words; [value] is the number that
    an array stands for, and the theorems state the operators on numbers. *)

From S2P Require Import Prelude Words.

Definition WIDTH : nat := 256 / 32.

(** ** The operators *)

Definition uint_zero : list Z := for_up WIDTH (fun i pn => <[i := 0]> pn) (replicate WIDTH 0).

(** [base_uint(uint64_t)] and [operator=(uint64_t)] *)
Definition of_uint64 (b : Z) : list Z :=
  let pn := replicate WIDTH 0 in
  let pn := <[0%nat := u32 b]> pn in
  let pn := <[1%nat := u32 (b >> 32)]> pn in
  for_up (WIDTH - 2) (fun i pn => <[(2 + i)%nat := 0]> pn) pn.

Definition uint_not (a : list Z) : list Z :=
  for_up WIDTH (fun i ret => <[i := u32 (Z.lnot a.[i])]> ret) uint_zero.

(** [operator++]: [while (++pn[i] == 0 && i < WIDTH-1) i++;] with [k = WIDTH-1-i]. *)
Fixpoint uint_inc_from (k : nat) (pn : list Z) : list Z :=
  let i := (WIDTH - 1 - k)%nat in
  let pn := <[i := u32 (pn.[i] + 1)]> pn in
  match k with
  | O => pn
  | S k => if pn.[i] =? 0 then uint_inc_from k pn else pn
  end.
Definition uint_inc (pn : list Z) : list Z := uint_inc_from (WIDTH - 1) pn.

(** [operator-()] *)
Definition uint_neg (a : list Z) : list Z := uint_inc (uint_not a).

(** [operator+=], [operator-=] *)
Definition uint_add (a b : list Z) : list Z :=
  (for_up WIDTH (fun i '(carry, pn) =>
    let n := u64 (carry + pn.[i] + b.[i]) in
    (n >> 32, <[i := n .& 0xffffffff]> pn)) (0, a)).2.
Definition uint_sub (a b : list Z) : list Z := uint_add a (uint_neg b).

(** [operator<<=], [operator>>=] *)
Definition uint_shl (a : list Z) (shift : Z) : list Z :=
  let k := Z.to_nat (shift / 32) in
  let shift := shift mod 32 in
  for_up WIDTH (fun i pn =>
    let pn := if (i + k + 1 <? WIDTH)%nat && negb (shift =? 0)
              then <[(i + k + 1)%nat := pn.[i + k + 1] .| (a.[i] >> (32 - shift))]> pn else pn in
    if (i + k <? WIDTH)%nat
    then <[(i + k)%nat := pn.[i + k] .| u32 (a.[i] << shift)]> pn else pn) uint_zero.

Definition uint_shr (a : list Z) (shift : Z) : list Z :=
  let k := Z.to_nat (shift / 32) in
  let shift := shift mod 32 in
  for_up WIDTH (fun i pn =>
    let pn := if (k + 1 <=? i)%nat && negb (shift =? 0)
              then <[(i - k - 1)%nat := pn.[i - k - 1] .| u32 (a.[i] << (32 - shift))]> pn
              else pn in
    if (k <=? i)%nat then <[(i - k)%nat := pn.[i - k] .| (a.[i] >> shift)]> pn else pn)
    uint_zero.

(** [operator*=(uint32_t)], [operator*=(const base_uint&)] *)
Definition uint_mul32 (a : list Z) (b32 : Z) : list Z :=
  (for_up WIDTH (fun i '(carry, pn) =>
    let n := u64 (carry + b32 * pn.[i]) in
    (n >> 32, <[i := n .& 0xffffffff]> pn)) (0, a)).2.

Definition uint_mul_row (a b : list Z) (j : nat) (pn : list Z) : list Z :=
  (for_up (WIDTH - j) (fun i '(carry, pn) =>
    let n := u64 (carry + pn.[i + j] + a.[j] * b.[i]) in
    (n >> 32, <[(i + j)%nat := n .& 0xffffffff]> pn)) (0, pn)).2.
Definition uint_mul (a b : list Z) : list Z := for_up WIDTH (uint_mul_row a b) uint_zero.

(** [CompareTo], [EqualTo] *)
Fixpoint compare_words (n : nat) (a b : list Z) : Z :=
  match n with
  | O => 0
  | S i => if a.[i] <? b.[i] then -1 else if b.[i] <? a.[i] then 1 else compare_words i a b
  end.
Definition CompareTo (a b : list Z) : Z := compare_words WIDTH a b.

Definition EqualTo (a : list Z) (b : Z) : bool :=
  if existsb (fun i => negb (a.[i] =? 0)) (rev (seq 2 (WIDTH - 2))) then false
  else if negb (a.[1] =? b >> 32) then false
  else negb (negb (a.[0] =? b .& 0xffffffff)).

(** [bits]: the highest set bit of a word below bit [b], and of the number. *)
Fixpoint top_bit (bits : nat) (w : Z) : Z :=
  match bits with
  | O => 0
  | S b => if negb (w .& (1 << Z.of_nat bits) =? 0) then Z.of_nat bits else top_bit b w
  end.
Fixpoint bits_below (n : nat) (pn : list Z) : Z :=
  match n with
  | O => 0
  | S pos =>
      if negb (pn.[pos] =? 0) then 32 * Z.of_nat pos + top_bit 31 pn.[pos] + 1
      else bits_below pos pn
  end.
Definition uint_bits (pn : list Z) : Z := bits_below WIDTH pn.

(** [operator/=]; [None] is the exception [uint_error]. *)
Definition div_step (shift : nat) (num div pn : list Z) : list Z * list Z :=
  if 0 <=? CompareTo num div
  then (uint_sub num div,
        <[(shift / 32)%nat := pn.[shift / 32] .| (1 << Z.of_nat (shift mod 32))]> pn)
  else (num, pn).
Fixpoint div_loop (shift : nat) (num div pn : list Z) : list Z :=
  let '(num, pn) := div_step shift num div pn in
  let div := uint_shr div 1 in
  match shift with O => pn | S shift => div_loop shift num div pn end.

Definition uint_div (a b : list Z) : option (list Z) :=
  let num_bits := uint_bits a in
  let div_bits := uint_bits b in
  if div_bits =? 0 then None
  else if num_bits <? div_bits then Some (of_uint64 0)
  else
    let shift := num_bits - div_bits in
    Some (div_loop (Z.to_nat shift) a (uint_shl b shift) (of_uint64 0)).

Definition GetLow64 (pn : list Z) : Z := pn.[0] .| (pn.[1] << 32).

(** The conversions to and from blobs of 32 bytes. *)
Definition ArithToUint256 (a : list Z) : list Z :=
  for_up WIDTH (fun x b => mem_write b (x * 4) (le_split 4 a.[x])) (replicate 32 0).
Definition UintToArith256 (a : list Z) : list Z :=
  for_up WIDTH (fun x b => <[x := le_combine (mem_read a (x * 4) 4)]> b) uint_zero.

(** [SetCompact]: the number, [*pfNegative] and [*pfOverflow]. *)
Definition SetCompact (nCompact : Z) : list Z * bool * bool :=
  let nSize := nCompact >> 24 in
  let nWord := nCompact .& 0x007fffff in
  let '(nWord, a) :=
    if nSize <=? 3 then let nWord := nWord >> (8 * (3 - nSize)) in (nWord, of_uint64 nWord)
    else (nWord, uint_shl (of_uint64 nWord) (8 * (nSize - 3))) in
  (a, negb (nWord =? 0) && negb (nCompact .& 0x00800000 =? 0),
   negb (nWord =? 0) && ((34 <? nSize) || ((0xff <? nWord) && (33 <? nSize)) ||
                         ((0xffff <? nWord) && (32 <? nSize)))).

(** [GetCompact]; [None] is a failed assertion. *)
Definition GetCompact (a : list Z) (fNegative : bool) : option Z :=
  let nSize := (uint_bits a + 7) / 8 in
  let nCompact :=
    if nSize <=? 3 then u32 (u64 (GetLow64 a << (8 * (3 - nSize))))
    else u32 (GetLow64 (uint_shr a (8 * (nSize - 3)))) in
  let '(nCompact, nSize) :=
    if negb (nCompact .& 0x00800000 =? 0) then (nCompact >> 8, nSize + 1) else (nCompact, nSize) in
  if negb (nCompact .& u32 (Z.lnot 0x007fffff) =? 0) then None
  else if negb (nSize <? 256) then None
  else
    let nCompact := nCompact .| u32 (nSize << 24) in
    Some (nCompact .| (if fNegative && negb (nCompact .& 0x007fffff =? 0) then 0x00800000 else 0)).

(** ** The number of an array *)

Fixpoint value (a : list Z) : Z :=
  match a with [] => 0 | w :: a => w + 2 ^ 32 * value a end.

Definition num (a : list Z) : Prop := words 32 a /\ length a = WIDTH.

Lemma value_insert a i x : (i < length a)%nat ->
  value (<[i := x]> a) = value a + (x - a.[i]) * 2 ^ (32 * Z.of_nat i).
Proof.
  revert i. induction a as [|w a IH]; intros i Hi; [simpl in Hi; lia|].
  destruct i as [|i]; [cbn [insert list_insert value nth]; change (32 * Z.of_nat 0) with 0; lia|].
  cbn [length] in Hi. cbn [insert list_insert value nth].
  change (list_insert i x a) with (<[i := x]> a). rewrite IH by lia.
  replace (32 * Z.of_nat (S i)) with (32 + 32 * Z.of_nat i) by lia.
  rewrite Z.pow_add_r by lia. lia.
Qed.

Lemma value_take_S a i : (i < length a)%nat ->
  value (take (S i) a) = value (take i a) + a.[i] * 2 ^ (32 * Z.of_nat i).
Proof.
  revert i. induction a as [|w a IH]; intros i Hi; [simpl in Hi; lia|].
  destruct i as [|i]; [simpl; lia|]. cbn [length] in Hi.
  change (take (S (S i)) (w :: a)) with (w :: take (S i) a).
  change (take (S i) (w :: a)) with (w :: take i a). cbn [value nth]. rewrite IH by lia.
  replace (32 * Z.of_nat (S i)) with (32 + 32 * Z.of_nat i) by lia.
  rewrite Z.pow_add_r by lia. lia.
Qed.

Lemma value_range a : words 32 a -> 0 <= value a < 2 ^ (32 * Z.of_nat (length a)).
Proof.
  induction 1 as [|w a Hw Ha IH]; [simpl; lia|]. cbn [value length].
  replace (32 * Z.of_nat (S (length a))) with (32 + 32 * Z.of_nat (length a)) by lia.
  rewrite Z.pow_add_r by lia. unfold in_word in Hw. nia.
Qed.

Lemma num_range a : num a -> 0 <= value a < 2 ^ 256.
Proof. intros [Hw Hl]. pose proof (value_range a Hw) as H. now rewrite Hl in H. Qed.

Lemma value_zeros n : value (replicate n 0) = 0.
Proof. induction n as [|n IH]; [done|]. cbn [replicate value]. now rewrite IH. Qed.

(** Bit [i] of the number is bit [i mod 32] of word [i / 32]. *)
Lemma testbit_value a i : words 32 a -> 0 <= i ->
  Z.testbit (value a) i = Z.testbit a.[Z.to_nat (i / 32)] (i mod 32).
Proof.
  intros Ha. revert i. induction Ha as [|w a Hw Ha IH]; intros i Hi.
  - cbn [value]. rewrite Z.testbit_0_l. destruct (Z.to_nat _); now rewrite Z.testbit_0_l.
  - cbn [value]. rewrite Z.add_comm, Z.mul_comm. unfold in_word in Hw.
    destruct (Z.lt_ge_cases i 32) as [Hlt|Hge].
    + rewrite Z.div_small, Z.mod_small by lia. cbn [Z.to_nat nth].
      rewrite <- (Z.mod_pow2_bits_low _ 32) by lia.
      rewrite Z.add_comm, Z_mod_plus_full, Z.mod_small by lia. reflexivity.
    + replace i with (i - 32 + 32) at 1 by lia.
      rewrite <- Z.shiftr_spec by lia. rewrite Z.shiftr_div_pow2 by lia.
      rewrite Z.div_add_l, (Z.div_small w), Z.add_0_r by lia. rewrite IH by lia.
      replace i with (i - 32 + 1 * 32) at 3 4 by lia.
      rewrite Z.div_add, Z_mod_plus_full by lia.
      replace (Z.to_nat ((i - 32) / 32 + 1)) with (S (Z.to_nat ((i - 32) / 32))); [done|].
      pose proof (Z.div_pos (i - 32) 32 ltac:(lia) ltac:(lia)). lia.
Qed.

Lemma value_inj a b : words 32 a -> words 32 b -> length a = length b ->
  value a = value b -> a = b.
Proof.
  intros Ha. revert b. induction Ha as [|w a Hw Ha IH]; intros [|v b] Hb Hl E; try discriminate; [done|].
  inversion Hb as [|? ? Hv Hb']; subst. cbn [value] in E. unfold in_word in Hw, Hv.
  assert (w = v /\ value a = value b) as [-> E'] by nia. f_equal. apply IH; [done| |done].
  now injection Hl.
Qed.

(** ** Lemmas: the loops over words *)

Lemma num_insert a i x : num a -> in_word 32 x -> num (<[i := x]> a).
Proof. intros [Hw Hl] Hx. split; [now apply Forall_insert|]. now rewrite length_insert. Qed.

Lemma num_word a i : num a -> in_word 32 a.[i].
Proof. intros [Hw _]. apply Forall_nth_Z; [done|]. now apply in_word_0. Qed.

Lemma nth_insert_Z (a : list Z) i j x : (i < length a)%nat ->
  (<[i := x]> a).[j] = if (j =? i)%nat then x else a.[j].
Proof.
  intros Hi. rewrite !nth_lookup_def. destruct (Nat.eqb_spec j i) as [->|H].
  - now rewrite list_lookup_insert_eq.
  - now rewrite list_lookup_insert_ne.
Qed.

Lemma num_zeros : num (replicate WIDTH 0).
Proof. split; by_eval. Qed.

Lemma uint_zero_eq : uint_zero = replicate WIDTH 0.
Proof. reflexivity. Qed.

Lemma low_word n : n .& 0xffffffff = n mod 2 ^ 32.
Proof. change 0xffffffff with (Z.ones 32). now rewrite Z.land_ones by lia. Qed.

Lemma in_word_mod32 n : in_word 32 (n mod 2 ^ 32).
Proof. unfold in_word. apply Z.mod_pos_bound. lia. Qed.

Lemma of_uint64_spec b : in_word 64 b -> num (of_uint64 b) /\ value (of_uint64 b) = b.
Proof.
  intros Hb.
  change (of_uint64 b) with [u32 b; u32 (b >> 32); 0; 0; 0; 0; 0; 0]. rewrite !u32_mod.
  split.
  - split; [|done]. repeat (constructor; [apply in_word_mod32 || (apply in_word_0; lia)|]). constructor.
  - cbn [value]. unfold in_word in Hb. rewrite Z.shiftr_div_pow2 by lia.
    rewrite (Z.mod_small (b / 2 ^ 32)).
    + pose proof (Z.div_mod b (2 ^ 32) ltac:(lia)). lia.
    + split; [apply Z.div_pos; lia|]. apply Z.div_lt_upper_bound; lia.
Qed.

(** A loop that adds [m i] to word [off + i] with carry. *)
Lemma carry_loop n off (m : nat -> Z) (f : nat -> list Z -> Z) a :
  num a -> (off + n <= WIDTH)%nat ->
  (forall i pn, f i pn = pn.[off + i]) ->
  (forall i, (i < n)%nat -> 0 <= m i <= (2 ^ 32 - 1) * (2 ^ 32 - 1)) ->
  let s := for_up n (fun i '(carry, pn) =>
    let k := u64 (carry + f i pn + m i) in (k >> 32, <[(off + i)%nat := k .& 0xffffffff]> pn)) (0, a) in
  num s.2 /\ in_word 32 s.1 /\
  value s.2 + s.1 * 2 ^ (32 * Z.of_nat (off + n)) =
  value a + for_up n (fun i t => t + m i * 2 ^ (32 * Z.of_nat (off + i))) 0.
Proof.
  intros Ha Hn Hf Hm s. unfold s. clear s. induction n as [|n IH].
  - cbn [for_up fold_left seq fst snd]. split; [done|]. split; [now apply in_word_0|lia].
  - rewrite !for_up_S. destruct IH as (IHn & IHc & IHv); [lia|intros; apply Hm; lia|].
    destruct (for_up n _ _) as [carry pn]. cbn [fst snd] in *. rewrite Hf.
    pose proof (num_word pn (off + n) IHn) as Hp. specialize (Hm n ltac:(lia)).
    unfold in_word in IHc, Hp. rewrite u64_small by (unfold in_word; lia).
    set (k := carry + pn.[off + n] + m n) in *. rewrite low_word, Z.shiftr_div_pow2 by lia.
    split; [apply num_insert; [done|apply in_word_mod32]|]. split.
    + unfold in_word. split; [apply Z.div_pos; lia|]. apply Z.div_lt_upper_bound; lia.
    + rewrite value_insert by (rewrite (proj2 IHn); lia).
      replace (32 * Z.of_nat (off + S n)) with (32 + 32 * Z.of_nat (off + n)) by lia.
      rewrite Z.pow_add_r by lia.
      pose proof (Z.div_mod k (2 ^ 32) ltac:(lia)) as Hk. subst k.
      set (p := 2 ^ (32 * Z.of_nat (off + n))) in *. nia.
Qed.

Lemma sum_take b n : (n <= length b)%nat -> forall off c,
  for_up n (fun i t => t + c * b.[i] * 2 ^ (32 * Z.of_nat (off + i))) 0 =
  c * value (take n b) * 2 ^ (32 * Z.of_nat off).
Proof.
  intros Hn off c. induction n as [|n IH]; [rewrite for_up_0, take_0; cbn [value]; lia|].
  rewrite for_up_S, IH by lia. rewrite value_take_S by lia.
  replace (32 * Z.of_nat (off + n)) with (32 * Z.of_nat n + 32 * Z.of_nat off) by lia.
  rewrite Z.pow_add_r by lia. lia.
Qed.

Lemma mod_unique_256 x y c : 0 <= x < 2 ^ 256 -> x + c * 2 ^ 256 = y -> x = y mod 2 ^ 256.
Proof. intros Hx <-. now rewrite Z_mod_plus_full, Z.mod_small. Qed.

Lemma uint_add_spec a b : num a -> num b ->
  num (uint_add a b) /\ value (uint_add a b) = (value a + value b) mod 2 ^ 256.
Proof.
  intros Ha Hb. unfold uint_add.
  destruct (carry_loop WIDTH 0 (fun i => b.[i]) (fun i pn => pn.[i]) a Ha (le_n _)
    (fun _ _ => eq_refl)) as (Hn & _ & Hv).
  { intros i _. pose proof (num_word b i Hb). unfold in_word in *. lia. }
  cbn [Nat.add] in Hn, Hv. split; [exact Hn|]. set (s := for_up _ _ _) in *.
  apply (mod_unique_256 _ _ s.1); [now apply num_range|].
  etransitivity; [exact Hv|]. f_equal.
  pose proof (sum_take b WIDTH ltac:(now rewrite (proj2 Hb)) 0 1) as E.
  rewrite take_ge in E by now rewrite (proj2 Hb).
  rewrite (for_up_ext _ _ (fun i t => t + 1 * b.[i] * 2 ^ (32 * Z.of_nat (0 + i))));
    [rewrite E; lia|]. intros. cbn [Nat.add]. lia.
Qed.

Lemma uint_not_spec a : num a ->
  num (uint_not a) /\ value (uint_not a) = 2 ^ 256 - 1 - value a.
Proof.
  intros Ha. unfold uint_not.
  assert (H : let r := for_up WIDTH (fun i ret => <[i := u32 (Z.lnot a.[i])]> ret) uint_zero in
    num r /\ value r = 2 ^ (32 * Z.of_nat WIDTH) - 1 - value (take WIDTH a) /\
    forall i, (WIDTH <= i)%nat -> r.[i] = 0).
  { apply (for_up_inv (fun n r => num r /\ value r = 2 ^ (32 * Z.of_nat n) - 1 - value (take n a) /\
      forall i, (n <= i)%nat -> r.[i] = 0)).
    - rewrite uint_zero_eq. split; [apply num_zeros|]. split; [reflexivity|].
      intros. apply nth_zeros.
    - intros i r Hi (Hr & Hv & Hz). pose proof (num_word a i Ha) as Hw. unfold in_word in Hw.
      rewrite u32_mod. assert (E : Z.lnot a.[i] mod 2 ^ 32 = 2 ^ 32 - 1 - a.[i]).
      { unfold Z.lnot. symmetry. apply (Z.mod_unique_pos _ _ (-1)); lia. }
      rewrite E. split; [apply num_insert; [done|unfold in_word; lia]|]. split.
      + rewrite value_insert by (rewrite (proj2 Hr); lia). rewrite Hv, Hz by lia.
        rewrite value_take_S by (rewrite (proj2 Ha); lia).
        replace (32 * Z.of_nat (S i)) with (32 + 32 * Z.of_nat i) by lia.
        rewrite Z.pow_add_r by lia. lia.
      + intros j Hj. rewrite nth_insert_Z by (rewrite (proj2 Hr); lia).
        destruct (Nat.eqb_spec j i); [lia|]. apply Hz. lia. }
  destruct H as (Hn & Hv & _). split; [exact Hn|]. etransitivity; [exact Hv|].
  rewrite take_ge by now rewrite (proj2 Ha). reflexivity.
Qed.

Lemma uint_inc_from_spec k pn : (k < WIDTH)%nat -> num pn ->
  num (uint_inc_from k pn) /\
  value (uint_inc_from k pn) =
  (value pn + 2 ^ (32 * Z.of_nat (WIDTH - 1 - k))) mod 2 ^ 256.
Proof.
  revert pn. induction k as [|k IH]; intros pn Hk Hpn;
    set (i := (WIDTH - 1 - _)%nat); cbn [uint_inc_from];
    [change (WIDTH - 1 - 0)%nat with i | fold i];
    pose proof (num_word pn i Hpn) as Hw; unfold in_word in Hw; rewrite u32_mod;
    assert (Hi : (i < length pn)%nat) by (rewrite (proj2 Hpn); unfold i, WIDTH; simpl; lia);
    set (x := (pn.[i] + 1) mod 2 ^ 32);
    assert (Hx : num (<[i := x]> pn)) by (apply num_insert; [done|apply in_word_mod32]);
    pose proof (num_range _ Hx) as HR; pose proof (num_range _ Hpn) as HR0;
    pose proof (Z.div_mod (pn.[i] + 1) (2 ^ 32) ltac:(lia)) as Hd; fold x in Hd;
    pose proof (value_insert pn i x Hi) as Hv.
  - split; [done|]. apply (mod_unique_256 _ _ ((pn.[i] + 1) / 2 ^ 32)); [done|].
    rewrite Hv. change (2 ^ 256) with (2 ^ 32 * 2 ^ (32 * Z.of_nat i)). nia.
  - rewrite nth_insert_Z, Nat.eqb_refl by done. destruct (Z.eqb_spec x 0) as [E|E].
    + destruct (IH (<[i := x]> pn)) as [H1 H2]; [lia|done|]. split; [exact H1|].
      rewrite H2, Hv. f_equal.
      replace (WIDTH - 1 - k)%nat with (S i) by (unfold i, WIDTH in *; simpl in *; lia).
      replace (32 * Z.of_nat (S i)) with (32 + 32 * Z.of_nat i) by lia.
      rewrite Z.pow_add_r by lia. assert (Hp : pn.[i] = 2 ^ 32 - 1) by nia. rewrite E, Hp. lia.
    + split; [done|]. apply (mod_unique_256 _ _ 0); [done|]. rewrite Hv.
      assert (Hp : x = pn.[i] + 1).
      { apply Z.mod_small. assert (pn.[i] + 1 <> 2 ^ 32); [|lia].
        intros Hp. apply E. unfold x. now rewrite Hp. }
      rewrite Hp. lia.
Qed.

Lemma uint_inc_spec a : num a ->
  num (uint_inc a) /\ value (uint_inc a) = (value a + 1) mod 2 ^ 256.
Proof.
  intros Ha. destruct (uint_inc_from_spec (WIDTH - 1) a) as [H1 H2]; [unfold WIDTH; simpl; lia|done|].
  split; [exact H1|]. rewrite <- (Z.pow_0_r 2). exact H2.
Qed.

Lemma uint_neg_spec a : num a ->
  num (uint_neg a) /\ value (uint_neg a) = (- value a) mod 2 ^ 256.
Proof.
  intros Ha. destruct (uint_not_spec a Ha) as [H1 H2]. destruct (uint_inc_spec _ H1) as [H3 H4].
  split; [exact H3|]. etransitivity; [exact H4|]. rewrite H2.
  replace (2 ^ 256 - 1 - value a + 1) with (- value a + 1 * 2 ^ 256) by lia. apply Z_mod_plus_full.
Qed.

Lemma uint_sub_spec a b : num a -> num b ->
  num (uint_sub a b) /\ value (uint_sub a b) = (value a - value b) mod 2 ^ 256.
Proof.
  intros Ha Hb. destruct (uint_neg_spec b Hb) as [H1 H2].
  destruct (uint_add_spec a _ Ha H1) as [H3 H4]. split; [exact H3|].
  etransitivity; [exact H4|]. rewrite H2. now rewrite Zplus_mod_idemp_r.
Qed.

Lemma uint_mul32_spec a b : num a -> in_word 32 b ->
  num (uint_mul32 a b) /\ value (uint_mul32 a b) = (value a * b) mod 2 ^ 256.
Proof.
  intros Ha Hb. unfold uint_mul32.
  assert (H : let s := for_up WIDTH (fun i '(carry, pn) =>
      let n := u64 (carry + b * pn.[i]) in (n >> 32, <[i := n .& 0xffffffff]> pn)) (0, a) in
    num s.2 /\ in_word 32 s.1 /\ (forall i, (WIDTH <= i)%nat -> s.2.[i] = a.[i]) /\
    value s.2 + s.1 * 2 ^ (32 * Z.of_nat WIDTH) = value a + (b - 1) * value (take WIDTH a)).
  { apply (for_up_inv (fun n s => num s.2 /\ in_word 32 s.1 /\
      (forall i, (n <= i)%nat -> s.2.[i] = a.[i]) /\
      value s.2 + s.1 * 2 ^ (32 * Z.of_nat n) = value a + (b - 1) * value (take n a))).
    - cbn [fst snd]. rewrite take_0. cbn [value]. split; [done|]. split; [now apply in_word_0|].
      split; [done|lia].
    - intros i [carry pn] Hi (Hn & Hc & Hsame & Hv). cbn [fst snd] in *. rewrite Hsame by lia.
      pose proof (num_word a i Ha) as Hw. unfold in_word in Hw, Hc, Hb.
      rewrite u64_small by (unfold in_word; nia).
      set (k := carry + b * a.[i]) in *. rewrite low_word, Z.shiftr_div_pow2 by lia.
      split; [apply num_insert; [done|apply in_word_mod32]|]. split.
      { unfold in_word. split; [apply Z.div_pos; nia|]. apply Z.div_lt_upper_bound; nia. }
      split.
      { intros j Hj. rewrite nth_insert_Z by (rewrite (proj2 Hn); lia).
        destruct (Nat.eqb_spec j i); [lia|]. apply Hsame. lia. }
      rewrite value_insert by (rewrite (proj2 Hn); lia). rewrite Hsame by lia.
      rewrite value_take_S by (rewrite (proj2 Ha); lia).
      replace (32 * Z.of_nat (S i)) with (32 + 32 * Z.of_nat i) by lia.
      rewrite Z.pow_add_r by lia. pose proof (Z.div_mod k (2 ^ 32) ltac:(lia)) as Hk. subst k.
      set (p := 2 ^ (32 * Z.of_nat i)) in *. nia. }
  destruct H as (Hn & _ & _ & Hv). split; [exact Hn|]. set (s := for_up _ _ _) in *.
  apply (mod_unique_256 _ _ s.1); [now apply num_range|]. etransitivity; [exact Hv|].
  rewrite take_ge by now rewrite (proj2 Ha). lia.
Qed.

Lemma value_take_drop a n : (n <= length a)%nat ->
  value a = value (take n a) + 2 ^ (32 * Z.of_nat n) * value (drop n a).
Proof.
  revert n. induction a as [|w a IH]; intros n Hn; [destruct n; simpl; lia|].
  destruct n as [|n]; [rewrite take_0, drop_0; change (32 * Z.of_nat 0) with 0; cbn [value]; lia|].
  cbn [length] in Hn. cbn [value firstn skipn]. rewrite (IH n) by lia.
  replace (32 * Z.of_nat (S n)) with (32 + 32 * Z.of_nat n) by lia.
  rewrite Z.pow_add_r by lia. lia.
Qed.

Lemma uint_mul_row_spec a b j pn : num a -> num b -> num pn -> (j < WIDTH)%nat ->
  num (uint_mul_row a b j pn) /\
  value (uint_mul_row a b j pn) =
  (value pn + a.[j] * 2 ^ (32 * Z.of_nat j) * value b) mod 2 ^ 256.
Proof.
  intros Ha Hb Hpn Hj. unfold uint_mul_row.
  destruct (carry_loop (WIDTH - j) j (fun i => a.[j] * b.[i]) (fun i pn => pn.[j + i]) pn Hpn
    ltac:(lia) (fun _ _ => eq_refl)) as (Hn & _ & Hv).
  { intros i _. pose proof (num_word b i Hb). pose proof (num_word a j Ha).
    unfold in_word in *. nia. }
  rewrite (for_up_ext (WIDTH - j) _ (fun i '(carry, pn) =>
      let k := u64 (carry + pn.[j + i] + a.[j] * b.[i]) in
      (k >> 32, <[(j + i)%nat := k .& 0xffffffff]> pn)))
    by (intros i [c p] _; now rewrite (Nat.add_comm i j)).
  split; [exact Hn|]. set (s := for_up _ _ _) in *. replace (j + (WIDTH - j))%nat with WIDTH in Hv by lia.
  apply (mod_unique_256 _ _ (s.1 + a.[j] * value (drop (WIDTH - j) b))); [now apply num_range|].
  rewrite (sum_take b (WIDTH - j) ltac:(rewrite (proj2 Hb); lia) j a.[j]) in Hv.
  change (32 * Z.of_nat WIDTH) with 256 in Hv.
  rewrite (value_take_drop b (WIDTH - j)) by (rewrite (proj2 Hb); lia).
  assert (E : 2 ^ 256 = 2 ^ (32 * Z.of_nat j) * 2 ^ (32 * Z.of_nat (WIDTH - j))).
  { rewrite <- Z.pow_add_r by lia. f_equal. unfold WIDTH in *. simpl in *. lia. }
  rewrite E in *. generalize dependent (2 ^ (32 * Z.of_nat j)).
  generalize dependent (2 ^ (32 * Z.of_nat (WIDTH - j))). intros. nia.
Qed.

Lemma uint_mul_spec a b : num a -> num b ->
  num (uint_mul a b) /\ value (uint_mul a b) = (value a * value b) mod 2 ^ 256.
Proof.
  intros Ha Hb. unfold uint_mul.
  assert (H : num (for_up WIDTH (uint_mul_row a b) uint_zero) /\
    value (for_up WIDTH (uint_mul_row a b) uint_zero) =
    (value (take WIDTH a) * value b) mod 2 ^ 256).
  { apply (for_up_inv (fun n r => num r /\ value r = (value (take n a) * value b) mod 2 ^ 256)).
    - rewrite uint_zero_eq. split; [apply num_zeros|reflexivity].
    - intros j r Hj (Hr & Hv). destruct (uint_mul_row_spec a b j r Ha Hb Hr Hj) as [H1 H2].
      split; [exact H1|]. rewrite H2, Hv, value_take_S by (rewrite (proj2 Ha); lia).
      rewrite Zplus_mod_idemp_l. f_equal. lia. }
  rewrite take_ge in H by now rewrite (proj2 Ha). exact H.
Qed.

(** *** Shifts *)

Lemma num_lor a i x : num a -> in_word 32 x -> num (<[i := a.[i] .| x]> a).
Proof. intros Ha Hx. apply num_insert; [done|]. apply in_word_lor; [lia|now apply num_word|done]. Qed.

(** What the first [i] iterations of [operator<<=] leave in word [m]. *)
Definition shl_word (a : list Z) (k : nat) (s : Z) (i m : nat) : Z :=
  (if ((k + 1 <=? m) && (m - k - 1 <? i))%nat && negb (s =? 0) then a.[m - k - 1] >> (32 - s) else 0)
  .| (if ((k <=? m) && (m - k <? i))%nat then u32 (a.[m - k] << s) else 0).

Lemma uint_shl_words a shift : num a -> 0 <= shift ->
  num (uint_shl a shift) /\ forall m, (m < WIDTH)%nat ->
    (uint_shl a shift).[m] = shl_word a (Z.to_nat (shift / 32)) (shift mod 32) WIDTH m.
Proof.
  intros Ha Hshift. unfold uint_shl. set (k := Z.to_nat (shift / 32)). set (s := shift mod 32).
  assert (Hs : 0 <= s < 32) by (apply Z.mod_pos_bound; lia).
  apply (for_up_inv (fun i r => num r /\ forall m, (m < WIDTH)%nat -> r.[m] = shl_word a k s i m)).
  - rewrite uint_zero_eq. split; [apply num_zeros|]. intros m _. rewrite nth_zeros.
    unfold shl_word. destruct (m - k - 1 <? 0)%nat eqn:E1; [apply Nat.ltb_lt in E1; lia|].
    destruct (m - k <? 0)%nat eqn:E2; [apply Nat.ltb_lt in E2; lia|]. now rewrite !andb_false_r.
  - intros i r Hi (Hr & Hm). pose proof (num_word a i Ha) as Hw.
    assert (Hhi : in_word 32 (a.[i] >> (32 - s))) by (apply in_word_shiftr; [lia|lia|done]).
    set (r1 := if ((i + k + 1 <? WIDTH)%nat && negb (s =? 0)) then _ else r).
    assert (Hr1 : num r1) by (unfold r1; destruct (_ && _); [now apply num_lor|done]).
    split; [destruct (i + k <? WIDTH)%nat; [apply num_lor; [done|apply in_word_u32]|done]|].
    intros m Hmw.
    assert (E1 : r1.[m] = if (m =? i + k + 1)%nat && negb (s =? 0)
      then r.[m] .| (a.[i] >> (32 - s)) else r.[m]).
    { unfold r1. destruct (Nat.ltb_spec (i + k + 1) WIDTH), (s =? 0); cbn [negb andb];
        rewrite ?andb_false_r, ?andb_true_r; try done.
      - rewrite nth_insert_Z by (rewrite (proj2 Hr); lia). destruct (Nat.eqb_spec m (i + k + 1)); [now subst|done].
      - destruct (Nat.eqb_spec m (i + k + 1)); [lia|done]. }
    assert (E2 : (if (i + k <? WIDTH)%nat then <[(i + k)%nat := r1.[i + k] .| u32 (a.[i] << s)]> r1 else r1).[m]
      = if (m =? i + k)%nat then r1.[m] .| u32 (a.[i] << s) else r1.[m]).
    { destruct (Nat.ltb_spec (i + k) WIDTH).
      - rewrite nth_insert_Z by (rewrite (proj2 Hr1); lia). destruct (Nat.eqb_spec m (i + k)); [now subst|done].
      - destruct (Nat.eqb_spec m (i + k)); [lia|done]. }
    rewrite E2, E1, Hm by done. unfold shl_word. clear E1 E2.
    destruct (Nat.eqb_spec m (i + k)) as [->|Hne].
    + replace (i + k - k)%nat with i by lia. rewrite Nat.ltb_irrefl, andb_false_r.
      destruct (Nat.eqb_spec (i + k) (i + k + 1)); [lia|]. cbn [andb].
      destruct (Nat.ltb_spec i (S i)); [|lia]. destruct (Nat.leb_spec k (i + k)); [|lia]. cbn [andb].
      rewrite Z.lor_0_r. f_equal.
      destruct (Nat.leb_spec (k + 1) (i + k)); cbn [andb]; [|done].
      destruct (Nat.ltb_spec (i - 1) i), (Nat.ltb_spec (i - 1) (S i)); done || lia.
    + destruct (Nat.eqb_spec m (i + k + 1)) as [->|Hne2]; cbn [andb].
      * replace (i + k + 1 - k - 1)%nat with i by lia. rewrite Nat.ltb_irrefl, andb_false_r.
        destruct (Nat.ltb_spec i (S i)); [|lia]. destruct (Nat.leb_spec (k + 1) (i + k + 1)); [|lia].
        destruct (Nat.ltb_spec (i + k + 1 - k) i), (Nat.ltb_spec (i + k + 1 - k) (S i)); try lia.
        rewrite !andb_false_r. cbn [andb]. destruct (negb (s =? 0)); now rewrite !Z.lor_0_r.
      * f_equal.
        -- destruct (Nat.leb_spec (k + 1) m); cbn [andb]; [|done].
           destruct (Nat.ltb_spec (m - k - 1) i), (Nat.ltb_spec (m - k - 1) (S i)); done || lia.
        -- destruct (Nat.leb_spec k m); cbn [andb]; [|done].
           destruct (Nat.ltb_spec (m - k) i), (Nat.ltb_spec (m - k) (S i)); done || lia.
Qed.

(** A bit of a number at position [32 m + t], also when [m] is out of range. *)
Lemma testbit_word a m t : num a -> 0 <= m -> 0 <= t < 32 ->
  Z.testbit (value a) (32 * m + t) = Z.testbit a.[Z.to_nat m] t.
Proof.
  intros [Ha _] Hm Ht. rewrite testbit_value by (done || lia).
  replace (32 * m + t) with (t + m * 32) by lia.
  now rewrite Z.div_add, Z_mod_plus_full, Z.div_small, Z.mod_small by lia.
Qed.

Lemma word_high_bit a i t : num a -> 32 <= t -> Z.testbit a.[i] t = false.
Proof. intros Ha Ht. apply (testbit_high 32); [lia|now apply num_word|done]. Qed.

(** Numbers below 2^256 are equal when their bits [32 m + t] are. *)
Lemma value_bits r x : num r -> 0 <= x < 2 ^ 256 ->
  (forall m t, (m < WIDTH)%nat -> 0 <= t < 32 ->
    Z.testbit r.[m] t = Z.testbit x (32 * Z.of_nat m + t)) -> value r = x.
Proof.
  intros Hr Hx H. apply Z.bits_inj'. intros n Hn. destruct (Z.lt_ge_cases n 256) as [Hlt|Hge].
  - pose proof (Z.div_mod n 32 ltac:(lia)) as E. pose proof (Z.mod_pos_bound n 32 ltac:(lia)) as Hb.
    pose proof (Z.div_pos n 32 ltac:(lia) ltac:(lia)) as Hp.
    rewrite testbit_value by (apply Hr || lia). rewrite H.
    + f_equal. lia.
    + apply Nat2Z.inj_lt. rewrite Z2Nat.id by lia. change (Z.of_nat WIDTH) with 8. lia.
    + lia.
  - pose proof (num_range r Hr). rewrite !(testbit_high 256) by (unfold in_word; lia). done.
Qed.

Lemma uint_shl_spec a shift : num a -> 0 <= shift ->
  num (uint_shl a shift) /\ value (uint_shl a shift) = (value a * 2 ^ shift) mod 2 ^ 256.
Proof.
  intros Ha Hs. destruct (uint_shl_words a shift Ha Hs) as [Hn Hw]. split; [exact Hn|].
  apply value_bits; [done|apply Z.mod_pos_bound; lia|]. intros m t Hm Ht. rewrite Hw by done.
  change (Z.of_nat WIDTH) with 8 in *.
  rewrite Z.mod_pow2_bits_low by (unfold WIDTH in Hm; simpl in Hm; lia).
  rewrite Z.mul_pow2_bits by done. unfold shl_word.
  pose proof (Z.div_mod shift 32 ltac:(lia)) as E. pose proof (Z.mod_pos_bound shift 32 ltac:(lia)).
  pose proof (Z.div_pos shift 32 Hs ltac:(lia)).
  set (s := shift mod 32) in *. set (k := shift / 32) in *.
  rewrite E. rewrite Z.lor_spec.
  assert (Hlo : Z.testbit (if ((Z.to_nat k <=? m) && (m - Z.to_nat k <? WIDTH))%nat
      then u32 (a.[m - Z.to_nat k] << s) else 0) t =
    if (k <=? Z.of_nat m) && (s <=? t) then Z.testbit a.[m - Z.to_nat k] (t - s) else false).
  { destruct (Nat.leb_spec (Z.to_nat k) m), (Z.leb_spec k (Z.of_nat m)); try lia; cbn [andb];
      [|now rewrite Z.testbit_0_l].
    destruct (Nat.ltb_spec (m - Z.to_nat k) WIDTH); [|lia].
    rewrite u32_mod, Z.mod_pow2_bits_low, Z.shiftl_spec by lia.
    destruct (Z.leb_spec s t); [done|]. now rewrite Z.testbit_neg_r by lia. }
  assert (Hhi : Z.testbit (if ((Z.to_nat k + 1 <=? m) && (m - Z.to_nat k - 1 <? WIDTH))%nat &&
      negb (s =? 0) then a.[m - Z.to_nat k - 1] >> (32 - s) else 0) t =
    if (k + 1 <=? Z.of_nat m) && (t <? s) then Z.testbit a.[m - Z.to_nat k - 1] (t + 32 - s) else false).
  { destruct (Nat.leb_spec (Z.to_nat k + 1) m), (Z.leb_spec (k + 1) (Z.of_nat m)); try lia; cbn [andb];
      [|now rewrite Z.testbit_0_l].
    destruct (Nat.ltb_spec (m - Z.to_nat k - 1) WIDTH); [|lia]. cbn [andb].
    destruct (Z.eqb_spec s 0) as [->|]; cbn [negb].
    - rewrite Z.testbit_0_l. destruct (Z.ltb_spec t 0); [lia|done].
    - rewrite Z.shiftr_spec by lia. replace (t + (32 - s)) with (t + 32 - s) by lia.
      destruct (Z.ltb_spec t s); [done|]. apply word_high_bit; [done|lia]. }
  rewrite Hlo, Hhi. clear Hlo Hhi.
  destruct (Z.leb_spec s t).
  - destruct (Z.ltb_spec t s); [lia|]. rewrite andb_false_r, andb_true_r, orb_false_l.
    replace (32 * Z.of_nat m + t - (32 * k + s)) with (32 * (Z.of_nat m - k) + (t - s)) by lia.
    destruct (Z.leb_spec k (Z.of_nat m)).
    + rewrite testbit_word by (done || lia). do 2 f_equal. lia.
    + now rewrite Z.testbit_neg_r by lia.
  - destruct (Z.ltb_spec t s); [|lia]. rewrite andb_true_r, andb_false_r, orb_false_r.
    replace (32 * Z.of_nat m + t - (32 * k + s)) with (32 * (Z.of_nat m - k - 1) + (t + 32 - s)) by lia.
    destruct (Z.leb_spec (k + 1) (Z.of_nat m)).
    + rewrite testbit_word by (done || lia). do 2 f_equal. lia.
    + now rewrite Z.testbit_neg_r by lia.
Qed.

(** What the first [i] iterations of [operator>>=] leave in word [m]. *)
Definition shr_word (a : list Z) (k : nat) (s : Z) (i m : nat) : Z :=
  (if (m + k <? i)%nat then a.[m + k] >> s else 0)
  .| (if (m + k + 1 <? i)%nat && negb (s =? 0) then u32 (a.[m + k + 1] << (32 - s)) else 0).

Lemma uint_shr_words a shift : num a -> 0 <= shift ->
  num (uint_shr a shift) /\ forall m, (m < WIDTH)%nat ->
    (uint_shr a shift).[m] = shr_word a (Z.to_nat (shift / 32)) (shift mod 32) WIDTH m.
Proof.
  intros Ha Hshift. unfold uint_shr. set (k := Z.to_nat (shift / 32)). set (s := shift mod 32).
  assert (Hs : 0 <= s < 32) by (apply Z.mod_pos_bound; lia).
  apply (for_up_inv (fun i r => num r /\ forall m, (m < WIDTH)%nat -> r.[m] = shr_word a k s i m)).
  - rewrite uint_zero_eq. split; [apply num_zeros|]. intros m _. rewrite nth_zeros. reflexivity.
  - intros i r Hi (Hr & Hm). pose proof (num_word a i Ha) as Hw.
    set (r1 := if ((k + 1 <=? i)%nat && negb (s =? 0)) then _ else r).
    assert (Hr1 : num r1) by (unfold r1; destruct ((k + 1 <=? i)%nat && negb (s =? 0));
      [apply num_lor; [done|apply in_word_u32]|done]).
    split; [destruct (k <=? i)%nat; [apply num_lor; [done|apply in_word_shiftr; lia || done]|done]|].
    intros m Hmw.
    assert (E1 : r1.[m] = if (m + k + 1 =? i)%nat && negb (s =? 0)
      then r.[m] .| u32 (a.[i] << (32 - s)) else r.[m]).
    { unfold r1. destruct (Nat.leb_spec (k + 1) i), (s =? 0); cbn [negb andb];
        rewrite ?andb_false_r, ?andb_true_r; try done.
      - rewrite nth_insert_Z by (rewrite (proj2 Hr); lia).
        destruct (Nat.eqb_spec m (i - k - 1)), (Nat.eqb_spec (m + k + 1) i); try lia; now subst.
      - destruct (Nat.eqb_spec (m + k + 1) i); [lia|done]. }
    assert (E2 : (if (k <=? i)%nat then <[(i - k)%nat := r1.[i - k] .| (a.[i] >> s)]> r1 else r1).[m]
      = if (m + k =? i)%nat then r1.[m] .| (a.[i] >> s) else r1.[m]).
    { destruct (Nat.leb_spec k i).
      - rewrite nth_insert_Z by (rewrite (proj2 Hr1); lia).
        destruct (Nat.eqb_spec m (i - k)), (Nat.eqb_spec (m + k) i); try lia; now subst.
      - destruct (Nat.eqb_spec (m + k) i); [lia|done]. }
    rewrite E2, E1, Hm by done. unfold shr_word. clear E1 E2.
    destruct (Nat.eqb_spec (m + k) i) as [<-|Hne].
    + destruct (Nat.eqb_spec (m + k + 1) (m + k)); [lia|]. rewrite Nat.ltb_irrefl.
      destruct (Nat.ltb_spec (m + k) (S (m + k))); [|lia].
      destruct (Nat.ltb_spec (m + k + 1) (m + k)); [lia|].
      destruct (Nat.ltb_spec (m + k + 1) (S (m + k))); [lia|]. cbn [andb].
      now rewrite !Z.lor_0_l, Z.lor_0_r.
    + assert ((m + k <? S i)%nat = (m + k <? i)%nat) as ->
        by (destruct (Nat.ltb_spec (m + k) (S i)), (Nat.ltb_spec (m + k) i); done || lia).
      destruct (Nat.eqb_spec (m + k + 1) i) as [<-|Hne2]; cbn [andb].
      * rewrite Nat.ltb_irrefl. destruct (Nat.ltb_spec (m + k + 1) (S (m + k + 1))); [|lia]. cbn [andb].
        destruct (negb (s =? 0)); now rewrite !Z.lor_0_r.
      * f_equal. destruct (Nat.ltb_spec (m + k + 1) (S i)), (Nat.ltb_spec (m + k + 1) i); done || lia.
Qed.

Lemma uint_shr_spec a shift : num a -> 0 <= shift ->
  num (uint_shr a shift) /\ value (uint_shr a shift) = value a / 2 ^ shift.
Proof.
  intros Ha Hs. destruct (uint_shr_words a shift Ha Hs) as [Hn Hw]. split; [exact Hn|].
  pose proof (num_range a Ha) as HR. apply value_bits; [done| |].
  { split; [apply Z.div_pos; lia|]. apply Z.div_lt_upper_bound; [lia|].
    assert (1 <= 2 ^ shift) by (change 1 with (2 ^ 0); apply Z.pow_le_mono_r; lia). nia. }
  intros m t Hm Ht. rewrite Hw by done. rewrite <- Z.shiftr_div_pow2, Z.shiftr_spec by lia.
  unfold shr_word.
  pose proof (Z.div_mod shift 32 ltac:(lia)) as E. pose proof (Z.mod_pos_bound shift 32 ltac:(lia)).
  pose proof (Z.div_pos shift 32 Hs ltac:(lia)).
  set (s := shift mod 32) in *. set (k := shift / 32) in *.
  rewrite Z.lor_spec.
  assert (Hout : forall j, (WIDTH <= j)%nat -> a.[j] = 0)
    by (intros j Hj; apply nth_overflow; now rewrite (proj2 Ha)).
  assert (Hlo : Z.testbit (if (m + Z.to_nat k <? WIDTH)%nat then a.[m + Z.to_nat k] >> s else 0) t =
    Z.testbit a.[m + Z.to_nat k] (t + s)).
  { destruct (Nat.ltb_spec (m + Z.to_nat k) WIDTH); [now rewrite Z.shiftr_spec by lia|].
    now rewrite Hout, !Z.testbit_0_l by done. }
  assert (Hhi : Z.testbit (if (m + Z.to_nat k + 1 <? WIDTH)%nat && negb (s =? 0)
      then u32 (a.[m + Z.to_nat k + 1] << (32 - s)) else 0) t =
    if (32 - s <=? t) then Z.testbit a.[m + Z.to_nat k + 1] (t - (32 - s)) else false).
  { destruct (Nat.ltb_spec (m + Z.to_nat k + 1) WIDTH); cbn [andb].
    - destruct (Z.eqb_spec s 0) as [->|]; cbn [negb].
      + rewrite Z.testbit_0_l. destruct (Z.leb_spec (32 - 0) t); [lia|done].
      + rewrite u32_mod, Z.mod_pow2_bits_low, Z.shiftl_spec by lia.
        destruct (Z.leb_spec (32 - s) t); [done|]. now rewrite Z.testbit_neg_r by lia.
    - rewrite Hout, !Z.testbit_0_l by done. now destruct (_ <=? _). }
  rewrite Hlo, Hhi, E. clear Hlo Hhi. destruct (Z.leb_spec (32 - s) t).
  - rewrite word_high_bit by (done || lia). rewrite orb_false_l.
    replace (32 * Z.of_nat m + t + (32 * k + s)) with (32 * (Z.of_nat m + k + 1) + (t - (32 - s))) by lia.
    rewrite testbit_word by (done || lia). do 2 f_equal. lia.
  - rewrite orb_false_r.
    replace (32 * Z.of_nat m + t + (32 * k + s)) with (32 * (Z.of_nat m + k) + (t + s)) by lia.
    rewrite testbit_word by (done || lia). do 2 f_equal. lia.
Qed.

(** *** Comparison *)

Lemma compare_words_spec n a b : num a -> num b -> (n <= WIDTH)%nat ->
  compare_words n a b =
  match value (take n a) ?= value (take n b) with Lt => -1 | Eq => 0 | Gt => 1 end.
Proof.
  intros Ha Hb. induction n as [|n IH]; intros Hn; [reflexivity|]. cbn [compare_words].
  rewrite !value_take_S by (rewrite ?(proj2 Ha), ?(proj2 Hb); lia). rewrite IH by lia.
  assert (Hr : forall x : list Z, num x -> 0 <= value (take n x) < 2 ^ (32 * Z.of_nat n)).
  { intros x [Hx Hl]. pose proof (value_range (take n x) (Forall_take _ _ _ Hx)) as R.
    rewrite length_take, Hl, Nat.min_l in R by lia. exact R. }
  pose proof (Hr a Ha). pose proof (Hr b Hb). set (p := 2 ^ _) in *. clearbody p.
  destruct (Z.ltb_spec a.[n] b.[n]); [|destruct (Z.ltb_spec b.[n] a.[n])].
  - destruct (Z.compare_spec (value (take n a) + a.[n] * p) (value (take n b) + b.[n] * p)); nia.
  - destruct (Z.compare_spec (value (take n a) + a.[n] * p) (value (take n b) + b.[n] * p)); nia.
  - replace b.[n] with a.[n] by lia. rewrite !(Z.add_comm _ (_ * p)). now rewrite Z.add_compare_mono_l.
Qed.

Lemma CompareTo_spec a b : num a -> num b ->
  CompareTo a b = match value a ?= value b with Lt => -1 | Eq => 0 | Gt => 1 end.
Proof.
  intros Ha Hb. unfold CompareTo. rewrite compare_words_spec by (done || lia).
  rewrite !take_ge by (rewrite ?(proj2 Ha), ?(proj2 Hb); lia). reflexivity.
Qed.

(** [operator>=], [>] and [<] *)
Lemma uint_ge_spec a b : num a -> num b -> (0 <=? CompareTo a b) = (value b <=? value a).
Proof.
  intros Ha Hb. rewrite CompareTo_spec by done.
  destruct (Z.compare_spec (value a) (value b)), (Z.leb_spec (value b) (value a)); cbn; lia || done.
Qed.
Lemma uint_gt_spec a b : num a -> num b -> (0 <? CompareTo a b) = (value b <? value a).
Proof.
  intros Ha Hb. rewrite CompareTo_spec by done.
  destruct (Z.compare_spec (value a) (value b)), (Z.ltb_spec (value b) (value a)); cbn; lia || done.
Qed.
Lemma uint_lt_spec a b : num a -> num b -> (CompareTo a b <? 0) = (value a <? value b).
Proof.
  intros Ha Hb. rewrite CompareTo_spec by done.
  destruct (Z.compare_spec (value a) (value b)), (Z.ltb_spec (value a) (value b)); cbn; lia || done.
Qed.

Lemma num_list a : num a -> exists w0 w1 w2 w3 w4 w5 w6 w7,
  a = [w0; w1; w2; w3; w4; w5; w6; w7] /\ in_word 32 w0 /\ in_word 32 w1 /\ in_word 32 w2 /\
  in_word 32 w3 /\ in_word 32 w4 /\ in_word 32 w5 /\ in_word 32 w6 /\ in_word 32 w7.
Proof.
  intros [Hw Hl]. do 8 (destruct a as [|? a]; [discriminate Hl|]). destruct a; [|discriminate Hl].
  rewrite !Forall_cons_iff in Hw. do 8 eexists. split; [reflexivity|]. tauto.
Qed.

Lemma EqualTo_spec a b : num a -> in_word 64 b -> EqualTo a b = (value a =? b).
Proof.
  intros Ha Hb. destruct (num_list a Ha) as (w0 & w1 & w2 & w3 & w4 & w5 & w6 & w7 & -> & H).
  unfold in_word in *. unfold EqualTo. change (seq 2 (WIDTH - 2)) with [2%nat; 3%nat; 4%nat; 5%nat; 6%nat; 7%nat].
  cbn [rev app existsb nth value]. rewrite low_word, Z.shiftr_div_pow2 by lia.
  pose proof (Z.div_mod b (2 ^ 32) ltac:(lia)). pose proof (Z.mod_pos_bound b (2 ^ 32) ltac:(lia)).
  repeat lazymatch goal with
    | |- context [negb (?w =? 0)] => destruct (Z.eqb_spec w 0); cbn [negb orb]
    end; try (symmetry; apply Z.eqb_neq; lia).
  destruct (Z.eqb_spec w1 (b / 2 ^ 32)); cbn [negb]; [|symmetry; apply Z.eqb_neq; lia].
  destruct (Z.eqb_spec w0 (b mod 2 ^ 32)); cbn [negb]; symmetry; [apply Z.eqb_eq|apply Z.eqb_neq]; lia.
Qed.

(** *** The highest bit *)

Lemma land_bit w n : 0 <= n -> negb (w .& (1 << n) =? 0) = Z.testbit w n.
Proof. intros Hn. now rewrite land_single_bit, negb_involutive. Qed.

Lemma top_bit_spec n w : 0 < w < 2 ^ (Z.of_nat n + 1) -> top_bit n w = Z.log2 w.
Proof.
  induction n as [|n IH]; intros Hw.
  - change (2 ^ (Z.of_nat 0 + 1)) with 2 in Hw. now replace w with 1 by lia.
  - cbn [top_bit]. rewrite land_bit by lia.
    pose proof (Z.log2_spec w ltac:(lia)) as [HL HU].
    assert (Hlog : Z.log2 w < Z.of_nat (S n) + 1) by (apply Z.log2_lt_pow2; lia).
    destruct (Z.testbit w (Z.of_nat (S n))) eqn:E.
    + apply Z.le_antisymm; [|lia]. destruct (Z.le_gt_cases (Z.of_nat (S n)) (Z.log2 w)); [done|].
      rewrite Z.bits_above_log2 in E by lia. discriminate.
    + apply IH. split; [lia|]. apply Z.log2_lt_pow2; [lia|].
      assert (Z.log2 w <> Z.of_nat (S n)); [|lia].
      intros E'. rewrite <- E', Z.bit_log2 in E by lia. discriminate.
Qed.

Definition bit_length (x : Z) : Z := if x =? 0 then 0 else Z.log2 x + 1.

Lemma bit_length_bounds x : 0 < x -> 2 ^ (bit_length x - 1) <= x < 2 ^ bit_length x.
Proof.
  intros Hx. unfold bit_length. destruct (Z.eqb_spec x 0); [lia|].
  replace (Z.log2 x + 1 - 1) with (Z.log2 x) by lia. rewrite Z.add_1_r. now apply Z.log2_spec.
Qed.

Lemma bit_length_le x n : 0 <= n -> 0 <= x < 2 ^ n -> bit_length x <= n.
Proof.
  intros Hn Hx. unfold bit_length. destruct (Z.eqb_spec x 0); [lia|].
  assert (Z.log2 x < n) by (apply Z.log2_lt_pow2; lia). lia.
Qed.

Lemma bits_below_spec n a : num a -> (n <= WIDTH)%nat ->
  bits_below n a = bit_length (value (take n a)).
Proof.
  intros Ha. induction n as [|n IH]; intros Hn; [reflexivity|]. cbn [bits_below].
  rewrite value_take_S by (rewrite (proj2 Ha); lia).
  pose proof (num_word a n Ha) as Hw. unfold in_word in Hw.
  assert (Hr : 0 <= value (take n a) < 2 ^ (32 * Z.of_nat n)).
  { pose proof (value_range (take n a) (Forall_take _ _ _ (proj1 Ha))) as R.
    rewrite length_take, (proj2 Ha), Nat.min_l in R by lia. exact R. }
  destruct (Z.eqb_spec a.[n] 0) as [E|E]; cbn [negb].
  - rewrite IH by lia. f_equal. rewrite E. lia.
  - rewrite top_bit_spec by lia. unfold bit_length. set (p := 32 * Z.of_nat n) in *.
    assert (Hp : 0 < 2 ^ p) by (apply Z.pow_pos_nonneg; lia).
    destruct (Z.eqb_spec (value (take n a) + a.[n] * 2 ^ p) 0); [nia|].
    f_equal. symmetry. pose proof (Z.log2_spec a.[n] ltac:(lia)) as [HL HU].
    pose proof (Z.log2_nonneg a.[n]).
    apply Z.log2_unique; [lia|]. rewrite <- Z.add_succ_r, !Z.pow_add_r by lia. nia.
Qed.

Lemma uint_bits_spec a : num a -> uint_bits a = bit_length (value a).
Proof.
  intros Ha. unfold uint_bits. rewrite bits_below_spec by (done || lia).
  now rewrite take_ge by (rewrite (proj2 Ha); lia).
Qed.

(** *** Division *)

Lemma set_bit_word a n : num a -> 0 <= n < 256 -> Z.testbit (value a) n = false ->
  let pn := <[(Z.to_nat n / 32)%nat := a.[Z.to_nat n / 32] .| (1 << Z.of_nat (Z.to_nat n mod 32))]> a in
  num pn /\ value pn = value a + 2 ^ n.
Proof.
  intros Ha Hn Hb. set (m := (Z.to_nat n / 32)%nat). set (t := Z.of_nat (Z.to_nat n mod 32)).
  pose proof (Nat.div_mod_eq (Z.to_nat n) 32) as E. pose proof (Nat.mod_upper_bound (Z.to_nat n) 32 ltac:(lia)) as Ht.
  fold m in E. assert (En : n = 32 * Z.of_nat m + t) by (unfold t; lia).
  assert (Hm : (m < WIDTH)%nat) by (apply Nat.Div0.div_lt_upper_bound; change (32 * WIDTH)%nat with 256%nat; lia).
  assert (Htb : 0 <= t < 32) by (unfold t; lia).
  assert (Hx : in_word 32 (1 << t)).
  { rewrite Z.shiftl_1_l. split; [apply Z.pow_nonneg; lia|]. apply Z.pow_lt_mono_r; lia. }
  cbv zeta. split; [now apply num_lor|]. rewrite value_insert by now rewrite (proj2 Ha).
  rewrite En, testbit_word, Nat2Z.id in Hb by (done || lia).
  rewrite Z.shiftl_1_l, <- Z.lxor_lor, <- Z.add_nocarry_lxor.
  - rewrite En, Z.pow_add_r by lia. lia.
  - apply Z.bits_inj'. intros i Hi. rewrite Z.land_spec, Z.testbit_0_l.
    destruct (Z.eq_dec t i) as [<-|]; [now rewrite Hb|]. now rewrite Z.pow2_bits_false, andb_false_r.
  - apply Z.bits_inj'. intros i Hi. rewrite Z.land_spec, Z.testbit_0_l.
    destruct (Z.eq_dec t i) as [<-|]; [now rewrite Hb|]. now rewrite Z.pow2_bits_false, andb_false_r.
Qed.

Lemma div_step_spec b s n d q : num n -> num d -> num q -> 0 < value b ->
  (s < 256)%nat -> value d = value b * 2 ^ Z.of_nat s ->
  value n < 2 * value d -> value q mod 2 ^ (Z.of_nat s + 1) = 0 ->
  let '(n', q') := div_step s n d q in
  num n' /\ num q' /\ 0 <= value n' < value d /\ value q' mod 2 ^ Z.of_nat s = 0 /\
  value q' + value n' / value b = value q + value n / value b.
Proof.
  intros Hn Hd Hq H0 Hs Ed Hnd Hm. unfold div_step. rewrite uint_ge_spec by done.
  pose proof (num_range n Hn) as Rn. pose proof (num_range d Hd) as Rd.
  assert (Hmod : value q mod 2 ^ Z.of_nat s = 0).
  { apply Z.mod_divide; [lia|]. apply Z.mod_divide in Hm; [|lia].
    rewrite Z.pow_add_r in Hm by lia. eapply Z.divide_trans; [|exact Hm]. apply Z.divide_factor_l. }
  destruct (Z.leb_spec (value d) (value n)); [|repeat split; done || lia || apply Hn || apply Hq].
  assert (Hbit : Z.testbit (value q) (Z.of_nat s) = false)
    by (rewrite <- (Z.mod_pow2_bits_low _ (Z.of_nat s + 1)), Hm by lia; apply Z.testbit_0_l).
  destruct (set_bit_word q (Z.of_nat s) Hq ltac:(lia) Hbit) as [Hq' Eq']. rewrite Nat2Z.id in Hq', Eq'.
  destruct (uint_sub_spec n d Hn Hd) as [Hsub Esub]. rewrite Z.mod_small in Esub by lia.
  split; [done|]. split; [done|]. rewrite Esub, Eq'. split; [lia|]. split.
  - rewrite <- Zplus_mod_idemp_r, Z_mod_same_full, Z.add_0_r. exact Hmod.
  - rewrite <- (Z.add_assoc (value q)). f_equal. rewrite Ed.
    replace (value n - value b * 2 ^ Z.of_nat s) with
      (value n + (- 2 ^ Z.of_nat s) * value b) by lia.
    rewrite Z.div_add by lia. lia.
Qed.

Lemma div_loop_spec b shift : 0 < value b -> forall n d q, num n -> num d -> num q ->
  (shift < 256)%nat -> value d = value b * 2 ^ Z.of_nat shift ->
  value n < 2 * value d -> value q mod 2 ^ (Z.of_nat shift + 1) = 0 ->
  num (div_loop shift n d q) /\ value (div_loop shift n d q) = value q + value n / value b.
Proof.
  intros H0. induction shift as [|shift IH]; intros n d q Hn Hd Hq Hs Ed Hnd Hm; cbn [div_loop];
    pose proof (div_step_spec b _ n d q Hn Hd Hq H0 Hs Ed Hnd Hm) as Hstep;
    destruct (div_step _ n d q) as [n1 q1]; destruct Hstep as (Hn1 & Hq1 & Hlt & Hmq & <-).
  - split; [done|]. rewrite Ed in Hlt. change (2 ^ Z.of_nat 0) with 1 in Hlt.
    rewrite Z.div_small by lia. lia.
  - rewrite Nat2Z.inj_succ in Ed, Hmq. rewrite Z.pow_succ_r in Ed by lia.
    destruct (uint_shr_spec d 1 Hd ltac:(lia)) as [Hd1 Ed1].
    assert (E2 : value (uint_shr d 1) = value b * 2 ^ Z.of_nat shift).
    { rewrite Ed1, Ed. change (2 ^ 1) with 2.
      replace (value b * (2 * 2 ^ Z.of_nat shift)) with (value b * 2 ^ Z.of_nat shift * 2) by lia.
      apply Z.div_mul. lia. }
    apply IH; [done|done|done|lia|exact E2|lia|]. now rewrite <- Z.add_1_r in Hmq.
Qed.

Lemma uint_div_spec a b : num a -> num b ->
  if value b =? 0 then uint_div a b = None
  else exists q, uint_div a b = Some q /\ num q /\ value q = value a / value b.
Proof.
  intros Ha Hb. unfold uint_div. rewrite !uint_bits_spec by done.
  pose proof (num_range a Ha) as Ra. pose proof (num_range b Hb) as Rb.
  destruct (Z.eqb_spec (value b) 0) as [E|E]; [now rewrite E|].
  pose proof (bit_length_bounds (value b) ltac:(lia)) as [BL BU].
  assert (Bpos : 0 < bit_length (value b)).
  { unfold bit_length. destruct (Z.eqb_spec (value b) 0); [lia|]. pose proof (Z.log2_nonneg (value b)). lia. }
  destruct (Z.eqb_spec (bit_length (value b)) 0); [lia|].
  destruct (of_uint64_spec 0 ltac:(apply in_word_0; lia)) as [Hz Ez].
  destruct (Z.ltb_spec (bit_length (value a)) (bit_length (value b))) as [Hlt|Hge].
  - exists (of_uint64 0). split; [done|]. split; [done|]. rewrite Ez. symmetry. apply Z.div_small.
    split; [lia|]. destruct (Z.eq_dec (value a) 0); [lia|].
    pose proof (bit_length_bounds (value a) ltac:(lia)) as [_ AU].
    eapply Z.lt_le_trans; [exact AU|]. etransitivity; [|exact BL]. apply Z.pow_le_mono_r; lia.
  - pose proof (bit_length_le (value a) 256 ltac:(lia) Ra).
    assert (Ha0 : 0 < value a).
    { destruct (Z.eq_dec (value a) 0) as [E0|]; [|lia].
      unfold bit_length at 2 in Hge. rewrite E0 in Hge. simpl in Hge. lia. }
    pose proof (bit_length_bounds (value a) Ha0) as [AL AU].
    set (sh := bit_length (value a) - bit_length (value b)) in *.
    destruct (uint_shl_spec b sh Hb ltac:(lia)) as [Hs Es].
    assert (Hle : value b * 2 ^ sh < 2 ^ bit_length (value a)).
    { replace (bit_length (value a)) with (bit_length (value b) + sh) by lia.
      rewrite Z.pow_add_r by lia. apply Z.mul_lt_mono_pos_r; [apply Z.pow_pos_nonneg; lia|done]. }
    assert (Hle2 : 2 ^ bit_length (value a) <= 2 ^ 256) by (apply Z.pow_le_mono_r; lia).
    rewrite Z.mod_small in Es by (split; [apply Z.mul_nonneg_nonneg; [lia|apply Z.pow_nonneg; lia]|lia]).
    destruct (div_loop_spec b (Z.to_nat sh) ltac:(lia) a (uint_shl b sh) (of_uint64 0))
      as [H1 H2]; try done.
    + apply Nat2Z.inj_lt. rewrite Z2Nat.id by lia. lia.
    + now rewrite Z2Nat.id by lia.
    + rewrite Es. eapply Z.lt_le_trans; [exact AU|].
      replace (bit_length (value a)) with (1 + ((bit_length (value b) - 1) + sh)) by lia.
      rewrite !Z.pow_add_r by lia. change (2 ^ 1) with 2. apply Z.mul_le_mono_nonneg_l; [lia|].
      apply Z.mul_le_mono_nonneg_r; [apply Z.pow_nonneg; lia|done].
    + exists (div_loop (Z.to_nat sh) a (uint_shl b sh) (of_uint64 0)).
      split; [done|]. split; [done|]. rewrite H2, Ez. lia.
Qed.

(** *** Blobs *)

Lemma le_combine_nonneg l : bytes l -> 0 <= le_combine l < 2 ^ (8 * Z.of_nat (length l)).
Proof. exact (in_word_le_combine l). Qed.

Lemma le_combine_app a b : bytes a -> bytes b ->
  le_combine (a ++ b) = le_combine a + 2 ^ (8 * Z.of_nat (length a)) * le_combine b.
Proof.
  intros Ha Hb. induction Ha as [|x a Hx Ha IH]; [cbn [app le_combine length]; lia|].
  rewrite <- app_comm_cons, !le_combine_cons by (done || now apply Forall_app_2). rewrite IH.
  cbn [length]. replace (8 * Z.of_nat (S (length a))) with (8 + 8 * Z.of_nat (length a)) by lia.
  rewrite Z.pow_add_r by lia. lia.
Qed.

(** A blob as a number: its bytes, the least significant first. *)
Lemma UintToArith256_spec a : bytes a -> length a = 32%nat ->
  num (UintToArith256 a) /\ value (UintToArith256 a) = le_combine a.
Proof.
  intros Ha Hl. unfold UintToArith256.
  assert (H : let r := for_up WIDTH (fun x b => <[x := le_combine (mem_read a (x * 4) 4)]> b) uint_zero in
    num r /\ (forall i, (WIDTH <= i)%nat -> r.[i] = 0) /\ value r = le_combine (take (4 * WIDTH) a)).
  { apply (for_up_inv (fun n r => num r /\ (forall i, (n <= i)%nat -> r.[i] = 0) /\
      value r = le_combine (take (4 * n) a))).
    - rewrite uint_zero_eq. split; [apply num_zeros|]. split; [intros; apply nth_zeros|reflexivity].
    - intros i r Hi (Hr & Hz & Hv).
      assert (Hb : bytes (mem_read a (i * 4) 4)) by now apply Forall_mem_read.
      assert (Hlen : length (mem_read a (i * 4) 4) = 4%nat)
        by (apply length_mem_read; unfold WIDTH in Hi; simpl in Hi; lia).
      split; [apply num_insert; [done|]; pose proof (in_word_le_combine _ Hb) as B;
        now rewrite Hlen in B|]. split.
      + intros j Hj. rewrite nth_insert_Z by (rewrite (proj2 Hr); lia).
        destruct (Nat.eqb_spec j i); [lia|]. apply Hz. lia.
      + rewrite value_insert by (rewrite (proj2 Hr); lia). rewrite Hv, Hz by lia.
        replace (4 * S i)%nat with (4 * i + 4)%nat by lia.
        rewrite <- (take_take_drop a (4 * i) 4), le_combine_app
          by (auto using Forall_take, Forall_drop).
        rewrite length_take, Hl, Nat.min_l by (unfold WIDTH in Hi; simpl in Hi; lia).
        unfold mem_read. rewrite (Nat.mul_comm i 4).
        replace (8 * Z.of_nat (4 * i)) with (32 * Z.of_nat i) by lia. lia. }
  destruct H as (Hn & _ & Hv). split; [exact Hn|]. etransitivity; [exact Hv|].
  rewrite take_ge; [done|]. rewrite Hl. reflexivity.
Qed.

Lemma ArithToUint256_spec a : num a -> ArithToUint256 a = le_split 32 (value a).
Proof.
  intros Ha. destruct (num_list a Ha) as (w0 & w1 & w2 & w3 & w4 & w5 & w6 & w7 & E & H).
  assert (Hj : ArithToUint256 a = mjoin (le_split 4 <$> a)) by (rewrite E; reflexivity).
  rewrite Hj. clear Hj E H. change 32%nat with (4 * WIDTH)%nat. destruct Ha as [Hw Hl]. rewrite <- Hl.
  clear Hl. induction Hw as [|w a Hx Ha IH]; [reflexivity|].
  cbn [length value]. replace (4 * S (length a))%nat with (4 + 4 * length a)%nat by lia.
  rewrite le_split_add. unfold in_word in Hx.
  change (mjoin (le_split 4 <$> (w :: a))) with (le_split 4 w ++ mjoin (le_split 4 <$> a)).
  f_equal.
  - rewrite <- (le_split_wrap 4 (w + _)), wrap_mod by lia. change (8 * Z.of_nat 4) with 32.
    now rewrite (Z.mul_comm (2 ^ 32)), Z_mod_plus_full, Z.mod_small.
  - change (8 * Z.of_nat 4) with 32. rewrite Z.shiftr_div_pow2 by lia.
    rewrite (Z.mul_comm (2 ^ 32)), Z.div_add, Z.div_small by lia. exact IH.
Qed.

(** ** The compact form *)

(** The number that a compact form means, before it is cut to 256 bits. *)
Definition compact_target (c : Z) : Z :=
  let e := c / 2 ^ 24 in
  let m := c mod 2 ^ 23 in
  if e <=? 3 then m / 2 ^ (8 * (3 - e)) else m * 2 ^ (8 * (e - 3)).

Lemma SetCompact_spec c : in_word 32 c ->
  let '(a, negative, overflow) := SetCompact c in
  num a /\ value a = compact_target c mod 2 ^ 256 /\
  negative = negb (compact_target c =? 0) && Z.testbit c 23 /\
  overflow = (2 ^ 256 <=? compact_target c).
Proof.
  intros Hc. unfold SetCompact, compact_target.
  rewrite (land_bit c 23 ltac:(lia) : negb (c .& 0x00800000 =? 0) = Z.testbit c 23).
  assert (Em : c .& 0x007fffff = c mod 2 ^ 23)
    by (change 0x007fffff with (Z.ones 23); now rewrite Z.land_ones by lia).
  rewrite Em, Z.shiftr_div_pow2 by lia. unfold in_word in Hc.
  pose proof (Z.mod_pos_bound c (2 ^ 23) ltac:(lia)) as Hm.
  assert (He : 0 <= c / 2 ^ 24 < 256)
    by (split; [apply Z.div_pos; lia|apply Z.div_lt_upper_bound; lia]).
  set (m := c mod 2 ^ 23) in *. set (e := c / 2 ^ 24) in *.
  destruct (Z.leb_spec e 3) as [H3|H3].
  - rewrite Z.shiftr_div_pow2 by lia. set (x := m / 2 ^ (8 * (3 - e))).
    assert (Hx : 0 <= x < 2 ^ 23).
    { assert (1 <= 2 ^ (8 * (3 - e))) by (change 1 with (2 ^ 0); apply Z.pow_le_mono_r; lia).
      split; [apply Z.div_pos; lia|]. apply Z.div_lt_upper_bound; nia. }
    destruct (of_uint64_spec x ltac:(unfold in_word; lia)) as [H1 H2].
    split; [done|]. rewrite H2. split; [symmetry; apply Z.mod_small; lia|]. split; [done|].
    destruct (Z.leb_spec (2 ^ 256) x); [lia|]. destruct (Z.ltb_spec 34 e), (Z.ltb_spec 33 e),
      (Z.ltb_spec 32 e); lia.
  - destruct (of_uint64_spec m ltac:(unfold in_word; lia)) as [H1 H2].
    destruct (uint_shl_spec _ (8 * (e - 3)) H1 ltac:(lia)) as [H4 H5].
    split; [done|]. split; [now rewrite H5, H2|].
    assert (Hp : 0 < 2 ^ (8 * (e - 3))) by (apply Z.pow_pos_nonneg; lia).
    split; [f_equal; f_equal; destruct (Z.eqb_spec m 0), (Z.eqb_spec (m * 2 ^ (8 * (e - 3))) 0); nia || done|].
    destruct (Z.eqb_spec m 0) as [->|Hm0]; [now rewrite Z.mul_0_l|]. cbn [negb andb].
    assert (Hsplit : forall k, 3 < k -> e <= k -> 2 ^ (8 * (k - 3)) = 2 ^ (8 * (e - 3)) * 2 ^ (8 * (k - e)))
      by (intros k Hk Hek; rewrite <- Z.pow_add_r by lia; f_equal; lia).
    destruct (Z.ltb_spec 34 e) as [H34|H34].
    { symmetry. apply Z.leb_le. etransitivity; [apply (Z.pow_le_mono_r 2 256 (8 * (e - 3))); lia|]. nia. }
    destruct (Z.eq_dec e 34) as [->|]; [|destruct (Z.eq_dec e 33) as [->|]].
    + change (33 <? 34) with true. change (32 <? 34) with true. rewrite !andb_true_r, orb_false_l.
      change (2 ^ (8 * (34 - 3))) with (2 ^ 248). change (2 ^ 256) with (256 * 2 ^ 248).
      destruct (Z.ltb_spec 0xff m), (Z.ltb_spec 0xffff m), (Z.leb_spec (256 * 2 ^ 248) (m * 2 ^ 248));
        cbn [orb]; lia || done.
    + change (33 <? 33) with false. change (32 <? 33) with true. rewrite andb_false_r, andb_true_r, !orb_false_l.
      change (2 ^ (8 * (33 - 3))) with (2 ^ 240). change (2 ^ 256) with (65536 * 2 ^ 240).
      destruct (Z.ltb_spec 0xffff m), (Z.leb_spec (65536 * 2 ^ 240) (m * 2 ^ 240)); lia || done.
    + destruct (Z.ltb_spec 33 e), (Z.ltb_spec 32 e); try lia. rewrite !andb_false_r. cbn [orb].
      symmetry. apply Z.leb_gt. apply Z.lt_le_trans with (2 ^ 23 * 2 ^ (8 * (32 - 3))); [|done].
      rewrite (Hsplit 32) by lia. assert (1 <= 2 ^ (8 * (32 - e)))
        by (change 1 with (2 ^ 0); apply Z.pow_le_mono_r; lia). nia.
Qed.

Lemma lor_shiftl a b k : 0 <= k -> 0 <= a < 2 ^ k -> 0 <= b -> a .| (b << k) = a + b * 2 ^ k.
Proof.
  intros Hk Ha Hb. rewrite <- Z.lxor_lor, <- Z.add_nocarry_lxor, Z.shiftl_mul_pow2; try done.
  all: apply Z.bits_inj'; intros i Hi; rewrite Z.land_spec, Z.testbit_0_l.
  all: destruct (Z.lt_ge_cases i k).
  all: try (rewrite (testbit_high k a) by (unfold in_word; lia); done).
  all: rewrite Z.shiftl_spec_low by done; apply andb_false_r.
Qed.

Lemma GetLow64_spec a : num a -> GetLow64 a = value a mod 2 ^ 64.
Proof.
  intros Ha. destruct (num_list a Ha) as (w0 & w1 & w2 & w3 & w4 & w5 & w6 & w7 & -> & H).
  unfold in_word in H. unfold GetLow64. cbn [nth]. rewrite lor_shiftl by lia.
  apply (Z.mod_unique_pos _ _ (value [w2; w3; w4; w5; w6; w7])); [lia|]. cbn [value]. lia.
Qed.

(** The mantissa of three bytes and the number of bytes of a number. *)
Definition byte_length (v : Z) : Z := (bit_length v + 7) / 8.
Definition mantissa (v : Z) : Z :=
  let n := byte_length v in
  if n <=? 3 then v * 2 ^ (8 * (3 - n)) else v / 2 ^ (8 * (n - 3)).

Lemma byte_length_bounds v : 0 <= v < 2 ^ 256 -> 0 <= byte_length v <= 32 /\
  v < 2 ^ (8 * byte_length v) /\ (0 < v -> 1 <= byte_length v /\ 2 ^ (8 * (byte_length v - 1)) <= v).
Proof.
  intros Hv. unfold byte_length. pose proof (bit_length_le v 256 ltac:(lia) Hv) as HU.
  pose proof (Z.div_mod (bit_length v + 7) 8 ltac:(lia)) as E.
  pose proof (Z.mod_pos_bound (bit_length v + 7) 8 ltac:(lia)) as B.
  destruct (Z.eq_dec v 0) as [->|].
  - change (bit_length 0) with 0. change ((0 + 7) / 8) with 0. lia.
  - pose proof (bit_length_bounds v ltac:(lia)) as [L U].
    assert (0 < bit_length v).
    { unfold bit_length. destruct (Z.eqb_spec v 0); [lia|]. pose proof (Z.log2_nonneg v). lia. }
    split; [lia|]. split.
    + eapply Z.lt_le_trans; [exact U|]. apply Z.pow_le_mono_r; lia.
    + intros _. split; [lia|]. etransitivity; [|exact L]. apply Z.pow_le_mono_r; lia.
Qed.

Lemma mantissa_bounds v : 0 <= v < 2 ^ 256 -> 0 <= mantissa v < 2 ^ 24 /\
  (0 < v -> 2 ^ 16 <= mantissa v).
Proof.
  intros Hv. destruct (byte_length_bounds v Hv) as (Hn & HU & HL). unfold mantissa.
  set (n := byte_length v) in *. destruct (Z.leb_spec n 3) as [H3|H3].
  - assert (Hp : 0 < 2 ^ (8 * (3 - n))) by (apply Z.pow_pos_nonneg; lia).
    assert (E : 2 ^ 24 = 2 ^ (8 * n) * 2 ^ (8 * (3 - n)))
      by (rewrite <- Z.pow_add_r by lia; f_equal; lia).
    split; [split; [nia|rewrite E; now apply Z.mul_lt_mono_pos_r]|]. intros H0. destruct (HL H0) as [H1 HL'].
    replace (2 ^ 16) with (2 ^ (8 * (n - 1)) * 2 ^ (8 * (3 - n)))
      by (rewrite <- Z.pow_add_r by lia; f_equal; lia).
    apply Z.mul_le_mono_nonneg_r; lia.
  - assert (Hp : 0 < 2 ^ (8 * (n - 3))) by (apply Z.pow_pos_nonneg; lia). split; [split|].
    + apply Z.div_pos; lia.
    + apply Z.div_lt_upper_bound; [done|]. rewrite <- Z.pow_add_r by lia.
      now replace (8 * (n - 3) + 24) with (8 * n) by lia.
    + intros H0. destruct (HL H0) as [_ HL']. apply Z.div_le_lower_bound; [done|].
      rewrite <- Z.pow_add_r by lia. now replace (8 * (n - 3) + 16) with (8 * (n - 1)) by lia.
Qed.

(** The fields of the compact form. *)
Definition norm_mantissa (v : Z) : Z := if 2 ^ 23 <=? mantissa v then mantissa v / 256 else mantissa v.
Definition norm_size (v : Z) : Z := if 2 ^ 23 <=? mantissa v then byte_length v + 1 else byte_length v.
Definition compact_of (v : Z) (negative : bool) : Z :=
  norm_mantissa v + (if negative && negb (v =? 0) then 2 ^ 23 else 0) + norm_size v * 2 ^ 24.

Lemma norm_bounds v : 0 <= v < 2 ^ 256 -> 0 <= norm_mantissa v < 2 ^ 23 /\ 0 <= norm_size v <= 33 /\
  (0 < v -> 2 ^ 15 <= norm_mantissa v) /\ (v = 0 -> norm_mantissa v = 0).
Proof.
  intros Hv. destruct (byte_length_bounds v Hv) as (Hn & _). destruct (mantissa_bounds v Hv) as [Hm HL].
  unfold norm_mantissa, norm_size. destruct (Z.leb_spec (2 ^ 23) (mantissa v)) as [H|H].
  - split; [split; [apply Z.div_pos; lia|apply Z.div_lt_upper_bound; lia]|]. split; [lia|]. split.
    + intros _. apply Z.div_le_lower_bound; lia.
    + intros ->. change (mantissa 0) with 0 in H. lia.
  - split; [lia|]. split; [lia|]. split; [intros H0; specialize (HL H0); lia|]. now intros ->.
Qed.

Lemma land_low_0 x : 0 <= x < 2 ^ 23 -> x .& u32 (Z.lnot 0x007fffff) = 0.
Proof.
  intros Hx. change (u32 (Z.lnot 0x007fffff)) with (511 << 23).
  apply Z.bits_inj'. intros i Hi. rewrite Z.land_spec, Z.testbit_0_l.
  destruct (Z.lt_ge_cases i 23); [now rewrite Z.shiftl_spec_low, andb_false_r|].
  now rewrite (testbit_high 23 x) by (unfold in_word; lia).
Qed.

Lemma testbit_top x n : 0 <= n -> 0 <= x < 2 ^ (n + 1) -> Z.testbit x n = (2 ^ n <=? x).
Proof.
  intros Hn Hx. rewrite Z.pow_add_r in Hx by lia. rewrite Z.testbit_eqb by done.
  destruct (Z.leb_spec (2 ^ n) x) as [H|H].
  - replace (x / 2 ^ n) with 1; [done|]. apply (Z.div_unique_pos _ _ _ (x - 2 ^ n)); lia.
  - now rewrite Z.div_small.
Qed.

Lemma GetCompact_spec a negative : num a ->
  GetCompact a negative = Some (compact_of (value a) negative) /\
  in_word 32 (compact_of (value a) negative).
Proof.
  intros Ha. pose proof (num_range a Ha) as HR. set (v := value a) in *.
  destruct (byte_length_bounds v HR) as (Hn & HU & HL). destruct (mantissa_bounds v HR) as [Hm _].
  destruct (norm_bounds v HR) as (Hm' & Hn' & Hpos & Hzero).
  unfold GetCompact. rewrite uint_bits_spec by done. fold v. fold (byte_length v).
  set (raw := if byte_length v <=? 3 then _ else _).
  assert (E : raw = mantissa v).
  { unfold raw, mantissa in *. destruct (Z.leb_spec (byte_length v) 3).
    - rewrite GetLow64_spec by done. fold v. rewrite Z.mod_small.
      + rewrite Z.shiftl_mul_pow2 by lia. rewrite u64_small, u32_small; unfold in_word; lia.
      + split; [lia|]. eapply Z.lt_le_trans; [exact HU|]. apply Z.pow_le_mono_r; lia.
    - destruct (uint_shr_spec a (8 * (byte_length v - 3)) Ha ltac:(lia)) as [H1 H2].
      rewrite GetLow64_spec, H2 by done. fold v. rewrite Z.mod_small by lia.
      now rewrite u32_small by (unfold in_word; lia). }
  rewrite E. rewrite (land_bit (mantissa v) 23 ltac:(lia) :
    negb (mantissa v .& 0x00800000 =? 0) = Z.testbit (mantissa v) 23).
  rewrite testbit_top by lia.
  assert (Ep : (if 2 ^ 23 <=? mantissa v then (mantissa v >> 8, byte_length v + 1)
    else (mantissa v, byte_length v)) = (norm_mantissa v, norm_size v)).
  { unfold norm_mantissa, norm_size. destruct (2 ^ 23 <=? mantissa v); [|done].
    now rewrite Z.shiftr_div_pow2 by lia. }
  rewrite Ep. rewrite land_low_0 by done. cbn [negb Z.eqb].
  destruct (Z.ltb_spec (norm_size v) 256); [cbn [negb]|lia].
  assert (Eor : norm_mantissa v .| u32 (norm_size v << 24) = norm_mantissa v + norm_size v * 2 ^ 24).
  { rewrite u32_small by (unfold in_word; rewrite Z.shiftl_mul_pow2 by lia; lia). apply lor_shiftl; lia. }
  assert (Hlow : (norm_mantissa v + norm_size v * 2 ^ 24) .& 0x007fffff = norm_mantissa v).
  { change 0x007fffff with (Z.ones 23). rewrite Z.land_ones by lia.
    replace (norm_mantissa v + norm_size v * 2 ^ 24) with (norm_mantissa v + (2 * norm_size v) * 2 ^ 23) by lia.
    now rewrite Z_mod_plus_full, Z.mod_small. }
  rewrite Eor, Hlow. unfold compact_of.
  assert (Enz : negb (norm_mantissa v =? 0) = negb (v =? 0)).
  { destruct (Z.eqb_spec v 0) as [E0|E0]; [now rewrite Hzero|].
    destruct (Z.eqb_spec (norm_mantissa v) 0); [|done]. lia. }
  rewrite Enz. split.
  - f_equal. destruct (negative && negb (v =? 0)); [|rewrite Z.lor_0_r; lia].
    replace (norm_mantissa v + norm_size v * 2 ^ 24) with (norm_mantissa v + (2 * norm_size v) * 2 ^ 23) by lia.
    rewrite <- lor_shiftl, <- Z.lor_assoc by lia. change 0x00800000 with (1 << 23).
    rewrite <- Z.shiftl_lor, Z.lor_comm, (Z.lor_comm _ 1).
    rewrite Z.lor_comm. rewrite (Z.mul_comm 2).
    change 2 with (2 ^ 1) at 1. rewrite <- Z.shiftl_mul_pow2 by lia.
    rewrite (lor_shiftl 1 (norm_size v) 1), lor_shiftl by lia. lia.
  - unfold in_word. destruct (negative && negb (v =? 0)); lia.
Qed.

(** The number with all but its leading bytes cleared. *)
Definition dropped_bits (v : Z) : Z := 8 * Z.max 0 (norm_size v - 3).
Definition truncated (v : Z) : Z := v / 2 ^ dropped_bits v * 2 ^ dropped_bits v.

Lemma div_pow_pow v a b : 0 <= a -> 0 <= b -> v / 2 ^ a / 2 ^ b = v / 2 ^ (a + b).
Proof.
  intros Ha Hb. rewrite Z.pow_add_r by done. apply Z.div_div; [|apply Z.pow_pos_nonneg; lia].
  apply Z.pow_nonzero; lia.
Qed.

Lemma compact_fields v negative : 0 <= v < 2 ^ 256 ->
  let c := compact_of v negative in
  c / 2 ^ 24 = norm_size v /\ c mod 2 ^ 23 = norm_mantissa v /\
  Z.testbit c 23 = negative && negb (v =? 0).
Proof.
  intros Hv c. destruct (norm_bounds v Hv) as (Hm & Hn & _). unfold c, compact_of.
  set (s := negative && negb (v =? 0)). set (b := if s then 2 ^ 23 else 0).
  assert (Hb : 0 <= b <= 2 ^ 23) by (unfold b; destruct s; lia). repeat split.
  - rewrite Z.div_add by lia. rewrite Z.div_small; lia.
  - replace (norm_mantissa v + b + norm_size v * 2 ^ 24) with
      (norm_mantissa v + ((if s then 1 else 0) + 2 * norm_size v) * 2 ^ 23)
      by (unfold b; destruct s; lia).
    now rewrite Z_mod_plus_full, Z.mod_small.
  - rewrite <- (Z.mod_pow2_bits_low _ 24) by lia. rewrite Z_mod_plus_full, Z.mod_small by lia.
    rewrite testbit_top by lia. unfold b. destruct s; [apply Z.leb_le|apply Z.leb_gt]; lia.
Qed.

Lemma compact_target_of v negative : 0 <= v < 2 ^ 256 ->
  compact_target (compact_of v negative) = truncated v.
Proof.
  intros Hv. destruct (compact_fields v negative Hv) as (E1 & E2 & _). unfold compact_target.
  rewrite E1, E2. destruct (byte_length_bounds v Hv) as (Hn & HU & _).
  unfold truncated, dropped_bits, norm_size, norm_mantissa, mantissa in *.
  set (n := byte_length v) in *.
  assert (Hpos : forall k, 0 <= k -> 0 < 2 ^ k) by (intros; apply Z.pow_pos_nonneg; lia).
  assert (Hcancel : forall k, 0 <= k -> v * 2 ^ k / 2 ^ k = v)
    by (intros k Hk; apply Z.div_mul; specialize (Hpos k Hk); lia).
  destruct (Z.leb_spec n 3) as [H3|H3];
    [destruct (Z.leb_spec (2 ^ 23) (v * 2 ^ (8 * (3 - n)))) as [HB|HB]
    |destruct (Z.leb_spec (2 ^ 23) (v / 2 ^ (8 * (n - 3)))) as [HB|HB]].
  - destruct (Z.leb_spec (n + 1) 3) as [H4|H4].
    + replace (8 * (3 - n)) with (8 * (3 - (n + 1)) + 8) by lia. rewrite Z.pow_add_r by lia.
      change (2 ^ 8) with 256. rewrite Z.mul_assoc, Z.div_mul, Hcancel by lia.
      rewrite Z.max_l by lia. change (2 ^ (8 * 0)) with 1. now rewrite Z.div_1_r, Z.mul_1_r.
    + replace n with 3 in * by lia. change (2 ^ (8 * (3 - 3))) with 1. rewrite Z.mul_1_r. reflexivity.
  - rewrite Hcancel by lia. destruct (Z.leb_spec n 3); [|lia].
    rewrite Z.max_l by lia. change (2 ^ (8 * 0)) with 1. now rewrite Z.div_1_r, Z.mul_1_r.
  - destruct (Z.leb_spec (n + 1) 3); [lia|]. rewrite Z.max_r by lia.
    change 256 with (2 ^ 8). rewrite div_pow_pow by lia.
    now replace (8 * (n - 3) + 8) with (8 * (n + 1 - 3)) by lia.
  - destruct (Z.leb_spec n 3); [lia|]. now rewrite Z.max_r by lia.
Qed.

Lemma truncated_bounds v : 0 <= v < 2 ^ 256 ->
  0 <= truncated v <= v /\ 2 ^ 15 * (v - truncated v) <= v /\
  (v = 0 <-> truncated v = 0).
Proof.
  intros Hv. destruct (norm_bounds v Hv) as (Hm & Hn & Hpos & Hzero).
  pose proof (compact_target_of v false Hv) as E. destruct (compact_fields v false Hv) as (E1 & E2 & _).
  unfold compact_target in E. rewrite E1, E2 in E. unfold truncated in *.
  assert (Hp : 0 < 2 ^ dropped_bits v) by (apply Z.pow_pos_nonneg; unfold dropped_bits; lia).
  pose proof (Z.div_mod v (2 ^ dropped_bits v) ltac:(lia)) as D.
  pose proof (Z.mod_pos_bound v (2 ^ dropped_bits v) Hp) as B.
  assert (Hq : 0 <= v / 2 ^ dropped_bits v) by (apply Z.div_pos; lia).
  destruct (Z.eq_dec v 0) as [->|H0]; [rewrite Z.div_0_l by lia; lia|].
  specialize (Hpos ltac:(lia)).
  assert (Hbig : 2 ^ dropped_bits v = 1 \/ 2 ^ 15 <= v / 2 ^ dropped_bits v).
  { destruct (Z.leb_spec (norm_size v) 3) as [H3|H3].
    - left. unfold dropped_bits. rewrite Z.max_l by lia. reflexivity.
    - right. unfold dropped_bits in *. rewrite Z.max_r in * by lia. nia. }
  destruct Hbig as [H1|H1]; [rewrite H1 in *; lia|]. nia.
Qed.

(** The truncated number has the same compact form. *)
Lemma norm_truncated v : 0 <= v < 2 ^ 256 ->
  norm_mantissa (truncated v) = norm_mantissa v /\ norm_size (truncated v) = norm_size v.
Proof.
  intros Hv. destruct (truncated_bounds v Hv) as (Ht & _ & H0).
  destruct (Z.eq_dec v 0) as [->|Hv0]; [now rewrite (proj1 H0)|].
  destruct (byte_length_bounds v Hv) as (Hn & HU & HL). destruct (HL ltac:(lia)) as [Hn1 HL'].
  assert (Hd : dropped_bits v <= 8 * (byte_length v - 1)).
  { unfold dropped_bits, norm_size. destruct (2 ^ 23 <=? mantissa v); lia. }
  assert (Hbl : byte_length (truncated v) = byte_length v).
  { unfold byte_length at 1. f_equal.
    assert (E : bit_length (truncated v) = bit_length v); [|now rewrite E].
    pose proof (bit_length_bounds v ltac:(lia)) as [L U].
    assert (Hdb : 0 <= dropped_bits v <= bit_length v - 1).
    { split; [unfold dropped_bits; lia|]. etransitivity; [exact Hd|]. unfold byte_length.
      pose proof (Z.mul_div_le (bit_length v + 7) 8 ltac:(lia)). lia. }
    assert (L' : 2 ^ (bit_length v - 1) <= truncated v).
    { unfold truncated. replace (bit_length v - 1) with ((bit_length v - 1 - dropped_bits v) + dropped_bits v) at 1 by lia.
      rewrite Z.pow_add_r by lia. apply Z.mul_le_mono_nonneg_r; [apply Z.pow_nonneg; lia|].
      apply Z.div_le_lower_bound; [apply Z.pow_pos_nonneg; lia|]. rewrite <- Z.pow_add_r by lia.
      now replace (dropped_bits v + (bit_length v - 1 - dropped_bits v)) with (bit_length v - 1) by lia. }
    unfold bit_length at 1. destruct (Z.eqb_spec (truncated v) 0); [lia|].
    assert (Z.log2 (truncated v) = bit_length v - 1); [|lia]. apply Z.log2_unique; [lia|].
    split; [done|]. replace (Z.succ (bit_length v - 1)) with (bit_length v) by lia. lia. }
  assert (Hm : mantissa (truncated v) =
    if 2 ^ 23 <=? mantissa v then mantissa v / 2 ^ (dropped_bits v - 8 * Z.max 0 (byte_length v - 3))
      * 2 ^ (dropped_bits v - 8 * Z.max 0 (byte_length v - 3)) else mantissa v).
  { unfold mantissa at 1. rewrite Hbl. unfold truncated, dropped_bits, norm_size, mantissa.
    set (n := byte_length v) in *.
    destruct (Z.leb_spec n 3) as [H3|H3].
    - rewrite (Z.max_l 0 (n - 3)) by lia.
      destruct (Z.leb_spec (2 ^ 23) (v * 2 ^ (8 * (3 - n)))) as [HB|HB].
      + destruct (Z.eq_dec n 3) as [->|].
        * change (2 ^ (8 * (3 - 3))) with 1. rewrite !Z.mul_1_r. reflexivity.
        * rewrite Z.max_l by lia. change (8 * 0 - 8 * 0) with 0. change (2 ^ (8 * 0)) with 1.
          change (2 ^ 0) with 1. now rewrite !Z.div_1_r, !Z.mul_1_r.
      + rewrite Z.max_l by lia. change (2 ^ (8 * 0)) with 1. now rewrite Z.div_1_r, Z.mul_1_r.
    - rewrite (Z.max_r 0 (n - 3)) by lia.
      assert (Hp : 2 ^ (8 * (n - 3)) <> 0) by (apply Z.pow_nonzero; lia).
      destruct (Z.leb_spec (2 ^ 23) (v / 2 ^ (8 * (n - 3)))) as [HB|HB].
      + rewrite Z.max_r by lia. replace (8 * (n + 1 - 3)) with (8 * (n - 3) + 8) by lia.
        replace (8 * (n - 3) + 8 - 8 * (n - 3)) with 8 by lia.
        rewrite <- (div_pow_pow v (8 * (n - 3)) 8), (Z.pow_add_r 2 _ 8) by lia.
        rewrite (Z.mul_comm (2 ^ (8 * (n - 3)))), Z.mul_assoc. now apply Z.div_mul.
      + rewrite Z.max_r by lia. now apply Z.div_mul. }
  unfold norm_mantissa, norm_size. rewrite Hbl, Hm.
  destruct (Z.leb_spec (2 ^ 23) (mantissa v)) as [HB|HB].
  - unfold dropped_bits, norm_size. destruct (Z.leb_spec (2 ^ 23) (mantissa v)); [|lia].
    set (n := byte_length v) in *. set (x := mantissa v) in *.
    destruct (Z.le_gt_cases n 2) as [H2|H2].
    + rewrite !Z.max_l by lia. change (2 ^ (8 * 0 - 8 * 0)) with 1. rewrite Z.div_1_r, Z.mul_1_r.
      now destruct (Z.leb_spec (2 ^ 23) x); [|lia].
    + replace (8 * Z.max 0 (n + 1 - 3) - 8 * Z.max 0 (n - 3)) with 8 by lia. change (2 ^ 8) with 256.
      assert (2 ^ 15 <= x / 256) by (apply Z.div_le_lower_bound; lia).
      destruct (Z.leb_spec (2 ^ 23) (x / 256 * 256)); [|lia]. now rewrite Z.div_mul by lia.
  - now destruct (Z.leb_spec (2 ^ 23) (mantissa v)); [lia|].
Qed.

(** ** Properties *)

(** The value of an arithmetic operator is the operation modulo 2^256 (shifts: floor and
    product with a power of two). *)
Definition implements (f : list Z -> list Z -> list Z) (g : Z -> Z -> Z) : Prop :=
  forall a b, num a -> num b -> num (f a b) /\ value (f a b) = g (value a) (value b) mod 2 ^ 256.

(** Addition, subtraction, multiplication, negation, complement, increment and the
    shifts of [arith_uint256] compute modulo 2^256, and the comparison orders numbers. *)
Theorem base_uint_arithmetic :
  implements uint_add Z.add /\ implements uint_sub Z.sub /\ implements uint_mul Z.mul /\
  (forall a b, num a -> in_word 32 b ->
    num (uint_mul32 a b) /\ value (uint_mul32 a b) = (value a * b) mod 2 ^ 256) /\
  (forall a, num a ->
    num (uint_neg a) /\ value (uint_neg a) = (- value a) mod 2 ^ 256 /\
    num (uint_not a) /\ value (uint_not a) = 2 ^ 256 - 1 - value a /\
    num (uint_inc a) /\ value (uint_inc a) = (value a + 1) mod 2 ^ 256 /\
    uint_bits a = bit_length (value a)) /\
  (forall a n, num a -> 0 <= n ->
    num (uint_shl a n) /\ value (uint_shl a n) = (value a * 2 ^ n) mod 2 ^ 256 /\
    num (uint_shr a n) /\ value (uint_shr a n) = value a / 2 ^ n) /\
  (forall a b, num a -> num b -> CompareTo a b =
    match value a ?= value b with Lt => -1 | Eq => 0 | Gt => 1 end).
Proof.
  split; [exact uint_add_spec|]. split; [exact uint_sub_spec|]. split; [exact uint_mul_spec|].
  split; [exact uint_mul32_spec|]. split; [|split; [|exact CompareTo_spec]].
  - intros a Ha. destruct (uint_neg_spec a Ha), (uint_not_spec a Ha), (uint_inc_spec a Ha).
    pose proof (uint_bits_spec a Ha). auto 10.
  - intros a n Ha Hn. destruct (uint_shl_spec a n Ha Hn), (uint_shr_spec a n Ha Hn). auto.
Qed.

(** Division throws exactly for a zero divisor; otherwise its loop ends with the integer
    quotient. *)
Theorem base_uint_division a b : num a -> num b ->
  if value b =? 0 then uint_div a b = None
  else exists q, uint_div a b = Some q /\ num q /\ value q = value a / value b.
Proof. apply uint_div_spec. Qed.

Lemma base_uint_division_witness :
  exists q, uint_div (of_uint64 1000003) (of_uint64 17) = Some q /\ num q /\
    value q = value (of_uint64 1000003) / value (of_uint64 17).
Proof.
  apply (base_uint_division (of_uint64 1000003) (of_uint64 17)); split; by_eval.
Defined.

(** The compact form of every number is written without a failed assertion; reading it
    back gives the number with all but its leading bytes cleared (a relative error below
    2^-15), the sign of a non-zero number and no overflow, and the result has the same
    compact form again. *)
Theorem compact_roundtrip a negative : num a ->
  exists c x, GetCompact a negative = Some c /\
    SetCompact c = (x, negative && negb (value a =? 0), false) /\ num x /\
    value x <= value a /\ 2 ^ 15 * (value a - value x) <= value a /\
    GetCompact x negative = Some c.
Proof.
  intros Ha. pose proof (num_range a Ha) as HR. destruct (GetCompact_spec a negative Ha) as [E Hc].
  pose proof (SetCompact_spec _ Hc) as HS.
  destruct (SetCompact (compact_of (value a) negative)) as [[x s] o] eqn:ES.
  destruct HS as (Hx & Ex & -> & ->). rewrite compact_target_of in * by done.
  destruct (truncated_bounds _ HR) as (HT & Herr & H0). destruct (norm_truncated _ HR) as [Em Es].
  rewrite Z.mod_small in Ex by lia. destruct (compact_fields _ negative HR) as (_ & _ & Eb).
  exists (compact_of (value a) negative), x. split; [done|].
  assert (Ez : (truncated (value a) =? 0) = (value a =? 0)).
  { destruct (Z.eqb_spec (value a) 0), (Z.eqb_spec (truncated (value a)) 0); tauto. }
  split.
  { rewrite ES, Eb, Ez. destruct (Z.leb_spec (2 ^ 256) (truncated (value a))); [lia|].
    do 2 f_equal. destruct (value a =? 0), negative; reflexivity. }
  split; [done|]. rewrite Ex. split; [lia|]. split; [lia|].
  destruct (GetCompact_spec x negative Hx) as [-> _]. rewrite Ex. unfold compact_of.
  now rewrite Em, Es, Ez.
Qed.

Lemma compact_roundtrip_witness :
  exists c x, GetCompact (of_uint64 0xc0de1234) true = Some c /\
    SetCompact c = (x, true && negb (value (of_uint64 0xc0de1234) =? 0), false) /\ num x /\
    value x <= value (of_uint64 0xc0de1234) /\
    2 ^ 15 * (value (of_uint64 0xc0de1234) - value x) <= value (of_uint64 0xc0de1234) /\
    GetCompact x true = Some c.
Proof. apply (compact_roundtrip (of_uint64 0xc0de1234) true). split; by_eval. Defined.

(** The examples of the comment in arith_uint256.h. *)
Example compact_examples :
  GetCompact (of_uint64 0x1234560000) false = Some 0x05123456 /\
  GetCompact (of_uint64 0xc0de000000) false = Some 0x0600c0de.
Proof. split; reflexivity. Qed.

Lemma base_uint_arithmetic_witness :
  value (uint_mul (uint_sub (of_uint64 5) (of_uint64 7)) (of_uint64 3)) = 2 ^ 256 - 6 /\
  CompareTo (of_uint64 (2 ^ 40)) (of_uint64 9) = 1.
Proof.
  destruct base_uint_arithmetic as (_ & Hsub & Hmul & _ & _ & _ & Hcmp).
  destruct (Hsub (of_uint64 5) (of_uint64 7)) as [H1 E1]; [split; by_eval..|].
  destruct (Hmul _ (of_uint64 3) H1) as [_ E2]; [split; by_eval|]. rewrite E2, E1. split; [reflexivity|].
  rewrite (Hcmp (of_uint64 (2 ^ 40)) (of_uint64 9)); [reflexivity|split; by_eval..].
Defined.
