(* ===== verification/Chain.v ===== *)
(** * Block index and active chain: src/chain.h and src/chain.cpp

    The [CBlockIndex] objects live in a store; a pointer is a position in it, NULL is [None].
    A function on pointers returns [None] when the code would fail an assertion or read
    through a bad pointer, so a theorem that it returns [Some] result excludes both. *)

From S2P Require Import Prelude Words.

(** ** Block index objects *)

Abbreviation ptr := (option nat).

Record CBlockIndex := mk_index {
  phashBlock : option (list Z);   (* the hash it points to *)
  pprev : ptr;
  pskip : ptr;
  nHeight : Z;
  nFile : Z;
  nDataPos : Z;
  nUndoPos : Z;
  nChainWork : list Z;            (* arith_uint256 *)
  nTx : Z;
  nChainTx : Z;
  nStatus : Z;
  nVersion : Z;
  hashMerkleRoot : list Z;
  nTime : Z;
  nBits : Z;
  nNonce : Z;
  nSequenceId : Z }.

(** The allocated objects. *)
Abbreviation store := (list CBlockIndex).

Definition with_pskip (q : ptr) (b : CBlockIndex) : CBlockIndex :=
  let '(mk_index h p _ n f d u w t c s v m ti bi no sq) := b in
  mk_index h p q n f d u w t c s v m ti bi no sq.

Definition GetBlockTime (b : CBlockIndex) : Z := nTime b.

(** ** The skip list *)

Definition InvertLowestOne (n : Z) : Z := n .& (n - 1).

Definition GetSkipHeight (height : Z) : Z :=
  if height <? 2 then 0
  else if negb (height .& 1 =? 0) then InvertLowestOne (InvertLowestOne (height - 1)) + 1
  else InvertLowestOne height.

(** When the walk follows [pskip]. *)
Definition follow_skip (height heightSkip heightSkipPrev : Z) : bool :=
  (heightSkip =? height) ||
  ((height <? heightSkip) &&
   negb ((heightSkipPrev <? heightSkip - 2) && (height <=? heightSkipPrev))).

(** [while (heightWalk > height) ...] *)
Fixpoint walk (fuel : nat) (s : store) (height : Z) (pindexWalk : nat) (heightWalk : Z)
    : option nat :=
  if heightWalk <=? height then Some pindexWalk
  else
    match fuel with
    | O => None
    | S fuel =>
        b ← s !! pindexWalk;
        let heightSkip := GetSkipHeight heightWalk in
        let heightSkipPrev := GetSkipHeight (heightWalk - 1) in
        match pskip b with
        | Some q =>
            if follow_skip height heightSkip heightSkipPrev
            then walk fuel s height q heightSkip
            else p ← pprev b; walk fuel s height p (heightWalk - 1)
        | None => p ← pprev b; walk fuel s height p (heightWalk - 1)
        end
    end.

Definition GetAncestor (s : store) (this : nat) (height : Z) : option ptr :=
  b ← s !! this;
  if (nHeight b <? height) || (height <? 0) then Some None
  else Some <$> walk (Z.to_nat (nHeight b - height)) s height this (nHeight b).

Definition BuildSkip (s : store) (this : nat) : option store :=
  b ← s !! this;
  match pprev b with
  | None => Some s
  | Some p => q ← GetAncestor s p (GetSkipHeight (nHeight b)); Some (<[this := with_pskip q b]> s)
  end.

(** ** GetMedianTimePast *)

Definition nMedianTimeSpan : nat := 11.

Fixpoint past_times (n : nat) (s : store) (pindex : ptr) : option (list Z) :=
  match n, pindex with
  | S n, Some p =>
      b ← s !! p;
      l ← past_times n s (pprev b);
      Some (l ++ [GetBlockTime b])
  | _, _ => Some []
  end.

(** [std::sort] on times. *)
Fixpoint insert_time (x : Z) (l : list Z) : list Z :=
  match l with [] => [x] | y :: l' => if x <=? y then x :: l else y :: insert_time x l' end.
Definition sort_times (l : list Z) : list Z := foldr insert_time [] l.

Definition GetMedianTimePast (s : store) (this : nat) : option Z :=
  pmedian ← past_times nMedianTimeSpan s (Some this);
  sort_times pmedian !! (length pmedian / 2)%nat.

(** ** CChain *)

(** The vector [vChain]. *)
Abbreviation CChain := (list ptr).

Definition Genesis (vChain : CChain) : ptr :=
  if (0 <? length vChain)%nat then mjoin (vChain !! 0%nat) else None.
Definition Tip (vChain : CChain) : ptr :=
  if (0 <? length vChain)%nat then mjoin (vChain !! (length vChain - 1)%nat) else None.
Definition chain_at (vChain : CChain) (nHeight : Z) : ptr :=
  if (nHeight <? 0) || (Z.of_nat (length vChain) <=? nHeight) then None
  else mjoin (vChain !! Z.to_nat nHeight).
Definition Height (vChain : CChain) : Z := Z.of_nat (length vChain) - 1.

Definition Contains (s : store) (vChain : CChain) (pindex : nat) : option bool :=
  b ← s !! pindex; Some (bool_decide (chain_at vChain (nHeight b) = Some pindex)).

Definition Next (s : store) (vChain : CChain) (pindex : nat) : option ptr :=
  b ← s !! pindex;
  c ← Contains s vChain pindex;
  Some (if c : bool then chain_at vChain (nHeight b + 1) else None).

(** [vChain.resize(n)]: new elements are NULL. *)
Definition resize (vChain : CChain) (n : nat) : CChain :=
  take n vChain ++ replicate (n - length vChain) None.

(** [while (pindex && vChain[pindex->nHeight] != pindex) ...] *)
Fixpoint set_tip_loop (fuel : nat) (s : store) (pindex : ptr) (vChain : CChain) : option CChain :=
  match pindex with
  | None => Some vChain
  | Some p =>
      b ← s !! p;
      e ← vChain !! Z.to_nat (nHeight b);
      if bool_decide (e = Some p) then Some vChain
      else
        match fuel with
        | O => None
        | S fuel => set_tip_loop fuel s (pprev b) (<[Z.to_nat (nHeight b) := Some p]> vChain)
        end
  end.

Definition SetTip (s : store) (vChain : CChain) (pindex : ptr) : option CChain :=
  match pindex with
  | None => Some []
  | Some p =>
      b ← s !! p;
      let n := Z.to_nat (nHeight b + 1) in
      set_tip_loop n s pindex (resize vChain n)
  end.

(** [while (pindex && !Contains(pindex)) pindex = pindex->pprev;] *)
Fixpoint find_fork_loop (fuel : nat) (s : store) (vChain : CChain) (pindex : ptr) : option ptr :=
  match pindex with
  | None => Some None
  | Some p =>
      c ← Contains s vChain p;
      if c : bool then Some (Some p)
      else
        match fuel with
        | O => None
        | S fuel => b ← s !! p; find_fork_loop fuel s vChain (pprev b)
        end
  end.

Definition FindFork (s : store) (vChain : CChain) (pindex : ptr) : option ptr :=
  match pindex with
  | None => Some None
  | Some p =>
      b ← s !! p;
      q ← if Height vChain <? nHeight b then GetAncestor s p (Height vChain) else Some (Some p);
      find_fork_loop (Z.to_nat (nHeight b + 1)) s vChain q
  end.

(** The loop of [GetLocator], from the hashes [vHave] and the step [nStep]. *)
Fixpoint locator_loop (fuel : nat) (s : store) (vChain : CChain) (nStep : Z)
    (vHave : list (list Z)) (pindex : ptr) : option (list (list Z)) :=
  match pindex with
  | None => Some vHave
  | Some p =>
      b ← s !! p;
      h ← phashBlock b;
      let vHave := vHave ++ [h] in
      if nHeight b =? 0 then Some vHave
      else
        match fuel with
        | O => None
        | S fuel =>
            let height := Z.max (nHeight b - nStep) 0 in
            c ← Contains s vChain p;
            q ← if c : bool then Some (chain_at vChain height) else GetAncestor s p height;
            let nStep := if (10 <? length vHave)%nat then nStep * 2 else nStep in
            locator_loop fuel s vChain nStep vHave q
        end
  end.

Definition GetLocator (s : store) (vChain : CChain) (pindex : ptr) : option (list (list Z)) :=
  let pindex := match pindex with Some p => Some p | None => Tip vChain end in
  match pindex with
  | None => Some []
  | Some p => b ← s !! p; locator_loop (Z.to_nat (nHeight b)) s vChain 1 [] pindex
  end.

(** ** Specification *)

(** [n] steps along [pprev]. *)
Fixpoint up (s : store) (n : nat) (p : nat) : option nat :=
  match n with
  | O => Some p
  | S n => b ← s !! p; q ← pprev b; up s n q
  end.

(** What the fields of an index entry mean. *)
Record entry_ok (s : store) (i : nat) (b : CBlockIndex) : Prop := {
  eo_height : 0 <= nHeight b;
  eo_prev :
    match pprev b with
    | None => nHeight b = 0
    | Some p => exists bp, s !! p = Some bp /\ nHeight b = nHeight bp + 1
    end;
  eo_skip : forall q, pskip b = Some q ->
    up s (Z.to_nat (nHeight b - GetSkipHeight (nHeight b))) i = Some q }.

Definition wf_store (s : store) : Prop := forall i b, s !! i = Some b -> entry_ok s i b.

(** The blocks from the genesis block to [p]. *)
Definition chain_to (s : store) (p : nat) (h : Z) : CChain :=
  (fun i => up s (Z.to_nat h - i) p) <$> seq 0 (Z.to_nat (h + 1)).

(** A chain is empty or the path to its tip. *)
Definition chain_ok (s : store) (vChain : CChain) : Prop :=
  vChain = [] \/ exists p b, s !! p = Some b /\ vChain = chain_to s p (nHeight b).

(** ** Lemmas *)

Lemma InvertLowestOne_bounds n : 0 < n -> 0 <= InvertLowestOne n <= n - 1.
Proof.
  intros Hn. unfold InvertLowestOne. apply Z.ldiff_le; [lia|].
  apply Z.bits_inj'. intros i Hi. rewrite Z.ldiff_spec, Z.land_spec, Z.testbit_0_l.
  now destruct (Z.testbit n i), (Z.testbit (n - 1) i).
Qed.

Lemma GetSkipHeight_bounds h : 0 < h -> 0 <= GetSkipHeight h < h.
Proof.
  intros Hh. unfold GetSkipHeight. destruct (Z.ltb_spec h 2); [lia|].
  destruct (negb _); [|pose proof (InvertLowestOne_bounds h); lia].
  pose proof (InvertLowestOne_bounds (h - 1) ltac:(lia)) as H1.
  destruct (Z.eq_dec (InvertLowestOne (h - 1)) 0) as [->|]; [change (InvertLowestOne 0) with 0; lia|].
  pose proof (InvertLowestOne_bounds (InvertLowestOne (h - 1)) ltac:(lia)). lia.
Qed.

Lemma GetSkipHeight_nonneg h : 0 <= GetSkipHeight h.
Proof.
  destruct (Z.lt_ge_cases 0 h) as [H|H]; [now apply GetSkipHeight_bounds|].
  unfold GetSkipHeight. destruct (Z.ltb_spec h 2); lia.
Qed.

Lemma up_add s m n p : up s (m + n) p = (q ← up s m p; up s n q).
Proof.
  revert p. induction m as [|m IH]; intros p; [done|]. cbn [up Nat.add].
  destruct (s !! p) as [b|]; [|done]. cbn [mbind option_bind].
  destruct (pprev b) as [q|]; [|done]. cbn [mbind option_bind]. apply IH.
Qed.

Section WellFormed.
Context (s : store) (Hwf : wf_store s).

(** Walking up [n] blocks from height [h] leads to the block at height [h - n]. *)
Lemma up_height n p b : s !! p = Some b -> Z.of_nat n <= nHeight b ->
  exists q bq, up s n p = Some q /\ s !! q = Some bq /\ nHeight bq = nHeight b - Z.of_nat n.
Proof.
  revert p b. induction n as [|n IH]; intros p b Hb Hn.
  - exists p, b. split; [done|]. split; [done|lia].
  - pose proof (eo_prev _ _ _ (Hwf p b Hb)) as Hp. cbn [up]. rewrite Hb. cbn [mbind option_bind].
    destruct (pprev b) as [q|]; [|rewrite Nat2Z.inj_succ in Hn; lia].
    destruct Hp as (bp & Hbp & Eh). cbn [mbind option_bind].
    destruct (IH q bp Hbp ltac:(lia)) as (r & br & H1 & H2 & H3). exists r, br. repeat split; try done. lia.
Qed.

Lemma up_prev p b q : s !! p = Some b -> pprev b = Some q -> up s 1 p = Some q.
Proof. intros Hb Hq. cbn [up]. rewrite Hb. cbn [mbind option_bind]. now rewrite Hq. Qed.

Lemma walk_spec fuel height p b : s !! p = Some b -> 0 <= height <= nHeight b ->
  nHeight b - height <= Z.of_nat fuel ->
  walk fuel s height p (nHeight b) = up s (Z.to_nat (nHeight b - height)) p.
Proof.
  revert p b. induction fuel as [|fuel IH]; intros p b Hb Hh Hf; cbn [walk].
  - destruct (Z.leb_spec (nHeight b) height); [|lia].
    now replace (Z.to_nat (nHeight b - height)) with 0%nat by lia.
  - destruct (Z.leb_spec (nHeight b) height) as [Hle|Hlt];
      [now replace (Z.to_nat (nHeight b - height)) with 0%nat by lia|].
    rewrite Hb. cbn [mbind option_bind]. pose proof (Hwf p b Hb) as [Hnn Hp Hs].
    assert (Hprev : (q ← pprev b; walk fuel s height q (nHeight b - 1)) =
      up s (Z.to_nat (nHeight b - height)) p).
    { destruct (pprev b) as [q|] eqn:Eq; [|lia]. destruct Hp as (bp & Hbp & Eh). cbn [mbind option_bind].
      replace (nHeight b - 1) with (nHeight bp) by lia. rewrite (IH q bp Hbp) by lia.
      replace (Z.to_nat (nHeight b - height)) with (1 + Z.to_nat (nHeight bp - height))%nat by lia.
      rewrite up_add, (up_prev p b q Hb Eq). reflexivity. }
    destruct (pskip b) as [q|] eqn:Eq; [|exact Hprev].
    destruct (follow_skip height _ _) eqn:Ef; [|exact Hprev].
    specialize (Hs q eq_refl). pose proof (GetSkipHeight_bounds (nHeight b) ltac:(lia)) as HB.
    set (k := GetSkipHeight (nHeight b)) in *.
    assert (Hk : height <= k).
    { unfold follow_skip in Ef. destruct (Z.eqb_spec k height); [lia|].
      destruct (Z.ltb_spec height k); [lia|]. discriminate Ef. }
    destruct (up_height (Z.to_nat (nHeight b - k)) p b Hb ltac:(lia)) as (r & br & E1 & E2 & E3).
    rewrite Hs in E1. injection E1 as <-.
    replace k with (nHeight br) by lia. rewrite (IH q br E2) by lia.
    replace (Z.to_nat (nHeight b - height)) with
      (Z.to_nat (nHeight b - k) + Z.to_nat (nHeight br - height))%nat by lia.
    now rewrite up_add, Hs.
Qed.

Lemma GetAncestor_spec p b height : s !! p = Some b ->
  GetAncestor s p height =
  if (height <? 0) || (nHeight b <? height) then Some None
  else Some (up s (Z.to_nat (nHeight b - height)) p).
Proof.
  intros Hb. unfold GetAncestor. rewrite Hb. cbn [mbind option_bind]. rewrite orb_comm.
  destruct (Z.ltb_spec height 0); [done|]. destruct (Z.ltb_spec (nHeight b) height); [done|].
  cbn [orb]. rewrite (walk_spec _ _ p b Hb) by lia.
  destruct (up_height (Z.to_nat (nHeight b - height)) p b Hb ltac:(lia)) as (q & bq & -> & _).
  reflexivity.
Qed.
End WellFormed.

(** *** The chain to a block *)

Lemma chain_to_lookup s p h i : 0 <= h -> (i <= Z.to_nat h)%nat ->
  chain_to s p h !! i = Some (up s (Z.to_nat h - i) p).
Proof.
  intros Hh Hi. unfold chain_to. rewrite list_lookup_fmap, lookup_seq_lt by lia. reflexivity.
Qed.

Lemma length_chain_to s p h : length (chain_to s p h) = Z.to_nat (h + 1).
Proof. unfold chain_to. now rewrite length_fmap, length_seq. Qed.

(** A non-null entry of a chain under construction has the path to it below it. *)
Definition path_below (s : store) (k : nat) (v : CChain) : Prop :=
  forall i r, (i <= k)%nat -> v !! i = Some (Some r) ->
    (exists br, s !! r = Some br /\ nHeight br = Z.of_nat i) /\
    forall j, (j <= i)%nat -> v !! j = Some (up s (i - j) r).

Section Chains.
Context (s : store) (Hwf : wf_store s).

Lemma path_below_chain_to p b k : s !! p = Some b ->
  path_below s k (chain_to s p (nHeight b)).
Proof.
  intros Hb i r _ Hi. pose proof (eo_height _ _ _ (Hwf p b Hb)) as Hh.
  assert (Hlt : (i < Z.to_nat (nHeight b + 1))%nat)
    by (rewrite <- (length_chain_to s p); eapply lookup_lt_Some; exact Hi).
  rewrite chain_to_lookup in Hi by lia. injection Hi as Hi.
  destruct (up_height s Hwf (Z.to_nat (nHeight b) - i) p b Hb ltac:(lia)) as (q & bq & E1 & E2 & E3).
  rewrite Hi in E1. injection E1 as <-. split; [exists bq; split; [done|lia]|].
  intros j Hj. rewrite chain_to_lookup by lia.
  replace (Z.to_nat (nHeight b) - j)%nat with ((Z.to_nat (nHeight b) - i) + (i - j))%nat by lia.
  now rewrite up_add, Hi.
Qed.

Lemma resize_lookup (v : CChain) n i : (i < n)%nat ->
  resize v n !! i = Some (mjoin (v !! i)).
Proof.
  intros Hi. unfold resize. destruct (Nat.lt_ge_cases i (length v)) as [H|H].
  - rewrite lookup_app_l, lookup_take_lt by (rewrite ?length_take; lia).
    destruct (lookup_lt_is_Some_2 v i H) as [x ->]. reflexivity.
  - rewrite lookup_app_r by (rewrite length_take; lia). rewrite length_take.
    rewrite lookup_replicate_2 by lia. now rewrite lookup_ge_None_2.
Qed.

Lemma length_resize (v : CChain) n : length (resize v n) = n.
Proof. unfold resize. rewrite length_app, length_take, length_replicate. lia. Qed.

Lemma path_below_resize v n k : (k < n)%nat -> (forall k', path_below s k' v) ->
  path_below s k (resize v n).
Proof.
  intros Hk Hv i r Hi Hr. rewrite resize_lookup in Hr by lia. injection Hr as Hr.
  destruct (v !! i) as [e|] eqn:E; [|discriminate]. cbn in Hr. subst e.
  destruct (Hv i i r (le_n _) E) as [H1 H2]. split; [exact H1|].
  intros j Hj. rewrite resize_lookup by lia. now rewrite H2.
Qed.

Lemma chain_ok_path_below v k : chain_ok s v -> path_below s k v.
Proof.
  intros [->|(p & b & Hb & ->)]; [intros i r _ Hi; discriminate|now apply path_below_chain_to].
Qed.

Lemma set_tip_loop_spec fuel p b : s !! p = Some b -> forall q bq v,
  let h := Z.to_nat (nHeight b) in let k := Z.to_nat (nHeight bq) in
  s !! q = Some bq -> nHeight bq <= nHeight b -> up s (h - k) p = Some q ->
  length v = (h + 1)%nat -> (k < fuel)%nat -> path_below s k v ->
  (forall i, (k < i <= h)%nat -> v !! i = Some (up s (h - i) p)) ->
  set_tip_loop fuel s (Some q) v = Some (chain_to s p (nHeight b)).
Proof.
  intros Hb. pose proof (eo_height _ _ _ (Hwf p b Hb)) as Hh.
  induction fuel as [|fuel IH]; intros q bq v h k Hq Hqb Hup Hl Hf Hpath Hset; [lia|].
  pose proof (Hwf q bq Hq) as [Hnn Hprev _]. cbn [set_tip_loop]. rewrite Hq. cbn [mbind option_bind].
  destruct (lookup_lt_is_Some_2 v (Z.to_nat (nHeight bq)) ltac:(lia)) as [e He]. rewrite He.
  cbn [mbind option_bind].
  assert (Heq : forall w, length w = (h + 1)%nat ->
    (forall i, (i <= h)%nat -> w !! i = Some (up s (h - i) p)) -> w = chain_to s p (nHeight b)).
  { intros w Hlw Hw. apply list_eq. intros i. destruct (Nat.lt_ge_cases i (h + 1)).
    - rewrite Hw, chain_to_lookup by lia. reflexivity.
    - rewrite !lookup_ge_None_2; rewrite ?length_chain_to; lia || done. }
  case_bool_decide as Ec.
  - subst e. f_equal. apply Heq; [done|]. intros i Hi.
    destruct (Nat.lt_ge_cases k i); [apply Hset; lia|].
    destruct (Hpath k q (le_n _) He) as [_ Hbelow]. rewrite Hbelow by lia.
    replace (h - i)%nat with ((h - k) + (k - i))%nat by lia. now rewrite up_add, Hup.
  - set (v' := <[_ := Some q]> v). assert (Hl' : length v' = (h + 1)%nat) by (unfold v'; now rewrite length_insert).
    assert (Hset' : forall i, (k <= i <= h)%nat -> v' !! i = Some (up s (h - i) p)).
    { intros i Hi. unfold v'. fold k. destruct (Nat.eq_dec i k) as [->|].
      - rewrite list_lookup_insert_eq by lia. now rewrite Hup.
      - rewrite list_lookup_insert_ne by done. apply Hset. lia. }
    destruct (pprev bq) as [r|] eqn:Er.
    + destruct Hprev as (br & Hbr & Eh).
      pose proof (eo_height _ _ _ (Hwf r br Hbr)) as Hhr.
      apply (IH r br v'); [done|lia| |done|lia| |].
      * replace (Z.to_nat (nHeight b) - Z.to_nat (nHeight br))%nat with ((h - k) + 1)%nat by lia.
        rewrite up_add, Hup. exact (up_prev s q bq r Hq Er).
      * intros i r' Hi Hr'. unfold v' in *. fold k in Hr' |- *.
        rewrite list_lookup_insert_ne in Hr' by lia. destruct (Hpath i r') as [H1 H2]; [lia|done|].
        split; [exact H1|]. intros j Hj. rewrite list_lookup_insert_ne by lia. now apply H2.
      * intros i Hi. apply Hset'. lia.
    + destruct fuel; cbn [set_tip_loop]; f_equal; (apply Heq; [done|]; intros i Hi; apply Hset'; lia).
Qed.

Lemma SetTip_spec v p b : chain_ok s v -> s !! p = Some b ->
  SetTip s v (Some p) = Some (chain_to s p (nHeight b)).
Proof.
  intros Hv Hb. pose proof (eo_height _ _ _ (Hwf p b Hb)) as Hh. unfold SetTip. rewrite Hb.
  cbn [mbind option_bind]. apply (set_tip_loop_spec _ p b Hb p b); [done|lia| | | |  |lia].
  - now rewrite Nat.sub_diag.
  - rewrite length_resize. lia.
  - lia.
  - apply path_below_resize; [lia|]. intros k. now apply chain_ok_path_below.
Qed.

(** *** The fork point *)

Definition in_chain (v : CChain) (q : nat) : Prop := Contains s v q = Some true.

Lemma Contains_total v q bq : s !! q = Some bq -> exists c : bool, Contains s v q = Some c.
Proof. intros Hq. unfold Contains. rewrite Hq. cbn. eauto. Qed.

(** A block above the tip is not in the chain. *)
Lemma above_not_in_chain v q bq : s !! q = Some bq -> Height v < nHeight bq -> ~ in_chain v q.
Proof.
  intros Hq Hh. unfold in_chain, Contains. rewrite Hq. cbn [mbind option_bind]. unfold chain_at, Height in *.
  destruct (Z.leb_spec (Z.of_nat (length v)) (nHeight bq)); [|lia]. rewrite orb_true_r.
  rewrite bool_decide_eq_false_2; discriminate.
Qed.

Lemma up_beyond m p b : s !! p = Some b -> nHeight b < Z.of_nat m -> up s m p = None.
Proof.
  intros Hb Hm. pose proof (eo_height _ _ _ (Hwf p b Hb)) as Hh.
  destruct (up_height s Hwf (Z.to_nat (nHeight b)) p b Hb ltac:(lia)) as (q & bq & E1 & E2 & E3).
  replace m with (Z.to_nat (nHeight b) + S (m - Z.to_nat (nHeight b) - 1))%nat by lia.
  rewrite up_add, E1. cbn [mbind option_bind up]. rewrite E2. cbn [mbind option_bind].
  pose proof (eo_prev _ _ _ (Hwf q bq E2)) as Hp. destruct (pprev bq); [|done].
  destruct Hp as (? & Hx & Ey). pose proof (eo_height _ _ _ (Hwf _ _ Hx)). lia.
Qed.

Lemma up_above v m p b q : s !! p = Some b -> up s m p = Some q ->
  Z.of_nat m < nHeight b - Height v -> ~ in_chain v q.
Proof.
  intros Hb Hm Hlow. destruct (Z.le_gt_cases (Z.of_nat m) (nHeight b)) as [Hle|Hgt].
  - destruct (up_height s Hwf m p b Hb Hle) as (q' & bq & E1 & E2 & E3).
    rewrite Hm in E1. injection E1 as <-. apply (above_not_in_chain v q bq E2). lia.
  - rewrite (up_beyond m p b Hb) in Hm by lia. discriminate.
Qed.

(** The first block of the chain on the way from [p] to the genesis block. *)
Definition first_in_chain (v : CChain) (p : nat) (r : ptr) : Prop :=
  match r with
  | Some q => exists n, up s n p = Some q /\ in_chain v q /\
      forall m q', (m < n)%nat -> up s m p = Some q' -> ~ in_chain v q'
  | None => forall m q', up s m p = Some q' -> ~ in_chain v q'
  end.

Lemma first_in_chain_up v p q d r : up s d p = Some q ->
  (forall m q', (m < d)%nat -> up s m p = Some q' -> ~ in_chain v q') ->
  first_in_chain v q r -> first_in_chain v p r.
Proof.
  intros Hd Hlow.
  assert (Hlift : forall m, up s (d + m) p = up s m q) by (intros m; now rewrite up_add, Hd).
  assert (Hsplit : forall m q', up s m p = Some q' ->
    (m < d)%nat \/ (d <= m)%nat /\ up s (m - d) q = Some q').
  { intros m q' Hm. destruct (Nat.lt_ge_cases m d); [now left|right]. split; [done|].
    rewrite <- Hlift. now replace (d + (m - d))%nat with m by lia. }
  destruct r as [q'|]; cbn [first_in_chain].
  - intros (n & Hn & Hin & Hfirst). exists (d + n)%nat. rewrite Hlift. split; [done|]. split; [done|].
    intros m q'' Hm Hu. destruct (Hsplit m q'' Hu) as [H|[H H']]; [now apply (Hlow m)|].
    apply (Hfirst (m - d)%nat); [lia|done].
  - intros Hnone m q'' Hu. destruct (Hsplit m q'' Hu) as [H|[H H']]; [now apply (Hlow m)|].
    now apply (Hnone (m - d)%nat).
Qed.

Lemma find_fork_loop_spec fuel v p b : s !! p = Some b -> nHeight b < Z.of_nat fuel ->
  exists r, find_fork_loop fuel s v (Some p) = Some r /\ first_in_chain v p r.
Proof.
  revert p b. induction fuel as [|fuel IH]; intros p b Hb Hf;
    pose proof (Hwf p b Hb) as [Hnn Hprev _]; [lia|].
  cbn [find_fork_loop]. destruct (Contains_total v p b Hb) as [c Hc]. rewrite Hc. cbn [mbind option_bind].
  destruct c.
  - exists (Some p). split; [done|]. exists 0%nat. split; [done|]. split; [exact Hc|]. intros. lia.
  - assert (Hp : forall m q', (m < 1)%nat -> up s m p = Some q' -> ~ in_chain v q').
    { intros m q' Hm Hq. replace m with 0%nat in Hq by lia. injection Hq as <-. unfold in_chain. now rewrite Hc. }
    rewrite Hb. cbn [mbind option_bind]. destruct (pprev b) as [q|] eqn:Eq.
    + destruct Hprev as (bq & Hbq & Eh). destruct (IH q bq Hbq ltac:(lia)) as (r & -> & Hr).
      exists r. split; [done|]. exact (first_in_chain_up v p q 1 r (up_prev s p b q Hb Eq) Hp Hr).
    + exists None. split; [now destruct fuel|]. intros m q' Hq.
      destruct (Nat.eq_dec m 0%nat) as [->|]; [apply (Hp 0%nat); [lia|done]|].
      rewrite (up_beyond m p b Hb) in Hq by lia. discriminate.
Qed.

Lemma FindFork_spec v p b : s !! p = Some b ->
  exists r, FindFork s v (Some p) = Some r /\ first_in_chain v p r.
Proof.
  intros Hb. pose proof (Hwf p b Hb) as [Hnn _ _]. unfold FindFork. rewrite Hb. cbn [mbind option_bind].
  destruct (Z.ltb_spec (Height v) (nHeight b)) as [Hlt|Hge];
    [|cbn [mbind option_bind]; apply find_fork_loop_spec with b; [done|lia]].
  rewrite (GetAncestor_spec s Hwf p b) by done.
  destruct (Z.ltb_spec (nHeight b) (Height v)); [lia|]. rewrite orb_false_r.
  destruct (Z.ltb_spec (Height v) 0) as [Hneg|Hpos].
  - cbn [mbind option_bind]. exists None. split; [now destruct (Z.to_nat (nHeight b + 1))|].
    intros m q' Hm. destruct (Z.lt_ge_cases (nHeight b) (Z.of_nat m)).
    + rewrite (up_beyond m p b Hb) in Hm by lia. discriminate.
    + apply (up_above v m p b q' Hb Hm). lia.
  - set (d := Z.to_nat (nHeight b - Height v)) in *.
    destruct (up_height s Hwf d p b Hb ltac:(lia)) as (q & bq & E1 & E2 & E3).
    rewrite E1. cbn [mbind option_bind].
    destruct (find_fork_loop_spec (Z.to_nat (nHeight b + 1)) v q bq E2 ltac:(lia)) as (r & -> & Hr).
    exists r. split; [done|]. apply (first_in_chain_up v p q d r E1); [|done].
    intros m q' Hm Hu. apply (up_above v m p b q' Hb Hu). lia.
Qed.

(** *** The locator *)

(** A block of the chain has its ancestors below it. *)
Lemma chain_at_ancestor v p b h : chain_ok s v -> s !! p = Some b -> in_chain v p ->
  0 <= h <= nHeight b -> chain_at v h = up s (Z.to_nat (nHeight b - h)) p.
Proof.
  intros Hv Hb Hin Hh. unfold in_chain, Contains in Hin. rewrite Hb in Hin. cbn [mbind option_bind] in Hin.
  injection Hin as Hin. apply bool_decide_eq_true in Hin. unfold chain_at in *.
  destruct (Z.ltb_spec (nHeight b) 0); [lia|].
  destruct (Z.leb_spec (Z.of_nat (length v)) (nHeight b)); [discriminate|]. cbn [orb] in Hin.
  destruct (v !! Z.to_nat (nHeight b)) as [e|] eqn:E; [|discriminate]. cbn in Hin. subst e.
  destruct (chain_ok_path_below v (Z.to_nat (nHeight b)) Hv _ p (le_n _) E) as [_ Hbelow].
  destruct (Z.ltb_spec h 0); [lia|]. destruct (Z.leb_spec (Z.of_nat (length v)) h); [lia|]. cbn [orb].
  rewrite Hbelow by lia. cbn. f_equal. lia.
Qed.

(** A descending path of blocks that ends with a genesis block. *)
Inductive descends : list nat -> Prop :=
  | descends_genesis p b : s !! p = Some b -> nHeight b = 0 -> descends [p]
  | descends_step p q n qs : up s (S n) p = Some q -> descends (q :: qs) -> descends (p :: q :: qs).

Definition hash_of (p : nat) (h : list Z) : Prop :=
  exists b, s !! p = Some b /\ phashBlock b = Some h.

Lemma locator_loop_spec v : chain_ok s v ->
  (forall p b, s !! p = Some b -> phashBlock b <> None) ->
  forall fuel nStep vHave p b, s !! p = Some b -> 0 < nStep -> nHeight b <= Z.of_nat fuel ->
  exists qs hs, locator_loop fuel s v nStep vHave (Some p) = Some (vHave ++ hs) /\
    descends (p :: qs) /\ Forall2 hash_of (p :: qs) hs.
Proof.
  intros Hv Hhash. induction fuel as [|fuel IH]; intros nStep vHave p b Hb Hs Hf;
    pose proof (eo_height _ _ _ (Hwf p b Hb)) as Hnn;
    destruct (phashBlock b) as [h|] eqn:Eh; try (now destruct (Hhash p b Hb));
    cbn [locator_loop]; rewrite Hb; cbn [mbind option_bind]; rewrite Eh; cbn [mbind option_bind];
    (destruct (Z.eqb_spec (nHeight b) 0) as [E0|E0];
      [exists [], [h]; split; [done|]; split; [now apply (descends_genesis p b)|];
       constructor; [now exists b|constructor]|]); [lia|].
  destruct (Contains_total v p b Hb) as [c Hc]. rewrite Hc. cbn [mbind option_bind].
  set (height := Z.max (nHeight b - nStep) 0) in *.
  set (d := Z.to_nat (nHeight b - height)).
  assert (Hd : (0 < d)%nat /\ 0 <= height <= nHeight b) by lia.
  destruct (up_height s Hwf d p b Hb ltac:(lia)) as (q & bq & E1 & E2 & E3).
  assert (Eq : (if c then Some (chain_at v height) else GetAncestor s p height) = Some (Some q)).
  { destruct c; [now rewrite (chain_at_ancestor v p b) by (done || lia); f_equal|].
    rewrite (GetAncestor_spec s Hwf p b) by done. destruct (Z.ltb_spec height 0); [lia|].
    destruct (Z.ltb_spec (nHeight b) height); [lia|]. cbn [orb]. now f_equal. }
  rewrite Eq. cbn [mbind option_bind].
  destruct (IH (if (10 <? length (vHave ++ [h]))%nat then nStep * 2 else nStep) (vHave ++ [h]) q bq E2)
    as (qs & hs & -> & H1 & H2); [destruct (10 <? _)%nat; lia|lia|].
  exists (q :: qs), (h :: hs). rewrite <- app_assoc. split; [done|]. split.
  - apply (descends_step p q (d - 1)); [|done]. now replace (S (d - 1)) with d by lia.
  - constructor; [now exists b|done].
Qed.
End Chains.

(** *** Building the skip pointer *)

Lemma up_store_ext s s' : (forall i b, s !! i = Some b -> exists b', s' !! i = Some b' /\
    pprev b' = pprev b) ->
  forall n p q, up s n p = Some q -> up s' n p = Some q.
Proof.
  intros H. induction n as [|n IH]; intros p q Hu; [done|]. cbn [up] in *.
  destruct (s !! p) as [b|] eqn:E; [|discriminate]. destruct (H p b E) as (b' & -> & Ep).
  cbn [mbind option_bind] in *. rewrite Ep. destruct (pprev b); [|done]. cbn [mbind option_bind] in *. auto.
Qed.

(** ** Properties *)

(** C31. On a well-formed index [GetAncestor] returns, for every block and every height,
    without a failed assertion: NULL outside the range of heights, and otherwise the block
    that lies that many [pprev] steps back, which has the requested height. *)
Theorem GetAncestor_correct s p b height : wf_store s -> s !! p = Some b ->
  if (height <? 0) || (nHeight b <? height) then GetAncestor s p height = Some None
  else exists q bq, GetAncestor s p height = Some (Some q) /\
    up s (Z.to_nat (nHeight b - height)) p = Some q /\ s !! q = Some bq /\ nHeight bq = height.
Proof.
  intros Hwf Hb. rewrite (GetAncestor_spec s Hwf p b height Hb).
  destruct (Z.ltb_spec height 0); [done|]. destruct (Z.ltb_spec (nHeight b) height); [done|]. cbn [orb].
  destruct (up_height s Hwf (Z.to_nat (nHeight b - height)) p b Hb ltac:(lia)) as (q & bq & -> & E2 & E3).
  exists q, bq. repeat split; try done. lia.
Qed.

(** From any chain [SetTip] makes the chain of all ancestors of the new tip, the block
    at height [i] at index [i]: the early end of its loop is sound. *)
Theorem SetTip_correct s v p b : wf_store s -> chain_ok s v -> s !! p = Some b ->
  exists v', SetTip s v (Some p) = Some v' /\ chain_ok s v' /\ Tip v' = Some p /\
  Height v' = nHeight b /\
  forall i, 0 <= i <= nHeight b -> chain_at v' i = up s (Z.to_nat (nHeight b - i)) p.
Proof.
  intros Hwf Hv Hb. pose proof (eo_height _ _ _ (Hwf p b Hb)) as Hh.
  exists (chain_to s p (nHeight b)). rewrite (SetTip_spec s Hwf v p b Hv Hb). split; [done|].
  split; [right; eauto|]. unfold Tip, Height, chain_at. rewrite length_chain_to.
  split; [|split; [lia|]].
  - destruct (Nat.ltb_spec 0 (Z.to_nat (nHeight b + 1))); [|lia].
    rewrite chain_to_lookup by lia. cbn.
    now replace (Z.to_nat (nHeight b) - (Z.to_nat (nHeight b + 1) - 1))%nat with 0%nat by lia.
  - intros i Hi. destruct (Z.ltb_spec i 0); [lia|].
    destruct (Z.leb_spec (Z.of_nat (Z.to_nat (nHeight b + 1))) i); [lia|]. cbn [orb].
    rewrite chain_to_lookup by lia. cbn. f_equal. lia.
Qed.

(** [FindFork] returns the last common block of the chain and a block's ancestors: no
    block above the result on the way from the given block is in the chain, and NULL means
    that none is. *)
Theorem FindFork_correct s v p b : wf_store s -> s !! p = Some b ->
  exists r, FindFork s v (Some p) = Some r /\ first_in_chain s v p r.
Proof. intros Hwf Hb. now apply (FindFork_spec s Hwf v p b). Qed.

(** [GetLocator] ends, and lists the hashes of the block, of older and older ancestors
    of it, and of the genesis block. *)
Theorem GetLocator_correct s v p b : wf_store s -> chain_ok s v -> s !! p = Some b ->
  (forall q bq, s !! q = Some bq -> phashBlock bq <> None) ->
  exists qs hs, GetLocator s v (Some p) = Some hs /\ descends s (p :: qs) /\
    Forall2 (hash_of s) (p :: qs) hs.
Proof.
  intros Hwf Hv Hb Hh. unfold GetLocator. rewrite Hb. cbn [mbind option_bind].
  pose proof (eo_height _ _ _ (Hwf p b Hb)).
  apply (locator_loop_spec s Hwf v Hv Hh _ 1 [] p b Hb); lia.
Qed.

(** *** A concrete index: a chain of [n] blocks, 150 seconds apart *)

Definition demo_entry (i : nat) : CBlockIndex :=
  mk_index (Some [Z.of_nat i]) (match i with O => None | S j => Some j end)
    (match i with O => None | _ => Some (Z.to_nat (GetSkipHeight (Z.of_nat i))) end)
    (Z.of_nat i) 0 0 0 (replicate 8 0) 1 0 2 0x20000006 [] (1000 + 150 * Z.of_nat i) 0x1e0ffff0 0 0.
Definition demo_store (n : nat) : store := demo_entry <$> seq 0 n.

Lemma demo_lookup n i : (i < n)%nat -> demo_store n !! i = Some (demo_entry i).
Proof. intros H. unfold demo_store. now rewrite list_lookup_fmap, lookup_seq_lt. Qed.

Lemma demo_up n k p : (p < n)%nat -> (k <= p)%nat -> up (demo_store n) k p = Some (p - k)%nat.
Proof.
  revert p. induction k as [|k IH]; intros p Hp Hk; [now rewrite Nat.sub_0_r|].
  cbn [up]. rewrite demo_lookup by done. cbn [mbind option_bind]. destruct p as [|p]; [lia|].
  cbn [pprev demo_entry mbind option_bind]. rewrite IH by lia. f_equal.
Qed.

Lemma demo_wf n : wf_store (demo_store n).
Proof.
  intros i b Hb.
  assert (Hi : (i < n)%nat) by (apply lookup_lt_Some in Hb; unfold demo_store in Hb; now rewrite length_fmap, length_seq in Hb).
  rewrite demo_lookup in Hb by done. injection Hb as <-. split.
  - cbn [nHeight demo_entry]. lia.
  - destruct i as [|i]; [done|]. exists (demo_entry i). cbn [pprev demo_entry]. rewrite demo_lookup by lia.
    split; [done|]. cbn [nHeight demo_entry]. lia.
  - intros q Hq. cbn [nHeight demo_entry pskip] in *. destruct i as [|i]; [done|]. injection Hq as <-.
    pose proof (GetSkipHeight_bounds (Z.of_nat (S i)) ltac:(lia)). rewrite demo_up by lia. f_equal. lia.
Qed.

Lemma GetAncestor_correct_witness :
  exists q bq, GetAncestor (demo_store 40) 39 5 = Some (Some q) /\
    up (demo_store 40) 34 39 = Some q /\ demo_store 40 !! q = Some bq /\ nHeight bq = 5.
Proof. exact (GetAncestor_correct (demo_store 40) 39 (demo_entry 39) 5 (demo_wf 40) eq_refl). Defined.

Lemma SetTip_correct_witness :
  exists v', SetTip (demo_store 40) (chain_to (demo_store 40) 20 20) (Some 7%nat) = Some v' /\
    chain_ok (demo_store 40) v' /\ Tip v' = Some 7%nat /\ Height v' = 7 /\
    forall i, 0 <= i <= 7 -> chain_at v' i = up (demo_store 40) (Z.to_nat (7 - i)) 7.
Proof.
  apply (SetTip_correct (demo_store 40) (chain_to (demo_store 40) 20 20) 7 (demo_entry 7) (demo_wf 40));
    [right; exists 20%nat, (demo_entry 20); split; reflexivity|reflexivity].
Defined.

Lemma FindFork_correct_witness :
  exists r, FindFork (demo_store 40) (chain_to (demo_store 40) 20 20) (Some 30%nat) = Some r /\
    first_in_chain (demo_store 40) (chain_to (demo_store 40) 20 20) 30 r.
Proof.
  exact (FindFork_correct (demo_store 40) (chain_to (demo_store 40) 20 20) 30 (demo_entry 30)
    (demo_wf 40) eq_refl).
Defined.

Lemma GetLocator_correct_witness :
  exists qs hs, GetLocator (demo_store 40) (chain_to (demo_store 40) 39 39) (Some 39%nat) = Some hs /\
    descends (demo_store 40) (39%nat :: qs) /\ Forall2 (hash_of (demo_store 40)) (39%nat :: qs) hs.
Proof.
  apply (GetLocator_correct (demo_store 40) (chain_to (demo_store 40) 39 39) 39 (demo_entry 39) (demo_wf 40));
    [right; exists 39%nat, (demo_entry 39); split; reflexivity|reflexivity|].
  intros q bq Hq. unfold demo_store in Hq. rewrite list_lookup_fmap in Hq.
  destruct (seq 0 40 !! q); [|discriminate]. injection Hq as <-. discriminate.
Defined.

(** The steps double after ten blocks. *)
Example locator_example :
  GetLocator (demo_store 40) (chain_to (demo_store 40) 39 39) None =
  Some ((fun h => [h]) <$> [39; 38; 37; 36; 35; 34; 33; 32; 31; 30; 29; 28; 26; 22; 14; 0]).
Proof. vm_compute. reflexivity. Qed.
