(* ===== verification/MedianTime.v ===== *)
(** * The median time of the last blocks ([CBlockIndex::GetMedianTimePast], [chain.h])

    The value is the middle one of the times of the last eleven blocks.  When the time of
    every block is greater than the median time of its parent, as
    [ContextualCheckBlockHeader] demands, the median time never decreases along the chain. *)

From stdpp Require Import sorting.
From S2P Require Import Prelude Words Chain.

(** ** Sorting times *)

Lemma insert_time_perm x l : insert_time x l ≡ₚ x :: l.
Proof.
  induction l as [|y l IH]; [done|]. cbn [insert_time]. destruct (x <=? y); [done|].
  rewrite IH. apply Permutation_swap.
Qed.

Lemma sort_times_perm l : sort_times l ≡ₚ l.
Proof.
  induction l as [|x l IH]; [done|]. change (sort_times (x :: l)) with (insert_time x (sort_times l)).
  now rewrite insert_time_perm, IH.
Qed.

Lemma insert_time_sorted x l : StronglySorted Z.le l -> StronglySorted Z.le (insert_time x l).
Proof.
  induction 1 as [|y l Hl IH Hy]; [repeat constructor|]. cbn [insert_time].
  destruct (Z.leb_spec x y).
  - constructor; [now constructor|]. constructor; [done|]. eapply list.Forall_impl; [exact Hy|]. cbn. lia.
  - constructor; [done|]. rewrite insert_time_perm. constructor; [lia|done].
Qed.

Lemma sort_times_sorted l : StronglySorted Z.le (sort_times l).
Proof. induction l as [|x l IH]; [constructor|]. now apply insert_time_sorted. Qed.

Lemma length_sort_times l : length (sort_times l) = length l.
Proof. apply Permutation_length, sort_times_perm. Qed.

(** ** How many times are late *)

Definition late (m : Z) (l : list Z) : nat := length (filter (fun x => m <= x) l).

Lemma late_perm m l l' : l ≡ₚ l' -> late m l = late m l'.
Proof. intros H. unfold late. now rewrite H. Qed.

Lemma late_app m l l' : late m (l ++ l') = (late m l + late m l')%nat.
Proof. unfold late. now rewrite list.filter_app, length_app. Qed.

Lemma late_le m l : (late m l <= length l)%nat.
Proof. apply length_filter. Qed.

Lemma late_all m l : Forall (fun x => m <= x) l -> late m l = length l.
Proof.
  unfold late. induction 1 as [|x l Hx Hl IH]; [done|]. rewrite filter_cons_True by done.
  cbn [length]. now rewrite IH.
Qed.

Lemma late_none m l : Forall (fun x => x < m) l -> late m l = 0%nat.
Proof.
  unfold late. induction 1 as [|x l Hx Hl IH]; [done|]. rewrite filter_cons_False by lia. exact IH.
Qed.

(** In a sorted list, the element at position [k] is at least [m] exactly when all but [k]
    elements are. *)
Lemma late_sorted m l k x : StronglySorted Z.le l -> l !! k = Some x ->
  (m <= x <-> (length l - k <= late m l)%nat).
Proof.
  intros Hs Hx. pose proof (take_drop_middle l k x Hx) as El.
  assert (Hk : (k < length l)%nat) by now apply lookup_lt_Some in Hx.
  rewrite <- El in Hs. apply StronglySorted_app in Hs as (Hlr & _ & Hr).
  inversion Hr as [|? ? _ Hxs]; subst.
  assert (Elen : length l = (k + S (length (drop (S k) l)))%nat) by (rewrite length_drop; lia).
  rewrite <- El at 2. rewrite late_app, Elen. split; intros Hm.
  - rewrite (late_all m (x :: _)); [cbn [length]; lia|]. constructor; [done|].
    eapply list.Forall_impl; [exact Hxs|]. cbn. lia.
  - destruct (Z.le_gt_cases m x) as [|Hgt]; [done|]. exfalso.
    rewrite (late_none m (take k l)) in Hm.
    + unfold late in Hm. rewrite filter_cons_False in Hm by lia.
      fold (late m (drop (S k) l)) in Hm. pose proof (late_le m (drop (S k) l)). lia.
    + apply list.Forall_forall. intros y Hy. assert (y <= x); [|lia].
      apply (Hlr y x Hy). left.
Qed.

(** The median of a window. *)
Lemma median_late m l x : sort_times l !! (length l / 2)%nat = Some x ->
  (m <= x <-> (length l - length l / 2 <= late m l)%nat).
Proof.
  intros Hx. rewrite (late_sorted m _ _ _ (sort_times_sorted l) Hx), length_sort_times.
  now rewrite (late_perm m _ _ (sort_times_perm l)).
Qed.

(** ** Windows *)

Section WellFormed.
Context (s : store) (Hwf : wf_store s).

Lemma past_times_some n p b : s !! p = Some b -> exists l, past_times n s (Some p) = Some l.
Proof.
  revert p b. induction n as [|n IH]; intros p b Hb; [now exists []|].
  cbn [past_times]. rewrite Hb. cbn [mbind option_bind].
  pose proof (eo_prev _ _ _ (Hwf p b Hb)) as Hp. destruct (pprev b) as [q|].
  - destruct Hp as (bq & Hq & _). destruct (IH q bq Hq) as [l ->]. cbn. eauto.
  - destruct n; cbn; eauto.
Qed.

Lemma past_times_cons n p b l : s !! p = Some b -> past_times (S n) s (Some p) = Some l ->
  exists l', past_times n s (pprev b) = Some l' /\ l = l' ++ [GetBlockTime b].
Proof.
  intros Hb E. cbn [past_times] in E. rewrite Hb in E. cbn [mbind option_bind] in E.
  destruct (past_times n s (pprev b)) as [l'|] eqn:El; [|done]. cbn in E. injection E as <-.
  now exists l'.
Qed.

(** A longer window has at most one more time, at its front. *)
Lemma past_times_shorter n p l : past_times (S n) s (Some p) = Some l ->
  exists x l', past_times n s (Some p) = Some l' /\ l = x ++ l' /\ (length x <= 1)%nat.
Proof.
  revert p l. induction n as [|n IH]; intros p l E.
  - cbn [past_times] in E. destruct (s !! p); [|done]. cbn in E. injection E as <-.
    exists [GetBlockTime c], []. split; [done|]. split; [done|]. simpl. lia.
  - destruct (s !! p) as [b|] eqn:Hb; [|cbn [past_times] in E; now rewrite Hb in E].
    destruct (past_times_cons _ p b l Hb E) as (l0 & E' & ->). clear E. rename E' into E.
    destruct (pprev b) as [q|] eqn:Eq.
    + apply IH in E as (x & l' & E & -> & Hx). exists x, (l' ++ [GetBlockTime b]).
      cbn [past_times]. rewrite Hb. cbn [mbind option_bind]. rewrite Eq, E. cbn [mbind option_bind].
      split; [done|]. now rewrite <- app_assoc.
    + cbn in E. injection E as <-. exists [], [GetBlockTime b]. cbn [past_times]. rewrite Hb.
      cbn [mbind option_bind]. rewrite Eq. split; [now destruct n|]. split; [done|]. simpl. lia.
Qed.

Lemma past_times_length n p b l : s !! p = Some b -> past_times (S n) s (Some p) = Some l ->
  (0 < length l)%nat.
Proof.
  intros Hb E. apply (past_times_cons n p b l Hb) in E as (l' & _ & ->). rewrite length_app. simpl. lia.
Qed.

Lemma GetMedianTimePast_some p b : s !! p = Some b -> exists m, GetMedianTimePast s p = Some m.
Proof.
  intros Hb. destruct (past_times_some nMedianTimeSpan p b Hb) as [l El]. unfold GetMedianTimePast.
  rewrite El. cbn [mbind option_bind]. apply lookup_lt_is_Some_2. rewrite length_sort_times.
  pose proof (past_times_length 10 p b l Hb El). apply Nat.div_lt; lia.
Qed.

(** A block with a time of at least the median of its parent has at least its median. *)
Lemma GetMedianTimePast_step p b q m m' : s !! p = Some b -> pprev b = Some q ->
  GetMedianTimePast s q = Some m -> m <= nTime b -> GetMedianTimePast s p = Some m' -> m <= m'.
Proof.
  intros Hb Hq Em Ht Em'. unfold GetMedianTimePast in Em, Em'.
  destruct (past_times nMedianTimeSpan s (Some q)) as [w|] eqn:Ew; [|done].
  destruct (past_times nMedianTimeSpan s (Some p)) as [w'|] eqn:Ew'; [|done].
  cbn [mbind option_bind] in Em, Em'. unfold nMedianTimeSpan in Ew, Ew'.
  apply (past_times_cons 10 p b w' Hb) in Ew' as (v & Ev & ->). rewrite Hq in Ev.
  apply past_times_shorter in Ew as (x & v' & Ev' & -> & Hx).
  rewrite Ev in Ev'. injection Ev' as <-.
  apply (median_late m _ _ Em'). pose proof (proj1 (median_late m _ _ Em) ltac:(lia)) as Hm.
  rewrite !late_app, !length_app in *.
  rewrite (late_all m [GetBlockTime b]) by (constructor; [exact Ht|constructor]).
  pose proof (late_le m x). simpl (length [_]) in *.
  pose proof (Nat.div_mod_eq (length x + length v) 2). pose proof (Nat.div_mod_eq (length v + 1) 2).
  pose proof (Nat.mod_upper_bound (length x + length v) 2). pose proof (Nat.mod_upper_bound (length v + 1) 2). lia.
Qed.

(** The rule for the time of a block. *)
Definition times_ok : Prop := forall p b q m, s !! p = Some b -> pprev b = Some q ->
  GetMedianTimePast s q = Some m -> m < nTime b.

Lemma GetMedianTimePast_mono n p b q m m' : times_ok -> s !! p = Some b -> up s n p = Some q ->
  GetMedianTimePast s q = Some m -> GetMedianTimePast s p = Some m' -> m <= m'.
Proof.
  intros Ht. revert p b m'. induction n as [|n IH]; intros p b m' Hb E Em Em'.
  - cbn in E. injection E as ->. rewrite Em in Em'. injection Em' as ->. lia.
  - cbn [up] in E. rewrite Hb in E. cbn [mbind option_bind] in E.
    destruct (pprev b) as [r|] eqn:Er; [|done]. cbn [mbind option_bind] in E.
    pose proof (eo_prev _ _ _ (Hwf p b Hb)) as Hp. rewrite Er in Hp. destruct Hp as (br & Hr & _).
    destruct (GetMedianTimePast_some r br Hr) as [mr Emr].
    specialize (IH r br mr Hr E Em Emr). specialize (Ht p b r mr Hb Er Emr).
    pose proof (GetMedianTimePast_step p b r mr m' Hb Er Emr ltac:(lia) Em'). lia.
Qed.
End WellFormed.
