(* ===== verification/VersionBits.v ===== *)
(** * Version bits ([versionbits.h], [versionbits.cpp], and their use in [validation.cpp])

    The BIP9 state machine of a soft fork: the state of a block is a function of its chain,
    computed period by period and memoised in a cache.  [GetStateFor] is proved to compute
    the recursive definition of the state whatever the cache holds of it, for every checker
    that keeps the interface below, and the two checkers of the program are instances. *)

From stdpp Require Import gmap.
From S2P Require Import Prelude Words Chain MedianTime.

(** ** Data *)

Definition VERSIONBITS_TOP_BITS : Z := 0x20000000.
(** [(int32_t) 0xE0000000UL] *)
Definition VERSIONBITS_TOP_MASK : Z := -0x20000000.
Definition VERSIONBITS_NUM_BITS : nat := 29.

Inductive ThresholdState :=
  THRESHOLD_DEFINED | THRESHOLD_STARTED | THRESHOLD_LOCKED_IN | THRESHOLD_ACTIVE | THRESHOLD_FAILED.

#[export] Instance ThresholdState_eq_dec : EqDecision ThresholdState.
Proof. solve_decision. Defined.

Abbreviation ThresholdConditionCache := (gmap ptr ThresholdState).

(** ** AbstractThresholdConditionChecker *)

(** The virtual functions.  [Condition] may change global state of the type [W]. *)
Record AbstractThresholdConditionChecker (W : Type) := mk_checker {
  Condition : store -> nat -> W -> option (bool * W);
  BeginTime : Z;
  EndTime : Z;
  Period : Z;
  Threshold : Z }.
Arguments mk_checker {W}.
Arguments Condition {W}.
Arguments BeginTime {W}.
Arguments EndTime {W}.
Arguments Period {W}.
Arguments Threshold {W}.

Section GetStateFor.
Context {W : Type} (ck : AbstractThresholdConditionChecker W) (s : store).

(** The last block of the preceding period. *)
Definition first_of_period (pindexPrev : ptr) : option ptr :=
  match pindexPrev with
  | None => Some None
  | Some p =>
      b ← s !! p;
      if Period ck =? 0 then None
      else GetAncestor s p (nHeight b - Z.rem (nHeight b + 1) (Period ck))
  end.

(** [while (cache.count(pindexPrev) == 0) ...] *)
Fixpoint walk_back (fuel : nat) (cache : ThresholdConditionCache) (pindexPrev : ptr)
    (vToCompute : list nat) : option (ThresholdConditionCache * ptr * list nat) :=
  match cache !! pindexPrev with
  | Some _ => Some (cache, pindexPrev, vToCompute)
  | None =>
      match pindexPrev with
      | None => Some (<[pindexPrev := THRESHOLD_DEFINED]> cache, pindexPrev, vToCompute)
      | Some p =>
          m ← GetMedianTimePast s p;
          if m <? BeginTime ck
          then Some (<[pindexPrev := THRESHOLD_DEFINED]> cache, pindexPrev, vToCompute)
          else
            match fuel with
            | O => None
            | S fuel =>
                b ← s !! p;
                q ← GetAncestor s p (nHeight b - Period ck);
                walk_back fuel cache q (vToCompute ++ [p])
            end
      end
  end.

(** [for (int i = 0; i < nPeriod; i++) ...] *)
Fixpoint count_loop (n : nat) (pindexCount : ptr) (count : Z) (w : W) : option (Z * W) :=
  match n with
  | O => Some (count, w)
  | S n =>
      p ← pindexCount;
      '(c, w) ← Condition ck s p w;
      b ← s !! p;
      count_loop n (pprev b) (if c : bool then count + 1 else count) w
  end.

(** The [switch]. *)
Definition state_next (state : ThresholdState) (p : nat) (w : W) : option (ThresholdState * W) :=
  match state with
  | THRESHOLD_DEFINED =>
      m ← GetMedianTimePast s p;
      Some (if EndTime ck <=? m then THRESHOLD_FAILED
            else if BeginTime ck <=? m then THRESHOLD_STARTED else state, w)
  | THRESHOLD_STARTED =>
      m ← GetMedianTimePast s p;
      if EndTime ck <=? m then Some (THRESHOLD_FAILED, w)
      else
        '(count, w) ← count_loop (Z.to_nat (Period ck)) (Some p) 0 w;
        Some (if Threshold ck <=? count then THRESHOLD_LOCKED_IN else state, w)
  | THRESHOLD_LOCKED_IN => Some (THRESHOLD_ACTIVE, w)
  | THRESHOLD_FAILED | THRESHOLD_ACTIVE => Some (state, w)
  end.

(** [while (!vToCompute.empty()) ...], on the vector from its back to its front. *)
Fixpoint walk_forward (cache : ThresholdConditionCache) (state : ThresholdState)
    (vToCompute : list nat) (w : W) : option (ThresholdConditionCache * ThresholdState * W) :=
  match vToCompute with
  | [] => Some (cache, state, w)
  | p :: vToCompute =>
      '(state, w) ← state_next state p w;
      walk_forward (<[Some p := state]> cache) state vToCompute w
  end.

Definition GetStateFor (pindexPrev : ptr) (cache : ThresholdConditionCache) (w : W)
    : option (ThresholdConditionCache * ThresholdState * W) :=
  fuel ← match pindexPrev with
         | None => Some 0%nat
         | Some p => b ← s !! p; Some (Z.to_nat (nHeight b + 1))
         end;
  p ← first_of_period pindexPrev;
  '(cache, q, v) ← walk_back fuel cache p [];
  state ← cache !! q;
  walk_forward cache state (rev v) w.
End GetStateFor.

(** ** The checkers *)

Record BIP9Deployment := mk_deployment {
  bit : Z; nStartTime : Z; nTimeout : Z; nWindowSize : Z; nThreshold : Z }.

(** The fields of [Consensus::Params] for version bits. *)
Record BIP9Params := mk_bip9 {
  nRuleChangeActivationThreshold : Z;
  nMinerConfirmationWindow : Z;
  vDeployments : list BIP9Deployment }.

(** [VersionBitsConditionChecker::Mask]; a shift by 32 or more is undefined. *)
Definition Mask (d : BIP9Deployment) : option Z :=
  if (0 <=? bit d) && (bit d <? 32) then Some (u32 (1 << bit d)) else None.

Definition VersionBitsConditionChecker (params : BIP9Params) (d : BIP9Deployment)
    : AbstractThresholdConditionChecker unit := {|
  Condition := fun s p w =>
    b ← s !! p;
    if nVersion b .& VERSIONBITS_TOP_MASK =? VERSIONBITS_TOP_BITS then
      mask ← Mask d; Some (negb (u32 (nVersion b) .& mask =? 0), w)
    else Some (false, w);
  BeginTime := nStartTime d;
  EndTime := nTimeout d;
  Period := s32 (if nWindowSize d =? 0 then nMinerConfirmationWindow params else nWindowSize d);
  Threshold := s32 (if nThreshold d =? 0 then nRuleChangeActivationThreshold params else nThreshold d) |}.

(** [VersionBitsCache]: a cache for every deployment. *)
Abbreviation VersionBitsCache := (list ThresholdConditionCache).
Definition Clear (cache : VersionBitsCache) : VersionBitsCache := (fun _ => ∅) <$> cache.

Definition VersionBitsState (params : BIP9Params) (s : store) (pindexPrev : ptr) (pos : nat)
    (cache : VersionBitsCache) : option (VersionBitsCache * ThresholdState) :=
  d ← vDeployments params !! pos;
  c ← cache !! pos;
  '(c, state, _) ← GetStateFor (VersionBitsConditionChecker params d) s pindexPrev c tt;
  Some (<[pos := c]> cache, state).

Definition VersionBitsMask (params : BIP9Params) (pos : nat) : option Z :=
  d ← vDeployments params !! pos; Mask d.

(** The column [check_mn_protocol] of [VersionBitsDeploymentInfo]. *)
Definition check_mn_protocol : list bool := [false; false; true].
Definition MAX_VERSION_BITS_DEPLOYMENTS : nat := length check_mn_protocol.

(** ** Use in validation.cpp *)

Section ComputeBlockVersion.
(** Whether the masternode that is to be paid at a height is known to run an upgraded
    version: the votes of the masternodes and their list are state of other components. *)
Context (params : BIP9Params) (mn_upgraded : Z -> bool) (s : store).

(** The loop over the deployments, from number [i] on. *)
Fixpoint version_loop (n : nat) (i : nat) (pindexPrev : ptr) (fAssumeMasternodeIsUpgraded : bool)
    (nVersion : Z) (cache : VersionBitsCache) : option (Z * VersionBitsCache) :=
  match n with
  | O => Some (nVersion, cache)
  | S n =>
      '(cache, state) ← VersionBitsState params s pindexPrev i cache;
      skip ← (if default false (check_mn_protocol !! i) && bool_decide (state = THRESHOLD_STARTED)
                 && negb fAssumeMasternodeIsUpgraded
              then p ← pindexPrev; b ← s !! p; Some (negb (mn_upgraded (nHeight b + 1)))
              else Some false);
      nVersion ← (if skip : bool then Some nVersion
                  else if bool_decide (state = THRESHOLD_LOCKED_IN \/ state = THRESHOLD_STARTED)
                  then mask ← VersionBitsMask params i; Some (s32 (u32 nVersion .| mask))
                  else Some nVersion);
      version_loop n (S i) pindexPrev fAssumeMasternodeIsUpgraded nVersion cache
  end.

Definition ComputeBlockVersion (pindexPrev : ptr) (fAssumeMasternodeIsUpgraded : bool)
    (cache : VersionBitsCache) : option (Z * VersionBitsCache) :=
  version_loop MAX_VERSION_BITS_DEPLOYMENTS 0 pindexPrev fAssumeMasternodeIsUpgraded
    VERSIONBITS_TOP_BITS cache.
End ComputeBlockVersion.

(** The checker for bits that no deployment uses; its condition fills [versionbitscache]. *)
Definition WarningBitsConditionChecker (params : BIP9Params) (mn_upgraded : Z -> bool) (bitIn : Z)
    : AbstractThresholdConditionChecker VersionBitsCache := {|
  Condition := fun s p cache =>
    b ← s !! p;
    if (nVersion b .& VERSIONBITS_TOP_MASK =? VERSIONBITS_TOP_BITS)
       && negb ((nVersion b >> bitIn) .& 1 =? 0) then
      '(v, cache) ← ComputeBlockVersion params mn_upgraded s (pprev b) true cache;
      Some ((v >> bitIn) .& 1 =? 0, cache)
    else Some (false, cache);
  BeginTime := 0;
  EndTime := 2 ^ 63 - 1;
  Period := s32 (nMinerConfirmationWindow params);
  Threshold := s32 (nRuleChangeActivationThreshold params) |}.

(** ** Specification *)

(** What a checker promises of its condition: with the global state in [inv] it is defined on
    every block, depends on the block only, and keeps the global state in [inv]. *)
Class CheckerSpec {W : Type} (ck : AbstractThresholdConditionChecker W) (s : store)
    (cond : nat -> bool) (inv : W -> Prop) : Prop := {
  period_pos : 0 < Period ck;
  times_ordered : BeginTime ck <= EndTime ck;
  condition_spec : forall p b w, s !! p = Some b -> inv w ->
    exists w', Condition ck s p w = Some (cond p, w') /\ inv w' }.

Section Spec.
Context {W : Type} (ck : AbstractThresholdConditionChecker W) (s : store) (cond : nat -> bool).

(** The block [n] above a pointer. *)
Definition above (n : nat) (q : ptr) : ptr := p ← q; up s n p.

(** How many of the [n] blocks up to [q] satisfy the condition. *)
Fixpoint votes (n : nat) (q : ptr) : Z :=
  match n, q with
  | S n, Some p => (if cond p then 1 else 0) + votes n (above 1 q)
  | _, _ => 0
  end.

Definition period : nat := Z.to_nat (Period ck).
Definition median (p : nat) : Z := default 0 (GetMedianTimePast s p).

(** The state of the period after block [p], from the state [st] of the period it ends. *)
Definition transition (st : ThresholdState) (p : nat) : ThresholdState :=
  match st with
  | THRESHOLD_DEFINED =>
      if EndTime ck <=? median p then THRESHOLD_FAILED
      else if BeginTime ck <=? median p then THRESHOLD_STARTED else THRESHOLD_DEFINED
  | THRESHOLD_STARTED =>
      if EndTime ck <=? median p then THRESHOLD_FAILED
      else if Threshold ck <=? votes period (Some p) then THRESHOLD_LOCKED_IN
      else THRESHOLD_STARTED
  | THRESHOLD_LOCKED_IN | THRESHOLD_ACTIVE => THRESHOLD_ACTIVE
  | THRESHOLD_FAILED => THRESHOLD_FAILED
  end.

(** The state after [n] periods that end at [q]; that of the first period is DEFINED. *)
Fixpoint bip9 (n : nat) (q : ptr) : ThresholdState :=
  match n, q with
  | S n, Some p => transition (bip9 n (above period q)) p
  | _, _ => THRESHOLD_DEFINED
  end.

(** The number of periods that are complete with [q], and the last block of them. *)
Definition height_of (q : ptr) : Z :=
  match q with Some p => match s !! p with Some b => nHeight b | None => -1 end | None => -1 end.
Definition periods (q : ptr) : nat := Z.to_nat ((height_of q + 1) / Period ck).
Definition period_end (q : ptr) : ptr :=
  above (Z.to_nat ((height_of q + 1) mod Period ck)) q.

(** The state that applies to the block after [q]. *)
Definition state_after (q : ptr) : ThresholdState := bip9 (periods q) (period_end q).

Definition is_ptr (q : ptr) : Prop := forall p, q = Some p -> exists b, s !! p = Some b.

(** Every entry of the cache is the state at the end of a period. *)
Definition cache_ok (cache : ThresholdConditionCache) : Prop :=
  forall q st, cache !! q = Some st ->
    is_ptr q /\ (height_of q + 1) mod Period ck = 0 /\ st = bip9 (periods q) q.
End Spec.

Section Correct.
Context {W : Type} (ck : AbstractThresholdConditionChecker W) (s : store) (cond : nat -> bool)
  (inv : W -> Prop) `{!CheckerSpec ck s cond inv} (Hwf : wf_store s) (Ht : times_ok s).

Abbreviation bip9 := (bip9 ck s cond).
Abbreviation periods := (periods ck s).
Abbreviation state_after := (state_after ck s cond).
Abbreviation cache_ok := (cache_ok ck s cond).

Lemma height_some p b : s !! p = Some b -> height_of s (Some p) = nHeight b.
Proof. intros Hb. unfold height_of. now rewrite Hb. Qed.

Lemma height_ge q : -1 <= height_of s q.
Proof.
  destruct q as [p|]; cbn [height_of]; [|lia]. destruct (s !! p) as [b|] eqn:E; [|lia].
  pose proof (eo_height _ _ _ (Hwf p b E)). lia.
Qed.

(** One step up is one less in height, and above the genesis block there is nothing. *)
Lemma above_spec n q : is_ptr s q -> Z.of_nat n <= height_of s q + 1 ->
  is_ptr s (above s n q) /\ height_of s (above s n q) = height_of s q - Z.of_nat n.
Proof.
  intros Hq Hn. destruct q as [p|]; cbn [above mbind option_bind].
  - destruct (Hq p eq_refl) as [b Hb]. rewrite (height_some p b Hb) in *.
    destruct (Z.eq_dec (Z.of_nat n) (nHeight b + 1)) as [En|En].
    + pose proof (eo_height _ _ _ (Hwf p b Hb)) as Hh.
      destruct (up_height s Hwf (Z.to_nat (nHeight b)) p b Hb ltac:(lia)) as (g & bg & Hg & Ebg & Eg).
      replace n with (Z.to_nat (nHeight b) + 1)%nat by lia. rewrite up_add, Hg.
      cbn [mbind option_bind up]. rewrite Ebg. cbn [mbind option_bind].
      pose proof (eo_prev _ _ _ (Hwf g bg Ebg)) as Hp. destruct (pprev bg) as [r|].
      * destruct Hp as (br & Hr & Er). pose proof (eo_height _ _ _ (Hwf r br Hr)). lia.
      * split; [now intros ? [=]|]. cbn [height_of mbind option_bind]. lia.
    + destruct (up_height s Hwf n p b Hb ltac:(lia)) as (r & br & -> & Hr & Er).
      rewrite (height_some r br Hr). split; [intros ? [= <-]; eauto|lia].
  - cbn [height_of] in *. split; [now intros ? [=]|lia].
Qed.

Lemma above_above m n q : above s n (above s m q) = above s (m + n) q.
Proof. destruct q as [p|]; [|done]. cbn [above mbind option_bind]. now rewrite up_add. Qed.

Lemma GetAncestor_above p b n : s !! p = Some b -> (0 < n)%nat ->
  Z.of_nat n <= nHeight b + 1 -> GetAncestor s p (nHeight b - Z.of_nat n) = Some (above s n (Some p)).
Proof.
  intros Hb Hpos Hn. rewrite (GetAncestor_spec s Hwf p b) by done.
  destruct (above_spec n (Some p)) as [_ Hh]; [intros ? [= <-]; eauto|now rewrite (height_some p b Hb)|].
  rewrite (height_some p b Hb) in Hh. cbn [above mbind option_bind] in *.
  destruct (Z.ltb_spec (nHeight b - Z.of_nat n) 0) as [Hneg|Hnn]; cbn [orb].
  - destruct (up s n p) as [r|] eqn:Er; [|done]. exfalso.
    destruct (above_spec n (Some p)) as [Hr _]; [intros ? [= <-]; eauto|now rewrite (height_some p b Hb)|].
    cbn [above mbind option_bind] in Hr. rewrite Er in Hr. destruct (Hr r eq_refl) as [br Hbr].
    rewrite (height_some r br Hbr) in Hh. pose proof (eo_height _ _ _ (Hwf r br Hbr)). lia.
  - destruct (Z.ltb_spec (nHeight b) (nHeight b - Z.of_nat n)); [lia|].
    do 2 f_equal. lia.
Qed.

Lemma median_some p b : s !! p = Some b -> GetMedianTimePast s p = Some (median s p).
Proof. intros Hb. destruct (GetMedianTimePast_some s Hwf p b Hb) as [m E]. unfold median. now rewrite E. Qed.

Definition key (q : ptr) : Prop := is_ptr s q /\ (height_of s q + 1) mod Period ck = 0.

Lemma key_none : key None.
Proof. split; [now intros ? [=]|]. cbn [height_of]. apply Z.mod_0_l. pose proof period_pos. lia. Qed.

Lemma periods_none : periods None = 0%nat.
Proof. reflexivity. Qed.

Lemma period_Z : Z.of_nat (period ck) = Period ck.
Proof. pose proof period_pos. unfold period. lia. Qed.

Lemma key_height p b : key (Some p) -> s !! p = Some b -> Z.of_nat (period ck) <= nHeight b + 1.
Proof.
  intros [_ Hm] Hb. rewrite period_Z, (height_some p b Hb) in *. pose proof period_pos as HP.
  pose proof (eo_height _ _ _ (Hwf p b Hb)) as Hh. apply Z.div_exact in Hm; [|lia].
  assert (0 < (nHeight b + 1) / Period ck) by nia. nia.
Qed.

Lemma key_step p : key (Some p) ->
  key (above s (period ck) (Some p)) /\
  periods (Some p) = S (periods (above s (period ck) (Some p))).
Proof.
  intros [Hp Hm]. pose proof period_pos as HP. destruct (Hp p eq_refl) as [b Hb].
  rewrite (height_some p b Hb) in Hm. pose proof (eo_height _ _ _ (Hwf p b Hb)) as Hh.
  apply Z.div_exact in Hm; [|lia]. set (k := (nHeight b + 1) / Period ck) in *.
  assert (Hk : 0 < k) by nia.
  destruct (above_spec (period ck) (Some p) Hp) as [Hq Eq]; [rewrite (height_some p b Hb); unfold period; nia|].
  rewrite (height_some p b Hb) in Eq. unfold period in Eq. rewrite Z2Nat.id in Eq by lia. fold (period ck) in Eq.
  assert (E1 : height_of s (above s (period ck) (Some p)) + 1 = (k - 1) * Period ck) by lia.
  split; [split; [exact Hq|rewrite E1; now apply Z.mod_mul; lia]|].
  unfold VersionBits.periods. rewrite E1, Z.div_mul, (height_some p b Hb) by lia. fold k. lia.
Qed.

Lemma bip9_step p : key (Some p) -> bip9 (periods (Some p)) (Some p) =
  transition ck s cond (bip9 (periods (above s (period ck) (Some p))) (above s (period ck) (Some p))) p.
Proof. intros Hk. destruct (key_step p Hk) as [_ ->]. reflexivity. Qed.

(** Before the start time every state is DEFINED, since median times do not decrease. *)
Lemma bip9_early p : key (Some p) -> median s p < BeginTime ck ->
  bip9 (periods (Some p)) (Some p) = THRESHOLD_DEFINED.
Proof.
  intros Hk. remember (periods (Some p)) as n eqn:En. revert p Hk En.
  induction n as [|n IH]; intros p Hk En Hm; [done|].
  destruct (key_step p Hk) as [Hk' En']. assert (En'' : n = periods (above s (period ck) (Some p))) by lia. clear En'.
  rewrite En, (bip9_step p Hk).
  assert (E : bip9 (periods (above s (period ck) (Some p))) (above s (period ck) (Some p)) =
    THRESHOLD_DEFINED).
  { destruct (above s (period ck) (Some p)) as [r|] eqn:Er; [|done]. rewrite <- En''.
    apply (IH r Hk' En''). destruct (proj1 Hk p eq_refl) as [b Hb].
    destruct (proj1 Hk' r eq_refl) as [br Hbr].
    pose proof (GetMedianTimePast_mono s Hwf (period ck) p b r _ _ Ht Hb Er
      (median_some r br Hbr) (median_some p b Hb)). lia. }
  rewrite E. cbn [transition]. pose proof times_ordered.
  destruct (Z.leb_spec (EndTime ck) (median s p)); [lia|].
  destruct (Z.leb_spec (BeginTime ck) (median s p)); [lia|done].
Qed.

Lemma cache_ok_insert cache q : cache_ok cache -> key q ->
  cache_ok (<[q := bip9 (periods q) q]> cache).
Proof.
  intros Hc [Hq Hm] r st Hr. apply lookup_insert_Some in Hr as [[<- <-]|[_ Hr]]; [done|now apply Hc].
Qed.

(** The blocks of the vector, from the youngest, between [q] and [r]. *)
Fixpoint path (q : ptr) (l : list nat) (r : ptr) : Prop :=
  match l with
  | [] => q = r
  | p :: l => q = Some p /\ path (above s (period ck) (Some p)) l r
  end.

Lemma walk_back_spec fuel cache q v : cache_ok cache -> key q -> (periods q <= fuel)%nat ->
  exists cache' r l, walk_back ck s fuel cache q v = Some (cache', r, v ++ l) /\
    cache_ok cache' /\ cache' !! r = Some (bip9 (periods r) r) /\ path q l r.
Proof.
  revert cache q v. induction fuel as [|fuel IH]; intros cache q v Hc Hk Hf; cbn [walk_back];
    destruct (cache !! q) as [st|] eqn:Eq.
  1,3: destruct (Hc q st Eq) as (_ & _ & ->); exists cache, q, []; now rewrite app_nil_r.
  1,2: destruct q as [p|];
    [|exists (<[None := THRESHOLD_DEFINED]> cache), None, []; rewrite app_nil_r, lookup_insert_eq;
      split; [done|]; split; [apply (cache_ok_insert cache None Hc key_none)|done]].
  - destruct (key_step p Hk) as [_ E]. lia.
  - destruct (proj1 Hk p eq_refl) as [b Hb]. rewrite (median_some p b Hb). cbn [mbind option_bind].
    destruct (Z.ltb_spec (median s p) (BeginTime ck)) as [Hm|Hm].
    + pose proof (bip9_early p Hk Hm) as E.
      exists (<[Some p := THRESHOLD_DEFINED]> cache), (Some p), []. rewrite app_nil_r, lookup_insert_eq.
      split; [done|]. rewrite <- E at 1. split; [now apply cache_ok_insert|]. now rewrite E.
    + rewrite Hb. cbn [mbind option_bind]. destruct (key_step p Hk) as [Hk' En].
      pose proof (key_height p b Hk Hb) as Hn. pose proof period_pos as HP.
      assert (EP : nHeight b - Period ck = nHeight b - Z.of_nat (period ck)) by (now rewrite period_Z).
      rewrite EP, (GetAncestor_above p b) by (done || (rewrite period_Z in *; unfold period; lia)).
      cbn [mbind option_bind].
      destruct (IH cache (above s (period ck) (Some p)) (v ++ [p]) Hc Hk' ltac:(lia))
        as (cache' & r & l & E & Hc' & Hr & Hl).
      exists cache', r, (p :: l). rewrite E, <- app_assoc. done.
Qed.

Lemma count_loop_spec n q count w : is_ptr s q -> Z.of_nat n <= height_of s q + 1 -> inv w ->
  exists w', count_loop ck s n q count w = Some (count + votes s cond n q, w') /\ inv w'.
Proof.
  revert q count w. induction n as [|n IH]; intros q count w Hq Hn Hw.
  - exists w. cbn [count_loop votes]. split; [|done]. do 2 f_equal. lia.
  - destruct q as [p|]; [|cbn [height_of] in Hn; lia]. destruct (Hq p eq_refl) as [b Hb].
    cbn [count_loop mbind option_bind]. destruct (condition_spec p b w Hb Hw) as (w1 & -> & Hw1).
    cbn [mbind option_bind]. rewrite Hb. cbn [mbind option_bind].
    destruct (above_spec 1 (Some p) Hq ltac:(lia)) as [Hq' Eh].
    replace (pprev b) with (above s 1 (Some p))
      by (cbn [above mbind option_bind up]; rewrite Hb; cbn; now destruct (pprev b)).
    destruct (IH (above s 1 (Some p)) (if cond p then count + 1 else count) w1 Hq' ltac:(lia) Hw1)
      as (w2 & -> & Hw2).
    exists w2. split; [|done]. cbn [votes]. do 2 f_equal. destruct (cond p); lia.
Qed.

Lemma state_next_spec st p w : key (Some p) -> inv w ->
  exists w', state_next ck s st p w = Some (transition ck s cond st p, w') /\ inv w'.
Proof.
  intros Hk Hw. destruct (proj1 Hk p eq_refl) as [b Hb].
  destruct st; cbn [state_next transition]; try (now exists w);
    rewrite (median_some p b Hb); cbn [mbind option_bind].
  - exists w. split; [|done]. reflexivity.
  - destruct (EndTime ck <=? median s p); [now exists w|].
    destruct (count_loop_spec (period ck) (Some p) 0 w (proj1 Hk)) as (w' & E & Hw').
    { rewrite (height_some p b Hb). now apply (key_height p). }
    { done. }
    fold (period ck). rewrite E. cbn [mbind option_bind]. now exists w'.
Qed.

Lemma walk_forward_app cache st l1 l2 w : walk_forward ck s cache st (l1 ++ l2) w =
  ('(c, st', w') ← walk_forward ck s cache st l1 w; walk_forward ck s c st' l2 w').
Proof.
  revert cache st w. induction l1 as [|p l1 IH]; intros cache st w; [done|]. cbn [walk_forward app].
  destruct (state_next ck s st p w) as [[st' w']|]; [|done]. cbn [mbind option_bind]. apply IH.
Qed.

Lemma walk_forward_spec l q r cache w : path q l r -> key q -> cache_ok cache -> inv w ->
  exists cache' w', walk_forward ck s cache (bip9 (periods r) r) (rev l) w =
    Some (cache', bip9 (periods q) q, w') /\ cache_ok cache' /\ inv w'.
Proof.
  revert q cache w. induction l as [|p l IH]; intros q cache w Hl Hk Hc Hw; cbn [path] in Hl.
  - subst r. now exists cache, w.
  - destruct Hl as [-> Hl]. destruct (key_step p Hk) as [Hk' _]. cbn [rev]. rewrite walk_forward_app.
    destruct (IH _ cache w Hl Hk' Hc Hw) as (c1 & w1 & -> & Hc1 & Hw1). cbn [mbind option_bind].
    cbn [walk_forward]. destruct (state_next_spec (bip9 (periods (above s (period ck) (Some p)))
      (above s (period ck) (Some p))) p w1 Hk Hw1) as (w2 & -> & Hw2).
    cbn [mbind option_bind]. rewrite <- (bip9_step p Hk). exists (<[Some p := bip9 (periods (Some p)) (Some p)]> c1), w2.
    split; [done|]. split; [now apply cache_ok_insert|done].
Qed.

Lemma first_of_period_spec q : is_ptr s q ->
  first_of_period ck s q = Some (period_end ck s q) /\ key (period_end ck s q) /\
  periods (period_end ck s q) = periods q.
Proof.
  intros Hq. pose proof period_pos as HP. destruct q as [p|]; [|split; [done|split; [exact key_none|done]]].
  destruct (Hq p eq_refl) as [b Hb]. cbn [first_of_period]. rewrite Hb. cbn [mbind option_bind].
  destruct (Z.eqb_spec (Period ck) 0); [lia|]. pose proof (eo_height _ _ _ (Hwf p b Hb)) as Hh.
  rewrite Z.rem_mod_nonneg by lia. pose proof (Z.mod_pos_bound (nHeight b + 1) (Period ck) HP) as Hr.
  pose proof (Z.div_mod (nHeight b + 1) (Period ck) ltac:(lia)) as Hd.
  unfold period_end. rewrite (height_some p b Hb). set (r := (nHeight b + 1) mod Period ck) in *.
  assert (Hrb : r <= nHeight b + 1) by (apply Z.mod_le; lia). clearbody r.
  destruct (above_spec (Z.to_nat r) (Some p) Hq) as [Ha Eh]; [rewrite (height_some p b Hb); lia|].
  rewrite (height_some p b Hb), Z2Nat.id in Eh by lia.
  assert (E : height_of s (above s (Z.to_nat r) (Some p)) + 1 = Period ck * ((nHeight b + 1) / Period ck)) by lia.
  split; [|split; [split; [exact Ha|]|]].
  - destruct (Z.eq_dec r 0) as [E0|E0].
    + rewrite E0, Z.sub_0_r. cbn [Z.to_nat above mbind option_bind up]. rewrite (GetAncestor_spec s Hwf p b) by done.
      destruct (Z.ltb_spec (nHeight b) 0); [lia|]. destruct (Z.ltb_spec (nHeight b) (nHeight b)); [lia|].
      cbn [orb]. now rewrite Z.sub_diag.
    + rewrite <- (Z2Nat.id r) at 1 by lia. apply GetAncestor_above; lia || done.
  - rewrite E, Z.mul_comm. apply Z.mod_mul. lia.
  - unfold VersionBits.periods. rewrite E, (height_some p b Hb), Z.mul_comm, Z.div_mul by lia. reflexivity.
Qed.

Lemma GetStateFor_spec q cache w : is_ptr s q -> cache_ok cache -> inv w ->
  exists cache' w', GetStateFor ck s q cache w = Some (cache', state_after q, w') /\
    cache_ok cache' /\ inv w'.
Proof.
  intros Hq Hc Hw. destruct (first_of_period_spec q Hq) as (E1 & Hk & Ep). unfold GetStateFor.
  assert (Hf : exists fuel, match q with None => Some 0%nat
    | Some p => b ← s !! p; Some (Z.to_nat (nHeight b + 1)) end = Some fuel /\ (periods q <= fuel)%nat).
  { destruct q as [p|]; [|now exists 0%nat]. destruct (Hq p eq_refl) as [b Hb]. rewrite Hb.
    cbn [mbind option_bind]. eexists. split; [done|]. unfold VersionBits.periods.
    rewrite (height_some p b Hb). apply Z2Nat.inj_le; [| |].
    1,2: pose proof (eo_height _ _ _ (Hwf p b Hb)); pose proof period_pos; try apply Z.div_pos; lia.
    pose proof (eo_height _ _ _ (Hwf p b Hb)); pose proof period_pos. apply Z.div_le_upper_bound; nia. }
  destruct Hf as (fuel & -> & Hf). cbn [mbind option_bind]. rewrite E1. cbn [mbind option_bind].
  destruct (walk_back_spec fuel cache _ [] Hc Hk ltac:(lia)) as (c1 & r & l & -> & Hc1 & Hr & Hl).
  cbn [mbind option_bind app]. rewrite Hr. cbn [mbind option_bind].
  destruct (walk_forward_spec l _ r c1 w Hl Hk Hc1 Hw) as (c2 & w2 & -> & H1 & H2).
  exists c2, w2. split; [|done]. unfold VersionBits.state_after. now rewrite Ep.
Qed.
End Correct.

(** ** The state machine *)

(** The changes of state from a period to the next. *)
Inductive allowed : ThresholdState -> ThresholdState -> Prop :=
  | allowed_stay st : st <> THRESHOLD_LOCKED_IN -> allowed st st
  | allowed_start : allowed THRESHOLD_DEFINED THRESHOLD_STARTED
  | allowed_defined_fail : allowed THRESHOLD_DEFINED THRESHOLD_FAILED
  | allowed_started_fail : allowed THRESHOLD_STARTED THRESHOLD_FAILED
  | allowed_lock_in : allowed THRESHOLD_STARTED THRESHOLD_LOCKED_IN
  | allowed_activate : allowed THRESHOLD_LOCKED_IN THRESHOLD_ACTIVE.

#[export] Hint Constructors allowed : core.

Section Machine.
Context {W : Type} (ck : AbstractThresholdConditionChecker W) (s : store) (cond : nat -> bool)
  (inv : W -> Prop) `{!CheckerSpec ck s cond inv} (Hwf : wf_store s).

Lemma transition_allowed st p : allowed st (transition ck s cond st p).
Proof.
  destruct st; cbn [transition]; try (destruct (EndTime ck <=? _)); try (destruct (_ <=? _));
    (now constructor) || auto.
Qed.

(** [n] periods up from [q], the state is an earlier one. *)
Lemma bip9_above n q : (forall p, key ck s (Some p) -> key ck s (above s (period ck) (Some p)) /\
    periods ck s (Some p) = S (periods ck s (above s (period ck) (Some p)))) -> key ck s q ->
  rtc allowed (bip9 ck s cond (periods ck s (above s (n * period ck) q)) (above s (n * period ck) q))
              (bip9 ck s cond (periods ck s q) q).
Proof.
  intros Hstep. revert q. induction n as [|n IH]; intros q Hk; [now destruct q|].
  destruct q as [p|]; [|done]. destruct (Hstep p Hk) as [Hk' E].
  change (S n * period ck)%nat with (period ck + n * period ck)%nat. rewrite <- above_above.
  eapply rtc_r; [exact (IH _ Hk')|]. rewrite E. apply transition_allowed.
Qed.

(** A lock-in has the votes of its period, which ends within the time window. *)
Lemma bip9_locked_in n q : bip9 ck s cond n q = THRESHOLD_LOCKED_IN \/
    bip9 ck s cond n q = THRESHOLD_ACTIVE ->
  exists k p, above s (k * period ck) q = Some p /\ median s p < EndTime ck /\
    Threshold ck <= votes s cond (period ck) (Some p).
Proof.
  revert q. induction n as [|n IH]; intros q Hq; [now destruct Hq|].
  destruct q as [p|]; [|now destruct Hq]. cbn [bip9] in Hq.
  destruct (bip9 ck s cond n (above s (period ck) (Some p))) eqn:E; cbn [transition] in Hq.
  - destruct (EndTime ck <=? median s p), (BeginTime ck <=? median s p); now destruct Hq.
  - destruct (Z.leb_spec (EndTime ck) (median s p)); [now destruct Hq|].
    destruct (Z.leb_spec (Threshold ck) (votes s cond (period ck) (Some p))); [|now destruct Hq].
    exists 0%nat, p. split; [done|]. lia.
  - destruct (IH _ (or_introl E)) as (k & r & Hr & H). exists (S k), r.
    rewrite above_above in Hr. now split.
  - destruct (IH _ (or_intror E)) as (k & r & Hr & H). exists (S k), r.
    rewrite above_above in Hr. now split.
  - now destruct Hq.
Qed.

(** Blocks of a chain: the end of the last period of the upper one is a whole number of
    periods above that of the lower one. *)
Lemma period_end_above n q : is_ptr s q -> Z.of_nat n <= height_of s q + 1 ->
  exists k, period_end ck s (above s n q) = above s (k * period ck) (period_end ck s q).
Proof.
  intros Hq Hn. pose proof (period_pos (ck := ck)) as HP. pose proof (period_Z ck s cond inv) as EP.
  destruct (above_spec s Hwf n q Hq Hn) as [_ Eh]. unfold period_end. rewrite Eh, !above_above.
  replace (height_of s q - Z.of_nat n + 1) with (height_of s q + 1 - Z.of_nat n) by lia.
  assert (Hh : 0 <= height_of s q + 1 - Z.of_nat n) by lia. clear Eh Hq Hn.
  set (h := height_of s q + 1) in *. clearbody h.
  pose proof (Z.div_mod h (Period ck) ltac:(lia)) as E1.
  pose proof (Z.div_mod (h - Z.of_nat n) (Period ck) ltac:(lia)) as E2.
  pose proof (Z.mod_pos_bound h (Period ck) HP). pose proof (Z.mod_pos_bound (h - Z.of_nat n) (Period ck) HP).
  pose proof (Z.div_le_mono (h - Z.of_nat n) h (Period ck) HP ltac:(lia)).
  set (a := h / Period ck) in *. set (c := (h - Z.of_nat n) / Period ck) in *.
  set (u := h mod Period ck) in *. set (v := (h - Z.of_nat n) mod Period ck) in *.
  clearbody a c u v. exists (Z.to_nat (a - c)).
  rewrite above_above. f_equal. apply Nat2Z.inj.
  rewrite !Nat2Z.inj_add, Nat2Z.inj_mul, EP, !Z2Nat.id by lia. lia.
Qed.

Lemma state_after_rtc n q : is_ptr s q -> Z.of_nat n <= height_of s q + 1 ->
  rtc allowed (state_after ck s cond (above s n q)) (state_after ck s cond q).
Proof.
  intros Hq Hn. destruct (period_end_above n q Hq Hn) as [k Ek].
  destruct (above_spec s Hwf n q Hq Hn) as [Ha _].
  destruct (first_of_period_spec ck s cond inv Hwf q Hq) as (_ & Hk & E1).
  destruct (first_of_period_spec ck s cond inv Hwf (above s n q) Ha) as (_ & _ & E2).
  unfold state_after. rewrite <- E1, <- E2, Ek. apply bip9_above; [|done].
  apply (key_step ck s cond inv Hwf).
Qed.
End Machine.

Lemma allowed_terminal st st' : rtc allowed st st' ->
  (st = THRESHOLD_ACTIVE -> st' = THRESHOLD_ACTIVE) /\ (st = THRESHOLD_FAILED -> st' = THRESHOLD_FAILED) /\
  (st' = THRESHOLD_DEFINED -> st = THRESHOLD_DEFINED).
Proof.
  induction 1 as [st|st st1 st2 Hs _ (IH1 & IH2 & IH3)]; [auto|].
  inversion Hs; subst; split; [|split| |split| |split| |split| |split| |split]; intros; try congruence; auto;
    discriminate || (specialize (IH3 ltac:(assumption)); discriminate).
Qed.

(** ** The checkers keep the interface *)

(** Signalling of a deployment. *)
Definition vb_cond (s : store) (d : BIP9Deployment) (p : nat) : bool :=
  match s !! p with
  | Some b => (nVersion b .& VERSIONBITS_TOP_MASK =? VERSIONBITS_TOP_BITS) && Z.testbit (nVersion b) (bit d)
  | None => false
  end.

(** Sensible parameters of a deployment. *)
Record deployment_ok (params : BIP9Params) (d : BIP9Deployment) : Prop := {
  do_bit : 0 <= bit d < Z.of_nat VERSIONBITS_NUM_BITS;
  do_times : nStartTime d <= nTimeout d;
  do_period : 0 < Period (VersionBitsConditionChecker params d) }.

Lemma Mask_spec d : 0 <= bit d < Z.of_nat VERSIONBITS_NUM_BITS -> Mask d = Some (1 << bit d).
Proof.
  intros Hb. unfold VERSIONBITS_NUM_BITS in Hb. unfold Mask. destruct (Z.leb_spec 0 (bit d)); [|lia].
  destruct (Z.ltb_spec (bit d) 32); [|lia]. cbn [andb]. f_equal. rewrite u32_mod.
  rewrite Z.shiftl_1_l. apply Z.mod_small. split; [lia|]. apply Z.pow_lt_mono_r; lia.
Qed.

Lemma testbit_u32 x i : 0 <= i < 32 -> Z.testbit (u32 x) i = Z.testbit x i.
Proof. intros Hi. rewrite u32_mod. apply Z.mod_pow2_bits_low. lia. Qed.

Lemma versionbits_spec params s d : deployment_ok params d ->
  CheckerSpec (VersionBitsConditionChecker params d) s (vb_cond s d) (fun _ => True).
Proof.
  intros [Hb Ht HP]. split; [exact HP|exact Ht|]. intros p b w Hp _.
  exists w. split; [|done]. cbn [Condition VersionBitsConditionChecker]. unfold vb_cond. rewrite Hp.
  cbn [mbind option_bind]. destruct (_ =? VERSIONBITS_TOP_BITS); [|done]. rewrite Mask_spec by done.
  cbn [mbind option_bind andb]. unfold VERSIONBITS_NUM_BITS in Hb.
  rewrite land_single_bit, negb_involutive, testbit_u32 by lia. done.
Qed.

Lemma started_spec st : bool_decide (st = THRESHOLD_STARTED) =
  match st with THRESHOLD_STARTED => true | _ => false end.
Proof. now destruct st. Qed.

Lemma signalling_spec st : bool_decide (st = THRESHOLD_LOCKED_IN \/ st = THRESHOLD_STARTED) =
  match st with THRESHOLD_LOCKED_IN | THRESHOLD_STARTED => true | _ => false end.
Proof. now destruct st. Qed.

Section Caches.
Context (params : BIP9Params) (s : store) (Hwf : wf_store s) (Ht : times_ok s).
Context (Hp : forall pos d, vDeployments params !! pos = Some d -> deployment_ok params d).
Context (Hn : length (vDeployments params) = MAX_VERSION_BITS_DEPLOYMENTS).

(** The state of a deployment for the block after [q]. *)
Definition deployment_state (d : BIP9Deployment) (q : ptr) : ThresholdState :=
  state_after (VersionBitsConditionChecker params d) s (vb_cond s d) q.

(** The global caches. *)
Definition caches_ok (cache : VersionBitsCache) : Prop :=
  length cache = MAX_VERSION_BITS_DEPLOYMENTS /\
  forall pos d c, vDeployments params !! pos = Some d -> cache !! pos = Some c ->
    cache_ok (VersionBitsConditionChecker params d) s (vb_cond s d) c.

Lemma caches_ok_clear cache : length cache = MAX_VERSION_BITS_DEPLOYMENTS -> caches_ok (Clear cache).
Proof.
  intros Hl. split; [unfold Clear; now rewrite length_fmap|]. intros pos d c _ Hc q st Hq.
  unfold Clear in Hc. rewrite list_lookup_fmap in Hc. destruct (cache !! pos); [|done].
  injection Hc as <-. discriminate.
Qed.

Lemma VersionBitsState_spec q pos d cache : is_ptr s q -> caches_ok cache ->
  vDeployments params !! pos = Some d ->
  exists cache', VersionBitsState params s q pos cache = Some (cache', deployment_state d q) /\
    caches_ok cache'.
Proof.
  intros Hq [Hl Hc] Hd. pose proof (versionbits_spec params s d (Hp pos d Hd)) as Hok. unfold VersionBitsState. rewrite Hd.
  cbn [mbind option_bind]. destruct (lookup_lt_is_Some_2 cache pos) as [c Ec].
  { rewrite Hl, <- Hn. now apply lookup_lt_Some in Hd. }
  rewrite Ec. cbn [mbind option_bind].
  destruct (GetStateFor_spec _ s _ (fun _ : unit => True) Hwf Ht q c tt Hq (Hc pos d c Hd Ec) I)
    as (c' & [] & E & Hc' & _). rewrite E. cbn [mbind option_bind].
  eexists. split; [reflexivity|]. split; [now rewrite length_insert|].
  intros pos' d' c1 Hd' Hc1. apply list_lookup_insert_Some in Hc1 as [(-> & <- & _)|[_ Hc1]].
  - rewrite Hd in Hd'. now injection Hd' as <-.
  - now apply (Hc pos').
Qed.

(** Whether the block after [q] signals for deployment [pos]. *)
Definition signals (mn_upgraded : Z -> bool) (assume : bool) (q : ptr) (pos : nat) : bool :=
  match vDeployments params !! pos with
  | None => false
  | Some d =>
      match deployment_state d q with
      | THRESHOLD_LOCKED_IN => true
      | THRESHOLD_STARTED =>
          negb (default false (check_mn_protocol !! pos)) || assume || mn_upgraded (height_of s q + 1)
      | _ => false
      end
  end.

Lemma deployment_state_genesis d : deployment_state d None = THRESHOLD_DEFINED.
Proof. reflexivity. Qed.

(** The version with the bits of the deployments [i], ..., [i + n - 1] that signal. *)
Fixpoint version_bits (sig : nat -> bool) (n i : nat) (v : Z) : Z :=
  match n with
  | O => v
  | S n => version_bits sig n (S i)
             (match vDeployments params !! i with
              | Some d => if sig i then v .| (1 << bit d) else v
              | None => v
              end)
  end.

Lemma version_loop_spec mn f q n i v cache : is_ptr s q -> caches_ok cache -> 0 <= v < 2 ^ 30 ->
  (i + n <= MAX_VERSION_BITS_DEPLOYMENTS)%nat ->
  exists cache', version_loop params mn s n i q f v cache =
    Some (version_bits (signals mn f q) n i v, cache') /\ caches_ok cache'.
Proof.
  intros Hq. revert i v cache. induction n as [|n IH]; intros i v cache Hc Hv Hi; [now exists cache|].
  cbn [version_loop version_bits].
  destruct (lookup_lt_is_Some_2 (vDeployments params) i ltac:(lia)) as [d Hd].
  destruct (VersionBitsState_spec q i d cache Hq Hc Hd) as (c1 & E & Hc1). rewrite E. clear E.
  cbn [mbind option_bind]. pose proof (do_bit _ _ (Hp i d Hd)) as Hb.
  unfold VERSIONBITS_NUM_BITS in Hb.
  assert (Hv' : 0 <= v .| (1 << bit d) < 2 ^ 30).
  { apply (in_word_lor 30); [lia|exact Hv|]. rewrite Z.shiftl_1_l. split; [lia|].
    apply Z.pow_lt_mono_r; lia. }
  assert (Es : s32 (u32 v .| (1 << bit d)) = v .| (1 << bit d)).
  { unfold s32. rewrite !u32_mod, (Z.mod_small v) by lia. rewrite Z.mod_small by lia.
    destruct (Z.ltb_spec (v .| (1 << bit d)) (2 ^ 31)); lia. }
  assert (Esig : signals mn f q i = match deployment_state d q with
      | THRESHOLD_LOCKED_IN => true
      | THRESHOLD_STARTED =>
          negb (default false (check_mn_protocol !! i)) || f || mn (height_of s q + 1)
      | _ => false
      end) by (unfold signals; now rewrite Hd).
  unfold VersionBitsMask. rewrite Hd, Esig, started_spec, signalling_spec. cbn [mbind option_bind].
  rewrite (Mask_spec d) by exact (do_bit _ _ (Hp i d Hd)). cbn [mbind option_bind]. rewrite Es.
  destruct (deployment_state d q) eqn:Est; rewrite ?andb_false_r, ?andb_true_r;
    cbn [andb mbind option_bind]; try (apply IH; assumption || lia).
  destruct q as [p|]; [|now rewrite deployment_state_genesis in Est].
  destruct (Hq p eq_refl) as [b Hpb]. unfold height_of. rewrite Hpb.
  destruct (default false (check_mn_protocol !! i)), f; cbn [andb orb negb mbind option_bind];
    try (apply IH; assumption || lia).
  rewrite Hpb. cbn [mbind option_bind]. destruct (mn (nHeight b + 1)); cbn [negb]; apply IH; assumption || lia.
Qed.
End Caches.

Section Versions.
Context (params : BIP9Params) (s : store) (Hwf : wf_store s) (Ht : times_ok s).
Context (Hp : forall pos d, vDeployments params !! pos = Some d -> deployment_ok params d).
Context (Hn : length (vDeployments params) = MAX_VERSION_BITS_DEPLOYMENTS).

(** Bit [k] is the bit of one of the deployments [i], ..., [i + n - 1] that signal. *)
Definition signalled (sig : nat -> bool) (n i : nat) (k : Z) : Prop :=
  exists pos d, (i <= pos < i + n)%nat /\ vDeployments params !! pos = Some d /\ bit d = k /\
    sig pos = true.

Lemma version_bits_testbit sig n i v k : 0 <= k ->
  Z.testbit (version_bits params sig n i v) k = true <->
  Z.testbit v k = true \/ signalled sig n i k.
Proof.
  intros Hk. revert i v. induction n as [|n IH]; intros i v; cbn [version_bits].
  - split; [auto|]. intros [?|(pos & d & Hpos & _)]; [done|lia].
  - rewrite IH. destruct (vDeployments params !! i) as [d|] eqn:Hd.
    + assert (Hstep : signalled sig (S n) i k <->
        (sig i = true /\ bit d = k) \/ signalled sig n (S i) k).
      { split.
        - intros (pos & d' & Hpos & Hd' & Hb & Hs). destruct (decide (pos = i)) as [->|].
          + rewrite Hd in Hd'. injection Hd' as <-. auto.
          + right. exists pos, d'. repeat (split; [done || lia|]). done.
        - intros [[Hs Hb]|(pos & d' & Hpos & H)]; [exists i, d; repeat (split; [done || lia|]); done|].
          exists pos, d'. split; [lia|done]. }
      rewrite Hstep. pose proof (do_bit _ _ (Hp i d Hd)) as Hb. destruct (sig i) eqn:Hs.
      * rewrite Z.lor_spec, Z.shiftl_1_l, Z.pow2_bits_eqb, orb_true_iff, Z.eqb_eq by lia. tauto.
      * split; [intros [?|?]; auto|]. intros [?|[[? _]|?]]; auto; congruence.
    + assert (Hstep : signalled sig (S n) i k <-> signalled sig n (S i) k); [|now rewrite Hstep].
      split; intros (pos & d' & Hpos & Hd' & H); exists pos, d'.
      * split; [|done]. destruct (decide (pos = i)) as [->|]; [congruence|lia].
      * split; [lia|done].
Qed.

Lemma version_bits_range sig n i v : 0 <= v < 2 ^ 30 -> 0 <= version_bits params sig n i v < 2 ^ 30.
Proof.
  revert i v. induction n as [|n IH]; intros i v Hv; [done|]. cbn [version_bits]. apply IH.
  destruct (vDeployments params !! i) as [d|] eqn:Hd; [|done]. destruct (sig i); [|done].
  pose proof (do_bit _ _ (Hp i d Hd)) as Hb. unfold VERSIONBITS_NUM_BITS in Hb.
  apply (in_word_lor 30); [lia|exact Hv|]. rewrite Z.shiftl_1_l. split; [lia|].
  apply Z.pow_lt_mono_r; lia.
Qed.

(** The bits of the version of the block after [q]. *)
Definition version_after (mn : Z -> bool) (assume : bool) (q : ptr) : Z :=
  version_bits params (signals params s mn assume q) MAX_VERSION_BITS_DEPLOYMENTS 0 VERSIONBITS_TOP_BITS.

Lemma version_after_bit mn assume q k : 0 <= k < Z.of_nat VERSIONBITS_NUM_BITS ->
  Z.testbit (version_after mn assume q) k = true <->
  exists pos d, vDeployments params !! pos = Some d /\ bit d = k /\
    signals params s mn assume q pos = true.
Proof.
  intros Hk. unfold VERSIONBITS_NUM_BITS in Hk. unfold version_after.
  rewrite version_bits_testbit by lia. change VERSIONBITS_TOP_BITS with (2 ^ 29).
  rewrite Z.pow2_bits_eqb by lia. split.
  - intros [H|(pos & d & _ & H)]; [apply Z.eqb_eq in H; lia|eauto].
  - intros (pos & d & Hd & H). right. exists pos, d. split; [|auto].
    apply lookup_lt_Some in Hd. rewrite Hn in Hd. lia.
Qed.

Lemma version_after_top mn assume q :
  0 <= version_after mn assume q < 2 ^ 30 /\
  version_after mn assume q .& VERSIONBITS_TOP_MASK = VERSIONBITS_TOP_BITS.
Proof.
  assert (Hr : 0 <= version_after mn assume q < 2 ^ 30)
    by (apply version_bits_range; unfold VERSIONBITS_TOP_BITS; lia).
  split; [exact Hr|]. apply Z.bits_inj'. intros i Hi. rewrite Z.land_spec.
  change VERSIONBITS_TOP_MASK with (- 2 ^ 29). change VERSIONBITS_TOP_BITS with (2 ^ 29).
  replace (- 2 ^ 29) with (Z.lnot (Z.ones 29)) by reflexivity. rewrite Z.lnot_spec, Z.pow2_bits_eqb by lia.
  destruct (Z.lt_ge_cases i 29).
  - rewrite Z.ones_spec_low by lia. destruct (Z.eqb_spec 29 i); [lia|apply andb_false_r].
  - rewrite Z.ones_spec_high by lia. cbn [negb]. rewrite andb_true_r. destruct (Z.eqb_spec 29 i) as [<-|].
    + unfold version_after. apply version_bits_testbit; [lia|]. left. reflexivity.
    + apply (testbit_high 30); [lia|exact Hr|lia].
Qed.

Lemma ComputeBlockVersion_spec mn assume q cache : is_ptr s q -> caches_ok params s cache ->
  exists cache', ComputeBlockVersion params mn s q assume cache =
    Some (version_after mn assume q, cache') /\ caches_ok params s cache'.
Proof.
  intros Hq Hc. apply (version_loop_spec params s Hwf Ht Hp Hn); [done|done| |lia].
  unfold VERSIONBITS_TOP_BITS. lia.
Qed.

(** A block signals a bit that the program would not have set. *)
Definition warning_cond (mn : Z -> bool) (bitIn : Z) (p : nat) : bool :=
  match s !! p with
  | Some b => (nVersion b .& VERSIONBITS_TOP_MASK =? VERSIONBITS_TOP_BITS)
              && Z.testbit (nVersion b) bitIn && negb (Z.testbit (version_after mn true (pprev b)) bitIn)
  | None => false
  end.

Lemma shifted_bit x k : 0 <= k -> ((x >> k) .& 1 =? 0) = negb (Z.testbit x k).
Proof.
  intros Hk. change 1 with (1 << 0). rewrite land_single_bit by lia. rewrite Z.shiftr_spec by lia.
  reflexivity.
Qed.

#[export] Instance warningbits_spec mn bitIn : 0 <= bitIn ->
  0 < Period (WarningBitsConditionChecker params mn bitIn) ->
  CheckerSpec (WarningBitsConditionChecker params mn bitIn) s (warning_cond mn bitIn) (caches_ok params s).
Proof.
  intros Hb HP. split; [exact HP|cbn; lia|]. intros p b cache Hpb Hc.
  cbn [Condition WarningBitsConditionChecker]. unfold warning_cond. rewrite Hpb. cbn [mbind option_bind].
  destruct (_ =? VERSIONBITS_TOP_BITS); [|now exists cache]. rewrite shifted_bit, negb_involutive by done.
  cbn [andb]. destruct (Z.testbit (nVersion b) bitIn); [|now exists cache].
  assert (Hq : is_ptr s (pprev b)).
  { intros r Hr. pose proof (eo_prev _ _ _ (Hwf p b Hpb)) as H. rewrite Hr in H.
    destruct H as (br & H & _). eauto. }
  destruct (ComputeBlockVersion_spec mn true (pprev b) cache Hq Hc) as (c' & -> & Hc').
  cbn [mbind option_bind]. exists c'. split; [|done]. now rewrite shifted_bit.
Qed.
End Versions.

(** ** Properties *)

(** C15. On a well-formed index whose blocks have times greater than the median time of their
    parents, [GetStateFor] ends without a failed assertion or a read through NULL for every
    checker that keeps its interface, returns the state that the recursive definition over
    all periods gives, although it stops at cached blocks and at blocks before the start
    time, and leaves only right states in the cache. *)
Theorem GetStateFor_correct {W} (ck : AbstractThresholdConditionChecker W) s cond inv q cache w :
  CheckerSpec ck s cond inv -> wf_store s -> times_ok s ->
  is_ptr s q -> cache_ok ck s cond cache -> inv w ->
  exists cache' w', GetStateFor ck s q cache w = Some (cache', state_after ck s cond q, w') /\
    cache_ok ck s cond cache' /\ inv w'.
Proof. intros Hck Hwf Ht. exact (GetStateFor_spec ck s cond inv Hwf Ht q cache w). Qed.

(** C37. From a block to a descendant the state only moves along the edges of BIP9, so a
    deployment that is active or failed stays so, whatever the caches of the two calls
    held; and a state that is locked in or active was voted for: the votes of some complete
    period reached the threshold and the median time of its end was before the timeout. *)
Theorem threshold_state_machine {W} (ck : AbstractThresholdConditionChecker W) s cond inv n q
    c1 w1 c2 w2 c1' st1 w1' c2' st2 w2' :
  CheckerSpec ck s cond inv -> wf_store s -> times_ok s ->
  is_ptr s q -> Z.of_nat n <= height_of s q + 1 ->
  cache_ok ck s cond c1 -> inv w1 -> cache_ok ck s cond c2 -> inv w2 ->
  GetStateFor ck s (above s n q) c1 w1 = Some (c1', st1, w1') ->
  GetStateFor ck s q c2 w2 = Some (c2', st2, w2') ->
  rtc allowed st1 st2 /\
  (st1 = THRESHOLD_ACTIVE -> st2 = THRESHOLD_ACTIVE) /\
  (st1 = THRESHOLD_FAILED -> st2 = THRESHOLD_FAILED) /\
  (st2 = THRESHOLD_LOCKED_IN \/ st2 = THRESHOLD_ACTIVE ->
    exists k p, above s k q = Some p /\ median s p < EndTime ck /\
      Threshold ck <= votes s cond (period ck) (Some p)).
Proof.
  intros Hck Hwf Ht Hq Hn Hc1 Hw1 Hc2 Hw2 E1 E2.
  destruct (above_spec s Hwf n q Hq Hn) as [Ha _].
  destruct (GetStateFor_spec ck s cond inv Hwf Ht _ c1 w1 Ha Hc1 Hw1) as (? & ? & E1' & _).
  destruct (GetStateFor_spec ck s cond inv Hwf Ht _ c2 w2 Hq Hc2 Hw2) as (? & ? & E2' & _).
  rewrite E1 in E1'. injection E1' as _ -> _. rewrite E2 in E2'. injection E2' as _ -> _.
  pose proof (state_after_rtc ck s cond inv Hwf n q Hq Hn) as Hr. split; [exact Hr|].
  destruct (allowed_terminal _ _ Hr) as (H1 & H2 & _). split; [exact H1|]. split; [exact H2|].
  intros Hl. destruct (bip9_locked_in ck s cond _ _ Hl) as (k & p & Hk & H).
  unfold period_end in Hk. rewrite above_above in Hk. eauto.
Qed.

(** With sensible deployments [ComputeBlockVersion] does not fail: the version of the next
    block has the top bits 001, and of the others exactly the bits of the deployments that
    are locked in or started (and, for those that ask for it, whose masternode is
    upgraded or assumed to be); the caches stay right. *)
Theorem ComputeBlockVersion_correct params s mn assume q cache :
  wf_store s -> times_ok s -> length (vDeployments params) = MAX_VERSION_BITS_DEPLOYMENTS ->
  (forall pos d, vDeployments params !! pos = Some d -> deployment_ok params d) ->
  is_ptr s q -> caches_ok params s cache ->
  exists v cache', ComputeBlockVersion params mn s q assume cache = Some (v, cache') /\
    caches_ok params s cache' /\ 0 <= v < 2 ^ 30 /\ v .& VERSIONBITS_TOP_MASK = VERSIONBITS_TOP_BITS /\
    forall k, 0 <= k < Z.of_nat VERSIONBITS_NUM_BITS ->
      Z.testbit v k = true <->
      exists pos d, vDeployments params !! pos = Some d /\ bit d = k /\
        signals params s mn assume q pos = true.
Proof.
  intros Hwf Ht Hn Hp Hq Hc.
  destruct (ComputeBlockVersion_spec params s Hwf Ht Hp Hn mn assume q cache Hq Hc) as (c' & E & Hc').
  exists (version_after params s mn assume q), c'. split; [exact E|]. split; [exact Hc'|].
  destruct (version_after_top params s Hp Hn mn assume q) as [H1 H2]. split; [exact H1|]. split; [exact H2|].
  intros k Hk. now apply version_after_bit.
Qed.

(** *** A concrete chain: three periods of four blocks that signal bits 1 and 2 *)

Definition demo_deployments : list BIP9Deployment :=
  [mk_deployment 28 0 100 0 0; mk_deployment 1 1000 9000 4 3; mk_deployment 5 (2 ^ 40) (2 ^ 41) 0 0].
Definition demo_bip9 : BIP9Params := mk_bip9 3 4 demo_deployments.
Definition demo_csv : BIP9Deployment := mk_deployment 1 1000 9000 4 3.
Definition csv_checker : AbstractThresholdConditionChecker unit :=
  VersionBitsConditionChecker demo_bip9 demo_csv.

(** The rule for times, decided. *)
Definition times_okb (s : store) : bool :=
  forallb (fun b => match pprev b with
                    | Some q => match GetMedianTimePast s q with Some m => m <? nTime b | None => true end
                    | None => true
                    end) s.
Lemma times_okb_spec s : times_okb s = true -> times_ok s.
Proof.
  intros H p b q m Hb Hq Hm. unfold times_okb in H. rewrite forallb_forall in H.
  apply list_elem_of_lookup_2, list_elem_of_In, H in Hb. rewrite Hq, Hm in Hb. now apply Z.ltb_lt.
Qed.

Lemma demo_times : times_ok (demo_store 12).
Proof. apply times_okb_spec. by_eval. Qed.
Lemma demo_is_ptr p : (p < 12)%nat -> is_ptr (demo_store 12) (Some p).
Proof. intros Hp r [= <-]. exists (demo_entry p). now apply demo_lookup. Qed.
Lemma demo_deployments_ok pos d : vDeployments demo_bip9 !! pos = Some d -> deployment_ok demo_bip9 d.
Proof.
  intros Hd. do 3 (destruct pos as [|pos]; [injection Hd as <-; split; [split; vm_compute; easy|vm_compute; discriminate|vm_compute; reflexivity]|]).
  discriminate.
Qed.
Lemma demo_csv_spec : CheckerSpec csv_checker (demo_store 12) (vb_cond (demo_store 12) demo_csv) (fun _ => True).
Proof. apply versionbits_spec, (demo_deployments_ok 1). reflexivity. Qed.
Lemma empty_cache_ok {W} (ck : AbstractThresholdConditionChecker W) s cond : cache_ok ck s cond ∅.
Proof. intros q st Hq. now rewrite lookup_empty in Hq. Qed.

Lemma GetStateFor_correct_witness :
  exists cache' w', GetStateFor csv_checker (demo_store 12) (Some 11%nat) ∅ tt =
    Some (cache', THRESHOLD_ACTIVE, w') /\
    cache_ok csv_checker (demo_store 12) (vb_cond (demo_store 12) demo_csv) cache' /\ True.
Proof.
  exact (GetStateFor_correct csv_checker (demo_store 12) (vb_cond (demo_store 12) demo_csv) (fun _ => True)
    (Some 11%nat) ∅ tt demo_csv_spec (demo_wf 12) demo_times (demo_is_ptr 11 ltac:(lia))
    (empty_cache_ok _ _ _) I).
Defined.

Lemma threshold_state_machine_witness :
  (exists c1 c2, GetStateFor csv_checker (demo_store 12) (Some 8%nat) ∅ tt =
      Some (c1, THRESHOLD_LOCKED_IN, tt) /\
    GetStateFor csv_checker (demo_store 12) (Some 11%nat) ∅ tt = Some (c2, THRESHOLD_ACTIVE, tt)) /\
  exists k p, above (demo_store 12) k (Some 11%nat) = Some p /\ median (demo_store 12) p < 9000 /\
    3 <= votes (demo_store 12) (vb_cond (demo_store 12) demo_csv) 4 (Some p).
Proof.
  split; [eexists _, _; split; vm_compute; reflexivity|].
  apply (threshold_state_machine csv_checker (demo_store 12) (vb_cond (demo_store 12) demo_csv)
    (fun _ => True) 3 (Some 11%nat) ∅ tt ∅ tt _ THRESHOLD_LOCKED_IN tt _ THRESHOLD_ACTIVE tt
    demo_csv_spec (demo_wf 12) demo_times (demo_is_ptr 11 ltac:(lia)) ltac:(cbn; lia)
    (empty_cache_ok _ _ _) I (empty_cache_ok _ _ _) I
    ltac:(vm_compute; reflexivity) ltac:(vm_compute; reflexivity)). now right.
Defined.

Lemma ComputeBlockVersion_correct_witness :
  exists v cache', ComputeBlockVersion demo_bip9 (fun _ => false) (demo_store 12) (Some 6%nat) true
      (Clear [∅; ∅; ∅]) = Some (v, cache') /\
    caches_ok demo_bip9 (demo_store 12) cache' /\ 0 <= v < 2 ^ 30 /\
    v .& VERSIONBITS_TOP_MASK = VERSIONBITS_TOP_BITS /\
    forall k, 0 <= k < Z.of_nat VERSIONBITS_NUM_BITS ->
      Z.testbit v k = true <->
      exists pos d, vDeployments demo_bip9 !! pos = Some d /\ bit d = k /\
        signals demo_bip9 (demo_store 12) (fun _ => false) true (Some 6%nat) pos = true.
Proof.
  exact (ComputeBlockVersion_correct demo_bip9 (demo_store 12) (fun _ => false) true (Some 6%nat)
    (Clear [∅; ∅; ∅]) (demo_wf 12) demo_times eq_refl demo_deployments_ok (demo_is_ptr 6 ltac:(lia))
    (caches_ok_clear demo_bip9 (demo_store 12) [∅; ∅; ∅] eq_refl)).
Defined.

Example demo_version :
  fst <$> ComputeBlockVersion demo_bip9 (fun _ => false) (demo_store 12) (Some 6%nat) true [∅; ∅; ∅] =
  Some 0x20000002.
Proof. vm_compute. reflexivity. Qed.
