(* ===== verification/Pow.v ===== *)
(** * Difficulty and proof of work: src/pow.cpp

    The three difficulty rules and their choice by height, the check of a hash against the
    target of its header, and the work of a block.  [None] is a failed assertion, a read
    through NULL, the exception of a division by zero or a division by zero itself. *)

From Corelib Require Import SpecFloat.
From S2P Require Import Prelude Words Arith256 Chain.

(** The fields of [Consensus::Params] that pow.cpp reads. *)
Record Params := mk_params {
  powLimit : list Z;
  fPowAllowMinDifficultyBlocks : bool;
  fPowNoRetargeting : bool;
  nPowTargetSpacing : Z;
  nPowTargetTimespan : Z;
  nPowKGWHeight : Z;
  nPowDGWHeight : Z }.

Definition DifficultyAdjustmentInterval (params : Params) : option Z :=
  if nPowTargetSpacing params =? 0 then None
  else Some (Z.quot (nPowTargetTimespan params) (nPowTargetSpacing params)).

(** The target alone: the flags of [SetCompact] are not asked for. *)
Definition target_of (nCompact : Z) : list Z := (SetCompact nCompact).1.1.

(** ** KimotoGravityWell *)

(** [double]: binary64 arithmetic of the standard library; [pow] of math.h is a parameter. *)
Definition double_of (n : Z) : spec_float := binary_normalize 53 1024 n 0 false.
Definition d_add := SFadd 53 1024.
Definition d_mul := SFmul 53 1024.
Definition d_div := SFdiv 53 1024.
(** The conversion of a non-negative [double] to an integer. *)
Definition trunc_double (f : spec_float) : Z :=
  match f with
  | S754_finite false m e => Z.shiftl (Zpos m) e
  | _ => 0
  end.

Definition d_0_025 : spec_float := S754_finite false 7205759403792794 (-58).
Definition d_0_7084 : spec_float := S754_finite false 6380699952058519 (-53).
Definition d_28_2 : spec_float := S754_finite false 7937594343240499 (-48).
Definition d_m1_228 : spec_float := S754_finite true 5530420342410969 (-52).

Section Source.
Variable pow : spec_float -> spec_float -> spec_float.

(** The variables of the loop. *)
Record kgw_state := mk_kgw {
  PastBlocksMass : Z;
  PastRateActualSeconds : Z;
  PastRateTargetSeconds : Z;
  PastDifficultyAverage : list Z;
  PastDifficultyAveragePrev : list Z }.

(** Lines 39 to 57: the variables after block number [i] is read. *)
Definition kgw_update (params : Params) (BlockLastSolved BlockReading : CBlockIndex) (i : Z)
    (st : kgw_state) : option kgw_state :=
  let mass := u64 (PastBlocksMass st + 1) in
  let prev := PastDifficultyAveragePrev st in
  let avg := target_of (nBits BlockReading) in
  avg ← (if 1 <? i then
           if 0 <=? CompareTo avg prev
           then d ← uint_div (uint_sub avg prev) (of_uint64 i); Some (uint_add d prev)
           else d ← uint_div (uint_sub prev avg) (of_uint64 i); Some (uint_sub prev d)
         else Some avg);
  let actual := GetBlockTime BlockLastSolved - GetBlockTime BlockReading in
  let target := s64 (u64 (nPowTargetSpacing params) * mass) in
  let actual := if actual <? 0 then 0 else actual in
  Some (mk_kgw mass actual target avg avg).

(** Lines 53 to 65: whether the event horizon ends the loop. *)
Definition kgw_horizon (PastBlocksMin : Z) (st : kgw_state) : bool :=
  let ratio :=
    if negb (PastRateActualSeconds st =? 0) && negb (PastRateTargetSeconds st =? 0)
    then d_div (double_of (PastRateTargetSeconds st)) (double_of (PastRateActualSeconds st))
    else double_of 1 in
  let deviation :=
    d_add (double_of 1)
      (d_mul d_0_7084 (pow (d_div (double_of (PastBlocksMass st)) d_28_2) d_m1_228)) in
  let fast := deviation in
  let slow := d_div (double_of 1) deviation in
  (PastBlocksMin <=? PastBlocksMass st) && (SFleb ratio slow || SFleb fast ratio).

Fixpoint kgw_loop (fuel : nat) (s : store) (params : Params) (PastBlocksMin PastBlocksMax : Z)
    (BlockLastSolved : CBlockIndex) (BlockReading : nat) (i : Z) (st : kgw_state)
    : option kgw_state :=
  b ← s !! BlockReading;
  if negb (0 <? nHeight b) then Some st
  else if (0 <? PastBlocksMax) && (PastBlocksMax <? i) then Some st
  else
    st ← kgw_update params BlockLastSolved b i st;
    if kgw_horizon PastBlocksMin st then Some st
    else
      match pprev b, fuel with
      | None, _ => Some st
      | Some _, O => None
      | Some p, S fuel =>
          kgw_loop fuel s params PastBlocksMin PastBlocksMax BlockLastSolved p (u32 (i + 1)) st
      end.

Definition KimotoGravityWell (s : store) (pindexLast : ptr) (params : Params) : option Z :=
  let limit := UintToArith256 (powLimit params) in
  let pastSecondsMin := trunc_double (d_mul (double_of (nPowTargetTimespan params)) d_0_025) in
  let pastSecondsMax := u64 (nPowTargetTimespan params * 7) in
  if nPowTargetSpacing params =? 0 then None
  else
    let PastBlocksMin := pastSecondsMin / u64 (nPowTargetSpacing params) in
    let PastBlocksMax := pastSecondsMax / u64 (nPowTargetSpacing params) in
    match pindexLast with
    | None => GetCompact limit false
    | Some last =>
        b ← s !! last;
        if (nHeight b =? 0) || (u64 (nHeight b) <? PastBlocksMin) then GetCompact limit false
        else
          st ← kgw_loop (Z.to_nat (nHeight b)) s params PastBlocksMin PastBlocksMax b last 1
                 (mk_kgw 0 0 0 uint_zero uint_zero);
          let bnNew := PastDifficultyAverage st in
          bnNew ←
            (if negb (PastRateActualSeconds st =? 0) && negb (PastRateTargetSeconds st =? 0)
             then uint_div (uint_mul32 bnNew (u32 (PastRateActualSeconds st)))
                    (of_uint64 (u64 (PastRateTargetSeconds st)))
             else Some bnNew);
          let bnNew := if 0 <? CompareTo bnNew limit then limit else bnNew in
          GetCompact bnNew false
    end.

(** ** DarkGravityWave *)

Definition nPastBlocks : Z := 24.

(** The loop with [left] iterations after the one for [nCountBlocks]. *)
Fixpoint dgw_loop (left_ : nat) (s : store) (nCountBlocks : Z) (pindex : nat)
    (bnPastTargetAvg : list Z) : option (nat * list Z) :=
  b ← s !! pindex;
  let bnTarget := target_of (nBits b) in
  avg ← (if nCountBlocks =? 1 then Some bnTarget
         else uint_div (uint_add (uint_mul32 bnPastTargetAvg nCountBlocks) bnTarget)
                (of_uint64 (nCountBlocks + 1)));
  match left_ with
  | O => Some (pindex, avg)
  | S left_ => p ← pprev b; dgw_loop left_ s (nCountBlocks + 1) p avg
  end.

Definition clamp (lo hi x : Z) : Z :=
  let x := if x <? lo then lo else x in if hi <? x then hi else x.

Definition DarkGravityWave (s : store) (pindexLast : ptr) (params : Params) : option Z :=
  let bnPowLimit := UintToArith256 (powLimit params) in
  match pindexLast with
  | None => GetCompact bnPowLimit false
  | Some last =>
      b ← s !! last;
      if nHeight b <? nPastBlocks then GetCompact bnPowLimit false
      else
        '(pindex, bnNew) ← dgw_loop 23 s 1 last uint_zero;
        first ← s !! pindex;
        let nActualTimespan := GetBlockTime b - GetBlockTime first in
        let nTargetTimespan := nPastBlocks * nPowTargetSpacing params in
        let nActualTimespan :=
          clamp (Z.quot nTargetTimespan 3) (nTargetTimespan * 3) nActualTimespan in
        bnNew ← uint_div (uint_mul32 bnNew (u32 nActualTimespan)) (of_uint64 (u64 nTargetTimespan));
        let bnNew := if 0 <? CompareTo bnNew bnPowLimit then bnPowLimit else bnNew in
        GetCompact bnNew false
  end.

(** ** The rule of Bitcoin *)

Definition CalculateNextWorkRequired (last : CBlockIndex) (nFirstBlockTime : Z)
    (params : Params) : option Z :=
  if fPowNoRetargeting params then Some (nBits last)
  else
    let nActualTimespan := GetBlockTime last - nFirstBlockTime in
    let nActualTimespan := clamp (Z.quot (nPowTargetTimespan params) 4)
                             (nPowTargetTimespan params * 4) nActualTimespan in
    let bnPowLimit := UintToArith256 (powLimit params) in
    bnNew ← uint_div (uint_mul32 (target_of (nBits last)) (u32 nActualTimespan))
              (of_uint64 (u64 (nPowTargetTimespan params)));
    let bnNew := if 0 <? CompareTo bnNew bnPowLimit then bnPowLimit else bnNew in
    GetCompact bnNew false.

(** [while (pindex->pprev && ... && pindex->nBits == nProofOfWorkLimit)] *)
Fixpoint last_normal_block (fuel : nat) (s : store) (interval limit : Z) (pindex : nat)
    : option Z :=
  b ← s !! pindex;
  match pprev b with
  | Some p =>
      if negb (Z.rem (nHeight b) interval =? 0) && (nBits b =? limit) then
        match fuel with O => None | S fuel => last_normal_block fuel s interval limit p end
      else Some (nBits b)
  | None => Some (nBits b)
  end.

Definition GetNextWorkRequiredBTC (s : store) (pindexLast : ptr) (blockTime : Z)
    (params : Params) : option Z :=
  nProofOfWorkLimit ← GetCompact (UintToArith256 (powLimit params)) false;
  match pindexLast with
  | None => Some nProofOfWorkLimit
  | Some last =>
      b ← s !! last;
      interval ← DifficultyAdjustmentInterval params;
      if interval =? 0 then None
      else if negb (Z.rem (nHeight b + 1) interval =? 0) then
        if fPowAllowMinDifficultyBlocks params then
          if GetBlockTime b + nPowTargetSpacing params * 2 <? blockTime then Some nProofOfWorkLimit
          else last_normal_block (Z.to_nat (nHeight b)) s interval nProofOfWorkLimit last
        else Some (nBits b)
      else
        let nHeightFirst := nHeight b - (interval - 1) in
        if nHeightFirst <? 0 then None
        else
          q ← GetAncestor s last nHeightFirst;
          q ← q;
          first ← s !! q;
          CalculateNextWorkRequired b (GetBlockTime first) params
  end.

Definition GetNextWorkRequired (s : store) (pindexLast : ptr) (blockTime : Z) (params : Params)
    : option Z :=
  last ← pindexLast;
  b ← s !! last;
  if nPowDGWHeight params <=? nHeight b + 1 then DarkGravityWave s pindexLast params
  else if nPowKGWHeight params <=? nHeight b + 1 then KimotoGravityWell s pindexLast params
  else GetNextWorkRequiredBTC s pindexLast blockTime params.
End Source.

(** ** Work *)

Definition CheckProofOfWork (hash : list Z) (nBits : Z) (params : Params) : bool :=
  let '(bnTarget, fNegative, fOverflow) := SetCompact nBits in
  if fNegative || EqualTo bnTarget 0 || fOverflow ||
     (0 <? CompareTo bnTarget (UintToArith256 (powLimit params))) then false
  else if 0 <? CompareTo (UintToArith256 hash) bnTarget then false
  else true.

Definition GetBlockProof (nBits : Z) : option (list Z) :=
  let '(bnTarget, fNegative, fOverflow) := SetCompact nBits in
  if fNegative || fOverflow || EqualTo bnTarget 0 then Some (of_uint64 0)
  else
    q ← uint_div (uint_not bnTarget) (uint_add bnTarget (of_uint64 1));
    Some (uint_add q (of_uint64 1)).

Definition GetBlockProofEquivalentTime (to from tip : CBlockIndex) (params : Params) : option Z :=
  let '(r, sign) :=
    if 0 <? CompareTo (nChainWork to) (nChainWork from)
    then (uint_sub (nChainWork to) (nChainWork from), 1)
    else (uint_sub (nChainWork from) (nChainWork to), -1) in
  proof ← GetBlockProof (nBits tip);
  r ← uint_div (uint_mul r (of_uint64 (u64 (nPowTargetSpacing params)))) proof;
  if 63 <? uint_bits r then Some (sign * (2 ^ 63 - 1)) else Some (s64 (u64 sign * GetLow64 r)).

(** ** Lemmas *)

Lemma target_of_spec c : in_word 32 c ->
  num (target_of c) /\ value (target_of c) = compact_target c mod 2 ^ 256.
Proof.
  intros Hc. unfold target_of. pose proof (SetCompact_spec c Hc) as H.
  destruct (SetCompact c) as [[a n] o]. cbn [fst]. tauto.
Qed.

Lemma compact_target_nonneg c : 0 <= c -> 0 <= compact_target c.
Proof.
  intros Hc. unfold compact_target. pose proof (Z.mod_pos_bound c (2 ^ 23) ltac:(lia)).
  destruct (c / 2 ^ 24 <=? 3) eqn:E.
  - apply Z.leb_le in E. apply Z.div_pos; [lia|]. apply Z.pow_pos_nonneg; lia.
  - apply Z.mul_nonneg_nonneg; [lia|]. apply Z.pow_nonneg. lia.
Qed.

Record params_ok (params : Params) : Prop := {
  po_limit : bytes (powLimit params) /\ length (powLimit params) = 32%nat;
  po_spacing : 0 < nPowTargetSpacing params <= nPowTargetTimespan params;
  po_timespan : nPowTargetTimespan params * 4 < 2 ^ 32;
  po_dgw : nPowTargetSpacing params * 72 < 2 ^ 32 }.

(** The easiest target. *)
Definition limit_value (params : Params) : Z := le_combine (powLimit params).

Section Limits.
Context (params : Params) (Hp : params_ok params).

Lemma limit_num : num (UintToArith256 (powLimit params)) /\
  value (UintToArith256 (powLimit params)) = limit_value params.
Proof. destruct (po_limit _ Hp). now apply UintToArith256_spec. Qed.

Lemma limit_range : 0 <= limit_value params < 2 ^ 256.
Proof. destruct limit_num as [H <-]. now apply num_range. Qed.

(** The end of every rule: the new target, no easier than the limit, in compact form. *)
Lemma limited_compact a : num a ->
  let limit := UintToArith256 (powLimit params) in
  GetCompact (if 0 <? CompareTo a limit then limit else a) false =
  Some (compact_of (Z.min (value a) (limit_value params)) false).
Proof.
  intros Ha limit. destruct limit_num as [Hl El]. fold limit in Hl, El.
  rewrite uint_gt_spec, El by done.
  destruct (Z.ltb_spec (limit_value params) (value a)) as [H|H].
  - destruct (GetCompact_spec limit false Hl) as [-> _]. rewrite El. do 2 f_equal. lia.
  - destruct (GetCompact_spec a false Ha) as [-> _]. do 2 f_equal. lia.
Qed.

Lemma limit_compact : GetCompact (UintToArith256 (powLimit params)) false =
  Some (compact_of (limit_value params) false).
Proof. destruct limit_num as [Hl <-]. now destruct (GetCompact_spec _ false Hl). Qed.

(** A difficulty that is in range and no easier than the limit. *)
Definition difficulty_ok (c : Z) : Prop := in_word 32 c /\ compact_target c <= limit_value params.

Lemma compact_of_ok v : 0 <= v <= limit_value params -> difficulty_ok (compact_of v false).
Proof.
  intros Hv. pose proof limit_range as HL. assert (Hr : 0 <= v < 2 ^ 256) by lia. split.
  - destruct (norm_bounds v Hr) as (Hm & Hs & _). unfold compact_of, in_word. cbn [andb]. lia.
  - rewrite compact_target_of by done. destruct (truncated_bounds v Hr). lia.
Qed.

Lemma limited_ok a : num a -> exists c,
  GetCompact (if 0 <? CompareTo a (UintToArith256 (powLimit params))
    then UintToArith256 (powLimit params) else a) false = Some c /\ difficulty_ok c.
Proof.
  intros Ha. rewrite limited_compact by done. eexists. split; [done|].
  pose proof limit_range. pose proof (num_range a Ha). apply compact_of_ok. lia.
Qed.

Lemma limit_ok : exists c,
  GetCompact (UintToArith256 (powLimit params)) false = Some c /\ difficulty_ok c.
Proof.
  rewrite limit_compact. eexists. split; [done|]. apply compact_of_ok. pose proof limit_range. lia.
Qed.

Lemma div_num a b : num a -> in_word 64 b -> b <> 0 ->
  exists q, uint_div a (of_uint64 b) = Some q /\ num q /\ value q = value a / b.
Proof.
  intros Ha Hb H0. destruct (of_uint64_spec b Hb) as [H1 H2].
  pose proof (uint_div_spec a (of_uint64 b) Ha H1) as H. rewrite H2 in H.
  now destruct (Z.eqb_spec b 0).
Qed.

Lemma clamp_bounds lo hi x : lo <= hi -> lo <= clamp lo hi x <= hi.
Proof.
  intros H. unfold clamp. destruct (Z.ltb_spec x lo);
    [destruct (Z.ltb_spec hi lo)|destruct (Z.ltb_spec hi x)]; lia.
Qed.

(** *** DarkGravityWave *)

(** Block [p] and the [n] blocks before it, the latest first. *)
Fixpoint ancestors (s : store) (n : nat) (p : nat) : option (list CBlockIndex) :=
  b ← s !! p;
  match n with
  | O => Some [b]
  | S n => q ← pprev b; bs ← ancestors s n q; Some (b :: bs)
  end.

(** The weighted average of targets, the latest first. *)
Fixpoint dgw_average (n avg : Z) (targets : list Z) : Z :=
  match targets with
  | [] => avg
  | t :: ts => dgw_average (n + 1) (if n =? 1 then t else (avg * n + t) / (n + 1)) ts
  end.

Definition easy_enough (b : CBlockIndex) : Prop := difficulty_ok (nBits b).

Lemma dgw_step n avg c : 25 * limit_value params < 2 ^ 256 ->
  1 <= n <= 24 -> num avg -> value avg <= limit_value params -> difficulty_ok c ->
  exists a, (if n =? 1 then Some (target_of c)
    else uint_div (uint_add (uint_mul32 avg n) (target_of c)) (of_uint64 (n + 1))) = Some a /\
  num a /\ value a <= limit_value params /\
  value a = (if n =? 1 then compact_target c else (value avg * n + compact_target c) / (n + 1)).
Proof.
  intros H25 Hn Ha HaL [Hc HcL]. pose proof (compact_target_nonneg c (proj1 Hc)) as H0.
  destruct (target_of_spec c Hc) as [Ht Et]. pose proof limit_range as HL.
  rewrite Z.mod_small in Et by lia. destruct (Z.eqb_spec n 1) as [->|Hn1].
  - exists (target_of c). repeat split; try apply Ht; lia.
  - pose proof (num_range avg Ha) as HR.
    destruct (uint_mul32_spec avg n Ha ltac:(unfold in_word; lia)) as [Hm Em].
    rewrite Z.mod_small in Em by nia.
    destruct (uint_add_spec _ _ Hm Ht) as [Hs Es]. rewrite Em, Et, Z.mod_small in Es by nia.
    destruct (div_num _ (n + 1) Hs ltac:(unfold in_word; lia) ltac:(lia)) as (q & Eq & Hq & Vq).
    exists q. split; [done|]. split; [done|]. rewrite Vq, Es. split; [|done].
    apply Z.div_le_upper_bound; nia.
Qed.

Lemma dgw_loop_spec s k n p avg bs : 25 * limit_value params < 2 ^ 256 ->
  1 <= n -> n + Z.of_nat k <= 24 -> num avg -> value avg <= limit_value params ->
  ancestors s k p = Some bs -> Forall easy_enough bs ->
  exists q a b, dgw_loop k s n p avg = Some (q, a) /\ num a /\ value a <= limit_value params /\
  value a = dgw_average n (value avg) ((fun b => compact_target (nBits b)) <$> bs) /\
  s !! q = Some b /\ list.last bs = Some b.
Proof.
  intros H25. revert n p avg bs. induction k as [|k IH]; intros n p avg bs Hn Hk Ha HaL Hbs Hall;
    cbn [ancestors] in Hbs; destruct (s !! p) as [b|] eqn:Eb; try discriminate;
    cbn [mbind option_bind] in Hbs; cbn [dgw_loop]; rewrite Eb; cbn [mbind option_bind].
  - injection Hbs as <-. apply Forall_inv in Hall.
    destruct (dgw_step n avg (nBits b) H25 ltac:(lia) Ha HaL Hall) as (a & -> & H1 & H2 & H3).
    cbn [mbind option_bind]. exists p, a, b. repeat split; try done; apply H1.
  - destruct (pprev b) as [q|]; [|discriminate]. cbn [mbind option_bind] in Hbs.
    destruct (ancestors s k q) as [bs'|] eqn:Ebs; [|discriminate].
    cbn [mbind option_bind] in Hbs. injection Hbs as <-. apply Forall_cons_iff in Hall as [Hb Hall].
    destruct (dgw_step n avg (nBits b) H25 ltac:(lia) Ha HaL Hb) as (a & -> & H1 & H2 & H3).
    cbn [mbind option_bind].
    destruct (IH (n + 1) q a bs' ltac:(lia) ltac:(lia) H1 H2 Ebs Hall) as (r & a' & b' & E & Ha' & HL' & Hv & Hs & Hl).
    exists r, a', b'. split; [exact E|]. split; [done|]. split; [done|]. split; [|split; [done|]].
    + rewrite Hv, H3. reflexivity.
    + destruct bs'; [discriminate Hl|exact Hl].
Qed.

Lemma ancestors_wf s n p b : wf_store s -> s !! p = Some b -> Z.of_nat n <= nHeight b ->
  exists bs first, ancestors s n p = Some bs /\ list.last bs = Some first.
Proof.
  intros Hwf. revert p b. induction n as [|n IH]; intros p b Hb Hn;
    cbn [ancestors]; rewrite Hb; cbn [mbind option_bind]; [now exists [b], b|].
  pose proof (eo_prev _ _ _ (Hwf p b Hb)) as Hprev. rewrite Nat2Z.inj_succ in Hn.
  destruct (pprev b) as [q|]; [|lia]. destruct Hprev as (bq & Hq & Eh). cbn [mbind option_bind].
  destruct (IH q bq Hq ltac:(lia)) as (bs & first & -> & Hl). cbn [mbind option_bind].
  exists (b :: bs), first. split; [done|]. destruct bs; [discriminate Hl|exact Hl].
Qed.

Definition dgw_timespan (first last : CBlockIndex) : Z :=
  let T := 24 * nPowTargetSpacing params in clamp (T / 3) (T * 3) (GetBlockTime last - GetBlockTime first).

Lemma DarkGravityWave_spec s last b bs first : s !! last = Some b -> 24 <= nHeight b ->
  ancestors s 23 last = Some bs -> Forall easy_enough bs -> list.last bs = Some first ->
  25 * limit_value params < 2 ^ 256 ->
  limit_value params * (72 * nPowTargetSpacing params) < 2 ^ 256 ->
  DarkGravityWave s (Some last) params =
  Some (compact_of (Z.min
    (dgw_average 1 0 ((fun b => compact_target (nBits b)) <$> bs) * dgw_timespan first b
     / (24 * nPowTargetSpacing params)) (limit_value params)) false).
Proof.
  intros Hb Hh Hbs Hall Hfirst H25 H72. pose proof limit_range as HL.
  destruct (dgw_loop_spec s 23 1 last uint_zero bs H25 ltac:(lia) ltac:(lia) num_zeros) as
    (q & a & b' & E & Ha & HaL & Va & Hq & Hl); [rewrite uint_zero_eq, value_zeros; lia|done|done|].
  rewrite Hfirst in Hl. injection Hl as <-.
  unfold DarkGravityWave. rewrite Hb. cbn [mbind option_bind].
  destruct (Z.ltb_spec (nHeight b) nPastBlocks); [unfold nPastBlocks in *; lia|].
  rewrite E. cbn [mbind option_bind]. rewrite Hq. cbn [mbind option_bind]. unfold nPastBlocks.
  pose proof (po_spacing _ Hp) as HS. pose proof (po_dgw _ Hp) as HD.
  rewrite Z.quot_div_nonneg by lia. fold (dgw_timespan first b).
  assert (Hspan : 0 <= dgw_timespan first b <= 72 * nPowTargetSpacing params).
  { unfold dgw_timespan. set (T := 24 * nPowTargetSpacing params).
    pose proof (Z.div_pos T 3 ltac:(lia) ltac:(lia)).
    assert (T / 3 <= T * 3) by (apply Z.div_le_upper_bound; lia).
    pose proof (clamp_bounds (T / 3) (T * 3) (GetBlockTime b - GetBlockTime first)). lia. }
  rewrite u32_small by (unfold in_word; lia). rewrite u64_small by (unfold in_word; lia).
  destruct (uint_mul32_spec a (dgw_timespan first b) Ha ltac:(unfold in_word; lia)) as [Hm Em].
  pose proof (num_range a Ha). rewrite Z.mod_small in Em by nia.
  destruct (div_num _ (24 * nPowTargetSpacing params) Hm ltac:(unfold in_word; lia) ltac:(lia))
    as (r & -> & Hr & Vr).
  cbn [mbind option_bind]. rewrite limited_compact by done. rewrite Vr, Em, Va.
  rewrite uint_zero_eq, value_zeros. reflexivity.
Qed.

(** *** Every rule gives a difficulty *)

Definition fields_ok (s : store) : Prop :=
  forall i b, s !! i = Some b -> in_word 32 (nBits b) /\ in_word 32 (nTime b).

Lemma u64_s64_nonzero x : s64 x <> 0 -> u64 (s64 x) <> 0.
Proof.
  unfold s64. pose proof (in_word_u64 x) as H. unfold in_word in H.
  destruct (Z.ltb_spec (u64 x) (2 ^ 63)) as [Hx|Hx]; intros Hnz.
  - now rewrite u64_small.
  - rewrite u64_wrap, wrap_mod by lia. replace (u64 x - 2 ^ 64) with (u64 x + (-1) * 2 ^ 64) by lia.
    rewrite Z_mod_plus_full, Z.mod_small by lia. lia.
Qed.

Section Rules.
Context (s : store) (Hwf : wf_store s) (Hf : fields_ok s).

Lemma target_num p b : s !! p = Some b -> num (target_of (nBits b)).
Proof. intros Hb. apply target_of_spec, (Hf p b Hb). Qed.

Lemma dgw_loop_total k n p b avg : s !! p = Some b -> Z.of_nat k <= nHeight b ->
  1 <= n -> n + Z.of_nat k <= 24 -> num avg ->
  exists q bq a, dgw_loop k s n p avg = Some (q, a) /\ s !! q = Some bq /\ num a.
Proof.
  revert n p b avg. induction k as [|k IH]; intros n p b avg Hb Hk Hn Hk' Ha;
    pose proof (target_num p b Hb) as Ht; cbn [dgw_loop]; rewrite Hb; cbn [mbind option_bind].
  all: assert (Hstep : exists a, (if n =? 1 then Some (target_of (nBits b))
      else uint_div (uint_add (uint_mul32 avg n) (target_of (nBits b))) (of_uint64 (n + 1))) = Some a /\ num a)
    by (destruct (n =? 1); [eauto|];
        destruct (uint_mul32_spec avg n Ha ltac:(unfold in_word; lia)) as [Hm _];
        destruct (uint_add_spec _ _ Hm Ht) as [Hs _];
        destruct (div_num _ (n + 1) Hs ltac:(unfold in_word; lia) ltac:(lia)) as (q & -> & Hq & _); eauto).
  all: destruct Hstep as (a & -> & Hna); cbn [mbind option_bind].
  1: eauto 6.
  pose proof (eo_prev _ _ _ (Hwf p b Hb)) as Hprev. rewrite Nat2Z.inj_succ in *.
  destruct (pprev b) as [q|]; [|lia]. destruct Hprev as (bq & Hq & Eh). cbn [mbind option_bind].
  apply (IH (n + 1) q bq a Hq); lia || done.
Qed.

Lemma DarkGravityWave_total last b : s !! last = Some b ->
  exists c, DarkGravityWave s (Some last) params = Some c /\ difficulty_ok c.
Proof.
  intros Hb. unfold DarkGravityWave. rewrite Hb. cbn [mbind option_bind].
  destruct (Z.ltb_spec (nHeight b) nPastBlocks) as [|Hh]; [apply limit_ok|]. unfold nPastBlocks in *.
  destruct (dgw_loop_total 23 1 last b uint_zero Hb ltac:(lia) ltac:(lia) ltac:(lia) num_zeros)
    as (q & bq & a & -> & Hq & Ha).
  cbn [mbind option_bind]. rewrite Hq. cbn [mbind option_bind].
  pose proof (po_spacing _ Hp) as HS. pose proof (po_dgw _ Hp) as HD.
  rewrite (u64_small (24 * _)) by (unfold in_word; lia).
  destruct (uint_mul32_spec a (u32 (clamp (Z.quot (24 * nPowTargetSpacing params) 3)
    (24 * nPowTargetSpacing params * 3) (GetBlockTime b - GetBlockTime bq))) Ha (in_word_u32 _)) as [Hm _].
  destruct (div_num _ (24 * nPowTargetSpacing params) Hm ltac:(unfold in_word; lia) ltac:(lia))
    as (r & -> & Hr & _).
  cbn [mbind option_bind]. now apply limited_ok.
Qed.

(** The invariant of the loop of KimotoGravityWell. *)
Definition kgw_ok (st : kgw_state) : Prop :=
  num (PastDifficultyAverage st) /\ num (PastDifficultyAveragePrev st) /\
  exists x, PastRateTargetSeconds st = s64 x.

Lemma kgw_update_ok first p b i st : s !! p = Some b -> in_word 32 i -> kgw_ok st ->
  exists st', kgw_update params first b i st = Some st' /\ kgw_ok st'.
Proof.
  intros Hb Hi (H1 & H2 & H3). unfold kgw_update. pose proof (target_num p b Hb) as Ht.
  set (prev := PastDifficultyAveragePrev st) in *. set (t := target_of (nBits b)) in *.
  assert (Hd : exists a, (if 1 <? i then
      if 0 <=? CompareTo t prev
      then d ← uint_div (uint_sub t prev) (of_uint64 i); Some (uint_add d prev)
      else d ← uint_div (uint_sub prev t) (of_uint64 i); Some (uint_sub prev d)
    else Some t) = Some a /\ num a).
  { unfold in_word in Hi. destruct (Z.ltb_spec 1 i); [|eauto].
    destruct (0 <=? CompareTo t prev).
    - destruct (div_num (uint_sub t prev) i) as (d & -> & Hd & _);
        [now apply uint_sub_spec|unfold in_word; lia|lia|]. eexists. split; [done|]. now apply uint_add_spec.
    - destruct (div_num (uint_sub prev t) i) as (d & -> & Hd & _);
        [now apply uint_sub_spec|unfold in_word; lia|lia|]. eexists. split; [done|]. now apply uint_sub_spec. }
  destruct Hd as (a & -> & Ha). cbn [mbind option_bind]. eexists. split; [done|]. split; [done|].
  split; [done|]. eexists. reflexivity.
Qed.

Lemma kgw_loop_total pow fuel minb maxb first p b i st : s !! p = Some b ->
  nHeight b <= Z.of_nat fuel -> in_word 32 i -> kgw_ok st ->
  exists st', kgw_loop pow fuel s params minb maxb first p i st = Some st' /\ kgw_ok st'.
Proof.
  revert p b i st. induction fuel as [|fuel IH]; intros p b i st Hb Hh Hi Hst;
    pose proof (Hwf p b Hb) as [Hnn Hprev _]; cbn [kgw_loop]; rewrite Hb; cbn [mbind option_bind].
  all: destruct (Z.ltb_spec 0 (nHeight b)) as [Hpos|]; cbn [negb]; [|eauto].
  - lia.
  - destruct ((0 <? maxb) && (maxb <? i)); [eauto|].
    destruct (kgw_update_ok first p b i st Hb Hi Hst) as (st' & -> & Hst'). cbn [mbind option_bind].
    destruct (kgw_horizon pow minb st'); [eauto|].
    destruct (pprev b) as [q|]; [|eauto]. destruct Hprev as (bq & Hq & Eh).
    apply (IH q bq); [done|lia|apply in_word_u32|done].
Qed.

Lemma KimotoGravityWell_total pow last b : s !! last = Some b ->
  exists c, KimotoGravityWell pow s (Some last) params = Some c /\ difficulty_ok c.
Proof.
  intros Hb. unfold KimotoGravityWell. pose proof (po_spacing _ Hp) as HS.
  destruct (Z.eqb_spec (nPowTargetSpacing params) 0); [lia|]. rewrite Hb. cbn [mbind option_bind].
  destruct ((nHeight b =? 0) || (_ <? _)); [apply limit_ok|].
  destruct (kgw_loop_total pow (Z.to_nat (nHeight b))
    (trunc_double (d_mul (double_of (nPowTargetTimespan params)) d_0_025) / u64 (nPowTargetSpacing params))
    (u64 (nPowTargetTimespan params * 7) / u64 (nPowTargetSpacing params)) b last b 1
    (mk_kgw 0 0 0 uint_zero uint_zero) Hb) as (st & -> & Ha & _ & x & Hx);
    [pose proof (eo_height _ _ _ (Hwf last b Hb)); lia|by_eval| |].
  { split; [exact num_zeros|]. split; [exact num_zeros|]. now exists 0. }
  cbn [mbind option_bind].
  assert (Hq : exists q, (if negb (PastRateActualSeconds st =? 0) && negb (PastRateTargetSeconds st =? 0)
      then uint_div (uint_mul32 (PastDifficultyAverage st) (u32 (PastRateActualSeconds st)))
             (of_uint64 (u64 (PastRateTargetSeconds st)))
      else Some (PastDifficultyAverage st)) = Some q /\ num q).
  { destruct (negb (PastRateActualSeconds st =? 0)); [|eauto].
    destruct (Z.eqb_spec (PastRateTargetSeconds st) 0) as [|H0]; [eauto|]. cbn [negb andb].
    destruct (div_num (uint_mul32 (PastDifficultyAverage st) (u32 (PastRateActualSeconds st)))
      (u64 (PastRateTargetSeconds st))) as (q & -> & Hq & _); [|apply in_word_u64| |eauto].
    - apply uint_mul32_spec; [done|apply in_word_u32].
    - rewrite Hx in *. now apply u64_s64_nonzero. }
  destruct Hq as (q & -> & Hq). cbn [mbind option_bind]. now apply limited_ok.
Qed.

(** A difficulty that an ancestor has. *)
Definition inherited (last : nat) (c : Z) : Prop :=
  exists n q bq, up s n last = Some q /\ s !! q = Some bq /\ c = nBits bq.

Lemma last_normal_block_total fuel interval limit p b : s !! p = Some b ->
  nHeight b <= Z.of_nat fuel ->
  exists c, last_normal_block fuel s interval limit p = Some c /\ inherited p c.
Proof.
  revert p b. induction fuel as [|fuel IH]; intros p b Hb Hh;
    pose proof (Hwf p b Hb) as [Hnn Hprev _]; cbn [last_normal_block]; rewrite Hb; cbn [mbind option_bind];
    assert (Hself : inherited p (nBits b)) by (exists 0%nat, p, b; done);
    destruct (pprev b) as [q|] eqn:Eq; try (now eauto); destruct Hprev as (bq & Hq & Eh).
  - pose proof (eo_height _ _ _ (Hwf q bq Hq)). lia.
  - destruct (negb (Z.rem (nHeight b) interval =? 0) && (nBits b =? limit)); [|eauto].
    destruct (IH q bq Hq ltac:(lia)) as (c & -> & n & r & br & H1 & H2 & H3). exists c. split; [done|].
    exists (S n), r, br. split; [|done]. cbn [up]. rewrite Hb. cbn [mbind option_bind]. now rewrite Eq.
Qed.

Lemma CalculateNextWorkRequired_total last b t : s !! last = Some b ->
  exists c, CalculateNextWorkRequired b t params = Some c /\ (difficulty_ok c \/ c = nBits b).
Proof.
  intros Hb. unfold CalculateNextWorkRequired. destruct (fPowNoRetargeting params); [eauto|].
  pose proof (po_spacing _ Hp). pose proof (po_timespan _ Hp).
  rewrite (u64_small (nPowTargetTimespan params)) by (unfold in_word; lia).
  set (span := u32 _).
  destruct (uint_mul32_spec (target_of (nBits b)) span (target_num last b Hb) (in_word_u32 _)) as [Hm _].
  destruct (div_num _ (nPowTargetTimespan params) Hm ltac:(unfold in_word; lia) ltac:(lia))
    as (r & -> & Hr & _).
  cbn [mbind option_bind]. destruct (limited_ok r Hr) as (c & -> & Hc). eauto.
Qed.

Lemma GetNextWorkRequiredBTC_total last b t : s !! last = Some b ->
  exists c, GetNextWorkRequiredBTC s (Some last) t params = Some c /\
    (difficulty_ok c \/ inherited last c).
Proof.
  intros Hb. unfold GetNextWorkRequiredBTC. destruct limit_ok as (cl & -> & Hcl).
  cbn [mbind option_bind]. rewrite Hb. cbn [mbind option_bind].
  pose proof (po_spacing _ Hp) as HS. pose proof (eo_height _ _ _ (Hwf last b Hb)) as Hh.
  assert (Hself : inherited last (nBits b)) by (exists 0%nat, last, b; done).
  unfold DifficultyAdjustmentInterval. destruct (Z.eqb_spec (nPowTargetSpacing params) 0); [lia|].
  cbn [mbind option_bind]. rewrite Z.quot_div_nonneg by lia.
  set (interval := nPowTargetTimespan params / nPowTargetSpacing params).
  assert (Hi : 1 <= interval) by (apply Z.div_le_lower_bound; lia).
  destruct (Z.eqb_spec interval 0); [lia|]. rewrite Z.rem_mod_nonneg by lia.
  destruct (Z.eqb_spec ((nHeight b + 1) mod interval) 0) as [E|E]; cbn [negb].
  - apply Z.mod_divide in E as [k Ek]; [|lia].
    assert (Hk : 1 <= k) by nia. assert (interval <= nHeight b + 1) by nia.
    destruct (Z.ltb_spec (nHeight b - (interval - 1)) 0); [lia|].
    rewrite (GetAncestor_spec s Hwf last b) by done.
    destruct (Z.ltb_spec (nHeight b - (interval - 1)) 0); [lia|].
    destruct (Z.ltb_spec (nHeight b) (nHeight b - (interval - 1))); [lia|]. cbn [orb mbind option_bind].
    destruct (up_height s Hwf (Z.to_nat (nHeight b - (nHeight b - (interval - 1)))) last b Hb ltac:(lia))
      as (q & bq & -> & Hq & _).
    cbn [mbind option_bind]. rewrite Hq. cbn [mbind option_bind].
    destruct (CalculateNextWorkRequired_total last b (GetBlockTime bq) Hb) as (c & -> & Hc).
    exists c. split; [done|]. destruct Hc as [Hc| ->]; [now left|now right].
  - destruct (fPowAllowMinDifficultyBlocks params); [|eauto].
    destruct (GetBlockTime b + nPowTargetSpacing params * 2 <? t); [eauto|].
    destruct (last_normal_block_total (Z.to_nat (nHeight b)) interval cl last b Hb ltac:(lia)) as (c & -> & Hc).
    eauto.
Qed.
End Rules.
End Limits.

Lemma next_work_total pow s params last b blockTime :
  wf_store s -> fields_ok s -> params_ok params -> s !! last = Some b ->
  exists c, GetNextWorkRequired pow s (Some last) blockTime params = Some c /\
    (difficulty_ok params c \/ inherited s last c).
Proof.
  intros Hwf Hf Hp Hb. unfold GetNextWorkRequired. cbn [mbind option_bind]. rewrite Hb.
  cbn [mbind option_bind].
  destruct (nPowDGWHeight params <=? nHeight b + 1);
    [|destruct (nPowKGWHeight params <=? nHeight b + 1)].
  - destruct (DarkGravityWave_total params Hp s Hwf Hf last b Hb) as (c & -> & Hc). eauto.
  - destruct (KimotoGravityWell_total params Hp s Hwf Hf pow last b Hb) as (c & -> & Hc). eauto.
  - exact (GetNextWorkRequiredBTC_total params Hp s Hwf Hf last b blockTime Hb).
Qed.

(** *** Work *)

Lemma zero_64 : in_word 64 0. Proof. by_eval. Qed.

Lemma target_successor c : in_word 32 c -> compact_target c < 2 ^ 256 -> compact_target c + 1 < 2 ^ 256.
Proof.
  intros Hc. unfold compact_target. unfold in_word in Hc.
  pose proof (Z.mod_pos_bound c (2 ^ 23) ltac:(lia)). destruct (Z.leb_spec (c / 2 ^ 24) 3).
  - intros _. assert (Hd : c mod 2 ^ 23 / 2 ^ (8 * (3 - c / 2 ^ 24)) <= c mod 2 ^ 23).
    { apply Z.div_le_upper_bound; [apply Z.pow_pos_nonneg; pose proof (Z.div_pos c (2 ^ 24)); lia|].
      assert (1 <= 2 ^ (8 * (3 - c / 2 ^ 24))) by (change 1 with (2 ^ 0) at 1; apply Z.pow_le_mono_r; lia). nia. }
    lia.
  - set (e := c / 2 ^ 24) in *. replace (8 * (e - 3)) with (8 * (e - 4) + 8) by lia.
    rewrite Z.pow_add_r, Z.mul_assoc by lia. set (k := c mod 2 ^ 23 * 2 ^ (8 * (e - 4))). lia.
Qed.

Lemma CheckProofOfWork_spec hash c params : in_word 32 c -> bytes hash -> length hash = 32%nat ->
  bytes (powLimit params) -> length (powLimit params) = 32%nat ->
  CheckProofOfWork hash c params =
  (0 <? compact_target c) && negb (Z.testbit c 23) && (compact_target c <=? limit_value params) &&
  (le_combine hash <=? compact_target c).
Proof.
  intros Hc Hh Hhl Hl Hll. unfold CheckProofOfWork. pose proof (SetCompact_spec c Hc) as HS.
  destruct (SetCompact c) as [[a n] o]. destruct HS as (Ha & Ea & -> & ->).
  destruct (UintToArith256_spec _ Hh Hhl) as [H1 E1]. destruct (UintToArith256_spec _ Hl Hll) as [H2 E2].
  rewrite EqualTo_spec, !uint_gt_spec, E1, E2 by (done || apply zero_64).
  pose proof (num_range _ H2) as HL. rewrite E2 in HL. fold (limit_value params) in *.
  pose proof (compact_target_nonneg c (proj1 Hc)) as H0. set (t := compact_target c) in *.
  destruct (Z.leb_spec (2 ^ 256) t) as [Hov|Hov].
  - rewrite orb_true_r. cbn [orb]. destruct (Z.leb_spec t (limit_value params)); [lia|].
    now rewrite andb_false_r.
  - rewrite Z.mod_small in Ea by lia. rewrite Ea. clearbody t.
    destruct (Z.eqb_spec t 0) as [->|]; cbn [negb andb orb]; [done|].
    destruct (Z.ltb_spec 0 t); [|lia]. destruct (Z.testbit c 23); cbn [negb andb orb]; [done|].
    destruct (Z.ltb_spec (limit_value params) t), (Z.leb_spec t (limit_value params)); try lia; cbn [andb].
    destruct (Z.ltb_spec t (le_combine hash)), (Z.leb_spec (le_combine hash) t); lia.
Qed.

(** The work of a valid target, 0 for an invalid one. *)
Definition work_of (c : Z) : Z :=
  let t := compact_target c in
  if Z.testbit c 23 || (t =? 0) || (2 ^ 256 <=? t) then 0 else 2 ^ 256 / (t + 1).

Lemma work_of_range c : in_word 32 c -> 0 <= work_of c < 2 ^ 256.
Proof.
  intros Hc. unfold work_of. pose proof (compact_target_nonneg c (proj1 Hc)).
  destruct (Z.testbit c 23 || (compact_target c =? 0) || (2 ^ 256 <=? compact_target c)) eqn:E; [lia|].
  apply orb_false_iff in E as [E _]. apply orb_false_iff in E as [_ E]. apply Z.eqb_neq in E.
  split; [apply Z.div_pos; lia|]. apply Z.div_lt_upper_bound; lia.
Qed.

Lemma GetBlockProof_spec c : in_word 32 c ->
  exists a, GetBlockProof c = Some a /\ num a /\ value a = work_of c.
Proof.
  intros Hc. unfold GetBlockProof, work_of. pose proof (SetCompact_spec c Hc) as HS.
  destruct (SetCompact c) as [[a n] o]. destruct HS as (Ha & Ea & -> & ->).
  pose proof (compact_target_nonneg c (proj1 Hc)) as H0. pose proof (target_successor c Hc) as HT.
  rewrite EqualTo_spec by (done || apply zero_64). set (t := compact_target c) in *.
  destruct (of_uint64_spec 0 zero_64) as [Hz Ez].
  destruct (of_uint64_spec 1 ltac:(by_eval)) as [H1 E1].
  destruct (Z.leb_spec (2 ^ 256) t) as [Hov|Hov].
  - rewrite !orb_true_r. cbn [orb]. eauto.
  - specialize (HT Hov). rewrite Z.mod_small in Ea by lia. rewrite Ea, !orb_false_r.
    destruct (Z.eqb_spec t 0) as [E|E].
    + rewrite !orb_true_r. eauto.
    + cbn [negb andb]. rewrite !orb_false_r. destruct (Z.testbit c 23); [eauto|].
      destruct (uint_not_spec a Ha) as [Hn En]. destruct (uint_add_spec a _ Ha H1) as [Hs Es].
      rewrite Ea in En, Es. rewrite E1, Z.mod_small in Es by lia.
      pose proof (uint_div_spec _ _ Hn Hs) as HD. rewrite Es in HD.
      destruct (Z.eqb_spec (t + 1) 0); [lia|]. destruct HD as (q & -> & Hq & Eq). cbn [mbind option_bind].
      destruct (uint_add_spec q _ Hq H1) as [Hr Er]. eexists. split; [done|]. split; [done|].
      rewrite Er, Eq, En, E1. replace (2 ^ 256) with ((2 ^ 256 - 1 - t) + 1 * (t + 1)) at 3 by lia.
      rewrite Z.div_add by lia. apply Z.mod_small.
      assert ((2 ^ 256 - 1 - t) / (t + 1) < 2 ^ 255) by (apply Z.div_lt_upper_bound; lia).
      pose proof (Z.div_pos (2 ^ 256 - 1 - t) (t + 1)). lia.
Qed.

(** ** Properties *)

(** C18. A hash is accepted exactly when the target of the header is positive, not negative,
    no easier than the limit of the network (so it did not overflow either), and the hash,
    as a little-endian number, does not exceed it. *)
Theorem CheckProofOfWork_correct hash c params : in_word 32 c -> bytes hash -> length hash = 32%nat ->
  params_ok params ->
  CheckProofOfWork hash c params = true <->
  0 < compact_target c <= limit_value params /\ Z.testbit c 23 = false /\
  le_combine hash <= compact_target c.
Proof.
  intros Hc Hh Hl Hp. destruct (po_limit _ Hp). rewrite CheckProofOfWork_spec by done.
  rewrite !andb_true_iff, negb_true_iff, Z.ltb_lt, !Z.leb_le. tauto.
Qed.

(** On a well-formed index the difficulty of the next block is always computed, by
    whichever of the three rules and for every [pow] of the C library: no loop runs on, no
    assertion fails and nothing is divided by zero; the result is a target no easier than
    the limit of the network, or the [nBits] of an ancestor. *)
Theorem GetNextWorkRequired_total pow s params last b blockTime :
  wf_store s -> fields_ok s -> params_ok params -> s !! last = Some b ->
  exists c, GetNextWorkRequired pow s (Some last) blockTime params = Some c /\
    (difficulty_ok params c \/ inherited s last c).
Proof.
  exact (next_work_total pow s params last b blockTime).
Qed.

(** C23. When the last 24 targets are no easier than the limit of the network and that limit
    leaves room for the products (the main network's does), DarkGravityWave is exact: the
    weighted average of the 24 targets, times the time they took kept within a third and
    three times the intended time, over the intended time, but at most the limit. *)
Theorem DarkGravityWave_correct s params last b bs first :
  params_ok params -> s !! last = Some b -> 24 <= nHeight b ->
  ancestors s 23 last = Some bs -> list.last bs = Some first ->
  Forall (easy_enough params) bs ->
  25 * limit_value params < 2 ^ 256 ->
  limit_value params * (72 * nPowTargetSpacing params) < 2 ^ 256 ->
  DarkGravityWave s (Some last) params =
  Some (compact_of (Z.min
    (dgw_average 1 0 ((fun b => compact_target (nBits b)) <$> bs) * dgw_timespan params first b
     / (24 * nPowTargetSpacing params)) (limit_value params)) false).
Proof. intros Hp Hb Hh Hbs Hfirst Hall H25 H72. now apply DarkGravityWave_spec. Qed.

(** The work of a block is 2^256 / (target + 1), rounded down, although the program
    never represents 2^256; it is 0 for a negative, zero or overflowing target. *)
Theorem GetBlockProof_correct c : in_word 32 c ->
  exists a, GetBlockProof c = Some a /\ num a /\ value a = work_of c.
Proof. apply GetBlockProof_spec. Qed.

(** *** The main network *)

Definition main_params : Params :=
  mk_params (le_split 32 (0xfffff << 216)) false false 150 86400 15200 34140.

Lemma main_params_ok : params_ok main_params.
Proof. split; [split; by_eval|cbn; lia|cbn; lia|cbn; lia]. Qed.

Lemma demo_fields n : (n <= 1000)%nat -> fields_ok (demo_store n).
Proof.
  intros Hn i b Hb. unfold demo_store in Hb. apply list_lookup_fmap_Some in Hb as (j & -> & Hj).
  apply lookup_seq in Hj as [-> Hj]. split; [by_eval|]. unfold in_word. cbn [nTime demo_entry]. lia.
Qed.

Lemma CheckProofOfWork_correct_witness :
  CheckProofOfWork (le_split 32 (0xabc << 200)) 0x1e0ffff0 main_params = true <->
  0 < compact_target 0x1e0ffff0 <= limit_value main_params /\ Z.testbit 0x1e0ffff0 23 = false /\
  le_combine (le_split 32 (0xabc << 200)) <= compact_target 0x1e0ffff0.
Proof.
  apply (CheckProofOfWork_correct (le_split 32 (0xabc << 200)) 0x1e0ffff0 main_params);
    [by_eval|by_eval|reflexivity|exact main_params_ok].
Defined.

Lemma GetNextWorkRequired_total_witness :
  exists c, GetNextWorkRequired (fun x y => x) (demo_store 40) (Some 39%nat) 9000 main_params = Some c /\
    (difficulty_ok main_params c \/ inherited (demo_store 40) 39 c).
Proof.
  apply (GetNextWorkRequired_total (fun x y => x) (demo_store 40) main_params 39 (demo_entry 39) 9000
    (demo_wf 40) (demo_fields 40 ltac:(lia)) main_params_ok eq_refl).
Defined.

Lemma demo_easy : Forall (easy_enough main_params) (demo_entry <$> rev (seq 16 24)).
Proof.
  apply Forall_fmap. apply Forall_forall. intros i _. split; [by_eval|].
  apply Z.leb_le. vm_compute. reflexivity.
Qed.

Lemma DarkGravityWave_correct_witness :
  DarkGravityWave (demo_store 40) (Some 39%nat) main_params =
  Some (compact_of (Z.min
    (dgw_average 1 0 ((fun b => compact_target (nBits b)) <$> (demo_entry <$> rev (seq 16 24)))
      * dgw_timespan main_params (demo_entry 16) (demo_entry 39) / (24 * 150))
    (limit_value main_params)) false).
Proof.
  apply (DarkGravityWave_correct (demo_store 40) main_params 39 (demo_entry 39)
    (demo_entry <$> rev (seq 16 24)) (demo_entry 16) main_params_ok eq_refl);
    [cbn; lia|reflexivity|reflexivity|exact demo_easy|vm_compute; reflexivity|vm_compute; reflexivity].
Defined.

Lemma GetBlockProof_correct_witness :
  exists a, GetBlockProof 0x1e0ffff0 = Some a /\ num a /\ value a = work_of 0x1e0ffff0.
Proof. apply (GetBlockProof_correct 0x1e0ffff0). by_eval. Defined.

(** The blocks of the example took 23 intervals of the intended 24. *)
Example DarkGravityWave_example :
  DarkGravityWave (demo_store 40) (Some 39%nat) main_params = Some 0x1e0f5546.
Proof. vm_compute. reflexivity. Qed.
