(* ===== verification/Growth.v ===== *)
(** * Queries of a growing index

    Headers are only added to the index.  The queries on a block (ancestors, median time,
    next difficulty, version-bits states) are proved not to depend on blocks that were
    added after it, so that what was computed or checked once stays true, and the caches of
    version-bits states stay right. *)

From stdpp Require Import gmap.
From S2P Require Import Prelude Words Arith256 Chain MedianTime Pow VersionBits.

(** ** Defined results carry over *)

Definition refines {A} (m m' : option A) : Prop := forall x, m = Some x -> m' = Some x.

Lemma refines_refl {A} (m : option A) : refines m m.
Proof. now intros x. Qed.

Lemma refines_bind {A B} (m m' : option A) (f f' : A -> option B) :
  refines m m' -> (forall x, refines (f x) (f' x)) -> refines (m ≫= f) (m' ≫= f').
Proof.
  intros Hm Hf y. destruct m as [x|]; [|done]. rewrite (Hm x eq_refl). cbn. apply Hf.
Qed.

Lemma refines_fmap {A B} (m m' : option A) (f : A -> B) : refines m m' -> refines (f <$> m) (f <$> m').
Proof. intros Hm y. destruct m as [x|]; [|done]. now rewrite (Hm x eq_refl). Qed.

(** A store that has all objects of another one. *)
Definition grows (s s' : store) : Prop := forall i b, s !! i = Some b -> s' !! i = Some b.

Lemma grows_refl s : grows s s.
Proof. now intros i b. Qed.

Lemma grows_app s t : grows s (s ++ t).
Proof. intros i b H. now apply lookup_app_l_Some. Qed.

Lemma grows_trans s1 s2 s3 : grows s1 s2 -> grows s2 s3 -> grows s1 s3.
Proof. intros H1 H2 i b H. now apply H2, H1. Qed.

Create HintDb growth.
#[export] Hint Resolve refines_refl refines_bind refines_fmap : growth.

Ltac grow :=
  repeat match goal with
  | |- forall _, _ => intro
  | |- refines ?m ?m => apply refines_refl
  | H : grows ?s ?s' |- refines (?s !! _) (?s' !! _) => exact (H _)
  | |- refines (_ ≫= _) (_ ≫= _) => apply refines_bind
  | |- refines (_ <$> _) (_ <$> _) => apply refines_fmap
  | |- refines (match ?x with _ => _ end) _ => destruct x
  | IH : context [refines _ _] |- refines _ _ => apply IH
  end.

Section Growth.
Context (s s' : store) (Hs : grows s s').

Lemma refines_up n p : refines (up s n p) (up s' n p).
Proof. revert p. induction n as [|n IH]; intros p; cbn [up]; grow. Qed.

Lemma refines_walk fuel height p h : refines (walk fuel s height p h) (walk fuel s' height p h).
Proof. revert p h. induction fuel as [|fuel IH]; intros p h; cbn [walk]; grow. Qed.

Lemma refines_GetAncestor p height : refines (GetAncestor s p height) (GetAncestor s' p height).
Proof. pose proof refines_walk. unfold GetAncestor. grow. Qed.

Lemma refines_past_times n q : refines (past_times n s q) (past_times n s' q).
Proof. revert q. induction n as [|n IH]; intros [p|]; cbn [past_times]; grow. Qed.

Lemma refines_GetMedianTimePast p : refines (GetMedianTimePast s p) (GetMedianTimePast s' p).
Proof. pose proof refines_past_times. unfold GetMedianTimePast. grow. Qed.

Lemma refines_kgw_loop pow fuel params mn mx last p i st :
  refines (kgw_loop pow fuel s params mn mx last p i st) (kgw_loop pow fuel s' params mn mx last p i st).
Proof. revert p i st. induction fuel as [|fuel IH]; intros p i st; cbn [kgw_loop]; grow. Qed.

Lemma refines_dgw_loop n c p avg : refines (dgw_loop n s c p avg) (dgw_loop n s' c p avg).
Proof. revert c p avg. induction n as [|n IH]; intros c p avg; cbn [dgw_loop]; grow. Qed.

Lemma refines_last_normal_block fuel interval limit p :
  refines (last_normal_block fuel s interval limit p) (last_normal_block fuel s' interval limit p).
Proof. revert p. induction fuel as [|fuel IH]; intros p; cbn [last_normal_block]; grow. Qed.

Lemma refines_GetNextWorkRequired pow q t params :
  refines (GetNextWorkRequired pow s q t params) (GetNextWorkRequired pow s' q t params).
Proof.
  pose proof refines_kgw_loop. pose proof refines_dgw_loop. pose proof refines_last_normal_block.
  pose proof refines_GetAncestor.
  unfold GetNextWorkRequired, DarkGravityWave, KimotoGravityWell, GetNextWorkRequiredBTC. grow.
Qed.
End Growth.

(** ** Version bits *)

Section VersionBits.
Context (s s' : store) (Hs : grows s s') (Hwf : wf_store s).

Lemma parent_is_ptr p b : s !! p = Some b -> is_ptr s (pprev b).
Proof.
  intros Hb r Hr. pose proof (eo_prev _ _ _ (Hwf p b Hb)) as H. rewrite Hr in H.
  destruct H as (br & H & _). eauto.
Qed.

Lemma is_ptr_grows q : is_ptr s q -> is_ptr s' q.
Proof. intros Hq p ->. destruct (Hq p eq_refl) as [b Hb]. eauto. Qed.

Lemma up_same n p b : s !! p = Some b -> up s' n p = up s n p.
Proof.
  revert p b. induction n as [|n IH]; intros p b Hb; [done|]. cbn [up]. rewrite Hb, (Hs p b Hb).
  cbn [mbind option_bind]. pose proof (parent_is_ptr p b Hb) as Hq.
  destruct (pprev b) as [q|]; [|done]. destruct (Hq q eq_refl) as [bq Hbq]. cbn. exact (IH q bq Hbq).
Qed.

Lemma above_same n q : is_ptr s q -> above s' n q = above s n q.
Proof.
  intros Hq. destruct q as [p|]; [|done]. destruct (Hq p eq_refl) as [b Hb]. exact (up_same n p b Hb).
Qed.

Lemma height_same q : is_ptr s q -> height_of s' q = height_of s q.
Proof.
  intros Hq. destruct q as [p|]; [|done]. destruct (Hq p eq_refl) as [b Hb].
  unfold height_of. now rewrite Hb, (Hs p b Hb).
Qed.

Lemma median_same p b : s !! p = Some b -> median s' p = median s p.
Proof.
  intros Hb. unfold median. destruct (GetMedianTimePast_some s Hwf p b Hb) as [m E].
  now rewrite E, (refines_GetMedianTimePast s s' Hs p m E).
Qed.

Lemma up_is_ptr n p b q : s !! p = Some b -> up s n p = Some q -> exists bq, s !! q = Some bq.
Proof.
  revert p b. induction n as [|n IH]; intros p b Hb E; [injection E as <-; eauto|].
  cbn [up] in E. rewrite Hb in E. cbn [mbind option_bind] in E.
  pose proof (parent_is_ptr p b Hb) as Hr. destruct (pprev b) as [r|]; [|done].
  destruct (Hr r eq_refl) as [br Hbr]. exact (IH r br Hbr E).
Qed.

Lemma above_is_ptr n q : is_ptr s q -> is_ptr s (above s n q).
Proof.
  intros Hq r Hr. destruct q as [p|]; [|done]. destruct (Hq p eq_refl) as [b Hb].
  exact (up_is_ptr n p b r Hb Hr).
Qed.

Section Checker.
Context {W : Type} (ck : AbstractThresholdConditionChecker W) (cond cond' : nat -> bool)
  (Hcond : forall p b, s !! p = Some b -> cond' p = cond p).

Lemma votes_same n q : is_ptr s q -> votes s' cond' n q = votes s cond n q.
Proof.
  revert q. induction n as [|n IH]; intros [p|] Hq; try done. destruct (Hq p eq_refl) as [b Hb].
  cbn [votes]. rewrite (Hcond p b Hb), (above_same 1 _ Hq). f_equal. apply IH. now apply above_is_ptr.
Qed.

Lemma bip9_same n q : is_ptr s q -> bip9 ck s' cond' n q = bip9 ck s cond n q.
Proof.
  revert q. induction n as [|n IH]; intros [p|] Hq; try done. destruct (Hq p eq_refl) as [b Hb].
  cbn [bip9]. rewrite (above_same _ _ Hq), IH by now apply above_is_ptr.
  unfold transition. now rewrite (median_same p b Hb), (votes_same _ _ Hq).
Qed.

Lemma state_after_same q : is_ptr s q -> state_after ck s' cond' q = state_after ck s cond q.
Proof.
  intros Hq. unfold state_after, periods, period_end.
  rewrite (height_same q Hq), (above_same _ q Hq). apply bip9_same. now apply above_is_ptr.
Qed.

Lemma cache_ok_grows cache : cache_ok ck s cond cache -> cache_ok ck s' cond' cache.
Proof.
  intros Hc q st Hq. destruct (Hc q st Hq) as (Hp & Hm & ->). unfold periods.
  rewrite (height_same q Hp). split; [now apply is_ptr_grows|]. split; [done|].
  symmetry. now apply bip9_same.
Qed.
End Checker.

Lemma vb_cond_same d p b : s !! p = Some b -> vb_cond s' d p = vb_cond s d p.
Proof. intros Hb. unfold vb_cond. now rewrite Hb, (Hs p b Hb). Qed.

Lemma caches_ok_grows params cache : caches_ok params s cache -> caches_ok params s' cache.
Proof.
  intros [Hl Hc]. split; [done|]. intros pos d c Hd E.
  apply (cache_ok_grows _ (vb_cond s d)); [apply vb_cond_same|exact (Hc pos d c Hd E)].
Qed.
End VersionBits.
