(* ===== verification/AddBlock.v ===== *)
(** * The index of block headers: AddToBlockIndex of src/validation.cpp

    The global index: the [CBlockIndex] objects, the map from hashes to them, the header with
    the most work and the set of changed entries.  The hash of a header is a parameter of
    the operation, so its theorems hold for the hash of [PowHash] (whatever its era) as well. *)

From stdpp Require Import gmap.
From S2P Require Import Prelude Words Arith256 PowHash Chain Pow.

Record index_state := mk_state {
  heap : list CBlockIndex;
  mapBlockIndex : gmap (list Z) nat;
  pindexBestHeader : ptr;
  setDirtyBlockIndex : gset nat }.

Definition empty_index : index_state := mk_state [] ∅ None ∅.

(** ** Block index objects *)

Definition BLOCK_VALID_TREE : Z := 2.
Definition BLOCK_VALID_MASK : Z := 1 .| 2 .| 3 .| 4 .| 5.
Definition BLOCK_FAILED_MASK : Z := 32 .| 64.

(** [CBlockIndex(block)] *)
Definition new_index (block : CBlockHeader) : CBlockIndex :=
  mk_index None None None 0 0 0 0 uint_zero 0 0 0 (PowHash.nVersion block)
    (PowHash.hashMerkleRoot block) (PowHash.nTime block) (PowHash.nBits block)
    (PowHash.nNonce block) 0.

Definition with_phashBlock (hash : list Z) (b : CBlockIndex) : CBlockIndex :=
  let '(mk_index _ p sk n f d u w t c st v m ti bi no sq) := b in
  mk_index (Some hash) p sk n f d u w t c st v m ti bi no sq.
Definition with_pprev (q : ptr) (height : Z) (b : CBlockIndex) : CBlockIndex :=
  let '(mk_index h _ sk _ f d u w t c st v m ti bi no sq) := b in
  mk_index h q sk height f d u w t c st v m ti bi no sq.
Definition with_nChainWork (work : list Z) (b : CBlockIndex) : CBlockIndex :=
  let '(mk_index h p sk n f d u _ t c st v m ti bi no sq) := b in
  mk_index h p sk n f d u work t c st v m ti bi no sq.
Definition with_nStatus (status : Z) (b : CBlockIndex) : CBlockIndex :=
  let '(mk_index h p sk n f d u w t c _ v m ti bi no sq) := b in
  mk_index h p sk n f d u w t c status v m ti bi no sq.

(** [RaiseValidity]: whether the level was raised, and the object. *)
Definition RaiseValidity (nUpTo : Z) (b : CBlockIndex) : option (bool * CBlockIndex) :=
  if negb (nUpTo .& u32 (Z.lnot BLOCK_VALID_MASK) =? 0) then None
  else if negb (nStatus b .& BLOCK_FAILED_MASK =? 0) then Some (false, b)
  else if nStatus b .& BLOCK_VALID_MASK <? nUpTo
  then Some (true, with_nStatus ((nStatus b .& u32 (Z.lnot BLOCK_VALID_MASK)) .| nUpTo) b)
  else Some (false, b).

(** ** AddToBlockIndex *)

(** Lines 2987 to 2993: the predecessor, the height and the skip pointer of [pindexNew]. *)
Definition link_new (map : gmap (list Z) nat) (hashPrev : list Z) (pindexNew : nat)
    (s : list CBlockIndex) : option (list CBlockIndex) :=
  match map !! hashPrev with
  | Some miPrev =>
      b ← s !! pindexNew;
      bp ← (<[pindexNew := with_pprev (Some miPrev) (nHeight b) b]> s) !! miPrev;
      BuildSkip (<[pindexNew := with_pprev (Some miPrev) (nHeight bp + 1) b]> s) pindexNew
  | None => Some s
  end.

(** Line 2994: its work. *)
Definition work_new (pindexNew : nat) (s : list CBlockIndex) : option (list CBlockIndex) :=
  b ← s !! pindexNew;
  before ← match pprev b with
           | Some p => bp ← s !! p; Some (nChainWork bp)
           | None => Some (of_uint64 0)
           end;
  proof ← GetBlockProof (nBits b);
  Some (<[pindexNew := with_nChainWork (uint_add before proof) b]> s).

(** Lines 2996 and 2997. *)
Definition better_header (s : list CBlockIndex) (best : ptr) (pindexNew : nat) : option ptr :=
  match best with
  | None => Some (Some pindexNew)
  | Some p =>
      bb ← s !! p;
      bn ← s !! pindexNew;
      Some (if CompareTo (nChainWork bb) (nChainWork bn) <? 0 then Some pindexNew else best)
  end.

Definition AddToBlockIndex (GetHash : CBlockHeader -> list Z) (block : CBlockHeader)
    (st : index_state) : option (index_state * nat) :=
  let hash := GetHash block in
  match mapBlockIndex st !! hash with
  | Some it => Some (st, it)
  | None =>
      let pindexNew := length (heap st) in
      let map := <[hash := pindexNew]> (mapBlockIndex st) in
      let s := heap st ++ [with_phashBlock hash (new_index block)] in
      s ← link_new map (hashPrevBlock block) pindexNew s;
      s ← work_new pindexNew s;
      b ← s !! pindexNew;
      '(_, b) ← RaiseValidity BLOCK_VALID_TREE b;
      let s := <[pindexNew := b]> s in
      best ← better_header s (pindexBestHeader st) pindexNew;
      Some (mk_state s map best ({[pindexNew]} ∪ setDirtyBlockIndex st), pindexNew)
  end.

(** ** The invariant of the index *)

Definition work_before (s : list CBlockIndex) (b : CBlockIndex) : Z :=
  match pprev b with
  | Some p => match s !! p with Some bp => value (nChainWork bp) | None => 0 end
  | None => 0
  end.

Record index_ok (st : index_state) : Prop := {
  io_store : wf_store (heap st);
  io_fields : fields_ok (heap st);
  io_hash : forall p b, heap st !! p = Some b ->
    exists h, phashBlock b = Some h /\ mapBlockIndex st !! h = Some p;
  io_map : forall h p, mapBlockIndex st !! h = Some p ->
    exists b, heap st !! p = Some b /\ phashBlock b = Some h;
  io_work : forall p b, heap st !! p = Some b -> num (nChainWork b) /\
    value (nChainWork b) = (work_before (heap st) b + work_of (nBits b)) mod 2 ^ 256;
  io_best : match pindexBestHeader st with
    | None => heap st = []
    | Some p => exists b, heap st !! p = Some b /\
        forall q bq, heap st !! q = Some bq -> value (nChainWork bq) <= value (nChainWork b)
    end }.

(** A header as the program holds it, whose hash is not the one it names as its parent's. *)
Record new_header_ok (GetHash : CBlockHeader -> list Z) (block : CBlockHeader) : Prop := {
  nh_bits : in_word 32 (PowHash.nBits block);
  nh_time : in_word 32 (PowHash.nTime block);
  nh_hash : GetHash block <> hashPrevBlock block }.

(** ** Lemmas *)

Lemma lookup_snoc {A} (l : list A) x : (l ++ [x]) !! length l = Some x.
Proof. now rewrite lookup_app_r, Nat.sub_diag by lia. Qed.

Lemma insert_snoc {A} (l : list A) x y : <[length l := y]> (l ++ [x]) = l ++ [y].
Proof. rewrite <- (Nat.add_0_r (length l)) at 1. now rewrite insert_app_r. Qed.

Lemma lookup_snoc_cases {A} (l : list A) x i y : (l ++ [x]) !! i = Some y ->
  l !! i = Some y \/ i = length l /\ y = x.
Proof.
  intros H. apply lookup_app_Some in H as [H|[Hi H]]; [now left|right].
  assert ((i - length l)%nat = 0%nat) as E by (apply lookup_lt_Some in H; simpl in H; lia).
  rewrite E in H. injection H as ->. split; [lia|done].
Qed.

Lemma lookup_old {A} (l : list A) x i y : l !! i = Some y -> (l ++ [x]) !! i = Some y.
Proof. intros H. now apply lookup_app_l_Some. Qed.

(** A new entry: a root without links, or a child of an old entry. *)
Definition new_entry (s : list CBlockIndex) (b : CBlockIndex) : Prop :=
  match pprev b with
  | None => nHeight b = 0 /\ pskip b = None
  | Some q => exists bq, s !! q = Some bq /\ nHeight b = nHeight bq + 1 /\
      forall k, pskip b = Some k ->
        up s (Z.to_nat (nHeight bq - GetSkipHeight (nHeight b))) q = Some k
  end.

Lemma up_snoc s b n p q : up s n p = Some q -> up (s ++ [b]) n p = Some q.
Proof. apply up_store_ext. intros i c Hc. exists c. split; [now apply lookup_old|done]. Qed.

Lemma wf_store_snoc s b : wf_store s -> new_entry s b -> wf_store (s ++ [b]).
Proof.
  intros Hwf Hnew i c Hc. apply lookup_snoc_cases in Hc as [Hc|[-> ->]].
  - destruct (Hwf i c Hc) as [H1 H2 H3]. split; [done| |].
    + destruct (pprev c); [|done]. destruct H2 as (bp & Hbp & E). exists bp. split; [|done].
      now apply lookup_old.
    + intros q Hq. apply up_snoc. now apply H3.
  - unfold new_entry in Hnew. destruct (pprev b) as [q|] eqn:Eq.
    + destruct Hnew as (bq & Hq & Eh & Hs). pose proof (eo_height _ _ _ (Hwf q bq Hq)) as Hh.
      split; [lia| |].
      * rewrite Eq. exists bq. split; [now apply lookup_old|done].
      * intros k Hk. pose proof (GetSkipHeight_bounds (nHeight b) ltac:(lia)) as HB.
        replace (Z.to_nat (nHeight b - GetSkipHeight (nHeight b))) with
          (S (Z.to_nat (nHeight bq - GetSkipHeight (nHeight b)))) by lia.
        cbn [up]. rewrite lookup_snoc. cbn [mbind option_bind]. rewrite Eq. cbn [mbind option_bind].
        apply up_snoc. now apply Hs.
    + destruct Hnew as [Eh Es]. split; [lia|now rewrite Eq|]. intros k Hk. congruence.
Qed.

(** The other fields of the header, and those of the transactions. *)
Definition same_header (b' b : CBlockIndex) : Prop :=
  nVersion b' = nVersion b /\ nNonce b' = nNonce b /\ hashMerkleRoot b' = hashMerkleRoot b /\
  nTx b' = nTx b /\ nChainTx b' = nChainTx b /\ nFile b' = nFile b.

(** Linking the new entry: the result is a new entry with the links of its parent. *)
Lemma link_new_spec map hashPrev s b : wf_store s -> nHeight b = 0 -> pprev b = None ->
  pskip b = None -> (forall p, map !! hashPrev = Some p -> exists bp, s !! p = Some bp) ->
  exists b', link_new map hashPrev (length s) (s ++ [b]) = Some (s ++ [b']) /\
    new_entry s b' /\ pprev b' = map !! hashPrev /\
    phashBlock b' = phashBlock b /\ nChainWork b' = nChainWork b /\ nStatus b' = nStatus b /\
    nBits b' = nBits b /\ nTime b' = nTime b /\ same_header b' b.
Proof.
  intros Hwf Hh Hpp Hsk Hmap. unfold link_new. destruct (map !! hashPrev) as [q|] eqn:Eq.
  - destruct (Hmap q eq_refl) as [bq Hq]. rewrite lookup_snoc. cbn [mbind option_bind].
    rewrite insert_snoc, (lookup_old s _ q bq Hq). cbn [mbind option_bind].
    set (b1 := with_pprev (Some q) (nHeight bq + 1) b). rewrite insert_snoc.
    assert (E1 : pprev b1 = Some q /\ nHeight b1 = nHeight bq + 1 /\ pskip b1 = None)
      by (unfold b1; destruct b; simpl in *; auto). destruct E1 as (Ep & Eh & Es).
    assert (Hn : new_entry s b1) by (unfold new_entry; rewrite Ep; exists bq; split; [done|split; [done|congruence]]).
    pose proof (wf_store_snoc s b1 Hwf Hn) as Hwf'. unfold BuildSkip. rewrite lookup_snoc.
    cbn [mbind option_bind]. rewrite Ep.
    pose proof (eo_height _ _ _ (Hwf q bq Hq)) as Hnn.
    pose proof (GetSkipHeight_bounds (nHeight b1) ltac:(lia)) as HB.
    rewrite (GetAncestor_spec _ Hwf' q bq) by now apply lookup_old.
    destruct (Z.ltb_spec (GetSkipHeight (nHeight b1)) 0); [lia|].
    destruct (Z.ltb_spec (nHeight bq) (GetSkipHeight (nHeight b1))); [lia|]. cbn [orb mbind option_bind].
    rewrite insert_snoc. destruct (up_height s Hwf (Z.to_nat (nHeight bq - GetSkipHeight (nHeight b1))) q bq Hq
      ltac:(lia)) as (k & bk & Ek & _). rewrite (up_snoc s b1 _ q k Ek).
    eexists. split; [done|]. split.
    + unfold new_entry. assert (El : pprev (with_pskip (Some k) b1) = Some q) by (destruct b1; exact Ep).
      rewrite El. exists bq. split; [done|].
      assert (Eh' : nHeight (with_pskip (Some k) b1) = nHeight b1) by (destruct b1; reflexivity).
      rewrite Eh'. split; [done|]. intros k' Hk'. assert (k' = k) as -> by (destruct b1; simpl in Hk'; congruence).
      exact Ek.
    + unfold b1. destruct b; simpl. unfold same_header. auto 20.
  - exists b. split; [done|]. split; [unfold new_entry; now rewrite Hpp|]. rewrite Hpp.
    unfold same_header. auto 20.
Qed.

Lemma RaiseValidity_fresh b : nStatus b = 0 ->
  RaiseValidity BLOCK_VALID_TREE b = Some (true, with_nStatus 2 b).
Proof. intros H. unfold RaiseValidity. rewrite H. reflexivity. Qed.

(** Only the links of entries matter for the shape of the store. *)
Lemma new_entry_links s b b' : pprev b' = pprev b -> pskip b' = pskip b -> nHeight b' = nHeight b ->
  new_entry s b -> new_entry s b'.
Proof. intros E1 E2 E3. unfold new_entry. now rewrite E1, E2, E3. Qed.

Section Add.
Context (GetHash : CBlockHeader -> list Z) (block : CBlockHeader) (st : index_state).
Context (Hb : new_header_ok GetHash block) (Hst : index_ok st).
Context (Hnew : mapBlockIndex st !! GetHash block = None).

(** What is known of the new entry. *)
Record added (b : CBlockIndex) : Prop := {
  ad_entry : new_entry (heap st) b;
  ad_prev : pprev b = mapBlockIndex st !! hashPrevBlock block;
  ad_hash : phashBlock b = Some (GetHash block);
  ad_bits : nBits b = PowHash.nBits block;
  ad_time : nTime b = PowHash.nTime block;
  ad_status : nStatus b = BLOCK_VALID_TREE;
  ad_header : same_header b (new_index block);
  ad_num : num (nChainWork b);
  ad_work : value (nChainWork b) = (work_before (heap st) b + work_of (nBits b)) mod 2 ^ 256 }.

Lemma better_header_spec s best b : heap st = s -> pindexBestHeader st = best ->
  num (nChainWork b) ->
  exists p bp, better_header (s ++ [b]) best (length s) = Some (Some p) /\
    (s ++ [b]) !! p = Some bp /\
    forall q bq, (s ++ [b]) !! q = Some bq -> value (nChainWork bq) <= value (nChainWork bp).
Proof.
  intros <- <- Hn. unfold better_header. pose proof (io_best _ Hst) as Hbest.
  destruct (pindexBestHeader st) as [p|].
  - destruct Hbest as (bb & Hp & Hmax). rewrite (lookup_old _ b _ _ Hp), lookup_snoc. cbn [mbind option_bind].
    destruct (io_work _ Hst p bb Hp) as [Hnb _]. rewrite uint_lt_spec by done.
    destruct (Z.ltb_spec (value (nChainWork bb)) (value (nChainWork b))) as [Hlt|Hge].
    + exists (length (heap st)), b. rewrite lookup_snoc. split; [done|]. split; [done|].
      intros q bq Hq. apply lookup_snoc_cases in Hq as [Hq|[-> ->]]; [|lia].
      specialize (Hmax q bq Hq). lia.
    + exists p, bb. split; [done|]. split; [now apply lookup_old|].
      intros q bq Hq. apply lookup_snoc_cases in Hq as [Hq|[-> ->]]; [|lia]. now apply Hmax in Hq.
  - rewrite Hbest. exists 0%nat, b. split; [done|]. split; [done|].
    intros q bq Hq. apply lookup_snoc_cases in Hq as [Hq|[-> ->]]; [discriminate|lia].
Qed.

Lemma AddToBlockIndex_new : exists b best,
  AddToBlockIndex GetHash block st =
  Some (mk_state (heap st ++ [b]) (<[GetHash block := length (heap st)]> (mapBlockIndex st)) (Some best)
          ({[length (heap st)]} ∪ setDirtyBlockIndex st), length (heap st)) /\
  added b /\
  exists bp, (heap st ++ [b]) !! best = Some bp /\
    forall q bq, (heap st ++ [b]) !! q = Some bq -> value (nChainWork bq) <= value (nChainWork bp).
Proof.
  unfold AddToBlockIndex. rewrite Hnew. destruct Hb as [Hbits Htime Hne].
  set (b0 := with_phashBlock (GetHash block) (new_index block)).
  assert (Emap : <[GetHash block := length (heap st)]> (mapBlockIndex st) !! hashPrevBlock block =
    mapBlockIndex st !! hashPrevBlock block) by (now rewrite lookup_insert_ne).
  destruct (link_new_spec (<[GetHash block := length (heap st)]> (mapBlockIndex st)) (hashPrevBlock block)
    (heap st) b0 (io_store _ Hst)) as (b1 & -> & Hentry & Hprev & Hh1 & Hw1 & Hs1 & Hbi1 & Ht1 & Hsh1);
    [done|done|done| |].
  { rewrite Emap. intros p Hp. destruct (io_map _ Hst _ p Hp) as (bp & H & _). eauto. }
  cbn [mbind option_bind]. unfold work_new. rewrite lookup_snoc. cbn [mbind option_bind].
  rewrite Emap in Hprev.
  assert (Ebits : nBits b1 = PowHash.nBits block) by exact Hbi1.
  destruct (GetBlockProof_spec (nBits b1) ltac:(rewrite Ebits; exact Hbits)) as (proof & Eproof & Hpn & Hpv).
  destruct (of_uint64_spec 0 zero_64) as [Hz Ez].
  assert (Hbefore : exists w, match pprev b1 with
      | Some p => bp ← (heap st ++ [b1]) !! p; Some (nChainWork bp)
      | None => Some (of_uint64 0)
      end = Some w /\ num w /\ value w = work_before (heap st) b1).
  { unfold work_before. destruct (pprev b1) as [p|] eqn:Ep; [|eauto].
    destruct (io_map _ Hst _ p (eq_sym Hprev)) as (bp & Hp & _). rewrite (lookup_old _ _ _ _ Hp), Hp.
    cbn [mbind option_bind]. destruct (io_work _ Hst p bp Hp). eauto. }
  destruct Hbefore as (w & -> & Hwn & Hwv). cbn [mbind option_bind]. rewrite Eproof.
  cbn [mbind option_bind]. rewrite insert_snoc, lookup_snoc. cbn [mbind option_bind].
  destruct (uint_add_spec w proof Hwn Hpn) as [Hsn Hsv]. set (total := uint_add w proof) in *.
  rewrite RaiseValidity_fresh by (destruct b1; simpl in *; exact Hs1). cbn [mbind option_bind].
  rewrite insert_snoc. set (b2 := with_nStatus 2 (with_nChainWork total b1)).
  assert (E2 : pprev b2 = pprev b1 /\ pskip b2 = pskip b1 /\ nHeight b2 = nHeight b1 /\
    phashBlock b2 = phashBlock b1 /\ nBits b2 = nBits b1 /\ nTime b2 = nTime b1 /\
    nStatus b2 = 2 /\ nChainWork b2 = total /\ same_header b2 b1)
    by (unfold b2, same_header; destruct b1; simpl; auto 20).
  clearbody b2. destruct E2 as (E21 & E22 & E23 & E24 & E25 & E26 & E27 & E28 & E29).
  assert (Had : added b2).
  { split.
    - now apply (new_entry_links _ b1).
    - now rewrite E21.
    - rewrite E24, Hh1. reflexivity.
    - now rewrite E25.
    - rewrite E26. exact Ht1.
    - exact E27.
    - destruct E29 as (E291 & E292 & E293 & E294 & E295 & E296). unfold same_header.
      rewrite E291, E292, E293, E294, E295, E296. exact Hsh1.
    - now rewrite E28.
    - rewrite E28, Hsv, Hwv, Hpv, E25. unfold work_before. now rewrite E21. }
  destruct (better_header_spec (heap st) (pindexBestHeader st) b2 eq_refl eq_refl (ad_num _ Had))
    as (p & bp & -> & Hp & Hmax).
  exists b2, p. split; [done|]. split; [done|]. eauto.
Qed.

Lemma index_ok_added b best : added b ->
  (exists bp, (heap st ++ [b]) !! best = Some bp /\
    forall q bq, (heap st ++ [b]) !! q = Some bq -> value (nChainWork bq) <= value (nChainWork bp)) ->
  index_ok (mk_state (heap st ++ [b]) (<[GetHash block := length (heap st)]> (mapBlockIndex st))
    (Some best) ({[length (heap st)]} ∪ setDirtyBlockIndex st)).
Proof.
  intros Had Hbest. destruct Hb as [Hbits Htime Hne]. split; cbn [heap mapBlockIndex pindexBestHeader].
  - apply wf_store_snoc; [apply Hst|apply Had].
  - intros i c Hc. apply lookup_snoc_cases in Hc as [Hc|[-> ->]]; [now apply (io_fields _ Hst i)|].
    now rewrite (ad_bits _ Had), (ad_time _ Had).
  - intros p c Hc. apply lookup_snoc_cases in Hc as [Hc|[-> ->]].
    + destruct (io_hash _ Hst p c Hc) as (h & Eh & Em). exists h. split; [done|].
      rewrite lookup_insert_ne; [done|]. intros <-. congruence.
    + exists (GetHash block). split; [apply Had|]. apply lookup_insert_eq.
  - intros h p Hp. destruct (decide (h = GetHash block)) as [->|Hn].
    + rewrite lookup_insert_eq in Hp. injection Hp as <-. exists b. split; [apply lookup_snoc|apply Had].
    + rewrite lookup_insert_ne in Hp by done. destruct (io_map _ Hst h p Hp) as (c & Hc & Eh).
      exists c. split; [now apply lookup_old|done].
  - assert (Hsame : forall c, (forall p, pprev c = Some p -> exists bp, heap st !! p = Some bp) ->
      work_before (heap st ++ [b]) c = work_before (heap st) c).
    { intros c Hc. unfold work_before. destruct (pprev c) as [p|]; [|done].
      destruct (Hc p eq_refl) as [bp Hp]. now rewrite (lookup_old _ _ _ _ Hp), Hp. }
    intros p c Hc. apply lookup_snoc_cases in Hc as [Hc|[-> ->]].
    + rewrite Hsame; [now apply (io_work _ Hst p)|]. intros q Hq.
      pose proof (eo_prev _ _ _ (io_store _ Hst p c Hc)) as Hp. rewrite Hq in Hp.
      destruct Hp as (bp & Hbp & _). eauto.
    + split; [apply Had|]. rewrite Hsame; [apply Had|]. intros q Hq.
      pose proof (ad_entry _ Had) as Hent. unfold new_entry in Hent. rewrite Hq in Hent.
      destruct Hent as (bq & Hbq & _). eauto.
  - exact Hbest.
Qed.
End Add.

(** ** Properties *)

(** C17. Adding a header to a good index succeeds without a failed assertion and leaves a
    good index: heights and skip pointers agree with the tree, the map and the entries
    name each other, the work of every entry is its parent's plus its own modulo 2^256, and
    the best header has the most work of all.  Old entries are kept. *)
Theorem AddToBlockIndex_invariant GetHash block st :
  new_header_ok GetHash block -> index_ok st ->
  exists st' p b, AddToBlockIndex GetHash block st = Some (st', p) /\ index_ok st' /\
    heap st' !! p = Some b /\ phashBlock b = Some (GetHash block) /\
    (forall i c, heap st !! i = Some c -> heap st' !! i = Some c) /\
    (mapBlockIndex st !! GetHash block = None ->
      nBits b = PowHash.nBits block /\ pprev b = mapBlockIndex st !! hashPrevBlock block).
Proof.
  intros Hb Hst. destruct (mapBlockIndex st !! GetHash block) as [p|] eqn:E.
  - destruct (io_map _ Hst _ p E) as (b & Hp & Hh). exists st, p, b.
    unfold AddToBlockIndex. rewrite E. split; [done|]. split; [exact Hst|]. done.
  - destruct (AddToBlockIndex_new GetHash block st Hb Hst E) as (b & best & EA & Had & Hbest).
    eexists _, _, b. split; [exact EA|]. split; [exact (index_ok_added GetHash block st Hb Hst E b best Had Hbest)|].
    cbn [heap]. split; [apply lookup_snoc|]. split; [apply Had|]. split; [intros; now apply lookup_old|].
    intros _. split; apply Had.
Qed.

Lemma index_ok_empty : index_ok empty_index.
Proof.
  split; cbn [heap mapBlockIndex pindexBestHeader empty_index]; try done.
Qed.

(** All indexes that arise from the empty one by adding headers. *)
Inductive reachable (GetHash : CBlockHeader -> list Z) : index_state -> Prop :=
  | reachable_empty : reachable GetHash empty_index
  | reachable_add block st st' p : reachable GetHash st -> new_header_ok GetHash block ->
      AddToBlockIndex GetHash block st = Some (st', p) -> reachable GetHash st'.

Lemma reachable_ok GetHash st : reachable GetHash st -> index_ok st.
Proof.
  induction 1 as [|block st st' p _ IH Hb E]; [exact index_ok_empty|].
  destruct (mapBlockIndex st !! GetHash block) as [q|] eqn:Em.
  - unfold AddToBlockIndex in E. rewrite Em in E. now injection E as <- _.
  - destruct (AddToBlockIndex_new GetHash block st Hb IH Em) as (b & best & EA & Had & Hbest).
    rewrite EA in E. injection E as <- _. now apply index_ok_added.
Qed.

(** In every index that is built from the empty one, for the block hash of the program
    or any other, the ancestor, the next difficulty and the fork point of every entry are
    computed without a failed assertion, and an ancestor has the requested height. *)
Theorem reachable_index_queries GetHash st p b height pow params blockTime v :
  reachable GetHash st -> heap st !! p = Some b -> params_ok params -> 0 <= height <= nHeight b ->
  (exists q bq, GetAncestor (heap st) p height = Some (Some q) /\ heap st !! q = Some bq /\
    nHeight bq = height) /\
  (exists c, GetNextWorkRequired pow (heap st) (Some p) blockTime params = Some c) /\
  (exists r, FindFork (heap st) v (Some p) = Some r) /\
  (exists q bq, pindexBestHeader st = Some q /\ heap st !! q = Some bq /\
    value (nChainWork b) <= value (nChainWork bq)).
Proof.
  intros Hr Hb Hp Hh. pose proof (reachable_ok GetHash st Hr) as Hok.
  pose proof (io_store _ Hok) as Hwf. split; [|split; [|split]].
  - rewrite (GetAncestor_spec _ Hwf p b height Hb).
    destruct (Z.ltb_spec height 0); [lia|]. destruct (Z.ltb_spec (nHeight b) height); [lia|]. cbn [orb].
    destruct (up_height _ Hwf (Z.to_nat (nHeight b - height)) p b Hb ltac:(lia)) as (q & bq & -> & E2 & E3).
    exists q, bq. repeat split; try done. lia.
  - destruct (next_work_total pow (heap st) params p b blockTime Hwf (io_fields _ Hok) Hp Hb) as (c & -> & _). eauto.
  - destruct (FindFork_spec (heap st) Hwf v p b Hb) as (r & -> & _). eauto.
  - pose proof (io_best _ Hok) as Hbest. destruct (pindexBestHeader st) as [q|].
    + destruct Hbest as (bq & Hq & Hmax). exists q, bq. eauto.
    + rewrite Hbest in Hb. discriminate.
Qed.

(** *** A concrete index *)

Definition demo_GetHash (h : CBlockHeader) : list Z := le_split 4 (PowHash.nNonce h).
Definition demo_block (n : Z) : CBlockHeader :=
  mk_header 2 (le_split 4 (n - 1)) (replicate 32 2) (1000 + n) 0x1e0ffff0 n.
Definition demo_add (st : index_state) (n : Z) : index_state :=
  from_option fst st (AddToBlockIndex demo_GetHash (demo_block n) st).
Definition demo_index : index_state := foldl demo_add empty_index [1; 2; 3; 4].

Lemma demo_block_ok n : 1 <= n <= 1000 -> new_header_ok demo_GetHash (demo_block n).
Proof.
  intros Hn. split; [by_eval|unfold in_word; cbn [PowHash.nTime demo_block]; lia|].
  unfold demo_GetHash, demo_block. cbn [PowHash.nNonce hashPrevBlock]. intros E.
  apply (f_equal le_combine) in E. rewrite !le_combine_split, !wrap_mod in E by lia.
  rewrite !Z.mod_small in E; simpl; lia.
Qed.

Lemma demo_add_reachable st n : 1 <= n <= 1000 -> reachable demo_GetHash st ->
  reachable demo_GetHash (demo_add st n).
Proof.
  intros Hn Hr. unfold demo_add. destruct (AddToBlockIndex demo_GetHash (demo_block n) st) as [[st' p]|] eqn:E;
    [|exact Hr]. exact (reachable_add _ _ _ _ _ Hr (demo_block_ok n Hn) E).
Qed.

Lemma demo_index_reachable : reachable demo_GetHash demo_index.
Proof.
  unfold demo_index. cbn [foldl]. do 4 (apply demo_add_reachable; [lia|]). apply reachable_empty.
Qed.

Lemma AddToBlockIndex_invariant_witness :
  exists st' p b, AddToBlockIndex demo_GetHash (demo_block 5) demo_index = Some (st', p) /\
    index_ok st' /\ heap st' !! p = Some b /\ phashBlock b = Some (demo_GetHash (demo_block 5)) /\
    (forall i c, heap demo_index !! i = Some c -> heap st' !! i = Some c) /\
    (mapBlockIndex demo_index !! demo_GetHash (demo_block 5) = None ->
      nBits b = PowHash.nBits (demo_block 5) /\
      pprev b = mapBlockIndex demo_index !! hashPrevBlock (demo_block 5)).
Proof.
  apply (AddToBlockIndex_invariant demo_GetHash (demo_block 5) demo_index);
    [apply demo_block_ok; lia|exact (reachable_ok _ _ demo_index_reachable)].
Defined.

Lemma reachable_index_queries_witness : exists b, heap demo_index !! 3%nat = Some b /\
  (exists q bq, GetAncestor (heap demo_index) 3 1 = Some (Some q) /\ heap demo_index !! q = Some bq /\
    nHeight bq = 1) /\
  (exists c, GetNextWorkRequired (fun x y => x) (heap demo_index) (Some 3%nat) 0 main_params = Some c) /\
  (exists r, FindFork (heap demo_index) [] (Some 3%nat) = Some r) /\
  (exists q bq, pindexBestHeader demo_index = Some q /\ heap demo_index !! q = Some bq /\
    value (nChainWork b) <= value (nChainWork bq)).
Proof.
  destruct (heap demo_index !! 3%nat) as [b|] eqn:E; [|exfalso; revert E; vm_compute; discriminate].
  exists b. split; [reflexivity|].
  apply (reachable_index_queries demo_GetHash demo_index 3 b 1 (fun x y => x) main_params 0 []
    demo_index_reachable E main_params_ok).
  revert E. vm_compute. intros E. injection E as <-. split; discriminate.
Defined.
