(* ===== verification/ValidationState.v ===== *)
(** * The outcome of a validation ([consensus/validation.h]) *)

From stdpp Require Import strings.
From S2P Require Import Prelude.

Definition REJECT_INVALID : Z := 0x10.
Definition REJECT_OBSOLETE : Z := 0x11.
Definition REJECT_NONSTANDARD : Z := 0x40.

Inductive mode_state := MODE_VALID | MODE_INVALID | MODE_ERROR.

Record CValidationState := mk_vstate {
  mode : mode_state;
  nDoS : Z;
  strRejectReason : string;
  chRejectCode : Z;
  corruptionPossible : bool;
  strDebugMessage : string }.

Definition CValidationState_new : CValidationState := mk_vstate MODE_VALID 0 EmptyString 0 false EmptyString.

(** [DoS] and [Invalid], whose result is false.  The debug message is not modelled: it is
    always empty. *)
Definition DoS_corruption (state : CValidationState) (level chRejectCodeIn : Z)
    (strRejectReasonIn : string) (corruptionIn : bool) : CValidationState :=
  match mode state with
  | MODE_ERROR => mk_vstate MODE_ERROR (nDoS state) strRejectReasonIn chRejectCodeIn corruptionIn EmptyString
  | _ => mk_vstate MODE_INVALID (nDoS state + level) strRejectReasonIn chRejectCodeIn corruptionIn EmptyString
  end.
Definition DoS (state : CValidationState) (level chRejectCodeIn : Z) (strRejectReasonIn : string)
    : CValidationState := DoS_corruption state level chRejectCodeIn strRejectReasonIn false.
Definition Invalid (state : CValidationState) (_chRejectCode : Z) (_strRejectReason : string)
    : CValidationState := DoS state 0 _chRejectCode _strRejectReason.
(** [Error] *)
Definition Error (state : CValidationState) (strRejectReasonIn : string) : CValidationState :=
  mk_vstate MODE_ERROR (nDoS state)
    (match mode state with MODE_VALID => strRejectReasonIn | _ => strRejectReason state end)
    (chRejectCode state) (corruptionPossible state) (strDebugMessage state).

Lemma DoS_corruption_invalid state level code reason c : mode (DoS_corruption state level code reason c) <> MODE_VALID.
Proof. unfold DoS_corruption. now destruct (mode state). Qed.
Lemma DoS_invalid state level code reason : mode (DoS state level code reason) <> MODE_VALID.
Proof. apply DoS_corruption_invalid. Qed.
