(* ===== verification/HeaderCheck.v ===== *)
(** * Acceptance of block headers ([validation.cpp], [checkpoints.cpp])

    [AcceptBlockHeader] and [ProcessNewBlockHeaders] with all their checks: proof of work,
    time, parent, checkpoints, difficulty and the majority rules for block versions.  An
    accepted header enters the index of [AddBlock]; a rejected one changes nothing but the
    validation state.  Every index built this way is shown to satisfy the assumptions of
    the components that read it. *)

From Corelib Require Import SpecFloat.
From stdpp Require Import gmap strings.
From S2P Require Import Prelude Words Arith256 PowHash Chain MedianTime Pow VersionBits Growth AddBlock.
From S2P Require Import ValidationState.

(** ** Chain parameters *)

Record CChainParams := mk_chainparams {
  consensus : Pow.Params;
  network_is_main : bool;        (* NetworkIDString() == MAIN *)
  hashGenesisBlock : list Z;
  nMajorityRejectBlockOutdated : Z;
  nMajorityWindow : Z;
  mapCheckpoints : list (Z * list Z) }.   (* by height *)

(** ** Difficulties as [double] *)

Definition d_sub := SFsub 53 1024.
Definition d_0_5 : spec_float := S754_finite false 4503599627370496 (-53).

(** The two loops over [nShift]. *)
Fixpoint shift_up (n : nat) (dDiff : spec_float) : spec_float :=
  match n with O => dDiff | S n => shift_up n (d_mul dDiff (double_of 256)) end.
Fixpoint shift_down (n : nat) (dDiff : spec_float) : spec_float :=
  match n with O => dDiff | S n => shift_down n (d_div dDiff (double_of 256)) end.

Definition ConvertBitsToDouble (nBits : Z) : spec_float :=
  let nShift := (nBits >> 24) .& 0xff in
  let dDiff := d_div (double_of 0x0000ffff) (double_of (nBits .& 0x00ffffff)) in
  shift_down (Z.to_nat (nShift - 29)) (shift_up (Z.to_nat (29 - nShift)) dDiff).

(** [abs(n1-n2) > n1*0.5] *)
Definition too_far (n1 n2 : spec_float) : bool :=
  SFltb (d_mul n1 d_0_5) (SFabs (d_sub n1 n2)).

(** ** IsSuperMajority *)

(** The loop, with [n] iterations left. *)
Fixpoint majority_loop (n : nat) (s : store) (minVersion : Z) (pstart : ptr) (nRequired nFound : Z)
    : option Z :=
  match n with
  | O => Some nFound
  | S n =>
      if nFound <? nRequired then
        match pstart with
        | None => Some nFound
        | Some p =>
            b ← s !! p;
            majority_loop n s minVersion (pprev b) nRequired
              (if minVersion <=? nVersion b then nFound + 1 else nFound)
        end
      else Some nFound
  end.
Definition IsSuperMajority (params : CChainParams) (s : store) (minVersion : Z) (pstart : ptr)
    (nRequired : Z) : option bool :=
  nFound ← majority_loop (Z.to_nat (nMajorityWindow params)) s minVersion pstart nRequired 0;
  Some (nRequired <=? nFound).

(** ** Checkpoints *)

(** [BOOST_REVERSE_FOREACH] *)
Fixpoint last_checkpoint (map : gmap (list Z) nat) (checkpoints : list (Z * list Z)) : ptr :=
  match checkpoints with
  | [] => None
  | i :: checkpoints =>
      match map !! snd i with Some t => Some t | None => last_checkpoint map checkpoints end
  end.
Definition GetLastCheckpoint (map : gmap (list Z) nat) (params : CChainParams) : ptr :=
  last_checkpoint map (rev (mapCheckpoints params)).

(** ** The checks *)

Section Source.
(** The C library's [pow], the hash of headers, the parameters of the network, the time
    [GetAdjustedTime()] gives and the option [-checkpoints]. *)
Context (pow : spec_float -> spec_float -> spec_float) (GetHash : CBlockHeader -> list Z)
  (params : CChainParams) (adjusted_time : Z) (fCheckpointsEnabled : bool).

(** A check gives its result and the validation state. *)
Definition check : Type := option (bool * CValidationState).

Definition CheckBlockHeader (block : CBlockHeader) (state : CValidationState) (fCheckPOW : bool)
    : bool * CValidationState :=
  if fCheckPOW && negb (CheckProofOfWork (GetHash block) (PowHash.nBits block) (consensus params))
  then (false, DoS state 50 REJECT_INVALID "high-hash")
  else if adjusted_time + 2 * 60 * 60 <? PowHash.nTime block
  then (false, Invalid state REJECT_INVALID "time-too-new")
  else (true, state).

Definition CheckIndexAgainstCheckpoint (st : index_state) (pindexPrev : nat) (state : CValidationState)
    : check :=
  b ← heap st !! pindexPrev;
  h ← phashBlock b;
  if bool_decide (h = hashGenesisBlock params) then Some (true, state)
  else
    match GetLastCheckpoint (mapBlockIndex st) params with
    | None => Some (true, state)
    | Some c =>
        pcheckpoint ← heap st !! c;
        if nHeight b + 1 <? nHeight pcheckpoint then Some (false, DoS state 100 0 EmptyString)
        else Some (true, state)
    end.

(** The last height with the lenient rule of the main network. *)
Definition DGW_PRE_FORK : Z := 68589.

(** The check of [nBits]. *)
Definition bad_diffbits (s : store) (pindexPrev : nat) (block : CBlockHeader) : option bool :=
  b ← s !! pindexPrev;
  nBitsNext ← GetNextWorkRequired pow s (Some pindexPrev) (PowHash.nTime block) (consensus params);
  Some (if network_is_main params && (nHeight b + 1 <=? DGW_PRE_FORK)
        then too_far (ConvertBitsToDouble (PowHash.nBits block)) (ConvertBitsToDouble nBitsNext)
        else negb (PowHash.nBits block =? nBitsNext)).

(** The rule against blocks with a version less than [v]. *)
Definition outdated (s : store) (pindexPrev : nat) (block : CBlockHeader) (v : Z) : option bool :=
  if PowHash.nVersion block <? v
  then IsSuperMajority params s v (Some pindexPrev) (u32 (nMajorityRejectBlockOutdated params))
  else Some false.

Definition ContextualCheckBlockHeader (s : store) (block : CBlockHeader) (state : CValidationState)
    (pindexPrev : nat) : check :=
  bad ← bad_diffbits s pindexPrev block;
  if bad : bool then Some (false, DoS state 100 REJECT_INVALID "bad-diffbits")
  else
    m ← GetMedianTimePast s pindexPrev;
    if PowHash.nTime block <=? m then Some (false, Invalid state REJECT_INVALID "time-too-old")
    else
      o2 ← outdated s pindexPrev block 2;
      if o2 : bool then Some (false, Invalid state REJECT_OBSOLETE "bad-version")
      else
        o3 ← outdated s pindexPrev block 3;
        if o3 : bool then Some (false, Invalid state REJECT_OBSOLETE "bad-version")
        else
          o4 ← outdated s pindexPrev block 4;
          if o4 : bool then Some (false, Invalid state REJECT_OBSOLETE "bad-version")
          else Some (true, state).

(** The checks of [AcceptBlockHeader] for a header that is not the genesis block and is not
    known yet. *)
Definition check_new_header (st : index_state) (block : CBlockHeader) (state : CValidationState)
    : check :=
  let '(ok, state) := CheckBlockHeader block state true in
  if negb ok then Some (false, state)
  else
    match mapBlockIndex st !! hashPrevBlock block with
    | None => Some (false, DoS state 10 0 "bad-prevblk")
    | Some pindexPrev =>
        bp ← heap st !! pindexPrev;
        if negb (nStatus bp .& BLOCK_FAILED_MASK =? 0)
        then Some (false, DoS state 100 REJECT_INVALID "bad-prevblk")
        else
          '(ok, state) ← (if fCheckpointsEnabled then CheckIndexAgainstCheckpoint st pindexPrev state
                          else Some (true, state));
          if negb ok then Some (false, state)
          else ContextualCheckBlockHeader (heap st) block state pindexPrev
    end.

(** The result, with what [*ppindex] is set to; [None] when it is not written. *)
Definition AcceptBlockHeader (block : CBlockHeader) (st : index_state) (state : CValidationState)
    : option (index_state * CValidationState * bool * option nat) :=
  let add state := '(st', p) ← AddToBlockIndex GetHash block st; Some (st', state, true, Some p) in
  if bool_decide (GetHash block <> hashGenesisBlock params) then
    match mapBlockIndex st !! GetHash block with
    | Some pindex =>
        b ← heap st !! pindex;
        if negb (nStatus b .& BLOCK_FAILED_MASK =? 0)
        then Some (st, Invalid state 0 "duplicate", false, Some pindex)
        else Some (st, state, true, Some pindex)
    | None =>
        '(ok, state') ← check_new_header st block state;
        if negb ok then Some (st, state', false, None) else add state'
    end
  else add state.

(** The loop of [ProcessNewBlockHeaders]; [*ppindex] keeps its value when nothing is written. *)
Fixpoint ProcessNewBlockHeaders (headers : list CBlockHeader) (st : index_state)
    (state : CValidationState) (ppindex : option nat)
    : option (index_state * CValidationState * bool * option nat) :=
  match headers with
  | [] => Some (st, state, true, ppindex)
  | header :: headers =>
      '(st, state, ok, p) ← AcceptBlockHeader header st state;
      let ppindex := match p with Some p => Some p | None => ppindex end in
      if negb ok then Some (st, state, false, ppindex)
      else ProcessNewBlockHeaders headers st state ppindex
  end.
End Source.

(** ** Specification *)

(** A header as the program holds it: every field has its machine width. *)
Record header_typed (block : CBlockHeader) : Prop := {
  ht_version : - 2 ^ 31 <= PowHash.nVersion block < 2 ^ 31;
  ht_time : in_word 32 (PowHash.nTime block);
  ht_bits : in_word 32 (PowHash.nBits block);
  ht_nonce : in_word 32 (PowHash.nNonce block) }.

(** The blocks with a version of at least [v]. *)
Definition recent (s : store) (v : Z) (p : nat) : bool :=
  match s !! p with Some b => v <=? nVersion b | None => false end.

Section Rules.
Context (pow : spec_float -> spec_float -> spec_float) (GetHash : CBlockHeader -> list Z)
  (params : CChainParams) (adjusted_time : Z) (fCheckpointsEnabled : bool).

(** The rule for [nBits] of a block after [q], where [c] is the computed difficulty. *)
Definition bits_rule (s : store) (q : nat) (bits c : Z) : Prop :=
  if network_is_main params && (height_of s (Some q) + 1 <=? DGW_PRE_FORK)
  then too_far (ConvertBitsToDouble bits) (ConvertBitsToDouble c) = false
  else bits = c.

(** The rule for the version of a block after [q]: a version that [nRequired] of the last
    [nWindow] blocks have left behind is rejected. *)
Definition version_rule (s : store) (q : nat) (version : Z) : Prop :=
  forall v, 2 <= v <= 4 -> version < v ->
    votes s (recent s v) (Z.to_nat (nMajorityWindow params)) (Some q)
      < u32 (nMajorityRejectBlockOutdated params).

(** The block after [q] is not below the last known checkpoint. *)
Definition checkpoint_rule (st : index_state) (q : nat) (bq : CBlockIndex) : Prop :=
  fCheckpointsEnabled = true -> phashBlock bq <> Some (hashGenesisBlock params) ->
  forall c bc, GetLastCheckpoint (mapBlockIndex st) params = Some c -> heap st !! c = Some bc ->
    nHeight bc <= nHeight bq + 1.

(** What is demanded of a new header. *)
Record acceptable (st : index_state) (block : CBlockHeader) : Prop := {
  ac_pow : CheckProofOfWork (GetHash block) (PowHash.nBits block) (consensus params) = true;
  ac_future : PowHash.nTime block <= adjusted_time + 7200;
  ac_parent : exists q bq m c, mapBlockIndex st !! hashPrevBlock block = Some q /\
    heap st !! q = Some bq /\ nStatus bq .& BLOCK_FAILED_MASK = 0 /\ checkpoint_rule st q bq /\
    GetNextWorkRequired pow (heap st) (Some q) (PowHash.nTime block) (consensus params) = Some c /\
    bits_rule (heap st) q (PowHash.nBits block) c /\
    GetMedianTimePast (heap st) q = Some m /\ m < PowHash.nTime block /\
    version_rule (heap st) q (PowHash.nVersion block) }.
End Rules.

(** ** Lemmas *)

Lemma Invalid_invalid state code reason : mode (Invalid state code reason) <> MODE_VALID.
Proof. apply DoS_invalid. Qed.
#[export] Hint Resolve DoS_invalid Invalid_invalid : core.

Lemma above_parent s p b : s !! p = Some b -> above s 1 (Some p) = pprev b.
Proof.
  intros Hb. cbn [above mbind option_bind up]. rewrite Hb. cbn. now destruct (pprev b).
Qed.

Lemma votes_nonneg s cond n q : 0 <= votes s cond n q.
Proof.
  revert q. induction n as [|n IH]; intros [p|]; cbn [votes]; try lia.
  specialize (IH (above s 1 (Some p))). destruct (cond p); lia.
Qed.

Lemma majority_loop_spec s n v q nReq nFound : wf_store s -> is_ptr s q ->
  exists x, majority_loop n s v q nReq nFound = Some x /\
    (nReq <= x <-> nReq <= nFound + votes s (recent s v) n q).
Proof.
  intros Hwf. revert q nFound. induction n as [|n IH]; intros q nFound Hq.
  - exists nFound. split; [done|]. cbn [votes]. lia.
  - cbn [majority_loop]. destruct (Z.ltb_spec nFound nReq) as [Hlt|Hge].
    + destruct q as [p|]; [|exists nFound; split; [done|cbn [votes]; lia]].
      destruct (Hq p eq_refl) as [b Hb]. rewrite Hb. cbn [mbind option_bind votes].
      rewrite (above_parent s p b Hb).
      destruct (IH (pprev b) (if v <=? nVersion b then nFound + 1 else nFound)) as (x & -> & Hx);
        [now apply (parent_is_ptr s Hwf p)|].
      exists x. split; [done|]. rewrite Hx. unfold recent at 2. rewrite Hb.
      destruct (v <=? nVersion b); lia.
    + exists nFound. split; [done|]. pose proof (votes_nonneg s (recent s v) (S n) q). lia.
Qed.

(** A check decides [P]: on success the validation state is kept, on failure it is invalid. *)
Definition decides (r : check) (state : CValidationState) (P : Prop) : Prop :=
  exists ok state', r = Some (ok, state') /\ (ok = true <-> P) /\
    (ok = true -> state' = state) /\ (ok = false -> mode state' <> MODE_VALID).

Lemma decides_yes state (P : Prop) : P -> decides (Some (true, state)) state P.
Proof. intros HP. now exists true, state. Qed.

Lemma decides_no state state' (P : Prop) : ~ P -> mode state' <> MODE_VALID ->
  decides (Some (false, state')) state P.
Proof. intros HP Hm. exists false, state'. split; [done|]. split; [split; done|done]. Qed.

Lemma decides_iff r state (P Q : Prop) : (P <-> Q) -> decides r state P -> decides r state Q.
Proof. intros HPQ (ok & st' & H1 & H2 & H3). exists ok, st'. rewrite <- HPQ. auto. Qed.

(** A failing check first: [b] is the code's test, [N] what it means. *)
Lemma decides_test (b : bool) (N : Prop) state' (r : check) state P :
  (b = true <-> N) -> mode state' <> MODE_VALID -> (P -> ~ N) -> (~ N -> decides r state P) ->
  decides (if b then Some (false, state') else r) state P.
Proof.
  intros Hb Hm HP Hr. destruct b.
  - apply decides_no; [|done]. intros H. apply (HP H). now apply Hb.
  - apply Hr. intros H. apply Hb in H. discriminate.
Qed.

Section Checks.
Context (pow : spec_float -> spec_float -> spec_float) (GetHash : CBlockHeader -> list Z)
  (params : CChainParams) (adjusted_time : Z) (fCheckpointsEnabled : bool).
Context (Hpar : params_ok (consensus params)).

Lemma outdated_spec s q b block v : wf_store s -> s !! q = Some b ->
  exists o, outdated params s q block v = Some o /\
    (o = true <-> PowHash.nVersion block < v /\
       u32 (nMajorityRejectBlockOutdated params)
         <= votes s (recent s v) (Z.to_nat (nMajorityWindow params)) (Some q)).
Proof.
  intros Hwf Hb. unfold outdated. destruct (Z.ltb_spec (PowHash.nVersion block) v).
  - unfold IsSuperMajority.
    destruct (majority_loop_spec s (Z.to_nat (nMajorityWindow params)) v (Some q)
      (u32 (nMajorityRejectBlockOutdated params)) 0 Hwf) as (x & -> & Hx); [intros p [= <-]; eauto|].
    eexists. split; [reflexivity|]. rewrite Z.leb_le, Hx. lia.
  - exists false. split; [done|]. split; [done|lia].
Qed.

(** What [ContextualCheckBlockHeader] demands of a block after [q]. *)
Definition contextual (s : store) (q : nat) (block : CBlockHeader) : Prop :=
  exists m c,
    GetNextWorkRequired pow s (Some q) (PowHash.nTime block) (consensus params) = Some c /\
    bits_rule params s q (PowHash.nBits block) c /\
    GetMedianTimePast s q = Some m /\ m < PowHash.nTime block /\
    version_rule params s q (PowHash.nVersion block).

Lemma bits_rule_stable s q bits c : ~ ~ bits_rule params s q bits c -> bits_rule params s q bits c.
Proof.
  unfold bits_rule. generalize (too_far (ConvertBitsToDouble bits) (ConvertBitsToDouble c)). intros far H.
  destruct (_ && _); [destruct far; [exfalso; apply H; discriminate|reflexivity]|].
  destruct (Z.eq_dec bits c); tauto.
Qed.

Lemma bad_diffbits_spec s q b block c : s !! q = Some b ->
  GetNextWorkRequired pow s (Some q) (PowHash.nTime block) (consensus params) = Some c ->
  exists bad, bad_diffbits pow params s q block = Some bad /\
    (bad = true <-> ~ bits_rule params s q (PowHash.nBits block) c).
Proof.
  intros Hb Hc. unfold bad_diffbits. rewrite Hb. cbn [mbind option_bind]. rewrite Hc. cbn [mbind option_bind].
  eexists. split; [reflexivity|]. unfold bits_rule. rewrite (height_some s q b Hb).
  destruct (_ && _).
  - destruct (too_far _ _); split; done.
  - rewrite negb_true_iff, Z.eqb_neq. done.
Qed.

Lemma ContextualCheckBlockHeader_spec s q b block state :
  wf_store s -> fields_ok s -> s !! q = Some b ->
  decides (ContextualCheckBlockHeader pow params s block state q) state (contextual s q block).
Proof.
  intros Hwf Hf Hb. destruct (next_work_total pow s (consensus params) q b (PowHash.nTime block)
    Hwf Hf Hpar Hb) as (c & Hc & _).
  destruct (bad_diffbits_spec s q b block c Hb Hc) as (bad & Ebad & Hbad).
  destruct (GetMedianTimePast_some s Hwf q b Hb) as [m Hm].
  destruct (outdated_spec s q b block 2 Hwf Hb) as (o2 & E2 & H2).
  destruct (outdated_spec s q b block 3 Hwf Hb) as (o3 & E3 & H3).
  destruct (outdated_spec s q b block 4 Hwf Hb) as (o4 & E4 & H4).
  unfold ContextualCheckBlockHeader. rewrite Ebad, Hm, E2, E3, E4. cbn [mbind option_bind].
  apply (decides_test _ _ _ _ _ _ Hbad); [auto| |intros Hbits].
  { intros (m' & c' & Hc' & Hbits & _). rewrite Hc in Hc'. injection Hc' as <-. auto. }
  apply (decides_test _ _ _ _ _ _ (Z.leb_le _ _)); [auto| |intros Htime].
  { intros (m' & c' & _ & _ & Hm' & Hlt & _). rewrite Hm in Hm'. injection Hm' as <-. lia. }
  assert (Hrule : forall v, 2 <= v <= 4 -> contextual s q block ->
    ~ (PowHash.nVersion block < v /\ u32 (nMajorityRejectBlockOutdated params)
         <= votes s (recent s v) (Z.to_nat (nMajorityWindow params)) (Some q))).
  { intros v Hv (m' & c' & _ & _ & _ & _ & Hrule) [Hlt Hge]. specialize (Hrule v Hv Hlt). lia. }
  apply (decides_test _ _ _ _ _ _ H2); [auto|apply Hrule; lia|intros N2].
  apply (decides_test _ _ _ _ _ _ H3); [auto|apply Hrule; lia|intros N3].
  apply (decides_test _ _ _ _ _ _ H4); [auto|apply Hrule; lia|intros N4].
  apply decides_yes. exists m, c. split; [done|]. split.
  { now apply bits_rule_stable. }
  split; [done|]. split; [lia|]. intros v Hv Hlt.
  assert (v = 2 \/ v = 3 \/ v = 4) as [->|[->| ->]] by lia; lia.
Qed.
End Checks.

Lemma decides_bind (r : check) (k : CValidationState -> check) state (P Q : Prop) :
  decides r state P -> (Q -> P) -> (P -> decides (k state) state Q) ->
  decides ('(ok, state) ← r; if negb ok then Some (false, state) else k state) state Q.
Proof.
  intros (ok & st' & -> & HP & H1 & H2) HQ Hk. cbn [mbind option_bind]. destruct ok; cbn [negb].
  - rewrite (H1 eq_refl). now apply Hk, HP.
  - apply decides_no; [|now apply H2]. intros H. apply HQ, HP in H. discriminate.
Qed.

Section Accept.
Context (pow : spec_float -> spec_float -> spec_float) (GetHash : CBlockHeader -> list Z)
  (params : CChainParams) (adjusted_time : Z) (fCheckpointsEnabled : bool).
Context (Hpar : params_ok (consensus params)).

Lemma last_checkpoint_in map cps c : last_checkpoint map cps = Some c -> exists h, map !! h = Some c.
Proof.
  induction cps as [|i cps IH]; cbn [last_checkpoint]; [done|].
  destruct (map !! i.2) eqn:E; [|done]. intros [= <-]. eauto.
Qed.

Lemma CheckIndexAgainstCheckpoint_spec st q bq state : index_ok st -> heap st !! q = Some bq ->
  decides (if fCheckpointsEnabled then CheckIndexAgainstCheckpoint params st q state
           else Some (true, state)) state (checkpoint_rule params fCheckpointsEnabled st q bq).
Proof.
  intros Hst Hq. unfold checkpoint_rule. destruct fCheckpointsEnabled; [|apply decides_yes; done].
  unfold CheckIndexAgainstCheckpoint. rewrite Hq. cbn [mbind option_bind].
  destruct (io_hash _ Hst q bq Hq) as (h & Eh & _). rewrite Eh. cbn [mbind option_bind].
  case_bool_decide as Hg; [apply decides_yes; intros _ Hne; congruence|].
  destruct (GetLastCheckpoint (mapBlockIndex st) params) as [c|] eqn:Ec; [|apply decides_yes; intros; congruence].
  destruct (last_checkpoint_in _ _ _ Ec) as [hc Hc]. destruct (io_map _ Hst hc c Hc) as (bc & Hbc & _).
  rewrite Hbc. cbn [mbind option_bind].
  apply (decides_test _ _ _ _ _ _ (Z.ltb_lt _ _)); [auto| |].
  - intros H. specialize (H eq_refl ltac:(congruence) c bc eq_refl Hbc). lia.
  - intros H. apply decides_yes. intros _ _ c' bc' [= <-] Hbc'. rewrite Hbc in Hbc'. injection Hbc' as <-. lia.
Qed.

Lemma check_new_header_spec st block state : index_ok st ->
  decides (check_new_header pow GetHash params adjusted_time fCheckpointsEnabled st block state) state
    (acceptable pow GetHash params adjusted_time fCheckpointsEnabled st block).
Proof.
  intros Hst. unfold check_new_header, CheckBlockHeader.
  destruct (CheckProofOfWork (GetHash block) (PowHash.nBits block) (consensus params)) eqn:Hpow; cbn [negb];
    [|apply decides_no; [intros [H _ _]; congruence|auto]].
  destruct (Z.ltb_spec (adjusted_time + 2 * 60 * 60) (PowHash.nTime block)) as [Hfut|Hfut]; cbn [negb];
    [apply decides_no; [intros [_ H _]; lia|auto]|].
  destruct (mapBlockIndex st !! hashPrevBlock block) as [q|] eqn:Hprev;
    [|apply decides_no; [intros [_ _ (q & ? & ? & ? & H & _)]; congruence|auto]].
  destruct (io_map _ Hst _ q Hprev) as (bq & Hq & _). rewrite Hq. cbn [mbind option_bind].
  assert (Hparent : acceptable pow GetHash params adjusted_time fCheckpointsEnabled st block <->
    nStatus bq .& BLOCK_FAILED_MASK = 0 /\ checkpoint_rule params fCheckpointsEnabled st q bq /\
    contextual pow params (heap st) q block).
  { split.
    - intros [_ _ (q' & bq' & m & c & E1 & E2 & H1 & H2 & H)]. rewrite Hprev in E1. injection E1 as <-.
      rewrite Hq in E2. injection E2 as <-. split; [exact H1|]. split; [exact H2|].
      exists m, c. exact H.
    - intros (H1 & H2 & m & c & H). split; [exact Hpow|lia|].
      exists q, bq, m, c. exact (conj Hprev (conj Hq (conj H1 (conj H2 H)))). }
  apply (decides_iff _ _ _ _ (iff_sym Hparent)).
  apply (decides_test _ (nStatus bq .& BLOCK_FAILED_MASK <> 0)); [|auto|tauto|intros Hf].
  { rewrite negb_true_iff, Z.eqb_neq. done. }
  apply (decides_bind _ _ _ (checkpoint_rule params fCheckpointsEnabled st q bq));
    [now apply CheckIndexAgainstCheckpoint_spec|tauto|intros Hcp].
  apply (decides_iff _ _ (contextual pow params (heap st) q block)).
  { destruct (Z.eq_dec (nStatus bq .& BLOCK_FAILED_MASK) 0); tauto. }
  apply (ContextualCheckBlockHeader_spec pow params Hpar _ q bq); [apply Hst|apply Hst|done].
Qed.
End Accept.

(** ** The invariant of an index built by accepting headers *)

Section Invariant.
Context (pow : spec_float -> spec_float -> spec_float) (GetHash : CBlockHeader -> list Z)
  (params : CChainParams) (Hpar : params_ok (consensus params)).
(** No header has the hash that the genesis block names as its parent's. *)
Context (Hgen : forall block block', GetHash block = hashGenesisBlock params ->
  GetHash block' <> hashPrevBlock block).

(** The entry holds the header [block]. *)
Record entry_of (block : CBlockHeader) (b : CBlockIndex) : Prop := {
  en_hash : phashBlock b = Some (GetHash block);
  en_time : nTime b = PowHash.nTime block;
  en_bits : nBits b = PowHash.nBits block;
  en_version : nVersion b = PowHash.nVersion block;
  en_nonce : nNonce b = PowHash.nNonce block }.

(** An entry is the genesis block or has passed the checks against its parent. *)
Definition entry_valid (s : store) (b : CBlockIndex) : Prop :=
  exists block, entry_of block b /\ header_typed block /\
    ((GetHash block = hashGenesisBlock params /\ pprev b = None) \/
     (CheckProofOfWork (GetHash block) (PowHash.nBits block) (consensus params) = true /\
      exists q, pprev b = Some q /\ contextual pow params s q block)).

Record headers_ok (st : index_state) : Prop := {
  ho_index : index_ok st;
  ho_valid : forall p b, heap st !! p = Some b -> entry_valid (heap st) b;
  ho_status : forall p b, heap st !! p = Some b ->
    nStatus b = BLOCK_VALID_TREE /\ nHeight b < Z.of_nat (length (heap st)) }.

Lemma headers_ok_empty : headers_ok empty_index.
Proof. split; [exact index_ok_empty|done|done]. Qed.

(** The rule for times is one of the checks. *)
Lemma headers_times st : headers_ok st -> times_ok (heap st).
Proof.
  intros [Hst Hv _] p b q m Hb Hq Hm. destruct (Hv p b Hb) as (block & Hof & _ & [[_ H]|[_ H]]); [congruence|].
  destruct H as (q' & Hq' & m' & c & _ & _ & Hm' & Hlt & _). rewrite Hq in Hq'. injection Hq' as <-.
  rewrite Hm in Hm'. injection Hm' as <-. now rewrite (en_time _ _ Hof).
Qed.

(** The checks against the parent do not depend on later blocks. *)
Lemma contextual_grows s s' q bq block : grows s s' -> wf_store s -> s !! q = Some bq ->
  contextual pow params s q block -> contextual pow params s' q block.
Proof.
  intros Hs Hwf Hq (m & c & Hc & Hb & Hm & Hlt & Hv).
  assert (Hp : is_ptr s (Some q)) by (intros r [= <-]; eauto). exists m, c. split; [|split; [|split; [|split]]].
  - now apply (refines_GetNextWorkRequired s s' Hs).
  - unfold bits_rule in *. now rewrite (height_same s s' Hs _ Hp).
  - now apply (refines_GetMedianTimePast s s' Hs).
  - exact Hlt.
  - intros v Hv1 Hv2. rewrite (votes_same s s' Hs Hwf (recent s v)); [now apply Hv| |exact Hp].
    intros p b Hb'. unfold recent. now rewrite Hb', (Hs p b Hb').
Qed.

Lemma entry_valid_grows s s' p b : grows s s' -> wf_store s -> s !! p = Some b ->
  entry_valid s b -> entry_valid s' b.
Proof.
  intros Hs Hwf Hb (block & Hof & Ht & [H|(Hpow & q & Hq & Hc)]); exists block; split; [done| |done|];
    (split; [done|]); [now left|right]. split; [done|]. exists q. split; [done|].
  destruct (parent_is_ptr s Hwf p b Hb q Hq) as [bq Hbq]. now apply (contextual_grows s s' q bq).
Qed.

(** A header that may enter the index. *)
Definition admissible (st : index_state) (block : CBlockHeader) : Prop :=
  GetHash block = hashGenesisBlock params \/
  (CheckProofOfWork (GetHash block) (PowHash.nBits block) (consensus params) = true /\
   exists q bq, mapBlockIndex st !! hashPrevBlock block = Some q /\ heap st !! q = Some bq /\
     contextual pow params (heap st) q block).

Lemma genesis_no_parent st block : headers_ok st -> GetHash block = hashGenesisBlock params ->
  mapBlockIndex st !! hashPrevBlock block = None.
Proof.
  intros Hst Hg. destruct (mapBlockIndex st !! hashPrevBlock block) as [q|] eqn:E; [|done]. exfalso.
  destruct (io_map _ (ho_index _ Hst) _ q E) as (bq & Hq & Hh).
  destruct (ho_valid _ Hst q bq Hq) as (block' & Hof & _). rewrite (en_hash _ _ Hof) in Hh.
  injection Hh as Hh. now apply (Hgen block block').
Qed.

Lemma add_header_ok st block : headers_ok st -> header_typed block -> admissible st block ->
  mapBlockIndex st !! GetHash block = None ->
  exists st' p, AddToBlockIndex GetHash block st = Some (st', p) /\ headers_ok st' /\
    mapBlockIndex st' !! GetHash block = Some p /\ grows (heap st) (heap st').
Proof.
  intros Hst Ht Had Hnew. assert (Hok : new_header_ok GetHash block).
  { split; [apply Ht|apply Ht|]. destruct Had as [Hg|(_ & q & bq & Hq & _)]; [now apply Hgen|congruence]. }
  pose proof (ho_index _ Hst) as Hi.
  destruct (AddToBlockIndex_new GetHash block st Hok Hi Hnew) as (b & best & EA & Hb & Hbest).
  pose proof (index_ok_added GetHash block st Hok Hi Hnew b best Hb Hbest) as Hi'.
  eexists _, _. split; [exact EA|]. cbn [heap mapBlockIndex] in *.
  split; [|split; [apply lookup_insert_eq|apply grows_app]].
  pose proof (grows_app (heap st) [b]) as Hgr. pose proof (io_store _ Hi) as Hwf.
  split; [exact Hi'| |]; cbn [heap]; intros p c Hc; apply lookup_snoc_cases in Hc as [Hc|[-> ->]].
  - apply (entry_valid_grows (heap st) _ p c); [done|done|done|]. now apply (ho_valid _ Hst p).
  - exists block. destruct (ad_header _ _ _ _ Hb) as (Hv & Hn & _). split; [|split; [exact Ht|]].
    { split; [apply Hb|apply Hb|apply Hb|exact Hv|exact Hn]. }
    destruct Had as [Hg|(Hpow & q & bq & Hq & Hbq & Hc)].
    + left. split; [done|]. rewrite (ad_prev _ _ _ _ Hb). now apply genesis_no_parent.
    + right. split; [done|]. exists q. rewrite (ad_prev _ _ _ _ Hb). split; [done|].
      now apply (contextual_grows (heap st) _ q bq).
  - destruct (ho_status _ Hst p c Hc) as [H1 H2]. split; [done|]. rewrite length_app. simpl. lia.
  - split; [apply Hb|]. rewrite length_app. simpl. pose proof (ad_entry _ _ _ _ Hb) as He. unfold new_entry in He.
    destruct (pprev b) as [q|]; [|lia]. destruct He as (bq & Hbq & -> & _).
    pose proof (proj2 (ho_status _ Hst q bq Hbq)). lia.
Qed.

Section Time.
Context (adjusted_time : Z) (fCheckpointsEnabled : bool).

Lemma acceptable_admissible st block :
  acceptable pow GetHash params adjusted_time fCheckpointsEnabled st block -> admissible st block.
Proof.
  intros [Hpow _ (q & bq & m & c & H1 & H2 & _ & _ & H)]. right. split; [exact Hpow|].
  exists q, bq. split; [exact H1|]. split; [exact H2|]. exists m, c. exact H.
Qed.

(** When a header is accepted: the genesis block, a header that is known, or a new one that
    passes the checks. *)
Definition accepts (st : index_state) (block : CBlockHeader) : Prop :=
  GetHash block = hashGenesisBlock params \/
  (exists p, mapBlockIndex st !! GetHash block = Some p) \/
  acceptable pow GetHash params adjusted_time fCheckpointsEnabled st block.

Definition accept_result (st : index_state) (block : CBlockHeader) (state : CValidationState)
    (r : option (index_state * CValidationState * bool * option nat)) : Prop :=
  exists st' state' ok q, r = Some (st', state', ok, q) /\ headers_ok st' /\
    grows (heap st) (heap st') /\ (ok = true <-> accepts st block) /\
    (ok = false -> st' = st /\ mode state' <> MODE_VALID) /\
    (ok = true -> state' = state /\ exists p b, q = Some p /\ heap st' !! p = Some b /\
       phashBlock b = Some (GetHash block) /\ mapBlockIndex st' !! GetHash block = Some p).

Lemma accept_new st block state : headers_ok st -> header_typed block -> accepts st block ->
  admissible st block -> mapBlockIndex st !! GetHash block = None ->
  accept_result st block state
    ('(st', p) ← AddToBlockIndex GetHash block st; Some (st', state, true, Some p)).
Proof.
  intros Hst Ht Hacc Had Hnew.
  destruct (add_header_ok st block Hst Ht Had Hnew) as (st' & p & -> & Hst' & Hp & Hgr).
  cbn [mbind option_bind]. exists st', state, true, (Some p). split; [done|]. split; [done|].
  split; [done|]. split; [done|]. split; [done|]. intros _. split; [done|].
  destruct (io_map _ (ho_index _ Hst') _ p Hp) as (b & Hb & Hh). now exists p, b.
Qed.

Lemma accept_known st block state p : headers_ok st -> mapBlockIndex st !! GetHash block = Some p ->
  accept_result st block state (Some (st, state, true, Some p)).
Proof.
  intros Hst Hp. exists st, state, true, (Some p). split; [done|]. split; [done|].
  split; [apply grows_refl|]. split; [split; [|done]; intros _; right; left; eauto|]. split; [done|].
  intros _. split; [done|]. destruct (io_map _ (ho_index _ Hst) _ p Hp) as (b & Hb & Hh). now exists p, b.
Qed.

Lemma AcceptBlockHeader_spec st block state : headers_ok st -> header_typed block ->
  accept_result st block state
    (AcceptBlockHeader pow GetHash params adjusted_time fCheckpointsEnabled block st state).
Proof.
  intros Hst Ht. unfold AcceptBlockHeader. case_bool_decide as Hg.
  - destruct (mapBlockIndex st !! GetHash block) as [p|] eqn:Em.
    + destruct (io_map _ (ho_index _ Hst) _ p Em) as (b & Hb & Hh). rewrite Hb. cbn [mbind option_bind].
      rewrite (proj1 (ho_status _ Hst p b Hb)). now apply accept_known.
    + destruct (check_new_header_spec pow GetHash params adjusted_time fCheckpointsEnabled Hpar st block state
        (ho_index _ Hst)) as (ok & state' & -> & Hok & H1 & H2). cbn [mbind option_bind].
      destruct ok; cbn [negb].
      * rewrite (H1 eq_refl). pose proof (proj1 Hok eq_refl) as Hac.
        apply accept_new; [done|done|right; right; exact Hac|now apply acceptable_admissible|done].
      * exists st, state', false, None. split; [done|]. split; [done|]. split; [apply grows_refl|].
        split; [|split; [auto|done]]. split; [done|]. intros [H|[[p H]|H]]; [done|congruence|now apply Hok].
  - assert (Hgh : GetHash block = hashGenesisBlock params) by (destruct (decide (GetHash block = hashGenesisBlock params)); tauto).
    destruct (mapBlockIndex st !! GetHash block) as [p|] eqn:Em.
    + unfold AddToBlockIndex. rewrite Em. cbn [mbind option_bind]. now apply accept_known.
    + apply accept_new; [done|done|now left|now left|done].
Qed.

Lemma ProcessNewBlockHeaders_spec headers st state pp : headers_ok st -> Forall header_typed headers ->
  exists st' state' ok q,
    ProcessNewBlockHeaders pow GetHash params adjusted_time fCheckpointsEnabled headers st state pp =
      Some (st', state', ok, q) /\ headers_ok st' /\ grows (heap st) (heap st') /\
    (ok = true -> state' = state /\ Forall (fun block => is_Some (mapBlockIndex st' !! GetHash block)) headers) /\
    (ok = false -> mode state' <> MODE_VALID).
Proof.
  intros Hst Hh. revert st state pp Hst. induction Hh as [|block headers Hb Hh IH]; intros st state pp Hst.
  - exists st, state, true, pp. split; [done|]. split; [done|]. split; [apply grows_refl|]. done.
  - cbn [ProcessNewBlockHeaders].
    destruct (AcceptBlockHeader_spec st block state Hst Hb) as (st1 & state1 & ok & q & -> & Hst1 & Hg1 & _ & Hno & Hyes).
    cbn [mbind option_bind]. destruct ok; cbn [negb].
    + destruct (Hyes eq_refl) as (-> & p & b & -> & Hpb & Hhash & Hmap).
      destruct (IH st1 state (Some p) Hst1) as (st2 & state2 & ok2 & q2 & -> & Hst2 & Hg2 & Hy2 & Hn2).
      exists st2, state2, ok2, q2. split; [done|]. split; [done|]. split; [now apply (grows_trans _ (heap st1))|].
      split; [|done]. intros E. destruct (Hy2 E) as [H1 H2]. split; [done|]. constructor; [|done].
      destruct (io_hash _ (ho_index _ Hst2) p b (Hg2 p b Hpb)) as (h & Eh & Em).
      rewrite Hhash in Eh. injection Eh as <-. now rewrite Em.
    + exists st1, state1, false, (match q with Some p => Some p | None => pp end). split; [done|].
      split; [done|]. split; [done|]. split; [done|]. intros _. now apply Hno.
Qed.
End Time.
End Invariant.

(** ** Properties *)

Section Reachable.
Context (pow : spec_float -> spec_float -> spec_float) (GetHash : CBlockHeader -> list Z)
  (params : CChainParams).

(** The indexes that arise from the empty one by batches of headers, at any times. *)
Inductive accepted : index_state -> Prop :=
  | accepted_empty : accepted empty_index
  | accepted_batch adjusted_time fCheckpointsEnabled headers st state pp st' state' ok q :
      accepted st -> Forall header_typed headers ->
      ProcessNewBlockHeaders pow GetHash params adjusted_time fCheckpointsEnabled headers st state pp =
        Some (st', state', ok, q) -> accepted st'.

Lemma accepted_ok st : params_ok (consensus params) ->
  (forall block block', GetHash block = hashGenesisBlock params -> GetHash block' <> hashPrevBlock block) ->
  accepted st -> headers_ok pow GetHash params st.
Proof.
  intros Hpar Hgen. induction 1 as [|t cp headers st state pp st' state' ok q _ IH Hh E].
  - apply headers_ok_empty.
  - destruct (ProcessNewBlockHeaders_spec pow GetHash params Hpar Hgen t cp headers st state pp IH Hh)
      as (st1 & state1 & ok1 & q1 & E1 & H & _). rewrite E in E1. now injection E1 as -> _ _ _.
Qed.
End Reachable.

(** C21. On an index that was built by accepting headers [AcceptBlockHeader] ends without a
    failed assertion.  It accepts exactly the genesis block, the headers it knows, and the
    new headers that pass every check: proof of work, not more than two hours in the
    future, a known parent, not before the last checkpoint, the difficulty of its height, a
    time after the median of its parent, and a version that the majority has not left
    behind.  An accepted header is in the index; a rejected one leaves the index as it was
    and the validation state invalid. *)
Theorem AcceptBlockHeader_correct pow GetHash params adjusted_time fCheckpointsEnabled st block state :
  params_ok (consensus params) ->
  (forall block block', GetHash block = hashGenesisBlock params -> GetHash block' <> hashPrevBlock block) ->
  accepted pow GetHash params st -> header_typed block ->
  exists st' state' ok q,
    AcceptBlockHeader pow GetHash params adjusted_time fCheckpointsEnabled block st state =
      Some (st', state', ok, q) /\
    (ok = true <->
       GetHash block = hashGenesisBlock params \/
       (exists p, mapBlockIndex st !! GetHash block = Some p) \/
       acceptable pow GetHash params adjusted_time fCheckpointsEnabled st block) /\
    (ok = false -> st' = st /\ mode state' <> MODE_VALID) /\
    (ok = true -> state' = state /\ exists p b, q = Some p /\ heap st' !! p = Some b /\
       phashBlock b = Some (GetHash block) /\ mapBlockIndex st' !! GetHash block = Some p) /\
    (forall p b, heap st !! p = Some b -> heap st' !! p = Some b).
Proof.
  intros Hpar Hgen Hst Hb.
  destruct (AcceptBlockHeader_spec pow GetHash params Hpar Hgen adjusted_time fCheckpointsEnabled st block state
    (accepted_ok pow GetHash params st Hpar Hgen Hst) Hb) as (st' & state' & ok & q & E & _ & Hg & H1 & H2 & H3).
  exists st', state', ok, q. split; [exact E|]. split; [exact H1|]. split; [exact H2|].
  split; [exact H3|exact Hg].
Qed.

(** C12. In every index that was built by accepting headers, whatever was offered in whatever
    order, every block but the genesis block has a parent, its hash is a proof of work for
    its target, its target is the one the difficulty rules ask for after its parent (or
    within the tolerance of the early main network), and its time is after the median
    time of its parent; so median times never decrease along a chain. *)
Theorem accepted_headers_valid pow GetHash params st p b :
  params_ok (consensus params) ->
  (forall block block', GetHash block = hashGenesisBlock params -> GetHash block' <> hashPrevBlock block) ->
  accepted pow GetHash params st -> heap st !! p = Some b ->
  (phashBlock b = Some (hashGenesisBlock params) /\ pprev b = None) \/
  exists h q m c, phashBlock b = Some h /\ CheckProofOfWork h (nBits b) (consensus params) = true /\
    pprev b = Some q /\
    GetNextWorkRequired pow (heap st) (Some q) (nTime b) (consensus params) = Some c /\
    bits_rule params (heap st) q (nBits b) c /\
    GetMedianTimePast (heap st) q = Some m /\ m < nTime b /\
    forall m', GetMedianTimePast (heap st) p = Some m' -> m <= m'.
Proof.
  intros Hpar Hgen Hst Hp. pose proof (accepted_ok pow GetHash params st Hpar Hgen Hst) as Hok.
  destruct (ho_valid _ _ _ _ Hok p b Hp) as (block & [E1 E2 E3 _ _] & _ & [[Hg Hq]|(Hpow & q & Hq & Hc)]).
  - left. now rewrite E1, Hg.
  - right. destruct Hc as (m & c & Hc & Hb & Hm & Hlt & _). exists (GetHash block), q, m, c.
    rewrite E2, E3. split; [exact E1|]. split; [exact Hpow|]. split; [exact Hq|]. split; [exact Hc|].
    split; [exact Hb|]. split; [exact Hm|]. split; [exact Hlt|]. intros m' Hm'.
    apply (GetMedianTimePast_step (heap st) p b q m m' Hp Hq Hm); [rewrite E2; lia|exact Hm'].
Qed.

(** C36. The entries of such an index are well typed: the fields of the header have their
    machine widths, the height is that of a node in a tree with as many nodes as there are
    entries, the work is a number of 256 bits and the status is [BLOCK_VALID_TREE]. *)
Theorem accepted_index_typed pow GetHash params st p b :
  params_ok (consensus params) ->
  (forall block block', GetHash block = hashGenesisBlock params -> GetHash block' <> hashPrevBlock block) ->
  accepted pow GetHash params st -> heap st !! p = Some b ->
  - 2 ^ 31 <= nVersion b < 2 ^ 31 /\ in_word 32 (nTime b) /\ in_word 32 (nBits b) /\
  in_word 32 (nNonce b) /\ 0 <= nHeight b < Z.of_nat (length (heap st)) /\
  num (nChainWork b) /\ nStatus b = BLOCK_VALID_TREE.
Proof.
  intros Hpar Hgen Hst Hp. pose proof (accepted_ok pow GetHash params st Hpar Hgen Hst) as Hok.
  destruct (ho_valid _ _ _ _ Hok p b Hp) as (block & [_ E2 E3 E4 E5] & [H1 H2 H3 H4] & _).
  destruct (ho_status _ _ _ _ Hok p b Hp) as [Hs Hh].
  destruct (io_work _ (ho_index _ _ _ _ Hok) p b Hp) as [Hn _].
  pose proof (eo_height _ _ _ (io_store _ (ho_index _ _ _ _ Hok) p b Hp)).
  rewrite E2, E3, E4, E5. split; [exact H1|]. split; [exact H2|]. split; [exact H3|]. split; [exact H4|].
  split; [lia|]. split; [exact Hn|exact Hs].
Qed.

(** ** Version bits on a growing index *)

Lemma version_bits_ext params sig sig' n i v : (forall pos, sig pos = sig' pos) ->
  version_bits params sig n i v = version_bits params sig' n i v.
Proof.
  intros H. revert i v. induction n as [|n IH]; intros i v; [done|]. cbn [version_bits]. now rewrite H, IH.
Qed.

Lemma version_after_same params s s' mn assume q : grows s s' -> wf_store s -> is_ptr s q ->
  version_after params s' mn assume q = version_after params s mn assume q.
Proof.
  intros Hs Hwf Hq. apply version_bits_ext. intros pos. unfold signals.
  destruct (vDeployments params !! pos) as [d|]; [|done]. unfold deployment_state.
  rewrite (state_after_same s s' Hs Hwf _ (vb_cond s d) (vb_cond s' d) (vb_cond_same s s' Hs d) q Hq).
  now rewrite (height_same s s' Hs q Hq).
Qed.

(** On an index built by accepting headers the version of the block after any block [q]
    is always computed, and it is computed again as the same number, from the caches that
    the first computation left, after any batch of headers was processed: the global
    caches need not be cleared when the index grows. *)
Theorem ComputeBlockVersion_stable pow GetHash params bip9 mn assume st q cache
    t cp headers state pp st' state' ok p :
  params_ok (consensus params) ->
  (forall block block', GetHash block = hashGenesisBlock params -> GetHash block' <> hashPrevBlock block) ->
  length (vDeployments bip9) = MAX_VERSION_BITS_DEPLOYMENTS ->
  (forall pos d, vDeployments bip9 !! pos = Some d -> deployment_ok bip9 d) ->
  accepted pow GetHash params st -> is_ptr (heap st) q -> caches_ok bip9 (heap st) cache ->
  Forall header_typed headers ->
  ProcessNewBlockHeaders pow GetHash params t cp headers st state pp = Some (st', state', ok, p) ->
  exists v cache1 cache2,
    ComputeBlockVersion bip9 mn (heap st) q assume cache = Some (v, cache1) /\
    ComputeBlockVersion bip9 mn (heap st') q assume cache1 = Some (v, cache2) /\
    caches_ok bip9 (heap st') cache2.
Proof.
  intros Hpar Hgen Hn Hd Hst Hq Hc Hh E. pose proof (accepted_ok pow GetHash params st Hpar Hgen Hst) as Hok.
  destruct (ProcessNewBlockHeaders_spec pow GetHash params Hpar Hgen t cp headers st state pp Hok Hh)
    as (st1 & state1 & ok1 & q1 & E1 & Hok' & Hg & _). rewrite E in E1. injection E1 as -> _ _ _.
  pose proof (io_store _ (ho_index _ _ _ _ Hok)) as Hwf. pose proof (io_store _ (ho_index _ _ _ _ Hok')) as Hwf'.
  destruct (ComputeBlockVersion_spec bip9 (heap st) Hwf (headers_times _ _ _ _ Hok) Hd Hn mn assume q cache Hq Hc)
    as (c1 & Ec1 & Hc1).
  destruct (ComputeBlockVersion_spec bip9 (heap st1) Hwf' (headers_times _ _ _ _ Hok') Hd Hn mn assume q c1
    (is_ptr_grows _ _ Hg q Hq) (caches_ok_grows _ _ Hg Hwf bip9 c1 Hc1)) as (c2 & Ec2 & Hc2).
  rewrite (version_after_same bip9 _ _ mn assume q Hg Hwf Hq) in Ec2. eauto 8.
Qed.

(** *** A concrete index: a genesis block and seven headers on it *)

Definition test_GetHash (h : CBlockHeader) : list Z :=
  le_split 31 (PowHash.nNonce h) ++ [if bool_decide (hashPrevBlock h = replicate 32 255) then 1 else 0].
Definition test_header (prev : list Z) (n : Z) : CBlockHeader :=
  mk_header 0x20000002 prev (replicate 32 2) (1000 + 150 * n) 0x1e0ffff0 n.
Definition test_genesis : CBlockHeader := test_header (replicate 32 255) 0.
Definition test_child (n : Z) : CBlockHeader :=
  test_header (test_GetHash (if n =? 1 then test_genesis else test_header [] (n - 1))) n.
Definition test_params : CChainParams :=
  mk_chainparams main_params false (test_GetHash test_genesis) 950 1000 [(2, test_GetHash (test_child 2))].
Definition test_process (headers : list CBlockHeader) (st : index_state) : index_state :=
  match ProcessNewBlockHeaders (fun x y => x) test_GetHash test_params 5000 true headers st
          CValidationState_new None with
  | Some (st', _, _, _) => st'
  | None => st
  end.
Definition test_index : index_state := test_process [test_genesis; test_child 1; test_child 2; test_child 3] empty_index.

Lemma test_typed prev n : in_word 32 n -> 0 <= n < 1000 -> header_typed (test_header prev n).
Proof.
  intros Hn Hn'. split; cbn; [lia|unfold in_word; lia|by_eval|exact Hn].
Qed.

Lemma test_headers_typed : Forall header_typed [test_genesis; test_child 1; test_child 2; test_child 3].
Proof. repeat constructor; apply test_typed; unfold in_word; lia. Qed.


Lemma test_rootless block block' : test_GetHash block = hashGenesisBlock test_params ->
  test_GetHash block' <> hashPrevBlock block.
Proof.
  intros H1 H2. apply (f_equal (fun l => l !! 31%nat)) in H1.
  unfold test_GetHash in H1. cbn [hashGenesisBlock test_params] in H1. unfold test_GetHash in H1.
  rewrite !lookup_app_r, !length_le_split in H1 by (rewrite length_le_split; lia). cbn in H1.
  case_bool_decide as Hp; [|discriminate]. rewrite Hp in H2.
  apply (f_equal (fun l => l !! 31%nat)) in H2. unfold test_GetHash in H2.
  rewrite lookup_app_r, length_le_split in H2 by (rewrite length_le_split; lia). cbn in H2.
  case_bool_decide; discriminate.
Qed.

Lemma test_index_accepted : accepted (fun x y => x) test_GetHash test_params test_index.
Proof.
  unfold test_index, test_process.
  destruct (ProcessNewBlockHeaders (fun x y => x) test_GetHash test_params 5000 true
    [test_genesis; test_child 1; test_child 2; test_child 3] empty_index CValidationState_new None)
    as [[[[st' state'] ok] q]|] eqn:E; [|constructor].
  exact (accepted_batch _ _ _ 5000 true _ _ _ _ _ _ _ _ (accepted_empty _ _ _) test_headers_typed E).
Qed.

(** The batch was accepted; of other headers a new one, a known one and a second child of the
    genesis block (which is exempt from the checkpoint at height 2) are accepted, and every
    rule rejects one. *)
Example test_index_size : length (heap test_index) = 4%nat.
Proof. vm_compute. reflexivity. Qed.
Definition test_verdict (block : CBlockHeader) : option (bool * string) :=
  match AcceptBlockHeader (fun x y => x) test_GetHash test_params 5000 true block test_index CValidationState_new with
  | Some (_, state, ok, _) => Some (ok, strRejectReason state)
  | None => None
  end.
Example test_verdicts :
  [test_verdict (test_child 4); test_verdict (test_child 3); test_verdict (test_child 6);
   test_verdict (mk_header 2 (test_GetHash (test_child 3)) [] 1200 0x1e0ffff0 9);
   test_verdict (mk_header 2 (test_GetHash (test_child 3)) [] 2000 0x1e0fffff 9);
   test_verdict (mk_header 2 (test_GetHash (test_child 3)) [] 20000 0x1e0ffff0 9);
   test_verdict (mk_header 2 (test_GetHash (test_child 3)) [] 2000 0x1e0ffff0 (2 ^ 240));
   test_verdict (mk_header 2 (test_GetHash test_genesis) [] 2000 0x1e0ffff0 9)]
  = [Some (true, EmptyString); Some (true, EmptyString); Some (false, "bad-prevblk"); Some (false, "time-too-old");
     Some (false, "bad-diffbits"); Some (false, "time-too-new"); Some (false, "high-hash");
     Some (true, EmptyString)].
Proof. vm_compute. reflexivity. Qed.

Lemma AcceptBlockHeader_correct_witness :
  exists st' state' ok q,
    AcceptBlockHeader (fun x y => x) test_GetHash test_params 5000 true (test_child 4) test_index
      CValidationState_new = Some (st', state', ok, q) /\
    (ok = true <->
       test_GetHash (test_child 4) = hashGenesisBlock test_params \/
       (exists p, mapBlockIndex test_index !! test_GetHash (test_child 4) = Some p) \/
       acceptable (fun x y => x) test_GetHash test_params 5000 true test_index (test_child 4)) /\
    (ok = false -> st' = test_index /\ mode state' <> MODE_VALID) /\
    (ok = true -> state' = CValidationState_new /\ exists p b, q = Some p /\ heap st' !! p = Some b /\
       phashBlock b = Some (test_GetHash (test_child 4)) /\
       mapBlockIndex st' !! test_GetHash (test_child 4) = Some p) /\
    (forall p b, heap test_index !! p = Some b -> heap st' !! p = Some b).
Proof.
  apply (AcceptBlockHeader_correct (fun x y => x) test_GetHash test_params 5000 true test_index (test_child 4)
    CValidationState_new main_params_ok test_rootless test_index_accepted).
  apply test_typed; unfold in_word; lia.
Defined.

Definition test_entry : CBlockIndex := default (demo_entry 0) (heap test_index !! 3%nat).
Lemma test_entry_at : heap test_index !! 3%nat = Some test_entry.
Proof. vm_compute. reflexivity. Qed.

Lemma accepted_headers_valid_witness :
  (phashBlock test_entry = Some (hashGenesisBlock test_params) /\ pprev test_entry = None) \/
  exists h q m c, phashBlock test_entry = Some h /\ CheckProofOfWork h (nBits test_entry) main_params = true /\
    pprev test_entry = Some q /\
    GetNextWorkRequired (fun x y => x) (heap test_index) (Some q) (nTime test_entry) main_params = Some c /\
    bits_rule test_params (heap test_index) q (nBits test_entry) c /\
    GetMedianTimePast (heap test_index) q = Some m /\ m < nTime test_entry /\
    forall m', GetMedianTimePast (heap test_index) 3 = Some m' -> m <= m'.
Proof.
  exact (accepted_headers_valid (fun x y => x) test_GetHash test_params test_index 3 test_entry
    main_params_ok test_rootless test_index_accepted test_entry_at).
Defined.

Lemma accepted_index_typed_witness :
  - 2 ^ 31 <= nVersion test_entry < 2 ^ 31 /\ in_word 32 (nTime test_entry) /\
  in_word 32 (nBits test_entry) /\ in_word 32 (nNonce test_entry) /\
  0 <= nHeight test_entry < Z.of_nat (length (heap test_index)) /\
  num (nChainWork test_entry) /\ nStatus test_entry = BLOCK_VALID_TREE.
Proof.
  exact (accepted_index_typed (fun x y => x) test_GetHash test_params test_index 3 test_entry
    main_params_ok test_rootless test_index_accepted test_entry_at).
Defined.

Lemma ComputeBlockVersion_stable_witness :
  exists st' state' ok p,
    ProcessNewBlockHeaders (fun x y => x) test_GetHash test_params 5000 true [test_child 4; test_child 5]
      test_index CValidationState_new None = Some (st', state', ok, p) /\
  exists v cache1 cache2,
    ComputeBlockVersion demo_bip9 (fun _ => false) (heap test_index) (Some 3%nat) true (Clear [∅; ∅; ∅]) =
      Some (v, cache1) /\
    ComputeBlockVersion demo_bip9 (fun _ => false) (heap st') (Some 3%nat) true cache1 = Some (v, cache2) /\
    caches_ok demo_bip9 (heap st') cache2.
Proof.
  destruct (ProcessNewBlockHeaders (fun x y => x) test_GetHash test_params 5000 true [test_child 4; test_child 5]
    test_index CValidationState_new None) as [[[[st' state'] ok] p]|] eqn:E;
    [|exfalso; revert E; vm_compute; discriminate].
  exists st', state', ok, p. split; [reflexivity|].
  apply (ComputeBlockVersion_stable (fun x y => x) test_GetHash test_params demo_bip9 (fun _ => false) true
    test_index (Some 3%nat) (Clear [∅; ∅; ∅]) 5000 true [test_child 4; test_child 5] CValidationState_new None
    st' state' ok p main_params_ok test_rootless eq_refl demo_deployments_ok test_index_accepted);
    [| |repeat constructor; apply test_typed; unfold in_word; lia|exact E].
  - intros r [= <-]. exists test_entry. exact test_entry_at.
  - now apply caches_ok_clear.
Defined.
