(* ===== verification/Serialize.v ===== *)
(** * Serialization ([serialize.h], [streams.h])

    Reading from a stream and writing to one: integers, the two variable-length forms of
    integers, byte vectors and vectors of objects.  What is written is a list of bytes; a
    stream to read from is anything that keeps the interface [Stream], of which [CDataStream]
    is the instance here.  A reader is right for a writer when it accepts exactly what the
    writer can have written, and [Serializable] types compose such pairs, so that every object
    below has one serialization and no other. *)

From S2P Require Import Prelude Words.

(** ** Streams *)

(** The member [read]: the bytes, and the stream after them; and [in_avail], the number of
    bytes that are left. *)
Class Stream (S : Type) := {
  stream_read : S -> Z -> throws (list Z * S);
  in_avail : S -> Z }.

Record CDataStream := mk_stream { vch : list Z; nReadPos : Z }.
Definition CDataStream_read (s : CDataStream) (nSize : Z) : throws (list Z * CDataStream) :=
  if nSize =? 0 then inr ([], s)
  else
    let nReadPosNext := u32 (nReadPos s + nSize) in
    let pch := mem_read (vch s) (Z.to_nat (nReadPos s)) (Z.to_nat nSize) in
    if Z.of_nat (length (vch s)) <=? nReadPosNext then
      if Z.of_nat (length (vch s)) <? nReadPosNext then inl ios_failure
      else inr (pch, {| vch := []; nReadPos := 0 |})
    else inr (pch, {| vch := vch s; nReadPos := nReadPosNext |}).
Definition CDataStream_size (s : CDataStream) : Z := Z.of_nat (length (vch s)) - nReadPos s.
#[export] Instance CDataStream_stream : Stream CDataStream := {
  stream_read := CDataStream_read;
  in_avail := CDataStream_size }.

(** ** Integers *)

(** [ser_writedata8] and so on; the host is little-endian, so [htole16] is the identity. *)
Definition ser_writedata8 (obj : Z) : list Z := le_split 1 obj.
Definition ser_writedata16 (obj : Z) : list Z := le_split 2 obj.
Definition ser_writedata32 (obj : Z) : list Z := le_split 4 obj.
Definition ser_writedata64 (obj : Z) : list Z := le_split 8 obj.

(** [Serialize] of the signed types. *)
Definition Serialize_int32 (a : Z) : list Z := ser_writedata32 (u32 a).
Definition Serialize_int64 (a : Z) : list Z := ser_writedata64 (u64 a).

Definition MAX_SIZE : Z := 0x02000000.

Definition GetSizeOfCompactSize (nSize : Z) : Z :=
  if nSize <? 253 then 1
  else if nSize <=? 0xFFFF then 1 + 2
  else if nSize <=? 0xFFFFFFFF then 1 + 4
  else 1 + 8.
Definition WriteCompactSize (nSize : Z) : list Z :=
  if nSize <? 253 then ser_writedata8 nSize
  else if nSize <=? 0xFFFF then ser_writedata8 253 ++ ser_writedata16 nSize
  else if nSize <=? 0xFFFFFFFF then ser_writedata8 254 ++ ser_writedata32 nSize
  else ser_writedata8 255 ++ ser_writedata64 nSize.

(** The loop of [GetSizeOfVarInt]. *)
Fixpoint size_varint (fuel : nat) (n nRet : Z) : Z :=
  match fuel with
  | O => nRet
  | S fuel =>
      let nRet := nRet + 1 in
      if n <=? 0x7F then nRet else size_varint fuel ((n >> 7) - 1) nRet
  end.
(** Seven bits fewer at each turn: ten turns are enough for 64 bits. *)
Definition GetSizeOfVarInt (n : Z) : Z := size_varint 10 n 0.

(** [WriteVarInt]: the loop that fills [tmp], which is then written from its last byte to its
    first; the array is kept the other way round, so that it is written as it is. *)
Fixpoint fill_varint (fuel : nat) (n : Z) (len : nat) (tmp : list Z) : list Z :=
  match fuel with
  | O => tmp
  | S fuel =>
      let tmp := ((n .& 0x7F) .| (if (len =? 0)%nat then 0x00 else 0x80)) :: tmp in
      if n <=? 0x7F then tmp else fill_varint fuel ((n >> 7) - 1) (len + 1) tmp
  end.
Definition WriteVarInt (n : Z) : list Z := fill_varint 10 n 0 [].

Section Readers.
Context {S : Type} `{Stream S}.

Definition ser_readdata (n : Z) (s : S) : throws (Z * S) :=
  '(obj, s) ← stream_read s n; mret (le_combine obj, s).
Definition ser_readdata8 : S -> throws (Z * S) := ser_readdata 1.
Definition ser_readdata16 : S -> throws (Z * S) := ser_readdata 2.
Definition ser_readdata32 : S -> throws (Z * S) := ser_readdata 4.
Definition ser_readdata64 : S -> throws (Z * S) := ser_readdata 8.

Definition Unserialize_int32 (s : S) : throws (Z * S) :=
  '(a, s) ← ser_readdata32 s; mret (s32 a, s).
Definition Unserialize_int64 (s : S) : throws (Z * S) :=
  '(a, s) ← ser_readdata64 s; mret (s64 a, s).

Definition ReadCompactSize (s : S) : throws (Z * S) :=
  '(chSize, s) ← ser_readdata8 s;
  '(nSizeRet, s) ←
    (if chSize <? 253 then mret (chSize, s)
     else if chSize =? 253 then
       '(nSizeRet, s) ← ser_readdata16 s;
       if nSizeRet <? 253 then inl ios_failure else mret (nSizeRet, s)
     else if chSize =? 254 then
       '(nSizeRet, s) ← ser_readdata32 s;
       if nSizeRet <? 0x10000 then inl ios_failure else mret (nSizeRet, s)
     else
       '(nSizeRet, s) ← ser_readdata64 s;
       if nSizeRet <? 0x100000000 then inl ios_failure else mret (nSizeRet, s));
  if MAX_SIZE <? nSizeRet then inl ios_failure else mret (nSizeRet, s).

(** [ReadVarInt] for an unsigned type of [w] bits.  The loop reads a byte at every turn, so
    when it has turned once for every byte that was left the next read is at the end. *)
Fixpoint read_varint (turns : nat) (w n : Z) (s : S) : throws (Z * S) :=
  match turns with
  | O => inl ios_failure
  | Datatypes.S turns =>
      '(chData, s) ← ser_readdata8 s;
      let n := wrap w (n << 7) .| (chData .& 0x7F) in
      if negb (chData .& 0x80 =? 0) then read_varint turns w (wrap w (n + 1)) s
      else mret (n, s)
  end.
Definition ReadVarInt (w : Z) (s : S) : throws (Z * S) :=
  read_varint (Z.to_nat (in_avail s)) w 0 s.

(** Vectors of bytes are read in blocks. *)
Fixpoint read_blocks (fuel : nat) (s : S) (v : list Z) (i nSize : Z) : throws (list Z * S) :=
  match fuel with
  | O => mret (v, s)
  | Datatypes.S fuel =>
      if i <? nSize then
        let blk := Z.min (nSize - i) (1 + 4999999 / 1) in
        '(b, s) ← stream_read s blk;
        read_blocks fuel s (v ++ b) (i + blk) nSize
      else mret (v, s)
  end.
Definition Unserialize_bytes (s : S) : throws (list Z * S) :=
  '(nSize, s) ← ReadCompactSize s;
  read_blocks (Z.to_nat (nSize / 5000000 + 1)) s [] 0 nSize.
End Readers.

(** ** Objects *)

(** The functions [Serialize] and [Unserialize] of a type. *)
Class Serializable (A : Type) := {
  Serialize : A -> list Z;
  Unserialize : forall {S : Type} `{Stream S}, S -> throws (A * S) }.

Definition Serialize_bytes (v : list Z) : list Z := WriteCompactSize (Z.of_nat (length v)) ++ v.

Section Vectors.
Context {A : Type} `{Serializable A} {S : Type} `{Stream S}.

Definition Serialize_vector (v : list A) : list Z :=
  WriteCompactSize (Z.of_nat (length v)) ++ mjoin (Serialize <$> v).

(** The inner loop. *)
Fixpoint read_elements (n : nat) (s : S) : throws (list A * S) :=
  match n with
  | O => mret ([], s)
  | Datatypes.S n =>
      '(a, s) ← Unserialize s;
      '(v, s) ← read_elements n s;
      mret (a :: v, s)
  end.
(** The outer loop: the vector grows by at most five million bytes at a time; [sizeof] is the
    size of an element in memory. *)
Fixpoint read_parts (fuel : nat) (sizeof : Z) (s : S) (v : list A) (nMid nSize : Z)
    : throws (list A * S) :=
  match fuel with
  | O => mret (v, s)
  | Datatypes.S fuel =>
      if nMid <? nSize then
        let nMid' := u32 (nMid + 5000000 / sizeof) in
        let nMid' := if nSize <? nMid' then nSize else nMid' in
        '(part, s) ← read_elements (Z.to_nat (nMid' - nMid)) s;
        read_parts fuel sizeof s (v ++ part) nMid' nSize
      else mret (v, s)
  end.
Definition Unserialize_vector (sizeof : Z) (s : S) : throws (list A * S) :=
  '(nSize, s) ← ReadCompactSize s;
  read_parts (Z.to_nat (nSize / (5000000 / sizeof) + 1)) sizeof s [] 0 nSize.
End Vectors.

(** ** What a stream promises *)

(** Reading at most five million bytes at a time gives the next bytes, or fails when there are
    not as many. *)
Class StreamSpec (S : Type) `{Stream S} := {
  stream_ok : S -> Prop;
  rest : S -> list Z;
  rest_bytes s : stream_ok s -> bytes (rest s);
  avail_rest s : stream_ok s -> in_avail s = Z.of_nat (length (rest s));
  read_some s n : stream_ok s -> 0 <= n <= 5000000 -> (Z.to_nat n <= length (rest s))%nat ->
    exists s', stream_read s n = inr (take (Z.to_nat n) (rest s), s') /\ stream_ok s' /\
      rest s' = drop (Z.to_nat n) (rest s);
  read_end s n : stream_ok s -> 0 <= n <= 5000000 -> (length (rest s) < Z.to_nat n)%nat ->
    stream_read s n = inl ios_failure }.

Definition CDataStream_ok (s : CDataStream) : Prop :=
  bytes (vch s) /\ 0 <= nReadPos s <= Z.of_nat (length (vch s)) /\
  Z.of_nat (length (vch s)) + 5000000 < 2 ^ 32.
Definition CDataStream_rest (s : CDataStream) : list Z := drop (Z.to_nat (nReadPos s)) (vch s).

Lemma CDataStream_read_spec s n : CDataStream_ok s -> 0 <= n <= 5000000 ->
  if (Z.to_nat n <=? length (CDataStream_rest s))%nat then
    exists s', CDataStream_read s n = inr (take (Z.to_nat n) (CDataStream_rest s), s') /\
      CDataStream_ok s' /\ CDataStream_rest s' = drop (Z.to_nat n) (CDataStream_rest s)
  else CDataStream_read s n = inl ios_failure.
Proof.
  intros (Hb & Hp & Hl) Hn. unfold CDataStream_read, CDataStream_rest in *.
  rewrite length_drop. destruct (Z.eqb_spec n 0) as [->|Hn0].
  { cbn [Z.to_nat Nat.leb]. exists s. rewrite take_0. now rewrite drop_0. }
  rewrite (u32_small (nReadPos s + n)) by (unfold in_word; lia).
  destruct (Nat.leb_spec (Z.to_nat n) (length (vch s) - Z.to_nat (nReadPos s))) as [Hle|Hgt].
  - destruct (Z.leb_spec (Z.of_nat (length (vch s))) (nReadPos s + n)) as [Hall|Hsome].
    + destruct (Z.ltb_spec (Z.of_nat (length (vch s))) (nReadPos s + n)); [lia|].
      eexists. split; [reflexivity|]. split; [now split; [constructor|cbn; lia]|].
      cbn [vch nReadPos]. rewrite drop_nil, drop_drop. symmetry. apply drop_ge. lia.
    + eexists. split; [reflexivity|]. split; [split; [done|cbn [nReadPos vch]; lia]|].
      cbn [vch nReadPos]. rewrite drop_drop. f_equal. lia.
  - destruct (Z.leb_spec (Z.of_nat (length (vch s))) (nReadPos s + n)); [|lia].
    destruct (Z.ltb_spec (Z.of_nat (length (vch s))) (nReadPos s + n)); [done|lia].
Qed.

#[export] Program Instance CDataStream_spec : StreamSpec CDataStream := {
  stream_ok := CDataStream_ok;
  rest := CDataStream_rest }.
Next Obligation. intros s (Hb & _). unfold CDataStream_rest. now apply Forall_drop. Qed.
Next Obligation.
  intros s (Hb & Hp & Hl). cbn [in_avail CDataStream_stream]. unfold CDataStream_size, CDataStream_rest.
  rewrite length_drop. lia.
Qed.
Next Obligation.
  intros s n Hs Hn Hle. pose proof (CDataStream_read_spec s n Hs Hn) as E.
  now rewrite (proj2 (Nat.leb_le _ _) Hle) in E.
Qed.
Next Obligation.
  intros s n Hs Hn Hlt. pose proof (CDataStream_read_spec s n Hs Hn) as E.
  now rewrite (proj2 (Nat.leb_gt _ _) Hlt) in E.
Qed.

(** A stream over the bytes of a message, without a limit on its size. *)
#[export] Instance bytes_stream : Stream (list Z) := {
  stream_read := fun s n =>
    if (Z.to_nat n <=? length s)%nat then inr (take (Z.to_nat n) s, drop (Z.to_nat n) s) else inl ios_failure;
  in_avail := fun s => Z.of_nat (length s) }.
#[export] Program Instance bytes_stream_spec : StreamSpec (list Z) := {
  stream_ok := Forall (in_word 8);
  rest := fun s => s }.
Next Obligation. done. Qed.
Next Obligation. done. Qed.
Next Obligation.
  intros s n Hs Hn Hle. cbn. rewrite (proj2 (Nat.leb_le _ _) Hle). eexists. split; [reflexivity|].
  split; [now apply Forall_drop|done].
Qed.
Next Obligation. intros s n Hs Hn Hlt. cbn. now rewrite (proj2 (Nat.leb_gt _ _) Hlt). Qed.

(** ** Readers and writers *)

(** [p] reads what [ser] writes of the values in [W] and nothing else: it accepts a stream
    exactly when what is left begins with the bytes of such a value. *)
Definition reads {S} `{StreamSpec S} {A} (W : A -> Prop) (ser : A -> list Z)
    (p : S -> throws (A * S)) : Prop :=
  forall s, stream_ok s ->
    (forall a t, W a -> rest s = ser a ++ t ->
       exists s', p s = inr (a, s') /\ stream_ok s' /\ rest s' = t) /\
    match p s with
    | inl e => e = ios_failure
    | inr (a, s') => W a /\ stream_ok s' /\ rest s = ser a ++ rest s'
    end.

(** What has a right reader is determined by what is written of it. *)
Lemma reads_inj {A} (W : A -> Prop) ser (p : list Z -> throws (A * list Z)) a b t u :
  reads W ser p -> W a -> W b -> bytes (ser a ++ t) -> ser a ++ t = ser b ++ u -> a = b /\ t = u.
Proof.
  intros Hp Ha Hb Hbytes E. destruct (Hp _ Hbytes) as [Hc _].
  destruct (Hc a t Ha eq_refl) as (s1 & E1 & _ & <-). destruct (Hc b u Hb E) as (s2 & E2 & _ & <-).
  rewrite E1 in E2. injection E2 as <- <-. now split.
Qed.

Section Reads.
Context {S : Type} `{StreamSpec S}.

Lemma reads_ret {A} (W : A -> Prop) ser (a : A) : W a -> (forall b, W b -> b = a) -> ser a = [] ->
  reads W ser (fun s => mret (a, s)).
Proof.
  intros Ha Hu Hs s Hok. split; [|cbn; rewrite Hs; now split].
  intros b t Hb E. rewrite (Hu b Hb), Hs in *. now exists s.
Qed.

Lemma reads_fail {A} (W : A -> Prop) ser : (forall b, ~ W b) -> reads W ser (fun _ => inl ios_failure).
Proof. intros Hn s Hok. split; [|done]. intros a t Ha. now destruct (Hn a). Qed.

Lemma reads_ext {A} (W W' : A -> Prop) ser ser' p p' :
  (forall a, W a <-> W' a) -> (forall a, W a -> ser a = ser' a) -> (forall s, p s = p' s) ->
  reads W ser p -> reads W' ser' p'.
Proof.
  intros HW Hs Hp Hr s Hok. rewrite <- Hp. destruct (Hr s Hok) as [Hc Hd]. split.
  - intros a t Ha E. apply HW in Ha. apply (Hc a t Ha). now rewrite (Hs a Ha).
  - destruct (p s) as [e|[a s']]; [done|]. destruct Hd as (Ha & Hok' & E). split; [now apply HW|].
    split; [done|]. now rewrite <- (Hs a Ha).
Qed.

(** Two readers in a row: [part b a] says that the first one reads [a] of the value [b]. *)
Lemma reads_bind_part {A B} (W : A -> Prop) ser p (part : B -> A -> Prop) (WB : B -> Prop) serB ser'
    (q : A -> S -> throws (B * S)) :
  reads W ser p ->
  (forall b, WB b -> exists a, part b a) ->
  (forall b a, WB b -> part b a -> W a /\ serB b = ser a ++ ser' b) ->
  (forall a, W a -> reads (fun b => WB b /\ part b a) ser' (q a)) ->
  reads WB serB (fun s => '(a, s) ← p s; q a s).
Proof.
  intros Hp Hex HB Hq s Hok. destruct (Hp s Hok) as [Hc Hd]. split.
  - intros b t Hb E. destruct (Hex b Hb) as [a Hba]. destruct (HB b a Hb Hba) as [Ha Eb].
    rewrite Eb, <- app_assoc in E.
    destruct (Hc a _ Ha E) as (s1 & -> & Hok1 & E1). cbn.
    now destruct (Hq _ Ha s1 Hok1) as [Hc1 _]; apply Hc1.
  - destruct (p s) as [e|[a s1]]; [done|]. destruct Hd as (Ha & Hok1 & E). cbn.
    destruct (Hq a Ha s1 Hok1) as [_ Hd1]. destruct (q a s1) as [e|[b s2]]; [done|].
    destruct Hd1 as ([Hb Hk] & Hok2 & E1). destruct (HB b a Hb Hk) as [_ Eb]. split; [done|]. split; [done|].
    now rewrite E, E1, Eb, <- app_assoc.
Qed.

(** The same when what the first one reads is a function of the value. *)
Lemma reads_bind {A B} (W : A -> Prop) ser p (key : B -> A) (WB : B -> Prop) serB ser'
    (q : A -> S -> throws (B * S)) :
  reads W ser p ->
  (forall b, WB b -> W (key b) /\ serB b = ser (key b) ++ ser' b) ->
  (forall a, W a -> reads (fun b => WB b /\ key b = a) ser' (q a)) ->
  reads WB serB (fun s => '(a, s) ← p s; q a s).
Proof.
  intros Hp HB Hq. apply (reads_bind_part W ser p (fun b a => key b = a) WB serB ser' q Hp); [|intros b a Hb <-|done].
  - intros b _. now exists (key b).
  - now apply HB.
Qed.

(** A test after reading. *)
Lemma reads_test {A} (W : A -> Prop) ser p (bad : A -> bool) :
  reads W ser p ->
  reads (fun a => W a /\ bad a = false) ser
    (fun s => '(a, s) ← p s; if bad a then inl ios_failure else mret (a, s)).
Proof.
  intros Hp. apply (reads_bind W ser p (fun a => a) _ _ (fun _ => [])); [done| |].
  - intros b [Hb _]. now rewrite app_nil_r.
  - intros a Ha. destruct (bad a) eqn:E; [apply reads_fail; now intros b [[_ Eb] ->]; rewrite E in Eb|].
    apply reads_ret; [done|now intros b [_ ->]|done].
Qed.

(** *** Integers *)

Lemma reads_bytes n : 0 <= n <= 5000000 ->
  reads (fun b => bytes b /\ length b = Z.to_nat n) (fun b => b) (fun s => stream_read s n).
Proof.
  intros Hn s Hok. pose proof (rest_bytes s Hok) as Hb.
  destruct (Nat.le_gt_cases (Z.to_nat n) (length (rest s))) as [Hle|Hgt].
  - destruct (read_some s n Hok Hn Hle) as (s1 & -> & Hok1 & E1). split.
    + intros b t [_ Hl] E. exists s1. rewrite E1, E, <- Hl, take_app_length, drop_app_length. now split.
    + rewrite E1, take_drop, length_take. split; [split; [now apply Forall_take|lia]|done].
  - rewrite (read_end s n Hok Hn Hgt). split; [|done]. intros b t [_ Hl] E. rewrite E, length_app in Hgt. lia.
Qed.

Lemma reads_data (k : nat) : (k <= 8)%nat ->
  reads (in_word (8 * Z.of_nat k)) (le_split k) (ser_readdata (Z.of_nat k)).
Proof.
  intros Hk. apply (reads_bind _ _ _ (le_split k) _ _ (fun _ => []) _ (reads_bytes (Z.of_nat k) ltac:(lia))).
  - intros x Hx. autorewrite with lens. rewrite app_nil_r, Nat2Z.id. split; [split; [auto with words|done]|done].
  - intros b [Hb Hl]. rewrite Nat2Z.id in Hl. subst k. apply reads_ret; [|intros x [Hx <-]|done].
    + split; [now apply in_word_le_combine|now apply le_split_combine].
    + now rewrite le_combine_split, wrap_small by (done || lia).
Qed.
Lemma reads_8 : reads (in_word 8) ser_writedata8 ser_readdata8. Proof. apply (reads_data 1). lia. Qed.
Lemma reads_16 : reads (in_word 16) ser_writedata16 ser_readdata16. Proof. apply (reads_data 2). lia. Qed.
Lemma reads_32 : reads (in_word 32) ser_writedata32 ser_readdata32. Proof. apply (reads_data 4). lia. Qed.
Lemma reads_64 : reads (in_word 64) ser_writedata64 ser_readdata64. Proof. apply (reads_data 8). lia. Qed.

Lemma reads_i32 :
  reads (fun v => - 2 ^ 31 <= v < 2 ^ 31) Serialize_int32 Unserialize_int32.
Proof.
  apply (reads_bind _ _ _ u32 _ _ (fun _ => []) _ reads_32).
  { intros v Hv. rewrite app_nil_r. split; [apply in_word_u32|done]. }
  intros x Hx. apply reads_ret; [|intros v [Hv <-]|done].
  - split; [apply s32_range|]. now rewrite u32_s32, u32_small.
  - now rewrite s32_u32, s32_small.
Qed.
Lemma reads_i64 :
  reads (fun v => - 2 ^ 63 <= v < 2 ^ 63) Serialize_int64 Unserialize_int64.
Proof.
  apply (reads_bind _ _ _ u64 _ _ (fun _ => []) _ reads_64).
  { intros v Hv. rewrite app_nil_r. split; [apply in_word_u64|done]. }
  intros x Hx. apply reads_ret; [|intros v [Hv <-]|done].
  - split; [apply s64_range|]. now rewrite u64_s64, u64_small.
  - now rewrite s64_u64, s64_small.
Qed.

(** *** CompactSize *)

Definition size_code (n : Z) : Z :=
  if n <? 253 then n else if n <=? 0xFFFF then 253 else if n <=? 0xFFFFFFFF then 254 else 255.
Definition size_tail (n : Z) : list Z :=
  if n <? 253 then [] else if n <=? 0xFFFF then le_split 2 n
  else if n <=? 0xFFFFFFFF then le_split 4 n else le_split 8 n.

Lemma WriteCompactSize_split n : WriteCompactSize n = le_split 1 (size_code n) ++ size_tail n.
Proof.
  unfold WriteCompactSize, size_code, size_tail, ser_writedata8.
  destruct (n <? 253); [now rewrite app_nil_r|]. destruct (n <=? 0xFFFF); [done|].
  now destruct (n <=? 0xFFFFFFFF).
Qed.

(** The four forms, by the first byte. *)
Lemma size_code_cases n : in_word 64 n ->
  (n < 253 /\ size_code n = n /\ size_tail n = []) \/
  (253 <= n < 2 ^ 16 /\ size_code n = 253 /\ size_tail n = le_split 2 n) \/
  (2 ^ 16 <= n < 2 ^ 32 /\ size_code n = 254 /\ size_tail n = le_split 4 n) \/
  (2 ^ 32 <= n < 2 ^ 64 /\ size_code n = 255 /\ size_tail n = le_split 8 n).
Proof.
  intros Hn. unfold in_word in Hn. unfold size_code, size_tail. destruct (Z.ltb_spec n 253).
  { left. split; [done|]. now split. }
  right. destruct (Z.leb_spec n 0xFFFF).
  { left. split; [lia|]. now split. }
  right. destruct (Z.leb_spec n 0xFFFFFFFF); [left|right]; (split; [lia|now split]).
Qed.

Ltac code_cases n :=
  destruct (size_code_cases n) as [(?&?&?)|[(?&?&?)|[(?&?&?)|(?&?&?)]]];
  unfold in_word in *; try lia; try done.

Lemma reads_min (k : nat) m : (k <= 8)%nat -> 0 <= m ->
  reads (fun n => m <= n < 2 ^ (8 * Z.of_nat k)) (le_split k)
    (fun s => '(n, s) ← ser_readdata (Z.of_nat k) s; if n <? m then inl ios_failure else mret (n, s)).
Proof.
  intros Hk Hm. eapply reads_ext; [| |done|exact (reads_test _ _ _ (fun n => n <? m) (reads_data k Hk))]; [|done].
  intros n. cbn beta. unfold in_word. rewrite Z.ltb_ge. lia.
Qed.

(** What follows the first byte [c]. *)
Lemma reads_code_tail c : in_word 8 c ->
  reads (fun n => in_word 64 n /\ size_code n = c) size_tail (fun s : S =>
    if c <? 253 then mret (c, s)
    else if c =? 253 then
      '(nSizeRet, s) ← ser_readdata16 s;
      if nSizeRet <? 253 then inl ios_failure else mret (nSizeRet, s)
    else if c =? 254 then
      '(nSizeRet, s) ← ser_readdata32 s;
      if nSizeRet <? 0x10000 then inl ios_failure else mret (nSizeRet, s)
    else
      '(nSizeRet, s) ← ser_readdata64 s;
      if nSizeRet <? 0x100000000 then inl ios_failure else mret (nSizeRet, s)).
Proof.
  intros Hc. unfold in_word in Hc.
  destruct (Z.ltb_spec c 253) as [Hs|Hs].
  { apply reads_ret; [split; [|code_cases c]; unfold in_word; lia| |code_cases c].
    intros n [Hn E]. code_cases n. }
  assert (Hform : forall k m, (k <= 8)%nat -> 0 <= m ->
    (forall n, in_word 64 n /\ size_code n = c <-> m <= n < 2 ^ (8 * Z.of_nat k)) ->
    (forall n, m <= n < 2 ^ (8 * Z.of_nat k) -> size_tail n = le_split k n) ->
    reads (fun n => in_word 64 n /\ size_code n = c) size_tail
      (fun s => '(n, s) ← ser_readdata (Z.of_nat k) s; if n <? m then inl ios_failure else mret (n, s))).
  { intros k m Hk Hm HW Ht. eapply reads_ext; [| |done|exact (reads_min k m Hk Hm)].
    - intros n. now rewrite HW.
    - intros n Hn. symmetry. now apply Ht. }
  destruct (Z.eqb_spec c 253) as [->|H253]; [|destruct (Z.eqb_spec c 254) as [->|H254]].
  1: apply (Hform 2%nat 253). 5: apply (Hform 4%nat 0x10000). 9: apply (Hform 8%nat 0x100000000).
  all: try lia.
  all: intros n; lazymatch goal with
    | |- _ <-> _ => split; [intros [Hn E]|intros Hn; split]
    | |- _ -> _ => intros Hn
    end; code_cases n.
Qed.

Lemma reads_CompactSize : reads (fun n => 0 <= n <= MAX_SIZE) WriteCompactSize ReadCompactSize.
Proof.
  apply (reads_bind _ _ _ size_code _ _ size_tail _ reads_8).
  - intros n Hn. split; [|apply WriteCompactSize_split]. unfold MAX_SIZE in Hn. code_cases n.
  - intros c Hc. eapply reads_ext; [| |done|exact (reads_test _ _ _ (fun n => MAX_SIZE <? n) (reads_code_tail c Hc))]; [|done].
    intros n. cbn beta. unfold in_word, MAX_SIZE. rewrite Z.ltb_ge. lia.
Qed.
End Reads.

(** ** Variable-length integers *)

(** The number that a sequence of bytes stands for, as the comment of [serialize.h] has it. *)
Definition varint_step (n b : Z) : Z := 128 * n + b mod 128 + (if b <? 128 then 0 else 1).
Definition varint_value (bs : list Z) : Z := fold_left varint_step bs 0.

(** A sequence that [ReadVarInt] stops after. *)
Definition varint_form (bs : list Z) : Prop :=
  exists cs b, bs = cs ++ [b] /\ Forall (fun c => 128 <= c < 256) cs /\ 0 <= b < 128.

(** The bytes before the last one, for a number less one. *)
Fixpoint varint_cont (k : nat) (n : Z) : list Z :=
  match k with
  | O => []
  | S k => (if n <=? 127 then [] else varint_cont k (n / 128 - 1)) ++ [n mod 128 + 128]
  end.

Lemma byte_halves_check : all_below 256 (fun n => let b := Z.of_nat n in
  (b .& 0x7F =? b mod 128) && eqb (b .& 0x80 =? 0) (b <? 128) &&
  ((b mod 128) .| 0x80 =? b mod 128 + 128)) = true.
Proof. vm_compute. reflexivity. Qed.

Lemma byte_halves b : is_byte b -> b .& 0x7F = b mod 128 /\ (b .& 0x80 =? 0) = (b <? 128) /\
  (b mod 128) .| 0x80 = b mod 128 + 128.
Proof.
  intros Hb. unfold in_word in Hb. pose proof (all_below_spec _ _ byte_halves_check (Z.to_nat b) ltac:(lia)) as E.
  cbn beta zeta in E. rewrite Z2Nat.id in E by lia. apply andb_prop in E as [E E3].
  apply andb_prop in E as [E1 E2]. apply Z.eqb_eq in E1, E3. now apply eqb_prop in E2.
Qed.

Lemma low7 n : n .& 0x7F = n mod 128.
Proof. apply (Z.land_ones n 7). lia. Qed.

Lemma varint_digit n : ((n .& 0x7F) .| 0x80) = n mod 128 + 128.
Proof.
  rewrite low7. pose proof (Z.mod_pos_bound n 128 ltac:(lia)).
  destruct (byte_halves (n mod 128)) as (_ & _ & E); [unfold in_word; lia|].
  now rewrite Z.mod_mod in E by lia.
Qed.

Lemma fill_varint_cont k n len tmp : (0 < len)%nat -> fill_varint k n len tmp = varint_cont k n ++ tmp.
Proof.
  revert n len tmp. induction k as [|k IH]; intros n len tmp Hl; [done|]. cbn [fill_varint varint_cont].
  destruct (Nat.eqb_spec len 0); [lia|]. rewrite varint_digit. destruct (n <=? 127); [done|].
  rewrite IH, Z.shiftr_div_pow2 by lia. now rewrite <- app_assoc.
Qed.

Lemma WriteVarInt_cont n :
  WriteVarInt n = (if n <=? 127 then [] else varint_cont 9 (n / 128 - 1)) ++ [n mod 128].
Proof.
  unfold WriteVarInt. change 10%nat with (S 9). generalize 9%nat. intros k. cbn [fill_varint Nat.eqb]. rewrite Z.lor_0_r, low7.
  destruct (n <=? 127); [done|]. rewrite fill_varint_cont, Z.shiftr_div_pow2 by lia. done.
Qed.

Lemma varint_value_snoc cs b : varint_value (cs ++ [b]) = varint_step (varint_value cs) b.
Proof. unfold varint_value. now rewrite fold_left_app. Qed.

Lemma varint_cont_spec k n : (0 < k)%nat -> 0 <= n < 2 ^ (7 * Z.of_nat k) ->
  varint_value (varint_cont k n) = n + 1 /\ Forall (fun c => 128 <= c < 256) (varint_cont k n).
Proof.
  revert n. induction k as [|k IH]; intros n Hk Hn; [lia|]. cbn [varint_cont].
  replace (7 * Z.of_nat (S k)) with (7 * Z.of_nat k + 7) in Hn by lia. rewrite Z.pow_add_r in Hn by lia.
  change (2 ^ 7) with 128 in Hn. pose proof (Z.div_mod n 128 ltac:(lia)). pose proof (Z.mod_pos_bound n 128 ltac:(lia)).
  assert (Hd : n / 128 < 2 ^ (7 * Z.of_nat k)) by (apply Z.div_lt_upper_bound; lia).
  assert (E : (n mod 128 + 128) mod 128 = n mod 128)
    by (rewrite <- Zplus_mod_idemp_r, Z.mod_same, Z.add_0_r by lia; now apply Z.mod_small).
  rewrite varint_value_snoc. unfold varint_step. rewrite E.
  destruct (Z.ltb_spec (n mod 128 + 128) 128); [lia|]. rewrite Forall_app, Forall_singleton.
  destruct (Z.leb_spec n 127) as [Hs|Hs].
  - rewrite Z.mod_small by lia. split; [unfold varint_value; cbn [fold_left]; lia|]. split; [constructor|lia].
  - assert (1 <= n / 128) by (apply Z.div_le_lower_bound; lia).
    destruct k as [|k]; [change (2 ^ (7 * Z.of_nat 0)) with 1 in Hd; lia|].
    destruct (IH (n / 128 - 1)) as [-> Hf]; [lia|lia|]. split; [lia|]. now split; [|lia].
Qed.

Lemma varint_value_pos cs : Forall (fun c => 128 <= c < 256) cs -> 0 <= varint_value cs /\ (cs <> [] -> 1 <= varint_value cs).
Proof.
  induction cs as [|c cs IH] using rev_ind; [done|]. rewrite Forall_app, Forall_singleton. intros [Hf Hc].
  destruct (IH Hf) as [H1 _]. rewrite varint_value_snoc. unfold varint_step.
  pose proof (Z.mod_pos_bound c 128 ltac:(lia)). destruct (Z.ltb_spec c 128); [lia|]. split; [|intros _]; lia.
Qed.

(** Every number has one sequence of bytes. *)
Lemma varint_cont_unique k cs : Forall (fun c => 128 <= c < 256) cs -> cs <> [] ->
  (0 < k)%nat -> varint_value cs <= 2 ^ (7 * Z.of_nat k) -> varint_cont k (varint_value cs - 1) = cs.
Proof.
  revert k. induction cs as [|c cs IH] using rev_ind; intros k; [done|]. rewrite Forall_app, Forall_singleton.
  intros [Hf Hc] _. rewrite varint_value_snoc. unfold varint_step. destruct (Z.ltb_spec c 128); [lia|].
  destruct (varint_value_pos cs Hf) as [H0 H1].
  assert (Ec : c mod 128 = c - 128) by (symmetry; apply (Z.mod_unique_pos _ _ 1); lia). rewrite Ec.
  intros Hk Hr. destruct k as [|k]; [lia|]. cbn [varint_cont].
  replace (7 * Z.of_nat (S k)) with (7 * Z.of_nat k + 7) in Hr by lia. rewrite Z.pow_add_r in Hr by lia.
  change (2 ^ 7) with 128 in Hr. replace (128 * varint_value cs + (c - 128) + 1 - 1) with (varint_value cs * 128 + (c - 128)) by lia.
  rewrite Z.div_add_l, Z.div_small, Z.add_0_r, (Z.add_comm _ (c - 128)), Z_mod_plus_full, Z.mod_small by lia.
  replace (c - 128 + 128) with c by lia. f_equal.
  destruct cs as [|c0 cs'] eqn:Ecs.
  - destruct (Z.leb_spec (c - 128 + varint_value [] * 128) 127) as [_|Hb]; [done|cbn in Hb; lia].
  - specialize (H1 ltac:(done)). destruct (Z.leb_spec (c - 128 + varint_value (c0 :: cs') * 128) 127); [lia|].
    destruct k as [|k]; [change (2 ^ (7 * Z.of_nat 0)) with 1 in Hr; lia|].
    apply IH; [done|done|lia|]. lia.
Qed.

Lemma varint_form_size n : 0 <= n < 2 ^ 64 -> varint_form (WriteVarInt n) /\ varint_value (WriteVarInt n) = n.
Proof.
  intros Hn. rewrite WriteVarInt_cont. pose proof (Z.mod_pos_bound n 128 ltac:(lia)).
  pose proof (Z.div_mod n 128 ltac:(lia)). assert (Hd : n / 128 < 2 ^ 63) by (apply Z.div_lt_upper_bound; lia).
  rewrite varint_value_snoc. unfold varint_step. rewrite Z.mod_mod by lia.
  destruct (Z.ltb_spec (n mod 128) 128); [|lia]. destruct (Z.leb_spec n 127) as [Hs|Hs].
  - rewrite Z.mod_small by lia. split; [|unfold varint_value; cbn [fold_left]; lia].
    exists [], n. split; [done|]. split; [constructor|lia].
  - assert (1 <= n / 128) by (apply Z.div_le_lower_bound; lia).
    destruct (varint_cont_spec 9 (n / 128 - 1)) as [-> Hf]; [lia|lia|]. split; [|lia].
    eexists _, _. split; [reflexivity|]. split; [done|lia].
Qed.

(** A sequence that stands for a number below 2^64 is the one that is written for it. *)
Lemma varint_unique bs : varint_form bs -> varint_value bs < 2 ^ 64 -> WriteVarInt (varint_value bs) = bs.
Proof.
  intros (cs & b & -> & Hf & Hb). rewrite WriteVarInt_cont, varint_value_snoc. unfold varint_step.
  destruct (Z.ltb_spec b 128); [|lia]. rewrite (Z.mod_small b), Z.add_0_r by lia. intros Hr.
  destruct (varint_value_pos cs Hf) as [H0 H1].
  rewrite (Z.mul_comm 128), Z.div_add_l, Z.div_small, Z.add_0_r, (Z.add_comm _ b), Z_mod_plus_full, (Z.mod_small b) by lia.
  f_equal. destruct cs as [|c cs'].
  - destruct (Z.leb_spec (b + varint_value [] * 128) 127) as [_|Hl]; [done|cbn in Hl; lia].
  - specialize (H1 ltac:(done)). destruct (Z.leb_spec (b + varint_value (c :: cs') * 128) 127); [lia|].
    apply varint_cont_unique; [done|done|lia|]. change (2 ^ (7 * Z.of_nat 9)) with (2 ^ 63). lia.
Qed.

(** ** Reading a variable-length integer *)

Lemma varint_word w n x : 7 <= w -> 0 <= n -> 0 <= x < 128 -> wrap w (n << 7) .| x = (128 * n + x) mod 2 ^ w.
Proof.
  intros Hw Hn Hx. rewrite <- wrap_mod by lia.
  assert (Hd : (n << 7) .& x = 0).
  { apply Z.bits_inj'. intros i Hi. rewrite Z.land_spec, Z.bits_0, Z.shiftl_spec by lia.
    destruct (Z.lt_ge_cases i 7); [now rewrite Z.testbit_neg_r by lia|].
    rewrite (testbit_high 7 x i), andb_false_r by (unfold in_word; lia). done. }
  assert (E : 128 * n + x = (n << 7) .| x) by (rewrite <- (Z.add_nocarry_lor _ _ Hd), Z.shiftl_mul_pow2; lia).
  rewrite E. unfold wrap. rewrite Z.land_lor_distr_l. f_equal. symmetry. apply (wrap_small w); [lia|].
  apply (in_word_le 7 w); [lia|]. unfold in_word. lia.
Qed.

Section VarInt.
Context {S : Type} `{StreamSpec S}.

Lemma read_byte (s : S) b t : stream_ok s -> rest s = b :: t ->
  is_byte b /\ exists s', ser_readdata8 s = inr (b, s') /\ stream_ok s' /\ rest s' = t.
Proof.
  intros Hok E. pose proof (rest_bytes s Hok) as Hb. rewrite E in Hb. apply Forall_cons_1 in Hb as [Hb _].
  split; [done|]. destruct (reads_8 s Hok) as [Hc _]. apply (Hc b t Hb). rewrite E. unfold ser_writedata8.
  cbn [le_split app]. now rewrite (u8_small b Hb).
Qed.
Lemma read_no_byte (s : S) : stream_ok s -> rest s = [] -> ser_readdata8 s = inl ios_failure.
Proof.
  intros Hok E. unfold ser_readdata8, ser_readdata. rewrite (read_end s 1 Hok); [done|lia|rewrite E; simpl; lia].
Qed.

(** One turn of the loop. *)
Lemma read_varint_byte turns w n (s : S) b t : 7 <= w -> 0 <= n -> stream_ok s -> rest s = b :: t ->
  exists s', stream_ok s' /\ rest s' = t /\
    read_varint (Datatypes.S turns) w n s =
      if b <? 128 then inr ((128 * n + b mod 128) mod 2 ^ w, s')
      else read_varint turns w (varint_step n b mod 2 ^ w) s'.
Proof.
  intros Hw Hn Hok E. destruct (read_byte s b t Hok E) as (Hb & s' & Er & Hok' & E').
  exists s'. split; [done|]. split; [done|]. cbn [read_varint]. rewrite Er. cbn [mbind throws_bind].
  destruct (byte_halves b Hb) as (-> & -> & _). pose proof (Z.mod_pos_bound b 128 ltac:(lia)). rewrite varint_word by lia.
  unfold varint_step. destruct (b <? 128); [done|]. cbn [negb]. rewrite wrap_mod by lia.
  f_equal. now rewrite Zplus_mod_idemp_l.
Qed.

Lemma varint_step_mod M n b : 0 < M -> varint_step (n mod M) b mod M = varint_step n b mod M.
Proof.
  intros HM. unfold varint_step. rewrite <- !Z.add_assoc, <- Zplus_mod_idemp_l, Zmult_mod_idemp_r.
  apply Zplus_mod_idemp_l.
Qed.

Lemma varint_steps_mod M bs n : 0 < M ->
  fold_left varint_step bs (n mod M) mod M = fold_left varint_step bs n mod M.
Proof.
  intros HM. revert n. induction bs as [|b bs IH]; intros n; cbn [fold_left]; [now apply Z.mod_mod; lia|].
  now rewrite <- IH, varint_step_mod, IH by done.
Qed.

Lemma read_varint_form cs b t : Forall (fun c => 128 <= c < 256) cs -> 0 <= b < 128 ->
  forall turns w n (s : S), 7 <= w -> 0 <= n -> stream_ok s -> rest s = cs ++ b :: t -> (length cs < turns)%nat ->
  exists s', stream_ok s' /\ rest s' = t /\
    read_varint turns w n s = inr (fold_left varint_step (cs ++ [b]) n mod 2 ^ w, s').
Proof.
  intros Hcs Hb. induction Hcs as [|c cs Hc Hcs IH]; intros turns w n s Hw Hn Hok E Hl;
    (destruct turns as [|turns]; [cbn [length] in Hl; lia|]).
  - destruct (read_varint_byte turns w n s b t Hw Hn Hok E) as (s' & Hok' & E' & ->). exists s'.
    split; [done|]. split; [done|]. cbn [app fold_left]. unfold varint_step.
    destruct (Z.ltb_spec b 128); [now rewrite Z.add_0_r|lia].
  - destruct (read_varint_byte turns w n s c _ Hw Hn Hok E) as (s1 & Hok1 & E1 & ->).
    destruct (Z.ltb_spec c 128); [lia|]. cbn [length] in Hl.
    assert (Hp : 0 < 2 ^ w) by (apply Z.pow_pos_nonneg; lia).
    destruct (IH turns w (varint_step n c mod 2 ^ w) s1 Hw) as (s' & Hok' & E' & ->);
      [now apply Z.mod_pos_bound|done|done|lia|].
    exists s'. split; [done|]. split; [done|]. now rewrite varint_steps_mod.
Qed.

Lemma read_varint_open turns w n (s : S) : 7 <= w -> 0 <= n -> stream_ok s ->
  Forall (fun c => 128 <= c) (rest s) -> read_varint turns w n s = inl ios_failure.
Proof.
  intros Hw. revert n s. induction turns as [|turns IH]; intros n s Hn Hok Hf; [done|].
  destruct (rest s) as [|b t] eqn:E; [cbn [read_varint]; now rewrite (read_no_byte s Hok E)|].
  destruct (read_varint_byte turns w n s b t Hw Hn Hok E) as (s' & Hok' & E' & ->).
  apply Forall_cons_1 in Hf as [Hb Hf]. destruct (Z.ltb_spec b 128); [lia|]. apply IH; [|done|now rewrite E'].
  apply Z.mod_pos_bound, Z.pow_pos_nonneg; lia.
Qed.

Lemma split_form (l : list Z) : bytes l ->
  Forall (fun c => 128 <= c) l \/ exists cs b t, l = cs ++ b :: t /\ Forall (fun c => 128 <= c < 256) cs /\ 0 <= b < 128.
Proof.
  induction 1 as [|b l Hb Hl IH]; [by left|]. unfold in_word in Hb. destruct (Z.lt_ge_cases b 128).
  - right. exists [], b, l. split; [done|]. split; [done|lia].
  - destruct IH as [Hf|(cs & b' & t & -> & Hf & Hb')]; [left; by constructor|right].
    exists (b :: cs), b', t. split; [done|]. split; [constructor; [lia|done]|done].
Qed.

Lemma ReadVarInt_form cs b t w (s : S) : Forall (fun c => 128 <= c < 256) cs -> 0 <= b < 128 ->
  7 <= w -> stream_ok s -> rest s = cs ++ b :: t ->
  exists s', stream_ok s' /\ rest s' = t /\
    ReadVarInt w s = inr (varint_value (cs ++ [b]) mod 2 ^ w, s').
Proof.
  intros Hcs Hb Hw Hok E. apply read_varint_form; [done|done|done|done|done|done|].
  rewrite (avail_rest s Hok), Nat2Z.id, E, length_app. cbn [length]. lia.
Qed.

(** What is written is read back, with what follows left in the stream. *)
Lemma ReadVarInt_written w n t (s : S) : 7 <= w <= 64 -> 0 <= n < 2 ^ w -> stream_ok s ->
  rest s = WriteVarInt n ++ t ->
  exists s', ReadVarInt w s = inr (n, s') /\ stream_ok s' /\ rest s' = t.
Proof.
  intros Hw Hn Hok E. pose proof (Z.pow_le_mono_r 2 w 64 ltac:(lia) ltac:(lia)).
  destruct (varint_form_size n ltac:(lia)) as [(cs & b & Eb & Hcs & Hb) Ev].
  rewrite Eb, <- app_assoc in E. destruct (ReadVarInt_form cs b t w s Hcs Hb ltac:(lia) Hok E) as (s' & Hok' & E' & ->).
  exists s'. rewrite <- Eb, Ev, Z.mod_small by lia. now split.
Qed.
End VarInt.

(** ** Vectors *)

(** The contract of a serializable type: the values that can be written, and that reading
    accepts exactly what is written of them. *)
Class SerializableSpec (A : Type) `{Serializable A} := {
  serializable : A -> Prop;
  Serialize_is_bytes a : serializable a -> bytes (Serialize a);
  Unserialize_reads {S} `{StreamSpec S} : reads (S := S) serializable Serialize Unserialize }.

Section VectorReads.
Context {S : Type} `{StreamSpec S}.

(** *** Loops that append what they read *)

Definition grown {B} (P : B -> Prop) (v : list B) (n : nat) (r : list B) : Prop :=
  exists b, r = v ++ b /\ Forall P b /\ length b = n.

Lemma reads_grown_all {B} (P : B -> Prop) (w : list B -> list Z) v n : w [] = [] -> n = 0%nat ->
  reads (grown P v n) (fun r => w (drop (length v) r)) (fun s : S => mret (v, s)).
Proof.
  intros Hw ->. apply reads_ret; [|intros r (b & -> & _ & Hl)|now rewrite drop_all].
  - exists []. rewrite app_nil_r. split; [done|]. split; [constructor|done].
  - now rewrite (nil_length_inv b), app_nil_r by lia.
Qed.

Lemma reads_grown_more {B} (P : B -> Prop) (w : list B -> list Z) v n k p q :
  (forall a b, w (a ++ b) = w a ++ w b) -> (k <= n)%nat ->
  reads (fun c => Forall P c /\ length c = k) w p ->
  (forall c, reads (grown P (v ++ c) (n - k)) (fun r => w (drop (length (v ++ c)) r)) (q c)) ->
  reads (grown P v n) (fun r => w (drop (length v) r)) (fun s : S => '(c, s) ← p s; q c s).
Proof.
  intros Hw Hk Hp Hq. apply (reads_bind _ w p (fun r => take k (drop (length v) r)) _ _
    (fun r => w (drop k (drop (length v) r))) _ Hp).
  - intros r (b & -> & Hb & Hl). rewrite drop_app_length, <- Hw, take_drop, length_take.
    split; [split; [now apply Forall_take|lia]|done].
  - intros c [Hc Hlc]. eapply reads_ext; [| |done|exact (Hq c)].
    + intros r. split.
      * intros (b & -> & Hb & Hl). rewrite <- app_assoc, drop_app_length, <- Hlc, take_app_length.
        split; [|done]. exists (c ++ b). split; [done|]. rewrite Forall_app, length_app. split; [done|lia].
      * intros [(b & -> & Hb & Hl) Ec]. rewrite drop_app_length in Ec.
        exists (drop k b). rewrite <- app_assoc, <- Ec, take_drop, length_drop.
        split; [done|]. split; [now apply Forall_drop|lia].
    + intros r _. now rewrite length_app, drop_drop, Hlc.
Qed.

Lemma reads_blocks fuel v i nSize : nSize - i <= 5000000 * Z.of_nat fuel ->
  reads (grown (in_word 8) v (Z.to_nat (nSize - i))) (fun r => drop (length v) r)
    (fun s => read_blocks fuel s v i nSize).
Proof.
  revert v i. induction fuel as [|fuel IH]; intros v i Hf; cbn [read_blocks].
  { apply (reads_grown_all _ (fun b => b)); [done|lia]. }
  destruct (Z.ltb_spec i nSize); [|apply (reads_grown_all _ (fun b => b)); [done|lia]].
  change (1 + 4999999 / 1) with 5000000.
  apply (reads_grown_more _ (fun b => b) v _ (Z.to_nat (Z.min (nSize - i) 5000000))); [done|lia|apply reads_bytes; lia|].
  intros c. replace (Z.to_nat (nSize - i) - Z.to_nat (Z.min (nSize - i) 5000000))%nat
    with (Z.to_nat (nSize - (i + Z.min (nSize - i) 5000000))) by lia. apply IH. lia.
Qed.

Lemma size_fuel n c : 0 <= n -> 0 < c -> n <= c * Z.of_nat (Z.to_nat (n / c + 1)).
Proof.
  intros Hn Hc. pose proof (Z.div_pos n c Hn Hc). rewrite Z2Nat.id by lia.
  pose proof (Z.mul_succ_div_gt n c Hc). lia.
Qed.

Lemma Unserialize_bytes_reads :
  reads (fun v => bytes v /\ Z.of_nat (length v) <= MAX_SIZE) Serialize_bytes Unserialize_bytes.
Proof.
  apply (reads_bind _ _ _ (fun v => Z.of_nat (length v)) _ _ (fun v => v) _ reads_CompactSize).
  - intros v [Hv Hl]. split; [lia|done].
  - intros n Hn. eapply reads_ext; [| |done|exact (reads_blocks _ [] 0 n ltac:(rewrite Z.sub_0_r; apply size_fuel; lia))];
      [|done].
    intros r. split; [intros (b & -> & Hb & Hl); cbn [app]; split; [split; [done|]|]; lia|].
    intros [[Hr _] Hl]. exists r. split; [done|]. split; [done|lia].
Qed.

Context {A : Type} `{SerializableSpec A}.

Lemma reads_elements n : reads (fun l => Forall serializable l /\ length l = n)
  (fun l => mjoin (Serialize <$> l)) (read_elements n).
Proof.
  induction n as [|n IH]; cbn [read_elements].
  - apply reads_ret; [done| |done]. intros l [_ Hl]. now apply nil_length_inv.
  - apply (reads_bind_part serializable Serialize _ (fun l a => exists k, l = a :: k) _ _
      (fun l => mjoin (Serialize <$> tail l)) _ Unserialize_reads).
    + intros [|a l] [_ Hl]; [done|]. now exists a, l.
    + intros l a [Hl _] [k ->]. split; [now apply Forall_cons_1 in Hl|done].
    + intros a Ha. apply (reads_bind _ _ _ (fun l => tail l) _ _ (fun _ => []) _ IH).
      * intros l [[Hf Hl] [k ->]]. apply Forall_cons_1 in Hf as [_ Hf]. injection Hl as Hl.
        split; [done|]. now rewrite app_nil_r.
      * intros k [Hk Hlk]. apply reads_ret; [|intros l [[_ [k' ->]] Et]; cbn [tail] in Et; now subst k'|done].
        split; [|done]. split; [|now exists k]. split; [now constructor|simpl; lia].
Qed.

Lemma reads_parts sizeof fuel v i nSize : 0 < sizeof <= 5000000 -> 0 <= i -> nSize <= MAX_SIZE ->
  nSize - i <= 5000000 / sizeof * Z.of_nat fuel ->
  reads (grown serializable v (Z.to_nat (nSize - i))) (fun r => mjoin (Serialize <$> drop (length v) r))
    (fun s => read_parts fuel sizeof s v i nSize).
Proof.
  intros Hs Hi Hn. assert (Hc : 1 <= 5000000 / sizeof <= 5000000).
  { split; [apply Z.div_le_lower_bound; lia|apply Z.div_le_upper_bound; lia]. }
  revert v i Hi. induction fuel as [|fuel IH]; intros v i Hi Hf; cbn [read_parts].
  { apply (reads_grown_all _ (fun b => mjoin (Serialize <$> b))); [done|lia]. }
  destruct (Z.ltb_spec i nSize); [|apply (reads_grown_all _ (fun b => mjoin (Serialize <$> b))); [done|lia]].
  unfold MAX_SIZE in Hn. rewrite u32_small by (unfold in_word; lia).
  set (m := if nSize <? i + 5000000 / sizeof then nSize else i + 5000000 / sizeof).
  assert (Hm : i < m <= nSize /\ (m = nSize \/ m = i + 5000000 / sizeof))
    by (unfold m; destruct (Z.ltb_spec nSize (i + 5000000 / sizeof)); lia).
  clearbody m. apply (reads_grown_more _ (fun b => mjoin (Serialize <$> b)) v _ (Z.to_nat (m - i)));
    [intros a b; now rewrite fmap_app, join_app|lia|apply reads_elements|].
  intros c. replace (Z.to_nat (nSize - i) - Z.to_nat (m - i))%nat with (Z.to_nat (nSize - m)) by lia.
  apply IH; [lia|]. destruct Hm as [Hm [->| ->]]; lia.
Qed.

Lemma Unserialize_vector_reads sizeof : 0 < sizeof <= 5000000 ->
  reads (fun v => Forall serializable v /\ Z.of_nat (length v) <= MAX_SIZE) Serialize_vector
    (Unserialize_vector sizeof).
Proof.
  intros Hs. assert (Hc : 1 <= 5000000 / sizeof) by (apply Z.div_le_lower_bound; lia).
  apply (reads_bind _ _ _ (fun v => Z.of_nat (length v)) _ _ (fun v => mjoin (Serialize <$> v)) _ reads_CompactSize).
  - intros v [Hv Hl]. split; [lia|done].
  - intros n Hn. eapply reads_ext; [| |done|apply (reads_parts sizeof (Z.to_nat (n / (5000000 / sizeof) + 1)) [] 0 n)];
      [|done|done|lia|lia|rewrite Z.sub_0_r; apply size_fuel; lia].
    intros r. split; [intros (b & -> & Hb & Hl); cbn [app]; split; [split; [done|]|]; lia|].
    intros [[Hr _] Hl]. exists r. split; [done|]. split; [done|lia].
Qed.
End VectorReads.

(** ** Properties *)

Lemma CompactSize_size n : 0 <= n -> Z.of_nat (length (WriteCompactSize n)) = GetSizeOfCompactSize n.
Proof.
  intros Hn. unfold WriteCompactSize, GetSizeOfCompactSize. destruct (n <? 253); [done|].
  destruct (n <=? 0xFFFF); [done|]. now destruct (n <=? 0xFFFFFFFF).
Qed.

(** The terminating byte comes last. *)
Lemma varint_size fuel n nRet tmp len : Z.of_nat (length (fill_varint fuel n len tmp)) =
  size_varint fuel n nRet - nRet + Z.of_nat (length tmp).
Proof.
  revert n nRet tmp len. induction fuel as [|fuel IH]; intros n nRet tmp len; cbn [fill_varint size_varint]; [lia|].
  destruct (n <=? 0x7F); [cbn [length]; lia|]. rewrite (IH _ (nRet + 1)). cbn [length]. lia.
Qed.

(** A variable-length integer below 2^w, for a type of w up to 64 bits, is read back
    from what [WriteVarInt] writes of it, which has the length [GetSizeOfVarInt].
    [ReadVarInt] fails exactly when no byte below 128 is left; otherwise it gives, modulo
    2^w, the number that the bytes up to the first such byte stand for, and these bytes are
    the ones that are written for that number when it fits into w bits. *)
Theorem VarInt_correct {S} `{StreamSpec S} w (s : S) : 7 <= w <= 64 -> stream_ok s ->
  (forall n t, 0 <= n < 2 ^ w -> rest s = WriteVarInt n ++ t ->
     Z.of_nat (length (WriteVarInt n)) = GetSizeOfVarInt n /\
     exists s', ReadVarInt w s = inr (n, s') /\ stream_ok s' /\ rest s' = t) /\
  match ReadVarInt w s with
  | inl e => e = ios_failure /\ Forall (fun c => 128 <= c) (rest s)
  | inr (n, s') => stream_ok s' /\ exists bs, varint_form bs /\ rest s = bs ++ rest s' /\
      n = varint_value bs mod 2 ^ w /\ (varint_value bs < 2 ^ w -> bs = WriteVarInt n)
  end.
Proof.
  intros Hw Hok. pose proof (Z.pow_le_mono_r 2 w 64 ltac:(lia) ltac:(lia)) as Hp. split.
  { intros n t Hn E. split; [|now apply ReadVarInt_written].
    unfold WriteVarInt, GetSizeOfVarInt. rewrite (varint_size 10 n 0). cbn [length]. lia. }
  destruct (split_form (rest s) (rest_bytes s Hok)) as [Hf|(cs & b & t & E & Hcs & Hb)].
  { unfold ReadVarInt. rewrite read_varint_open by (done || lia). done. }
  destruct (ReadVarInt_form cs b t w s Hcs Hb ltac:(lia) Hok E) as (s' & Hok' & E' & ->).
  assert (Hform : varint_form (cs ++ [b])) by now exists cs, b.
  split; [done|]. exists (cs ++ [b]). rewrite E', <- app_assoc. split; [done|]. split; [done|]. split; [done|].
  intros Hv. destruct (varint_value_pos cs Hcs) as [H0' _]. rewrite Z.mod_small.
  - symmetry. apply varint_unique; [done|lia].
  - split; [|done]. rewrite varint_value_snoc. unfold varint_step. pose proof (Z.mod_pos_bound b 128 ltac:(lia)).
    destruct (b <? 128); lia.
Qed.

Definition demo_varint : CDataStream := {| vch := [0x8E; 0xFE; 0xFE; 0xFF; 0x00; 7]; nReadPos := 0 |}.

Lemma VarInt_correct_witness :
  exists s', ReadVarInt 64 demo_varint = inr (2 ^ 32, s') /\ stream_ok s' /\ rest s' = [7].
Proof.
  apply (VarInt_correct 64 demo_varint); [lia|by_eval|lia|reflexivity].
Defined.

(** The comment of [serialize.h] says that every integer has exactly one encoding.  The value
    is not checked against the width of the type: for 32 bits, five bytes are read as zero. *)
Lemma VarInt_wraps : WriteVarInt 0 = [0x00] /\
  ReadVarInt 32 demo_varint = inr (0, {| vch := vch demo_varint; nReadPos := 5 |}).
Proof. split; reflexivity. Qed.
