(* ===== verification/Transaction.v ===== *)
(** * Transactions ([primitives/transaction.h], [primitives/transaction.cpp])

    Outpoints, inputs, outputs and transactions, their serialization and their hash. *)

From stdpp Require Import gmap.
From S2P Require Import Prelude Words Blob SHA256 Serialize.

(** ** Data *)

Abbreviation hash := (list Z) (only parsing).
Definition null_hash : hash := null_blob 32.

Record COutPoint := mk_outpoint { op_hash : hash; op_n : Z }.

#[export] Instance COutPoint_eq_dec : EqDecision COutPoint.
Proof. solve_decision. Defined.
#[export] Program Instance COutPoint_countable : Countable COutPoint :=
  inj_countable' (fun o => (op_hash o, op_n o)) (fun p => mk_outpoint p.1 p.2) _.
Next Obligation. by intros []. Qed.

Definition COutPoint_IsNull (o : COutPoint) : bool := IsNull (op_hash o) && (op_n o =? 0xFFFFFFFF).

Abbreviation CScript := (list Z) (only parsing).
Definition OP_RETURN : Z := 0x6a.
Definition MAX_SCRIPT_SIZE : Z := 10000.
Definition IsUnspendable (script : CScript) : bool :=
  ((0 <? Z.of_nat (length script)) && (script.[0] =? OP_RETURN))
  || (MAX_SCRIPT_SIZE <? Z.of_nat (length script)).

Record CTxOut := mk_txout { nValue : Z; scriptPubKey : CScript; nRounds : Z }.
Definition CTxOut_null : CTxOut := {| nValue := -1; scriptPubKey := []; nRounds := -10 |}.
Definition CTxOut_IsNull (out : CTxOut) : bool := nValue out =? -1.

#[export] Instance CTxOut_eq_dec : EqDecision CTxOut.
Proof. solve_decision. Defined.

Record CTxIn := mk_txin { prevout : COutPoint; scriptSig : CScript; nSequence : Z }.

(** A transaction, with the hash that was computed when it was built. *)
Record CTransaction := mk_tx
  { tx_version : Z; vin : list CTxIn; vout : list CTxOut; nLockTime : Z; tx_hash : hash }.
Definition IsCoinBase (tx : CTransaction) : bool :=
  match vin tx with [i] => COutPoint_IsNull (prevout i) | _ => false end.

(** ** Serialization

    [Serialize_X] and [Unserialize_X] are the method [SerializationOp] of the class X for
    writing and for reading. *)

Definition Serialize_COutPoint (o : COutPoint) : list Z := op_hash o ++ ser_writedata32 (op_n o).
Definition Serialize_CTxIn (i : CTxIn) : list Z :=
  Serialize_COutPoint (prevout i) ++ Serialize_bytes (scriptSig i) ++ ser_writedata32 (nSequence i).
Definition Serialize_CTxOut (o : CTxOut) : list Z :=
  Serialize_int64 (nValue o) ++ Serialize_bytes (scriptPubKey o).

Section Unserialize.
Context {S : Type} `{Stream S}.

Definition Unserialize_COutPoint (s : S) : throws (COutPoint * S) :=
  '(h, s) ← stream_read s 32;
  '(n, s) ← ser_readdata32 s;
  mret (mk_outpoint h n, s).
Definition Unserialize_CTxIn (s : S) : throws (CTxIn * S) :=
  '(o, s) ← Unserialize_COutPoint s;
  '(sig, s) ← Unserialize_bytes s;
  '(seq, s) ← ser_readdata32 s;
  mret (mk_txin o sig seq, s).
(** The field [nRounds] is not part of it: it stays as [CTxOut()] sets it. *)
Definition Unserialize_CTxOut (s : S) : throws (CTxOut * S) :=
  '(v, s) ← Unserialize_int64 s;
  '(script, s) ← Unserialize_bytes s;
  mret (mk_txout v script (nRounds CTxOut_null), s).
End Unserialize.

#[export] Instance CTxIn_serializable : Serializable CTxIn := {
  Serialize := Serialize_CTxIn; Unserialize := @Unserialize_CTxIn }.
#[export] Instance CTxOut_serializable : Serializable CTxOut := {
  Serialize := Serialize_CTxOut; Unserialize := @Unserialize_CTxOut }.

(** The sizes of the objects in memory, on x86-64. *)
Definition sizeof_CTxIn : Z := 72.
Definition sizeof_CTxOut : Z := 48.
Definition sizeof_CTransaction : Z := 96.

(** The fields of a transaction but its hash, in their order. *)
Definition Serialize_CTransaction (tx : CTransaction) : list Z :=
  Serialize_int32 (tx_version tx) ++ Serialize_vector (vin tx) ++ Serialize_vector (vout tx) ++
  ser_writedata32 (nLockTime tx).

(** [SerializeHash]: what is written goes to a [CHash256]. *)
Definition SerializeHash (data : list Z) : hash :=
  (CHash256_Finalize (CHash256_Write (CHash256_new stack_memory) data)).2.
Definition UpdateHash (tx : CTransaction) : CTransaction :=
  {| tx_version := tx_version tx; vin := vin tx; vout := vout tx; nLockTime := nLockTime tx;
     tx_hash := SerializeHash (Serialize_CTransaction tx) |}.

Definition Unserialize_CTransaction {S} `{Stream S} (s : S) : throws (CTransaction * S) :=
  '(v, s) ← Unserialize_int32 s;
  '(ins, s) ← Unserialize_vector sizeof_CTxIn s;
  '(outs, s) ← Unserialize_vector sizeof_CTxOut s;
  '(t, s) ← ser_readdata32 s;
  mret (UpdateHash (mk_tx v ins outs t null_hash), s).

#[export] Instance CTransaction_serializable : Serializable CTransaction := {
  Serialize := Serialize_CTransaction; Unserialize := @Unserialize_CTransaction }.

(** [GetSerializeSize] of a class counts the bytes that [Serialize] writes. *)
Definition GetSerializeSize {A} `{Serializable A} (a : A) : Z := Z.of_nat (length (Serialize a)).

(** ** Values that can be written *)

Definition script_ok (v : CScript) : Prop := bytes v /\ Z.of_nat (length v) <= MAX_SIZE.
Definition outpoint_ok (o : COutPoint) : Prop :=
  (bytes (op_hash o) /\ length (op_hash o) = 32%nat) /\ in_word 32 (op_n o).
Definition txin_ok (i : CTxIn) : Prop :=
  outpoint_ok (prevout i) /\ script_ok (scriptSig i) /\ in_word 32 (nSequence i).
Definition txout_ok (o : CTxOut) : Prop :=
  - 2 ^ 63 <= nValue o < 2 ^ 63 /\ script_ok (scriptPubKey o) /\ nRounds o = nRounds CTxOut_null.
Definition tx_ok (tx : CTransaction) : Prop :=
  - 2 ^ 31 <= tx_version tx < 2 ^ 31 /\
  (Forall txin_ok (vin tx) /\ Z.of_nat (length (vin tx)) <= MAX_SIZE) /\
  (Forall txout_ok (vout tx) /\ Z.of_nat (length (vout tx)) <= MAX_SIZE) /\
  in_word 32 (nLockTime tx) /\ tx_hash tx = SerializeHash (Serialize_CTransaction tx).

(** ** The readers are right *)

Lemma bytes_WriteCompactSize n : bytes (WriteCompactSize n).
Proof.
  unfold WriteCompactSize. repeat destruct (_ <? _); repeat destruct (_ <=? _);
    rewrite ?Forall_app; repeat split; apply bytes_le_split.
Qed.
Lemma bytes_Serialize_bytes v : bytes v -> bytes (Serialize_bytes v).
Proof. intros Hv. apply Forall_app. split; [apply bytes_WriteCompactSize|done]. Qed.
Lemma bytes_Serialize_vector {A} `{SerializableSpec A} (v : list A) :
  Forall serializable v -> bytes (Serialize_vector v).
Proof.
  intros Hv. apply Forall_app. split; [apply bytes_WriteCompactSize|].
  induction Hv as [|a v Ha Hv IH]; [constructor|]. cbn. apply Forall_app. split; [now apply Serialize_is_bytes|done].
Qed.

Section Readers.
Context {S : Type} `{StreamSpec S}.

(** The last step: the value is made of the parts that were read. *)
Ltac all_read := apply reads_ret;
  [unfold txin_ok, txout_ok, script_ok, outpoint_ok in *; cbn; tauto
  |intros []; unfold txout_ok; cbn; intros; destruct_and?; simplify_eq/=; congruence|done].

Lemma COutPoint_reads : reads outpoint_ok Serialize_COutPoint Unserialize_COutPoint.
Proof.
  apply (reads_bind _ _ _ op_hash _ _ (fun o => ser_writedata32 (op_n o)) _ (reads_bytes 32 ltac:(lia))).
  { intros o [Hh Hn]. now split. }
  intros h Hh. apply (reads_bind _ _ _ op_n _ _ (fun _ => []) _ reads_32).
  { intros o [[_ Hn] _]. now rewrite app_nil_r. }
  intros n Hn. all_read.
Qed.

Lemma CTxIn_reads : reads txin_ok Serialize_CTxIn Unserialize_CTxIn.
Proof.
  apply (reads_bind _ _ _ prevout _ _ (fun i => Serialize_bytes (scriptSig i) ++ ser_writedata32 (nSequence i)) _ COutPoint_reads).
  { intros i [Ho _]. now split. }
  intros o Ho. apply (reads_bind _ _ _ scriptSig _ _ (fun i => ser_writedata32 (nSequence i)) _ Unserialize_bytes_reads).
  { intros i [[_ [Hs _]] _]. now split. }
  intros sig Hs. apply (reads_bind _ _ _ nSequence _ _ (fun _ => []) _ reads_32).
  { intros i [[[_ [_ Hn]] _] _]. now rewrite app_nil_r. }
  intros n Hn. all_read.
Qed.

Lemma CTxOut_reads : reads txout_ok Serialize_CTxOut Unserialize_CTxOut.
Proof.
  apply (reads_bind _ _ _ nValue _ _ (fun o => Serialize_bytes (scriptPubKey o)) _ reads_i64).
  { intros o [Hv _]. now split. }
  intros v Hv. apply (reads_bind _ _ _ scriptPubKey _ _ (fun _ => []) _ Unserialize_bytes_reads).
  { intros o [[_ [Hs _]] _]. now rewrite app_nil_r. }
  intros n Hn. all_read.
Qed.
End Readers.

#[export] Program Instance CTxIn_spec : SerializableSpec CTxIn := {
  serializable := txin_ok; Unserialize_reads := @CTxIn_reads }.
Next Obligation.
  intros i (([Hh _] & _) & [Hs _] & _). apply Forall_app. split; [apply Forall_app; split; [done|]|apply Forall_app; split];
    [apply bytes_le_split|now apply bytes_Serialize_bytes|apply bytes_le_split].
Qed.
#[export] Program Instance CTxOut_spec : SerializableSpec CTxOut := {
  serializable := txout_ok; Unserialize_reads := @CTxOut_reads }.
Next Obligation.
  intros o (_ & [Hs _] & _). apply Forall_app. split; [apply bytes_le_split|now apply bytes_Serialize_bytes].
Qed.

(** *** The hash *)

Lemma Serialize_UpdateHash tx : Serialize_CTransaction (UpdateHash tx) = Serialize_CTransaction tx.
Proof. reflexivity. Qed.
Lemma tx_hash_UpdateHash tx :
  tx_hash (UpdateHash tx) = SerializeHash (Serialize_CTransaction (UpdateHash tx)).
Proof. rewrite Serialize_UpdateHash. unfold UpdateHash. cbn [tx_hash]. exact eq_refl. Qed.
Lemma UpdateHash_same tx h : tx_hash tx = SerializeHash (Serialize_CTransaction tx) ->
  tx = UpdateHash (mk_tx (tx_version tx) (vin tx) (vout tx) (nLockTime tx) h).
Proof.
  intros E. pose (tx' := mk_tx (tx_version tx) (vin tx) (vout tx) (nLockTime tx) h).
  assert (Es : Serialize_CTransaction tx' = Serialize_CTransaction tx) by reflexivity.
  unfold UpdateHash. fold tx'. rewrite Es, <- E. now destruct tx.
Qed.

Lemma CTransaction_reads {S} `{StreamSpec S} : reads tx_ok Serialize_CTransaction Unserialize_CTransaction.
Proof.
  apply (reads_bind _ _ _ tx_version _ _
    (fun tx => Serialize_vector (vin tx) ++ Serialize_vector (vout tx) ++ ser_writedata32 (nLockTime tx)) _ reads_i32).
  { intros tx [Hv _]. now split. }
  intros v Hv. apply (reads_bind _ _ _ vin _ _ (fun tx => Serialize_vector (vout tx) ++ ser_writedata32 (nLockTime tx)) _
    (Unserialize_vector_reads (A := CTxIn) sizeof_CTxIn ltac:(done))).
  { intros tx [(_ & Hi & _) _]. now split. }
  intros ins Hins. apply (reads_bind _ _ _ vout _ _ (fun tx => ser_writedata32 (nLockTime tx)) _
    (Unserialize_vector_reads (A := CTxOut) sizeof_CTxOut ltac:(done))).
  { intros tx [[(_ & _ & Ho & _) _] _]. now split. }
  intros outs Houts. apply (reads_bind _ _ _ nLockTime _ _ (fun _ => []) _ reads_32).
  { intros tx [[[(_ & _ & _ & Ht & _) _] _] _]. now rewrite app_nil_r. }
  intros t Ht. apply reads_ret; [|intros [v' i' o' t' h'] [[[[Htx Ev] Ei] Eo] Et]|done].
  - split; [|done]. split; [|done]. split; [|done]. split; [|done].
    split; [done|]. split; [done|]. split; [done|]. split; [done|]. apply tx_hash_UpdateHash.
  - cbn [tx_version vin vout nLockTime] in Ev, Ei, Eo, Et. subst.
    apply (UpdateHash_same (mk_tx v ins outs t h') null_hash), Htx.
Qed.

Lemma bytes_Serialize_CTransaction tx : tx_ok tx -> bytes (Serialize_CTransaction tx).
Proof.
  intros (_ & [Hi _] & [Ho _] & _). unfold Serialize_CTransaction.
  rewrite !Forall_app. split; [apply bytes_le_split|]. split; [now apply bytes_Serialize_vector|].
  split; [now apply bytes_Serialize_vector|apply bytes_le_split].
Qed.

#[export] Instance CTransaction_spec : SerializableSpec CTransaction := {
  serializable := tx_ok; Serialize_is_bytes := bytes_Serialize_CTransaction;
  Unserialize_reads := @CTransaction_reads }.

Lemma SerializeHash_spec data : bytes data -> SerializeHash data = sha256d data.
Proof.
  intros Hb. assert (Hr : sha_repr (CHash256_Write (CHash256_new stack_memory) data) data).
  { apply (CSHA256_Write_repr _ [] data); [|done]. apply CSHA256_new_repr. reflexivity. }
  exact (CHash256_Finalize_spec _ _ Hr).
Qed.

(** ** Properties *)

(** C26. A transaction whose fields are in the range of their types and whose vectors have at
    most [MAX_SIZE] elements is read back from its serialization.  Reading from any stream
    otherwise fails with [std::ios_base::failure], or gives such a transaction whose
    serialization is exactly the bytes that were read and whose hash is their double
    SHA-256. *)
Theorem transaction_roundtrip {S} `{StreamSpec S} (s : S) : stream_ok s ->
  (forall tx t, tx_ok tx -> rest s = Serialize_CTransaction tx ++ t ->
     exists s', Unserialize_CTransaction s = inr (tx, s') /\ stream_ok s' /\ rest s' = t) /\
  match Unserialize_CTransaction s with
  | inl e => e = ios_failure
  | inr (tx, s') => tx_ok tx /\ stream_ok s' /\ rest s = Serialize_CTransaction tx ++ rest s' /\
      tx_hash tx = sha256d (Serialize_CTransaction tx)
  end.
Proof.
  intros Hok. destruct (CTransaction_reads s Hok) as [Hc Hd]. split; [exact Hc|].
  destruct (Unserialize_CTransaction s) as [e|[tx s']]; [exact Hd|]. destruct Hd as (Htx & Hok' & E).
  split; [exact Htx|]. split; [exact Hok'|]. split; [exact E|].
  rewrite (proj2 (proj2 (proj2 (proj2 Htx)))). apply SerializeHash_spec, (bytes_Serialize_CTransaction tx Htx).
Qed.

(** A collision of SHA-256. *)
Definition collision (x y : list Z) : Prop := x <> y /\ FIPS180.sha256 x = FIPS180.sha256 y.

(** Two transactions with the same hash are the same, unless their serializations, or the
    digests of these, are a collision of SHA-256: no field of a transaction can be changed
    without changing the hash. *)
Theorem transaction_hash_binds a b : tx_ok a -> tx_ok b -> tx_hash a = tx_hash b ->
  a = b \/ collision (Serialize_CTransaction a) (Serialize_CTransaction b) \/
  collision (FIPS180.sha256 (Serialize_CTransaction a)) (FIPS180.sha256 (Serialize_CTransaction b)).
Proof.
  intros Ha Hb E. destruct (decide (Serialize_CTransaction a = Serialize_CTransaction b)) as [Es|Hne].
  - left. apply (reads_inj tx_ok Serialize_CTransaction Unserialize_CTransaction a b [] []);
      [apply CTransaction_reads|done|done|rewrite app_nil_r; exact (bytes_Serialize_CTransaction a Ha)|now rewrite Es].
  - right. pose proof (bytes_Serialize_CTransaction a Ha) as Ba. pose proof (bytes_Serialize_CTransaction b Hb) as Bb.
    destruct Ha as (_ & _ & _ & _ & Ea), Hb as (_ & _ & _ & _ & Eb).
    rewrite Ea, Eb, !SerializeHash_spec in E by assumption. unfold sha256d in E.
    destruct (decide (FIPS180.sha256 (Serialize_CTransaction a) = FIPS180.sha256 (Serialize_CTransaction b))) as [E1|E1];
      [left|right]; now split.
Qed.

(** A transaction with one input and two outputs, and its bytes. *)
Definition demo_transaction : CTransaction := UpdateHash
  (mk_tx (-2) [mk_txin (mk_outpoint (replicate 32 7) 1) [0x51; 0x52] 0xFFFFFFFF]
    [mk_txout 5000000000 [0x6a] (-10); mk_txout (-1) [] (-10)] 17 null_hash).
Definition demo_tx_stream : CDataStream :=
  {| vch := Serialize_CTransaction demo_transaction ++ [1; 2; 3]; nReadPos := 0 |}.

Lemma demo_transaction_ok : tx_ok demo_transaction.
Proof.
  split; [by_eval|]. split; [split; [|by_eval]|].
  { constructor; [|constructor]. split; [split; [split; by_eval|by_eval]|]. split; [split; by_eval|by_eval]. }
  split; [split; [|by_eval]|].
  { constructor; [|constructor; [|constructor]]; (split; [split; by_eval|]); (split; [split; by_eval|reflexivity]). }
  split; [by_eval|]. apply tx_hash_UpdateHash.
Qed.

Lemma transaction_roundtrip_witness :
  exists s', Unserialize_CTransaction demo_tx_stream = inr (demo_transaction, s') /\
    stream_ok s' /\ rest s' = [1; 2; 3].
Proof.
  apply (transaction_roundtrip demo_tx_stream); [split; [by_eval|split; by_eval]|exact demo_transaction_ok|].
  vm_compute. reflexivity.
Defined.

Lemma transaction_hash_binds_witness :
  demo_transaction = demo_transaction \/
  collision (Serialize_CTransaction demo_transaction) (Serialize_CTransaction demo_transaction) \/
  collision (FIPS180.sha256 (Serialize_CTransaction demo_transaction))
    (FIPS180.sha256 (Serialize_CTransaction demo_transaction)).
Proof.
  apply (transaction_hash_binds demo_transaction demo_transaction demo_transaction_ok demo_transaction_ok).
  exact eq_refl.
Defined.
