(* ===== verification/Script.v ===== *)
(** * Scripts ([script/script.h], [script/script.cpp])

    The encoding of instructions and of numbers in a script, and the count of signature
    operations.  A position in a script is given as the bytes from there on. *)

From S2P Require Import Prelude Words Transaction.

(** ** Opcodes *)

Definition OP_0 : Z := 0x00.
Definition OP_PUSHDATA1 : Z := 0x4c.
Definition OP_PUSHDATA2 : Z := 0x4d.
Definition OP_PUSHDATA4 : Z := 0x4e.
Definition OP_1 : Z := 0x51.
Definition OP_16 : Z := 0x60.
Definition OP_DUP : Z := 0x76.
Definition OP_EQUAL : Z := 0x87.
Definition OP_EQUALVERIFY : Z := 0x88.
Definition OP_HASH160 : Z := 0xa9.
Definition OP_CHECKSIG : Z := 0xac.
Definition OP_CHECKSIGVERIFY : Z := 0xad.
Definition OP_CHECKMULTISIG : Z := 0xae.
Definition OP_CHECKMULTISIGVERIFY : Z := 0xaf.
Definition OP_INVALIDOPCODE : Z := 0xff.
Definition MAX_PUBKEYS_PER_MULTISIG : Z := 20.

(** ** Reading instructions *)

(** The size of the immediate operand, and the position after it. *)
Definition operand_size (opcode : Z) (pc : CScript) : option (Z * CScript) :=
  if opcode <? OP_PUSHDATA1 then Some (opcode, pc)
  else if opcode =? OP_PUSHDATA1 then
    match pc with nSize :: pc => Some (nSize, pc) | [] => None end
  else if opcode =? OP_PUSHDATA2 then
    if (length pc <? 2)%nat then None else Some (le_combine (take 2 pc), drop 2 pc)
  else if (length pc <? 4)%nat then None else Some (le_combine (take 4 pc), drop 4 pc).

(** The opcode, its data and the position after them; [None] is the result false, after which
    no caller looks at the position. *)
Definition GetOp2 (pc : CScript) : option (Z * list Z * CScript) :=
  match pc with
  | [] => None
  | opcode :: pc =>
      if opcode <=? OP_PUSHDATA4 then
        '(nSize, pc) ← operand_size opcode pc;
        if u32 (Z.of_nat (length pc)) <? nSize then None
        else Some (opcode, take (Z.to_nat nSize) pc, drop (Z.to_nat nSize) pc)
      else Some (opcode, [], pc)
  end.

(** ** Writing instructions *)

(** What [operator<<] appends for a vector of bytes. *)
Definition push_data (b : list Z) : CScript :=
  let size := Z.of_nat (length b) in
  (if size <? OP_PUSHDATA1 then [u8 size]
   else if size <=? 0xff then [OP_PUSHDATA1; u8 size]
   else if size <=? 0xffff then OP_PUSHDATA2 :: le_split 2 size
   else OP_PUSHDATA4 :: le_split 4 size) ++ b.

(** [CScriptNum::serialize]: the loop, then the sign in the last byte. *)
Fixpoint abs_bytes (fuel : nat) (absvalue : Z) : list Z :=
  match fuel with
  | O => []
  | S fuel => if absvalue =? 0 then [] else absvalue .& 0xff :: abs_bytes fuel (absvalue >> 8)
  end.
Definition CScriptNum_serialize (value : Z) : list Z :=
  if value =? 0 then []
  else
    let neg := value <? 0 in
    let absvalue := if neg then u64 (- value) else value in
    let result := abs_bytes 8 absvalue in
    let last := List.last result 0 in
    if negb (last .& 0x80 =? 0) then result ++ [if neg then 0x80 else 0]
    else if neg then removelast result ++ [last .| 0x80]
    else result.

(** The constructor of [CScriptNum] from bytes, and [set_vch]; the bytes from number [i] on. *)
Fixpoint set_bytes (i : Z) (vch : list Z) : Z :=
  match vch with [] => 0 | b :: vch => (b << (8 * i)) .| set_bytes (i + 1) vch end.
Definition set_vch (vch : list Z) : Z :=
  match vch with
  | [] => 0
  | _ =>
      let result := s64 (set_bytes 0 vch) in
      if negb (List.last vch 0 .& 0x80 =? 0)
      then - s64 (u64 result .& u64 (Z.lnot (0x80 << (8 * (Z.of_nat (length vch) - 1)))))
      else result
  end.
Definition CScriptNum (vch : list Z) (fRequireMinimal : bool) (nMaxNumSize : Z) : throws Z :=
  let size := Z.of_nat (length vch) in
  if nMaxNumSize <? size then inl runtime_error
  else if fRequireMinimal && (0 <? size) && (List.last vch 0 .& 0x7f =? 0) &&
    ((size <=? 1) || (vch.[length vch - 2] .& 0x80 =? 0)) then inl runtime_error
  else mret (set_vch vch).

(** What [operator<<] appends for a number. *)
Definition push_int64 (n : Z) : CScript :=
  if (n =? -1) || ((1 <=? n) && (n <=? 16)) then [n + (OP_1 - 1)]
  else if n =? 0 then [OP_0]
  else push_data (CScriptNum_serialize n).

(** ** Signature operations *)

(** [DecodeOP_N] where it is called, on the opcodes from [OP_1] to [OP_16]. *)
Definition DecodeOP_N (opcode : Z) : Z := if opcode =? OP_0 then 0 else opcode - (OP_1 - 1).

(** Every instruction takes a byte at least: one turn per byte is enough. *)
Fixpoint sigop_loop (fuel : nat) (fAccurate : bool) (pc : CScript) (lastOpcode n : Z) : Z :=
  match fuel with
  | O => n
  | S fuel =>
      match pc, GetOp2 pc with
      | [], _ => n
      | _, None => n
      | _, Some (opcode, _, pc) =>
          let n :=
            if (opcode =? OP_CHECKSIG) || (opcode =? OP_CHECKSIGVERIFY) then u32 (n + 1)
            else if (opcode =? OP_CHECKMULTISIG) || (opcode =? OP_CHECKMULTISIGVERIFY) then
              if fAccurate && (OP_1 <=? lastOpcode) && (lastOpcode <=? OP_16)
              then u32 (n + DecodeOP_N lastOpcode)
              else u32 (n + MAX_PUBKEYS_PER_MULTISIG)
            else n in
          sigop_loop fuel fAccurate pc opcode n
      end
  end.
Definition GetSigOpCount (script : CScript) (fAccurate : bool) : Z :=
  sigop_loop (length script) fAccurate script OP_INVALIDOPCODE 0.

Definition IsPayToScriptHash (script : CScript) : bool :=
  (length script =? 23)%nat && (script.[0] =? OP_HASH160) && (script.[1] =? 0x14) && (script.[22] =? OP_EQUAL).

(** The last item that [scriptSig] pushes; [None] where the code returns 0. *)
Fixpoint last_push (fuel : nat) (pc : CScript) (data : list Z) : option (list Z) :=
  match fuel with
  | O => Some data
  | S fuel =>
      match pc, GetOp2 pc with
      | [], _ => Some data
      | _, None => None
      | _, Some (opcode, data, pc) => if OP_16 <? opcode then None else last_push fuel pc data
      end
  end.
Definition GetSigOpCount_P2SH (script scriptSig : CScript) : Z :=
  if negb (IsPayToScriptHash script) then GetSigOpCount script true
  else
    match last_push (length scriptSig) scriptSig [] with
    | None => 0
    | Some subscript => GetSigOpCount subscript true
    end.

(** ** Script numbers *)

Lemma byte_sign t : is_byte t ->
  t .& 0x7f = t mod 128 /\ (t .& 0x80 =? 0) = (t <? 128) /\ (t < 128 -> t .| 0x80 = t + 128).
Proof.
  intros Ht.
  assert (H : all_below 256 (fun i => let t := Z.of_nat i in
    (t .& 0x7f =? t mod 128) && Bool.eqb (t .& 0x80 =? 0) (t <? 128) &&
    (negb (t <? 128) || (t .| 0x80 =? t + 128))) = true) by (vm_compute; reflexivity).
  unfold all_below in H. rewrite forallb_forall in H. unfold is_byte, in_word in Ht.
  specialize (H (Z.to_nat t)). rewrite Z2Nat.id in H by lia.
  assert (Hin : In (Z.to_nat t) (seq 0 256)) by (apply in_seq; lia).
  specialize (H Hin). rewrite !andb_true_iff, orb_true_iff in H. destruct H as [[H1 H2] H3].
  apply Z.eqb_eq in H1. apply Bool.eqb_prop in H2. split; [done|]. split; [done|]. lia.
Qed.

Lemma le_combine_concat l l' : bytes l -> bytes l' ->
  le_combine (l ++ l') = le_combine l + 2 ^ (8 * Z.of_nat (length l)) * le_combine l'.
Proof.
  intros Hl Hl'. induction Hl as [|b l Hb Hl IH]; [cbn [app length]; cbn [le_combine]; lia|].
  cbn [app]. rewrite !le_combine_cons, IH by (done || now apply Forall_app). cbn [length].
  replace (2 ^ (8 * Z.of_nat (S (length l)))) with (256 * 2 ^ (8 * Z.of_nat (length l))); [lia|].
  rewrite <- (Z.pow_add_r 2 8) by lia. f_equal. lia.
Qed.

Lemma le_combine_one b : le_combine [b] = b.
Proof. cbn. now rewrite Z.lor_0_r. Qed.

Lemma le_combine_bounds l : bytes l -> 0 <= le_combine l < 2 ^ (8 * Z.of_nat (length l)).
Proof. exact (in_word_le_combine l). Qed.

Lemma set_bytes_spec i l : 0 <= i -> bytes l -> set_bytes i l = le_combine l << (8 * i).
Proof.
  revert i. induction l as [|b l IH]; intros i Hi Hl; cbn [set_bytes le_combine]; [now rewrite Z.shiftl_0_l|].
  apply Forall_cons_1 in Hl as [Hb Hl]. rewrite IH by (done || lia). rewrite Z.shiftl_lor, Z.shiftl_shiftl by lia.
  do 2 f_equal. lia.
Qed.

(** The number that sign and magnitude [body ++ [t]] stand for. *)
Definition signed_value (body : list Z) (t : Z) : Z :=
  (if t <? 128 then 1 else -1) * le_combine (body ++ [t mod 128]).

Lemma magnitude body t : bytes body -> is_byte t -> le_combine (body ++ [t]) =
  le_combine body + 2 ^ (8 * Z.of_nat (length body)) * t.
Proof. intros Hb Ht. rewrite le_combine_concat, le_combine_one by (done || now constructor). done. Qed.

Lemma is_byte_mod t : is_byte t -> is_byte (t mod 128).
Proof. unfold is_byte, in_word. intros Ht. pose proof (Z.mod_pos_bound t 128 ltac:(lia)). lia. Qed.

(** Clearing the sign bit. *)
Lemma clear_top w k : 0 <= k -> 0 <= w < 2 ^ k -> (w + 2 ^ k) .& Z.lnot (2 ^ k) = w.
Proof.
  intros Hk Hw. rewrite <- Z.ldiff_land.
  rewrite Z.add_nocarry_lxor.
  2:{ apply Z.bits_inj'. intros n Hn. rewrite Z.land_spec, Z.bits_0, Z.pow2_bits_eqb by done.
      destruct (Z.eqb_spec k n) as [->|]; [|now rewrite andb_false_r].
      rewrite <- (Z.mod_small w (2 ^ n)) by done.
      now rewrite Z.mod_pow2_bits_high by lia. }
  apply Z.bits_inj'. intros n Hn. rewrite Z.ldiff_spec, Z.lxor_spec, Z.pow2_bits_eqb by done.
  destruct (Z.eqb_spec k n) as [->|]; cbn; [|now rewrite xorb_false_r, andb_true_r].
  rewrite andb_false_r. rewrite <- (Z.mod_small w (2 ^ n)) by done. now rewrite Z.mod_pow2_bits_high by lia.
Qed.

Lemma set_vch_spec body t : bytes body -> is_byte t -> (length body <= 7)%nat ->
  set_vch (body ++ [t]) = signed_value body t.
Proof.
  intros Hb Ht Hl. unfold set_vch. destruct (body ++ [t]) as [|b0 l0] eqn:El; [now destruct body|]. rewrite <- El.
  rewrite last_last, length_app, set_bytes_spec by (lia || (apply Forall_app; split; [done|now constructor])).
  cbn [length]. rewrite Z.mul_0_r, Z.shiftl_0_r. destruct (byte_sign t Ht) as (_ & -> & _).
  replace (8 * (Z.of_nat (length body + 1) - 1)) with (8 * Z.of_nat (length body)) by lia.
  unfold signed_value. pose proof (le_combine_bounds body Hb) as Hw. rewrite !magnitude by (done || now apply is_byte_mod).
  set (k := 8 * Z.of_nat (length body)) in *. assert (Hk : 0 <= k <= 56) by lia.
  assert (Hp : 2 ^ k * 128 <= 2 ^ 63).
  { change 128 with (2 ^ 7). rewrite <- Z.pow_add_r by lia. apply Z.pow_le_mono_r; lia. }
  unfold is_byte, in_word in Ht. set (w := le_combine body) in *. clearbody w.
  destruct (Z.ltb_spec t 128) as [Hs|Hs]; cbn [negb].
  - pose proof (Z.mul_le_mono_nonneg_l t 127 (2 ^ k) ltac:(lia) ltac:(lia)).
    pose proof (Z.mul_nonneg_nonneg (2 ^ k) t ltac:(lia) ltac:(lia)). rewrite s64_small by lia. rewrite Z.mod_small by lia. lia.
  - assert (Et : t mod 128 = t - 128) by (rewrite <- (Z.mod_small (t - 128) 128) by lia; rewrite <- (Z_mod_plus_full (t - 128) 1 128); f_equal; lia).
    rewrite Et. set (v := w + 2 ^ k * (t - 128)). assert (Hv : 0 <= v < 2 ^ (k + 7)).
    { rewrite Z.pow_add_r by lia. unfold v. pose proof (Z.mul_nonneg_nonneg (2 ^ k) (t - 128) ltac:(lia) ltac:(lia)).
      pose proof (Z.mul_le_mono_nonneg_l (t - 128) 127 (2 ^ k) ltac:(lia) ltac:(lia)). change (2 ^ 7) with 128. lia. }
    assert (Ex : w + 2 ^ k * t = v + 2 ^ (k + 7)) by (unfold v; rewrite Z.pow_add_r by lia; lia).
    assert (Hk7 : 2 ^ (k + 7) <= 2 ^ 63) by (apply Z.pow_le_mono_r; lia).
    rewrite Ex, u64_s64, u64_small by (unfold in_word; lia).
    assert (Eland : forall y, (v + 2 ^ (k + 7)) .& u64 y = (v + 2 ^ (k + 7)) .& y).
    { intros y. unfold u64. rewrite (Z.land_comm y), Z.land_assoc. f_equal. apply u64_small. unfold in_word. lia. }
    rewrite Eland. replace (0x80 << k) with (2 ^ (k + 7)) by (rewrite Z.shiftl_mul_pow2, Z.pow_add_r by lia; lia).
    rewrite clear_top, s64_small by lia. lia.
Qed.

(** *** The bytes of the absolute value *)

Lemma abs_bytes_value f a : 0 <= a < 2 ^ (8 * Z.of_nat f) ->
  bytes (abs_bytes f a) /\ le_combine (abs_bytes f a) = a /\
  (a <> 0 -> 2 ^ (8 * (Z.of_nat (length (abs_bytes f a)) - 1)) <= a /\ List.last (abs_bytes f a) 0 <> 0).
Proof.
  revert a. induction f as [|f IH]; intros a Ha; cbn [abs_bytes].
  { change (2 ^ (8 * Z.of_nat 0)) with 1 in Ha. split; [constructor|]. cbn. lia. }
  destruct (Z.eqb_spec a 0) as [->|Hne]; [split; [constructor|]; cbn; lia|].
  change 0xff with (Z.ones 8). rewrite Z.land_ones, Z.shiftr_div_pow2 by lia. change (2 ^ 8) with 256.
  pose proof (Z.mod_pos_bound a 256 ltac:(lia)) as Hm. pose proof (Z.div_mod a 256 ltac:(lia)) as Hd.
  assert (Hq : 0 <= a / 256 < 2 ^ (8 * Z.of_nat f)).
  { split; [apply Z.div_pos; lia|]. apply Z.div_lt_upper_bound; [lia|].
    replace (256 * 2 ^ (8 * Z.of_nat f)) with (2 ^ (8 * Z.of_nat (S f))); [lia|].
    change 256 with (2 ^ 8). rewrite <- Z.pow_add_r by lia. f_equal. lia. }
  destruct (IH (a / 256) Hq) as (Hb & Hv & Hlast). assert (Hbyte : is_byte (a mod 256)) by (unfold is_byte, in_word; lia).
  split; [now constructor|]. split; [rewrite le_combine_cons, Hv by done; lia|]. intros _.
  destruct (Z.eq_dec (a / 256) 0) as [Hz|Hnz].
  - rewrite Hz in *. destruct f; cbn [abs_bytes length List.last]; rewrite ?Z.eqb_refl; cbn; lia.
  - destruct (Hlast Hnz) as [Hlen Hl]. destruct (abs_bytes f (a / 256)) as [|b l]; [cbn in Hl; lia|].
    cbn [length] in *. split; [|exact Hl].
    replace (8 * (Z.of_nat (S (S (length l))) - 1)) with (8 + 8 * (Z.of_nat (S (length l)) - 1)) by lia.
    rewrite Z.pow_add_r by lia. change (2 ^ 8) with 256. lia.
Qed.

Lemma abs_bytes_unique l f : bytes l -> (length l <= f)%nat -> (l <> [] -> List.last l 0 <> 0) ->
  abs_bytes f (le_combine l) = l.
Proof.
  intros Hl. revert f. induction Hl as [|b l Hb Hl IH]; intros f Hf Hlast; [now destruct f|].
  destruct f as [|f]; [cbn in Hf; lia|]. cbn [abs_bytes]. rewrite le_combine_cons by done.
  pose proof (le_combine_bounds l Hl) as Hc. unfold is_byte, in_word in Hb.
  assert (Hne : b + 256 * le_combine l <> 0).
  { intros E. assert (b = 0 /\ le_combine l = 0) as [-> E2] by lia. destruct l as [|b' l'].
    - now apply Hlast.
    - specialize (IH (S (length l'))). rewrite E2 in IH. cbn [abs_bytes] in IH.
      assert ([] = b' :: l'); [|done]. apply IH; [done|]. intros _. now apply Hlast. }
  destruct (Z.eqb_spec (b + 256 * le_combine l) 0); [done|]. change 0xff with (Z.ones 8).
  rewrite Z.land_ones, Z.shiftr_div_pow2 by lia. change (2 ^ 8) with 256.
  rewrite (Z.mul_comm 256), Z.mod_add, Z.div_add, Z.mod_small, Z.div_small, Z.add_0_l by lia.
  f_equal. apply IH; [cbn in Hf; lia|]. intros Hne'. destruct l; [done|]. now apply Hlast.
Qed.

(** *** Numbers and their bytes *)

(** What [CScriptNum::serialize] makes of the bytes of the absolute value. *)
Lemma serialize_body body u value : value <> 0 -> - 2 ^ 63 < value < 2 ^ 63 ->
  abs_bytes 8 (Z.abs value) = body ++ [u] -> is_byte u ->
  CScriptNum_serialize value =
    if u <? 128 then body ++ [if value <? 0 then u + 128 else u]
    else (body ++ [u]) ++ [if value <? 0 then 128 else 0].
Proof.
  intros Hne Hv Ea Hu. unfold CScriptNum_serialize. destruct (Z.eqb_spec value 0); [done|].
  assert (Eabs : (if value <? 0 then u64 (- value) else value) = Z.abs value).
  { destruct (Z.ltb_spec value 0); [rewrite u64_small by (unfold in_word; lia)|]; lia. }
  rewrite Eabs, Ea, last_last. destruct (byte_sign u Hu) as (_ & -> & Hor).
  destruct (Z.ltb_spec u 128); cbn [negb]; [|done].
  destruct (value <? 0); [|done]. rewrite removelast_last, Hor by done. done.
Qed.

Lemma abs_bytes_last value : value <> 0 -> - 2 ^ 63 < value < 2 ^ 63 ->
  exists body u, abs_bytes 8 (Z.abs value) = body ++ [u] /\ bytes body /\ is_byte u /\ u <> 0 /\
    le_combine (body ++ [u]) = Z.abs value /\ 2 ^ (8 * Z.of_nat (length body)) <= Z.abs value.
Proof.
  intros Hne Hv. destruct (abs_bytes_value 8 (Z.abs value)) as (Hb & Hval & Hlast);
    [change (2 ^ (8 * Z.of_nat 8)) with (2 ^ 64); lia|].
  destruct Hlast as [Hlen Hlast]; [lia|]. destruct (abs_bytes 8 (Z.abs value)) as [|x l] eqn:E using rev_ind.
  { cbn in Hlast. done. }
  clear IHl. exists l, x. apply Forall_app in Hb as [Hb Hx]. apply Forall_cons_1 in Hx as [Hx _].
  rewrite last_last in Hlast. rewrite length_app in Hlen. cbn [length] in Hlen.
  replace (Z.of_nat (length l + 1) - 1) with (Z.of_nat (length l)) in Hlen by lia.
  repeat (split; [first [assumption|exact eq_refl]|]). exact Hlen.
Qed.

Lemma CScriptNum_last body t k : bytes body -> is_byte t -> Z.of_nat (length body) < k <= 8 ->
  CScriptNum (body ++ [t]) true k =
    if (t mod 128 =? 0) && ((length body =? 0)%nat || (List.last body 0 <? 128)) then inl runtime_error
    else inr (signed_value body t).
Proof.
  intros Hb Ht Hk. unfold CScriptNum. rewrite last_last, length_app. cbn [length].
  rewrite (proj2 (Z.ltb_ge _ _)), (proj2 (Z.ltb_lt 0 _)) by lia. destruct (byte_sign t Ht) as (-> & _ & _).
  cbn [andb]. rewrite set_vch_spec by (done || lia).
  assert (E : (Z.of_nat (length body + 1) <=? 1) || ((body ++ [t]).[length body + 1 - 2] .& 128 =? 0) =
    (length body =? 0)%nat || (List.last body 0 <? 128)); [|now rewrite E].
  destruct body as [|u body _] using rev_ind; [done|]. rewrite length_app, last_last. cbn [length].
  replace (length body + 1 =? 0)%nat with false by (symmetry; apply Nat.eqb_neq; lia).
  rewrite (proj2 (Z.leb_gt _ _)) by lia. cbn [orb]. apply Forall_app in Hb as [_ Hu]. apply Forall_cons_1 in Hu as [Hu _].
  rewrite <- app_assoc, app_nth2 by lia. replace (length body + 1 + 1 - 2 - length body)%nat with 0%nat by lia.
  cbn [app nth]. now destruct (byte_sign u Hu) as (_ & -> & _).
Qed.

Lemma signed_value_abs body t n u : n <> 0 -> t = u + (if n <? 0 then 128 else 0) -> 0 <= u < 128 ->
  le_combine (body ++ [u]) = Z.abs n -> signed_value body t = n.
Proof.
  intros Hn -> Hu E. unfold signed_value. destruct (Z.ltb_spec n 0).
  - rewrite (proj2 (Z.ltb_ge _ _)) by lia.
    replace ((u + 128) mod 128) with u by (rewrite <- (Z.mod_small u 128) at 1 by lia; rewrite <- (Z_mod_plus_full u 1); done).
    lia.
  - rewrite Z.add_0_r, (proj2 (Z.ltb_lt _ _)), Z.mod_small by lia. lia.
Qed.

Lemma pow_lt_exp a b x : 0 <= b -> 2 ^ a <= x -> x < 2 ^ b -> a < b.
Proof. intros Hb Ha Hx. apply (Z.pow_lt_mono_r_iff 2); lia. Qed.

Lemma serialize_read k n : 1 <= k <= 8 -> Z.abs n < 2 ^ (8 * k - 1) ->
  CScriptNum (CScriptNum_serialize n) true k = inr n.
Proof.
  intros Hk Hn. destruct (Z.eq_dec n 0) as [->|Hne].
  { unfold CScriptNum. cbn -[Z.ltb]. rewrite (proj2 (Z.ltb_ge _ _)) by lia. reflexivity. }
  assert (Hp : 2 ^ (8 * k - 1) <= 2 ^ 63) by (apply Z.pow_le_mono_r; lia).
  destruct (abs_bytes_last n Hne ltac:(lia)) as (body & u & Ea & Hb & Hu & Hu0 & Hval & Hlen).
  rewrite (serialize_body body u n Hne ltac:(lia) Ea Hu). pose proof Hu as Hu'. unfold is_byte, in_word in Hu'.
  destruct (Z.ltb_spec u 128) as [Hs|Hs].
  - pose proof (pow_lt_exp _ (8 * k - 1) _ ltac:(lia) Hlen Hn). set (t := if n <? 0 then u + 128 else u).
    assert (Ht : t = u + (if n <? 0 then 128 else 0)) by (unfold t; destruct (n <? 0); lia).
    assert (Hbt : is_byte t) by (unfold is_byte, in_word; rewrite Ht; destruct (n <? 0); lia).
    rewrite CScriptNum_last by (done || lia). replace (t mod 128) with u; cycle 1.
    { rewrite Ht. destruct (n <? 0); [rewrite <- (Z.mod_small u 128) at 1 by lia; now rewrite <- (Z_mod_plus_full u 1)|].
      rewrite Z.add_0_r, Z.mod_small; lia. }
    destruct (Z.eqb_spec u 0); [done|]. cbn [andb]. f_equal. apply (signed_value_abs body t n u); (done || lia).
  - assert (Hlen' : 2 ^ (8 * Z.of_nat (length body) + 7) <= Z.abs n).
    { rewrite <- Hval, magnitude, Z.pow_add_r by (done || lia). pose proof (le_combine_bounds body Hb).
      pose proof (Z.mul_le_mono_nonneg_l 128 u (2 ^ (8 * Z.of_nat (length body))) ltac:(lia) Hs). change (2 ^ 7) with 128. lia. }
    pose proof (pow_lt_exp _ (8 * k - 1) _ ltac:(lia) Hlen' Hn). set (t := if n <? 0 then 128 else 0).
    assert (Hbu : bytes (body ++ [u])) by (apply Forall_app; split; [done|now constructor]).
    rewrite CScriptNum_last; [|done|unfold t, is_byte, in_word; destruct (n <? 0); lia|rewrite length_app; cbn; lia].
    replace (t mod 128) with 0 by (unfold t; now destruct (n <? 0)). rewrite length_app, last_last. cbn [length Z.eqb andb].
    replace (length body + 1 =? 0)%nat with false by (symmetry; apply Nat.eqb_neq; lia).
    rewrite (proj2 (Z.ltb_ge u 128)) by lia. cbn [orb]. f_equal.
    apply (signed_value_abs (body ++ [u]) t n 0); [done|unfold t; lia|lia|].
    rewrite magnitude by (done || (unfold is_byte, in_word; lia)). lia.
Qed.

(** A magnitude whose last byte is not zero determines its bytes. *)
Lemma signed_value_bytes body u value : bytes body -> is_byte u -> u <> 0 -> (length body <= 7)%nat ->
  Z.abs value = le_combine (body ++ [u]) -> abs_bytes 8 (Z.abs value) = body ++ [u] /\ value <> 0.
Proof.
  intros Hb Hu Hu0 Hl E. assert (Hbu : bytes (body ++ [u])) by (apply Forall_app; split; [done|now constructor]).
  split; [rewrite E; apply abs_bytes_unique; [done|rewrite length_app; cbn; lia|intros _; now rewrite last_last]|].
  rewrite magnitude in E by done. pose proof (le_combine_bounds body Hb). unfold is_byte, in_word in Hu.
  pose proof (Z.mul_le_mono_nonneg_l 1 u (2 ^ (8 * Z.of_nat (length body))) ltac:(lia) ltac:(lia)). lia.
Qed.

Lemma read_serialize k vch n : 1 <= k <= 8 -> bytes vch -> CScriptNum vch true k = inr n ->
  CScriptNum_serialize n = vch /\ Z.abs n < 2 ^ (8 * k - 1).
Proof.
  intros Hk Hv E. destruct vch as [|t body _] using rev_ind.
  { unfold CScriptNum in E. cbn -[Z.ltb] in E. destruct (_ <? _); [done|]. injection E as <-. split; [done|]. cbn. apply Z.pow_pos_nonneg; lia. }
  apply Forall_app in Hv as [Hb Ht]. apply Forall_cons_1 in Ht as [Ht _].
  assert (Hl : Z.of_nat (length body) < k).
  { unfold CScriptNum in E. rewrite length_app in E. cbn [length] in E. destruct (Z.ltb_spec k (Z.of_nat (length body + 1))); [done|lia]. }
  rewrite CScriptNum_last in E by (done || lia). pose proof (Z.mod_pos_bound t 128 ltac:(lia)) as Hm.
  pose proof Ht as Ht'. unfold is_byte, in_word in Ht'. pose proof (le_combine_bounds body Hb) as Hc.
  assert (Et : t = t mod 128 + (if t <? 128 then 0 else 128)).
  { destruct (Z.ltb_spec t 128); [rewrite Z.mod_small; lia|].
    replace t with (t - 128 + 1 * 128) at 2 by lia. rewrite Z_mod_plus_full, Z.mod_small; lia. }
  assert (Hpow : 2 ^ (8 * Z.of_nat (length body)) * 128 <= 2 ^ (8 * k - 1)).
  { change 128 with (2 ^ 7). rewrite <- Z.pow_add_r by lia. apply Z.pow_le_mono_r; lia. }
  assert (Hmod : is_byte (t mod 128)) by (unfold is_byte, in_word; lia).
  assert (Habs : Z.abs (signed_value body t) = le_combine (body ++ [t mod 128])).
  { unfold signed_value. rewrite magnitude by done.
    pose proof (Z.mul_nonneg_nonneg (2 ^ (8 * Z.of_nat (length body))) (t mod 128) ltac:(lia) ltac:(lia)). destruct (t <? 128); lia. }
  assert (Hbound : Z.abs (signed_value body t) < 2 ^ (8 * k - 1)).
  { rewrite Habs, magnitude by done.
    pose proof (Z.mul_le_mono_nonneg_l (t mod 128) 127 (2 ^ (8 * Z.of_nat (length body))) ltac:(lia) ltac:(lia)). lia. }
  assert (H63 : 2 ^ (8 * k - 1) <= 2 ^ 63) by (apply Z.pow_le_mono_r; lia).
  assert (Hneg : signed_value body t <> 0 -> (signed_value body t <? 0) = negb (t <? 128)).
  { unfold signed_value in *. destruct (t <? 128); lia. }
  destruct (Z.eqb_spec (t mod 128) 0) as [Hz|Hnz]; cbn [andb] in E.
  - destruct (_ || _) eqn:Ex; [done|]. injection E as <-. split; [|done]. apply orb_false_iff in Ex as [E0 Eu].
    destruct body as [|u body _] using rev_ind; [done|]. rewrite last_last in Eu.
    rewrite Hz, magnitude, Z.mul_0_r, Z.add_0_r in Habs by (done || (rewrite Hz in Hmod; done)).
    apply Forall_app in Hb as [Hb Hu]. apply Forall_cons_1 in Hu as [Hu _]. rewrite length_app in Hl. cbn [length] in Hl.
    destruct (signed_value_bytes body u _ Hb Hu ltac:(lia) ltac:(lia) Habs) as [Ea Hne].
    rewrite (serialize_body body u _ Hne ltac:(lia) Ea Hu), Eu, (Hneg Hne). f_equal. f_equal. destruct (t <? 128); cbn [negb]; lia.
  - injection E as <-. split; [|done].
    destruct (signed_value_bytes body (t mod 128) _ Hb Hmod Hnz ltac:(lia) Habs) as [Ea Hne].
    rewrite (serialize_body body (t mod 128) _ Hne ltac:(lia) Ea Hmod), (proj2 (Z.ltb_lt _ 128)), (Hneg Hne) by lia.
    f_equal. f_equal. destruct (t <? 128); cbn [negb]; lia.
Qed.

(** Script numbers of up to eight bytes and their minimal encodings correspond one to one:
    the encoding of a number that fits into [k] bytes is read back, and any bytes that pass
    the check for minimality are the encoding of the number they are read as. *)
Theorem CScriptNum_roundtrip k : 1 <= k <= 8 ->
  (forall n, Z.abs n < 2 ^ (8 * k - 1) -> CScriptNum (CScriptNum_serialize n) true k = inr n) /\
  (forall vch n, bytes vch -> CScriptNum vch true k = inr n ->
     CScriptNum_serialize n = vch /\ Z.abs n < 2 ^ (8 * k - 1)).
Proof.
  intros Hk. split; [intros n; now apply serialize_read|]. intros vch n Hv E. now apply (read_serialize k).
Qed.

(** ** Instructions *)

Lemma GetOp2_shorter pc op d pc' : GetOp2 pc = Some (op, d, pc') -> (length pc' < length pc)%nat.
Proof.
  unfold GetOp2, operand_size. destruct pc as [|opcode pc]; [done|]. cbn [length]. intros E.
  assert (Hd : forall n l, (length (drop n l : list Z) <= length l)%nat) by (intros; rewrite length_drop; lia).
  destruct (opcode <=? OP_PUSHDATA4); [|injection E as _ _ <-; lia].
  destruct (opcode <? OP_PUSHDATA1); [|destruct (opcode =? OP_PUSHDATA1); [destruct pc as [|nSize pc]; [done|]|
    destruct (opcode =? OP_PUSHDATA2); [destruct (length pc <? 2)%nat; [done|]|destruct (length pc <? 4)%nat; [done|]]]];
    cbn [mbind option_bind length] in *; destruct (_ <? _); try done; injection E as _ _ <-;
    rewrite ?length_drop; lia.
Qed.

(** A push is read back. *)
Lemma GetOp2_push_data b rest : Z.of_nat (length (b ++ rest)) < 2 ^ 32 ->
  exists op, GetOp2 (push_data b ++ rest) = Some (op, b, rest) /\ op <= OP_PUSHDATA4.
Proof.
  intros Hlen. unfold push_data. rewrite length_app in Hlen. set (size := Z.of_nat (length b)) in *.
  assert (Hread : forall op : Z, (if u32 (Z.of_nat (length (b ++ rest))) <? size then @None (Z * list Z * CScript)
    else Some (op, take (Z.to_nat size) (b ++ rest), drop (Z.to_nat size) (b ++ rest))) = Some (op, b, rest)).
  { intros op. rewrite u32_small by (unfold in_word; rewrite length_app; lia). rewrite length_app.
    rewrite (proj2 (Z.ltb_ge _ _)) by lia. unfold size. rewrite Nat2Z.id, take_app_length, drop_app_length. done. }
  assert (Hle : forall n, 0 <= size < 2 ^ (8 * Z.of_nat n) -> le_combine (le_split n size) = size)
    by (intros n Hs; rewrite le_combine_split; apply wrap_small; [lia|exact Hs]).
  assert (Hsplit : forall n, 0 <= size < 2 ^ (8 * Z.of_nat n) ->
    (if (length (le_split n size ++ b ++ rest) <? n)%nat then None
     else Some (le_combine (take n (le_split n size ++ b ++ rest)), drop n (le_split n size ++ b ++ rest))) = Some (size, b ++ rest)).
  { intros n Hs. rewrite length_app, length_le_split. replace (_ <? _)%nat with false by (symmetry; apply Nat.ltb_ge; lia).
    rewrite take_app_length', drop_app_length' by (symmetry; apply length_le_split). now rewrite Hle. }
  assert (Hu8 : size < 256 -> u8 size = size) by (intros ?; apply (wrap_small 8); unfold in_word; lia).
  destruct (Z.ltb_spec size OP_PUSHDATA1) as [H1|H1].
  { exists size. unfold OP_PUSHDATA1 in *. rewrite Hu8 by lia. cbn [app GetOp2]. unfold operand_size.
    rewrite (proj2 (Z.leb_le _ _)) by (unfold OP_PUSHDATA4; lia). rewrite (proj2 (Z.ltb_lt size _)) by (unfold OP_PUSHDATA1; lia).
    cbn [mbind option_bind]. rewrite Hread. split; [done|unfold OP_PUSHDATA4; lia]. }
  destruct (Z.leb_spec size 0xff) as [H2|H2].
  { exists OP_PUSHDATA1. rewrite Hu8 by lia. split; [|done]. exact (Hread OP_PUSHDATA1). }
  destruct (Z.leb_spec size 0xffff) as [H3|H3].
  - exists OP_PUSHDATA2. split; [|done]. cbn [app]. rewrite <- app_assoc. unfold GetOp2.
    change (OP_PUSHDATA2 <=? OP_PUSHDATA4) with true. cbn [negb].
    unfold operand_size. change (OP_PUSHDATA2 <? OP_PUSHDATA1) with false. change (OP_PUSHDATA2 =? OP_PUSHDATA1) with false.
    change (OP_PUSHDATA2 =? OP_PUSHDATA2) with true. rewrite (Hsplit 2%nat) by lia. cbn [mbind option_bind].
    rewrite Hread. done.
  - exists OP_PUSHDATA4. split; [|done]. cbn [app]. rewrite <- app_assoc. unfold GetOp2.
    change (OP_PUSHDATA4 <=? OP_PUSHDATA4) with true. cbn [negb].
    unfold operand_size. change (OP_PUSHDATA4 <? OP_PUSHDATA1) with false. change (OP_PUSHDATA4 =? OP_PUSHDATA1) with false.
    change (OP_PUSHDATA4 =? OP_PUSHDATA2) with false. rewrite (Hsplit 4%nat) by lia. cbn [mbind option_bind].
    rewrite Hread. done.
Qed.

(** *** Signature operations *)

Lemma DecodeOP_N_bounds op : OP_1 <= op <= OP_16 -> 1 <= DecodeOP_N op <= 16.
Proof. unfold DecodeOP_N, OP_0, OP_1, OP_16. intros H. destruct (Z.eqb_spec op 0x00); lia. Qed.

Lemma sigop_loop_bounds fuel accurate pc lastOpcode n :
  0 <= n -> n + 20 * Z.of_nat (length pc) < 2 ^ 32 ->
  n <= sigop_loop fuel accurate pc lastOpcode n <= n + 20 * Z.of_nat (length pc).
Proof.
  revert pc lastOpcode n. induction fuel as [|fuel IH]; intros pc lastOpcode n Hn Hlen; cbn [sigop_loop]; [lia|].
  destruct pc as [|b pc0] eqn:Epc; [cbn [length]; lia|]. rewrite <- Epc in *.
  destruct (GetOp2 pc) as [[[op d] pc']|] eqn:E; [|subst pc; cbn [length] in *; lia].
  pose proof (GetOp2_shorter _ _ _ _ E) as Hs.
  match goal with |- context [sigop_loop fuel accurate pc' op ?x] => set (n' := x) end.
  assert (Hn' : n <= n' <= n + 20).
  { unfold n'. destruct (_ || _); [rewrite u32_small by (unfold in_word; lia); lia|].
    destruct (_ || _); [|lia]. destruct (accurate && _ && _) eqn:Ea; unfold MAX_PUBKEYS_PER_MULTISIG.
    - apply andb_prop in Ea as [[_ Ea]%andb_prop Eb]. pose proof (DecodeOP_N_bounds lastOpcode ltac:(lia)).
      rewrite u32_small by (unfold in_word; lia). lia.
    - rewrite u32_small by (unfold in_word; lia). lia. }
  specialize (IH pc' op n' ltac:(lia) ltac:(lia)). destruct pc; [done|]. lia.
Qed.

Lemma GetSigOpCount_bounds script accurate : 20 * Z.of_nat (length script) < 2 ^ 32 ->
  0 <= GetSigOpCount script accurate <= 20 * Z.of_nat (length script).
Proof. intros H. unfold GetSigOpCount. pose proof (sigop_loop_bounds (length script) accurate script OP_INVALIDOPCODE 0 ltac:(lia) H). lia. Qed.

(** More turns of the loops change nothing. *)
Lemma sigop_loop_fuel f1 f2 accurate pc lastOpcode n : (length pc <= f1)%nat -> (length pc <= f2)%nat ->
  sigop_loop f1 accurate pc lastOpcode n = sigop_loop f2 accurate pc lastOpcode n.
Proof.
  revert f2 pc lastOpcode n. induction f1 as [|f1 IH]; intros f2 pc lastOpcode n H1 H2.
  - destruct pc; [|cbn in H1; lia]. now destruct f2.
  - destruct f2 as [|f2]; [destruct pc; [done|cbn in H2; lia]|]. cbn [sigop_loop]. destruct pc as [|b pc]; [done|].
    destruct (GetOp2 (b :: pc)) as [[[op d] pc']|] eqn:E; [|done]. pose proof (GetOp2_shorter _ _ _ _ E) as Hs.
    cbn [length] in *. apply IH; lia.
Qed.

(** *** Numbers at the start of a script *)

(** The number that an instruction pushes. *)
Definition pushed_number (op : Z) (data : list Z) : Z :=
  if op <=? OP_PUSHDATA4 then set_vch data else op - (OP_1 - 1).

Lemma CScriptNum_inr vch m k n : CScriptNum vch m k = inr n -> set_vch vch = n /\ Z.of_nat (length vch) <= k.
Proof.
  unfold CScriptNum. destruct (Z.ltb_spec k (Z.of_nat (length vch))); [done|].
  destruct (_ && _); [done|]. now intros [= ->].
Qed.

Lemma push_int64_reads n rest : - 2 ^ 63 < n < 2 ^ 63 -> Z.of_nat (length rest) < 2 ^ 31 ->
  exists op data, GetOp2 (push_int64 n ++ rest) = Some (op, data, rest) /\ pushed_number op data = n.
Proof.
  intros Hn Hlen. unfold push_int64.
  destruct ((n =? -1) || ((1 <=? n) && (n <=? 16))) eqn:Esmall.
  { exists (n + (OP_1 - 1)), []. unfold pushed_number. cbn [app GetOp2]. unfold OP_1, OP_PUSHDATA4 in *.
    rewrite (proj2 (Z.leb_gt _ _)) by lia. split; [done|lia]. }
  destruct (Z.eqb_spec n 0) as [->|Hne].
  { exists 0, []. cbn [app GetOp2]. unfold operand_size, OP_0. cbn [Z.leb Z.compare Z.ltb OP_PUSHDATA4 OP_PUSHDATA1 mbind option_bind].
    destruct (in_word_u32 (Z.of_nat (length rest))). rewrite (proj2 (Z.ltb_ge _ 0)) by lia. done. }
  destruct (CScriptNum_inr _ _ _ _ (serialize_read 8 n ltac:(lia) ltac:(lia))) as [Hset Hsize].
  destruct (GetOp2_push_data (CScriptNum_serialize n) rest) as (op & E & Hop); [rewrite length_app; lia|].
  exists op, (CScriptNum_serialize n). split; [done|]. unfold pushed_number. now rewrite (proj2 (Z.leb_le _ _) Hop).
Qed.

(** A script starts with the push of one number at most. *)
Lemma push_int64_prefix n n' s : - 2 ^ 63 < n < 2 ^ 63 -> - 2 ^ 63 < n' < 2 ^ 63 -> Z.of_nat (length s) < 2 ^ 31 ->
  push_int64 n `prefix_of` s -> push_int64 n' `prefix_of` s -> n = n'.
Proof.
  intros Hn Hn' Hs [r Er] [r' Er'].
  assert (Hr : Z.of_nat (length r) < 2 ^ 31) by (rewrite Er, length_app in Hs; lia).
  assert (Hr' : Z.of_nat (length r') < 2 ^ 31) by (rewrite Er', length_app in Hs; lia).
  destruct (push_int64_reads n r Hn Hr) as (op & d & E & <-).
  destruct (push_int64_reads n' r' Hn' Hr') as (op' & d' & E' & <-).
  rewrite <- Er in E. rewrite <- Er', E in E'. now injection E' as -> ->.
Qed.

(** *** Concrete numbers *)

Lemma CScriptNum_roundtrip_witness :
  CScriptNum_serialize (-1000) = [0xe8; 0x83] /\ CScriptNum [0x83; 0x00] true 4 = inr 131 /\
  CScriptNum [0x03; 0x00] true 4 = inl runtime_error /\
  (forall n, Z.abs n < 2 ^ (8 * 4 - 1) -> CScriptNum (CScriptNum_serialize n) true 4 = inr n) /\
  (forall vch n, bytes vch -> CScriptNum vch true 4 = inr n ->
     CScriptNum_serialize n = vch /\ Z.abs n < 2 ^ (8 * 4 - 1)).
Proof.
  split; [reflexivity|]. split; [reflexivity|]. split; [reflexivity|]. apply (CScriptNum_roundtrip 4). lia.
Defined.
