(* ===== verification/Coins.v ===== *)
(** * The set of unspent outputs ([coins.h], [coins.cpp])

    Coins, the interface of a view of the set of unspent transaction outputs, and the cache
    that is itself a view backed by another view.  A view denotes a finite map from
    outpoints to unspent coins; the cache is proved to implement the operations on that map
    whatever view it is backed by, so that caches can be stacked. *)

From stdpp Require Import gmap.
From S2P Require Import Prelude Words Blob Transaction.

(** ** Coins *)

Record Coin := mk_coin { out : CTxOut; fCoinBase : bool; nHeight : Z }.

#[export] Instance Coin_eq_dec : EqDecision Coin.
Proof. solve_decision. Defined.

(** [Coin()] and [Clear]: the height is a field of 31 bits. *)
Definition coinEmpty : Coin := {| out := CTxOut_null; fCoinBase := false; nHeight := 0 |}.
Definition new_coin (o : CTxOut) (nHeightIn : Z) (fCoinBaseIn : bool) : Coin :=
  {| out := o; fCoinBase := fCoinBaseIn; nHeight := wrap 31 nHeightIn |}.
Definition IsSpent (c : Coin) : bool := CTxOut_IsNull (out c).

(** Memory ([memusage.h], [prevector.h]): a script of more than 28 bytes is allocated, with
    the capacity of its size. *)
Definition MallocUsage (alloc : Z) : Z :=
  if alloc =? 0 then 0 else ((alloc + 31) >> 4) << 4.
Definition allocated_memory (script : CScript) : Z :=
  if Z.of_nat (length script) <=? 28 then 0 else Z.of_nat (length script).
Definition DynamicMemoryUsage (c : Coin) : Z := MallocUsage (allocated_memory (scriptPubKey (out c))).

(** ** Entries of a cache *)

Record CCoinsCacheEntry := mk_entry { coin : Coin; flags : Z }.
Definition DIRTY : Z := 1 << 0.
Definition FRESH : Z := 1 << 1.
Definition has_flag (e : CCoinsCacheEntry) (f : Z) : bool := negb (flags e .& f =? 0).

Abbreviation CCoinsMap := (gmap COutPoint CCoinsCacheEntry) (only parsing).

(** ** Views *)

(** [CCoinsView]: the operations a cache uses of its base.  [GetCoin] gives the coin when it
    returns true; the view may change, since caches are filled by reading. *)
Class CoinsView (V : Type) := {
  GetCoin : V -> COutPoint -> V * option Coin;
  GetBestBlock : V -> V * hash;
  BatchWrite : V -> CCoinsMap -> hash -> throws (V * bool);
}.

(** ** The cache *)

Record CCoinsViewCache (V : Type) := mk_cache
  { base : V; hashBlock : hash; cacheCoins : CCoinsMap; cachedCoinsUsage : Z }.
Arguments mk_cache {V}.
Arguments base {V}.
Arguments hashBlock {V}.
Arguments cacheCoins {V}.
Arguments cachedCoinsUsage {V}.

Section Cache.
Context {V : Type} `{CoinsView V}.
Abbreviation cache := (CCoinsViewCache V).

Definition new_cache (baseIn : V) : cache :=
  {| base := baseIn; hashBlock := null_hash; cacheCoins := ∅; cachedCoinsUsage := 0 |}.

Definition with_coins (c : cache) (m : CCoinsMap) (usage : Z) : cache :=
  {| base := base c; hashBlock := hashBlock c; cacheCoins := m; cachedCoinsUsage := u64 usage |}.
Definition with_base (c : cache) (b : V) : cache :=
  {| base := b; hashBlock := hashBlock c; cacheCoins := cacheCoins c;
     cachedCoinsUsage := cachedCoinsUsage c |}.

(** The iterator is given as the entry it points to. *)
Definition FetchCoin (c : cache) (outpoint : COutPoint) : cache * option CCoinsCacheEntry :=
  match cacheCoins c !! outpoint with
  | Some e => (c, Some e)
  | None =>
      let '(b, tmp) := GetCoin (base c) outpoint in
      let c := with_base c b in
      match tmp with
      | None => (c, None)
      | Some tmp =>
          let ret := {| coin := tmp; flags := if IsSpent tmp then FRESH else 0 |} in
          (with_coins c (<[outpoint := ret]> (cacheCoins c))
             (cachedCoinsUsage c + DynamicMemoryUsage tmp), Some ret)
      end
  end.

Definition cache_GetCoin (c : cache) (outpoint : COutPoint) : cache * option Coin :=
  let '(c, it) := FetchCoin c outpoint in
  (c, match it with
      | Some e => if IsSpent (coin e) then None else Some (coin e)
      | None => None
      end).

Definition HaveCoin (c : cache) (outpoint : COutPoint) : cache * bool :=
  let '(c, it) := FetchCoin c outpoint in
  (c, match it with Some e => negb (IsSpent (coin e)) | None => false end).

Definition HaveCoinInCache (c : cache) (outpoint : COutPoint) : bool :=
  match cacheCoins c !! outpoint with Some e => negb (IsSpent (coin e)) | None => false end.

Definition AccessCoin (c : cache) (outpoint : COutPoint) : cache * Coin :=
  let '(c, it) := FetchCoin c outpoint in
  (c, match it with Some e => coin e | None => coinEmpty end).

Definition AddCoin (c : cache) (outpoint : COutPoint) (cn : Coin) (possible_overwrite : bool)
    : throws cache :=
  if IsSpent cn then inl assertion_failed
  else if IsUnspendable (scriptPubKey (out cn)) then inr c
  else
    let inserted := match cacheCoins c !! outpoint with None => true | Some _ => false end in
    let e := default {| coin := coinEmpty; flags := 0 |} (cacheCoins c !! outpoint) in
    let usage := if inserted then cachedCoinsUsage c
                 else u64 (cachedCoinsUsage c - DynamicMemoryUsage (coin e)) in
    if negb possible_overwrite && negb (IsSpent (coin e)) then inl logic_error
    else
      let fresh := negb possible_overwrite && negb (has_flag e DIRTY) in
      let e := {| coin := cn; flags := flags e .| (DIRTY .| (if fresh then FRESH else 0)) |} in
      inr (with_coins c (<[outpoint := e]> (cacheCoins c)) (usage + DynamicMemoryUsage cn)).

(** [AddCoins]: the outputs from number [i] on. *)
Fixpoint AddCoins_from (c : cache) (tx : CTransaction) (height : Z) (i : Z) (outs : list CTxOut)
    : throws cache :=
  match outs with
  | [] => inr c
  | o :: outs =>
      match AddCoin c (mk_outpoint (tx_hash tx) (u32 i)) (new_coin o height (IsCoinBase tx))
              (IsCoinBase tx) with
      | inl e => inl e
      | inr c => AddCoins_from c tx height (i + 1) outs
      end
  end.
Definition AddCoins (c : cache) (tx : CTransaction) (height : Z) : throws cache :=
  AddCoins_from c tx height 0 (vout tx).

(** The result and what is moved out; when the result is false nothing is. *)
Definition SpendCoin (c : cache) (outpoint : COutPoint) : cache * option Coin :=
  let '(c, it) := FetchCoin c outpoint in
  match it with
  | None => (c, None)
  | Some e =>
      let usage := cachedCoinsUsage c - DynamicMemoryUsage (coin e) in
      let m := if has_flag e FRESH then delete outpoint (cacheCoins c)
               else <[outpoint := {| coin := coinEmpty; flags := flags e .| DIRTY |}]> (cacheCoins c) in
      (with_coins c m usage, Some (coin e))
  end.

Definition cache_GetBestBlock (c : cache) : cache * hash :=
  if IsNull (hashBlock c) then
    let '(b, h) := GetBestBlock (base c) in
    ({| base := b; hashBlock := h; cacheCoins := cacheCoins c;
        cachedCoinsUsage := cachedCoinsUsage c |}, h)
  else (c, hashBlock c).

Definition SetBestBlock (c : cache) (hashBlockIn : hash) : cache :=
  {| base := base c; hashBlock := hashBlockIn; cacheCoins := cacheCoins c;
     cachedCoinsUsage := cachedCoinsUsage c |}.

(** One turn of the loop of [BatchWrite]. *)
Definition batch_entry (c : cache) (outpoint : COutPoint) (it : CCoinsCacheEntry) : throws cache :=
  if has_flag it DIRTY then
    match cacheCoins c !! outpoint with
    | None =>
        if has_flag it FRESH && IsSpent (coin it) then inr c
        else
          let entry := {| coin := coin it;
                          flags := if has_flag it FRESH then DIRTY .| FRESH else DIRTY |} in
          inr (with_coins c (<[outpoint := entry]> (cacheCoins c))
                 (cachedCoinsUsage c + DynamicMemoryUsage (coin it)))
    | Some itUs =>
        if has_flag it FRESH && negb (IsSpent (coin itUs)) then inl logic_error
        else if has_flag itUs FRESH && IsSpent (coin it) then
          inr (with_coins c (delete outpoint (cacheCoins c))
                 (cachedCoinsUsage c - DynamicMemoryUsage (coin itUs)))
        else
          let itUs' := {| coin := coin it; flags := flags itUs .| DIRTY |} in
          inr (with_coins c (<[outpoint := itUs']> (cacheCoins c))
                 (cachedCoinsUsage c - DynamicMemoryUsage (coin itUs) + DynamicMemoryUsage (coin it)))
    end
  else inr c.

(** The loop runs over the hash map in an order that is not specified. *)
Definition cache_BatchWrite (c : cache) (mapCoins : CCoinsMap) (hashBlockIn : hash)
    : throws (cache * bool) :=
  match map_fold (fun o e r => match r with inl x => inl x | inr c => batch_entry c o e end)
          (inr c) mapCoins with
  | inl x => inl x
  | inr c => inr (SetBestBlock c hashBlockIn, true)
  end.

Definition Flush (c : cache) : throws (cache * bool) :=
  match BatchWrite (base c) (cacheCoins c) (hashBlock c) with
  | inl x => inl x
  | inr (b, fOk) =>
      inr ({| base := b; hashBlock := hashBlock c; cacheCoins := ∅; cachedCoinsUsage := 0 |}, fOk)
  end.

Definition Uncache (c : cache) (outpoint : COutPoint) : cache :=
  match cacheCoins c !! outpoint with
  | Some e =>
      if flags e =? 0 then
        with_coins c (delete outpoint (cacheCoins c))
          (cachedCoinsUsage c - DynamicMemoryUsage (coin e))
      else c
  | None => c
  end.

Definition GetCacheSize (c : cache) : Z := u32 (Z.of_nat (size (cacheCoins c))).

(** [GetValueIn] and [HaveInputs]: the loops over the inputs. *)
Fixpoint value_of_inputs (c : cache) (ins : list CTxIn) (nResult : Z) : cache * Z :=
  match ins with
  | [] => (c, nResult)
  | i :: ins =>
      let '(c, cn) := AccessCoin c (prevout i) in
      value_of_inputs c ins (s64 (nResult + nValue (out cn)))
  end.
Definition GetValueIn (c : cache) (tx : CTransaction) : cache * Z :=
  if IsCoinBase tx then (c, 0) else value_of_inputs c (vin tx) 0.

Fixpoint have_all (c : cache) (ins : list CTxIn) : cache * bool :=
  match ins with
  | [] => (c, true)
  | i :: ins =>
      let '(c, b) := HaveCoin c (prevout i) in
      if b then have_all c ins else (c, false)
  end.
Definition HaveInputs (c : cache) (tx : CTransaction) : cache * bool :=
  if IsCoinBase tx then (c, true) else have_all c (vin tx).

(** A cache is a view. *)
#[export] Instance cache_view : CoinsView cache := {
  GetCoin := cache_GetCoin;
  GetBestBlock := cache_GetBestBlock;
  BatchWrite := cache_BatchWrite;
}.
End Cache.
Arguments CCoinsViewCache : clear implicits.

(** ** What a view promises *)

(** The unspent coin an entry stands for. *)
Definition coin_of (e : CCoinsCacheEntry) : option Coin :=
  if IsSpent (coin e) then None else Some (coin e).

(** The map after the dirty entries of a batch have been written. *)
Definition apply_changes (m : CCoinsMap) (b : gmap COutPoint Coin) : gmap COutPoint Coin :=
  merge (fun e c => match e with
                    | Some e => if has_flag e DIRTY then coin_of e else c
                    | None => c
                    end) m b.

(** An entry is marked [FRESH] only where the view has no coin. *)
Definition batch_ok (m : CCoinsMap) (b : gmap COutPoint Coin) : Prop :=
  forall o e, m !! o = Some e -> has_flag e DIRTY = true -> has_flag e FRESH = true -> b !! o = None.

(** The contract: a view stands for a map of unspent coins and a best block; reading does not
    change them, and a batch that is reported as written has been applied. *)
Class CoinsViewSpec (V : Type) `{CoinsView V} := {
  view_ok : V -> Prop;
  view_coins : V -> gmap COutPoint Coin;
  view_best : V -> hash;
  view_unspent : forall v o c, view_ok v -> view_coins v !! o = Some c -> IsSpent c = false;
  GetCoin_law : forall v o, view_ok v ->
    let r := GetCoin v o in
    view_ok r.1 /\ view_coins r.1 = view_coins v /\ view_best r.1 = view_best v /\
    r.2 = view_coins v !! o;
  GetBestBlock_law : forall v, view_ok v ->
    let r := GetBestBlock v in
    view_ok r.1 /\ view_coins r.1 = view_coins v /\ view_best r.1 = view_best v /\
    r.2 = view_best v;
  BatchWrite_law : forall v m h, view_ok v -> batch_ok m (view_coins v) ->
    exists v' ok, BatchWrite v m h = inr (v', ok) /\
      (ok = true -> view_ok v' /\ view_coins v' = apply_changes m (view_coins v) /\
         (IsNull h = false -> view_best v' = h));
}.

(** ** Flags *)

Lemma has_DIRTY e : has_flag e DIRTY = Z.testbit (flags e) 0.
Proof. unfold has_flag, DIRTY. now rewrite land_single_bit, negb_involutive. Qed.
Lemma has_FRESH e : has_flag e FRESH = Z.testbit (flags e) 1.
Proof. unfold has_flag, FRESH. now rewrite land_single_bit, negb_involutive. Qed.

Lemma flags_or cn f g :
  has_flag (mk_entry cn (f .| g)) DIRTY = Z.testbit f 0 || Z.testbit g 0 /\
  has_flag (mk_entry cn (f .| g)) FRESH = Z.testbit f 1 || Z.testbit g 1.
Proof. rewrite has_DIRTY, has_FRESH. cbn [flags]. now rewrite !Z.lor_spec. Qed.

(** ** The memory account *)

Definition total_usage (m : CCoinsMap) : Z :=
  map_fold (fun _ e acc => DynamicMemoryUsage (coin e) + acc) 0 m.

Lemma total_insert m o e : m !! o = None ->
  total_usage (<[o := e]> m) = DynamicMemoryUsage (coin e) + total_usage m.
Proof.
  intros H. unfold total_usage. rewrite map_fold_insert_L; [done| |done]. intros. lia.
Qed.

Lemma total_delete m o e : m !! o = Some e ->
  total_usage (delete o m) = total_usage m - DynamicMemoryUsage (coin e).
Proof.
  intros H. unfold total_usage at 2. rewrite (map_fold_delete_L _ _ o e); [|intros; lia|done].
  fold (total_usage (delete o m)). lia.
Qed.

Lemma total_replace m o e e' : m !! o = Some e ->
  total_usage (<[o := e']> m) =
  total_usage m - DynamicMemoryUsage (coin e) + DynamicMemoryUsage (coin e').
Proof.
  intros H. rewrite <- insert_delete_eq, total_insert by apply lookup_delete_eq.
  rewrite (total_delete _ _ _ H). lia.
Qed.

Lemma usage_empty : DynamicMemoryUsage coinEmpty = 0.
Proof. reflexivity. Qed.

Lemma u64_add_l x y : u64 (u64 x + y) = u64 (x + y).
Proof. rewrite !u64_wrap. now apply wrap_add_l. Qed.
Lemma u64_sub_l x y : u64 (u64 x - y) = u64 (x - y).
Proof. rewrite !u64_wrap. now apply wrap_sub_l. Qed.

(** ** A cache over a map *)

Section Model.
Context (b : gmap COutPoint Coin).

(** What a cache over the map [b] stands for. *)
Definition cache_coins (m : CCoinsMap) : gmap COutPoint Coin :=
  merge (fun e c => match e with Some e => coin_of e | None => c end) m b.

Lemma lookup_cache_coins m o :
  cache_coins m !! o = match m !! o with Some e => coin_of e | None => b !! o end.
Proof. unfold cache_coins. rewrite lookup_merge. now destruct (m !! o), (b !! o). Qed.

Lemma lookup_apply_changes m o :
  apply_changes m b !! o =
  match m !! o with Some e => if has_flag e DIRTY then coin_of e else b !! o | None => b !! o end.
Proof. unfold apply_changes. rewrite lookup_merge. now destruct (m !! o), (b !! o). Qed.

(** The meaning of the flags. *)
Definition entry_ok (c : option Coin) (e : CCoinsCacheEntry) : Prop :=
  (has_flag e FRESH = true -> c = None) /\ (has_flag e DIRTY = false -> coin_of e = c).
Definition entries_ok (m : CCoinsMap) : Prop := forall o e, m !! o = Some e -> entry_ok (b !! o) e.

Lemma entries_ok_insert m o e : entries_ok m -> entry_ok (b !! o) e -> entries_ok (<[o := e]> m).
Proof.
  intros Hm He o' e' H. destruct (decide (o = o')) as [<-|Hne].
  - rewrite lookup_insert_eq in H. now injection H as <-.
  - rewrite lookup_insert_ne in H by done. now apply Hm.
Qed.

Lemma entries_ok_delete m o : entries_ok m -> entries_ok (delete o m).
Proof. intros Hm o' e' H. apply lookup_delete_Some in H as [_ H]. now apply Hm. Qed.

Lemma cache_coins_insert m o e :
  cache_coins (<[o := e]> m) = partial_alter (fun _ => coin_of e) o (cache_coins m).
Proof.
  apply map_eq. intros o'. rewrite lookup_cache_coins. destruct (decide (o = o')) as [<-|Hne].
  - now rewrite lookup_insert_eq, lookup_partial_alter_eq.
  - rewrite lookup_insert_ne, lookup_partial_alter_ne by done. now rewrite lookup_cache_coins.
Qed.

Lemma cache_coins_delete m o :
  cache_coins (delete o m) = partial_alter (fun _ => b !! o) o (cache_coins m).
Proof.
  apply map_eq. intros o'. rewrite lookup_cache_coins. destruct (decide (o = o')) as [<-|Hne].
  - now rewrite lookup_delete_eq, lookup_partial_alter_eq.
  - rewrite lookup_delete_ne, lookup_partial_alter_ne by done. now rewrite lookup_cache_coins.
Qed.

(** Writing what is already there. *)
Lemma partial_alter_same (v : gmap COutPoint Coin) o r : v !! o = r -> partial_alter (fun _ => r) o v = v.
Proof.
  intros H. apply map_eq. intros o'. destruct (decide (o = o')) as [<-|Hne].
  - now rewrite lookup_partial_alter_eq.
  - now rewrite lookup_partial_alter_ne.
Qed.

Lemma entries_batch_ok m : entries_ok m -> batch_ok m b.
Proof. intros Hm o e H _ Hf. now apply (Hm o e H). Qed.

Lemma apply_changes_cache m : entries_ok m -> apply_changes m b = cache_coins m.
Proof.
  intros Hm. apply map_eq. intros o. rewrite lookup_apply_changes, lookup_cache_coins.
  destruct (m !! o) as [e|] eqn:E; [|done]. destruct (has_flag e DIRTY) eqn:Hd; [done|].
  symmetry. now apply (Hm o e E).
Qed.

Context (Hb : forall o c, b !! o = Some c -> IsSpent c = false).

Lemma cache_coins_unspent m o c : cache_coins m !! o = Some c -> IsSpent c = false.
Proof.
  rewrite lookup_cache_coins. destruct (m !! o) as [e|]; [|apply Hb].
  unfold coin_of. destruct (IsSpent (coin e)) eqn:E; [done|]. now intros [= <-].
Qed.

(** An entry just fetched from the base. *)
Lemma fetched_ok o c : b !! o = Some c ->
  entry_ok (b !! o) {| coin := c; flags := if IsSpent c then FRESH else 0 |} /\
  coin_of {| coin := c; flags := if IsSpent c then FRESH else 0 |} = Some c.
Proof.
  intros H. unfold entry_ok, coin_of. rewrite H. rewrite (Hb o c H). cbn [coin].
  split; [split; [done|]|]; now rewrite (Hb o c H).
Qed.
End Model.

(** ** The operations of the cache on the map *)

Section Refinement.
Context {V : Type} `{CoinsViewSpec V}.
Abbreviation cache := (CCoinsViewCache V).

Definition cache_ok (c : cache) : Prop :=
  view_ok (base c) /\ entries_ok (view_coins (base c)) (cacheCoins c) /\
  cachedCoinsUsage c = u64 (total_usage (cacheCoins c)).
Definition coins (c : cache) : gmap COutPoint Coin := cache_coins (view_coins (base c)) (cacheCoins c).
Definition best (c : cache) : hash := if IsNull (hashBlock c) then view_best (base c) else hashBlock c.

(** A state of the cache that stands for the map [m] and the same best block as [c]. *)
Definition becomes (c c' : cache) (m : gmap COutPoint Coin) : Prop :=
  cache_ok c' /\ coins c' = m /\ best c' = best c.

Lemma base_unspent (c : cache) : cache_ok c ->
  forall o cn, view_coins (base c) !! o = Some cn -> IsSpent cn = false.
Proof. intros (Hb & _) o cn. now apply view_unspent. Qed.

Lemma coins_unspent c o cn : cache_ok c -> coins c !! o = Some cn -> IsSpent cn = false.
Proof. intros Hc. apply cache_coins_unspent. now apply base_unspent. Qed.

(** Replacing, removing and adding an entry. *)
Lemma insert_ok c o e u : cache_ok c -> entry_ok (view_coins (base c) !! o) e ->
  u64 u = u64 (total_usage (<[o := e]> (cacheCoins c))) ->
  becomes c (with_coins c (<[o := e]> (cacheCoins c)) u) (partial_alter (fun _ => coin_of e) o (coins c)).
Proof.
  intros (Hb & He & Hu) Ho Eu. split; [split; [done|split]|split; [|done]].
  - now apply entries_ok_insert.
  - exact Eu.
  - apply cache_coins_insert.
Qed.

Lemma delete_ok c o e u : cache_ok c -> cacheCoins c !! o = Some e ->
  u64 u = u64 (cachedCoinsUsage c - DynamicMemoryUsage (coin e)) ->
  becomes c (with_coins c (delete o (cacheCoins c)) u)
    (partial_alter (fun _ => view_coins (base c) !! o) o (coins c)).
Proof.
  intros (Hb & He & Hu) Ho Eu. split; [split; [done|split]|split; [|done]].
  - now apply entries_ok_delete.
  - cbn [with_coins cachedCoinsUsage cacheCoins].
    now rewrite Eu, Hu, u64_sub_l, (total_delete _ _ _ Ho).
  - apply cache_coins_delete.
Qed.

(** The account after adding or replacing an entry. *)
Lemma usage_new c o e : cache_ok c -> cacheCoins c !! o = None ->
  u64 (cachedCoinsUsage c + DynamicMemoryUsage (coin e)) =
  u64 (total_usage (<[o := e]> (cacheCoins c))).
Proof.
  intros (_ & _ & ->) Ho. rewrite u64_add_l, total_insert by done. f_equal. lia.
Qed.

Lemma usage_old c o e e' : cache_ok c -> cacheCoins c !! o = Some e ->
  u64 (u64 (cachedCoinsUsage c - DynamicMemoryUsage (coin e)) + DynamicMemoryUsage (coin e')) =
  u64 (total_usage (<[o := e']> (cacheCoins c))).
Proof.
  intros (_ & _ & ->) Ho. now rewrite u64_sub_l, u64_add_l, (total_replace _ _ _ _ Ho).
Qed.

Lemma lookup_coins c o e : cacheCoins c !! o = Some e -> coins c !! o = coin_of e.
Proof. intros Ho. unfold coins. now rewrite lookup_cache_coins, Ho. Qed.
Lemma lookup_coins_base c o : cacheCoins c !! o = None -> coins c !! o = view_coins (base c) !! o.
Proof. intros Ho. unfold coins. now rewrite lookup_cache_coins, Ho. Qed.

(** Reading may put the entry into the cache, but does not change what it stands for. *)
Lemma FetchCoin_spec c o : cache_ok c ->
  let r := FetchCoin c o in
  becomes c r.1 (coins c) /\ cacheCoins r.1 !! o = r.2 /\
  coins c !! o = match r.2 with Some e => coin_of e | None => None end.
Proof.
  intros Hc. unfold FetchCoin. destruct (cacheCoins c !! o) as [e|] eqn:Ho.
  { split; [done|]. split; [done|]. now apply lookup_coins. }
  rewrite (lookup_coins_base c o Ho).
  destruct Hc as (Hb & He & Hu). pose proof (GetCoin_law (base c) o Hb) as HG. cbv zeta in HG.
  destruct (GetCoin (base c) o) as [b tmp]. cbn [fst snd] in HG. destruct HG as (Hb' & Ec & Eb & Et).
  assert (Hw : becomes c (with_base c b) (coins c)).
  { unfold becomes, cache_ok, coins, best. cbn [with_base base cacheCoins cachedCoinsUsage hashBlock].
    rewrite Ec, Eb. split; [split; [done|split; done]|split; done]. }
  destruct tmp as [cn|]; cbn [fst snd]; [|now rewrite <- Et].
  assert (Hf : view_coins b !! o = Some cn) by now rewrite Ec.
  destruct (fetched_ok (view_coins b) (fun o c => view_unspent b o c Hb') o cn Hf) as [Hok Hcn].
  set (e := {| coin := cn; flags := if IsSpent cn then FRESH else 0 |}) in *.
  destruct (insert_ok (with_base c b) o e (cachedCoinsUsage (with_base c b) + DynamicMemoryUsage cn)
    (proj1 Hw) Hok (usage_new (with_base c b) o e (proj1 Hw) Ho)) as (H1 & H2 & H3).
  split; [split; [exact H1|split]|split].
  - rewrite H2, Hcn, partial_alter_same; [apply Hw|].
    rewrite lookup_coins_base by done. exact Hf.
  - rewrite H3. apply Hw.
  - cbn [with_coins with_base cacheCoins]. apply lookup_insert_eq.
  - rewrite <- Et. symmetry. exact Hcn.
Qed.

Lemma cache_GetCoin_spec c o : cache_ok c ->
  let r := cache_GetCoin c o in becomes c r.1 (coins c) /\ r.2 = coins c !! o.
Proof.
  intros Hc. pose proof (FetchCoin_spec c o Hc) as HF. cbv zeta in HF. unfold cache_GetCoin.
  destruct (FetchCoin c o) as [c' it]. cbn [fst snd] in *. destruct HF as (H1 & _ & H3).
  split; [exact H1|]. now rewrite H3; destruct it.
Qed.

Lemma HaveCoin_spec c o : cache_ok c ->
  let r := HaveCoin c o in becomes c r.1 (coins c) /\ r.2 = bool_decide (is_Some (coins c !! o)).
Proof.
  intros Hc. pose proof (FetchCoin_spec c o Hc) as HF. cbv zeta in HF. unfold HaveCoin.
  destruct (FetchCoin c o) as [c' it]. cbn [fst snd] in *. destruct HF as (H1 & _ & H3).
  split; [exact H1|]. rewrite H3. destruct it as [e|]; [|done].
  unfold coin_of. now destruct (IsSpent (coin e)).
Qed.

Lemma AccessCoin_spec c o : cache_ok c ->
  let r := AccessCoin c o in
  becomes c r.1 (coins c) /\ (if IsSpent r.2 then None else Some r.2) = coins c !! o.
Proof.
  intros Hc. pose proof (FetchCoin_spec c o Hc) as HF. cbv zeta in HF. unfold AccessCoin.
  destruct (FetchCoin c o) as [c' it]. cbn [fst snd] in *. destruct HF as (H1 & _ & H3).
  split; [exact H1|]. now rewrite H3; destruct it.
Qed.

(** Nothing is thrown as long as coins are not overwritten unawares. *)
Lemma AddCoin_spec c o cn ow : cache_ok c -> IsSpent cn = false ->
  IsUnspendable (scriptPubKey (out cn)) = false -> (ow = false -> coins c !! o = None) ->
  exists c', AddCoin c o cn ow = inr c' /\ becomes c c' (<[o := cn]> (coins c)).
Proof.
  intros Hc Hs Hu Hno. unfold AddCoin. rewrite Hs, Hu.
  set (e := default _ (cacheCoins c !! o)).
  assert (Hthrow : negb ow && negb (IsSpent (coin e)) = false).
  { destruct ow; [done|]. specialize (Hno eq_refl). unfold e. cbn [negb andb].
    destruct (cacheCoins c !! o) as [e'|] eqn:Ho; [|done]. rewrite (lookup_coins _ _ _ Ho) in Hno.
    unfold coin_of in Hno. simpl. now destruct (IsSpent (coin e')). }
  cbv zeta. rewrite Hthrow. set (fr := negb ow && negb (has_flag e DIRTY)).
  set (e' := {| coin := cn; flags := flags e .| (DIRTY .| (if fr then FRESH else 0)) |}).
  assert (Hcn : coin_of e' = Some cn) by (unfold coin_of; cbn [coin e']; now rewrite Hs).
  destruct (flags_or cn (flags e) (DIRTY .| (if fr then FRESH else 0))) as [Fd Ff]. fold e' in Fd, Ff.
  assert (Hok : entry_ok (view_coins (base c) !! o) e').
  { split; [|rewrite Fd; rewrite orb_true_intro; [done|right; now destruct fr]].
    rewrite Ff. intros [H1|H1]%orb_true_iff.
    - unfold e in H1. destruct (cacheCoins c !! o) as [e0|] eqn:Ho; [|done].
      rewrite <- has_FRESH in H1. now apply (proj1 (proj2 Hc) o e0 Ho).
    - destruct fr eqn:Hfr; [|done]. unfold fr in Hfr. apply andb_true_iff in Hfr as [How Hd].
      destruct ow; [done|]. specialize (Hno eq_refl). unfold e in Hd.
      destruct (cacheCoins c !! o) as [e0|] eqn:Ho; [|now rewrite lookup_coins_base in Hno].
      rewrite (lookup_coins _ _ _ Ho) in Hno. apply negb_true_iff in Hd.
      now rewrite <- (proj2 (proj1 (proj2 Hc) o e0 Ho) Hd). }
  eexists. split; [reflexivity|]. change (<[o := cn]> (coins c)) with
    (partial_alter (fun _ => Some cn) o (coins c)). rewrite <- Hcn.
  apply insert_ok; [done|done|]. unfold e. destruct (cacheCoins c !! o) as [e0|] eqn:Ho.
  - now apply (usage_old c o e0 e').
  - now apply (usage_new c o e').
Qed.

(** When [AddCoin] throws. *)
Lemma AddCoin_throws c o cn ow : cache_ok c ->
  (AddCoin c o cn ow = inl assertion_failed <-> IsSpent cn = true) /\
  (AddCoin c o cn ow = inl logic_error <->
   IsSpent cn = false /\ IsUnspendable (scriptPubKey (out cn)) = false /\ ow = false /\
   HaveCoinInCache c o = true).
Proof.
  intros Hc. unfold AddCoin, HaveCoinInCache. destruct (IsSpent cn); [split; split; intros; destruct_and?; try discriminate; split_and?; done|].
  destruct (IsUnspendable _); [split; split; intros; destruct_and?; try discriminate; split_and?; done|].
  destruct (cacheCoins c !! o) as [e|]; cbn [from_option id]; cbv zeta.
  - destruct ow, (IsSpent (coin e)); cbn [negb andb]; split; split; intros; destruct_and?; try discriminate; split_and?; done.
  - change (IsSpent (coin {| coin := coinEmpty; flags := 0 |})) with true.
    destruct ow; cbn [negb andb]; split; split; intros; destruct_and?; try discriminate; split_and?; done.
Qed.

(** The coin that [SpendCoin] hands over. *)
Definition spent_coin (r : option Coin) : option Coin :=
  match r with Some cn => if IsSpent cn then None else Some cn | None => None end.

Lemma SpendCoin_spec c o : cache_ok c ->
  let r := SpendCoin c o in
  becomes c r.1 (delete o (coins c)) /\ spent_coin r.2 = coins c !! o.
Proof.
  intros Hc. pose proof (FetchCoin_spec c o Hc) as HF. cbv zeta in HF. unfold SpendCoin.
  destruct (FetchCoin c o) as [c' it]. cbn [fst snd] in HF. destruct HF as ((Hc' & Ec & Eb) & Ho & Hcoin).
  destruct it as [e|]; cbn [fst snd].
  2:{ rewrite Hcoin. split; [|done]. split; [done|]. split; [|done]. now rewrite Ec, delete_id. }
  split; [|rewrite Hcoin; reflexivity]. unfold becomes. rewrite <- Ec, <- Eb.
  destruct (has_flag e FRESH) eqn:Hf.
  - pose proof (delete_ok c' o e (cachedCoinsUsage c' - DynamicMemoryUsage (coin e)) Hc' Ho eq_refl) as Hd.
    now rewrite (proj1 (proj1 (proj2 Hc') o e Ho) Hf) in Hd.
  - set (e' := {| coin := coinEmpty; flags := flags e .| DIRTY |}).
    change (delete o (coins c')) with (partial_alter (fun _ => coin_of e') o (coins c')).
    apply insert_ok; [done| |].
    + destruct (flags_or coinEmpty (flags e) DIRTY) as [Fd Ff]. fold e' in Fd, Ff. split.
      * rewrite Ff, orb_false_r, <- has_FRESH, Hf. done.
      * rewrite Fd, orb_true_r. done.
    + rewrite <- (usage_old c' o e e' Hc' Ho). cbn [e' coin]. rewrite usage_empty, Z.add_0_r.
      symmetry. apply (wrap_wrap 64). lia.
Qed.

Lemma Uncache_spec c o : cache_ok c -> becomes c (Uncache c o) (coins c).
Proof.
  intros Hc. unfold Uncache. destruct (cacheCoins c !! o) as [e|] eqn:Ho; [|done].
  destruct (Z.eqb_spec (flags e) 0) as [Hf|]; [|done].
  pose proof (delete_ok c o e (cachedCoinsUsage c - DynamicMemoryUsage (coin e)) Hc Ho eq_refl) as Hd.
  rewrite partial_alter_same in Hd; [exact Hd|]. rewrite (lookup_coins _ _ _ Ho).
  apply (proj2 (proj1 (proj2 Hc) o e Ho)). now rewrite has_DIRTY, Hf.
Qed.

(** One entry of a batch is written. *)
Lemma batch_entry_spec c o it : cache_ok c ->
  (has_flag it DIRTY = true -> has_flag it FRESH = true -> coins c !! o = None) ->
  exists c', batch_entry c o it = inr c' /\
    becomes c c' (if has_flag it DIRTY then partial_alter (fun _ => coin_of it) o (coins c)
                  else coins c).
Proof.
  intros Hc Hf. unfold batch_entry. destruct (has_flag it DIRTY); [|now exists c]. specialize (Hf eq_refl).
  destruct (cacheCoins c !! o) as [e|] eqn:Ho.
  - rewrite (lookup_coins _ _ _ Ho) in Hf.
    replace (has_flag it FRESH && negb (IsSpent (coin e))) with false.
    2:{ destruct (has_flag it FRESH); [|done]. specialize (Hf eq_refl). unfold coin_of in Hf.
        now destruct (IsSpent (coin e)). }
    destruct (has_flag e FRESH && IsSpent (coin it)) eqn:Hd; eexists; (split; [reflexivity|]).
    + apply andb_true_iff in Hd as [He Hs].
      replace (coin_of it) with (view_coins (base c) !! o); [now apply (delete_ok c o e)|].
      unfold coin_of. rewrite Hs. now apply (proj1 (proj1 (proj2 Hc) o e Ho)).
    + set (e' := {| coin := coin it; flags := flags e .| DIRTY |}).
      change (coin_of it) with (coin_of e').
      destruct (flags_or (coin it) (flags e) DIRTY) as [Fd Ff]. fold e' in Fd, Ff.
      apply insert_ok; [done| |].
      * split; [|now rewrite Fd, orb_true_r]. rewrite Ff, orb_false_r, <- has_FRESH.
        apply (proj1 (proj1 (proj2 Hc) o e Ho)).
      * rewrite <- (usage_old c o e e' Hc Ho). now rewrite u64_add_l.
  - rewrite (lookup_coins_base _ _ Ho) in Hf.
    destruct (has_flag it FRESH && IsSpent (coin it)) eqn:Hd; eexists; (split; [reflexivity|]).
    + apply andb_true_iff in Hd as [He Hs]. rewrite partial_alter_same; [done|].
      rewrite (lookup_coins_base _ _ Ho), (Hf He). unfold coin_of. now rewrite Hs.
    + set (e' := {| coin := coin it; flags := if has_flag it FRESH then DIRTY .| FRESH else DIRTY |}).
      change (coin_of it) with (coin_of e').
      apply insert_ok; [done| |now apply (usage_new c o e')]. split; [|].
      * rewrite has_FRESH. cbn [e' flags]. destruct (has_flag it FRESH); [intros _; now apply Hf|done].
      * rewrite has_DIRTY. cbn [e' flags]. now destruct (has_flag it FRESH).
Qed.

Lemma becomes_trans c1 c2 c3 m2 m3 : becomes c1 c2 m2 -> becomes c2 c3 m3 -> becomes c1 c3 m3.
Proof. intros (_ & _ & E1) (H2 & E2 & E3). split; [done|]. split; [done|congruence]. Qed.

Lemma becomes_refl c : cache_ok c -> becomes c c (coins c).
Proof. done. Qed.

Lemma apply_changes_insert m b o e : m !! o = None ->
  apply_changes (<[o := e]> m) b =
  if has_flag e DIRTY then partial_alter (fun _ => coin_of e) o (apply_changes m b)
  else apply_changes m b.
Proof.
  intros Ho. apply map_eq. intros o'. rewrite lookup_apply_changes.
  destruct (decide (o = o')) as [<-|Hne].
  - rewrite lookup_insert_eq. destruct (has_flag e DIRTY); [now rewrite lookup_partial_alter_eq|].
    now rewrite lookup_apply_changes, Ho.
  - rewrite lookup_insert_ne by done.
    destruct (has_flag e DIRTY); rewrite ?lookup_partial_alter_ne by done; now rewrite lookup_apply_changes.
Qed.

(** The loop, in whatever order it runs over the batch. *)
Lemma batch_loop c m : cache_ok c -> batch_ok m (coins c) ->
  exists c', map_fold (fun o e r => match r with inl x => inl x | inr c => batch_entry c o e end)
      (inr c) m = inr c' /\ becomes c c' (apply_changes m (coins c)).
Proof.
  intros Hc.
  apply (map_fold_weak_ind (fun r m => batch_ok m (coins c) ->
    exists c', r = inr c' /\ becomes c c' (apply_changes m (coins c)))).
  - intros _. exists c. split; [done|]. replace (apply_changes ∅ (coins c)) with (coins c); [done|].
    apply map_eq. intros o. now rewrite lookup_apply_changes, lookup_empty.
  - intros o e m' r Ho IH Hok.
    destruct IH as (c1 & -> & Hc1).
    { intros o' e' He'. apply Hok. rewrite lookup_insert_ne; [done|]. intros <-. congruence. }
    destruct (batch_entry_spec c1 o e (proj1 Hc1)) as (c2 & E2 & Hc2).
    { intros Hd Hf. rewrite (proj1 (proj2 Hc1)), lookup_apply_changes, Ho.
      apply (Hok o e); [apply lookup_insert_eq|done..]. }
    exists c2. split; [exact E2|]. rewrite apply_changes_insert by done.
    rewrite (proj1 (proj2 Hc1)) in Hc2. eapply becomes_trans; [exact Hc1|exact Hc2].
Qed.

Lemma cache_BatchWrite_spec c m h : cache_ok c -> batch_ok m (coins c) ->
  exists c', cache_BatchWrite c m h = inr (c', true) /\ cache_ok c' /\
    coins c' = apply_changes m (coins c) /\ (IsNull h = false -> best c' = h).
Proof.
  intros Hc Hm. destruct (batch_loop c m Hc Hm) as (c' & E & (H1 & H2 & _)).
  unfold cache_BatchWrite. rewrite E. eexists. split; [reflexivity|]. split; [exact H1|].
  split; [exact H2|]. intros Hh. unfold best. cbn [SetBestBlock hashBlock]. now rewrite Hh.
Qed.

Lemma cache_GetBestBlock_spec c : cache_ok c ->
  let r := cache_GetBestBlock c in becomes c r.1 (coins c) /\ r.2 = best c.
Proof.
  intros Hc. unfold cache_GetBestBlock, best. destruct (IsNull (hashBlock c)) eqn:Hn; [|done].
  destruct Hc as (Hb & He & Hu). pose proof (GetBestBlock_law (base c) Hb) as HG. cbv zeta in HG.
  destruct (GetBestBlock (base c)) as [b h]. cbn [fst snd] in *. destruct HG as (Hb' & Ec & Eb & ->).
  split; [|done]. unfold becomes, cache_ok, coins, best. cbn [base cacheCoins cachedCoinsUsage hashBlock].
  rewrite Ec, Eb, Hn. split; [split; [done|split; done]|]. split; [done|]. now destruct (IsNull (view_best (base c))).
Qed.

(** Flushing moves what the cache stands for into the base. *)
Lemma Flush_spec c : cache_ok c ->
  exists c' ok, Flush c = inr (c', ok) /\ cacheCoins c' = ∅ /\
    (ok = true -> cache_ok c' /\ coins c' = coins c /\ view_coins (base c') = coins c /\
       (IsNull (hashBlock c) = false -> best c' = best c /\ view_best (base c') = best c)).
Proof.
  intros (Hb & He & Hu). unfold Flush.
  destruct (BatchWrite_law (base c) (cacheCoins c) (hashBlock c) Hb (entries_batch_ok _ _ He))
    as (b & ok & E & Hok).
  rewrite E. eexists _, ok. split; [reflexivity|]. split; [done|]. intros Htrue.
  destruct (Hok Htrue) as (Hb' & Ec & Eb). rewrite (apply_changes_cache _ _ He) in Ec.
  split; [|split; [|split; [exact Ec|]]].
  - split; [exact Hb'|]. split; [|done]. intros o e H1. cbn [cacheCoins] in H1. now rewrite lookup_empty in H1.
  - unfold coins at 1. cbn [base cacheCoins]. apply map_eq. intros o.
    rewrite lookup_cache_coins, lookup_empty. now rewrite Ec.
  - intros Hn. unfold best. cbn [hashBlock base]. rewrite Hn. auto.
Qed.

(** The cache keeps the contract of a view, so a cache can back another cache. *)
#[export] Program Instance cache_view_spec : CoinsViewSpec cache := {
  view_ok := cache_ok;
  view_coins := coins;
  view_best := best;
}.
Next Obligation. intros c o cn Hc. now apply coins_unspent. Qed.
Next Obligation.
  intros c o Hc. destruct (cache_GetCoin_spec c o Hc) as ((H1 & H2 & H3) & H4). auto.
Qed.
Next Obligation.
  intros c Hc. destruct (cache_GetBestBlock_spec c Hc) as ((H1 & H2 & H3) & H4). auto.
Qed.
Next Obligation.
  intros c m h Hc Hm. destruct (cache_BatchWrite_spec c m h Hc Hm) as (c' & E & H1 & H2 & H3).
  exists c', true. auto.
Qed.

Lemma new_cache_ok (v : V) : view_ok v ->
  cache_ok (new_cache v) /\ coins (new_cache v) = view_coins v /\ best (new_cache v) = view_best v.
Proof.
  intros Hv. split; [|split; [|done]].
  - split; [done|]. split; [|done]. intros o e H1. cbn [new_cache cacheCoins] in H1.
    now rewrite lookup_empty in H1.
  - unfold coins. cbn [new_cache base cacheCoins]. apply map_eq. intros o.
    now rewrite lookup_cache_coins, lookup_empty.
Qed.

(** ** Sequences of operations *)

Inductive op :=
  | OpGet (o : COutPoint) | OpHave (o : COutPoint) | OpAccess (o : COutPoint)
  | OpAdd (o : COutPoint) (cn : Coin) (possible_overwrite : bool)
  | OpSpend (o : COutPoint) | OpUncache (o : COutPoint) | OpFlush.
Inductive answer := ACoin (r : option Coin) | ABool (b : bool) | ADone.

(** The cache, with the coins it answers (a spent coin is no coin). *)
Definition exec_op (c : cache) (p : op) : throws (cache * answer) :=
  match p with
  | OpGet o => let '(c, r) := cache_GetCoin c o in inr (c, ACoin r)
  | OpHave o => let '(c, r) := HaveCoin c o in inr (c, ABool r)
  | OpAccess o => let '(c, r) := AccessCoin c o in inr (c, ACoin (spent_coin (Some r)))
  | OpAdd o cn ow => match AddCoin c o cn ow with inl x => inl x | inr c => inr (c, ADone) end
  | OpSpend o => let '(c, r) := SpendCoin c o in inr (c, ACoin (spent_coin r))
  | OpUncache o => inr (Uncache c o, ADone)
  | OpFlush => match Flush c with inl x => inl x | inr (c, ok) => inr (c, ABool ok) end
  end.

Fixpoint exec (c : cache) (ps : list op) : throws (cache * list answer) :=
  match ps with
  | [] => inr (c, [])
  | p :: ps =>
      match exec_op c p with
      | inl x => inl x
      | inr (c, a) => match exec c ps with inl x => inl x | inr (c, l) => inr (c, a :: l) end
      end
  end.

(** The same on a plain map of unspent coins. *)
Definition map_op (m : gmap COutPoint Coin) (p : op) : gmap COutPoint Coin * answer :=
  match p with
  | OpGet o | OpAccess o => (m, ACoin (m !! o))
  | OpHave o => (m, ABool (bool_decide (is_Some (m !! o))))
  | OpAdd o cn _ => (if IsUnspendable (scriptPubKey (out cn)) then m else <[o := cn]> m, ADone)
  | OpSpend o => (delete o m, ACoin (m !! o))
  | OpUncache _ => (m, ADone)
  | OpFlush => (m, ABool true)
  end.

Fixpoint map_exec (m : gmap COutPoint Coin) (ps : list op) : gmap COutPoint Coin * list answer :=
  match ps with
  | [] => (m, [])
  | p :: ps => let '(m, a) := map_op m p in let '(m, l) := map_exec m ps in (m, a :: l)
  end.

(** What the comment of [AddCoin] asks of its caller: the coin is unspent, and [possible_overwrite] is set if there may
    already be an unspent coin at the output, in the cache or below it. *)
Definition allowed (m : gmap COutPoint Coin) (p : op) : Prop :=
  match p with
  | OpAdd o cn ow => IsSpent cn = false /\ (IsUnspendable (scriptPubKey (out cn)) = true \/ ow = true \/ m !! o = None)
  | _ => True
  end.
Fixpoint contract_kept (m : gmap COutPoint Coin) (ps : list op) : Prop :=
  match ps with [] => True | p :: ps => allowed m p /\ contract_kept (map_op m p).1 ps end.

#[export] Instance answer_eq_dec : EqDecision answer.
Proof. solve_decision. Defined.

(** Writing to the base does not fail. *)
Definition writes_succeed : Prop := forall (v : V) m h v' ok, BatchWrite v m h = inr (v', ok) -> ok = true.

Lemma exec_op_spec c p : writes_succeed -> cache_ok c -> allowed (coins c) p ->
  exists c', exec_op c p = inr (c', (map_op (coins c) p).2) /\ cache_ok c' /\ coins c' = (map_op (coins c) p).1.
Proof.
  intros Hw Hc Hp. destruct p as [o|o|o|o cn ow|o|o|]; cbn [map_op allowed exec_op fst snd] in *.
  - destruct (cache_GetCoin_spec c o Hc) as ((H1 & H2 & _) & H3).
    destruct (cache_GetCoin c o) as [c' r]. cbn [fst snd] in *. subst r. now exists c'.
  - destruct (HaveCoin_spec c o Hc) as ((H1 & H2 & _) & H3).
    destruct (HaveCoin c o) as [c' r]. cbn [fst snd] in *. subst r. now exists c'.
  - destruct (AccessCoin_spec c o Hc) as ((H1 & H2 & _) & H3).
    destruct (AccessCoin c o) as [c' r]. cbn [fst snd spent_coin] in *. rewrite H3. now exists c'.
  - destruct Hp as [Hs Hp]. destruct (IsUnspendable (scriptPubKey (out cn))) eqn:Hu.
    { exists c. unfold AddCoin. now rewrite Hs, Hu. }
    destruct (AddCoin_spec c o cn ow Hc Hs Hu) as (c' & -> & H1 & H2 & _); [|now exists c'].
    intros ->. destruct Hp as [?|[?|?]]; done.
  - destruct (SpendCoin_spec c o Hc) as ((H1 & H2 & _) & H3).
    destruct (SpendCoin c o) as [c' r]. cbn [fst snd] in *. rewrite H3. now exists c'.
  - destruct (Uncache_spec c o Hc) as (H1 & H2 & _). now exists (Uncache c o).
  - destruct (Flush_spec c Hc) as (c' & ok & E & _ & Hok). rewrite E.
    assert (Htrue : ok = true).
    { unfold Flush in E. destruct (BatchWrite _ _ _) as [|[v' ok']] eqn:Eb; [done|].
      injection E as _ <-. now apply Hw in Eb. }
    destruct (Hok Htrue) as (H1 & H2 & _). subst ok. now exists c'.
Qed.

Lemma exec_spec c ps : writes_succeed -> cache_ok c -> contract_kept (coins c) ps ->
  exists c', exec c ps = inr (c', (map_exec (coins c) ps).2) /\ cache_ok c' /\ coins c' = (map_exec (coins c) ps).1.
Proof.
  intros Hw. revert c. induction ps as [|p ps IH]; intros c Hc Hp; cbn [map_exec exec contract_kept] in *.
  - now exists c.
  - destruct Hp as [H1 H2]. destruct (exec_op_spec c p Hw Hc H1) as (c1 & -> & Hc1 & Em).
    destruct (map_op (coins c) p) as [m1 a]. cbn [fst snd] in *. rewrite <- Em in H2 |- *.
    destruct (IH c1 Hc1 H2) as (c2 & -> & Hc2 & Em2). destruct (map_exec (coins c1) ps) as [m2 l]. cbn [fst snd] in *. now exists c2.
Qed.
End Refinement.

(** ** A view kept in memory *)

(** A finite map as a view; it stands for the bottom of a stack of caches. *)
Record map_view := mk_map_view { mv_coins : gmap COutPoint Coin; mv_best : hash }.

#[export] Instance map_view_view : CoinsView map_view := {
  GetCoin v o := (v, mv_coins v !! o);
  GetBestBlock v := (v, mv_best v);
  BatchWrite v m h := inr (mk_map_view (apply_changes m (mv_coins v)) h, true);
}.

#[export] Program Instance map_view_spec : CoinsViewSpec map_view := {
  view_ok v := forall o c, mv_coins v !! o = Some c -> IsSpent c = false;
  view_coins := mv_coins;
  view_best := mv_best;
}.
Next Obligation. intros v o c Hv. apply Hv. Qed.
Next Obligation. done. Qed.
Next Obligation. done. Qed.
Next Obligation.
  intros v m h Hv Hm. eexists _, true. split; [reflexivity|]. intros _. split; [|done].
  intros o c. cbn [mv_coins]. rewrite lookup_apply_changes. destruct (m !! o) as [e|]; [|apply Hv].
  destruct (has_flag e DIRTY); [|apply Hv]. unfold coin_of.
  destruct (IsSpent (coin e)) eqn:E; [done|]. now intros [= <-].
Qed.

Lemma map_view_writes : @writes_succeed map_view _.
Proof. intros v m h v' ok E. cbn in E. now injection E as _ <-. Qed.
Lemma cache_writes {V} `{CoinsView V} : @writes_succeed (CCoinsViewCache V) _.
Proof.
  intros c m h c' ok E. cbn [BatchWrite cache_view] in E. unfold cache_BatchWrite in E.
  destruct (map_fold _ _ m); [done|]. now injection E as _ <-.
Qed.

(** ** Properties *)

(** C14. A cache over any view that keeps the contract of views and whose writes succeed (another cache, for one) is a
    plain map of unspent coins to its callers: every sequence of lookups, additions, spendings, evictions and
    flushes throws nothing, gives the answers of the map, and leaves a cache whose flags and memory account are
    right and that stands for the resulting map; a final [Flush] makes the base stand for that map.  The
    callers keep the contract of [AddCoin] ([contract_kept]): it gets unspent coins only, and [possible_overwrite] if an
    unspent coin is at the output.  That no exception is thrown is not enough: [AddCoin] sees only what the cache
    holds ([unannounced_overwrite]). *)
Theorem cache_refines_map {V} `{CoinsViewSpec V} (c : CCoinsViewCache V) ps :
  writes_succeed (V := V) -> cache_ok c -> contract_kept (coins c) ps ->
  exists c', exec c ps = inr (c', (map_exec (coins c) ps).2) /\ cache_ok c' /\ coins c' = (map_exec (coins c) ps).1 /\
    exists c'', Flush c' = inr (c'', true) /\ cache_ok c'' /\ coins c'' = coins c' /\ view_coins (base c'') = coins c'.
Proof.
  intros Hw Hc Hp. destruct (exec_spec c ps Hw Hc Hp) as (c' & E & Hc' & Em).
  exists c'. split; [exact E|]. split; [done|]. split; [done|].
  destruct (exec_op_spec c' OpFlush Hw Hc' I) as (c'' & Ef & _).
  cbn [exec_op map_op snd] in Ef. destruct (Flush_spec c' Hc') as (c3 & ok & E3 & _ & Hok). rewrite E3 in Ef.
  injection Ef as <- ->. destruct (Hok eq_refl) as (H1 & H2 & H3 & _). now exists c3.
Qed.

(** [AddCoin] throws in exactly two cases: an assertion fails for a spent coin, and a
    logic error is reported when a spendable coin would replace an unspent coin that the
    cache holds and the caller has not announced an overwrite. *)
Theorem AddCoin_errors {V} `{CoinsViewSpec V} (c : CCoinsViewCache V) o cn ow :
  cache_ok c ->
  (AddCoin c o cn ow = inl assertion_failed <-> IsSpent cn = true) /\
  (AddCoin c o cn ow = inl logic_error <->
   IsSpent cn = false /\ IsUnspendable (scriptPubKey (out cn)) = false /\ ow = false /\
   HaveCoinInCache c o = true).
Proof. exact (AddCoin_throws c o cn ow). Qed.

(** Two caches over a map with one coin. *)
Definition demo_point (n : Z) : COutPoint := mk_outpoint (replicate 32 7) n.
Definition demo_coin (v : Z) : Coin := new_coin (mk_txout v [0x51] (-10)) 5 false.
Definition demo_base : map_view := mk_map_view {[ demo_point 0 := demo_coin 10 ]} (replicate 32 1).
Definition demo_cache : CCoinsViewCache (CCoinsViewCache map_view) := new_cache (new_cache demo_base).
Definition demo_ops : list op :=
  [OpGet (demo_point 0); OpAdd (demo_point 1) (demo_coin 20) false; OpSpend (demo_point 0);
   OpSpend (demo_point 0); OpFlush; OpHave (demo_point 1); OpAdd (demo_point 0) (demo_coin 30) false;
   OpSpend (demo_point 1); OpUncache (demo_point 0)].

Lemma demo_base_ok : view_ok demo_base.
Proof.
  intros o c Ho. unfold demo_base in Ho. cbn [mv_coins] in Ho.
  now apply lookup_singleton_Some in Ho as [_ <-].
Qed.

Lemma demo_cache_ok : cache_ok demo_cache /\
  coins demo_cache = {[ demo_point 0 := demo_coin 10 ]}.
Proof.
  destruct (new_cache_ok demo_base demo_base_ok) as (H1 & H2 & _).
  assert (Hv : view_ok (new_cache demo_base)) by exact H1.
  destruct (new_cache_ok _ Hv) as (H3 & H4 & _).
  split; [exact H3|]. unfold demo_cache. rewrite H4. exact H2.
Qed.

Definition demo_answers : list answer :=
  [ACoin (Some (demo_coin 10)); ADone; ACoin (Some (demo_coin 10)); ACoin None;
   ABool true; ABool true; ADone; ACoin (Some (demo_coin 20)); ADone].

Lemma demo_map_exec : map_exec {[ demo_point 0 := demo_coin 10 ]} demo_ops = ({[ demo_point 0 := demo_coin 30 ]}, demo_answers).
Proof. by_eval. Qed.

Lemma demo_contract : contract_kept {[ demo_point 0 := demo_coin 10 ]} demo_ops.
Proof.
  split; [exact I|]. split; [split; [reflexivity|right; right; vm_compute; reflexivity]|]. do 4 (split; [exact I|]).
  split; [split; [reflexivity|right; right; vm_compute; reflexivity]|]. now repeat split.
Qed.

Lemma cache_refines_map_witness :
  exists c', exec demo_cache demo_ops = inr (c', demo_answers) /\
    cache_ok c' /\ coins c' = {[ demo_point 0 := demo_coin 30 ]} /\
    exists c'', Flush c' = inr (c'', true) /\ cache_ok c'' /\ coins c'' = coins c' /\ view_coins (base c'') = coins c'.
Proof.
  assert (Hp : contract_kept (coins demo_cache) demo_ops) by (rewrite (proj2 demo_cache_ok); exact demo_contract).
  destruct (cache_refines_map demo_cache demo_ops cache_writes (proj1 demo_cache_ok) Hp) as (c' & E & Hok & Em & Hf).
  exists c'. rewrite (proj2 demo_cache_ok), demo_map_exec in E, Em. split; [exact E|]. split; [exact Hok|]. split; [exact Em|exact Hf].
Defined.

(** Without the contract: a coin that only the base holds is replaced unannounced; no call throws, but once the new
    coin is spent the old one is back. *)
Definition unannounced_ops : list op :=
  [OpAdd (demo_point 0) (demo_coin 40) false; OpSpend (demo_point 0); OpGet (demo_point 0)].

Example unannounced_overwrite :
  match exec demo_cache unannounced_ops with
  | inr (_, l) => l = [ADone; ACoin (Some (demo_coin 40)); ACoin (Some (demo_coin 10))]
  | inl _ => False
  end /\
  (map_exec {[ demo_point 0 := demo_coin 10 ]} unannounced_ops).2 = [ADone; ACoin (Some (demo_coin 40)); ACoin None].
Proof. split; vm_compute; reflexivity. Qed.

(** After a read the coin is in the cache, and replacing it unannounced is an error. *)
Definition demo_read : CCoinsViewCache (CCoinsViewCache map_view) :=
  (cache_GetCoin demo_cache (demo_point 0)).1.

Lemma AddCoin_errors_witness :
  AddCoin demo_read (demo_point 0) (demo_coin 40) false = inl logic_error /\
  (AddCoin demo_read (demo_point 0) (demo_coin 40) false = inl assertion_failed <->
   IsSpent (demo_coin 40) = true) /\
  (AddCoin demo_read (demo_point 0) (demo_coin 40) false = inl logic_error <->
   IsSpent (demo_coin 40) = false /\ IsUnspendable (scriptPubKey (out (demo_coin 40))) = false /\
   false = false /\ HaveCoinInCache demo_read (demo_point 0) = true).
Proof.
  split; [vm_compute; reflexivity|].
  apply AddCoin_errors, (cache_GetCoin_spec demo_cache (demo_point 0) (proj1 demo_cache_ok)).
Defined.
