(* ===== verification/Undo.v ===== *)
(** * Connecting and disconnecting blocks on the set of unspent outputs ([validation.cpp])

    What [ConnectBlock] and [DisconnectBlock] do to the coins: spending the inputs with their
    undo data, adding the outputs, and taking both back.  The optional address and spent
    indexes ([fAddressIndex], [fSpentIndex], off by default) and the undo file are left out:
    the undo data is an argument.  The theorems hold for a cache over any view. *)

From stdpp Require Import gmap.
From S2P Require Import Prelude Words Blob Transaction Coins.

(** ** The operations *)

Section Operations.
Context {V : Type} `{CoinsView V}.
Abbreviation cache := (CCoinsViewCache V).

(** The loop over the inputs of [UpdateCoins]; the undo data of a transaction is the list
    [vprevout] of the coins it spent. *)
Fixpoint spend_inputs (c : cache) (ins : list CTxIn) (vprevout : list Coin)
    : throws (cache * list Coin) :=
  match ins with
  | [] => inr (c, vprevout)
  | txin :: ins =>
      let '(c, moved) := SpendCoin c (prevout txin) in
      match moved with
      | None => inl assertion_failed
      | Some cn => spend_inputs c ins (vprevout ++ [cn])
      end
  end.

Definition UpdateCoins (c : cache) (tx : CTransaction) (height : Z) : throws (cache * list Coin) :=
  match (if IsCoinBase tx then inr (c, []) else spend_inputs c (vin tx) []) with
  | inl e => inl e
  | inr (c, vprevout) =>
      match AddCoins c tx height with inl e => inl e | inr c => inr (c, vprevout) end
  end.

(** The calls of [UpdateCoins] in [ConnectBlock]: the undo data of the first transaction is
    dropped.  Then the best block is set. *)
Fixpoint connect_txs (c : cache) (i : nat) (txs : list CTransaction) (height : Z)
    (vtxundo : list (list Coin)) : throws (cache * list (list Coin)) :=
  match txs with
  | [] => inr (c, vtxundo)
  | tx :: txs =>
      match UpdateCoins c tx height with
      | inl e => inl e
      | inr (c, u) =>
          connect_txs c (S i) txs height (if (0 <? i)%nat then vtxundo ++ [u] else vtxundo)
      end
  end.
Definition ConnectBlock_coins (c : cache) (vtx : list CTransaction) (height : Z) (hashBlock : list Z)
    : throws (cache * list (list Coin)) :=
  match connect_txs c 0 vtx height [] with
  | inl e => inl e
  | inr (c, vtxundo) => inr (SetBestBlock c hashBlock, vtxundo)
  end.

Inductive DisconnectResult := DISCONNECT_OK | DISCONNECT_UNCLEAN | DISCONNECT_FAILED.

(** The greatest number of outputs of a block: an empty output takes nine bytes. *)
Definition MAX_DIP0001_BLOCK_SIZE : Z := 2000000.
Definition MAX_OUTPUTS_PER_BLOCK : Z := MAX_DIP0001_BLOCK_SIZE / 9.

(** The first unspent output of a transaction, from number [n] on. *)
Fixpoint access_from (fuel : nat) (c : cache) (txid : list Z) (n : Z) : cache * Coin :=
  match fuel with
  | O => (c, coinEmpty)
  | S fuel =>
      if n <? MAX_OUTPUTS_PER_BLOCK then
        let '(c, alternate) := AccessCoin c (mk_outpoint txid n) in
        if negb (IsSpent alternate) then (c, alternate) else access_from fuel c txid (n + 1)
      else (c, coinEmpty)
  end.
Definition AccessByTxid (c : cache) (txid : list Z) : cache * Coin :=
  access_from (Z.to_nat MAX_OUTPUTS_PER_BLOCK) c txid 0.

Definition ApplyTxInUndo (undo : Coin) (c : cache) (outp : COutPoint)
    : throws (cache * DisconnectResult) :=
  let '(c, have) := HaveCoin c outp in
  let fClean := negb have in
  let '(c, undo) :=
    if nHeight undo =? 0 then
      let '(c, alternate) := AccessByTxid c (op_hash outp) in
      (c, if negb (IsSpent alternate) then
            Some {| out := out undo; fCoinBase := fCoinBase alternate; nHeight := nHeight alternate |}
          else None)
    else (c, Some undo) in
  match undo with
  | None => inr (c, DISCONNECT_FAILED)
  | Some undo =>
      match AddCoin c outp undo (fCoinBase undo) with
      | inl e => inl e
      | inr c => inr (c, if fClean then DISCONNECT_OK else DISCONNECT_UNCLEAN)
      end
  end.

(** The check that the outputs are there, from number [o] on. *)
Fixpoint undo_outputs (c : cache) (tx : CTransaction) (height : Z) (o : Z) (outs : list CTxOut)
    (fClean : bool) : cache * bool :=
  match outs with
  | [] => (c, fClean)
  | out_o :: outs =>
      if IsUnspendable (scriptPubKey out_o) then undo_outputs c tx height (o + 1) outs fClean
      else
        let '(c, moved) := SpendCoin c (mk_outpoint (tx_hash tx) (u32 o)) in
        let ok := match moved with
                  | None => false
                  | Some cn => bool_decide (out_o = out cn) && (height =? nHeight cn)
                               && eqb (IsCoinBase tx) (fCoinBase cn)
                  end in
        undo_outputs c tx height (o + 1) outs (fClean && ok)
  end.

(** The inputs are restored from the last to the first. *)
Fixpoint undo_inputs (c : cache) (ps : list (CTxIn * Coin)) (fClean : bool)
    : throws (cache * DisconnectResult) :=
  match ps with
  | [] => inr (c, if fClean then DISCONNECT_OK else DISCONNECT_UNCLEAN)
  | (txin, undo) :: ps =>
      match ApplyTxInUndo undo c (prevout txin) with
      | inl e => inl e
      | inr (c, DISCONNECT_FAILED) => inr (c, DISCONNECT_FAILED)
      | inr (c, DISCONNECT_UNCLEAN) => undo_inputs c ps false
      | inr (c, DISCONNECT_OK) => undo_inputs c ps fClean
      end
  end.

(** One transaction; [txundo] is its undo data, none for the first transaction. *)
Definition undo_tx (c : cache) (tx : CTransaction) (height : Z) (txundo : option (list Coin))
    (fClean : bool) : throws (cache * DisconnectResult) :=
  let '(c, fClean) := undo_outputs c tx height 0 (vout tx) fClean in
  match txundo with
  | None => inr (c, if fClean then DISCONNECT_OK else DISCONNECT_UNCLEAN)
  | Some vprevout =>
      if negb (length vprevout =? length (vin tx))%nat then inr (c, DISCONNECT_FAILED)
      else undo_inputs c (rev (zip (vin tx) vprevout)) fClean
  end.

(** The transactions from the last to the first. *)
Fixpoint undo_txs (c : cache) (txs : list (CTransaction * option (list Coin))) (height : Z)
    (fClean : bool) : throws (cache * DisconnectResult) :=
  match txs with
  | [] => inr (c, if fClean then DISCONNECT_OK else DISCONNECT_UNCLEAN)
  | (tx, txundo) :: txs =>
      match undo_tx c tx height txundo fClean with
      | inl e => inl e
      | inr (c, DISCONNECT_FAILED) => inr (c, DISCONNECT_FAILED)
      | inr (c, DISCONNECT_UNCLEAN) => undo_txs c txs height false
      | inr (c, DISCONNECT_OK) => undo_txs c txs height fClean
      end
  end.

(** [blockUndo] is [None] when there is no undo data or it cannot be read.  The block and its
    predecessor are given by their hashes. *)
Definition DisconnectBlock (vtx : list CTransaction) (height : Z) (hashBlock hashPrev : list Z)
    (blockUndo : option (list (list Coin))) (c : cache) : throws (cache * DisconnectResult) :=
  let '(c, hashBest) := cache_GetBestBlock c in
  if negb (blob_eq hashBlock hashBest) then inl assertion_failed
  else
    match blockUndo with
    | None => inr (c, DISCONNECT_FAILED)
    | Some vtxundo =>
        if negb (length vtxundo + 1 =? length vtx)%nat then inr (c, DISCONNECT_FAILED)
        else
          match undo_txs c (rev (zip vtx (None :: (Some <$> vtxundo)))) height true with
          | inl e => inl e
          | inr (c, DISCONNECT_FAILED) => inr (c, DISCONNECT_FAILED)
          | inr (c, r) => inr (SetBestBlock c hashPrev, r)
          end
    end.
End Operations.

(** ** The effect on the map of coins *)

(** Spend the inputs, add the outputs; [None] when an input is not there, when an output would
    replace an unspent coin, or when an output has the value of a spent coin. *)
Fixpoint take_inputs (m : gmap COutPoint Coin) (ins : list CTxIn)
    : option (gmap COutPoint Coin * list Coin) :=
  match ins with
  | [] => Some (m, [])
  | i :: ins =>
      cn ← m !! prevout i;
      '(m, l) ← take_inputs (delete (prevout i) m) ins;
      Some (m, cn :: l)
  end.
Fixpoint put_outputs (m : gmap COutPoint Coin) (tx : CTransaction) (height : Z) (i : Z)
    (outs : list CTxOut) : option (gmap COutPoint Coin) :=
  match outs with
  | [] => Some m
  | o :: outs =>
      let cn := new_coin o height (IsCoinBase tx) in
      let k := mk_outpoint (tx_hash tx) (u32 i) in
      if IsSpent cn then None
      else if IsUnspendable (scriptPubKey o) then put_outputs m tx height (i + 1) outs
      else match m !! k with
           | Some _ => None
           | None => put_outputs (<[k := cn]> m) tx height (i + 1) outs
           end
  end.
Definition connect_tx (m : gmap COutPoint Coin) (tx : CTransaction) (height : Z)
    : option (gmap COutPoint Coin * list Coin) :=
  '(m, l) ← (if IsCoinBase tx then Some (m, []) else take_inputs m (vin tx));
  m ← put_outputs m tx height 0 (vout tx);
  Some (m, l).
Fixpoint connect_map (m : gmap COutPoint Coin) (txs : list CTransaction) (height : Z)
    : option (gmap COutPoint Coin * list (list Coin)) :=
  match txs with
  | [] => Some (m, [])
  | tx :: txs =>
      '(m, u) ← connect_tx m tx height;
      '(m, us) ← connect_map m txs height;
      Some (m, u :: us)
  end.

(** Coins that undo data can restore: unspent, spendable, and with their height. *)
Definition restorable (cn : Coin) : Prop :=
  IsSpent cn = false /\ IsUnspendable (scriptPubKey (out cn)) = false /\ nHeight cn <> 0.
Definition all_restorable (m : gmap COutPoint Coin) : Prop :=
  forall o cn, m !! o = Some cn -> restorable cn.

Lemma put_outputs_keeps m tx h i outs m' k v :
  put_outputs m tx h i outs = Some m' -> m !! k = Some v -> m' !! k = Some v.
Proof.
  revert m i. induction outs as [|o outs IH]; intros m i E Hk; cbn [put_outputs] in E.
  - now injection E as <-.
  - destruct (IsSpent _); [done|]. destruct (IsUnspendable _); [now apply (IH m (i + 1))|].
    destruct (m !! _) eqn:Ho; [done|]. apply (IH _ _ E).
    rewrite lookup_insert_ne; [done|]. intros <-. congruence.
Qed.

(** The coins that are there do not matter for the outputs that are added. *)
Lemma put_outputs_delete m tx h i outs m' k v :
  put_outputs (<[k := v]> m) tx h i outs = Some m' -> m !! k = None ->
  put_outputs m tx h i outs = Some (delete k m').
Proof.
  revert m i. induction outs as [|o outs IH]; intros m i E Hk; cbn [put_outputs] in *.
  - injection E as <-. now rewrite delete_insert_id.
  - destruct (IsSpent _); [done|]. destruct (IsUnspendable _); [now apply IH|].
    destruct (decide (k = mk_outpoint (tx_hash tx) (u32 i))) as [Ek|Hne].
    { rewrite Ek, lookup_insert_eq in E. done. }
    rewrite lookup_insert_ne in E by done. destruct (m !! mk_outpoint _ _) eqn:Ho; [done|].
    apply IH; [|now rewrite lookup_insert_ne]. now rewrite insert_insert_ne in E by done.
Qed.

Lemma take_inputs_delete m i ins m' l :
  take_inputs m (i :: ins) = Some (m', l) ->
  exists cn l', m !! prevout i = Some cn /\ l = cn :: l' /\
    take_inputs (delete (prevout i) m) ins = Some (m', l').
Proof.
  cbn [take_inputs]. intros E. destruct (m !! prevout i) as [cn|]; [|done]. cbn [mbind option_bind] in E.
  destruct (take_inputs _ ins) as [[m1 l1]|] eqn:E1; [|done]. cbn [mbind option_bind] in E.
  injection E as <- <-. now exists cn, l1.
Qed.

Lemma take_inputs_restorable m ins m' l : take_inputs m ins = Some (m', l) ->
  all_restorable m -> all_restorable m' /\ Forall restorable l /\ length l = length ins.
Proof.
  revert m l. induction ins as [|i ins IH]; intros m l E Hm.
  - injection E as <- <-. done.
  - apply take_inputs_delete in E as (cn & l' & Hcn & -> & E).
    destruct (IH _ _ E) as (H1 & H2 & H3).
    { intros o c Ho. apply lookup_delete_Some in Ho as [_ Ho]. now apply (Hm o). }
    split; [done|]. split; [constructor; [now apply (Hm (prevout i))|done]|simpl; now rewrite H3].
Qed.

Lemma put_outputs_restorable m tx h i outs m' : wrap 31 h <> 0 ->
  put_outputs m tx h i outs = Some m' -> all_restorable m -> all_restorable m'.
Proof.
  intros Hh. revert m i. induction outs as [|o outs IH]; intros m i E Hm; cbn [put_outputs] in E.
  - now injection E as <-.
  - destruct (IsSpent _) eqn:Hs; [done|].
    destruct (IsUnspendable _) eqn:Hu; [now apply (IH m (i + 1))|].
    destruct (m !! _) eqn:Ho; [done|]. apply (IH _ _ E). intros k c Hk.
    apply lookup_insert_Some in Hk as [[_ <-]|[_ Hk]]; [split; [done|now split]|now apply (Hm k)].
Qed.

(** ** The operations refine it *)

Section Blocks.
Context {V : Type} `{CoinsViewSpec V}.
Abbreviation cache := (CCoinsViewCache V).

Lemma SpendCoin_coin c o cn : cache_ok c -> coins c !! o = Some cn ->
  exists c', SpendCoin c o = (c', Some cn) /\ becomes c c' (delete o (coins c)).
Proof.
  intros Hc Ho. destruct (SpendCoin_spec c o Hc) as [H1 H2]. rewrite Ho in H2.
  destruct (SpendCoin c o) as [c' r]. cbn [fst snd] in *. exists c'. split; [|done].
  destruct r as [cn'|]; [|done]. cbn [spent_coin] in H2. destruct (IsSpent cn'); [done|].
  now injection H2 as ->.
Qed.

Lemma spend_inputs_spec c ins acc m l : cache_ok c -> take_inputs (coins c) ins = Some (m, l) ->
  exists c', spend_inputs c ins acc = inr (c', acc ++ l) /\ becomes c c' m.
Proof.
  revert c acc l. induction ins as [|i ins IH]; intros c acc l Hc E.
  - injection E as <- <-. exists c. rewrite app_nil_r. split; [done|]. now apply becomes_refl.
  - apply take_inputs_delete in E as (cn & l' & Hcn & -> & E). cbn [spend_inputs].
    destruct (SpendCoin_coin c _ cn Hc Hcn) as (c1 & -> & Hc1).
    destruct Hc1 as (Hok & Em & Eb). rewrite <- Em in E.
    destruct (IH c1 (acc ++ [cn]) l' Hok E) as (c2 & -> & Hc2). exists c2.
    rewrite <- app_assoc. split; [done|]. now apply (becomes_trans c c1 c2 (coins c1)).
Qed.

Lemma AddCoins_spec c tx h i outs m : cache_ok c -> put_outputs (coins c) tx h i outs = Some m ->
  exists c', AddCoins_from c tx h i outs = inr c' /\ becomes c c' m.
Proof.
  revert c i. induction outs as [|o outs IH]; intros c i Hc E; cbn [put_outputs AddCoins_from] in *.
  - injection E as <-. exists c. split; [done|]. now apply becomes_refl.
  - destruct (IsSpent (new_coin o h (IsCoinBase tx))) eqn:Hs; [done|].
    destruct (IsUnspendable (scriptPubKey o)) eqn:Hu.
    { unfold AddCoin. rewrite Hs. cbn [new_coin out]. rewrite Hu. now apply IH. }
    destruct (coins c !! mk_outpoint (tx_hash tx) (u32 i)) eqn:Ho; [done|].
    destruct (AddCoin_spec c _ _ (IsCoinBase tx) Hc Hs Hu (fun _ => Ho)) as (c1 & -> & Hc1).
    destruct Hc1 as (Hok & Em & Eb). rewrite <- Em in E.
    destruct (IH c1 (i + 1) Hok E) as (c2 & -> & Hc2). exists c2. split; [done|].
    now apply (becomes_trans c c1 c2 (coins c1)).
Qed.

Lemma UpdateCoins_spec c tx h m u : cache_ok c -> connect_tx (coins c) tx h = Some (m, u) ->
  exists c', UpdateCoins c tx h = inr (c', u) /\ becomes c c' m.
Proof.
  intros Hc E. unfold connect_tx in E. unfold UpdateCoins.
  assert (Hin : exists c1 m1, (if IsCoinBase tx then inr (c, []) else spend_inputs c (vin tx) []) = inr (c1, u) /\
    becomes c c1 m1 /\ put_outputs m1 tx h 0 (vout tx) = Some m).
  { destruct (IsCoinBase tx).
    - cbn [mbind option_bind] in E. destruct (put_outputs _ _ _ _ _) eqn:Ep; [|done].
      injection E as <- <-. exists c, (coins c). split; [done|]. split; [now apply becomes_refl|done].
    - destruct (take_inputs _ _) as [[m1 l1]|] eqn:Et; [|done]. cbn [mbind option_bind] in E.
      destruct (put_outputs _ _ _ _ _) eqn:Ep; [|done]. injection E as <- <-.
      destruct (spend_inputs_spec c (vin tx) [] m1 l1 Hc Et) as (c1 & -> & Hc1). now exists c1, m1. }
  destruct Hin as (c1 & m1 & -> & (Hok & Em & Eb) & Ep). rewrite <- Em in Ep.
  destruct (AddCoins_spec c1 tx h 0 (vout tx) m Hok Ep) as (c2 & E2 & Hc2).
  unfold AddCoins. rewrite E2. exists c2. split; [done|].
  now apply (becomes_trans c c1 c2 (coins c1)).
Qed.

Lemma connect_txs_spec c i txs h acc m us : cache_ok c ->
  connect_map (coins c) txs h = Some (m, us) ->
  exists c', connect_txs c i txs h acc = inr (c', acc ++ (if (0 <? i)%nat then us else tail us)) /\
    becomes c c' m.
Proof.
  revert c i acc us. induction txs as [|tx txs IH]; intros c i acc us Hc E; cbn [connect_map connect_txs] in *.
  - injection E as <- <-. exists c. split; [|now apply becomes_refl].
    destruct (0 <? i)%nat; simpl; now rewrite app_nil_r.
  - destruct (connect_tx (coins c) tx h) as [[m1 u]|] eqn:E1; [|done]. cbn [mbind option_bind] in E.
    destruct (connect_map m1 txs h) as [[m2 us2]|] eqn:E2; [|done]. cbn [mbind option_bind] in E.
    injection E as <- <-. destruct (UpdateCoins_spec c tx h m1 u Hc E1) as (c1 & -> & (Hok & Em & Eb)).
    rewrite <- Em in E2.
    destruct (IH c1 (S i) (if (0 <? i)%nat then acc ++ [u] else acc) us2 Hok E2) as (c2 & -> & Hc2).
    exists c2. split; [|now apply (becomes_trans c c1 c2 (coins c1))].
    destruct (0 <? i)%nat; simpl; [now rewrite <- app_assoc|done].
Qed.

(** *** Taking a transaction back *)

Lemma undo_outputs_spec c tx h i outs m clean : cache_ok c -> wrap 31 h = h ->
  put_outputs m tx h i outs = Some (coins c) ->
  exists c', undo_outputs c tx h i outs clean = (c', clean) /\ becomes c c' m.
Proof.
  intros Hc Hh. revert c m i clean Hc. induction outs as [|o outs IH]; intros c m i clean Hc E;
    cbn [put_outputs undo_outputs] in *.
  - injection E as ->. exists c. split; [done|]. now apply becomes_refl.
  - destruct (IsSpent _); [done|]. destruct (IsUnspendable _); [now apply IH|].
    set (k := mk_outpoint (tx_hash tx) (u32 i)) in *.
    destruct (m !! k) eqn:Ho; [done|].
    pose proof (put_outputs_keeps _ _ _ _ _ _ k _ E (lookup_insert_eq _ _ _)) as Hk.
    destruct (SpendCoin_coin c k _ Hc Hk) as (c1 & -> & (Hok & Em & Eb)).
    apply put_outputs_delete in E; [|done]. rewrite <- Em in E. cbn [new_coin out nHeight fCoinBase].
    rewrite bool_decide_true, Hh, Z.eqb_refl, eqb_reflx, andb_true_r by done.
    destruct (IH c1 m (i + 1) clean Hok E) as (c2 & E2 & Hc2). exists c2.
    split; [exact E2|]. now apply (becomes_trans c c1 c2 (coins c1)).
Qed.

Lemma ApplyTxInUndo_spec c undo o : cache_ok c -> coins c !! o = None -> restorable undo ->
  exists c', ApplyTxInUndo undo c o = inr (c', DISCONNECT_OK) /\ becomes c c' (<[o := undo]> (coins c)).
Proof.
  intros Hc Ho (Hs & Hu & Hh). unfold ApplyTxInUndo.
  destruct (HaveCoin_spec c o Hc) as [(Hok & Em & Eb) Er]. rewrite Ho in Er.
  destruct (HaveCoin c o) as [c1 have]. cbn [fst snd] in *. subst have.
  destruct (Z.eqb_spec (nHeight undo) 0) as [|_]; [done|].
  rewrite <- Em in Ho. destruct (AddCoin_spec c1 o undo (fCoinBase undo) Hok Hs Hu (fun _ => Ho))
    as (c2 & -> & Hc2).
  exists c2. split; [done|]. rewrite Em in Hc2. now apply (becomes_trans c c1 c2 (coins c)).
Qed.

Lemma undo_inputs_spec c m ins l : cache_ok c -> take_inputs m ins = Some (coins c, l) ->
  all_restorable m ->
  exists c', (forall rest, undo_inputs c (rev (zip ins l) ++ rest) true = undo_inputs c' rest true) /\
    becomes c c' m.
Proof.
  intros Hc. revert m l. induction ins as [|i ins IH]; intros m l E Hm.
  - injection E as -> <-. exists c. split; [done|]. now apply becomes_refl.
  - apply take_inputs_delete in E as (cn & l' & Hcn & -> & E).
    destruct (IH _ _ E) as (c1 & E1 & (Hok & Em & Eb)).
    { intros o c' Ho. apply lookup_delete_Some in Ho as [_ Ho]. now apply (Hm o). }
    destruct (ApplyTxInUndo_spec c1 cn (prevout i) Hok) as (c2 & E2 & Hc2);
      [rewrite Em; apply lookup_delete_eq|now apply (Hm (prevout i))|].
    exists c2. split.
    + intros rest. cbn [zip_with rev]. rewrite <- app_assoc, E1. cbn [app undo_inputs]. now rewrite E2.
    + rewrite Em in Hc2. apply (becomes_trans c c1 c2 _ m (conj Hok (conj Em Eb))).
      replace m with (<[prevout i := cn]> (delete (prevout i) m)); [done|].
      rewrite insert_delete_eq. now apply insert_id.
Qed.

Lemma undo_tx_spec c m tx h u : cache_ok c -> wrap 31 h = h -> all_restorable m ->
  connect_tx m tx h = Some (coins c, u) ->
  exists c', undo_tx c tx h (if IsCoinBase tx then None else Some u) true = inr (c', DISCONNECT_OK) /\
    becomes c c' m.
Proof.
  intros Hc Hh Hm E. unfold connect_tx in E. unfold undo_tx. destruct (IsCoinBase tx).
  - cbn [mbind option_bind] in E. destruct (put_outputs _ _ _ _ _) as [m1|] eqn:Ep; [|done].
    injection E as -> _. destruct (undo_outputs_spec c tx h 0 _ m true Hc Hh Ep) as (c1 & -> & Hc1).
    now exists c1.
  - destruct (take_inputs m (vin tx)) as [[m1 l]|] eqn:Et; [|done]. cbn [mbind option_bind] in E.
    destruct (put_outputs _ _ _ _ _) as [m2|] eqn:Ep; [|done]. injection E as -> <-.
    destruct (undo_outputs_spec c tx h 0 _ m1 true Hc Hh Ep) as (c1 & -> & (Hok & Em & Eb)).
    rewrite (proj2 (proj2 (take_inputs_restorable _ _ _ _ Et Hm))), Nat.eqb_refl. cbn [negb].
    rewrite <- Em in Et. destruct (undo_inputs_spec c1 m (vin tx) l Hok Et Hm) as (c2 & E2 & Hc2).
    specialize (E2 []). rewrite app_nil_r in E2. rewrite E2. exists c2. split; [done|].
    now apply (becomes_trans c c1 c2 (coins c1)).
Qed.

Lemma connect_tx_restorable m tx h m' u : wrap 31 h <> 0 -> connect_tx m tx h = Some (m', u) ->
  all_restorable m -> all_restorable m'.
Proof.
  intros Hh E Hm. unfold connect_tx in E. destruct (IsCoinBase tx).
  - cbn [mbind option_bind] in E. destruct (put_outputs _ _ _ _ _) eqn:Ep; [|done].
    injection E as <- _. now apply (put_outputs_restorable _ _ _ _ _ _ Hh Ep).
  - destruct (take_inputs m (vin tx)) as [[m1 l]|] eqn:Et; [|done]. cbn [mbind option_bind] in E.
    destruct (put_outputs _ _ _ _ _) eqn:Ep; [|done]. injection E as <- _.
    apply (put_outputs_restorable _ _ _ _ _ _ Hh Ep), (take_inputs_restorable _ _ _ _ Et Hm).
Qed.

(** Several transactions, none of them a coinbase. *)
Lemma undo_txs_spec c m txs h us : cache_ok c -> wrap 31 h = h -> h <> 0 -> all_restorable m ->
  Forall (fun tx => IsCoinBase tx = false) txs -> connect_map m txs h = Some (coins c, us) ->
  length us = length txs /\
  exists c', (forall rest, undo_txs c (rev (zip txs (Some <$> us)) ++ rest) h true =
                           undo_txs c' rest h true) /\ becomes c c' m.
Proof.
  intros Hc Hh Hne Hm Hcb. revert m us Hm. induction Hcb as [|tx txs Htx Htxs IH]; intros m us Hm E;
    cbn [connect_map] in E.
  - injection E as -> <-. split; [done|]. exists c. split; [done|]. now apply becomes_refl.
  - destruct (connect_tx m tx h) as [[m1 u]|] eqn:E1; [|done]. cbn [mbind option_bind] in E.
    destruct (connect_map m1 txs h) as [[m2 us2]|] eqn:E2; [|done]. cbn [mbind option_bind] in E.
    injection E as -> <-. assert (Hm1 : all_restorable m1)
      by (apply (connect_tx_restorable m tx h m1 u); [now rewrite Hh|done|done]).
    destruct (IH m1 us2 Hm1 E2) as (Hl & c1 & Er & (Hok & Em & Eb)). split; [simpl; now rewrite Hl|].
    rewrite <- Em in E1. destruct (undo_tx_spec c1 m tx h u Hok Hh Hm E1) as (c2 & Eu & Hc2).
    rewrite Htx in Eu. exists c2. split.
    + intros rest. cbn [fmap list_fmap zip_with rev]. rewrite <- app_assoc, Er.
      cbn [app undo_txs]. now rewrite Eu.
    + now apply (becomes_trans c c1 c2 (coins c1)).
Qed.
End Blocks.

(** ** Properties *)

Section Properties.
Context {V : Type} `{CoinsViewSpec V}.

(** Disconnecting a block from the coins that it leaves. *)
Lemma disconnect_spec (c1 : CCoinsViewCache V) cb txs h bhash phash m0 us :
  cache_ok c1 -> best c1 = bhash -> all_restorable m0 -> 0 < h < 2 ^ 31 ->
  IsCoinBase cb = true -> Forall (fun tx => IsCoinBase tx = false) txs ->
  connect_map m0 (cb :: txs) h = Some (coins c1, us) ->
  exists c2, DisconnectBlock (cb :: txs) h bhash phash (Some (tail us)) c1 = inr (c2, DISCONNECT_OK) /\
    cache_ok c2 /\ coins c2 = m0 /\ (IsNull phash = false -> best c2 = phash).
Proof.
  intros Hc Hbest Hm Hh Hcb Htxs E. pose proof (wrap_small 31 h ltac:(lia) ltac:(unfold in_word; lia)) as Hw.
  unfold DisconnectBlock. destruct (cache_GetBestBlock_spec c1 Hc) as [(Hok1 & Em1 & _) Eb].
  destruct (cache_GetBestBlock c1) as [c0 hb]. cbn [fst snd] in *. subst hb.
  rewrite Hbest, blob_eq_refl. cbn [negb].
  cbn [connect_map] in E. destruct (connect_tx m0 cb h) as [[m1 u]|] eqn:E1; [|done].
  cbn [mbind option_bind] in E. destruct (connect_map m1 txs h) as [[m2 us2]|] eqn:E2; [|done].
  cbn [mbind option_bind] in E. injection E as -> <-. cbn [tail].
  assert (Hm1 : all_restorable m1)
    by (apply (connect_tx_restorable m0 cb h m1 u); [rewrite Hw; lia|done|done]).
  rewrite <- Em1 in E2.
  destruct (undo_txs_spec c0 m1 txs h us2 Hok1 Hw ltac:(lia) Hm1 Htxs E2) as (Hl & c2 & Er & (Hok2 & Em2 & _)).
  cbn [length]. rewrite Hl, Nat.add_1_r, Nat.eqb_refl. cbn [negb zip_with rev].
  rewrite Er. cbn [undo_txs]. rewrite <- Em2 in E1.
  destruct (undo_tx_spec c2 m0 cb h u Hok2 Hw Hm E1) as (c3 & Eu & (Hok3 & Em3 & _)).
  rewrite Hcb in Eu. rewrite Eu. eexists. split; [reflexivity|]. split; [exact Hok3|].
  split; [exact Em3|]. intros Hp. unfold best. cbn [SetBestBlock hashBlock]. now rewrite Hp.
Qed.

(** A block at a height between 1 and 2^31 - 1 whose first transaction alone is a
    coinbase, whose inputs are unspent coins when they are spent, and whose outputs replace
    no unspent coin is connected without a failed assertion or exception, and
    disconnecting it with the undo data it left is clean and gives the same set of unspent
    coins, with the previous block as the best one. *)
Theorem disconnect_undoes_connect (c : CCoinsViewCache V) cb txs h bhash phash m us :
  cache_ok c -> all_restorable (coins c) -> 0 < h < 2 ^ 31 -> IsNull bhash = false ->
  IsCoinBase cb = true -> Forall (fun tx => IsCoinBase tx = false) txs ->
  connect_map (coins c) (cb :: txs) h = Some (m, us) ->
  exists c1, ConnectBlock_coins c (cb :: txs) h bhash = inr (c1, tail us) /\
    cache_ok c1 /\ coins c1 = m /\ best c1 = bhash /\
    exists c2, DisconnectBlock (cb :: txs) h bhash phash (Some (tail us)) c1 = inr (c2, DISCONNECT_OK) /\
      cache_ok c2 /\ coins c2 = coins c /\ (IsNull phash = false -> best c2 = phash).
Proof.
  intros Hc Hm Hh Hn Hcb Htxs E. destruct (connect_txs_spec c 0 (cb :: txs) h [] m us Hc E) as (c0 & E0 & (Hok & Em & _)).
  cbn [app Nat.ltb Nat.leb] in E0. unfold ConnectBlock_coins. rewrite E0.
  eexists. split; [reflexivity|]. split; [exact Hok|]. split; [exact Em|].
  assert (Hbest : best (SetBestBlock c0 bhash) = bhash)
    by (unfold best; cbn [SetBestBlock hashBlock]; now rewrite Hn).
  split; [exact Hbest|]. rewrite <- Em in E.
  exact (disconnect_spec (SetBestBlock c0 bhash) cb txs h bhash phash (coins c) us Hok Hbest Hm Hh Hcb Htxs E).
Qed.

(** C35. When the output that is to be restored is still unspent, [ApplyTxInUndo] does not
    report an unclean disconnection unless the coin comes from a coinbase: it passes the
    coinbase flag as the permission to overwrite, so [AddCoin] throws. *)
Theorem ApplyTxInUndo_overwrite (c : CCoinsViewCache V) undo o old :
  cache_ok c -> coins c !! o = Some old -> restorable undo ->
  (fCoinBase undo = false -> ApplyTxInUndo undo c o = inl logic_error) /\
  (fCoinBase undo = true -> exists c', ApplyTxInUndo undo c o = inr (c', DISCONNECT_UNCLEAN) /\
     coins c' = <[o := undo]> (coins c)).
Proof.
  intros Hc Ho (Hs & Hu & Hh). unfold ApplyTxInUndo.
  destruct (FetchCoin_spec c o Hc) as ((Hok & Em & _) & Hin & Hcoin).
  unfold HaveCoin. destruct (FetchCoin c o) as [c1 it]. cbn [fst snd] in *.
  rewrite Ho in Hcoin. destruct it as [e|]; [|done]. unfold coin_of in Hcoin.
  destruct (IsSpent (coin e)) eqn:He; [done|]. destruct (Z.eqb_spec (nHeight undo) 0) as [|_]; [done|].
  cbn [negb]. split; intros Hcb; rewrite Hcb.
  - rewrite (proj2 (proj2 (AddCoin_throws c1 o undo false Hok))); [done|].
    split; [done|]. split; [done|]. split; [done|]. unfold HaveCoinInCache. rewrite Hin. now rewrite He.
  - destruct (AddCoin_spec c1 o undo true Hok Hs Hu ltac:(done)) as (c2 & -> & (_ & Em2 & _)).
    exists c2. split; [done|]. now rewrite Em2, Em.
Qed.
End Properties.

(** A coinbase and a transaction that spends the coin of [demo_base]. *)
Definition demo_hash (k : Z) : list Z := k :: replicate 31 0.
Definition demo_out (v : Z) : CTxOut := mk_txout v [0x51] (-10).
Definition demo_coinbase : CTransaction :=
  mk_tx 1 [mk_txin (mk_outpoint (replicate 32 0) 0xFFFFFFFF) [] 0] [demo_out 50] 0 (demo_hash 21).
Definition demo_tx : CTransaction :=
  mk_tx 1 [mk_txin (demo_point 0) [] 0] [demo_out 4; mk_txout 0 [0x6a] (-10); demo_out 6] 0 (demo_hash 22).
Definition demo_after : gmap COutPoint Coin :=
  {[ mk_outpoint (demo_hash 21) 0 := new_coin (demo_out 50) 9 true;
     mk_outpoint (demo_hash 22) 0 := new_coin (demo_out 4) 9 false;
     mk_outpoint (demo_hash 22) 2 := new_coin (demo_out 6) 9 false ]}.

Lemma demo_restorable : all_restorable (coins demo_cache).
Proof.
  rewrite (proj2 demo_cache_ok). intros o cn [_ <-]%lookup_singleton_Some.
  split; [done|]. split; [done|]. discriminate.
Qed.

Lemma disconnect_undoes_connect_witness :
  exists c1, ConnectBlock_coins demo_cache [demo_coinbase; demo_tx] 9 (demo_hash 30) =
      inr (c1, [[demo_coin 10]]) /\ cache_ok c1 /\ coins c1 = demo_after /\ best c1 = demo_hash 30 /\
    exists c2, DisconnectBlock [demo_coinbase; demo_tx] 9 (demo_hash 30) (demo_hash 31)
        (Some [[demo_coin 10]]) c1 = inr (c2, DISCONNECT_OK) /\
      cache_ok c2 /\ coins c2 = coins demo_cache /\ (IsNull (demo_hash 31) = false -> best c2 = demo_hash 31).
Proof.
  apply (disconnect_undoes_connect demo_cache demo_coinbase [demo_tx] 9 (demo_hash 30) (demo_hash 31)
    demo_after [[]; [demo_coin 10]]);
    [apply demo_cache_ok|apply demo_restorable|lia|reflexivity|reflexivity|by_eval|].
  rewrite (proj2 demo_cache_ok). by_eval.
Defined.

Lemma ApplyTxInUndo_overwrite_witness :
  ApplyTxInUndo (demo_coin 10) demo_cache (demo_point 0) = inl logic_error.
Proof.
  apply (ApplyTxInUndo_overwrite demo_cache (demo_coin 10) (demo_point 0) (demo_coin 10));
    [apply demo_cache_ok|rewrite (proj2 demo_cache_ok); by_eval| |reflexivity].
  split; [done|]. split; [done|]. discriminate.
Defined.
