(* ===== verification/TxCheck.v ===== *)
(** * Checks of transactions ([validation.cpp], [amount.h], [primitives/transaction.cpp])

    The checks that need no context, the lock times, and the checks of the inputs against a
    view of the unspent outputs. *)

From stdpp Require Import gmap strings.
From S2P Require Import Prelude Words Blob Serialize Transaction Coins Chain MedianTime ValidationState.

(** ** Amounts *)

Definition COIN : Z := 100000000.
Definition MAX_MONEY : Z := 21000000 * COIN.
Definition MoneyRange (nValue : Z) : bool := (0 <=? nValue) && (nValue <=? MAX_MONEY).

(** [GetValueOut]: the loop; [int64_t] additions wrap around as they do on the hardware. *)
Fixpoint value_out_loop (outs : list CTxOut) (nValueOut : Z) : throws Z :=
  match outs with
  | [] => mret nValueOut
  | o :: outs =>
      let nValueOut := s64 (nValueOut + nValue o) in
      if negb (MoneyRange (nValue o)) || negb (MoneyRange nValueOut) then inl runtime_error
      else value_out_loop outs nValueOut
  end.
Definition GetValueOut (tx : CTransaction) : throws Z := value_out_loop (vout tx) 0.

(** ** CheckTransaction *)

Definition MAX_LEGACY_BLOCK_SIZE : Z := 1000000.

(** The loop over the outputs; [None] when no check fails. *)
Fixpoint check_outputs (outs : list CTxOut) (nValueOut : Z) : option string :=
  match outs with
  | [] => None
  | o :: outs =>
      if nValue o <? 0 then Some "bad-txns-vout-negative"
      else if MAX_MONEY <? nValue o then Some "bad-txns-vout-toolarge"
      else
        let nValueOut := s64 (nValueOut + nValue o) in
        if negb (MoneyRange nValueOut) then Some "bad-txns-txouttotal-toolarge"
        else check_outputs outs nValueOut
  end.
(** The loop that finds an input twice. *)
Fixpoint duplicate_input (ins : list CTxIn) (vInOutPoints : gset COutPoint) : bool :=
  match ins with
  | [] => false
  | i :: ins =>
      if bool_decide (prevout i ∈ vInOutPoints) then true
      else duplicate_input ins ({[ prevout i ]} ∪ vInOutPoints)
  end.

Definition CheckTransaction (tx : CTransaction) (state : CValidationState) : bool * CValidationState :=
  if bool_decide (vin tx = []) then (false, DoS state 10 REJECT_INVALID "bad-txns-vin-empty")
  else if bool_decide (vout tx = []) then (false, DoS state 10 REJECT_INVALID "bad-txns-vout-empty")
  else if MAX_LEGACY_BLOCK_SIZE <? GetSerializeSize tx then (false, DoS state 100 REJECT_INVALID "bad-txns-oversize")
  else
    match check_outputs (vout tx) 0 with
    | Some reason => (false, DoS state 100 REJECT_INVALID reason)
    | None =>
        if duplicate_input (vin tx) ∅ then (false, DoS state 100 REJECT_INVALID "bad-txns-inputs-duplicate")
        else if IsCoinBase tx then
          match vin tx with
          | i :: _ =>
              if (Z.of_nat (length (scriptSig i)) <? 2) || (100 <? Z.of_nat (length (scriptSig i)))
              then (false, DoS state 100 REJECT_INVALID "bad-cb-length")
              else (true, state)
          | [] => (true, state)
          end
        else if existsb (fun i => COutPoint_IsNull (prevout i)) (vin tx)
        then (false, DoS state 10 REJECT_INVALID "bad-txns-prevout-null")
        else (true, state)
    end.

(** ** Lock times *)

Definition LOCKTIME_THRESHOLD : Z := 500000000.
Definition SEQUENCE_FINAL : Z := 0xffffffff.
Definition SEQUENCE_LOCKTIME_DISABLE_FLAG : Z := 1 << 31.
Definition SEQUENCE_LOCKTIME_TYPE_FLAG : Z := 1 << 22.
Definition SEQUENCE_LOCKTIME_MASK : Z := 0x0000ffff.
Definition SEQUENCE_LOCKTIME_GRANULARITY : Z := 9.
Definition LOCKTIME_VERIFY_SEQUENCE : Z := 1 << 0.

Definition IsFinalTx (tx : CTransaction) (nBlockHeight nBlockTime : Z) : bool :=
  if nLockTime tx =? 0 then true
  else if nLockTime tx <? (if nLockTime tx <? LOCKTIME_THRESHOLD then nBlockHeight else nBlockTime) then true
  else forallb (fun txin => nSequence txin =? SEQUENCE_FINAL) (vin tx).

(** The loop of [CalculateSequenceLocks] over the inputs and the heights of their coins, which
    it changes; [None] is a read through NULL. *)
Fixpoint lock_loop (s : store) (block : nat) (ins : list CTxIn) (prevHeights : list Z)
    (nMinHeight nMinTime : Z) : option (Z * Z * list Z) :=
  match ins, prevHeights with
  | i :: ins, nCoinHeight :: heights =>
      if negb (nSequence i .& SEQUENCE_LOCKTIME_DISABLE_FLAG =? 0) then
        '(h, t, hs) ← lock_loop s block ins heights nMinHeight nMinTime;
        Some (h, t, 0 :: hs)
      else if negb (nSequence i .& SEQUENCE_LOCKTIME_TYPE_FLAG =? 0) then
        p ← GetAncestor s block (Z.max (nCoinHeight - 1) 0);
        a ← p;
        nCoinTime ← GetMedianTimePast s a;
        let lock := u32 ((nSequence i .& SEQUENCE_LOCKTIME_MASK) << SEQUENCE_LOCKTIME_GRANULARITY) in
        '(h, t, hs) ← lock_loop s block ins heights nMinHeight (Z.max nMinTime (nCoinTime + lock - 1));
        Some (h, t, nCoinHeight :: hs)
      else
        '(h, t, hs) ← lock_loop s block ins heights
          (Z.max nMinHeight (nCoinHeight + (nSequence i .& SEQUENCE_LOCKTIME_MASK) - 1)) nMinTime;
        Some (h, t, nCoinHeight :: hs)
  | _, _ => Some (nMinHeight, nMinTime, [])
  end.
Definition CalculateSequenceLocks (s : store) (tx : CTransaction) (flags : Z) (prevHeights : list Z)
    (block : nat) : option (Z * Z * list Z) :=
  if negb (length prevHeights =? length (vin tx))%nat then None
  else if negb ((2 <=? u32 (tx_version tx)) && negb (flags .& LOCKTIME_VERIFY_SEQUENCE =? 0))
  then Some (-1, -1, prevHeights)
  else lock_loop s block (vin tx) prevHeights (-1) (-1).
Definition EvaluateSequenceLocks (s : store) (block : nat) (lockPair : Z * Z) : option bool :=
  b ← s !! block;
  q ← pprev b;
  nBlockTime ← GetMedianTimePast s q;
  Some (negb ((nHeight b <=? lockPair.1) || (nBlockTime <=? lockPair.2))).
Definition SequenceLocks (s : store) (tx : CTransaction) (flags : Z) (prevHeights : list Z) (block : nat)
    : option bool :=
  '(h, t, _) ← CalculateSequenceLocks s tx flags prevHeights block;
  EvaluateSequenceLocks s block (h, t).

(** ** CheckTxInputs *)

Definition COINBASE_MATURITY : Z := 100.

Section Inputs.
Context {V : Type} `{CoinsView V}.
Abbreviation cache := (CCoinsViewCache V).

(** The loop over the inputs: the sum of their values, or the validation state of the check
    that failed. *)
Fixpoint input_loop (c : cache) (ins : list CTxIn) (state : CValidationState) (nSpendHeight nValueIn : Z)
    : throws (cache * (CValidationState + Z)) :=
  match ins with
  | [] => mret (c, inr nValueIn)
  | i :: ins =>
      let '(c, cn) := AccessCoin c (prevout i) in
      if IsSpent cn then inl assertion_failed
      else if fCoinBase cn && (nSpendHeight - Coins.nHeight cn <? COINBASE_MATURITY)
      then mret (c, inl (Invalid state REJECT_INVALID "bad-txns-premature-spend-of-coinbase"))
      else
        let nValueIn := s64 (nValueIn + nValue (out cn)) in
        if negb (MoneyRange (nValue (out cn))) || negb (MoneyRange nValueIn)
        then mret (c, inl (DoS state 100 REJECT_INVALID "bad-txns-inputvalues-outofrange"))
        else input_loop c ins state nSpendHeight nValueIn
  end.

Definition CheckTxInputs (tx : CTransaction) (state : CValidationState) (c : cache) (nSpendHeight : Z)
    : throws (cache * (bool * CValidationState)) :=
  let '(c, have) := HaveInputs c tx in
  if negb have then mret (c, (false, Invalid state 0 EmptyString))
  else
    '(c, r) ← input_loop c (vin tx) state nSpendHeight 0;
    match r with
    | inl state => mret (c, (false, state))
    | inr nValueIn =>
        nValueOut ← GetValueOut tx;
        if nValueIn <? nValueOut then mret (c, (false, DoS state 100 REJECT_INVALID "bad-txns-in-belowout"))
        else
          let nTxFee := nValueIn - nValueOut in
          if nTxFee <? 0 then mret (c, (false, DoS state 100 REJECT_INVALID "bad-txns-fee-negative"))
          else
            let nFees := 0 + nTxFee in
            if negb (MoneyRange nFees) then mret (c, (false, DoS state 100 REJECT_INVALID "bad-txns-fee-outofrange"))
            else mret (c, (true, state))
    end.
End Inputs.

(** ** What the checks amount to *)

Definition value_of (outs : list CTxOut) : Z := foldr (fun o v => nValue o + v) 0 outs.
Definition in_range (v : Z) : Prop := 0 <= v <= MAX_MONEY.

(** A transaction that is valid by itself. *)
Record tx_valid (tx : CTransaction) : Prop := {
  valid_vin : vin tx <> [];
  valid_vout : vout tx <> [];
  valid_size : GetSerializeSize tx <= MAX_LEGACY_BLOCK_SIZE;
  valid_values : Forall (fun o => in_range (nValue o)) (vout tx);
  valid_total : value_of (vout tx) <= MAX_MONEY;
  valid_nodup : NoDup (prevout <$> vin tx);
  valid_coinbase : IsCoinBase tx = true ->
    Forall (fun i => 2 <= Z.of_nat (length (scriptSig i)) <= 100) (vin tx);
  valid_prevouts : IsCoinBase tx = false -> Forall (fun i => COutPoint_IsNull (prevout i) = false) (vin tx) }.

Lemma MoneyRange_spec v : MoneyRange v = true <-> in_range v.
Proof. unfold MoneyRange, in_range. rewrite andb_true_iff, !Z.leb_le. reflexivity. Qed.

Lemma MoneyRange_false v : MoneyRange v = false <-> ~ in_range v.
Proof. rewrite <- MoneyRange_spec. now destruct (MoneyRange v). Qed.

Lemma value_of_nonneg outs : Forall (fun o => in_range (nValue o)) outs -> 0 <= value_of outs.
Proof. unfold in_range. induction 1; cbn [value_of foldr] in *; [lia|]. unfold value_of in *. lia. Qed.

Lemma sum_in_range acc v : in_range acc -> in_range v -> s64 (acc + v) = acc + v.
Proof. unfold in_range, MAX_MONEY, COIN. intros. apply s64_small. lia. Qed.

Definition values_ok (outs : list CTxOut) (acc : Z) : Prop :=
  Forall (fun o => in_range (nValue o)) outs /\ acc + value_of outs <= MAX_MONEY.

Lemma values_ok_cons o outs acc : in_range acc ->
  values_ok (o :: outs) acc <-> in_range (nValue o) /\ in_range (acc + nValue o) /\ values_ok outs (acc + nValue o).
Proof.
  intros Ha. unfold values_ok. rewrite list.Forall_cons. cbn [value_of foldr]. fold (value_of outs). split.
  - intros [[Ho Hs] Ht]. pose proof (value_of_nonneg outs Hs). unfold in_range in *.
    split; [done|]. split; [lia|]. split; [done|lia].
  - intros (Ho & Hr & Hs & Ht). split; [done|lia].
Qed.

Lemma value_out_spec outs acc : in_range acc ->
  (values_ok outs acc -> value_out_loop outs acc = inr (acc + value_of outs)) /\
  (~ values_ok outs acc -> value_out_loop outs acc = inl runtime_error).
Proof.
  revert acc. induction outs as [|o outs IH]; intros acc Ha; cbn [value_out_loop].
  - split; [intros _; cbn; now rewrite Z.add_0_r|]. intros Hn. destruct Hn. split; [constructor|].
    unfold in_range in Ha. cbn. lia.
  - pose proof (values_ok_cons o outs acc Ha) as Hc. destruct (MoneyRange (nValue o)) eqn:Eo.
    + apply MoneyRange_spec in Eo. rewrite (sum_in_range acc _ Ha Eo).
      destruct (MoneyRange (acc + nValue o)) eqn:Es; cbn [negb orb].
      * apply MoneyRange_spec in Es. destruct (IH _ Es) as [H1 H2]. split.
        -- intros (_ & _ & Hv)%Hc. rewrite (H1 Hv). f_equal. cbn [value_of foldr]. unfold value_of. lia.
        -- intros Hn. apply H2. intros Hv. now apply Hn, Hc.
      * apply MoneyRange_false in Es. split; [now intros (_ & Hr & _)%Hc|done].
    + apply MoneyRange_false in Eo. split; [now intros (Hr & _)%Hc|done].
Qed.

Lemma check_outputs_spec outs acc : in_range acc -> check_outputs outs acc = None <-> values_ok outs acc.
Proof.
  revert acc. induction outs as [|o outs IH]; intros acc Ha; cbn [check_outputs].
  - split; [|done]. intros _. split; [constructor|]. unfold in_range in Ha. cbn. lia.
  - rewrite (values_ok_cons o outs acc Ha). destruct (Z.ltb_spec (nValue o) 0) as [Hn|Hn].
    { split; [done|]. intros [Hr _]. unfold in_range in Hr. lia. }
    destruct (Z.ltb_spec MAX_MONEY (nValue o)) as [Hm|Hm].
    { split; [done|]. intros [Hr _]. unfold in_range in Hr. lia. }
    assert (Ho : in_range (nValue o)) by (unfold in_range; lia). rewrite (sum_in_range acc _ Ha Ho).
    destruct (MoneyRange (acc + nValue o)) eqn:Es; cbn [negb].
    + apply MoneyRange_spec in Es. rewrite (IH _ Es). tauto.
    + apply MoneyRange_false in Es. split; [done|]. intros (_ & Hr & _). done.
Qed.

Lemma duplicate_input_spec ins seen : duplicate_input ins seen = false <->
  NoDup (prevout <$> ins) /\ Forall (fun i => prevout i ∉ seen) ins.
Proof.
  revert seen. induction ins as [|i ins IH]; intros seen; cbn [duplicate_input fmap list_fmap].
  - split; [|done]. intros _. split; constructor.
  - rewrite list.NoDup_cons, list.Forall_cons. destruct (decide (prevout i ∈ seen)) as [Hi|Hi].
    + rewrite bool_decide_true by done. split; [done|]. intros [_ [Hn _]]. done.
    + rewrite bool_decide_false by done. rewrite IH, !list.Forall_forall, list_elem_of_fmap. clear IH. split.
      * intros [Hd Hf]. split; [split; [|done]|split; [done|]].
        -- intros (j & Ej & Hj). specialize (Hf j Hj). set_solver.
        -- intros j Hj. specialize (Hf j Hj). set_solver.
      * intros [[Hni Hd] [_ Hf]]. split; [done|]. intros j Hj. specialize (Hf j Hj).
        apply not_elem_of_union. split; [|done]. apply not_elem_of_singleton. intros E. apply Hni. now exists j.
Qed.

Lemma existsb_null ins : existsb (fun i => COutPoint_IsNull (prevout i)) ins = false <->
  Forall (fun i => COutPoint_IsNull (prevout i) = false) ins.
Proof.
  induction ins as [|i ins IH]; cbn [existsb]; [split; [constructor|done]|].
  rewrite orb_false_iff, list.Forall_cons. now rewrite IH.
Qed.

Lemma in_range_0 : in_range 0.
Proof. unfold in_range, MAX_MONEY, COIN. lia. Qed.

Lemma coinbase_vin tx : IsCoinBase tx = true -> exists i, vin tx = [i].
Proof. unfold IsCoinBase. destruct (vin tx) as [|i [|]]; [done| |done]. now exists i. Qed.

Lemma CheckTransaction_spec tx state :
  (tx_valid tx /\ CheckTransaction tx state = (true, state)) \/
  (~ tx_valid tx /\ exists st, CheckTransaction tx state = (false, st) /\ mode st <> MODE_VALID).
Proof.
  unfold CheckTransaction.
  destruct (decide (vin tx = [])) as [Ei|Ei]; [rewrite bool_decide_true by done|rewrite bool_decide_false by done].
  { right. split; [now intros []|]. eexists. split; [reflexivity|apply DoS_invalid]. }
  destruct (decide (vout tx = [])) as [Eo|Eo]; [rewrite bool_decide_true by done|rewrite bool_decide_false by done].
  { right. split; [now intros []|]. eexists. split; [reflexivity|apply DoS_invalid]. }
  destruct (Z.ltb_spec MAX_LEGACY_BLOCK_SIZE (GetSerializeSize tx)) as [Hs|Hs].
  { right. split; [intros []; lia|]. eexists. split; [reflexivity|apply DoS_invalid]. }
  pose proof (check_outputs_spec (vout tx) 0 in_range_0) as Hc.
  destruct (check_outputs (vout tx) 0) as [reason|].
  { right. split; [|eexists; split; [reflexivity|apply DoS_invalid]]. intros [].
    assert (values_ok (vout tx) 0) as Hv by (split; [done|lia]). now apply Hc in Hv. }
  destruct (proj1 Hc eq_refl) as [Hv Ht]. pose proof (duplicate_input_spec (vin tx) ∅) as Hd.
  destruct (duplicate_input (vin tx) ∅).
  { right. split; [|eexists; split; [reflexivity|apply DoS_invalid]]. intros [].
    assert (true = false); [|done]. apply Hd. split; [done|]. apply list.Forall_forall. set_solver. }
  destruct (proj1 Hd eq_refl) as [Hnd _]. destruct (IsCoinBase tx) eqn:Ecb.
  - destruct (coinbase_vin tx Ecb) as [i Evin]. rewrite Evin.
    destruct ((Z.of_nat (length (scriptSig i)) <? 2) || (100 <? Z.of_nat (length (scriptSig i)))) eqn:El.
    + right. split; [|eexists; split; [reflexivity|apply DoS_invalid]]. intros []. rewrite Evin in *.
      specialize (valid_coinbase0 Ecb). apply Forall_cons_1 in valid_coinbase0 as [Hl _]. lia.
    + left. split; [|done]. constructor; try done; try lia; [|congruence]. intros _. rewrite Evin.
      constructor; [lia|constructor].
  - pose proof (existsb_null (vin tx)) as He. destruct (existsb _ _).
    + right. split; [|eexists; split; [reflexivity|apply DoS_invalid]]. intros [].
      specialize (valid_prevouts0 Ecb). now apply He in valid_prevouts0.
    + left. split; [|done]. constructor; try done; try lia; [congruence|]. intros _. now apply He.
Qed.

(** ** The inputs *)

(** The value of the coins that inputs spend; a missing coin counts as [coinEmpty]. *)
Definition value_in (m : gmap COutPoint Coin) (ins : list CTxIn) : Z :=
  foldr (fun i v => nValue (out (default coinEmpty (m !! prevout i))) + v) 0 ins.
Definition mature (h : Z) (cn : Coin) : Prop :=
  fCoinBase cn = true -> COINBASE_MATURITY <= h - Coins.nHeight cn.
Definition input_ok (m : gmap COutPoint Coin) (h : Z) (i : CTxIn) : Prop :=
  exists cn, m !! prevout i = Some cn /\ mature h cn /\ in_range (nValue (out cn)).

(** The inputs of a transaction exist, are mature, and are worth at least its outputs. *)
Definition inputs_valid (m : gmap COutPoint Coin) (h : Z) (tx : CTransaction) : Prop :=
  Forall (input_ok m h) (vin tx) /\ value_of (vout tx) <= value_in m (vin tx) <= MAX_MONEY.

Lemma value_in_nonneg m h ins : Forall (input_ok m h) ins -> 0 <= value_in m ins.
Proof.
  induction 1 as [|i ins (cn & E & _ & Hr) _ IH]; cbn [value_in foldr]; [lia|].
  rewrite E. fold (value_in m ins). cbn [default from_option id]. unfold in_range in Hr. lia.
Qed.

Section InputSpecs.
Context {V : Type} `{CoinsViewSpec V}.
Abbreviation cache := (CCoinsViewCache V).

Lemma AccessCoin_some (c : cache) o cn : cache_ok c -> coins c !! o = Some cn ->
  exists c', AccessCoin c o = (c', cn) /\ becomes c c' (coins c) /\ IsSpent cn = false.
Proof.
  intros Hc Ho. destruct (AccessCoin_spec c o Hc) as [Hb Hr]. pose proof (coins_unspent c o cn Hc Ho) as Hs.
  destruct (AccessCoin c o) as [c' cn']. cbn [fst snd] in *. rewrite Ho in Hr.
  destruct (IsSpent cn') eqn:E; [done|]. injection Hr as ->. now exists c'.
Qed.

Lemma have_all_spec (c : cache) ins : cache_ok c ->
  exists c', have_all c ins = (c', forallb (fun i => bool_decide (is_Some (coins c !! prevout i))) ins) /\
    becomes c c' (coins c).
Proof.
  revert c. induction ins as [|i ins IH]; intros c Hc; cbn [have_all forallb].
  { exists c. split; [done|now apply becomes_refl]. }
  destruct (HaveCoin_spec c (prevout i) Hc) as [Hb Er]. destruct (HaveCoin c (prevout i)) as [c1 b].
  cbn [fst snd] in *. subst b. destruct (bool_decide _); cbn [andb]; [|now exists c1].
  destruct Hb as (Hok & Em & Eb). destruct (IH c1 Hok) as (c2 & E2 & Hc2). rewrite Em in E2. exists c2.
  split; [done|]. rewrite Em in Hc2. now apply (becomes_trans c c1 c2 (coins c)).
Qed.

Lemma input_loop_spec (c : cache) ins state h acc : cache_ok c -> in_range acc ->
  Forall (fun i => is_Some (coins c !! prevout i)) ins ->
  exists c' r, input_loop c ins state h acc = inr (c', r) /\ becomes c c' (coins c) /\
    match r with
    | inr v => v = acc + value_in (coins c) ins /\ Forall (input_ok (coins c) h) ins /\ v <= MAX_MONEY
    | inl st => mode st <> MODE_VALID /\
        ~ (Forall (input_ok (coins c) h) ins /\ acc + value_in (coins c) ins <= MAX_MONEY)
    end.
Proof.
  intros Hc Ha Hex. revert c acc Hc Ha Hex. induction ins as [|i ins IH]; intros c acc Hc Ha Hex; cbn [input_loop].
  { eexists c, (inr acc). split; [done|]. split; [now apply becomes_refl|]. cbn. unfold in_range in Ha. split; [lia|]. split; [constructor|lia]. }
  apply Forall_cons_1 in Hex as [[cn Ho] Hex].
  destruct (AccessCoin_some c _ cn Hc Ho) as (c1 & -> & (Hok & Em & Eb) & ->).
  assert (Hone : input_ok (coins c) h i -> mature h cn /\ in_range (nValue (out cn)))
    by (intros (cn' & E & ?); rewrite Ho in E; now injection E as <-).
  assert (Hval : value_in (coins c) (i :: ins) = nValue (out cn) + value_in (coins c) ins)
    by (cbn [value_in foldr]; now rewrite Ho).
  destruct (fCoinBase cn && (h - Coins.nHeight cn <? COINBASE_MATURITY)) eqn:Emat.
  { eexists c1, (inl _). split; [reflexivity|]. split; [done|]. split; [apply DoS_invalid|].
    intros [Hf _]. apply Forall_cons_1 in Hf as [[Hm _]%Hone _]. apply andb_prop in Emat as [Ecb Hlt].
    specialize (Hm Ecb). lia. }
  assert (Hm : mature h cn) by (intros Ecb; rewrite Ecb in Emat; cbn in Emat; lia).
  destruct (MoneyRange (nValue (out cn))) eqn:Ev; cbn [negb orb].
  2:{ eexists c1, (inl _). split; [reflexivity|]. split; [done|]. split; [apply DoS_invalid|].
    apply MoneyRange_false in Ev. intros [Hf _]. now apply Forall_cons_1 in Hf as [[_ Hr]%Hone _]. }
  apply MoneyRange_spec in Ev. rewrite (sum_in_range acc _ Ha Ev).
  destruct (MoneyRange (acc + nValue (out cn))) eqn:Es; cbn [negb].
  2:{ eexists c1, (inl _). split; [reflexivity|]. split; [done|]. split; [apply DoS_invalid|].
    apply MoneyRange_false in Es. intros [Hf Ht]. apply Forall_cons_1 in Hf as [_ Hf].
    pose proof (value_in_nonneg _ _ _ Hf). unfold in_range in *. lia. }
  apply MoneyRange_spec in Es. rewrite <- Em in Hex.
  destruct (IH c1 (acc + nValue (out cn)) Hok Es Hex) as (c2 & r & -> & Hc2 & Hr). rewrite Em in Hr, Hc2.
  exists c2, r. split; [done|]. split; [now apply (becomes_trans c c1 c2 (coins c))|].
  assert (Hi : input_ok (coins c) h i) by now exists cn. rewrite Hval. destruct r as [st|v].
  - destruct Hr as [Hst Hn]. split; [done|]. intros [Hf Ht]. apply Forall_cons_1 in Hf as [_ Hf]. apply Hn. split; [done|lia].
  - destruct Hr as (-> & Hf & Ht). split; [lia|]. split; [now constructor|done].
Qed.

(** For a transaction that passed [CheckTransaction]. *)
Lemma CheckTxInputs_spec (c : cache) tx state h : cache_ok c -> tx_valid tx -> IsCoinBase tx = false ->
  exists c' ok st, CheckTxInputs tx state c h = inr (c', (ok, st)) /\ becomes c c' (coins c) /\
    (if ok : bool then st = state /\ inputs_valid (coins c) h tx
     else mode st <> MODE_VALID /\ ~ inputs_valid (coins c) h tx).
Proof.
  intros Hc Htx Hcb. unfold CheckTxInputs, HaveInputs. rewrite Hcb.
  destruct (have_all_spec c (vin tx) Hc) as (c1 & -> & Hok & Em & Eb).
  destruct (forallb _ _) eqn:Eall; cbn [negb].
  2:{ eexists c1, false, _. split; [reflexivity|]. split; [done|]. split; [apply DoS_invalid|].
    intros [Hf _]. assert (false = true); [|done]. rewrite <- Eall. apply forallb_forall. intros i Hi.
    apply list_elem_of_In in Hi. rewrite list.Forall_forall in Hf. destruct (Hf i Hi) as (cn & E & _).
    rewrite E. now apply bool_decide_true. }
  assert (Hex : Forall (fun i => is_Some (coins c1 !! prevout i)) (vin tx)).
  { apply list.Forall_forall. intros i Hi. rewrite Em. apply list_elem_of_In in Hi.
    apply (proj1 (forallb_forall _ _) Eall) in Hi. now apply bool_decide_eq_true in Hi. }
  destruct (input_loop_spec c1 (vin tx) state h 0 Hok in_range_0 Hex) as (c2 & r & -> & Hc2 & Hr).
  rewrite Em in Hr, Hc2. cbn [mbind throws_bind].
  assert (Hb : becomes c c2 (coins c)) by now apply (becomes_trans c c1 c2 (coins c)).
  destruct r as [st|v].
  { destruct Hr as [Hst Hn]. eexists c2, false, st. split; [reflexivity|]. split; [done|]. split; [done|].
    intros [Hf Ht]. apply Hn. split; [done|lia]. }
  destruct Hr as (-> & Hf & Ht). pose proof (value_in_nonneg _ _ _ Hf) as Hnn.
  unfold GetValueOut. destruct (value_out_spec (vout tx) 0 in_range_0) as [E _]. destruct Htx.
  rewrite E by (split; [done|lia]). cbn [mbind throws_bind]. pose proof (value_of_nonneg _ valid_values0) as Hvo.
  rewrite !Z.add_0_l in *. destruct (Z.ltb_spec (value_in (coins c) (vin tx)) (value_of (vout tx))) as [Hlt|Hge].
  { eexists c2, false, _. split; [reflexivity|]. split; [done|]. split; [apply DoS_invalid|]. intros [_ ?]. lia. }
  destruct (Z.ltb_spec (value_in (coins c) (vin tx) - value_of (vout tx)) 0); [lia|].
  assert (Em2 : MoneyRange (value_in (coins c) (vin tx) - value_of (vout tx)) = true)
    by (apply MoneyRange_spec; unfold in_range; lia).
  rewrite Em2. cbn [negb]. eexists c2, true, _. split; [reflexivity|]. split; [done|]. split; [done|].
  split; [done|lia].
Qed.
End InputSpecs.

(** ** Relative lock times *)

Section Locks.
Context (s : store) (Hwf : wf_store s) (block : nat) (b : CBlockIndex) (Hb : s !! block = Some b) (mt : Z).

(** What BIP68 asks for: an input whose sequence number is a lock time can be spent when as
    many blocks, or as many units of 512 seconds, as its low 16 bits say have passed since its
    coin; the time of a coin is the median time of the block before its block. *)
Definition lock_satisfied (i : CTxIn) (nCoinHeight : Z) : Prop :=
  let n := nSequence i mod 2 ^ 16 in
  Z.testbit (nSequence i) 31 = false ->
  if Z.testbit (nSequence i) 22 then
    exists a ta, up s (Z.to_nat (nHeight b - Z.max (nCoinHeight - 1) 0)) block = Some a /\
      GetMedianTimePast s a = Some ta /\ ta + 512 * n <= mt
  else nCoinHeight + n <= nHeight b.

Lemma lock_loop_spec ins heights minh mint : length heights = length ins ->
  Forall (fun h => 0 <= h <= nHeight b) heights ->
  exists h t hs, lock_loop s block ins heights minh mint = Some (h, t, hs) /\
    (h < nHeight b /\ t < mt <-> minh < nHeight b /\ mint < mt /\ Forall2 lock_satisfied ins heights).
Proof.
  revert heights minh mint. induction ins as [|i ins IH]; intros [|ch heights] minh mint Hl Hh; try done.
  { eexists _, _, _. split; [reflexivity|]. split; [intros [? ?]; repeat split; [done|done|constructor]|tauto]. }
  injection Hl as Hl. apply Forall_cons_1 in Hh as [Hch Hh]. cbn [lock_loop].
  unfold SEQUENCE_LOCKTIME_DISABLE_FLAG, SEQUENCE_LOCKTIME_TYPE_FLAG.
  rewrite !land_single_bit, !negb_involutive by lia.
  assert (Hn : nSequence i .& SEQUENCE_LOCKTIME_MASK = nSequence i mod 2 ^ 16) by apply (Z.land_ones _ 16 ltac:(lia)).
  rewrite Hn. pose proof (Z.mod_pos_bound (nSequence i) (2 ^ 16) ltac:(lia)) as Hm.
  destruct (Z.testbit (nSequence i) 31) eqn:E31.
  { destruct (IH heights minh mint Hl Hh) as (h & t & hs & -> & Hiff). eexists _, _, _. split; [reflexivity|].
    assert (Hone : lock_satisfied i ch) by (unfold lock_satisfied; congruence).
    rewrite Hiff, list.Forall2_cons. tauto. }
  destruct (Z.testbit (nSequence i) 22) eqn:E22.
  - rewrite (GetAncestor_spec s Hwf block b) by done.
    destruct (Z.ltb_spec (Z.max (ch - 1) 0) 0); [lia|].
    destruct (Z.ltb_spec (nHeight b) (Z.max (ch - 1) 0)); [lia|]. cbn [orb mbind option_bind].
    destruct (up_height s Hwf (Z.to_nat (nHeight b - Z.max (ch - 1) 0)) block b Hb ltac:(lia)) as (a & ba & Ea & Ha & _).
    rewrite Ea. cbn [mbind option_bind]. destruct (GetMedianTimePast_some s Hwf a ba Ha) as [ta Eta]. rewrite Eta.
    cbn [mbind option_bind]. unfold SEQUENCE_LOCKTIME_GRANULARITY.
    rewrite Z.shiftl_mul_pow2, u32_small by (unfold in_word; lia).
    destruct (IH heights minh (Z.max mint (ta + nSequence i mod 2 ^ 16 * 2 ^ 9 - 1)) Hl Hh) as (h & t & hs & -> & Hiff).
    eexists _, _, _. split; [reflexivity|].
    assert (Hone : lock_satisfied i ch <-> ta + 512 * (nSequence i mod 2 ^ 16) <= mt).
    { unfold lock_satisfied. rewrite E31, E22, Ea. split; [|intros Hle _; now exists a, ta].
      intros Hx. destruct (Hx eq_refl) as (a' & ta' & [= <-] & E & Hle). rewrite Eta in E. now injection E as <-. }
    rewrite Hiff, list.Forall2_cons, Hone. split; intros; destruct_and!; repeat split; try done; lia.
  - destruct (IH heights (Z.max minh (ch + nSequence i mod 2 ^ 16 - 1)) mint Hl Hh) as (h & t & hs & -> & Hiff).
    eexists _, _, _. split; [reflexivity|].
    assert (Hone : lock_satisfied i ch <-> ch + nSequence i mod 2 ^ 16 <= nHeight b)
      by (unfold lock_satisfied; rewrite E31, E22; tauto).
    rewrite Hiff, list.Forall2_cons, Hone. split; intros; destruct_and!; repeat split; try done; lia.
Qed.
End Locks.

(** ** Properties *)

(** [CheckTransaction] accepts a transaction exactly when it has inputs and outputs, at
    most a million bytes, output values and a total between 0 and [MAX_MONEY], no input
    twice, and either a coinbase script of 2 to 100 bytes or no input without an outpoint.
    The validation state is left alone then, and becomes invalid otherwise. *)
Theorem CheckTransaction_correct tx state :
  let '(ok, st) := CheckTransaction tx state in
  (ok = true <-> tx_valid tx) /\ (if ok then st = state else mode st <> MODE_VALID).
Proof.
  destruct (CheckTransaction_spec tx state) as [[Hv ->]|[Hv (st & -> & Hst)]]; (split; [|done]); now split.
Qed.

(** The decision of [SequenceLocks]. *)
Lemma SequenceLocks_spec s tx flags heights block b q mt :
  wf_store s -> s !! block = Some b -> pprev b = Some q -> GetMedianTimePast s q = Some mt -> 0 <= mt ->
  length heights = length (vin tx) -> Forall (fun h => 0 <= h <= nHeight b) heights ->
  exists r, SequenceLocks s tx flags heights block = Some r /\
    (r = true <-> (2 <= u32 (tx_version tx) -> Z.testbit flags 0 = true ->
                   Forall2 (lock_satisfied s block b mt) (vin tx) heights)).
Proof.
  intros Hwf Hb Hq Hmt Hpos Hl Hh. pose proof (eo_height _ _ _ (Hwf block b Hb)) as Hhb.
  unfold SequenceLocks, CalculateSequenceLocks, EvaluateSequenceLocks, LOCKTIME_VERIFY_SEQUENCE.
  rewrite (proj2 (Nat.eqb_eq _ _) Hl), land_single_bit, negb_involutive by lia. cbn [negb].
  destruct ((2 <=? u32 (tx_version tx)) && Z.testbit flags 0) eqn:Ef; cbn [negb].
  - destruct (lock_loop_spec s Hwf block b Hb mt (vin tx) heights (-1) (-1) Hl Hh) as (h & t & hs & -> & Hiff).
    cbn [mbind option_bind]. rewrite Hb. cbn [mbind option_bind]. rewrite Hq. cbn [mbind option_bind]. rewrite Hmt.
    cbn [mbind option_bind fst snd]. eexists. split; [reflexivity|]. apply andb_prop in Ef as [E1 E2].
    rewrite negb_true_iff, orb_false_iff, !Z.leb_gt, Hiff. split; [now intros (_ & _ & Hf)|].
    intros Hf. split; [lia|]. split; [lia|]. apply Hf; [lia|done].
  - cbn [mbind option_bind]. rewrite Hb. cbn [mbind option_bind]. rewrite Hq. cbn [mbind option_bind]. rewrite Hmt.
    cbn [mbind option_bind fst snd]. eexists. split; [reflexivity|].
    rewrite negb_true_iff, orb_false_iff, !Z.leb_gt. split; [|lia]. intros _ Hv Hfl.
    rewrite Hfl, andb_true_r in Ef. lia.
Qed.

(** For a block whose entry, like those of its ancestors, is well formed, and coins of
    heights up to its own, [SequenceLocks] is always decided, and holds exactly when BIP68 is
    off for the transaction or every input with a relative lock time is old enough. *)
Theorem SequenceLocks_correct s tx flags heights block b q mt :
  wf_store s -> s !! block = Some b -> pprev b = Some q -> GetMedianTimePast s q = Some mt -> 0 <= mt ->
  length heights = length (vin tx) -> Forall (fun h => 0 <= h <= nHeight b) heights ->
  exists r, SequenceLocks s tx flags heights block = Some r /\
    (r = true <-> (2 <= u32 (tx_version tx) -> Z.testbit flags 0 = true ->
                   Forall2 (lock_satisfied s block b mt) (vin tx) heights)).
Proof. apply SequenceLocks_spec. Qed.

(** One input is locked for 5 blocks, one for 2 units of 512 seconds. *)
Definition demo_locked : CTransaction :=
  mk_tx 2 [mk_txin (mk_outpoint (replicate 32 1) 0) [] 5;
           mk_txin (mk_outpoint (replicate 32 2) 0) [] (0x400000 + 2)] [] 0 null_hash.

Lemma SequenceLocks_correct_witness :
  SequenceLocks (demo_store 40) demo_locked 1 [30; 20] 39 = Some true /\
  exists r, SequenceLocks (demo_store 40) demo_locked 1 [30; 20] 39 = Some r /\
    (r = true <-> (2 <= u32 (tx_version demo_locked) -> Z.testbit 1 0 = true ->
      Forall2 (lock_satisfied (demo_store 40) 39 (demo_entry 39) (1000 + 150 * 33)) (vin demo_locked) [30; 20])).
Proof.
  split; [vm_compute; reflexivity|].
  apply (SequenceLocks_correct (demo_store 40) demo_locked 1 [30; 20] 39 (demo_entry 39) 38 (1000 + 150 * 33));
    [apply demo_wf|reflexivity|reflexivity|vm_compute; reflexivity|lia|reflexivity|by_eval].
Defined.
