(* ===== verification/CheckBlock.v ===== *)
(** * Checks of blocks ([validation.cpp], [primitives/block.h])

    Blocks, the checks of [CheckBlock] that need nothing but the block, and the ones of
    [ContextualCheckBlock] that need its predecessors. *)

From Corelib Require Import SpecFloat.
From stdpp Require Import gmap strings.
From S2P Require Import Prelude Words Blob Serialize Transaction Script Merkle PowHash Chain MedianTime Pow.
From S2P Require Import VersionBits AddBlock ValidationState HeaderCheck TxCheck Undo.

(** ** Blocks *)

(** The payments that a miner notes in a block ([txoutMasternode], [voutSuperblock]) are left out. *)
Record CBlock := mk_block { block_header : CBlockHeader; vtx : list CTransaction; fChecked : bool }.

Definition Serialize_CBlockHeader (h : CBlockHeader) : list Z :=
  Serialize_int32 (PowHash.nVersion h) ++ hashPrevBlock h ++ PowHash.hashMerkleRoot h ++
  ser_writedata32 (PowHash.nTime h) ++ ser_writedata32 (PowHash.nBits h) ++ ser_writedata32 (PowHash.nNonce h).
Definition Serialize_CBlock (b : CBlock) : list Z :=
  Serialize_CBlockHeader (block_header b) ++ Serialize_vector (vtx b).

Section Unserialize.
Context {S : Type} `{Stream S}.

Definition Unserialize_CBlockHeader (s : S) : throws (CBlockHeader * S) :=
  '(v, s) ← Unserialize_int32 s;
  '(hprev, s) ← stream_read s 32;
  '(root, s) ← stream_read s 32;
  '(t, s) ← ser_readdata32 s;
  '(bits, s) ← ser_readdata32 s;
  '(nonce, s) ← ser_readdata32 s;
  mret (mk_header v hprev root t bits nonce, s).
(** Into a block that was not checked. *)
Definition Unserialize_CBlock (s : S) : throws (CBlock * S) :=
  '(h, s) ← Unserialize_CBlockHeader s;
  '(txs, s) ← Unserialize_vector sizeof_CTransaction s;
  mret (mk_block h txs false, s).
End Unserialize.

#[export] Instance CBlock_serializable : Serializable CBlock := {
  Serialize := Serialize_CBlock; Unserialize := @Unserialize_CBlock }.

(** ** Limits *)

Definition MaxBlockSize (fDIP0001Active : bool) : Z :=
  if fDIP0001Active then MAX_DIP0001_BLOCK_SIZE else MAX_LEGACY_BLOCK_SIZE.
Definition MaxBlockSigOps (fDIP0001Active : bool) : Z := MaxBlockSize fDIP0001Active / 50.
Definition MAX_STANDARD_TX_SIZE : Z := 100000.
Definition SPORK_3_INSTANTSEND_BLOCK_FILTERING : Z := 10002.

(** The size limits, in both checks. *)
Definition bad_block_length (block : CBlock) (nMaxBlockSize : Z) : bool :=
  (length (vtx block) =? 0)%nat || (nMaxBlockSize <? Z.of_nat (length (vtx block))) ||
  (nMaxBlockSize <? GetSerializeSize block).

Definition GetLegacySigOpCount (tx : CTransaction) : Z :=
  let nSigOps := fold_left (fun n i => u32 (n + GetSigOpCount (scriptSig i) false)) (vin tx) 0 in
  fold_left (fun n o => u32 (n + GetSigOpCount (scriptPubKey o) false)) (vout tx) nSigOps.

(** ** CheckBlock *)

(** What the check asks of InstantSend and the sporks: whether blocks are filtered, and the
    transaction that an outpoint is locked for. *)
Record lock_view := mk_lock_view {
  filtering : bool;       (* IsSporkActive(SPORK_3_INSTANTSEND_BLOCK_FILTERING) *)
  GetLockedOutPointTxHash : COutPoint -> option (list Z) }.

(** The loop over the inputs of a transaction. *)
Definition conflicts (env : lock_view) (tx : CTransaction) : bool :=
  negb (IsCoinBase tx) &&
  existsb (fun txin => match GetLockedOutPointTxHash env (prevout txin) with
                       | Some hashLocked => negb (blob_eq hashLocked (tx_hash tx))
                       | None => false
                       end) (vin tx).

Fixpoint check_transactions (txs : list CTransaction) (state : CValidationState) : bool * CValidationState :=
  match txs with
  | [] => (true, state)
  | tx :: txs =>
      let '(ok, state) := CheckTransaction tx state in
      if negb ok then (false, state) else check_transactions txs state
  end.

Definition legacy_sigops (txs : list CTransaction) : Z :=
  fold_left (fun n tx => u32 (n + GetLegacySigOpCount tx)) txs 0.

(** The check of the Merkle root: the reason to reject the block, if any. *)
Definition bad_merkle_root (block : CBlock) : option (option string) :=
  '(hashMerkleRoot2, mutated) ← BlockMerkleRoot tx_hash (vtx block);
  Some (if negb (blob_eq (PowHash.hashMerkleRoot (block_header block)) hashMerkleRoot2) then Some "bad-txnmrklroot"
        else if mutated : bool then Some "bad-txns-duplicate" else None)%string.

(** The result of a check of a block: the state after it, the block with its flag, and whether
    its hash was put into [mapRejectedBlocks]. *)
Record block_check := mk_check {
  accepted : bool;
  check_state : CValidationState;
  checked_block : CBlock;
  noted_rejected : bool }.

Section CheckBlock.
Context (GetHash : CBlockHeader -> list Z) (params : CChainParams) (adjusted_time : Z) (env : lock_view).

(** The checks after the one of the Merkle root: the result, and whether a lock is violated. *)
Definition check_contents (block : CBlock) (state : CValidationState) : bool * CValidationState * bool :=
  if bad_block_length block (MaxBlockSize true) then (false, DoS state 100 REJECT_INVALID "bad-blk-length", false)
  else
    match vtx block with
    | [] => (false, DoS state 100 REJECT_INVALID "bad-cb-missing", false)
    | tx0 :: txs =>
        if negb (IsCoinBase tx0) then (false, DoS state 100 REJECT_INVALID "bad-cb-missing", false)
        else if existsb IsCoinBase txs then (false, DoS state 100 REJECT_INVALID "bad-cb-multiple", false)
        else if filtering env && existsb (conflicts env) (vtx block)
        then (false, DoS state 0 REJECT_INVALID "conflict-tx-lock", true)
        else
          let '(ok, state) := check_transactions (vtx block) state in
          if negb ok then (false, state, false)
          else if MaxBlockSigOps true <? legacy_sigops (vtx block)
          then (false, DoS state 100 REJECT_INVALID "bad-blk-sigops", false)
          else (true, state, false)
    end.

Definition CheckBlock (block : CBlock) (state : CValidationState) (fCheckPOW fCheckMerkleRoot : bool)
    : option block_check :=
  if fChecked block then Some (mk_check true state block false)
  else
    let '(ok, state) := CheckBlockHeader GetHash params adjusted_time (block_header block) state fCheckPOW in
    if negb ok then Some (mk_check false state block false)
    else
      reason ← (if fCheckMerkleRoot then bad_merkle_root block else Some None);
      match reason with
      | Some reason => Some (mk_check false (DoS_corruption state 100 REJECT_INVALID reason true) block false)
      | None =>
          let '(ok, state, rejected) := check_contents block state in
          if negb ok then Some (mk_check false state block rejected)
          else
            let checked := fChecked block || (fCheckPOW && fCheckMerkleRoot) in
            Some (mk_check true state (mk_block (block_header block) (vtx block) checked) false)
      end.

(** ** ContextualCheckBlock *)

Definition DEPLOYMENT_CSV : nat := 1.
Definition DEPLOYMENT_DIP0001 : nat := 2.

(** The loop over the transactions. *)
Fixpoint contextual_txs (fDIP0001Active_context : bool) (nHeight nLockTimeCutoff : Z)
    (txs : list CTransaction) (state : CValidationState) (nSigOps : Z) : CValidationState + Z :=
  match txs with
  | [] => inr nSigOps
  | tx :: txs =>
      if negb (IsFinalTx tx nHeight nLockTimeCutoff)
      then inl (DoS state 10 REJECT_INVALID "bad-txns-nonfinal")
      else if fDIP0001Active_context && (MAX_STANDARD_TX_SIZE <? GetSerializeSize tx)
      then inl (DoS state 100 REJECT_INVALID "bad-txns-oversized")
      else contextual_txs fDIP0001Active_context nHeight nLockTimeCutoff txs state
             (u32 (nSigOps + GetLegacySigOpCount tx))
  end.

(** Whether the coinbase does not start with the height; [None] is a block without a coinbase. *)
Definition bad_height (block : CBlock) (nHeight : Z) : option bool :=
  tx0 ← head (vtx block);
  i ← head (vin tx0);
  Some (negb (bool_decide (push_int64 nHeight `prefix_of` scriptSig i))).

(** [nMajorityEnforceBlockUpgrade] is a parameter of the network like those in [params]. *)
Definition ContextualCheckBlock (nMajorityEnforceBlockUpgrade : Z) (bip9 : BIP9Params) (s : store)
    (block : CBlock) (state : CValidationState) (pindexPrev : ptr) (versionbitscache : VersionBitsCache)
    : option (bool * CValidationState * VersionBitsCache) :=
  nHeight ← match pindexPrev with None => Some 0 | Some p => b ← s !! p; Some (Chain.nHeight b + 1) end;
  '(cache, csv) ← VersionBitsState bip9 s pindexPrev DEPLOYMENT_CSV versionbitscache;
  nLockTimeCutoff ← (if bool_decide (csv = THRESHOLD_ACTIVE) then p ← pindexPrev; GetMedianTimePast s p
                     else Some (PowHash.nTime (block_header block)));
  '(cache, dip) ← VersionBitsState bip9 s pindexPrev DEPLOYMENT_DIP0001 cache;
  let fDIP0001Active_context := bool_decide (dip = THRESHOLD_ACTIVE) in
  if bad_block_length block (MaxBlockSize fDIP0001Active_context)
  then Some (false, DoS state 100 REJECT_INVALID "bad-blk-length", cache)
  else
    match contextual_txs fDIP0001Active_context nHeight nLockTimeCutoff (vtx block) state 0 with
    | inl state => Some (false, state, cache)
    | inr nSigOps =>
        if MaxBlockSigOps fDIP0001Active_context <? nSigOps
        then Some (false, DoS state 100 REJECT_INVALID "bad-blk-sigops", cache)
        else
          enforce ← (if 2 <=? PowHash.nVersion (block_header block)
                     then IsSuperMajority params s 2 pindexPrev (u32 nMajorityEnforceBlockUpgrade)
                     else Some false);
          bad ← (if enforce : bool then bad_height block nHeight else Some false);
          if bad : bool then Some (false, DoS state 100 REJECT_INVALID "bad-cb-height", cache)
          else Some (true, state, cache)
    end.
End CheckBlock.

(** ** Counting signature operations without overflow *)

Definition sum_of {A} (f : A -> Z) (l : list A) : Z := foldr (fun a n => f a + n) 0 l.

Lemma sum_of_cons {A} (f : A -> Z) a l : sum_of f (a :: l) = f a + sum_of f l.
Proof. reflexivity. Qed.

Lemma sum_of_nonneg {A} (f : A -> Z) l : (forall a, 0 <= f a) -> 0 <= sum_of f l.
Proof. intros Hf. unfold sum_of. induction l as [|a l IH]; cbn [foldr]; [lia|]. specialize (Hf a). lia. Qed.

Lemma sum_of_le {A} (f g : A -> Z) l : (forall a, f a <= g a) -> sum_of f l <= sum_of g l.
Proof. intros Hf. unfold sum_of. induction l as [|a l IH]; cbn [foldr]; [lia|]. specialize (Hf a). lia. Qed.

Lemma sum_of_scale {A} k (f : A -> Z) l : sum_of (fun a => k * f a) l = k * sum_of f l.
Proof. unfold sum_of. induction l as [|a l IH]; cbn [foldr]; lia. Qed.

Lemma length_mjoin {A} (f : A -> list Z) l : Z.of_nat (length (mjoin (f <$> l))) = sum_of (fun a => Z.of_nat (length (f a))) l.
Proof.
  unfold sum_of. induction l as [|a l IH]; [done|].
  change (mjoin (f <$> a :: l)) with (f a ++ mjoin (f <$> l)). rewrite length_app. cbn [foldr]. lia.
Qed.

Lemma fold_u32 {A} (f g : A -> Z) l n : (forall a, 0 <= g a) -> 0 <= n -> n + sum_of g l < 2 ^ 32 ->
  Forall (fun a => f a = g a) l -> fold_left (fun n a => u32 (n + f a)) l n = n + sum_of g l.
Proof.
  intros Hg Hn Hlt Hl. revert n Hn Hlt. induction Hl as [|a l E Hl IH]; intros n Hn Hlt; cbn [fold_left sum_of foldr] in *; [lia|].
  fold (sum_of g l) in *. pose proof (Hg a). pose proof (sum_of_nonneg g l Hg).
  rewrite E, u32_small, IH by (unfold in_word; lia). lia.
Qed.

(** The signature operations of a transaction, and the size of its scripts. *)
Definition sigops_in (script : CScript) : Z := GetSigOpCount script false.
Definition tx_sigops (tx : CTransaction) : Z :=
  sum_of (fun i => sigops_in (scriptSig i)) (vin tx) + sum_of (fun o => sigops_in (scriptPubKey o)) (vout tx).
Definition script_bytes (tx : CTransaction) : Z :=
  sum_of (fun i => Z.of_nat (length (scriptSig i))) (vin tx) +
  sum_of (fun o => Z.of_nat (length (scriptPubKey o))) (vout tx).

Lemma sum_of_bound {A} (f g : A -> Z) l k : (forall a, g a < k -> f a <= g a) -> (forall a, 0 <= g a) ->
  sum_of g l < k -> sum_of f l <= sum_of g l.
Proof.
  intros Hf Hg. unfold sum_of. induction l as [|a l IH]; cbn [foldr]; [lia|]. intros Hk.
  pose proof (Hf a). pose proof (Hg a). pose proof (sum_of_nonneg g l Hg) as Hn. unfold sum_of in Hn. lia.
Qed.

Lemma sigops_in_bounds script : 0 <= sigops_in script.
Proof.
  unfold sigops_in, GetSigOpCount. generalize OP_INVALIDOPCODE at 1. generalize (length script) at 1.
  assert (H : forall fuel pc last n, 0 <= n -> 0 <= sigop_loop fuel false pc last n); [|intros; now apply H].
  induction fuel as [|fuel IH]; intros pc last n Hn; cbn [sigop_loop]; [done|]. destruct pc as [|b pc]; [done|].
  destruct (GetOp2 (b :: pc)) as [[[op d] pc']|]; [|done]. apply IH.
  destruct (_ || _); [apply in_word_u32|]. destruct (_ || _); [|done]. destruct (_ && _); apply in_word_u32.
Qed.

Lemma sum_of_app {A} (f : A -> Z) l l' : sum_of f (l ++ l') = sum_of f l + sum_of f l'.
Proof. unfold sum_of. induction l as [|a l IH]; cbn [app foldr]; lia. Qed.

Lemma length_Serialize_bytes v : Z.of_nat (length v) <= Z.of_nat (length (Serialize_bytes v)).
Proof. unfold Serialize_bytes. rewrite length_app. lia. Qed.

Lemma vector_size {A} `{Serializable A} (f : A -> Z) l : (forall a, f a <= GetSerializeSize a) ->
  sum_of f l <= Z.of_nat (length (Serialize_vector l)).
Proof.
  intros Hf. unfold Serialize_vector. rewrite length_app, Nat2Z.inj_add, length_mjoin.
  pose proof (sum_of_le f (fun a => Z.of_nat (length (Serialize a))) l Hf). lia.
Qed.

Lemma script_bytes_size tx : script_bytes tx <= GetSerializeSize tx.
Proof.
  unfold script_bytes, GetSerializeSize. cbn [Serialize CTransaction_serializable]. unfold Serialize_CTransaction.
  rewrite !length_app.
  assert (Hi : forall i : CTxIn, Z.of_nat (length (scriptSig i)) <= GetSerializeSize i).
  { intros i. unfold GetSerializeSize. cbn [Serialize CTxIn_serializable]. unfold Serialize_CTxIn. rewrite !length_app.
    pose proof (length_Serialize_bytes (scriptSig i)). lia. }
  assert (Ho : forall o : CTxOut, Z.of_nat (length (scriptPubKey o)) <= GetSerializeSize o).
  { intros o. unfold GetSerializeSize. cbn [Serialize CTxOut_serializable]. unfold Serialize_CTxOut. rewrite !length_app.
    pose proof (length_Serialize_bytes (scriptPubKey o)). lia. }
  pose proof (vector_size _ (vin tx) Hi). pose proof (vector_size _ (vout tx) Ho). lia.
Qed.

Lemma block_bytes_size b : sum_of script_bytes (vtx b) <= GetSerializeSize b.
Proof.
  unfold GetSerializeSize. cbn [Serialize CBlock_serializable]. unfold Serialize_CBlock. rewrite length_app.
  pose proof (vector_size script_bytes (vtx b) script_bytes_size). lia.
Qed.

Lemma tx_sigops_bounds tx : 0 <= tx_sigops tx.
Proof.
  unfold tx_sigops. pose proof (sum_of_nonneg (fun i => sigops_in (scriptSig i)) (vin tx) (fun i => sigops_in_bounds _)).
  pose proof (sum_of_nonneg (fun o => sigops_in (scriptPubKey o)) (vout tx) (fun o => sigops_in_bounds _)). lia.
Qed.

Lemma scripts_sigops {A} (script : A -> CScript) l :
  20 * sum_of (fun a => Z.of_nat (length (script a))) l < 2 ^ 32 ->
  sum_of (fun a => sigops_in (script a)) l <= 20 * sum_of (fun a => Z.of_nat (length (script a))) l.
Proof.
  intros H. rewrite <- sum_of_scale in H |- *. apply (sum_of_bound _ _ l (2 ^ 32)); [|intros; lia|done].
  intros a Ha. now apply GetSigOpCount_bounds.
Qed.

Lemma lengths_nonneg {A} (script : A -> CScript) l : 0 <= sum_of (fun a => Z.of_nat (length (script a))) l.
Proof. apply sum_of_nonneg. intros. lia. Qed.

Lemma script_bytes_nonneg tx : 0 <= script_bytes tx.
Proof. apply Z.add_nonneg_nonneg; apply lengths_nonneg. Qed.

Lemma tx_sigops_le tx : 20 * script_bytes tx < 2 ^ 32 -> tx_sigops tx <= 20 * script_bytes tx.
Proof.
  intros H. unfold script_bytes, tx_sigops in *.
  pose proof (lengths_nonneg scriptSig (vin tx)). pose proof (lengths_nonneg scriptPubKey (vout tx)).
  pose proof (scripts_sigops scriptSig (vin tx) ltac:(lia)). pose proof (scripts_sigops scriptPubKey (vout tx) ltac:(lia)). lia.
Qed.

(** The counters of 32 bits are exact. *)
Lemma GetLegacySigOpCount_exact tx : 20 * script_bytes tx < 2 ^ 32 -> GetLegacySigOpCount tx = tx_sigops tx.
Proof.
  intros H. pose proof (tx_sigops_le tx H) as Hle. unfold GetLegacySigOpCount, tx_sigops in *.
  pose proof (sum_of_nonneg (fun i => sigops_in (scriptSig i)) (vin tx) (fun i => sigops_in_bounds _)).
  pose proof (sum_of_nonneg (fun o => sigops_in (scriptPubKey o)) (vout tx) (fun o => sigops_in_bounds _)).
  rewrite (fold_u32 (fun i => GetSigOpCount (scriptSig i) false) (fun i => sigops_in (scriptSig i)));
    [|intros; apply sigops_in_bounds|lia|lia|now apply list.Forall_forall].
  rewrite (fold_u32 (fun o => GetSigOpCount (scriptPubKey o) false) (fun o => sigops_in (scriptPubKey o)));
    [lia|intros; apply sigops_in_bounds|lia|lia|now apply list.Forall_forall].
Qed.

Lemma sum_script_bytes_tail tx txs : 20 * sum_of script_bytes (tx :: txs) < 2 ^ 32 ->
  20 * script_bytes tx < 2 ^ 32 /\ 20 * sum_of script_bytes txs < 2 ^ 32.
Proof.
  unfold sum_of. cbn [foldr]. fold (sum_of script_bytes txs). pose proof (script_bytes_nonneg tx).
  pose proof (sum_of_nonneg script_bytes txs script_bytes_nonneg). lia.
Qed.

Lemma txs_sigops txs : 20 * sum_of script_bytes txs < 2 ^ 32 ->
  Forall (fun tx => GetLegacySigOpCount tx = tx_sigops tx) txs /\
  sum_of tx_sigops txs <= 20 * sum_of script_bytes txs.
Proof.
  induction txs as [|tx txs IH]; [split; [constructor|done]|]. intros H. destruct (sum_script_bytes_tail tx txs H) as [H1 H2].
  destruct (IH H2) as [IH1 IH2]. split; [constructor; [now apply GetLegacySigOpCount_exact|done]|].
  pose proof (tx_sigops_le tx H1). unfold sum_of in *. cbn [foldr]. lia.
Qed.

Lemma legacy_sigops_exact block : GetSerializeSize block <= 2 * 10 ^ 8 -> legacy_sigops (vtx block) = sum_of tx_sigops (vtx block).
Proof.
  intros H. pose proof (block_bytes_size block). destruct (txs_sigops (vtx block) ltac:(lia)) as [Hall Hle].
  unfold legacy_sigops. rewrite (fold_u32 _ tx_sigops); [lia|apply tx_sigops_bounds|lia|lia|exact Hall].
Qed.

(** ** What the checks amount to *)

(** No input of a transaction is locked for another one. *)
Definition respects_locks (env : lock_view) (tx : CTransaction) : Prop :=
  IsCoinBase tx = false -> forall i h, i ∈ vin tx -> GetLockedOutPointTxHash env (prevout i) = Some h ->
    blob_eq h (tx_hash tx) = true.

Lemma conflicts_spec env tx : conflicts env tx = false <-> respects_locks env tx.
Proof.
  unfold conflicts, respects_locks. destruct (IsCoinBase tx); cbn [negb andb]; [done|].
  transitivity (Forall (fun i => forall h, GetLockedOutPointTxHash env (prevout i) = Some h -> blob_eq h (tx_hash tx) = true) (vin tx)).
  - induction (vin tx) as [|i l IH]; cbn [existsb]; [split; [constructor|done]|].
    rewrite orb_false_iff, list.Forall_cons, IH. destruct (GetLockedOutPointTxHash env (prevout i)) as [h|].
    + rewrite negb_false_iff. split; [intros [H1 H2]; split; [|done]; now intros h' [= <-]|]. intros [H1 H2]. split; [now apply H1|done].
    + split; [intros [_ H2]|]; now split.
  - rewrite list.Forall_forall. split; [intros H _ i h Hi; now apply H|intros H i Hi h; now apply H].
Qed.

Lemma existsb_false {A} (p : A -> bool) l : existsb p l = false <-> Forall (fun a => p a = false) l.
Proof. induction l as [|a l IH]; cbn [existsb]; [split; [constructor|done]|]. now rewrite orb_false_iff, list.Forall_cons, IH. Qed.

Lemma check_transactions_spec txs state : exists ok st, check_transactions txs state = (ok, st) /\
  (ok = true <-> Forall tx_valid txs) /\ (if ok then st = state else mode st <> MODE_VALID).
Proof.
  induction txs as [|tx txs IH]; cbn [check_transactions]; [now exists true, state|].
  destruct (CheckTransaction_spec tx state) as [[Hv ->]|[Hv (st & -> & Hst)]]; cbn [negb].
  - destruct IH as (ok & st & -> & Hok & Hst). exists ok, st. split; [done|]. split; [|done]. rewrite Hok, list.Forall_cons. tauto.
  - exists false, st. split; [done|]. split; [|done]. split; [done|]. now intros [? _]%Forall_cons_1.
Qed.

(** One coinbase transaction, the first. *)
Definition one_coinbase (txs : list CTransaction) : Prop :=
  exists tx0 rest, txs = tx0 :: rest /\ IsCoinBase tx0 = true /\ Forall (fun tx => IsCoinBase tx = false) rest.

Record contents_valid (env : lock_view) (block : CBlock) : Prop := {
  bv_count : Z.of_nat (length (vtx block)) <= MAX_DIP0001_BLOCK_SIZE;
  bv_size : GetSerializeSize block <= MAX_DIP0001_BLOCK_SIZE;
  bv_coinbase : one_coinbase (vtx block);
  bv_locks : filtering env = true -> Forall (respects_locks env) (vtx block);
  bv_txs : Forall tx_valid (vtx block);
  bv_sigops : sum_of tx_sigops (vtx block) <= MAX_DIP0001_BLOCK_SIZE / 50 }.

Lemma check_contents_spec env block state : exists ok st rej, check_contents env block state = (ok, st, rej) /\
  (ok = true <-> contents_valid env block) /\ (if ok then st = state /\ rej = false else mode st <> MODE_VALID).
Proof.
  assert (Hno : forall st rej, mode st <> MODE_VALID -> ~ contents_valid env block -> exists ok st' rej',
    (false, st, rej) = (ok, st', rej') /\ (ok = true <-> contents_valid env block) /\
    (if ok : bool then st' = state /\ rej' = false else mode st' <> MODE_VALID)) by (intros st rej Hst Hv; now exists false, st, rej).
  unfold check_contents. destruct (bad_block_length block (MaxBlockSize true)) eqn:El.
  { apply Hno; [apply DoS_invalid|]. intros [Hc Hs Hb _ _ _]. unfold bad_block_length in El. cbn [MaxBlockSize] in El.
    destruct Hb as (tx0 & rest & Hb & _).
    apply orb_true_iff in El as [[El|El]%orb_true_iff|El]; [|lia|lia]. rewrite Hb in El. done. }
  apply orb_false_iff in El as [[_ Ec]%orb_false_iff Es]. cbn [MaxBlockSize] in *.
  destruct (vtx block) as [|tx0 txs] eqn:Ev.
  { apply Hno; [apply DoS_invalid|]. intros [_ _ (tx0 & rest & Hb & _) _ _ _]. congruence. }
  destruct (IsCoinBase tx0) eqn:Ecb; cbn [negb].
  2:{ apply Hno; [apply DoS_invalid|]. intros [_ _ (tx1 & rest & Hb & Hcb & _) _ _ _]. rewrite Ev in Hb. injection Hb as <- _. congruence. }
  destruct (existsb IsCoinBase txs) eqn:Em.
  { apply Hno; [apply DoS_invalid|]. intros [_ _ (tx1 & rest & Hb & _ & Hr) _ _ _]. rewrite Ev in Hb. injection Hb as _ <-.
    apply existsb_false in Hr. congruence. }
  destruct (filtering env && _) eqn:Ef.
  { apply Hno; [apply DoS_invalid|]. intros [_ _ _ Hl _ _]. apply andb_prop in Ef as [Ef Ex]. specialize (Hl Ef). rewrite Ev in Hl.
    assert (existsb (conflicts env) (tx0 :: txs) = false); [|congruence].
    apply existsb_false. eapply list.Forall_impl; [exact Hl|]. intros tx. apply conflicts_spec. }
  destruct (check_transactions_spec (tx0 :: txs) state) as (ok & st & -> & Hok & Hst).
  destruct ok; cbn [negb]; cycle 1.
  { apply Hno; [done|]. intros [_ _ _ _ Ht _]. rewrite Ev in Ht. apply Hok in Ht. done. }
  subst st. rewrite <- Ev, legacy_sigops_exact by (unfold MAX_DIP0001_BLOCK_SIZE in *; lia).
  destruct (Z.ltb_spec (MaxBlockSigOps true) (sum_of tx_sigops (vtx block))) as [Hso|Hso].
  { apply Hno; [apply DoS_invalid|]. intros [_ _ _ _ _ H]. unfold MaxBlockSigOps in Hso. cbn [MaxBlockSize] in Hso. lia. }
  exists true, state, false. split; [done|]. split; [|done]. split; [|done]. intros _. split.
  - rewrite Ev. lia.
  - lia.
  - exists tx0, txs. rewrite Ev. split; [done|]. split; [done|]. now apply existsb_false.
  - intros Hf. rewrite Hf in Ef. cbn [andb] in Ef. apply existsb_false in Ef. rewrite Ev.
    eapply list.Forall_impl; [exact Ef|]. intros tx. apply conflicts_spec.
  - rewrite Ev. now apply Hok.
  - exact Hso.
Qed.

Section Properties.
Context (GetHash : CBlockHeader -> list Z) (params : CChainParams) (adjusted_time : Z) (env : lock_view).

(** A block that is valid by itself, as far as the checks are asked for. *)
Record block_valid (fCheckPOW fCheckMerkleRoot : bool) (block : CBlock) : Prop := {
  bv_pow : fCheckPOW = true ->
    CheckProofOfWork (GetHash (block_header block)) (PowHash.nBits (block_header block)) (consensus params) = true;
  bv_time : PowHash.nTime (block_header block) <= adjusted_time + 7200;
  bv_root : fCheckMerkleRoot = true ->
    PowHash.hashMerkleRoot (block_header block) = merkle_root (tx_hash <$> vtx block) /\
    ~ has_duplicates (tx_hash <$> vtx block);
  bv_contents : contents_valid env block }.

(** The hashes in a block are 256-bit blobs, and there are not too many of them. *)
Definition hashes_ok (block : CBlock) : Prop :=
  is_hash (PowHash.hashMerkleRoot (block_header block)) /\ Forall is_hash (tx_hash <$> vtx block) /\
  Z.of_nat (length (vtx block)) <= 2 ^ 31.

Lemma bad_merkle_root_spec block : hashes_ok block -> exists r, bad_merkle_root block = Some r /\
  (r = None <-> PowHash.hashMerkleRoot (block_header block) = merkle_root (tx_hash <$> vtx block) /\
     ~ has_duplicates (tx_hash <$> vtx block)).
Proof.
  intros (Hr & Hh & Hn). unfold bad_merkle_root, BlockMerkleRoot.
  destruct (ComputeMerkleRoot_spec (tx_hash <$> vtx block) Hh) as (mut & -> & Hmut); [now rewrite length_fmap|].
  cbn [mbind option_bind]. eexists. split; [reflexivity|].
  assert (Hlen : length (PowHash.hashMerkleRoot (block_header block)) = length (merkle_root (tx_hash <$> vtx block))).
  { rewrite (proj2 Hr). symmetry. apply (is_hash_node _ Hh). }
  destruct (blob_eq _ _) eqn:Eb; cbn [negb].
  - apply (blob_eq_spec _ _ Hlen) in Eb. destruct mut; (split; [|tauto || (intros [_ Hd]; destruct Hd; now apply Hmut)]); [done|].
    intros _. split; [done|]. intros Hd%Hmut. done.
  - split; [done|]. intros [Hd _]. apply (blob_eq_spec _ _ Hlen) in Hd. congruence.
Qed.
Lemma CheckBlockHeader_spec header state fCheckPOW :
  exists ok st, CheckBlockHeader GetHash params adjusted_time header state fCheckPOW = (ok, st) /\
    (ok = true <-> (fCheckPOW = true -> CheckProofOfWork (GetHash header) (PowHash.nBits header) (consensus params) = true) /\
                   PowHash.nTime header <= adjusted_time + 7200) /\
    (if ok then st = state else mode st <> MODE_VALID).
Proof.
  unfold CheckBlockHeader. destruct (fCheckPOW && _) eqn:Ep.
  - apply andb_prop in Ep as [-> Ep]. apply negb_true_iff in Ep. eexists false, _. split; [reflexivity|].
    split; [|apply DoS_invalid]. split; [done|]. intros [H _]. rewrite H in Ep by done. done.
  - change (2 * 60 * 60) with 7200. destruct (Z.ltb_spec (adjusted_time + 7200) (PowHash.nTime header)) as [Ht|Ht].
    + eexists false, _. split; [reflexivity|]. split; [|apply DoS_invalid]. split; [done|]. intros [_ H]. lia.
    + exists true, state. split; [done|]. split; [|done]. split; [|done]. intros _. split; [|done].
      intros ->. cbn [andb] in Ep. now apply negb_false_iff in Ep.
Qed.

Lemma CheckBlock_spec block state fCheckPOW fCheckMerkleRoot : hashes_ok block -> fChecked block = false ->
  exists r, CheckBlock GetHash params adjusted_time env block state fCheckPOW fCheckMerkleRoot = Some r /\
    (accepted r = true <-> block_valid fCheckPOW fCheckMerkleRoot block) /\
    (if accepted r then check_state r = state /\
       checked_block r = mk_block (block_header block) (vtx block) (fCheckPOW && fCheckMerkleRoot)
     else mode (check_state r) <> MODE_VALID /\ checked_block r = block).
Proof.
  intros Hh Hun. unfold CheckBlock. rewrite Hun.
  assert (Hno : forall st rej, mode st <> MODE_VALID -> ~ block_valid fCheckPOW fCheckMerkleRoot block ->
    exists r, Some (mk_check false st block rej) = Some r /\
    (accepted r = true <-> block_valid fCheckPOW fCheckMerkleRoot block) /\
    (if accepted r then check_state r = state /\
       checked_block r = mk_block (block_header block) (vtx block) (fCheckPOW && fCheckMerkleRoot)
     else mode (check_state r) <> MODE_VALID /\ checked_block r = block))
    by (intros st rej Hst Hv; now eexists).
  destruct (CheckBlockHeader_spec (block_header block) state fCheckPOW) as (ok & st & -> & Hok & Hst).
  destruct ok; cbn [negb]; cycle 1.
  { apply Hno; [done|]. intros [Hp Ht _ _]. assert (false = true); [|done]. apply Hok. now split. }
  subst st. destruct (proj1 Hok eq_refl) as [Hp Ht].
  assert (Hroot : exists r, (if fCheckMerkleRoot then bad_merkle_root block else Some None) = Some r /\
    (r = None <-> (fCheckMerkleRoot = true ->
       PowHash.hashMerkleRoot (block_header block) = merkle_root (tx_hash <$> vtx block) /\ ~ has_duplicates (tx_hash <$> vtx block)))).
  { destruct fCheckMerkleRoot; [|now exists None]. destruct (bad_merkle_root_spec block Hh) as (r & E & Hr).
    exists r. split; [done|]. rewrite Hr. split; [auto|]. intros H. now apply H. }
  destruct Hroot as (r & -> & Hr). cbn [mbind option_bind]. destruct r as [reason|].
  { apply Hno; [apply DoS_corruption_invalid|]. intros [_ _ Hm _]. now apply Hr in Hm. }
  destruct (check_contents_spec env block state) as (ok & st & rej & -> & Hc & Hst).
  destruct ok; cbn [negb]; cycle 1.
  { apply Hno; [done|]. intros [_ _ _ Hb]. now apply Hc in Hb. }
  destruct Hst as [-> ->]. eexists. split; [reflexivity|]. split; [|now split].
  split; [|done]. intros _. split; [done|done|now apply Hr|now apply Hc].
Qed.

(** C25. [CheckBlock] decides whether a block is valid by itself: proof of work, time, Merkle
    root without repeated transactions, size, a coinbase transaction first and nowhere else,
    valid transactions, no conflict with a transaction lock and at most one signature operation
    per fifty bytes, counted without overflow.  An accepted block leaves the validation state alone
    and is marked as checked after the whole check only; a rejected one is not changed. *)
Theorem CheckBlock_correct block state fCheckPOW fCheckMerkleRoot : hashes_ok block ->
  exists r, CheckBlock GetHash params adjusted_time env block state fCheckPOW fCheckMerkleRoot = Some r /\
    (accepted r = true <-> fChecked block = true \/ block_valid fCheckPOW fCheckMerkleRoot block) /\
    (if accepted r then check_state r = state else mode (check_state r) <> MODE_VALID) /\
    block_header (checked_block r) = block_header block /\ vtx (checked_block r) = vtx block /\
    (fChecked (checked_block r) = true <->
       fChecked block = true \/ (fCheckPOW = true /\ fCheckMerkleRoot = true /\ block_valid true true block)).
Proof.
  intros Hh. destruct (fChecked block) eqn:Ef.
  - unfold CheckBlock. rewrite Ef. eexists. split; [reflexivity|]. cbn. rewrite Ef. split; [split; auto|].
    split; [done|]. split; [done|]. split; [done|]. split; auto.
  - destruct (CheckBlock_spec block state fCheckPOW fCheckMerkleRoot Hh Ef) as (r & -> & Ha & Hr). exists r.
    split; [done|]. split; [rewrite Ha; split; [now right|now intros [?|?]]|]. destruct (accepted r).
    + destruct Hr as [-> ->]. cbn. split; [done|]. split; [done|]. split; [done|].
      destruct fCheckPOW, fCheckMerkleRoot; cbn [andb];
        [|split; [done|]; intros [?|(? & ? & _)]; done..]. split; [|done]. intros _. right. split; [done|].
      split; [done|]. now apply Ha.
    + destruct Hr as [Hm ->]. rewrite Ef. split; [done|]. split; [done|]. split; [done|].
      split; [done|]. intros [?|(-> & -> & Hv)]; [done|]. now apply Ha.
Qed.
End Properties.

(** ** The checks in their context *)

Lemma IsSuperMajority_spec params s v q n : wf_store s -> is_ptr s q -> exists o, IsSuperMajority params s v q n = Some o /\
  (o = true <-> n <= votes s (recent s v) (Z.to_nat (nMajorityWindow params)) q).
Proof.
  intros Hwf Hq. unfold IsSuperMajority.
  destruct (majority_loop_spec s (Z.to_nat (nMajorityWindow params)) v q n 0 Hwf Hq) as (x & -> & Hx).
  cbn [mbind option_bind]. eexists. split; [reflexivity|]. rewrite Z.leb_le, Hx. lia.
Qed.

(** A transaction may be in a block of this height and time. *)
Definition tx_in_context (dip : bool) (height cutoff : Z) (tx : CTransaction) : Prop :=
  IsFinalTx tx height cutoff = true /\ (dip = true -> GetSerializeSize tx <= MAX_STANDARD_TX_SIZE).

Lemma contextual_txs_spec dip height cutoff txs state n : 0 <= n -> n + sum_of tx_sigops txs < 2 ^ 32 ->
  Forall (fun tx => GetLegacySigOpCount tx = tx_sigops tx) txs ->
  match contextual_txs dip height cutoff txs state n with
  | inr n' => n' = n + sum_of tx_sigops txs /\ Forall (tx_in_context dip height cutoff) txs
  | inl st => mode st <> MODE_VALID /\ ~ Forall (tx_in_context dip height cutoff) txs
  end.
Proof.
  intros Hn Hlt Hl. revert n Hn Hlt. induction Hl as [|tx txs E Hl IH]; intros n Hn Hlt; cbn [contextual_txs].
  { unfold sum_of. cbn [foldr]. split; [lia|constructor]. }
  destruct (IsFinalTx tx height cutoff) eqn:Ef; cbn [negb].
  2:{ split; [apply DoS_invalid|]. intros [[H _] _]%Forall_cons_1. congruence. }
  destruct (dip && _) eqn:Es.
  { apply andb_prop in Es as [-> Es]. split; [apply DoS_invalid|]. intros [[_ H] _]%Forall_cons_1. specialize (H eq_refl). lia. }
  assert (Htx : tx_in_context dip height cutoff tx) by (split; [done|]; intros ->; cbn [andb] in Es; lia).
  unfold sum_of in Hlt. cbn [foldr] in Hlt. fold (sum_of tx_sigops txs) in Hlt.
  pose proof (tx_sigops_bounds tx). pose proof (sum_of_nonneg tx_sigops txs tx_sigops_bounds).
  rewrite E, u32_small by (unfold in_word; lia). specialize (IH (n + tx_sigops tx) ltac:(lia) ltac:(lia)).
  destruct (contextual_txs _ _ _ _ _ _) as [st|n'].
  - destruct IH as [Hm Hf]. split; [done|]. now intros [_ ?]%Forall_cons_1.
  - destruct IH as [-> Hf]. split; [unfold sum_of; cbn [foldr]; lia|now constructor].
Qed.

Section Context.
Context (params : CChainParams) (bip9 : BIP9Params) (nEnforce : Z) (s : store).
Context (Hwf : wf_store s) (Ht : times_ok s).
Context (Hd : forall pos d, vDeployments bip9 !! pos = Some d -> deployment_ok bip9 d).
Context (Hn : length (vDeployments bip9) = MAX_VERSION_BITS_DEPLOYMENTS).

(** Whether deployment number [pos] is active for the block after [q]. *)
Definition active (pos : nat) (q : nat) : Prop :=
  exists d, vDeployments bip9 !! pos = Some d /\ deployment_state bip9 s d (Some q) = THRESHOLD_ACTIVE.

Lemma active_spec pos q b cache : s !! q = Some b -> (pos < MAX_VERSION_BITS_DEPLOYMENTS)%nat -> caches_ok bip9 s cache ->
  exists cache' st, VersionBitsState bip9 s (Some q) pos cache = Some (cache', st) /\ caches_ok bip9 s cache' /\
    (st = THRESHOLD_ACTIVE <-> active pos q).
Proof.
  intros Hb Hpos Hc. destruct (lookup_lt_is_Some_2 (vDeployments bip9) pos) as [d Ed]; [now rewrite Hn|].
  destruct (VersionBitsState_spec bip9 s Hwf Ht Hd Hn (Some q) pos d cache) as (c' & E & Hc'); [intros p [= <-]; eauto|done|done|].
  exists c', (deployment_state bip9 s d (Some q)). split; [done|]. split; [done|]. unfold active. split; [intros E'; now exists d|].
  intros (d' & Ed' & H). rewrite Ed in Ed'. now injection Ed' as <-.
Qed.

Lemma bad_height_spec block h : one_coinbase (vtx block) -> exists o, bad_height block h = Some o /\
  (o = false <-> exists tx0 i rest, vtx block = tx0 :: rest /\ vin tx0 = [i] /\ push_int64 h `prefix_of` scriptSig i).
Proof.
  intros (tx0 & rest & Ev & Ecb & _). destruct (coinbase_vin tx0 Ecb) as [i Ei]. unfold bad_height. rewrite Ev.
  cbn [head mbind option_bind]. rewrite Ei. cbn [head mbind option_bind]. eexists. split; [reflexivity|].
  rewrite negb_false_iff, bool_decide_eq_true. split; [intros H; now exists tx0, i, rest|].
  intros (tx1 & i1 & r1 & [= <- <-] & Ei1 & H). rewrite Ei in Ei1. now injection Ei1 as <-.
Qed.

Definition height_rule (q : nat) (block : CBlock) (b : CBlockIndex) : Prop :=
  2 <= PowHash.nVersion (block_header block) ->
  u32 nEnforce <= votes s (recent s 2) (Z.to_nat (nMajorityWindow params)) (Some q) ->
  exists tx0 i rest, vtx block = tx0 :: rest /\ vin tx0 = [i] /\ push_int64 (Chain.nHeight b + 1) `prefix_of` scriptSig i.

Lemma height_check_spec q b block : s !! q = Some b -> one_coinbase (vtx block) ->
  exists enforce bad, (if 2 <=? PowHash.nVersion (block_header block) then IsSuperMajority params s 2 (Some q) (u32 nEnforce)
    else Some false) = Some enforce /\
    (if enforce : bool then bad_height block (Chain.nHeight b + 1) else Some false) = Some bad /\
    (bad = false <-> height_rule q block b).
Proof.
  intros Hb Hone. unfold height_rule. destruct (bad_height_spec block (Chain.nHeight b + 1) Hone) as (bad & Ebad & Hbad).
  destruct (Z.leb_spec 2 (PowHash.nVersion (block_header block))) as [Hv|Hv].
  2:{ exists false, false. split; [done|]. split; [done|]. split; [lia|done]. }
  destruct (IsSuperMajority_spec params s 2 (Some q) (u32 nEnforce) Hwf) as (o & -> & Ho); [intros p [= <-]; eauto|].
  destruct o; [exists true, bad|exists false, false]; (split; [done|]); (split; [done|]).
  - rewrite Hbad. split; [auto|]. intros H. apply H; [done|now apply Ho].
  - split; [|done]. intros _ _ H. apply Ho in H. done.
Qed.

(** The time that lock times are compared with. *)
Definition is_cutoff (q : nat) (block : CBlock) (cutoff : Z) : Prop :=
  (active DEPLOYMENT_CSV q -> GetMedianTimePast s q = Some cutoff) /\
  (~ active DEPLOYMENT_CSV q -> cutoff = PowHash.nTime (block_header block)).

Lemma cutoff_spec q b block csv : s !! q = Some b -> (csv = THRESHOLD_ACTIVE <-> active DEPLOYMENT_CSV q) ->
  exists cutoff, (if bool_decide (csv = THRESHOLD_ACTIVE) then GetMedianTimePast s q
    else Some (PowHash.nTime (block_header block))) = Some cutoff /\
    forall cutoff', is_cutoff q block cutoff' <-> cutoff' = cutoff.
Proof.
  intros Hb Hcsv. unfold is_cutoff. destruct (GetMedianTimePast_some s Hwf q b Hb) as [m Em]. setoid_rewrite <- Hcsv.
  case_bool_decide as Ha.
  - exists m. split; [done|]. intros c'. rewrite Em. split; [intros [H _]; specialize (H Ha); congruence|].
    intros ->. split; [done|tauto].
  - eexists. split; [reflexivity|]. intros c'. split; [intros [_ H]; auto|]. intros ->. split; [tauto|done].
Qed.

(** A valid block after [q], the block [b] of the index. *)
Record context_valid (q : nat) (b : CBlockIndex) (block : CBlock) : Prop := {
  cv_size : forall dip, (dip = true <-> active DEPLOYMENT_DIP0001 q) ->
    GetSerializeSize block <= MaxBlockSize dip /\ Z.of_nat (length (vtx block)) <= MaxBlockSize dip /\
    sum_of tx_sigops (vtx block) <= MaxBlockSigOps dip;
  cv_txs : forall dip cutoff, (dip = true <-> active DEPLOYMENT_DIP0001 q) -> is_cutoff q block cutoff ->
    Forall (tx_in_context dip (Chain.nHeight b + 1) cutoff) (vtx block);
  cv_height : height_rule q block b }.

(** For a block with one coinbase transaction after a block of a well-formed index,
    [ContextualCheckBlock] always decides whether the block is valid there: the limits on size and
    signature operations that are in force, final transactions at the height and the time (the median
    time of the past once BIP113 is active), and the height in the coinbase for new versions. *)
Theorem ContextualCheckBlock_correct block state q b cache :
  s !! q = Some b -> caches_ok bip9 s cache -> one_coinbase (vtx block) ->
  exists ok st cache', ContextualCheckBlock params nEnforce bip9 s block state (Some q) cache = Some (ok, st, cache') /\
    caches_ok bip9 s cache' /\ (ok = true <-> context_valid q b block) /\
    (if ok then st = state else mode st <> MODE_VALID).
Proof.
  intros Hb Hc Hone. unfold ContextualCheckBlock. rewrite Hb. cbn [mbind option_bind].
  destruct (active_spec DEPLOYMENT_CSV q b cache Hb ltac:(unfold DEPLOYMENT_CSV, MAX_VERSION_BITS_DEPLOYMENTS; cbn; lia) Hc)
    as (c1 & csv & -> & Hc1 & Hcsv). cbn [mbind option_bind].
  destruct (cutoff_spec q b block csv Hb Hcsv) as (cutoff & -> & Hcut). cbn [mbind option_bind].
  destruct (active_spec DEPLOYMENT_DIP0001 q b c1 Hb ltac:(unfold DEPLOYMENT_DIP0001, MAX_VERSION_BITS_DEPLOYMENTS; cbn; lia) Hc1)
    as (c2 & dst & -> & Hc2 & Hdip). cbn [mbind option_bind]. set (dip := bool_decide (dst = THRESHOLD_ACTIVE)).
  assert (Edip : dip = true <-> active DEPLOYMENT_DIP0001 q) by (unfold dip; rewrite bool_decide_eq_true; exact Hdip).
  clearbody dip. clear Hdip dst.
  assert (Huniq : forall dip', (dip' = true <-> active DEPLOYMENT_DIP0001 q) -> dip' = dip).
  { intros dip' H. apply eq_true_iff_eq. now rewrite H, Edip. }
  assert (Hno : forall st, mode st <> MODE_VALID -> ~ context_valid q b block -> exists ok st' cache',
    Some (false, st, c2) = Some (ok, st', cache') /\ caches_ok bip9 s cache' /\ (ok = true <-> context_valid q b block) /\
    (if ok : bool then st' = state else mode st' <> MODE_VALID)) by (intros st Hst Hv; now exists false, st, c2).
  destruct (bad_block_length block (MaxBlockSize dip)) eqn:El.
  { apply Hno; [apply DoS_invalid|]. intros [Hs _ _]. destruct (Hs dip Edip) as (H1 & H2 & _). unfold bad_block_length in El.
    apply orb_true_iff in El as [[El|El]%orb_true_iff|El]; [|lia|lia]. destruct Hone as (tx0 & rest & Ev & _). now rewrite Ev in El. }
  apply orb_false_iff in El as [[_ Ecount]%orb_false_iff Esize].
  assert (Hmax : MaxBlockSize dip <= 2000000) by (destruct dip; cbn; unfold MAX_LEGACY_BLOCK_SIZE, MAX_DIP0001_BLOCK_SIZE; lia).
  pose proof (block_bytes_size block) as Hbytes. destruct (txs_sigops (vtx block) ltac:(lia)) as [Hexact Hso].
  pose proof (contextual_txs_spec dip (Chain.nHeight b + 1) cutoff (vtx block) state 0 ltac:(lia) ltac:(lia) Hexact) as Htxs.
  destruct (contextual_txs _ _ _ _ _ _) as [st|n].
  { destruct Htxs as [Hst Hnot]. apply Hno; [done|]. intros [_ H _]. apply Hnot, H; [done|now apply Hcut]. }
  destruct Htxs as [-> Hall]. rewrite Z.add_0_l. destruct (Z.ltb_spec (MaxBlockSigOps dip) (sum_of tx_sigops (vtx block))) as [Hs|Hs].
  { apply Hno; [apply DoS_invalid|]. intros [H _ _]. destruct (H dip Edip) as (_ & _ & H3). lia. }
  destruct (height_check_spec q b block Hb Hone) as (enforce & bad & -> & E & Hbad). cbn [mbind option_bind]. rewrite E.
  cbn [mbind option_bind]. destruct bad.
  - apply Hno; [apply DoS_invalid|]. intros [_ _ Hh]. apply Hbad in Hh. done.
  - exists true, state, c2. split; [done|]. split; [done|]. split; [|done]. split; [|done]. intros _.
    split; [intros dip' H'; rewrite (Huniq dip' H'); lia| |now apply Hbad].
    intros dip' cutoff' H' Hcut'. rewrite (Huniq dip' H'). apply Hcut in Hcut' as ->. exact Hall.
Qed.
End Context.

(** *** Concrete blocks *)

Definition demo_coinbase : CTransaction :=
  UpdateHash (mk_tx 1 [mk_txin (mk_outpoint (replicate 32 0) 0xFFFFFFFF) [0x54; 0x00] 0xFFFFFFFF]
    [mk_txout 500 [0x51] (-10)] 0 null_hash).
Definition demo_block (root : list Z) : CBlock :=
  mk_block (mk_header 0x20000002 (test_GetHash (test_child 3)) root 1600 0x1e0ffff0 4) [demo_coinbase] false.
Definition demo_locks : lock_view := mk_lock_view true (fun _ => None).

Lemma demo_hashes_ok : hashes_ok (demo_block (tx_hash demo_coinbase)).
Proof.
  assert (H : is_hash (tx_hash demo_coinbase)) by (split; [by_eval|vm_compute; reflexivity]).
  split; [exact H|]. split; [constructor; [exact H|constructor]|]. cbn. lia.
Qed.

Lemma CheckBlock_correct_witness :
  accepted <$> CheckBlock test_GetHash test_params 5000 demo_locks (demo_block (tx_hash demo_coinbase)) CValidationState_new true true
    = Some true /\
  (fun r => strRejectReason (check_state r)) <$>
    CheckBlock test_GetHash test_params 5000 demo_locks (demo_block (replicate 32 2)) CValidationState_new true true
    = Some "bad-txnmrklroot"%string /\
  exists r, CheckBlock test_GetHash test_params 5000 demo_locks (demo_block (tx_hash demo_coinbase)) CValidationState_new true true = Some r /\
    (accepted r = true <-> fChecked (demo_block (tx_hash demo_coinbase)) = true \/
       block_valid test_GetHash test_params 5000 demo_locks true true (demo_block (tx_hash demo_coinbase))) /\
    (if accepted r then check_state r = CValidationState_new else mode (check_state r) <> MODE_VALID) /\
    block_header (checked_block r) = block_header (demo_block (tx_hash demo_coinbase)) /\
    vtx (checked_block r) = vtx (demo_block (tx_hash demo_coinbase)) /\
    (fChecked (checked_block r) = true <-> fChecked (demo_block (tx_hash demo_coinbase)) = true \/
       (true = true /\ true = true /\
        block_valid test_GetHash test_params 5000 demo_locks true true (demo_block (tx_hash demo_coinbase)))).
Proof.
  split; [vm_compute; reflexivity|]. split; [vm_compute; reflexivity|].
  exact (CheckBlock_correct test_GetHash test_params 5000 demo_locks (demo_block (tx_hash demo_coinbase)) CValidationState_new
    true true demo_hashes_ok).
Defined.

Lemma test_index_ok : headers_ok (fun x y => x) test_GetHash test_params test_index.
Proof. exact (accepted_ok (fun x y => x) test_GetHash test_params test_index main_params_ok test_rootless test_index_accepted). Qed.

Lemma ContextualCheckBlock_correct_witness :
  exists ok st cache', ContextualCheckBlock test_params 750 demo_bip9 (heap test_index) (demo_block (tx_hash demo_coinbase))
      CValidationState_new (Some 3%nat) (Clear [∅; ∅; ∅]) = Some (ok, st, cache') /\
    caches_ok demo_bip9 (heap test_index) cache' /\
    (ok = true <-> context_valid test_params demo_bip9 750 (heap test_index) 3 test_entry (demo_block (tx_hash demo_coinbase))) /\
    (if ok then st = CValidationState_new else mode st <> MODE_VALID).
Proof.
  apply (ContextualCheckBlock_correct test_params demo_bip9 750 (heap test_index)
    (io_store _ (ho_index _ _ _ _ test_index_ok)) (headers_times _ _ _ _ test_index_ok) demo_deployments_ok eq_refl
    (demo_block (tx_hash demo_coinbase)) CValidationState_new 3 test_entry (Clear [∅; ∅; ∅]) test_entry_at).
  - now apply caches_ok_clear.
  - exists demo_coinbase, []. split; [reflexivity|]. split; [reflexivity|constructor].
Defined.
