(* ===== verification/Subsidy.v ===== *)
(** * The value of a block ([validation.cpp], [governance-classes.cpp], [masternode-payments.cpp])

    The block subsidy and its parts, superblocks, and the check of the value of a coinbase
    transaction. *)

From Corelib Require Import SpecFloat.
From S2P Require Import Prelude Words Transaction Arith256 Pow TxCheck HeaderCheck.

(** ** Parameters *)

(** The fields of [Consensus::Params] about the value of blocks, and [NetworkIDString() == MAIN]. *)
Record SubsidyParams := mk_subsidy {
  nSubsidyHalvingInterval : Z;
  nBudgetPaymentsStartBlock : Z;
  nBudgetPaymentsCycleBlocks : Z;
  nBudgetPaymentsWindowBlocks : Z;
  nSuperblockStartBlock : Z;
  nSuperblockCycle : Z;
  nMasternodePaymentsIncreaseBlock : Z;
  min_difficulty_bits : option Z;   (* GetCompact of powLimit if fPowAllowMinDifficultyBlocks *)
  on_main : bool }.

(** [CMainParams] *)
Definition main_subsidy : SubsidyParams := mk_subsidy 210240 328008 16616 100 614820 16616 158000 None true.

(** ** GetBlockSubsidy *)

Section Subsidy.
Variable pow : spec_float -> spec_float -> spec_float.
Context (params : SubsidyParams).

Definition squared (x : spec_float) : spec_float := pow x (double_of 2).

(** The coins before the yearly decline. *)
Definition subsidy_base (nPrevBits nPrevHeight : Z) : Z :=
  let dDiff :=
    if (nPrevHeight <=? 4500) && on_main params
    then d_div (double_of 0x0000ffff) (double_of (nPrevBits .& 0x00ffffff))
    else ConvertBitsToDouble nPrevBits in
  if nPrevHeight <? 5465 then
    let nSubsidyBase := trunc_double (d_div (double_of 1111) (squared (d_add dDiff (double_of 1)))) in
    if 500 <? nSubsidyBase then 500 else if nSubsidyBase <? 1 then 1 else nSubsidyBase
  else if (nPrevHeight <? 17000) || (SFleb dDiff (double_of 75) && (nPrevHeight <? 24000)) then
    let nSubsidyBase := trunc_double (d_div (double_of 11111) (squared (d_div (d_add dDiff (double_of 51)) (double_of 6)))) in
    if 500 <? nSubsidyBase then 500 else if nSubsidyBase <? 25 then 25 else nSubsidyBase
  else
    let nSubsidyBase := trunc_double (d_div (double_of 2222222) (squared (d_div (d_add dDiff (double_of 2600)) (double_of 9)))) in
    if 25 <? nSubsidyBase then 25 else if nSubsidyBase <? 5 then 5 else nSubsidyBase.

(** The loop over [i]; [None] is the loop that does not end. *)
Fixpoint decline_loop (fuel : nat) (i nPrevHeight nSubsidy : Z) : option Z :=
  match fuel with
  | O => None
  | S fuel =>
      if i <=? nPrevHeight
      then decline_loop fuel (i + nSubsidyHalvingInterval params) nPrevHeight (nSubsidy - Z.quot nSubsidy 14)
      else Some nSubsidy
  end.

Definition GetBlockSubsidy (nPrevBits nPrevHeight : Z) (fSuperblockPartOnly : bool) : option Z :=
  nSubsidy ← decline_loop (Z.to_nat (nPrevHeight / nSubsidyHalvingInterval params) + 1)
    (nSubsidyHalvingInterval params) nPrevHeight (subsidy_base nPrevBits nPrevHeight * COIN);
  let nSuperblockPart := if nBudgetPaymentsStartBlock params <? nPrevHeight then Z.quot nSubsidy 10 else 0 in
  Some (if fSuperblockPartOnly then nSuperblockPart else nSubsidy - nSuperblockPart).

Definition GetMasternodePayment (nHeight blockValue : Z) : Z :=
  let ret := Z.quot blockValue 5 in
  if nMasternodePaymentsIncreaseBlock params <? nHeight then ret + Z.quot blockValue 20 else ret.

(** ** Superblocks *)

(** A superblock is the list of its payments: script and amount. *)
Definition CSuperblock : Type := list (CScript * Z).

Definition IsValidBlockHeight (nBlockHeight : Z) : bool :=
  (nSuperblockStartBlock params <=? nBlockHeight) && (Z.rem nBlockHeight (nSuperblockCycle params) =? 0).

Definition GetPaymentsLimit (nBlockHeight : Z) : option Z :=
  if negb (IsValidBlockHeight nBlockHeight) then Some 0
  else
    let nBits := default 1 (min_difficulty_bits params) in
    nSuperblockPartOfSubsidy ← GetBlockSubsidy nBits (nBlockHeight - 1) true;
    Some (nSuperblockPartOfSubsidy * nSuperblockCycle params).

Definition GetPaymentsTotalAmount (sb : CSuperblock) : Z := foldr (fun p v => p.2 + v) 0 sb.

(** The first output from number [j] on that makes a payment. *)
Fixpoint find_payment (p : CScript * Z) (outs : list CTxOut) (j : nat) : option nat :=
  match outs with
  | [] => None
  | o :: outs =>
      if bool_decide (p.1 = scriptPubKey o) && (p.2 =? nValue o) then Some j else find_payment p outs (S j)
  end.
Fixpoint match_payments (sb : CSuperblock) (outs : list CTxOut) (nVoutIndex : nat) : bool :=
  match sb with
  | [] => true
  | p :: sb =>
      match find_payment p (drop nVoutIndex outs) nVoutIndex with
      | Some j => match_payments sb outs j
      | None => false
      end
  end.

(** [CSuperblock::IsValid]; the exception of [GetValueOut] and the loop that does not end are
    [inl] and [None]. *)
Definition superblock_IsValid (sb : CSuperblock) (txNew : CTransaction) (nBlockHeight blockReward : Z)
    : option (throws bool) :=
  if negb (IsValidBlockHeight nBlockHeight) then Some (mret false)
  else if Z.of_nat (length (vout txNew)) - Z.of_nat (length sb) <? 0 then Some (mret false)
  else
    nPaymentsLimit ← GetPaymentsLimit nBlockHeight;
    if nPaymentsLimit <? GetPaymentsTotalAmount sb then Some (mret false)
    else Some (
      nBlockValue ← GetValueOut txNew;
      if blockReward + GetPaymentsTotalAmount sb <? nBlockValue then mret false
      else mret (match_payments sb (vout txNew) 0)).

(** ** IsBlockValueValid *)

Definition SPORK_8_MASTERNODE_PAYMENT_ENFORCEMENT : Z := 10007.
Definition SPORK_9_SUPERBLOCKS_ENABLED : Z := 10008.
Definition SPORK_13_OLD_SUPERBLOCK_FLAG : Z := 10012.

(** What the check asks of the other parts of the node: whether the masternode data is
    synchronized, the sporks, whether a funded trigger for the height is active, and the
    superblock with the most votes. *)
Record node_view := mk_view {
  IsSynced : bool;
  IsSporkActive : Z -> bool;
  funded_trigger : Z -> bool;
  GetBestSuperblock : Z -> option CSuperblock }.

Definition IsSuperblockTriggered (env : node_view) (nBlockHeight : Z) : bool :=
  if negb (IsValidBlockHeight nBlockHeight) then false else funded_trigger env nBlockHeight.
Definition superblock_manager_IsValid (env : node_view) (txNew : CTransaction)
    (nBlockHeight blockReward : Z) : option (throws bool) :=
  match GetBestSuperblock env nBlockHeight with
  | Some sb => superblock_IsValid sb txNew nBlockHeight blockReward
  | None => Some (mret false)
  end.

(** A height of the budget cycle at which budgets may be paid. *)
Definition in_budget_window (nBlockHeight : Z) : bool :=
  (nBudgetPaymentsStartBlock params <=? nBlockHeight) &&
  (Z.rem nBlockHeight (nBudgetPaymentsCycleBlocks params) <? nBudgetPaymentsWindowBlocks params).

(** [coinbase] is [block.vtx[0]]. *)
Definition IsBlockValueValid (env : node_view) (coinbase : CTransaction) (nBlockHeight blockReward : Z)
    : option (throws bool) :=
  match GetValueOut coinbase with
  | inl e => Some (inl e)
  | inr nValueOut =>
      let isBlockRewardValueMet := nValueOut <=? blockReward in
      if nBlockHeight <? nSuperblockStartBlock params then
        if in_budget_window nBlockHeight then
          if IsSynced env && negb (IsSporkActive env SPORK_13_OLD_SUPERBLOCK_FLAG)
          then Some (mret isBlockRewardValueMet)
          else Some (mret true)
        else Some (mret isBlockRewardValueMet)
      else
        limit ← GetPaymentsLimit nBlockHeight;
        let isSuperblockMaxValueMet := nValueOut <=? blockReward + limit in
        if negb (IsSynced env) then
          if IsValidBlockHeight nBlockHeight then Some (mret isSuperblockMaxValueMet)
          else Some (mret isBlockRewardValueMet)
        else if IsSporkActive env SPORK_9_SUPERBLOCKS_ENABLED && IsSuperblockTriggered env nBlockHeight
        then superblock_manager_IsValid env coinbase nBlockHeight blockReward
        else Some (mret isBlockRewardValueMet)
  end.
End Subsidy.

(** ** The subsidy in closed form *)

(** One year's decline. *)
Definition declined (v : Z) : Z := v - v / 14.

Lemma declined_bounds v : 0 <= v -> 0 <= declined v <= v.
Proof.
  intros Hv. unfold declined. pose proof (Z.div_pos v 14 Hv ltac:(lia)).
  pose proof (Z.div_le_upper_bound v 14 v ltac:(lia) ltac:(lia)). lia.
Qed.
Lemma iter_declined_bounds n v : 0 <= v -> 0 <= Nat.iter n declined v <= v.
Proof.
  intros Hv. induction n as [|n IH]; cbn [Nat.iter nat_rect]; [lia|].
  pose proof (declined_bounds _ (proj1 IH)). unfold Nat.iter in *. lia.
Qed.
Lemma iter_declined_S n v : Nat.iter n declined (declined v) = Nat.iter (S n) declined v.
Proof. symmetry. apply Nat.iter_succ_r. Qed.

Section Facts.
Variable pow : spec_float -> spec_float -> spec_float.
Context (params : SubsidyParams).

Lemma decline_loop_spec n fuel i h v : 0 < nSubsidyHalvingInterval params -> 0 <= v -> (n < fuel)%nat ->
  (forall k, (k < n)%nat -> i + Z.of_nat k * nSubsidyHalvingInterval params <= h) ->
  h < i + Z.of_nat n * nSubsidyHalvingInterval params ->
  decline_loop params fuel i h v = Some (Nat.iter n declined v).
Proof.
  intros Hp Hv. revert fuel i v Hv. induction n as [|n IH]; intros fuel i v Hv Hf Hk Hn;
    (destruct fuel as [|fuel]; [lia|]); cbn [decline_loop].
  - destruct (Z.leb_spec i h); [lia|done].
  - specialize (Hk O ltac:(lia)) as H0. destruct (Z.leb_spec i h); [|lia].
    rewrite Z.quot_div_nonneg by lia. fold (declined v).
    rewrite IH; [now rewrite iter_declined_S|apply declined_bounds; lia|lia| |lia].
    intros k Hkn. specialize (Hk (S k) ltac:(lia)). lia.
Qed.

Lemma subsidy_base_bounds bits h :
  1 <= subsidy_base pow params bits h <= 500 /\ (24000 <= h -> 5 <= subsidy_base pow params bits h <= 25).
Proof.
  unfold subsidy_base. cbv zeta.
  generalize (if (h <=? 4500) && on_main params then d_div (double_of 65535) (double_of (bits .& 16777215))
              else ConvertBitsToDouble bits). intros d.
  generalize (trunc_double (d_div (double_of 1111) (squared pow (d_add d (double_of 1))))),
    (trunc_double (d_div (double_of 11111) (squared pow (d_div (d_add d (double_of 51)) (double_of 6))))),
    (trunc_double (d_div (double_of 2222222) (squared pow (d_div (d_add d (double_of 2600)) (double_of 9))))).
  intros a b c. generalize (SFleb d (double_of 75)). intros e.
  destruct (Z.ltb_spec h 5465).
  { destruct (Z.ltb_spec 500 a); [lia|]. destruct (Z.ltb_spec a 1); lia. }
  destruct ((h <? 17000) || e && (h <? 24000)) eqn:E.
  { destruct (Z.ltb_spec 500 b); [|destruct (Z.ltb_spec b 25)]; lia. }
  destruct (Z.ltb_spec 25 c); [lia|]. destruct (Z.ltb_spec c 5); lia.
Qed.

(** The subsidy before the part for superblocks is taken off. *)
Definition whole_subsidy (bits h : Z) : Z :=
  Nat.iter (Z.to_nat (h / nSubsidyHalvingInterval params)) declined (subsidy_base pow params bits h * COIN).
Definition superblock_part (bits h : Z) : Z :=
  if nBudgetPaymentsStartBlock params <? h then whole_subsidy bits h / 10 else 0.

Lemma whole_subsidy_bounds bits h : 0 <= whole_subsidy bits h <= subsidy_base pow params bits h * COIN.
Proof.
  pose proof (subsidy_base_bounds bits h). apply iter_declined_bounds. unfold COIN. lia.
Qed.

Lemma superblock_part_bounds bits h : 0 <= superblock_part bits h <= whole_subsidy bits h.
Proof.
  pose proof (whole_subsidy_bounds bits h). unfold superblock_part.
  destruct (nBudgetPaymentsStartBlock params <? h); [|lia].
  pose proof (Z.div_pos (whole_subsidy bits h) 10 ltac:(lia) ltac:(lia)).
  pose proof (Z.div_le_upper_bound (whole_subsidy bits h) 10 (whole_subsidy bits h) ltac:(lia) ltac:(lia)). lia.
Qed.

Lemma GetBlockSubsidy_spec bits h part : 0 < nSubsidyHalvingInterval params -> 0 <= h ->
  GetBlockSubsidy pow params bits h part =
  Some (if part then superblock_part bits h else whole_subsidy bits h - superblock_part bits h).
Proof.
  intros Hp Hh. unfold GetBlockSubsidy. set (n := nSubsidyHalvingInterval params) in *.
  pose proof (subsidy_base_bounds bits h) as [Hb _]. pose proof (Z.div_pos h n Hh Hp) as Hd.
  pose proof (Z.mul_succ_div_gt h n Hp). pose proof (Z.mul_div_le h n Hp).
  rewrite (decline_loop_spec (Z.to_nat (h / n))); [|done|unfold COIN; lia|lia| |].
  - cbn [mbind option_bind]. pose proof (whole_subsidy_bounds bits h).
    unfold superblock_part. change (Nat.iter _ declined _) with (whole_subsidy bits h).
    destruct (nBudgetPaymentsStartBlock params <? h); [|done]. now rewrite Z.quot_div_nonneg by lia.
  - intros k Hk. fold n. assert (Z.of_nat k + 1 <= h / n) by lia. nia.
  - fold n. rewrite Z2Nat.id by lia. nia.
Qed.
End Facts.

(** ** What the check of the value amounts to *)

(** The limit of superblock payments is [superblock_limit]: zero at other heights. *)
Definition superblock_limit (pow : spec_float -> spec_float -> spec_float) (params : SubsidyParams) (h : Z) : Z :=
  if IsValidBlockHeight params h
  then superblock_part pow params (default 1 (min_difficulty_bits params)) (h - 1) * nSuperblockCycle params
  else 0.

(** The blocks whose value is not checked. *)
Definition unchecked (params : SubsidyParams) (env : node_view) (h : Z) : Prop :=
  h < nSuperblockStartBlock params /\ in_budget_window params h = true /\
  (IsSynced env = false \/ IsSporkActive env SPORK_13_OLD_SUPERBLOCK_FLAG = true).

Section ValueFacts.
Variable pow : spec_float -> spec_float -> spec_float.
Context (params : SubsidyParams) (Hp : 0 < nSubsidyHalvingInterval params).

Lemma GetPaymentsLimit_spec h : 1 <= h ->
  GetPaymentsLimit pow params h = Some (superblock_limit pow params h).
Proof.
  intros Hh. unfold GetPaymentsLimit, superblock_limit. destruct (IsValidBlockHeight params h); [|done].
  cbn [negb]. now rewrite GetBlockSubsidy_spec by (done || lia).
Qed.

Lemma superblock_limit_nonneg h : 0 < nSuperblockCycle params -> 0 <= superblock_limit pow params h.
Proof.
  intros Hc. unfold superblock_limit. destruct (IsValidBlockHeight params h); [|lia].
  pose proof (superblock_part_bounds pow params (default 1 (min_difficulty_bits params)) (h - 1)). nia.
Qed.

Lemma superblock_IsValid_spec sb tx h reward v : 1 <= h -> GetValueOut tx = inr v ->
  exists ok, superblock_IsValid pow params sb tx h reward = Some (inr ok) /\
    (ok = true -> IsValidBlockHeight params h = true /\ v <= reward + superblock_limit pow params h).
Proof.
  intros Hh Ev. unfold superblock_IsValid. destruct (IsValidBlockHeight params h) eqn:Eh; cbn [negb]; [|by exists false].
  destruct (_ <? 0); [by exists false|]. rewrite GetPaymentsLimit_spec by done. cbn [mbind option_bind].
  destruct (Z.ltb_spec (superblock_limit pow params h) (GetPaymentsTotalAmount sb)); [by exists false|].
  rewrite Ev. cbn [mbind throws_bind]. destruct (Z.ltb_spec (reward + GetPaymentsTotalAmount sb) v); [by exists false|].
  eexists. split; [reflexivity|]. intros _. split; [done|lia].
Qed.

Lemma IsBlockValueValid_spec env coinbase h reward v : 1 <= h -> GetValueOut coinbase = inr v ->
  exists ok, IsBlockValueValid pow params env coinbase h reward = Some (inr ok) /\
    (ok = true -> v <= reward \/ (IsValidBlockHeight params h = true /\ v <= reward + superblock_limit pow params h) \/
                  unchecked params env h) /\
    (IsValidBlockHeight params h = false -> ~ unchecked params env h -> ok = (v <=? reward)).
Proof.
  intros Hh Ev. unfold IsBlockValueValid, unchecked. rewrite Ev.
  destruct (Z.ltb_spec h (nSuperblockStartBlock params)) as [Hs|Hs].
  - destruct (in_budget_window params h) eqn:Ew; [|exists (v <=? reward); split; [done|]; split; [lia|done]].
    destruct (IsSynced env) eqn:Es, (IsSporkActive env SPORK_13_OLD_SUPERBLOCK_FLAG) eqn:E13; cbn [andb negb];
      [exists true|exists (v <=? reward)|exists true|exists true]; (split; [done|]);
      (split; [|tauto || (intros _ Hn; destruct Hn; tauto)]); try lia; intros _; right; right; tauto.
  - rewrite GetPaymentsLimit_spec by done. cbn [mbind option_bind].
    destruct (IsSynced env); cbn [negb].
    + destruct (IsSporkActive env SPORK_9_SUPERBLOCKS_ENABLED); cbn [andb];
        [|exists (v <=? reward); split; [done|]; split; [lia|done]].
      unfold IsSuperblockTriggered. destruct (IsValidBlockHeight params h) eqn:Eh; cbn [negb];
        [|exists (v <=? reward); split; [done|]; split; [lia|done]].
      destruct (funded_trigger env h); [|exists (v <=? reward); split; [done|]; split; [lia|done]].
      unfold superblock_manager_IsValid. destruct (GetBestSuperblock env h) as [sb|]; [|by exists false].
      destruct (superblock_IsValid_spec sb coinbase h reward v Hh Ev) as (ok & -> & Hok).
      exists ok. split; [done|]. split; [|done]. intros Ht. right; left. rewrite Eh in Hok. auto.
    + destruct (IsValidBlockHeight params h) eqn:Eh.
      * exists (v <=? reward + superblock_limit pow params h). split; [done|]. split; [|done].
        intros Ht. right; left. split; [done|lia].
      * exists (v <=? reward). split; [done|]. split; [lia|done].
Qed.
End ValueFacts.

(** ** Properties *)

Section Properties.
Variable pow : spec_float -> spec_float -> spec_float.
Context (params : SubsidyParams).

(** C27. Whatever [pow] computes, the subsidy of the block after one at height [h] is
    determined: at most 500 coins, at most 25 from height 24001 on, reduced by one fourteenth
    for every whole interval, of which a tenth goes to superblocks once these are paid. *)
Theorem GetBlockSubsidy_correct bits h : 0 < nSubsidyHalvingInterval params -> 0 <= h ->
  exists base, 1 <= base <= 500 /\ (24000 <= h -> 5 <= base <= 25) /\
    let total := Nat.iter (Z.to_nat (h / nSubsidyHalvingInterval params)) declined (base * COIN) in
    let part := if nBudgetPaymentsStartBlock params <? h then total / 10 else 0 in
    0 <= part <= total /\ total <= base * COIN /\
    GetBlockSubsidy pow params bits h true = Some part /\
    GetBlockSubsidy pow params bits h false = Some (total - part).
Proof.
  intros Hp Hh. exists (subsidy_base pow params bits h). pose proof (subsidy_base_bounds pow params bits h) as [H1 H2].
  split; [done|]. split; [done|]. cbv zeta. split; [apply (superblock_part_bounds pow params bits h)|].
  split; [apply (whole_subsidy_bounds pow params bits h)|].
  split; now rewrite GetBlockSubsidy_spec.
Qed.

(** [IsBlockValueValid] throws only what [GetValueOut] throws and otherwise always
    decides.  Outside superblock heights it accepts exactly the coinbase transactions that
    pay no more than the reward; at a superblock height no accepted one pays more than the
    reward and the limit of superblock payments.  The exception are the [unchecked] heights,
    at which a node whose masternode data is not synchronized accepts any value. *)
Theorem IsBlockValueValid_correct env coinbase h reward :
  0 < nSubsidyHalvingInterval params -> 0 < nSuperblockCycle params -> 1 <= h ->
  match GetValueOut coinbase with
  | inl e => IsBlockValueValid pow params env coinbase h reward = Some (inl e)
  | inr v => exists ok, IsBlockValueValid pow params env coinbase h reward = Some (inr ok) /\
      (unchecked params env h -> ok = true) /\
      (~ unchecked params env h -> IsValidBlockHeight params h = false -> ok = (v <=? reward)) /\
      (~ unchecked params env h -> ok = true -> v <= reward + superblock_limit pow params h)
  end.
Proof.
  intros Hp Hcy Hh. destruct (GetValueOut coinbase) as [e|v] eqn:Ev; [unfold IsBlockValueValid; now rewrite Ev|].
  destruct (IsBlockValueValid_spec pow params Hp env coinbase h reward v Hh Ev) as (ok & E & H1 & H2).
  exists ok. split; [done|]. split; [|split; [auto|]].
  - intros (Hs & Hw & Hu). unfold IsBlockValueValid in E. rewrite Ev, Hw in E.
    rewrite (proj2 (Z.ltb_lt _ _) Hs) in E. destruct Hu as [Hu|Hu]; rewrite Hu in E; [|rewrite andb_false_r in E];
      cbn in E; now injection E as <-.
  - intros Hn Hok. pose proof (superblock_limit_nonneg pow params h Hcy).
    destruct (H1 Hok) as [Hv|[[_ Hv]|Hu]]; [lia|done|done].
Qed.
End Properties.

(** *** Concrete blocks *)

Definition demo_pow (x y : spec_float) : spec_float := d_mul x x.
Definition demo_reward_tx (v : Z) : CTransaction :=
  mk_tx 1 [mk_txin (mk_outpoint (replicate 32 0) 0xFFFFFFFF) [1; 2] 0] [mk_txout v [0x51] (-10)] 0 null_hash.
Definition demo_view (synced : bool) : node_view :=
  mk_view synced (fun _ => false) (fun _ => false) (fun _ => None).

(** A difficulty at which the subsidy is the least one. *)
Lemma GetBlockSubsidy_correct_witness :
  GetBlockSubsidy demo_pow main_subsidy 0x1b0404cb 420481 false = Some 388010205 /\
  exists base, 1 <= base <= 500 /\ (24000 <= 420481 -> 5 <= base <= 25) /\
    let total := Nat.iter (Z.to_nat (420481 / nSubsidyHalvingInterval main_subsidy)) declined (base * COIN) in
    let part := if nBudgetPaymentsStartBlock main_subsidy <? 420481 then total / 10 else 0 in
    0 <= part <= total /\ total <= base * COIN /\
    GetBlockSubsidy demo_pow main_subsidy 0x1b0404cb 420481 true = Some part /\
    GetBlockSubsidy demo_pow main_subsidy 0x1b0404cb 420481 false = Some (total - part).
Proof.
  split; [vm_compute; reflexivity|].
  apply (GetBlockSubsidy_correct demo_pow main_subsidy 0x1b0404cb 420481); [reflexivity|lia].
Defined.

Lemma IsBlockValueValid_correct_witness :
  exists ok, IsBlockValueValid demo_pow main_subsidy (demo_view true) (demo_reward_tx 500) 1000 400 = Some (inr ok) /\
    (unchecked main_subsidy (demo_view true) 1000 -> ok = true) /\
    (~ unchecked main_subsidy (demo_view true) 1000 -> IsValidBlockHeight main_subsidy 1000 = false -> ok = (500 <=? 400)) /\
    (~ unchecked main_subsidy (demo_view true) 1000 -> ok = true ->
       500 <= 400 + superblock_limit demo_pow main_subsidy 1000).
Proof.
  exact (IsBlockValueValid_correct demo_pow main_subsidy (demo_view true) (demo_reward_tx 500) 1000 400
    eq_refl eq_refl ltac:(lia)).
Defined.

(** A node that is not synchronized accepts any coinbase value at the heights of the budget
    window, which the parameters of the main network place at the first hundred blocks of
    every 16616 between 328008 and 614820. *)
Lemma unsynced_accepts_any_value v reward : in_range v ->
  IsBlockValueValid demo_pow main_subsidy (demo_view false) (demo_reward_tx v) 332320 reward = Some (inr true).
Proof.
  intros Hv. unfold IsBlockValueValid, GetValueOut. cbn [vout demo_reward_tx value_out_loop nValue].
  rewrite (sum_in_range 0 v in_range_0 Hv), Z.add_0_l, (proj2 (MoneyRange_spec v) Hv). reflexivity.
Qed.

(** The search for the next payment starts at the output that made the last one, so that one
    output makes two equal payments of a superblock. *)
Lemma one_output_two_payments :
  match_payments [([0x51], 7); ([0x51], 7)] (vout (demo_reward_tx 7)) 0 = true.
Proof. reflexivity. Qed.
