(* ===== verification/MasternodePayments.v ===== *)
(** * Masternode payments ([masternode-payments.cpp], [masternode-payments.h])

    Masternodes vote for the payee of every block; the votes are collected per height, blocks
    must pay a payee with enough votes, and new blocks pay the one with the most.  The list of
    masternodes with their ranks, the state of synchronization, the sporks, signatures and
    the active chain are asked for through the record [mn_env]. *)

From stdpp Require Import gmap.
From S2P Require Import Prelude Words Serialize Transaction TxCheck Subsidy.

(** ** Votes *)

Definition MNPAYMENTS_SIGNATURES_REQUIRED : Z := 6.
Definition MNPAYMENTS_SIGNATURES_TOTAL : Z := 10.
Definition MIN_MASTERNODE_PAYMENT_PROTO_VERSION_1 : Z := 70206.
Definition MIN_MASTERNODE_PAYMENT_PROTO_VERSION_2 : Z := 70208.
Definition SPORK_10_MASTERNODE_PAY_UPDATED_NODES : Z := 10009.

Record CMasternodePaymentVote := mk_vote {
  vinMasternode : COutPoint;      (* vinMasternode.prevout *)
  vote_height : Z;                (* nBlockHeight *)
  payee : CScript;
  vchSig : list Z }.

(** What is hashed: not the signature. *)
Definition vote_bytes (v : CMasternodePaymentVote) : list Z :=
  Serialize_bytes (payee v) ++ Serialize_int32 (vote_height v) ++ Serialize_COutPoint (vinMasternode v).
Definition vote_hash (v : CMasternodePaymentVote) : hash := SerializeHash (vote_bytes v).

Definition IsVerified (v : CMasternodePaymentVote) : bool := negb (bool_decide (vchSig v = [])).
Definition MarkAsNotVerified (v : CMasternodePaymentVote) : CMasternodePaymentVote :=
  {| vinMasternode := vinMasternode v; vote_height := vote_height v; payee := payee v; vchSig := [] |}.

(** ** The payees of a block *)

Record CMasternodePayee := mk_payee { GetPayee : CScript; vecVoteHashes : list hash }.
Definition AddVoteHash (p : CMasternodePayee) (hashIn : hash) : CMasternodePayee :=
  {| GetPayee := GetPayee p; vecVoteHashes := vecVoteHashes p ++ [hashIn] |}.
Definition GetVoteCount (p : CMasternodePayee) : Z := Z.of_nat (length (vecVoteHashes p)).

Record CMasternodeBlockPayees := mk_payees { payees_height : Z; vecPayees : list CMasternodePayee }.

(** The loop of [AddPayee]. *)
Fixpoint add_payee (ps : list CMasternodePayee) (script : CScript) (h : hash) : list CMasternodePayee :=
  match ps with
  | [] => [mk_payee script [h]]
  | p :: ps =>
      if bool_decide (GetPayee p = script) then AddVoteHash p h :: ps else p :: add_payee ps script h
  end.
Definition AddPayee (b : CMasternodeBlockPayees) (vote : CMasternodePaymentVote) : CMasternodeBlockPayees :=
  {| payees_height := payees_height b; vecPayees := add_payee (vecPayees b) (payee vote) (vote_hash vote) |}.

(** The loop of [GetBestPayee]: the first payee with the most votes. *)
Fixpoint best_payee (ps : list CMasternodePayee) (nVotes : Z) (best : option CScript) : option CScript :=
  match ps with
  | [] => best
  | p :: ps =>
      if nVotes <? GetVoteCount p then best_payee ps (GetVoteCount p) (Some (GetPayee p))
      else best_payee ps nVotes best
  end.
Definition GetBestPayee (b : CMasternodeBlockPayees) : option CScript := best_payee (vecPayees b) (-1) None.

Definition HasPayeeWithVotes (b : CMasternodeBlockPayees) (payeeIn : CScript) (nVotesReq : Z) : bool :=
  existsb (fun p => (nVotesReq <=? GetVoteCount p) && bool_decide (GetPayee p = payeeIn)) (vecPayees b).

(** [CMasternodeBlockPayees::IsTransactionValid] *)
Definition max_signatures (ps : list CMasternodePayee) : Z :=
  fold_left (fun n p => if n <=? GetVoteCount p then GetVoteCount p else n) ps 0.
Definition pays (txNew : CTransaction) (amount : Z) (p : CMasternodePayee) : bool :=
  (MNPAYMENTS_SIGNATURES_REQUIRED <=? GetVoteCount p) &&
  existsb (fun txout => bool_decide (GetPayee p = scriptPubKey txout) && (amount =? nValue txout)) (vout txNew).
Definition payees_IsTransactionValid (params : SubsidyParams) (b : CMasternodeBlockPayees)
    (txNew : CTransaction) : throws bool :=
  nValueOut ← GetValueOut txNew;
  let nMasternodePayment := GetMasternodePayment params (payees_height b) nValueOut in
  if max_signatures (vecPayees b) <? MNPAYMENTS_SIGNATURES_REQUIRED then mret true
  else mret (existsb (pays txNew nMasternodePayment) (vecPayees b)).

(** ** The object [mnpayments] *)

Record CMasternodePayments := mk_payments {
  mapMasternodePaymentVotes : gmap hash CMasternodePaymentVote;
  mapMasternodeBlocks : gmap Z CMasternodeBlockPayees;
  mapMasternodesLastVote : gmap COutPoint Z;
  nCachedBlockHeight : Z }.

(** What is asked of the other parts of the node.  A message that is signed is the outpoint,
    the height and the payee of a vote. *)
Record masternode_info := mk_info { pubKeyMasternode : list Z; nProtocolVersion : Z }.
Record mn_env := mk_env {
  fLiteMode : bool;
  fMasternodeMode : bool;
  IsBlockchainSynced : bool;
  IsMasternodeListSynced : bool;
  spork_active : Z -> bool;
  mn_count : Z;
  GetMasternodeInfo : COutPoint -> option masternode_info;
  GetMasternodeRank : COutPoint -> Z -> Z -> option Z;
  GetNextMasternodeInQueueForPayment : Z -> option CScript;   (* the script of its payee *)
  VerifyMessage : list Z -> list Z -> COutPoint * Z * CScript -> bool;
  have_block : Z -> bool;                                     (* GetBlockHash *)
  activeMasternode : COutPoint;
  active_pubkey : list Z;
  SignMessage : COutPoint * Z * CScript -> option (list Z) }.

Inductive effect := Misbehaving (howmuch : Z) | AskForMN (o : COutPoint) | RelayVote (h : hash).

Definition GetMinMasternodePaymentsProto (env : mn_env) : Z :=
  if spork_active env SPORK_10_MASTERNODE_PAY_UPDATED_NODES then MIN_MASTERNODE_PAYMENT_PROTO_VERSION_2
  else MIN_MASTERNODE_PAYMENT_PROTO_VERSION_1.

(** [nStorageCoeff] is 1.25, exact as a [float] for fewer than 2^21 masternodes. *)
Definition nMinBlocksToStore : Z := 5000.
Definition GetStorageLimit (env : mn_env) : Z := Z.max (Z.quot (mn_count env * 5) 4) nMinBlocksToStore.

Definition with_votes (m : CMasternodePayments) (votes : gmap hash CMasternodePaymentVote) : CMasternodePayments :=
  {| mapMasternodePaymentVotes := votes; mapMasternodeBlocks := mapMasternodeBlocks m;
     mapMasternodesLastVote := mapMasternodesLastVote m; nCachedBlockHeight := nCachedBlockHeight m |}.
Definition with_blocks (m : CMasternodePayments) (blocks : gmap Z CMasternodeBlockPayees) : CMasternodePayments :=
  {| mapMasternodePaymentVotes := mapMasternodePaymentVotes m; mapMasternodeBlocks := blocks;
     mapMasternodesLastVote := mapMasternodesLastVote m; nCachedBlockHeight := nCachedBlockHeight m |}.

Definition Clear (m : CMasternodePayments) : CMasternodePayments :=
  {| mapMasternodePaymentVotes := ∅; mapMasternodeBlocks := ∅;
     mapMasternodesLastVote := mapMasternodesLastVote m; nCachedBlockHeight := nCachedBlockHeight m |}.

Definition CanVote (m : CMasternodePayments) (outMasternode : COutPoint) (nBlockHeight : Z)
    : CMasternodePayments * bool :=
  if bool_decide (mapMasternodesLastVote m !! outMasternode = Some nBlockHeight) then (m, false)
  else
    ({| mapMasternodePaymentVotes := mapMasternodePaymentVotes m; mapMasternodeBlocks := mapMasternodeBlocks m;
        mapMasternodesLastVote := <[outMasternode := nBlockHeight]> (mapMasternodesLastVote m);
        nCachedBlockHeight := nCachedBlockHeight m |}, true).

Definition HasVerifiedPaymentVote (m : CMasternodePayments) (hashIn : hash) : bool :=
  match mapMasternodePaymentVotes m !! hashIn with Some v => IsVerified v | None => false end.

Definition AddPaymentVote (env : mn_env) (m : CMasternodePayments) (vote : CMasternodePaymentVote)
    : CMasternodePayments * bool :=
  if negb (have_block env (vote_height vote - 101)) then (m, false)
  else if HasVerifiedPaymentVote m (vote_hash vote) then (m, false)
  else
    let m := with_votes m (<[vote_hash vote := vote]> (mapMasternodePaymentVotes m)) in
    let b := default {| payees_height := vote_height vote; vecPayees := [] |}
               (mapMasternodeBlocks m !! vote_height vote) in
    (with_blocks m (<[vote_height vote := AddPayee b vote]> (mapMasternodeBlocks m)), true).

(** [CMasternodePaymentVote::IsValid] *)
Definition vote_IsValid (env : mn_env) (v : CMasternodePaymentVote) (nValidationHeight : Z)
    : bool * list effect :=
  match GetMasternodeInfo env (vinMasternode v) with
  | None => (false, if IsMasternodeListSynced env then [AskForMN (vinMasternode v)] else [])
  | Some mnInfo =>
      let nMinRequiredProtocol :=
        if nValidationHeight <=? vote_height v then GetMinMasternodePaymentsProto env
        else MIN_MASTERNODE_PAYMENT_PROTO_VERSION_1 in
      if nProtocolVersion mnInfo <? nMinRequiredProtocol then (false, [])
      else if negb (fMasternodeMode env) && (vote_height v <? nValidationHeight) then (true, [])
      else
        match GetMasternodeRank env (vinMasternode v) (vote_height v - 101) nMinRequiredProtocol with
        | None => (false, [])
        | Some nRank =>
            if MNPAYMENTS_SIGNATURES_TOTAL <? nRank then
              (false, if (MNPAYMENTS_SIGNATURES_TOTAL * 2 <? nRank) && (nValidationHeight <? vote_height v)
                      then [Misbehaving 20] else [])
            else (true, [])
        end
  end.

Definition signed_message (v : CMasternodePaymentVote) : COutPoint * Z * CScript :=
  (vinMasternode v, vote_height v, payee v).

(** [CheckSignature]: the result and [nDos]. *)
Definition CheckSignature (env : mn_env) (v : CMasternodePaymentVote) (pubKey : list Z)
    (nValidationHeight : Z) : bool * Z :=
  if VerifyMessage env pubKey (vchSig v) (signed_message v) then (true, 0)
  else (false, if IsMasternodeListSynced env && (nValidationHeight <? vote_height v) then 20 else 0).

(** [ProcessMessage] for a vote that was read from the message. *)
Definition ProcessVote (env : mn_env) (peer_version : Z) (m : CMasternodePayments)
    (vote : CMasternodePaymentVote) : CMasternodePayments * list effect :=
  if fLiteMode env then (m, [])
  else if peer_version <? GetMinMasternodePaymentsProto env then (m, [])
  else if negb (IsMasternodeListSynced env) then (m, [])
  else
    let nHash := vote_hash vote in
    match mapMasternodePaymentVotes m !! nHash with
    | Some _ => (m, [])
    | None =>
        let m := with_votes m (<[nHash := MarkAsNotVerified vote]> (mapMasternodePaymentVotes m)) in
        let nFirstBlock := nCachedBlockHeight m - GetStorageLimit env in
        if (vote_height vote <? nFirstBlock) || (nCachedBlockHeight m + 20 <? vote_height vote) then (m, [])
        else
          let '(ok, fx) := vote_IsValid env vote (nCachedBlockHeight m) in
          if negb ok then (m, fx)
          else
            let '(m, can) := CanVote m (vinMasternode vote) (vote_height vote) in
            if negb can then (m, fx)
            else
              match GetMasternodeInfo env (vinMasternode vote) with
              | None => (m, fx ++ [AskForMN (vinMasternode vote)])
              | Some mnInfo =>
                  let '(ok, nDos) := CheckSignature env vote (pubKeyMasternode mnInfo) (nCachedBlockHeight m) in
                  if negb ok then
                    (m, fx ++ (if nDos =? 0 then [] else [Misbehaving nDos]) ++ [AskForMN (vinMasternode vote)])
                  else
                    let '(m, added) := AddPaymentVote env m vote in
                    (m, fx ++ (if added : bool then [RelayVote nHash] else []))
              end
    end.

(** [Sign] for the vote of this node. *)
Definition Sign (env : mn_env) (v : CMasternodePaymentVote) : option CMasternodePaymentVote :=
  sig ← SignMessage env (signed_message v);
  if VerifyMessage env (active_pubkey env) sig (signed_message v) then
    Some {| vinMasternode := vinMasternode v; vote_height := vote_height v; payee := payee v; vchSig := sig |}
  else None.

(** [ProcessBlock]: this node votes. *)
Definition ProcessBlock (env : mn_env) (m : CMasternodePayments) (nBlockHeight : Z)
    : CMasternodePayments * bool :=
  if fLiteMode env || negb (fMasternodeMode env) then (m, false)
  else if negb (IsMasternodeListSynced env) then (m, false)
  else
    match GetMasternodeRank env (activeMasternode env) (nBlockHeight - 101) (GetMinMasternodePaymentsProto env) with
    | None => (m, false)
    | Some nRank =>
        if MNPAYMENTS_SIGNATURES_TOTAL <? nRank then (m, false)
        else
          match GetNextMasternodeInQueueForPayment env nBlockHeight with
          | None => (m, false)
          | Some script =>
              match Sign env (mk_vote (activeMasternode env) nBlockHeight script []) with
              | None => (m, false)
              | Some voteNew => AddPaymentVote env m voteNew
              end
          end
    end.

(** [UpdatedBlockTip]; the statistics of [CheckPreviousBlockVotes] are left out. *)
Definition UpdatedBlockTip (env : mn_env) (m : CMasternodePayments) (nHeight : Z) : CMasternodePayments :=
  let m := {| mapMasternodePaymentVotes := mapMasternodePaymentVotes m; mapMasternodeBlocks := mapMasternodeBlocks m;
              mapMasternodesLastVote := mapMasternodesLastVote m; nCachedBlockHeight := nHeight |} in
  (ProcessBlock env m (nHeight + 10)).1.

(** The loop of [CheckAndRemove]. *)
Definition remove_old (nLimit : Z) (m : CMasternodePayments) (e : hash * CMasternodePaymentVote) : CMasternodePayments :=
  let '(h, vote) := e in
  if nLimit <? nCachedBlockHeight m - vote_height vote then
    with_blocks (with_votes m (delete h (mapMasternodePaymentVotes m)))
      (delete (vote_height vote) (mapMasternodeBlocks m))
  else m.
Definition CheckAndRemove (env : mn_env) (m : CMasternodePayments) : CMasternodePayments :=
  if negb (IsBlockchainSynced env) then m
  else fold_left (remove_old (GetStorageLimit env)) (map_to_list (mapMasternodePaymentVotes m)) m.

(** ** Blocks *)

Definition GetBlockPayee (m : CMasternodePayments) (nBlockHeight : Z) : option CScript :=
  b ← mapMasternodeBlocks m !! nBlockHeight; GetBestPayee b.

Definition IsTransactionValid (params : SubsidyParams) (m : CMasternodePayments) (txNew : CTransaction)
    (nBlockHeight : Z) : throws bool :=
  match mapMasternodeBlocks m !! nBlockHeight with
  | Some b => payees_IsTransactionValid params b txNew
  | None => mret true
  end.

(** [FillBlockPayee] on the outputs of the new coinbase; [None] for the output that is not
    there is the failed access to [vout[0]]. *)
Definition FillBlockPayee (params : SubsidyParams) (env : mn_env) (m : CMasternodePayments)
    (vout : list CTxOut) (nBlockHeight blockReward : Z) : option (list CTxOut) :=
  let payee :=
    match GetBlockPayee m nBlockHeight with
    | Some payee => Some payee
    | None => GetNextMasternodeInQueueForPayment env nBlockHeight
    end in
  match payee with
  | None => Some vout
  | Some payee =>
      let masternodePayment := GetMasternodePayment params nBlockHeight blockReward in
      match vout with
      | [] => None
      | o :: vout =>
          Some (mk_txout (nValue o - masternodePayment) (scriptPubKey o) (nRounds o)
                :: vout ++ [mk_txout masternodePayment payee (nRounds CTxOut_null)])
      end
  end.

(** Whether a masternode is going to be paid in the next blocks. *)
Definition IsScheduled (env : mn_env) (m : CMasternodePayments) (mnpayee : CScript) (nNotBlockHeight : Z) : bool :=
  if negb (IsMasternodeListSynced env) then false
  else existsb (fun k => let h := nCachedBlockHeight m + Z.of_nat k in
                 negb (h =? nNotBlockHeight) && bool_decide (GetBlockPayee m h = Some mnpayee)) (seq 0 9).

(** ** The votes as they are collected *)

Section Votes.
(** The signature check, and the keys that masternodes have had. *)
Context (verify : list Z -> list Z -> COutPoint * Z * CScript -> bool) (authorised : COutPoint -> list Z -> Prop).

(** The parts of the node that votes depend on.  [CPubKey::RecoverCompact] accepts no signature
    of a length other than 65. *)
Record env_ok (env : mn_env) : Prop := {
  env_verify : VerifyMessage env = verify;
  env_no_sig : forall pk msg, verify pk [] msg = false;
  env_info : forall o info, GetMasternodeInfo env o = Some info -> authorised o (pubKeyMasternode info);
  env_active : authorised (activeMasternode env) (active_pubkey env) }.

Inductive mn_step : CMasternodePayments -> CMasternodePayments -> Prop :=
  | step_message env version m vote : env_ok env -> mn_step m (ProcessVote env version m vote).1
  | step_block env m h : env_ok env -> mn_step m (UpdatedBlockTip env m h)
  | step_remove env m : env_ok env -> mn_step m (CheckAndRemove env m)
  | step_clear m : mn_step m (Clear m).

Definition no_payments : CMasternodePayments := mk_payments ∅ ∅ ∅ 0.
Definition mn_reachable (m : CMasternodePayments) : Prop := rtc mn_step no_payments m.

Definition signed (v : CMasternodePaymentVote) : Prop :=
  exists pk, authorised (vinMasternode v) pk /\ verify pk (vchSig v) (signed_message v) = true.

Abbreviation votes := mapMasternodePaymentVotes.
Abbreviation blocks := mapMasternodeBlocks.

(** The hash [h] is counted for the payee [script] at height [n]. *)
Definition counted (m : CMasternodePayments) (n : Z) (script : CScript) (h : hash) : Prop :=
  exists b p, blocks m !! n = Some b /\ p ∈ vecPayees b /\ GetPayee p = script /\ h ∈ vecVoteHashes p.

Record votes_ok (m : CMasternodePayments) : Prop := {
  vo_key : forall h v, votes m !! h = Some v -> vote_hash v = h;
  vo_signed : forall h v, votes m !! h = Some v -> IsVerified v = true -> signed v;
  vo_heights : forall n b, blocks m !! n = Some b -> payees_height b = n;
  vo_distinct : forall n b, blocks m !! n = Some b -> NoDup (GetPayee <$> vecPayees b);
  vo_once : forall n b p, blocks m !! n = Some b -> p ∈ vecPayees b -> NoDup (vecVoteHashes p);
  vo_counted : forall n script h, counted m n script h <->
    exists v, votes m !! h = Some v /\ IsVerified v = true /\ vote_height v = n /\ payee v = script }.

(** The hash does not depend on the signature. *)
Lemma vote_hash_eq v w : signed_message v = signed_message w -> vote_hash v = vote_hash w.
Proof.
  intros E. assert (Eb : vote_bytes v = vote_bytes w).
  { unfold signed_message in E. injection E as E1 E2 E3. unfold vote_bytes. now rewrite E1, E2, E3. }
  unfold vote_hash. now rewrite Eb.
Qed.
#[local] Opaque vote_hash.

(** *** Adding a hash to the payees *)

Lemma add_payee_scripts ps script h :
  GetPayee <$> add_payee ps script h =
  if bool_decide (script ∈ GetPayee <$> ps) then GetPayee <$> ps else (GetPayee <$> ps) ++ [script].
Proof.
  induction ps as [|p ps IH]; cbn [add_payee fmap list_fmap app].
  { rewrite bool_decide_false; [done|]. apply not_elem_of_nil. }
  destruct (decide (GetPayee p = script)) as [E|E].
  - rewrite (bool_decide_true _ E), bool_decide_true by (rewrite E; left). reflexivity.
  - rewrite (bool_decide_false _ E). cbn [fmap list_fmap]. rewrite IH.
    destruct (decide (script ∈ GetPayee <$> ps)) as [Hi|Hi].
    + rewrite !bool_decide_true; [done| |done]. now right.
    + rewrite !bool_decide_false; [done| |done]. intros [Ex|Hx]%elem_of_cons; [now apply E|now apply Hi].
Qed.

Lemma add_payee_distinct ps script h :
  NoDup (GetPayee <$> ps) -> NoDup (GetPayee <$> add_payee ps script h).
Proof.
  intros Hd. rewrite add_payee_scripts. case_bool_decide as Hi; [done|].
  apply list.NoDup_app. split; [done|]. split; [|apply NoDup_singleton].
  intros x Hx ->%list_elem_of_singleton. done.
Qed.

(** The hashes that are counted for each script, and each of them once. *)
Lemma add_payee_hashes ps script h p' : NoDup (GetPayee <$> ps) ->
  p' ∈ add_payee ps script h <->
  (p' ∈ ps /\ GetPayee p' <> script) \/
  (exists p, p ∈ ps /\ GetPayee p = script /\ p' = AddVoteHash p h) \/
  ((script ∉ (GetPayee <$> ps)) /\ p' = mk_payee script [h]).
Proof.
  induction ps as [|p ps IH]; cbn [add_payee fmap list_fmap]; intros Hd.
  - rewrite list_elem_of_singleton. split; [intros ->; right; right; split; [apply not_elem_of_nil|done]|].
    intros [[Hx _]|[(q & Hx & _)|[_ E]]]; [now apply not_elem_of_nil in Hx|now apply not_elem_of_nil in Hx|done].
  - apply list.NoDup_cons in Hd as [Hn Hd]. destruct (decide (GetPayee p = script)) as [E|E].
    + rewrite (bool_decide_true _ E), elem_of_cons. split.
      * intros [->|Hx]; [right; left; exists p; split; [left|done]|].
        left. split; [now right|]. intros Ex. apply Hn. rewrite E, <- Ex. now apply list_elem_of_fmap_2.
      * intros [[Hx Ne]|[(q & Hq & Eq & ->)|[Hni _]]].
        -- apply elem_of_cons in Hx as [->|Hx]; [done|now right].
        -- apply elem_of_cons in Hq as [->|Hq]; [now left|].
           destruct Hn. rewrite E, <- Eq. now apply list_elem_of_fmap_2.
        -- destruct Hni. rewrite E. left.
    + rewrite (bool_decide_false _ E), elem_of_cons, (IH Hd). split.
      * intros [->|[[Hx Ne]|[(q & Hq & Eq & ->)|[Hni ->]]]].
        -- left. split; [left|done].
        -- left. split; [now right|done].
        -- right; left. exists q. split; [now right|done].
        -- right; right. split; [|done]. intros [Ex|Hx]%elem_of_cons; [now apply E|now apply Hni].
      * intros [[Hx Ne]|[(q & Hq & Eq & ->)|[Hni ->]]].
        -- apply elem_of_cons in Hx as [->|Hx]; [now left|right; now left].
        -- apply elem_of_cons in Hq as [->|Hq]; [done|]. right; right; left. now exists q.
        -- right; right; right. split; [|done]. intros Hx. apply Hni. now right.
Qed.
Definition hashes_of (ps : list CMasternodePayee) (script : CScript) (h : hash) : Prop :=
  exists p, p ∈ ps /\ GetPayee p = script /\ h ∈ vecVoteHashes p.

Lemma add_payee_hashes_of ps s0 h0 script h : NoDup (GetPayee <$> ps) ->
  hashes_of (add_payee ps s0 h0) script h <-> hashes_of ps script h \/ (script = s0 /\ h = h0).
Proof.
  intros Hd. unfold hashes_of. split.
  - intros (p & Hp & Es & Hh). apply (add_payee_hashes ps s0 h0 p Hd) in Hp as [[Hp Ne]|[(q & Hq & Eq & ->)|[Hn ->]]].
    + left. now exists p.
    + cbn [AddVoteHash GetPayee vecVoteHashes] in *. apply elem_of_app in Hh as [Hh| ->%list_elem_of_singleton].
      * left. now exists q.
      * right. now split; [rewrite <- Es|].
    + cbn [GetPayee vecVoteHashes] in *. apply list_elem_of_singleton in Hh as ->. now right.
  - intros [(p & Hp & Es & Hh)|[-> ->]].
    + destruct (decide (script = s0)) as [->|Ne].
      * exists (AddVoteHash p h0). split; [|split; [done|apply elem_of_app; now left]].
        apply (add_payee_hashes ps s0 h0 _ Hd). right; left. now exists p.
      * exists p. split; [|done]. apply (add_payee_hashes ps s0 h0 _ Hd). left. now rewrite Es.
    + destruct (decide (s0 ∈ GetPayee <$> ps)) as [Hi|Hi].
      * apply list_elem_of_fmap in Hi as (p & Ep & Hp). exists (AddVoteHash p h0).
        split; [|split; [done|apply elem_of_app; right; now apply list_elem_of_singleton]].
        apply (add_payee_hashes ps s0 h0 _ Hd). right; left. now exists p.
      * exists (mk_payee s0 [h0]). split; [|split; [done|now apply list_elem_of_singleton]].
        apply (add_payee_hashes ps s0 h0 _ Hd). now right; right.
Qed.

Lemma counted_hashes m n script h :
  counted m n script h <-> exists b, blocks m !! n = Some b /\ hashes_of (vecPayees b) script h.
Proof.
  unfold counted, hashes_of. split.
  - intros (b & p & Hb & Hp & Es & Hh). exists b. split; [done|]. now exists p.
  - intros (b & Hb & p & Hp & Es & Hh). now exists b, p.
Qed.

(** *** The operations keep the invariant *)

Lemma no_payments_ok : votes_ok no_payments.
Proof.
  split; try (intros *; cbn; rewrite lookup_empty; done).
  intros n script h. split; [intros (b & p & Hb & _)|intros (v & Hv & _)]; cbn in *; now rewrite lookup_empty in *.
Qed.

Lemma Clear_ok m : votes_ok (Clear m).
Proof.
  split; try (intros *; cbn; rewrite lookup_empty; done).
  intros n script h. split; [intros (b & p & Hb & _)|intros (v & Hv & _)]; cbn in *; now rewrite lookup_empty in *.
Qed.

(** The last votes and the height do not matter. *)
Lemma votes_ok_same m m' : votes m' = votes m -> blocks m' = blocks m -> votes_ok m -> votes_ok m'.
Proof.
  intros Ev Eb [H1 H2 H3 H4 H5 H6]. split; unfold counted in *; rewrite ?Ev, ?Eb; assumption.
Qed.

(** A vote that is stored without its signature. *)
Lemma store_unverified_ok m v : votes m !! vote_hash v = None -> votes_ok m ->
  votes_ok (with_votes m (<[vote_hash v := MarkAsNotVerified v]> (votes m))).
Proof.
  intros Hn [H1 H2 H3 H4 H5 H6]. split; cbn [votes blocks with_votes]; try assumption.
  - intros h w [[<- <-]|[_ Hw]]%lookup_insert_Some; [now apply vote_hash_eq|now apply H1].
  - intros h w [[<- <-]|[_ Hw]]%lookup_insert_Some; [done|now apply (H2 h)].
  - intros n script h. change (counted (with_votes m _) n script h) with (counted m n script h). rewrite H6. split.
    + intros (w & Hw & Hr). exists w. split; [|done]. rewrite lookup_insert_ne; [done|]. intros <-. congruence.
    + intros (w & [[<- <-]|[_ Hw]]%lookup_insert_Some & Hver & Hr); [done|]. now exists w.
Qed.

Lemma AddPaymentVote_ok env m v : votes_ok m -> signed v -> IsVerified v = true ->
  votes_ok (AddPaymentVote env m v).1.
Proof.
  intros Hm Hs Hver. unfold AddPaymentVote. destruct (have_block env _); [|done]. cbn [negb].
  destruct (HasVerifiedPaymentVote m (vote_hash v)) eqn:Ehas; [done|]. cbn [fst].
  set (b := default _ _). destruct Hm as [H1 H2 H3 H4 H5 H6].
  assert (Hb : payees_height b = vote_height v /\ NoDup (GetPayee <$> vecPayees b) /\
    (forall p, p ∈ vecPayees b -> NoDup (vecVoteHashes p)) /\
    (forall script h, hashes_of (vecPayees b) script h <-> counted m (vote_height v) script h)).
  { unfold b. cbn [blocks with_votes]. destruct (blocks m !! vote_height v) as [b0|] eqn:Eb; cbn [default from_option id].
    - split; [now apply H3|]. split; [now apply (H4 (vote_height v))|]. split; [intros p; now apply (H5 (vote_height v))|].
      intros script h. rewrite counted_hashes, Eb. split; [intros ?; now exists b0|now intros (b1 & [= <-] & ?)].
    - split; [done|]. split; [constructor|]. split; [intros p Hp; now apply not_elem_of_nil in Hp|].
      intros script h. rewrite counted_hashes, Eb. split; [intros (p & Hp & _); now apply not_elem_of_nil in Hp|].
      now intros (b1 & ? & _). }
  destruct Hb as (Hbh & Hbd & Hbo & Hbc). clearbody b.
  assert (Hnew : forall script, ~ counted m (vote_height v) script (vote_hash v)).
  { intros script (w & Hw & Hwv & _)%H6. unfold HasVerifiedPaymentVote in Ehas. rewrite Hw in Ehas. congruence. }
  assert (Hcount : forall n script h,
    counted (with_blocks (with_votes m (<[vote_hash v := v]> (votes m)))
      (<[vote_height v := AddPayee b v]> (blocks m))) n script h <->
    counted m n script h \/ (n = vote_height v /\ script = payee v /\ h = vote_hash v)).
  { intros n script h. rewrite counted_hashes. cbn [blocks with_blocks].
    destruct (decide (n = vote_height v)) as [->|Ne].
    - rewrite lookup_insert_eq. split.
      + intros (b1 & [= <-] & Hh). cbn [AddPayee vecPayees] in Hh.
        apply (add_payee_hashes_of _ _ _ _ _ Hbd) in Hh as [Hh|Hh]; [left; now apply Hbc|right; tauto].
      + intros Hh. exists (AddPayee b v). split; [done|]. cbn [AddPayee vecPayees].
        apply (add_payee_hashes_of _ _ _ _ _ Hbd). rewrite Hbc. tauto.
    - rewrite lookup_insert_ne by congruence. rewrite <- counted_hashes. tauto. }
  split; cbn [votes blocks with_votes with_blocks].
  - intros h w [[<- <-]|[_ Hw]]%lookup_insert_Some; [done|now apply H1].
  - intros h w [[<- <-]|[_ Hw]]%lookup_insert_Some; [done|now apply (H2 h)].
  - intros n b1 [[<- <-]|[_ Hw]]%lookup_insert_Some; [done|now apply H3].
  - intros n b1 [[<- <-]|[_ Hw]]%lookup_insert_Some; [now apply add_payee_distinct|now apply (H4 n)].
  - intros n b1 p [[<- <-]|[_ Hw]]%lookup_insert_Some Hp; [|now apply (H5 n b1)].
    cbn [AddPayee vecPayees] in Hp.
    apply (add_payee_hashes _ _ _ p Hbd) in Hp as [[Hp _]|[(q & Hq & Eq & ->)|[_ ->]]];
      [now apply Hbo| |apply NoDup_singleton].
    cbn [AddVoteHash vecVoteHashes]. apply list.NoDup_app. split; [now apply Hbo|].
    split; [|apply NoDup_singleton]. intros h Hh ->%list_elem_of_singleton.
    apply (Hnew (payee v)), Hbc. now exists q.
  - intros n script h. rewrite Hcount, H6. split.
    + intros [(w & Hw & Hr)|(-> & -> & ->)]; [|exists v; now rewrite lookup_insert_eq].
      exists w. split; [|done]. rewrite lookup_insert_ne; [done|]. intros <-.
      unfold HasVerifiedPaymentVote in Ehas. rewrite Hw in Ehas. destruct Hr. congruence.
    + intros (w & [[<- <-]|[_ Hw]]%lookup_insert_Some & Hwv & <- & <-); [now right|left; now exists w].
Qed.

Lemma CanVote_same m o h : votes (CanVote m o h).1 = votes m /\ blocks (CanVote m o h).1 = blocks m.
Proof. unfold CanVote. now case_bool_decide. Qed.

Lemma ProcessVote_ok env version m v : env_ok env -> votes_ok m -> votes_ok (ProcessVote env version m v).1.
Proof.
  intros [Ever Esig Einfo Eact] Hm. unfold ProcessVote. destruct (fLiteMode env); [done|].
  destruct (version <? _); [done|]. destruct (IsMasternodeListSynced env); [|done]. cbn [negb].
  destruct (votes m !! vote_hash v) eqn:Hn; [done|].
  pose proof (store_unverified_ok m v Hn Hm) as Hm1. set (m1 := with_votes m _) in *. clearbody m1.
  destruct (_ || _); [done|]. destruct (vote_IsValid _ _ _) as [ok fx]. destruct ok; [|done]. cbn [negb].
  destruct (CanVote_same m1 (vinMasternode v) (vote_height v)) as [E1 E2].
  destruct (CanVote m1 _ _) as [m2 can]. cbn [fst] in *. pose proof (votes_ok_same m1 m2 E1 E2 Hm1) as Hm2.
  destruct can; [|done]. cbn [negb]. destruct (GetMasternodeInfo env (vinMasternode v)) as [info|] eqn:Einf; [|done].
  unfold CheckSignature. rewrite Ever. destruct (verify _ _ _) eqn:Es; [|done]. cbn [negb].
  assert (Hv : IsVerified v = true).
  { unfold IsVerified. apply negb_true_iff, bool_decide_eq_false_2. intros E0. rewrite E0, Esig in Es. done. }
  pose proof (AddPaymentVote_ok env m2 v Hm2) as Ha. destruct (AddPaymentVote env m2 v) as [m3 added].
  apply Ha; [|done]. exists (pubKeyMasternode info). split; [now apply Einfo|done].
Qed.

Lemma ProcessBlock_ok env m h : env_ok env -> votes_ok m -> votes_ok (ProcessBlock env m h).1.
Proof.
  intros [Ever Esig Einfo Eact] Hm. unfold ProcessBlock. destruct (_ || _); [done|]. destruct (negb _); [done|].
  destruct (GetMasternodeRank _ _ _ _); [|done]. destruct (_ <? _); [done|].
  destruct (GetNextMasternodeInQueueForPayment _ _) as [script|]; [|done].
  destruct (Sign _ _) as [v|] eqn:Es; [|done]. unfold Sign in Es.
  destruct (SignMessage _ _) as [sig|]; [|done]. cbn [mbind option_bind] in Es. rewrite Ever in Es.
  destruct (verify _ _ _) eqn:Ev; [|done]. injection Es as <-. apply AddPaymentVote_ok; [done| |].
  - exists (active_pubkey env). now split.
  - unfold IsVerified. apply negb_true_iff, bool_decide_eq_false_2. cbn [vchSig]. intros E0. rewrite E0, Esig in Ev. done.
Qed.

Lemma UpdatedBlockTip_ok env m h : env_ok env -> votes_ok m -> votes_ok (UpdatedBlockTip env m h).
Proof. intros He Hm. apply ProcessBlock_ok; [done|]. now apply (votes_ok_same m). Qed.

(** *** Removing old votes *)

Definition old_vote (nLimit : Z) (m : CMasternodePayments) (v : CMasternodePaymentVote) : Prop :=
  nLimit < nCachedBlockHeight m - vote_height v.

Lemma remove_old_fold nLimit l m :
  let m' := fold_left (remove_old nLimit) l m in
  nCachedBlockHeight m' = nCachedBlockHeight m /\
  (forall h v, votes m' !! h = Some v <->
     votes m !! h = Some v /\ ~ exists w, (h, w) ∈ l /\ old_vote nLimit m w) /\
  (forall n b, blocks m' !! n = Some b <->
     blocks m !! n = Some b /\ ~ exists h w, (h, w) ∈ l /\ old_vote nLimit m w /\ vote_height w = n).
Proof.
  revert m. induction l as [|[h0 v0] l IH]; intros m; cbn [fold_left].
  { split; [done|]. split; intros; (split; [intros E; split; [done|]|tauto]);
      [intros (w & Hw & _)|intros (h' & w & Hw & _)]; now apply not_elem_of_nil in Hw. }
  destruct (IH (remove_old nLimit m (h0, v0))) as (Ec & Ev & Eb). cbv zeta.
  assert (Hc : nCachedBlockHeight (remove_old nLimit m (h0, v0)) = nCachedBlockHeight m)
    by (unfold remove_old; now destruct (_ <? _)).
  assert (Hold : forall w, old_vote nLimit (remove_old nLimit m (h0, v0)) w <-> old_vote nLimit m w)
    by (intros w; unfold old_vote; now rewrite Hc).
  set (m1 := remove_old nLimit m (h0, v0)) in *.
  assert (Hm1 : (old_vote nLimit m v0 /\ votes m1 = delete h0 (votes m) /\ blocks m1 = delete (vote_height v0) (blocks m)) \/
    (~ old_vote nLimit m v0 /\ votes m1 = votes m /\ blocks m1 = blocks m)).
  { unfold m1, remove_old, old_vote. destruct (Z.ltb_spec nLimit (nCachedBlockHeight m - vote_height v0));
      [left|right]; (split; [lia|done]). }
  clearbody m1. setoid_rewrite Hold in Ev. setoid_rewrite Hold in Eb. rewrite Hc in Ec. split; [done|].
  destruct Hm1 as [(Ho & E1 & E2)|(Ho & E1 & E2)]; rewrite E1 in Ev; rewrite E2 in Eb.
  - split.
    + intros h v. rewrite Ev, lookup_delete_Some. split.
      * intros [[Hne Hv] Hn]. split; [done|]. intros (w & Hw & How). apply elem_of_cons in Hw as [[= -> ->]|Hw]; [done|].
        apply Hn. exists w. split; [done|]. exact How.
      * intros [Hv Hn]. split; [split; [|done]|].
        -- intros <-. apply Hn. exists v0. split; [left|exact Ho].
        -- intros (w & Hw & How). apply Hn. exists w. split; [now right|exact How].
    + intros n b. rewrite Eb, lookup_delete_Some. split.
      * intros [[Hne Hb] Hn]. split; [done|]. intros (h & w & Hw & How & Ehw).
        apply elem_of_cons in Hw as [[= -> ->]|Hw]; [now apply Hne|]. apply Hn. exists h, w. now split.
      * intros [Hb Hn]. split; [split; [|done]|].
        -- intros <-. apply Hn. exists h0, v0. split; [left|now split].
        -- intros (h & w & Hw & How & Ehw). apply Hn. exists h, w. split; [now right|now split].
  - split.
    + intros h v. rewrite Ev. split; intros [Hv Hn]; (split; [done|]).
      * intros (w & Hw & How). apply elem_of_cons in Hw as [[= -> ->]|Hw]; [done|].
        apply Hn. now exists w.
      * intros (w & Hw & How). apply Hn. exists w. split; [now right|done].
    + intros n b. rewrite Eb. split; intros [Hv Hn]; (split; [done|]).
      * intros (h & w & Hw & How & Ehw). apply elem_of_cons in Hw as [[= -> ->]|Hw]; [done|].
        apply Hn. now exists h, w.
      * intros (h & w & Hw & How & Ehw). apply Hn. exists h, w. split; [now right|done].
Qed.

Lemma CheckAndRemove_ok env m : votes_ok m -> votes_ok (CheckAndRemove env m).
Proof.
  intros [H1 H2 H3 H4 H5 H6]. unfold CheckAndRemove. destruct (negb _); [done|].
  destruct (remove_old_fold (GetStorageLimit env) (map_to_list (votes m)) m) as (_ & Ev & Eb).
  set (m' := fold_left _ _ m) in *. clearbody m'. set (lim := GetStorageLimit env) in *.
  assert (Hv : forall h v, votes m' !! h = Some v <-> votes m !! h = Some v /\ ~ old_vote lim m v).
  { intros h v. rewrite Ev. split; intros [Hv Hn]; (split; [done|]).
    - intros Ho. apply Hn. exists v. now rewrite elem_of_map_to_list.
    - intros (w & Hw & Ho). rewrite elem_of_map_to_list, Hv in Hw. now injection Hw as <-. }
  split.
  - intros h v Hh. apply Hv in Hh as [Hh _]. now apply H1.
  - intros h v Hh. apply Hv in Hh as [Hh _]. now apply (H2 h).
  - intros n b Hb. apply Eb in Hb as [Hb _]. now apply H3.
  - intros n b Hb. apply Eb in Hb as [Hb _]. now apply (H4 n).
  - intros n b p Hb. apply Eb in Hb as [Hb _]. now apply (H5 n).
  - intros n script h. split.
    + intros (b & p & Hb & Hp & Hr). apply Eb in Hb as [Hb Hn].
      destruct (proj1 (H6 n script h)) as (v & Hvh & Hver & Hh & Hpay); [now exists b, p|].
      exists v. rewrite Hv. split; [split; [done|]|done]. intros Ho. apply Hn. exists h, v.
      rewrite elem_of_map_to_list. now split.
    + intros (v & Hvh & Hver & Hh & Hpay). apply Hv in Hvh as [Hvh Hno].
      destruct (proj2 (H6 n script h)) as (b & p & Hb & Hp & Hr); [now exists v|].
      exists b, p. split; [|done]. apply Eb. split; [done|]. intros (h' & w & Hw & How & Ehw).
      apply Hno. unfold old_vote in *. now rewrite Hh, <- Ehw.
Qed.

Lemma mn_reachable_ok m : mn_reachable m -> votes_ok m.
Proof.
  intros Hr. unfold mn_reachable in Hr. remember no_payments as m0 eqn:E0.
  assert (H0 : votes_ok m0) by (rewrite E0; apply no_payments_ok). clear E0.
  induction Hr as [m|m m1 m2 Hs Hr IH]; [done|]. apply IH.
  destruct Hs; [now apply ProcessVote_ok|now apply UpdatedBlockTip_ok|now apply CheckAndRemove_ok|apply Clear_ok].
Qed.
End Votes.

(** ** Votes and masternodes *)

#[local] Opaque vote_hash.

Section Voters.
Context (verify : list Z -> list Z -> COutPoint * Z * CScript -> bool) (authorised : COutPoint -> list Z -> Prop).
Abbreviation votes := mapMasternodePaymentVotes.
Abbreviation blocks := mapMasternodeBlocks.

(** The masternode [o] has a verified vote for [script] at height [n]. *)
Definition voted (m : CMasternodePayments) (n : Z) (script : CScript) (o : COutPoint) : Prop :=
  exists v, votes m !! vote_hash v = Some v /\ (IsVerified v = true /\ signed verify authorised v) /\
    signed_message v = (o, n, script).

(** So many different masternodes did. *)
Definition has_voters (m : CMasternodePayments) (n : Z) (script : CScript) (k : Z) : Prop :=
  exists os, NoDup os /\ k <= Z.of_nat (length os) /\ Forall (voted m n script) os.

Context (m : CMasternodePayments) (Hm : votes_ok verify authorised m).

Lemma hash_voter n script h : counted m n script h ->
  exists v, vote_hash v = h /\ votes m !! vote_hash v = Some v /\
    (IsVerified v = true /\ signed verify authorised v) /\ vote_height v = n /\ payee v = script.
Proof.
  intros (v & Hv & Hver & Hn & Hs)%(vo_counted _ _ _ Hm). exists v.
  pose proof (vo_signed _ _ _ Hm h v Hv Hver). pose proof (vo_key _ _ _ Hm h v Hv) as Eh. now rewrite Eh.
Qed.

(** The masternodes behind a list of different hashes. *)
Lemma hashes_voters n script hs : NoDup hs -> Forall (counted m n script) hs ->
  exists os, NoDup os /\ length os = length hs /\ Forall (voted m n script) os /\
    Forall (fun o => forall v, signed_message v = (o, n, script) -> vote_hash v ∈ hs) os.
Proof.
  induction hs as [|h hs IH]; intros Hd Hc.
  { exists []. split; [constructor|]. split; [done|]. now split. }
  apply list.NoDup_cons in Hd as [Hn Hd]. apply Forall_cons_1 in Hc as [Hh Hc].
  destruct (IH Hd Hc) as (os & Hos & Hl & Hv & Hin). destruct (hash_voter n script h Hh) as (v & Eh & Hvh & Hver & En & Es).
  assert (Em : signed_message v = (vinMasternode v, n, script)) by (unfold signed_message; now rewrite En, Es).
  exists (vinMasternode v :: os). split; [|split; [cbn [length]; now rewrite Hl|split]].
  - apply list.NoDup_cons. split; [|done]. intros Ho. rewrite list.Forall_forall in Hin.
    apply Hn. rewrite <- Eh. now apply (Hin (vinMasternode v) Ho).
  - constructor; [now exists v|done].
  - constructor.
    + intros w Ew. rewrite (vote_hash_eq w v) by congruence. rewrite Eh. left.
    + eapply list.Forall_impl; [exact Hin|]. cbn. intros o Hw w Ew. right. now apply Hw.
Qed.

(** A payee has as many votes as there are masternodes that voted for it. *)
Lemma vote_count_voters n b p k : blocks m !! n = Some b -> p ∈ vecPayees b ->
  k <= GetVoteCount p -> has_voters m n (GetPayee p) k.
Proof.
  intros Hb Hp Hk. destruct (hashes_voters n (GetPayee p) (vecVoteHashes p)) as (os & Hos & Hl & Hv & _).
  - now apply (vo_once _ _ _ Hm n b).
  - apply list.Forall_forall. intros h Hh. now exists b, p.
  - exists os. split; [done|]. split; [unfold GetVoteCount in Hk; lia|done].
Qed.

Lemma voters_hashes n script os : NoDup os -> Forall (voted m n script) os ->
  exists hs, NoDup hs /\ length hs = length os /\ Forall (counted m n script) hs /\
    Forall (fun h => exists v, votes m !! h = Some v /\ vinMasternode v ∈ os) hs.
Proof.
  induction os as [|o os IH]; intros Hd Hv.
  { exists []. split; [constructor|]. split; [done|]. now split. }
  apply list.NoDup_cons in Hd as [Hn Hd]. apply Forall_cons_1 in Hv as [(v & Hvh & [Hver _] & Em) Hv].
  destruct (IH Hd Hv) as (hs & Hhs & Hl & Hc & Hin). unfold signed_message in Em. injection Em as Eo En Es.
  exists (vote_hash v :: hs). split; [|split; [cbn [length]; now rewrite Hl|split]].
  - apply list.NoDup_cons. split; [|done]. intros Hh. rewrite list.Forall_forall in Hin.
    destruct (Hin _ Hh) as (w & Hw & Ho). rewrite Hvh in Hw. injection Hw as <-. now rewrite Eo in Ho.
  - constructor; [|done]. apply (vo_counted _ _ _ Hm). now exists v.
  - constructor; [exists v; rewrite Eo; split; [done|left]|].
    eapply list.Forall_impl; [exact Hin|]. cbn. intros h (w & Hw & Ho). exists w. split; [done|now right].
Qed.

Lemma voters_vote_count n script k : 0 < k -> has_voters m n script k ->
  exists b p, blocks m !! n = Some b /\ p ∈ vecPayees b /\ GetPayee p = script /\ k <= GetVoteCount p.
Proof.
  intros Hk (os & Hos & Hl & Hv). destruct (voters_hashes n script os Hos Hv) as (hs & Hhs & Ehs & Hc & _).
  destruct hs as [|h hs']; [cbn [length] in Ehs; lia|]. pose proof (Forall_inv Hc) as (b & p & Hb & Hp & Ep & _).
  exists b, p. split; [done|]. split; [done|]. split; [done|].
  assert (Hsub : h :: hs' ⊆ vecVoteHashes p).
  { intros x Hx. rewrite list.Forall_forall in Hc. destruct (Hc x Hx) as (b' & p' & Hb' & Hp' & Ep' & Hx').
    rewrite Hb in Hb'. injection Hb' as <-. pose proof (vo_distinct _ _ _ Hm n b Hb) as Hdist.
    assert (p' = p); [|now subst p'].
    clear -Hdist Hp Hp' Ep Ep'. subst script. induction (vecPayees b) as [|q ps IH]; [now apply not_elem_of_nil in Hp|].
    apply list.NoDup_cons in Hdist as [Hq Hd]. apply elem_of_cons in Hp, Hp'.
    destruct Hp as [->|Hp], Hp' as [->|Hp']; [done| | |now apply IH].
    - destruct Hq. rewrite <- Ep'. now apply list_elem_of_fmap_2.
    - destruct Hq. rewrite Ep'. now apply list_elem_of_fmap_2. }
  pose proof (submseteq_length _ _ (NoDup_submseteq _ _ Hhs Hsub)). unfold GetVoteCount. lia.
Qed.

(** The votes for a script at a height for which there are payees. *)
Lemma votes_iff n b script k : 0 < k -> blocks m !! n = Some b ->
  has_voters m n script k <-> exists p, p ∈ vecPayees b /\ GetPayee p = script /\ k <= GetVoteCount p.
Proof.
  intros Hk Hb. split.
  - intros (b' & p & Hb' & Hr)%(voters_vote_count n script k Hk). rewrite Hb in Hb'. injection Hb' as <-. now exists p.
  - intros (p & Hp & <- & Hc). now apply (vote_count_voters n b).
Qed.
End Voters.

(** ** The payees with the most votes *)

Lemma max_signatures_from ps n k :
  k <= fold_left (fun n p => if n <=? GetVoteCount p then GetVoteCount p else n) ps n <->
  k <= n \/ exists p, p ∈ ps /\ k <= GetVoteCount p.
Proof.
  revert n. induction ps as [|p ps IH]; intros n; cbn [fold_left].
  { split; [tauto|]. intros [H|(p & Hp & _)]; [done|now apply not_elem_of_nil in Hp]. }
  rewrite IH. setoid_rewrite elem_of_cons. split.
  - intros [H|(q & Hq & H)]; [|right; exists q; auto].
    destruct (Z.leb_spec n (GetVoteCount p)); [right; exists p; auto|now left].
  - intros [H|(q & [->|Hq] & H)]; [left| left|right; now exists q];
      destruct (Z.leb_spec n (GetVoteCount p)); lia.
Qed.

Lemma max_signatures_spec ps k : 0 < k ->
  k <= max_signatures ps <-> exists p, p ∈ ps /\ k <= GetVoteCount p.
Proof. intros Hk. unfold max_signatures. rewrite max_signatures_from. split; [intros [H|H]; [lia|done]|tauto]. Qed.

Lemma best_payee_spec ps n best :
  match best_payee ps n best with
  | Some s => (exists p, p ∈ ps /\ GetPayee p = s /\ n < GetVoteCount p /\ forall q, q ∈ ps -> GetVoteCount q <= GetVoteCount p) \/
              (best = Some s /\ forall q, q ∈ ps -> GetVoteCount q <= n)
  | None => best = None /\ forall q, q ∈ ps -> GetVoteCount q <= n
  end.
Proof.
  revert n best. induction ps as [|p ps IH]; intros n best; cbn [best_payee].
  { destruct best; [right|]; (split; [done|intros q Hq; now apply not_elem_of_nil in Hq]). }
  assert (Hall : forall k, GetVoteCount p <= k -> (forall q, q ∈ ps -> GetVoteCount q <= k) ->
    forall q, q ∈ p :: ps -> GetVoteCount q <= k).
  { intros k Hp Hq q [->|Hin]%elem_of_cons; auto. }
  destruct (Z.ltb_spec n (GetVoteCount p)) as [Hn|Hn].
  - specialize (IH (GetVoteCount p) (Some (GetPayee p))). destruct (best_payee ps _ _) as [s|].
    + left. destruct IH as [(q & Hq & Es & Hc & Hmax)|[[= <-] Hmax]].
      * exists q. split; [now right|]. split; [done|]. split; [lia|]. apply Hall; [lia|done].
      * exists p. split; [left|]. split; [done|]. split; [done|]. apply Hall; [lia|done].
    + now destruct IH.
  - specialize (IH n best). destruct (best_payee ps n best) as [s|].
    + destruct IH as [(q & Hq & Es & Hc & Hmax)|[E Hmax]]; [left|right].
      * exists q. split; [now right|]. split; [done|]. split; [done|]. apply Hall; [lia|done].
      * split; [done|]. now apply Hall.
    + destruct IH as [E Hmax]. split; [done|]. now apply Hall.
Qed.

Lemma GetBestPayee_spec b :
  match GetBestPayee b with
  | Some s => exists p, p ∈ vecPayees b /\ GetPayee p = s /\ forall q, q ∈ vecPayees b -> GetVoteCount q <= GetVoteCount p
  | None => vecPayees b = []
  end.
Proof.
  unfold GetBestPayee. pose proof (best_payee_spec (vecPayees b) (-1) None) as H.
  destruct (best_payee _ _ _) as [s|].
  - destruct H as [(p & Hp & Es & _ & Hmax)|[E _]]; [now exists p|done].
  - destruct H as [_ H]. destruct (vecPayees b) as [|p ps]; [done|].
    specialize (H p (list_elem_of_here _ _)). unfold GetVoteCount in H. lia.
Qed.

Lemma existsb_pays tx amount ps : existsb (pays tx amount) ps = true <->
  exists p o, p ∈ ps /\ MNPAYMENTS_SIGNATURES_REQUIRED <= GetVoteCount p /\
    o ∈ vout tx /\ scriptPubKey o = GetPayee p /\ nValue o = amount.
Proof.
  rewrite existsb_exists. unfold pays. setoid_rewrite andb_true_iff. setoid_rewrite Z.leb_le. setoid_rewrite existsb_exists.
  setoid_rewrite andb_true_iff. setoid_rewrite bool_decide_eq_true. setoid_rewrite Z.eqb_eq.
  setoid_rewrite <- list_elem_of_In. split.
  - intros (p & Hp & Hc & o & Ho & Es & Ev). now exists p, o.
  - intros (p & o & Hp & Hc & Ho & Es & Ev). exists p. split; [done|]. split; [done|]. now exists o.
Qed.

(** ** What is enforced and what is paid *)

Section Payees.
Context (verify : list Z -> list Z -> COutPoint * Z * CScript -> bool) (authorised : COutPoint -> list Z -> Prop).
Abbreviation votes := mapMasternodePaymentVotes.
Abbreviation blocks := mapMasternodeBlocks.
Abbreviation has_voters := (has_voters verify authorised).
Abbreviation mn_reachable := (mn_reachable verify authorised).

Lemma no_voters m n script k : votes_ok verify authorised m -> 0 < k -> blocks m !! n = None ->
  ~ has_voters m n script k.
Proof.
  intros Hm Hk Hn Hv. destruct (voters_vote_count verify authorised m Hm n script k Hk Hv) as (b & p & Hb & _).
  congruence.
Qed.

(** C28. However votes arrived, a coinbase transaction is accepted exactly when no script has
    the signed votes of six different masternodes for the height, or when the transaction
    pays the masternodes' share of its value to such a script. *)
Theorem IsTransactionValid_correct params m tx n v : mn_reachable m -> GetValueOut tx = inr v ->
  exists ok, IsTransactionValid params m tx n = inr ok /\
    (ok = true <->
     (forall script, ~ has_voters m n script MNPAYMENTS_SIGNATURES_REQUIRED) \/
     exists script o, has_voters m n script MNPAYMENTS_SIGNATURES_REQUIRED /\
       o ∈ vout tx /\ scriptPubKey o = script /\ nValue o = GetMasternodePayment params n v).
Proof.
  intros Hm%mn_reachable_ok Hv. unfold IsTransactionValid.
  destruct (blocks m !! n) as [b|] eqn:Hb.
  2:{ exists true. split; [done|]. split; [|done]. intros _. left. intros script. now apply no_voters. }
  unfold payees_IsTransactionValid. rewrite Hv, (vo_heights _ _ _ Hm n b Hb). cbn [mbind throws_bind].
  pose proof (fun script => votes_iff verify authorised m Hm n b script MNPAYMENTS_SIGNATURES_REQUIRED eq_refl Hb) as Hi.
  setoid_rewrite Hi. destruct (Z.ltb_spec (max_signatures (vecPayees b)) MNPAYMENTS_SIGNATURES_REQUIRED) as [Hmax|Hmax].
  - exists true. split; [done|]. split; [|done]. intros _. left. intros script (p & Hp & _ & Hc).
    pose proof (proj2 (max_signatures_spec (vecPayees b) MNPAYMENTS_SIGNATURES_REQUIRED eq_refl)
      (ex_intro _ p (conj Hp Hc))). lia.
  - eexists. split; [done|]. rewrite existsb_pays. split.
    + intros (p & o & Hp & Hc & Ho & Es & Ev). right. exists (GetPayee p), o. split; [now exists p|done].
    + intros [Hno|(script & o & (p & Hp & <- & Hc) & Ho & Es & Ev)]; [|now exists p, o].
      apply (max_signatures_spec _ MNPAYMENTS_SIGNATURES_REQUIRED eq_refl) in Hmax as (p & Hp & Hc). now destruct (Hno (GetPayee p)); exists p.
Qed.

(** [GetBlockPayee] finds a script for which no other one has votes of more masternodes,
    and nothing only when no masternode voted for the height. *)
Theorem GetBlockPayee_correct m n : mn_reachable m ->
  match GetBlockPayee m n with
  | Some script => exists k, has_voters m n script k /\ forall script' k', has_voters m n script' k' -> k' <= k
  | None => forall script k, has_voters m n script k -> k <= 0
  end.
Proof.
  intros Hm%mn_reachable_ok. unfold GetBlockPayee. destruct (blocks m !! n) as [b|] eqn:Hb; cbn [mbind option_bind].
  2:{ intros script k Hv. destruct (Z.le_gt_cases k 0) as [|Hk]; [done|]. exfalso.
      apply (no_voters m n script k); [done|lia|done|done]. }
  pose proof (GetBestPayee_spec b) as H. destruct (GetBestPayee b) as [s|].
  - destruct H as (p & Hp & <- & Hmax). exists (GetVoteCount p).
    split; [apply (vote_count_voters verify authorised m Hm n b); [done|done|lia]|].
    intros s' k' Hv. destruct (Z.le_gt_cases k' 0) as [|Hk]; [unfold GetVoteCount; lia|].
    apply (votes_iff verify authorised m Hm n b s' k') in Hv as (q & Hq & _ & Hc); [|lia|done].
    specialize (Hmax q Hq). lia.
  - intros s' k' Hv. destruct (Z.le_gt_cases k' 0) as [|Hk]; [done|].
    apply (votes_iff verify authorised m Hm n b s' k') in Hv as (q & Hq & _ & Hc); [|lia|done].
    rewrite H in Hq. now apply not_elem_of_nil in Hq.
Qed.
End Payees.

(** ** A concrete node *)

(** Any signature of one byte is one of the key [[1]], which all masternodes have. *)
Definition demo_verify (pk sig : list Z) (msg : COutPoint * Z * CScript) : bool :=
  (length sig =? 1)%nat && bool_decide (pk = [1]).
Definition demo_authorised (o : COutPoint) (pk : list Z) : Prop := pk = [1].
Definition demo_env : mn_env := {|
  fLiteMode := false; fMasternodeMode := false; IsBlockchainSynced := true; IsMasternodeListSynced := true;
  spork_active := fun _ => true; mn_count := 7; GetMasternodeInfo := fun _ => Some (mk_info [1] 70208);
  GetMasternodeRank := fun _ _ _ => Some 3; GetNextMasternodeInQueueForPayment := fun _ => Some [0x51];
  VerifyMessage := demo_verify; have_block := fun _ => true;
  activeMasternode := mk_outpoint (replicate 32 9) 0; active_pubkey := [1]; SignMessage := fun _ => Some [1] |}.

Lemma demo_mn_env_ok : env_ok demo_verify demo_authorised demo_env.
Proof.
  split; [done|done| |done]. intros o info [= <-]. reflexivity.
Qed.

(** Six masternodes vote for the script [0x52] and one for [0x51]. *)
Definition demo_votes : list CMasternodePaymentVote :=
  ((fun k => mk_vote (mk_outpoint (replicate 32 k) 0) 1005 (if k =? 7 then [0x51] else [0x52]) [k])
     <$> [1; 2; 7; 3; 4; 5; 6]).
Definition demo_payments : CMasternodePayments :=
  fold_left (fun m v => (ProcessVote demo_env 70208 m v).1) demo_votes (UpdatedBlockTip demo_env no_payments 1000).

Lemma demo_payments_reachable : mn_reachable demo_verify demo_authorised demo_payments.
Proof.
  unfold mn_reachable, demo_payments. apply (rtc_l _ _ (UpdatedBlockTip demo_env no_payments 1000)).
  { apply step_block, demo_mn_env_ok. }
  generalize (UpdatedBlockTip demo_env no_payments 1000). induction demo_votes as [|v vs IH]; intros m; cbn [fold_left].
  { apply rtc_refl. }
  eapply rtc_l; [|apply IH]. apply step_message, demo_mn_env_ok.
Qed.

Definition demo_pay_tx (script : CScript) : CTransaction :=
  mk_tx 1 [mk_txin (mk_outpoint (replicate 32 0) 0xFFFFFFFF) [1; 2] 0]
    [mk_txout 800 [0x53] (-10); mk_txout 200 script (-10)] 0 null_hash.

Lemma IsTransactionValid_correct_witness :
  IsTransactionValid main_subsidy demo_payments (demo_pay_tx [0x52]) 1005 = inr true /\
  IsTransactionValid main_subsidy demo_payments (demo_pay_tx [0x51]) 1005 = inr false /\
  exists ok, IsTransactionValid main_subsidy demo_payments (demo_pay_tx [0x52]) 1005 = inr ok /\
    (ok = true <->
     (forall script, ~ has_voters demo_verify demo_authorised demo_payments 1005 script MNPAYMENTS_SIGNATURES_REQUIRED) \/
     exists script o, has_voters demo_verify demo_authorised demo_payments 1005 script MNPAYMENTS_SIGNATURES_REQUIRED /\
       o ∈ vout (demo_pay_tx [0x52]) /\ scriptPubKey o = script /\ nValue o = GetMasternodePayment main_subsidy 1005 1000).
Proof.
  split; [vm_compute; reflexivity|]. split; [vm_compute; reflexivity|].
  exact (IsTransactionValid_correct demo_verify demo_authorised main_subsidy demo_payments (demo_pay_tx [0x52]) 1005 1000
    demo_payments_reachable eq_refl).
Defined.

Lemma GetBlockPayee_correct_witness :
  GetBlockPayee demo_payments 1005 = Some [0x52] /\
  match GetBlockPayee demo_payments 1005 with
  | Some script => exists k, has_voters demo_verify demo_authorised demo_payments 1005 script k /\
      forall script' k', has_voters demo_verify demo_authorised demo_payments 1005 script' k' -> k' <= k
  | None => forall script k, has_voters demo_verify demo_authorised demo_payments 1005 script k -> k <= 0
  end.
Proof.
  split; [vm_compute; reflexivity|].
  exact (GetBlockPayee_correct demo_verify demo_authorised demo_payments 1005 demo_payments_reachable).
Defined.

(** A vote with a signature that does not verify is remembered with its hash, which does not
    cover the signature, so that the same vote with a good signature is not looked at: it is
    never counted. *)
Definition forged_vote : CMasternodePaymentVote := mk_vote (mk_outpoint (replicate 32 8) 0) 1005 [0x52] [0; 0].
Definition genuine_vote : CMasternodePaymentVote := mk_vote (mk_outpoint (replicate 32 8) 0) 1005 [0x52] [8].
Lemma forged_vote_blocks_genuine :
  demo_verify [1] (vchSig genuine_vote) (signed_message genuine_vote) = true /\
  let m := (ProcessVote demo_env 70208 demo_payments forged_vote).1 in
  ProcessVote demo_env 70208 m genuine_vote = (m, []) /\
  HasVerifiedPaymentVote m (vote_hash genuine_vote) = false.
Proof.
  split; [reflexivity|]. cbv zeta. split.
  - assert (E : mapMasternodePaymentVotes (ProcessVote demo_env 70208 demo_payments forged_vote).1 !! vote_hash genuine_vote
      = Some (MarkAsNotVerified forged_vote)) by (vm_compute; reflexivity).
    unfold ProcessVote at 1. rewrite E. reflexivity.
  - vm_compute. reflexivity.
Qed.

(** Only the last height a masternode voted for is remembered, so that it can vote twice for
    a height, with different payees, if it votes for another one in between. *)
Lemma alternating_heights_vote_twice :
  let vote h script := mk_vote (mk_outpoint (replicate 32 8) 0) h script [8] in
  let m := fold_left (fun m v => (ProcessVote demo_env 70208 m v).1)
    [vote 1005 [0x52]; vote 1006 [0x52]; vote 1005 [0x51]] demo_payments in
  HasVerifiedPaymentVote m (vote_hash (vote 1005 [0x52])) = true /\
  HasVerifiedPaymentVote m (vote_hash (vote 1005 [0x51])) = true.
Proof. vm_compute. split; reflexivity. Qed.
