(* ===== verification/BlockPayees.v ===== *)
(** * Who a block pays ([masternode-payments.cpp], [governance-classes.cpp])

    The check that a coinbase transaction pays a masternode or a superblock, and the payments
    that a miner puts into its own coinbase transaction.  The theorem joins the two with the
    check of the value (Subsidy.v) and the votes (MasternodePayments.v): what the miner makes
    is accepted, but for a superblock beyond its limit. *)

From Corelib Require Import SpecFloat.
From stdpp Require Import gmap.
From S2P Require Import Prelude Words Transaction TxCheck Subsidy MasternodePayments.

Section BlockPayees.
Variable pow : spec_float -> spec_float -> spec_float.
Context (params : SubsidyParams).

(** ** The check *)

(** [None] is the loop of [GetBlockSubsidy] that does not end. *)
Definition IsBlockPayeeValid (env : node_view) (mnpayments : CMasternodePayments) (txNew : CTransaction)
    (nBlockHeight blockReward : Z) : option (throws bool) :=
  if negb (IsSynced env) then Some (mret true)
  else if nBlockHeight <? nSuperblockStartBlock params then
    Some (
      valid ← IsTransactionValid params mnpayments txNew nBlockHeight;
      if valid : bool then mret true
      else if in_budget_window params nBlockHeight then mret (IsSporkActive env SPORK_13_OLD_SUPERBLOCK_FLAG)
      else mret (negb (IsSporkActive env SPORK_8_MASTERNODE_PAYMENT_ENFORCEMENT)))
  else if IsSporkActive env SPORK_9_SUPERBLOCKS_ENABLED && IsSuperblockTriggered params env nBlockHeight
  then superblock_manager_IsValid pow params env txNew nBlockHeight blockReward
  else Some (
    valid ← IsTransactionValid params mnpayments txNew nBlockHeight;
    if valid : bool then mret true
    else mret (negb (IsSporkActive env SPORK_8_MASTERNODE_PAYMENT_ENFORCEMENT))).

(** ** The payments of a new block *)

(** On the outputs of the coinbase transaction. *)
Definition CreateSuperblock (env : node_view) (vout : list CTxOut) (nBlockHeight : Z) : list CTxOut :=
  match GetBestSuperblock env nBlockHeight with
  | None => vout
  | Some sb => vout ++ ((fun p => mk_txout p.2 p.1 (nRounds CTxOut_null)) <$> sb)
  end.

Definition FillBlockPayments (env : node_view) (mnenv : mn_env) (mnpayments : CMasternodePayments)
    (vout : list CTxOut) (nBlockHeight blockReward : Z) : option (list CTxOut) :=
  if IsSporkActive env SPORK_9_SUPERBLOCKS_ENABLED && IsSuperblockTriggered params env nBlockHeight
  then Some (CreateSuperblock env vout nBlockHeight)
  else FillBlockPayee params mnenv mnpayments vout nBlockHeight blockReward.
End BlockPayees.

(** ** Values *)

Lemma GetValueOut_ok tx : values_ok (vout tx) 0 -> GetValueOut tx = inr (value_of (vout tx)).
Proof. intros H. exact (proj1 (value_out_spec (vout tx) 0 in_range_0) H). Qed.

Lemma value_of_app outs outs' : value_of (outs ++ outs') = value_of outs + value_of outs'.
Proof. unfold value_of. induction outs as [|o outs IH]; cbn [app foldr]; lia. Qed.

Definition payment_out (p : CScript * Z) : CTxOut := mk_txout p.2 p.1 (nRounds CTxOut_null).

Lemma payments_total sb : value_of (payment_out <$> sb) = GetPaymentsTotalAmount sb.
Proof.
  unfold value_of, GetPaymentsTotalAmount. induction sb as [|p sb IH]; cbn [fmap list_fmap foldr]; [done|].
  rewrite IH. reflexivity.
Qed.

Lemma GetMasternodePayment_bounds params h v : 0 <= v -> 0 <= GetMasternodePayment params h v <= v.
Proof.
  intros Hv. unfold GetMasternodePayment. rewrite !Z.quot_div_nonneg by lia.
  pose proof (Z.div_mod v 5 ltac:(lia)). pose proof (Z.mod_pos_bound v 5 ltac:(lia)).
  pose proof (Z.div_mod v 20 ltac:(lia)). pose proof (Z.mod_pos_bound v 20 ltac:(lia)).
  destruct (_ <? h); lia.
Qed.

(** ** The payments of a superblock are found in their own outputs *)

Lemma find_payment_at p outs j k o : outs !! k = Some o -> p.1 = scriptPubKey o -> p.2 = nValue o ->
  exists k', (k' <= k)%nat /\ find_payment p outs j = Some (j + k')%nat.
Proof.
  revert j k. induction outs as [|o' outs IH]; intros j k Hk Es Ev; [done|]. cbn [find_payment].
  destruct (bool_decide (p.1 = scriptPubKey o') && (p.2 =? nValue o')) eqn:Eo.
  { exists 0%nat. split; [lia|]. f_equal. lia. }
  destruct k as [|k]; cbn in Hk.
  - injection Hk as ->. rewrite Es, Ev, bool_decide_true, Z.eqb_refl in Eo by done. done.
  - destruct (IH (S j) k Hk Es Ev) as (k' & Hle & ->). exists (S k'). split; [lia|]. f_equal. lia.
Qed.

Lemma match_payments_own (o : CTxOut) paid sb n : (n <= length paid + 1)%nat ->
  match_payments sb (o :: (payment_out <$> paid ++ sb)) n = true.
Proof.
  revert paid n. induction sb as [|p sb IH]; intros paid n Hn; cbn [match_payments]; [reflexivity|].
  assert (Hp : drop n (o :: (payment_out <$> paid ++ p :: sb)) !! (length paid + 1 - n)%nat = Some (payment_out p)).
  { rewrite lookup_drop. replace (n + _)%nat with (S (length paid)) by lia.
    change ((payment_out <$> paid ++ p :: sb) !! length paid = Some (payment_out p)).
    rewrite list_lookup_fmap, list_lookup_middle by done. reflexivity. }
  destruct (find_payment_at p _ n _ _ Hp eq_refl eq_refl) as (k' & Hk & ->).
  specialize (IH (paid ++ [p]) (n + k')%nat). rewrite <- app_assoc in IH. apply IH.
  rewrite length_app. cbn [length]. lia.
Qed.

Section Accepted.
Variable pow : spec_float -> spec_float -> spec_float.
Context (params : SubsidyParams) (Hhalving : 0 < nSubsidyHalvingInterval params)
  (Hcycle : 0 < nSuperblockCycle params).
Context (verify : list Z -> list Z -> COutPoint * Z * CScript -> bool) (authorised : COutPoint -> list Z -> Prop).

(** *** A masternode is paid *)

(** The payee found by [FillBlockPayee] is one that [IsTransactionValid] accepts. *)
Lemma FillBlockPayee_valid mnenv m o h reward tx :
  votes_ok verify authorised m -> in_range reward -> nValue o = reward ->
  FillBlockPayee params mnenv m [o] h reward = Some (vout tx) ->
  GetValueOut tx = inr reward /\ IsTransactionValid params m tx h = inr true.
Proof.
  intros Hm Hr Ho Hf. pose proof (GetMasternodePayment_bounds params h reward (proj1 Hr)) as Hb.
  assert (Hv : GetValueOut tx = inr reward).
  { rewrite GetValueOut_ok; unfold FillBlockPayee in Hf; destruct (match GetBlockPayee m h with Some p => Some p | None => _ end);
      injection Hf as <-; unfold value_of; cbn [foldr nValue app]; rewrite ?Ho; try (f_equal; lia);
      (split; [repeat constructor; cbn [nValue]; unfold in_range in *; lia|cbn [value_of foldr nValue]; unfold in_range in *; lia]). }
  split; [done|]. unfold IsTransactionValid. destruct (mapMasternodeBlocks m !! h) as [b|] eqn:Eb; [|done].
  unfold payees_IsTransactionValid. rewrite Hv, (vo_heights _ _ _ Hm h b Eb). cbn [mbind throws_bind].
  destruct (Z.ltb_spec (max_signatures (vecPayees b)) MNPAYMENTS_SIGNATURES_REQUIRED) as [|Hmax]; [done|].
  apply (max_signatures_spec _ MNPAYMENTS_SIGNATURES_REQUIRED eq_refl) in Hmax as (q & Hq & Hc).
  unfold mret, throws_ret. f_equal. apply existsb_pays.
  unfold FillBlockPayee, GetBlockPayee in Hf. rewrite Eb in Hf. cbn [mbind option_bind] in Hf.
  pose proof (GetBestPayee_spec b) as Hbest. destruct (GetBestPayee b) as [s|].
  - destruct Hbest as (p & Hp & Es & Hmax). injection Hf as Hout.
    exists p, (mk_txout (GetMasternodePayment params h reward) s (nRounds CTxOut_null)).
    split; [done|]. split; [specialize (Hmax q Hq); lia|]. rewrite <- Hout. split; [right; left|]. now split.
  - rewrite Hbest in Hq. now apply not_elem_of_nil in Hq.
Qed.

(** *** A superblock is paid *)

(** A superblock whose payments are within the limit for the height. *)
Record superblock_ok (sb : list (CScript * Z)) (h reward : Z) : Prop := {
  sb_amounts : Forall (fun p => 0 <= p.2) sb;
  sb_limit : GetPaymentsTotalAmount sb <= superblock_limit pow params h;
  sb_total : reward + GetPaymentsTotalAmount sb <= MAX_MONEY }.

Lemma payments_values sb reward : 0 <= reward -> Forall (fun p => 0 <= p.2) sb ->
  reward + GetPaymentsTotalAmount sb <= MAX_MONEY ->
  0 <= GetPaymentsTotalAmount sb /\ Forall (fun o => in_range (nValue o)) (payment_out <$> sb).
Proof.
  intros Hr Hsb Hm. assert (Hall : forall t, 0 <= t -> t + GetPaymentsTotalAmount sb <= MAX_MONEY ->
    0 <= GetPaymentsTotalAmount sb /\ Forall (fun o => in_range (nValue o)) (payment_out <$> sb)); [|now apply (Hall reward)].
  clear Hr Hm reward. unfold GetPaymentsTotalAmount.
  induction Hsb as [|p sb Hp Hsb IH]; cbn [foldr fmap list_fmap]; intros t Ht Hm; [split; [lia|constructor]|].
  destruct (IH (t + p.2)) as [H1 H2]; [lia|lia|]. split; [lia|]. constructor; [|done].
  unfold in_range. cbn [payment_out nValue]. lia.
Qed.

(** The outputs of a block that pays a superblock have a value. *)
Lemma superblock_values sb o reward : in_range reward -> nValue o = reward ->
  (values_ok (o :: (payment_out <$> sb)) 0 <-> Forall (fun p => 0 <= p.2) sb /\ reward + GetPaymentsTotalAmount sb <= MAX_MONEY).
Proof.
  intros Hr Ho. assert (Ev : value_of (o :: (payment_out <$> sb)) = reward + GetPaymentsTotalAmount sb).
  { unfold value_of. cbn [foldr]. fold (value_of (payment_out <$> sb)). now rewrite payments_total, Ho. }
  unfold values_ok. rewrite Ev, Z.add_0_l, list.Forall_cons, Ho. split.
  - intros [[_ Hall] Ht]. split; [|done]. apply list.Forall_forall. intros p Hp.
    pose proof (proj1 (list.Forall_forall _ _) Hall (payment_out p) (list_elem_of_fmap_2 _ _ _ Hp)) as Hin. unfold in_range in Hin. cbn [payment_out nValue] in Hin. lia.
  - intros [Ha Ht]. destruct (payments_values sb reward (proj1 Hr) Ha Ht) as [_ Hin]. done.
Qed.

(** What [CreateSuperblock] makes is what [CSuperblock::IsValid] asks for, up to the limit. *)
Lemma CreateSuperblock_valid sb o h reward tx : 1 <= h -> IsValidBlockHeight params h = true ->
  vout tx = o :: (payment_out <$> sb) -> GetValueOut tx = inr (reward + GetPaymentsTotalAmount sb) ->
  superblock_IsValid pow params sb tx h reward = Some (inr (GetPaymentsTotalAmount sb <=? superblock_limit pow params h)).
Proof.
  intros Hh Hvalid Hout Hv. unfold superblock_IsValid. rewrite Hvalid, Hout. cbn [negb length]. rewrite length_fmap.
  rewrite (proj2 (Z.ltb_ge _ 0)) by lia. rewrite (GetPaymentsLimit_spec pow params Hhalving h Hh). cbn [mbind option_bind].
  destruct (Z.ltb_spec (superblock_limit pow params h) (GetPaymentsTotalAmount sb)).
  { now rewrite (proj2 (Z.leb_gt _ _)) by lia. }
  rewrite Hv. cbn [mbind throws_bind]. rewrite (proj2 (Z.ltb_ge _ _)) by lia. rewrite (proj2 (Z.leb_le _ _)) by lia.
  pose proof (match_payments_own o [] sb 0 (Nat.le_0_l _)) as E. cbn [app] in E. now rewrite E.
Qed.

(** *** The new block *)

(** The superblock that is due can be paid: it is within the limit for the height, and the sum within the range of money.
    A node that is not synchronized does not look for the superblock. *)
Definition superblock_payable (env : node_view) (h reward : Z) : Prop :=
  IsSporkActive env SPORK_9_SUPERBLOCKS_ENABLED = true -> IsSuperblockTriggered params env h = true ->
  match GetBestSuperblock env h with
  | Some sb => superblock_ok sb h reward
  | None => IsSynced env = false
  end.

Lemma triggered_height env h : IsSuperblockTriggered params env h = true ->
  IsValidBlockHeight params h = true /\ nSuperblockStartBlock params <= h.
Proof.
  unfold IsSuperblockTriggered. destruct (IsValidBlockHeight params h) eqn:E; [|done]. intros _. split; [done|].
  unfold IsValidBlockHeight in E. apply andb_true_iff in E as [E _]. lia.
Qed.

Lemma FillBlockPayee_total mnenv m o h reward : exists outs, FillBlockPayee params mnenv m [o] h reward = Some outs.
Proof. unfold FillBlockPayee. destruct (match GetBlockPayee m h with Some p => Some p | None => _ end); by eexists. Qed.

(** Both checks of the payments of a block succeed. *)
Definition payments_accepted (env : node_view) (m : CMasternodePayments) (tx : CTransaction) (h reward : Z) : Prop :=
  IsBlockValueValid pow params env tx h reward = Some (inr true) /\
  IsBlockPayeeValid pow params env m tx h reward = Some (inr true).

(** With the superblock [sb]. *)
Lemma superblock_accepted env m sb o h reward tx : 1 <= h -> in_range reward -> nValue o = reward ->
  IsSporkActive env SPORK_9_SUPERBLOCKS_ENABLED = true -> IsSuperblockTriggered params env h = true ->
  GetBestSuperblock env h = Some sb -> vout tx = o :: (payment_out <$> sb) ->
  (payments_accepted env m tx h reward <-> superblock_ok sb h reward).
Proof.
  intros Hh Hr Ho E9 Etr Ebest Hout. destruct (triggered_height env h Etr) as [Hvalid Hstart].
  destruct (value_out_spec (vout tx) 0 in_range_0) as [Hyes Hno]. pose proof (superblock_values sb o reward Hr Ho) as Hvals.
  rewrite Hout in Hyes, Hno. unfold payments_accepted, IsBlockValueValid, IsBlockPayeeValid, GetValueOut.
  rewrite E9, Etr, (GetPaymentsLimit_spec pow params Hhalving h Hh), Hout. cbn [andb].
  destruct (decide (Forall (fun p => 0 <= p.2) sb /\ reward + GetPaymentsTotalAmount sb <= MAX_MONEY)) as [Hok|Hbad].
  2:{ rewrite Hno by now rewrite Hvals. split; [now intros [? _]|]. intros [H1 _ H2]. now destruct Hbad. }
  specialize (Hyes (proj2 Hvals Hok)).
  assert (Ev : 0 + value_of (o :: (payment_out <$> sb)) = reward + GetPaymentsTotalAmount sb).
  { unfold value_of. cbn [foldr]. fold (value_of (payment_out <$> sb)). rewrite payments_total, Ho. lia. }
  rewrite Ev in Hyes. rewrite Hyes, (proj2 (Z.ltb_ge _ _) Hstart). cbn [mbind option_bind]. unfold superblock_manager_IsValid.
  rewrite Ebest, (CreateSuperblock_valid sb o h reward tx Hh Hvalid Hout) by (unfold GetValueOut; now rewrite Hout).
  rewrite Hvalid. destruct Hok as [Ha Ht].
  assert (Hiff : superblock_ok sb h reward <-> GetPaymentsTotalAmount sb <= superblock_limit pow params h)
    by (split; [now intros []|now split]).
  rewrite Hiff. destruct (IsSynced env); cbn [negb].
  - destruct (Z.leb_spec (GetPaymentsTotalAmount sb) (superblock_limit pow params h)); [done|]. split; [now intros [? _]|lia].
  - destruct (Z.leb_spec (reward + GetPaymentsTotalAmount sb) (reward + superblock_limit pow params h)).
    + split; [intros _; lia|done].
    + split; [now intros [? _]|lia].
Qed.

(** Without a superblock. *)
Lemma payee_accepted env mnenv m o h reward tx : votes_ok verify authorised m -> 1 <= h -> in_range reward -> nValue o = reward ->
  IsSporkActive env SPORK_9_SUPERBLOCKS_ENABLED && IsSuperblockTriggered params env h = false ->
  FillBlockPayee params mnenv m [o] h reward = Some (vout tx) -> payments_accepted env m tx h reward.
Proof.
  intros Hm Hh Hr Ho Etr Hf. unfold payments_accepted, IsBlockValueValid, IsBlockPayeeValid.
  rewrite Etr, (GetPaymentsLimit_spec pow params Hhalving h Hh).
  destruct (FillBlockPayee_valid mnenv m o h reward tx Hm Hr Ho Hf) as [-> ->].
  rewrite Z.leb_refl. cbn [mbind option_bind throws_bind]. split.
  - destruct (h <? _); [destruct (in_budget_window params h); [destruct (IsSynced env && _)|]; reflexivity|].
    pose proof (superblock_limit_nonneg pow params h Hcycle).
    destruct (IsSynced env); cbn [negb]; [reflexivity|]. destruct (IsValidBlockHeight params h) eqn:E; [|reflexivity].
    f_equal. f_equal. lia.
  - destruct (IsSynced env); [|reflexivity]. cbn [negb]. destruct (h <? _); reflexivity.
Qed.

(** A superblock is due, but there is none. *)
Lemma missing_superblock env m o h reward tx : 1 <= h -> in_range reward -> nValue o = reward ->
  IsSporkActive env SPORK_9_SUPERBLOCKS_ENABLED = true -> IsSuperblockTriggered params env h = true ->
  GetBestSuperblock env h = None -> vout tx = [o] -> (payments_accepted env m tx h reward <-> IsSynced env = false).
Proof.
  intros Hh Hr Ho E9 Etr Ebest Hout. destruct (triggered_height env h Etr) as [Hvalid Hstart].
  assert (Ev : GetValueOut tx = inr reward).
  { assert (Evo : value_of [o] = reward) by (unfold value_of; cbn [foldr]; lia).
    rewrite GetValueOut_ok; rewrite Hout; [now rewrite Evo|]. split; [constructor; [now rewrite Ho|constructor]|].
    rewrite Evo. unfold in_range in Hr. lia. }
  unfold payments_accepted, IsBlockValueValid, IsBlockPayeeValid, superblock_manager_IsValid.
  rewrite Ev, E9, Etr, Ebest, Hvalid, (proj2 (Z.ltb_ge _ _) Hstart), (GetPaymentsLimit_spec pow params Hhalving h Hh).
  cbn [mbind option_bind andb]. pose proof (superblock_limit_nonneg pow params h Hcycle).
  destruct (IsSynced env); cbn [negb]; [split; [now intros [? _]|done]|]. split; [done|]. intros _. split; [|done].
  f_equal. f_equal. lia.
Qed.

(** C29. The payments that [FillBlockPayments] adds to a coinbase transaction that pays the whole reward to the miner make
    one that passes the checks of its value and of its payee, on every node with the same votes and the same
    governance data, exactly if no superblock is due or the one that is due can be paid: its amounts are
    not negative, within the limit for the height, and with the reward within the range of money.  The
    miner does not look at the limit: while the superblock with the most votes is beyond it, every block that it
    makes for the height is rejected, by itself too. *)
Theorem FillBlockPayments_accepted env mnenv m o h reward :
  mn_reachable verify authorised m -> 1 <= h -> in_range reward -> nValue o = reward ->
  exists outs, FillBlockPayments params env mnenv m [o] h reward = Some outs /\
    forall tx, vout tx = outs ->
      (IsBlockValueValid pow params env tx h reward = Some (inr true) /\
       IsBlockPayeeValid pow params env m tx h reward = Some (inr true)) <-> superblock_payable env h reward.
Proof.
  intros Hm%mn_reachable_ok Hh Hr Ho. unfold FillBlockPayments, superblock_payable.
  destruct (IsSporkActive env SPORK_9_SUPERBLOCKS_ENABLED && IsSuperblockTriggered params env h) eqn:Etr.
  - pose proof Etr as [E9 Ht]%andb_true_iff. unfold CreateSuperblock. eexists. split; [reflexivity|]. intros tx Hout.
    assert (Himp : forall P : Prop, (IsSporkActive env SPORK_9_SUPERBLOCKS_ENABLED = true ->
      IsSuperblockTriggered params env h = true -> P) <-> P) by (intros P; rewrite E9, Ht; tauto).
    rewrite Himp. destruct (GetBestSuperblock env h) as [sb|] eqn:Ebest.
    + exact (superblock_accepted env m sb o h reward tx Hh Hr Ho E9 Ht Ebest Hout).
    + exact (missing_superblock env m o h reward tx Hh Hr Ho E9 Ht Ebest Hout).
  - destruct (FillBlockPayee_total mnenv m o h reward) as [outs Hf]. exists outs. split; [done|]. intros tx <-. split.
    + intros _ E9 Ht. now rewrite E9, Ht in Etr.
    + intros _. exact (payee_accepted env mnenv m o h reward tx Hm Hh Hr Ho Etr Hf).
Qed.
End Accepted.

(** *** Concrete blocks *)

(** All sporks but the old budget are active, and there is a superblock at every height at
    which there can be one. *)
Definition demo_superblock : list (CScript * Z) := [([0x54], 7); ([0x55], 9); ([0x54], 7)].
Definition demo_governance : node_view :=
  mk_view true (fun s => negb (s =? SPORK_13_OLD_SUPERBLOCK_FLAG)) (fun _ => true) (fun _ => Some demo_superblock).

(** The payments of the demo superblock, at a height of the main network. *)
Definition greedy_governance : node_view :=
  mk_view true (fun s => negb (s =? SPORK_13_OLD_SUPERBLOCK_FLAG)) (fun _ => true) (fun _ => Some [([0x54], 100000 * COIN)]).

Lemma demo_superblock_payable : superblock_payable demo_pow main_subsidy demo_governance 631408 1000.
Proof.
  intros _ _. cbn [GetBestSuperblock demo_governance]. split; [repeat constructor; cbn; lia| |];
    apply Z.leb_le; vm_compute; reflexivity.
Qed.

Lemma greedy_superblock_not_payable : ~ superblock_payable demo_pow main_subsidy greedy_governance 631408 1000.
Proof.
  intros H. destruct (H eq_refl eq_refl) as [_ Hl _]. revert Hl. apply Z.lt_nge, Z.ltb_lt. vm_compute. reflexivity.
Qed.

(** A block that pays the masternode that was voted for, a superblock, and one that pays a superblock
    beyond the limit. *)
Lemma FillBlockPayments_accepted_witness :
  FillBlockPayments main_subsidy (demo_view true) demo_env demo_payments [mk_txout 1000 [0x53] (-10)] 1005 1000 =
    Some [mk_txout 800 [0x53] (-10); mk_txout 200 [0x52] (-10)] /\
  (exists outs, FillBlockPayments main_subsidy demo_governance demo_env demo_payments [mk_txout 1000 [0x53] (-10)] 631408 1000 =
      Some outs /\
    forall tx, vout tx = outs ->
      IsBlockValueValid demo_pow main_subsidy demo_governance tx 631408 1000 = Some (inr true) /\
      IsBlockPayeeValid demo_pow main_subsidy demo_governance demo_payments tx 631408 1000 = Some (inr true)) /\
  exists outs, FillBlockPayments main_subsidy greedy_governance demo_env demo_payments [mk_txout 1000 [0x53] (-10)] 631408 1000 =
      Some outs /\
    forall tx, vout tx = outs ->
      ~ (IsBlockValueValid demo_pow main_subsidy greedy_governance tx 631408 1000 = Some (inr true) /\
         IsBlockPayeeValid demo_pow main_subsidy greedy_governance demo_payments tx 631408 1000 = Some (inr true)).
Proof.
  assert (Hr : in_range 1000) by (unfold in_range, MAX_MONEY, COIN; lia).
  split; [vm_compute; reflexivity|]. split.
  - destruct (FillBlockPayments_accepted demo_pow main_subsidy eq_refl eq_refl demo_verify demo_authorised demo_governance demo_env
      demo_payments (mk_txout 1000 [0x53] (-10)) 631408 1000 demo_payments_reachable ltac:(lia) Hr eq_refl) as (outs & E & H).
    exists outs. split; [exact E|]. intros tx Hout. exact (proj2 (H tx Hout) demo_superblock_payable).
  - destruct (FillBlockPayments_accepted demo_pow main_subsidy eq_refl eq_refl demo_verify demo_authorised greedy_governance demo_env
      demo_payments (mk_txout 1000 [0x53] (-10)) 631408 1000 demo_payments_reachable ltac:(lia) Hr eq_refl) as (outs & E & H).
    exists outs. split; [exact E|]. intros tx Hout Hboth. exact (greedy_superblock_not_payable (proj1 (H tx Hout) Hboth)).
Defined.
