(* ===== verification/Interpreter.v ===== *)
(** * The script interpreter ([script/interpreter.cpp])

    [EvalScript] with all its operations, and [VerifyScript].  The stacks are listed from their tops, and
    [vfExec] from its end.  A signature checker is a record of its virtual methods; that of a transaction is
    defined in SignatureHash.v.  Bytes of signatures, keys and pushes, which the code reads with the unchecked
    [operator[]], are read with [byte_at], which is undefined out of range; elements of the stacks it
    reads with [at], after a check of the size that is a pattern here.  [CPubKey::CheckLowS], which rests on libsecp256k1, is a parameter. *)

From S2P Require Import Prelude Words Transaction Script TxCheck CoreHash SHA256 Hash160.

(** ** Errors *)

Inductive ScriptError :=
  | SCRIPT_ERR_UNKNOWN_ERROR | SCRIPT_ERR_EVAL_FALSE | SCRIPT_ERR_OP_RETURN
  | SCRIPT_ERR_SCRIPT_SIZE | SCRIPT_ERR_PUSH_SIZE | SCRIPT_ERR_OP_COUNT | SCRIPT_ERR_STACK_SIZE | SCRIPT_ERR_SIG_COUNT | SCRIPT_ERR_PUBKEY_COUNT
  | SCRIPT_ERR_VERIFY | SCRIPT_ERR_EQUALVERIFY | SCRIPT_ERR_CHECKMULTISIGVERIFY | SCRIPT_ERR_CHECKSIGVERIFY | SCRIPT_ERR_NUMEQUALVERIFY
  | SCRIPT_ERR_BAD_OPCODE | SCRIPT_ERR_DISABLED_OPCODE | SCRIPT_ERR_INVALID_STACK_OPERATION | SCRIPT_ERR_INVALID_ALTSTACK_OPERATION
  | SCRIPT_ERR_UNBALANCED_CONDITIONAL | SCRIPT_ERR_NEGATIVE_LOCKTIME | SCRIPT_ERR_UNSATISFIED_LOCKTIME
  | SCRIPT_ERR_SIG_HASHTYPE | SCRIPT_ERR_SIG_DER | SCRIPT_ERR_MINIMALDATA | SCRIPT_ERR_SIG_PUSHONLY | SCRIPT_ERR_SIG_HIGH_S
  | SCRIPT_ERR_SIG_NULLDUMMY | SCRIPT_ERR_PUBKEYTYPE | SCRIPT_ERR_CLEANSTACK | SCRIPT_ERR_DISCOURAGE_UPGRADABLE_NOPS.

(** The result of an evaluation: [None] is a failed assertion or undefined behaviour, [inl] the error with
    which the code returns false. *)
Definition eval (A : Type) : Type := option (ScriptError + A).
#[export] Instance eval_ret : MRet eval := fun A a => Some (inr a).
#[export] Instance eval_bind : MBind eval := fun A B k m =>
  match m with None => None | Some (inl e) => Some (inl e) | Some (inr a) => k a end.
Definition set_error {A} (e : ScriptError) : eval A := Some (inl e).
(** An exception ends in the handler of [EvalScript]. *)
Definition caught {A} (m : throws A) : eval A := match m with inl _ => set_error SCRIPT_ERR_UNKNOWN_ERROR | inr a => mret a end.
Definition defined {A} (m : option A) : eval A := match m with None => None | Some a => mret a end.

(** ** Flags and limits ([script/interpreter.h], [script/script.h]) *)

Definition SCRIPT_VERIFY_NONE : Z := 0.
Definition SCRIPT_VERIFY_P2SH : Z := 1 << 0.
Definition SCRIPT_VERIFY_STRICTENC : Z := 1 << 1.
Definition SCRIPT_VERIFY_DERSIG : Z := 1 << 2.
Definition SCRIPT_VERIFY_LOW_S : Z := 1 << 3.
Definition SCRIPT_VERIFY_NULLDUMMY : Z := 1 << 4.
Definition SCRIPT_VERIFY_SIGPUSHONLY : Z := 1 << 5.
Definition SCRIPT_VERIFY_MINIMALDATA : Z := 1 << 6.
Definition SCRIPT_VERIFY_DISCOURAGE_UPGRADABLE_NOPS : Z := 1 << 7.
Definition SCRIPT_VERIFY_CLEANSTACK : Z := 1 << 8.
Definition SCRIPT_VERIFY_CHECKLOCKTIMEVERIFY : Z := 1 << 9.
Definition SCRIPT_VERIFY_CHECKSEQUENCEVERIFY : Z := 1 << 10.

Definition has (flags flag : Z) : bool := negb (flags .& flag =? 0).

Definition MAX_SCRIPT_ELEMENT_SIZE : Z := 520.
Definition MAX_OPS_PER_SCRIPT : Z := 201.
Definition SIGHASH_ALL : Z := 1.
Definition SIGHASH_NONE : Z := 2.
Definition SIGHASH_SINGLE : Z := 3.
Definition SIGHASH_ANYONECANPAY : Z := 0x80.

Abbreviation valtype := (list Z) (only parsing).
Abbreviation stack := (list (list Z)) (only parsing).

(** ** Bytes *)

Fixpoint CastToBool (vch : valtype) : bool :=
  match vch with
  | [] => false
  | [b] => negb ((b =? 0) || (b =? 0x80))
  | b :: vch => if negb (b =? 0) then true else CastToBool vch
  end.

(** The byte number [i] of a vector, by [operator[]]: undefined if there is no such byte. *)
Definition byte_at (v : valtype) (i : Z) : eval Z := defined (if i <? 0 then None else v !! Z.to_nat i).
(** [m1 && m2]: the second condition is not evaluated if the first is false. *)
Definition and_then (m1 m2 : eval bool) : eval bool := b ← m1; if b : bool then m2 else mret false.
(** The check [m], if it is required: without success it is the error [e]. *)
Definition required (flag : bool) (m : eval bool) (e : ScriptError) : eval unit :=
  if flag then ok ← m; if ok : bool then mret tt else set_error e else mret tt.

Definition IsCompressedOrUncompressedPubKey (vchPubKey : valtype) : eval bool :=
  let size := Z.of_nat (length vchPubKey) in
  if size <? 33 then mret false
  else
    b ← byte_at vchPubKey 0;
    if b =? 0x04 then mret (size =? 65)
    else if (b =? 0x02) || (b =? 0x03) then mret (size =? 33)
    else mret false.

(** The second half of [IsValidSignatureEncoding]: the integers R and S of these lengths. *)
Definition valid_integers (sg : valtype) (lenR lenS : Z) : eval bool :=
  b2 ← byte_at sg 2;
  if negb (b2 =? 0x02) then mret false
  else if lenR =? 0 then mret false
  else
    r0 ← byte_at sg 4;
    if negb (r0 .& 0x80 =? 0) then mret false
    else
      padded ← and_then (mret (1 <? lenR)) (and_then (mret (r0 =? 0)) (r1 ← byte_at sg 5; mret (r1 .& 0x80 =? 0)));
      if padded : bool then mret false
      else
        b ← byte_at sg (lenR + 4);
        if negb (b =? 0x02) then mret false
        else if lenS =? 0 then mret false
        else
          s0 ← byte_at sg (lenR + 6);
          if negb (s0 .& 0x80 =? 0) then mret false
          else
            padded ← and_then (mret (1 <? lenS)) (and_then (mret (s0 =? 0)) (s1 ← byte_at sg (lenR + 7); mret (s1 .& 0x80 =? 0)));
            mret (negb padded).

Definition IsValidSignatureEncoding (sg : valtype) : eval bool :=
  let size := Z.of_nat (length sg) in
  if size <? 9 then mret false
  else if 73 <? size then mret false
  else
    b0 ← byte_at sg 0;
    if negb (b0 =? 0x30) then mret false
    else
      b1 ← byte_at sg 1;
      if negb (b1 =? size - 3) then mret false
      else
        lenR ← byte_at sg 3;
        if size <=? 5 + lenR then mret false
        else
          lenS ← byte_at sg (5 + lenR);
          if negb (lenR + lenS + 7 =? size) then mret false else valid_integers sg lenR lenS.

Definition IsDefinedHashtypeSignature (vchSig : valtype) : eval bool :=
  let size := Z.of_nat (length vchSig) in
  if size =? 0 then mret false
  else
    b ← byte_at vchSig (size - 1);
    let nHashType := b .& u8 (Z.lnot SIGHASH_ANYONECANPAY) in
    mret (negb ((nHashType <? SIGHASH_ALL) || (SIGHASH_SINGLE <? nHashType))).

Definition CheckMinimalPush (data : valtype) (opcode : Z) : eval bool :=
  let size := Z.of_nat (length data) in
  if size =? 0 then mret (opcode =? OP_0)
  else
    small ← and_then (mret (size =? 1)) (b ← byte_at data 0; mret ((1 <=? b) && (b <=? 16)));
    if small : bool then b ← byte_at data 0; mret (opcode =? OP_1 + (b - 1))
    else
      negative ← and_then (mret (size =? 1)) (b ← byte_at data 0; mret (b =? 0x81));
      mret (if negative : bool then opcode =? 0x4f
            else if size <=? 75 then opcode =? size
            else if size <=? 255 then opcode =? OP_PUSHDATA1
            else if size <=? 65535 then opcode =? OP_PUSHDATA2
            else true).

(** ** Scripts *)

(** Copies of [b] at a position are skipped. *)
Fixpoint skip_copies (fuel : nat) (b pc : CScript) : nat * CScript :=
  match fuel with
  | O => (O, pc)
  | S fuel =>
      if (length b <=? length pc)%nat && bool_decide (take (length b) pc = b) then
        let '(n, pc) := skip_copies fuel b (drop (length b) pc) in (S n, pc)
      else (O, pc)
  end.
(** From the position [pc2] that is not yet copied to [pc]: the number of copies found and the result. *)
Fixpoint delete_loop (fuel : nat) (b result pc2 pc : CScript) (nFound : nat) : nat * CScript :=
  let result := result ++ take (length pc2 - length pc) pc2 in
  let '(n, pc) := skip_copies (length pc) b pc in
  match fuel, GetOp2 pc with
  | S fuel, Some (_, _, pc') => delete_loop fuel b result pc pc' (nFound + n)
  | _, _ => (nFound + n, result ++ pc)%nat
  end.
Definition FindAndDelete (script b : CScript) : CScript :=
  match b with
  | [] => script
  | _ => let '(nFound, result) := delete_loop (length script) b [] script script 0 in if (0 <? nFound)%nat then result else script
  end.

Fixpoint push_only (fuel : nat) (pc : CScript) : bool :=
  match pc, fuel with
  | [], _ => true
  | _, O => false
  | _, S fuel => match GetOp2 pc with None => false | Some (opcode, _, pc) => if OP_16 <? opcode then false else push_only fuel pc end
  end.
Definition IsPushOnly (script : CScript) : bool := push_only (length script) script.

(** ** Instructions *)

Inductive stack_op :=
  | TOALTSTACK | FROMALTSTACK | DROP2 | DUP2 | DUP3 | OVER2 | ROT2 | SWAP2 | IFDUP | DEPTH | DROP | DUP | NIP | OVER
  | PICK (roll : bool) | ROT | SWAP | TUCK | SIZE | EQUAL (verify : bool).
Inductive unary_op := ADD1 | SUB1 | NEGATE | ABS | NOT | NOTEQUAL0.
Inductive binary_op :=
  | ADD | SUB | BOOLAND | BOOLOR | NUMEQUAL | NUMEQUALVERIFY | NUMNOTEQUAL | LESSTHAN | GREATERTHAN
  | LESSTHANOREQUAL | GREATERTHANOREQUAL | MIN | MAX.
Inductive hash_op := HASH_RIPEMD160 | HASH_SHA1 | HASH_SHA256 | HASH_HASH160 | HASH_HASH256.
Inductive instruction :=
  | NUMBER (n : Z) | NOP | CHECKLOCKTIMEVERIFY | CHECKSEQUENCEVERIFY | UPGRADABLE_NOP
  | IF (negate : bool) | ELSE | ENDIF | VERIFY | RETURN
  | STACK (o : stack_op) | UNARY (o : unary_op) | BINARY (o : binary_op) | WITHIN
  | HASH (o : hash_op) | CODESEPARATOR | CHECKSIG (verify : bool) | CHECKMULTISIG (verify : bool).

(** The cases of the switch. *)
Definition instructions : list (Z * instruction) :=
  [(0x4f, NUMBER (-1)); (0x61, NOP); (0x63, IF false); (0x64, IF true); (0x67, ELSE); (0x68, ENDIF); (0x69, VERIFY); (0x6a, RETURN);
   (0x6b, STACK TOALTSTACK); (0x6c, STACK FROMALTSTACK); (0x6d, STACK DROP2); (0x6e, STACK DUP2); (0x6f, STACK DUP3); (0x70, STACK OVER2);
   (0x71, STACK ROT2); (0x72, STACK SWAP2); (0x73, STACK IFDUP); (0x74, STACK DEPTH); (0x75, STACK DROP); (0x76, STACK DUP);
   (0x77, STACK NIP); (0x78, STACK OVER); (0x79, STACK (PICK false)); (0x7a, STACK (PICK true)); (0x7b, STACK ROT); (0x7c, STACK SWAP);
   (0x7d, STACK TUCK); (0x82, STACK SIZE); (0x87, STACK (EQUAL false)); (0x88, STACK (EQUAL true));
   (0x8b, UNARY ADD1); (0x8c, UNARY SUB1); (0x8f, UNARY NEGATE); (0x90, UNARY ABS); (0x91, UNARY NOT); (0x92, UNARY NOTEQUAL0);
   (0x93, BINARY ADD); (0x94, BINARY SUB); (0x9a, BINARY BOOLAND); (0x9b, BINARY BOOLOR); (0x9c, BINARY NUMEQUAL);
   (0x9d, BINARY NUMEQUALVERIFY); (0x9e, BINARY NUMNOTEQUAL); (0x9f, BINARY LESSTHAN); (0xa0, BINARY GREATERTHAN);
   (0xa1, BINARY LESSTHANOREQUAL); (0xa2, BINARY GREATERTHANOREQUAL); (0xa3, BINARY MIN); (0xa4, BINARY MAX); (0xa5, WITHIN);
   (0xa6, HASH HASH_RIPEMD160); (0xa7, HASH HASH_SHA1); (0xa8, HASH HASH_SHA256); (0xa9, HASH HASH_HASH160); (0xaa, HASH HASH_HASH256);
   (0xab, CODESEPARATOR); (0xac, CHECKSIG false); (0xad, CHECKSIG true); (0xae, CHECKMULTISIG false); (0xaf, CHECKMULTISIG true);
   (0xb0, UPGRADABLE_NOP); (0xb1, CHECKLOCKTIMEVERIFY); (0xb2, CHECKSEQUENCEVERIFY); (0xb3, UPGRADABLE_NOP); (0xb4, UPGRADABLE_NOP);
   (0xb5, UPGRADABLE_NOP); (0xb6, UPGRADABLE_NOP); (0xb7, UPGRADABLE_NOP); (0xb8, UPGRADABLE_NOP); (0xb9, UPGRADABLE_NOP)].
Definition decode (opcode : Z) : option instruction :=
  if (OP_1 <=? opcode) && (opcode <=? OP_16) then Some (NUMBER (opcode - (OP_1 - 1)))
  else snd <$> List.find (fun e => e.1 =? opcode) instructions.
(** CAT, SUBSTR, LEFT, RIGHT, INVERT, AND, OR, XOR, 2MUL, 2DIV, MUL, DIV, MOD, LSHIFT, RSHIFT. *)
Definition disabled_opcodes : list Z := [0x7e; 0x7f; 0x80; 0x81; 0x83; 0x84; 0x85; 0x86; 0x8d; 0x8e; 0x95; 0x96; 0x97; 0x98; 0x99].

(** The methods of a signature checker. *)
Record BaseSignatureChecker := mk_checker {
  CheckSig : valtype -> valtype -> CScript -> bool;      (* signature, public key, script code *)
  CheckLockTime : Z -> bool;
  CheckSequence : Z -> bool }.

(** [pbegincodehash] is the script from there on. *)
Record machine := mk_machine {
  main : stack;
  altstack : stack;
  vfExec : list bool;
  nOpCount : Z;
  pbegincodehash : CScript }.
Definition with_main (s : stack) (m : machine) : machine := mk_machine s (altstack m) (vfExec m) (nOpCount m) (pbegincodehash m).
Definition with_exec (l : list bool) (m : machine) : machine := mk_machine (main m) (altstack m) l (nOpCount m) (pbegincodehash m).
Definition with_ops (n : Z) (m : machine) : machine := mk_machine (main m) (altstack m) (vfExec m) n (pbegincodehash m).
Definition with_codehash (pc : CScript) (m : machine) : machine := mk_machine (main m) (altstack m) (vfExec m) (nOpCount m) pc.

Section Eval.
Variable CheckLowS : valtype -> bool.
Variable flags : Z.
Variable checker : BaseSignatureChecker.

Definition fRequireMinimal : bool := has flags SCRIPT_VERIFY_MINIMALDATA.

(** ** Signatures and keys *)

Definition IsLowDERSignature (vchSig : valtype) : eval unit :=
  _ ← required true (IsValidSignatureEncoding vchSig) SCRIPT_ERR_SIG_DER;
  if negb (CheckLowS (removelast vchSig)) then set_error SCRIPT_ERR_SIG_HIGH_S else mret tt.

Definition CheckSignatureEncoding (vchSig : valtype) : eval unit :=
  match vchSig with
  | [] => mret tt
  | _ =>
      _ ← required (has flags (SCRIPT_VERIFY_DERSIG .| SCRIPT_VERIFY_LOW_S .| SCRIPT_VERIFY_STRICTENC))
            (IsValidSignatureEncoding vchSig) SCRIPT_ERR_SIG_DER;
      _ ← (if has flags SCRIPT_VERIFY_LOW_S then IsLowDERSignature vchSig else mret tt : eval unit);
      required (has flags SCRIPT_VERIFY_STRICTENC) (IsDefinedHashtypeSignature vchSig) SCRIPT_ERR_SIG_HASHTYPE
  end.

Definition CheckPubKeyEncoding (vchPubKey : valtype) : eval unit :=
  required (has flags SCRIPT_VERIFY_STRICTENC) (IsCompressedOrUncompressedPubKey vchPubKey) SCRIPT_ERR_PUBKEYTYPE.

(** ** Numbers *)

Definition vchTrue : valtype := [1].
Definition vchFalse : valtype := [].
Definition from_bool (b : bool) : valtype := if b then vchTrue else vchFalse.

Definition number (vch : valtype) (nMaxNumSize : Z) : eval Z := caught (CScriptNum vch fRequireMinimal nMaxNumSize).
Definition getint (n : Z) : Z := if 2 ^ 31 - 1 <? n then 2 ^ 31 - 1 else if n <? - 2 ^ 31 then - 2 ^ 31 else n.
(** The operators on [int64_t]: the assertions of [+=], [-=] and [-] say that the result is in range. *)
Definition checked (n : Z) : eval Z := defined (if (- 2 ^ 63 <=? n) && (n <=? 2 ^ 63 - 1) then Some n else None).
Definition of_flag (b : bool) : Z := if b then 1 else 0.

Definition eval_unary (o : unary_op) (bn : Z) : eval Z :=
  match o with
  | ADD1 => checked (bn + 1)
  | SUB1 => checked (bn - 1)
  | NEGATE => checked (- bn)
  | ABS => if bn <? 0 then checked (- bn) else mret bn
  | NOT => mret (of_flag (bn =? 0))
  | NOTEQUAL0 => mret (of_flag (negb (bn =? 0)))
  end.

Definition eval_binary (o : binary_op) (bn1 bn2 : Z) : eval Z :=
  match o with
  | ADD => checked (bn1 + bn2)
  | SUB => checked (bn1 - bn2)
  | BOOLAND => mret (of_flag (negb (bn1 =? 0) && negb (bn2 =? 0)))
  | BOOLOR => mret (of_flag (negb (bn1 =? 0) || negb (bn2 =? 0)))
  | NUMEQUAL | NUMEQUALVERIFY => mret (of_flag (bn1 =? bn2))
  | NUMNOTEQUAL => mret (of_flag (negb (bn1 =? bn2)))
  | LESSTHAN => mret (of_flag (bn1 <? bn2))
  | GREATERTHAN => mret (of_flag (bn2 <? bn1))
  | LESSTHANOREQUAL => mret (of_flag (bn1 <=? bn2))
  | GREATERTHANOREQUAL => mret (of_flag (bn2 <=? bn1))
  | MIN => mret (if bn1 <? bn2 then bn1 else bn2)
  | MAX => mret (if bn2 <? bn1 then bn1 else bn2)
  end.

(** ** Stack operations *)

Definition short {A} : eval A := set_error SCRIPT_ERR_INVALID_STACK_OPERATION.

(** On both stacks. *)
Definition exec_stack (o : stack_op) (s alt : stack) : eval (stack * stack) :=
  match o, s with
  | TOALTSTACK, x :: s => mret (s, x :: alt)
  | FROMALTSTACK, _ => match alt with x :: alt => mret (x :: s, alt) | [] => set_error SCRIPT_ERR_INVALID_ALTSTACK_OPERATION end
  | DROP2, _ :: _ :: s => mret (s, alt)
  | DUP2, x2 :: x1 :: _ => mret (x2 :: x1 :: s, alt)
  | DUP3, x3 :: x2 :: x1 :: _ => mret (x3 :: x2 :: x1 :: s, alt)
  | OVER2, _ :: _ :: x2 :: x1 :: _ => mret (x2 :: x1 :: s, alt)
  | ROT2, x6 :: x5 :: x4 :: x3 :: x2 :: x1 :: s => mret (x2 :: x1 :: x6 :: x5 :: x4 :: x3 :: s, alt)
  | SWAP2, x4 :: x3 :: x2 :: x1 :: s => mret (x2 :: x1 :: x4 :: x3 :: s, alt)
  | IFDUP, x :: _ => mret (if CastToBool x then x :: s else s, alt)
  | DEPTH, _ => mret (CScriptNum_serialize (Z.of_nat (length s)) :: s, alt)
  | DROP, _ :: s => mret (s, alt)
  | DUP, x :: _ => mret (x :: s, alt)
  | NIP, x2 :: _ :: s => mret (x2 :: s, alt)
  | OVER, _ :: x1 :: _ => mret (x1 :: s, alt)
  | PICK roll, x :: ((_ :: _) as s) =>
      n ← number x 4;
      let n := getint n in
      if (n <? 0) || (Z.of_nat (length s) <=? n) then short
      else
        vch ← defined (s !! Z.to_nat n);
        mret (vch :: (if roll : bool then delete (Z.to_nat n) s else s), alt)
  | ROT, x3 :: x2 :: x1 :: s => mret (x1 :: x3 :: x2 :: s, alt)
  | SWAP, x2 :: x1 :: s => mret (x1 :: x2 :: s, alt)
  | TUCK, x2 :: x1 :: s => mret (x2 :: x1 :: x2 :: s, alt)
  | SIZE, x :: _ => mret (CScriptNum_serialize (Z.of_nat (length x)) :: s, alt)
  | EQUAL verify, x2 :: x1 :: s =>
      let fEqual := bool_decide (x1 = x2) in
      if verify : bool then if fEqual then mret (s, alt) else set_error SCRIPT_ERR_EQUALVERIFY
      else mret (from_bool fEqual :: s, alt)
  | _, _ => short
  end.

(** ** Hashes and signatures *)

Definition eval_hash (o : hash_op) (vch : valtype) : valtype :=
  match o with
  | HASH_RIPEMD160 => (RIPEMD160.CRIPEMD160_Finalize (RIPEMD160.CRIPEMD160_Write (RIPEMD160.CRIPEMD160_new stack_memory) vch)).2
  | HASH_SHA1 => (SHA1.CSHA1_Finalize (SHA1.CSHA1_Write (SHA1.CSHA1_new stack_memory) vch)).2
  | HASH_SHA256 => (CSHA256_Finalize (CSHA256_Write (CSHA256_new stack_memory) vch)).2
  | HASH_HASH160 => (CHash160_Finalize (CHash160_Write (CHash160_new stack_memory) vch)).2
  | HASH_HASH256 => (CHash256_Finalize (CHash256_Write (CHash256_new stack_memory) vch)).2
  end.

Definition check_one (vchSig vchPubKey : valtype) (scriptCode : CScript) : eval bool :=
  _ ← CheckSignatureEncoding vchSig;
  _ ← CheckPubKeyEncoding vchPubKey;
  mret (CheckSig checker vchSig vchPubKey scriptCode).

(** The result of a check, which the VERIFY form takes off the stack. *)
Definition conclude (verify : bool) (e : ScriptError) (fSuccess : bool) (s : stack) : eval stack :=
  if verify then if fSuccess then mret s else set_error e else mret (from_bool fSuccess :: s).

Definition exec_checksig (verify : bool) (code : CScript) (s : stack) : eval stack :=
  match s with
  | vchPubKey :: vchSig :: s =>
      fSuccess ← check_one vchSig vchPubKey (FindAndDelete code (push_data vchSig));
      conclude verify SCRIPT_ERR_CHECKSIGVERIFY fSuccess s
  | _ => short
  end.

(** The loop over the signatures; there are not more of them than keys. *)
Fixpoint multisig_loop (scriptCode : CScript) (sigs keys : list valtype) : eval bool :=
  match sigs, keys with
  | [], _ => mret true
  | _, [] => None
  | vchSig :: rest, vchPubKey :: keys =>
      fOk ← check_one vchSig vchPubKey scriptCode;
      let sigs := if fOk : bool then rest else sigs in
      if (length keys <? length sigs)%nat then mret false else multisig_loop scriptCode sigs keys
  end.

Definition exec_checkmultisig (verify : bool) (code : CScript) (nOpCount : Z) (s : stack) : eval (Z * stack) :=
  match s with
  | [] => short
  | x :: s =>
      n ← number x 4;
      let nKeysCount := getint n in
      if (nKeysCount <? 0) || (MAX_PUBKEYS_PER_MULTISIG <? nKeysCount) then set_error SCRIPT_ERR_PUBKEY_COUNT
      else
        let nOpCount := nOpCount + nKeysCount in
        if MAX_OPS_PER_SCRIPT <? nOpCount then set_error SCRIPT_ERR_OP_COUNT
        else
          let keys := take (Z.to_nat nKeysCount) s in
          match drop (Z.to_nat nKeysCount) s with
          | [] => short
          | x :: s =>
              n ← number x 4;
              let nSigsCount := getint n in
              if (nSigsCount <? 0) || (nKeysCount <? nSigsCount) then set_error SCRIPT_ERR_SIG_COUNT
              else
                let sigs := take (Z.to_nat nSigsCount) s in
                match drop (Z.to_nat nSigsCount) s with
                | [] => short
                | dummy :: s =>
                    let scriptCode := fold_left (fun code vchSig => FindAndDelete code (push_data vchSig)) sigs code in
                    fSuccess ← multisig_loop scriptCode sigs keys;
                    if has flags SCRIPT_VERIFY_NULLDUMMY && negb (length dummy =? 0)%nat then set_error SCRIPT_ERR_SIG_NULLDUMMY
                    else s ← conclude verify SCRIPT_ERR_CHECKMULTISIGVERIFY fSuccess s; mret (nOpCount, s)
                end
          end
  end.

(** ** EvalScript *)

Definition exec_locktime (sequence : bool) (s : stack) : eval unit :=
  if negb (has flags (if sequence then SCRIPT_VERIFY_CHECKSEQUENCEVERIFY else SCRIPT_VERIFY_CHECKLOCKTIMEVERIFY)) then
    if has flags SCRIPT_VERIFY_DISCOURAGE_UPGRADABLE_NOPS then set_error SCRIPT_ERR_DISCOURAGE_UPGRADABLE_NOPS else mret tt
  else
    match s with
    | [] => short
    | x :: _ =>
        n ← number x 5;
        if n <? 0 then set_error SCRIPT_ERR_NEGATIVE_LOCKTIME
        else if sequence && negb (n .& SEQUENCE_LOCKTIME_DISABLE_FLAG =? 0) then mret tt
        else if (if sequence then CheckSequence checker n else CheckLockTime checker n) then mret tt
        else set_error SCRIPT_ERR_UNSATISFIED_LOCKTIME
    end.

(** The switch; [pc] is the position after the instruction. *)
Definition exec (i : instruction) (pc : CScript) (fExec : bool) (m : machine) : eval machine :=
  match i, main m with
  | NUMBER n, s => mret (with_main (CScriptNum_serialize n :: s) m)
  | NOP, _ => mret m
  | CHECKLOCKTIMEVERIFY, s => _ ← exec_locktime false s; mret m
  | CHECKSEQUENCEVERIFY, s => _ ← exec_locktime true s; mret m
  | UPGRADABLE_NOP, _ =>
      if has flags SCRIPT_VERIFY_DISCOURAGE_UPGRADABLE_NOPS then set_error SCRIPT_ERR_DISCOURAGE_UPGRADABLE_NOPS else mret m
  | IF negate, s =>
      if fExec then
        match s with
        | [] => set_error SCRIPT_ERR_UNBALANCED_CONDITIONAL
        | x :: s => mret (with_exec ((if negate : bool then negb (CastToBool x) else CastToBool x) :: vfExec m) (with_main s m))
        end
      else mret (with_exec (false :: vfExec m) m)
  | ELSE, _ => match vfExec m with [] => set_error SCRIPT_ERR_UNBALANCED_CONDITIONAL | b :: l => mret (with_exec (negb b :: l) m) end
  | ENDIF, _ => match vfExec m with [] => set_error SCRIPT_ERR_UNBALANCED_CONDITIONAL | _ :: l => mret (with_exec l m) end
  | VERIFY, x :: s => if CastToBool x then mret (with_main s m) else set_error SCRIPT_ERR_VERIFY
  | RETURN, _ => set_error SCRIPT_ERR_OP_RETURN
  | STACK o, s =>
      '(s, alt) ← exec_stack o s (altstack m);
      mret (mk_machine s alt (vfExec m) (nOpCount m) (pbegincodehash m))
  | UNARY o, x :: s => bn ← number x 4; bn ← eval_unary o bn; mret (with_main (CScriptNum_serialize bn :: s) m)
  | BINARY o, x2 :: x1 :: s =>
      bn1 ← number x1 4;
      bn2 ← number x2 4;
      bn ← eval_binary o bn1 bn2;
      let vch := CScriptNum_serialize bn in
      match o with
      | NUMEQUALVERIFY => if CastToBool vch then mret (with_main s m) else set_error SCRIPT_ERR_NUMEQUALVERIFY
      | _ => mret (with_main (vch :: s) m)
      end
  | WITHIN, x3 :: x2 :: x1 :: s =>
      bn1 ← number x1 4;
      bn2 ← number x2 4;
      bn3 ← number x3 4;
      mret (with_main (from_bool ((bn2 <=? bn1) && (bn1 <? bn3)) :: s) m)
  | HASH o, x :: s => mret (with_main (eval_hash o x :: s) m)
  | CODESEPARATOR, _ => mret (with_codehash pc m)
  | CHECKSIG verify, s => s ← exec_checksig verify (pbegincodehash m) s; mret (with_main s m)
  | CHECKMULTISIG verify, s =>
      '(n, s) ← exec_checkmultisig verify (pbegincodehash m) (nOpCount m) s;
      mret (with_ops n (with_main s m))
  | _, _ => short
  end.

(** One instruction with the checks around it; [vch] is its data. *)
Definition eval_step (opcode : Z) (vch : valtype) (pc : CScript) (m : machine) : eval machine :=
  let fExec := forallb id (vfExec m) in
  if MAX_SCRIPT_ELEMENT_SIZE <? Z.of_nat (length vch) then set_error SCRIPT_ERR_PUSH_SIZE
  else
    let m := if OP_16 <? opcode then with_ops (nOpCount m + 1) m else m in
    if (OP_16 <? opcode) && (MAX_OPS_PER_SCRIPT <? nOpCount m) then set_error SCRIPT_ERR_OP_COUNT
    else if existsb (Z.eqb opcode) disabled_opcodes then set_error SCRIPT_ERR_DISABLED_OPCODE
    else
      m ← (if fExec && (opcode <=? OP_PUSHDATA4) then
             _ ← required fRequireMinimal (CheckMinimalPush vch opcode) SCRIPT_ERR_MINIMALDATA;
             mret (with_main (vch :: main m) m)
           else if fExec || ((0x63 <=? opcode) && (opcode <=? 0x68)) then
             match decode opcode with None => set_error SCRIPT_ERR_BAD_OPCODE | Some i => exec i pc fExec m end
           else mret m : eval machine);
      if (1000 <? length (main m) + length (altstack m))%nat then set_error SCRIPT_ERR_STACK_SIZE else mret m.

Fixpoint eval_loop (fuel : nat) (pc : CScript) (m : machine) : eval machine :=
  match pc with
  | [] => mret m
  | _ =>
      match fuel with
      | O => None
      | S fuel =>
          match GetOp2 pc with
          | None => set_error SCRIPT_ERR_BAD_OPCODE
          | Some (opcode, vch, pc) => m ← eval_step opcode vch pc m; eval_loop fuel pc m
          end
      end
  end.

(** The stack after the script. *)
Definition EvalScript (s : stack) (script : CScript) : eval stack :=
  if MAX_SCRIPT_SIZE <? Z.of_nat (length script) then set_error SCRIPT_ERR_SCRIPT_SIZE
  else
    m ← eval_loop (length script) script (mk_machine s [] [] 0 script);
    match vfExec m with [] => mret (main m) | _ => set_error SCRIPT_ERR_UNBALANCED_CONDITIONAL end.

(** ** VerifyScript *)

(** The stack must not be empty and its top must be true. *)
Definition top_true (s : stack) : eval unit :=
  match s with [] => set_error SCRIPT_ERR_EVAL_FALSE | x :: _ => if CastToBool x then mret tt else set_error SCRIPT_ERR_EVAL_FALSE end.

Definition VerifyScript (scriptSig scriptPubKey : CScript) : eval unit :=
  if has flags SCRIPT_VERIFY_SIGPUSHONLY && negb (IsPushOnly scriptSig) then set_error SCRIPT_ERR_SIG_PUSHONLY
  else
    stackCopy ← EvalScript [] scriptSig;
    s ← EvalScript stackCopy scriptPubKey;
    _ ← top_true s;
    s ← (if has flags SCRIPT_VERIFY_P2SH && IsPayToScriptHash scriptPubKey then
           if negb (IsPushOnly scriptSig) then set_error SCRIPT_ERR_SIG_PUSHONLY
           else
             match stackCopy with
             | [] => None
             | pubKey2 :: s => s ← EvalScript s pubKey2; _ ← top_true s; mret s
             end
         else mret s : eval stack);
    if has flags SCRIPT_VERIFY_CLEANSTACK then
      if negb (has flags SCRIPT_VERIFY_P2SH) then None
      else if negb (length s =? 1)%nat then set_error SCRIPT_ERR_CLEANSTACK
      else mret tt
    else mret tt.
End Eval.
