(* ===== verification/ScriptSafety.v ===== *)
(** * The script interpreter never fails

    Every evaluation of a script ends in a result or in one of the errors of [ScriptError]: no assertion
    fails, no byte is read that is not there ([byte_at]), and the limits on the stacks and on the number of operations hold
    throughout.  The proofs go by a postcondition of the evaluations, with one rule per construct. *)

From S2P Require Import Prelude Words Transaction Script TxCheck CoreHash SHA256 Hash160 Interpreter.

(** ** Postconditions *)

Definition post {A} (P : A -> Prop) (m : eval A) : Prop :=
  match m with None => False | Some (inl _) => True | Some (inr a) => P a end.

Lemma post_ret {A} (P : A -> Prop) a : P a -> post P (mret a).
Proof. done. Qed.
Lemma post_error {A} (P : A -> Prop) e : post P (set_error e).
Proof. done. Qed.
Lemma post_bind {A B} (P : A -> Prop) (Q : B -> Prop) (m : eval A) (k : A -> eval B) :
  post P m -> (forall a, P a -> post Q (k a)) -> post Q (m ≫= k).
Proof. destruct m as [[e|a]|]; cbn; auto. Qed.
Lemma post_weaken {A} (P Q : A -> Prop) (m : eval A) : post P m -> (forall a, P a -> Q a) -> post Q m.
Proof. destruct m as [[e|a]|]; cbn; auto. Qed.
Lemma post_if {A} (P : A -> Prop) (b : bool) (m1 m2 : eval A) :
  (b = true -> post P m1) -> (b = false -> post P m2) -> post P (if b then m1 else m2).
Proof. destruct b; auto. Qed.
Lemma post_true {A} (m : eval A) : m <> None -> post (fun _ => True) m.
Proof. now destruct m as [[]|]. Qed.
Lemma post_defined {A} (P : A -> Prop) (m : eval A) : post P m -> m <> None.
Proof. now destruct m. Qed.

Create HintDb safe.
#[export] Hint Resolve post_ret post_error : safe.
#[export] Hint Extern 2 (post _ (if _ then _ else _)) => apply post_if; intros : safe.

(** ** Elements of the stack *)

Definition element (x : list Z) : Prop := bytes x /\ Z.of_nat (length x) <= MAX_SCRIPT_ELEMENT_SIZE.
Abbreviation elements := (Forall element).

Lemma element_bytes x : element x -> bytes x.
Proof. now intros []. Qed.

Lemma element_short x : bytes x -> (length x <= 64)%nat -> element x.
Proof. intros Hb Hl. split; [done|]. unfold MAX_SCRIPT_ELEMENT_SIZE. lia. Qed.

Lemma bytes_short (l : list Z) : Forall (fun b => (0 <=? b) && (b <? 256) = true) l -> bytes l.
Proof. apply Forall_impl. unfold in_word. intros b Hb%andb_prop. lia. Qed.

Lemma element_bool b : element (from_bool b).
Proof. apply element_short; destruct b; cbn; repeat constructor; unfold in_word; lia. Qed.

Lemma abs_bytes_length f a : (length (abs_bytes f a) <= f)%nat.
Proof. revert a. induction f as [|f IH]; intros a; cbn [abs_bytes]; [done|]. destruct (a =? 0); cbn [length]; [lia|]. specialize (IH (a >> 8)). lia. Qed.

Lemma element_number n : - 2 ^ 63 < n < 2 ^ 63 -> element (CScriptNum_serialize n).
Proof.
  intros Hn. destruct (Z.eq_dec n 0) as [->|Hne]; [apply element_short; cbn; [constructor|lia]|].
  destruct (abs_bytes_last n Hne Hn) as (body & u & Ea & Hb & Hu & _).
  pose proof (abs_bytes_length 8 (Z.abs n)) as Hl. rewrite Ea, length_app in Hl. cbn [length] in Hl.
  rewrite (serialize_body body u n Hne Hn Ea Hu). unfold is_byte, in_word in Hu.
  destruct (Z.ltb_spec u 128); destruct (n <? 0); apply element_short; rewrite ?length_app; cbn [length]; try lia;
    repeat (apply Forall_app; split); try done; repeat constructor; unfold in_word; lia.
Qed.

Lemma number_bounds minimal vch k : bytes vch -> k <= 8 ->
  post (fun n => Z.abs n < 2 ^ (8 * Z.max 1 k - 1)) (caught (CScriptNum vch minimal k)).
Proof.
  intros Hb Hk. destruct (CScriptNum vch minimal k) as [e|n] eqn:E; [exact I|].
  apply CScriptNum_inr in E as [<- Hl]. cbn [caught post mret eval_ret].
  destruct vch as [|t body _] using rev_ind; [cbn; apply Z.pow_pos_nonneg; lia|].
  apply Forall_app in Hb as [Hb Ht]. apply Forall_cons_1 in Ht as [Ht _]. rewrite length_app in Hl. cbn [length] in Hl.
  rewrite set_vch_spec by (done || lia). unfold signed_value. pose proof (le_combine_bounds body Hb) as Hc.
  rewrite magnitude by (done || now apply is_byte_mod). pose proof (Z.mod_pos_bound t 128 ltac:(lia)) as Hm.
  assert (Hpow : 2 ^ (8 * Z.of_nat (length body)) * 128 <= 2 ^ (8 * Z.max 1 k - 1)).
  { change 128 with (2 ^ 7). rewrite <- Z.pow_add_r by lia. apply Z.pow_le_mono_r; lia. }
  pose proof (Z.mul_le_mono_nonneg_l (t mod 128) 127 (2 ^ (8 * Z.of_nat (length body))) ltac:(lia) ltac:(lia)).
  pose proof (Z.mul_nonneg_nonneg (2 ^ (8 * Z.of_nat (length body))) (t mod 128) ltac:(lia) ltac:(lia)).
  destruct (t <? 128); lia.
Qed.

(** The objects compute the digests. *)
Definition digest (o : hash_op) : list Z -> list Z :=
  match o with
  | HASH_RIPEMD160 => RIPEMD160.ripemd160
  | HASH_SHA1 => SHA1.sha1
  | HASH_SHA256 => FIPS180.sha256
  | HASH_HASH160 => hash160
  | HASH_HASH256 => sha256d
  end.

Lemma eval_hash_digest o vch : bytes vch -> eval_hash o vch = digest o vch.
Proof.
  intros Hb. assert (Hm : length stack_memory = 64%nat) by reflexivity.
  assert (Hsha : sha_repr (CSHA256_Write (CSHA256_new stack_memory) vch) vch)
    by (apply (CSHA256_Write_repr _ []); [now apply CSHA256_new_repr|done]).
  destruct o; cbn [eval_hash digest].
  - apply RIPEMD160.CRIPEMD160_Finalize_spec, (RIPEMD160.CRIPEMD160_Write_repr _ []); [now apply new_repr|done].
  - apply SHA1.CSHA1_Finalize_spec, (SHA1.CSHA1_Write_repr _ []); [now apply new_repr|done].
  - now destruct (CSHA256_Finalize_spec _ _ Hsha) as [-> _].
  - now apply CHash160_Finalize_spec.
  - now apply CHash256_Finalize_spec.
Qed.

Lemma element_hash o vch : bytes vch -> element (eval_hash o vch).
Proof.
  intros Hb. rewrite eval_hash_digest by done. destruct o; cbn [digest].
  - destruct (ripemd160_length vch) as [Hl Hy]. apply element_short; [done|lia].
  - destruct (sha1_length vch) as [Hl Hy]. apply element_short; [done|lia].
  - apply element_short; [apply bytes_sha256|rewrite sha256_length; lia].
  - destruct (hash160_length vch) as [Hl Hy]. apply element_short; [done|lia].
  - apply element_short; [apply bytes_sha256d|rewrite length_sha256d; lia].
Qed.

(** ** Operations on the stack *)

Section Safety.
Context (CheckLowS : list Z -> bool) (flags : Z) (checker : BaseSignatureChecker).

(** An operand of four bytes. *)
Definition operand (n : Z) : Prop := Z.abs n < 2 ^ 31.

Lemma post_number x : element x -> post operand (number flags x 4).
Proof. intros [Hb _]. exact (number_bounds _ x 4 Hb ltac:(lia)). Qed.

Lemma checked_safe n : Z.abs n < 2 ^ 33 -> post (fun n => - 2 ^ 63 < n < 2 ^ 63) (checked n).
Proof. intros Hn. unfold checked. replace (_ && _) with true by lia. cbn. lia. Qed.

Lemma of_flag_safe b : post (fun n => - 2 ^ 63 < n < 2 ^ 63) (mret (of_flag b)).
Proof. destruct b; cbn; lia. Qed.

Lemma eval_unary_safe o n : operand n -> post (fun n => - 2 ^ 63 < n < 2 ^ 63) (eval_unary o n).
Proof.
  unfold operand. intros Hn. destruct o; cbn [eval_unary]; first [apply of_flag_safe|apply checked_safe; lia|idtac].
  destruct (n <? 0); [apply checked_safe|cbn]; lia.
Qed.

Lemma eval_binary_safe o n1 n2 : operand n1 -> operand n2 -> post (fun n => - 2 ^ 63 < n < 2 ^ 63) (eval_binary o n1 n2).
Proof.
  unfold operand. intros H1 H2. destruct o; cbn [eval_binary]; first [apply of_flag_safe|apply checked_safe; lia|idtac];
    destruct (_ <? _); cbn; lia.
Qed.

(** Each operation keeps the elements, and puts at most three on the stacks. *)
Definition grown (s alt : list (list Z)) (r : list (list Z) * list (list Z)) : Prop :=
  elements r.1 /\ elements r.2 /\ (length r.1 + length r.2 <= length s + length alt + 3)%nat.

Lemma grown_intro s alt s' alt' : elements s' -> elements alt' -> (length s' + length alt' <= length s + length alt + 3)%nat ->
  post (grown s alt) (mret (s', alt')).
Proof. done. Qed.

(** The cases of a match on a stack. *)
Ltac pop := repeat match goal with
  | |- post _ (match ?s with [] => _ | _ :: _ => _ end) => is_var s; destruct s; [exact I|]
  | H : Forall _ (_ :: _) |- _ => apply Forall_cons_1 in H as [? H]
  end.
Ltac keep_elements := apply grown_intro; [repeat (assumption || apply Forall_cons_2)..|cbn [length] in *; lia].

Lemma pick_safe roll s alt x : element x -> elements s -> elements alt -> (length s + length alt <= 1000)%nat ->
  s <> [] -> post (grown (x :: s) alt) (exec_stack flags (PICK roll) (x :: s) alt).
Proof.
  intros Hx Hs Ha Hl Hne. destruct s as [|y s']; [done|]. cbn [exec_stack]. set (s := y :: s') in *. clearbody s.
  apply (post_bind operand); [now apply post_number|]. intros n _. destruct (_ || _) eqn:Eb; [exact I|].
  apply orb_false_iff in Eb as [E1 E2]. destruct (lookup_lt_is_Some_2 s (Z.to_nat (getint n))) as [v Ev]; [lia|].
  rewrite Ev. cbn [defined mbind eval_bind mret eval_ret]. pose proof (Forall_lookup_1 _ _ _ _ Hs Ev).
  apply grown_intro; [constructor; [done|]; destruct roll; [now apply Forall_delete|done]|done|].
  cbn [length]. destruct roll; [rewrite length_delete by now rewrite Ev|]; lia.
Qed.

Lemma exec_stack_safe o s alt : elements s -> elements alt -> (length s + length alt <= 1000)%nat ->
  post (grown s alt) (exec_stack flags o s alt).
Proof.
  intros Hs Ha Hl. destruct o as [| | | | | | | | | | | | | |roll| | | | |verify]; try solve [cbn [exec_stack]; pop; keep_elements].
  - destruct s as [|x s]; [exact I|]. cbn [exec_stack]. destruct (CastToBool x); [pop; keep_elements|].
    apply grown_intro; [done|done|lia].
  - apply grown_intro; [|done|cbn [length]; lia]. constructor; [apply element_number; lia|done].
  - destruct s as [|x [|y s]]; [exact I..|]. apply Forall_cons_1 in Hs as [Hx Hs]. apply pick_safe; try done. cbn [length] in *. lia.
  - cbn [exec_stack]. pop. apply grown_intro; [|done|cbn [length]; lia]. constructor; [|now constructor].
    apply element_number. match goal with H : element _ |- _ => destruct H as [_ H]; unfold MAX_SCRIPT_ELEMENT_SIZE in H end. lia.
  - cbn [exec_stack]. pop. destruct verify; [destruct (bool_decide _); [keep_elements|exact I]|].
    apply grown_intro; [constructor; [apply element_bool|done]|done|cbn [length]; lia].
Qed.
(** ** Signatures *)

(** Conditionals that end in a result or an error. *)
Ltac flag_cases := repeat (apply post_if; intros _); exact I.

Lemma required_safe flag m e : post (fun _ => True) m -> post (fun _ => True) (required flag m e).
Proof. intros Hm. destruct flag; [|exact I]. apply (post_bind _ _ _ _ Hm). intros [] _; exact I. Qed.

Lemma and_then_safe (b : bool) m : (b = true -> post (fun _ => True) m) -> post (fun _ => True) (and_then (mret b) m).
Proof. destruct b; [|done]. intros H. exact (H eq_refl). Qed.

(** A read within the vector. *)
Lemma post_byte (Q : Z -> Prop) v i : bytes v -> 0 <= i < Z.of_nat (length v) ->
  (forall b, is_byte b -> Q b) -> post Q (byte_at v i).
Proof.
  intros Hv Hi HQ. unfold byte_at. destruct (Z.ltb_spec i 0); [lia|].
  destruct (lookup_lt_is_Some_2 v (Z.to_nat i)) as [b Eb]; [lia|]. rewrite Eb. apply HQ. exact (Forall_lookup_1 _ _ _ _ Hv Eb).
Qed.

(** The next byte is read. *)
Ltac read_byte b Hb := eapply post_bind; [apply (post_byte is_byte); [assumption|lia|done]|]; intros b Hb.

Lemma valid_integers_safe sg lenR lenS : bytes sg -> 0 <= lenR -> 0 <= lenS -> lenR + lenS + 7 = Z.of_nat (length sg) ->
  post (fun _ => True) (valid_integers sg lenR lenS).
Proof.
  intros Hsg HR HS Hsize. unfold valid_integers. read_byte b2 H2. apply post_if; [done|intros _].
  destruct (Z.eqb_spec lenR 0); [exact I|]. read_byte r0 Hr0. apply post_if; [done|intros _].
  eapply post_bind.
  { apply and_then_safe. intros _. apply and_then_safe. intros _. read_byte r1 Hr1. exact I. }
  intros padded _. apply post_if; [done|intros _]. read_byte b Hb. apply post_if; [done|intros _].
  destruct (Z.eqb_spec lenS 0); [exact I|]. read_byte s0 Hs0. apply post_if; [done|intros _].
  eapply post_bind; [|done]. apply and_then_safe. intros HlenS. apply and_then_safe. intros _. read_byte s1 Hs1. exact I.
Qed.

(** The checks of encodings read no byte that is not there. *)
Lemma IsValidSignatureEncoding_safe sg : bytes sg -> post (fun _ => True) (IsValidSignatureEncoding sg).
Proof.
  intros Hsg. unfold IsValidSignatureEncoding. cbv zeta.
  destruct (Z.ltb_spec (Z.of_nat (length sg)) 9); [exact I|]. apply post_if; [done|intros _].
  read_byte b0 H0. apply post_if; [done|intros _]. read_byte b1 H1. apply post_if; [done|intros _].
  read_byte lenR HR. unfold is_byte, in_word in HR. destruct (Z.leb_spec (Z.of_nat (length sg)) (5 + lenR)); [exact I|].
  read_byte lenS HS. unfold is_byte, in_word in HS.
  destruct (Z.eqb_spec (lenR + lenS + 7) (Z.of_nat (length sg))); [|exact I]. apply valid_integers_safe; (done || lia).
Qed.

Lemma IsDefinedHashtypeSignature_safe sg : bytes sg -> post (fun _ => True) (IsDefinedHashtypeSignature sg).
Proof.
  intros Hsg. unfold IsDefinedHashtypeSignature. cbv zeta. destruct (Z.eqb_spec (Z.of_nat (length sg)) 0); [exact I|].
  read_byte b Hb. exact I.
Qed.

Lemma IsCompressedOrUncompressedPubKey_safe key : bytes key -> post (fun _ => True) (IsCompressedOrUncompressedPubKey key).
Proof.
  intros Hkey. unfold IsCompressedOrUncompressedPubKey. cbv zeta. destruct (Z.ltb_spec (Z.of_nat (length key)) 33); [exact I|].
  read_byte b Hb. repeat (apply post_if; intros _; [exact I|]). exact I.
Qed.

Lemma CheckMinimalPush_safe data opcode : bytes data -> post (fun _ => True) (CheckMinimalPush data opcode).
Proof.
  intros Hd. unfold CheckMinimalPush. cbv zeta. destruct (Z.eqb_spec (Z.of_nat (length data)) 0); [exact I|].
  eapply post_bind; [apply and_then_safe; intros _; read_byte b Hb; exact I|]. intros small _.
  apply post_if; intros _; [read_byte b Hb; exact I|].
  eapply post_bind; [apply and_then_safe; intros _; read_byte b Hb; exact I|]. done.
Qed.

Lemma check_one_safe vchSig vchPubKey code : bytes vchSig -> bytes vchPubKey ->
  post (fun _ => True) (check_one CheckLowS flags checker vchSig vchPubKey code).
Proof.
  intros Hsig Hkey. pose proof (IsValidSignatureEncoding_safe _ Hsig) as Hvalid.
  assert (Henc : post (fun _ => True) (CheckSignatureEncoding CheckLowS flags vchSig)).
  { unfold CheckSignatureEncoding. destruct vchSig; [exact I|].
    eapply post_bind; [now apply required_safe|]. intros _ _. eapply post_bind; [|intros _ _; now apply required_safe, IsDefinedHashtypeSignature_safe].
    apply (post_if (fun _ => True)); intros _; [|exact I]. eapply post_bind; [now apply required_safe|]. intros _ _. flag_cases. }
  eapply post_bind; [exact Henc|]. intros _ _. eapply post_bind; [|done]. now apply required_safe, IsCompressedOrUncompressedPubKey_safe.
Qed.

Lemma conclude_safe verify e b s : elements s -> post (fun s' => elements s' /\ (length s' <= length s + 1)%nat) (conclude verify e b s).
Proof.
  intros Hs. destruct verify, b; try exact I; (split; [|cbn [length]; lia]); try done; apply Forall_cons_2; try done; apply element_bool.
Qed.

Lemma multisig_loop_safe code sigs keys : elements sigs -> elements keys -> (length sigs <= length keys)%nat ->
  post (fun _ => True) (multisig_loop CheckLowS flags checker code sigs keys).
Proof.
  intros Hs Hk. revert sigs Hs. induction Hk as [|key keys [Hkey _] _ IH]; intros sigs Hs Hl;
    (destruct Hs as [|sg sigs Hsg Hs]; cbn [multisig_loop]; [exact I|]).
  { cbn [length] in Hl. lia. }
  apply (post_bind (fun _ => True)); [apply check_one_safe; [apply Hsg|done]|]. intros fOk _.
  destruct (Nat.ltb_spec (length keys) (length (if fOk then sigs else sg :: sigs))); [exact I|].
  apply IH; [destruct fOk; [done|now apply Forall_cons_2]|done].
Qed.

Lemma exec_checksig_safe verify code s : elements s ->
  post (fun s' => elements s' /\ (length s' <= length s)%nat) (exec_checksig CheckLowS flags checker verify code s).
Proof.
  intros Hs. unfold exec_checksig. pop. apply (post_bind (fun _ => True)); [apply check_one_safe; now apply element_bytes|]. intros b _.
  eapply post_weaken; [now apply conclude_safe|]. cbn [length]. intros s' [? ?]. split; [done|lia].
Qed.

Lemma exec_checkmultisig_safe verify code n s : elements s -> 0 <= n ->
  post (fun r => elements r.2 /\ (length r.2 <= length s)%nat /\ 0 <= r.1 <= MAX_OPS_PER_SCRIPT)
    (exec_checkmultisig CheckLowS flags checker verify code n s).
Proof.
  intros Hs Hn. unfold exec_checkmultisig. destruct s as [|x s]; [exact I|]. apply Forall_cons_1 in Hs as [Hx Hs].
  apply (post_bind operand); [now apply post_number|]. intros nk _.
  destruct (_ || _) eqn:E1; [exact I|]. apply orb_false_iff in E1 as [E1 _]. set (k := getint nk) in *. clearbody k. cbv zeta.
  destruct (Z.ltb_spec MAX_OPS_PER_SCRIPT (n + k)) as [|Hops]; [exact I|].
  destruct (drop (Z.to_nat k) s) as [|y s1] eqn:Ed; [exact I|].
  assert (Hk : length (take (Z.to_nat k) s) = Z.to_nat k /\ (length s1 < length s)%nat).
  { apply (f_equal length) in Ed. rewrite length_drop in Ed. rewrite length_take. cbn [length] in Ed. lia. }
  pose proof (Forall_drop _ (Z.to_nat k) _ Hs) as Hs1. rewrite Ed in Hs1. apply Forall_cons_1 in Hs1 as [Hy Hs1].
  apply (post_bind operand); [now apply post_number|]. intros ns _.
  destruct (_ || _) eqn:E2; [exact I|]. apply orb_false_iff in E2 as [E2 E3]. set (j := getint ns) in *. clearbody j. cbv zeta.
  destruct (drop (Z.to_nat j) s1) as [|dummy s2] eqn:Ed2; [exact I|].
  assert (Hl2 : (length s2 < length s1)%nat) by (apply (f_equal length) in Ed2; rewrite length_drop in Ed2; cbn [length] in Ed2; lia).
  pose proof (Forall_drop _ (Z.to_nat j) _ Hs1) as Hs2. rewrite Ed2 in Hs2. apply Forall_cons_1 in Hs2 as [_ Hs2].
  apply (post_bind (fun _ => True)); [apply multisig_loop_safe; [now apply Forall_take..|rewrite !length_take; lia]|]. intros b _. apply post_if; [done|]. intros _.
  eapply post_bind; [now apply conclude_safe|]. cbv beta. intros s' [? ?]. cbn. cbn [length] in *. repeat split; [done|lia..].
Qed.

(** ** Instructions *)

Record machine_fits (n : nat) (m : machine) : Prop := {
  fits_main : elements (main m);
  fits_alt : elements (altstack m);
  fits_size : (length (main m) + length (altstack m) <= n)%nat;
  fits_ops : 0 <= nOpCount m <= MAX_OPS_PER_SCRIPT }.

Lemma machine_fits_weaken n n' m : machine_fits n m -> (n <= n')%nat -> machine_fits n' m.
Proof. intros [? ? ? ?] ?. constructor; (done || lia). Qed.

(** Only the main stack changes. *)
Lemma with_main_fits n n' m s : machine_fits n m -> elements s -> (length s + length (altstack m) <= n')%nat -> machine_fits n' (with_main s m).
Proof. intros [? ? ? ?] ? ?. now constructor. Qed.

Lemma exec_locktime_safe sequence s : elements s -> post (fun _ => True) (exec_locktime flags checker sequence s).
Proof.
  intros Hs. unfold exec_locktime. apply post_if; intros _; [flag_cases|].
  destruct s as [|x s]; [exact I|]. apply Forall_cons_1 in Hs as [[Hx _] _].
  apply (post_bind (fun _ => True)); [|intros n _; flag_cases].
  eapply post_weaken; [now apply number_bounds|done].
Qed.

Lemma decode_number opcode n : decode opcode = Some (NUMBER n) -> -1 <= n <= 16.
Proof.
  unfold decode. destruct (_ && _) eqn:E; [intros [= <-]; unfold OP_1, OP_16 in *; lia|].
  destruct (List.find _ _) as [[c i]|] eqn:Ef; [|done]. apply find_some in Ef as [Hin _]. intros [= ->].
  assert (Hall : forallb (fun e => match e.2 with NUMBER n => n =? -1 | _ => true end) instructions = true) by reflexivity.
  rewrite forallb_forall in Hall. specialize (Hall _ Hin). cbn in Hall. lia.
Qed.

Lemma set_exec_fits n m l : machine_fits n m -> machine_fits n (with_exec l m).
Proof. now intros [? ? ? ?]. Qed.

Lemma exec_numbers_safe i pc fExec m : machine_fits 1000 m -> match i with UNARY _ | BINARY _ | WITHIN => True | _ => False end ->
  post (machine_fits 1003) (exec CheckLowS flags checker i pc fExec m).
Proof.
  intros Hm Hi. pose proof Hm as [Hs Ha Hl Ho]. destruct i; try done; cbn [exec]; remember (main m) as s; clear Heqs; pop.
  - apply (post_bind operand); [now apply post_number|]. intros n Hn. eapply post_bind; [now apply eval_unary_safe|]. intros r Hr.
    apply (with_main_fits _ _ _ _ Hm); [apply Forall_cons_2; [now apply element_number|done]|cbn [length] in *; lia].
  - apply (post_bind operand); [now apply post_number|]. intros n1 Hn1. apply (post_bind operand); [now apply post_number|]. intros n2 Hn2.
    eapply post_bind; [now apply eval_binary_safe|]. intros r Hr.
    assert (Hpush : machine_fits 1003 (with_main (CScriptNum_serialize r :: s) m)).
    { apply (with_main_fits _ _ _ _ Hm); [apply Forall_cons_2; [now apply element_number|done]|cbn [length] in *; lia]. }
    destruct o; try exact Hpush. apply post_if; [intros _|done]. apply (with_main_fits _ _ _ _ Hm); [done|cbn [length] in *; lia].
  - do 3 (apply (post_bind operand); [now apply post_number|]; intros ? _).
    apply (with_main_fits _ _ _ _ Hm); [apply Forall_cons_2; [apply element_bool|done]|cbn [length] in *; lia].
Qed.

Lemma exec_safe i pc fExec m : machine_fits 1000 m -> (forall n, i = NUMBER n -> -1 <= n <= 16) ->
  post (machine_fits 1003) (exec CheckLowS flags checker i pc fExec m).
Proof.
  intros Hm Hnum. pose proof Hm as [Hs Ha Hl Ho]. assert (Hw : machine_fits 1003 m) by (apply (machine_fits_weaken _ _ _ Hm); lia).
  destruct i; try (now apply exec_numbers_safe); cbn [exec]; try exact I; try exact Hw.
  - apply (with_main_fits _ _ _ _ Hm); [|cbn [length]; lia]. apply Forall_cons_2; [|done]. apply element_number. specialize (Hnum n eq_refl). lia.
  - apply (post_bind (fun _ => True)); [now apply exec_locktime_safe|done].
  - apply (post_bind (fun _ => True)); [now apply exec_locktime_safe|done].
  - apply post_if; done.
  - apply post_if; intros _; [|now apply set_exec_fits]. destruct (main m) as [|x s] eqn:E; [exact I|].
    apply set_exec_fits. apply Forall_cons_1 in Hs as [_ Hs]. apply (with_main_fits _ _ _ _ Hm); [done|cbn [length] in *; lia].
  - destruct (vfExec m); [exact I|]. now apply set_exec_fits.
  - destruct (vfExec m); [exact I|]. now apply set_exec_fits.
  - destruct (main m) as [|x s] eqn:E; [exact I|]. apply post_if; [intros _|done].
    apply Forall_cons_1 in Hs as [_ Hs]. apply (with_main_fits _ _ _ _ Hm); [done|cbn [length] in *; lia].
  - eapply post_bind; [now apply exec_stack_safe|]. intros [s alt] (Hs' & Ha' & Hl'). cbn in *. constructor; cbn; (done || lia).
  - destruct (main m) as [|x s] eqn:E; [exact I|]. apply Forall_cons_1 in Hs as [[Hx _] Hs].
    apply (with_main_fits _ _ _ _ Hm); [apply Forall_cons_2; [now apply element_hash|done]|cbn [length] in *; lia].
  - destruct Hw. now constructor.
  - eapply post_bind; [now apply exec_checksig_safe|]. intros s' [Hs' Hl']. apply (with_main_fits _ _ _ _ Hm); [done|lia].
  - eapply post_bind; [apply exec_checkmultisig_safe; [done|lia]|]. intros [n s'] (Hs' & Hl' & Ho'). cbn in *. constructor; cbn; (done || lia).
Qed.

Lemma GetOp2_bytes pc opcode vch pc' : bytes pc -> GetOp2 pc = Some (opcode, vch, pc') -> bytes vch /\ bytes pc'.
Proof.
  unfold GetOp2, operand_size. destruct pc as [|b pc]; [done|]. intros [_ Hpc]%Forall_cons_1 E.
  destruct (b <=? OP_PUSHDATA4); [|injection E as _ <- <-; split; [constructor|done]].
  destruct (b <? OP_PUSHDATA1); [|destruct (b =? OP_PUSHDATA1); [destruct pc as [|nSize pc]; [done|apply Forall_cons_1 in Hpc as [_ Hpc]]|
    destruct (b =? OP_PUSHDATA2); [destruct (length pc <? 2)%nat; [done|]|destruct (length pc <? 4)%nat; [done|]]]];
    cbn [mbind option_bind] in *; destruct (_ <? _); try done; injection E as _ <- <-; split;
    repeat first [assumption|apply Forall_take|apply Forall_drop].
Qed.

Lemma eval_step_safe opcode vch pc m : machine_fits 1000 m -> bytes vch ->
  post (machine_fits 1000) (eval_step CheckLowS flags checker opcode vch pc m).
Proof.
  intros Hm Hv. unfold eval_step. destruct (Z.ltb_spec MAX_SCRIPT_ELEMENT_SIZE (Z.of_nat (length vch))) as [|Hlen]; [exact I|]. cbv zeta.
  set (m1 := if OP_16 <? opcode then _ else m). destruct ((OP_16 <? opcode) && _) eqn:Eops; [exact I|].
  assert (Hm1 : machine_fits 1000 m1).
  { unfold m1 in *. clear m1. destruct (OP_16 <? opcode); [|done]. cbn [andb with_ops nOpCount] in Eops. destruct Hm. constructor; cbn; (done || lia). }
  clearbody m1. clear Hm Eops. destruct (existsb _ _); [exact I|].
  apply (post_bind (machine_fits 1003)).
  - assert (Hw : machine_fits 1003 m1) by (apply (machine_fits_weaken _ _ _ Hm1); lia).
    destruct (_ && _); [|destruct (_ || _); [|done]].
    + eapply post_bind; [now apply required_safe, CheckMinimalPush_safe|]. intros _ _. pose proof Hm1 as [Hs Ha Hl Ho]. apply (with_main_fits _ _ _ _ Hm1); [|cbn [length]; lia]. now apply Forall_cons_2.
    + destruct (decode opcode) as [i|] eqn:Ed; [|exact I]. apply exec_safe; [done|]. intros n ->. now apply (decode_number opcode).
  - intros m' [? ? ? ?]. destruct (Nat.ltb_spec 1000 (length (main m') + length (altstack m'))); [exact I|now constructor].
Qed.

(** ** Scripts *)

Lemma eval_loop_safe fuel pc m : (length pc <= fuel)%nat -> bytes pc -> machine_fits 1000 m ->
  post (machine_fits 1000) (eval_loop CheckLowS flags checker fuel pc m).
Proof.
  revert pc m. induction fuel as [|fuel IH]; intros pc m Hf Hb Hm; (destruct pc as [|b pc']; [done|]).
  { cbn [length] in Hf. lia. }
  cbn [eval_loop]. destruct (GetOp2 (b :: pc')) as [[[opcode vch] pc]|] eqn:E; [|exact I].
  pose proof (GetOp2_shorter _ _ _ _ E) as Hs. apply GetOp2_bytes in E as [Hv Hpc]; [|done].
  eapply post_bind; [now apply eval_step_safe|]. intros m' Hm'. apply IH; [lia|done..].
Qed.

Definition stack_fits (s : list (list Z)) : Prop := elements s /\ (length s <= 1000)%nat.

Lemma EvalScript_post s script : stack_fits s -> bytes script -> post stack_fits (EvalScript CheckLowS flags checker s script).
Proof.
  intros [Hs Hl] Hb. unfold EvalScript. apply post_if; [done|intros _]. eapply post_bind.
  - apply eval_loop_safe; [done|done|]. constructor; cbn; [done|constructor|lia|unfold MAX_OPS_PER_SCRIPT; lia].
  - intros m [? ? ? ?]. destruct (vfExec m); [|exact I]. cbn. split; [done|lia].
Qed.

(** A pay-to-script-hash output does not accept an empty stack. *)
Lemma p2sh_empty script : IsPayToScriptHash script = true -> post (fun _ => False) (EvalScript CheckLowS flags checker [] script).
Proof.
  unfold IsPayToScriptHash. intros [[[E1 E2]%andb_prop _]%andb_prop _]%andb_prop.
  destruct script as [|b rest]; [done|]. apply Z.eqb_eq in E2. cbn [nth] in E2. subst b. apply Nat.eqb_eq in E1.
  unfold EvalScript. rewrite E1. cbn [Z.of_nat]. change (MAX_SCRIPT_SIZE <? 23) with false. cbn [length] in E1.
  cbn [eval_loop length]. assert (E : GetOp2 (OP_HASH160 :: rest) = Some (OP_HASH160, [], rest)) by reflexivity. rewrite E. exact I.
Qed.

Lemma top_true_post s : post (fun _ => s <> []) (top_true s).
Proof. destruct s; [exact I|]. cbn [top_true]. now apply post_if. Qed.

Lemma VerifyScript_post scriptSig scriptPubKey : bytes scriptSig -> bytes scriptPubKey ->
  (has flags SCRIPT_VERIFY_CLEANSTACK = true -> has flags SCRIPT_VERIFY_P2SH = true) ->
  post (fun _ => True) (VerifyScript CheckLowS flags checker scriptSig scriptPubKey).
Proof.
  intros Hsig Hpub Hflags. unfold VerifyScript. apply post_if; [done|intros _].
  eapply post_bind; [apply EvalScript_post; [now split; [constructor|cbn; lia]|done]|]. intros st1 Hst1.
  pose proof (p2sh_empty scriptPubKey) as Hempty.
  apply (post_bind (fun s => stack_fits s /\ (IsPayToScriptHash scriptPubKey = true -> st1 <> []))).
  { pose proof (EvalScript_post st1 scriptPubKey Hst1 Hpub) as Hp. destruct (EvalScript _ _ _ st1 _) as [[e|s]|] eqn:E; [exact I| |done].
    split; [exact Hp|]. intros Hs ->. specialize (Hempty Hs). now rewrite E in Hempty. }
  intros s [Hs Hne]. eapply post_bind; [apply top_true_post|]. intros _ _.
  apply (post_bind (fun _ => True)).
  - destruct (_ && _) eqn:Ep; [|exact I]. apply andb_prop in Ep as [_ Ep]. apply post_if; [done|intros _].
    destruct st1 as [|pubKey2 st]; [now apply Hne|]. destruct Hst1 as [[[Hk _] Hst]%Forall_cons_1 Hl].
    eapply post_bind; [apply EvalScript_post; [split; [done|cbn [length] in *; lia]|done]|]. intros s' _.
    eapply post_bind; [apply top_true_post|done].
  - intros s' _. apply post_if; [intros Hc|done]. rewrite Hflags by done. cbn [negb]. flag_cases.
Qed.

End Safety.

(** ** Properties *)

(** C7. The interpreter runs safely on every input: from a stack of at most 1000 elements of at most 520 bytes,
    [EvalScript] always ends, in an error or in such a stack.  No assertion on script numbers fails, and nothing
    undefined happens where the model can tell: the reads of bytes of signatures, public keys and pushes with
    [operator[]] ([byte_at]), the element that PICK and ROLL name, and the keys of [OP_CHECKMULTISIG] are all there.  And [VerifyScript] gives a
    verdict for every pair of scripts whatever the flags, except that CLEANSTACK is asserted to come with
    P2SH. *)
Theorem interpreter_safe CheckLowS flags checker :
  (forall s script, stack_fits s -> bytes script ->
     exists r, EvalScript CheckLowS flags checker s script = Some r /\ forall s', r = inr s' -> stack_fits s') /\
  (forall scriptSig scriptPubKey, bytes scriptSig -> bytes scriptPubKey ->
     (has flags SCRIPT_VERIFY_CLEANSTACK = true -> has flags SCRIPT_VERIFY_P2SH = true) ->
     exists r, VerifyScript CheckLowS flags checker scriptSig scriptPubKey = Some r).
Proof.
  split.
  - intros s script Hs Hb. pose proof (EvalScript_post CheckLowS flags checker s script Hs Hb) as Hp.
    destruct (EvalScript _ _ _ _ _) as [r|]; [|done]. exists r. split; [done|]. intros s' ->. exact Hp.
  - intros scriptSig scriptPubKey H1 H2 H3. pose proof (VerifyScript_post CheckLowS flags checker _ _ H1 H2 H3) as Hp.
    destruct (VerifyScript _ _ _ _ _) as [r|]; [now exists r|done].
Qed.

(** ** A concrete evaluation *)

(** A signature of a key is the key with a byte 1 after it. *)
Definition demo_checker : BaseSignatureChecker :=
  mk_checker (fun vchSig vchPubKey _ => bool_decide (vchSig = vchPubKey ++ [1])) (fun _ => true) (fun _ => true).

(** 1 2 ADD 3 NUMEQUAL, a push after an unfinished IF, and ROLL beyond the stack. *)
Lemma interpreter_safe_witness :
  let run := EvalScript (fun _ => true) SCRIPT_VERIFY_MINIMALDATA demo_checker in
  run [] [0x51; 0x52; 0x93; 0x53; 0x9c] = Some (inr [[1]]) /\
  run [] [0x51; 0x63; 0x52] = Some (inl SCRIPT_ERR_UNBALANCED_CONDITIONAL) /\
  run [[7]] [0x51; 0x7a] = Some (inl SCRIPT_ERR_INVALID_STACK_OPERATION) /\
  exists r, run [[7]] [0x51; 0x7a] = Some r.
Proof.
  cbv zeta. split; [vm_compute; reflexivity|]. split; [vm_compute; reflexivity|]. split; [vm_compute; reflexivity|].
  destruct (proj1 (interpreter_safe (fun _ => true) SCRIPT_VERIFY_MINIMALDATA demo_checker) [[7]] [0x51; 0x7a]) as (r & E & _).
  - split; [|cbn; lia]. constructor; [|constructor]. apply element_short; [|cbn; lia]. now apply bytes_short; repeat constructor.
  - now apply bytes_short; repeat constructor.
  - now exists r.
Defined.
