(* ===== verification/ScriptFlags.v ===== *)
(** * The verification flags are soft forks ([script/interpreter.h])

    The comments of the flags call them safe as soft forks: a script that is valid with more of them is valid
    with fewer.  Evaluations under two sets of flags are compared rule by rule. *)

From S2P Require Import Prelude Words Transaction Script TxCheck CoreHash SHA256 Hash160 Interpreter ScriptSafety.

(** ** Evaluations that succeed less often *)

(** Where [m'] succeeds, [m] succeeds with the same result. *)
Definition covers {A} (m m' : eval A) : Prop := forall a, m' = Some (inr a) -> m = Some (inr a).

#[export] Instance covers_preorder A : PreOrder (@covers A).
Proof. split; [now intros m a|]. intros m1 m2 m3 H1 H2 a Ha. auto. Qed.

Lemma covers_error {A} (m : eval A) e : covers m (set_error e).
Proof. intros a. discriminate. Qed.
Lemma covers_none {A} (m : eval A) : covers m None.
Proof. intros a. discriminate. Qed.
Lemma covers_bind {A B} (m m' : eval A) (k k' : A -> eval B) :
  covers m m' -> (forall a, covers (k a) (k' a)) -> covers (m ≫= k) (m' ≫= k').
Proof. intros Hm Hk b. destruct m' as [[e|a]|]; try discriminate. rewrite (Hm a eq_refl). apply Hk. Qed.
Lemma covers_if {A} (b : bool) (m1 m2 m1' m2' : eval A) :
  covers m1 m1' -> covers m2 m2' -> covers (if b then m1 else m2) (if b then m1' else m2').
Proof. now destruct b. Qed.

(** One more reason to fail. *)
Lemma covers_guard {A} (b b' : bool) e (m m' : eval A) : (b = true -> b' = true) -> covers m m' ->
  covers (if b then set_error e else m) (if b' then set_error e else m').
Proof. destruct b, b'; intros Hb Hm; try discriminate (Hb eq_refl); [done|apply covers_error|done]. Qed.

Section Flags.
Context (CheckLowS : list Z -> bool) (checker : BaseSignatureChecker) (flags flags' : Z).

(** [flags] is a subset of [flags'], and does not discourage an instruction that only [flags'] defines. *)
Record soft_fork : Prop := {
  fork_subset : flags .& flags' = flags;
  fork_nops : has flags SCRIPT_VERIFY_DISCOURAGE_UPGRADABLE_NOPS = true ->
    (has flags' SCRIPT_VERIFY_CHECKLOCKTIMEVERIFY = true -> has flags SCRIPT_VERIFY_CHECKLOCKTIMEVERIFY = true) /\
    (has flags' SCRIPT_VERIFY_CHECKSEQUENCEVERIFY = true -> has flags SCRIPT_VERIFY_CHECKSEQUENCEVERIFY = true) }.

Context (Hfork : soft_fork).

Lemma fork_has flag : has flags flag = true -> has flags' flag = true.
Proof.
  unfold has. rewrite !negb_true_iff, !Z.eqb_neq. intros H E. apply H.
  rewrite <- (fork_subset Hfork), <- Z.land_assoc, E. apply Z.land_0_r.
Qed.

Lemma fork_guard flag c : has flags flag && c = true -> has flags' flag && c = true.
Proof. intros [H ->]%andb_prop. now rewrite (fork_has _ H). Qed.

(** ** Operations *)

Lemma covers_number vch k : covers (number flags vch k) (number flags' vch k).
Proof.
  unfold number, CScriptNum. destruct (_ <? _); [apply covers_error|]. intros a.
  destruct (fRequireMinimal flags) eqn:E; [unfold fRequireMinimal in *; now rewrite (fork_has _ E)|].
  destruct (_ && _); [discriminate|]. done.
Qed.

(** A check that the flags require. *)
Lemma covers_required flag m e : covers (required (has flags flag) m e) (required (has flags' flag) m e).
Proof.
  unfold required. destruct (has flags flag) eqn:E; [now rewrite (fork_has _ E)|]. intros [] _. reflexivity.
Qed.

(** The same construct on both sides. *)
Ltac covers_step := match goal with
  | |- covers ?m ?m => reflexivity
  | |- covers _ (set_error _) => apply covers_error
  | |- covers _ short => apply covers_error
  | |- covers (number _ _ _) _ => apply covers_number
  | |- covers (required _ _ _) _ => apply covers_required
  | |- covers (_ ≫= _) (_ ≫= _) => apply covers_bind; [|intros ?]
  | |- covers (if has _ ?f && _ then _ else _) _ => apply covers_guard; [apply fork_guard|]
  | |- covers (if has _ ?f then set_error _ else _) _ => apply covers_guard; [apply fork_has|]
  | |- covers (if ?b then _ else _) (if ?b then _ else _) => apply covers_if
  | |- covers (match ?x with _ => _ end) (match ?x with _ => _ end) => destruct x
  end.
Ltac covers_auto := cbv zeta; repeat covers_step.

Lemma covers_exec_stack o s alt : covers (exec_stack flags o s alt) (exec_stack flags' o s alt).
Proof. destruct o; cbn [exec_stack]; covers_auto. Qed.

Lemma covers_check_one vchSig vchPubKey code :
  covers (check_one CheckLowS flags checker vchSig vchPubKey code) (check_one CheckLowS flags' checker vchSig vchPubKey code).
Proof.
  unfold check_one, CheckSignatureEncoding, CheckPubKeyEncoding. covers_auto.
  destruct (has flags SCRIPT_VERIFY_LOW_S) eqn:E; [rewrite (fork_has _ E); reflexivity|]. intros [] _. reflexivity.
Qed.

Lemma covers_multisig_loop code sigs keys :
  covers (multisig_loop CheckLowS flags checker code sigs keys) (multisig_loop CheckLowS flags' checker code sigs keys).
Proof.
  revert sigs. induction keys as [|key keys IH]; intros [|sg sigs]; cbn [multisig_loop]; try reflexivity.
  apply covers_bind; [apply covers_check_one|]. intros fOk. cbv zeta. apply covers_if; [reflexivity|apply IH].
Qed.

Lemma covers_checksig verify code s :
  covers (exec_checksig CheckLowS flags checker verify code s) (exec_checksig CheckLowS flags' checker verify code s).
Proof. unfold exec_checksig. covers_auto. apply covers_check_one. Qed.

Lemma covers_checkmultisig verify code n s :
  covers (exec_checkmultisig CheckLowS flags checker verify code n s) (exec_checkmultisig CheckLowS flags' checker verify code n s).
Proof. unfold exec_checkmultisig. covers_auto. apply covers_multisig_loop. Qed.

Lemma covers_locktime sequence s : covers (exec_locktime flags checker sequence s) (exec_locktime flags' checker sequence s).
Proof.
  unfold exec_locktime. set (f := if sequence then _ else _). destruct (has flags f) eqn:E.
  { rewrite (fork_has _ E). cbn [negb]. covers_auto. }
  cbn [negb]. destruct (has flags SCRIPT_VERIFY_DISCOURAGE_UPGRADABLE_NOPS) eqn:Ed.
  - destruct (fork_nops Hfork Ed) as [H1 H2]. assert (E' : has flags' f = false).
    { apply not_true_is_false. intros E'. unfold f in *. destruct sequence; [rewrite (H2 E') in E|rewrite (H1 E') in E]; discriminate. }
    rewrite E', (fork_has _ Ed). reflexivity.
  - intros []. done.
Qed.

Lemma covers_exec i pc fExec m : covers (exec CheckLowS flags checker i pc fExec m) (exec CheckLowS flags' checker i pc fExec m).
Proof.
  destruct i; cbn [exec]; try reflexivity; try (apply covers_guard; [apply fork_has|reflexivity]);
    try solve [covers_auto]; (apply covers_bind; [|intros ?; reflexivity]).
  - apply covers_locktime.
  - apply covers_locktime.
  - apply covers_exec_stack.
  - apply covers_checksig.
  - apply covers_checkmultisig.
Qed.

(** ** Scripts *)

Lemma covers_step_eval opcode vch pc m :
  covers (eval_step CheckLowS flags checker opcode vch pc m) (eval_step CheckLowS flags' checker opcode vch pc m).
Proof.
  unfold eval_step. cbv zeta. repeat (apply covers_if; [reflexivity|]).
  apply covers_bind; [|intros; reflexivity]. apply covers_if.
  - apply covers_bind; [apply covers_required|reflexivity].
  - apply covers_if; [|reflexivity]. destruct (decode opcode); [apply covers_exec|reflexivity].
Qed.

Lemma covers_eval_loop fuel pc m : covers (eval_loop CheckLowS flags checker fuel pc m) (eval_loop CheckLowS flags' checker fuel pc m).
Proof.
  revert pc m. induction fuel as [|fuel IH]; intros pc m; (destruct pc as [|b pc]; [reflexivity|]); [reflexivity|].
  cbn [eval_loop]. destruct (GetOp2 (b :: pc)) as [[[opcode vch] pc']|]; [|reflexivity].
  apply covers_bind; [apply covers_step_eval|]. intros m'. apply IH.
Qed.

Lemma covers_EvalScript s script : covers (EvalScript CheckLowS flags checker s script) (EvalScript CheckLowS flags' checker s script).
Proof. unfold EvalScript. apply covers_if; [reflexivity|]. apply covers_bind; [apply covers_eval_loop|]. intros m. reflexivity. Qed.
End Flags.

Lemma covers_unit (m : eval unit) : covers (mret tt) m.
Proof. intros [] _. reflexivity. Qed.

(** The check for a clean stack. *)
Lemma covers_clean flags flags' (s : list (list Z)) : soft_fork flags flags' ->
  has flags SCRIPT_VERIFY_P2SH = true -> has flags' SCRIPT_VERIFY_P2SH = true ->
  let clean f : eval unit := if has f SCRIPT_VERIFY_CLEANSTACK then
      if negb (has f SCRIPT_VERIFY_P2SH) then None else if negb (length s =? 1)%nat then set_error SCRIPT_ERR_CLEANSTACK else mret tt
    else mret tt in covers (clean flags) (clean flags').
Proof.
  intros Hfork E1 E2 clean. unfold clean. rewrite E1, E2. cbn [negb]. destruct (has flags SCRIPT_VERIFY_CLEANSTACK) eqn:E; [|apply covers_unit].
  rewrite (fork_has _ _ Hfork _ E). reflexivity.
Qed.

(** ** Properties *)

(** C9. Every verification flag is safe as a soft fork, as the comments of the flags say: what [VerifyScript] accepts
    with more flags it accepts with fewer.  The two conditions are the ones of the code: CLEANSTACK comes with
    P2SH, and a set of flags that discourages the upgradable NOPs is compared with sets that define the same ones. *)
Theorem flags_soft_fork CheckLowS checker flags flags' scriptSig scriptPubKey : soft_fork flags flags' ->
  (has flags SCRIPT_VERIFY_CLEANSTACK = true -> has flags SCRIPT_VERIFY_P2SH = true) ->
  VerifyScript CheckLowS flags' checker scriptSig scriptPubKey = Some (inr tt) ->
  VerifyScript CheckLowS flags checker scriptSig scriptPubKey = Some (inr tt).
Proof.
  intros Hfork Hclean. revert Hclean.
  enough (H : (has flags SCRIPT_VERIFY_CLEANSTACK = true -> has flags SCRIPT_VERIFY_P2SH = true) ->
    covers (VerifyScript CheckLowS flags checker scriptSig scriptPubKey) (VerifyScript CheckLowS flags' checker scriptSig scriptPubKey))
    by exact (fun Hclean => H Hclean tt).
  intros Hclean. unfold VerifyScript. apply covers_guard; [now apply fork_guard|].
  apply covers_bind; [now apply covers_EvalScript|]. intros st. apply covers_bind; [now apply covers_EvalScript|]. intros s.
  apply covers_bind; [reflexivity|]. intros _. destruct (has flags SCRIPT_VERIFY_P2SH) eqn:Ep.
  - rewrite (fork_has _ _ Hfork _ Ep). cbn [andb]. apply covers_bind.
    + apply covers_if; [|reflexivity]. apply covers_if; [reflexivity|]. destruct st; [reflexivity|].
      apply covers_bind; [now apply covers_EvalScript|]. intros s'. reflexivity.
    + intros s'. pose proof (covers_clean flags flags' s' Hfork Ep (fork_has _ _ Hfork _ Ep)) as Hc. cbv beta zeta in Hc.
      rewrite Ep, (fork_has _ _ Hfork _ Ep) in Hc. exact Hc.
  - destruct (has flags SCRIPT_VERIFY_CLEANSTACK); [discriminate (Hclean eq_refl)|]. apply covers_unit.
Qed.

(** ** A concrete script *)

(** NOP2 NOP10 1, with no flag and with the time lock. *)
Lemma flags_soft_fork_witness :
  let verify f := VerifyScript (fun _ => true) f demo_checker [0x51] [0xb1; 0xb9] in
  verify SCRIPT_VERIFY_CHECKLOCKTIMEVERIFY = Some (inr tt) /\ verify SCRIPT_VERIFY_NONE = Some (inr tt) /\
  verify SCRIPT_VERIFY_DISCOURAGE_UPGRADABLE_NOPS = Some (inl SCRIPT_ERR_DISCOURAGE_UPGRADABLE_NOPS).
Proof.
  cbv zeta. split; [vm_compute; reflexivity|]. split; [|vm_compute; reflexivity].
  apply (flags_soft_fork (fun _ => true) demo_checker SCRIPT_VERIFY_NONE SCRIPT_VERIFY_CHECKLOCKTIMEVERIFY);
    [now split|now vm_compute|vm_compute; reflexivity].
Defined.

(** The condition on the NOPs is needed: a set of flags that discourages NOP2 accepts less than one that defines it. *)
Example discouraged_nop :
  let verify f := VerifyScript (fun _ => true) f demo_checker [0x51] [0xb1] in
  verify (SCRIPT_VERIFY_DISCOURAGE_UPGRADABLE_NOPS .| SCRIPT_VERIFY_CHECKLOCKTIMEVERIFY) = Some (inr tt) /\
  verify SCRIPT_VERIFY_DISCOURAGE_UPGRADABLE_NOPS = Some (inl SCRIPT_ERR_DISCOURAGE_UPGRADABLE_NOPS).
Proof. split; vm_compute; reflexivity. Qed.
