(* ===== verification/ScriptPayments.v ===== *)
(** * What the usual scripts accept

    The conditions under which [VerifyScript] accepts the inputs of a pay-to-public-key-hash output, of a
    pay-to-script-hash output, and of a multisignature script: the contract of the interpreter with the
    standard payments. *)

From S2P Require Import Prelude Words Transaction Script TxCheck CoreHash SHA256 Hash160 Interpreter ScriptSafety.

(** ** Scripts of pushes *)

Definition pushes (items : list (list Z)) : CScript := mjoin (push_data <$> items).

Lemma pushes_cons b items : pushes (b :: items) = push_data b ++ pushes items.
Proof. apply join_fmap_cons. Qed.

Lemma GetOp2_push b rest : Z.of_nat (length b) <= MAX_SCRIPT_ELEMENT_SIZE -> Z.of_nat (length rest) < 2 ^ 31 ->
  GetOp2 (push_data b ++ rest) = Some (hd 0 (push_data b), b, rest) /\ hd 0 (push_data b) <= OP_PUSHDATA4.
Proof.
  unfold MAX_SCRIPT_ELEMENT_SIZE. intros Hb Hr. destruct (GetOp2_push_data b rest) as (op & E & Hop); [rewrite length_app; lia|].
  assert (Eop : op = hd 0 (push_data b)); [|now subst op].
  destruct (push_data b) as [|x l] eqn:Ex; [unfold push_data in Ex; repeat (destruct (_ <? _) || destruct (_ <=? _)); discriminate|].
  cbn [app hd] in *. revert E. unfold GetOp2. cbn [mbind option_bind]. destruct (x <=? OP_PUSHDATA4); [|now intros [= <-]].
  destruct (operand_size x (l ++ rest)) as [[n pc]|]; [|done]. cbn [mbind option_bind]. destruct (_ <? _); [done|]. now intros [= <-].
Qed.

Lemma push_minimal b : length b <> 1%nat -> Z.of_nat (length b) <= MAX_SCRIPT_ELEMENT_SIZE -> CheckMinimalPush b (hd 0 (push_data b)) = mret true.
Proof.
  unfold MAX_SCRIPT_ELEMENT_SIZE. intros H1 Hb. unfold CheckMinimalPush, push_data. set (size := Z.of_nat (length b)) in *.
  assert (Hs : size <> 1) by lia. rewrite (proj2 (Z.eqb_neq size 1) Hs). cbn [and_then mbind eval_bind mret eval_ret].
  assert (Hu8 : size < 256 -> u8 size = size) by (intros ?; apply (wrap_small 8); unfold in_word; lia).
  unfold OP_PUSHDATA1, OP_PUSHDATA2, OP_0. destruct (Z.eqb_spec size 0) as [E|Hne].
  { rewrite (proj2 (Z.ltb_lt size _)) by lia. cbn [app hd]. rewrite E. reflexivity. }
  destruct (Z.ltb_spec size 0x4c); [rewrite (proj2 (Z.leb_le size 75)) by lia; cbn [app hd]; rewrite Hu8 by lia; now rewrite Z.eqb_refl|].
  rewrite (proj2 (Z.leb_gt size 75)) by lia. destruct (Z.leb_spec size 0xff); [reflexivity|].
  rewrite (proj2 (Z.leb_le size 0xffff)) by lia. reflexivity.
Qed.

(** ** Loops of the interpreter *)

Section Payments.
Context (CheckLowS : list Z -> bool) (flags : Z) (checker : BaseSignatureChecker).
Abbreviation step := (eval_step CheckLowS flags checker).
Abbreviation loop := (eval_loop CheckLowS flags checker).

Lemma eval_loop_fuel f1 f2 pc m : (length pc <= f1)%nat -> (length pc <= f2)%nat -> loop f1 pc m = loop f2 pc m.
Proof.
  revert f2 pc m. induction f1 as [|f1 IH]; intros f2 pc m H1 H2.
  - destruct pc; [|cbn in H1; lia]. now destruct f2.
  - destruct f2 as [|f2]; [destruct pc; [done|cbn in H2; lia]|]. cbn [eval_loop]. destruct pc as [|b pc]; [done|].
    destruct (GetOp2 (b :: pc)) as [[[op d] pc']|] eqn:E; [|done]. pose proof (GetOp2_shorter _ _ _ _ E) as Hs. cbn [length] in *.
    destruct (step op d pc' m) as [[e|m']|]; [done| |done]. cbn. apply IH; lia.
Qed.

(** The rest of a script. *)
Definition run (pc : CScript) (m : machine) : eval machine := loop (length pc) pc m.

Lemma run_step pc op d pc' m : GetOp2 pc = Some (op, d, pc') -> run pc m = (step op d pc' m ≫= run pc').
Proof.
  intros E. unfold run. destruct pc as [|b pc]; [done|]. pose proof (GetOp2_shorter _ _ _ _ E) as Hs. cbn [length eval_loop] in *. rewrite E.
  destruct (step op d pc' m) as [[e|m']|]; [done| |done]. cbn. apply eval_loop_fuel; lia.
Qed.

(** Machines outside a conditional, with no alternative stack. *)
Definition flat (s : list (list Z)) (n : Z) (code : CScript) : machine := mk_machine s [] [] n code.

Definition pushable (b : list Z) : Prop := element b /\ length b <> 1%nat.

Lemma run_push b rest s n code : pushable b -> (length s < 1000)%nat -> Z.of_nat (length rest) < 2 ^ 31 ->
  run (push_data b ++ rest) (flat s n code) = run rest (flat (b :: s) n code).
Proof.
  intros [[Hb Hl] H1] Hs Hr. destruct (GetOp2_push b rest Hl Hr) as [E Hop]. rewrite (run_step _ _ _ _ _ E).
  unfold eval_step. rewrite (proj2 (Z.ltb_ge _ _) Hl). pose proof Hop as Hop'. unfold OP_PUSHDATA4 in Hop'.
  rewrite (proj2 (Z.ltb_ge OP_16 _)) by (unfold OP_16; lia). cbn [andb]. rewrite (proj2 (Z.leb_le _ _) Hop).
  assert (Ed : existsb (Z.eqb (hd 0 (push_data b))) disabled_opcodes = false).
  { apply not_true_is_false. intros (x & Hin & Ex%Z.eqb_eq)%existsb_exists. rewrite Ex in Hop'.
    assert (Hall : forallb (fun x => 0x4e <? x) disabled_opcodes = true) by reflexivity.
    rewrite forallb_forall in Hall. specialize (Hall _ Hin). lia. }
  rewrite Ed. cbn [flat vfExec forallb andb]. rewrite push_minimal by done.
  assert (Er : forall flag e, required flag (mret true) e = mret tt) by now intros []. rewrite Er. cbn [mbind eval_bind mret eval_ret].
  cbn -[run Nat.ltb]. rewrite (proj2 (Nat.ltb_ge _ _)) by lia. reflexivity.
Qed.

Lemma run_pushes items rest s n code : Forall pushable items -> (length items + length s <= 1000)%nat ->
  Z.of_nat (length (pushes items ++ rest)) < 2 ^ 31 ->
  run (pushes items ++ rest) (flat s n code) = run rest (flat (rev items ++ s) n code).
Proof.
  intros Hi. revert s. induction Hi as [|b items Hb Hi IH]; intros s Hs Hr; [done|].
  rewrite pushes_cons, <- app_assoc in *. cbn [length] in Hs.
  rewrite length_app in Hr. rewrite run_push by (done || lia). rewrite IH by (cbn [length] in *; lia). cbn [rev]. now rewrite <- app_assoc.
Qed.
Lemma EvalScript_run s script : Z.of_nat (length script) <= MAX_SCRIPT_SIZE -> EvalScript CheckLowS flags checker s script =
  (run script (flat s 0 script) ≫= fun m => match vfExec m with [] => mret (main m) | _ => set_error SCRIPT_ERR_UNBALANCED_CONDITIONAL end).
Proof. intros Hl. unfold EvalScript. now rewrite (proj2 (Z.ltb_ge _ _) Hl). Qed.

Lemma eval_pushes items s : Forall pushable items -> (length items + length s <= 1000)%nat ->
  Z.of_nat (length (pushes items)) <= MAX_SCRIPT_SIZE ->
  EvalScript CheckLowS flags checker s (pushes items) = Some (inr (rev items ++ s)).
Proof.
  intros Hi Hs Hl. rewrite EvalScript_run by done. rewrite <- (app_nil_r (pushes items)) at 1.
  rewrite run_pushes; [reflexivity|done|done|]. rewrite app_nil_r. unfold MAX_SCRIPT_SIZE in Hl. lia.
Qed.

(** Another instruction. *)
Definition limit_stack (m : machine) : eval machine :=
  if (1000 <? length (main m) + length (altstack m))%nat then set_error SCRIPT_ERR_STACK_SIZE else mret m.

Lemma run_instruction op i rest s n code : decode op = Some i -> OP_PUSHDATA4 < op -> (op <=? OP_16) || (n <? MAX_OPS_PER_SCRIPT) = true ->
  run (op :: rest) (flat s n code) =
    (exec CheckLowS flags checker i rest true (flat s (if OP_16 <? op then n + 1 else n) code) ≫= limit_stack) ≫= run rest.
Proof.
  intros Hd Hop Hn. assert (E : GetOp2 (op :: rest) = Some (op, [], rest)) by (unfold GetOp2; rewrite (proj2 (Z.leb_gt _ _) Hop); reflexivity).
  rewrite (run_step _ _ _ _ _ E). unfold eval_step. cbn [length Z.of_nat]. change (MAX_SCRIPT_ELEMENT_SIZE <? 0) with false.
  replace (if OP_16 <? op then with_ops (nOpCount (flat s n code) + 1) (flat s n code) else flat s n code)
    with (flat s (if OP_16 <? op then n + 1 else n) code) by (destruct (OP_16 <? op); reflexivity).
  assert (Ec : (OP_16 <? op) && (MAX_OPS_PER_SCRIPT <? nOpCount (flat s (if OP_16 <? op then n + 1 else n) code)) = false).
  { cbn [flat nOpCount]. unfold MAX_OPS_PER_SCRIPT in *. destruct (Z.ltb_spec OP_16 op); [|done]. lia. }
  rewrite Ec. cbn [flat vfExec forallb andb]. rewrite (proj2 (Z.leb_gt _ _) Hop), Hd.
  assert (Ed : existsb (Z.eqb op) disabled_opcodes = false); [|now rewrite Ed].
  apply not_true_is_false. intros (x & Hin & <-%Z.eqb_eq)%existsb_exists.
  assert (Hall : forallb (fun x => match decode x with None => true | Some _ => false end) disabled_opcodes = true) by reflexivity.
  rewrite forallb_forall in Hall. specialize (Hall _ Hin). now rewrite Hd in Hall.
Qed.
(** ** Pay to public key hash *)

Definition p2pkh (h : list Z) : CScript := OP_DUP :: OP_HASH160 :: push_data h ++ [OP_EQUALVERIFY; OP_CHECKSIG].

(** No copy of the script [b] starts at the position. *)
Lemma skip_copies_head f b pc : hd 0 b <> hd 0 pc -> b <> [] -> skip_copies f b pc = (0%nat, pc).
Proof.
  intros Hh Hb. destruct f as [|f]; [done|]. cbn [skip_copies]. destruct b as [|x b]; [done|].
  destruct pc as [|y pc]; [done|]. cbn [hd length take firstn] in *. rewrite bool_decide_eq_false_2 by congruence. now rewrite andb_false_r.
Qed.

Lemma delete_loop_next f b result pc2 pc n op d pc' k : hd 0 b <> hd 0 pc -> b <> [] -> GetOp2 pc = Some (op, d, pc') ->
  (forall result', (delete_loop f b result' pc pc' n).1 = k) -> (delete_loop (S f) b result pc2 pc n).1 = k.
Proof. intros Hh Hb E Hk. cbn [delete_loop]. rewrite skip_copies_head by done. cbv beta iota. rewrite E, Nat.add_0_r. apply Hk. Qed.

Lemma delete_loop_end f b result pc2 n : b <> [] -> (delete_loop f b result pc2 [] n).1 = n.
Proof. intros Hb. destruct f; cbn [delete_loop length skip_copies]; cbn; lia. Qed.

Lemma push_head_small b : hd 0 (push_data b) <= OP_PUSHDATA4 /\ push_data b <> [] /\
  (hd 0 (push_data b) = 0x14 -> length b = 20%nat).
Proof.
  unfold push_data. unfold OP_PUSHDATA1, OP_PUSHDATA2, OP_PUSHDATA4. destruct (Z.ltb_spec (Z.of_nat (length b)) 0x4c).
  - rewrite (wrap_small 8) by (unfold in_word; lia). cbn [app hd]. repeat split; [lia|done|lia].
  - destruct (_ <=? _); [cbn [app hd]; repeat split; done|]. destruct (_ <=? _); cbn [app hd]; repeat split; done.
Qed.

Lemma push_data20 h : length h = 20%nat -> push_data h = 0x14 :: h.
Proof. intros Hh. unfold push_data. now rewrite Hh. Qed.

Lemma FindAndDelete_none script b : b <> [] -> (delete_loop (length script) b [] script script 0).1 = 0%nat -> FindAndDelete script b = script.
Proof. intros Hb E. unfold FindAndDelete. destruct b as [|x b]; [done|]. destruct (delete_loop _ _ _ _ _ _) as [n r]. cbn [fst] in E. now rewrite E. Qed.

Lemma p2pkh_no_signature h vchSig : length h = 20%nat -> length vchSig <> 20%nat -> FindAndDelete (p2pkh h) (push_data vchSig) = p2pkh h.
Proof.
  intros Hh Hs. destruct (push_head_small vchSig) as (H1 & H2 & H3). apply FindAndDelete_none; [done|].
  unfold p2pkh. rewrite (push_data20 h Hh). set (script := OP_DUP :: _).
  assert (Hl : length script = 25%nat) by (unfold script; cbn [length app]; rewrite length_app, Hh; reflexivity).
  rewrite Hl. unfold OP_PUSHDATA4 in H1. unfold script.
  eapply delete_loop_next; [cbn [hd]; unfold OP_DUP; lia|done|reflexivity|]. intros ?.
  eapply delete_loop_next; [cbn [hd]; unfold OP_HASH160; lia|done|reflexivity|]. intros ?.
  eapply delete_loop_next; [intros E; now apply Hs, H3|done| |].
  { change (20 :: h) with (0x14 :: h). rewrite <- (push_data20 h Hh). apply GetOp2_push; [rewrite Hh; done|done]. }
  intros ?. eapply delete_loop_next; [cbn [hd]; unfold OP_EQUALVERIFY; lia|done|reflexivity|]. intros ?.
  eapply delete_loop_next; [cbn [hd]; unfold OP_CHECKSIG; lia|done|reflexivity|]. intros ?.
  now apply delete_loop_end.
Qed.
(** An instruction that succeeds or fails. *)
Lemma run_ok op i rest s n code s' n' code' : decode op = Some i -> OP_PUSHDATA4 < op -> (op <=? OP_16) || (n <? MAX_OPS_PER_SCRIPT) = true ->
  exec CheckLowS flags checker i rest true (flat s (if OP_16 <? op then n + 1 else n) code) = Some (inr (flat s' n' code')) ->
  (length s' <= 1000)%nat -> run (op :: rest) (flat s n code) = run rest (flat s' n' code').
Proof.
  intros Hd Hop Hn He Hl. rewrite (run_instruction _ _ _ _ _ _ Hd Hop Hn), He. cbn [mbind eval_bind]. unfold limit_stack.
  cbn [flat main altstack length]. now rewrite (proj2 (Nat.ltb_ge _ _)) by lia.
Qed.

Lemma run_error op i rest s n code e : decode op = Some i -> OP_PUSHDATA4 < op -> (op <=? OP_16) || (n <? MAX_OPS_PER_SCRIPT) = true ->
  exec CheckLowS flags checker i rest true (flat s (if OP_16 <? op then n + 1 else n) code) = Some (inl e) ->
  run (op :: rest) (flat s n code) = Some (inl e).
Proof. intros Hd Hop Hn He. now rewrite (run_instruction _ _ _ _ _ _ Hd Hop Hn), He. Qed.

Ltac instruction i s n := erewrite (run_ok _ i _ _ _ _ s n); [|reflexivity|reflexivity|reflexivity| |cbn [length]; lia].

Lemma eval_p2pkh h vchSig vchPubKey : bytes h -> length h = 20%nat -> bytes vchPubKey -> length vchSig <> 20%nat ->
  EvalScript CheckLowS flags checker [vchPubKey; vchSig] (p2pkh h) =
    (if bool_decide (hash160 vchPubKey = h) then
       fSuccess ← check_one CheckLowS flags checker vchSig vchPubKey (p2pkh h); mret [from_bool fSuccess]
     else set_error SCRIPT_ERR_EQUALVERIFY).
Proof.
  intros Hb Hh Hk Hs. rewrite EvalScript_run.
  2:{ unfold p2pkh. rewrite (push_data20 h Hh). cbn [length app]. rewrite length_app, Hh. done. }
  set (code := p2pkh h). unfold code at 1. unfold p2pkh.
  instruction (STACK DUP) [vchPubKey; vchPubKey; vchSig] 1; [|reflexivity].
  instruction (HASH HASH_HASH160) [hash160 vchPubKey; vchPubKey; vchSig] 2; [|cbn [exec flat main]; rewrite eval_hash_digest by done; reflexivity].
  rewrite run_push; [|split; [now apply element_short; [done|lia]|lia]|cbn [length]; lia|done].
  destruct (bool_decide (hash160 vchPubKey = h)) eqn:E.
  - instruction (STACK (EQUAL true)) [vchPubKey; vchSig] 3; [|cbn [exec flat main altstack exec_stack]; rewrite E; reflexivity].
    erewrite (run_instruction _ (CHECKSIG false)) by reflexivity. cbn [exec flat main pbegincodehash exec_checksig].
    unfold code. rewrite p2pkh_no_signature by done. destruct (check_one _ _ _ _ _ _) as [[e|b]|]; reflexivity.
  - erewrite (run_error _ (STACK (EQUAL true))); [|reflexivity|reflexivity|reflexivity|]; [reflexivity|]. cbn [exec flat main altstack exec_stack]. now rewrite E.
Qed.
(** ** Inputs that push *)

Lemma push_data_length b : Z.of_nat (length (push_data b)) <= Z.of_nat (length b) + 5.
Proof.
  unfold push_data. rewrite length_app. destruct (_ <? _); [|destruct (_ <=? _); [|destruct (_ <=? _)]]; cbn [length]; rewrite ?length_le_split; lia.
Qed.

Lemma pushes_push_only items : Forall pushable items -> Z.of_nat (length (pushes items)) < 2 ^ 31 -> IsPushOnly (pushes items) = true.
Proof.
  intros Hi. unfold IsPushOnly. assert (H : forall fuel, (length (pushes items) <= fuel)%nat -> Z.of_nat (length (pushes items)) < 2 ^ 31 ->
    push_only fuel (pushes items) = true); [|intros; now apply H].
  induction Hi as [|b items [[Hb Hl] _] Hi IH]; intros fuel Hf Hlen; [now destruct fuel|].
  rewrite pushes_cons, length_app in *. destruct (GetOp2_push b (pushes items) Hl ltac:(lia)) as [E Hop].
  destruct fuel as [|fuel]; destruct (push_data b ++ pushes items) as [|x l] eqn:Ex; try done.
  { apply (f_equal length) in Ex. rewrite length_app in Ex. cbn [length] in Ex. lia. }
  cbn [push_only]. rewrite E. unfold OP_PUSHDATA4, OP_16 in *. rewrite (proj2 (Z.ltb_ge _ _)) by lia.
  assert (Hne : push_data b <> []) by apply push_head_small. destruct (push_data b); [done|]. cbn [length] in *. apply IH; lia.
Qed.

(** What [VerifyScript] does for such an input: items is the last item first. *)
Definition clean_stack (s : list (list Z)) : Prop := has flags SCRIPT_VERIFY_CLEANSTACK = true -> length s = 1%nat.
Definition accepts_top (s : list (list Z)) : Prop := exists x s', s = x :: s' /\ CastToBool x = true.

Lemma top_true_iff s : top_true s = Some (inr tt) <-> accepts_top s.
Proof.
  unfold accepts_top. destruct s as [|x s]; cbn [top_true]; [split; [discriminate|now intros (? & ? & ? & _)]|].
  destruct (CastToBool x) eqn:E; split; [|done|discriminate|]; [intros _; now exists x, s|intros (x' & s' & [= <- <-] & E'); congruence].
Qed.

Lemma bind_success {A B} (m : eval A) (k : A -> eval B) b : (m ≫= k) = Some (inr b) <-> exists a, m = Some (inr a) /\ k a = Some (inr b).
Proof.
  destruct m as [[e|a]|]; cbn; split; try discriminate; try (now intros (? & ? & _)).
  - intros E. now exists a.
  - now intros (a' & [= <-] & E).
Qed.

(** The last check of [VerifyScript]. *)
Definition check_clean (s : list (list Z)) : eval unit :=
  if has flags SCRIPT_VERIFY_CLEANSTACK then
    if negb (has flags SCRIPT_VERIFY_P2SH) then None else if negb (length s =? 1)%nat then set_error SCRIPT_ERR_CLEANSTACK else mret tt
  else mret tt.
Lemma check_clean_iff s : (has flags SCRIPT_VERIFY_CLEANSTACK = true -> has flags SCRIPT_VERIFY_P2SH = true) ->
  check_clean s = Some (inr tt) <-> clean_stack s.
Proof.
  intros Hf. unfold check_clean, clean_stack. destruct (has flags SCRIPT_VERIFY_CLEANSTACK); [|done]. rewrite Hf by done. cbn [negb].
  destruct (Nat.eqb_spec (length s) 1); cbn [negb]; [done|]. split; [discriminate|]. intros H. now specialize (H eq_refl).
Qed.

Lemma VerifyScript_pushes items scriptPubKey : Forall pushable items -> (length items <= 1000)%nat ->
  Z.of_nat (length (pushes items)) <= MAX_SCRIPT_SIZE -> has flags SCRIPT_VERIFY_P2SH && IsPayToScriptHash scriptPubKey = false ->
  (has flags SCRIPT_VERIFY_CLEANSTACK = true -> has flags SCRIPT_VERIFY_P2SH = true) ->
  VerifyScript CheckLowS flags checker (pushes items) scriptPubKey = Some (inr tt) <->
    exists s, EvalScript CheckLowS flags checker (rev items) scriptPubKey = Some (inr s) /\ accepts_top s /\ clean_stack s.
Proof.
  intros Hi Hn Hl Hp Hc. unfold VerifyScript. rewrite pushes_push_only, andb_false_r by (done || (unfold MAX_SCRIPT_SIZE in Hl; lia)).
  rewrite (eval_pushes items []), app_nil_r by (done || (cbn; lia)). cbn [mbind eval_bind]. rewrite Hp.
  rewrite bind_success. split.
  - intros (s & Es & E). exists s. split; [done|]. apply bind_success in E as ([] & Et & E). apply bind_success in E as (s' & [= <-] & Ec).
    split; [now apply top_true_iff|]. now apply check_clean_iff.
  - intros (s & Es & Ht & Hs). exists s. split; [done|]. apply bind_success. exists tt. split; [now apply top_true_iff|].
    apply bind_success. exists s. split; [done|]. now apply check_clean_iff.
Qed.

Lemma check_one_success vchSig vchPubKey code b : check_one CheckLowS flags checker vchSig vchPubKey code = Some (inr b) <->
  CheckSignatureEncoding CheckLowS flags vchSig = Some (inr tt) /\ CheckPubKeyEncoding flags vchPubKey = Some (inr tt) /\
  CheckSig checker vchSig vchPubKey code = b.
Proof.
  unfold check_one. rewrite bind_success. split.
  - intros ([] & E1 & E). apply bind_success in E as ([] & E2 & [= <-]). done.
  - intros (E1 & E2 & <-). exists tt. split; [done|]. apply bind_success. now exists tt.
Qed.

(** ** Pay to script hash *)

Definition p2sh (h : list Z) : CScript := OP_HASH160 :: push_data h ++ [OP_EQUAL].

Lemma eval_p2sh h redeem s : bytes h -> length h = 20%nat -> bytes redeem -> (length s < 999)%nat ->
  EvalScript CheckLowS flags checker (redeem :: s) (p2sh h) = Some (inr (from_bool (bool_decide (hash160 redeem = h)) :: s)).
Proof.
  intros Hb Hh Hr Hl. rewrite EvalScript_run.
  2:{ unfold p2sh. rewrite (push_data20 h Hh). cbn [length app]. rewrite length_app, Hh. done. }
  set (code := p2sh h). unfold code at 1. unfold p2sh.
  instruction (HASH HASH_HASH160) (hash160 redeem :: s) 1; [|cbn [exec flat main]; rewrite eval_hash_digest by done; reflexivity].
  rewrite run_push; [|split; [now apply element_short; [done|lia]|lia]|cbn [length]; lia|done].
  instruction (STACK (EQUAL false)) (from_bool (bool_decide (hash160 redeem = h)) :: s) 2; reflexivity.
Qed.

Lemma pushes_app l l' : pushes (l ++ l') = pushes l ++ pushes l'.
Proof. induction l as [|b l IH]; [done|]. cbn [app]. now rewrite !pushes_cons, IH, app_assoc. Qed.

Lemma VerifyScript_p2sh items redeem h : bytes h -> length h = 20%nat -> Forall pushable items -> pushable redeem -> (length items < 999)%nat ->
  Z.of_nat (length (pushes (items ++ [redeem]))) <= MAX_SCRIPT_SIZE -> has flags SCRIPT_VERIFY_P2SH = true ->
  VerifyScript CheckLowS flags checker (pushes (items ++ [redeem])) (p2sh h) = Some (inr tt) <->
    hash160 redeem = h /\ exists s, EvalScript CheckLowS flags checker (rev items) redeem = Some (inr s) /\ accepts_top s /\ clean_stack s.
Proof.
  intros Hb Hh Hi Hr Hn Hl Hf. assert (Hall : Forall pushable (items ++ [redeem])) by (apply Forall_app; now split; [|apply Forall_cons_2]).
  assert (Hp : IsPushOnly (pushes (items ++ [redeem])) = true) by (apply pushes_push_only; [done|unfold MAX_SCRIPT_SIZE in Hl; lia]).
  unfold VerifyScript. rewrite Hp, andb_false_r. rewrite (eval_pushes _ []), app_nil_r by (done || (rewrite length_app; cbn [length]; lia)).
  rewrite rev_app_distr. cbn [rev app mbind eval_bind]. rewrite eval_p2sh by (done || (rewrite length_rev; lia) || apply Hr).
  assert (E : IsPayToScriptHash (p2sh h) = true).
  { unfold IsPayToScriptHash, p2sh. rewrite (push_data20 h Hh). cbn [length app]. rewrite length_app, Hh. cbn [length Nat.add Nat.eqb andb nth].
    rewrite app_nth2, Hh by lia. reflexivity. }
  rewrite Hf, E. cbn [mbind eval_bind andb negb top_true]. case_bool_decide as Eh; [|split; [discriminate|now intros [? _]]]. cbn [from_bool vchTrue CastToBool].
  cbn -[EvalScript has top_true]. split.
  - intros E'. split; [done|]. apply bind_success in E' as (s & E' & Ec). apply bind_success in E' as (s1 & Es & E'). apply bind_success in E' as ([] & Et & [= <-]).
    exists s1. split; [done|]. split; [now apply top_true_iff|]. now apply check_clean_iff; [|unfold check_clean; rewrite Hf].
  - intros (_ & s & Es & Et & Hs). apply bind_success. exists s. split.
    + apply bind_success. exists s. split; [done|]. apply bind_success. exists tt. split; [now apply top_true_iff|done].
    + apply check_clean_iff in Hs; [|done]. unfold check_clean in Hs. now rewrite Hf in Hs.
Qed.

(** ** Multisignatures *)

(** [m] of the keys. *)
Definition multisig (m : nat) (keys : list (list Z)) : CScript :=
  (OP_1 - 1 + Z.of_nat m) :: pushes keys ++ [OP_1 - 1 + Z.of_nat (length keys); OP_CHECKMULTISIG].

(** The script without the signatures. *)
Definition script_code (sigs : list (list Z)) (script : CScript) : CScript :=
  fold_left (fun code vchSig => FindAndDelete code (push_data vchSig)) (rev sigs) script.

Lemma small_number n minimal : (1 <= n <= 16)%nat ->
  CScriptNum_serialize (Z.of_nat n) = [Z.of_nat n] /\ CScriptNum [Z.of_nat n] minimal 4 = inr (Z.of_nat n) /\ getint (Z.of_nat n) = Z.of_nat n.
Proof.
  intros Hn. assert (H : all_below 17 (fun n => (n =? 0)%nat || (bool_decide (CScriptNum_serialize (Z.of_nat n) = [Z.of_nat n]) &&
    (match CScriptNum [Z.of_nat n] minimal 4 with inr z => z =? Z.of_nat n | _ => false end) && (getint (Z.of_nat n) =? Z.of_nat n))) = true)
    by (destruct minimal; vm_compute; reflexivity).
  pose proof (all_below_spec _ _ H n ltac:(lia)) as Hc. cbv beta in Hc. destruct (Nat.eqb_spec n 0); [lia|]. cbn [orb] in Hc.
  apply andb_prop in Hc as [[H1 H2]%andb_prop H3]. apply bool_decide_eq_true in H1. split; [done|].
  destruct (CScriptNum _ _ _) as [|z]; [done|]. split; [f_equal|]; lia.
Qed.

Lemma number_small n : (1 <= n <= 16)%nat -> number flags (CScriptNum_serialize (Z.of_nat n)) 4 = mret (Z.of_nat n).
Proof. intros Hn. destruct (small_number n (fRequireMinimal flags) Hn) as (-> & E & _). unfold number. now rewrite E. Qed.

Lemma decode_small n : (1 <= n <= 16)%nat -> decode (OP_1 - 1 + Z.of_nat n) = Some (NUMBER (Z.of_nat n)).
Proof.
  intros Hn. unfold decode. replace ((OP_1 <=? _) && _) with true by (unfold OP_1, OP_16; lia). do 2 f_equal. lia.
Qed.

Lemma run_small n rest s c code : (1 <= n <= 16)%nat -> (length s < 1000)%nat ->
  run ((OP_1 - 1 + Z.of_nat n) :: rest) (flat s c code) = run rest (flat (CScriptNum_serialize (Z.of_nat n) :: s) c code).
Proof.
  intros Hn Hs. apply (run_ok _ (NUMBER (Z.of_nat n))); [now apply decode_small|unfold OP_1, OP_PUSHDATA4; lia|unfold OP_1, OP_16; lia| |cbn [length]; lia].
  rewrite (proj2 (Z.ltb_ge OP_16 _)) by (unfold OP_1, OP_16; lia). reflexivity.
Qed.

Lemma exec_multisig_stack sigs keys code c : (1 <= length sigs <= length keys)%nat -> (length keys <= 16)%nat ->
  0 <= c -> c + 16 <= MAX_OPS_PER_SCRIPT ->
  exec_checkmultisig CheckLowS flags checker false code c
    (CScriptNum_serialize (Z.of_nat (length keys)) :: rev keys ++ CScriptNum_serialize (Z.of_nat (length sigs)) :: rev sigs ++ [[]]) =
  (b ← multisig_loop CheckLowS flags checker (script_code sigs code) (rev sigs) (rev keys); mret (c + Z.of_nat (length keys), [from_bool b])).
Proof.
  intros Hs Hk Hc0 Hc. unfold exec_checkmultisig. rewrite number_small by lia. cbn [mbind eval_bind mret eval_ret].
  destruct (small_number (length keys) true) as (_ & _ & ->); [lia|]. cbv zeta. unfold MAX_PUBKEYS_PER_MULTISIG, MAX_OPS_PER_SCRIPT in *.
  replace (_ || _) with false by lia. rewrite (proj2 (Z.ltb_ge 201 _)), Nat2Z.id by lia.
  rewrite drop_app_length', take_app_length' by now rewrite length_rev. rewrite number_small by lia. cbn [mbind eval_bind mret eval_ret].
  destruct (small_number (length sigs) true) as (_ & _ & ->); [lia|]. replace (_ || _) with false by lia. rewrite Nat2Z.id.
  rewrite drop_app_length', take_app_length' by now rewrite length_rev. fold (script_code sigs code).
  destruct (multisig_loop _ _ _ _ _ _) as [[e|b]|]; [done| |done]. cbn [length Nat.eqb negb mbind eval_bind]. now rewrite andb_false_r.
Qed.

Lemma eval_multisig sigs keys : Forall pushable keys -> (1 <= length sigs <= length keys)%nat -> (length keys <= 16)%nat ->
  Z.of_nat (length (multisig (length sigs) keys)) <= MAX_SCRIPT_SIZE ->
  EvalScript CheckLowS flags checker (rev sigs ++ [[]]) (multisig (length sigs) keys) =
  (b ← multisig_loop CheckLowS flags checker (script_code sigs (multisig (length sigs) keys)) (rev sigs) (rev keys); mret [from_bool b]).
Proof.
  intros Hk Hs Hn Hl. rewrite EvalScript_run by done. set (code := multisig (length sigs) keys) in *. unfold code at 1. unfold multisig.
  assert (Hlen : Z.of_nat (length (pushes keys ++ [OP_1 - 1 + Z.of_nat (length keys); OP_CHECKMULTISIG])) < 2 ^ 31).
  { unfold code, multisig, MAX_SCRIPT_SIZE in Hl. cbn [length] in Hl. lia. }
  rewrite run_small by (rewrite ?length_app, ?length_rev; cbn [length]; lia).
  rewrite run_pushes by (done || (cbn [length]; rewrite ?length_app, ?length_rev; cbn [length]; lia)).
  rewrite run_small by (repeat (rewrite ?length_app, ?length_rev; cbn [length]); lia).
  erewrite (run_instruction _ (CHECKMULTISIG false)) by reflexivity. change (if OP_16 <? OP_CHECKMULTISIG then 0 + 1 else 0) with 1.
  cbn [exec flat main pbegincodehash nOpCount]. rewrite exec_multisig_stack by (lia || done).
  destruct (multisig_loop _ _ _ _ _ _) as [[e|b]|]; reflexivity.
Qed.

(** The loop takes each signature to the first key left that it fits: it succeeds exactly when the signatures
    fit some of the keys in their order. *)
Definition signed_by (code : CScript) (sigs keys : list (list Z)) : Prop :=
  exists ks, ks `sublist_of` keys /\ Forall2 (fun vchSig key => CheckSig checker vchSig key code = true) sigs ks.

Definition encodings_pass (sigs keys : list (list Z)) : Prop :=
  Forall (fun vchSig => CheckSignatureEncoding CheckLowS flags vchSig = Some (inr tt)) sigs /\
  Forall (fun key => CheckPubKeyEncoding flags key = Some (inr tt)) keys.

Lemma signed_by_first code sg sigs key keys : CheckSig checker sg key code = true ->
  signed_by code (sg :: sigs) (key :: keys) <-> signed_by code sigs keys.
Proof.
  intros Hsig. split.
  - intros (ks & Hsub & Hf). destruct ks as [|k ks]; [inversion Hf|]. apply Forall2_cons_1 in Hf as [_ Hf]. exists ks. split; [|done].
    inversion Hsub; subst; [done|]. etrans; [|eassumption]. now apply sublist_cons.
  - intros (ks & Hsub & Hf). exists (key :: ks). split; [now apply sublist_skip|now constructor].
Qed.

Lemma signed_by_skip code sg sigs key keys : CheckSig checker sg key code = false ->
  signed_by code (sg :: sigs) (key :: keys) <-> signed_by code (sg :: sigs) keys.
Proof.
  intros Hsig. split; intros (ks & Hsub & Hf); exists ks; (split; [|done]); [|now apply sublist_cons].
  inversion Hsub; subst; [|done]. apply Forall2_cons_1 in Hf as [Hf _]. cbv beta in Hf. congruence.
Qed.

Lemma signed_by_short code sigs keys : signed_by code sigs keys -> (length sigs <= length keys)%nat.
Proof. intros (ks & Hsub & Hf). apply sublist_length in Hsub. apply Forall2_length in Hf. lia. Qed.

Lemma multisig_loop_correct code sigs keys : encodings_pass sigs keys -> (length sigs <= length keys)%nat ->
  exists b, multisig_loop CheckLowS flags checker code sigs keys = Some (inr b) /\ (b = true <-> signed_by code sigs keys).
Proof.
  revert sigs. induction keys as [|key keys IH]; intros sigs [Hs Hk] Hl.
  { destruct sigs; [|cbn [length] in Hl; lia]. exists true. split; [done|]. split; [|done]. intros _. exists []. now split. }
  destruct sigs as [|sg sigs].
  { exists true. split; [done|]. split; [|done]. intros _. exists []. split; [apply sublist_nil_l|constructor]. }
  pose proof Hs as [Hs1 Hs2]%Forall_cons_1. apply Forall_cons_1 in Hk as [Hk1 Hk2]. cbn [multisig_loop].
  rewrite (proj2 (check_one_success sg key code _)) by done. cbn [mbind eval_bind length] in *.
  destruct (CheckSig checker sg key code) eqn:E.
  - rewrite (proj2 (Nat.ltb_ge _ _)) by lia. destruct (IH sigs ltac:(done) ltac:(lia)) as (b & -> & Hb). exists b. split; [done|].
    now rewrite signed_by_first.
  - destruct (Nat.ltb_spec (length keys) (length (sg :: sigs))) as [Hlt|Hge].
    + exists false. split; [done|]. split; [discriminate|]. rewrite signed_by_skip by done. intros H%signed_by_short. lia.
    + destruct (IH (sg :: sigs) ltac:(done) ltac:(done)) as (b & -> & Hb). exists b. split; [done|]. now rewrite signed_by_skip.
Qed.

Lemma sublist_rev (l k : list (list Z)) : l `sublist_of` k -> rev l `sublist_of` rev k.
Proof. induction 1 as [|x l k H IH|x l k H IH]; cbn [rev]; [done|now apply sublist_app|now apply sublist_inserts_r]. Qed.
Lemma Forall2_rev (R : list Z -> list Z -> Prop) l k : Forall2 R l k -> Forall2 R (rev l) (rev k).
Proof. induction 1 as [|x y l k Hxy H IH]; cbn [rev]; [constructor|]. apply Forall2_app; [done|]. now constructor. Qed.

Lemma signed_by_rev code sigs keys : signed_by code (rev sigs) (rev keys) <-> signed_by code sigs keys.
Proof.
  assert (H : forall sigs keys, signed_by code sigs keys -> signed_by code (rev sigs) (rev keys)).
  { intros ss kk (ks & Hsub & Hf). exists (rev ks). split; [now apply sublist_rev|now apply Forall2_rev]. }
  split; [|apply H]. intros Hr%H. now rewrite !rev_involutive in Hr.
Qed.

End Payments.

(** ** Properties *)

(** C38. Pay to public key hash: the input that pushes a signature and a key is accepted exactly when the key has the
    hash of the output, the encodings pass, and the checker accepts the signature for the output's script. *)
Theorem pay_to_public_key_hash CheckLowS flags checker h vchSig vchPubKey :
  bytes h -> length h = 20%nat -> pushable vchSig -> pushable vchPubKey -> length vchSig <> 20%nat ->
  (has flags SCRIPT_VERIFY_CLEANSTACK = true -> has flags SCRIPT_VERIFY_P2SH = true) ->
  VerifyScript CheckLowS flags checker (push_data vchSig ++ push_data vchPubKey) (p2pkh h) = Some (inr tt) <->
  hash160 vchPubKey = h /\ CheckSignatureEncoding CheckLowS flags vchSig = Some (inr tt) /\
  CheckPubKeyEncoding flags vchPubKey = Some (inr tt) /\ CheckSig checker vchSig vchPubKey (p2pkh h) = true.
Proof.
  intros Hb Hh Hs Hk H20 Hf. replace (push_data vchSig ++ push_data vchPubKey) with (pushes [vchSig; vchPubKey])
    by (unfold pushes; cbn; now rewrite app_nil_r).
  rewrite VerifyScript_pushes; [|repeat (assumption || apply Forall_nil_2 || apply Forall_cons_2)|cbn; lia| | |done].
  - cbn [rev app]. rewrite eval_p2pkh by (done || apply Hk). unfold clean_stack. split.
    + intros (s & Es & (x & s' & -> & Ex) & _). case_bool_decide; [|discriminate]. split; [done|].
      apply bind_success in Es as (b & E & [= <- <-]). destruct b; [|discriminate]. now apply check_one_success in E.
    + intros (-> & H1 & H2 & H3). rewrite bool_decide_eq_true_2 by done. exists [[1]].
      rewrite (proj2 (check_one_success CheckLowS flags checker vchSig vchPubKey _ true)) by done. split; [done|].
      split; [|done]. now exists [1], [].
  - unfold pushes. cbn [fmap list_fmap mjoin list_join]. rewrite !length_app. cbn [length].
    pose proof (push_data_length vchSig). pose proof (push_data_length vchPubKey). destruct Hs as [[_ Hs] _], Hk as [[_ Hk] _].
    unfold MAX_SCRIPT_ELEMENT_SIZE, MAX_SCRIPT_SIZE in *. lia.
  - unfold IsPayToScriptHash, p2pkh. rewrite (push_data20 h Hh). cbn [length app]. rewrite length_app, Hh. cbn. apply andb_false_r.
Qed.

(** C10. Pay to script hash, for a script that asks for some of a list of keys: when all encodings pass, the input that
    pushes an empty item, the signatures and the script is accepted exactly when the script has the hash of the
    output and the signatures, in their order, fit keys of the list in its order. *)
Theorem pay_to_script_hash_multisig CheckLowS flags checker h sigs keys : let redeem := multisig (length sigs) keys in
  bytes h -> length h = 20%nat -> Forall pushable sigs -> Forall pushable keys -> pushable redeem ->
  (1 <= length sigs <= length keys)%nat -> (length keys <= 16)%nat -> has flags SCRIPT_VERIFY_P2SH = true ->
  Z.of_nat (length (pushes ([] :: sigs ++ [redeem]))) <= MAX_SCRIPT_SIZE ->
  encodings_pass CheckLowS flags sigs keys ->
  VerifyScript CheckLowS flags checker (pushes ([] :: sigs ++ [redeem])) (p2sh h) = Some (inr tt) <->
  hash160 redeem = h /\ signed_by checker (script_code sigs redeem) sigs keys.
Proof.
  intros redeem Hb Hh Hs Hk Hr Hlen Hn Hf Hl [He1 He2].
  assert (Hempty : pushable []) by (split; [apply element_short; [constructor|cbn; lia]|done]).
  change ([] :: sigs ++ [redeem]) with (([] :: sigs) ++ [redeem]) in *.
  rewrite VerifyScript_p2sh; [|done|done|now apply Forall_cons_2|done|cbn [length]; lia|done|done]. cbn [rev].
  unfold redeem at 2. rewrite eval_multisig; [|done|done|done|]; fold redeem.
  2:{ destruct Hr as [[_ Hr] _]. unfold MAX_SCRIPT_SIZE, MAX_SCRIPT_ELEMENT_SIZE in *. lia. }
  destruct (multisig_loop_correct CheckLowS flags checker (script_code sigs redeem) (rev sigs) (rev keys)) as (b & -> & Hloop).
  { split; now apply Forall_rev. }
  { rewrite !length_rev. lia. }
  rewrite signed_by_rev in Hloop. rewrite <- Hloop. cbn [mbind eval_bind]. unfold clean_stack, accepts_top. split.
  - intros (-> & s & [= <-] & (x & s' & [= <- <-] & Ex) & _). split; [done|]. now destruct b.
  - intros [-> ->]. split; [done|]. exists [[1]]. split; [done|]. split; [|done]. now exists [1], [].
Qed.

(** ** Concrete payments *)

Lemma pushable_short b : bool_decide (forallb (fun x => (0 <=? x) && (x <? 256)) b = true /\ (length b <= 64)%nat /\ length b <> 1%nat) = true -> pushable b.
Proof.
  rewrite bool_decide_eq_true. intros (Hb & Hl & H1). split; [|done]. apply element_short; [|done]. apply bytes_short.
  rewrite forallb_forall in Hb. apply List.Forall_forall. exact Hb.
Qed.

Lemma pay_to_public_key_hash_witness :
  VerifyScript (fun _ => true) SCRIPT_VERIFY_P2SH demo_checker (push_data [2; 7; 1] ++ push_data [2; 7]) (p2pkh (hash160 [2; 7])) = Some (inr tt) /\
  VerifyScript (fun _ => true) SCRIPT_VERIFY_P2SH demo_checker (push_data [2; 8; 1] ++ push_data [2; 8]) (p2pkh (hash160 [2; 7])) =
    Some (inl SCRIPT_ERR_EQUALVERIFY).
Proof.
  split; [|vm_compute; reflexivity]. destruct (hash160_length [2; 7]) as [Hl Hb].
  apply (pay_to_public_key_hash (fun _ => true) SCRIPT_VERIFY_P2SH demo_checker (hash160 [2; 7]) [2; 7; 1] [2; 7]);
    [done|done|now apply pushable_short|now apply pushable_short|done|done|]. repeat split; reflexivity.
Defined.

(** Two of three keys: the first and the last one sign. *)
Definition demo_keys : list (list Z) := [[1; 1]; [2; 2]; [3; 3]].
Definition demo_sigs : list (list Z) := [[1; 1; 1]; [3; 3; 1]].
Definition demo_redeem : CScript := multisig (length demo_sigs) demo_keys.

Lemma demo_pushable : Forall pushable demo_keys /\ Forall pushable demo_sigs /\ pushable demo_redeem.
Proof.
  split; [|split]; [| |now apply pushable_short]; repeat (apply Forall_nil_2 || (apply Forall_cons_2; [now apply pushable_short|])).
Qed.

Lemma demo_signed : signed_by demo_checker (script_code demo_sigs demo_redeem) demo_sigs demo_keys.
Proof. exists [[1; 1]; [3; 3]]. split; [apply sublist_skip, sublist_cons, sublist_skip, sublist_nil|]. now repeat apply Forall2_cons_2. Qed.

Lemma pay_to_script_hash_multisig_witness :
  let verify sigs := VerifyScript (fun _ => true) SCRIPT_VERIFY_P2SH demo_checker (pushes ([] :: sigs ++ [demo_redeem])) (p2sh (hash160 demo_redeem)) in
  verify demo_sigs = Some (inr tt) /\ verify (rev demo_sigs) = Some (inl SCRIPT_ERR_EVAL_FALSE).
Proof.
  cbv zeta. split; [|vm_compute; reflexivity]. destruct (hash160_length demo_redeem) as [Hl Hb]. destruct demo_pushable as (Hk & Hs & Hr).
  pose proof (pay_to_script_hash_multisig (fun _ => true) SCRIPT_VERIFY_P2SH demo_checker (hash160 demo_redeem) demo_sigs demo_keys) as H.
  cbv zeta in H. change (multisig (length demo_sigs) demo_keys) with demo_redeem in H. 
  refine (proj2 (H Hb Hl Hs Hk Hr _ _ _ _ _) (conj eq_refl demo_signed)); clear; [cbn; lia|cbn; lia|reflexivity|now vm_compute|split; repeat constructor].
Defined.
