(* ===== verification/SignatureHash.v ===== *)
(** * Signature hashes and the checker of a transaction ([script/interpreter.cpp], [pubkey.h])

    What a signature signs: the serialization of the transaction with the changes of the hash type made on the
    fly, compared with [SignatureHashOld] of the tests, which changes a copy of the transaction.  Then the
    methods of [TransactionSignatureChecker]; [CPubKey::Verify], which rests on libsecp256k1, is a parameter. *)

From S2P Require Import Prelude Words Blob SHA256 Serialize Transaction Script TxCheck Hash160 Interpreter.

Definition OP_CODESEPARATOR : Z := 0xab.

(** ** Scripts without code separators *)

(** The position after [GetOp], also where it returns false. *)
Definition after_GetOp (pc : CScript) : CScript :=
  match GetOp2 pc, pc with
  | Some (_, _, pc'), _ => pc'
  | None, [] => []
  | None, opcode :: pc => match operand_size opcode pc with Some (_, pc) => pc | None => pc end
  end.

(** The loop that counts. *)
Fixpoint count_separators (fuel : nat) (it : CScript) (nCodeSeparators : Z) : Z :=
  match fuel, GetOp2 it with
  | S fuel, Some (opcode, _, it) => count_separators fuel it (if opcode =? OP_CODESEPARATOR then nCodeSeparators + 1 else nCodeSeparators)
  | _, _ => nCodeSeparators
  end.

(** The loop that writes; it ends with what is written after it. *)
Fixpoint write_segments (fuel : nat) (it itBegin : CScript) : list Z :=
  match fuel, GetOp2 it with
  | S fuel, Some (opcode, _, it') =>
      if opcode =? OP_CODESEPARATOR then take (length itBegin - length it' - 1) itBegin ++ write_segments fuel it' it'
      else write_segments fuel it' itBegin
  | _, _ => match itBegin with [] => [] | _ => take (length itBegin - length (after_GetOp it)) itBegin end
  end.

Definition SerializeScriptCode (scriptCode : CScript) : list Z :=
  WriteCompactSize (Z.of_nat (length scriptCode) - count_separators (length scriptCode) scriptCode 0) ++
  write_segments (length scriptCode) scriptCode scriptCode.

(** ** CTransactionSignatureSerializer *)

Section Serializer.
Context (txTo : CTransaction) (scriptCode : CScript) (nIn : nat) (nHashType : Z).

Definition fAnyoneCanPay : bool := negb (nHashType .& SIGHASH_ANYONECANPAY =? 0).
Definition fHashSingle : bool := nHashType .& 0x1f =? SIGHASH_SINGLE.
Definition fHashNone : bool := nHashType .& 0x1f =? SIGHASH_NONE.

(** The inputs and outputs are in range where these are called. *)
Definition CTxIn_new : CTxIn := mk_txin (mk_outpoint null_hash 0xFFFFFFFF) [] SEQUENCE_FINAL.
Definition SerializeInput (nInput : nat) : list Z :=
  let nInput := if fAnyoneCanPay then nIn else nInput in
  let i := nth nInput (vin txTo) CTxIn_new in
  Serialize_COutPoint (prevout i) ++
  (if negb (nInput =? nIn)%nat then Serialize_bytes [] else SerializeScriptCode scriptCode) ++
  (if negb (nInput =? nIn)%nat && (fHashSingle || fHashNone) then Serialize_int32 0 else ser_writedata32 (nSequence i)).

Definition SerializeOutput (nOutput : nat) : list Z :=
  if fHashSingle && negb (nOutput =? nIn)%nat then Serialize_CTxOut CTxOut_null
  else Serialize_CTxOut (nth nOutput (vout txTo) CTxOut_null).

(** The counts are of the type unsigned int. *)
Definition Serialize_signed : list Z :=
  let nInputs := if fAnyoneCanPay then 1 else u32 (Z.of_nat (length (vin txTo))) in
  let nOutputs := if fHashNone then 0 else if fHashSingle then u32 (Z.of_nat nIn + 1) else u32 (Z.of_nat (length (vout txTo))) in
  Serialize_int32 (tx_version txTo) ++
  WriteCompactSize nInputs ++ mjoin (SerializeInput <$> seq 0 (Z.to_nat nInputs)) ++
  WriteCompactSize nOutputs ++ mjoin (SerializeOutput <$> seq 0 (Z.to_nat nOutputs)) ++
  ser_writedata32 (nLockTime txTo).
End Serializer.

Definition uint256_one : hash := 1 :: replicate 31 0.

Definition SignatureHash (scriptCode : CScript) (txTo : CTransaction) (nIn : nat) (nHashType : Z) : hash :=
  if (length (vin txTo) <=? nIn)%nat then uint256_one
  else if fHashSingle nHashType && (length (vout txTo) <=? nIn)%nat then uint256_one
  else SerializeHash (Serialize_signed txTo scriptCode nIn nHashType ++ Serialize_int32 nHashType).

(** ** The reference of the tests *)

Definition with_inputs (ins : list CTxIn) (tx : CTransaction) : CTransaction :=
  mk_tx (tx_version tx) ins (vout tx) (nLockTime tx) (tx_hash tx).
Definition with_outputs (outs : list CTxOut) (tx : CTransaction) : CTransaction :=
  mk_tx (tx_version tx) (vin tx) outs (nLockTime tx) (tx_hash tx).

(** The sequence numbers of the other inputs. *)
Definition blank_sequences (nIn : nat) (ins : list CTxIn) : list CTxIn :=
  imap (fun i txin => if (i =? nIn)%nat then txin else mk_txin (prevout txin) (scriptSig txin) 0) ins.

(** Growing the list of outputs does not happen. *)
Definition SignatureHashOld (scriptCode : CScript) (txTo : CTransaction) (nIn : nat) (nHashType : Z) : hash :=
  if (length (vin txTo) <=? nIn)%nat then uint256_one
  else
    let scriptCode := FindAndDelete scriptCode [OP_CODESEPARATOR] in
    let ins := (fun i => mk_txin (prevout i) [] (nSequence i)) <$> vin txTo in
    let ins := alter (fun i => mk_txin (prevout i) scriptCode (nSequence i)) nIn ins in
    let txTmp := with_inputs ins txTo in
    let finish txTmp :=
      let txTmp := if negb (nHashType .& SIGHASH_ANYONECANPAY =? 0)
        then with_inputs (take 1 (<[0%nat := nth nIn (vin txTmp) CTxIn_new]> (vin txTmp))) txTmp else txTmp in
      SerializeHash (Serialize_CTransaction txTmp ++ Serialize_int32 nHashType) in
    if nHashType .& 0x1f =? SIGHASH_NONE then finish (with_outputs [] (with_inputs (blank_sequences nIn ins) txTmp))
    else if nHashType .& 0x1f =? SIGHASH_SINGLE then
      if (length (vout txTo) <=? nIn)%nat then uint256_one
      else
        let outs := imap (fun i o => if (i <? nIn)%nat then CTxOut_null else o) (take (nIn + 1) (vout txTo)) in
        finish (with_outputs outs (with_inputs (blank_sequences nIn ins) txTmp))
    else finish txTmp.

(** ** TransactionSignatureChecker *)

(** [CPubKey]: the bytes that count of its array; [0xFF] marks an invalid key. *)
Definition GetLen (chHeader : Z) : Z :=
  if (chHeader =? 2) || (chHeader =? 3) then 33
  else if (chHeader =? 4) || (chHeader =? 6) || (chHeader =? 7) then 65
  else 0.
Definition CPubKey_Set (b : list Z) : list Z :=
  let len := match b with [] => 0 | h :: _ => GetLen h end in
  if negb (len =? 0) && (len =? Z.of_nat (length b)) then b else [0xFF].
Definition CPubKey_size (vch : list Z) : Z := GetLen (hd 0 vch).
Definition CPubKey_IsValid (vch : list Z) : bool := 0 <? CPubKey_size vch.

Section Checker.
(** [CPubKey::Verify]: key, hash and signature. *)
Context (Verify : list Z -> hash -> list Z -> bool).
Context (txTo : CTransaction) (nIn : nat).

Definition VerifySignature (vchSig pubkey : list Z) (sighash : hash) : bool := Verify pubkey sighash vchSig.

Definition Transaction_CheckSig (vchSigIn vchPubKey : list Z) (scriptCode : CScript) : bool :=
  let pubkey := CPubKey_Set vchPubKey in
  if negb (CPubKey_IsValid pubkey) then false
  else
    match vchSigIn with
    | [] => false
    | _ =>
        let nHashType := List.last vchSigIn 0 in
        let vchSig := removelast vchSigIn in
        VerifySignature vchSig pubkey (SignatureHash scriptCode txTo nIn nHashType)
    end.

(** Input [nIn] exists. *)
Definition Transaction_CheckLockTime (n : Z) : bool :=
  if negb (((nLockTime txTo <? LOCKTIME_THRESHOLD) && (n <? LOCKTIME_THRESHOLD)) ||
           ((LOCKTIME_THRESHOLD <=? nLockTime txTo) && (LOCKTIME_THRESHOLD <=? n))) then false
  else if nLockTime txTo <? n then false
  else if SEQUENCE_FINAL =? nSequence (nth nIn (vin txTo) CTxIn_new) then false
  else true.

Definition Transaction_CheckSequence (n : Z) : bool :=
  let txToSequence := nSequence (nth nIn (vin txTo) CTxIn_new) in
  if u32 (tx_version txTo) <? 2 then false
  else if negb (txToSequence .& SEQUENCE_LOCKTIME_DISABLE_FLAG =? 0) then false
  else
    let nLockTimeMask := SEQUENCE_LOCKTIME_TYPE_FLAG .| SEQUENCE_LOCKTIME_MASK in
    let txToSequenceMasked := txToSequence .& nLockTimeMask in
    let nSequenceMasked := n .& nLockTimeMask in
    if negb (((txToSequenceMasked <? SEQUENCE_LOCKTIME_TYPE_FLAG) && (nSequenceMasked <? SEQUENCE_LOCKTIME_TYPE_FLAG)) ||
             ((SEQUENCE_LOCKTIME_TYPE_FLAG <=? txToSequenceMasked) && (SEQUENCE_LOCKTIME_TYPE_FLAG <=? nSequenceMasked))) then false
    else if txToSequenceMasked <? nSequenceMasked then false
    else true.

Definition TransactionSignatureChecker : BaseSignatureChecker :=
  mk_checker Transaction_CheckSig Transaction_CheckLockTime Transaction_CheckSequence.
End Checker.

(** ** Removing the separators *)

(** Every instruction of the script can be read. *)
Inductive parses : CScript -> Prop :=
  | parses_nil : parses []
  | parses_cons pc opcode vch pc' : GetOp2 pc = Some (opcode, vch, pc') -> parses pc' -> parses pc.

(** The script without its separators. *)
Inductive stripped : CScript -> CScript -> Prop :=
  | stripped_nil : stripped [] []
  | stripped_separator rest out : stripped rest out -> stripped (OP_CODESEPARATOR :: rest) out
  | stripped_keep pre rest opcode vch out : GetOp2 (pre ++ rest) = Some (opcode, vch, rest) -> opcode <> OP_CODESEPARATOR ->
      hd 0 (pre ++ rest) = opcode -> stripped rest out -> stripped (pre ++ rest) (pre ++ out).

Lemma GetOp2_suffix pc opcode vch pc' : GetOp2 pc = Some (opcode, vch, pc') ->
  exists pre, pc = pre ++ pc' /\ hd 0 pc = opcode.
Proof.
  unfold GetOp2, operand_size. destruct pc as [|b pc]; [done|]. intros E. cbn [hd].
  assert (Hd : forall n l, exists pre, b :: l = pre ++ drop n (l : list Z)) by (intros n l; exists (b :: take n l); cbn; now rewrite take_drop).
  assert (Hd2 : forall n m l, exists pre, b :: l = pre ++ drop n (drop m (l : list Z))) by (intros n m l; rewrite drop_drop; apply Hd).
  destruct (b <=? OP_PUSHDATA4); [|injection E as <- _ <-; exists [b]; now split].
  destruct (b <? OP_PUSHDATA1); [|destruct (b =? OP_PUSHDATA1); [destruct pc as [|nSize pc]; [done|]|
    destruct (b =? OP_PUSHDATA2); [destruct (length pc <? 2)%nat; [done|]|destruct (length pc <? 4)%nat; [done|]]]];
    cbn [mbind option_bind] in E; destruct (_ <? _); try done; injection E as <- _ <-.
  - destruct (Hd (Z.to_nat b) pc) as [pre Hp]. now exists pre.
  - exists (b :: nSize :: take (Z.to_nat nSize) pc). cbn. now rewrite take_drop.
  - destruct (Hd2 (Z.to_nat (le_combine (take 2 pc))) 2%nat pc) as [pre Hp]. now exists pre.
  - destruct (Hd2 (Z.to_nat (le_combine (take 4 pc))) 4%nat pc) as [pre Hp]. now exists pre.
Qed.

Lemma GetOp2_separator rest : GetOp2 (OP_CODESEPARATOR :: rest) = Some (OP_CODESEPARATOR, [], rest).
Proof. reflexivity. Qed.

Lemma parses_stripped pc : parses pc -> exists out, stripped pc out.
Proof.
  induction 1 as [|pc opcode vch pc' E Hp [out IH]]; [exists []; constructor|].
  destruct (GetOp2_suffix _ _ _ _ E) as (pre & Epc & Ehd). destruct (Z.eq_dec opcode OP_CODESEPARATOR) as [->|Hne].
  - destruct pc as [|b rest]; [done|]. cbn [hd] in Ehd. subst b. rewrite GetOp2_separator in E. injection E as <- <-. exists out. now constructor.
  - exists (pre ++ out). subst pc. now apply (stripped_keep pre pc' opcode vch).
Qed.

Lemma stripped_length pc out : stripped pc out -> (length out <= length pc)%nat /\ (length out = length pc -> out = pc).
Proof.
  induction 1 as [|rest out H [IH1 IH2]|pre rest opcode vch out E Hne Hh H [IH1 IH2]]; [done| |]; rewrite ?length_app; cbn [length]; split; try lia.
  intros Hl. rewrite IH2 by lia. done.
Qed.

Lemma write_segments_stripped fuel it out seg n : stripped it out -> (length it <= fuel)%nat ->
  write_segments fuel it (seg ++ it) = seg ++ out /\
  count_separators fuel it n = n + Z.of_nat (length it) - Z.of_nat (length out).
Proof.
  intros H. revert fuel seg n. induction H as [|rest out H IH|pre rest opcode vch out E Hne Hh H IH]; intros fuel seg n Hf.
  - assert (En : GetOp2 [] = None) by reflexivity. destruct fuel; cbn [write_segments count_separators]; rewrite ?En, app_nil_r; (split; [|cbn; lia]);
      (destruct seg as [|b seg]; [done|]; apply take_ge; cbn; lia).
  - destruct fuel as [|fuel]; [cbn [length] in Hf; lia|]. cbn [write_segments count_separators]. rewrite GetOp2_separator, Z.eqb_refl.
    cbn [length] in *. destruct (IH fuel [] (n + 1) ltac:(lia)) as [E1 E2]. cbn [app] in E1. rewrite E1, E2. split; [|lia].
    f_equal. rewrite length_app. cbn [length]. replace (length seg + S (length rest) - length rest - 1)%nat with (length seg) by lia. apply take_app_length.
  - pose proof (GetOp2_shorter _ _ _ _ E) as Hs. destruct fuel as [|fuel]; [lia|]. cbn [write_segments count_separators]. rewrite E.
    rewrite (proj2 (Z.eqb_neq _ _) Hne). destruct (IH fuel (seg ++ pre) n ltac:(lia)) as [E1 E2]. rewrite app_assoc, E1, E2.
    rewrite !length_app. split; [now rewrite app_assoc|lia].
Qed.

(** What is left after the copies at a position. *)
Lemma skip_separators pc out f : stripped pc out -> (length pc <= f)%nat -> exists j pc1,
  skip_copies f [OP_CODESEPARATOR] pc = (j, pc1) /\ length pc = (j + length pc1)%nat /\
  ((pc1 = [] /\ out = []) \/ exists pre rest opcode vch out', pc1 = pre ++ rest /\ out = pre ++ out' /\
    GetOp2 pc1 = Some (opcode, vch, rest) /\ stripped rest out').
Proof.
  intros H. revert f. induction H as [|rest out H IH|pre rest opcode vch out E Hne Hh H IH]; intros f Hf.
  - exists 0%nat, []. split; [now destruct f|]. split; [done|]. now left.
  - destruct f as [|f]; [cbn [length] in Hf; lia|]. cbn [length] in Hf. destruct (IH f ltac:(lia)) as (j & pc1 & E1 & E2 & E3).
    exists (S j), pc1. cbn [skip_copies length Nat.leb take firstn drop skipn andb]. rewrite bool_decide_eq_true_2, drop_0, E1 by done.
    split; [done|]. split; [lia|exact E3].
  - exists 0%nat, (pre ++ rest). split; [|split; [done|right; now exists pre, rest, opcode, vch, out]].
    destruct f as [|f]; [done|]. cbn [skip_copies]. destruct (pre ++ rest) as [|b l]; [done|]. cbn [hd] in Hh. cbn [length take firstn].
    rewrite bool_decide_eq_false_2 by congruence. now rewrite andb_false_r.
Qed.

Lemma delete_separators fuel result seg pc out n : stripped pc out -> (length pc <= fuel)%nat ->
  delete_loop fuel [OP_CODESEPARATOR] result (seg ++ pc) pc n = ((n + (length pc - length out))%nat, result ++ seg ++ out).
Proof.
  revert result seg pc out n. induction fuel as [|fuel IH]; intros result seg pc out n H Hf;
    destruct (skip_separators pc out (length pc) H (Nat.le_refl _)) as (j & pc1 & E1 & E2 & Hcase); cbn [delete_loop];
    rewrite E1, length_app, Nat.add_sub, take_app_length; destruct Hcase as [[-> ->]|(pre & rest & opcode & vch & out' & -> & -> & E & Hs)].
  - cbn [length] in *. rewrite !app_nil_r. f_equal. lia.
  - pose proof (GetOp2_shorter _ _ _ _ E). lia.
  - cbn [length] in *. cbn [GetOp2]. rewrite !app_nil_r. f_equal. lia.
  - rewrite E. pose proof (GetOp2_shorter _ _ _ _ E) as Hsh. rewrite (IH _ pre rest out') by (done || lia). rewrite !length_app in *.
    pose proof (proj1 (stripped_length _ _ Hs)). f_equal; [lia|]. now rewrite <- !app_assoc.
Qed.

Lemma FindAndDelete_separators pc out : stripped pc out -> FindAndDelete pc [OP_CODESEPARATOR] = out.
Proof.
  intros H. unfold FindAndDelete. pose proof (delete_separators (length pc) [] [] pc out 0 H (Nat.le_refl _)) as E. cbn [app Nat.add] in E. rewrite E.
  destruct (Nat.ltb_spec 0 (length pc - length out)); [done|]. destruct (stripped_length _ _ H) as [H1 H2]. symmetry. apply H2. lia.
Qed.

Lemma SerializeScriptCode_old scriptCode : parses scriptCode ->
  SerializeScriptCode scriptCode = Serialize_bytes (FindAndDelete scriptCode [OP_CODESEPARATOR]).
Proof.
  intros [out H]%parses_stripped. rewrite (FindAndDelete_separators _ _ H). unfold SerializeScriptCode, Serialize_bytes.
  destruct (write_segments_stripped (length scriptCode) scriptCode out [] 0 H (Nat.le_refl _)) as [E1 E2]. cbn [app] in E1.
  rewrite E1, E2. do 2 f_equal. lia.
Qed.

(** ** The changes of the hash type *)

Section Equivalence.
Context (txTo : CTransaction) (scriptCode : CScript) (nIn : nat) (nHashType : Z).
Context (Hparses : parses scriptCode) (Hin : (nIn < length (vin txTo))%nat).
Context (Hvin : Z.of_nat (length (vin txTo)) < 2 ^ 32) (Hvout : Z.of_nat (length (vout txTo)) < 2 ^ 32).
Abbreviation code := (FindAndDelete scriptCode [OP_CODESEPARATOR]).
Abbreviation blank := (fHashSingle nHashType || fHashNone nHashType).

(** Input and output number [i] as they are signed. *)
Definition signed_input (i : nat) (txin : CTxIn) : CTxIn :=
  if (i =? nIn)%nat then mk_txin (prevout txin) code (nSequence txin)
  else mk_txin (prevout txin) [] (if blank then 0 else nSequence txin).
Definition signed_output (i : nat) (o : CTxOut) : CTxOut := if (i <? nIn)%nat then CTxOut_null else o.

Lemma SerializeInput_signed i : fAnyoneCanPay nHashType = false -> (i < length (vin txTo))%nat ->
  SerializeInput txTo scriptCode nIn nHashType i = Serialize (signed_input i (nth i (vin txTo) CTxIn_new)).
Proof.
  intros Ha Hi. unfold SerializeInput, signed_input. rewrite Ha. cbn [Serialize CTxIn_serializable]. unfold Serialize_CTxIn.
  destruct (Nat.eqb_spec i nIn) as [->|Hne]; cbn [negb andb prevout scriptSig nSequence]; [now rewrite SerializeScriptCode_old|].
  destruct blank; reflexivity.
Qed.

Lemma SerializeInput_anyone i : fAnyoneCanPay nHashType = true ->
  SerializeInput txTo scriptCode nIn nHashType i = Serialize (signed_input nIn (nth nIn (vin txTo) CTxIn_new)).
Proof.
  intros Ha. unfold SerializeInput, signed_input. rewrite Ha, Nat.eqb_refl. cbn [negb andb Serialize CTxIn_serializable].
  unfold Serialize_CTxIn. cbn [prevout scriptSig nSequence]. now rewrite SerializeScriptCode_old.
Qed.

(** A vector written element by element. *)
Lemma written_elements {A} `{Serializable A} (d : A) (f : nat -> list Z) (g : nat -> A -> A) (l : list A) n :
  (n <= length l)%nat -> (forall i, (i < n)%nat -> f i = Serialize (g i (nth i l d))) ->
  mjoin (f <$> seq 0 n) = mjoin (Serialize <$> imap g (take n l)).
Proof.
  intros Hn Hf. f_equal. apply list_eq. intros i. rewrite !list_lookup_fmap, list_lookup_imap. destruct (decide (i < n)%nat) as [Hi|Hi].
  - rewrite lookup_seq_lt, lookup_take_lt by lia. destruct (lookup_lt_is_Some_2 l i ltac:(lia)) as [x Hx]. rewrite Hx. cbn. f_equal.
    rewrite Hf by done. now rewrite (nth_lookup_Some _ _ _ _ Hx).
  - rewrite lookup_seq_ge, lookup_take_ge by lia. reflexivity.
Qed.

(** The inputs of the copy. *)
Lemma old_inputs : let ins := alter (fun i => mk_txin (prevout i) code (nSequence i)) nIn ((fun i => mk_txin (prevout i) [] (nSequence i)) <$> vin txTo) in
  (if blank then blank_sequences nIn ins else ins) = imap signed_input (vin txTo).
Proof.
  cbv zeta. apply list_eq. intros i. unfold signed_input, blank_sequences. destruct blank; rewrite ?list_lookup_imap;
    (destruct (Nat.eqb_spec i nIn) as [->|Hne]; [rewrite list_lookup_alter_eq|rewrite list_lookup_alter_ne by congruence]);
    rewrite list_lookup_fmap; destruct (vin txTo !! _); reflexivity.
Qed.

Lemma Serialize_signed_inputs : let ins := imap signed_input (vin txTo) in
  let nInputs := if fAnyoneCanPay nHashType then 1 else u32 (Z.of_nat (length (vin txTo))) in
  WriteCompactSize nInputs ++ mjoin (SerializeInput txTo scriptCode nIn nHashType <$> seq 0 (Z.to_nat nInputs)) =
  Serialize_vector (if fAnyoneCanPay nHashType then take 1 (<[0%nat := nth nIn ins CTxIn_new]> ins) else ins).
Proof.
  cbv zeta. unfold Serialize_vector. destruct (fAnyoneCanPay nHashType) eqn:Ha.
  - destruct (lookup_lt_is_Some_2 (vin txTo) nIn Hin) as [x Hx].
    assert (Enth : nth nIn (imap signed_input (vin txTo)) CTxIn_new = signed_input nIn x).
    { apply nth_lookup_Some. now rewrite list_lookup_imap, Hx. }
    rewrite Enth. destruct (vin txTo) as [|y l] eqn:El; [cbn [length] in Hin; lia|]. cbn [imap insert list_insert take firstn length]. f_equal.
    rewrite <- El in *. change (Z.to_nat 1) with 1%nat. cbn [seq fmap list_fmap]. rewrite SerializeInput_anyone by done.
    now rewrite (nth_lookup_Some _ _ _ _ Hx).
  - rewrite u32_small by (unfold in_word; lia). rewrite length_imap, Nat2Z.id. f_equal.
    rewrite (written_elements CTxIn_new _ signed_input (vin txTo)); [now rewrite take_ge by lia|done|].
    intros i Hi. now apply SerializeInput_signed.
Qed.

(** The outputs of the copy. *)
Definition old_outputs : list CTxOut :=
  if fHashNone nHashType then []
  else if fHashSingle nHashType then imap signed_output (take (nIn + 1) (vout txTo))
  else vout txTo.

Lemma Serialize_signed_outputs : (fHashSingle nHashType = true -> (nIn < length (vout txTo))%nat) ->
  let nOutputs := if fHashNone nHashType then 0 else if fHashSingle nHashType then u32 (Z.of_nat nIn + 1) else u32 (Z.of_nat (length (vout txTo))) in
  WriteCompactSize nOutputs ++ mjoin (SerializeOutput txTo nIn nHashType <$> seq 0 (Z.to_nat nOutputs)) = Serialize_vector old_outputs.
Proof.
  intros Hsingle. cbv zeta. unfold Serialize_vector, old_outputs. destruct (fHashNone nHashType); [reflexivity|].
  destruct (fHashSingle nHashType) eqn:Es.
  - specialize (Hsingle eq_refl). rewrite u32_small by (unfold in_word; lia). rewrite length_imap, length_take.
    replace (Z.to_nat (Z.of_nat nIn + 1)) with (nIn + 1)%nat by lia. f_equal; [f_equal; lia|].
    apply (written_elements CTxOut_null); [lia|]. intros i Hi. unfold SerializeOutput, signed_output. rewrite Es. cbn [andb Serialize CTxOut_serializable].
    destruct (Nat.eqb_spec i nIn), (Nat.ltb_spec i nIn); try lia; reflexivity.
  - rewrite u32_small by (unfold in_word; lia). rewrite Nat2Z.id. f_equal.
    rewrite (written_elements CTxOut_null _ (fun _ o => o) (vout txTo)); [|done|].
    + rewrite take_ge by lia. do 2 f_equal. apply list_eq. intros i. rewrite list_lookup_imap. now destruct (vout txTo !! i).
    + intros i Hi. unfold SerializeOutput. now rewrite Es.
Qed.

(** The serialization of the whole copy. *)
Lemma Serialize_signed_split : (fHashSingle nHashType = true -> (nIn < length (vout txTo))%nat) ->
  Serialize_signed txTo scriptCode nIn nHashType =
  let ins := imap signed_input (vin txTo) in
  let txTmp := with_outputs old_outputs (with_inputs ins txTo) in
  Serialize_CTransaction (if fAnyoneCanPay nHashType then with_inputs (take 1 (<[0%nat := nth nIn ins CTxIn_new]> ins)) txTmp else txTmp).
Proof.
  intros Hsingle. pose proof Serialize_signed_inputs as Sins. cbv zeta in Sins. pose proof (Serialize_signed_outputs Hsingle) as Souts. cbv zeta in *.
  unfold Serialize_signed, Serialize_CTransaction. cbv zeta. rewrite (app_assoc (WriteCompactSize _) (mjoin (SerializeInput _ _ _ _ <$> _))), Sins.
  rewrite (app_assoc (WriteCompactSize _) (mjoin (SerializeOutput _ _ _ <$> _))), Souts. now destruct (fAnyoneCanPay nHashType).
Qed.
End Equivalence.

(** ** Properties *)

(** C8. The serializer that changes the transaction on the fly gives the signature hash of the reference, which changes
    a copy: for every hash type, input number and transaction, and for every script whose instructions can all be
    read. *)
Theorem SignatureHash_correct scriptCode txTo nIn nHashType : parses scriptCode ->
  Z.of_nat (length (vin txTo)) < 2 ^ 32 -> Z.of_nat (length (vout txTo)) < 2 ^ 32 ->
  SignatureHash scriptCode txTo nIn nHashType = SignatureHashOld scriptCode txTo nIn nHashType.
Proof.
  intros Hp Hi Ho. unfold SignatureHash, SignatureHashOld. destruct (Nat.leb_spec (length (vin txTo)) nIn) as [|Hin]; [done|]. cbv zeta.
  pose proof (old_inputs txTo scriptCode nIn nHashType) as Eins. cbv zeta in Eins.
  pose proof (Serialize_signed_split txTo scriptCode nIn nHashType Hp Hin Hi Ho) as Main.
  fold (fAnyoneCanPay nHashType) (fHashNone nHashType) (fHashSingle nHashType).
  set (ins := alter _ nIn _) in *. clearbody ins. destruct (fHashNone nHashType) eqn:En.
  - assert (Es : fHashSingle nHashType = false) by (unfold fHashNone, fHashSingle, SIGHASH_NONE, SIGHASH_SINGLE in *; lia).
    rewrite Es in *. cbn [orb andb] in *. rewrite Main, Eins by done. unfold old_outputs. rewrite En. now destruct (fAnyoneCanPay nHashType).
  - destruct (fHashSingle nHashType) eqn:Es; cbn [orb andb] in *.
    + destruct (Nat.leb_spec (length (vout txTo)) nIn); [done|]. rewrite Main, Eins by done. unfold old_outputs. rewrite En, Es.
      now destruct (fAnyoneCanPay nHashType).
    + rewrite Main, Eins by done. unfold old_outputs. rewrite En, Es. now destruct (fAnyoneCanPay nHashType).
Qed.

(** ** Concrete scripts *)

Definition demo_spend : CTransaction :=
  let input n := mk_txin (mk_outpoint (n :: replicate 31 7) n) [0x51] (n + 5) in
  mk_tx 2 [input 1; input 2] [mk_txout 10 [0x52] 0; mk_txout 20 [0x53; 0xac] 0] 99 null_hash.

(** The second input, with a script that holds a separator, for SINGLE and ANYONECANPAY. *)
Lemma SignatureHash_correct_witness :
  SignatureHash [0x76; 0xab; 0xac] demo_spend 1 0x83 = SignatureHashOld [0x76; 0xab; 0xac] demo_spend 1 0x83 /\
  FindAndDelete [0x76; 0xab; 0xac] [OP_CODESEPARATOR] = [0x76; 0xac].
Proof.
  split; [|reflexivity]. apply (SignatureHash_correct [0x76; 0xab; 0xac] demo_spend 1 0x83); [|done|done].
  repeat (eapply parses_cons; [reflexivity|]). apply parses_nil.
Defined.

(** A script whose last push is cut off: the size that is written counts a byte that is not. *)
Lemma truncated_script_code :
  SerializeScriptCode [0xac; 0x02; 0x07] = [3; 0xac; 0x02] /\
  Serialize_bytes (FindAndDelete [0xac; 0x02; 0x07] [OP_CODESEPARATOR]) = [3; 0xac; 0x02; 0x07] /\
  SignatureHash [0xac; 0x02; 0x07] demo_spend 0 SIGHASH_ALL <> SignatureHashOld [0xac; 0x02; 0x07] demo_spend 0 SIGHASH_ALL.
Proof. split; [reflexivity|]. split; [reflexivity|]. apply (bool_decide_unpack _). vm_compute. exact I. Qed.
