(* ===== verification/TimeLocks.v ===== *)
(** * Time locks, from the script to the chain

    [OP_CHECKLOCKTIMEVERIFY] and [OP_CHECKSEQUENCEVERIFY] compare a number of the script with fields of the
    spending transaction; the rules for blocks ([IsFinalTx], [SequenceLocks]) compare these with the chain.  The
    theorems put the two together: an output whose script starts with a time lock is not spent earlier. *)

From S2P Require Import Prelude Words Blob SHA256 Serialize Transaction Script Chain MedianTime TxCheck Hash160 Interpreter.
From S2P Require Import ScriptSafety ScriptPayments SignatureHash.

Definition OP_CHECKLOCKTIMEVERIFY : Z := 0xb1.
Definition OP_CHECKSEQUENCEVERIFY : Z := 0xb2.

(** ** Scripts that start with a time lock *)

(** [CScript() << CScriptNum(n) << op], and what follows. *)
Definition time_locked (op n : Z) (rest : CScript) : CScript := push_data (CScriptNum_serialize n) ++ op :: rest.

Section Locked.
Context (CheckLowS : list Z -> bool) (flags : Z) (checker : BaseSignatureChecker).
Abbreviation run := (run CheckLowS flags checker).

(** A push that goes well. *)
Lemma run_push_success b rest s n code m : Z.of_nat (length b) <= MAX_SCRIPT_ELEMENT_SIZE -> Z.of_nat (length rest) < 2 ^ 31 ->
  run (push_data b ++ rest) (flat s n code) = Some (inr m) -> run rest (flat (b :: s) n code) = Some (inr m).
Proof.
  intros Hb Hr. destruct (GetOp2_push b rest Hb Hr) as [E Hop]. rewrite (run_step _ _ _ _ _ _ _ _ E). intros (m' & Es & Er)%bind_success.
  enough (m' = flat (b :: s) n code) by now subst m'. revert Es. unfold eval_step. rewrite (proj2 (Z.ltb_ge _ _) Hb).
  unfold OP_PUSHDATA4 in Hop. rewrite (proj2 (Z.ltb_ge OP_16 _)) by (unfold OP_16; lia). cbn [andb].
  destruct (existsb _ _); [discriminate|]. cbn [flat vfExec forallb andb]. rewrite (proj2 (Z.leb_le _ OP_PUSHDATA4)) by (unfold OP_PUSHDATA4; lia).
  intros (m1 & E1 & E2)%bind_success. apply bind_success in E1 as (_ & _ & [= <-]). destruct (_ <? _)%nat in E2; [discriminate|].
  now injection E2 as <-.
Qed.

Lemma number_five n : 0 <= n < 2 ^ 39 -> number flags (CScriptNum_serialize n) 5 = mret n.
Proof.
  intros Hn. unfold number. pose proof (serialize_read 5 n ltac:(lia) ltac:(change (8 * 5 - 1) with 39; lia)) as E.
  destruct (fRequireMinimal flags); [now rewrite E|]. apply CScriptNum_inr in E as [Ev El]. unfold CScriptNum.
  rewrite (proj2 (Z.ltb_ge _ _) El). cbn [andb]. now rewrite Ev.
Qed.

(** The check that such a script makes. *)
Definition lock_op (sequence : bool) : Z := if sequence then OP_CHECKSEQUENCEVERIFY else OP_CHECKLOCKTIMEVERIFY.
Lemma lock_checked sequence n rest s r : 0 <= n < 2 ^ 39 ->
  has flags (if sequence : bool then SCRIPT_VERIFY_CHECKSEQUENCEVERIFY else SCRIPT_VERIFY_CHECKLOCKTIMEVERIFY) = true ->
  EvalScript CheckLowS flags checker s (time_locked (lock_op sequence) n rest) = Some (inr r) ->
  sequence && negb (n .& SEQUENCE_LOCKTIME_DISABLE_FLAG =? 0) = false ->
  (if sequence then CheckSequence checker n else CheckLockTime checker n) = true.
Proof.
  intros Hn Hflag. unfold EvalScript. destruct (Z.ltb_spec MAX_SCRIPT_SIZE (Z.of_nat (length (time_locked (lock_op sequence) n rest)))) as [|Hl]; [discriminate|].
  intros (m & E & _)%bind_success Hdis. set (code := time_locked _ n rest) in *.
  change (run code (flat s 0 code) = Some (inr m)) in E. unfold code at 1 in E. unfold time_locked in E.
  assert (Hlen : Z.of_nat (length (lock_op sequence :: rest)) < 2 ^ 31).
  { unfold code, time_locked, MAX_SCRIPT_SIZE in Hl. rewrite length_app in Hl. lia. }
  apply run_push_success in E; [|apply element_number; lia|done].
  rewrite (run_instruction _ _ _ (lock_op sequence) (if sequence then CHECKSEQUENCEVERIFY else CHECKLOCKTIMEVERIFY)) in E by (destruct sequence; reflexivity).
  apply bind_success in E as (m2 & E & _). apply bind_success in E as (m1 & E & _).
  assert (El : exec_locktime flags checker sequence (CScriptNum_serialize n :: s) = Some (inr tt)).
  { destruct sequence; cbn [exec] in E; apply bind_success in E as ([] & E & _); exact E. }
  revert El. unfold exec_locktime. rewrite Hflag. cbn [negb]. rewrite number_five by done. cbn [mbind eval_bind mret eval_ret].
  rewrite (proj2 (Z.ltb_ge n 0)), Hdis by lia.
  destruct sequence; [destruct (CheckSequence checker n)|destruct (CheckLockTime checker n)]; done.
Qed.

Lemma VerifyScript_evaluates scriptSig scriptPubKey : VerifyScript CheckLowS flags checker scriptSig scriptPubKey = Some (inr tt) ->
  exists s r, EvalScript CheckLowS flags checker s scriptPubKey = Some (inr r).
Proof.
  unfold VerifyScript. destruct (_ && _); [discriminate|]. intros (s & _ & E)%bind_success. apply bind_success in E as (r & E & _). now exists s, r.
Qed.
End Locked.

(** ** The fields of the transaction *)

Lemma locktime_final tx nIn n height time : (nIn < length (vin tx))%nat -> Transaction_CheckLockTime tx nIn n = true ->
  IsFinalTx tx height time = true -> 0 < height -> if n <? LOCKTIME_THRESHOLD then n < height else n < time.
Proof.
  unfold Transaction_CheckLockTime, IsFinalTx. intros Hin. destruct (negb _) eqn:Ek; [discriminate|]. apply negb_false_iff in Ek.
  destruct (Z.ltb_spec (nLockTime tx) n) as [|Hle]; [discriminate|]. destruct (Z.eqb_spec SEQUENCE_FINAL (nSequence (nth nIn (vin tx) CTxIn_new))) as [|Hseq]; [discriminate|].
  intros _ Hfinal Hheight. unfold LOCKTIME_THRESHOLD in *. destruct (Z.eqb_spec (nLockTime tx) 0) as [E0|]; [rewrite E0 in *; destruct (Z.ltb_spec n 500000000); lia|].
  destruct (Z.ltb_spec (nLockTime tx) (if nLockTime tx <? 500000000 then height else time)) as [Hlt|].
  - destruct (Z.ltb_spec (nLockTime tx) 500000000), (Z.ltb_spec n 500000000); lia.
  - exfalso. apply Hseq. symmetry. rewrite forallb_forall in Hfinal. apply Z.eqb_eq, Hfinal, nth_In. exact Hin.
Qed.

Lemma land_lock_mask x : x .& (SEQUENCE_LOCKTIME_TYPE_FLAG .| SEQUENCE_LOCKTIME_MASK) = (if Z.testbit x 22 then 2 ^ 22 else 0) + x mod 2 ^ 16.
Proof.
  unfold SEQUENCE_LOCKTIME_TYPE_FLAG, SEQUENCE_LOCKTIME_MASK. rewrite Z.land_lor_distr_r. change 0x0000ffff with (Z.ones 16). rewrite (Z.land_ones x 16) by lia.
  pose proof (Z.mod_pos_bound x (2 ^ 16) ltac:(lia)) as Hm. pose proof (land_single_bit x 22 ltac:(lia)) as Hb.
  assert (E : x .& (1 << 22) = if Z.testbit x 22 then 2 ^ 22 else 0).
  { destruct (Z.testbit x 22) eqn:Et; [|now apply Z.eqb_eq in Hb]. apply Z.bits_inj'. intros i Hi. rewrite Z.shiftl_1_l, Z.land_spec, Z.pow2_bits_eqb by lia.
    destruct (Z.eqb_spec 22 i) as [<-|]; [now rewrite Et|apply andb_false_r]. }
  rewrite E. destruct (Z.testbit x 22); [|apply Z.lor_0_l]. assert (E0 : 2 ^ 22 .& (x mod 2 ^ 16) = 0).
  { apply Z.bits_inj'. intros i Hi. rewrite Z.land_spec, Z.pow2_bits_eqb, Z.bits_0 by lia. destruct (Z.eqb_spec 22 i) as [<-|]; [|done].
    now rewrite Z.mod_pow2_bits_high by lia. }
  pose proof (Z.add_lor_land (2 ^ 22) (x mod 2 ^ 16)). lia.
Qed.

(** The relative lock of the input is at least that of the script. *)
Lemma sequence_at_least tx nIn n i : vin tx !! nIn = Some i -> Transaction_CheckSequence tx nIn n = true ->
  2 <= u32 (tx_version tx) /\ Z.testbit (nSequence i) 31 = false /\ Z.testbit (nSequence i) 22 = Z.testbit n 22 /\
  n mod 2 ^ 16 <= nSequence i mod 2 ^ 16.
Proof.
  intros Hi. unfold Transaction_CheckSequence. rewrite (nth_lookup_Some _ _ _ _ Hi). cbv zeta.
  destruct (Z.ltb_spec (u32 (tx_version tx)) 2) as [|Hv]; [discriminate|]. unfold SEQUENCE_LOCKTIME_DISABLE_FLAG. rewrite land_single_bit, negb_involutive by lia.
  destruct (Z.testbit (nSequence i) 31); [discriminate|]. rewrite !land_lock_mask. unfold SEQUENCE_LOCKTIME_TYPE_FLAG. change (1 << 22) with (2 ^ 22).
  pose proof (Z.mod_pos_bound n (2 ^ 16) ltac:(lia)). pose proof (Z.mod_pos_bound (nSequence i) (2 ^ 16) ltac:(lia)).
  destruct (negb _) eqn:Ek; [discriminate|]. apply negb_false_iff in Ek. destruct (Z.ltb_spec ((if Z.testbit (nSequence i) 22 then 2 ^ 22 else 0) + nSequence i mod 2 ^ 16)
    ((if Z.testbit n 22 then 2 ^ 22 else 0) + n mod 2 ^ 16)) as [|Hle]; [discriminate|]. intros _.
  destruct (Z.testbit (nSequence i) 22), (Z.testbit n 22); repeat split; lia.
Qed.

(** ** Properties *)

Section Enforced.
Context (CheckLowS : list Z -> bool) (Verify : list Z -> hash -> list Z -> bool) (flags : Z) (tx : CTransaction) (nIn : nat).
Abbreviation accepts n op rest scriptSig := (VerifyScript CheckLowS flags (TransactionSignatureChecker Verify tx nIn) scriptSig (time_locked op n rest) = Some (inr tt)).

Lemma locktime_enforced n rest scriptSig height time : (nIn < length (vin tx))%nat -> 0 <= n < 2 ^ 39 -> 0 < height ->
  has flags SCRIPT_VERIFY_CHECKLOCKTIMEVERIFY = true -> accepts n OP_CHECKLOCKTIMEVERIFY rest scriptSig ->
  IsFinalTx tx height time = true -> if n <? LOCKTIME_THRESHOLD then n < height else n < time.
Proof.
  intros Hin Hn Hheight Hflag (s & r & E)%VerifyScript_evaluates Hfinal.
  apply (lock_checked _ _ _ false n rest s r Hn Hflag) in E; [|done]. now apply (locktime_final tx nIn).
Qed.

Lemma sequence_enforced n rest scriptSig s block b q mt heights i ch : 0 <= n < 2 ^ 39 -> Z.testbit n 31 = false ->
  has flags SCRIPT_VERIFY_CHECKSEQUENCEVERIFY = true -> accepts n OP_CHECKSEQUENCEVERIFY rest scriptSig ->
  vin tx !! nIn = Some i -> heights !! nIn = Some ch ->
  wf_store s -> s !! block = Some b -> pprev b = Some q -> GetMedianTimePast s q = Some mt -> 0 <= mt ->
  length heights = length (vin tx) -> Forall (fun h => 0 <= h <= nHeight b) heights ->
  SequenceLocks s tx LOCKTIME_VERIFY_SEQUENCE heights block = Some true ->
  if Z.testbit n 22 then
    exists a ta, up s (Z.to_nat (nHeight b - Z.max (ch - 1) 0)) block = Some a /\
      GetMedianTimePast s a = Some ta /\ ta + 512 * (n mod 2 ^ 16) <= mt
  else ch + n mod 2 ^ 16 <= nHeight b.
Proof.
  intros Hn H31 Hflag (st & r & E)%VerifyScript_evaluates Hi Hch Hwf Hb Hq Hmt Hpos Hl Hh Hseq.
  apply (lock_checked _ _ _ true n rest st r Hn Hflag) in E.
  2:{ unfold SEQUENCE_LOCKTIME_DISABLE_FLAG. now rewrite land_single_bit, H31 by lia. }
  destruct (sequence_at_least tx nIn n i Hi E) as (Hv & Hd & H22 & Hle).
  destruct (SequenceLocks_spec s tx LOCKTIME_VERIFY_SEQUENCE heights block b q mt Hwf Hb Hq Hmt Hpos Hl Hh) as (res & E' & Hres).
  rewrite Hseq in E'. injection E' as <-. pose proof (Forall2_lookup_lr _ _ _ _ _ _ (proj1 Hres eq_refl Hv eq_refl) Hi Hch Hd) as Hlock.
  cbv zeta in Hlock. rewrite H22 in Hlock. destruct (Z.testbit n 22); [|lia]. destruct Hlock as (a & ta & Ea & Et & Hta). exists a, ta. repeat split; [done|done|lia].
Qed.
End Enforced.

(** C11. Time locks of scripts hold on the chain.  If the output's script starts with the push of [n] and
    [OP_CHECKLOCKTIMEVERIFY], a transaction whose input is accepted and which is final for a block has a block
    of a greater height than [n] (or, for a time, a later one).  If it starts with [n] and
    [OP_CHECKSEQUENCEVERIFY], and the relative locks of the transaction hold in a block, then as many blocks, or
    units of 512 seconds, as [n] asks for have passed since the coin. *)
Theorem time_locks_enforced CheckLowS Verify flags tx nIn n rest scriptSig : 0 <= n < 2 ^ 39 ->
  let accepts op := VerifyScript CheckLowS flags (TransactionSignatureChecker Verify tx nIn) scriptSig (time_locked op n rest) = Some (inr tt) in
  (forall height time, (nIn < length (vin tx))%nat -> has flags SCRIPT_VERIFY_CHECKLOCKTIMEVERIFY = true -> accepts OP_CHECKLOCKTIMEVERIFY ->
     0 < height -> IsFinalTx tx height time = true -> if n <? LOCKTIME_THRESHOLD then n < height else n < time) /\
  (forall s block b q mt heights i ch, has flags SCRIPT_VERIFY_CHECKSEQUENCEVERIFY = true -> accepts OP_CHECKSEQUENCEVERIFY ->
     Z.testbit n 31 = false -> vin tx !! nIn = Some i -> heights !! nIn = Some ch ->
     wf_store s -> s !! block = Some b -> pprev b = Some q -> GetMedianTimePast s q = Some mt -> 0 <= mt ->
     length heights = length (vin tx) -> Forall (fun h => 0 <= h <= nHeight b) heights ->
     SequenceLocks s tx LOCKTIME_VERIFY_SEQUENCE heights block = Some true ->
     if Z.testbit n 22 then
       exists a ta, up s (Z.to_nat (nHeight b - Z.max (ch - 1) 0)) block = Some a /\
         GetMedianTimePast s a = Some ta /\ ta + 512 * (n mod 2 ^ 16) <= mt
     else ch + n mod 2 ^ 16 <= nHeight b).
Proof.
  intros Hn accepts. split; intros; [now apply (locktime_enforced CheckLowS Verify flags tx nIn n rest scriptSig)|].
  now apply (sequence_enforced CheckLowS Verify flags tx nIn n rest scriptSig s block b q mt heights i ch).
Qed.

(** ** Concrete locks *)

Definition demo_timed : CTransaction := mk_tx 2 [mk_txin (mk_outpoint (replicate 32 1) 0) [0x51] 0] [mk_txout 1 [0x51] 0] 100 null_hash.
Definition demo_verify (_ : list Z) (_ : hash) (_ : list Z) : bool := true.

(** The number 90 with the transaction's lock time 100, and 5 blocks for a coin of height 30. *)
Lemma time_locks_enforced_witness :
  let absolute := VerifyScript (fun _ => true) SCRIPT_VERIFY_CHECKLOCKTIMEVERIFY (TransactionSignatureChecker demo_verify demo_timed 0) [] (time_locked OP_CHECKLOCKTIMEVERIFY 90 [0x75; 0x51]) in
  let relative := VerifyScript (fun _ => true) SCRIPT_VERIFY_CHECKSEQUENCEVERIFY (TransactionSignatureChecker demo_verify demo_locked 0) [] (time_locked OP_CHECKSEQUENCEVERIFY 5 [0x75; 0x51]) in
  absolute = Some (inr tt) /\ IsFinalTx demo_timed 101 0 = true /\ 90 < 101 /\ relative = Some (inr tt) /\ 30 + 5 mod 2 ^ 16 <= nHeight (demo_entry 39%nat).
Proof.
  cbv zeta. split; [vm_compute; reflexivity|]. split; [reflexivity|]. split; [|split; [vm_compute; reflexivity|]].
  - apply (proj1 (time_locks_enforced (fun _ => true) demo_verify SCRIPT_VERIFY_CHECKLOCKTIMEVERIFY demo_timed 0 90 [0x75; 0x51] [] ltac:(lia)) 101 0);
      [cbn; lia|reflexivity|vm_compute; reflexivity|lia|reflexivity].
  - apply (proj2 (time_locks_enforced (fun _ => true) demo_verify SCRIPT_VERIFY_CHECKSEQUENCEVERIFY demo_locked 0 5 [0x75; 0x51] [] ltac:(lia))
      (demo_store 40%nat) 39%nat (demo_entry 39%nat) 38%nat (1000 + 150 * 33) [30; 20] (mk_txin (mk_outpoint (replicate 32 1) 0) [] 5) 30);
      [reflexivity|vm_compute; reflexivity|reflexivity|reflexivity|reflexivity|apply demo_wf|reflexivity|reflexivity|vm_compute; reflexivity|lia|reflexivity|by_eval|vm_compute; reflexivity].
Defined.
