(* ===== verification/SigCache.v ===== *)
(** * The signature cache ([script/sigcache.cpp])

    [CachingTransactionSignatureChecker] remembers the signatures that were valid.  An entry is a hash of the signature
    hash, the key and the signature together; it is shown that these can be told apart in what is hashed, and that
    the answers of the cache are those of the verification, however entries come and go. *)

From stdpp Require Import gmap.
From S2P Require Import Prelude Words SHA256 Transaction SignatureHash.

Record CSignatureCache := mk_sigcache { nonce : list Z; setValid : gset (list Z) }.

(** One call of [VerifySignature]; [rq_erased] are the entries that the loop of [Set] erases, at random, if the
    cache is full. *)
Record request := mk_request { rq_sig : list Z; rq_pubkey : list Z; rq_hash : hash; rq_store : bool; rq_erased : gset (list Z) }.

Section Cache.
Context (Verify : list Z -> hash -> list Z -> bool).

(** What is hashed: the key up to its size. *)
Definition entry_data (nonce : list Z) (r : request) : list (list Z) :=
  [nonce; rq_hash r; take (Z.to_nat (CPubKey_size (rq_pubkey r))) (rq_pubkey r); rq_sig r].
Definition ComputeEntry (nonce : list Z) (r : request) : list Z :=
  (CSHA256_Finalize (fold_left CSHA256_Write (entry_data nonce r) (CSHA256_new stack_memory))).2.

Definition Get (c : CSignatureCache) (entry : list Z) : bool := bool_decide (entry ∈ setValid c).
Definition Erase (c : CSignatureCache) (entry : list Z) : CSignatureCache := mk_sigcache (nonce c) (setValid c ∖ {[entry]}).
(** [nMaxCacheSize] is the size in bytes that the option gives. *)
Definition Set_ (nMaxCacheSize : Z) (c : CSignatureCache) (entry : list Z) (erased : gset (list Z)) : CSignatureCache :=
  if nMaxCacheSize <=? 0 then c else mk_sigcache (nonce c) ({[entry]} ∪ (setValid c ∖ erased)).

Definition Caching_VerifySignature (nMaxCacheSize : Z) (c : CSignatureCache) (r : request) : bool * CSignatureCache :=
  let entry := ComputeEntry (nonce c) r in
  if Get c entry then (true, if rq_store r then c else Erase c entry)
  else if negb (VerifySignature Verify (rq_sig r) (rq_pubkey r) (rq_hash r)) then (false, c)
  else (true, if rq_store r then Set_ nMaxCacheSize c entry (rq_erased r) else c).

(** Calls one after another: the lock makes each access to the set atomic, and between [Get] and [Set] other calls
    only add valid entries or remove some. *)
Fixpoint answers (nMaxCacheSize : Z) (c : CSignatureCache) (requests : list request) : list bool :=
  match requests with
  | [] => []
  | r :: requests => let '(b, c) := Caching_VerifySignature nMaxCacheSize c r in b :: answers nMaxCacheSize c requests
  end.

(** ** Entries *)

(** A key as [CPubKey] holds it, and a hash. *)
Record request_ok (r : request) : Prop := {
  ok_key : CPubKey_IsValid (rq_pubkey r) = true /\ Z.of_nat (length (rq_pubkey r)) = CPubKey_size (rq_pubkey r);
  ok_hash : bytes (rq_hash r) /\ length (rq_hash r) = 32%nat;
  ok_bytes : bytes (rq_pubkey r) /\ bytes (rq_sig r) }.

Definition same_question (r r' : request) : Prop := rq_sig r = rq_sig r' /\ rq_pubkey r = rq_pubkey r' /\ rq_hash r = rq_hash r'.

Lemma entry_data_whole nonce r : request_ok r -> mjoin (entry_data nonce r) = nonce ++ rq_hash r ++ rq_pubkey r ++ rq_sig r.
Proof.
  intros [[_ Hk] _ _]. unfold entry_data. rewrite take_ge by lia. cbn. now rewrite app_nil_r.
Qed.

(** The first byte of the key gives its size: the parts can be told apart. *)
Lemma entry_data_inj nonce r r' : request_ok r -> request_ok r' ->
  mjoin (entry_data nonce r) = mjoin (entry_data nonce r') -> same_question r r'.
Proof.
  intros Hr Hr'. rewrite !entry_data_whole by done. destruct Hr as [[Hv Hk] [_ Hh] _], Hr' as [[Hv' Hk'] [_ Hh'] _].
  intros [_ E]%app_inj_1; [|done]. apply app_inj_1 in E as [E1 E]; [|lia]. unfold CPubKey_IsValid in *.
  assert (Hl : length (rq_pubkey r) = length (rq_pubkey r')).
  { destruct (rq_pubkey r) as [|x k]; [rewrite <- Hk in Hv; discriminate Hv|]. destruct (rq_pubkey r') as [|x' k']; [rewrite <- Hk' in Hv'; discriminate Hv'|].
    cbn [app] in E. injection E as <- _. unfold CPubKey_size in *. cbn [hd] in *. lia. }
  apply app_inj_1 in E as [E2 E3]; [|done]. now repeat split.
Qed.

Lemma ComputeEntry_sha256 nonce r : bytes nonce -> request_ok r -> ComputeEntry nonce r = FIPS180.sha256 (nonce ++ rq_hash r ++ rq_pubkey r ++ rq_sig r).
Proof.
  intros Hn Hr. rewrite <- (entry_data_whole nonce r Hr). unfold ComputeEntry. destruct Hr as [_ [Hh _] [Hk Hs]].
  assert (Hp : Forall bytes (entry_data nonce r)).
  { repeat (apply Forall_cons_2; [first [done|now apply Forall_take]|]). apply Forall_nil_2. }
  pose proof (CSHA256_feed_repr _ [] _ (CSHA256_new_repr stack_memory eq_refl) Hp) as Hrepr. now apply CSHA256_Finalize_spec in Hrepr as [E _].
Qed.

(** ** The answers *)

Definition verified (r : request) : bool := Verify (rq_pubkey r) (rq_hash r) (rq_sig r).
Lemma same_verified r r' : same_question r r' -> verified r = verified r'.
Proof. unfold verified. now intros (-> & -> & ->). Qed.

Section Answers.
(** All requests that are made; no two different questions among them have the same entry. *)
Context (all : list request) (key : list Z).
Context (Hdistinct : forall r r', r ∈ all -> r' ∈ all -> ComputeEntry key r = ComputeEntry key r' -> same_question r r').

Definition cache_valid (c : CSignatureCache) : Prop :=
  nonce c = key /\ forall e, e ∈ setValid c -> exists r, r ∈ all /\ e = ComputeEntry key r /\ verified r = true.

Lemma cache_valid_subset c s : cache_valid c -> s ⊆ setValid c -> cache_valid (mk_sigcache (nonce c) s).
Proof. intros [Hn Hc] Hs. split; [done|]. intros e He. apply Hc, Hs, He. Qed.

Lemma cached_step n c r : cache_valid c -> r ∈ all ->
  (Caching_VerifySignature n c r).1 = verified r /\ cache_valid (Caching_VerifySignature n c r).2.
Proof.
  intros Hc Hr. unfold Caching_VerifySignature, Get. pose proof Hc as [Hn Hv]. rewrite Hn. case_bool_decide as Hin; cbn [fst snd].
  - destruct (Hv _ Hin) as (r' & Hr' & E & Hver). split.
    + symmetry. rewrite (same_verified r r'); [exact Hver|]. now apply Hdistinct.
    + destruct (rq_store r); [done|]. apply cache_valid_subset; [done|]. intros x Hx. now apply elem_of_difference in Hx as [Hx _].
  - unfold VerifySignature. fold (verified r). destruct (verified r) eqn:Ev; cbn [negb fst snd]; (split; [done|]); [|done].
    destruct (rq_store r); [|done]. unfold Set_. destruct (n <=? 0); [done|]. split; [done|]. cbn [setValid].
    intros e He. apply elem_of_union in He as [He|He]; [apply elem_of_singleton in He as ->; now exists r|]. apply elem_of_difference in He as [He _]. now apply Hv.
Qed.

Lemma answers_valid n c requests : cache_valid c -> requests ⊆ all -> answers n c requests = verified <$> requests.
Proof.
  revert c. induction requests as [|r requests IH]; intros c Hc Hsub; [done|]. cbn [answers].
  destruct (cached_step n c r Hc ltac:(apply Hsub; left)) as [E Hc']. destruct (Caching_VerifySignature n c r) as [b c']. cbn [fst snd] in *. subst b.
  cbn [fmap list_fmap]. f_equal. apply IH; [done|]. intros x Hx. apply Hsub. now right.
Qed.
End Answers.
End Cache.

(** ** Properties *)

(** C39. Whatever the size of the cache, the choice to store and the entries that are erased, calls of the caching checker
    give the answers of the plain one, as long as no two of the messages hashed for the entries (all different for
    different questions) have the same SHA-256 digest. *)
Theorem cached_answers Verify nMaxCacheSize key requests : bytes key -> Forall request_ok requests ->
  (forall r r', r ∈ requests -> r' ∈ requests ->
     FIPS180.sha256 (key ++ rq_hash r ++ rq_pubkey r ++ rq_sig r) = FIPS180.sha256 (key ++ rq_hash r' ++ rq_pubkey r' ++ rq_sig r') ->
     key ++ rq_hash r ++ rq_pubkey r ++ rq_sig r = key ++ rq_hash r' ++ rq_pubkey r' ++ rq_sig r') ->
  answers Verify nMaxCacheSize (mk_sigcache key ∅) requests = (fun r => Verify (rq_pubkey r) (rq_hash r) (rq_sig r)) <$> requests.
Proof.
  intros Hkey Hok Hno. rewrite list.Forall_forall in Hok. apply (answers_valid Verify requests key); [|split; [done|set_solver]|done].
  intros r r' Hr Hr' E. apply (entry_data_inj key); [now apply Hok..|]. rewrite !entry_data_whole by now apply Hok.
  rewrite !ComputeEntry_sha256 in E by (done || now apply Hok). now apply Hno.
Qed.

(** ** Concrete requests *)

Definition demo_request (sg : Z) (store : bool) : request := mk_request [sg] (2 :: replicate 32 7) (replicate 32 9) store ∅.
Definition demo_requests : list request := [demo_request 1 true; demo_request 2 true; demo_request 1 false].

Lemma cached_answers_witness : answers (fun _ _ sg => bool_decide (sg = [1])) 40 (mk_sigcache [5; 6] ∅) demo_requests = [true; false; true].
Proof.
  etrans; [apply (cached_answers (fun _ _ sg => bool_decide (sg = [1])) 40 [5; 6] demo_requests)|vm_compute; reflexivity].
  - by_eval.
  - repeat (apply Forall_cons_2; [split; [split; [reflexivity|reflexivity]|split; [by_eval|reflexivity]|split; by_eval]|]). apply Forall_nil_2.
  - intros r r' Hr Hr'. repeat (apply elem_of_cons in Hr as [->|Hr]; [|]); try (now apply not_elem_of_nil in Hr);
      repeat (apply elem_of_cons in Hr' as [->|Hr']; [|]); try (now apply not_elem_of_nil in Hr'); try (intros _; reflexivity);
      by_eval.
Defined.
