(* ===== verification/ConnectTx.v ===== *)
(** * Connecting the transactions of a block ([validation.cpp])

    What [ConnectBlock] does with every transaction: the limit of signature operations, the
    inputs with their relative lock times, values and scripts, the fees and the changes of
    the unspent outputs, on any view of the coins.  The script interpreter is a parameter.  The
    theorem says which lists of transactions are accepted, and what becomes of the coins. *)

From stdpp Require Import gmap strings.
From S2P Require Import Prelude Words Blob Serialize Transaction Script Chain MedianTime ValidationState.
From S2P Require Import Coins Undo TxCheck CheckBlock Interpreter.

(** ** Script checks *)

Definition MANDATORY_SCRIPT_VERIFY_FLAGS : Z := SCRIPT_VERIFY_P2SH.
Definition STANDARD_SCRIPT_VERIFY_FLAGS : Z :=
  MANDATORY_SCRIPT_VERIFY_FLAGS .| SCRIPT_VERIFY_DERSIG .| SCRIPT_VERIFY_STRICTENC .| SCRIPT_VERIFY_MINIMALDATA
  .| SCRIPT_VERIFY_NULLDUMMY .| SCRIPT_VERIFY_DISCOURAGE_UPGRADABLE_NOPS .| SCRIPT_VERIFY_CLEANSTACK
  .| SCRIPT_VERIFY_CHECKLOCKTIMEVERIFY .| SCRIPT_VERIFY_CHECKSEQUENCEVERIFY .| SCRIPT_VERIFY_LOW_S.
Definition STANDARD_NOT_MANDATORY_VERIFY_FLAGS : Z :=
  STANDARD_SCRIPT_VERIFY_FLAGS .& Z.lnot MANDATORY_SCRIPT_VERIFY_FLAGS.

(** [CScriptCheck], without the choice to store results in the signature cache; its constructor
    drops the amount. *)
Record CScriptCheck := mk_script_check {
  sc_scriptPubKey : CScript;
  sc_tx : CTransaction;
  sc_nIn : nat;
  sc_nFlags : Z }.
Definition with_flags (check : CScriptCheck) (flags : Z) : CScriptCheck :=
  {| sc_scriptPubKey := sc_scriptPubKey check; sc_tx := sc_tx check;
     sc_nIn := sc_nIn check; sc_nFlags := flags |}.

Section Operations.
Context {V : Type} `{CoinsView V}.
Abbreviation cache := (CCoinsViewCache V).

(** The result of a script check: the error, none if the script is satisfied. *)
Context (script_error : CScriptCheck -> option string).
(** [mapBlockIndex] and the objects in it. *)
Context (mapBlockIndex : gmap (list Z) nat) (s : store).

Definition GetSpendHeight (c : cache) : option (cache * Z) :=
  let '(c, best) := cache_GetBestBlock c in
  pindexPrev ← mapBlockIndex !! best;
  b ← s !! pindexPrev;
  Some (c, Chain.nHeight b + 1).

(** A failed check in this thread. *)
Definition failed_check (state : CValidationState) (check : CScriptCheck) (err : string) : CValidationState :=
  if negb (sc_nFlags check .& STANDARD_NOT_MANDATORY_VERIFY_FLAGS =? 0) &&
     bool_decide (script_error (with_flags check (sc_nFlags check .& Z.lnot STANDARD_NOT_MANDATORY_VERIFY_FLAGS)) = None)
  then Invalid state REJECT_NONSTANDARD ("non-mandatory-script-verify-flag (" +:+ err +:+ ")")
  else DoS state 100 REJECT_INVALID ("mandatory-script-verify-flag-failed (" +:+ err +:+ ")").

(** The loop over the inputs, from number [i] on: the checks that are put off to [pvChecks]. *)
Fixpoint script_loop (tx : CTransaction) (flags : Z) (pvChecks : bool) (c : cache) (i : nat) (ins : list CTxIn)
    (state : CValidationState) : throws (cache * (CValidationState + list CScriptCheck)) :=
  match ins with
  | [] => mret (c, inr [])
  | txin :: ins =>
      let '(c, cn) := AccessCoin c (prevout txin) in
      if IsSpent cn then inl assertion_failed
      else
        let check := mk_script_check (scriptPubKey (out cn)) tx i flags in
        if pvChecks then
          '(c, r) ← script_loop tx flags pvChecks c (S i) ins state;
          mret (c, match r with inl st => inl st | inr checks => inr (check :: checks) end)
        else
          match script_error check with
          | Some err => mret (c, inl (failed_check state check err))
          | None => script_loop tx flags pvChecks c (S i) ins state
          end
  end.

Definition CheckInputs (tx : CTransaction) (state : CValidationState) (c : cache) (fScriptChecks : bool)
    (flags : Z) (pvChecks : bool) : run (cache * (CValidationState + list CScriptCheck)) :=
  if IsCoinBase tx then mret (c, inr [])
  else
    '(c, nSpendHeight) ← of_option (GetSpendHeight c);
    '(c, (ok, state)) ← of_throws (CheckTxInputs tx state c nSpendHeight);
    if negb ok then mret (c, inl state)
    else if fScriptChecks then of_throws (script_loop tx flags pvChecks c 0 (vin tx) state)
    else mret (c, inr []).

(** ** Signature operations of inputs *)

Fixpoint p2sh_sigops (c : cache) (ins : list CTxIn) (nSigOps : Z) : throws (cache * Z) :=
  match ins with
  | [] => mret (c, nSigOps)
  | txin :: ins =>
      let '(c, cn) := AccessCoin c (prevout txin) in
      if IsSpent cn then inl assertion_failed
      else
        let script := scriptPubKey (out cn) in
        p2sh_sigops c ins
          (if IsPayToScriptHash script then u32 (nSigOps + GetSigOpCount_P2SH script (scriptSig txin)) else nSigOps)
  end.
Definition GetP2SHSigOpCount (tx : CTransaction) (c : cache) : throws (cache * Z) :=
  if IsCoinBase tx then mret (c, 0) else p2sh_sigops c (vin tx) 0.

(** The heights of the coins that are spent. *)
Fixpoint prev_heights (c : cache) (ins : list CTxIn) : cache * list Z :=
  match ins with
  | [] => (c, [])
  | txin :: ins =>
      let '(c, cn) := AccessCoin c (prevout txin) in
      let '(c, l) := prev_heights c ins in
      (c, Coins.nHeight cn :: l)
  end.

(** ** One transaction *)

(** What is the same for all transactions of the block. *)
Record tx_context := mk_tx_context {
  cx_pindex : nat;
  cx_nHeight : Z;
  cx_fScriptChecks : bool;
  cx_threads : bool;                (* nScriptCheckThreads is not 0 *)
  cx_fStrictPayToScriptHash : bool;
  cx_flags : Z;
  cx_nLockTimeFlags : Z;
  cx_fDIP0001Active : bool }.

(** The variables that the loop over the transactions changes. *)
Record tx_totals := mk_totals { nFees : Z; nSigOps : Z; control : list CScriptCheck; vtxundo : list (list Coin) }.

Context (cx : tx_context).
Definition too_many_sigops (n : Z) : bool := MaxBlockSigOps (cx_fDIP0001Active cx) <? n.

(** The checks of a transaction that is no coinbase: fees, signature operations and script checks. *)
Definition check_spending (c : cache) (tx : CTransaction) (state : CValidationState) (t : tx_totals)
    : run (cache * (CValidationState + tx_totals)) :=
  let '(c, have) := HaveInputs c tx in
  if negb have then mret (c, inl (DoS state 100 REJECT_INVALID "bad-txns-inputs-missingorspent"))
  else
    let '(c, prevheights) := prev_heights c (vin tx) in
    final ← of_option (SequenceLocks s tx (cx_nLockTimeFlags cx) prevheights (cx_pindex cx));
    if negb final then mret (c, inl (DoS state 100 REJECT_INVALID "bad-txns-nonfinal"))
    else
      '(c, n) ← of_throws (if cx_fStrictPayToScriptHash cx
                           then '(c, k) ← GetP2SHSigOpCount tx c; mret (c, u32 (nSigOps t + k))
                           else mret (c, nSigOps t));
      if cx_fStrictPayToScriptHash cx && too_many_sigops n
      then mret (c, inl (DoS state 100 REJECT_INVALID "bad-blk-sigops"))
      else
        let '(c, nValueIn) := GetValueIn c tx in
        nValueOut ← of_throws (GetValueOut tx);
        let fees := s64 (nFees t + (nValueIn - nValueOut)) in
        '(c, r) ← CheckInputs tx state c (cx_fScriptChecks cx) (cx_flags cx) (cx_threads cx);
        mret (c, match r with
                 | inl state => inl state
                 | inr vChecks => inr (mk_totals fees n (control t ++ vChecks) (vtxundo t))
                 end).

(** Transaction number [i]. *)
Definition connect_one (c : cache) (i : nat) (tx : CTransaction) (state : CValidationState) (t : tx_totals)
    : run (cache * (CValidationState + tx_totals)) :=
  let n := u32 (nSigOps t + GetLegacySigOpCount tx) in
  if too_many_sigops n then mret (c, inl (DoS state 100 REJECT_INVALID "bad-blk-sigops"))
  else
    let t := mk_totals (nFees t) n (control t) (vtxundo t) in
    '(c, r) ← (if IsCoinBase tx then mret (c, inr t) else check_spending c tx state t);
    match r with
    | inl state => mret (c, inl state)
    | inr t =>
        '(c, u) ← of_throws (UpdateCoins c tx (cx_nHeight cx));
        mret (c, inr (mk_totals (nFees t) (nSigOps t) (control t)
                        (if (0 <? i)%nat then vtxundo t ++ [u] else vtxundo t)))
    end.

Fixpoint connect_all (c : cache) (i : nat) (txs : list CTransaction) (state : CValidationState) (t : tx_totals)
    : run (cache * (CValidationState + tx_totals)) :=
  match txs with
  | [] => mret (c, inr t)
  | tx :: txs =>
      '(c, r) ← connect_one c i tx state t;
      match r with
      | inl state => mret (c, inl state)
      | inr t => connect_all c (S i) txs state t
      end
  end.

(** [control.Wait()] *)
Definition wait (checks : list CScriptCheck) : bool :=
  negb (cx_fScriptChecks cx && cx_threads cx) ||
  forallb (fun check => bool_decide (script_error check = None)) checks.

(** BIP30: an output of the block that exists already. *)
Fixpoint overwrites_outputs (c : cache) (txid : list Z) (o : Z) (n : nat) : cache * bool :=
  match n with
  | O => (c, false)
  | S n =>
      let '(c, have) := HaveCoin c (mk_outpoint txid (u32 o)) in
      if have then (c, true) else overwrites_outputs c txid (o + 1) n
  end.
Fixpoint overwrites (c : cache) (txs : list CTransaction) : cache * bool :=
  match txs with
  | [] => (c, false)
  | tx :: txs =>
      let '(c, b) := overwrites_outputs c (tx_hash tx) 0 (length (vout tx)) in
      if b then (c, true) else overwrites c txs
  end.
End Operations.


(** ** The unspent money *)

Definition total (m : gmap COutPoint Coin) : Z := map_fold (fun _ cn acc => nValue (out cn) + acc) 0 m.

Lemma total_coin_insert m o cn : m !! o = None -> total (<[o := cn]> m) = nValue (out cn) + total m.
Proof. intros H. unfold total. rewrite map_fold_insert_L; [done| |done]. intros. lia. Qed.
Lemma total_coin_delete m o cn : m !! o = Some cn -> total (delete o m) = total m - nValue (out cn).
Proof.
  intros H. unfold total at 2. rewrite (map_fold_delete_L _ _ o cn); [|intros; lia|done].
  fold (total (delete o m)). lia.
Qed.

(** Sums of money up to this one stay within 64 bits, with a subsidy added to them. *)
Definition SAFE_SUM : Z := 2 ^ 63 - 2 ^ 40.

(** Coins of blocks up to height [h], with values in the range of money. *)
Definition coins_sound (h : Z) (m : gmap COutPoint Coin) : Prop :=
  forall o cn, m !! o = Some cn -> in_range (nValue (out cn)) /\ 0 <= Coins.nHeight cn <= h.

Lemma total_nonneg h m : coins_sound h m -> 0 <= total m.
Proof.
  unfold total. apply (map_fold_weak_ind (fun r m => coins_sound h m -> 0 <= r)); [lia|].
  intros o cn m' r Ho IH Hs. destruct (Hs o cn (lookup_insert_eq _ _ _)) as [Hr _].
  assert (0 <= r); [|unfold in_range in Hr; lia]. apply IH. intros o' cn' E. apply (Hs o').
  rewrite lookup_insert_ne; [done|]. intros <-. congruence.
Qed.

(** The coins of distinct inputs are spent. *)
Lemma take_inputs_some m ins : Forall (fun i => is_Some (m !! prevout i)) ins -> NoDup (prevout <$> ins) ->
  exists m' l, take_inputs m ins = Some (m', l) /\ total m' = total m - value_in m ins /\
    forall o cn, m' !! o = Some cn -> m !! o = Some cn /\ o ∉ prevout <$> ins.
Proof.
  revert m. induction ins as [|i ins IH]; intros m Hex Hnd; cbn [take_inputs].
  { exists m, []. split; [done|]. split; [cbn; lia|]. intros o cn Ho. split; [done|]. apply not_elem_of_nil. }
  apply Forall_cons_1 in Hex as [[cn Hcn] Hex]. cbn [fmap list_fmap] in Hnd. apply list.NoDup_cons in Hnd as [Hni Hnd].
  assert (Hne : Forall (fun j => prevout i <> prevout j) ins).
  { apply list.Forall_forall. intros j Hj E. apply Hni. rewrite E. now apply list_elem_of_fmap_2. }
  rewrite Hcn. cbn [mbind option_bind]. destruct (IH (delete (prevout i) m)) as (m' & l & E & Ht & Hsub); [|done|].
  { rewrite list.Forall_forall in Hex, Hne |- *. intros j Hj. specialize (Hne j Hj). rewrite lookup_delete_ne by done. now apply Hex. }
  rewrite E. cbn [mbind option_bind]. eexists _, _. split; [reflexivity|]. split.
  - rewrite Ht, (total_coin_delete _ _ cn Hcn). cbn [value_in foldr]. rewrite Hcn. cbn [default from_option id].
    assert (Ev : value_in (delete (prevout i) m) ins = value_in m ins); [|unfold value_in in *; lia].
    clear -Hne. unfold value_in. induction Hne as [|j ins Hj _ IH]; cbn [foldr]; [done|].
    now rewrite IH, lookup_delete_ne.
  - intros o cn' Ho. destruct (Hsub o cn' Ho) as [[Hne' Hm]%lookup_delete_Some Hin]. split; [done|].
    cbn [fmap list_fmap]. rewrite elem_of_cons. intros [->|?]; [now apply Hne'|now apply Hin].
Qed.

(** New outputs are added. *)
Lemma put_outputs_some m tx h i outs : Forall (fun o => in_range (nValue o)) outs ->
  0 <= i -> i + Z.of_nat (length outs) <= 2 ^ 32 ->
  (forall k, i <= k < i + Z.of_nat (length outs) -> m !! mk_outpoint (tx_hash tx) k = None) ->
  exists m', put_outputs m tx h i outs = Some m' /\ total m' <= total m + value_of outs /\
    forall o cn, m' !! o = Some cn -> m !! o = Some cn \/
      ((exists k, i <= k < i + Z.of_nat (length outs) /\ o = mk_outpoint (tx_hash tx) k) /\
       in_range (nValue (out cn)) /\ Coins.nHeight cn = wrap 31 h).
Proof.
  intros Hv. revert m i. induction Hv as [|o outs Ho Hv IH]; intros m i Hi Hl Hf; cbn [put_outputs].
  { exists m. split; [done|]. split; [cbn; lia|auto]. }
  cbn [length] in Hl, Hf. unfold IsSpent, CTxOut_IsNull, new_coin. cbn [out].
  destruct (Z.eqb_spec (nValue o) (-1)) as [E|_]; [unfold in_range in Ho; lia|].
  assert (Hsum : value_of (o :: outs) = nValue o + value_of outs) by reflexivity. rewrite Hsum.
  destruct (IsUnspendable (scriptPubKey o)).
  { destruct (IH m (i + 1)) as (m' & E & Ht & Hm'); [lia|lia|intros k Hk; apply Hf; lia|].
    exists m'. split; [done|]. split; [unfold in_range in Ho; lia|]. intros o' cn' H'.
    destruct (Hm' o' cn' H') as [H|[(k & Hk & ->) H]]; [now left|right]. split; [exists k; split; [cbn [length]; lia|done]|done]. }
  rewrite u32_small by (unfold in_word; lia). rewrite (Hf i) by lia.
  set (cn := {| out := o; fCoinBase := IsCoinBase tx; Coins.nHeight := wrap 31 h |}).
  destruct (IH (<[mk_outpoint (tx_hash tx) i := cn]> m) (i + 1)) as (m' & E & Ht & Hm'); [lia|lia| |].
  { intros k Hk. rewrite lookup_insert_ne by (intros [= ?]; lia). apply Hf. lia. }
  exists m'. split; [done|]. rewrite total_coin_insert in Ht by (apply Hf; lia). cbn [cn out] in Ht. split; [lia|].
  intros o' cn' H'. destruct (Hm' o' cn' H') as [H|[(k & Hk & ->) H]].
  - apply lookup_insert_Some in H as [[<- <-]|[_ H]]; [right|now left]. split; [exists i; split; [cbn [length]; lia|done]|done].
  - right. split; [exists k; split; [cbn [length]; lia|done]|done].
Qed.

(** No coin is at an output of the transaction. *)
Definition fresh_outputs (m : gmap COutPoint Coin) (tx : CTransaction) : Prop :=
  forall k, 0 <= k < Z.of_nat (length (vout tx)) -> m !! mk_outpoint (tx_hash tx) k = None.

Lemma outputs_count tx : tx_valid tx -> Z.of_nat (length (vout tx)) < 2 ^ 32.
Proof.
  intros Htx. pose proof (valid_size _ Htx) as Hs. unfold MAX_LEGACY_BLOCK_SIZE in Hs.
  assert (Hle : Z.of_nat (length (vout tx)) <= GetSerializeSize tx); [|lia].
  unfold GetSerializeSize. cbn [Serialize CTransaction_serializable]. unfold Serialize_CTransaction.
  rewrite !length_app. pose proof (vector_size (fun _ : CTxOut => 1) (vout tx)) as Hv.
  assert (Hsum : sum_of (fun _ : CTxOut => 1) (vout tx) = Z.of_nat (length (vout tx)))
    by (unfold sum_of; clear; induction (vout tx); cbn [foldr length] in *; lia).
  rewrite Hsum in Hv. specialize (Hv ltac:(intros o; unfold GetSerializeSize; cbn [Serialize CTxOut_serializable];
    unfold Serialize_CTxOut; rewrite length_app; change (length (Serialize_int64 (nValue o))) with 8%nat; lia)). lia.
Qed.

(** The value that a transaction takes from the unspent outputs. *)
Definition taken (m : gmap COutPoint Coin) (tx : CTransaction) : Z :=
  if IsCoinBase tx then 0 else value_in m (vin tx).

Lemma connect_tx_some h m tx : tx_valid tx -> coins_sound h m -> 0 <= h < 2 ^ 31 -> fresh_outputs m tx ->
  (IsCoinBase tx = false -> Forall (fun i => is_Some (m !! prevout i)) (vin tx)) ->
  exists m' l, connect_tx m tx h = Some (m', l) /\ total m' <= total m - taken m tx + value_of (vout tx) /\
    coins_sound h m' /\ forall o, is_Some (m' !! o) ->
      (is_Some (m !! o) /\ (IsCoinBase tx = false -> o ∉ prevout <$> vin tx)) \/
      exists k, 0 <= k < Z.of_nat (length (vout tx)) /\ o = mk_outpoint (tx_hash tx) k.
Proof.
  intros Htx Hs Hh Hf Hin. unfold connect_tx, taken.
  assert (Hm1 : exists m1 l, (if IsCoinBase tx then Some (m, []) else take_inputs m (vin tx)) = Some (m1, l) /\
    total m1 = total m - (if IsCoinBase tx then 0 else value_in m (vin tx)) /\
    forall o cn, m1 !! o = Some cn -> m !! o = Some cn /\ (IsCoinBase tx = false -> o ∉ prevout <$> vin tx)).
  { destruct (IsCoinBase tx); [exists m, []; split; [done|]; split; [lia|]; intros o cn Ho; split; [done|discriminate]|].
    destruct (take_inputs_some m (vin tx) (Hin eq_refl) (valid_nodup _ Htx)) as (m1 & l & E & Ht & Hsub). exists m1, l.
    split; [done|]. split; [done|]. intros o cn Ho. destruct (Hsub o cn Ho). now split. }
  destruct Hm1 as (m1 & l & -> & Ht1 & Hsub). cbn [mbind option_bind].
  assert (Hnone : forall o, m !! o = None -> m1 !! o = None).
  { intros o Ho. destruct (m1 !! o) as [cn|] eqn:E; [|done]. apply Hsub in E as [E _]. congruence. }
  destruct (put_outputs_some m1 tx h 0 (vout tx) (valid_values _ Htx) ltac:(lia)) as (m2 & -> & Ht2 & Hm2).
  { pose proof (outputs_count tx Htx). lia. }
  { intros k Hk. apply Hnone, Hf. lia. }
  cbn [mbind option_bind]. exists m2, l. split; [done|]. split; [lia|]. split.
  - intros o cn Ho. destruct (Hm2 o cn Ho) as [H|(_ & Hr & ->)]; [now apply (Hs o), Hsub|].
    split; [done|]. rewrite wrap_small by (lia || (unfold in_word; lia)). lia.
  - intros o [cn Ho]. destruct (Hm2 o cn Ho) as [H|[(k & Hk & ->) _]]; [left|right; exists k; split; [lia|done]].
    destruct (Hsub o cn H) as [Hm Hni]. split; [now exists cn|exact Hni].
Qed.

(** ** Repeated transactions *)

(** The outputs [gone] were spent.  A transaction of the rest of the block spends one of them, as the repetition of an
    earlier one does, or it makes outputs that are not there and were not spent. *)
Definition pending (m : gmap COutPoint Coin) (gone : list COutPoint) (tx : CTransaction) : Prop :=
  (IsCoinBase tx = false /\ exists i, i ∈ vin tx /\ prevout i ∈ gone) \/
  (fresh_outputs m tx /\ forall k, 0 <= k < Z.of_nat (length (vout tx)) -> mk_outpoint (tx_hash tx) k ∉ gone).
Definition absent (m : gmap COutPoint Coin) (gone : list COutPoint) : Prop := forall o, o ∈ gone -> m !! o = None.
Definition gone_after (gone : list COutPoint) (tx : CTransaction) : list COutPoint :=
  if IsCoinBase tx then gone else (prevout <$> vin tx) ++ gone.

(** Transactions with the same id are the same, and no coinbase transaction is repeated. *)
Fixpoint ids_tell (txs : list CTransaction) : Prop :=
  match txs with
  | [] => True
  | tx :: txs => (forall tx', tx' ∈ txs -> tx_hash tx' = tx_hash tx -> tx' = tx /\ IsCoinBase tx = false) /\ ids_tell txs
  end.

Lemma pending_fresh m gone tx : pending m gone tx -> absent m gone ->
  (IsCoinBase tx = false -> Forall (fun i => is_Some (m !! prevout i)) (vin tx)) ->
  fresh_outputs m tx /\ forall k, 0 <= k < Z.of_nat (length (vout tx)) -> mk_outpoint (tx_hash tx) k ∉ gone.
Proof.
  intros [[Hcb (i & Hi & Hg)]|H] Ha Hin; [|exact H]. exfalso. specialize (Hin Hcb). rewrite list.Forall_forall in Hin.
  destruct (Hin i Hi) as [cn E]. now rewrite (Ha _ Hg) in E.
Qed.

(** What a connected transaction leaves to the rest of the block. *)
Lemma pending_step m m' gone tx : tx_valid tx -> fresh_outputs m tx ->
  (forall k, 0 <= k < Z.of_nat (length (vout tx)) -> mk_outpoint (tx_hash tx) k ∉ gone) -> absent m gone ->
  (IsCoinBase tx = false -> Forall (fun i => is_Some (m !! prevout i)) (vin tx)) ->
  (forall o, is_Some (m' !! o) -> (is_Some (m !! o) /\ (IsCoinBase tx = false -> o ∉ prevout <$> vin tx)) \/
     exists k, 0 <= k < Z.of_nat (length (vout tx)) /\ o = mk_outpoint (tx_hash tx) k) ->
  absent m' (gone_after gone tx) /\
  forall tx', (tx_hash tx' = tx_hash tx -> tx' = tx /\ IsCoinBase tx = false) -> pending m gone tx' ->
    pending m' (gone_after gone tx) tx'.
Proof.
  intros Htx Hf Hclear Ha Hin Hm'. unfold gone_after. rewrite list.Forall_forall in Hin. split.
  - intros o Ho. apply eq_None_not_Some. intros Hsome. assert (Hcases : o ∈ gone \/ (IsCoinBase tx = false /\ o ∈ prevout <$> vin tx)).
    { destruct (IsCoinBase tx); [now left|]. apply elem_of_app in Ho as [?|?]; [now right|now left]. }
    destruct (Hm' o Hsome) as [[[cn E] Hni]|(k & Hk & ->)].
    + destruct Hcases as [Hg|[Hcb Hp]]; [now rewrite (Ha _ Hg) in E|now apply Hni].
    + destruct Hcases as [Hg|[Hcb Hp]]; [now apply (Hclear k)|]. apply list_elem_of_fmap in Hp as (i & Ei & Hi).
      destruct (Hin Hcb i Hi) as [cn E]. rewrite <- Ei, (Hf k Hk) in E. done.
  - intros tx' Hsame Hp. destruct (decide (tx_hash tx' = tx_hash tx)) as [Eh|Hne].
    { destruct (Hsame Eh) as [-> Hcb]. left. split; [done|]. rewrite Hcb. destruct (vin tx) as [|i l] eqn:E; [now destruct (valid_vin _ Htx)|].
      exists i. split; [now left|]. cbn [fmap list_fmap app]. now left. }
    destruct Hp as [[Hcb (i & Hi & Hg)]|[Hf' Hclear']]; [left; split; [done|]|right; split].
    + exists i. split; [done|]. destruct (IsCoinBase tx); [done|]. apply elem_of_app. now right.
    + intros k Hk. apply eq_None_not_Some. intros Hsome. destruct (Hm' _ Hsome) as [[[cn E] _]|(k' & _ & [= E _])]; [|done].
      now rewrite (Hf' k Hk) in E.
    + intros k Hk Hg. destruct (IsCoinBase tx); [now apply (Hclear' k)|].
      apply elem_of_app in Hg as [Hp|Hg]; [|now apply (Hclear' k)]. apply list_elem_of_fmap in Hp as (i & Ei & Hi).
      destruct (Hin eq_refl i Hi) as [cn E]. rewrite <- Ei, (Hf' k Hk) in E. done.
Qed.

(** ** Signature operations *)

Lemma GetOp2_data pc op data pc' : GetOp2 pc = Some (op, data, pc') -> (length data <= length pc)%nat.
Proof.
  unfold GetOp2, operand_size. destruct pc as [|o pc]; [done|]. destruct (o <=? OP_PUSHDATA4); [|intros [= _ <- _]; cbn; lia].
  assert (H : forall n q, (length q <= length pc)%nat ->
    (if u32 (Z.of_nat (length q)) <? n then None else Some (o, take (Z.to_nat n) q, drop (Z.to_nat n) q)) = Some (op, data, pc') ->
    (length data <= length (o :: pc))%nat).
  { intros n q Hq. destruct (_ <? n); [done|]. intros [= _ <- _]. rewrite length_take. cbn [length]. lia. }
  destruct (o <? OP_PUSHDATA1); [apply H; lia|]. destruct (o =? OP_PUSHDATA1).
  { destruct pc as [|n pc]; [done|]. apply H. cbn [length]. lia. }
  destruct (o =? OP_PUSHDATA2); (destruct (_ <? _)%nat; [done|]; apply H; rewrite length_drop; lia).
Qed.

Lemma last_push_length fuel pc data d : last_push fuel pc data = Some d ->
  (length d <= length data \/ length d <= length pc)%nat.
Proof.
  revert pc data. induction fuel as [|fuel IH]; intros pc data; cbn [last_push]; [intros [= <-]; lia|].
  destruct pc as [|b pc]; [intros [= <-]; lia|]. destruct (GetOp2 (b :: pc)) as [[[op d'] pc']|] eqn:E; [|done].
  destruct (OP_16 <? op); [done|]. intros H. pose proof (GetOp2_data _ _ _ _ E). pose proof (GetOp2_shorter _ _ _ _ E).
  apply IH in H. lia.
Qed.

(** What a pay-to-script-hash input adds. *)
Definition p2sh_input (m : gmap COutPoint Coin) (i : CTxIn) : Z :=
  let script := scriptPubKey (out (default coinEmpty (m !! prevout i))) in
  if IsPayToScriptHash script then GetSigOpCount_P2SH script (scriptSig i) else 0.
Definition p2sh_cost (m : gmap COutPoint Coin) (ins : list CTxIn) : Z := sum_of (p2sh_input m) ins.

Lemma p2sh_input_bounds m i : 20 * Z.of_nat (length (scriptSig i)) < 2 ^ 32 ->
  0 <= p2sh_input m i <= 20 * Z.of_nat (length (scriptSig i)).
Proof.
  intros H. unfold p2sh_input. cbv zeta. destruct (IsPayToScriptHash _) eqn:E; [|lia]. unfold GetSigOpCount_P2SH. rewrite E.
  cbn [negb]. destruct (last_push _ _ _) as [d|] eqn:Ed; [|lia]. apply last_push_length in Ed. cbn [length] in Ed.
  pose proof (GetSigOpCount_bounds d true ltac:(lia)). lia.
Qed.

Lemma p2sh_cost_bounds m ins : 20 * sum_of (fun i => Z.of_nat (length (scriptSig i))) ins < 2 ^ 32 ->
  0 <= p2sh_cost m ins <= 20 * sum_of (fun i => Z.of_nat (length (scriptSig i))) ins.
Proof.
  unfold p2sh_cost. induction ins as [|i ins IH]; [cbn; lia|]. rewrite !sum_of_cons.
  intros H. pose proof (lengths_nonneg scriptSig ins).
  pose proof (p2sh_input_bounds m i ltac:(lia)). specialize (IH ltac:(lia)). lia.
Qed.

Lemma inputs_scripts tx : tx_valid tx -> 20 * sum_of (fun i => Z.of_nat (length (scriptSig i))) (vin tx) <= 20000000 /\
  20 * script_bytes tx <= 20000000.
Proof.
  intros Htx. pose proof (valid_size _ Htx) as Hs. unfold MAX_LEGACY_BLOCK_SIZE in Hs.
  pose proof (script_bytes_size tx) as Hb. pose proof (lengths_nonneg scriptPubKey (vout tx)).
  unfold script_bytes in *. lia.
Qed.

(** ** The operations on the coins a cache stands for *)

Section Specs.
Context {V : Type} `{CoinsViewSpec V}.
Abbreviation cache := (CCoinsViewCache V).

Definition present (m : gmap COutPoint Coin) (i : CTxIn) : Prop := is_Some (m !! prevout i).

Lemma value_of_inputs_spec (c : cache) h ins acc : cache_ok c -> coins_sound h (coins c) ->
  Forall (present (coins c)) ins -> 0 <= acc -> acc + value_in (coins c) ins < 2 ^ 63 ->
  exists c', value_of_inputs c ins acc = (c', acc + value_in (coins c) ins) /\ becomes c c' (coins c).
Proof.
  intros Hc Hs Hex. revert c acc Hc Hs Hex. induction ins as [|i ins IH]; intros c acc Hc Hs Hex Ha Hlt; cbn [value_of_inputs].
  { exists c. split; [cbn; f_equal; lia|now apply becomes_refl]. }
  apply Forall_cons_1 in Hex as [[cn Hcn] Hex]. destruct (AccessCoin_some c _ cn Hc Hcn) as (c1 & -> & (Hok & Em & Eb) & _).
  destruct (Hs _ cn Hcn) as [Hr _]. unfold in_range in Hr.
  assert (Hval : value_in (coins c) (i :: ins) = nValue (out cn) + value_in (coins c) ins) by (cbn [value_in foldr]; now rewrite Hcn).
  assert (Hnn : 0 <= value_in (coins c) ins).
  { clear -Hex Hs. induction Hex as [|j ins [cn Hcn] _ IH]; cbn [value_in foldr]; [lia|]. rewrite Hcn. fold (value_in (coins c) ins).
    destruct (Hs _ _ Hcn) as [Hr _]. unfold in_range in Hr. cbn [default from_option id]. lia. }
  rewrite Hval in *. rewrite s64_small by lia. rewrite <- Em in Hex, Hs.
  destruct (IH c1 (acc + nValue (out cn)) Hok Hs Hex ltac:(lia) ltac:(rewrite Em; lia)) as (c2 & E2 & Hc2).
  rewrite E2, Em in *. exists c2. split; [f_equal; lia|]. now apply (becomes_trans c c1 c2 (coins c)).
Qed.

Lemma prev_heights_spec (c : cache) ins : cache_ok c -> Forall (present (coins c)) ins ->
  exists c', prev_heights c ins = (c', (fun i => Coins.nHeight (default coinEmpty (coins c !! prevout i))) <$> ins) /\
    becomes c c' (coins c).
Proof.
  intros Hc Hex. revert c Hc Hex. induction ins as [|i ins IH]; intros c Hc Hex; cbn [prev_heights fmap list_fmap].
  { exists c. split; [done|now apply becomes_refl]. }
  apply Forall_cons_1 in Hex as [[cn Hcn] Hex]. destruct (AccessCoin_some c _ cn Hc Hcn) as (c1 & -> & (Hok & Em & Eb) & _).
  rewrite <- Em in Hex. destruct (IH c1 Hok Hex) as (c2 & E2 & Hc2). rewrite E2, Em in *. exists c2. rewrite Hcn.
  split; [done|]. now apply (becomes_trans c c1 c2 (coins c)).
Qed.

Lemma p2sh_sigops_spec (c : cache) ins n : cache_ok c -> Forall (present (coins c)) ins -> 0 <= n ->
  n + 20 * sum_of (fun i => Z.of_nat (length (scriptSig i))) ins < 2 ^ 32 ->
  exists c', p2sh_sigops c ins n = inr (c', n + p2sh_cost (coins c) ins) /\ becomes c c' (coins c).
Proof.
  intros Hc Hex. revert c n Hc Hex. induction ins as [|i ins IH]; intros c n Hc Hex Hn Hlt; cbn [p2sh_sigops].
  { exists c. split; [unfold p2sh_cost, sum_of; cbn; do 2 f_equal; lia|now apply becomes_refl]. }
  apply Forall_cons_1 in Hex as [[cn Hcn] Hex]. destruct (AccessCoin_some c _ cn Hc Hcn) as (c1 & -> & (Hok & Em & Eb) & ->).
  pose proof (lengths_nonneg scriptSig ins) as Hnn. rewrite sum_of_cons in Hlt. rewrite <- Em in Hex.
  pose proof (p2sh_input_bounds (coins c) i ltac:(lia)) as Hi.
  assert (Ei : (if IsPayToScriptHash (scriptPubKey (out cn)) then u32 (n + GetSigOpCount_P2SH (scriptPubKey (out cn)) (scriptSig i)) else n)
    = n + p2sh_input (coins c) i).
  { unfold p2sh_input in *. rewrite Hcn in *. cbn [default from_option id] in *. destruct (IsPayToScriptHash _); [|lia].
    apply u32_small. unfold in_word. lia. }
  cbv zeta. rewrite Ei. assert (Hn' : 0 <= n + p2sh_input (coins c) i) by (clear -Hi Hn; lia).
  destruct (IH c1 _ Hok Hex Hn' ltac:(lia)) as (c2 & E2 & Hc2).
  rewrite E2, Em in *. exists c2. split; [|now apply (becomes_trans c c1 c2 (coins c))].
  unfold p2sh_cost. rewrite sum_of_cons. do 2 f_equal. lia.
Qed.
End Specs.

(** ** What is checked *)

Section Checked.
Context (script_error : CScriptCheck -> option string) (mapBlockIndex : gmap (list Z) nat) (s : store) (cx : tx_context).
(** The block that is connected, the median time of its past. *)
Context (b : CBlockIndex) (mt : Z).

Definition passes (check : CScriptCheck) : Prop := script_error check = None.

(** The script checks of a transaction. *)
Fixpoint checks_from (m : gmap COutPoint Coin) (tx : CTransaction) (i : nat) (ins : list CTxIn) : list CScriptCheck :=
  match ins with
  | [] => []
  | txin :: ins =>
      mk_script_check (scriptPubKey (out (default coinEmpty (m !! prevout txin)))) tx i (cx_flags cx)
      :: checks_from m tx (S i) ins
  end.
(** Where they are made: at once, or by other threads in the end. *)
Definition inline_ok (m : gmap COutPoint Coin) (tx : CTransaction) : Prop :=
  cx_fScriptChecks cx = true -> cx_threads cx = false -> Forall passes (checks_from m tx 0 (vin tx)).
Definition deferred (m : gmap COutPoint Coin) (tx : CTransaction) : list CScriptCheck :=
  if negb (IsCoinBase tx) && cx_fScriptChecks cx && cx_threads cx then checks_from m tx 0 (vin tx) else [].

(** The relative lock times of the inputs. *)
Definition locks_ok (m : gmap COutPoint Coin) (tx : CTransaction) : Prop :=
  2 <= u32 (tx_version tx) -> Z.testbit (cx_nLockTimeFlags cx) 0 = true ->
  Forall2 (lock_satisfied s (cx_pindex cx) b mt) (vin tx)
    ((fun i => Coins.nHeight (default coinEmpty (m !! prevout i))) <$> vin tx).

(** The signature operations that are counted. *)
Definition sigop_cost (m : gmap COutPoint Coin) (tx : CTransaction) : Z :=
  tx_sigops tx + (if cx_fStrictPayToScriptHash cx && negb (IsCoinBase tx) then p2sh_cost m (vin tx) else 0).
Definition sigop_limit : Z := MaxBlockSigOps (cx_fDIP0001Active cx).

(** A transaction that may spend its inputs, after [n] signature operations. *)
Definition spend_ok (m : gmap COutPoint Coin) (n : Z) (tx : CTransaction) : Prop :=
  n + sigop_cost m tx <= sigop_limit /\
  (IsCoinBase tx = false -> inputs_valid m (cx_nHeight cx) tx /\ locks_ok m tx /\ inline_ok m tx).
Definition fee (m : gmap COutPoint Coin) (tx : CTransaction) : Z :=
  if IsCoinBase tx then 0 else value_in m (vin tx) - value_of (vout tx).

(** All transactions, each on the coins that the ones before it leave. *)
Fixpoint txs_ok (m : gmap COutPoint Coin) (n : Z) (txs : list CTransaction) : Prop :=
  match txs with
  | [] => True
  | tx :: txs => spend_ok m n tx /\
      match connect_tx m tx (cx_nHeight cx) with
      | Some (m', _) => txs_ok m' (n + sigop_cost m tx) txs
      | None => False
      end
  end.
Fixpoint block_fees (m : gmap COutPoint Coin) (txs : list CTransaction) : Z :=
  match txs with
  | [] => 0
  | tx :: txs => fee m tx + match connect_tx m tx (cx_nHeight cx) with Some (m', _) => block_fees m' txs | None => 0 end
  end.
Fixpoint block_deferred (m : gmap COutPoint Coin) (txs : list CTransaction) : list CScriptCheck :=
  match txs with
  | [] => []
  | tx :: txs => deferred m tx ++ match connect_tx m tx (cx_nHeight cx) with Some (m', _) => block_deferred m' txs | None => [] end
  end.

(** ** The loop makes these checks *)

Context (Hwf : wf_store s) (Hb : s !! cx_pindex cx = Some b) (Hheight : cx_nHeight cx = Chain.nHeight b).
Context (q : nat) (Hq : pprev b = Some q) (Hmt : GetMedianTimePast s q = Some mt) (Hpos : 0 <= mt).
Context {V : Type} `{CoinsViewSpec V}.
Abbreviation cache := (CCoinsViewCache V).

(** The best block of the cache is the one before. *)
Definition at_parent (c : cache) : Prop := mapBlockIndex !! best c = Some q.

Lemma GetSpendHeight_spec (c : cache) : cache_ok c -> at_parent c ->
  exists c', GetSpendHeight mapBlockIndex s c = Some (c', cx_nHeight cx) /\ becomes c c' (coins c).
Proof.
  intros Hc Hp. unfold GetSpendHeight. destruct (cache_GetBestBlock_spec c Hc) as [Hbe E].
  destruct (cache_GetBestBlock c) as [c1 h]. cbn [fst snd] in *. subst h. rewrite Hp. cbn [mbind option_bind].
  pose proof (eo_prev _ _ _ (Hwf _ b Hb)) as Hprev. rewrite Hq in Hprev. destruct Hprev as (bq & -> & Eh).
  cbn [mbind option_bind]. exists c1. split; [|done]. now rewrite Hheight, Eh.
Qed.

Lemma failed_check_invalid state check err : mode (failed_check script_error state check err) <> MODE_VALID.
Proof. unfold failed_check. destruct (_ && _); apply DoS_invalid. Qed.

Lemma script_loop_spec (c : cache) tx pv i ins state : cache_ok c -> Forall (present (coins c)) ins ->
  exists c' r, script_loop script_error tx (cx_flags cx) pv c i ins state = inr (c', r) /\ becomes c c' (coins c) /\
    match r with
    | inr l => if pv : bool then l = checks_from (coins c) tx i ins
               else l = [] /\ Forall passes (checks_from (coins c) tx i ins)
    | inl st => pv = false /\ mode st <> MODE_VALID /\ ~ Forall passes (checks_from (coins c) tx i ins)
    end.
Proof.
  intros Hc Hex. revert c i Hc Hex. induction ins as [|txin ins IH]; intros c i Hc Hex; cbn [script_loop checks_from].
  { exists c, (inr []). split; [done|]. split; [now apply becomes_refl|]. destruct pv; [done|]. split; [done|constructor]. }
  apply Forall_cons_1 in Hex as [[cn Hcn] Hex]. destruct (AccessCoin_some c _ cn Hc Hcn) as (c1 & -> & (Hok & Em & Eb) & ->).
  rewrite Hcn. cbn [default from_option id]. cbv zeta. rewrite <- Em in Hex.
  destruct (IH c1 (S i) Hok Hex) as (c2 & r & E2 & Hc2 & Hr). rewrite Em in Hc2, Hr.
  assert (Hbec : becomes c c2 (coins c)) by now apply (becomes_trans c c1 c2 (coins c)).
  destruct pv.
  - rewrite E2. cbn [mbind throws_bind]. eexists c2, _. split; [reflexivity|]. split; [done|].
    destruct r as [st|l]; [now destruct Hr|]. now rewrite Hr.
  - destruct (script_error _) as [err|] eqn:Ee.
    + eexists c1, (inl _). split; [reflexivity|]. split; [done|]. split; [done|]. split; [apply failed_check_invalid|].
      intros [Hx _]%Forall_cons_1. unfold passes in Hx. congruence.
    + exists c2, r. split; [exact E2|]. split; [done|]. destruct r as [st|l].
      * destruct Hr as (_ & Hst & Hn). split; [done|]. split; [done|]. now intros [_ Hx]%Forall_cons_1.
      * destruct Hr as [-> Hl]. split; [done|]. now constructor.
Qed.

Lemma inputs_present m h tx : inputs_valid m h tx -> Forall (present m) (vin tx).
Proof. intros [Hf _]. eapply list.Forall_impl; [exact Hf|]. intros i (cn & E & _). now exists cn. Qed.

Lemma CheckInputs_spec (c : cache) tx state : cache_ok c -> at_parent c -> tx_valid tx -> IsCoinBase tx = false ->
  exists c' r, CheckInputs script_error mapBlockIndex s tx state c (cx_fScriptChecks cx) (cx_flags cx) (cx_threads cx) =
      Some (inr (c', r)) /\ becomes c c' (coins c) /\
    match r with
    | inr l => (inputs_valid (coins c) (cx_nHeight cx) tx /\ inline_ok (coins c) tx) /\ l = deferred (coins c) tx
    | inl st => mode st <> MODE_VALID /\ ~ (inputs_valid (coins c) (cx_nHeight cx) tx /\ inline_ok (coins c) tx)
    end.
Proof.
  intros Hc Hp Htx Hcb. unfold CheckInputs, inline_ok, deferred. rewrite Hcb. cbn [negb andb].
  destruct (GetSpendHeight_spec c Hc Hp) as (c1 & -> & (Hok & Em & Eb)). cbn [of_option mbind run_bind].
  destruct (CheckTxInputs_spec c1 tx state (cx_nHeight cx) Hok Htx Hcb) as (c2 & ok & st & -> & Hc2 & Hr).
  cbn [of_throws mbind run_bind]. rewrite Em in Hc2, Hr.
  assert (Hbec : becomes c c2 (coins c)) by now apply (becomes_trans c c1 c2 (coins c)).
  destruct ok; cbn [negb]; cycle 1.
  { eexists c2, (inl st). split; [reflexivity|]. split; [done|]. destruct Hr as [Hst Hn]. split; [done|tauto]. }
  destruct Hr as [-> Hv]. destruct (cx_fScriptChecks cx); cbn [andb].
  2:{ eexists c2, (inr []). split; [reflexivity|]. split; [done|]. split; [|done]. split; [done|]. discriminate. }
  pose proof (inputs_present _ _ _ Hv) as Hex. destruct Hbec as (Hok2 & Em2 & Eb2). rewrite <- Em2 in Hex.
  destruct (script_loop_spec c2 tx (cx_threads cx) 0 (vin tx) state Hok2 Hex) as (c3 & r & -> & Hc3 & Hr).
  rewrite Em2 in Hc3, Hr. eexists c3, r. split; [reflexivity|].
  split; [apply (becomes_trans c c2 c3 (coins c)); [split; [exact Hok2|split; [exact Em2|exact Eb2]]|exact Hc3]|].
  destruct r as [st|l].
  - destruct Hr as (-> & Hst & Hn). split; [done|]. intros [_ Hf]. now apply Hn, Hf.
  - destruct (cx_threads cx); [split; [|exact Hr]; split; [done|discriminate]|].
    destruct Hr as [-> Hf]. split; [|done]. now split.
Qed.

Lemma HaveInputs_spec (c : cache) tx : cache_ok c -> IsCoinBase tx = false ->
  exists c' r, HaveInputs c tx = (c', r) /\ becomes c c' (coins c) /\ (r = true <-> Forall (present (coins c)) (vin tx)).
Proof.
  intros Hc Hcb. unfold HaveInputs. rewrite Hcb. destruct (have_all_spec c (vin tx) Hc) as (c1 & -> & Hc1).
  eexists c1, _. split; [reflexivity|]. split; [done|]. rewrite forallb_forall, list.Forall_forall.
  setoid_rewrite list_elem_of_In. unfold present. split; intros Hf i Hi; specialize (Hf i Hi); now apply bool_decide_eq_true in Hf || now apply bool_decide_true.
Qed.

(** Distinct inputs are worth at most the unspent money. *)
Lemma value_in_bounds h m tx : tx_valid tx -> coins_sound h m -> Forall (present m) (vin tx) ->
  0 <= value_in m (vin tx) <= total m.
Proof.
  intros Htx Hs Hex. destruct (take_inputs_some m (vin tx) Hex (valid_nodup _ Htx)) as (m' & l & _ & Ht & Hsub).
  pose proof (total_nonneg h m' ltac:(intros o cn Ho; apply (Hs o), (Hsub o cn Ho))) as Hnn. split; [|lia].
  clear -Hex Hs. induction Hex as [|i ins [cn Hcn] _ IH]; cbn [value_in foldr]; [lia|]. rewrite Hcn. fold (value_in m ins).
  destruct (Hs _ _ Hcn) as [Hr _]. unfold in_range in Hr. cbn [default from_option id]. lia.
Qed.

(** What the loop keeps: the money that is there, with the fees and the coinbase values to come. *)
Definition money_ok (m : gmap COutPoint Coin) (fees : Z) : Prop :=
  coins_sound (Chain.nHeight b) m /\ 0 <= fees /\ total m + fees <= SAFE_SUM.

Lemma locks_spec m tx : coins_sound (Chain.nHeight b) m -> Forall (present m) (vin tx) ->
  exists r, SequenceLocks s tx (cx_nLockTimeFlags cx)
      ((fun i => Coins.nHeight (default coinEmpty (m !! prevout i))) <$> vin tx) (cx_pindex cx) = Some r /\
    (r = true <-> locks_ok m tx).
Proof.
  intros Hs Hex. pose proof (SequenceLocks_spec s tx (cx_nLockTimeFlags cx)
    ((fun i => Coins.nHeight (default coinEmpty (m !! prevout i))) <$> vin tx) (cx_pindex cx) b q mt Hwf Hb Hq Hmt Hpos) as HL.
  apply HL; [now rewrite length_fmap|]. apply list.Forall_fmap. eapply list.Forall_impl; [exact Hex|].
  intros i [cn Hcn]. cbn. rewrite Hcn. apply (Hs _ _ Hcn).
Qed.

(** The signature operations of pay-to-script-hash inputs. *)
Lemma p2sh_step (c : cache) tx n : cache_ok c -> tx_valid tx -> IsCoinBase tx = false ->
  Forall (present (coins c)) (vin tx) -> 0 <= n <= sigop_limit ->
  let k := if cx_fStrictPayToScriptHash cx then p2sh_cost (coins c) (vin tx) else 0 in
  exists c', (if cx_fStrictPayToScriptHash cx
              then '(c, k) ← GetP2SHSigOpCount tx c; mret (c, u32 (n + k)) else mret (c, n)) = inr (c', n + k) /\
    becomes c c' (coins c) /\ 0 <= k.
Proof.
  intros Hc Htx Hcb Hex Hn. cbv zeta. destruct (cx_fStrictPayToScriptHash cx).
  2:{ exists c. split; [cbn; do 2 f_equal; lia|]. split; [now apply becomes_refl|lia]. }
  destruct (inputs_scripts tx Htx) as [Hl _]. unfold GetP2SHSigOpCount. rewrite Hcb.
  destruct (p2sh_sigops_spec c (vin tx) 0 Hc Hex ltac:(lia) ltac:(lia)) as (c1 & -> & Hc1). cbn [mbind throws_bind].
  pose proof (p2sh_cost_bounds (coins c) (vin tx) ltac:(lia)) as Hk. rewrite Z.add_0_l. exists c1.
  assert (sigop_limit <= 40000) by (unfold sigop_limit; destruct (cx_fDIP0001Active cx); now vm_compute).
  rewrite u32_small by (unfold in_word; lia). split; [done|]. split; [done|lia].
Qed.

Lemma check_spending_spec (c : cache) tx state t : cache_ok c -> at_parent c -> tx_valid tx -> IsCoinBase tx = false ->
  money_ok (coins c) (nFees t) -> 0 <= nSigOps t <= sigop_limit ->
  let k := if cx_fStrictPayToScriptHash cx then p2sh_cost (coins c) (vin tx) else 0 in
  let ok := nSigOps t + k <= sigop_limit /\ inputs_valid (coins c) (cx_nHeight cx) tx /\
            locks_ok (coins c) tx /\ inline_ok (coins c) tx in
  exists c' r, check_spending script_error mapBlockIndex s cx c tx state t = Some (inr (c', r)) /\ becomes c c' (coins c) /\
    match r with
    | inr t' => ok /\ t' = mk_totals (nFees t + fee (coins c) tx) (nSigOps t + k) (control t ++ deferred (coins c) tx) (vtxundo t)
    | inl st => mode st <> MODE_VALID /\ ~ ok
    end.
Proof.
  intros Hc Hp Htx Hcb (Hs & Hfees & Hmoney) Hn k ok. unfold check_spending.
  destruct (HaveInputs_spec c tx Hc Hcb) as (c1 & have & -> & Hc1 & Hhave). destruct have; cbn [negb]; cycle 1.
  { eexists c1, (inl _). split; [reflexivity|]. split; [done|]. split; [apply DoS_invalid|].
    intros (_ & Hv & _). apply inputs_present in Hv. now apply Hhave in Hv. }
  pose proof (proj1 Hhave eq_refl) as Hex. destruct Hc1 as (Hok1 & Em1 & Eb1).
  destruct (prev_heights_spec c1 (vin tx) Hok1 ltac:(now rewrite Em1)) as (c2 & -> & Hc2). rewrite Em1 in Hc2 |- *.
  assert (Hb2 : becomes c c2 (coins c)) by (apply (becomes_trans c c1 c2 (coins c)); [split; [exact Hok1|split; [exact Em1|exact Eb1]]|exact Hc2]).
  destruct (locks_spec (coins c) tx Hs Hex) as (final & -> & Hlocks). cbn [of_option mbind run_bind].
  destruct final; cbn [negb]; cycle 1.
  { eexists c2, (inl _). split; [reflexivity|]. split; [done|]. split; [apply DoS_invalid|].
    intros (_ & _ & Hl & _). now apply Hlocks in Hl. }
  destruct Hb2 as (Hok2 & Em2 & Eb2).
  destruct (p2sh_step c2 tx (nSigOps t) Hok2 Htx Hcb ltac:(now rewrite Em2) Hn) as (c3 & -> & Hc3 & Hk). rewrite Em2 in Hc3, Hk |- *.
  fold k in Hk |- *. cbn [of_throws mbind run_bind].
  assert (Hb3 : becomes c c3 (coins c)) by (apply (becomes_trans c c2 c3 (coins c)); [split; [exact Hok2|split; [exact Em2|exact Eb2]]|exact Hc3]).
  assert (Htoo : cx_fStrictPayToScriptHash cx && too_many_sigops cx (nSigOps t + k) = (sigop_limit <? nSigOps t + k)).
  { unfold too_many_sigops. fold sigop_limit. subst k. destruct (cx_fStrictPayToScriptHash cx); [done|]. cbn [andb]. symmetry. apply Z.ltb_ge. lia. }
  rewrite Htoo. destruct (Z.ltb_spec sigop_limit (nSigOps t + k)) as [Hso|Hso].
  { eexists c3, (inl _). split; [reflexivity|]. split; [done|]. split; [apply DoS_invalid|]. intros (Hle & _). lia. }
  destruct Hb3 as (Hok3 & Em3 & Eb3). pose proof (value_in_bounds _ (coins c) tx Htx Hs Hex) as Hvin.
  unfold GetValueIn. rewrite Hcb. destruct (value_of_inputs_spec c3 (Chain.nHeight b) (vin tx) 0 Hok3) as (c4 & -> & Hc4);
    [now rewrite Em3|now rewrite Em3|lia|rewrite Em3; unfold SAFE_SUM in Hmoney; lia|].
  rewrite Em3, Z.add_0_l in *.
  destruct (value_out_spec (vout tx) 0 in_range_0) as [Eo _]. pose proof (valid_values _ Htx) as Hvals.
  pose proof (valid_total _ Htx) as Htot. pose proof (value_of_nonneg _ Hvals) as Hvo.
  unfold GetValueOut. rewrite Eo by (split; [done|lia]). rewrite Z.add_0_l. cbn [of_throws mbind run_bind].
  assert (Hb4 : becomes c c4 (coins c)) by (apply (becomes_trans c c3 c4 (coins c)); [split; [exact Hok3|split; [exact Em3|exact Eb3]]|exact Hc4]).
  destruct Hb4 as (Hok4 & Em4 & Eb4).
  destruct (CheckInputs_spec c4 tx state Hok4 ltac:(unfold at_parent; now rewrite Eb4) Htx Hcb) as (c5 & r & -> & Hc5 & Hr).
  rewrite Em4 in Hc5, Hr. cbn [mbind run_bind]. eexists c5, _. split; [reflexivity|].
  split; [apply (becomes_trans c c4 c5 (coins c)); [split; [exact Hok4|split; [exact Em4|exact Eb4]]|exact Hc5]|].
  destruct r as [st|l].
  - destruct Hr as [Hst Hno]. split; [done|]. intros (_ & Hv & _ & Hi). now apply Hno.
  - destruct Hr as [[Hv Hi] ->]. split; [split; [lia|]; split; [done|]; split; [now apply Hlocks|done]|].
    unfold fee. rewrite Hcb. rewrite s64_small; [done|]. unfold SAFE_SUM, MAX_MONEY, COIN in *. lia.
Qed.

Lemma legacy_exact tx : tx_valid tx -> GetLegacySigOpCount tx = tx_sigops tx /\ 0 <= tx_sigops tx <= 20000000.
Proof.
  intros Htx. destruct (inputs_scripts tx Htx) as [_ Hl]. split; [apply GetLegacySigOpCount_exact; lia|].
  pose proof (tx_sigops_bounds tx). pose proof (tx_sigops_le tx ltac:(lia)). lia.
Qed.

Lemma sigop_cost_nonneg m tx : tx_valid tx -> tx_sigops tx <= sigop_cost m tx.
Proof.
  intros Htx. destruct (inputs_scripts tx Htx) as [Hl _]. unfold sigop_cost.
  pose proof (p2sh_cost_bounds m (vin tx) ltac:(lia)). destruct (_ && _); lia.
Qed.

Lemma connect_one_spec (c : cache) i tx state t : cache_ok c -> at_parent c -> tx_valid tx ->
  (spend_ok (coins c) (nSigOps t) tx -> fresh_outputs (coins c) tx) ->
  0 <= Chain.nHeight b < 2 ^ 31 -> money_ok (coins c) (nFees t) -> 0 <= nSigOps t <= sigop_limit ->
  exists c' r, connect_one script_error mapBlockIndex s cx c i tx state t = Some (inr (c', r)) /\
    match r with
    | inr t' => spend_ok (coins c) (nSigOps t) tx /\
        exists m' u, connect_tx (coins c) tx (cx_nHeight cx) = Some (m', u) /\ becomes c c' m' /\
          t' = mk_totals (nFees t + fee (coins c) tx) (nSigOps t + sigop_cost (coins c) tx)
                 (control t ++ deferred (coins c) tx) (if (0 <? i)%nat then vtxundo t ++ [u] else vtxundo t)
    | inl st => mode st <> MODE_VALID /\ ~ spend_ok (coins c) (nSigOps t) tx /\ becomes c c' (coins c)
    end.
Proof.
  intros Hc Hp Htx Hf Hh Hmoney Hn. unfold connect_one. destruct (legacy_exact tx Htx) as [-> Hlegacy].
  pose proof (sigop_cost_nonneg (coins c) tx Htx) as Hcost.
  assert (Hlim : sigop_limit <= 40000) by (unfold sigop_limit; destruct (cx_fDIP0001Active cx); now vm_compute).
  rewrite u32_small by (unfold in_word; lia). cbv zeta.
  change (too_many_sigops cx (nSigOps t + tx_sigops tx)) with (sigop_limit <? nSigOps t + tx_sigops tx).
  destruct (Z.ltb_spec sigop_limit (nSigOps t + tx_sigops tx)) as [Hso|Hso].
  { eexists c, (inl _). split; [reflexivity|]. split; [apply DoS_invalid|]. split; [intros [Hle _]; lia|now apply becomes_refl]. }
  set (t0 := mk_totals (nFees t) (nSigOps t + tx_sigops tx) (control t) (vtxundo t)).
  assert (Hspend : exists c1 r, (if IsCoinBase tx then mret (c, inr t0) else check_spending script_error mapBlockIndex s cx c tx state t0)
      = Some (inr (c1, r)) /\ becomes c c1 (coins c) /\
    match r with
    | inr t' => spend_ok (coins c) (nSigOps t) tx /\ t' = mk_totals (nFees t + fee (coins c) tx)
        (nSigOps t + sigop_cost (coins c) tx) (control t ++ deferred (coins c) tx) (vtxundo t)
    | inl st => mode st <> MODE_VALID /\ ~ spend_ok (coins c) (nSigOps t) tx
    end).
  { unfold spend_ok, sigop_cost, deferred, fee in *. destruct (IsCoinBase tx) eqn:Ecb; cbn [negb andb] in *; rewrite ?andb_false_r, ?andb_true_r in *.
    - exists c, (inr t0). split; [done|]. split; [now apply becomes_refl|]. rewrite app_nil_r, !Z.add_0_r. split; [|done]. split; [lia|done].
    - destruct (check_spending_spec c tx state t0 Hc Hp Htx Ecb Hmoney ltac:(cbn; lia)) as (c1 & r & E & Hc1 & Hr).
      exists c1, r. split; [exact E|]. split; [done|]. cbn [nFees nSigOps control vtxundo t0] in Hr.
      unfold fee, deferred in Hr. rewrite Ecb in Hr. cbn [negb andb] in Hr. destruct r as [st|t'].
      + destruct Hr as [Hst Hno]. split; [done|]. intros [Hle Hrest]. apply Hno. split; [lia|now apply Hrest].
      + destruct Hr as [(Hle & Hrest) ->]. split; [split; [lia|now intros _]|]. f_equal. lia. }
  destruct Hspend as (c1 & r & -> & (Hok1 & Em1 & Eb1) & Hr). cbn [mbind run_bind]. destruct r as [st|t1].
  { eexists c1, (inl st). split; [reflexivity|]. split; [apply Hr|]. split; [apply Hr|]. now split. }
  destruct Hr as [Hsp ->]. destruct (connect_tx_some (cx_nHeight cx) (coins c) tx Htx) as (m' & u & E & _).
  { rewrite Hheight. apply Hmoney. } { rewrite Hheight. lia. } { now apply Hf. }
  { intros Ecb. destruct Hsp as [_ Hsp]. destruct (Hsp Ecb) as (Hv & _). exact (inputs_present _ _ _ Hv). }
  rewrite <- Em1 in E. destruct (UpdateCoins_spec c1 tx (cx_nHeight cx) m' u Hok1 E) as (c2 & -> & Hc2). rewrite Em1 in E.
  cbn [of_throws mbind run_bind nFees nSigOps control vtxundo]. eexists c2, (inr _). split; [reflexivity|]. split; [exact Hsp|].
  exists m', u. split; [exact E|]. split; [|done]. apply (becomes_trans c c1 c2 (coins c)); [now split|exact Hc2].
Qed.

(** The value that coinbase transactions create. *)
Definition created (tx : CTransaction) : Z := if IsCoinBase tx then value_of (vout tx) else 0.

(** One transaction moves money, or creates it if it is a coinbase. *)
Lemma connect_tx_money m tx fees : tx_valid tx -> coins_sound (Chain.nHeight b) m -> 0 <= Chain.nHeight b < 2 ^ 31 ->
  0 <= fees -> fresh_outputs m tx -> (IsCoinBase tx = false -> inputs_valid m (cx_nHeight cx) tx) ->
  exists m' u, connect_tx m tx (cx_nHeight cx) = Some (m', u) /\ coins_sound (Chain.nHeight b) m' /\ 0 <= fees + fee m tx /\
    total m' + fee m tx <= total m + created tx /\
    forall o, is_Some (m' !! o) -> (is_Some (m !! o) /\ (IsCoinBase tx = false -> o ∉ prevout <$> vin tx)) \/
      exists k, 0 <= k < Z.of_nat (length (vout tx)) /\ o = mk_outpoint (tx_hash tx) k.
Proof.
  intros Htx Hs Hh Hfees Hf Hin. rewrite Hheight in *.
  destruct (connect_tx_some (Chain.nHeight b) m tx Htx Hs Hh Hf) as (m' & u & E & Ht & Hs' & Hfresh).
  { intros Ecb. exact (inputs_present _ _ _ (Hin Ecb)). }
  exists m', u. split; [exact E|]. split; [exact Hs'|]. unfold fee, created, taken in *.
  pose proof (value_of_nonneg _ (valid_values _ Htx)). destruct (IsCoinBase tx); [split; [lia|split; [lia|exact Hfresh]]|].
  destruct (Hin eq_refl) as [_ Hv]. split; [lia|]. split; [lia|exact Hfresh].
Qed.

Lemma connect_all_spec (c : cache) i txs state t gone : cache_ok c -> at_parent c -> Forall tx_valid txs ->
  ids_tell txs -> Forall (pending (coins c) gone) txs -> absent (coins c) gone ->
  0 <= Chain.nHeight b < 2 ^ 31 -> coins_sound (Chain.nHeight b) (coins c) -> 0 <= nFees t ->
  total (coins c) + nFees t + sum_of created txs <= SAFE_SUM -> 0 <= nSigOps t <= sigop_limit ->
  exists c' r, connect_all script_error mapBlockIndex s cx c i txs state t = Some (inr (c', r)) /\
    match r with
    | inr t' => txs_ok (coins c) (nSigOps t) txs /\
        exists m' us, connect_map (coins c) txs (cx_nHeight cx) = Some (m', us) /\ becomes c c' m' /\
          nFees t' = nFees t + block_fees (coins c) txs /\ control t' = control t ++ block_deferred (coins c) txs /\
          vtxundo t' = vtxundo t ++ drop (1 - i) us /\
          coins_sound (Chain.nHeight b) m' /\ 0 <= nFees t' /\
          total m' + nFees t' <= total (coins c) + nFees t + sum_of created txs
    | inl st => mode st <> MODE_VALID /\ ~ txs_ok (coins c) (nSigOps t) txs
    end.
Proof.
  intros Hc Hp Htxs. revert c i t gone Hc Hp. induction Htxs as [|tx txs Htx Htxs IH];
    intros c i t gone Hc Hp Hids Hpend Habs Hh Hs Hfees Hmoney Hn; cbn [connect_all txs_ok block_fees block_deferred connect_map].
  { exists c, (inr t). split; [done|]. split; [done|]. exists (coins c), []. split; [done|]. split; [now apply becomes_refl|].
    rewrite drop_nil, !app_nil_r. split; [lia|]. split; [done|]. split; [done|]. split; [done|]. split; [done|]. unfold sum_of. cbn. lia. }
  rewrite sum_of_cons in *. destruct Hids as [Htell Hids]. apply Forall_cons_1 in Hpend as [Hpd Hpend].
  assert (Hin : spend_ok (coins c) (nSigOps t) tx -> IsCoinBase tx = false -> Forall (fun i => is_Some (coins c !! prevout i)) (vin tx)).
  { intros Hsp Ecb. destruct (proj2 Hsp Ecb) as (Hv & _). exact (inputs_present _ _ _ Hv). }
  assert (Hcr : forall tx, tx_valid tx -> 0 <= created tx).
  { intros tx' Htx'. unfold created. pose proof (value_of_nonneg _ (valid_values _ Htx')). destruct (IsCoinBase tx'); lia. }
  assert (Hsum : 0 <= sum_of created txs).
  { clear -Htxs Hcr. unfold sum_of. induction Htxs as [|tx' txs' H' _ IH]; cbn [foldr]; [lia|]. pose proof (Hcr tx' H'). lia. }
  pose proof (Hcr tx Htx) as Hcr0.
  destruct (connect_one_spec c i tx state t Hc Hp Htx) as (c1 & r & -> & Hr);
    [intros Hsp; exact (proj1 (pending_fresh _ _ _ Hpd Habs (Hin Hsp)))|done|split; [done|split; [done|lia]]|done|].
  cbn [mbind run_bind]. destruct r as [st|t1].
  { exists c1, (inl st). split; [done|]. destruct Hr as (Hst & Hno & _). split; [done|tauto]. }
  destruct Hr as (Hsp & m1 & u & E & (Hok1 & Em1 & Eb1) & ->).
  destruct (pending_fresh _ _ _ Hpd Habs (Hin Hsp)) as [Hf Hclear].
  destruct (connect_tx_money (coins c) tx (nFees t) Htx Hs Hh Hfees Hf) as (m1' & u' & E' & Hs1 & Hf1 & Hm1 & Hfr1);
    [intros Ecb; now apply (proj2 Hsp)|].
  rewrite E in E'. injection E' as <- <-. destruct (pending_step _ _ _ _ Htx Hf Hclear Habs (Hin Hsp) Hfr1) as [Habs1 Hpend1]. rewrite E. cbn [mbind option_bind].
  pose proof (sigop_cost_nonneg (coins c) tx Htx) as Hcost. pose proof (tx_sigops_bounds tx) as Hsig. destruct Hsp as [Hle Hsp'].
  set (t1 := mk_totals _ _ _ _). specialize (IH c1 (S i) t1 (gone_after gone tx) Hok1). rewrite Em1 in IH.
  destruct IH as (c2 & r & -> & Hr);
    [unfold at_parent; now rewrite Eb1|done| |done|done|done|exact Hf1|cbn [t1 nFees]; lia|cbn [t1 nSigOps]; lia|].
  { rewrite list.Forall_forall in Hpend |- *. intros tx' H'. now apply Hpend1, Hpend; [apply Htell|]. }
  exists c2, r. split; [done|]. destruct r as [st|t2].
  { destruct Hr as [Hst Hno]. split; [done|]. cbn [t1 nSigOps] in Hno. tauto. }
  destruct Hr as (Hrest & m2 & us & E2 & Hc2 & Ef & Ec & Eu & Hs2 & Hf2 & Hm2).
  split; [split; [now split|exact Hrest]|]. exists m2, (u :: us). rewrite E2. cbn [mbind option_bind].
  split; [done|]. split; [apply (becomes_trans c c1 c2 m1); [now split|exact Hc2]|].
  cbn [t1 nFees control vtxundo] in *. split; [lia|]. split; [now rewrite Ec, <- app_assoc|].
  split; [|split; [exact Hs2|split; [exact Hf2|lia]]].
  rewrite Eu. destruct i as [|i]; [done|]. cbn [Nat.ltb Nat.leb]. now rewrite <- app_assoc.
Qed.
End Checked.

(** ** Scripts that other threads check *)

Lemma wait_spec script_error cx m txs :
  wait script_error cx (block_deferred cx m txs) = true <-> Forall (passes script_error) (block_deferred cx m txs).
Proof.
  assert (Hall : forall l, forallb (fun check => bool_decide (script_error check = None)) l = true <-> Forall (passes script_error) l).
  { intros l. induction l as [|check l IH]; cbn [forallb]; [split; [constructor|done]|].
    now rewrite andb_true_iff, bool_decide_eq_true, IH, list.Forall_cons. }
  unfold wait. rewrite orb_true_iff, Hall. split; [|now right]. intros [Hno|H]; [|exact H].
  assert (Enil : forall m txs, block_deferred cx m txs = []); [|rewrite Enil; constructor].
  clear -Hno. intros m txs. revert m. induction txs as [|tx txs IH]; intros m; cbn [block_deferred]; [done|].
  unfold deferred. rewrite negb_true_iff, andb_false_iff in Hno.
  replace (negb (IsCoinBase tx) && cx_fScriptChecks cx && cx_threads cx) with false
    by (destruct Hno as [-> | ->]; now rewrite ?andb_false_r). destruct (connect_tx m tx _) as [[m' u]|]; [apply IH|done].
Qed.

(** ** BIP30 *)

Section BIP30.
Context {V : Type} `{CoinsViewSpec V}.
Abbreviation cache := (CCoinsViewCache V).

Lemma overwrites_outputs_spec (c : cache) txid o n : cache_ok c -> 0 <= o -> o + Z.of_nat n <= 2 ^ 32 ->
  exists c' r, overwrites_outputs c txid o n = (c', r) /\ becomes c c' (coins c) /\
    (r = false <-> forall k, o <= k < o + Z.of_nat n -> coins c !! mk_outpoint txid k = None).
Proof.
  revert c o. induction n as [|n IH]; intros c o Hc Ho Hn; cbn [overwrites_outputs].
  { exists c, false. split; [done|]. split; [now apply becomes_refl|]. split; [lia|done]. }
  rewrite u32_small by (unfold in_word; lia). pose proof (HaveCoin_spec c (mk_outpoint txid o) Hc) as HH. cbv zeta in HH.
  destruct (HaveCoin c (mk_outpoint txid o)) as [c1 b]. cbn [fst snd] in HH. destruct HH as [(Hok & Em & Eb) ->].
  case_bool_decide as Hsome.
  { exists c1, true. split; [done|]. split; [done|]. split; [done|]. intros Hall. destruct Hsome as [cn E].
    rewrite Hall in E by lia. done. }
  apply eq_None_not_Some in Hsome. destruct (IH c1 (o + 1) Hok ltac:(lia) ltac:(lia)) as (c2 & r & -> & Hc2 & Hr).
  rewrite Em in Hc2, Hr. exists c2, r. split; [done|]. split; [now apply (becomes_trans c c1 c2 (coins c))|]. rewrite Hr.
  split; intros Hall k Hk; [|apply Hall; lia]. destruct (decide (k = o)) as [->|]; [done|]. apply Hall. lia.
Qed.

Lemma overwrites_spec (c : cache) txs : cache_ok c -> Forall tx_valid txs ->
  exists c' r, overwrites c txs = (c', r) /\ becomes c c' (coins c) /\ (r = false <-> Forall (fresh_outputs (coins c)) txs).
Proof.
  intros Hc Htxs. revert c Hc. induction Htxs as [|tx txs Htx _ IH]; intros c Hc; cbn [overwrites].
  { exists c, false. split; [done|]. split; [now apply becomes_refl|]. split; [constructor|done]. }
  pose proof (outputs_count tx Htx). destruct (overwrites_outputs_spec c (tx_hash tx) 0 (length (vout tx)) Hc) as (c1 & r & -> & Hc1 & Hr);
    [lia|lia|].
  assert (Hf : fresh_outputs (coins c) tx <-> r = false) by (rewrite Hr; unfold fresh_outputs; now rewrite Z.add_0_l). clear Hr. destruct r.
  { exists c1, true. split; [done|]. split; [done|]. split; [done|]. now intros [Hx%Hf _]%Forall_cons_1. }
  destruct Hc1 as (Hok & Em & Eb). destruct (IH c1 Hok) as (c2 & r & -> & Hc2 & Hr2). rewrite Em in Hc2, Hr2.
  exists c2, r. split; [done|]. split; [now apply (becomes_trans c c1 c2 (coins c))|]. rewrite Hr2, list.Forall_cons. tauto.
Qed.
End BIP30.
