(* ===== verification/ConnectBlock.v ===== *)
(** * Connecting a block ([validation.cpp])

    [ConnectBlock] with the checks that need the unspent outputs, on any view of the coins; the
    transactions are the subject of ConnectTx.v.
    Parameters are the script interpreter (a check to an error, [script_error]), what masternodes,
    governance and sporks say, and whether the undo data could be written.  The address, spent
    and timestamp indexes (off by default) and the changes of the index entry after the
    undo data is written are left out; the undo data is part of the result. *)

From Corelib Require Import SpecFloat.
From stdpp Require Import gmap strings.
From S2P Require Import Prelude Words Blob Merkle Serialize Transaction Script Arith256 PowHash Chain.
From S2P Require Import MedianTime Pow VersionBits AddBlock ValidationState HeaderCheck Coins Undo TxCheck.
From S2P Require Import Subsidy MasternodePayments BlockPayees CheckBlock Interpreter ConnectTx.

(** ** ConnectBlock *)

(** Parameters of the network and of the node. *)
Record ConnectParams := mk_connect_params {
  chain : CChainParams;
  bip9 : BIP9Params;
  subsidy : SubsidyParams;
  BIP34Height : Z;
  BIP34Hash : list Z;
  nMinimumChainWork : list Z;
  nMajorityEnforceBlockUpgrade : Z;
  hashAssumeValid : list Z;
  nScriptCheckThreads : Z }.

(** What is asked of the other parts of the node. *)
Record ConnectEnv := mk_connect_env {
  adjusted_time : Z;
  locks : lock_view;
  governance : node_view;
  mnpayments : CMasternodePayments;
  script_error : CScriptCheck -> option string;
  disk_error : option string }.        (* writing the undo data fails with this reason *)

Section ConnectBlock.
Context {V : Type} `{CoinsView V}.
Abbreviation cache := (CCoinsViewCache V).
Variable pow : spec_float -> spec_float -> spec_float.
Context (GetHash : CBlockHeader -> list Z) (params : ConnectParams) (env : ConnectEnv) (st : index_state).

(** [fScriptChecks]: scripts of blocks that lead to the block [hashAssumeValid] and are two weeks
    below the best header are not checked. *)
Definition script_checks (pindex : nat) (nHeight : Z) : option bool :=
  if Blob.IsNull (hashAssumeValid params) then Some true
  else
    match mapBlockIndex st !! hashAssumeValid params with
    | None => Some true
    | Some it =>
        a ← GetAncestor (heap st) it nHeight;
        if bool_decide (a <> Some pindex) then Some true
        else
          best ← pindexBestHeader st;
          a ← GetAncestor (heap st) best nHeight;
          if bool_decide (a <> Some pindex) then Some true
          else
            bb ← heap st !! best;
            if CompareTo (nChainWork bb) (UintToArith256 (nMinimumChainWork params)) <? 0 then Some true
            else
              b ← heap st !! pindex;
              t ← GetBlockProofEquivalentTime bb b bb (consensus (chain params));
              Some (t <=? 60 * 60 * 24 * 7 * 2)
    end.

(** The two blocks of another chain that the code excepts from BIP30. *)
Definition bip30_exceptions : list (Z * list Z) :=
  [(91842, uint256S "0x00000000000a4d0a398161ffc163c503763b1f4360639393e0e4c8e300e0caec");
   (91880, uint256S "0x00000000000743f190a18c5577a3c2d2a1f610ae9601ac046a38084ccb7cd721")]%string.

Definition enforce_bip30 (b : CBlockIndex) (pprev : nat) : option bool :=
  let fEnforceBIP30 := match phashBlock b with
                       | None => true
                       | Some h => negb (existsb (fun e => (Chain.nHeight b =? e.1) && blob_eq h e.2) bip30_exceptions)
                       end in
  pindexBIP34height ← GetAncestor (heap st) pprev (BIP34Height params);
  match pindexBIP34height with
  | None => Some fEnforceBIP30
  | Some p34 =>
      if fEnforceBIP30 then b34 ← heap st !! p34; h ← phashBlock b34; Some (negb (blob_eq h (BIP34Hash params)))
      else Some false
  end.

Definition SCRIPT_BIP16_TIME : Z := 1333238400.

(** A rule that is enforced for blocks of version [v] once most blocks have it. *)
Definition version_flag (nVersion v : Z) (pprev : nat) (flag : Z) : option Z :=
  if v <=? nVersion then
    o ← IsSuperMajority (chain params) (heap st) v (Some pprev) (u32 (nMajorityEnforceBlockUpgrade params));
    Some (if o : bool then flag else 0)
  else Some 0.

(** The context of the transactions, with the caches of the version bits. *)
Definition block_context (block : CBlock) (pindex : nat) (b : CBlockIndex) (pprev : nat) (fScriptChecks : bool)
    (versionbitscache : VersionBitsCache) : option (tx_context * VersionBitsCache) :=
  let fStrictPayToScriptHash := SCRIPT_BIP16_TIME <=? Chain.nTime b in
  let nVersion := PowHash.nVersion (block_header block) in
  f3 ← version_flag nVersion 3 pprev SCRIPT_VERIFY_DERSIG;
  f4 ← version_flag nVersion 4 pprev SCRIPT_VERIFY_CHECKLOCKTIMEVERIFY;
  '(cache, csv) ← VersionBitsState (bip9 params) (heap st) (Some pprev) DEPLOYMENT_CSV versionbitscache;
  '(cache, dip) ← VersionBitsState (bip9 params) (heap st) (Some pprev) DEPLOYMENT_DIP0001 cache;
  let csv := bool_decide (csv = THRESHOLD_ACTIVE) in
  Some (mk_tx_context pindex (Chain.nHeight b) fScriptChecks (negb (nScriptCheckThreads params =? 0)) fStrictPayToScriptHash
          ((if fStrictPayToScriptHash then SCRIPT_VERIFY_P2SH else SCRIPT_VERIFY_NONE) .| f3 .| f4 .|
           (if csv then SCRIPT_VERIFY_CHECKSEQUENCEVERIFY else 0))
          (if csv then LOCKTIME_VERIFY_SEQUENCE else 0) (bool_decide (dip = THRESHOLD_ACTIVE)), cache).

(** The checks of the coinbase transaction: the state with the failed one, and whether the hash of
    the block is put into [mapRejectedBlocks]. *)
Definition check_reward (block : CBlock) (nHeight nFees : Z) (bprev : CBlockIndex) (state : CValidationState)
    : run (option (CValidationState * bool)) :=
  nSubsidy ← of_option (GetBlockSubsidy pow (subsidy params) (Chain.nBits bprev) (Chain.nHeight bprev) false);
  let blockReward := s64 (nFees + nSubsidy) in
  coinbase ← of_option (head (vtx block));
  valid ← (IsBlockValueValid pow (subsidy params) (governance env) coinbase nHeight blockReward : run bool);
  if negb valid then mret (Some (DoS state 0 REJECT_INVALID "bad-cb-amount", false))
  else
    payee ← (IsBlockPayeeValid pow (subsidy params) (governance env) (mnpayments env) coinbase nHeight blockReward : run bool);
    if negb payee then mret (Some (DoS state 0 REJECT_INVALID "bad-cb-payee", true)) else mret None.

Record connect_result := mk_result {
  connected : bool;
  connect_state : CValidationState;
  view_after : cache;
  block_undo : list (list Coin);
  block_after : CBlock;               (* with [fChecked] *)
  block_rejected : bool;              (* put into [mapRejectedBlocks] *)
  bits_cache : VersionBitsCache }.

(** The part after the special case of the genesis block. *)
Definition connect_block (block : CBlock) (state : CValidationState) (pindex : nat) (b : CBlockIndex) (c : cache)
    (fJustCheck : bool) (versionbitscache : VersionBitsCache) : run connect_result :=
  let reject st c rejected cache := mret (mk_result false st c [] block rejected cache) in
  fScriptChecks ← of_option (script_checks pindex (Chain.nHeight b));
  pprev ← of_option (pprev b);
  bprev ← of_option (heap st !! pprev);
  fEnforceBIP30 ← of_option (enforce_bip30 b pprev);
  let '(c, exists_already) := if fEnforceBIP30 : bool then overwrites c (vtx block) else (c, false) in
  if exists_already then reject (DoS state 100 REJECT_INVALID "bad-txns-BIP30") c false versionbitscache
  else
    '(cx, cache) ← of_option (block_context block pindex b pprev fScriptChecks versionbitscache);
    '(c, r) ← connect_all (script_error env) (mapBlockIndex st) (heap st) cx c 0 (vtx block) state (mk_totals 0 0 [] []);
    match r with
    | inl state => reject state c false cache
    | inr t =>
        r ← check_reward block (Chain.nHeight b) (nFees t) bprev state;
        match r with
        | Some (state, rejected) => reject state c rejected cache
        | None =>
            if negb (wait (script_error env) cx (control t)) then reject (DoS state 100 0 EmptyString) c false cache
            else if fJustCheck then mret (mk_result true state c (vtxundo t) block false cache)
            else
              match disk_error env with
              | Some err => reject (Error state err) c false cache
              | None =>
                  h ← of_option (phashBlock b);
                  mret (mk_result true state (SetBestBlock c h) (vtxundo t) block false cache)
              end
        end
    end.

Definition ConnectBlock (block : CBlock) (state : CValidationState) (pindex : nat) (c : cache) (fJustCheck : bool)
    (versionbitscache : VersionBitsCache) : run connect_result :=
  r ← of_option (CheckBlock GetHash (chain params) (adjusted_time env) (locks env) block state (negb fJustCheck) (negb fJustCheck));
  let block := checked_block r in
  if negb (accepted r) then mret (mk_result false (check_state r) c [] block (noted_rejected r) versionbitscache)
  else
    let state := check_state r in
    b ← of_option (heap st !! pindex);
    hashPrevBlock ← of_option (match pprev b with
                               | None => Some (null_blob 32)
                               | Some p => bp ← heap st !! p; phashBlock bp
                               end);
    let '(c, best) := cache_GetBestBlock c in
    if negb (blob_eq hashPrevBlock best) then of_throws (inl assertion_failed)
    else if blob_eq (GetHash (block_header block)) (hashGenesisBlock (chain params)) then
      c ← (if fJustCheck then mret c else h ← of_option (phashBlock b); mret (SetBestBlock c h));
      mret (mk_result true state c [] block false versionbitscache)
    else connect_block block state pindex b c fJustCheck versionbitscache.
End ConnectBlock.
Arguments connect_result : clear implicits.


(** ** The index of blocks *)

(** What the checks use of an index that was built by accepting headers; the status of the blocks may
    change while they are connected. *)
Record chain_ok (st : index_state) : Prop := {
  co_index : index_ok st;
  co_times : times_ok (heap st);
  co_work : forall p b q, heap st !! p = Some b -> pprev b = Some q -> 0 < work_of (nBits b) }.

Lemma proof_of_work_work hash c params : in_word 32 c -> CheckProofOfWork hash c params = true -> 0 < work_of c.
Proof.
  intros Hc. unfold CheckProofOfWork, work_of. pose proof (SetCompact_spec c Hc) as HS.
  destruct (SetCompact c) as [[a n] o]. destruct HS as (Ha & Ea & -> & ->).
  pose proof (compact_target_nonneg c (proj1 Hc)) as H0. rewrite EqualTo_spec by (done || apply zero_64).
  destruct (Z.leb_spec (2 ^ 256) (compact_target c)) as [Hov|Hov]; [now rewrite !orb_true_r|].
  rewrite Z.mod_small in Ea by lia. rewrite Ea, !orb_false_r. destruct (Z.eqb_spec (compact_target c) 0) as [->|Hnz];
    [rewrite !orb_true_r; done|]. cbn [negb andb orb]. destruct (Z.testbit c 23); [done|]. intros _. cbn [orb].
  apply Z.div_str_pos. lia.
Qed.

Lemma headers_chain_ok pow GetHash params st : headers_ok pow GetHash params st -> chain_ok st.
Proof.
  intros Hst. split; [exact (ho_index _ _ _ _ Hst)|exact (headers_times _ _ _ _ Hst)|]. intros p b q Hb Hq.
  destruct (ho_valid _ _ _ _ Hst p b Hb) as (block & Hof & Ht & [[_ H]|[Hpow _]]); [congruence|].
  rewrite (en_bits _ _ _ Hof). eapply proof_of_work_work; [|exact Hpow]. apply Ht.
Qed.

Lemma median_nonneg s p b m : wf_store s -> fields_ok s -> s !! p = Some b -> GetMedianTimePast s p = Some m -> 0 <= m.
Proof.
  intros Hwf Hf Hb. unfold GetMedianTimePast. destruct (past_times nMedianTimeSpan s (Some p)) as [l|] eqn:E; [|done].
  cbn [mbind option_bind]. intros Hm.
  assert (Hl : forall n q l, past_times n s q = Some l -> Forall (fun t => 0 <= t) l).
  { clear -Hf. induction n as [|n IH]; intros q l; cbn [past_times]; [intros [= <-]; constructor|].
    destruct q as [q|]; [|intros [= <-]; constructor]. destruct (s !! q) as [b|] eqn:Eb; [|done]. cbn [mbind option_bind].
    destruct (past_times n s (pprev b)) as [l'|] eqn:El; [|done]. intros [= <-]. apply Forall_app. split; [now apply (IH (pprev b))|].
    constructor; [|constructor]. destruct (Hf q b Eb) as [_ [Ht _]]. exact Ht. }
  specialize (Hl _ _ _ E). rewrite <- (sort_times_perm l) in Hl. rewrite list.Forall_forall in Hl.
  apply Hl. eapply list_elem_of_lookup_2, Hm.
Qed.

(** ** What the block is checked for *)

Section Checks.
Context (params : ConnectParams) (st : index_state) (Hst : chain_ok st).
(** The block, and the one before. *)
Context (pindex : nat) (b : CBlockIndex) (q : nat) (bq : CBlockIndex).
Context (Hb : heap st !! pindex = Some b) (Hq : pprev b = Some q) (Hbq : heap st !! q = Some bq).

Lemma parent_height : Chain.nHeight b = Chain.nHeight bq + 1 /\ 0 <= Chain.nHeight bq.
Proof.
  pose proof (io_store _ (co_index _ Hst)) as Hwf. pose proof (eo_prev _ _ _ (Hwf pindex b Hb)) as Hp. rewrite Hq in Hp.
  destruct Hp as (bp & Hbp & Eh). rewrite Hbq in Hbp. injection Hbp as <-. pose proof (eo_height _ _ _ (Hwf q bq Hbq)). lia.
Qed.

(** The time equivalent to no work of a block that has work is computed. *)
Lemma proof_time_total bb : num (nChainWork bb) -> num (nChainWork b) -> in_word 32 (nBits bb) -> 0 < work_of (nBits bb) ->
  exists t, GetBlockProofEquivalentTime bb b bb (consensus (chain params)) = Some t.
Proof.
  intros H1 H2 Hc Hw. unfold GetBlockProofEquivalentTime.
  destruct (GetBlockProof_spec (nBits bb) Hc) as (w & Ew & Hnw & Evw). rewrite Ew.
  assert (Hr : exists r sign, (if 0 <? CompareTo (nChainWork bb) (nChainWork b)
    then (uint_sub (nChainWork bb) (nChainWork b), 1) else (uint_sub (nChainWork b) (nChainWork bb), -1)) = (r, sign) /\ num r).
  { destruct (0 <? _); eexists _, _; (split; [reflexivity|]); now apply uint_sub_spec. }
  destruct Hr as (r & sign & -> & Hr). cbn [mbind option_bind].
  destruct (of_uint64_spec (u64 (nPowTargetSpacing (consensus (chain params)))) (in_word_u64 _)) as [Hs _].
  pose proof (uint_div_spec _ w (proj1 (uint_mul_spec r _ Hr Hs)) Hnw) as HD. rewrite Evw in HD.
  destruct (Z.eqb_spec (work_of (nBits bb)) 0); [lia|]. destruct HD as (d & -> & _). cbn [mbind option_bind].
  destruct (63 <? uint_bits d); eauto.
Qed.

(** The block lies on the way to the block that is assumed to be valid, and to the best header. *)
Definition assumed_valid : Prop :=
  exists it best n k, mapBlockIndex st !! hashAssumeValid params = Some it /\ up (heap st) n it = Some pindex /\
    pindexBestHeader st = Some best /\ up (heap st) k best = Some pindex.

Lemma ancestor_cases p bp : heap st !! p = Some bp -> exists a, GetAncestor (heap st) p (Chain.nHeight b) = Some a /\
  (a = Some pindex -> Chain.nHeight b <= Chain.nHeight bp /\ exists n, up (heap st) n p = Some pindex).
Proof.
  intros Hp. rewrite (GetAncestor_spec (heap st) (io_store _ (co_index _ Hst)) p bp _ Hp).
  destruct (Z.ltb_spec (Chain.nHeight b) 0); [now exists None|]. destruct (Z.ltb_spec (Chain.nHeight bp) (Chain.nHeight b)); [now exists None|].
  cbn [orb]. eexists. split; [reflexivity|]. intros E. split; [lia|eauto].
Qed.

Lemma script_checks_spec : exists r, script_checks params st pindex (Chain.nHeight b) = Some r /\ (r = false -> assumed_valid).
Proof.
  unfold script_checks. pose proof (co_index _ Hst) as Hi. destruct (Blob.IsNull _); [now exists true|].
  destruct (mapBlockIndex st !! hashAssumeValid params) as [it|] eqn:Eit; [|now exists true].
  destruct (io_map _ Hi _ _ Eit) as (bit & Hbit & _). destruct (ancestor_cases it bit Hbit) as (a & -> & Ha). cbn [mbind option_bind].
  case_bool_decide as E1; [now exists true|]. destruct (Ha E1) as (_ & n & Hn). clear Ha E1.
  pose proof (io_best _ Hi) as Hbest. destruct (pindexBestHeader st) as [best|] eqn:Ebest; [|rewrite Hbest in Hb; done].
  cbn [mbind option_bind].
  destruct Hbest as (bb & Hbb & _). destruct (ancestor_cases best bb Hbb) as (a' & -> & Ha). cbn [mbind option_bind].
  case_bool_decide as E2; [now exists true|]. destruct (Ha E2) as (Hle & k & Hk).
  rewrite Hbb. cbn [mbind option_bind]. destruct (CompareTo _ _ <? 0); [now exists true|]. rewrite Hb. cbn [mbind option_bind].
  pose proof parent_height as [Hh1 Hh2]. pose proof (eo_prev _ _ _ (io_store _ Hi best bb Hbb)) as Hp.
  destruct (pprev bb) as [p|] eqn:Ep; [|lia].
  destruct (proof_time_total bb) as [t ->];
    [apply (io_work _ Hi best bb Hbb)|apply (io_work _ Hi pindex b Hb)|apply (io_fields _ Hi best bb Hbb)|exact (co_work _ Hst best bb p Hbb Ep)|].
  cbn [mbind option_bind]. eexists. split; [reflexivity|]. intros _. now exists it, best, n, k.
Qed.

(** Outputs that exist must not be overwritten: in all but two blocks, until BIP34 makes it impossible. *)
Definition bip30_enforced : Prop :=
  (forall h e, phashBlock b = Some h -> e ∈ bip30_exceptions -> Chain.nHeight b = e.1 -> blob_eq h e.2 = false) /\
  (forall p bp h, GetAncestor (heap st) q (BIP34Height params) = Some (Some p) -> heap st !! p = Some bp ->
     phashBlock bp = Some h -> blob_eq h (BIP34Hash params) = false).

Lemma enforce_bip30_spec : exists r, enforce_bip30 params st b q = Some r /\ (r = true <-> bip30_enforced).
Proof.
  unfold enforce_bip30, bip30_enforced. set (f := match phashBlock b with None => true | Some h => _ end).
  assert (Hf : f = true <-> forall h e, phashBlock b = Some h -> e ∈ bip30_exceptions -> Chain.nHeight b = e.1 -> blob_eq h e.2 = false).
  { unfold f. destruct (phashBlock b) as [h|]; [|done]. rewrite negb_true_iff, existsb_false, list.Forall_forall. clear.
    split; [|intros Hall e He; specialize (Hall h e eq_refl He); rewrite andb_false_iff, Z.eqb_neq; destruct (decide (Chain.nHeight b = e.1)); auto].
    intros Hall h' e [= <-] He Eh. specialize (Hall e He). rewrite Eh, Z.eqb_refl in Hall. exact Hall. }
  clearbody f. pose proof (io_store _ (co_index _ Hst)) as Hwf. rewrite (GetAncestor_spec (heap st) Hwf q bq _ Hbq).
  destruct ((BIP34Height params <? 0) || (Chain.nHeight bq <? BIP34Height params)) eqn:Er.
  { cbn [mbind option_bind]. exists f. split; [done|]. rewrite Hf. split; [intros Hx; split; [done|]|now intros [? _]]. now intros. }
  apply orb_false_iff in Er as [E1 E2]. destruct (up_height (heap st) Hwf (Z.to_nat (Chain.nHeight bq - BIP34Height params)) q bq Hbq ltac:(lia))
    as (p & bp & -> & Hp & _). cbn [mbind option_bind]. destruct f.
  2:{ exists false. split; [done|]. split; [done|]. intros [Hx _]. now apply Hf. }
  rewrite Hp. cbn [mbind option_bind]. destruct (io_hash _ (co_index _ Hst) p bp Hp) as (h & Eh & _). rewrite Eh. cbn [mbind option_bind].
  eexists. split; [reflexivity|]. rewrite negb_true_iff. split.
  - intros Hne. split; [now apply Hf|]. intros p' bp' h' [= <-] Hp'. rewrite Hp in Hp'. injection Hp' as <-. rewrite Eh. now intros [= <-].
  - intros [_ Hall]. exact (Hall p bp h eq_refl Hp Eh).
Qed.

(** A rule for blocks of version [v] is in force: the block has the version, and most blocks before. *)
Definition version_rule_on (block : CBlock) (v : Z) : Prop :=
  v <= PowHash.nVersion (block_header block) /\
  u32 (nMajorityEnforceBlockUpgrade params) <=
    votes (heap st) (recent (heap st) v) (Z.to_nat (nMajorityWindow (chain params))) (Some q).

Lemma version_flag_spec block v flag : exists o : bool,
  version_flag params st (PowHash.nVersion (block_header block)) v q flag = Some (if o then flag else 0) /\
  (o = true <-> version_rule_on block v).
Proof.
  unfold version_flag, version_rule_on. destruct (Z.leb_spec v (PowHash.nVersion (block_header block))) as [Hv|Hv].
  - destruct (IsSuperMajority_spec (chain params) (heap st) v (Some q) (u32 (nMajorityEnforceBlockUpgrade params))
      (io_store _ (co_index _ Hst))) as (o & -> & Ho); [intros p [= <-]; eauto|]. cbn [mbind option_bind]. exists o. split; [done|].
    rewrite Ho. tauto.
  - exists false. split; [done|]. split; [done|]. lia.
Qed.

Context (Hd : forall pos d, vDeployments (bip9 params) !! pos = Some d -> deployment_ok (bip9 params) d).
Context (Hn : length (vDeployments (bip9 params)) = MAX_VERSION_BITS_DEPLOYMENTS).

Definition in_force (pos : nat) : Prop := active (bip9 params) (heap st) pos q.

(** The context of the transactions: which rules are in force for the block. *)
Record context_ok (block : CBlock) (fScriptChecks : bool) (cx : tx_context) : Prop := {
  cx_at : cx_pindex cx = pindex;
  cx_height : cx_nHeight cx = Chain.nHeight b;
  cx_scripts : cx_fScriptChecks cx = fScriptChecks;
  cx_thr : cx_threads cx = negb (nScriptCheckThreads params =? 0);
  cx_p2sh : cx_fStrictPayToScriptHash cx = true <-> SCRIPT_BIP16_TIME <= Chain.nTime b;
  cx_flag_p2sh : Z.testbit (cx_flags cx) 0 = true <-> SCRIPT_BIP16_TIME <= Chain.nTime b;
  cx_flag_dersig : Z.testbit (cx_flags cx) 2 = true <-> version_rule_on block 3;
  cx_flag_cltv : Z.testbit (cx_flags cx) 9 = true <-> version_rule_on block 4;
  cx_flag_csv : Z.testbit (cx_flags cx) 10 = true <-> in_force DEPLOYMENT_CSV;
  cx_locks : Z.testbit (cx_nLockTimeFlags cx) 0 = true <-> in_force DEPLOYMENT_CSV;
  cx_dip1 : cx_fDIP0001Active cx = true <-> in_force DEPLOYMENT_DIP0001 }.

Lemma block_context_spec block fScriptChecks cache : caches_ok (bip9 params) (heap st) cache ->
  exists cx cache', block_context params st block pindex b q fScriptChecks cache = Some (cx, cache') /\
    context_ok block fScriptChecks cx /\ caches_ok (bip9 params) (heap st) cache'.
Proof.
  intros Hc. unfold block_context. pose proof (io_store _ (co_index _ Hst)) as Hwf.
  destruct (version_flag_spec block 3 SCRIPT_VERIFY_DERSIG) as (o3 & -> & H3). cbn [mbind option_bind].
  destruct (version_flag_spec block 4 SCRIPT_VERIFY_CHECKLOCKTIMEVERIFY) as (o4 & -> & H4). cbn [mbind option_bind].
  destruct (active_spec (bip9 params) (heap st) Hwf (co_times _ Hst) Hd Hn DEPLOYMENT_CSV q bq cache Hbq
    ltac:(unfold DEPLOYMENT_CSV, MAX_VERSION_BITS_DEPLOYMENTS; cbn; lia) Hc) as (c1 & csv & -> & Hc1 & Hcsv). cbn [mbind option_bind].
  destruct (active_spec (bip9 params) (heap st) Hwf (co_times _ Hst) Hd Hn DEPLOYMENT_DIP0001 q bq c1 Hbq
    ltac:(unfold DEPLOYMENT_DIP0001, MAX_VERSION_BITS_DEPLOYMENTS; cbn; lia) Hc1) as (c2 & dip & -> & Hc2 & Hdip). cbn [mbind option_bind].
  eexists _, c2. split; [reflexivity|]. split; [|exact Hc2].
  rewrite <- (bool_decide_eq_true (csv = _)) in Hcsv. rewrite <- (bool_decide_eq_true (dip = _)) in Hdip.
  pose proof (Z.leb_le SCRIPT_BIP16_TIME (Chain.nTime b)) as Hp.
  generalize dependent (bool_decide (csv = THRESHOLD_ACTIVE)). generalize dependent (bool_decide (dip = THRESHOLD_ACTIVE)).
  generalize dependent (SCRIPT_BIP16_TIME <=? Chain.nTime b). intros p Hp d Hdip c Hcsv. clear csv dip.
  split; cbn [cx_pindex cx_nHeight cx_fScriptChecks cx_threads cx_fStrictPayToScriptHash cx_flags cx_nLockTimeFlags cx_fDIP0001Active];
    try done.
  - rewrite <- Hp. clear. destruct p, o3, o4, c; by_eval.
  - rewrite <- H3. clear. destruct p, o3, o4, c; by_eval.
  - rewrite <- H4. clear. destruct p, o3, o4, c; by_eval.
  - unfold in_force. rewrite <- Hcsv. clear. destruct p, o3, o4, c; by_eval.
  - unfold in_force. rewrite <- Hcsv. clear. destruct c; by_eval.
Qed.
End Checks.

(** *** The coinbase transaction *)

Section Reward.
Variable pow : spec_float -> spec_float -> spec_float.
Context (params : ConnectParams) (env : ConnectEnv).
Context (Hhalving : 0 < nSubsidyHalvingInterval (subsidy params)).

(** The subsidy of the block after [bq], and the value that its miner may take. *)
Definition subsidy_after (bq : CBlockIndex) : Z :=
  whole_subsidy pow (subsidy params) (Chain.nBits bq) (Chain.nHeight bq) -
  superblock_part pow (subsidy params) (Chain.nBits bq) (Chain.nHeight bq).

Lemma subsidy_after_bounds bq : 0 <= subsidy_after bq <= 500 * COIN.
Proof.
  unfold subsidy_after. pose proof (superblock_part_bounds pow (subsidy params) (Chain.nBits bq) (Chain.nHeight bq)).
  pose proof (whole_subsidy_bounds pow (subsidy params) (Chain.nBits bq) (Chain.nHeight bq)).
  pose proof (subsidy_base_bounds pow (subsidy params) (Chain.nBits bq) (Chain.nHeight bq)) as [Hb _].
  unfold COIN in *. lia.
Qed.

(** The coinbase transaction may take this value, and pays whom it has to. *)
Record reward_ok (tx : CTransaction) (nHeight reward : Z) : Prop := {
  ro_value : IsBlockValueValid pow (subsidy params) (governance env) tx nHeight reward = Some (inr true);
  ro_payee : IsBlockPayeeValid pow (subsidy params) (governance env) (mnpayments env) tx nHeight reward = Some (inr true) }.

Lemma IsBlockPayeeValid_total tx h reward v : 1 <= h -> GetValueOut tx = inr v ->
  exists ok, IsBlockPayeeValid pow (subsidy params) (governance env) (mnpayments env) tx h reward = Some (inr ok).
Proof.
  intros Hh Hv. unfold IsBlockPayeeValid. destruct (IsSynced (governance env)); cbn [negb]; [|by exists true].
  assert (Ht : exists ok, IsTransactionValid (subsidy params) (mnpayments env) tx h = inr ok).
  { unfold IsTransactionValid. destruct (mapMasternodeBlocks (mnpayments env) !! h) as [bp|]; [|by exists true].
    unfold payees_IsTransactionValid. rewrite Hv. cbn [mbind throws_bind]. destruct (_ <? _); by eexists. }
  destruct Ht as [ok ->]. cbn [mbind throws_bind]. destruct (h <? _).
  { destruct ok; [by exists true|]. destruct (in_budget_window _ _); by eexists. }
  destruct (_ && _); [|destruct ok; by eexists]. unfold superblock_manager_IsValid.
  destruct (GetBestSuperblock (governance env) h) as [sb|]; [|by exists false].
  destruct (superblock_IsValid_spec pow (subsidy params) Hhalving sb tx h reward v Hh Hv) as (ok' & -> & _). by exists ok'.
Qed.

Lemma check_reward_spec block tx0 rest bq nFees state : vtx block = tx0 :: rest -> tx_valid tx0 ->
  0 <= Chain.nHeight bq -> 0 <= nFees <= SAFE_SUM ->
  exists r, check_reward pow params env block (Chain.nHeight bq + 1) nFees bq state = Some (inr r) /\
    match r with
    | None => reward_ok tx0 (Chain.nHeight bq + 1) (nFees + subsidy_after bq)
    | Some (st, _) => mode st <> MODE_VALID /\ ~ reward_ok tx0 (Chain.nHeight bq + 1) (nFees + subsidy_after bq)
    end.
Proof.
  intros Hvtx Htx Hh Hf. unfold check_reward.
  rewrite (GetBlockSubsidy_spec pow (subsidy params) (Chain.nBits bq) (Chain.nHeight bq) false Hhalving Hh).
  fold (subsidy_after bq). pose proof (subsidy_after_bounds bq) as Hs. cbn [of_option mbind run_bind].
  rewrite s64_small by (unfold SAFE_SUM, COIN in *; lia). rewrite Hvtx. cbn [head of_option mbind run_bind].
  assert (Hv : GetValueOut tx0 = inr (value_of (vout tx0))).
  { apply GetValueOut_ok. pose proof (valid_total _ Htx). pose proof (value_of_nonneg _ (valid_values _ Htx)).
    split; [exact (valid_values _ Htx)|lia]. }
  set (reward := nFees + subsidy_after bq). set (h := Chain.nHeight bq + 1).
  destruct (IsBlockValueValid_spec pow (subsidy params) Hhalving (governance env) tx0 h reward _ ltac:(unfold h; lia) Hv)
    as (value & Ev & _). unfold run. rewrite Ev. cbn [mbind run_bind].
  destruct value; cbn [negb]; cycle 1.
  { eexists. split; [reflexivity|]. cbn. split; [apply DoS_invalid|]. intros [Hx _]. congruence. }
  destruct (IsBlockPayeeValid_total tx0 h reward _ ltac:(unfold h; lia) Hv) as [payee Ep]. rewrite Ep. cbn [mbind run_bind].
  destruct payee; cbn [negb]; cycle 1.
  { eexists. split; [reflexivity|]. cbn. split; [apply DoS_invalid|]. intros [_ Hx]. congruence. }
  eexists. split; [reflexivity|]. now split.
Qed.

(** What the coinbase transaction of an accepted block takes. *)
Lemma reward_bound tx h reward : tx_valid tx -> 1 <= h -> 0 < nSuperblockCycle (subsidy params) -> reward_ok tx h reward ->
  unchecked (subsidy params) (governance env) h \/ value_of (vout tx) <= reward + superblock_limit pow (subsidy params) h.
Proof.
  intros Htx Hh Hc [Hv _].
  assert (Eo : GetValueOut tx = inr (value_of (vout tx))).
  { apply GetValueOut_ok. pose proof (valid_total _ Htx). pose proof (value_of_nonneg _ (valid_values _ Htx)).
    split; [exact (valid_values _ Htx)|lia]. }
  destruct (IsBlockValueValid_spec pow (subsidy params) Hhalving (governance env) tx h reward _ Hh Eo) as (ok & E & Hok & _).
  rewrite E in Hv. injection Hv as ->. pose proof (superblock_limit_nonneg pow (subsidy params) h Hc).
  destruct (Hok eq_refl) as [Hx|[[_ Hx]|Hx]]; [right; lia|now right|now left].
Qed.
End Reward.

(** ** Connecting a block *)

(** The parameters of the network make sense. *)
Record network_ok (params : ConnectParams) : Prop := {
  nw_deployments : forall pos d, vDeployments (bip9 params) !! pos = Some d -> deployment_ok (bip9 params) d;
  nw_count : length (vDeployments (bip9 params)) = MAX_VERSION_BITS_DEPLOYMENTS;
  nw_halving : 0 < nSubsidyHalvingInterval (subsidy params);
  nw_cycle : 0 < nSuperblockCycle (subsidy params) }.

Section Connect.
Variable pow : spec_float -> spec_float -> spec_float.
Context (params : ConnectParams) (env : ConnectEnv) (st : index_state) (Hnet : network_ok params) (Hst : chain_ok st).
Context {V : Type} `{CoinsViewSpec V}.
Abbreviation cache := (CCoinsViewCache V).

(** Transactions with the same id are the same: the double SHA-256 of the transactions of the block has no
    collision.  A transaction may be there twice. *)
Definition no_collision (txs : list CTransaction) : Prop :=
  forall tx tx', tx ∈ txs -> tx' ∈ txs -> tx_hash tx = tx_hash tx' -> tx = tx'.

(** Block [pindex] of the index comes next after the best block [q] of the coins [c].  The last condition is what BIP34
    is for: where BIP30 is not enforced, no transaction of the block repeats one of an earlier block. *)
Record placed (block : CBlock) (pindex : nat) (b : CBlockIndex) (q : nat) (bq : CBlockIndex) (c : cache) : Prop := {
  rd_entry : heap st !! pindex = Some b;
  rd_parent : pprev b = Some q;
  rd_prev : heap st !! q = Some bq;
  rd_best : phashBlock bq = Some (best c);
  rd_height : Chain.nHeight b < 2 ^ 31;
  rd_ids : no_collision (vtx block);
  rd_fresh : ~ bip30_enforced params st b q -> Forall (fresh_outputs (coins c)) (vtx block) }.

(** Sums of money up to this one leave room in 64 bits for another transaction: some 92 billion coins. *)
Definition MONEY_BOUND : Z := 2 ^ 63 - 2 ^ 53.

(** The coins are those of a sound cache: values in the range of money, heights below that of the block, and a sum for
    which the arithmetic on 64 bits is exact.  The coins after any chain of connected blocks are so ([chain_sound]). *)
Record ready (block : CBlock) (pindex : nat) (b : CBlockIndex) (q : nat) (bq : CBlockIndex) (c : cache) : Prop := {
  rd_placed :> placed block pindex b q bq c;
  rd_cache : cache_ok c;
  rd_coins : coins_sound (Chain.nHeight b) (coins c);
  rd_money : total (coins c) <= MONEY_BOUND }.

(** The transactions of the block are valid on these coins, in the context [cx]. *)
Record connects (block : CBlock) (b : CBlockIndex) (q : nat) (bq : CBlockIndex) (mt : Z) (cx : tx_context)
    (m : gmap COutPoint Coin) : Prop := {
  cn_fresh : bip30_enforced params st b q -> Forall (fresh_outputs m) (vtx block);
  cn_txs : txs_ok (script_error env) (heap st) cx b mt m 0 (vtx block);
  cn_scripts : Forall (passes (script_error env)) (block_deferred cx m (vtx block));
  cn_reward : exists tx0 rest, vtx block = tx0 :: rest /\
    reward_ok pow params env tx0 (Chain.nHeight b) (block_fees cx m (vtx block) + subsidy_after pow params bq) }.

(** The money that the block may add. *)
Definition new_money (b bq : CBlockIndex) : Z :=
  subsidy_after pow params bq + superblock_limit pow (subsidy params) (Chain.nHeight b).

(** What becomes of the coins when the block is connected. *)
Record connected_to (block : CBlock) (b bq : CBlockIndex) (c : cache) (fJustCheck : bool) (r : connect_result V) : Prop := {
  ct_coins : exists us, connect_map (coins c) (vtx block) (Chain.nHeight b) = Some (coins (view_after r), us) /\ block_undo r = tail us;
  ct_cache : cache_ok (view_after r);
  ct_best : if fJustCheck then best (view_after r) = best c
            else forall h, phashBlock b = Some h -> Blob.IsNull h = false -> best (view_after r) = h;
  ct_sound : coins_sound (Chain.nHeight b) (coins (view_after r));
  ct_money : ~ unchecked (subsidy params) (governance env) (Chain.nHeight b) ->
    total (coins (view_after r)) <= total (coins c) + new_money b bq }.

Lemma one_coinbase_created txs : one_coinbase txs -> Forall tx_valid txs ->
  exists tx0 rest, txs = tx0 :: rest /\ tx_valid tx0 /\ sum_of created txs = value_of (vout tx0) /\ 0 <= value_of (vout tx0) <= MAX_MONEY.
Proof.
  intros (tx0 & rest & -> & Hcb & Hr) [Htx _]%Forall_cons_1. exists tx0, rest. split; [done|]. split; [done|].
  assert (E : sum_of created rest = 0).
  { induction Hr as [|tx rest Hno _ IH]; [done|]. rewrite sum_of_cons, IH. unfold created. now rewrite Hno. }
  rewrite sum_of_cons, E. unfold created. rewrite Hcb. pose proof (valid_total _ Htx).
  pose proof (value_of_nonneg _ (valid_values _ Htx)). lia.
Qed.

Lemma no_collision_tell txs : one_coinbase txs -> no_collision txs -> ids_tell txs.
Proof.
  assert (Htail : forall txs, Forall (fun tx => IsCoinBase tx = false) txs -> no_collision txs -> ids_tell txs).
  { intros l Hl. induction Hl as [|tx l Htx _ IH]; cbn [ids_tell]; [done|]. intros Hids. split.
    - intros tx' H' Eh. split; [|done]. apply Hids; [now right|now left|done].
    - apply IH. intros t t' Ht Ht'. apply Hids; now right. }
  intros (tx0 & rest & -> & Hcb & Hrest) Hids. split.
  - intros tx' H' Eh. exfalso. assert (E : tx' = tx0) by (apply Hids; [now right|now left|done]). subst tx'.
    rewrite list.Forall_forall in Hrest. rewrite (Hrest tx0 H') in Hcb. done.
  - apply Htail; [done|]. intros t t' Ht Ht'. apply Hids; now right.
Qed.

Lemma overwrites_cases block b q bq (c : cache) : heap st !! q = Some bq -> cache_ok c -> Forall tx_valid (vtx block) ->
  (~ bip30_enforced params st b q -> Forall (fresh_outputs (coins c)) (vtx block)) ->
  exists enforce c' r, enforce_bip30 params st b q = Some enforce /\
    (if enforce then overwrites c (vtx block) else (c, false)) = (c', r) /\ becomes c c' (coins c) /\
    (r = true -> bip30_enforced params st b q /\ ~ Forall (fresh_outputs (coins c)) (vtx block)) /\
    (r = false -> Forall (fresh_outputs (coins c)) (vtx block)).
Proof.
  intros Hbq Hc Htxs Hfresh. destruct (enforce_bip30_spec params st Hst b q bq Hbq) as (enforce & -> & He).
  exists enforce. destruct enforce.
  - destruct (overwrites_spec c (vtx block) Hc Htxs) as (c1 & r & -> & Hc1 & Hr). exists c1, r. split; [done|]. split; [done|].
    split; [done|]. split; [|now intros ->%Hr || apply Hr]. intros ->. split; [now apply He|]. now intros ?%Hr.
  - exists c, false. split; [done|]. split; [done|]. split; [now apply becomes_refl|]. split; [done|].
    intros _. apply Hfresh. now intros ?%He.
Qed.

(** The state that a connected block leaves. *)
Lemma connected_to_intro block pindex b q bq (c : cache) us (fJustCheck : bool) tx0 rest fees (r : connect_result V) :
  ready block pindex b q bq c -> Forall tx_valid (vtx block) -> one_coinbase (vtx block) ->
  vtx block = tx0 :: rest -> reward_ok pow params env tx0 (Chain.nHeight b) (fees + subsidy_after pow params bq) ->
  connect_map (coins c) (vtx block) (Chain.nHeight b) = Some (coins (view_after r), us) -> block_undo r = drop 1 us ->
  cache_ok (view_after r) -> coins_sound (Chain.nHeight b) (coins (view_after r)) ->
  total (coins (view_after r)) + fees <= total (coins c) + sum_of created (vtx block) ->
  (if fJustCheck then best (view_after r) = best c
   else forall h, phashBlock b = Some h -> Blob.IsNull h = false -> best (view_after r) = h) ->
  connected_to block b bq c fJustCheck r.
Proof.
  intros Hr Htxs Hone Hvtx Hrew E Eu Hok Hs Hm Hbest.
  destruct (parent_height st Hst pindex b q bq (rd_entry _ _ _ _ _ _ Hr) (rd_parent _ _ _ _ _ _ Hr) (rd_prev _ _ _ _ _ _ Hr)) as [Hh1 Hh2].
  destruct (one_coinbase_created _ Hone Htxs) as (tx0' & rest' & Hvtx' & Htx0 & Hcr & _).
  rewrite Hvtx in Hvtx'. injection Hvtx' as <- <-. rewrite Hcr in Hm. split; [|done|done|done|].
  - exists us. split; [exact E|]. rewrite Eu. now destruct us.
  - intros Hun. unfold new_money.
    destruct (reward_bound pow params env (nw_halving _ Hnet) tx0 (Chain.nHeight b) _ Htx0 ltac:(lia) (nw_cycle _ Hnet) Hrew); [done|lia].
Qed.

(** The transactions are valid after [state], with [c] at the parent. *)
Lemma connect_all_block block pindex b q bq (c c0 : cache) scripts cx mt state :
  ready block pindex b q bq c -> Forall tx_valid (vtx block) -> one_coinbase (vtx block) ->
  becomes c c0 (coins c) -> Forall (fresh_outputs (coins c)) (vtx block) ->
  context_ok params st pindex b q block scripts cx -> GetMedianTimePast (heap st) q = Some mt ->
  exists c' r, connect_all (script_error env) (mapBlockIndex st) (heap st) cx c0 0 (vtx block) state (mk_totals 0 0 [] [])
      = Some (inr (c', r)) /\
    match r with
    | inl st' => mode st' <> MODE_VALID /\ ~ txs_ok (script_error env) (heap st) cx b mt (coins c) 0 (vtx block)
    | inr t => txs_ok (script_error env) (heap st) cx b mt (coins c) 0 (vtx block) /\
        exists us, connect_map (coins c) (vtx block) (Chain.nHeight b) = Some (coins c', us) /\ becomes c c' (coins c') /\
          nFees t = block_fees cx (coins c) (vtx block) /\ control t = block_deferred cx (coins c) (vtx block) /\
          vtxundo t = drop 1 us /\ coins_sound (Chain.nHeight b) (coins c') /\ 0 <= nFees t <= SAFE_SUM /\
          total (coins c') + nFees t <= total (coins c) + sum_of created (vtx block)
    end.
Proof.
  intros Hr Htxs Hone (Hok0 & Em0 & Eb0) Hfresh Hcx Hmt. pose proof (co_index _ Hst) as Hi. pose proof (io_store _ Hi) as Hwf.
  destruct (parent_height st Hst pindex b q bq (rd_entry _ _ _ _ _ _ Hr) (rd_parent _ _ _ _ _ _ Hr) (rd_prev _ _ _ _ _ _ Hr)) as [Hh1 Hh2].
  destruct (one_coinbase_created _ Hone Htxs) as (tx0 & rest & _ & _ & Hcr & Hcv).
  pose proof (rd_height _ _ _ _ _ _ Hr) as Hh. pose proof (rd_money _ _ _ _ _ _ Hr) as Hm.
  assert (Hb : heap st !! cx_pindex cx = Some b) by (rewrite (cx_at _ _ _ _ _ _ _ _ Hcx); exact (rd_entry _ _ _ _ _ _ Hr)).
  assert (Hp : at_parent (mapBlockIndex st) q c0).
  { unfold at_parent. destruct (io_hash _ Hi q bq (rd_prev _ _ _ _ _ _ Hr)) as (h & Eh & Eq).
    rewrite (rd_best _ _ _ _ _ _ Hr) in Eh. injection Eh as <-. now rewrite Eb0. }
  pose proof (median_nonneg (heap st) q bq mt Hwf (io_fields _ Hi) (rd_prev _ _ _ _ _ _ Hr) Hmt) as Hpos.
  destruct (connect_all_spec (script_error env) (mapBlockIndex st) (heap st) cx b mt Hwf Hb (cx_height _ _ _ _ _ _ _ _ Hcx)
    q (rd_parent _ _ _ _ _ _ Hr) Hmt Hpos c0 0 (vtx block) state (mk_totals 0 0 [] []) [] Hok0 Hp Htxs (no_collision_tell _ Hone (rd_ids _ _ _ _ _ _ Hr)))
    as (c' & r & E & Hres); rewrite ?Em0; cbn [nFees nSigOps]; try done.
  - eapply list.Forall_impl; [exact Hfresh|]. intros tx Hf. right. split; [done|]. intros k _. apply not_elem_of_nil.
  - intros o Ho. now apply not_elem_of_nil in Ho.
  - lia.
  - exact (rd_coins _ _ _ _ _ _ Hr).
  - rewrite Hcr. unfold MONEY_BOUND, SAFE_SUM, MAX_MONEY, COIN in *. lia.
  - split; [lia|]. unfold sigop_limit. now destruct (cx_fDIP0001Active cx).
  - exists c', r. split; [exact E|]. rewrite Em0 in Hres. destruct r as [st'|t]; [exact Hres|].
    destruct Hres as (Htok & m' & us & Em & (Hok & Ec & Eb) & Ef & Econ & Eu & Hs & Hf & Hmoney).
    rewrite (cx_height _ _ _ _ _ _ _ _ Hcx) in Em. cbn [nFees control vtxundo app Nat.sub] in *.
    split; [exact Htok|]. exists us. rewrite Ec. split; [exact Em|]. split; [split; [exact Hok|split; [exact Ec|congruence]]|].
    pose proof (total_nonneg _ _ Hs). split; [lia|]. split; [exact Econ|]. split; [exact Eu|]. split; [exact Hs|].
    unfold MONEY_BOUND, SAFE_SUM, MAX_MONEY, COIN in *. lia.
Qed.

(** What is promised of the checks after [CheckBlock]. *)
Definition decided (block : CBlock) (state : CValidationState) (b : CBlockIndex) (q : nat) (bq : CBlockIndex) (mt : Z)
    (cx : tx_context) (c : cache) (fJustCheck : bool) (r : connect_result V) : Prop :=
  (connected r = true <-> connects block b q bq mt cx (coins c) /\ (fJustCheck = false -> disk_error env = None)) /\
  (if connected r then connect_state r = state /\ connected_to block b bq c fJustCheck r else mode (connect_state r) <> MODE_VALID).

Lemma decided_no block state b q bq mt cx c fJustCheck st' c' rej cache :
  mode st' <> MODE_VALID -> ~ (connects block b q bq mt cx (coins c) /\ (fJustCheck = false -> disk_error env = None)) ->
  decided block state b q bq mt cx c fJustCheck (mk_result false st' c' [] block rej cache).
Proof. intros Hst' Hno. split; [|done]. split; [done|]. now intros ?%Hno. Qed.

(** The result of a path, but for its verdict. *)
Ltac result_is Hs Hcx Hmt Hcache :=
  eexists; split; [reflexivity|]; split; [exact Hs|]; split; [exact Hcx|]; split; [exact Hmt|]; split; [exact Hcache|]; split; [reflexivity|].

Lemma connect_block_spec block state pindex b q bq (c : cache) fJustCheck vbc :
  ready block pindex b q bq c -> Forall tx_valid (vtx block) -> one_coinbase (vtx block) ->
  caches_ok (bip9 params) (heap st) vbc ->
  exists scripts cx mt r, connect_block pow params env st block state pindex b c fJustCheck vbc = Some (inr r) /\
    (scripts = false -> assumed_valid params st pindex) /\ context_ok params st pindex b q block scripts cx /\
    GetMedianTimePast (heap st) q = Some mt /\ caches_ok (bip9 params) (heap st) (bits_cache r) /\ block_after r = block /\
    decided block state b q bq mt cx c fJustCheck r.
Proof.
  intros Hr Htxs Hone Hvbc. pose proof (co_index _ Hst) as Hi. pose proof (io_store _ Hi) as Hwf.
  pose proof (rd_entry _ _ _ _ _ _ Hr) as Hb. pose proof (rd_prev _ _ _ _ _ _ Hr) as Hbq. pose proof (rd_parent _ _ _ _ _ _ Hr) as Hq.
  destruct (parent_height st Hst pindex b q bq Hb Hq Hbq) as [Hh1 Hh2].
  destruct (script_checks_spec params st Hst pindex b q bq Hb Hq Hbq) as (scripts & Es & Hs).
  destruct (block_context_spec params st Hst pindex b q bq Hbq (nw_deployments _ Hnet) (nw_count _ Hnet) block scripts vbc Hvbc)
    as (cx & vbc' & Ecx & Hcx & Hvbc').
  destruct (GetMedianTimePast_some (heap st) Hwf q bq Hbq) as [mt Hmt].
  destruct (overwrites_cases block b q bq c Hbq (rd_cache _ _ _ _ _ _ Hr) Htxs (rd_fresh _ _ _ _ _ _ Hr))
    as (enforce & c1 & over & Ee & Eo & Hc1 & Hover & Hfresh).
  exists scripts, cx, mt. unfold connect_block. rewrite Es, Hq. cbn [of_option mbind run_bind]. rewrite Hbq. cbn [of_option mbind run_bind].
  rewrite Ee. cbn [of_option mbind run_bind]. rewrite Eo. destruct over.
  { result_is Hs Hcx Hmt Hvbc. apply decided_no; [apply DoS_invalid|]. intros [[Hx _ _ _] _]. destruct (Hover eq_refl) as [H1 H2]. auto. }
  specialize (Hfresh eq_refl). rewrite Ecx. cbn [of_option mbind run_bind].
  destruct (connect_all_block block pindex b q bq c c1 scripts cx mt state Hr Htxs Hone Hc1 Hfresh Hcx Hmt) as (c2 & res & -> & Hres).
  cbn [mbind run_bind]. destruct res as [st'|t].
  { result_is Hs Hcx Hmt Hvbc'. destruct Hres as [H1 H2]. apply decided_no; [done|]. now intros [[_ Hx _ _] _]. }
  destruct Hres as (Htok & us & Em & (Hok2 & _ & Eb2) & Ef & Econ & Eu & Hsound & Hfees & Hmoney).
  destruct (one_coinbase_created _ Hone Htxs) as (tx0 & rest & Hvtx & Htx0 & _).
  destruct (check_reward_spec pow params env (nw_halving _ Hnet) block tx0 rest bq (nFees t) state Hvtx Htx0 Hh2 Hfees) as (rw & Erw & Hrw).
  rewrite <- Hh1 in Erw, Hrw. rewrite Erw. cbn [mbind run_bind]. rewrite Ef in Hrw. destruct rw as [[st' rej]|].
  { result_is Hs Hcx Hmt Hvbc'. destruct Hrw as [H1 H2]. apply decided_no; [done|]. intros [[_ _ _ (tx1 & rest1 & Hv1 & Hx)] _].
    rewrite Hvtx in Hv1. injection Hv1 as <- <-. auto. }
  rewrite Econ. pose proof (wait_spec (script_error env) cx (coins c) (vtx block)) as Hwait.
  destruct (wait (script_error env) cx (block_deferred cx (coins c) (vtx block))); cbn [negb]; cycle 1.
  { result_is Hs Hcx Hmt Hvbc'. apply decided_no; [apply DoS_invalid|]. intros [[_ _ Hx _] _]. now apply Hwait in Hx. }
  assert (Hcon : connects block b q bq mt cx (coins c)) by (split; [done|done|now apply Hwait|now exists tx0, rest]).
  assert (Hto : forall r, coins (view_after r) = coins c2 -> cache_ok (view_after r) -> block_undo r = drop 1 us ->
    (if fJustCheck then best (view_after r) = best c else
      forall h, phashBlock b = Some h -> Blob.IsNull h = false -> best (view_after r) = h) -> connected_to block b bq c fJustCheck r).
  { intros r E1 E2 E3 E4. apply (connected_to_intro block pindex b q bq c us fJustCheck tx0 rest (nFees t) r Hr Htxs Hone Hvtx);
      rewrite ?E1, ?Ef; try done. now rewrite <- Ef. }
  destruct fJustCheck.
  { result_is Hs Hcx Hmt Hvbc'. split; [now split|]. split; [done|]. now apply Hto. }
  destruct (disk_error env) as [err|] eqn:Ed.
  { result_is Hs Hcx Hmt Hvbc'. apply decided_no; [done|]. intros [_ Hx]. specialize (Hx eq_refl). congruence. }
  destruct (io_hash _ Hi pindex b Hb) as (h & Eh & _). rewrite Eh. cbn [of_option mbind run_bind].
  result_is Hs Hcx Hmt Hvbc'. split; [now split|]. split; [done|]. apply Hto; try done.
  intros h' Eh' Hn. rewrite Eh in Eh'. injection Eh' as <-. unfold best. cbn [view_after SetBestBlock hashBlock]. now rewrite Hn.
Qed.

(** *** With the checks that need nothing but the block *)

Context (GetHash : CBlockHeader -> list Z).

(** A block that is marked as checked was checked. *)
Definition checked_before (block : CBlock) : Prop :=
  fChecked block = true -> Forall tx_valid (vtx block) /\ one_coinbase (vtx block).
Definition valid_itself (block : CBlock) (fJustCheck : bool) : Prop :=
  fChecked block = true \/
  block_valid GetHash (chain params) (adjusted_time env) (locks env) (negb fJustCheck) (negb fJustCheck) block.

(** The mark of the block, and what the cache has looked up, do not matter further on. *)
Lemma ready_same block f pindex b q bq c c' : becomes c c' (coins c) -> ready block pindex b q bq c ->
  ready (mk_block (block_header block) (vtx block) f) pindex b q bq c'.
Proof. intros (Hok & Em & Eb) [[] ? ? ?]. split; [split|..]; rewrite ?Em, ?Eb; done. Qed.

Lemma marked_same block f pindex b q bq c mt cx scripts m r fJustCheck :
  let block' := mk_block (block_header block) (vtx block) f in
  (connects block' b q bq mt cx m <-> connects block b q bq mt cx m) /\
  (context_ok params st pindex b q block' scripts cx -> context_ok params st pindex b q block scripts cx) /\
  (connected_to block' b bq c fJustCheck r -> connected_to block b bq c fJustCheck r).
Proof. split; [split; intros []; now split|]. split; intros []; now split. Qed.

Lemma CheckBlock_cases block state fJustCheck : hashes_ok block -> checked_before block ->
  exists k, CheckBlock GetHash (chain params) (adjusted_time env) (locks env) block state (negb fJustCheck) (negb fJustCheck) = Some k /\
    vtx (checked_block k) = vtx block /\ block_header (checked_block k) = block_header block /\
    (accepted k = true <-> valid_itself block fJustCheck) /\
    (if accepted k then check_state k = state /\ Forall tx_valid (vtx block) /\ one_coinbase (vtx block)
     else mode (check_state k) <> MODE_VALID).
Proof.
  intros Hh Hck. unfold valid_itself. destruct (fChecked block) eqn:Ef.
  - unfold CheckBlock. rewrite Ef. eexists. split; [reflexivity|]. split; [done|]. split; [done|].
    split; [split; [now left|done]|]. split; [done|]. now apply Hck.
  - destruct (CheckBlock_spec GetHash (chain params) (adjusted_time env) (locks env) block state (negb fJustCheck) (negb fJustCheck) Hh Ef) as (k & -> & Ha & Hk).
    exists k. split; [done|]. destruct (accepted k).
    + destruct Hk as [Hst' ->]. split; [done|]. split; [done|]. split; [split; [intros _; right; now apply Ha|done]|].
      split; [done|]. destruct (proj1 Ha eq_refl) as [_ _ _ Hc]. exact (conj (bv_txs _ _ Hc) (bv_coinbase _ _ Hc)).
    + destruct Hk as [Hst' ->]. split; [done|]. split; [done|]. split; [|done]. split; [done|]. intros [?|Hx]; [done|now apply Ha].
Qed.

Lemma ConnectBlock_spec block state pindex b q bq (c : cache) fJustCheck vbc :
  ready block pindex b q bq c -> checked_before block -> hashes_ok block ->
  blob_eq (GetHash (block_header block)) (hashGenesisBlock (chain params)) = false ->
  caches_ok (bip9 params) (heap st) vbc ->
  exists scripts cx mt r, ConnectBlock pow GetHash params env st block state pindex c fJustCheck vbc = Some (inr r) /\
    (scripts = false -> assumed_valid params st pindex) /\ context_ok params st pindex b q block scripts cx /\
    GetMedianTimePast (heap st) q = Some mt /\ caches_ok (bip9 params) (heap st) (bits_cache r) /\
    (connected r = true <-> valid_itself block fJustCheck /\ connects block b q bq mt cx (coins c) /\
       (fJustCheck = false -> disk_error env = None)) /\
    (if connected r then connect_state r = state /\ connected_to block b bq c fJustCheck r else mode (connect_state r) <> MODE_VALID).
Proof.
  intros Hr Hck Hh Hgen Hvbc. pose proof (io_store _ (co_index _ Hst)) as Hwf.
  pose proof (rd_entry _ _ _ _ _ _ Hr) as Hb. pose proof (rd_prev _ _ _ _ _ _ Hr) as Hbq. pose proof (rd_parent _ _ _ _ _ _ Hr) as Hq.
  unfold ConnectBlock. destruct (CheckBlock_cases block state fJustCheck Hh Hck) as (k & -> & Ev & Eh & Ha & Hk). cbn [of_option mbind run_bind].
  destruct (accepted k); cbn [negb]; cycle 1.
  { destruct (script_checks_spec params st Hst pindex b q bq Hb Hq Hbq) as (scripts & _ & Hs).
    destruct (block_context_spec params st Hst pindex b q bq Hbq (nw_deployments _ Hnet) (nw_count _ Hnet) block scripts vbc Hvbc)
      as (cx & vbc' & _ & Hcx & _). destruct (GetMedianTimePast_some (heap st) Hwf q bq Hbq) as [mt Hmt].
    exists scripts, cx, mt. eexists. split; [reflexivity|]. split; [exact Hs|]. split; [exact Hcx|]. split; [exact Hmt|].
    split; [exact Hvbc|]. split; [|exact Hk]. split; [done|]. now intros [Hx%Ha _]. }
  destruct Hk as (-> & Htxs & Hone). rewrite Hb. cbn [of_option mbind run_bind]. rewrite Hq, Hbq. cbn [of_option mbind run_bind option_bind].
  rewrite (rd_best _ _ _ _ _ _ Hr). cbn [of_option mbind run_bind option_bind].
  destruct (cache_GetBestBlock_spec c (rd_cache _ _ _ _ _ _ Hr)) as [(Hok & Em & Eb) Ebest].
  destruct (cache_GetBestBlock c) as [c1 hb]. cbn [fst snd] in *. subst hb. rewrite blob_eq_refl. cbn [negb].
  rewrite Eh, Hgen.
  destruct k as [? ? [hd txs f] ?]. cbn [checked_block vtx block_header] in *. subst hd txs.
  destruct (connect_block_spec _ state pindex b q bq c1 fJustCheck vbc (ready_same block f pindex b q bq c c1 (conj Hok (conj Em Eb)) Hr) Htxs Hone Hvbc)
    as (scripts & cx & mt & r & -> & Hs & Hcx & Hmt & Hvbc' & _ & Hd1 & Hd2).
  destruct (marked_same block f pindex b q bq c mt cx scripts (coins c) r fJustCheck) as (Hcon & Hctx & Hto).
  exists scripts, cx, mt, r. split; [done|]. split; [done|]. split; [now apply Hctx|]. split; [done|]. split; [done|].
  rewrite Em, Hcon in Hd1. split; [rewrite Hd1; split; [intros []; split; [now apply Ha|now split]|tauto]|].
  destruct (connected r); [|done]. destruct Hd2 as [H1 H2]. split; [done|]. apply Hto.
  destruct H2 as [X1 X2 X3 X4 X5]. rewrite Em in X1, X5. rewrite Eb in X3. now split.
Qed.

Lemma valid_itself_contents block fJustCheck : checked_before block -> valid_itself block fJustCheck ->
  Forall tx_valid (vtx block) /\ one_coinbase (vtx block).
Proof.
  intros Hck [Hf|[_ _ _ Hc]]; [now apply Hck|]. exact (conj (bv_txs _ _ Hc) (bv_coinbase _ _ Hc)).
Qed.

(** ** Properties *)

(** C2. [ConnectBlock] ends without a failed assertion or exception, and decides whether the block is valid: by itself
    (unless it was checked before), and on the coins at its parent, with the transactions one after another
    ([txs_ok]: unspent and mature inputs, relative lock times, values, signature operations and scripts), no
    overwritten outputs where BIP30 is in force, no more value and no other payees for the coinbase transaction than
    allowed, and the scripts that other threads check; [context_ok] says which rules are in force.  A rejected
    block leaves an invalid state; an accepted one leaves the state as it was, and the coins are those after its
    transactions, with the undo data for all but the first.
    What is assumed ([ready]): the block follows the best block of the coins; each coin has a value in the range of
    money, and together they are worth at most 2^63 - 2^53, which [chain_sound] proves of every chain of connected
    blocks; different transactions of the block have different ids (one may be there twice, and the block is then
    rejected); where BIP30 is not enforced, no output of the block exists. *)
Theorem ConnectBlock_correct block state pindex b q bq (c : cache) fJustCheck vbc :
  ready block pindex b q bq c -> checked_before block -> hashes_ok block ->
  blob_eq (GetHash (block_header block)) (hashGenesisBlock (chain params)) = false ->
  caches_ok (bip9 params) (heap st) vbc ->
  exists scripts cx mt r, ConnectBlock pow GetHash params env st block state pindex c fJustCheck vbc = Some (inr r) /\
    (scripts = false -> assumed_valid params st pindex) /\ context_ok params st pindex b q block scripts cx /\
    GetMedianTimePast (heap st) q = Some mt /\ caches_ok (bip9 params) (heap st) (bits_cache r) /\
    (connected r = true <-> valid_itself block fJustCheck /\ connects block b q bq mt cx (coins c) /\
       (fJustCheck = false -> disk_error env = None)) /\
    (if connected r then connect_state r = state /\ connected_to block b bq c fJustCheck r else mode (connect_state r) <> MODE_VALID).
Proof. apply ConnectBlock_spec. Qed.

(** C13. A block that was connected can be disconnected: with the undo data of [ConnectBlock], [DisconnectBlock]
    is clean and gives back the coins and the best block that were there before. *)
Theorem connected_block_disconnects block state pindex b q bq (c : cache) vbc r h :
  ready block pindex b q bq c -> checked_before block -> hashes_ok block ->
  blob_eq (GetHash (block_header block)) (hashGenesisBlock (chain params)) = false ->
  caches_ok (bip9 params) (heap st) vbc -> all_restorable (coins c) ->
  phashBlock b = Some h -> Blob.IsNull h = false ->
  ConnectBlock pow GetHash params env st block state pindex c false vbc = Some (inr r) -> connected r = true ->
  exists c', DisconnectBlock (vtx block) (Chain.nHeight b) h (best c) (Some (block_undo r)) (view_after r) = inr (c', DISCONNECT_OK) /\
    cache_ok c' /\ coins c' = coins c /\ (Blob.IsNull (best c) = false -> best c' = best c).
Proof.
  intros Hr Hck Hh Hgen Hvbc Hres Eh Hn E Hcon.
  destruct (ConnectBlock_spec block state pindex b q bq c false vbc Hr Hck Hh Hgen Hvbc)
    as (scripts & cx & mt & r' & E' & _ & _ & _ & _ & Hiff & Hto).
  rewrite E in E'. injection E' as <-. destruct (proj1 Hiff Hcon) as (Hself & _). rewrite Hcon in Hto. destruct Hto as [_ Hto].
  destruct (valid_itself_contents block false Hck Hself) as [_ (tx0 & rest & Hvtx & Hcb & Hrest)].
  destruct (parent_height st Hst pindex b q bq (rd_entry _ _ _ _ _ _ Hr) (rd_parent _ _ _ _ _ _ Hr) (rd_prev _ _ _ _ _ _ Hr)) as [Hh1 Hh2].
  pose proof (rd_height _ _ _ _ _ _ Hr). destruct (ct_coins _ _ _ _ _ _ Hto) as (us & Em & ->). rewrite Hvtx in Em |- *.
  exact (disconnect_spec (view_after r) tx0 rest (Chain.nHeight b) h (best c) (coins c) us (ct_cache _ _ _ _ _ _ Hto)
    (ct_best _ _ _ _ _ _ Hto h Eh Hn) Hres ltac:(lia) Hcb Hrest Em).
Qed.
End Connect.

(** ** The schedule of new money *)

Section Schedule.
Variable pow : spec_float -> spec_float -> spec_float.
Context (params : ConnectParams).

(** What the blocks up to height [h] may add: 500 coins for each of the first 24000 and 25 for the later ones, and for
    every superblock a tenth of these for each block of its cycle. *)
Definition schedule (h : Z) : Z :=
  500 * COIN * Z.min h 24000 + 25 * COIN * Z.max 0 (h - 24000) +
  nSuperblockCycle (subsidy params) * (50 * COIN * (Z.min h 24000 / nSuperblockCycle (subsidy params)) +
                                       250000000 * (h / nSuperblockCycle (subsidy params))).

Lemma div_step k a b : 0 < k -> 0 <= a <= b -> 0 <= a / k <= b / k.
Proof. intros Hk Hab. split; [apply Z.div_pos; lia|apply Z.div_le_mono; lia]. Qed.

Lemma div_multiple k h : 0 < k -> 1 <= h -> h mod k = 0 -> h / k = (h - 1) / k + 1.
Proof.
  intros Hk Hh Hm. pose proof (Z.div_mod h k ltac:(lia)) as E. rewrite Hm in E.
  replace (h - 1) with ((k - 1) + (h / k - 1) * k) by lia. rewrite Z.div_add, (Z.div_small (k - 1)) by lia. lia.
Qed.

Lemma whole_subsidy_schedule bits h : 1 <= h ->
  0 <= whole_subsidy pow (subsidy params) bits (h - 1) <= (if 24000 <? h then 25 else 500) * COIN.
Proof.
  intros Hh. pose proof (whole_subsidy_bounds pow (subsidy params) bits (h - 1)).
  destruct (subsidy_base_bounds pow (subsidy params) bits (h - 1)) as [Hb1 Hb2].
  destruct (Z.ltb_spec 24000 h); [specialize (Hb2 ltac:(lia))|]; unfold COIN in *; lia.
Qed.

Lemma superblock_schedule h : 0 < nSuperblockCycle (subsidy params) -> 1 <= h ->
  superblock_limit pow (subsidy params) h <=
  nSuperblockCycle (subsidy params) * (50 * COIN * (Z.min h 24000 / nSuperblockCycle (subsidy params)
      - Z.min (h - 1) 24000 / nSuperblockCycle (subsidy params)) +
    250000000 * (h / nSuperblockCycle (subsidy params) - (h - 1) / nSuperblockCycle (subsidy params))).
Proof.
  intros Hk Hh. set (k := nSuperblockCycle (subsidy params)) in *.
  pose proof (div_step k (Z.min (h - 1) 24000) (Z.min h 24000) Hk ltac:(lia)) as H1.
  pose proof (div_step k (h - 1) h Hk ltac:(lia)) as H2.
  unfold superblock_limit. destruct (IsValidBlockHeight (subsidy params) h) eqn:Ev.
  2:{ apply Z.mul_nonneg_nonneg; [lia|]. unfold COIN. lia. }
  unfold IsValidBlockHeight in Ev. apply andb_true_iff in Ev as [_ Ev%Z.eqb_eq]. fold k in Ev |- *. rewrite Z.rem_mod_nonneg in Ev by lia.
  pose proof (div_multiple k h Hk Hh Ev) as Ed. rewrite Z.mul_comm. apply Z.mul_le_mono_nonneg_l; [lia|].
  set (bits := default 1 _). pose proof (whole_subsidy_schedule bits h Hh) as Hw.
  assert (Hpart : superblock_part pow (subsidy params) bits (h - 1) <= (if 24000 <? h then 250000000 else 50 * COIN)).
  { unfold superblock_part. destruct (_ <? h - 1); [|destruct (24000 <? h); unfold COIN; lia].
    transitivity ((if 24000 <? h then 25 else 500) * COIN / 10); [apply Z.div_le_mono; lia|]. now destruct (24000 <? h). }
  destruct (Z.ltb_spec 24000 h); [unfold COIN; lia|]. rewrite !Z.min_l by lia. rewrite Ed. unfold COIN in *. lia.
Qed.

Lemma new_money_schedule b bq : 0 < nSuperblockCycle (subsidy params) -> Chain.nHeight b = Chain.nHeight bq + 1 -> 0 <= Chain.nHeight bq ->
  new_money pow params b bq <= schedule (Chain.nHeight b) - schedule (Chain.nHeight bq).
Proof.
  intros Hk Eh H0. unfold new_money, subsidy_after.
  pose proof (superblock_schedule (Chain.nHeight b) Hk ltac:(lia)) as Hs.
  pose proof (whole_subsidy_schedule (Chain.nBits bq) (Chain.nHeight b) ltac:(lia)) as Hw.
  pose proof (superblock_part_bounds pow (subsidy params) (Chain.nBits bq) (Chain.nHeight bq)) as Hp.
  replace (Chain.nHeight b - 1) with (Chain.nHeight bq) in * by lia. unfold schedule.
  rewrite Z.mul_add_distr_l in Hs |- *. rewrite Z.mul_add_distr_l.
  destruct (Z.ltb_spec 24000 (Chain.nHeight b)).
  - rewrite (Z.min_r (Chain.nHeight b)), (Z.min_r (Chain.nHeight bq)), (Z.max_r 0 (Chain.nHeight b - 24000)), (Z.max_r 0 (Chain.nHeight bq - 24000)) in * by lia.
    unfold COIN in *. lia.
  - rewrite (Z.min_l (Chain.nHeight b)), (Z.min_l (Chain.nHeight bq)), (Z.max_l 0 (Chain.nHeight b - 24000)), (Z.max_l 0 (Chain.nHeight bq - 24000)) in * by lia.
    unfold COIN in *. lia.
Qed.

Lemma schedule_bounds h : 0 < nSuperblockCycle (subsidy params) -> 0 <= h -> 0 <= schedule h <= 13200000 * COIN + 2750000000 * h.
Proof.
  intros Hk Hh. unfold schedule. set (k := nSuperblockCycle (subsidy params)) in *.
  pose proof (Z.mul_div_le (Z.min h 24000) k Hk). pose proof (Z.mul_div_le h k Hk).
  pose proof (Z.div_pos (Z.min h 24000) k ltac:(lia) Hk). pose proof (Z.div_pos h k Hh Hk).
  set (d1 := Z.min h 24000 / k) in *. set (d2 := h / k) in *.
  assert (0 <= k * d1 /\ 0 <= k * d2) by (split; apply Z.mul_nonneg_nonneg; lia).
  replace (k * (50 * COIN * d1 + 250000000 * d2)) with (50 * COIN * (k * d1) + 250000000 * (k * d2)) by lia. unfold COIN. lia.
Qed.

End Schedule.

(** ** Chains of connected blocks *)

Section Chains.
Variable pow : spec_float -> spec_float -> spec_float.
Context (params : ConnectParams) (GetHash : CBlockHeader -> list Z).
Context {V : Type} `{CoinsViewSpec V}.
Abbreviation cache := (CCoinsViewCache V).

(** The coins after connecting blocks one after another to an empty set of coins, up to block [p] at height [h],
    and the money [n] that the blocks may have added: what a node has that starts with the genesis block, whose
    own coinbase transaction is never added.  The index grows in between, where entries keep their heights; the
    clock and what the other parts of the node say change. *)
Inductive connected_chain : cache -> nat -> Z -> Z -> Prop :=
  | chain_start c p h : 0 <= h < 2 ^ 31 -> cache_ok c -> coins c = ∅ -> connected_chain c p h 0
  | chain_block c q h n env st block state pindex b bq vbc r :
      chain_ok st -> connected_chain c q h n -> placed params st block pindex b q bq c -> Chain.nHeight bq = h ->
      checked_before block -> hashes_ok block ->
      blob_eq (GetHash (block_header block)) (hashGenesisBlock (chain params)) = false ->
      caches_ok (bip9 params) (heap st) vbc -> ~ unchecked (subsidy params) (governance env) (Chain.nHeight b) ->
      ConnectBlock pow GetHash params env st block state pindex c false vbc = Some (inr r) -> connected r = true ->
      connected_chain (view_after r) pindex (Chain.nHeight b) (n + new_money pow params b bq).

(** What is true after every chain of connected blocks: nothing has to be assumed of the coins. *)
Lemma chain_sound (c : cache) p h n : network_ok params -> connected_chain c p h n ->
  0 <= h < 2 ^ 31 /\ cache_ok c /\ coins_sound h (coins c) /\ total (coins c) <= n <= schedule params h /\ total (coins c) <= MONEY_BOUND.
Proof.
  intros Hnet. induction 1 as [c p h Hh0 Hok E|c q h n env st block state pindex b bq vbc r Hst _ IH Hpl Eh Hck Hh Hgen Hvbc Hun E Hcon].
  { rewrite E. split; [done|]. split; [done|]. split; [now intros o cn Ho%lookup_empty_Some|].
    pose proof (schedule_bounds params h (nw_cycle _ Hnet) (proj1 Hh0)). unfold MONEY_BOUND. change (total ∅) with 0. lia. }
  destruct IH as (Hh0 & Hok & Hs & Hn & Hb). pose proof (rd_height _ _ _ _ _ _ _ _ Hpl) as Hmax.
  destruct (parent_height st Hst pindex b q bq (rd_entry _ _ _ _ _ _ _ _ Hpl) (rd_parent _ _ _ _ _ _ _ _ Hpl) (rd_prev _ _ _ _ _ _ _ _ Hpl)) as [Hp _].
  assert (Hr : ready params st block pindex b q bq c).
  { split; [done|done| |done]. intros o cn Ho. destruct (Hs o cn Ho) as [? ?]. split; [done|lia]. }
  destruct (ConnectBlock_spec pow params env st Hnet Hst GetHash block state pindex b q bq c false vbc Hr Hck Hh Hgen Hvbc)
    as (scripts & cx & mt & r' & E' & _ & _ & _ & _ & _ & Hres).
  rewrite E in E'. injection E' as <-. rewrite Hcon in Hres. destruct Hres as [_ Hto].
  pose proof (ct_money _ _ _ _ _ _ _ _ _ Hto Hun) as Hm. rewrite <- Eh in Hn.
  pose proof (new_money_schedule pow params b bq (nw_cycle _ Hnet) Hp ltac:(lia)) as Hnew.
  pose proof (schedule_bounds params (Chain.nHeight b) (nw_cycle _ Hnet) ltac:(lia)) as Hsched.
  split; [lia|]. split; [exact (ct_cache _ _ _ _ _ _ _ _ _ Hto)|]. split; [exact (ct_sound _ _ _ _ _ _ _ _ _ Hto)|].
  unfold MONEY_BOUND, COIN in *. lia.
Qed.

(** C3. The unspent money after any chain of connected blocks, starting from no coins, is never more than what the
    blocks may create: for every block the subsidy after its parent and the limit of superblock payments
    ([new_money]), whatever transactions the blocks have; altogether less than 13.2 million coins and 27.5 for every
    block.  No coin has a value outside the range of money.  Nothing is assumed of the sum of the coins: that it does not
    overflow is part of the proof.  The blocks are at heights whose value is checked
    ([unchecked] are heights of the budget window, on a node that is not synchronized or with the old budget
    spork), their transactions' ids do not collide, and where BIP30 is not enforced they do not overwrite outputs ([placed]). *)
Theorem money_supply (c : cache) p h n : network_ok params -> connected_chain c p h n ->
  0 <= total (coins c) <= n /\ n <= 13200000 * COIN + 2750000000 * h /\
  forall o cn, coins c !! o = Some cn -> in_range (nValue (out cn)).
Proof.
  intros Hnet Hc. destruct (chain_sound c p h n Hnet Hc) as (Hh & _ & Hs & Hn & _).
  pose proof (schedule_bounds params h (nw_cycle _ Hnet) (proj1 Hh)). pose proof (total_nonneg _ _ Hs).
  split; [lia|]. split; [lia|]. intros o cn Ho. apply (Hs o cn Ho).
Qed.

End Chains.

(** The minimum work of the test network is written with two prefixes ([chainparams.cpp]): the digits end at
    the second [x], and the value is zero. *)
Lemma testnet_minimum_work :
  uint256S "0x0x0000000000000000000000000000000000000000000000000000000000000110"%string = null_blob 32 /\
  uint256S "0x0000000000000000000000000000000000000000000000000000000000000110"%string <> null_blob 32.
Proof. split; [vm_compute; reflexivity|]. vm_compute. discriminate. Qed.

(** *** A concrete block *)

(** The third block of [test_index], with a transaction that spends a coin. *)
Definition sample_params : ConnectParams :=
  mk_connect_params test_params demo_bip9 main_subsidy 2 (replicate 32 5) (replicate 32 0) 2 (replicate 32 0) 0.
Definition sample_env (script : CScriptCheck -> option string) : ConnectEnv :=
  mk_connect_env 5000 demo_locks (demo_view true) demo_payments script None.
Definition sample_parent : CBlockIndex := default (demo_entry 0) (heap test_index !! 2%nat).
Definition sample_prev : list Z := test_GetHash (test_child 2).
Definition sample_point : COutPoint := mk_outpoint (replicate 32 7) 0.
Definition sample_coin : Coin := new_coin (mk_txout 900 [0x51] (-10)) 1 false.
Definition sample_coins (m : gmap COutPoint Coin) : CCoinsViewCache map_view := new_cache (mk_map_view m sample_prev).
Definition sample_map : gmap COutPoint Coin := {[ sample_point := sample_coin ]}.
Definition sample_coinbase : CTransaction :=
  UpdateHash (mk_tx 1 [mk_txin (mk_outpoint (replicate 32 0) 0xFFFFFFFF) [0x53; 0x00] 0xFFFFFFFF]
    [mk_txout 500 [0x51] (-10)] 0 null_hash).
Definition sample_spend : CTransaction :=
  UpdateHash (mk_tx 1 [mk_txin sample_point [] 0xFFFFFFFF] [mk_txout 800 [0x52] (-10)] 0 null_hash).
Definition sample_block (txs : list CTransaction) : CBlock := mk_block (test_child 3) txs true.
Definition no_votes : VersionBitsCache := VersionBits.Clear [∅; ∅; ∅].
Definition sample_connect (script : CScriptCheck -> option string) (m : gmap COutPoint Coin) (txs : list CTransaction)
    : run (connect_result map_view) :=
  ConnectBlock demo_pow test_GetHash sample_params (sample_env script) test_index (sample_block txs) CValidationState_new 3
    (sample_coins m) false no_votes.
Definition sample_verdict (r : run (connect_result map_view)) : option (bool * string * list (list Coin)) :=
  match r with Some (inr r) => Some (connected r, strRejectReason (connect_state r), block_undo r) | _ => None end.

Lemma verdict_connected (r : run (connect_result map_view)) reason u : sample_verdict r = Some (true, reason, u) ->
  exists r', r = Some (inr r') /\ connected r' = true.
Proof. destruct r as [[e|r]|]; [done| |done]. cbn [sample_verdict]. intros [= Hc _ _]. now exists r. Qed.

Example sample_verdicts :
  sample_verdict (sample_connect (fun _ => None) sample_map [sample_coinbase; sample_spend]) =
    Some (true, EmptyString, [[sample_coin]]) /\
  sample_verdict (sample_connect (fun _ => Some "e"%string) sample_map [sample_coinbase; sample_spend]) =
    Some (false, "mandatory-script-verify-flag-failed (e)"%string, []) /\
  sample_verdict (sample_connect (fun _ => None) ∅ [sample_coinbase; sample_spend]) =
    Some (false, "bad-txns-inputs-missingorspent"%string, []) /\
  sample_verdict (sample_connect (fun _ => None) ∅ [sample_coinbase]) = Some (true, EmptyString, []) /\
  (* a transaction that is there twice *)
  sample_verdict (sample_connect (fun _ => None) sample_map [sample_coinbase; sample_spend; sample_spend]) =
    Some (false, "bad-txns-inputs-missingorspent"%string, []).
Proof. split; [|split; [|split; [|split]]]; vm_compute; reflexivity. Qed.

Lemma sample_network : network_ok sample_params.
Proof. split; [exact demo_deployments_ok|reflexivity|reflexivity|reflexivity]. Qed.

Lemma sample_chain : chain_ok test_index.
Proof. exact (headers_chain_ok _ _ _ _ test_index_ok). Qed.

Lemma sample_txs_valid : Forall tx_valid [sample_coinbase; sample_spend].
Proof.
  constructor; [|constructor; [|constructor]].
  - destruct (CheckTransaction_spec sample_coinbase CValidationState_new) as [[Hv _]|[_ (st & E & _)]]; [exact Hv|].
    exfalso. revert E. vm_compute. discriminate.
  - destruct (CheckTransaction_spec sample_spend CValidationState_new) as [[Hv _]|[_ (st & E & _)]]; [exact Hv|].
    exfalso. revert E. vm_compute. discriminate.
Qed.

Lemma sample_hash tx : tx ∈ [sample_coinbase; sample_spend] -> is_hash (tx_hash tx).
Proof.
  intros [->|[->|[]%not_elem_of_nil]%elem_of_cons]%elem_of_cons; (split; [by_eval|vm_compute; reflexivity]).
Qed.

Lemma sample_coins_ok m : map_Forall (fun _ cn => IsSpent cn = false) m ->
  cache_ok (sample_coins m) /\ coins (sample_coins m) = m /\ best (sample_coins m) = sample_prev.
Proof.
  intros Hm. exact (new_cache_ok (mk_map_view m sample_prev) Hm).
Qed.

Lemma distinct_no_collision txs : NoDup (tx_hash <$> txs) -> no_collision txs.
Proof.
  intros Hnd tx tx' (i & Hi)%list_elem_of_lookup (j & Hj)%list_elem_of_lookup Eh.
  assert (E : i = j); [|subst j; rewrite Hi in Hj; now injection Hj].
  eapply (proj1 (NoDup_alt _) Hnd _ _ (tx_hash tx)); rewrite list_lookup_fmap; [now rewrite Hi|rewrite Hj, Eh; reflexivity].
Qed.

Lemma sample_placed m txs : txs ∈ [[sample_coinbase]; [sample_coinbase; sample_spend]] -> best (sample_coins m) = sample_prev ->
  placed sample_params test_index (sample_block txs) 3 test_entry 2 sample_parent (sample_coins m).
Proof.
  intros Htxs Eb. assert (Hh : Chain.nHeight test_entry = 3) by (vm_compute; reflexivity).
  split; rewrite ?Eb, ?Hh.
  - exact test_entry_at.
  - vm_compute. reflexivity.
  - vm_compute. reflexivity.
  - vm_compute. reflexivity.
  - lia.
  - apply distinct_no_collision. apply elem_of_cons in Htxs as [->|[->|[]%not_elem_of_nil]%elem_of_cons]; by_eval.
  - intros Hno. exfalso. apply Hno. split.
    + intros h e _ He Hx. rewrite Hh in Hx. apply elem_of_cons in He as [->|[->|[]%not_elem_of_nil]%elem_of_cons]; discriminate Hx.
    + assert (E : (p ← GetAncestor (heap test_index) 2 2; p ← p; b ← heap test_index !! p; h ← phashBlock b; Some (blob_eq h (replicate 32 5)))
        = Some false) by (vm_compute; reflexivity).
      intros p bp h Ea Hp Eh. change (BIP34Height sample_params) with 2 in Ea. rewrite Ea in E. cbn [mbind option_bind] in E.
      rewrite Hp in E. cbn [mbind option_bind] in E. rewrite Eh in E. cbn [mbind option_bind] in E. now injection E.
Qed.

Lemma sample_ready m txs : txs ∈ [[sample_coinbase]; [sample_coinbase; sample_spend]] -> m ∈ [∅; sample_map] ->
  ready sample_params test_index (sample_block txs) 3 test_entry 2 sample_parent (sample_coins m).
Proof.
  intros Htxs Hm.
  assert (Hsound : map_Forall (fun _ cn => in_range (nValue (out cn)) /\ 0 <= Coins.nHeight cn <= 3) m /\
    map_Forall (fun _ cn => IsSpent cn = false) m /\ total m <= MONEY_BOUND).
  { apply elem_of_cons in Hm as [->|[->|[]%not_elem_of_nil]%elem_of_cons];
      [split; [apply map_Forall_empty|split; [apply map_Forall_empty|by_eval]]|].
    split; [|split; [apply map_Forall_singleton; reflexivity|by_eval]].
    apply map_Forall_singleton. unfold in_range. by_eval. }
  destruct Hsound as (Hs & Hu & Ht). destruct (sample_coins_ok m Hu) as (Hok & Em & Eb).
  assert (Hh : Chain.nHeight test_entry = 3) by (vm_compute; reflexivity).
  split; rewrite ?Em, ?Hh; [now apply sample_placed|exact Hok| |exact Ht].
  intros o cn Ho. exact (Hs o cn Ho).
Qed.

Lemma sample_checked txs : txs ∈ [[sample_coinbase]; [sample_coinbase; sample_spend]] -> checked_before (sample_block txs).
Proof.
  pose proof sample_txs_valid as Hv. intros Htxs _. cbn [sample_block vtx].
  apply elem_of_cons in Htxs as [->|[->|[]%not_elem_of_nil]%elem_of_cons].
  - split; [constructor; [now apply Forall_cons_1 in Hv|constructor]|]. exists sample_coinbase, []. split; [reflexivity|]. split; [reflexivity|constructor].
  - split; [exact Hv|]. exists sample_coinbase, [sample_spend]. split; [reflexivity|]. split; [reflexivity|]. constructor; [reflexivity|constructor].
Qed.

Lemma sample_hashes txs : txs ∈ [[sample_coinbase]; [sample_coinbase; sample_spend]] -> hashes_ok (sample_block txs).
Proof.
  intros Htxs. split; [split; [by_eval|reflexivity]|].
  assert (Hin : (length txs <= 2)%nat /\ forall tx, tx ∈ txs -> tx ∈ [sample_coinbase; sample_spend]).
  { apply elem_of_cons in Htxs as [->|[->|[]%not_elem_of_nil]%elem_of_cons]; (split; [by_eval|]); intros tx; [|done].
    rewrite !elem_of_cons. intros [->|[]%not_elem_of_nil]. now left. }
  change (vtx (sample_block txs)) with txs. destruct Hin as [Hl Hin]. split; [|lia].
  apply list.Forall_fmap, list.Forall_forall. intros tx Htx. apply sample_hash, Hin, Htx.
Qed.

Lemma sample_not_genesis txs : blob_eq (test_GetHash (block_header (sample_block txs))) (hashGenesisBlock (chain sample_params)) = false.
Proof. vm_compute. reflexivity. Qed.

Lemma sample_caches : caches_ok (bip9 sample_params) (heap test_index) no_votes.
Proof. now apply caches_ok_clear. Qed.

Lemma ConnectBlock_correct_witness :
  exists scripts cx mt r,
    ConnectBlock demo_pow test_GetHash sample_params (sample_env (fun _ => None)) test_index
      (sample_block [sample_coinbase; sample_spend]) CValidationState_new 3 (sample_coins sample_map) false no_votes = Some (inr r) /\
    (scripts = false -> assumed_valid sample_params test_index 3) /\
    context_ok sample_params test_index 3 test_entry 2 (sample_block [sample_coinbase; sample_spend]) scripts cx /\
    GetMedianTimePast (heap test_index) 2 = Some mt /\ caches_ok (bip9 sample_params) (heap test_index) (bits_cache r) /\
    (connected r = true <->
       valid_itself sample_params (sample_env (fun _ => None)) test_GetHash (sample_block [sample_coinbase; sample_spend]) false /\
       connects demo_pow sample_params (sample_env (fun _ => None)) test_index (sample_block [sample_coinbase; sample_spend])
         test_entry 2 sample_parent mt cx (coins (sample_coins sample_map)) /\
       (false = false -> disk_error (sample_env (fun _ => None)) = None)) /\
    (if connected r then connect_state r = CValidationState_new /\
       connected_to demo_pow sample_params (sample_env (fun _ => None)) (sample_block [sample_coinbase; sample_spend])
         test_entry sample_parent (sample_coins sample_map) false r
     else mode (connect_state r) <> MODE_VALID).
Proof.
  apply (ConnectBlock_correct demo_pow sample_params (sample_env (fun _ => None)) test_index sample_network sample_chain test_GetHash
    (sample_block [sample_coinbase; sample_spend]) CValidationState_new 3 test_entry 2 sample_parent (sample_coins sample_map) false no_votes).
  - apply sample_ready; rewrite !elem_of_cons; auto.
  - apply sample_checked; rewrite !elem_of_cons; auto.
  - apply sample_hashes; rewrite !elem_of_cons; auto.
  - apply sample_not_genesis.
  - apply sample_caches.
Defined.

Lemma connected_block_disconnects_witness :
  exists r, sample_connect (fun _ => None) sample_map [sample_coinbase; sample_spend] = Some (inr r) /\ connected r = true /\
  exists c', DisconnectBlock [sample_coinbase; sample_spend] (Chain.nHeight test_entry) (test_GetHash (test_child 3))
      (best (sample_coins sample_map)) (Some (block_undo r)) (view_after r) = inr (c', DISCONNECT_OK) /\
    cache_ok c' /\ coins c' = coins (sample_coins sample_map) /\
    (Blob.IsNull (best (sample_coins sample_map)) = false -> best c' = best (sample_coins sample_map)).
Proof.
  destruct (verdict_connected _ _ _ (proj1 sample_verdicts)) as (r & E & Hcon).
  exists r. split; [exact E|]. split; [exact Hcon|].
  apply (connected_block_disconnects demo_pow sample_params (sample_env (fun _ => None)) test_index sample_network sample_chain test_GetHash
    (sample_block [sample_coinbase; sample_spend]) CValidationState_new 3 test_entry 2 sample_parent (sample_coins sample_map) no_votes r).
  - apply sample_ready; rewrite !elem_of_cons; auto.
  - apply sample_checked; rewrite !elem_of_cons; auto.
  - apply sample_hashes; rewrite !elem_of_cons; auto.
  - apply sample_not_genesis.
  - apply sample_caches.
  - intros o cn. rewrite (proj1 (proj2 (sample_coins_ok sample_map ltac:(apply map_Forall_singleton; reflexivity)))).
    unfold sample_map. intros [_ <-]%lookup_singleton_Some. split; [reflexivity|]. split; [reflexivity|]. vm_compute. discriminate.
  - vm_compute. reflexivity.
  - vm_compute. reflexivity.
  - exact E.
  - exact Hcon.
Defined.

Lemma money_supply_witness :
  exists r, sample_connect (fun _ => None) ∅ [sample_coinbase] = Some (inr r) /\ connected r = true /\
  0 <= total (coins (view_after r)) <= 0 + new_money demo_pow sample_params test_entry sample_parent /\
  0 + new_money demo_pow sample_params test_entry sample_parent <= 13200000 * COIN + 2750000000 * Chain.nHeight test_entry /\
  forall o cn, coins (view_after r) !! o = Some cn -> in_range (nValue (out cn)).
Proof.
  destruct (verdict_connected _ _ _ (proj1 (proj2 (proj2 (proj2 sample_verdicts))))) as (r & E & Hcon).
  exists r. split; [exact E|]. split; [exact Hcon|].
  destruct (sample_coins_ok ∅ (map_Forall_empty _)) as (Hok & Em & Eb).
  apply (money_supply demo_pow sample_params test_GetHash (view_after r) 3 (Chain.nHeight test_entry)); [exact sample_network|].
  apply (chain_block demo_pow sample_params test_GetHash (sample_coins ∅) 2 2 0 (sample_env (fun _ => None)) test_index
    (sample_block [sample_coinbase]) CValidationState_new 3 test_entry sample_parent no_votes r sample_chain).
  - apply chain_start; [lia|done|done].
  - apply sample_placed; [rewrite !elem_of_cons; auto|exact Eb].
  - vm_compute. reflexivity.
  - apply sample_checked; rewrite !elem_of_cons; auto.
  - apply sample_hashes; rewrite !elem_of_cons; auto.
  - apply sample_not_genesis.
  - apply sample_caches.
  - intros (_ & Hx & _). revert Hx. vm_compute. discriminate.
  - exact E.
  - exact Hcon.
Defined.
