(* ===== verification/SpendChecks.v ===== *)
(** * Spending is authorised: scripts in connected blocks ([validation.cpp], [script/script_error.cpp])

    The interpreter and the transaction checker in the place of the parameter of [ConnectBlock].  A connected block
    whose scripts are checked spends no coin without an accepted script, and no coin paid to the hash of a public
    key without a signature of a key with this hash. *)

From stdpp Require Import gmap strings.
From S2P Require Import Prelude Words Blob SHA256 Hash160 Serialize Transaction Script Chain MedianTime VersionBits AddBlock.
From S2P Require Import ValidationState HeaderCheck Coins Undo TxCheck CheckBlock Interpreter ScriptSafety ScriptPayments.
From S2P Require Import SignatureHash TimeLocks Subsidy ConnectTx ConnectBlock.

(** ** Script checks *)

Definition ScriptErrorString (serror : ScriptError) : string :=
  match serror with
  | SCRIPT_ERR_EVAL_FALSE => "Script evaluated without error but finished with a false/empty top stack element"
  | SCRIPT_ERR_VERIFY => "Script failed an OP_VERIFY operation"
  | SCRIPT_ERR_EQUALVERIFY => "Script failed an OP_EQUALVERIFY operation"
  | SCRIPT_ERR_CHECKMULTISIGVERIFY => "Script failed an OP_CHECKMULTISIGVERIFY operation"
  | SCRIPT_ERR_CHECKSIGVERIFY => "Script failed an OP_CHECKSIGVERIFY operation"
  | SCRIPT_ERR_NUMEQUALVERIFY => "Script failed an OP_NUMEQUALVERIFY operation"
  | SCRIPT_ERR_SCRIPT_SIZE => "Script is too big"
  | SCRIPT_ERR_PUSH_SIZE => "Push value size limit exceeded"
  | SCRIPT_ERR_OP_COUNT => "Operation limit exceeded"
  | SCRIPT_ERR_STACK_SIZE => "Stack size limit exceeded"
  | SCRIPT_ERR_SIG_COUNT => "Signature count negative or greater than pubkey count"
  | SCRIPT_ERR_PUBKEY_COUNT => "Pubkey count negative or limit exceeded"
  | SCRIPT_ERR_BAD_OPCODE => "Opcode missing or not understood"
  | SCRIPT_ERR_DISABLED_OPCODE => "Attempted to use a disabled opcode"
  | SCRIPT_ERR_INVALID_STACK_OPERATION => "Operation not valid with the current stack size"
  | SCRIPT_ERR_INVALID_ALTSTACK_OPERATION => "Operation not valid with the current altstack size"
  | SCRIPT_ERR_OP_RETURN => "OP_RETURN was encountered"
  | SCRIPT_ERR_UNBALANCED_CONDITIONAL => "Invalid OP_IF construction"
  | SCRIPT_ERR_NEGATIVE_LOCKTIME => "Negative locktime"
  | SCRIPT_ERR_UNSATISFIED_LOCKTIME => "Locktime requirement not satisfied"
  | SCRIPT_ERR_SIG_HASHTYPE => "Signature hash type missing or not understood"
  | SCRIPT_ERR_SIG_DER => "Non-canonical DER signature"
  | SCRIPT_ERR_MINIMALDATA => "Data push larger than necessary"
  | SCRIPT_ERR_SIG_PUSHONLY => "Only non-push operators allowed in signatures"
  | SCRIPT_ERR_SIG_HIGH_S => "Non-canonical signature: S value is unnecessarily high"
  | SCRIPT_ERR_SIG_NULLDUMMY => "Dummy CHECKMULTISIG argument must be zero"
  | SCRIPT_ERR_DISCOURAGE_UPGRADABLE_NOPS => "NOPx reserved for soft-fork upgrades"
  | SCRIPT_ERR_PUBKEYTYPE => "Public key is neither compressed or uncompressed"
  | SCRIPT_ERR_UNKNOWN_ERROR | SCRIPT_ERR_CLEANSTACK => "unknown error"
  end.

Section Checks.
Context (CheckLowS : list Z -> bool) (Verify : list Z -> hash -> list Z -> bool).

(** [CScriptCheck::operator()]; the input exists. *)
Definition run_check (check : CScriptCheck) : eval unit :=
  let scriptSig := scriptSig (nth (sc_nIn check) (vin (sc_tx check)) CTxIn_new) in
  VerifyScript CheckLowS (sc_nFlags check) (TransactionSignatureChecker Verify (sc_tx check) (sc_nIn check)) scriptSig (sc_scriptPubKey check).
(** Its result with the message for the error.  A failed assertion, which there is none (ScriptSafety.v), would end
    the program; here it counts as an error. *)
Definition check_error (check : CScriptCheck) : option string :=
  match run_check check with
  | Some (inr _) => None
  | Some (inl e) => Some (ScriptErrorString e)
  | None => Some EmptyString
  end.

Lemma check_passes check : passes check_error check <-> run_check check = Some (inr tt).
Proof. unfold passes, check_error. now destruct (run_check check) as [[e|[]]|]. Qed.

(** ** The inputs of a block *)

Context (mapBlockIndex : gmap (list Z) nat) (s : store) (cx : tx_context) (b : CBlockIndex) (mt : Z).

Lemma checks_from_lookup m tx j ins i txin : ins !! i = Some txin ->
  checks_from cx m tx j ins !! i = Some (mk_script_check (scriptPubKey (out (default coinEmpty (m !! prevout txin)))) tx (j + i) (cx_flags cx)).
Proof.
  revert j i. induction ins as [|x ins IH]; intros j i E; [done|]. destruct i as [|i].
  - injection E as ->. cbn. now rewrite Nat.add_0_r.
  - etrans; [exact (IH (S j) i E)|]. now rewrite Nat.add_succ_r.
Qed.

(** The coins before a transaction, and its checks. *)
Lemma block_checks m n pre tx post mk us : cx_fScriptChecks cx = true ->
  txs_ok check_error s cx b mt m n (pre ++ tx :: post) ->
  Forall (passes check_error) (block_deferred cx m (pre ++ tx :: post)) ->
  connect_map m pre (cx_nHeight cx) = Some (mk, us) -> IsCoinBase tx = false ->
  inputs_valid mk (cx_nHeight cx) tx /\ Forall (passes check_error) (checks_from cx mk tx 0 (vin tx)).
Proof.
  intros Hsc. revert m n mk us. induction pre as [|t pre IH]; intros m n mk us Hok Hd Em Hcb; cbn [app connect_map] in *.
  - injection Em as <- <-. cbn [txs_ok block_deferred] in *. destruct Hok as [[_ Hs] _]. destruct (Hs Hcb) as (Hv & _ & Hin). split; [done|].
    apply Forall_app in Hd as [Hd _]. unfold deferred in Hd. rewrite Hcb, Hsc in Hd. cbn [negb andb] in Hd.
    destruct (cx_threads cx) eqn:Et; [done|]. now apply Hin.
  - cbn [txs_ok block_deferred] in *. destruct (connect_tx m t (cx_nHeight cx)) as [[m1 u]|] eqn:E1; [|done]. cbn [mbind option_bind] in Em.
    destruct (connect_map m1 pre (cx_nHeight cx)) as [[m2 us2]|] eqn:E2; [|done]. cbn [mbind option_bind] in Em. injection Em as <- <-.
    apply Forall_app in Hd as [_ Hd]. destruct Hok as [_ Hok]. now apply (IH m1 _ m2 us2 Hok Hd E2).
Qed.

Lemma input_authorised mk tx i txin : inputs_valid mk (cx_nHeight cx) tx -> Forall (passes check_error) (checks_from cx mk tx 0 (vin tx)) ->
  vin tx !! i = Some txin -> exists cn, mk !! prevout txin = Some cn /\
    VerifyScript CheckLowS (cx_flags cx) (TransactionSignatureChecker Verify tx i) (scriptSig txin) (scriptPubKey (out cn)) = Some (inr tt).
Proof.
  intros [Hv _] Hc Hi. pose proof (Forall_lookup_1 _ _ _ _ Hc (checks_from_lookup mk tx 0 (vin tx) i txin Hi)) as Hp.
  apply check_passes in Hp. unfold run_check in Hp. cbn [sc_nIn sc_tx sc_nFlags sc_scriptPubKey Nat.add] in Hp. rewrite (nth_lookup_Some _ _ _ _ Hi) in Hp.
  destruct (Forall_lookup_1 _ _ _ _ Hv Hi) as (cn & E & _). exists cn. split; [done|]. now rewrite E in Hp.
Qed.
End Checks.

(** ** Coins of a public key hash *)

Section Signature.
Context (CheckLowS : list Z -> bool) (flags : Z) (checker : BaseSignatureChecker).
Abbreviation run := (ScriptPayments.run CheckLowS flags checker).

Lemma limit_same m m' : limit_stack m = Some (inr m') -> m' = m.
Proof. unfold limit_stack. destruct (_ <? _)%nat; [discriminate|]. now intros [= <-]. Qed.

(** The instruction of a script that succeeds. *)
Lemma run_success op i rest s n code m : decode op = Some i -> OP_PUSHDATA4 < op -> (op <=? OP_16) || (n <? MAX_OPS_PER_SCRIPT) = true ->
  run (op :: rest) (flat s n code) = Some (inr m) ->
  exists m1, exec CheckLowS flags checker i rest true (flat s (if OP_16 <? op then n + 1 else n) code) = Some (inr m1) /\ run rest m1 = Some (inr m).
Proof.
  intros Hd Hop Hn. rewrite (run_instruction _ _ _ _ _ _ _ _ _ Hd Hop Hn). intros (m1 & E1 & E)%bind_success.
  apply bind_success in E1 as (m2 & E1 & ->%limit_same). now exists m2.
Qed.

Lemma p2pkh_stack h s r : length h = 20%nat -> Forall element s ->
  EvalScript CheckLowS flags checker s (p2pkh h) = Some (inr r) -> accepts_top r ->
  exists vchPubKey vchSig, hash160 vchPubKey = h /\
    CheckSig checker vchSig vchPubKey (FindAndDelete (p2pkh h) (push_data vchSig)) = true.
Proof.
  intros Hh Hs. rewrite EvalScript_run.
  2:{ unfold p2pkh. rewrite (push_data20 h Hh). cbn [length app]. rewrite length_app, Hh. done. }
  set (code := p2pkh h). unfold code at 1. unfold p2pkh. intros (m & E & Em)%bind_success Htop.
  apply (run_success _ (STACK DUP)) in E as (m1 & E1 & E); [|reflexivity..].
  destruct s as [|vchPubKey s]; [discriminate E1|]. apply Forall_cons_1 in Hs as [[Hk _] Hs]. injection E1 as <-.
  apply (run_success _ (HASH HASH_HASH160) _ (vchPubKey :: vchPubKey :: s) 1) in E as (m1 & E1 & E); [|reflexivity..].
  cbn [exec flat main] in E1. rewrite eval_hash_digest in E1 by done. injection E1 as <-.
  apply (run_push_success _ _ _ h _ (hash160 vchPubKey :: vchPubKey :: s) 2 code) in E; [|rewrite Hh; done|done].
  apply (run_success _ (STACK (EQUAL true))) in E as (m1 & E1 & E); [|reflexivity..].
  cbn [exec flat main altstack exec_stack] in E1. case_bool_decide as Eh; [|discriminate E1]. injection E1 as <-.
  apply (run_success _ (CHECKSIG false) _ (vchPubKey :: s) 3 code) in E as (m1 & E1 & E); [|reflexivity..].
  cbn [exec flat main pbegincodehash] in E1. apply bind_success in E1 as (s' & E1 & [= <-]).
  destruct s as [|vchSig s]; [discriminate E1|]. cbn [exec_checksig] in E1. apply bind_success in E1 as (fSuccess & E1 & [= <-]).
  apply check_one_success in E1 as (_ & _ & E1). injection E as <-. injection Em as <-. destruct Htop as (x & r' & [= <- <-] & Ex).
  destruct fSuccess; [|discriminate]. now exists vchPubKey, vchSig.
Qed.

Lemma p2pkh_signature h scriptSig : length h = 20%nat -> bytes scriptSig ->
  VerifyScript CheckLowS flags checker scriptSig (p2pkh h) = Some (inr tt) ->
  exists vchPubKey vchSig, hash160 vchPubKey = h /\
    CheckSig checker vchSig vchPubKey (FindAndDelete (p2pkh h) (push_data vchSig)) = true.
Proof.
  intros Hh Hb. unfold VerifyScript. destruct (_ && _); [discriminate|]. intros (s & Es & E)%bind_success.
  apply bind_success in E as (r & Er & E). apply bind_success in E as ([] & Et & _).
  pose proof (EvalScript_post CheckLowS flags checker [] scriptSig ltac:(split; [constructor|cbn; lia]) Hb) as Hp. rewrite Es in Hp.
  apply (p2pkh_stack h s r Hh (proj1 Hp) Er). now apply top_true_iff.
Qed.
End Signature.

(** A signature of the transaction's input by a key with the hash. *)
Definition signed_by_hash (Verify : list Z -> hash -> list Z -> bool) (tx : CTransaction) (i : nat) (h : list Z) : Prop :=
  exists vchPubKey vchSig nHashType scriptCode, hash160 vchPubKey = h /\
    Verify vchPubKey (SignatureHash scriptCode tx i nHashType) vchSig = true.

Lemma Transaction_CheckSig_verified Verify tx i vchSig vchPubKey code : Transaction_CheckSig Verify tx i vchSig vchPubKey code = true ->
  exists sg ht, vchSig = sg ++ [ht] /\ Verify vchPubKey (SignatureHash code tx i ht) sg = true.
Proof.
  unfold Transaction_CheckSig, CPubKey_Set. destruct (negb _ && _).
  2:{ discriminate. }
  destruct (CPubKey_IsValid vchPubKey); [|discriminate]. cbn [negb]. destruct vchSig as [|ht sg _] using rev_ind; [discriminate|].
  rewrite last_last, removelast_last. destruct (sg ++ [ht]) as [|x l] eqn:E; [now destruct sg|]. intros Hv. now exists sg, ht.
Qed.

(** ** Properties *)

(** C4. Nothing is spent without authorisation.  When [ConnectBlock] connects a block whose scripts are not assumed to be
    valid, every input of every transaction but the coinbase spends a coin that was there before the transaction,
    and [VerifyScript] accepts its scripts with the flags in force; in particular, where the coin pays to the hash
    of a public key, a key with this hash verifies a signature of the transaction. *)
Theorem spending_authorised CheckLowS Verify pow GetHash params env st {V} `{CoinsViewSpec V}
    block state pindex b q bq (c : CCoinsViewCache V) fJustCheck vbc r pre tx post mk us i txin :
  script_error env = check_error CheckLowS Verify -> network_ok params -> chain_ok st ->
  ready params st block pindex b q bq c -> checked_before block -> hashes_ok block ->
  blob_eq (GetHash (block_header block)) (hashGenesisBlock (chain params)) = false ->
  caches_ok (bip9 params) (heap st) vbc -> ~ assumed_valid params st pindex ->
  ConnectBlock pow GetHash params env st block state pindex c fJustCheck vbc = Some (inr r) -> connected r = true ->
  vtx block = pre ++ tx :: post -> connect_map (coins c) pre (Chain.nHeight b) = Some (mk, us) ->
  IsCoinBase tx = false -> vin tx !! i = Some txin ->
  exists cx mt cn, context_ok params st pindex b q block true cx /\ GetMedianTimePast (heap st) q = Some mt /\
    mk !! prevout txin = Some cn /\
    VerifyScript CheckLowS (cx_flags cx) (TransactionSignatureChecker Verify tx i) (scriptSig txin) (scriptPubKey (out cn)) = Some (inr tt) /\
    forall h, scriptPubKey (out cn) = p2pkh h -> length h = 20%nat -> bytes (scriptSig txin) -> signed_by_hash Verify tx i h.
Proof.
  intros Henv Hnet Hst Hr Hck Hh Hgen Hvbc Hass E Hcon Hvtx Em Hcb Hi.
  destruct (ConnectBlock_spec pow params env st Hnet Hst GetHash block state pindex b q bq c fJustCheck vbc Hr Hck Hh Hgen Hvbc)
    as (scripts & cx & mt & r' & E' & Hsc & Hcx & Hmt & _ & Hiff & _).
  rewrite E in E'. injection E' as <-. destruct (proj1 Hiff Hcon) as (_ & [_ Htxs Hdef _] & _).
  destruct scripts; [|now specialize (Hsc eq_refl)]. rewrite Henv, Hvtx in *. rewrite <- (cx_height _ _ _ _ _ _ _ _ Hcx) in Em.
  destruct (block_checks CheckLowS Verify (heap st) cx b mt (coins c) 0 pre tx post mk us (cx_scripts _ _ _ _ _ _ _ _ Hcx) Htxs Hdef Em Hcb) as [Hv Hp].
  destruct (input_authorised CheckLowS Verify cx mk tx i txin Hv Hp Hi) as (cn & Ecn & Hverify). exists cx, mt, cn. do 4 (split; [done|]).
  intros h Eh Hl Hb. rewrite Eh in Hverify. apply p2pkh_signature in Hverify as (pk & sg & Ehash & Hsig); [|done|done].
  apply Transaction_CheckSig_verified in Hsig as (sg' & ht & _ & Hsig). now exists pk, sg', ht, (FindAndDelete (p2pkh h) (push_data sg)).
Qed.

(** ** A concrete block *)

Definition sample_check : CScriptCheck -> option string := check_error (fun _ => true) demo_verify.

Lemma sample_check_verdict :
  sample_verdict (sample_connect sample_check sample_map [sample_coinbase; sample_spend]) = Some (true, EmptyString, [[sample_coin]]).
Proof. vm_compute. reflexivity. Qed.

Lemma sample_not_assumed : ~ assumed_valid sample_params test_index 3.
Proof.
  intros (it & best & n & k & E & _). assert (En : mapBlockIndex test_index !! hashAssumeValid sample_params = None) by (vm_compute; reflexivity).
  rewrite En in E. discriminate E.
Qed.

Lemma sample_coins_before : exists mk us, connect_map (coins (sample_coins sample_map)) [sample_coinbase] (Chain.nHeight test_entry) = Some (mk, us).
Proof.
  rewrite (proj1 (proj2 (sample_coins_ok sample_map ltac:(apply map_Forall_singleton; reflexivity)))).
  assert (Hs : match connect_map sample_map [sample_coinbase] (Chain.nHeight test_entry) with Some _ => true | None => false end = true) by (vm_compute; reflexivity).
  destruct (connect_map _ _ _) as [[mk us]|]; [exists mk, us; exact eq_refl|discriminate Hs].
Qed.

(** The second transaction spends the coin. *)
Lemma spending_authorised_witness : exists r mk us,
  sample_connect sample_check sample_map [sample_coinbase; sample_spend] = Some (inr r) /\ connected r = true /\
  connect_map (coins (sample_coins sample_map)) [sample_coinbase] (Chain.nHeight test_entry) = Some (mk, us) /\
  exists cx mt cn, context_ok sample_params test_index 3 test_entry 2 (sample_block [sample_coinbase; sample_spend]) true cx /\
    GetMedianTimePast (heap test_index) 2 = Some mt /\ mk !! sample_point = Some cn /\
    VerifyScript (fun _ => true) (cx_flags cx) (TransactionSignatureChecker demo_verify sample_spend 0) [] (scriptPubKey (out cn)) = Some (inr tt) /\
    forall h, scriptPubKey (out cn) = p2pkh h -> length h = 20%nat -> bytes [] -> signed_by_hash demo_verify sample_spend 0 h.
Proof.
  destruct (verdict_connected _ _ _ sample_check_verdict) as (r & E & Hcon). destruct sample_coins_before as (mk & us & Em).
  exists r, mk, us. split; [exact E|]. split; [exact Hcon|]. split; [exact Em|].
  apply (spending_authorised (fun _ => true) demo_verify demo_pow test_GetHash sample_params (sample_env sample_check) test_index
    (sample_block [sample_coinbase; sample_spend]) CValidationState_new 3 test_entry 2 sample_parent (sample_coins sample_map) false no_votes r
    [sample_coinbase] sample_spend [] mk us 0 (mk_txin sample_point [] 0xFFFFFFFF));
    [reflexivity|exact sample_network|exact sample_chain| | | |apply sample_not_genesis|apply sample_caches|exact sample_not_assumed
    |exact E|exact Hcon|reflexivity|exact Em|reflexivity|reflexivity].
  - apply sample_ready; rewrite !elem_of_cons; auto.
  - apply sample_checked; rewrite !elem_of_cons; auto.
  - apply sample_hashes; rewrite !elem_of_cons; auto.
Defined.
