(* ===== verification/ChainSelect.v ===== *)
(** * Choosing the chain ([validation.cpp], [chain.h])

    The blocks that may become the tip, in the order of their work; receiving the transactions of a
    block, marking invalid blocks, and [ActivateBestChain], which disconnects and connects blocks
    until the best candidate is the tip.  What the blocks do to the coins is asked for through the
    interface [TipOps].  Notifications, warnings, the memory pool and the check for a shutdown
    are left out. *)

From stdpp Require Import gmap sorting.
From S2P Require Import Prelude Words Arith256 PowHash Chain Pow AddBlock ValidationState.

(** ** The state *)

(** [index] is [mapBlockIndex] with the entries and [setDirtyBlockIndex]; the set of candidates is
    listed in the order of its comparator, and the pairs of the multimap [mapBlocksUnlinked] are in the order of
    their insertion. *)
Record chainstate := mk_chainstate {
  index : index_state;
  setBlockIndexCandidates : list nat;
  chainActive : CChain;
  pindexBestInvalid : ptr;
  mapBlocksUnlinked : list (ptr * nat);
  nBlockSequenceId : Z }.

Abbreviation entries st := (heap (index st)).
Definition tip (st : chainstate) : ptr := Tip (chainActive st).

Definition with_index (st : chainstate) (i : index_state) : chainstate :=
  mk_chainstate i (setBlockIndexCandidates st) (chainActive st) (pindexBestInvalid st) (mapBlocksUnlinked st) (nBlockSequenceId st).
Definition with_candidates (st : chainstate) (l : list nat) : chainstate :=
  mk_chainstate (index st) l (chainActive st) (pindexBestInvalid st) (mapBlocksUnlinked st) (nBlockSequenceId st).
Definition with_active (st : chainstate) (v : CChain) : chainstate :=
  mk_chainstate (index st) (setBlockIndexCandidates st) v (pindexBestInvalid st) (mapBlocksUnlinked st) (nBlockSequenceId st).
Definition with_invalid (st : chainstate) (p : ptr) : chainstate :=
  mk_chainstate (index st) (setBlockIndexCandidates st) (chainActive st) p (mapBlocksUnlinked st) (nBlockSequenceId st).
Definition with_unlinked (st : chainstate) (l : list (ptr * nat)) : chainstate :=
  mk_chainstate (index st) (setBlockIndexCandidates st) (chainActive st) (pindexBestInvalid st) l (nBlockSequenceId st).
Definition with_sequence (st : chainstate) (n : Z) : chainstate :=
  mk_chainstate (index st) (setBlockIndexCandidates st) (chainActive st) (pindexBestInvalid st) (mapBlocksUnlinked st) n.

(** A change of an entry, and its insertion into [setDirtyBlockIndex]. *)
Definition update_entry (p : nat) (f : CBlockIndex -> CBlockIndex) (i : index_state) : index_state :=
  mk_state (alter f p (heap i)) (mapBlockIndex i) (pindexBestHeader i) (setDirtyBlockIndex i).
Definition make_dirty (p : nat) (i : index_state) : index_state :=
  mk_state (heap i) (mapBlockIndex i) (pindexBestHeader i) ({[p]} ∪ setDirtyBlockIndex i).

(** ** Status of blocks *)

Definition BLOCK_VALID_TRANSACTIONS : Z := 3.
Definition BLOCK_VALID_SCRIPTS : Z := 5.
Definition BLOCK_HAVE_DATA : Z := 8.
Definition BLOCK_HAVE_UNDO : Z := 16.
Definition BLOCK_FAILED_VALID : Z := 32.
Definition BLOCK_FAILED_CHILD : Z := 64.

Definition failed (b : CBlockIndex) : bool := negb (nStatus b .& BLOCK_FAILED_MASK =? 0).
Definition has_data (b : CBlockIndex) : bool := negb (nStatus b .& BLOCK_HAVE_DATA =? 0).
Definition IsValid (nUpTo : Z) (b : CBlockIndex) : bool :=
  if failed b then false else nUpTo <=? nStatus b .& BLOCK_VALID_MASK.
Definition add_status (flag : Z) (b : CBlockIndex) : CBlockIndex := with_nStatus (nStatus b .| flag) b.

Section Selection.
(** The addresses of the entries break ties between blocks that were loaded from disk. *)
Variable address : nat -> Z.

(** ** The set of candidates *)

(** [CBlockIndexWorkComparator]; all pointers in the set point to entries. *)
Definition work_less (s : store) (pa pb : nat) : bool :=
  match s !! pa, s !! pb with
  | Some a, Some b =>
      let c := CompareTo (nChainWork a) (nChainWork b) in
      if 0 <? c then false
      else if c <? 0 then true
      else if nSequenceId a <? nSequenceId b then false
      else if nSequenceId b <? nSequenceId a then true
      else if address pa <? address pb then false
      else if address pb <? address pa then true
      else false
  | _, _ => false
  end.

(** [std::set::insert] and [std::set::erase]. *)
Fixpoint insert_candidate (s : store) (p : nat) (l : list nat) : list nat :=
  match l with
  | [] => [p]
  | q :: l => if work_less s p q then p :: q :: l else if work_less s q p then q :: insert_candidate s p l else q :: l
  end.
Definition erase_candidate (s : store) (p : nat) (l : list nat) : list nat :=
  filter (fun q => work_less s p q || work_less s q p) l.

Definition add_candidate (st : chainstate) (p : nat) : chainstate :=
  with_candidates st (insert_candidate (entries st) p (setBlockIndexCandidates st)).
Definition remove_candidate (st : chainstate) (p : nat) : chainstate :=
  with_candidates st (erase_candidate (entries st) p (setBlockIndexCandidates st)).

(** ** FindMostWorkChain *)

(** The walk from a candidate to the active chain: the first block that cannot be used, and whether it
    failed. *)
Fixpoint test_path (fuel : nat) (st : chainstate) (pindexTest : ptr) : option (option (nat * bool)) :=
  match pindexTest with
  | None => Some None
  | Some p =>
      c ← Contains (entries st) (chainActive st) p;
      if c : bool then Some None
      else
        b ← entries st !! p;
        if negb (negb (nChainTx b =? 0) || (nHeight b =? 0)) then None
        else if failed b || negb (has_data b) then Some (Some (p, failed b))
        else match fuel with O => None | S fuel => test_path fuel st (pprev b) end
  end.

(** The blocks above it are taken out of the set. *)
Fixpoint remove_chain (fuel : nat) (st : chainstate) (pindexFailed pindexTest : nat) (fFailedChain : bool)
    : option chainstate :=
  if bool_decide (pindexFailed = pindexTest) then Some (remove_candidate st pindexTest)
  else
    match fuel with
    | O => None
    | S fuel =>
        b ← entries st !! pindexFailed;
        let st := if fFailedChain then with_index st (update_entry pindexFailed (add_status BLOCK_FAILED_CHILD) (index st))
                  else with_unlinked st (mapBlocksUnlinked st ++ [(pprev b, pindexFailed)]) in
        let st := remove_candidate st pindexFailed in
        q ← pprev b;
        remove_chain fuel st q pindexTest fFailedChain
    end.

(** [pindexBestInvalid] becomes [p] if that has more work. *)
Definition note_invalid (st : chainstate) (p : nat) : option chainstate :=
  match pindexBestInvalid st with
  | None => Some (with_invalid st (Some p))
  | Some i =>
      b ← entries st !! p;
      bi ← entries st !! i;
      Some (if 0 <? CompareTo (nChainWork b) (nChainWork bi) then with_invalid st (Some p) else st)
  end.

(** One turn of the outer loop ends with a chain or fewer candidates. *)
Fixpoint find_most_work (fuel : nat) (st : chainstate) : option (chainstate * ptr) :=
  match list.last (setBlockIndexCandidates st) with
  | None => Some (st, None)
  | Some pindexNew =>
      b ← entries st !! pindexNew;
      let height := Z.to_nat (nHeight b) in
      bad ← test_path (S height) st (Some pindexNew);
      match bad with
      | None => Some (st, Some pindexNew)
      | Some (pindexTest, fFailedChain) =>
          st ← (if fFailedChain : bool then note_invalid st pindexNew else Some st);
          st ← remove_chain height st pindexNew pindexTest fFailedChain;
          match fuel with O => None | S fuel => find_most_work fuel st end
      end
  end.
Definition FindMostWorkChain (st : chainstate) : option (chainstate * ptr) :=
  find_most_work (length (setBlockIndexCandidates st)) st.

(** The candidates from the first one that is not worse than the tip. *)
Fixpoint drop_worse (s : store) (t : nat) (l : list nat) : list nat :=
  match l with
  | [] => []
  | p :: l => if work_less s p t then drop_worse s t l else p :: l
  end.
Definition PruneBlockIndexCandidates (st : chainstate) : option chainstate :=
  t ← tip st;
  let st := with_candidates st (drop_worse (entries st) t (setBlockIndexCandidates st)) in
  if bool_decide (setBlockIndexCandidates st = []) then None else Some st.

(** ** Invalid blocks *)

Definition InvalidChainFound (st : chainstate) (pindexNew : nat) : option chainstate :=
  st ← note_invalid st pindexNew;
  _ ← tip st;
  Some st.

Definition InvalidBlockFound (st : chainstate) (p : nat) (state : CValidationState) : option chainstate :=
  if corruptionPossible state then Some st
  else
    let st := with_index st (make_dirty p (update_entry p (add_status BLOCK_FAILED_VALID) (index st))) in
    InvalidChainFound (remove_candidate st p) p.

(** ** Receiving a block *)

Definition with_block_data (n file pos : Z) (b : CBlockIndex) : CBlockIndex :=
  let '(mk_index h p sk ht _ _ _ w _ _ st v m ti bi no sq) := b in
  mk_index h p sk ht file pos 0 w n 0 (st .| BLOCK_HAVE_DATA) v m ti bi no sq.
Definition with_nChainTx (n seq : Z) (b : CBlockIndex) : CBlockIndex :=
  let '(mk_index h p sk ht f d u w t _ st v m ti bi no _) := b in
  mk_index h p sk ht f d u w t n st v m ti bi no seq.

(** The queue of blocks all of whose predecessors are received. *)
Fixpoint link_queue (fuel : nat) (queue : list nat) (st : chainstate) : option chainstate :=
  match queue with
  | [] => Some st
  | p :: queue =>
      match fuel with
      | O => None
      | S fuel =>
          b ← entries st !! p;
          before ← match pprev b with None => Some 0 | Some q => bq ← entries st !! q; Some (nChainTx bq) end;
          let i := update_entry p (with_nChainTx (u32 (before + nTx b)) (nBlockSequenceId st)) (index st) in
          let st := with_sequence (with_index st i) (u32 (nBlockSequenceId st + 1)) in
          let st := match tip st with
                    | None => add_candidate st p
                    | Some t => if negb (work_less (entries st) p t) then add_candidate st p else st
                    end in
          let range := filter (fun e => e.1 = Some p) (mapBlocksUnlinked st) in
          let st := with_unlinked st (filter (fun e => e.1 <> Some p) (mapBlocksUnlinked st)) in
          link_queue fuel (queue ++ range.*2) st
      end
  end.

(** For a block of [n] transactions that was stored at [pos] of file [file]. *)
Definition ReceivedBlockTransactions (st : chainstate) (p : nat) (n file pos : Z) : option chainstate :=
  let i := update_entry p (with_block_data n file pos) (index st) in
  b ← heap i !! p;
  '(_, b) ← RaiseValidity BLOCK_VALID_TRANSACTIONS b;
  let st := with_index st (make_dirty p (update_entry p (fun _ => b) i)) in
  before ← match pprev b with
           | None => Some None
           | Some q => bq ← entries st !! q; Some (Some bq)
           end;
  match before with
  | None => link_queue (S (length (mapBlocksUnlinked st))) [p] st
  | Some bq =>
      if negb (nChainTx bq =? 0) then link_queue (S (length (mapBlocksUnlinked st))) [p] st
      else if IsValid BLOCK_VALID_TREE bq then Some (with_unlinked st (mapBlocksUnlinked st ++ [(pprev b, p)]))
      else Some st
  end.

End Selection.

(** ** The order of the candidates *)

Section Order.
Variable address : nat -> Z.
Context (Haddr : forall p q, address p = address q -> p = q).
Abbreviation less := (work_less address).

(** What is compared, and the entries it is read from. *)
Definition works_ok (s : store) : Prop := forall p b, s !! p = Some b -> num (nChainWork b).
Definition better (a b : CBlockIndex) (pa pb : nat) : Prop :=
  value (nChainWork a) < value (nChainWork b) \/
  value (nChainWork a) = value (nChainWork b) /\
    (nSequenceId b < nSequenceId a \/ nSequenceId b = nSequenceId a /\ address pb < address pa).

Lemma work_less_spec s p q a b : works_ok s -> s !! p = Some a -> s !! q = Some b ->
  (less s p q = true <-> better a b p q).
Proof.
  intros Hw Hp Hq. unfold work_less, better. rewrite Hp, Hq. rewrite (CompareTo_spec _ _ (Hw p a Hp) (Hw q b Hq)).
  destruct (Z.compare_spec (value (nChainWork a)) (value (nChainWork b))) as [E|E|E]; cbn [Z.ltb Z.compare]; [|split; [lia|done]|split; [done|lia]].
  destruct (Z.ltb_spec (nSequenceId a) (nSequenceId b)); [split; [done|lia]|].
  destruct (Z.ltb_spec (nSequenceId b) (nSequenceId a)); [split; [lia|done]|].
  destruct (Z.ltb_spec (address p) (address q)); [split; [done|lia]|].
  destruct (Z.ltb_spec (address q) (address p)); (split; [lia|done || lia]).
Qed.

Lemma work_less_valid s p q : less s p q = true -> is_Some (s !! p) /\ is_Some (s !! q).
Proof. unfold work_less. destruct (s !! p), (s !! q); (done || (intros; split; eauto)). Qed.

Lemma work_less_irrefl s p : works_ok s -> less s p p = false.
Proof.
  intros Hw. destruct (less s p p) eqn:E; [|done]. destruct (work_less_valid s p p E) as [[a Ha] _].
  apply (work_less_spec s p p a a Hw Ha Ha) in E. unfold better in E. lia.
Qed.

Lemma work_less_trans s p q r : works_ok s -> less s p q = true -> less s q r = true -> less s p r = true.
Proof.
  intros Hw E1 E2. destruct (work_less_valid s p q E1) as [[a Ha] [b Hb]]. destruct (work_less_valid s q r E2) as [_ [c Hc]].
  apply (work_less_spec s p q a b Hw Ha Hb) in E1. apply (work_less_spec s q r b c Hw Hb Hc) in E2.
  apply (work_less_spec s p r a c Hw Ha Hc). unfold better in *. lia.
Qed.

Lemma work_less_asym s p q : works_ok s -> less s p q = true -> less s q p = false.
Proof.
  intros Hw E. destruct (less s q p) eqn:E'; [|done]. pose proof (work_less_trans s p q p Hw E E').
  now rewrite (work_less_irrefl s p Hw) in H.
Qed.

Lemma work_less_total s p q a b : works_ok s -> s !! p = Some a -> s !! q = Some b ->
  less s p q = true \/ p = q \/ less s q p = true.
Proof.
  intros Hw Ha Hb. rewrite (work_less_spec s p q a b Hw Ha Hb), (work_less_spec s q p b a Hw Hb Ha). unfold better.
  destruct (decide (p = q)) as [|Hne]; [auto|]. assert (address p <> address q) by (intros ?%Haddr; done). lia.
Qed.

(** The order does not depend on the status. *)
Definition same_key (b b' : CBlockIndex) : Prop := nChainWork b' = nChainWork b /\ nSequenceId b' = nSequenceId b.
Lemma work_less_same s s' p q :
  (forall r, option_Forall2 same_key (s !! r) (s' !! r)) -> less s' p q = less s p q.
Proof.
  intros Hs. unfold work_less. destruct (Hs p) as [a a' [Ea Sa]|]; [|done]. destruct (Hs q) as [b b' [Eb Sb]|]; [|done].
  now rewrite Ea, Eb, Sa, Sb.
Qed.

(** *** Sets of candidates *)

Definition sorted (s : store) : list nat -> Prop := StronglySorted (fun p q => less s p q = true).
Definition valid_ptrs (s : store) (l : list nat) : Prop := Forall (fun p => is_Some (s !! p)) l.

Lemma insert_in s p l q : works_ok s -> is_Some (s !! p) -> valid_ptrs s l ->
  q ∈ insert_candidate address s p l <-> q = p \/ q ∈ l.
Proof.
  intros Hw [a Ha]. induction 1 as [|r l [b Hb] _ IH]; cbn [insert_candidate]; [rewrite list_elem_of_singleton, elem_of_nil; tauto|].
  destruct (less s p r) eqn:E1; [now rewrite elem_of_cons|]. destruct (less s r p) eqn:E2; rewrite !elem_of_cons.
  - rewrite IH. tauto.
  - destruct (work_less_total s p r a b Hw Ha Hb) as [H|[->|H]]; [congruence|tauto|congruence].
Qed.

Lemma insert_valid s p l : is_Some (s !! p) -> valid_ptrs s l -> valid_ptrs s (insert_candidate address s p l).
Proof.
  intros Hp. induction 1 as [|r l Hr Hl IH]; cbn [insert_candidate]; [now repeat constructor|].
  destruct (less s p r); [now repeat constructor|]. destruct (less s r p); now constructor.
Qed.

Lemma insert_sorted s p l : works_ok s -> is_Some (s !! p) -> valid_ptrs s l -> sorted s l ->
  sorted s (insert_candidate address s p l).
Proof.
  intros Hw Hp Hv. unfold sorted. induction 1 as [|r l Hl IH Hr]; cbn [insert_candidate]; [now repeat constructor|].
  apply Forall_cons_1 in Hv as [Hr' Hv]. destruct (less s p r) eqn:E1.
  { constructor; [now constructor|]. constructor; [done|]. eapply list.Forall_impl; [exact Hr|]. intros q. now apply work_less_trans. }
  destruct (less s r p) eqn:E2; [|now constructor]. constructor; [now apply IH|]. apply list.Forall_forall. intros q Hq.
  apply insert_in in Hq as [->|Hq]; [done| |done|done|done]. rewrite list.Forall_forall in Hr. now apply Hr.
Qed.

Lemma erase_in s p l q : works_ok s -> is_Some (s !! p) -> valid_ptrs s l ->
  q ∈ erase_candidate address s p l <-> q ∈ l /\ q <> p.
Proof.
  intros Hw [a Ha] Hv. unfold erase_candidate. rewrite list_elem_of_filter. unfold valid_ptrs in Hv. rewrite list.Forall_forall in Hv.
  split; intros [H1 H2].
  - split; [done|]. intros ->. now rewrite (work_less_irrefl s p Hw) in H1.
  - split; [|done]. destruct (Hv q H1) as [b Hb]. apply Is_true_true, orb_true_iff.
    destruct (work_less_total s p q a b Hw Ha Hb) as [H|[->|H]]; [tauto|done|tauto].
Qed.

Lemma erase_incl s p l q : q ∈ erase_candidate address s p l -> q ∈ l.
Proof. unfold erase_candidate. now intros [_ H]%list_elem_of_filter. Qed.

Lemma erase_sorted s p l : sorted s l -> sorted s (erase_candidate address s p l).
Proof.
  unfold sorted, erase_candidate. induction 1 as [|r l Hl IH Hr]; [constructor|]. rewrite filter_cons.
  destruct (decide _); [|done]. constructor; [done|]. apply list.Forall_forall. intros q [_ Hq]%list_elem_of_filter.
  rewrite list.Forall_forall in Hr. now apply Hr.
Qed.

End Order.

(** ** Changes of the status *)

(** Entries with the same place in the tree. *)
Definition same_links (b b' : CBlockIndex) : Prop :=
  pprev b' = pprev b /\ pskip b' = pskip b /\ Chain.nHeight b' = Chain.nHeight b /\ nChainWork b' = nChainWork b.
Definition same_shape (s s' : store) : Prop := forall p, option_Forall2 same_links (s !! p) (s' !! p).

#[export] Instance same_links_equiv : Equivalence same_links.
Proof. split; repeat intro; unfold same_links in *; intuition congruence. Qed.

Lemma pointwise_equiv (R : relation CBlockIndex) : Equivalence R ->
  Equivalence (fun s s' : store => forall p, option_Forall2 R (s !! p) (s' !! p)).
Proof.
  split.
  - intros s p. destruct (s !! p); now constructor.
  - intros s s' H1 p. now symmetry.
  - intros s1 s2 s3 H1 H2 p. etransitivity; [exact (H1 p)|exact (H2 p)].
Qed.
#[export] Instance same_shape_equiv : Equivalence same_shape := pointwise_equiv same_links _.

Section Shape.
Context (s s' : store) (H : same_shape s s').

Lemma same_shape_lookup p b : s !! p = Some b -> exists b', s' !! p = Some b' /\ same_links b b'.
Proof. intros Hb. specialize (H p). rewrite Hb in H. inversion H; subst. eauto. Qed.

Lemma same_shape_up : forall n p, up s' n p = up s n p.
Proof.
  induction n as [|n IH]; intros p; [done|]. cbn [up]. destruct (H p) as [b b' Hb|]; [|done].
  cbn [mbind option_bind]. destruct Hb as (-> & _). destruct (pprev b); [|done]. apply IH.
Qed.

Lemma same_shape_valid p : is_Some (s !! p) -> is_Some (s' !! p).
Proof. intros [b Hb]. destruct (same_shape_lookup p b Hb) as (b' & ? & _). eauto. Qed.

Lemma same_shape_in_chain v p : in_chain s' v p <-> in_chain s v p.
Proof.
  unfold in_chain, Contains. destruct (H p) as [b b' Hb|]; [|done]. cbn [mbind option_bind].
  destruct Hb as (_ & _ & -> & _). done.
Qed.

Lemma same_shape_chain v : chain_ok s v -> chain_ok s' v.
Proof.
  intros [->|(p & b & Hb & ->)]; [now left|]. right. destruct (same_shape_lookup p b Hb) as (b' & Hb' & Hs).
  exists p, b'. split; [done|]. destruct Hs as (_ & _ & -> & _). unfold chain_to.
  apply list_fmap_ext. intros i x _. now rewrite same_shape_up.
Qed.
End Shape.

Lemma same_shape_back s s' p b' : same_shape s s' -> s' !! p = Some b' -> exists b, s !! p = Some b /\ same_links b b'.
Proof.
  intros H Hb'. destruct (same_shape_lookup s' s (symmetry H) p b' Hb') as (b & Hb & Hs). exists b. split; [done|]. now symmetry.
Qed.

Lemma same_shape_wf s s' : same_shape s s' -> wf_store s -> wf_store s'.
Proof.
  intros H Hwf p b' Hb'. destruct (same_shape_back s s' p b' H Hb') as (b & Hb & Ep & Es & Eh & _).
  destruct (Hwf p b Hb) as [H1 H2 H3]. rewrite <- Ep, <- Es, <- Eh in *.
  split; [done| |intros q Hq; rewrite (same_shape_up s s' H); auto].
  destruct (pprev b') as [q|]; [|done]. destruct H2 as (bq & Hbq & E2). destruct (same_shape_lookup s s' H q bq Hbq) as (bq' & Hbq' & Hs').
  exists bq'. split; [done|]. destruct Hs' as (_ & _ & -> & _). done.
Qed.

Lemma same_shape_works s s' : same_shape s s' -> works_ok s -> works_ok s'.
Proof. intros H Hw p b' Hb'. destruct (same_shape_back s s' p b' H Hb') as (b & Hb & _ & _ & _ & ->). eauto. Qed.

(** Two entries that differ in their status and the position of their undo data. *)
Definition without_status (b : CBlockIndex) : CBlockIndex :=
  let '(mk_index h p sk ht f d _ w n t _ v m ti bi no sq) := b in
  mk_index h p sk ht f d 0 w n t 0 v m ti bi no sq.
Definition same_block (b b' : CBlockIndex) : Prop := without_status b' = without_status b.
Definition same_tree (s s' : store) : Prop := forall p, option_Forall2 same_block (s !! p) (s' !! p).

#[export] Instance same_block_equiv : Equivalence same_block.
Proof. split; repeat intro; unfold same_block in *; congruence. Qed.
#[export] Instance same_tree_equiv : Equivalence same_tree := pointwise_equiv same_block _.

Lemma same_block_fields b b' : same_block b b' ->
  pprev b' = pprev b /\ pskip b' = pskip b /\ Chain.nHeight b' = Chain.nHeight b /\ nChainWork b' = nChainWork b /\
  nSequenceId b' = nSequenceId b /\ nChainTx b' = nChainTx b.
Proof. destruct b, b'. intros [= ]. now subst. Qed.

Lemma same_tree_lookup s s' p b : same_tree s s' -> s !! p = Some b -> exists b', s' !! p = Some b' /\ same_block b b'.
Proof. intros H Hb. specialize (H p). rewrite Hb in H. inversion H; subst. eauto. Qed.

Lemma same_tree_shape s s' : same_tree s s' -> same_shape s s'.
Proof.
  intros H p. destruct (H p) as [b b' Hb|]; constructor. destruct (same_block_fields b b' Hb) as (? & ? & ? & ? & _). now split.
Qed.

Lemma same_tree_up s s' : same_tree s s' -> forall n p, up s' n p = up s n p.
Proof. intros H. apply same_shape_up. now apply same_tree_shape. Qed.
Lemma same_tree_valid s s' p : same_tree s s' -> is_Some (s !! p) -> is_Some (s' !! p).
Proof. intros H. apply same_shape_valid. now apply same_tree_shape. Qed.
Lemma same_tree_in_chain s s' v p : same_tree s s' -> in_chain s' v p <-> in_chain s v p.
Proof. intros H. apply same_shape_in_chain. now apply same_tree_shape. Qed.

Lemma same_tree_less address s s' p q : same_tree s s' -> work_less address s' p q = work_less address s p q.
Proof.
  intros H. apply work_less_same. intros r. destruct (H r) as [b b' Hb|]; constructor.
  destruct (same_block_fields b b' Hb) as (_ & _ & _ & ? & ? & _). now split.
Qed.

Lemma sublist_same_length {A} (l k : list A) : l `sublist_of` k -> length l = length k -> l = k.
Proof.
  induction 1 as [|x l k Hlk IH|x l k Hlk IH]; cbn [length]; intros E; [done|f_equal; apply IH; lia|].
  apply sublist_length in Hlk. lia.
Qed.

Lemma same_tree_sorted address s s' l k : same_tree s s' -> l `sublist_of` k -> sorted address s k -> sorted address s' l.
Proof.
  intros Ht. unfold sorted. induction 1 as [|x l k Hlk IH|x l k Hlk IH]; intros Hs; [constructor| |].
  - apply StronglySorted_cons in Hs as [Hx Hs]. constructor; [now apply IH|]. apply list.Forall_forall. intros q Hq.
    rewrite (same_tree_less _ _ _ _ _ Ht). rewrite list.Forall_forall in Hx. apply Hx. eapply elem_of_sublist; eassumption.
  - apply IH. now apply StronglySorted_cons in Hs.
Qed.

(** Changing the status of an entry. *)
Definition status_only (f : CBlockIndex -> CBlockIndex) : Prop := forall b, same_block b (f b).
Lemma add_status_only flag : status_only (add_status flag).
Proof. now intros []. Qed.
Lemma alter_same_tree s f p : status_only f -> same_tree s (alter f p s).
Proof.
  intros Hf q. rewrite list_lookup_alter. destruct (decide (p = q)) as [->|_]; destruct (s !! q); constructor; (apply Hf || reflexivity).
Qed.

Lemma flag_bit n flag k : 0 <= k -> flag = 2 ^ k -> (n .& flag =? 0) = negb (Z.testbit n k).
Proof.
  intros Hk ->. destruct (Z.testbit n k) eqn:E; cbn [negb].
  - apply Z.eqb_neq. intros H. assert (Hb : Z.testbit (n .& 2 ^ k) k = false) by (rewrite H; apply Z.testbit_0_l).
    rewrite Z.land_spec, E, Z.pow2_bits_true in Hb by done. done.
  - apply Z.eqb_eq, Z.bits_inj'. intros i Hi. rewrite Z.land_spec, Z.testbit_0_l.
    destruct (Z.eq_dec i k) as [->|]; [now rewrite E|]. rewrite Z.pow2_bits_false by done. apply andb_false_r.
Qed.

Lemma failed_bits b : failed b = Z.testbit (nStatus b) 5 || Z.testbit (nStatus b) 6.
Proof.
  unfold failed. change BLOCK_FAILED_MASK with (32 .| 64). rewrite Z.land_lor_distr_r.
  rewrite <- (negb_involutive (Z.testbit _ 5)), <- (negb_involutive (Z.testbit _ 6)), <- negb_andb.
  rewrite <- (flag_bit (nStatus b) 32 5), <- (flag_bit (nStatus b) 64 6) by done. f_equal.
  apply eq_bool_prop_intro. rewrite !Is_true_true, andb_true_iff, !Z.eqb_eq. apply Z.lor_eq_0_iff.
Qed.

Lemma has_data_bit b : has_data b = Z.testbit (nStatus b) 3.
Proof. unfold has_data. rewrite (flag_bit _ BLOCK_HAVE_DATA 3) by done. apply negb_involutive. Qed.

Lemma add_status_bit flag k b : 0 <= k -> Z.testbit (nStatus (add_status flag b)) k = Z.testbit (nStatus b) k || Z.testbit flag k.
Proof. intros Hk. destruct b as [? ? ? ? ? ? ? ? ? ? n]. exact (Z.lor_spec n flag k). Qed.

Lemma failed_child b : failed (add_status BLOCK_FAILED_CHILD b) = true /\ has_data (add_status BLOCK_FAILED_CHILD b) = has_data b.
Proof.
  rewrite failed_bits, !has_data_bit, !add_status_bit by done.
  change (Z.testbit BLOCK_FAILED_CHILD 6) with true. change (Z.testbit BLOCK_FAILED_CHILD 3) with false.
  split; [now rewrite !orb_true_r|apply orb_false_r].
Qed.

Lemma failed_valid b : failed (add_status BLOCK_FAILED_VALID b) = true /\ has_data (add_status BLOCK_FAILED_VALID b) = has_data b.
Proof.
  rewrite failed_bits, !has_data_bit, !add_status_bit by done.
  change (Z.testbit BLOCK_FAILED_VALID 5) with true. change (Z.testbit BLOCK_FAILED_VALID 3) with false.
  split; [now rewrite orb_true_r|apply orb_false_r].
Qed.

(** ** The search *)

(** A block may become the tip when all blocks up to it are there and none is known to be invalid. *)
Definition usable_block (b : CBlockIndex) : Prop := failed b = false /\ has_data b = true.
Definition usable (s : store) (p : nat) : Prop :=
  is_Some (s !! p) /\ forall m q b, up s m p = Some q -> s !! q = Some b -> usable_block b.
(** One of them failed. *)
Definition doomed (s : store) (p : nat) : Prop :=
  exists m q b, up s m p = Some q /\ s !! q = Some b /\ failed b = true.
(** All blocks up to it were received. *)
Definition linked (b : CBlockIndex) : Prop := nChainTx b <> 0 \/ Chain.nHeight b = 0.
(** Their data is there (no block files were pruned). *)
Definition data_ok (s : store) : Prop := forall p b, s !! p = Some b -> linked b -> has_data b = true.

Lemma same_block_linked b b' : same_block b b' -> linked b' <-> linked b.
Proof. intros H. destruct (same_block_fields b b' H) as (_ & _ & Eh & _ & _ & En). unfold linked. now rewrite Eh, En. Qed.

Lemma usable_up s p m q : usable s p -> up s m p = Some q -> is_Some (s !! q) -> usable s q.
Proof. intros [_ Hu] Hm Hq. split; [done|]. intros k r b Hk Hb. apply (Hu (m + k)%nat r b); [|done]. now rewrite up_add, Hm. Qed.

Lemma doomed_up s p m q : up s m p = Some q -> doomed s q -> doomed s p.
Proof. intros Hm (k & r & b & Hk & Hb & Hf). exists (m + k)%nat, r, b. rewrite up_add, Hm. done. Qed.

Lemma doomed_unusable s p : doomed s p -> ~ usable s p.
Proof. intros (m & q & b & Hm & Hb & Hf) [_ Hu]. destruct (Hu m q b Hm Hb). congruence. Qed.

(** Blocks may be marked that descend from a failed one. *)
Definition marked (s s' : store) : Prop := same_tree s s' /\
  forall p b b', s !! p = Some b -> s' !! p = Some b' -> b' = b \/ b' = add_status BLOCK_FAILED_CHILD b /\ doomed s p.

Lemma marked_refl s : marked s s.
Proof. split; [done|]. intros p b b' H1 H2. left. congruence. Qed.

Lemma marked_doomed s s' p : marked s s' -> doomed s' p <-> doomed s p.
Proof.
  intros [Ht Hm]. split; intros (m & q & b & Hup & Hb & Hf).
  - rewrite (same_tree_up s s' Ht) in Hup. destruct (same_tree_lookup s' s q b (symmetry Ht) Hb) as (b0 & Hb0 & _).
    destruct (Hm q b0 b Hb0 Hb) as [->|[_ Hd]]; [now exists m, q, b0|now apply (doomed_up s p m q)].
  - rewrite <- (same_tree_up s s' Ht) in Hup. destruct (same_tree_lookup s s' q b Ht Hb) as (b' & Hb' & _).
    exists m, q, b'. split; [done|]. split; [done|]. destruct (Hm q b b' Hb Hb') as [->|[-> _]]; [done|apply failed_child].
Qed.

Lemma marked_trans s1 s2 s3 : marked s1 s2 -> marked s2 s3 -> marked s1 s3.
Proof.
  intros H1 H2. split; [exact (transitivity (proj1 H1) (proj1 H2))|]. intros p b1 b3 Hb1 Hb3.
  destruct (same_tree_lookup s1 s2 p b1 (proj1 H1) Hb1) as (b2 & Hb2 & _).
  destruct (proj2 H1 p b1 b2 Hb1 Hb2) as [->|[E1 Hd1]]; destruct (proj2 H2 p _ b3 Hb2 Hb3) as [->|[E2 Hd2]].
  - now left.
  - right. split; [done|]. now apply (marked_doomed s1 s2).
  - now right.
  - right. split; [|done]. rewrite E2, E1. destruct b1. unfold add_status, with_nStatus. cbn. f_equal.
    rewrite <- Z.lor_assoc. reflexivity.
Qed.

Lemma marked_data s s' : marked s s' -> data_ok s' <-> data_ok s.
Proof.
  intros [Ht Hm]. split; intros Hd p b Hb Hl.
  - destruct (same_tree_lookup s s' p b Ht Hb) as (b' & Hb' & Hs). apply (same_block_linked b b' Hs) in Hl. pose proof (Hd p b' Hb' Hl) as Hx.
    destruct (Hm p b b' Hb Hb') as [->|[-> _]]; [done|]. now rewrite (proj2 (failed_child b)) in Hx.
  - destruct (same_tree_lookup s' s p b (symmetry Ht) Hb) as (b0 & Hb0 & Hs). apply (same_block_linked b b0 Hs) in Hl.
    pose proof (Hd p b0 Hb0 Hl) as Hx. destruct (Hm p b0 b Hb0 Hb) as [->|[-> _]]; [done|]. now rewrite (proj2 (failed_child b0)).
Qed.

Lemma marked_usable s s' p : marked s s' -> usable s' p <-> usable s p.
Proof.
  intros [Ht Hm]. split; intros [Hp Hu].
  - split; [now apply (same_tree_valid s' s)|]. intros m q b Hup Hb. destruct (same_tree_lookup s s' q b Ht Hb) as (b' & Hb' & _).
    rewrite <- (same_tree_up s s' Ht) in Hup. specialize (Hu m q b' Hup Hb').
    destruct (Hm q b b' Hb Hb') as [->|[-> _]]; [done|]. destruct Hu as [Hf _], (failed_child b) as [Hf' _]. congruence.
  - split; [now apply (same_tree_valid s s')|]. intros m q b' Hup Hb'. rewrite (same_tree_up s s' Ht) in Hup.
    destruct (same_tree_lookup s' s q b' (symmetry Ht) Hb') as (b & Hb & _). pose proof (Hu m q b Hup Hb).
    destruct (Hm q b b' Hb Hb') as [->|[_ Hd]]; [done|]. exfalso.
    apply (doomed_unusable s p (doomed_up s p m q Hup Hd)). now split.
Qed.

Section Search.
Variable address : nat -> Z.
Context (Haddr : forall p q, address p = address q -> p = q).
Abbreviation less := (work_less address).
Abbreviation cands st := (setBlockIndexCandidates st).

(** The invariant of the state. *)
Record sel_ok (st : chainstate) : Prop := {
  so_store : wf_store (entries st);
  so_works : works_ok (entries st);
  so_active : chain_ok (entries st) (chainActive st);
  so_good : forall p b, in_chain (entries st) (chainActive st) p -> entries st !! p = Some b -> usable_block b;
  so_sorted : sorted address (entries st) (cands st);
  so_valid : valid_ptrs (entries st) (cands st);
  so_linked : forall p b, p ∈ cands st -> entries st !! p = Some b -> linked b;
  so_closed : forall p b q bq, entries st !! p = Some b -> pprev b = Some q -> entries st !! q = Some bq ->
    linked b -> linked bq;
  so_invalid : forall p, pindexBestInvalid st = Some p -> is_Some (entries st !! p) }.

(** What a search does to the state: only candidates that cannot be used are removed, and only blocks
    that descend from a failed one are marked. *)
Record searched (st st' : chainstate) : Prop := {
  se_marked : marked (entries st) (entries st');
  se_active : chainActive st' = chainActive st;
  se_cands : cands st' `sublist_of` cands st;
  se_kept : forall p, p ∈ cands st -> usable (entries st) p -> p ∈ cands st';
  se_invalid : forall p, pindexBestInvalid st' = Some p -> pindexBestInvalid st = Some p \/ is_Some (entries st !! p);
  se_unlinked : data_ok (entries st) -> mapBlocksUnlinked st' = mapBlocksUnlinked st }.

Lemma searched_refl st : searched st st.
Proof. split; auto using marked_refl. Qed.

Lemma searched_trans st1 st2 st3 : searched st1 st2 -> searched st2 st3 -> searched st1 st3.
Proof.
  intros [M1 A1 C1 K1 I1 U1] [M2 A2 C2 K2 I2 U2]. split; try congruence.
  - eapply marked_trans; eassumption.
  - now transitivity (cands st2).
  - intros p Hp Hu. apply K2; [now apply K1|]. now apply (marked_usable _ _ p M1).
  - intros p Hp. destruct (I2 p Hp) as [H|H]; [now apply I1|]. right. exact (same_tree_valid _ _ p (symmetry (proj1 M1)) H).
  - intros Hd. rewrite U2 by (now apply (marked_data _ _ M1)). now apply U1.
Qed.

(** Blocks of the active chain have all their ancestors there. *)
Lemma active_up st p b m q : sel_ok st -> in_chain (entries st) (chainActive st) p -> entries st !! p = Some b ->
  up (entries st) m p = Some q -> in_chain (entries st) (chainActive st) q.
Proof.
  intros Hst Hin Hb Hup. pose proof (so_store _ Hst) as Hwf. destruct (Z.le_gt_cases (Z.of_nat m) (Chain.nHeight b)) as [Hle|Hgt].
  - destruct (up_height (entries st) Hwf m p b Hb Hle) as (q' & bq & E & Hbq & Eh). rewrite Hup in E. injection E as <-.
    pose proof (eo_height _ _ _ (Hwf q bq Hbq)).
    pose proof (chain_at_ancestor (entries st) Hwf (chainActive st) p b (Chain.nHeight bq) (so_active _ Hst) Hb Hin ltac:(lia)) as Hat.
    replace (Z.to_nat (Chain.nHeight b - Chain.nHeight bq)) with m in Hat by lia. rewrite Hup in Hat.
    unfold in_chain, Contains. rewrite Hbq. cbn [mbind option_bind]. now rewrite bool_decide_eq_true_2.
  - rewrite (up_beyond (entries st) Hwf m p b Hb) in Hup by lia. discriminate.
Qed.

Lemma active_usable st p : sel_ok st -> in_chain (entries st) (chainActive st) p -> usable (entries st) p.
Proof.
  intros Hst Hin. assert (Hp : is_Some (entries st !! p)).
  { unfold in_chain, Contains in Hin. destruct (entries st !! p); [eauto|discriminate]. }
  split; [done|]. destruct Hp as [b Hb]. intros m q bq Hup Hbq. apply (so_good _ Hst q); [|done].
  now apply (active_up st p b m q).
Qed.

Lemma sel_ok_change st st' : sel_ok st -> same_tree (entries st) (entries st') -> chainActive st' = chainActive st ->
  (forall p b, in_chain (entries st) (chainActive st) p -> entries st' !! p = Some b -> usable_block b) ->
  cands st' `sublist_of` cands st ->
  (forall p, pindexBestInvalid st' = Some p -> pindexBestInvalid st = Some p \/ is_Some (entries st !! p)) -> sel_ok st'.
Proof.
  intros [Hwf Hw Hch Hg Hs Hv Hl Hcl Hinv] Ht Ea Hg' Hc Hi. split.
  - exact (same_shape_wf _ _ (same_tree_shape _ _ Ht) Hwf).
  - exact (same_shape_works _ _ (same_tree_shape _ _ Ht) Hw).
  - rewrite Ea. exact (same_shape_chain _ _ (same_tree_shape _ _ Ht) _ Hch).
  - intros p b' Hin. rewrite Ea, (same_tree_in_chain _ _ _ _ Ht) in Hin. now apply Hg'.
  - now apply (same_tree_sorted address (entries st) (entries st') (cands st') (cands st)).
  - apply list.Forall_forall. intros p Hp. apply (same_tree_valid _ _ p Ht). unfold valid_ptrs in Hv. rewrite list.Forall_forall in Hv.
    apply Hv. eapply elem_of_sublist; eassumption.
  - intros p b' Hp Hb'. destruct (same_tree_lookup _ _ p b' (symmetry Ht) Hb') as (b & Hb & Hsb).
    destruct (same_block_fields _ _ Hsb) as (_ & _ & Eh & _ & _ & En). unfold linked. rewrite <- Eh, <- En. apply (Hl p b); [|done].
    eapply elem_of_sublist; eassumption.
  - intros p b' q bq' Hb' Hq Hbq'. destruct (same_tree_lookup _ _ p b' (symmetry Ht) Hb') as (b & Hb & Hsb).
    destruct (same_tree_lookup _ _ q bq' (symmetry Ht) Hbq') as (bq & Hbq & Hsq).
    destruct (same_block_fields _ _ Hsb) as (Ep & _ & Eh & _ & _ & En). destruct (same_block_fields _ _ Hsq) as (_ & _ & Eh2 & _ & _ & En2).
    unfold linked. rewrite <- Eh, <- En, <- Eh2, <- En2. apply (Hcl p b q bq); [done|congruence|done].
  - intros p Hp. apply (same_tree_valid _ _ p Ht). destruct (Hi p Hp) as [H|H]; [now apply Hinv|done].
Qed.

Lemma searched_ok st st' : sel_ok st -> searched st st' -> sel_ok st'.
Proof.
  intros Hst [[Ht Hm] Ea Hc _ Hi _]. apply (sel_ok_change st); try done.
  intros p b' Hin Hb'. destruct (same_tree_lookup _ _ p b' (symmetry Ht) Hb') as (b & Hb & _).
  destruct (Hm p b b' Hb Hb') as [->|[_ Hd]]; [now apply (so_good _ Hst p)|].
  now destruct (doomed_unusable _ _ Hd (active_usable st p Hst Hin)).
Qed.

Lemma usable_step s p b : s !! p = Some b -> usable_block b -> (forall q, pprev b = Some q -> usable s q) -> usable s p.
Proof.
  intros Hb Hu Hq. split; [eauto|]. intros [|m] q bq; cbn [up]; rewrite ?Hb; [intros [= <-]; rewrite Hb; now intros [= <-]|].
  cbn [mbind option_bind]. destruct (pprev b) as [q'|] eqn:E; [|done]. cbn [mbind option_bind]. apply (Hq q' eq_refl).
Qed.

(** The outcome of the walk from [p]. *)
Definition path_tested (s : store) (p : nat) (b : CBlockIndex) (r : option (nat * bool)) : Prop :=
  match r with
  | None => usable s p
  | Some (t, fl) => exists n bt, up s n p = Some t /\ Z.of_nat n <= Chain.nHeight b /\ s !! t = Some bt /\
      failed bt = fl /\ ~ usable_block bt
  end.

Lemma path_tested_step s p b q bq r : s !! p = Some b -> usable_block b -> pprev b = Some q ->
  Chain.nHeight b = Chain.nHeight bq + 1 -> path_tested s q bq r -> path_tested s p b r.
Proof.
  intros Hb Hu Eq Eh. destruct r as [[t fl]|]; cbn [path_tested].
  - intros (n & bt & Hup & Hn & Hbt & Hfl & Hno). exists (S n), bt. cbn [up]. rewrite Hb. cbn [mbind option_bind]. rewrite Eq.
    cbn [mbind option_bind]. repeat split; (done || lia).
  - intros Hq. apply (usable_step s p b Hb Hu). intros q'. rewrite Eq. now intros [= <-].
Qed.

Lemma test_path_spec fuel : forall st p b, sel_ok st -> entries st !! p = Some b -> Chain.nHeight b < Z.of_nat fuel -> linked b ->
  exists r, test_path fuel st (Some p) = Some r /\ path_tested (entries st) p b r.
Proof.
  induction fuel as [|fuel IH]; intros st p b Hst Hb Hf Hl; pose proof (so_store _ Hst p b Hb) as [Hh Hprev _]; [lia|].
  cbn [test_path]. destruct (Contains_total (entries st) (chainActive st) p b Hb) as [c Ec]. rewrite Ec. cbn [mbind option_bind].
  destruct c; [exists None; split; [done|]; now apply active_usable|]. rewrite Hb. cbn [mbind option_bind].
  replace (negb (nChainTx b =? 0) || (Chain.nHeight b =? 0)) with true by (unfold linked in Hl; lia). cbn [negb].
  destruct (failed b || negb (has_data b)) eqn:Eb.
  { exists (Some (p, failed b)). split; [done|]. exists 0%nat, b. repeat split; try done.
    intros [H1 H2]. rewrite H1, H2 in Eb. discriminate. }
  apply orb_false_iff in Eb as [Eb1 Eb2%negb_false_iff]. destruct (pprev b) as [q|] eqn:Eq.
  - destruct Hprev as (bq & Hbq & Eh). destruct (IH st q bq Hst Hbq ltac:(lia) (so_closed _ Hst p b q bq Hb Eq Hbq Hl)) as (r & -> & Hr).
    exists r. split; [done|]. now apply (path_tested_step _ p b q bq).
  - exists None. split; [now destruct fuel|]. apply (usable_step _ p b Hb (conj Eb1 Eb2)). intros q. now rewrite Eq.
Qed.

(** *** Removing a chain *)

Lemma remove_candidate_searched st p : sel_ok st -> is_Some (entries st !! p) -> ~ usable (entries st) p ->
  searched st (remove_candidate address st p) /\ p ∉ cands (remove_candidate address st p).
Proof.
  intros Hst Hp Hun. cbn [remove_candidate with_candidates setBlockIndexCandidates].
  pose proof (fun q => erase_in address Haddr (entries st) p (cands st) q (so_works _ Hst) Hp (so_valid _ Hst)) as He.
  split; [|intros Hx; now apply He in Hx]. split; cbn; try done.
  - apply marked_refl.
  - apply sublist_filter.
  - intros q Hq Hu. apply He. split; [done|]. now intros ->.
  - auto.
Qed.

Lemma mark_searched st p : doomed (entries st) p ->
  searched st (with_index st (update_entry p (add_status BLOCK_FAILED_CHILD) (index st))).
Proof.
  intros Hd. split; cbn; try done; auto. split; [apply alter_same_tree, add_status_only|].
  intros q b b' Hb. rewrite list_lookup_alter. destruct (decide (p = q)) as [->|_]; [|left; congruence].
  rewrite Hb. intros [= <-]. now right.
Qed.

Lemma unlinked_searched st l : ~ data_ok (entries st) -> searched st (with_unlinked st l).
Proof. intros Hno. split; cbn; auto using marked_refl. now intros ?%Hno. Qed.

Lemma remove_chain_spec n : forall fuel st p b t fl, sel_ok st -> (n <= fuel)%nat -> entries st !! p = Some b ->
  Z.of_nat n <= Chain.nHeight b -> up (entries st) n p = Some t -> ~ usable (entries st) t ->
  (if fl : bool then doomed (entries st) t else ~ data_ok (entries st)) ->
  exists st', remove_chain address fuel st p t fl = Some st' /\ searched st st' /\ p ∉ cands st'.
Proof.
  induction n as [|n IH]; intros fuel st p b t fl Hst Hf Hb Hn Hup Hun Hfl;
    destruct (up_height (entries st) (so_store _ Hst) _ p b Hb Hn) as (t' & bt & E & Hbt & Eh); rewrite Hup in E; injection E as <-.
  - injection Hup as <-. exists (remove_candidate address st p). split; [|now apply remove_candidate_searched; eauto].
    destruct fuel; cbn [remove_chain]; now rewrite bool_decide_eq_true_2.
  - destruct fuel as [|fuel]; [lia|]. cbn [remove_chain].
    rewrite bool_decide_eq_false_2 by (intros ->; rewrite Hb in Hbt; injection Hbt as <-; lia).
    rewrite Hb. cbn [mbind option_bind]. pose proof Hup as Hup'. cbn [up] in Hup'. rewrite Hb in Hup'. cbn [mbind option_bind] in Hup'.
    destruct (pprev b) as [q|] eqn:Eq; [|done]. cbn [mbind option_bind] in Hup' |- *.
    set (st1 := if fl : bool then _ else _).
    assert (Hs1 : searched st st1).
    { unfold st1. destruct fl; [|now apply unlinked_searched]. apply mark_searched. now apply (doomed_up _ p (S n) t). }
    assert (Hunp : ~ usable (entries st) p) by (intros Hu; apply Hun, (usable_up _ p (S n) t Hu Hup); eauto).
    destruct (remove_candidate_searched st1 p (searched_ok _ _ Hst Hs1)) as [Hs2 Hno].
    { apply (same_tree_valid _ _ p (proj1 (se_marked _ _ Hs1))). eauto. }
    { now rewrite (marked_usable _ _ p (se_marked _ _ Hs1)). }
    pose proof (searched_trans _ _ _ Hs1 Hs2) as Hs. set (st2 := remove_candidate address st1 p) in *.
    pose proof (eo_prev _ _ _ (so_store _ Hst p b Hb)) as Hprev. rewrite Eq in Hprev. destruct Hprev as (bq & Hbq & Ehq).
    pose proof (proj1 (se_marked _ _ Hs)) as Ht. destruct (same_tree_lookup _ _ q bq Ht Hbq) as (bq2 & Hbq2 & Hsq).
    destruct (same_block_fields _ _ Hsq) as (_ & _ & Ehs & _).
    destruct (IH fuel st2 q bq2 t fl (searched_ok _ _ Hst Hs)) as (st3 & -> & Hs3 & _); try done; try lia.
    { now rewrite (same_tree_up _ _ Ht). }
    { now rewrite (marked_usable _ _ t (se_marked _ _ Hs)). }
    { destruct fl; [now apply (marked_doomed _ _ t (se_marked _ _ Hs))|now rewrite (marked_data _ _ (se_marked _ _ Hs))]. }
    exists st3. split; [done|]. split; [exact (searched_trans _ _ _ Hs Hs3)|]. intros Hx. apply Hno.
    eapply elem_of_sublist; [exact Hx|apply (se_cands _ _ Hs3)].
Qed.

Lemma note_invalid_spec st p : sel_ok st -> is_Some (entries st !! p) ->
  exists st', note_invalid st p = Some st' /\ searched st st' /\ cands st' = cands st /\ index st' = index st /\
    mapBlocksUnlinked st' = mapBlocksUnlinked st.
Proof.
  intros Hst Hp. assert (Hw : searched st (with_invalid st (Some p))).
  { split; cbn; auto using marked_refl. intros q [= <-]. now right. }
  unfold note_invalid. destruct (pindexBestInvalid st) as [i|] eqn:Ei; [|eauto 10].
  destruct Hp as [b ->], (so_invalid _ Hst i Ei) as [bi ->]. cbn [mbind option_bind].
  destruct (0 <? _); eauto 10 using searched_refl.
Qed.

Lemma linked_up st m : forall p b q bq, sel_ok st -> entries st !! p = Some b -> linked b -> up (entries st) m p = Some q ->
  entries st !! q = Some bq -> linked bq.
Proof.
  induction m as [|m IH]; intros p b q bq Hst Hb Hl; cbn [up]; [intros [= <-]; rewrite Hb; now intros [= <-]|].
  rewrite Hb. cbn [mbind option_bind]. destruct (pprev b) as [r|] eqn:Er; [|done]. cbn [mbind option_bind]. intros Hup Hbq.
  pose proof (eo_prev _ _ _ (so_store _ Hst p b Hb)) as Hprev. rewrite Er in Hprev. destruct Hprev as (br & Hbr & _).
  apply (IH r br q bq Hst Hbr); [now apply (so_closed _ Hst p b r br)|done|done].
Qed.

(** *** The whole search *)

Lemma find_most_work_spec fuel : forall st, sel_ok st -> (length (cands st) <= fuel)%nat ->
  exists st' r, find_most_work address fuel st = Some (st', r) /\ searched st st' /\ list.last (cands st') = r /\
    forall p, r = Some p -> usable (entries st') p.
Proof.
  induction fuel as [|fuel IH]; intros st Hst Hf; cbn [find_most_work]; destruct (list.last (cands st)) as [p|] eqn:El;
    try (exists st, None; split; [done|]; split; [apply searched_refl|]; split; [done|]; discriminate).
  { apply list.last_Some in El as [l' El]. rewrite El, length_app in Hf. cbn in Hf. lia. }
  pose proof (last_Some_elem_of _ _ El) as Hp. pose proof (so_valid _ Hst) as Hv. unfold valid_ptrs in Hv. rewrite list.Forall_forall in Hv.
  destruct (Hv p Hp) as [b Hb]. rewrite Hb. cbn [mbind option_bind]. pose proof (eo_height _ _ _ (so_store _ Hst p b Hb)) as Hh.
  destruct (test_path_spec (S (Z.to_nat (Chain.nHeight b))) st p b Hst Hb ltac:(lia) (so_linked _ Hst p b Hp Hb)) as (r & -> & Hr).
  cbn [mbind option_bind]. destruct r as [[t fl]|]; 
    [|exists st, (Some p); split; [done|]; split; [apply searched_refl|]; split; [done|]; now intros q [= <-]].
  destruct Hr as (n & bt & Hup & Hn & Hbt & Hfl & Hno).
  assert (Hnote : exists st1, (if fl : bool then note_invalid st p else Some st) = Some st1 /\ searched st st1 /\ index st1 = index st).
  { destruct fl; [|eauto using searched_refl]. destruct (note_invalid_spec st p Hst ltac:(eauto)) as (st1 & -> & H1 & _ & H2 & _). eauto. }
  destruct Hnote as (st1 & -> & Hs1 & Ei). cbn [mbind option_bind]. pose proof (searched_ok _ _ Hst Hs1) as Hst1.
  destruct (remove_chain_spec n (Z.to_nat (Chain.nHeight b)) st1 p b t fl Hst1) as (st2 & -> & Hs2 & Hout); rewrite ?Ei; try (done || lia).
  { intros [_ Hx]. apply Hno. now apply (Hx 0%nat t). }
  { destruct fl; [now exists 0%nat, t, bt|]. intros Hd. apply Hno. split; [done|]. apply (Hd t bt Hbt).
    exact (linked_up st n p b t bt Hst Hb (so_linked _ Hst p b Hp Hb) Hup Hbt). }
  cbn [mbind option_bind]. pose proof (searched_trans _ _ _ Hs1 Hs2) as Hs.
  assert (Hlen : (length (cands st2) <= fuel)%nat).
  { pose proof (se_cands _ _ Hs) as Hc. pose proof (sublist_length _ _ Hc). destruct (Nat.eq_dec (length (cands st2)) (length (cands st))) as [E|]; [|lia].
    exfalso. apply Hout. now rewrite (sublist_same_length _ _ Hc E). }
  destruct (IH st2 (searched_ok _ _ Hst Hs) Hlen) as (st3 & r & -> & Hs3 & Hlast & Hu).
  exists st3, r. split; [done|]. split; [exact (searched_trans _ _ _ Hs Hs3)|]. now split.
Qed.

Lemma sorted_last s l p q : sorted address s l -> list.last l = Some p -> q ∈ l -> q = p \/ less s q p = true.
Proof.
  intros Hs [l' ->]%list.last_Some. intros [Hq| ->%list_elem_of_singleton]%elem_of_app; [|now left]. right.
  exact (StronglySorted_app_1_elem_of _ l' [p] q p Hs Hq (list_elem_of_here _ _)).
Qed.

(** [p] is the best of the candidates that can be used, if there are any. *)
Definition best_candidate (st : chainstate) (r : ptr) : Prop :=
  match r with
  | Some p => p ∈ cands st /\ usable (entries st) p /\
      forall q, q ∈ cands st -> usable (entries st) q -> q = p \/ less (entries st) q p = true
  | None => forall q, q ∈ cands st -> ~ usable (entries st) q
  end.

Lemma FindMostWorkChain_spec st : sel_ok st ->
  exists st' r, FindMostWorkChain address st = Some (st', r) /\ searched st st' /\ sel_ok st' /\ best_candidate st r.
Proof.
  intros Hst. destruct (find_most_work_spec (length (cands st)) st Hst (le_n _)) as (st' & r & E & Hs & Hlast & Hu).
  exists st', r. split; [exact E|]. split; [done|]. pose proof (searched_ok _ _ Hst Hs) as Hst'. split; [done|].
  pose proof (proj1 (se_marked _ _ Hs)) as Ht. destruct r as [p|]; cbn [best_candidate].
  - split; [eapply elem_of_sublist; [exact (last_Some_elem_of _ _ Hlast)|apply (se_cands _ _ Hs)]|].
    split; [apply (marked_usable _ _ p (se_marked _ _ Hs)); now apply Hu|]. intros q Hq Huq.
    rewrite <- (same_tree_less address _ _ q p Ht). apply (sorted_last (entries st') (cands st')); [apply (so_sorted _ Hst')|done|].
    now apply (se_kept _ _ Hs).
  - intros q Hq Huq. apply (se_kept _ _ Hs q Hq) in Huq. rewrite (proj1 (list.last_None _) Hlast) in Huq. now apply not_elem_of_nil in Huq.
Qed.

(** *** Pruning *)

Lemma drop_worse_spec s t l : works_ok s -> sorted address s l ->
  drop_worse address s t l `sublist_of` l /\
  forall q, q ∈ l -> q ∈ drop_worse address s t l <-> less s q t = false.
Proof.
  intros Hw Hs. induction l as [|p l IH]; cbn [drop_worse]; [split; [done|]; now intros q Hq%not_elem_of_nil|].
  unfold sorted in Hs. apply StronglySorted_cons in Hs as [Hp Hs]. destruct (IH Hs) as [Hsub Hin]. destruct (less s p t) eqn:E.
  - split; [now apply sublist_cons|]. intros q [->|Hq]%elem_of_cons; [|now apply Hin]. split; [|congruence].
    intros Hx. eapply elem_of_sublist in Hx; [|exact Hsub]. rewrite list.Forall_forall in Hp. specialize (Hp p Hx). cbn in Hp.
    now rewrite (work_less_irrefl address s p Hw) in Hp.
  - split; [done|]. intros q Hq. split; [|done]. intros _. apply elem_of_cons in Hq as [->|Hq]; [done|].
    rewrite list.Forall_forall in Hp. specialize (Hp q Hq). cbn in Hp. destruct (less s q t) eqn:E2; [|done].
    now rewrite (work_less_trans address s p q t Hw Hp E2) in E.
Qed.

Lemma PruneBlockIndexCandidates_spec st t : sel_ok st -> tip st = Some t -> (exists q, q ∈ cands st /\ less (entries st) q t = false) ->
  exists st', PruneBlockIndexCandidates address st = Some st' /\ sel_ok st' /\ index st' = index st /\ chainActive st' = chainActive st /\
    mapBlocksUnlinked st' = mapBlocksUnlinked st /\ forall q, q ∈ cands st' <-> q ∈ cands st /\ less (entries st) q t = false.
Proof.
  intros Hst Ht (q0 & Hq0 & Hno). destruct (drop_worse_spec (entries st) t (cands st) (so_works _ Hst) (so_sorted _ Hst)) as [Hsub Hin].
  unfold PruneBlockIndexCandidates. rewrite Ht. cbn [mbind option_bind].
  set (st' := with_candidates st (drop_worse address (entries st) t (cands st))).
  rewrite bool_decide_eq_false_2 by (intros E; apply (Hin q0 Hq0) in Hno; cbn in E; rewrite E in Hno; now apply not_elem_of_nil in Hno).
  exists st'. split; [done|]. split; [|split; [done|split; [done|split; [done|]]]].
  - apply (sel_ok_change st); cbn; try done; [now apply (so_good _ Hst)|auto].
  - intros q. split; [intros Hq; assert (q ∈ cands st) by (eapply elem_of_sublist; eassumption); split; [done|now apply Hin]|].
    intros [H1 H2]. now apply Hin.
Qed.

(** *** Invalid blocks *)

Lemma InvalidChainFound_spec st p : sel_ok st -> is_Some (entries st !! p) -> is_Some (tip st) ->
  exists st', InvalidChainFound st p = Some st' /\ searched st st' /\ cands st' = cands st /\ index st' = index st /\
    mapBlocksUnlinked st' = mapBlocksUnlinked st.
Proof.
  intros Hst Hp [t Ht]. unfold InvalidChainFound. destruct (note_invalid_spec st p Hst Hp) as (st' & -> & Hs & Ec & Ei & Eu).
  cbn [mbind option_bind]. unfold tip. rewrite (se_active _ _ Hs). unfold tip in Ht. rewrite Ht. cbn [mbind option_bind]. eauto 10.
Qed.

(** Block [p] failed. *)
Record block_failed (st : chainstate) (p : nat) (st' : chainstate) : Prop := {
  bf_entries : entries st' = alter (add_status BLOCK_FAILED_VALID) p (entries st);
  bf_active : chainActive st' = chainActive st;
  bf_cands : forall q, q ∈ cands st' <-> q ∈ cands st /\ q <> p;
  bf_unlinked : mapBlocksUnlinked st' = mapBlocksUnlinked st;
  bf_ok : sel_ok st' }.

Lemma InvalidBlockFound_spec st p state : sel_ok st -> is_Some (entries st !! p) -> is_Some (tip st) ->
  ~ in_chain (entries st) (chainActive st) p -> corruptionPossible state = false ->
  exists st', InvalidBlockFound address st p state = Some st' /\ block_failed st p st'.
Proof.
  intros Hst Hp Htip Hno Hc. unfold InvalidBlockFound. rewrite Hc.
  set (st1 := with_index st (make_dirty p (update_entry p (add_status BLOCK_FAILED_VALID) (index st)))).
  assert (Hsame : same_tree (entries st) (entries st1)) by apply alter_same_tree, add_status_only.
  assert (Hst1 : sel_ok st1).
  { apply (sel_ok_change st); try done; [|now left]. intros q b Hq. cbn. rewrite list_lookup_alter_ne by (now intros ->).
    now apply (so_good _ Hst). }
  assert (Hun : ~ usable (entries st1) p).
  { intros [_ Hu]. destruct Hp as [b Hb]. destruct (Hu 0%nat p (add_status BLOCK_FAILED_VALID b) eq_refl) as [Hf _];
      [|rewrite (proj1 (failed_valid b)) in Hf; discriminate].
    cbn. rewrite list_lookup_alter, decide_True by done. now rewrite Hb. }
  pose proof (same_tree_valid _ _ p Hsame Hp) as Hp1.
  pose proof (fun q => erase_in address Haddr (entries st1) p (cands st1) q (so_works _ Hst1) Hp1 (so_valid _ Hst1)) as He.
  destruct (remove_candidate_searched st1 p Hst1 Hp1 Hun) as [Hs2 _]. pose proof (searched_ok _ _ Hst1 Hs2) as Hst2.
  destruct (InvalidChainFound_spec (remove_candidate address st1 p) p Hst2 Hp1 Htip) as (st' & E & Hs & Ec & Ei & Eu).
  exists st'. split; [exact E|]. split; [now rewrite Ei|now rewrite (se_active _ _ Hs)|rewrite Ec; exact He|exact Eu|exact (searched_ok _ _ Hst2 Hs)].
Qed.

(** ** Properties *)

(** [FindMostWorkChain] ends without a failed assertion.  It returns the block with the most work among the
    candidates all of whose ancestors are there and none failed, ties decided by the order in which blocks
    were received, and NULL if no candidate is like that.  The active chain stays; only candidates that cannot
    be used are removed, and only descendants of failed blocks are marked as failed. *)
Theorem FindMostWorkChain_correct st : sel_ok st ->
  exists st' r, FindMostWorkChain address st = Some (st', r) /\ sel_ok st' /\ best_candidate st r /\
    chainActive st' = chainActive st /\ marked (entries st) (entries st') /\
    (forall p, p ∈ cands st' -> p ∈ cands st) /\ (forall p, p ∈ cands st -> usable (entries st) p -> p ∈ cands st').
Proof.
  intros Hst. destruct (FindMostWorkChain_spec st Hst) as (st' & r & E & Hs & Hst' & Hb). exists st', r.
  split; [done|]. split; [done|]. split; [done|]. split; [apply (se_active _ _ Hs)|]. split; [apply (se_marked _ _ Hs)|].
  split; [|apply (se_kept _ _ Hs)]. intros p Hp. eapply elem_of_sublist; [exact Hp|apply (se_cands _ _ Hs)].
Qed.

End Search.

(** *** A concrete state *)

(** Blocks 1 and 2 follow the genesis block 0, blocks 3 and 4 are another branch, which has more work. *)
Definition demo_block (prev : ptr) (height work seq : Z) (status : Z) : CBlockIndex :=
  mk_index (Some (replicate 32 work)) prev None height 0 0 0 [work; 0; 0; 0; 0; 0; 0; 0] 1 (height + 1) status 1 (replicate 32 0) 0 0 0 seq.
Definition demo_tree (status3 : Z) : store :=
  [demo_block None 0 1 1 11; demo_block (Some 0%nat) 1 3 2 11; demo_block (Some 1%nat) 2 5 3 11;
   demo_block (Some 0%nat) 1 3 4 status3; demo_block (Some 3%nat) 2 6 5 11].
Definition demo_select (status3 : Z) : chainstate :=
  mk_chainstate (mk_state (demo_tree status3) ∅ None ∅) [0; 3; 1; 2; 4]%nat [Some 0%nat] None [] 6.

Lemma demo_blocks status3 (P : nat -> CBlockIndex -> Prop) :
  (forall p, (p < 5)%nat -> from_option (P p) True (demo_tree status3 !! p)) ->
  forall p b, demo_tree status3 !! p = Some b -> P p b.
Proof. intros H p b Hb. assert (Hp : (p < 5)%nat) by exact (lookup_lt_Some _ _ _ Hb). specialize (H p Hp). now rewrite Hb in H. Qed.

Ltac five_blocks := let p := fresh "p" in let Hp := fresh "Hp" in refine (demo_blocks _ _ _); intros p Hp;
  destruct p as [|[|[|[|[|p]]]]]; [| | | | |lia]; clear Hp; cbn [demo_tree lookup list_lookup from_option].

Lemma demo_select_ok status3 : sel_ok Z.of_nat (demo_select status3).
Proof.
  split; cbn [demo_select index heap chainActive setBlockIndexCandidates pindexBestInvalid].
  - intros p b Hb. revert p b Hb. five_blocks; (split; cbn; [lia| |done]); eauto.
  - intros p b Hb. revert p b Hb. five_blocks; (split; [by_eval|reflexivity]).
  - right. exists 0%nat, (demo_block None 0 1 1 11). split; reflexivity.
  - intros p b Hin Hb. revert p b Hb Hin. five_blocks; try (intros H; vm_compute in H; discriminate H).
    intros _. split; reflexivity.
  - unfold sorted. repeat constructor.
  - unfold valid_ptrs. repeat constructor; eauto.
  - intros p b _ Hb. revert p b Hb. five_blocks; (left; cbn; lia).
  - intros p b q bq Hb _ Hq _. revert q bq Hq. five_blocks; (left; cbn; lia).
  - discriminate.
Qed.

Example demo_find :
  snd <$> FindMostWorkChain Z.of_nat (demo_select 11) = Some (Some 4%nat) /\
  snd <$> FindMostWorkChain Z.of_nat (demo_select 43) = Some (Some 2%nat).
Proof. split; vm_compute; reflexivity. Qed.

Lemma FindMostWorkChain_correct_witness :
  exists st' r, FindMostWorkChain Z.of_nat (demo_select 43) = Some (st', r) /\ sel_ok Z.of_nat st' /\
    best_candidate Z.of_nat (demo_select 43) r /\ chainActive st' = [Some 0%nat] /\ marked (demo_tree 43) (entries st') /\
    (forall p, p ∈ setBlockIndexCandidates st' -> p ∈ [0; 3; 1; 2; 4]%nat) /\
    (forall p, p ∈ [0; 3; 1; 2; 4]%nat -> usable (demo_tree 43) p -> p ∈ setBlockIndexCandidates st').
Proof. exact (FindMostWorkChain_correct Z.of_nat Nat2Z.inj (demo_select 43) (demo_select_ok 43)). Defined.
