(* ===== verification/ActivateChain.v ===== *)
(** * Making the best chain active ([validation.cpp])

    [DisconnectTip], [ConnectTip], [ActivateBestChainStep] and [ActivateBestChain].  What a block does to the
    coins is asked for through the interface [TipOps], which stands for reading the block, [ConnectBlock] or
    [DisconnectBlock] on a new cache (Undo.v, ConnectBlock.v), flushing that cache, and writing to disk; blocks are named by their entries.
    The memory pool, notifications, warnings and the check for a shutdown are left out. *)

From stdpp Require Import gmap sorting strings.
From S2P Require Import Prelude Words Arith256 PowHash Chain Pow AddBlock ValidationState ChainSelect.

(** ** The interface to the coins *)

(** [Connected]: the coins with the block, and the undo data with the position where it would be written;
    none for the genesis block. *)
Inductive connect_outcome (C U : Type) :=
  | Connected (coins : C) (undo : option (U * Z))
  | Refused (state : CValidationState).
Arguments Connected {C U}.
Arguments Refused {C U}.

Class TipOps (C U : Type) := {
  connect_coins : C -> nat -> connect_outcome C U;
  disconnect_coins : C -> nat -> U -> option C;       (* fails when something cannot be read *)
  flush_coins : C -> option CValidationState }.       (* the error, if there is one *)

(** ** The operations *)

Definition IsInvalid (state : CValidationState) : bool := match mode state with MODE_INVALID => true | _ => false end.

Definition GetUndoPos (b : CBlockIndex) : Z * Z :=
  if nStatus b .& BLOCK_HAVE_UNDO =? 0 then (-1, 0) else (nFile b, nUndoPos b).
Definition no_undo (b : CBlockIndex) : bool := (GetUndoPos b).1 =? -1.
Definition with_nUndoPos (pos : Z) (b : CBlockIndex) : CBlockIndex :=
  let '(mk_index h p sk ht f d _ w n t st v m ti bi no sq) := b in
  mk_index h p sk ht f d pos w n t st v m ti bi no sq.

Section Activate.
Context {C U : Type} `{TipOps C U}.
Variable address : nat -> Z.

(** The chain, [pcoinsTip], and the undo data of the blocks that is on disk. *)
Record node := mk_node {
  cs : chainstate;
  coins_tip : C;
  undo_files : gmap nat U }.
Definition with_cs (n : node) (st : chainstate) : node := mk_node st (coins_tip n) (undo_files n).
Definition with_coins (n : node) (c : C) : node := mk_node (cs n) c (undo_files n).

(** What [ConnectBlock] does to the entry of a connected block. *)
Definition record_undo (n : node) (p : nat) (u : U) (pos : Z) : option node :=
  b ← entries (cs n) !! p;
  if no_undo b || negb (IsValid BLOCK_VALID_SCRIPTS b) then
    let '(b, files) := if no_undo b then (add_status BLOCK_HAVE_UNDO (with_nUndoPos pos b), <[p := u]> (undo_files n))
                       else (b, undo_files n) in
    '(_, b) ← RaiseValidity BLOCK_VALID_SCRIPTS b;
    Some (mk_node (with_index (cs n) (make_dirty p (update_entry p (fun _ => b) (index (cs n))))) (coins_tip n) files)
  else Some n.

(** The log message reads the new tip. *)
Definition UpdateTip (st : chainstate) (pindexNew : ptr) : option chainstate :=
  v ← SetTip (entries st) (chainActive st) pindexNew;
  _ ← Tip v;
  Some (with_active st v).

Definition DisconnectTip (n : node) : option (bool * node) :=
  pindexDelete ← tip (cs n);
  b ← entries (cs n) !! pindexDelete;
  match (if no_undo b then None else undo_files n !! pindexDelete) with
  | None => Some (false, n)
  | Some u =>
      match disconnect_coins (coins_tip n) pindexDelete u with
      | None => Some (false, n)
      | Some c =>
          let n := with_coins n c in
          match flush_coins c with
          | Some _ => Some (false, n)
          | None => st ← UpdateTip (cs n) (pprev b); Some (true, with_cs n st)
          end
      end
  end.

(** The state with the reason, when the block could not be connected. *)
Definition ConnectTip (n : node) (pindexNew : nat) : option (option CValidationState * node) :=
  b ← entries (cs n) !! pindexNew;
  if negb (bool_decide (pprev b = tip (cs n))) then None
  else
    match connect_coins (coins_tip n) pindexNew with
    | Refused state =>
        st ← (if IsInvalid state then InvalidBlockFound address (cs n) pindexNew state else Some (cs n));
        Some (Some state, with_cs n st)
    | Connected c undo =>
        n ← match undo with Some (u, pos) => record_undo n pindexNew u pos | None => Some n end;
        let n := with_coins n c in
        match flush_coins c with
        | Some state => Some (Some state, n)
        | None => st ← UpdateTip (cs n) (Some pindexNew); Some (None, with_cs n st)
        end
    end.

(** ** ActivateBestChainStep *)

Fixpoint disconnect_to (fuel : nat) (n : node) (pindexFork : ptr) : option (bool * node) :=
  if bool_decide (tip (cs n) = None \/ tip (cs n) = pindexFork) then Some (true, n)
  else
    match fuel with
    | O => None
    | S fuel => '(ok, n) ← DisconnectTip n; if ok : bool then disconnect_to fuel n pindexFork else Some (false, n)
    end.

(** [vpindexToConnect] from its end: the blocks above height [h] up to [pindexIter]. *)
Fixpoint blocks_to_connect (fuel : nat) (s : store) (pindexIter : ptr) (h : Z) (l : list nat) : option (list nat) :=
  match pindexIter with
  | None => Some l
  | Some p =>
      b ← s !! p;
      if nHeight b =? h then Some l
      else match fuel with O => None | S fuel => blocks_to_connect fuel s (pprev b) h (p :: l) end
  end.

(** Whether the tip has more work than the one before. *)
Definition better_position (s : store) (pindexTip pindexOldTip : ptr) : option bool :=
  match pindexOldTip with
  | None => Some true
  | Some o => t ← pindexTip; bt ← s !! t; bo ← s !! o; Some (0 <? CompareTo (nChainWork bt) (nChainWork bo))
  end.

(** [Stop]: with [fInvalidFound]; [Failed]: a system error. *)
Inductive progress := Continue (n : node) | Stop (fInvalidFound : bool) (n : node) | Failed (n : node).

Fixpoint connect_list (pindexOldTip back : ptr) (l : list nat) (n : node) : option progress :=
  match l with
  | [] => Some (Continue n)
  | p :: l =>
      '(r, n) ← ConnectTip n p;
      match r with
      | Some state =>
          if IsInvalid state then
            st ← (if negb (corruptionPossible state) then q ← back; InvalidChainFound (cs n) q else Some (cs n));
            Some (Stop true (with_cs n st))
          else Some (Failed n)
      | None =>
          st ← PruneBlockIndexCandidates address (cs n);
          better ← better_position (entries st) (tip st) pindexOldTip;
          if better : bool then Some (Stop false (with_cs n st)) else connect_list pindexOldTip back l (with_cs n st)
      end
  end.

(** Up to 32 blocks at a time, from height [height]. *)
Fixpoint connect_loop (fuel : nat) (pindexOldTip : ptr) (pindexMostWork : nat) (height : Z) (n : node) : option progress :=
  b ← entries (cs n) !! pindexMostWork;
  if height =? nHeight b then Some (Continue n)
  else
    match fuel with
    | O => None
    | S fuel =>
        let nTargetHeight := Z.min (height + 32) (nHeight b) in
        q ← GetAncestor (entries (cs n)) pindexMostWork nTargetHeight;
        l ← blocks_to_connect (Z.to_nat (nTargetHeight - height)) (entries (cs n)) q height [];
        r ← connect_list pindexOldTip (head l) l n;
        match r with Continue n => connect_loop fuel pindexOldTip pindexMostWork nTargetHeight n | _ => Some r end
    end.

(** The result, [fInvalidFound] and the state. *)
Definition ActivateBestChainStep (n : node) (pindexMostWork : nat) : option (bool * bool * node) :=
  let pindexOldTip := tip (cs n) in
  pindexFork ← FindFork (entries (cs n)) (chainActive (cs n)) (Some pindexMostWork);
  let fBlocksDisconnected := negb (bool_decide (tip (cs n) = None \/ tip (cs n) = pindexFork)) in
  '(ok, n) ← disconnect_to (length (chainActive (cs n))) n pindexFork;
  if negb ok then Some (false, false, n)
  else
    height ← match pindexFork with None => Some (-1) | Some f => b ← entries (cs n) !! f; Some (nHeight b) end;
    b ← entries (cs n) !! pindexMostWork;
    r ← connect_loop (Z.to_nat (nHeight b - height)) pindexOldTip pindexMostWork height n;
    let finish fInvalidFound n :=
      if fBlocksDisconnected then _ ← tip (cs n); Some (true, fInvalidFound, n) else Some (true, fInvalidFound, n) in
    match r with
    | Continue n => finish false n
    | Stop invalid n => finish invalid n
    | Failed n => Some (false, false, n)
    end.

(** ** ActivateBestChain *)

Fixpoint activate (fuel : nat) (n : node) (pindexMostWork : ptr) : option (bool * node) :=
  match fuel with
  | O => None
  | S fuel =>
      '(n, pindexMostWork) ← match pindexMostWork with
                             | None => '(st, p) ← FindMostWorkChain address (cs n); Some (with_cs n st, p)
                             | Some _ => Some (n, pindexMostWork)
                             end;
      if bool_decide (pindexMostWork = None \/ pindexMostWork = tip (cs n)) then Some (true, n)
      else
        p ← pindexMostWork;
        '(ok, fInvalidFound, n) ← ActivateBestChainStep n p;
        if negb ok then Some (false, n)
        else
          let pindexMostWork := if fInvalidFound : bool then None else pindexMostWork in
          if bool_decide (tip (cs n) = pindexMostWork) then
            match flush_coins (coins_tip n) with Some _ => Some (false, n) | None => Some (true, n) end
          else activate fuel n pindexMostWork
  end.

(** Every turn finds an invalid block or comes closer to the best one. *)
Definition not_failed (s : store) : nat := sum_list_with (fun b => if failed b then O else 1%nat) s.
Definition max_height (s : store) : nat := foldr (fun b => Nat.max (Z.to_nat (nHeight b))) O s.
Definition ActivateBestChain (n : node) : option (bool * node) :=
  let s := entries (cs n) in
  activate (S (not_failed s) * S (S (max_height s))) n None.
End Activate.
Arguments node : clear implicits.
Arguments progress : clear implicits.

(** ** The laws of the interface *)

(** [root] is the genesis block and [c0] the coins with it.  Disconnecting undoes connecting; a block that is refused
    is as it should be on the disk (a block with other transactions than its header's is not stored), and an
    error while writing is not blamed on a block. *)
Class TipOpsSpec (C U : Type) `{TipOps C U} (root : nat) (c0 : C) := {
  disconnect_connected : forall c p c' u pos c'', connect_coins c p = Connected c' (Some (u, pos)) ->
    disconnect_coins c' p u = Some c'' -> c'' = c;
  connected_undo : forall c p c', connect_coins c p = Connected c' None -> p = root;
  refused_intact : forall c p state, connect_coins c p = Refused state -> IsInvalid state = true -> corruptionPossible state = false;
  flush_error : forall c state, flush_coins c = Some state -> IsInvalid state = false }.

(** ** Changes of the entries *)

(** The header of the block is valid ([BLOCK_VALID_TREE]). *)
Definition in_tree (b : CBlockIndex) : Prop := BLOCK_VALID_TREE <= nStatus b .& BLOCK_VALID_MASK.
Lemma in_tree_add flag b : flag .& BLOCK_VALID_MASK = 0 -> in_tree b -> in_tree (add_status flag b).
Proof.
  intros Hf. unfold in_tree. replace (nStatus (add_status flag b)) with (nStatus b .| flag) by (now destruct b).
  now rewrite Z.land_lor_distr_l, Hf, Z.lor_0_r.
Qed.

(** The marks for failure only grow, and no data is lost. *)
Definition evolves (s s' : store) : Prop := same_tree s s' /\
  forall p b b', s !! p = Some b -> s' !! p = Some b' ->
    (failed b = true -> failed b' = true) /\ has_data b' = has_data b /\ (in_tree b -> in_tree b').
(** They stay. *)
Definition same_flags (s s' : store) : Prop := same_tree s s' /\
  forall p b b', s !! p = Some b -> s' !! p = Some b' -> failed b' = failed b /\ has_data b' = has_data b /\ (in_tree b -> in_tree b').

Lemma same_flags_refl s : same_flags s s.
Proof. split; [done|]. intros p b b' H1 H2. now rewrite H1 in H2; injection H2 as <-. Qed.

Lemma same_flags_evolves s s' : same_flags s s' -> evolves s s'.
Proof. intros [Ht Hf]. split; [done|]. intros p b b' Hb Hb'. now destruct (Hf p b b' Hb Hb') as [-> [-> ?]]. Qed.

#[export] Instance evolves_preorder : PreOrder evolves.
Proof.
  split; [intros s; apply same_flags_evolves, same_flags_refl|]. intros s1 s2 s3 [T1 F1] [T2 F2]. split; [now transitivity s2|].
  intros p b1 b3 H1 H3. destruct (same_tree_lookup _ _ p b1 T1 H1) as (b2 & H2 & _).
  destruct (F1 p b1 b2 H1 H2) as (A1 & A2 & A3), (F2 p b2 b3 H2 H3) as (B1 & B2 & B3). split; [auto|]. split; [congruence|auto].
Qed.

Lemma evolves_usable s s' p : evolves s s' -> usable s' p -> usable s p.
Proof.
  intros [Ht Hf] [Hp Hu]. split; [now apply (same_tree_valid s' s)|]. intros m q b Hup Hb.
  destruct (same_tree_lookup _ _ q b Ht Hb) as (b' & Hb' & _). rewrite <- (same_tree_up _ _ Ht) in Hup.
  destruct (Hu m q b' Hup Hb') as [H1 H2], (Hf q b b' Hb Hb') as (F1 & F2 & _). split; [|congruence]. destruct (failed b); [|done].
  now rewrite F1 in H1.
Qed.

Lemma usable_flags s s' p : same_shape s s' -> (forall q b b', s !! q = Some b -> s' !! q = Some b' -> failed b' = failed b /\ has_data b' = has_data b) ->
  usable s' p <-> usable s p.
Proof.
  assert (Hone : forall s s', same_shape s s' -> (forall q b b', s !! q = Some b -> s' !! q = Some b' -> failed b' = failed b /\ has_data b' = has_data b) ->
    usable s p -> usable s' p).
  { clear s s'. intros s s' Hs Hk [Hp Hu]. split; [now apply (same_shape_valid _ _ Hs)|]. intros m q b' Hup Hb'.
    rewrite (same_shape_up _ _ Hs) in Hup. destruct (same_shape_back _ _ q b' Hs Hb') as (b & Hb & _).
    destruct (Hk q b b' Hb Hb') as [E1 E2]. unfold usable_block. rewrite E1, E2. now apply (Hu m q b). }
  intros Hs Hk. split; [|now apply Hone]. apply Hone; [now symmetry|]. intros q b b' Hb Hb'. now destruct (Hk q b' b Hb' Hb).
Qed.

Lemma same_flags_usable s s' p : same_flags s s' -> usable s' p <-> usable s p.
Proof.
  intros [Ht Hf]. apply usable_flags; [now apply same_tree_shape|]. intros q b b' Hb Hb'. now destruct (Hf q b b' Hb Hb') as (? & ? & _).
Qed.

Lemma evolves_data s s' : evolves s s' -> data_ok s -> data_ok s'.
Proof.
  intros [Ht Hf] Hd p b' Hb' Hl. destruct (same_tree_lookup s' s p b' (symmetry Ht) Hb') as (b & Hb & Hs).
  apply (same_block_linked b' b Hs) in Hl. destruct (Hf p b b' Hb Hb') as (_ & -> & _). now apply (Hd p b).
Qed.

Lemma marked_evolves s s' : marked s s' -> evolves s s'.
Proof.
  intros [Ht Hm]. split; [done|]. intros p b b' Hb Hb'. destruct (Hm p b b' Hb Hb') as [->|[-> _]]; [done|].
  destruct (failed_child b) as [-> ->]. split; [done|]. split; [done|]. now apply in_tree_add.
Qed.

(** *** Failing *)

Lemma fail_evolves s p : evolves s (alter (add_status BLOCK_FAILED_VALID) p s).
Proof.
  split; [apply alter_same_tree, add_status_only|]. intros q b b' Hb. rewrite list_lookup_alter.
  destruct (decide (p = q)) as [->|_]; rewrite Hb; intros [= <-]; [|done].
  destruct (failed_valid b) as [-> ->]. split; [done|]. split; [done|]. now apply in_tree_add.
Qed.

(** Blocks stay usable that the failed one does not lead to. *)
Lemma fail_usable s p q : usable s q -> (forall m, up s m q <> Some p) -> usable (alter (add_status BLOCK_FAILED_VALID) p s) q.
Proof.
  intros [Hq Hu] Hno. assert (Ht : same_tree s (alter (add_status BLOCK_FAILED_VALID) p s)) by apply alter_same_tree, add_status_only.
  split; [now apply (same_tree_valid _ _ q Ht)|]. intros m r b Hup. rewrite (same_tree_up _ _ Ht) in Hup.
  rewrite list_lookup_alter_ne by (intros ->; now apply (Hno m)). now apply (Hu m).
Qed.

Lemma not_failed_evolves s s' : evolves s s' -> (not_failed s' <= not_failed s)%nat /\
  forall p b b', s !! p = Some b -> s' !! p = Some b' -> failed b = false -> failed b' = true -> (not_failed s' < not_failed s)%nat.
Proof.
  unfold not_failed. revert s'. induction s as [|b s IH]; intros [|b' s'] [Ht Hf].
  - split; [done|]. intros p b b' H. discriminate H.
  - specialize (Ht 0%nat). inversion Ht.
  - specialize (Ht 0%nat). inversion Ht.
  - destruct (IH s') as [IH1 IH2].
    { split; [intros p; exact (Ht (S p))|]. intros p. exact (Hf (S p)). }
    destruct (Hf 0%nat b b' eq_refl eq_refl) as [Hf0 _]. cbn [sum_list_with]. split.
    + destruct (failed b); [rewrite Hf0 by done; lia|]. destruct (failed b'); lia.
    + intros [|p] c c' Hc Hc'; [injection Hc as <-; injection Hc' as <-; intros -> ->; lia|].
      intros H1 H2. specialize (IH2 p c c' Hc Hc' H1 H2). destruct (failed b); [rewrite Hf0 by done; lia|].
      destruct (failed b'); lia.
Qed.

(** *** Recording undo data *)

(** What raising the validity to [level] leaves of the status. *)
Definition raised (level n : Z) : Z := (n .& u32 (Z.lnot BLOCK_VALID_MASK)) .| level.
Lemma raised_bits level n k : level ∈ [BLOCK_VALID_TRANSACTIONS; BLOCK_VALID_SCRIPTS] -> k ∈ [3; 4; 5; 6] ->
  Z.testbit (raised level n) k = Z.testbit n k.
Proof.
  intros Hl Hk. unfold raised. rewrite Z.lor_spec, Z.land_spec.
  assert (H : forallb (fun k => Z.testbit (u32 (Z.lnot BLOCK_VALID_MASK)) k && negb (Z.testbit level k)) [3; 4; 5; 6] = true).
  { repeat (apply elem_of_cons in Hl as [->|Hl]; [reflexivity|]). now apply not_elem_of_nil in Hl. }
  rewrite forallb_forall in H. specialize (H k (proj1 (list_elem_of_In _ _) Hk)). apply andb_true_iff in H as [-> H%negb_true_iff].
  now rewrite H, andb_true_r, orb_false_r.
Qed.

Lemma raised_in_tree level n : level ∈ [BLOCK_VALID_TRANSACTIONS; BLOCK_VALID_SCRIPTS] -> BLOCK_VALID_TREE <= raised level n .& BLOCK_VALID_MASK.
Proof.
  intros Hl. unfold raised. rewrite Z.land_lor_distr_l, <- Z.land_assoc.
  change (u32 (Z.lnot BLOCK_VALID_MASK) .& BLOCK_VALID_MASK) with 0. rewrite Z.land_0_r, Z.lor_0_l.
  repeat (apply elem_of_cons in Hl as [->|Hl]; [now vm_compute|]). now apply not_elem_of_nil in Hl.
Qed.

(** Entries with the same marks. *)
Definition like (b b' : CBlockIndex) : Prop :=
  same_block b b' /\ failed b' = failed b /\ has_data b' = has_data b /\ (in_tree b -> in_tree b').
Lemma like_refl b : like b b.
Proof. now split. Qed.
Lemma like_trans b1 b2 b3 : like b1 b2 -> like b2 b3 -> like b1 b3.
Proof. intros (S1 & F1 & D1 & T1) (S2 & F2 & D2 & T2). split; [now transitivity b2|]. split; [congruence|]. split; [congruence|auto]. Qed.

Lemma like_bits b b' : same_block b b' -> (forall k, k ∈ [3; 5; 6] -> Z.testbit (nStatus b') k = Z.testbit (nStatus b) k) ->
  (in_tree b -> in_tree b') -> like b b'.
Proof.
  intros Hs Hb Ht. split; [done|]. rewrite !failed_bits, !has_data_bit, (Hb 3), (Hb 5), (Hb 6) by (rewrite !elem_of_cons; tauto). done.
Qed.

Lemma RaiseValidity_like level b : level ∈ [BLOCK_VALID_TRANSACTIONS; BLOCK_VALID_SCRIPTS] ->
  exists r b', RaiseValidity level b = Some (r, b') /\ like b b' /\ no_undo b' = no_undo b /\ nFile b' = nFile b.
Proof.
  intros Hl. unfold RaiseValidity. replace (negb (level .& u32 (Z.lnot BLOCK_VALID_MASK) =? 0)) with false by
    (symmetry; repeat (apply elem_of_cons in Hl as [->|Hl]; [reflexivity|]); now apply not_elem_of_nil in Hl).
  destruct (negb _); [exists false, b; split; [done|]; split; [apply like_refl|done]|].
  destruct (_ <? _); [|exists false, b; split; [done|]; split; [apply like_refl|done]].
  eexists _, _. split; [reflexivity|]. fold (raised level (nStatus b)). destruct b as [h p sk ht f d u w t c st v m ti bi no sq]. split; [|split; [|done]].
  - apply like_bits; [reflexivity| |intros _; now apply raised_in_tree].
    intros k Hk. apply raised_bits; [done|]. revert Hk. rewrite !elem_of_cons. tauto.
  - unfold no_undo, GetUndoPos. cbn [with_nStatus nStatus nFile nUndoPos]. rewrite !(flag_bit _ BLOCK_HAVE_UNDO 4) by done.
    rewrite raised_bits; [done|done|]. rewrite !elem_of_cons. tauto.
Qed.

Lemma undo_written pos b : like b (add_status BLOCK_HAVE_UNDO (with_nUndoPos pos b)) /\
  (nFile b <> -1 -> no_undo (add_status BLOCK_HAVE_UNDO (with_nUndoPos pos b)) = false).
Proof.
  split.
  - apply like_bits; [now destruct b| |intros Ht; apply in_tree_add; [done|now destruct b]].
    intros k Hk. destruct b as [? ? ? ? ? ? ? ? ? ? st]. rewrite add_status_bit.
    + replace (Z.testbit BLOCK_HAVE_UNDO k) with false; [apply orb_false_r|].
      repeat (apply elem_of_cons in Hk as [->|Hk]; [reflexivity|]); now apply not_elem_of_nil in Hk.
    + repeat (apply elem_of_cons in Hk as [->|Hk]; [done|]); now apply not_elem_of_nil in Hk.
  - intros Hf. unfold no_undo, GetUndoPos. rewrite (flag_bit _ BLOCK_HAVE_UNDO 4) by done. rewrite add_status_bit by done.
    change (Z.testbit BLOCK_HAVE_UNDO 4) with true. rewrite orb_true_r. cbn [negb fst]. destruct b; cbn in *. lia.
Qed.

Lemma alter_const_flags s p b b' : s !! p = Some b -> like b b' -> same_flags s (alter (fun _ => b') p s).
Proof.
  intros Hb (Hs & Hf & Hd & Hi). split.
  - intros q. rewrite list_lookup_alter. destruct (decide (p = q)) as [->|_]; [rewrite Hb; now constructor|].
    destruct (s !! q); constructor. reflexivity.
  - intros q c c' Hc. rewrite list_lookup_alter. destruct (decide (p = q)) as [->|_]; [|rewrite Hc; now intros [= <-]].
    rewrite Hb. cbn. rewrite Hb in Hc. injection Hc as <-. now intros [= <-].
Qed.

Section Node.
Context {C U : Type} `{Hops : TipOps C U} {root : nat} {c0 : C} `{!TipOpsSpec C U root c0}.
Variable address : nat -> Z.
Context (Haddr : forall p q, address p = address q -> p = q).
Abbreviation less := (work_less address).
Abbreviation cands n := (setBlockIndexCandidates (cs n)).
Abbreviation tree n := (entries (cs n)).
Abbreviation active n := (chainActive (cs n)).
Abbreviation unlinked n := (mapBlocksUnlinked (cs n)).
Abbreviation node := (node C U).

(** What recording changes. *)
Record recorded (n : node) (p : nat) (b : CBlockIndex) (u : U) (n' : node) : Prop := {
  rc_tree : exists b', tree n' = alter (fun _ => b') p (tree n) /\ like b b' /\ (nFile b <> -1 -> no_undo b' = false);
  rc_files : undo_files n' = undo_files n /\ no_undo b = false \/ undo_files n' = <[p := u]> (undo_files n);
  rc_active : active n' = active n;
  rc_cands : cands n' = cands n;
  rc_unlinked : unlinked n' = unlinked n;
  rc_invalid : pindexBestInvalid (cs n') = pindexBestInvalid (cs n);
  rc_coins : coins_tip n' = coins_tip n }.

Lemma record_undo_spec (n : node) p b u pos : tree n !! p = Some b -> exists n', record_undo n p u pos = Some n' /\ recorded n p b u n'.
Proof.
  intros Hb. unfold record_undo. rewrite Hb. cbn [mbind option_bind]. destruct (no_undo b) eqn:Eu; cbn [orb].
  - destruct (RaiseValidity_like BLOCK_VALID_SCRIPTS (add_status BLOCK_HAVE_UNDO (with_nUndoPos pos b)) ltac:(set_solver)) as (r & b' & -> & Hl & Hu' & _).
    cbn [mbind option_bind]. eexists. split; [reflexivity|]. destruct (undo_written pos b) as [Hl0 Hw].
    split; try done; [|now right]. exists b'. split; [done|]. split; [now apply (like_trans _ _ _ Hl0)|]. rewrite Hu'. exact Hw.
  - destruct (negb (IsValid BLOCK_VALID_SCRIPTS b)).
    + destruct (RaiseValidity_like BLOCK_VALID_SCRIPTS b ltac:(set_solver)) as (r & b' & -> & Hl & Hu' & _). cbn [mbind option_bind]. eexists. split; [reflexivity|].
      split; try done; [|now left]. exists b'. split; [done|]. split; [done|]. now rewrite Hu'.
    + eexists. split; [reflexivity|]. split; try done; [|now left]. exists b. split; [|split; [apply like_refl|done]].
      apply list_eq. intros q. rewrite list_lookup_alter. destruct (decide (p = q)) as [->|_]; [|done]. now rewrite Hb.
Qed.

(** ** The invariant *)

(** The blocks are a tree that grows in work; files have numbers from 0 on. *)
Record tree_ok (s : store) : Prop := {
  tr_root : exists b, s !! root = Some b /\ pprev b = None;
  tr_one : forall p b, s !! p = Some b -> pprev b = None -> p = root;
  tr_work : forall p b q bq, s !! p = Some b -> pprev b = Some q -> s !! q = Some bq ->
    value (nChainWork bq) < value (nChainWork b);
  tr_file : forall p b, s !! p = Some b -> nFile b <> -1 }.

(** The coins after connecting the blocks up to [p]. *)
Inductive connects_to (s : store) : nat -> C -> Prop :=
  | connects_root : connects_to s root c0
  | connects_block p b q c c' undo : s !! p = Some b -> pprev b = Some q -> connects_to s q c ->
      connect_coins c p = Connected c' undo -> connects_to s p c'.

Record node_ok (n : node) : Prop := {
  no_sel : sel_ok address (cs n);
  no_tree : tree_ok (tree n);
  no_tip : exists t b, tip (cs n) = Some t /\ tree n !! t = Some b /\ linked b /\ connects_to (tree n) t (coins_tip n);
  no_undo_right : forall p u b q c c' u' pos, undo_files n !! p = Some u -> tree n !! p = Some b -> pprev b = Some q ->
    connects_to (tree n) q c -> connect_coins c p = Connected c' (Some (u', pos)) -> u' = u;
  no_undo_keys : forall p u, undo_files n !! p = Some u -> exists b, tree n !! p = Some b /\ has_data b = true;
  no_undo_there : forall p b, tree n !! p = Some b -> no_undo b = false -> is_Some (undo_files n !! p);
  no_undo_active : forall p b, in_chain (tree n) (active n) p -> tree n !! p = Some b -> p <> root -> no_undo b = false }.

(** *** Connected coins *)

(** The tree may grow and change in other ways meanwhile. *)
Definition extends (s s' : store) : Prop := forall p b, s !! p = Some b -> exists b', s' !! p = Some b' /\ same_links b b'.

Lemma same_tree_extends s s' : same_tree s s' -> extends s s'.
Proof. intros H p b. apply same_shape_lookup, same_tree_shape, H. Qed.

Lemma extends_up s s' n : wf_store s -> extends s s' -> forall p, is_Some (s !! p) -> up s' n p = up s n p.
Proof.
  intros Hwf He. induction n as [|n IH]; intros p [b Hb]; [done|]. cbn [up]. destruct (He p b Hb) as (b' & -> & Ep & _). rewrite Hb.
  cbn [mbind option_bind]. rewrite Ep. pose proof (eo_prev _ _ _ (Hwf p b Hb)) as Hprev. destruct (pprev b) as [q|]; [|done].
  cbn [mbind option_bind]. apply IH. destruct Hprev as (bq & Hbq & _). eauto.
Qed.

Lemma connects_extends s s' p c : extends s s' -> connects_to s p c -> connects_to s' p c.
Proof.
  intros He. induction 1 as [|p b q c c' undo Hb Hq _ IH E]; [constructor|].
  destruct (He p b Hb) as (b' & Hb' & Ep & _). apply (connects_block s' p b' q c c' undo); (done || congruence).
Qed.

Lemma connects_extends_back s s' p c : wf_store s -> extends s s' -> is_Some (s !! p) -> connects_to s' p c -> connects_to s p c.
Proof.
  intros Hwf He Hp Hc. induction Hc as [|p b' q c c' undo Hb' Hq _ IH E]; [constructor|].
  destruct Hp as [b Hb]. destruct (He p b Hb) as (b1 & Hb1 & Ep & _). rewrite Hb' in Hb1. injection Hb1 as <-. rewrite Hq in Ep.
  apply (connects_block s p b q c c' undo); [done|done| |done]. apply IH. pose proof (eo_prev _ _ _ (Hwf p b Hb)) as Hprev.
  rewrite <- Ep in Hprev. destruct Hprev as (bq & Hbq & _). eauto.
Qed.

Lemma connects_same s s' p c : same_tree s s' -> connects_to s p c -> connects_to s' p c.
Proof. intros H. apply connects_extends. now apply same_tree_extends. Qed.

Lemma connects_root_coins s c : tree_ok s -> connects_to s root c -> c = c0.
Proof.
  intros Ht Hc. inversion Hc as [|p b q c1 c2 undo Hb Hq _ _]; subst; [done|].
  destruct (tr_root _ Ht) as (b' & Hb' & Hn). congruence.
Qed.

Lemma connects_det s p c c' : tree_ok s -> connects_to s p c -> connects_to s p c' -> c = c'.
Proof.
  intros Ht Hc. revert c'. induction Hc as [|p b q c d undo Hb Hq Hc IH E]; intros c' Hc'.
  - symmetry. now apply (connects_root_coins s).
  - inversion Hc' as [|p' b' q' c1 c2 undo' Hb' Hq' Hc1 E1]; subst.
    + destruct (tr_root _ Ht) as (b' & Hb' & Hn). congruence.
    + rewrite Hb in Hb'. injection Hb' as <-. rewrite Hq in Hq'. injection Hq' as <-. rewrite (IH c1 Hc1) in E. congruence.
Qed.

Lemma connects_up s m : forall p c q, tree_ok s -> connects_to s p c -> up s m p = Some q -> exists c', connects_to s q c'.
Proof.
  induction m as [|m IH]; intros p c q Ht Hc; cbn [up]; [intros [= <-]; eauto|].
  destruct (s !! p) as [b|] eqn:Hb; [|done]. cbn [mbind option_bind]. destruct (pprev b) as [r|] eqn:Hr; [|done]. cbn [mbind option_bind].
  inversion Hc as [|p' b' q' c1 c2 undo Hb' Hq' Hc1 E1]; subst.
  - destruct (tr_root _ Ht) as (b' & Hb' & Hn). congruence.
  - rewrite Hb in Hb'. injection Hb' as <-. rewrite Hr in Hq'. injection Hq' as <-. now apply (IH r c1).
Qed.

Lemma evolves_tree s s' : evolves s s' -> tree_ok s -> tree_ok s'.
Proof.
  intros [Ht Hf] [(b0 & Hb0 & Hn0) Hone Hwork Hfile].
  assert (Hback : forall p b', s' !! p = Some b' -> exists b, s !! p = Some b /\ same_block b b').
  { intros p b' Hb'. destruct (same_tree_lookup _ _ p b' (symmetry Ht) Hb') as (b & Hb & Hs). exists b. split; [done|]. now symmetry. }
  split.
  - destruct (same_tree_lookup _ _ root b0 Ht Hb0) as (b' & Hb' & Hs). exists b'. split; [done|].
    now destruct (same_block_fields _ _ Hs) as (-> & _).
  - intros p b' Hb' Hn. destruct (Hback p b' Hb') as (b & Hb & Hs). destruct (same_block_fields _ _ Hs) as (Ep & _). apply (Hone p b); congruence.
  - intros p b' q bq' Hb' Hq Hbq'. destruct (Hback p b' Hb') as (b & Hb & Hs), (Hback q bq' Hbq') as (bq & Hbq & Hsq).
    destruct (same_block_fields _ _ Hs) as (Ep & _ & _ & -> & _), (same_block_fields _ _ Hsq) as (_ & _ & _ & -> & _).
    apply (Hwork p b q bq); congruence.
  - intros p b' Hb'. destruct (Hback p b' Hb') as (b & Hb & Hs).
    replace (nFile b') with (nFile b); [exact (Hfile p b Hb)|]. clear -Hs. destruct b, b'. now injection Hs.
Qed.

(** *** The active chain *)

Lemma in_chain_to s p b q : wf_store s -> s !! p = Some b ->
  in_chain s (chain_to s p (nHeight b)) q <-> exists m, up s m p = Some q.
Proof.
  intros Hwf Hb. pose proof (eo_height _ _ _ (Hwf p b Hb)) as Hh. unfold in_chain, Contains, chain_at. rewrite length_chain_to.
  destruct (s !! q) as [bq|] eqn:Hbq; cbn [mbind option_bind].
  2:{ split; [done|]. intros [m Hm]. destruct (Z.le_gt_cases (Z.of_nat m) (nHeight b)) as [Hle|Hgt].
    - destruct (up_height s Hwf m p b Hb Hle) as (q' & bq & E & Hbq' & _). rewrite Hm in E. injection E as <-. congruence.
    - rewrite (up_beyond s Hwf m p b Hb) in Hm by lia. discriminate. }
  pose proof (eo_height _ _ _ (Hwf q bq Hbq)) as Hhq. destruct (Z.ltb_spec (nHeight bq) 0); [lia|].
  destruct (Z.leb_spec (Z.of_nat (Z.to_nat (nHeight b + 1))) (nHeight bq)) as [Hle|Hlt]; cbn [orb].
  - split; [intros [= E]; now rewrite bool_decide_eq_false_2 in E|]. intros [m Hm].
    destruct (Z.le_gt_cases (Z.of_nat m) (nHeight b)) as [Hle'|Hgt].
    + destruct (up_height s Hwf m p b Hb Hle') as (q' & bq' & E & Hbq' & Eh). rewrite Hm in E. injection E as <-.
      rewrite Hbq in Hbq'. injection Hbq' as <-. lia.
    + rewrite (up_beyond s Hwf m p b Hb) in Hm by lia. discriminate.
  - rewrite chain_to_lookup by lia. cbn [mjoin option_join]. split.
    + intros [= E]. apply bool_decide_eq_true in E. eauto.
    + intros [m Hm]. f_equal. apply bool_decide_eq_true. rewrite <- Hm. f_equal.
      destruct (Z.le_gt_cases (Z.of_nat m) (nHeight b)) as [Hle'|Hgt];
        [|rewrite (up_beyond s Hwf m p b Hb) in Hm by lia; discriminate].
      destruct (up_height s Hwf m p b Hb Hle') as (q' & bq' & E & Hbq' & Eh). rewrite Hm in E. injection E as <-.
      rewrite Hbq in Hbq'. injection Hbq' as <-. lia.
Qed.

Lemma Tip_chain_to s p b : wf_store s -> s !! p = Some b -> Tip (chain_to s p (nHeight b)) = Some p.
Proof.
  intros Hwf Hb. pose proof (eo_height _ _ _ (Hwf p b Hb)) as Hh. unfold Tip. rewrite length_chain_to.
  destruct (Nat.ltb_spec 0 (Z.to_nat (nHeight b + 1))); [|lia]. rewrite chain_to_lookup by lia. cbn.
  now replace (Z.to_nat (nHeight b) - (Z.to_nat (nHeight b + 1) - 1))%nat with 0%nat by lia.
Qed.

Lemma UpdateTip_spec st p : sel_ok address st -> usable (entries st) p ->
  exists st', UpdateTip st (Some p) = Some st' /\ index st' = index st /\ setBlockIndexCandidates st' = setBlockIndexCandidates st /\
    mapBlocksUnlinked st' = mapBlocksUnlinked st /\ tip st' = Some p /\ sel_ok address st' /\
    forall q, in_chain (entries st) (chainActive st') q <-> exists m, up (entries st) m p = Some q.
Proof.
  intros Hst Hu. pose proof Hu as [[b Hb] Hup]. pose proof Hst as [Hwf Hw Hch Hg Hs Hv Hl Hcl Hinv].
  unfold UpdateTip. rewrite (SetTip_spec (entries st) Hwf (chainActive st) p b Hch Hb). cbn [mbind option_bind].
  pose proof (Tip_chain_to (entries st) p b Hwf Hb) as Ht. rewrite Ht. cbn [mbind option_bind].
  eexists. split; [reflexivity|]. split; [done|]. split; [done|]. split; [done|]. split; [exact Ht|].
  pose proof (fun q => in_chain_to (entries st) p b q Hwf Hb) as Hin. split; [|exact Hin].
  split; try done; cbn; [right; eauto|]. intros q bq [m Hm]%Hin. now apply (Hup m).
Qed.

Lemma active_iff st t : sel_ok address st -> tip st = Some t -> is_Some (entries st !! t) /\
  forall q, in_chain (entries st) (chainActive st) q <-> exists m, up (entries st) m t = Some q.
Proof.
  intros Hst Ht. unfold tip in Ht. destruct (so_active _ _ Hst) as [E|(p & b & Hb & E)]; rewrite E in Ht; [discriminate|].
  rewrite (Tip_chain_to _ p b (so_store _ _ Hst) Hb) in Ht. injection Ht as <-. split; [eauto|]. intros q. rewrite E.
  apply in_chain_to; [apply (so_store _ _ Hst)|done].
Qed.

Lemma tip_usable st t : sel_ok address st -> tip st = Some t -> usable (entries st) t.
Proof.
  intros Hst Ht. destruct (active_iff st t Hst Ht) as [_ Hin]. apply (active_usable address st t Hst), Hin. now exists 0%nat.
Qed.

(** *** One block back, one block on *)

(** What goes wrong outside of the program: a block cannot be connected for a reason that is not the
    block, cannot be disconnected with the data it left, or something cannot be written. *)
Definition system_error : Prop :=
  (exists c p state, connect_coins c p = Refused state /\ IsInvalid state = false) \/
  (exists c p c' u pos, connect_coins c p = Connected c' (Some (u, pos)) /\ disconnect_coins c' p u = None) \/
  (exists c state, flush_coins c = Some state).

(** The tip moves to [p]. *)
Lemma move_tip (n : node) p b c : node_ok n -> tree n !! p = Some b -> usable (tree n) p -> linked b -> connects_to (tree n) p c ->
  (forall q bq m, up (tree n) m p = Some q -> tree n !! q = Some bq -> q <> root -> no_undo bq = false) ->
  exists st', UpdateTip (cs n) (Some p) = Some st' /\ node_ok (mk_node st' c (undo_files n)) /\ index st' = index (cs n) /\
    setBlockIndexCandidates st' = cands n /\ mapBlocksUnlinked st' = unlinked n /\ tip st' = Some p.
Proof.
  intros [Hsel Htree _ Hright Hkeys Hthere _] Hb Hu Hl Hc Hundo.
  destruct (UpdateTip_spec (cs n) p Hsel Hu) as (st' & E & Ei & Ec & El & Et & Hsel' & Hin). exists st'. split; [done|].
  split; [|split; [done|split; [done|split; done]]]. split; cbn [cs coins_tip undo_files]; rewrite ?Ei; try done.
  - exists p, b. done.
  - intros q bq Hq Hbq. apply Hin in Hq as [m Hm]. now apply (Hundo q bq m).
Qed.

Lemma DisconnectTip_spec (n : node) t b q : node_ok n -> tip (cs n) = Some t -> tree n !! t = Some b -> pprev b = Some q ->
  exists ok n', DisconnectTip n = Some (ok, n') /\
    if ok : bool then node_ok n' /\ index (cs n') = index (cs n) /\ cands n' = cands n /\ unlinked n' = unlinked n /\ tip (cs n') = Some q else system_error.
Proof.
  intros Hn Ht Hb Hq. pose proof Hn as [Hsel Htree (t' & b' & Ht' & Hb' & Hl & Hc) Hright Hkeys Hthere Hact].
  rewrite Ht in Ht'. injection Ht' as <-. rewrite Hb in Hb'. injection Hb' as <-.
  destruct (active_iff (cs n) t Hsel Ht) as [_ Hin].
  assert (Hroot : t <> root) by (intros ->; destruct (tr_root _ Htree) as (b' & Hb' & Hno); congruence).
  inversion Hc as [E|p b' q' c c' undo Hb' Hq' Hc' E]; subst; [done|]. rewrite Hb in Hb'. injection Hb' as <-.
  rewrite Hq in Hq'. injection Hq' as <-. destruct undo as [[u pos]|]; [|now apply connected_undo in E].
  unfold DisconnectTip. rewrite Ht. cbn [mbind option_bind]. rewrite Hb. cbn [mbind option_bind].
  pose proof (Hact t b ltac:(apply Hin; now exists 0%nat) Hb Hroot) as Hno. rewrite Hno.
  destruct (Hthere t b Hb Hno) as [u0 Hu0]. rewrite Hu0. rewrite <- (Hright t u0 b q c _ u pos Hu0 Hb Hq Hc' E) in *.
  destruct (disconnect_coins (coins_tip n) t u) as [c1|] eqn:Ed; [|exists false, n; split; [done|]; right; left; eauto 10].
  rewrite (disconnect_connected _ _ _ _ _ _ E Ed).
  destruct (flush_coins c) as [state|] eqn:Ef; [exists false, (with_coins n c); split; [done|]; right; right; eauto|].
  pose proof (eo_prev _ _ _ (so_store _ _ Hsel t b Hb)) as Hprev. rewrite Hq in Hprev. destruct Hprev as (bq & Hbq & Eh).
  assert (Hup : up (tree n) 1 t = Some q) by (now apply (up_prev _ t b)).
  destruct (move_tip n q bq c Hn Hbq) as (st' & E1 & Hn' & Ei & Ec & Eu & Et).
  - now apply (usable_up _ t 1 q (tip_usable _ _ Hsel Ht) Hup); eauto.
  - now apply (so_closed _ _ Hsel t b q bq).
  - done.
  - intros r br m Hm Hbr. apply Hact; [|done]. apply Hin. exists (1 + m)%nat. now rewrite up_add, Hup.
  - change (cs (with_coins n c)) with (cs n). rewrite Hq, E1. cbn [mbind option_bind]. exists true, (mk_node st' c (undo_files n)).
    done.
Qed.

Lemma recorded_ok (n : node) t p b u pos c c' n' : node_ok n -> tree n !! p = Some b -> pprev b = Some t -> nFile b <> -1 -> has_data b = true ->
  connects_to (tree n) t c -> connect_coins c p = Connected c' (Some (u, pos)) -> recorded n p b u n' ->
  node_ok n' /\ same_flags (tree n) (tree n') /\ forall b', tree n' !! p = Some b' -> no_undo b' = false.
Proof.
  intros Hn Hb Hp Hfile Hdata Hc E [(b' & Etree & Hlike & Hundo) Hfiles Eact Ecands _ Einv Ecoins].
  specialize (Hundo Hfile). destruct Hn as [Hsel Htree (t0 & bt & Ht & Hbt & Hl & Hct) Hright Hkeys Hthere Hact].
  pose proof (alter_const_flags (tree n) p b b' Hb Hlike) as Hflags. rewrite <- Etree in Hflags.
  pose proof (same_flags_evolves _ _ Hflags) as Hev. destruct Hflags as [Hsame Hfl].
  assert (Hlook : forall q, tree n' !! q = if decide (p = q) then Some b' else tree n !! q).
  { intros q. rewrite Etree, list_lookup_alter. destruct (decide (p = q)) as [->|_]; [now rewrite Hb|done]. }
  split; [|split; [now split|]].
  2:{ intros b1. rewrite Hlook, decide_True by done. now intros [= <-]. }
  split.
  - apply (sel_ok_change address (cs n)); try done; [|now rewrite Ecands|rewrite Einv; auto].
    intros q bq Hq Hbq. destruct (same_tree_lookup _ _ q bq (symmetry Hsame) Hbq) as (b0 & Hb0 & _).
    destruct (Hfl q b0 bq Hb0 Hbq) as (F1 & F2 & _), (so_good _ _ Hsel q b0 Hq Hb0). split; congruence.
  - now apply (evolves_tree (tree n)).
  - destruct (same_tree_lookup _ _ t0 bt Hsame Hbt) as (bt' & Hbt' & Hs). exists t0, bt'. unfold tip. rewrite Eact. split; [done|].
    split; [done|]. split; [unfold linked in *; now destruct (same_block_fields _ _ Hs) as (_ & _ & -> & _ & _ & ->)|].
    rewrite Ecoins. now apply (connects_same (tree n)).
  - intros q v bq r d d' v' pos' Hv Hbq Hr Hd Ed. apply (connects_same _ (tree n) _ _ (symmetry Hsame)) in Hd.
    destruct (same_tree_lookup _ _ q bq (symmetry Hsame) Hbq) as (b0 & Hb0 & Hs0).
    destruct (same_block_fields _ _ Hs0) as (Ep0 & _).
    assert (Hold : undo_files n !! q = Some v -> v' = v) by (intros Hv0; apply (Hright q v b0 r d d' v' pos'); congruence).
    destruct Hfiles as [[Hf _]|Hf]; rewrite Hf in Hv; [now apply Hold|]. apply lookup_insert_Some in Hv as [[<- <-]|[_ Hv]]; [|now apply Hold].
    rewrite Hb in Hb0. injection Hb0 as <-. assert (r = t) as -> by congruence.
    rewrite (connects_det _ _ _ _ Htree Hd Hc), E in Ed. congruence.
  - intros q v Hv. rewrite Hlook. destruct (decide (p = q)) as [<-|Hne].
    { exists b'. split; [done|]. destruct Hlike as (_ & _ & -> & _). done. }
    destruct Hfiles as [[Hf _]|Hf]; rewrite Hf in Hv; [now apply (Hkeys q v)|].
    rewrite lookup_insert_ne in Hv by done. now apply (Hkeys q v).
  - intros q bq. rewrite Hlook. destruct (decide (p = q)) as [<-|Hne].
    + intros [= <-] _. destruct Hfiles as [[-> Hno]| ->]; [now apply (Hthere p b)|]. rewrite lookup_insert_eq. eauto.
    + intros Hbq Hno. destruct Hfiles as [[-> _]| ->]; [now apply (Hthere q bq)|]. rewrite lookup_insert_ne by done. now apply (Hthere q bq).
  - intros q bq. rewrite Eact, (same_tree_in_chain _ _ _ _ Hsame), Hlook. destruct (decide (p = q)) as [<-|_]; [now intros _ [= <-]|].
    apply Hact.
Qed.

(** What comes of connecting the next block [p]. *)
Definition tip_connected (n : node) (p : nat) (r : option CValidationState) (n' : node) : Prop :=
  match r with
  | None => node_ok n' /\ same_flags (tree n) (tree n') /\ cands n' = cands n /\ unlinked n' = unlinked n /\ tip (cs n') = Some p
  | Some state =>
      if IsInvalid state then
        node_ok n' /\ tree n' = alter (add_status BLOCK_FAILED_VALID) p (tree n) /\ tip (cs n') = tip (cs n) /\
        (forall q, q ∈ cands n' <-> q ∈ cands n /\ q <> p) /\ unlinked n' = unlinked n /\ corruptionPossible state = false /\
        forall c, ~ connects_to (tree n) p c
      else system_error
  end.

Lemma child_not_active (n : node) t p b : sel_ok address (cs n) -> tip (cs n) = Some t -> tree n !! p = Some b -> pprev b = Some t ->
  ~ in_chain (tree n) (active n) p.
Proof.
  intros Hsel Ht Hb Hp Hx. destruct (active_iff _ _ Hsel Ht) as [[bt Hbt] Hin]. apply Hin in Hx as [m Hm].
  pose proof (so_store _ _ Hsel) as Hwf. pose proof (eo_prev _ _ _ (Hwf p b Hb)) as Hprev. rewrite Hp in Hprev.
  destruct Hprev as (bt' & Hbt' & Eh). rewrite Hbt in Hbt'. injection Hbt' as <-.
  destruct (Z.le_gt_cases (Z.of_nat m) (nHeight bt)) as [Hle|Hgt];
    [|rewrite (up_beyond _ Hwf m t bt Hbt) in Hm by lia; discriminate].
  destruct (up_height _ Hwf m t bt Hbt Hle) as (p' & b' & E & Hb' & E2). rewrite Hm in E. injection E as <-.
  rewrite Hb in Hb'. injection Hb' as <-. lia.
Qed.

Lemma add_status_no_undo flag b : Z.testbit flag 4 = false -> no_undo (add_status flag b) = no_undo b.
Proof.
  intros Hf. unfold no_undo, GetUndoPos. rewrite !(flag_bit _ BLOCK_HAVE_UNDO 4), add_status_bit, Hf, orb_false_r by done.
  now destruct b.
Qed.

(** Changes that leave the chain, the coins and the undo data alone. *)
Lemma node_ok_extends (n : node) st' : node_ok n -> sel_ok address st' -> tree_ok (entries st') -> extends (tree n) (entries st') ->
  (forall q b b', tree n !! q = Some b -> entries st' !! q = Some b' -> no_undo b' = no_undo b /\ (linked b -> linked b') /\
    (has_data b = true -> has_data b' = true)) ->
  (forall q b, tree n !! q = None -> entries st' !! q = Some b -> no_undo b = true) ->
  chainActive st' = active n -> node_ok (with_cs n st').
Proof.
  intros [Hsel Htree (t0 & bt & Ht & Hbt & Hl & Hct) Hright Hkeys Hthere Hact] Hsel' Htree' He Hold Hnew Eact.
  pose proof (so_store _ _ Hsel) as Hwf.
  split; cbn [cs with_cs undo_files coins_tip]; [done|done| | | | |].
  - destruct (He t0 bt Hbt) as (bt' & Hbt' & Hs). exists t0, bt'. unfold tip. rewrite Eact. split; [done|].
    split; [done|]. split; [now apply (Hold t0 bt)|]. now apply (connects_extends (tree n)).
  - intros q v bq r d d' v' pos' Hv Hbq Hr Hd Ed. destruct (Hkeys q v Hv) as (b0 & Hb0 & _).
    destruct (He q b0 Hb0) as (b1 & Hb1 & Ep & _). rewrite Hbq in Hb1. injection Hb1 as <-. rewrite Hr in Ep.
    apply (Hright q v b0 r d d' v' pos'); try done. pose proof (eo_prev _ _ _ (Hwf q b0 Hb0)) as Hprev. rewrite <- Ep in Hprev.
    destruct Hprev as (br & Hbr & _). apply (connects_extends_back _ (entries st')); eauto.
  - intros q v Hv. destruct (Hkeys q v Hv) as (b0 & Hb0 & Hd). destruct (He q b0 Hb0) as (b1 & Hb1 & _). exists b1.
    split; [done|]. now apply (Hold q b0 b1).
  - intros q bq Hbq Hno. destruct (tree n !! q) as [b0|] eqn:Hb0; [|now rewrite (Hnew q bq Hb0 Hbq) in Hno].
    apply (Hthere q b0 Hb0). now destruct (Hold q b0 bq Hb0 Hbq) as [<- _].
  - intros q bq Hq Hbq. assert (Ht' : tip st' = Some t0) by (unfold tip; now rewrite Eact).
    apply (active_iff _ _ Hsel' Ht') in Hq as [m Hm]. rewrite (extends_up _ _ m Hwf He t0 ltac:(eauto)) in Hm.
    assert (Hin : in_chain (tree n) (active n) q) by (apply (active_iff _ _ Hsel Ht); eauto).
    destruct (tree n !! q) as [b0|] eqn:Hb0; [|unfold in_chain, Contains in Hin; now rewrite Hb0 in Hin].
    destruct (Hold q b0 bq Hb0 Hbq) as [-> _]. now apply Hact.
Qed.

Lemma node_ok_change (n : node) st' : node_ok n -> sel_ok address st' -> evolves (tree n) (entries st') ->
  (forall q b b', tree n !! q = Some b -> entries st' !! q = Some b' -> no_undo b' = no_undo b) ->
  chainActive st' = active n -> node_ok (with_cs n st').
Proof.
  intros Hn Hsel' Hev Hun Eact. pose proof (proj1 Hev) as Hsame.
  apply node_ok_extends; try done; [now apply (evolves_tree (tree n)), (no_tree _ Hn)|now apply same_tree_extends| |].
  - intros q b b' Hb Hb'. split; [now apply (Hun q)|]. destruct (same_tree_lookup _ _ q b Hsame Hb) as (b1 & Hb1 & Hs).
    rewrite Hb' in Hb1. injection Hb1 as <-. split; [now apply same_block_linked|]. intros Hd. now rewrite (proj1 (proj2 (proj2 Hev q b b' Hb Hb'))).
  - intros q b Hq Hb. destruct (same_tree_lookup _ _ q b (symmetry Hsame) Hb) as (b0 & Hb0 & _). congruence.
Qed.

Lemma failed_node (n : node) p st' : node_ok n -> block_failed address (cs n) p st' -> node_ok (with_cs n st').
Proof.
  intros Hn [Etree Eact Hcands _ Hsel']. apply node_ok_change; try done; rewrite Etree; [apply fail_evolves|].
  intros q b b' Hb. rewrite list_lookup_alter. destruct (decide (p = q)) as [->|_]; rewrite Hb; intros [= <-]; [|done].
  now apply add_status_no_undo.
Qed.

Lemma searched_node (n : node) st' : node_ok n -> searched (cs n) st' -> node_ok (with_cs n st').
Proof.
  intros Hn Hs. pose proof (se_marked _ _ Hs) as Hm.
  apply node_ok_change; [done|now apply (searched_ok address (cs n)); [apply no_sel|]|now apply marked_evolves| |apply (se_active _ _ Hs)].
  intros q b b' Hb Hb'. destruct (proj2 Hm q b b' Hb Hb') as [->|[-> _]]; [done|]. now apply add_status_no_undo.
Qed.

Lemma ConnectTip_spec (n : node) t p b : node_ok n -> tip (cs n) = Some t -> tree n !! p = Some b -> pprev b = Some t ->
  usable (tree n) p -> linked b ->
  exists r n', ConnectTip address n p = Some (r, n') /\ tip_connected n p r n'.
Proof.
  intros Hn Ht Hb Hp Hu Hl. pose proof Hn as [Hsel Htree (t0 & bt & Ht0 & Hbt & Hlt & Hct) Hright Hkeys Hthere Hact].
  rewrite Ht in Ht0. injection Ht0 as <-. pose proof (child_not_active n t p b Hsel Ht Hb Hp) as Hno.
  assert (Hroot : p <> root) by (intros ->; destruct (tr_root _ Htree) as (b' & Hb' & Hn'); congruence).
  unfold ConnectTip. rewrite Hb. cbn [mbind option_bind]. rewrite bool_decide_eq_true_2 by congruence. cbn [negb].
  destruct (connect_coins (coins_tip n) p) as [c undo|state] eqn:E.
  - destruct undo as [[u pos]|]; [|now apply connected_undo in E].
    destruct (record_undo_spec n p b u pos Hb) as (n1 & -> & Hrec). cbn [mbind option_bind].
    assert (Hfile : nFile b <> -1) by (exact (tr_file _ Htree p b Hb)).
    assert (Hdata : has_data b = true) by apply (proj2 Hu 0%nat p b eq_refl Hb).
    destruct (recorded_ok n t p b u pos (coins_tip n) c n1 Hn Hb Hp Hfile Hdata Hct E Hrec) as (Hn1 & Hfl & Hun).
    change (coins_tip (with_coins n1 c)) with c. destruct (flush_coins c) as [state|] eqn:Ef.
    + exists (Some state), (with_coins n1 c). split; [done|]. cbn [tip_connected]. rewrite (flush_error _ _ Ef). right. right. eauto.
    + destruct (same_tree_lookup _ _ p b (proj1 Hfl) Hb) as (b1 & Hb1 & Hs1).
      destruct (move_tip n1 p b1 c Hn1 Hb1) as (st' & E1 & Hn' & Ei & Ec & Eu & Et).
      * now apply (same_flags_usable _ _ p Hfl).
      * unfold linked in *. now destruct (same_block_fields _ _ Hs1) as (_ & _ & -> & _ & _ & ->).
      * apply (connects_same (tree n)); [apply Hfl|]. now apply (connects_block _ p b t (coins_tip n) c (Some (u, pos))).
      * intros q bq [|m] Hm Hbq Hq; [injection Hm as <-; now apply Hun|].
        apply (no_undo_active _ Hn1 q bq); [|done|done]. rewrite (rc_active _ _ _ _ _ Hrec), (same_tree_in_chain _ _ _ _ (proj1 Hfl)).
        apply (active_iff _ _ Hsel Ht). exists m. rewrite (same_tree_up _ _ (proj1 Hfl)) in Hm. cbn [up] in Hm.
        rewrite Hb in Hm. cbn [mbind option_bind] in Hm. rewrite Hp in Hm. exact Hm.
      * change (cs (with_coins n1 c)) with (cs n1). rewrite E1. cbn [mbind option_bind].
        exists None, (mk_node st' c (undo_files n1)). split; [done|]. cbn [tip_connected cs]. rewrite Ei. split; [done|].
        split; [done|]. rewrite Ec, Eu. split; [apply (rc_cands _ _ _ _ _ Hrec)|]. split; [apply (rc_unlinked _ _ _ _ _ Hrec)|done].
  - destruct (IsInvalid state) eqn:Ei.
    + pose proof (refused_intact _ _ _ E Ei) as Hc.
      destruct (InvalidBlockFound_spec address Haddr (cs n) p state Hsel ltac:(eauto) ltac:(eauto) Hno Hc) as (st' & -> & Hbf).
      cbn [mbind option_bind]. exists (Some state), (with_cs n st'). split; [done|]. cbn [tip_connected]. rewrite Ei.
      split; [now apply (failed_node n p)|]. destruct Hbf as [E1 E2 E3 Eu _]. cbn [cs with_cs]. unfold tip. rewrite E2.
      do 5 (split; [done|]). intros c Hcp. inversion Hcp as [E4|p' b' q' d d' undo Hb' Hq' Hd E4]; subst; [done|].
      rewrite Hb in Hb'. injection Hb' as <-. rewrite Hp in Hq'. injection Hq' as <-.
      rewrite (connects_det _ _ _ _ Htree Hd Hct) in E4. congruence.
    + cbn [mbind option_bind]. exists (Some state), (with_cs n (cs n)). split; [done|]. cbn [tip_connected]. rewrite Ei. left. eauto.
Qed.

(** *** Back to the fork *)

Lemma disconnect_to_spec f m : forall fuel (n : node) t, node_ok n -> tip (cs n) = Some t -> up (tree n) m t = Some f -> (m <= fuel)%nat ->
  exists ok n', disconnect_to fuel n (Some f) = Some (ok, n') /\
    if ok : bool then node_ok n' /\ index (cs n') = index (cs n) /\ cands n' = cands n /\ unlinked n' = unlinked n /\ tip (cs n') = Some f else system_error.
Proof.
  induction m as [|m IH]; intros fuel n t Hn Ht Hup Hfuel.
  - injection Hup as <-. exists true, n. split; [|done]. destruct fuel; cbn [disconnect_to]; rewrite bool_decide_eq_true_2 by (now right); done.
  - destruct fuel as [|fuel]; [lia|]. cbn [disconnect_to]. cbn [up] in Hup. destruct (tree n !! t) as [b|] eqn:Hb; [|done].
    cbn [mbind option_bind] in Hup. destruct (pprev b) as [q|] eqn:Hq; [|done]. cbn [mbind option_bind] in Hup.
    case_bool_decide as Hd.
    { destruct Hd as [Hd|Hd]; [congruence|]. exists true, n. now split. }
    destruct (DisconnectTip_spec n t b q Hn Ht Hb Hq) as (ok & n1 & -> & H1). cbn [mbind option_bind].
    destruct ok; [|exists false, n1; split; done]. destruct H1 as (Hn1 & Ei & Ec & El & Et).
    destruct (IH fuel n1 q Hn1 Et ltac:(now rewrite Ei) ltac:(lia)) as (ok & n2 & -> & H2). exists ok, n2. split; [done|].
    destruct ok; [|done]. destruct H2 as (Hn2 & Ei2 & Ec2 & El2 & Et2). do 3 (split; [congruence|]). split; [congruence|done].
Qed.

(** *** The blocks to connect *)

(** [l] leads from [q] to [p]. *)
Fixpoint path (s : store) (q : nat) (l : list nat) (p : nat) : Prop :=
  match l with
  | [] => p = q
  | x :: l => (exists b, s !! x = Some b /\ pprev b = Some q) /\ path s x l p
  end.

Lemma path_same s s' q l p : same_tree s s' -> path s q l p -> path s' q l p.
Proof.
  intros Ht. revert q. induction l as [|x l IH]; intros q; cbn [path]; [done|]. intros [(b & Hb & Hp) Hl]. split; [|now apply IH].
  destruct (same_tree_lookup _ _ x b Ht Hb) as (b' & Hb' & Hs). exists b'. split; [done|]. now destruct (same_block_fields _ _ Hs) as (-> & _).
Qed.

Lemma path_up s q l p : path s q l p -> up s (length l) p = Some q.
Proof.
  revert q. induction l as [|x l IH]; intros q; cbn [path length]; [now intros ->|]. intros [(b & Hb & Hp) Hl].
  replace (S (length l)) with (length l + 1)%nat by lia. rewrite up_add, (IH x Hl). cbn [mbind option_bind]. now apply (up_prev s x b q).
Qed.

Lemma blocks_to_connect_spec s q h p0 : wf_store s -> forall fuel p b l, s !! p = Some b -> up s (Z.to_nat (nHeight b - h)) p = Some q ->
  h <= nHeight b <= h + Z.of_nat fuel -> (exists bq, s !! q = Some bq /\ nHeight bq = h) -> path s p l p0 ->
  exists l', blocks_to_connect fuel s (Some p) h l = Some l' /\ path s q l' p0 /\
    length l' = (length l + Z.to_nat (nHeight b - h))%nat.
Proof.
  intros Hwf. induction fuel as [|fuel IH]; intros p b l Hb Hup Hh Hq Hl; cbn [blocks_to_connect]; rewrite Hb; cbn [mbind option_bind];
    (destruct (Z.eqb_spec (nHeight b) h) as [E|Hne];
      [exists l; split; [done|]; rewrite <- E, Z.sub_diag in Hup; injection Hup as <-; split; [done|lia]|]).
  - lia.
  - replace (Z.to_nat (nHeight b - h)) with (S (Z.to_nat (nHeight b - 1 - h))) in * by lia. cbn [up] in Hup. rewrite Hb in Hup.
    cbn [mbind option_bind] in Hup. pose proof (eo_prev _ _ _ (Hwf p b Hb)) as Hprev. destruct (pprev b) as [r|] eqn:Er; [|done].
    cbn [mbind option_bind] in Hup. destruct Hprev as (br & Hbr & Eh).
    destruct (IH r br (p :: l) Hbr) as (l' & -> & Hp' & Hlen); [|lia|done| |].
    + now replace (nHeight br) with (nHeight b - 1) by lia.
    + cbn [path]. split; [eauto|done].
    + exists l'. split; [done|]. split; [done|]. cbn [length] in Hlen. lia.
Qed.

(** ** The best block known *)

(** All usable blocks that are not worse than [r] are candidates, [r] is such a block and connects. *)
Record ref_ok (n : node) (r : nat) : Prop := {
  rf_linked : exists b, tree n !! r = Some b /\ linked b;
  rf_usable : usable (tree n) r;
  rf_connects : exists c, connects_to (tree n) r c;
  rf_complete : forall q b, tree n !! q = Some b -> linked b -> usable (tree n) q -> less (tree n) q r = false -> q ∈ cands n }.

Lemma ref_candidate (n : node) r : node_ok n -> ref_ok n r -> r ∈ cands n.
Proof.
  intros Hn [(b & Hb & Hl) Hu _ Hc]. apply (Hc r b Hb Hl Hu). apply work_less_irrefl, (so_works _ _ (no_sel _ Hn)).
Qed.

(** [r] stays as good when only unusable candidates are removed. *)
Lemma ref_ok_change (n n' : node) r : evolves (tree n) (tree n') -> usable (tree n') r ->
  (forall q, q ∈ cands n -> usable (tree n') q -> q ∈ cands n') -> ref_ok n r -> ref_ok n' r.
Proof.
  intros Hev Hu Hkeep [(b & Hb & Hl) _ (c & Hc) Hcomp]. pose proof (proj1 Hev) as Hsame. split.
  - destruct (same_tree_lookup _ _ r b Hsame Hb) as (b' & Hb' & Hs). exists b'. split; [done|]. unfold linked in *.
    now destruct (same_block_fields _ _ Hs) as (_ & _ & -> & _ & _ & ->).
  - done.
  - exists c. now apply (connects_same (tree n)).
  - intros q b' Hb' Hl' Hu' Hless. destruct (same_tree_lookup _ _ q b' (symmetry Hsame) Hb') as (b0 & Hb0 & Hs).
    apply Hkeep; [|done]. apply (Hcomp q b0 Hb0); [|now apply (evolves_usable _ (tree n'))|now rewrite (same_tree_less _ _ _ _ _ Hsame) in Hless].
    unfold linked in *. now destruct (same_block_fields _ _ Hs) as (_ & _ & -> & _ & _ & ->).
Qed.

Lemma prune_node (n : node) t r p : node_ok n -> ref_ok n r -> tip (cs n) = Some t -> p ∈ cands n -> less (tree n) p t = false ->
  exists st', PruneBlockIndexCandidates address (cs n) = Some st' /\ node_ok (with_cs n st') /\ (exists r', ref_ok (with_cs n st') r') /\
    index st' = index (cs n) /\ mapBlocksUnlinked st' = unlinked n /\ tip st' = Some t /\ p ∈ setBlockIndexCandidates st' /\
    forall q, q ∈ setBlockIndexCandidates st' -> q ∈ cands n.
Proof.
  intros Hn Hr Ht Hp Hless. pose proof (no_sel _ Hn) as Hsel. pose proof (so_works _ _ Hsel) as Hw.
  destruct (PruneBlockIndexCandidates_spec address (cs n) t Hsel Ht ltac:(eauto)) as (st' & E & Hsel' & Ei & Ea & Eu & Hc).
  exists st'. split; [done|]. split.
  { apply node_ok_change; try done; rewrite Ei; [reflexivity|]. now intros q b b' -> [= ->]. }
  split; [|split; [done|split; [done|split; [now unfold tip; rewrite Ea|split; [now apply Hc|intros q Hq; now apply Hc]]]]].
  destruct (no_tip _ Hn) as (t' & bt & Ht' & Hbt & Hlt & Hct). rewrite Ht in Ht'. injection Ht' as <-.
  pose proof Hr as [(br & Hbr & Hl) Hu Hcon Hcomp]. destruct (less (tree n) r t) eqn:Ert.
  - exists t. split; cbn [cs with_cs]; rewrite ?Ei; [eauto|now apply tip_usable|eauto|]. intros q b Hb Hlq Huq Hqt. apply Hc. split; [|done].
    apply (Hcomp q b Hb Hlq Huq). destruct (less (tree n) q r) eqn:Eqr; [|done]. now rewrite (work_less_trans address _ _ _ _ Hw Eqr Ert) in Hqt.
  - exists r. split; cbn [cs with_cs]; rewrite ?Ei; [eauto|done|done|]. intros q b Hb Hlq Huq Hqr. apply Hc. split; [now apply (Hcomp q b)|].
    destruct (less (tree n) q t) eqn:Eqt; [|done]. destruct (work_less_total address Haddr _ r t br bt Hw Hbr Hbt) as [H1|[->|H1]];
      [congruence|congruence|]. now rewrite (work_less_trans address _ _ _ _ Hw Eqt H1) in Hqr.
Qed.

(** ** Connecting blocks *)

(** A way towards [p]: nothing failed, and [p] is still a candidate. *)
Record progressed (n n' : node) (p : nat) : Prop := {
  pg_ok : node_ok n';
  pg_ref : exists r, ref_ok n' r;
  pg_flags : same_flags (tree n) (tree n');
  pg_unlinked : unlinked n' = unlinked n;
  pg_target : p ∈ cands n';
  pg_cands : forall q, q ∈ cands n' -> q ∈ cands n }.

(** A block has failed that does not connect; those that connect are as usable as they were. *)
Record setback (n n' : node) : Prop := {
  sb_ok : node_ok n';
  sb_ref : exists r, ref_ok n' r;
  sb_evolves : evolves (tree n) (tree n');
  sb_unlinked : unlinked n' = unlinked n;
  sb_less : (not_failed (tree n') < not_failed (tree n))%nat;
  sb_valid : forall q c, usable (tree n) q -> connects_to (tree n) q c -> usable (tree n') q }.

Lemma same_flags_trans s1 s2 s3 : same_flags s1 s2 -> same_flags s2 s3 -> same_flags s1 s3.
Proof.
  intros [T1 F1] [T2 F2]. split; [now transitivity s2|]. intros p b1 b3 H1 H3.
  destruct (same_tree_lookup _ _ p b1 T1 H1) as (b2 & H2 & _). destruct (F1 p b1 b2 H1 H2) as (? & ? & ?), (F2 p b2 b3 H2 H3) as (? & ? & ?).
  split; [congruence|]. split; [congruence|auto].
Qed.

Lemma progressed_trans n1 n2 n3 p : progressed n1 n2 p -> progressed n2 n3 p -> progressed n1 n3 p.
Proof. intros [] []. split; try done; [eapply same_flags_trans; eassumption|congruence|auto]. Qed.

Lemma progressed_setback n1 n2 n3 p : progressed n1 n2 p -> setback n2 n3 -> setback n1 n3.
Proof.
  intros Hp [A B D G E F]. pose proof (pg_unlinked _ _ _ Hp). pose proof (pg_flags _ _ _ Hp) as Hfl. pose proof (same_flags_evolves _ _ Hfl) as Hev.
  destruct (not_failed_evolves _ _ Hev) as [Hle _]. split; [done|done|now transitivity (tree n2)|congruence|lia|].
  intros q c Hu Hc. apply (F q c); [now apply (same_flags_usable _ _ q Hfl)|]. exact (connects_same _ _ q c (proj1 Hfl) Hc).
Qed.

Lemma path_elem s q l p x : path s q l p -> x ∈ l -> exists j, (j < length l)%nat /\ up s j p = Some x.
Proof.
  revert q. induction l as [|y l IH]; intros q; cbn [path length]; [now intros _ ?%not_elem_of_nil|]. intros [_ Hl] [->|Hx]%elem_of_cons.
  - exists (length l). split; [lia|]. now apply path_up.
  - destruct (IH y Hl Hx) as (j & Hj & Hup). exists j. split; [lia|done].
Qed.

Lemma work_up s m : forall p b q bq, wf_store s -> tree_ok s -> s !! p = Some b -> up s m p = Some q -> s !! q = Some bq ->
  m = O \/ value (nChainWork bq) < value (nChainWork b).
Proof.
  induction m as [|m IH]; intros p b q bq Hwf Ht Hb; cbn [up]; [now left|]. rewrite Hb. cbn [mbind option_bind].
  destruct (pprev b) as [r|] eqn:Er; [|done]. cbn [mbind option_bind]. intros Hup Hbq. right.
  pose proof (eo_prev _ _ _ (Hwf p b Hb)) as Hprev. rewrite Er in Hprev. destruct Hprev as (br & Hbr & _).
  pose proof (tr_work _ Ht p b r br Hb Er Hbr). destruct (IH r br q bq Hwf Ht Hbr Hup Hbq) as [->|?]; [|lia].
  injection Hup as <-. rewrite Hbr in Hbq. injection Hbq as <-. lia.
Qed.

(** A block is not worse than the blocks it builds on. *)
Lemma not_less_up (n : node) m p q : node_ok n -> up (tree n) m p = Some q -> is_Some (tree n !! p) -> is_Some (tree n !! q) ->
  less (tree n) p q = false.
Proof.
  intros Hn Hup [b Hb] [bq Hbq]. pose proof (so_works _ _ (no_sel _ Hn)) as Hw.
  destruct (work_up _ m p b q bq (so_store _ _ (no_sel _ Hn)) (no_tree _ Hn) Hb Hup Hbq) as [->|Hlt].
  - injection Hup as <-. now apply work_less_irrefl.
  - destruct (less (tree n) p q) eqn:E; [|done]. apply (work_less_spec address _ p q b bq Hw Hb Hbq) in E. unfold better in E. lia.
Qed.

(** Block [x] does not connect and failed. *)
Lemma refused_setback (n n1 : node) x r back : node_ok n -> ref_ok n r -> usable (tree n) x -> is_Some (tree n !! back) ->
  node_ok n1 -> tree n1 = alter (add_status BLOCK_FAILED_VALID) x (tree n) -> (forall c, ~ connects_to (tree n) x c) ->
  (forall q, q ∈ cands n1 <-> q ∈ cands n /\ q <> x) -> unlinked n1 = unlinked n ->
  exists st', InvalidChainFound (cs n1) back = Some st' /\ setback n (with_cs n1 st').
Proof.
  intros Hn Hr Hux Hback Hn1 Etree Hno Hc Hunl. pose proof (fail_evolves (tree n) x) as Hev. rewrite <- Etree in Hev.
  destruct (no_tip _ Hn1) as (t & bt & Ht & _). destruct Hux as [[bx Hbx] Hux].
  assert (Ebx : tree n1 !! x = Some (add_status BLOCK_FAILED_VALID bx)).
  { rewrite Etree, list_lookup_alter, decide_True by done. now rewrite Hbx. }
  assert (Hvalid : forall q c, usable (tree n) q -> connects_to (tree n) q c -> usable (tree n1) q).
  { intros q c Hu Hq. rewrite Etree. apply fail_usable; [done|]. intros m Hm.
    destruct (connects_up _ m q c x (no_tree _ Hn) Hq Hm) as (c' & Hc'). now apply (Hno c'). }
  destruct (InvalidChainFound_spec address (cs n1) back (no_sel _ Hn1)) as (st' & -> & Hs & Ec & Ei & El);
    [now apply (same_tree_valid _ _ back (proj1 Hev))|eauto|]. exists st'. split; [done|].
  split; cbn [cs with_cs]; rewrite ?Ei; [now apply searched_node| |done|congruence| |done].
  - exists r. apply (ref_ok_change n1); cbn [cs with_cs]; rewrite ?Ei, ?Ec; [reflexivity| |done|].
    + destruct (rf_connects _ _ Hr) as [c Hcr]. exact (Hvalid r c (rf_usable _ _ Hr) Hcr).
    + apply (ref_ok_change n); [done| | |done].
      * destruct (rf_connects _ _ Hr) as [c Hcr]. exact (Hvalid r c (rf_usable _ _ Hr) Hcr).
      * intros q Hq Huq. apply Hc. split; [done|]. intros ->. destruct Huq as [_ Huq].
        destruct (Huq 0%nat x _ eq_refl Ebx) as [Hf _]. now rewrite (proj1 (failed_valid bx)) in Hf.
  - apply (proj2 (not_failed_evolves _ _ Hev) x bx _ Hbx Ebx); [apply (Hux 0%nat x bx eq_refl Hbx)|apply failed_valid].
Qed.

Lemma better_position_spec (n : node) t o : node_ok n -> is_Some (tree n !! t) -> is_Some (tree n !! o) ->
  exists b : bool, better_position (tree n) (Some t) (Some o) = Some b.
Proof. intros _ [bt Ht] [bo Ho]. unfold better_position. cbn [mbind option_bind]. rewrite Ht, Ho. cbn. eauto. Qed.

Lemma connect_list_spec M o back : forall l (n : node) q r p k, node_ok n -> ref_ok n r -> tip (cs n) = Some q -> path (tree n) q l p ->
  up (tree n) k M = Some p -> M ∈ cands n -> usable (tree n) M -> is_Some (tree n !! o) -> is_Some (tree n !! back) ->
  exists res, connect_list address (Some o) (Some back) l n = Some res /\
  match res with
  | Continue n' => progressed n n' M /\ tip (cs n') = Some p
  | Stop false n' => progressed n n' M /\ exists p', p' ∈ l /\ tip (cs n') = Some p'
  | Stop true n' => setback n n'
  | Failed _ => system_error
  end.
Proof.
  induction l as [|x l IH]; intros n q r p k Hn Hr Ht Hpath Hk HM Hu Ho Hback; cbn [connect_list path] in *.
  { subst p. exists (Continue n). split; [done|]. split; [|done]. split; eauto using same_flags_refl. }
  destruct Hpath as [(b & Hb & Hp) Hpath]. pose proof (no_sel _ Hn) as Hsel.
  assert (Hx : up (tree n) (k + length l) M = Some x) by (rewrite up_add, Hk; cbn; now apply (path_up _ x l p)).
  destruct Hu as [[bM HbM] Hu]. pose proof (so_linked _ _ Hsel M bM HM HbM) as HlM.
  assert (Hux : usable (tree n) x) by (apply (usable_up _ M (k + length l) x); [split; eauto|done|eauto]).
  destruct (ConnectTip_spec n q x b Hn Ht Hb Hp Hux (linked_up address _ _ M bM x b Hsel HbM HlM Hx Hb)) as (res & n1 & -> & H1).
  cbn [mbind option_bind]. destruct res as [state|]; cbn [tip_connected] in H1.
  - destruct (IsInvalid state) eqn:Ei; [|exists (Failed n1); split; done].
    destruct H1 as (Hn1 & Etree & _ & Hc & Hunl & -> & Hno). cbn [negb mbind option_bind].
    destruct (refused_setback n n1 x r back Hn Hr Hux Hback Hn1 Etree Hno Hc Hunl) as (st' & -> & Hsb). cbn [mbind option_bind].
    exists (Stop true (with_cs n1 st')). split; done.
  - destruct H1 as (Hn1 & Hfl & Ec & El & Et1). pose proof (proj1 Hfl) as Hsame.
    assert (Hr1 : ref_ok n1 r).
    { apply (ref_ok_change n); [now apply same_flags_evolves| |now rewrite Ec|done].
      apply (same_flags_usable _ _ r Hfl), (rf_usable _ _ Hr). }
    destruct (prune_node n1 x r M Hn1 Hr1 Et1) as (st' & -> & Hn2 & Hr2 & Ei & Eu & Et2 & HM2 & Hincl); [now rewrite Ec| |].
    { apply (not_less_up n1 (k + length l)); [done|now rewrite (same_tree_up _ _ Hsame)|apply (same_tree_valid _ _ _ Hsame); eauto..]. }
    cbn [mbind option_bind]. set (n2 := with_cs n1 st') in *.
    assert (Etree2 : tree n2 = tree n1) by (unfold n2; cbn [cs with_cs]; now rewrite Ei).
    destruct (better_position_spec n1 x o Hn1) as [better Eb]; [apply (same_tree_valid _ _ _ Hsame); eauto..|].
    rewrite Et2. change (entries st') with (tree n2). rewrite Etree2, Eb. cbn [mbind option_bind].
    assert (Hpr : progressed n n2 M).
    { split; [done|done|now rewrite Etree2|unfold n2; cbn [cs with_cs]; congruence|done|]. intros y Hy. rewrite <- Ec. now apply Hincl. }
    destruct better.
    + exists (Stop false n2). split; [done|]. split; [done|]. exists x. split; [now left|done].
    + destruct Hr2 as [r2 Hr2]. pose proof (pg_flags _ _ _ Hpr) as Hfl2. pose proof (proj1 Hfl2) as Hsame2.
      destruct (IH n2 x r2 p k Hn2 Hr2 Et2) as (res & -> & Hres).
      * now apply (path_same (tree n)).
      * now rewrite (same_tree_up _ _ Hsame2).
      * done.
      * apply (same_flags_usable _ _ M Hfl2). split; [eauto|done].
      * now apply (same_tree_valid _ _ _ Hsame2).
      * now apply (same_tree_valid _ _ _ Hsame2).
      * exists res. split; [done|]. destruct res as [n3|[] n3|n3]; [| | |done].
        -- destruct Hres as [H1 H2]. split; [now apply (progressed_trans n n2)|done].
        -- now apply (progressed_setback n n2 n3 M).
        -- destruct Hres as [H1 (p' & Hp' & Hl')]. split; [now apply (progressed_trans n n2)|]. exists p'. split; [now right|done].
Qed.

(** What connecting up to [M] from height [h] comes to. *)
Definition loop_result (n : node) (M : nat) (hM h : Z) (res : progress C U) : Prop :=
  match res with
  | Continue n' => progressed n n' M /\ tip (cs n') = Some M
  | Stop false n' => progressed n n' M /\ exists p' j, tip (cs n') = Some p' /\ up (tree n) j M = Some p' /\ Z.of_nat j < hM - h
  | Stop true n' => setback n n'
  | Failed _ => system_error
  end.

Lemma loop_result_trans n1 n2 M hM h h' res : progressed n1 n2 M -> h <= h' -> loop_result n2 M hM h' res -> loop_result n1 M hM h res.
Proof.
  intros Hp Hh. destruct res as [n3|[] n3|n3]; cbn [loop_result]; [| | |done].
  - intros [H1 H2]. split; [now apply (progressed_trans n1 n2)|done].
  - now apply (progressed_setback n1 n2 n3 M).
  - intros [H1 (p' & j & H2 & H3 & H4)]. split; [now apply (progressed_trans n1 n2)|]. exists p', j. split; [done|].
    rewrite (same_tree_up _ _ (proj1 (pg_flags _ _ _ Hp))) in H3. split; [done|lia].
Qed.

Lemma connect_loop_spec M o hM : forall fuel (n : node) q r h bM, node_ok n -> ref_ok n r -> tree n !! M = Some bM -> nHeight bM = hM ->
  0 <= h <= hM -> tip (cs n) = Some q -> up (tree n) (Z.to_nat (hM - h)) M = Some q -> M ∈ cands n -> usable (tree n) M ->
  is_Some (tree n !! o) -> hM - h <= Z.of_nat fuel ->
  exists res, connect_loop address fuel (Some o) M h n = Some res /\ loop_result n M hM h res.
Proof.
  induction fuel as [|fuel IH]; intros n q r h bM Hn Hr HbM EhM Hh Ht Hup HM Hu Ho Hf; cbn [connect_loop]; rewrite HbM; cbn [mbind option_bind];
    rewrite EhM; (destruct (Z.eqb_spec h hM) as [->|Hne];
      [rewrite Z.sub_diag in Hup; injection Hup as <-; exists (Continue n); split; [done|]; split; [|done];
       split; eauto using same_flags_refl|]).
  { lia. }
  set (target := Z.min (h + 32) hM). pose proof (no_sel _ Hn) as Hsel. pose proof (so_store _ _ Hsel) as Hwf.
  destruct (up_height _ Hwf (Z.to_nat (hM - target)) M bM HbM ltac:(lia)) as (a & ba & Ha & Hba & Eha).
  rewrite (GetAncestor_spec _ Hwf M bM) by done.
  destruct (Z.ltb_spec target 0); [lia|]. destruct (Z.ltb_spec (nHeight bM) target); [lia|]. cbn [orb].
  replace (nHeight bM - target) with (hM - target) by lia. rewrite Ha. cbn [mbind option_bind].
  assert (Hqa : up (tree n) (Z.to_nat (target - h)) a = Some q).
  { replace (Z.to_nat (hM - h)) with (Z.to_nat (hM - target) + Z.to_nat (target - h))%nat in Hup by lia.
    rewrite up_add, Ha in Hup. exact Hup. }
  destruct (up_height _ Hwf (Z.to_nat (target - h)) a ba Hba ltac:(lia)) as (q' & bq & E & Hbq & Ehq). rewrite Hqa in E. injection E as <-.
  destruct (blocks_to_connect_spec (tree n) q h a Hwf (Z.to_nat (target - h)) a ba [] Hba) as (l & El & Hpath & Hlen); try done; try lia.
  { now replace (nHeight ba) with target by lia. }
  { exists bq. split; [done|lia]. }
  rewrite El. cbn [mbind option_bind]. destruct l as [|x l]; [cbn in Hlen; lia|]. cbn [head].
  pose proof Hpath as [(bx & Hbx & _) _].
  destruct (connect_list_spec M o x (x :: l) n q r a (Z.to_nat (hM - target)) Hn Hr Ht Hpath Ha HM Hu Ho ltac:(eauto)) as (res & -> & Hres).
  cbn [mbind option_bind]. destruct res as [n1|[] n1|n1].
  - destruct Hres as [Hp Ht1]. pose proof (pg_flags _ _ _ Hp) as Hfl. pose proof (proj1 Hfl) as Hsame.
    destruct (same_tree_lookup _ _ M bM Hsame HbM) as (bM1 & HbM1 & Hs). destruct (same_block_fields _ _ Hs) as (_ & _ & Eh1 & _).
    destruct (pg_ref _ _ _ Hp) as [r1 Hr1].
    destruct (IH n1 a r1 target bM1 (pg_ok _ _ _ Hp) Hr1 HbM1 ltac:(lia) ltac:(lia) Ht1) as (res & -> & Hres); try done; try lia.
    + now rewrite (same_tree_up _ _ Hsame).
    + apply (pg_target _ _ _ Hp).
    + now apply (same_flags_usable _ _ M Hfl).
    + now apply (same_tree_valid _ _ _ Hsame).
    + exists res. split; [done|]. apply (loop_result_trans n n1 M hM h target); [done|lia|done].
  - exists (Stop true n1). split; done.
  - exists (Stop false n1). split; [done|]. destruct Hres as [Hp (p' & Hp' & Ht1)]. split; [done|].
    destruct (path_elem _ q _ a p' Hpath Hp') as (j & Hj & Hupj). exists p', (Z.to_nat (hM - target) + j)%nat. split; [done|].
    rewrite up_add, Ha. split; [exact Hupj|]. rewrite Hlen in Hj. cbn in Hj. lia.
  - exists (Failed n1). split; done.
Qed.

(** ** One step *)

Lemma root_below (n : node) p b : node_ok n -> tree n !! p = Some b -> up (tree n) (Z.to_nat (nHeight b)) p = Some root.
Proof.
  intros Hn Hb. pose proof (so_store _ _ (no_sel _ Hn)) as Hwf. pose proof (eo_height _ _ _ (Hwf p b Hb)) as Hh.
  destruct (up_height _ Hwf (Z.to_nat (nHeight b)) p b Hb ltac:(lia)) as (g & bg & E & Hbg & Eh). rewrite E. f_equal.
  apply (tr_one _ (no_tree _ Hn) g bg Hbg). pose proof (eo_prev _ _ _ (Hwf g bg Hbg)) as Hprev. destruct (pprev bg) as [r|]; [|done].
  destruct Hprev as (br & Hbr & E2). pose proof (eo_height _ _ _ (Hwf r br Hbr)). lia.
Qed.

(** Every block meets the active chain. *)
Lemma fork_spec (n : node) t M bM : node_ok n -> tip (cs n) = Some t -> tree n !! M = Some bM ->
  exists f bf m k, FindFork (tree n) (active n) (Some M) = Some (Some f) /\ tree n !! f = Some bf /\
    up (tree n) m M = Some f /\ Z.of_nat m = nHeight bM - nHeight bf /\ 0 <= nHeight bf /\
    up (tree n) k t = Some f /\ (k <= length (active n))%nat /\
    forall j, up (tree n) j M = Some t -> (m <= j)%nat.
Proof.
  intros Hn Ht HbM. pose proof (no_sel _ Hn) as Hsel. pose proof (so_store _ _ Hsel) as Hwf.
  destruct (active_iff _ _ Hsel Ht) as [[bt Hbt] Hin].
  destruct (FindFork_spec (tree n) Hwf (active n) M bM HbM) as (r & E & Hfirst).
  destruct r as [f|]; cbn [first_in_chain] in Hfirst.
  2:{ exfalso. apply (Hfirst _ root (root_below n M bM Hn HbM)), Hin. eexists. exact (root_below n t bt Hn Hbt). }
  destruct Hfirst as (m & Hm & Hf & Hlow). destruct (proj1 (Hin f) Hf) as [k Hk].
  assert (Hle : forall p b j q, tree n !! p = Some b -> up (tree n) j p = Some q -> Z.of_nat j <= nHeight b).
  { intros p b j q Hb Hj. destruct (Z.le_gt_cases (Z.of_nat j) (nHeight b)); [done|].
    rewrite (up_beyond _ Hwf j p b Hb) in Hj by lia. discriminate. }
  destruct (up_height _ Hwf m M bM HbM (Hle M bM m f HbM Hm)) as (f' & bf & E1 & Hbf & Eh). rewrite Hm in E1. injection E1 as <-.
  exists f, bf, m, k. split; [done|]. split; [done|]. split; [done|]. split; [lia|]. split; [apply (eo_height _ _ _ (Hwf f bf Hbf))|].
  split; [done|]. split.
  - pose proof (Hle t bt k f Hbt Hk). destruct (so_active _ _ Hsel) as [E2|(p & b & Hb & E2)].
    + unfold tip in Ht. now rewrite E2 in Ht.
    + assert (p = t) as -> by (unfold tip in Ht; rewrite E2, (Tip_chain_to _ p b Hwf Hb) in Ht; congruence).
      rewrite E2, length_chain_to. rewrite Hbt in Hb. injection Hb as <-. lia.
  - intros j Hj. destruct (Nat.le_gt_cases m j) as [|Hlt]; [done|]. exfalso. apply (Hlow j t Hlt Hj), Hin. now exists 0%nat.
Qed.

(** What a step towards [M] from the tip [t] comes to. *)
Definition step_result (n : node) (t M : nat) (ok fInvalidFound : bool) (n' : node) : Prop :=
  if ok then
    if fInvalidFound then setback n n'
    else progressed n n' M /\ exists t' j, tip (cs n') = Some t' /\ up (tree n) j M = Some t' /\
           (t' = M \/ forall i, up (tree n) i M = Some t -> (j < i)%nat)
  else system_error.

Lemma ActivateBestChainStep_spec (n : node) t M r : node_ok n -> ref_ok n r -> tip (cs n) = Some t -> M ∈ cands n -> usable (tree n) M ->
  exists ok inv n', ActivateBestChainStep address n M = Some (ok, inv, n') /\ step_result n t M ok inv n'.
Proof.
  intros Hn Hr Ht HM Hu. pose proof Hu as [[bM HbM] _]. destruct (active_iff _ _ (no_sel _ Hn) Ht) as [Hbt _].
  destruct (fork_spec n t M bM Hn Ht HbM) as (f & bf & m & k & Efork & Hbf & Hm & Em & Hh & Hk & Hlen & Hmin).
  unfold ActivateBestChainStep. rewrite Efork. cbn [mbind option_bind].
  destruct (disconnect_to_spec f k (length (active n)) n t Hn Ht Hk Hlen) as (ok & n1 & -> & H1). cbn [mbind option_bind].
  destruct ok; cbn [negb]; [|exists false, false, n1; split; done]. destruct H1 as (Hn1 & Ei & Ec & El & Et1).
  rewrite Ei, Hbf, HbM. cbn [mbind option_bind].
  assert (Hp1 : progressed n n1 M).
  { split; [done| |rewrite Ei; apply same_flags_refl|done|now rewrite Ec|intros q; now rewrite Ec]. exists r.
    apply (ref_ok_change n); rewrite ?Ei, ?Ec; [reflexivity|apply (rf_usable _ _ Hr)|done|done]. }
  destruct (pg_ref _ _ _ Hp1) as [r1 Hr1].
  destruct (connect_loop_spec M t (nHeight bM) (Z.to_nat (nHeight bM - nHeight bf)) n1 f r1 (nHeight bf) bM Hn1 Hr1)
    as (res & Eres & Hres); rewrite ?Ei; try done; try lia.
  { replace (Z.to_nat (nHeight bM - nHeight bf)) with m by lia. exact Hm. }
  { now rewrite Ec. }
  rewrite Ht, Eres. cbn [mbind option_bind]. apply (loop_result_trans n n1 M (nHeight bM) (nHeight bf) (nHeight bf) res Hp1 ltac:(lia)) in Hres.
  assert (Hfin : forall inv n', is_Some (tip (cs n')) -> step_result n t M true inv n' ->
    exists ok i n'', (if negb (bool_decide (Some t = None \/ Some t = Some f)) then _ ← tip (cs n'); Some (true, inv, n')
      else Some (true, inv, n')) = Some (ok, i, n'') /\ step_result n t M ok i n'').
  { intros inv n' [x Hx] Hs. rewrite Hx. cbn [mbind option_bind]. exists true, inv, n'. split; [now destruct (negb _)|done]. }
  destruct res as [n'|[] n'|n']; cbn [loop_result] in Hres.
  - destruct Hres as [Hp Ht']. apply Hfin; [eauto|]. split; [done|]. exists M, 0%nat. split; [done|]. split; [done|now left].
  - apply Hfin; [|done]. destruct (no_tip _ (sb_ok _ _ Hres)) as (x & _ & Hx & _). eauto.
  - destruct Hres as [Hp (t' & j & Ht' & Hj & Hlt)]. apply Hfin; [eauto|]. split; [done|]. exists t', j. split; [done|]. split; [done|].
    right. intros i Hi. specialize (Hmin i Hi). lia.
  - exists false, false, n'. split; done.
Qed.

(** ** All steps *)

(** The candidates that can be used are not better than [M], which is one of them. *)
Record target_ok (n : node) (M : nat) : Prop := {
  tg_cand : M ∈ cands n;
  tg_usable : usable (tree n) M;
  tg_best : forall q, q ∈ cands n -> usable (tree n) q -> q = M \/ less (tree n) q M = true }.

Lemma target_best (n : node) r M : node_ok n -> ref_ok n r -> target_ok n M ->
  forall q b, tree n !! q = Some b -> linked b -> usable (tree n) q -> less (tree n) M q = false.
Proof.
  intros Hn Hr [HM Hu Hbest] q b Hb Hl Huq. pose proof (so_works _ _ (no_sel _ Hn)) as Hw.
  assert (Hc : forall x, x ∈ cands n -> usable (tree n) x -> less (tree n) M x = false).
  { intros x Hx Hux. destruct (Hbest x Hx Hux) as [->|Hx']; [now apply work_less_irrefl|now apply work_less_asym]. }
  destruct (less (tree n) q r) eqn:Eqr; [|apply Hc; [now apply (rf_complete _ _ Hr q b)|done]].
  destruct (less (tree n) M q) eqn:E; [|done].
  pose proof (work_less_trans address _ _ _ _ Hw E Eqr) as Hx. rewrite Hc in Hx; [done|now apply ref_candidate|apply (rf_usable _ _ Hr)].
Qed.

Lemma target_progressed (n n' : node) M : target_ok n M -> progressed n n' M -> target_ok n' M.
Proof.
  intros [HM Hu Hbest] Hp. pose proof (pg_flags _ _ _ Hp) as Hfl. split.
  - apply (pg_target _ _ _ Hp).
  - now apply (same_flags_usable _ _ M Hfl).
  - intros q Hq Huq. rewrite (same_tree_less _ _ _ _ _ (proj1 Hfl)). apply Hbest; [now apply (pg_cands _ _ _ Hp)|].
    now apply (same_flags_usable _ _ q Hfl).
Qed.

(** Blocks that connect stay usable. *)
Record lasting (n n' : node) : Prop := {
  la_evolves : evolves (tree n) (tree n');
  la_unlinked : data_ok (tree n) -> unlinked n' = unlinked n;
  la_valid : forall q c, usable (tree n) q -> connects_to (tree n) q c -> usable (tree n') q }.

Lemma lasting_trans n1 n2 n3 : lasting n1 n2 -> lasting n2 n3 -> lasting n1 n3.
Proof.
  intros [E1 U1 V1] [E2 U2 V2]. split; [now transitivity (tree n2)|intros Hd; rewrite U2; [now apply U1|now apply (evolves_data (tree n1))]|]. intros q c Hu Hc. apply (V2 q c); [now apply (V1 q c)|].
  exact (connects_same _ _ q c (proj1 E1) Hc).
Qed.
Lemma progressed_lasting (n n' : node) M : progressed n n' M -> lasting n n'.
Proof.
  intros Hp. split; [apply same_flags_evolves, (pg_flags _ _ _ Hp)|intros _; apply (pg_unlinked _ _ _ Hp)|]. intros q c Hu _. now apply (same_flags_usable _ _ q (pg_flags _ _ _ Hp)).
Qed.
Lemma setback_lasting (n n' : node) : setback n n' -> lasting n n'.
Proof. intros []. now split. Qed.

(** The tip is the best block. *)
Record settled (n n' : node) : Prop := {
  se_lasting : lasting n n';
  se_node : node_ok n';
  se_ref : exists r, ref_ok n' r;
  se_tip : exists t, tip (cs n') = Some t /\ target_ok n' t }.

Lemma settled_trans n1 n2 n3 : lasting n1 n2 -> settled n2 n3 -> settled n1 n3.
Proof. intros Hl []. split; try done. now apply (lasting_trans n1 n2). Qed.

Lemma max_height_bound s p b : s !! p = Some b -> (Z.to_nat (nHeight b) <= max_height s)%nat.
Proof.
  unfold max_height. revert p. induction s as [|b0 s IH]; intros [|p] Hb; try discriminate Hb; cbn [foldr].
  - injection Hb as <-. lia.
  - specialize (IH p Hb). lia.
Qed.

Lemma max_height_same s s' : same_tree s s' -> max_height s' = max_height s.
Proof.
  unfold max_height. revert s'. induction s as [|b s IH]; intros [|b' s'] Ht; [done|specialize (Ht 0%nat); inversion Ht..|].
  cbn [foldr]. rewrite (IH s') by (intros p; exact (Ht (S p))). specialize (Ht 0%nat). inversion Ht as [x y Hs|]; subst.
  now destruct (same_block_fields _ _ Hs) as (_ & _ & -> & _).
Qed.

(** The search leaves a target, or the tip is the best block already. *)
Lemma search_node (n : node) r : node_ok n -> ref_ok n r ->
  exists st' M, FindMostWorkChain address (cs n) = Some (st', Some M) /\ let n' := with_cs n st' in
    node_ok n' /\ ref_ok n' r /\ target_ok n' M /\ lasting n n' /\ tip st' = tip (cs n).
Proof.
  intros Hn Hr. destruct (FindMostWorkChain_spec address Haddr (cs n) (no_sel _ Hn)) as (st' & res & E & Hs & _ & Hbest).
  destruct res as [M|]; cbn [best_candidate] in Hbest.
  2:{ destruct (Hbest r (ref_candidate n r Hn Hr) (rf_usable _ _ Hr)). }
  destruct Hbest as (HM & Hu & Hbest). exists st', M. split; [done|]. cbn zeta. pose proof (se_marked _ _ Hs) as Hm.
  pose proof (marked_evolves _ _ Hm) as Hev. pose proof (fun q => marked_usable _ _ q Hm) as Hus.
  split; [now apply searched_node|]. split.
  { apply (ref_ok_change n); cbn [cs with_cs]; [done|apply Hus, (rf_usable _ _ Hr)| |done]. intros q Hq Huq.
    apply (se_kept _ _ Hs q Hq). now apply Hus. }
  split; [|split; [|unfold tip; now rewrite (se_active _ _ Hs)]].
  - split; cbn [cs with_cs]; [now apply (se_kept _ _ Hs)|now apply Hus|]. intros q Hq Huq.
    rewrite (same_tree_less _ _ _ _ _ (proj1 Hm)). apply Hbest; [|now apply Hus]. eapply elem_of_sublist; [exact Hq|apply (se_cands _ _ Hs)].
  - split; [done|apply (se_unlinked _ _ Hs)|]. intros q c Huq _. now apply Hus.
Qed.

(** How many more turns there may be: [d] towards the present target, and one round for every other block that may still fail. *)
Definition turns (n : node) (d : nat) : nat := not_failed (tree n) * S (S (max_height (tree n))) + d.
Definition target_at (n : node) (mw : ptr) (d : nat) : Prop :=
  match mw with
  | None => d = S (max_height (tree n))
  | Some M => target_ok n M /\ exists t, tip (cs n) = Some t /\ t <> M /\ up (tree n) d M = Some t
  end.

Definition activated (n : node) (ok : bool) (n' : node) : Prop := if ok then settled n n' else system_error.

Lemma up_bounded (n : node) M j q : node_ok n -> up (tree n) j M = Some q -> is_Some (tree n !! M) -> (j <= max_height (tree n))%nat.
Proof.
  intros Hn Hj [b Hb]. pose proof (max_height_bound _ M b Hb). pose proof (so_store _ _ (no_sel _ Hn)) as Hwf.
  destruct (Nat.le_gt_cases j (max_height (tree n))); [done|]. rewrite (up_beyond _ Hwf j M b Hb) in Hj by (pose proof (eo_height _ _ _ (Hwf M b Hb)); lia).
  discriminate.
Qed.

Lemma setback_turns (n n' : node) d : setback n n' -> (turns n' (S (max_height (tree n'))) < turns n d)%nat.
Proof. intros Hsb. unfold turns. rewrite (max_height_same _ _ (proj1 (sb_evolves _ _ Hsb))). pose proof (sb_less _ _ Hsb). nia. Qed.

Lemma progressed_turns (n n' : node) M j d : progressed n n' M -> (j < d)%nat -> (turns n' j < turns n d)%nat.
Proof.
  intros Hp Hj. unfold turns. pose proof (same_flags_evolves _ _ (pg_flags _ _ _ Hp)) as Hev.
  rewrite (max_height_same _ _ (proj1 Hev)). destruct (not_failed_evolves _ _ Hev) as [Hle _]. nia.
Qed.

(** A turn with a target, from the induction hypothesis for the turns after it. *)
Lemma turn_spec fuel (n : node) r t M d :
  (forall (n : node) mw r d, node_ok n -> ref_ok n r -> target_at n mw d -> (turns n d < fuel)%nat ->
    exists ok n', activate address fuel n mw = Some (ok, n') /\ activated n ok n') ->
  node_ok n -> ref_ok n r -> tip (cs n) = Some t -> target_ok n M -> t <> M -> (turns n d < S fuel)%nat ->
  (forall j q, up (tree n) j M = Some q -> (forall i, up (tree n) i M = Some t -> (j < i)%nat) -> (j < d)%nat) ->
  exists ok n',
    ('(ok, fInvalidFound, n) ← ActivateBestChainStep address n M;
     if negb ok then Some (false, n)
     else
       let pindexMostWork := if fInvalidFound : bool then None else Some M in
       if bool_decide (tip (cs n) = pindexMostWork) then
         match flush_coins (coins_tip n) with Some _ => Some (false, n) | None => Some (true, n) end
       else activate address fuel n pindexMostWork) = Some (ok, n') /\ activated n ok n'.
Proof.
  intros IH Hn Hr Ht HM Hne Hfuel Hd.
  destruct (ActivateBestChainStep_spec n t M r Hn Hr Ht (tg_cand _ _ HM) (tg_usable _ _ HM)) as (ok & inv & n1 & -> & Hs).
  cbn [mbind option_bind]. destruct ok; cbn [negb step_result] in *; [|exists false, n1; split; done]. destruct inv.
  - destruct (no_tip _ (sb_ok _ _ Hs)) as (x & _ & Hx & _). rewrite bool_decide_eq_false_2 by congruence. destruct (sb_ref _ _ Hs) as [r1 Hr1].
    pose proof (setback_turns n n1 d Hs). destruct (IH n1 None r1 _ (sb_ok _ _ Hs) Hr1 eq_refl ltac:(lia)) as (ok & n2 & -> & H2).
    exists ok, n2. split; [done|]. destruct ok; [|done]. now apply (settled_trans n n1), H2; apply setback_lasting.
  - destruct Hs as [Hp (t1 & j & Ht1 & Hj & Hcase)]. destruct (pg_ref _ _ _ Hp) as [r1 Hr1].
    pose proof (target_progressed n n1 M HM Hp) as HM1. pose proof (progressed_lasting _ _ _ Hp) as Hl.
    case_bool_decide as Hd1.
    + destruct (flush_coins (coins_tip n1)) as [state|] eqn:Ef; [exists false, n1; split; [done|]; right; right; eauto|].
      exists true, n1. split; [done|]. split; [done|apply (pg_ok _ _ _ Hp)|eauto|eauto].
    + assert (Hne1 : t1 <> M) by congruence. destruct Hcase as [->|Hcase]; [done|]. pose proof (progressed_turns n n1 M j d Hp (Hd j t1 Hj Hcase)).
      destruct (IH n1 (Some M) r1 j (pg_ok _ _ _ Hp) Hr1) as (ok & n2 & -> & H2); [|lia|].
      * split; [done|]. exists t1. split; [done|]. split; [done|]. now rewrite (same_tree_up _ _ (proj1 (pg_flags _ _ _ Hp))).
      * exists ok, n2. split; [done|]. destruct ok; [|done]. now apply (settled_trans n n1).
Qed.

Lemma activate_spec fuel : forall (n : node) mw r d, node_ok n -> ref_ok n r -> target_at n mw d -> (turns n d < fuel)%nat ->
  exists ok n', activate address fuel n mw = Some (ok, n') /\ activated n ok n'.
Proof.
  induction fuel as [|fuel IH]; intros n mw r d Hn Hr Hmw Hfuel; [lia|]. cbn [activate]. destruct mw as [M|]; cbn [target_at] in Hmw.
  - destruct Hmw as (HM & t & Ht & Hne & Hup). cbn [mbind option_bind]. rewrite Ht, bool_decide_eq_false_2 by (intros [?|?]; congruence).
    apply (turn_spec fuel n r t M d IH Hn Hr Ht HM Hne Hfuel). intros j q _ Hj. now apply Hj.
  - destruct (search_node n r Hn Hr) as (st' & M & -> & Hn1 & Hr1 & HM & Hl & Et). cbn [mbind option_bind]. cbn [cs with_cs]. rewrite Et.
    destruct (no_tip _ Hn) as (t & bt & Ht & _). rewrite Ht. case_bool_decide as Hd.
    + destruct Hd as [|[= ->]]; [done|]. exists true, (with_cs n st'). split; [done|]. split; [done|done|eauto|].
      exists t. split; [cbn; congruence|done].
    + destruct (not_failed_evolves _ _ (la_evolves _ _ Hl)) as [Hle _]. pose proof (max_height_same _ _ (proj1 (la_evolves _ _ Hl))) as Eh.
      destruct (turn_spec fuel (with_cs n st') r t M d IH Hn1 Hr1) as (ok & n2 & E & H2); try done.
      * cbn [cs with_cs]. congruence.
      * intros ->. apply Hd. now right.
      * unfold turns in *. rewrite Eh. nia.
      * intros j q Hj _. rewrite Hmw, <- Eh. pose proof (up_bounded _ M j q Hn1 Hj (proj1 (tg_usable _ _ HM))). lia.
      * exists ok, n2. split; [exact E|]. destruct ok; [|done]. now apply (settled_trans n (with_cs n st')).
Qed.

(** Every block that may become the tip and is not worse than the tip is a candidate. *)
Definition complete (n : node) : Prop := forall t q b, tip (cs n) = Some t -> tree n !! q = Some b -> linked b -> usable (tree n) q ->
  less (tree n) q t = false -> q ∈ cands n.

Lemma complete_ref (n : node) t : node_ok n -> complete n -> tip (cs n) = Some t -> ref_ok n t.
Proof.
  intros Hn Hc Ht. destruct (no_tip _ Hn) as (t' & b & Ht' & Hb & Hl & Hct). rewrite Ht in Ht'. injection Ht' as <-.
  split; [eauto|now apply tip_usable; [apply no_sel|]|eauto|]. intros q bq. now apply Hc.
Qed.

Lemma settled_complete (n n' : node) : settled n n' -> complete n'.
Proof.
  intros [_ Hn [r Hr] (t & Ht & HM)] t' q b Ht' Hb Hl Hu Hqt. rewrite Ht in Ht'. injection Ht' as <-.
  apply (rf_complete _ _ Hr q b Hb Hl Hu). destruct (less (tree n') q r) eqn:Eqr; [|done].
  destruct (rf_linked _ _ Hr) as (br & Hbr & Hlr). pose proof (so_works _ _ (no_sel _ Hn)) as Hw.
  destruct (proj1 (tg_usable _ _ HM)) as [bt Hbt]. pose proof (target_best n' r t Hn Hr HM r br Hbr Hlr (rf_usable _ _ Hr)) as Hno.
  destruct (work_less_total address Haddr _ r t br bt Hw Hbr Hbt) as [H1|[->|H1]]; [|congruence|congruence].
  now rewrite (work_less_trans address _ _ _ _ Hw Eqr H1) in Hqt.
Qed.

Lemma ActivateBestChain_settled (n : node) : node_ok n -> complete n ->
  exists ok n', ActivateBestChain address n = Some (ok, n') /\ activated n ok n'.
Proof.
  intros Hn Hc. destruct (no_tip _ Hn) as (t & _ & Ht & _).
  apply (activate_spec _ n None t (S (max_height (tree n))) Hn (complete_ref n t Hn Hc Ht) eq_refl). unfold turns. lia.
Qed.

(** The tip, in terms of what was known before. *)
Lemma settled_best (n n' : node) : settled n n' ->
  exists t, tip (cs n') = Some t /\ usable (tree n) t /\ connects_to (tree n) t (coins_tip n') /\
    forall q b c, tree n !! q = Some b -> linked b -> usable (tree n) q -> connects_to (tree n) q c ->
      q = t \/ less (tree n) q t = true.
Proof.
  intros [[Hev _ Hvalid] Hn' [r Hr] (t & Ht & HM)]. pose proof (proj1 Hev) as Hsame.
  destruct (no_tip _ Hn') as (t' & bt & Ht' & Hbt & _ & Hct). rewrite Ht in Ht'. injection Ht' as <-.
  exists t. split; [done|]. split; [apply (evolves_usable _ _ t Hev), (tg_usable _ _ HM)|].
  split; [exact (connects_same _ _ _ _ (symmetry Hsame) Hct)|]. intros q b c Hb Hl Hu Hq.
  destruct (same_tree_lookup _ _ q b Hsame Hb) as (b' & Hb' & Hs). apply (same_block_linked b b' Hs) in Hl.
  pose proof (target_best n' r t Hn' Hr HM q b' Hb' Hl (Hvalid q c Hu Hq)) as Hno.
  destruct (work_less_total address Haddr _ q t b' bt (so_works _ _ (no_sel _ Hn')) Hb' Hbt) as [H1|[->|H1]]; [|now left|congruence].
  right. now rewrite (same_tree_less _ _ _ _ _ Hsame) in H1.
Qed.

(** ** Properties *)

(** C6. [ActivateBestChain] ends without a failed assertion, whatever branches the blocks form and whichever of them turn out
    to be invalid.  If it succeeds, the tip is the best of all blocks whose ancestors were all received and none of which
    is known to be invalid or is refused when it is connected: every other such block has less work, or the same work and
    was received later.  The coins are those of connecting the blocks up to the tip, and the invariant holds
    again.  It fails only on an error of the system. *)
Theorem ActivateBestChain_correct (n : node) : node_ok n -> complete n ->
  exists ok n', ActivateBestChain address n = Some (ok, n') /\
    if ok : bool then
      node_ok n' /\ complete n' /\ exists t, tip (cs n') = Some t /\ usable (tree n) t /\ connects_to (tree n) t (coins_tip n') /\
        forall q b c, tree n !! q = Some b -> linked b -> usable (tree n) q -> connects_to (tree n) q c ->
          q = t \/ less (tree n) q t = true
    else system_error.
Proof.
  intros Hn Hc. destruct (ActivateBestChain_settled n Hn Hc) as (ok & n' & E & H).
  exists ok, n'. split; [exact E|]. destruct ok; [|exact H].
  split; [apply (se_node _ _ H)|]. split; [now apply (settled_complete n)|]. now apply settled_best.
Qed.

End Node.

(** *** A concrete node *)

(** The coins are the blocks themselves; block 4 is invalid. *)
#[export] Instance demo_ops : TipOps (list nat) nat := {
  connect_coins c p := if (p =? 4)%nat then Refused (DoS CValidationState_new 100 REJECT_INVALID "bad"%string)
                       else Connected (p :: c) (Some (p, 0));
  disconnect_coins c p _ := match c with x :: c => if (x =? p)%nat then Some c else None | [] => None end;
  flush_coins _ := None }.

#[export] Instance demo_laws : TipOpsSpec (list nat) nat 0%nat [].
Proof.
  split; cbn.
  - intros c p c' u pos c''. destruct (Nat.eqb_spec p 4); [done|]. intros [= <- <- <-]. rewrite Nat.eqb_refl. now intros [= <-].
  - intros c p c'. now destruct (Nat.eqb_spec p 4).
  - intros c p state. destruct (Nat.eqb_spec p 4); [|done]. now intros [= <-].
  - done.
Qed.

Definition demo_node : node (list nat) nat := mk_node (demo_select 11) [] ∅.

Example demo_activate :
  (fun r => (r.1, tip (cs r.2), coins_tip r.2)) <$> ActivateBestChain Z.of_nat demo_node = Some (true, Some 2%nat, [2; 1]%nat).
Proof. vm_compute. reflexivity. Qed.

Lemma demo_node_ok : node_ok (root := 0%nat) (c0 := []) Z.of_nat demo_node /\ complete Z.of_nat demo_node.
Proof.
  split; [split|]; cbn [demo_node cs coins_tip undo_files demo_select index heap chainActive setBlockIndexCandidates].
  - apply demo_select_ok.
  - split.
    + eexists. split; reflexivity.
    + intros p b Hb. revert p b Hb. five_blocks; done.
    + intros p b q bq Hb. revert p b Hb. five_blocks; cbn; intros [= <-]; cbn; intros [= <-]; reflexivity.
    + intros p b Hb. revert p b Hb. five_blocks; done.
  - eexists _, _. split; [reflexivity|]. split; [reflexivity|]. split; [now right|constructor].
  - done.
  - done.
  - intros p b Hb. revert p b Hb. five_blocks; discriminate.
  - intros p b Hin Hb. revert p b Hb Hin. five_blocks; (done || intros H; vm_compute in H; discriminate H).
  - intros t q b _ Hb _ _ _. revert q b Hb. five_blocks; cbn [demo_node cs demo_select setBlockIndexCandidates]; rewrite !elem_of_cons; tauto.
Qed.

Lemma ActivateBestChain_correct_witness :
  exists ok n', ActivateBestChain Z.of_nat demo_node = Some (ok, n') /\
    if ok : bool then
      node_ok (root := 0%nat) (c0 := []) Z.of_nat n' /\ complete Z.of_nat n' /\ exists t, tip (cs n') = Some t /\ usable (demo_tree 11) t /\
        connects_to (root := 0%nat) (c0 := []) (demo_tree 11) t (coins_tip n') /\
        forall q b c, demo_tree 11 !! q = Some b -> linked b -> usable (demo_tree 11) q ->
          connects_to (root := 0%nat) (c0 := []) (demo_tree 11) q c -> q = t \/ work_less Z.of_nat (demo_tree 11) q t = true
    else system_error (C := list nat) (U := nat).
Proof.
  exact (ActivateBestChain_correct Z.of_nat Nat2Z.inj demo_node (proj1 demo_node_ok) (proj2 demo_node_ok)).
Defined.
