(* ===== verification/IndexKept.v ===== *)
(** * The block index under chain selection

    Receiving blocks and activating the best chain change the marks of the entries and where their data
    is, but not what the header index of AddBlock.v relies on: hashes, links, heights, difficulty and work.
    So its invariant [index_ok] lasts. *)

From stdpp Require Import gmap sorting strings.
From S2P Require Import Prelude Words Arith256 PowHash Chain Pow AddBlock ValidationState ChainSelect ActivateChain.

(** What the index relies on in an entry. *)
Definition same_core (b b' : CBlockIndex) : Prop :=
  same_links b b' /\ phashBlock b' = phashBlock b /\ nBits b' = nBits b /\ nTime b' = nTime b.
Definition index_kept (i i' : index_state) : Prop :=
  (forall p, option_Forall2 same_core (heap i !! p) (heap i' !! p)) /\
  mapBlockIndex i' = mapBlockIndex i /\ pindexBestHeader i' = pindexBestHeader i.

#[export] Instance same_core_equiv : Equivalence same_core.
Proof. split; repeat intro; unfold same_core, same_links in *; intuition congruence. Qed.

#[export] Instance index_kept_preorder : PreOrder index_kept.
Proof.
  pose proof (pointwise_equiv same_core _) as He. split.
  - intros i. split; [exact (reflexivity (R := fun s s' : store => forall p, option_Forall2 same_core (s !! p) (s' !! p)) (heap i))|done].
  - intros i1 i2 i3 (H1 & M1 & B1) (H2 & M2 & B2).
    split; [exact (transitivity (R := fun s s' : store => forall p, option_Forall2 same_core (s !! p) (s' !! p)) H1 H2)|split; congruence].
Qed.

Lemma kept_back i i' p b' : index_kept i i' -> heap i' !! p = Some b' -> exists b, heap i !! p = Some b /\ same_core b b'.
Proof. intros (H & _) Hb. specialize (H p). rewrite Hb in H. inversion H; subst. eauto. Qed.
Lemma kept_lookup i i' p b : index_kept i i' -> heap i !! p = Some b -> exists b', heap i' !! p = Some b' /\ same_core b b'.
Proof. intros (H & _) Hb. specialize (H p). rewrite Hb in H. inversion H; subst. eauto. Qed.

Lemma kept_shape i i' : index_kept i i' -> same_shape (heap i) (heap i').
Proof. intros (H & _) p. destruct (H p) as [b b' [Hl _]|]; now constructor. Qed.

Lemma index_kept_ok i i' : index_kept i i' -> index_ok i -> index_ok i'.
Proof.
  intros Hk [Hs Hf Hh Hm Hw Hb]. pose proof (kept_shape _ _ Hk) as Hshape. pose proof Hk as (_ & Em & Eb). split; rewrite ?Em, ?Eb.
  - now apply (same_shape_wf (heap i)).
  - intros p b' Hb'. destruct (kept_back _ _ p b' Hk Hb') as (b & H1 & _ & _ & -> & ->). now apply (Hf p).
  - intros p b' Hb'. destruct (kept_back _ _ p b' Hk Hb') as (b & H1 & _ & -> & _). now apply Hh.
  - intros h p Hp. destruct (Hm h p Hp) as (b & H1 & <-). destruct (kept_lookup _ _ p b Hk H1) as (b' & H2 & _ & Eh & _). exists b'. split; [done|congruence].
  - intros p b' Hb'. destruct (kept_back _ _ p b' Hk Hb') as (b & H1 & (Ep & _ & _ & ->) & _ & -> & _).
    destruct (Hw p b H1) as [Hn ->]. split; [done|]. unfold work_before. rewrite Ep. destruct (pprev b) as [q|]; [|done].
    destruct (heap i !! q) as [bq|] eqn:Eq.
    + destruct (kept_lookup _ _ q bq Hk Eq) as (bq' & -> & (_ & _ & _ & ->) & _). done.
    + destruct (heap i' !! q) as [bq'|] eqn:Eq'; [|done]. destruct (kept_back _ _ q bq' Hk Eq') as (bq & Hq & _). congruence.
  - destruct (pindexBestHeader i) as [p|].
    + destruct Hb as (b & H1 & Hmax). destruct (kept_lookup _ _ p b Hk H1) as (b' & H2 & (_ & _ & _ & Ew) & _). exists b'. split; [done|].
      intros q bq' Hq'. destruct (kept_back _ _ q bq' Hk Hq') as (bq & Hq & (_ & _ & _ & ->) & _). rewrite Ew. now apply (Hmax q).
    + destruct (heap i') as [|b' s'] eqn:E; [done|]. destruct (kept_back _ _ 0%nat b' Hk) as (b & H1 & _); [now rewrite E|].
      now rewrite Hb in H1.
Qed.

(** ** Changes of one entry *)

Lemma kept_update p f i : (forall b, heap i !! p = Some b -> same_core b (f b)) -> index_kept i (update_entry p f i).
Proof.
  intros Hf. split; [|done]. intros q. cbn. rewrite list_lookup_alter. destruct (decide (p = q)) as [<-|_].
  - destruct (heap i !! p) as [b|]; constructor. now apply Hf.
  - destruct (heap i !! q); constructor. reflexivity.
Qed.
Lemma kept_dirty p i i' : index_kept i i' -> index_kept i (make_dirty p i').
Proof. done. Qed.

Lemma core_status flag b : same_core b (add_status flag b).
Proof. now destruct b. Qed.
Lemma core_undo pos b : same_core b (with_nUndoPos pos b).
Proof. now destruct b. Qed.
Lemma core_block_data n file pos b : same_core b (with_block_data n file pos b).
Proof. now destruct b. Qed.
Lemma core_nChainTx n seq b : same_core b (with_nChainTx n seq b).
Proof. now destruct b. Qed.
Lemma core_raised level b r b' : RaiseValidity level b = Some (r, b') -> same_core b b'.
Proof.
  unfold RaiseValidity. intros E. repeat (destruct (negb _) || destruct (_ <? _)); try discriminate E; injection E as _ <-;
    (reflexivity || now destruct b).
Qed.

(** The steps of a computation in the option monad. *)
Ltac walk := repeat first
  [ match goal with
    | H : Some _ = Some _ |- _ => injection H as H
    | H : (_, _) = (_, _) |- _ => injection H as H
    | H : None = Some _ |- _ => discriminate H
    | H : mbind _ _ = Some _ |- _ => apply bind_Some in H as (? & ? & H)
    | H : context [match ?x with _ => _ end] |- _ => destruct x eqn:?
    end
  | progress subst ].

(** ** Chain selection *)

Section Kept.
Variable address : nat -> Z.

Lemma kept_remove_chain fuel : forall st p q c st', remove_chain address fuel st p q c = Some st' -> index_kept (index st) (index st').
Proof.
  induction fuel as [|fuel IH]; intros st p q c st' E; cbn [remove_chain] in E; walk; try reflexivity;
    apply IH in E; cbn in E; [|exact E].
  etransitivity; [|exact E]. apply kept_update. intros b _. apply core_status.
Qed.

Lemma kept_note_invalid st p st' : note_invalid st p = Some st' -> index st' = index st.
Proof. unfold note_invalid. intros E. now walk. Qed.

Lemma kept_find_most_work fuel : forall st st' r, find_most_work address fuel st = Some (st', r) -> index_kept (index st) (index st').
Proof.
  induction fuel as [|fuel IH]; intros st st' r E; cbn [find_most_work] in E; walk; try reflexivity.
  - apply IH in E. etransitivity; [|exact E]. match goal with H : remove_chain _ _ _ _ _ _ = _ |- _ => apply kept_remove_chain in H; rename H into Hr end.
    match goal with H : note_invalid _ _ = _ |- _ => apply kept_note_invalid in H; rewrite <- H end. exact Hr.
  - apply IH in E. etransitivity; [|exact E]. match goal with H : remove_chain _ _ _ _ _ _ = _ |- _ => now apply kept_remove_chain in H end.
Qed.

Lemma kept_prune st st' : PruneBlockIndexCandidates address st = Some st' -> index st' = index st.
Proof. unfold PruneBlockIndexCandidates. intros E. now walk. Qed.

Lemma kept_invalid_chain st p st' : InvalidChainFound st p = Some st' -> index st' = index st.
Proof. unfold InvalidChainFound. intros E. walk. now apply (kept_note_invalid st p). Qed.

Lemma kept_invalid_block st p state st' : InvalidBlockFound address st p state = Some st' -> index_kept (index st) (index st').
Proof.
  unfold InvalidBlockFound. intros E. walk; [reflexivity|]. apply kept_invalid_chain in E. rewrite E. apply kept_dirty, kept_update.
  intros b _. apply core_status.
Qed.

Lemma kept_link_queue fuel : forall queue st st', link_queue address fuel queue st = Some st' -> index_kept (index st) (index st').
Proof.
  induction fuel as [|fuel IH]; intros [|p queue] st st' E; cbn [link_queue] in E; walk; try reflexivity; apply IH in E;
    (etransitivity; [|exact E]); cbn; repeat case_match; cbn; apply kept_update; intros; apply core_nChainTx.
Qed.

Lemma kept_receive st p n file pos st' : ReceivedBlockTransactions address st p n file pos = Some st' -> index_kept (index st) (index st').
Proof.
  unfold ReceivedBlockTransactions. intros E. apply bind_Some in E as (b0 & Hb0 & E). apply bind_Some in E as ([r b1] & Hr & E).
  apply core_raised in Hr.
  assert (H1 : index_kept (index st) (make_dirty p (update_entry p (fun _ => b1) (update_entry p (with_block_data n file pos) (index st))))).
  { apply kept_dirty. transitivity (update_entry p (with_block_data n file pos) (index st)); [apply kept_update; intros; apply core_block_data|].
    apply kept_update. intros b Hb. rewrite Hb0 in Hb. now injection Hb as <-. }
  walk; try exact H1; (etransitivity; [exact H1|now apply kept_link_queue in E]).
Qed.

(** ** Activation *)

Context {C U : Type} `{Hops : TipOps C U}.
Abbreviation index_of n := (index (cs n)).

Lemma kept_update_tip st p st' : UpdateTip st p = Some st' -> index st' = index st.
Proof. unfold UpdateTip. intros E. now walk. Qed.

Lemma kept_record_undo (n : node C U) p u pos n' : record_undo n p u pos = Some n' -> index_kept (index_of n) (index_of n').
Proof.
  unfold record_undo. intros E. apply bind_Some in E as (b & Hb & E).
  assert (H : forall b1, same_core b b1 -> index_kept (index_of n) (make_dirty p (update_entry p (fun _ => b1) (index_of n)))).
  { intros b1 H1. apply kept_dirty, kept_update. intros b' Hb'. rewrite Hb in Hb'. now injection Hb' as <-. }
  destruct (no_undo b); cbn [orb] in E; [|destruct (negb _); [|injection E as <-; reflexivity]];
    apply bind_Some in E as ([r b1] & Hr%core_raised & [= <-]); apply H; [|exact Hr].
  etransitivity; [|exact Hr]. etransitivity; [apply core_undo|apply core_status].
Qed.

Lemma kept_disconnect_tip (n : node C U) ok n' : DisconnectTip n = Some (ok, n') -> index_kept (index_of n) (index_of n').
Proof.
  unfold DisconnectTip. intros E. walk; try reflexivity;
    match goal with H : UpdateTip _ _ = _ |- _ => apply kept_update_tip in H; cbn in *; now rewrite H end.
Qed.

Lemma kept_connect_tip (n : node C U) p r n' : ConnectTip address n p = Some (r, n') -> index_kept (index_of n) (index_of n').
Proof.
  unfold ConnectTip. intros E. apply bind_Some in E as (b & Hb & E). destruct (negb _); [discriminate E|].
  destruct (connect_coins (coins_tip n) p) as [c undo|state].
  - apply bind_Some in E as (n1 & Hn1 & E).
    assert (H1 : index_kept (index_of n) (index_of n1)).
    { destruct undo as [[u pos]|]; [now apply kept_record_undo in Hn1|]. injection Hn1 as <-. reflexivity. }
    clear Hn1. destruct (flush_coins c); walk; [exact H1|].
    match goal with H : UpdateTip _ _ = _ |- _ => apply kept_update_tip in H; cbn in *; now rewrite H end.
  - apply bind_Some in E as (st & Hst & E). walk; [|reflexivity]. now apply kept_invalid_block in Hst.
Qed.

Lemma kept_disconnect_to fuel : forall (n : node C U) f ok n', disconnect_to fuel n f = Some (ok, n') -> index_kept (index_of n) (index_of n').
Proof.
  induction fuel as [|fuel IH]; intros n f ok n' E; cbn [disconnect_to] in E; walk; try reflexivity;
    match goal with H : DisconnectTip _ = _ |- _ => apply kept_disconnect_tip in H; rename H into Hd end; [|exact Hd].
  etransitivity; [exact Hd|now apply IH in E].
Qed.

(** The node that a progress carries. *)
Definition progress_node (r : progress C U) : node C U := match r with Continue n => n | Stop _ n => n | Failed n => n end.

Lemma kept_connect_list old back l : forall (n : node C U) r, connect_list address old back l n = Some r ->
  index_kept (index_of n) (index_of (progress_node r)).
Proof.
  induction l as [|p l IH]; intros n r E; cbn [connect_list] in E; [injection E as <-; reflexivity|].
  apply bind_Some in E as ([res n1] & H1 & E). apply kept_connect_tip in H1. etransitivity; [exact H1|]. destruct res as [state|].
  - walk; cbn; try reflexivity. match goal with H : InvalidChainFound _ _ = _ |- _ => apply kept_invalid_chain in H; now rewrite H end.
  - apply bind_Some in E as (st & Hst & E). apply kept_prune in Hst. walk; cbn; [now rewrite Hst|]. rewrite <- Hst. now apply IH in E.
Qed.

Lemma kept_connect_loop fuel old p : forall h (n : node C U) r, connect_loop address fuel old p h n = Some r ->
  index_kept (index_of n) (index_of (progress_node r)).
Proof.
  induction fuel as [|fuel IH]; intros h n r E; cbn [connect_loop] in E; apply bind_Some in E as (b & _ & E);
    destruct (h =? nHeight b); [injection E as <-; reflexivity|discriminate E|injection E as <-; reflexivity|].
  apply bind_Some in E as (q & _ & E). apply bind_Some in E as (l & _ & E). apply bind_Some in E as (r1 & H1 & E).
  apply kept_connect_list in H1. etransitivity; [exact H1|]. destruct r1; cbn [progress_node]; [now apply IH in E| |]; injection E as <-; reflexivity.
Qed.

Lemma kept_step (n : node C U) p ok invalid n' : ActivateBestChainStep address n p = Some (ok, invalid, n') ->
  index_kept (index_of n) (index_of n').
Proof.
  unfold ActivateBestChainStep. intros E. apply bind_Some in E as (f & _ & E). apply bind_Some in E as ([ok1 n1] & H1 & E).
  apply kept_disconnect_to in H1. etransitivity; [exact H1|]. destruct ok1; cbn [negb] in E; [|now walk].
  apply bind_Some in E as (h & _ & E). apply bind_Some in E as (b & _ & E). apply bind_Some in E as (r & H2 & E).
  apply kept_connect_loop in H2. destruct r; cbn [progress_node] in H2; walk; exact H2.
Qed.

Lemma kept_activate fuel : forall (n : node C U) p ok n', activate address fuel n p = Some (ok, n') -> index_kept (index_of n) (index_of n').
Proof.
  induction fuel as [|fuel IH]; intros n p ok n' E; cbn [activate] in E; [discriminate E|].
  apply bind_Some in E as ([n1 q] & H1 & E).
  assert (H : index_kept (index_of n) (index_of n1)).
  { clear E. destruct p; walk; [reflexivity|]. match goal with H : FindMostWorkChain _ _ = _ |- _ => now apply kept_find_most_work in H end. }
  etransitivity; [exact H|]. destruct (bool_decide _); [now walk|]. apply bind_Some in E as (m & _ & E).
  apply bind_Some in E as ([[ok1 invalid] n2] & H2 & E). apply kept_step in H2. etransitivity; [exact H2|].
  destruct ok1; cbn [negb] in E; [|now walk]. cbv zeta in E. destruct (bool_decide _); [now walk|now apply IH in E].
Qed.

Lemma kept_ActivateBestChain (n n' : node C U) ok : ActivateBestChain address n = Some (ok, n') -> index_kept (index_of n) (index_of n').
Proof. apply kept_activate. Qed.
End Kept.
