(* ===== verification/NodeRun.v ===== *)
(** * Headers, blocks and the best chain together

    [ReceivedBlockTransactions] (defined in ChainSelect.v) keeps what [ActivateBestChain] (ActivateChain.v)
    relies on: a block becomes a candidate as soon as all blocks up to it are received, in
    whatever order they arrive.  The runs of a node: headers are added, blocks are received, and the best
    chain is made active. *)

From stdpp Require Import gmap sorting strings relations.
From S2P Require Import Prelude Words Arith256 PowHash Chain Pow AddBlock ValidationState ChainSelect ActivateChain IndexKept.

(** ** Specification *)

(** The transactions of a block and the [n] blocks before it. *)
Fixpoint tx_total (n : nat) (s : store) (p : nat) : Z :=
  match s !! p with
  | None => 0
  | Some b => nTx b + match n, pprev b with S n, Some q => tx_total n s q | _, _ => 0 end
  end.
Definition tx_sum (s : store) (p : nat) (b : CBlockIndex) : Z := tx_total (Z.to_nat (nHeight b)) s p.

(** The block is there, but one before it is not. *)
Definition waits (b : CBlockIndex) : Prop := has_data b = true /\ ~ linked b.

(** What is known of the received blocks, while those of [queue] are to be linked: the numbers of
    transactions are added up without overflow, and every block that waits for one that has not failed
    is noted once in [mapBlocksUnlinked]. *)
Record inbox_ok (st : chainstate) (queue : list nat) : Prop := {
  ib_linked : forall p b, entries st !! p = Some b -> linked b -> has_data b = true /\ nChainTx b = tx_sum (entries st) p b;
  ib_tree : forall p b, entries st !! p = Some b -> in_tree b;
  ib_txs : forall p b, entries st !! p = Some b -> 0 <= nTx b /\ (has_data b = true -> 0 < nTx b);
  ib_bound : forall p b, entries st !! p = Some b -> tx_sum (entries st) p b < 2 ^ 32;
  ib_pairs : forall q x, (q, x) ∈ mapBlocksUnlinked st -> exists q' b bq, q = Some q' /\ entries st !! x = Some b /\
    pprev b = Some q' /\ waits b /\ entries st !! q' = Some bq /\ ~ linked bq;
  ib_queue : forall x, x ∈ queue -> exists b q bq, entries st !! x = Some b /\ pprev b = Some q /\ waits b /\
    entries st !! q = Some bq /\ linked bq;
  ib_once : NoDup (queue ++ (mapBlocksUnlinked st).*2);
  ib_waiting : forall x b q bq, entries st !! x = Some b -> waits b -> pprev b = Some q -> entries st !! q = Some bq ->
    failed bq = false -> x ∈ queue \/ (Some q, x) ∈ mapBlocksUnlinked st }.

(** [complete], from the tip [t]. *)
Definition complete_at (address : nat -> Z) (st : chainstate) (t : nat) : Prop := forall q b, entries st !! q = Some b -> linked b ->
  usable (entries st) q -> work_less address (entries st) q t = false -> q ∈ setBlockIndexCandidates st.

(** ** Sums *)

Lemma tx_total_ext s s' : (forall p, match s !! p, s' !! p with
    | Some b, Some b' => nTx b' = nTx b /\ pprev b' = pprev b | None, None => True | _, _ => False end) ->
  forall n p, tx_total n s' p = tx_total n s p.
Proof.
  intros H. induction n as [|n IH]; intros p; cbn [tx_total]; specialize (H p); destruct (s !! p) as [b|], (s' !! p) as [b'|]; try done;
    destruct H as [E1 E2].
  - now rewrite E1.
  - rewrite E1, E2. destruct (pprev b); [now rewrite IH|done].
Qed.

Lemma tx_sum_step s p b q bq : wf_store s -> s !! p = Some b -> pprev b = Some q -> s !! q = Some bq ->
  tx_sum s p b = nTx b + tx_sum s q bq.
Proof.
  intros Hwf Hb Hq Hbq. unfold tx_sum. pose proof (eo_prev _ _ _ (Hwf p b Hb)) as Hprev. rewrite Hq in Hprev.
  destruct Hprev as (bq' & Hbq' & Eh). rewrite Hbq in Hbq'. injection Hbq' as <-. pose proof (eo_height _ _ _ (Hwf q bq Hbq)).
  replace (Z.to_nat (nHeight b)) with (S (Z.to_nat (nHeight bq))) by lia. cbn [tx_total]. now rewrite Hb, Hq.
Qed.

Lemma tx_total_nonneg st queue : inbox_ok st queue -> forall n x, 0 <= tx_total n (entries st) x.
Proof.
  intros Hin. induction n as [|n IH]; intros x; cbn [tx_total]; destruct (entries st !! x) as [bx|] eqn:Ex; try done;
    destruct (ib_txs _ _ Hin x bx Ex) as [Hx _]; [lia|]. destruct (pprev bx) as [y|]; [specialize (IH y)|]; lia.
Qed.

(** A block is linked when its number of transactions is known. *)
Lemma linked_count st queue p b : inbox_ok st queue -> entries st !! p = Some b -> linked b <-> nChainTx b <> 0.
Proof.
  intros Hin Hb. split; [|now left]. intros Hl. destruct (ib_linked _ _ Hin p b Hb Hl) as [Hd ->].
  destruct (ib_txs _ _ Hin p b Hb) as [_ Hn]. specialize (Hn Hd). unfold tx_sum.
  destruct (Z.to_nat (nHeight b)) as [|k]; cbn [tx_total]; rewrite Hb; [lia|]. destruct (pprev b) as [q|]; [|lia].
  pose proof (tx_total_nonneg st queue Hin k q). lia.
Qed.

(** ** Changing one entry *)

Section Change.
Variable address : nat -> Z.
Context (Haddr : forall p q, address p = address q -> p = q).
Abbreviation less := (work_less address).
Abbreviation cands st := (setBlockIndexCandidates st).

Definition set_entry (p : nat) (b : CBlockIndex) (s : store) : store := alter (fun _ => b) p s.

Lemma set_entry_lookup s p b b' q : s !! p = Some b -> set_entry p b' s !! q = if decide (p = q) then Some b' else s !! q.
Proof. intros Hb. unfold set_entry. rewrite list_lookup_alter. destruct (decide (p = q)) as [->|_]; [now rewrite Hb|done]. Qed.

Lemma set_entry_shape s p b b' : s !! p = Some b -> same_links b b' -> same_shape s (set_entry p b' s).
Proof.
  intros Hb Hl q. rewrite (set_entry_lookup s p b) by done. destruct (decide (p = q)) as [<-|_]; [rewrite Hb; now constructor|].
  destruct (s !! q); now constructor.
Qed.

Lemma less_elsewhere s p b b' x y : s !! p = Some b -> x <> p -> y <> p -> less (set_entry p b' s) x y = less s x y.
Proof. intros Hb Hx Hy. unfold work_less. rewrite !(set_entry_lookup s p b) by done. now rewrite !decide_False. Qed.

(** Block [p] changes, which is not yet linked. *)
Lemma sel_ok_set st st' p b b' : sel_ok address st -> entries st !! p = Some b -> ~ linked b ->
  ~ in_chain (entries st) (chainActive st) p -> same_links b b' -> entries st' = set_entry p b' (entries st) ->
  (linked b' -> forall q bq, pprev b = Some q -> entries st !! q = Some bq -> linked bq) ->
  chainActive st' = chainActive st -> cands st' = cands st -> pindexBestInvalid st' = pindexBestInvalid st -> sel_ok address st'.
Proof.
  intros [Hwf Hw Hch Hg Hs Hv Hl Hcl Hinv] Hb Hno Hnoc Hlinks Es Hpar Ea Ec Ei.
  pose proof (set_entry_shape _ p b b' Hb Hlinks) as Hshape. rewrite <- Es in Hshape.
  assert (Hlook : forall q, entries st' !! q = if decide (p = q) then Some b' else entries st !! q)
    by (intros q; rewrite Es; now apply set_entry_lookup with b).
  assert (Hne : forall x, x ∈ cands st -> x <> p) by (intros x Hx ->; now apply Hno, (Hl p b)).
  split; rewrite ?Ea, ?Ec, ?Ei.
  - now apply (same_shape_wf (entries st)).
  - now apply (same_shape_works (entries st)).
  - now apply (same_shape_chain (entries st)).
  - intros x bx Hx. apply (same_shape_in_chain _ _ Hshape) in Hx. rewrite Hlook, decide_False by (intros ->; done). now apply Hg.
  - unfold sorted in *. rewrite Es. clear -Hs Hne Hb. induction Hs as [|x l Hl IH Hx]; [constructor|]. constructor.
    + apply IH. intros y Hy. apply Hne. now right.
    + apply list.Forall_forall. intros y Hy. rewrite (less_elsewhere _ p b) by (done || apply Hne; (now left || now right)).
      rewrite list.Forall_forall in Hx. now apply Hx.
  - unfold valid_ptrs in *. rewrite list.Forall_forall in Hv |- *. intros x Hx. apply (same_shape_valid _ _ Hshape). now apply Hv.
  - intros x bx Hx. rewrite Hlook, decide_False by (intros ->; now apply Hne in Hx). now apply Hl.
  - intros x bx q bq Hbx Hq Hbq Hlx. rewrite Hlook in Hbx, Hbq. destruct (decide (p = x)) as [<-|Hx].
    + injection Hbx as <-. destruct (decide (p = q)) as [<-|Hqp]; [now injection Hbq as <-|].
      apply (Hpar Hlx q bq); [destruct Hlinks as (<- & _)|]; done.
    + destruct (decide (p = q)) as [<-|Hqp]; [|now apply (Hcl x bx q bq)]. exfalso. apply Hno. now apply (Hcl x bx p b).
  - intros x Hx. apply (same_shape_valid _ _ Hshape). now apply Hinv.
Qed.

Lemma sel_ok_insert st p b : sel_ok address st -> entries st !! p = Some b -> linked b -> sel_ok address (add_candidate address st p) /\
  forall q, q ∈ cands (add_candidate address st p) <-> q = p \/ q ∈ cands st.
Proof.
  intros [Hwf Hw Hch Hg Hs Hv Hl Hcl Hinv] Hb Hlb.
  pose proof (fun q => insert_in address Haddr (entries st) p (cands st) q Hw ltac:(eauto) Hv) as Hin. split; [|exact Hin].
  split; cbn; try done; [now apply insert_sorted; eauto|now apply insert_valid; eauto|].
  intros x bx Hx Hbx. apply Hin in Hx as [->|Hx]; [congruence|now apply (Hl x bx)].
Qed.

Lemma alter_set s p b f : s !! p = Some b -> alter f p s = set_entry p (f b) s.
Proof.
  intros Hb. apply list_eq. intros q. rewrite (set_entry_lookup s p b) by done. rewrite list_lookup_alter.
  destruct (decide (p = q)) as [<-|_]; [now rewrite Hb|done].
Qed.

(** ** Linking blocks *)

(** More blocks may be linked; nothing else that matters changes. *)
Record linked_more (st st' : chainstate) : Prop := {
  lm_shape : same_shape (entries st) (entries st');
  lm_kept : forall q b b', entries st !! q = Some b -> entries st' !! q = Some b' ->
    no_undo b' = no_undo b /\ failed b' = failed b /\ has_data b' = has_data b /\ nFile b' = nFile b /\ (linked b -> linked b');
  lm_active : chainActive st' = chainActive st }.

Lemma linked_more_refl st : linked_more st st.
Proof. split; [done| |done]. intros q b b' H1 H2. rewrite H1 in H2. now injection H2 as <-. Qed.

Lemma linked_more_trans st1 st2 st3 : linked_more st1 st2 -> linked_more st2 st3 -> linked_more st1 st3.
Proof.
  intros [S1 K1 A1] [S2 K2 A2]. split; [now transitivity (entries st2)| |congruence]. intros q b1 b3 H1 H3.
  destruct (same_shape_lookup _ _ S1 q b1 H1) as (b2 & H2 & _). destruct (K1 q b1 b2 H1 H2) as (? & ? & ? & ? & ?).
  destruct (K2 q b2 b3 H2 H3) as (? & ? & ? & ? & ?). repeat split; try congruence. auto.
Qed.

Lemma active_linked st t bt p b : sel_ok address st -> tip st = Some t -> entries st !! t = Some bt -> linked bt ->
  in_chain (entries st) (chainActive st) p -> entries st !! p = Some b -> linked b.
Proof.
  intros Hst Ht Hbt Hl Hin Hb. apply (active_iff address st t Hst Ht) in Hin as [m Hm]. exact (linked_up address st m t bt p b Hst Hbt Hl Hm Hb).
Qed.

Definition with_links (b : CBlockIndex) (n seq : Z) : CBlockIndex := with_nChainTx n seq b.
Lemma with_links_fields b n seq : same_links b (with_links b n seq) /\ nTx (with_links b n seq) = nTx b /\
  nChainTx (with_links b n seq) = n /\ failed (with_links b n seq) = failed b /\ has_data (with_links b n seq) = has_data b /\
  no_undo (with_links b n seq) = no_undo b /\ nFile (with_links b n seq) = nFile b /\ nHeight (with_links b n seq) = nHeight b /\
  nStatus (with_links b n seq) = nStatus b.
Proof. now destruct b. Qed.

(** The entries after block [p] is linked. *)
Section Link.
Context (st : chainstate) (p : nat) (queue : list nat) (t : nat) (bt : CBlockIndex).
Context (Hsel : sel_ok address st) (Hin : inbox_ok st (p :: queue)) (Hc : complete_at address st t).
Context (Ht : tip st = Some t) (Hbt : entries st !! t = Some bt) (Hlt : linked bt).
Context (b : CBlockIndex) (q : nat) (bq : CBlockIndex).
Context (Hb : entries st !! p = Some b) (Hq : pprev b = Some q) (Hw : waits b) (Hbq : entries st !! q = Some bq) (Hlq : linked bq).
Context (seq : Z) (st1 : chainstate).
Context (Es : entries st1 = set_entry p (with_links b (u32 (nChainTx bq + nTx b)) seq) (entries st)).
Context (Ea : chainActive st1 = chainActive st) (Ec : cands st1 = cands st) (Ei : pindexBestInvalid st1 = pindexBestInvalid st).
Context (Eu : mapBlocksUnlinked st1 = mapBlocksUnlinked st).
Let b' := with_links b (u32 (nChainTx bq + nTx b)) seq.

Lemma link_fields : same_links b b' /\ nTx b' = nTx b /\ nChainTx b' = u32 (nChainTx bq + nTx b) /\ failed b' = failed b /\
  has_data b' = has_data b /\ no_undo b' = no_undo b /\ nFile b' = nFile b /\ nHeight b' = nHeight b /\ nStatus b' = nStatus b.
Proof. apply with_links_fields. Qed.

Lemma link_sum : nChainTx b' = tx_sum (entries st) p b /\ linked b'.
Proof.
  destruct (ib_linked _ _ Hin q bq Hbq Hlq) as [_ En]. destruct (ib_txs _ _ Hin p b Hb) as [_ Hn]. specialize (Hn (proj1 Hw)).
  pose proof (tx_sum_step _ p b q bq (so_store _ _ Hsel) Hb Hq Hbq) as Estep. pose proof (ib_bound _ _ Hin p b Hb) as Hbound.
  pose proof (tx_total_nonneg st _ Hin (Z.to_nat (nHeight bq)) q) as Hq0. fold (tx_sum (entries st) q bq) in Hq0.
  assert (E : nChainTx b' = tx_sum (entries st) p b).
  { rewrite (proj1 (proj2 (proj2 link_fields))), En, Estep. rewrite u32_wrap, wrap_small; [lia|lia|unfold in_word; lia]. }
  split; [exact E|]. left. rewrite E. lia.
Qed.

Lemma link_lookup x : entries st1 !! x = if decide (p = x) then Some b' else entries st !! x.
Proof. rewrite Es. now apply set_entry_lookup with b. Qed.

Lemma link_shape : same_shape (entries st) (entries st1).
Proof. rewrite Es. apply (set_entry_shape _ p b); [done|]. apply link_fields. Qed.

Lemma link_more : linked_more st st1.
Proof.
  split; [exact link_shape| |exact Ea]. intros x bx bx' Hx. rewrite link_lookup. destruct (decide (p = x)) as [<-|_].
  - rewrite Hb in Hx. injection Hx as <-. intros [= <-]. destruct link_fields as (_ & _ & _ & ? & ? & ? & ? & _).
    do 4 (split; [done|]). intros _. apply link_sum.
  - rewrite Hx. now intros [= <-].
Qed.

Lemma link_not_active : ~ in_chain (entries st) (chainActive st) p.
Proof. intros Hx. apply (proj2 Hw). exact (active_linked st t bt p b Hsel Ht Hbt Hlt Hx Hb). Qed.

Lemma link_sel : sel_ok address st1.
Proof.
  apply (sel_ok_set st st1 p b b'); try done; [apply Hw|exact link_not_active|apply link_fields|].
  intros _ q' bq' Hq' Hbq'. congruence.
Qed.

Lemma link_total n x : tx_total n (entries st1) x = tx_total n (entries st) x.
Proof.
  apply tx_total_ext. intros y. rewrite link_lookup. destruct (decide (p = y)) as [<-|_].
  - rewrite Hb. destruct link_fields as ((? & _) & ? & _). done.
  - destruct (entries st !! y); done.
Qed.
Lemma link_tx_sum x bx bx' : nHeight bx' = nHeight bx -> tx_sum (entries st1) x bx' = tx_sum (entries st) x bx.
Proof. intros E. unfold tx_sum. now rewrite E, link_total. Qed.

(** The candidates, and what is left of [mapBlocksUnlinked]. *)
Definition added_candidate : chainstate := if negb (less (entries st1) p t) then add_candidate address st1 p else st1.
Definition after_link : chainstate :=
  with_unlinked added_candidate (filter (fun e => e.1 <> Some p) (mapBlocksUnlinked added_candidate)).
Definition waiting_for : list nat := (filter (fun e => e.1 = Some p) (mapBlocksUnlinked st)).*2.

Lemma after_link_fields : index after_link = index st1 /\ chainActive after_link = chainActive st /\
  mapBlocksUnlinked after_link = filter (fun e => e.1 <> Some p) (mapBlocksUnlinked st).
Proof. unfold after_link, added_candidate. destruct (negb _); cbn; now rewrite Eu. Qed.

Lemma link_t : t <> p.
Proof. intros ->. apply (proj2 Hw). congruence. Qed.

Lemma link_sel' : sel_ok address after_link /\ complete_at address after_link t.
Proof.
  assert (Hb' : entries st1 !! p = Some b') by (rewrite link_lookup; now rewrite decide_True).
  destruct (sel_ok_insert st1 p b' link_sel Hb' (proj2 link_sum)) as [Hsel2 Hin2].
  assert (Hcand : sel_ok address added_candidate /\ index added_candidate = index st1 /\
    forall y, y ∈ cands added_candidate <-> y ∈ cands st \/ y = p /\ less (entries st1) p t = false).
  { unfold added_candidate. destruct (less (entries st1) p t); cbn [negb].
    - split; [exact link_sel|]. split; [done|]. intros y. rewrite Ec. intuition done.
    - split; [done|]. split; [done|]. intros y. rewrite Hin2, Ec. intuition congruence. }
  destruct Hcand as (Hsel3 & Eidx & Hin3). split; [now destruct Hsel3; split|].
  intros y by_ Hy Hly Huy Hlessy. destruct after_link_fields as (Ei3 & _ & _). rewrite Ei3 in Hy, Huy, Hlessy.
  apply Hin3. destruct (decide (p = y)) as [<-|Hne]; [now right|]. left.
  rewrite link_lookup, decide_False in Hy by done. apply (Hc y by_ Hy Hly).
  - apply (usable_flags (entries st) (entries st1) y link_shape); [|done]. intros z bz bz' Hz Hz'.
    now destruct (lm_kept _ _ link_more z bz bz' Hz Hz') as (_ & ? & ? & _).
  - rewrite Es, (less_elsewhere _ p b) in Hlessy; [done|done|done|exact link_t].
Qed.

Lemma once_split : (p ∉ queue) /\ (p ∉ (mapBlocksUnlinked st).*2) /\ NoDup (queue ++ (mapBlocksUnlinked st).*2).
Proof.
  pose proof (ib_once _ _ Hin) as H. cbn [app] in H. apply list.NoDup_cons in H as [H1 H2]. rewrite elem_of_app in H1. tauto.
Qed.

Lemma link_inbox : inbox_ok after_link (queue ++ waiting_for).
Proof.
  destruct after_link_fields as (E1 & _ & E3). destruct once_split as (Hnq & Hnu & Hnd).
  assert (Hrange : forall x, x ∈ waiting_for <-> (Some p, x) ∈ mapBlocksUnlinked st).
  { intros x. unfold waiting_for. rewrite list_elem_of_fmap. split.
    - intros ([y1 y2] & -> & [Hy1 Hy2]%list_elem_of_filter). cbn in *. now subst.
    - intros Hx. exists (Some p, x). split; [done|]. now apply list_elem_of_filter. }
  assert (Hpair : forall e x, (e, x) ∈ mapBlocksUnlinked st -> x <> p).
  { intros e x He ->. apply Hnu, list_elem_of_fmap. now exists (e, p). }
  assert (Hold : forall x, x <> p -> entries st1 !! x = entries st !! x) by (intros x Hx; rewrite link_lookup; now rewrite decide_False).
  split; rewrite ?E1, ?E3.
  - intros x bx Hx Hl. rewrite link_lookup in Hx. destruct (decide (p = x)) as [<-|Hne].
    + injection Hx as <-. destruct link_fields as (_ & _ & _ & _ & Ed & _ & _ & Eh & _).
      split; [rewrite Ed; apply Hw|]. rewrite (proj1 link_sum). symmetry. now apply link_tx_sum.
    + rewrite (link_tx_sum x bx bx eq_refl). now apply (ib_linked _ _ Hin).
  - intros x bx Hx. rewrite link_lookup in Hx. destruct (decide (p = x)) as [<-|Hne]; [|now apply (ib_tree _ _ Hin x)].
    injection Hx as <-. destruct link_fields as (_ & _ & _ & _ & _ & _ & _ & _ & Est). unfold in_tree. rewrite Est. now apply (ib_tree _ _ Hin p).
  - intros x bx Hx. rewrite link_lookup in Hx. destruct (decide (p = x)) as [<-|Hne]; [|now apply (ib_txs _ _ Hin x)].
    injection Hx as <-. destruct link_fields as (_ & -> & _ & _ & -> & _). now apply (ib_txs _ _ Hin p).
  - intros x bx Hx. rewrite link_lookup in Hx. destruct (decide (p = x)) as [<-|Hne].
    + injection Hx as <-. rewrite (link_tx_sum p b) by apply link_fields. now apply (ib_bound _ _ Hin).
    + rewrite (link_tx_sum x bx bx eq_refl). now apply (ib_bound _ _ Hin).
  - intros e x [He1 He2]%list_elem_of_filter. cbn in He1. destruct (ib_pairs _ _ Hin e x He2) as (q' & bx & bq' & -> & Hx & Hpx & Hwx & Hq' & Hlq').
    exists q', bx, bq'. rewrite Hold by now apply (Hpair (Some q')). rewrite Hold by congruence. done.
  - intros x [Hx|Hx]%elem_of_app.
    + destruct (ib_queue _ _ Hin x ltac:(now right)) as (bx & q' & bq' & Hbx & Hqx & Hwx & Hbq' & Hlq').
      assert (x <> p) by (now intros ->). rewrite Hold by done. destruct (decide (p = q')) as [<-|Hne].
      * exists bx, p, b'. rewrite link_lookup, decide_True by done. repeat split; try done; [apply Hwx|apply Hwx|apply link_sum].
      * exists bx, q', bq'. rewrite Hold by done. done.
    + apply Hrange in Hx. destruct (ib_pairs _ _ Hin (Some p) x Hx) as (q' & bx & bq' & [= <-] & Hbx & Hqx & Hwx & _).
      exists bx, p, b'. rewrite Hold by now apply (Hpair (Some p)). rewrite link_lookup, decide_True by done.
      repeat split; try done; [apply Hwx|apply Hwx|apply link_sum].
  - rewrite <- app_assoc. unfold waiting_for. rewrite <- fmap_app, (filter_app_complement (fun e : ptr * nat => e.1 = Some p)). exact Hnd.
  - intros x bx q' bq' Hbx Hwx Hqx Hbq' Hf. assert (Hxp : x <> p).
    { intros ->. rewrite link_lookup, decide_True in Hbx by done. injection Hbx as <-. apply (proj2 Hwx), link_sum. }
    rewrite Hold in Hbx by done. assert (Hf' : exists b0, entries st !! q' = Some b0 /\ failed b0 = false).
    { destruct (same_shape_back _ _ q' bq' link_shape Hbq') as (b0 & Hb0 & _). exists b0. split; [done|].
      destruct (lm_kept _ _ link_more q' b0 bq' Hb0 Hbq') as (_ & <- & _). done. }
    destruct Hf' as (b0 & Hb0 & Hf0). destruct (ib_waiting _ _ Hin x bx q' b0 Hbx Hwx Hqx Hb0 Hf0) as [Hx|Hx].
    + apply elem_of_cons in Hx as [->|Hx]; [done|]. left. apply elem_of_app. now left.
    + destruct (decide (q' = p)) as [->|Hne]; [left; apply elem_of_app; right; now apply Hrange|].
      right. apply list_elem_of_filter. split; [cbn; congruence|done].
Qed.
End Link.

Lemma link_queue_spec fuel : forall queue st t bt, sel_ok address st -> inbox_ok st queue -> complete_at address st t ->
  tip st = Some t -> entries st !! t = Some bt -> linked bt -> (length queue + length (mapBlocksUnlinked st) <= fuel)%nat ->
  exists st', link_queue address fuel queue st = Some st' /\ sel_ok address st' /\ inbox_ok st' [] /\ complete_at address st' t /\
    linked_more st st'.
Proof.
  induction fuel as [|fuel IH]; intros [|p queue] st t bt Hsel Hin Hc Ht Hbt Hlt Hf; cbn [link_queue length] in *;
    try (exists st; do 4 (split; [done|]); apply linked_more_refl); [lia|].
  destruct (ib_queue _ _ Hin p ltac:(now left)) as (b & q & bq & Hb & Hq & Hw & Hbq & Hlq).
  rewrite Hb. cbn [mbind option_bind]. rewrite Hq, Hbq. cbn [mbind option_bind].
  set (st1 := with_sequence _ _). assert (Ht1 : tip st1 = Some t) by exact Ht. rewrite Ht1.
  assert (Es : entries st1 = set_entry p (with_links b (u32 (nChainTx bq + nTx b)) (nBlockSequenceId st)) (entries st)).
  { unfold st1. cbn. now apply (alter_set _ p b). }
  assert (Hnext : sel_ok address (after_link p t st1) /\ complete_at address (after_link p t st1) t)
    by (eapply link_sel'; eassumption || reflexivity).
  destruct Hnext as [Hsel' Hc'].
  assert (Hin' : inbox_ok (after_link p t st1) (queue ++ waiting_for st p)) by (eapply link_inbox; eassumption || reflexivity).
  assert (Hm1 : linked_more st st1) by (eapply link_more; eassumption || reflexivity).
  destruct (after_link_fields st p t st1 eq_refl) as (E1 & E2 & E3); [reflexivity|].
  change (if negb (less (entries st1) p t) then add_candidate address st1 p else st1) with (added_candidate p t st1).
  change (with_unlinked (added_candidate p t st1) (filter (fun e => e.1 <> Some p) (mapBlocksUnlinked (added_candidate p t st1))))
    with (after_link p t st1).
  assert (Eu : mapBlocksUnlinked (added_candidate p t st1) = mapBlocksUnlinked st) by (unfold added_candidate; now destruct (negb _)).
  rewrite Eu. change ((filter (fun e : ptr * nat => e.1 = Some p) (mapBlocksUnlinked st)).*2) with (waiting_for st p).
  set (st3 := after_link p t st1) in *.
  assert (Hm3 : linked_more st st3).
  { apply (linked_more_trans st st1); [exact Hm1|]. split; [now rewrite E1|rewrite E1|done].
    intros y by_ by' H1 H2. rewrite H1 in H2. now injection H2 as <-. }
  destruct (same_shape_lookup _ _ (lm_shape _ _ Hm3) t bt Hbt) as (bt' & Hbt' & _).
  destruct (lm_kept _ _ Hm3 t bt bt' Hbt Hbt') as (_ & _ & _ & _ & Hlt').
  destruct (IH (queue ++ waiting_for st p) st3 t bt' Hsel' Hin' Hc') as (st' & -> & Hsel2 & Hin2 & Hc2 & Hm2); try done; [unfold tip; now rewrite E2|auto| |].
  - rewrite E3, length_app. unfold waiting_for. rewrite length_fmap.
    assert (E : (length (filter (fun e : ptr * nat => e.1 = Some p) (mapBlocksUnlinked st)) +
      length (filter (fun e : ptr * nat => e.1 <> Some p) (mapBlocksUnlinked st)) = length (mapBlocksUnlinked st))%nat).
    { rewrite <- length_app. apply Permutation_length, filter_app_complement. }
    lia.
  - exists st'. do 4 (split; [done|]). now apply (linked_more_trans st st3).
Qed.

(** ** Receiving a block *)

Lemma block_data_fields n file pos b : let b' := with_block_data n file pos b in
  same_links b b' /\ nTx b' = n /\ nChainTx b' = 0 /\ failed b' = failed b /\ has_data b' = true /\ nFile b' = file /\
  (Z.testbit (nStatus b) 4 = false -> no_undo b' = true).
Proof.
  intros b'. assert (E : nStatus b' = nStatus b .| BLOCK_HAVE_DATA) by (now destruct b).
  assert (Hbit : forall k, Z.testbit (nStatus b') k = Z.testbit (nStatus b) k || Z.testbit BLOCK_HAVE_DATA k) by (intros k; rewrite E; apply Z.lor_spec).
  split; [now destruct b|]. split; [now destruct b|]. split; [now destruct b|]. rewrite !failed_bits, has_data_bit, !Hbit.
  change (Z.testbit BLOCK_HAVE_DATA 5) with false. change (Z.testbit BLOCK_HAVE_DATA 6) with false.
  change (Z.testbit BLOCK_HAVE_DATA 3) with true. rewrite !orb_false_r, orb_true_r. split; [done|]. split; [done|]. split; [now destruct b|].
  intros Hu. unfold no_undo, GetUndoPos. rewrite (flag_bit _ BLOCK_HAVE_UNDO 4), Hbit, Hu by done. done.
Qed.

(** Sums that do not have block [p]. *)
Lemma tx_total_avoid s p b b1 : s !! p = Some b -> forall n x, (forall m, up s m x <> Some p) ->
  tx_total n (set_entry p b1 s) x = tx_total n s x.
Proof.
  intros Hb. induction n as [|n IH]; intros x Hx; cbn [tx_total];
    rewrite (set_entry_lookup s p b), decide_False by (done || (intros ->; now apply (Hx 0%nat))); [done|].
  destruct (s !! x) as [bx|] eqn:Ebx; [|done]. destruct (pprev bx) as [y|] eqn:Ey; [|done]. rewrite IH; [done|].
  intros m Hm. apply (Hx (S m)). cbn [up]. rewrite Ebx. cbn [mbind option_bind]. now rewrite Ey.
Qed.

(** The store after the first changes of entry [p], from [b] to [b1]. *)
Section Receive.
Context (st : chainstate) (p : nat) (t : nat) (bt : CBlockIndex).
Context (Hsel : sel_ok address st) (Hin : inbox_ok st []) (Hc : complete_at address st t).
Context (Ht : tip st = Some t) (Hbt : entries st !! t = Some bt) (Hlt : linked bt).
Context (b b1 : CBlockIndex) (q : nat) (bq : CBlockIndex).
Context (Hb : entries st !! p = Some b) (Hnew : has_data b = false) (Hq : pprev b = Some q) (Hbq : entries st !! q = Some bq).
Context (Hintree : in_tree b1) (Hlinks : same_links b b1) (Hdata : has_data b1 = true) (Hzero : nChainTx b1 = 0) (Hfail : failed b1 = failed b) (Htx : 0 < nTx b1).
Context (Hbound : forall x bx, set_entry p b1 (entries st) !! x = Some bx -> tx_sum (set_entry p b1 (entries st)) x bx < 2 ^ 32).

Lemma new_not_linked : ~ linked b /\ ~ linked b1.
Proof.
  assert (H : ~ linked b) by (intros Hl; destruct (ib_linked _ _ Hin p b Hb Hl); congruence). split; [done|].
  destruct Hlinks as (_ & _ & Eh & _). unfold linked in *. rewrite Eh, Hzero. tauto.
Qed.

Lemma new_lookup x : set_entry p b1 (entries st) !! x = if decide (p = x) then Some b1 else entries st !! x.
Proof. now apply set_entry_lookup with b. Qed.

Lemma new_shape : same_shape (entries st) (set_entry p b1 (entries st)).
Proof. now apply (set_entry_shape _ p b). Qed.

(** The new block is not below a linked one. *)
Lemma new_not_below x bx m : entries st !! x = Some bx -> linked bx -> up (entries st) m x <> Some p.
Proof. intros Hx Hl Hm. apply (proj1 new_not_linked). exact (linked_up address st m x bx p b Hsel Hx Hl Hm Hb). Qed.

Section State.
Context (st1 : chainstate) (Es : entries st1 = set_entry p b1 (entries st)).
Context (Ea : chainActive st1 = chainActive st) (Ec : cands st1 = cands st) (Ei : pindexBestInvalid st1 = pindexBestInvalid st).

Lemma receive_sel : sel_ok address st1 /\ complete_at address st1 t.
Proof.
  destruct new_not_linked as [Hno Hno1]. split.
  - apply (sel_ok_set st st1 p b b1); try done. intros Hx. exact (Hno (active_linked st t bt p b Hsel Ht Hbt Hlt Hx Hb)).
  - intros y by_ Hy Hly Huy Hless. rewrite Es, new_lookup in Hy. destruct (decide (p = y)) as [<-|Hne]; [now injection Hy as <-|].
    rewrite Ec. apply (Hc y by_ Hy Hly).
    + destruct Huy as [_ Huy]. split; [eauto|]. intros m z bz Hm Hz. apply (Huy m z bz); rewrite Es.
      * now rewrite (same_shape_up _ _ new_shape).
      * rewrite new_lookup, decide_False; [done|]. intros <-. now apply (new_not_below y by_ m).
    + rewrite Es, (less_elsewhere _ p b) in Hless; [done|done|done|]. intros ->. apply Hno. congruence.
Qed.

(** Where the block waits. *)
Context (queue : list nat) (pairs : list (ptr * nat)) (Eu : mapBlocksUnlinked st1 = mapBlocksUnlinked st ++ pairs).
Context (Hwhere : linked bq /\ queue = [p] /\ pairs = [] \/ ~ linked bq /\ queue = [] /\ pairs = [(Some q, p)] \/
  ~ linked bq /\ failed bq = true /\ queue = [] /\ pairs = []).

Lemma old_pairs e x : (e, x) ∈ mapBlocksUnlinked st -> x <> p.
Proof.
  intros He ->. destruct (ib_pairs _ _ Hin e p He) as (q' & bx & bq' & _ & Hx & _ & [Hd _] & _). congruence.
Qed.

Lemma receive_once : NoDup (queue ++ (mapBlocksUnlinked st1).*2).
Proof.
  pose proof (ib_once _ _ Hin) as H. cbn [app] in H. rewrite Eu, fmap_app.
  assert (Hp : p ∉ (mapBlocksUnlinked st).*2) by (intros ([e x] & E & He)%list_elem_of_fmap; apply old_pairs in He; cbn in E; congruence).
  destruct Hwhere as [(_ & -> & ->)|[(_ & -> & ->)|(_ & _ & -> & ->)]]; cbn [fmap list_fmap app snd]; rewrite ?app_nil_r; [now constructor| |done].
  apply list.NoDup_app. split; [done|]. split; [|apply NoDup_singleton]. intros x Hx Hxp%list_elem_of_singleton. now rewrite Hxp in Hx.
Qed.

Lemma receive_inbox : inbox_ok st1 queue.
Proof.
  destruct new_not_linked as [Hno Hno1].
  assert (Hqp : q <> p).
  { intros ->. pose proof (eo_prev _ _ _ (so_store _ _ Hsel p b Hb)) as Hprev. rewrite Hq in Hprev. destruct Hprev as (bp & Hbp & Eh).
    rewrite Hb in Hbp. injection Hbp as <-. lia. }
  assert (Hbq1 : entries st1 !! q = Some bq) by (rewrite Es, new_lookup; now rewrite decide_False).
  assert (Hb1 : entries st1 !! p = Some b1) by (rewrite Es, new_lookup; now rewrite decide_True).
  assert (Hq1 : pprev b1 = Some q) by (destruct Hlinks as (-> & _); done). assert (Hw1 : waits b1) by now split.
  split; [| | | | | |exact receive_once|].
  - intros x bx Hx Hl. rewrite Es in Hx |- *. rewrite new_lookup in Hx. destruct (decide (p = x)) as [<-|Hne]; [now injection Hx as <-|].
    unfold tx_sum. rewrite (tx_total_avoid _ p b b1 Hb); [now apply (ib_linked _ _ Hin)|]. intros m. now apply (new_not_below x bx).
  - intros x bx Hx. rewrite Es, new_lookup in Hx. destruct (decide (p = x)) as [<-|Hne]; [now injection Hx as <-|now apply (ib_tree _ _ Hin x)].
  - intros x bx Hx. rewrite Es, new_lookup in Hx. destruct (decide (p = x)) as [<-|Hne]; [|now apply (ib_txs _ _ Hin x)].
    injection Hx as <-. split; [lia|done].
  - intros x bx Hx. rewrite Es in Hx |- *. now apply Hbound.
  - intros e x He. rewrite Eu in He. apply elem_of_app in He as [He|He].
    + pose proof (old_pairs _ _ He) as Hne. destruct (ib_pairs _ _ Hin e x He) as (q' & bx & bq' & -> & Hx & Hpx & Hwx & Hq' & Hlq').
      assert (Hx1 : entries st1 !! x = Some bx) by (rewrite Es, new_lookup; now rewrite decide_False).
      destruct (decide (p = q')) as [<-|Hne'].
      * exists p, bx, b1. done.
      * exists q', bx, bq'. rewrite Es, (new_lookup q'), decide_False, <- Es by done. done.
    + destruct Hwhere as [(_ & _ & E)|[(Hnl & _ & E)|(_ & _ & _ & E)]]; rewrite E in He; try now apply not_elem_of_nil in He.
      apply list_elem_of_singleton in He as [= -> ->]. exists q, b1, bq. done.
  - intros x Hx. destruct Hwhere as [(Hl & E & _)|[(_ & E & _)|(_ & _ & E & _)]]; rewrite E in Hx; try now apply not_elem_of_nil in Hx.
    apply list_elem_of_singleton in Hx as ->. exists b1, q, bq. done.
  - intros x bx q' bq' Hbx Hwx Hqx Hbq' Hf. rewrite Eu. destruct (decide (p = x)) as [<-|Hne].
    + rewrite Hb1 in Hbx. injection Hbx as <-. rewrite Hq1 in Hqx. injection Hqx as <-. rewrite Hbq1 in Hbq'. injection Hbq' as <-.
      destruct Hwhere as [(_ & -> & _)|[(_ & _ & ->)|(_ & Hf' & _)]]; [left; now left| |congruence].
      right. apply elem_of_app. right. now left.
    + rewrite Es, new_lookup, decide_False in Hbx by done. assert (Hold : exists b0, entries st !! q' = Some b0 /\ failed b0 = false).
      { rewrite Es, new_lookup in Hbq'. destruct (decide (p = q')) as [<-|_]; [|now exists bq']. injection Hbq' as <-.
        exists b. split; [done|congruence]. }
      destruct Hold as (b0 & Hb0 & Hf0). destruct (ib_waiting _ _ Hin x bx q' b0 Hbx Hwx Hqx Hb0 Hf0) as [Hx|Hx];
        [now apply not_elem_of_nil in Hx|]. right. apply elem_of_app. now left.
Qed.
End State.
End Receive.

(** The sums with the new block. *)
Lemma not_below_itself s p b q m : wf_store s -> s !! p = Some b -> pprev b = Some q -> up s m q <> Some p.
Proof.
  intros Hwf Hb Hq Hm. pose proof (eo_prev _ _ _ (Hwf p b Hb)) as Hprev. rewrite Hq in Hprev. destruct Hprev as (bq & Hbq & Eh).
  destruct (Z.le_gt_cases (Z.of_nat m) (nHeight bq)) as [Hle|Hgt].
  - destruct (up_height s Hwf m q bq Hbq Hle) as (p' & b' & E & Hb' & E2). rewrite Hm in E. injection E as <-.
    rewrite Hb in Hb'. injection Hb' as <-. lia.
  - now rewrite (up_beyond s Hwf m q bq Hbq) in Hm by lia.
Qed.

Lemma tx_total_le st p b b1 : sel_ok address st -> entries st !! p = Some b -> same_links b b1 -> 0 <= nTx b -> 0 <= nTx b1 ->
  forall k x, tx_total k (set_entry p b1 (entries st)) x <= tx_total k (entries st) x + nTx b1.
Proof.
  intros Hsel Hb (Ep & _) Hn Hn1. pose proof (so_store _ _ Hsel) as Hwf.
  induction k as [|k IH]; intros x; cbn [tx_total]; rewrite (set_entry_lookup _ p b) by done.
  - destruct (decide (p = x)) as [<-|Hne]; [rewrite Hb; lia|]. destruct (entries st !! x); lia.
  - destruct (decide (p = x)) as [<-|Hne].
    + rewrite Hb, Ep. destruct (pprev b) as [y|] eqn:Ey; [|lia]. rewrite (tx_total_avoid _ p b b1 Hb); [lia|].
      intros m. now apply (not_below_itself _ p b y m).
    + destruct (entries st !! x) as [bx|]; [|lia]. destruct (pprev bx) as [y|]; [|lia]. specialize (IH y). lia.
Qed.

(** The state after receiving block [p], which is stored in [file]. *)
Record received (st st' : chainstate) (p : nat) (file : Z) : Prop := {
  rv_shape : same_shape (entries st) (entries st');
  rv_kept : forall q b b', q <> p -> entries st !! q = Some b -> entries st' !! q = Some b' ->
    no_undo b' = no_undo b /\ failed b' = failed b /\ has_data b' = has_data b /\ nFile b' = nFile b /\ (linked b -> linked b');
  rv_block : forall b b', entries st !! p = Some b -> entries st' !! p = Some b' ->
    no_undo b' = true /\ failed b' = failed b /\ has_data b' = true /\ nFile b' = file;
  rv_active : chainActive st' = chainActive st }.

Lemma received_linked st st1 st2 p file : received st st1 p file -> linked_more st1 st2 -> received st st2 p file.
Proof.
  intros [S1 K1 B1 A1] [S2 K2 A2]. split; [now transitivity (entries st1)| | |congruence].
  - intros q b b2 Hne Hb Hb2. destruct (same_shape_lookup _ _ S1 q b Hb) as (b1 & Hb1 & _).
    destruct (K1 q b b1 Hne Hb Hb1) as (? & ? & ? & ? & ?), (K2 q b1 b2 Hb1 Hb2) as (? & ? & ? & ? & ?). repeat split; try congruence. auto.
  - intros b b2 Hb Hb2. destruct (same_shape_lookup _ _ S1 p b Hb) as (b1 & Hb1 & _).
    destruct (B1 b b1 Hb Hb1) as (? & ? & ? & ?), (K2 p b1 b2 Hb1 Hb2) as (? & ? & ? & ? & ?). repeat split; congruence.
Qed.

(** There is room for [n] more transactions. *)
Definition room (s : store) (n : Z) : Prop := forall x bx, s !! x = Some bx -> tx_sum s x bx + n < 2 ^ 32.

Lemma ReceivedBlockTransactions_spec st p n file pos t bt b : sel_ok address st -> inbox_ok st [] -> complete_at address st t ->
  tip st = Some t -> entries st !! t = Some bt -> linked bt ->
  entries st !! p = Some b -> has_data b = false -> Z.testbit (nStatus b) 4 = false -> 0 < n -> room (entries st) n ->
  exists st', ReceivedBlockTransactions address st p n file pos = Some st' /\
    sel_ok address st' /\ inbox_ok st' [] /\ complete_at address st' t /\ received st st' p file.
Proof.
  intros Hsel Hin Hc Ht Hbt Hlt Hb Hnew Hundo Hn Hroom. pose proof (so_store _ _ Hsel) as Hwf.
  destruct (block_data_fields n file pos b) as (Hl0 & Htx0 & Hz0 & Hf0 & Hd0 & Hfile0 & Hu0). specialize (Hu0 Hundo).
  set (b0 := with_block_data n file pos b) in *.
  destruct (RaiseValidity_like BLOCK_VALID_TRANSACTIONS b0 ltac:(set_solver)) as (raised & b1 & Eraise & (Hsb & Hf1 & Hd1 & Hi1) & Hu1 & Hfile1).
  destruct (same_block_fields _ _ Hsb) as (Ep1 & Es1 & Eh1 & Ew1 & _ & En1).
  assert (Htx1 : nTx b1 = n) by (clear -Hsb Htx0; destruct b0, b1; injection Hsb; cbn in *; congruence).
  assert (Hlinks : same_links b b1) by (destruct Hl0 as (? & ? & ? & ?); repeat split; congruence).
  destruct (ib_txs _ _ Hin p b Hb) as [Hnn _].
  assert (Hbound : forall x bx, set_entry p b1 (entries st) !! x = Some bx -> tx_sum (set_entry p b1 (entries st)) x bx < 2 ^ 32).
  { intros x bx Hx. destruct (same_shape_back _ _ x bx (set_entry_shape _ p b b1 Hb Hlinks) Hx) as (bx0 & Hbx0 & _ & _ & Eh & _).
    unfold tx_sum. rewrite Eh. pose proof (tx_total_le st p b b1 Hsel Hb Hlinks Hnn ltac:(lia) (Z.to_nat (nHeight bx0)) x).
    specialize (Hroom x bx0 Hbx0). unfold tx_sum in Hroom. lia. }
  assert (Hq : exists q bq, pprev b = Some q /\ entries st !! q = Some bq).
  { pose proof (eo_prev _ _ _ (Hwf p b Hb)) as Hprev. destruct (pprev b) as [q|]; [destruct Hprev as (bq & Hbq & _); eauto|].
    destruct (ib_linked _ _ Hin p b Hb ltac:(now right)). congruence. }
  destruct Hq as (q & bq & Hq & Hbq).
  assert (Htree1 : in_tree b1).
  { apply Hi1. unfold in_tree, b0. replace (nStatus (with_block_data n file pos b)) with (nStatus b .| BLOCK_HAVE_DATA) by (now destruct b).
    rewrite Z.land_lor_distr_l. change (BLOCK_HAVE_DATA .& BLOCK_VALID_MASK) with 0. rewrite Z.lor_0_r. exact (ib_tree _ _ Hin p b Hb). }
  unfold ReceivedBlockTransactions. cbn [heap update_entry]. rewrite list_lookup_alter, decide_True by done. rewrite Hb.
  cbn [fmap option_fmap option_map mbind option_bind]. fold b0. rewrite Eraise. cbn [mbind option_bind].
  set (st1 := with_index st _).
  assert (Es : entries st1 = set_entry p b1 (entries st)).
  { apply list_eq. intros x. rewrite (set_entry_lookup _ p b) by done. unfold st1. cbn. rewrite !list_lookup_alter.
    destruct (decide (p = x)) as [<-|_]; [|done]. rewrite decide_True by done. now rewrite Hb. }
  assert (Hqp : p <> q).
  { intros ->. now apply (not_below_itself _ q b q 0 Hwf Hb Hq). }
  assert (Hd1' : has_data b1 = true) by congruence. assert (Hz1 : nChainTx b1 = 0) by congruence.
  assert (Hf1' : failed b1 = failed b) by congruence. assert (Htx : 0 < nTx b1) by lia.
  assert (Eq1 : entries st1 !! q = Some bq) by (rewrite Es, (set_entry_lookup _ p b), decide_False; done).
  rewrite Ep1, (proj1 Hl0), Hq, Eq1. cbn [mbind option_bind].
  assert (Hlq : linked bq <-> nChainTx bq <> 0) by (exact (linked_count st [] q bq Hin Hbq)).
  assert (Hsel1 : forall st', entries st' = set_entry p b1 (entries st) -> chainActive st' = chainActive st -> cands st' = cands st ->
    pindexBestInvalid st' = pindexBestInvalid st -> sel_ok address st' /\ complete_at address st' t)
    by (intros; apply (receive_sel st p) with (bt := bt) (b := b) (b1 := b1); assumption).
  assert (Hin1 : forall st' queue pairs, entries st' = set_entry p b1 (entries st) -> mapBlocksUnlinked st' = mapBlocksUnlinked st ++ pairs ->
    linked bq /\ queue = [p] /\ pairs = [] \/ ~ linked bq /\ queue = [] /\ pairs = [(Some q, p)] \/
    ~ linked bq /\ failed bq = true /\ queue = [] /\ pairs = [] -> inbox_ok st' queue)
    by (intros; apply (receive_inbox st p) with (bt := bt) (b := b) (b1 := b1) (q := q) (bq := bq) (pairs := pairs); assumption).
  assert (Hrec : forall st', entries st' = set_entry p b1 (entries st) -> chainActive st' = chainActive st -> received st st' p file).
  { intros st' E1 E2. split; [rewrite E1; now apply (set_entry_shape _ p b)| | |done]; intros x bx; rewrite E1.
    - intros bx' Hne Hx. rewrite (set_entry_lookup _ p b), decide_False, Hx by done. now intros [= <-].
    - intros Hx. rewrite (set_entry_lookup _ p b), decide_True by done. rewrite Hb in Hx. injection Hx as <-. intros [= <-].
      repeat split; congruence. }
  destruct (Z.eqb_spec (nChainTx bq) 0) as [Ez|Hnz]; cbn [negb].
  - destruct (IsValid BLOCK_VALID_TREE bq) eqn:Ev.
    + eexists. split; [reflexivity|]. destruct (Hsel1 (with_unlinked st1 (mapBlocksUnlinked st1 ++ [(Some q, p)])) Es eq_refl eq_refl eq_refl).
      split; [done|]. split; [|split; [done|now apply Hrec]]. apply (Hin1 (with_unlinked st1 (mapBlocksUnlinked st1 ++ [(Some q, p)])) [] [(Some q, p)] Es); [done|]. right. left. tauto.
    + exists st1. split; [done|]. destruct (Hsel1 st1 Es eq_refl eq_refl eq_refl). split; [done|]. split; [|split; [done|now apply Hrec]].
      apply (Hin1 _ [] [] Es); [now rewrite app_nil_r|]. right. right. split; [tauto|]. split; [|done].
      pose proof (ib_tree _ _ Hin q bq Hbq) as Hi. unfold IsValid, in_tree in *. destruct (failed bq); [done|]. lia.
  - destruct (Hsel1 st1 Es eq_refl eq_refl eq_refl) as [Hs1 Hc1].
    assert (Hi1' : inbox_ok st1 [p]) by (apply (Hin1 _ [p] [] Es); [now rewrite app_nil_r|left; tauto]).
    assert (Htp : entries st1 !! t = Some bt).
    { rewrite Es, (set_entry_lookup _ p b), decide_False; [done| |done]. intros ->. rewrite Hb in Hbt. injection Hbt as <-.
      destruct (ib_linked _ _ Hin t b Hb Hlt). congruence. }
    destruct (link_queue_spec (S (length (mapBlocksUnlinked st1))) [p] st1 t bt Hs1 Hi1' Hc1 Ht Htp Hlt) as (st' & -> & H1 & H2 & H3 & H4); [cbn; lia|].
    exists st'. do 4 (split; [done|]). apply (received_linked st st1); [now apply Hrec|done].
Qed.
End Change.

(** ** Adding a header *)

(** The entry of a new header, below one of the index, with more work than it. *)
Record new_header (s : store) (b : CBlockIndex) : Prop := {
  nw_entry : new_entry s b;
  nw_parent : exists q bq, pprev b = Some q /\ s !! q = Some bq /\ value (nChainWork bq) < value (nChainWork b);
  nw_work : num (nChainWork b);
  nw_txs : nTx b = 0 /\ nChainTx b = 0;
  nw_status : nStatus b = BLOCK_VALID_TREE;
  nw_file : nFile b <> -1 }.

(** A header whose parent is known, and which proves some work, so that the sum does not overflow. *)
Record header_ok (GetHash : CBlockHeader -> list Z) (i : index_state) (block : CBlockHeader) : Prop := {
  hk_header : new_header_ok GetHash block;
  hk_parent : exists q bq, mapBlockIndex i !! hashPrevBlock block = Some q /\ heap i !! q = Some bq /\
    value (nChainWork bq) + work_of (PowHash.nBits block) < 2 ^ 256;
  hk_work : 0 < work_of (PowHash.nBits block) }.

(** [AddToBlockIndex] appends such an entry, unless the header is known. *)
Lemma AddToBlockIndex_new_header GetHash block st : index_ok st -> header_ok GetHash st block ->
  exists i p, AddToBlockIndex GetHash block st = Some (i, p) /\ index_ok i /\
    (i = st \/ exists b, heap i = heap st ++ [b] /\ new_header (heap st) b).
Proof.
  intros Hst [Hb (q & bq & Hprev & Hq & Hsum) Hwork]. destruct (mapBlockIndex st !! GetHash block) as [p|] eqn:Hnew.
  - exists st, p. unfold AddToBlockIndex. rewrite Hnew. split; [done|]. split; [done|now left].
  - destruct (AddToBlockIndex_new GetHash block st Hb Hst Hnew) as (b & best & E & Had & Hbest).
    eexists _, _. split; [exact E|]. split; [exact (index_ok_added GetHash block st Hb Hst Hnew b best Had Hbest)|].
    right. exists b. split; [done|]. destruct Had as [Hentry Hp _ Hbits _ Hstatus (_ & _ & _ & Htx & Hctx & Hfile) Hnum Hval].
    rewrite Hprev in Hp. split; try done.
    + exists q, bq. split; [done|]. split; [done|]. rewrite Hval, Hbits. unfold work_before. rewrite Hp, Hq.
      destruct (io_work _ Hst q bq Hq) as [Hn _]. pose proof (num_range _ Hn). rewrite Z.mod_small; lia.
    + now rewrite Hfile.
Qed.

Section Header.
Variable address : nat -> Z.
Context (st : chainstate) (b : CBlockIndex) (i : index_state) (t : nat).
Context (Hsel : sel_ok address st) (Hin : inbox_ok st []) (Hc : complete_at address st t) (Ht : tip st = Some t).
Context (Hnew : new_header (entries st) b) (Ei : heap i = entries st ++ [b]).

Lemma header_extends : extends (entries st) (entries st ++ [b]).
Proof. intros p bp Hp. exists bp. split; [now apply lookup_old|done]. Qed.

Lemma header_up n p : is_Some (entries st !! p) -> up (entries st ++ [b]) n p = up (entries st) n p.
Proof. apply extends_up; [apply (so_store _ _ Hsel)|exact header_extends]. Qed.

Lemma header_height : 0 < nHeight b /\ ~ linked b /\ has_data b = false /\ failed b = false /\ no_undo b = true /\ in_tree b.
Proof.
  destruct (nw_parent _ _ Hnew) as (q & bq & Hq & Hbq & _). pose proof (nw_entry _ _ Hnew) as He. unfold new_entry in He. rewrite Hq in He.
  destruct He as (bq' & Hbq' & Eh & _). pose proof (eo_height _ _ _ (so_store _ _ Hsel q bq' Hbq')).
  split; [lia|]. unfold linked. destruct (nw_txs _ _ Hnew) as [_ ->]. split; [lia|].
  unfold has_data, failed, no_undo, GetUndoPos, in_tree. now rewrite (nw_status _ _ Hnew).
Qed.

Lemma header_less x y : is_Some (entries st !! x) -> is_Some (entries st !! y) ->
  work_less address (entries st ++ [b]) x y = work_less address (entries st) x y.
Proof. intros [bx Hx] [by_ Hy]. unfold work_less. now rewrite Hx, Hy, (lookup_old _ b _ _ Hx), (lookup_old _ b _ _ Hy). Qed.

Lemma header_usable x : is_Some (entries st !! x) -> usable (entries st ++ [b]) x -> usable (entries st) x.
Proof.
  intros Hx [_ Hu]. split; [done|]. intros m q bq Hm Hbq. apply (Hu m q bq); [now rewrite header_up|now apply lookup_old].
Qed.

Lemma header_sums n x : is_Some (entries st !! x) -> tx_total n (entries st ++ [b]) x = tx_total n (entries st) x.
Proof.
  revert x. induction n as [|n IH]; intros x [bx Hx]; cbn [tx_total]; rewrite Hx, (lookup_old _ b _ _ Hx); [done|].
  pose proof (eo_prev _ _ _ (so_store _ _ Hsel x bx Hx)) as Hp. destruct (pprev bx) as [y|]; [|done]. destruct Hp as (by_ & Hy & _).
  rewrite IH; eauto.
Qed.

Lemma header_sel : sel_ok address (with_index st i).
Proof.
  pose proof Hsel as [Hwf Hw Hch Hg Hs Hv Hl Hcl Hinv]. destruct header_height as (Hh & Hno & _).
  assert (Hwf' : wf_store (entries st ++ [b])) by (apply wf_store_snoc; [done|apply Hnew]).
  assert (Hvalid : forall p, is_Some (entries st !! p) -> is_Some ((entries st ++ [b]) !! p)).
  { intros p [bp Hp]. exists bp. now apply lookup_old. }
  assert (Hch' : forall v, chain_ok (entries st) v -> chain_ok (entries st ++ [b]) v).
  { intros v [->|(p & bp & Hp & ->)]; [now left|right]. exists p, bp. split; [now apply lookup_old|]. unfold chain_to.
    apply list_fmap_ext. intros k x _. rewrite header_up by eauto. done. }
  split; cbn [index with_index setBlockIndexCandidates chainActive pindexBestInvalid]; rewrite Ei.
  - exact Hwf'.
  - intros p bp [Hp|[-> ->]]%lookup_snoc_cases; [now apply (Hw p)|apply Hnew].
  - now apply Hch'.
  - destruct (active_iff address st t Hsel Ht) as [[bt Hbt] Hact].
    assert (Hactive : forall p, in_chain (entries st ++ [b]) (chainActive st) p -> in_chain (entries st) (chainActive st) p).
    { intros p Hp. unfold in_chain, Contains in *. destruct ((entries st ++ [b]) !! p) as [bp|] eqn:Hbp; [|done].
      apply lookup_snoc_cases in Hbp as [Hbp|[-> ->]]; [now rewrite Hbp|]. exfalso. cbn [mbind option_bind] in Hp.
      injection Hp as Hp. apply bool_decide_eq_true in Hp. unfold chain_at in Hp.
      destruct ((nHeight b <? 0) || (Z.of_nat (length (chainActive st)) <=? nHeight b)); [done|].
      destruct (chainActive st !! Z.to_nat (nHeight b)) as [e|] eqn:Ee; [|done]. cbn in Hp. subst e.
      destruct (chain_ok_path_below _ Hwf _ (Z.to_nat (nHeight b)) Hch _ _ (le_n _) Ee) as [(br & Hbr & _) _].
      apply lookup_lt_Some in Hbr. lia. }
    intros p bp Hp Hbp. apply Hactive in Hp. apply lookup_snoc_cases in Hbp as [Hbp|[-> ->]]; [now apply (Hg p)|].
    unfold in_chain, Contains in Hp. destruct (entries st !! length (entries st)) eqn:E; [|done]. apply lookup_lt_Some in E. lia.
  - assert (Hv' : forall x, x ∈ setBlockIndexCandidates st -> is_Some (entries st !! x)) by (unfold valid_ptrs in Hv; now rewrite list.Forall_forall in Hv).
    unfold sorted in *. clear -Hs Hv'. induction Hs as [|x l Hl IH Hx]; [constructor|]. constructor.
    + apply IH. intros y Hy. apply Hv'. now right.
    + apply list.Forall_forall. intros y Hy. rewrite header_less by (apply Hv'; (now left || now right)).
      rewrite list.Forall_forall in Hx. now apply Hx.
  - unfold valid_ptrs in *. rewrite list.Forall_forall in Hv |- *. auto.
  - intros p bp Hp [Hbp|[-> ->]]%lookup_snoc_cases; [now apply (Hl p)|]. unfold valid_ptrs in Hv. rewrite list.Forall_forall in Hv.
    destruct (Hv _ Hp) as [bx Hx]. apply lookup_lt_Some in Hx. lia.
  - intros p bp q bq [Hbp|[-> ->]]%lookup_snoc_cases Hq Hbq Hlp; [|done]. apply (Hcl p bp q bq Hbp Hq); [|done].
    pose proof (eo_prev _ _ _ (Hwf p bp Hbp)) as Hprev. rewrite Hq in Hprev. destruct Hprev as (bq' & Hbq' & _).
    rewrite (lookup_old _ b _ _ Hbq') in Hbq. congruence.
  - intros p Hp. apply Hvalid. now apply Hinv.
Qed.

Lemma header_complete : complete_at address (with_index st i) t.
Proof.
  intros q bq. cbn [index with_index setBlockIndexCandidates]. rewrite Ei. intros Hq Hl Hu Hless.
  apply lookup_snoc_cases in Hq as [Hq|[-> ->]]; [|now destruct header_height as (_ & Hno & _)].
  destruct (active_iff address st t Hsel Ht) as [Hbt _]. rewrite header_less in Hless by eauto.
  apply (Hc q bq Hq Hl); [|done]. apply header_usable; eauto.
Qed.

Lemma header_inbox : inbox_ok (with_index st i) [].
Proof.
  destruct header_height as (Hh & Hno & Hd & Hf & Hun & Hi).
  assert (Hold : forall p bp, entries st !! p = Some bp -> (entries st ++ [b]) !! p = Some bp) by (intros; now apply lookup_old).
  split; cbn [index with_index mapBlocksUnlinked]; rewrite ?Ei.
  - intros p bp [Hp|[-> ->]]%lookup_snoc_cases Hl; [|done]. unfold tx_sum. rewrite header_sums by eauto. now apply (ib_linked _ _ Hin).
  - intros p bp [Hp|[-> ->]]%lookup_snoc_cases; [now apply (ib_tree _ _ Hin p)|done].
  - intros p bp [Hp|[-> ->]]%lookup_snoc_cases; [now apply (ib_txs _ _ Hin p)|]. destruct (nw_txs _ _ Hnew) as [-> _]. split; [done|congruence].
  - intros p bp [Hp|[-> ->]]%lookup_snoc_cases; [unfold tx_sum; rewrite header_sums by eauto; now apply (ib_bound _ _ Hin)|].
    destruct (nw_parent _ _ Hnew) as (q & bq & Hq & Hbq & _). pose proof (nw_entry _ _ Hnew) as He. unfold new_entry in He. rewrite Hq in He.
    destruct He as (bq' & Hbq' & Eh & _). rewrite Hbq in Hbq'. injection Hbq' as <-. pose proof (eo_height _ _ _ (so_store _ _ Hsel q bq Hbq)).
    unfold tx_sum. replace (Z.to_nat (nHeight b)) with (S (Z.to_nat (nHeight bq))) by lia. cbn [tx_total].
    rewrite lookup_snoc, Hq, header_sums by eauto. destruct (nw_txs _ _ Hnew) as [-> _]. exact (ib_bound _ _ Hin q bq Hbq).
  - intros e x He. destruct (ib_pairs _ _ Hin e x He) as (q' & bx & bq & -> & Hx & Hpx & Hwx & Hq' & Hlq). exists q', bx, bq. auto 10.
  - intros x Hx. now apply not_elem_of_nil in Hx.
  - apply (ib_once _ _ Hin).
  - intros x bx q bq [Hx|[-> ->]]%lookup_snoc_cases Hw Hq Hbq Hfq; [|unfold waits in Hw; destruct Hw; congruence].
    pose proof (eo_prev _ _ _ (so_store _ _ Hsel x bx Hx)) as Hprev. rewrite Hq in Hprev. destruct Hprev as (bq' & Hbq' & _).
    rewrite (Hold _ _ Hbq') in Hbq. injection Hbq as <-. exact (ib_waiting _ _ Hin x bx q bq' Hx Hw Hq Hbq' Hfq).
Qed.
End Header.

(** ** Runs of a node *)

Section Runs.
Context {C U : Type} `{Hops : TipOps C U} {root : nat} {c0 : C} `{!TipOpsSpec C U root c0}.
Variable address : nat -> Z.
Context (Haddr : forall p q, address p = address q -> p = q).
Abbreviation tree n := (entries (cs n)).
Abbreviation node := (node C U).
Abbreviation node_ok := (node_ok (root := root) (c0 := c0) address).
Abbreviation connects_to := (connects_to (root := root) (c0 := c0)).

Record run_ok (n : node) : Prop := {
  ro_node : node_ok n;
  ro_complete : complete address n;
  ro_inbox : inbox_ok (cs n) [];
  ro_index : index_ok (index (cs n)) }.

Lemma complete_at_tip (n : node) t : tip (cs n) = Some t -> complete address n <-> complete_at address (cs n) t.
Proof.
  intros Ht. split; intros H.
  - intros q b. now apply H.
  - intros t' q b Ht'. rewrite Ht in Ht'. injection Ht' as <-. apply H.
Qed.

(** Blocks whose ancestors are all there are linked: none is left waiting. *)
Lemma usable_linked (n : node) k : forall p b, run_ok n -> usable (tree n) p -> tree n !! p = Some b -> (Z.to_nat (nHeight b) <= k)%nat -> linked b.
Proof.
  induction k as [|k IH]; intros p b Hn Hu Hb Hk; pose proof (no_sel _ _ (ro_node _ Hn)) as Hsel;
    pose proof (eo_height _ _ _ (so_store _ _ Hsel p b Hb)) as Hh; [right; lia|].
  pose proof (eo_prev _ _ _ (so_store _ _ Hsel p b Hb)) as Hprev. destruct (pprev b) as [q|] eqn:Hq; [|now right].
  destruct Hprev as (bq & Hbq & Eh). pose proof (ro_inbox _ Hn) as Hin.
  assert (Huq : usable (tree n) q) by (apply (usable_up _ p 1 q Hu); [now apply (up_prev _ p b)|eauto]).
  pose proof (IH q bq Hn Huq Hbq ltac:(lia)) as Hlq. apply (linked_count _ _ p b Hin Hb). intros Hz.
  assert (Hw : waits b) by (split; [apply (proj2 Hu 0%nat p b eq_refl Hb)|now rewrite (linked_count _ _ p b Hin Hb)]).
  destruct (ib_waiting _ _ Hin p b q bq Hb Hw Hq Hbq) as [Hx|Hx]; [apply (proj2 Huq 0%nat q bq eq_refl Hbq)|now apply not_elem_of_nil in Hx|].
  destruct (ib_pairs _ _ Hin _ _ Hx) as (q' & b' & bq' & [= <-] & _ & _ & _ & Hbq' & Hno). congruence.
Qed.

(** *** The steps *)

Lemma header_run (n : node) b i : run_ok n -> new_header (tree n) b -> heap i = tree n ++ [b] -> index_ok i -> run_ok (with_cs n (with_index (cs n) i)).
Proof.
  intros [Hn Hc Hin _] Hnew Ei Hi. pose proof (no_sel _ _ Hn) as Hsel. destruct (no_tip _ _ Hn) as (t & bt & Ht & _).
  apply (complete_at_tip n t Ht) in Hc. destruct (header_height address (cs n) b Hsel Hnew) as (Hh & Hno & _ & _ & Hun & _).
  split.
  - apply node_ok_extends; cbn [index with_index]; rewrite ?Ei; try done.
    + now apply (header_sel address (cs n) b i t).
    + destruct (no_tree _ _ Hn) as [(br & Hbr & Hr) Hone Hwork Hfile]. destruct (nw_parent _ _ Hnew) as (q & bq & Hq & Hbq & Hgrow). split.
      * exists br. split; [now apply lookup_old|done].
      * intros p bp [Hp|[-> ->]]%lookup_snoc_cases Hpp; [now apply (Hone p bp)|congruence].
      * intros p bp r br' [Hp|[-> ->]]%lookup_snoc_cases Hpr Hbr'.
        -- pose proof (eo_prev _ _ _ (so_store _ _ Hsel p bp Hp)) as Hprev. rewrite Hpr in Hprev. destruct Hprev as (bx & Hbx & _).
           rewrite (lookup_old _ b _ _ Hbx) in Hbr'. injection Hbr' as <-. now apply (Hwork p bp r bx).
        -- rewrite Hq in Hpr. injection Hpr as <-. rewrite (lookup_old _ b _ _ Hbq) in Hbr'. now injection Hbr' as <-.
      * intros p bp [Hp|[-> ->]]%lookup_snoc_cases; [now apply (Hfile p)|apply Hnew].
    + apply header_extends.
    + intros q bq bq' Hq Hq'. rewrite (lookup_old _ b _ _ Hq) in Hq'. now injection Hq' as <-.
    + intros q bq Hq [Hq'|[-> ->]]%lookup_snoc_cases; [congruence|done].
  - apply (complete_at_tip (with_cs n (with_index (cs n) i)) t Ht). now apply (header_complete address (cs n) b).
  - now apply (header_inbox address (cs n) b).
  - exact Hi.
Qed.

(** Block [p] arrives, which is not there yet, with [k] transactions. *)
Record arrives (n : node) (p : nat) (k file : Z) : Prop := {
  ar_entry : exists b, tree n !! p = Some b /\ has_data b = false;
  ar_count : 0 < k;
  ar_file : file <> -1;
  ar_room : room (tree n) k }.

Lemma receive_run (n : node) p k file pos : run_ok n -> arrives n p k file ->
  exists st', ReceivedBlockTransactions address (cs n) p k file pos = Some st' /\ run_ok (with_cs n st') /\ chainActive st' = chainActive (cs n).
Proof.
  intros [Hn Hc Hin Hi] [(b & Hb & Hd) Hk Hfile Hroom]. pose proof (no_sel _ _ Hn) as Hsel. destruct (no_tip _ _ Hn) as (t & bt & Ht & Hbt & Hlt & _).
  apply (complete_at_tip n t Ht) in Hc. pose proof (no_tree _ _ Hn) as Htree.
  assert (Hun : no_undo b = true).
  { destruct (no_undo b) eqn:E; [done|]. destruct (no_undo_there _ _ Hn p b Hb E) as [u Hu].
    destruct (no_undo_keys _ _ Hn p u Hu) as (b' & Hb' & Hd'). congruence. }
  assert (Hbit : Z.testbit (nStatus b) 4 = false).
  { unfold no_undo, GetUndoPos in Hun. rewrite (flag_bit _ BLOCK_HAVE_UNDO 4) in Hun by done. destruct (Z.testbit (nStatus b) 4); [|done].
    cbn in Hun. pose proof (tr_file _ Htree p b Hb). lia. }
  destruct (ReceivedBlockTransactions_spec address Haddr (cs n) p k file pos t bt b Hsel Hin Hc Ht Hbt Hlt Hb Hd Hbit Hk Hroom)
    as (st' & Erec & Hsel' & Hin' & Hc' & Hrec).
  pose proof (index_kept_ok _ _ (kept_receive address _ _ _ _ _ _ Erec) Hi) as Hi'. exists st'. split; [done|]. destruct Hrec as [Hshape Hkept Hblock Hact].
  assert (Ht' : tip st' = Some t) by (unfold tip; now rewrite Hact).
  split; [|done]. split; [|now apply (complete_at_tip (with_cs n st') t Ht')|done|done]. apply node_ok_extends; try done.
  - destruct Htree as [(br & Hbr & Hr) Hone Hwork Hfiles]. split.
    + destruct (same_shape_lookup _ _ Hshape root br Hbr) as (br' & Hbr' & Ep & _). exists br'. split; [done|congruence].
    + intros x bx Hx Hpx. destruct (same_shape_back _ _ x bx Hshape Hx) as (b0 & Hb0 & Ep & _). apply (Hone x b0); congruence.
    + intros x bx q bq Hx Hpx Hq. destruct (same_shape_back _ _ x bx Hshape Hx) as (b0 & Hb0 & Ep & _ & _ & ->).
      destruct (same_shape_back _ _ q bq Hshape Hq) as (bq0 & Hbq0 & _ & _ & _ & ->). apply (Hwork x b0 q bq0); congruence.
    + intros x bx Hx. destruct (same_shape_back _ _ x bx Hshape Hx) as (b0 & Hb0 & _). destruct (decide (x = p)) as [->|Hne].
      * destruct (Hblock b0 bx Hb0 Hx) as (_ & _ & _ & ->). done.
      * destruct (Hkept x b0 bx Hne Hb0 Hx) as (_ & _ & _ & -> & _). now apply (Hfiles x).
  - intros x bx. apply same_shape_lookup, Hshape.
  - intros x bx bx' Hx Hx'. destruct (decide (x = p)) as [->|Hne].
    + rewrite Hb in Hx. injection Hx as <-. destruct (Hblock b bx' Hb Hx') as (E & _ & E2 & _). split; [congruence|]. split; [|done].
      intros Hl. destruct (ib_linked _ _ Hin p b Hb Hl). congruence.
    + destruct (Hkept x bx bx' Hne Hx Hx') as (E1 & _ & E3 & _ & E5). split; [done|]. split; [done|congruence].
  - intros x bx Hx Hx'. destruct (same_shape_back _ _ x bx Hshape Hx') as (b0 & Hb0 & _). congruence.
Qed.

Lemma same_block_txs b b' : same_block b b' -> nTx b' = nTx b.
Proof. destruct b, b'. now intros [= ]. Qed.

Lemma inbox_evolves st st' : evolves (entries st) (entries st') -> mapBlocksUnlinked st' = mapBlocksUnlinked st -> inbox_ok st [] -> inbox_ok st' [].
Proof.
  intros [Ht Hf] Eu Hin.
  assert (Hback : forall x bx, entries st' !! x = Some bx -> exists b0, entries st !! x = Some b0 /\ same_block b0 bx /\ nTx bx = nTx b0 /\
    (linked bx <-> linked b0) /\ has_data bx = has_data b0 /\ (failed b0 = true -> failed bx = true) /\ (in_tree b0 -> in_tree bx)).
  { intros x bx Hx. destruct (same_tree_lookup _ _ x bx (symmetry Ht) Hx) as (b0 & Hb0 & Hs). symmetry in Hs. exists b0.
    destruct (Hf x b0 bx Hb0 Hx) as (? & ? & ?). pose proof (same_block_linked b0 bx Hs). pose proof (same_block_txs b0 bx Hs). tauto. }
  assert (Hsum : forall n x, tx_total n (entries st') x = tx_total n (entries st) x).
  { apply tx_total_ext. intros x. destruct (Ht x) as [b0 bx Hs|]; [|done]. split; [now apply same_block_txs|].
    now destruct (same_block_fields _ _ Hs) as (-> & _). }
  assert (Hwaits : forall b0 bx, (linked bx <-> linked b0) -> has_data bx = has_data b0 -> waits bx <-> waits b0) by (unfold waits; intros b0 bx -> ->; done).
  split; rewrite ?Eu.
  - intros x bx Hx Hl. destruct (Hback x bx Hx) as (b0 & Hb0 & Hs & _ & Hlk & Ed & _). destruct (same_block_fields _ _ Hs) as (_ & _ & Eh & _ & _ & En).
    destruct (ib_linked _ _ Hin x b0 Hb0 ltac:(tauto)) as [H1 H2]. unfold tx_sum in *. rewrite Ed, En, Eh, Hsum. done.
  - intros x bx Hx. destruct (Hback x bx Hx) as (b0 & Hb0 & _ & _ & _ & _ & _ & Hi). now apply Hi, (ib_tree _ _ Hin x).
  - intros x bx Hx. destruct (Hback x bx Hx) as (b0 & Hb0 & _ & -> & _ & -> & _). now apply (ib_txs _ _ Hin x).
  - intros x bx Hx. destruct (Hback x bx Hx) as (b0 & Hb0 & Hs & _). destruct (same_block_fields _ _ Hs) as (_ & _ & Eh & _).
    unfold tx_sum. rewrite Eh, Hsum. now apply (ib_bound _ _ Hin x).
  - intros e x He. destruct (ib_pairs _ _ Hin e x He) as (q & b0 & bq0 & -> & Hb0 & Hq & Hw & Hbq0 & Hno).
    destruct (same_tree_lookup _ _ x b0 Ht Hb0) as (bx & Hbx & Hs), (same_tree_lookup _ _ q bq0 Ht Hbq0) as (bq & Hbq & Hsq).
    exists q, bx, bq. destruct (Hback x bx Hbx) as (b1 & Hb1 & _ & _ & Hlk & Ed & _). rewrite Hb0 in Hb1. injection Hb1 as <-.
    split; [done|]. split; [done|]. split; [now destruct (same_block_fields _ _ Hs) as (-> & _)|]. split; [now apply (Hwaits b0 bx)|].
    split; [done|]. now rewrite (same_block_linked bq0 bq Hsq).
  - intros x Hx. now apply not_elem_of_nil in Hx.
  - apply (ib_once _ _ Hin).
  - intros x bx q bq Hbx Hw Hq Hbq Hfq. destruct (Hback x bx Hbx) as (b0 & Hb0 & Hs & _ & Hlk & Ed & _), (Hback q bq Hbq) as (bq0 & Hbq0 & _ & _ & _ & _ & Hfl & _).
    destruct (same_block_fields _ _ Hs) as (Ep & _). apply (ib_waiting _ _ Hin x b0 q bq0 Hb0); [now apply (Hwaits b0 bx)|congruence|done|].
    destruct (failed bq0); [|done]. now rewrite Hfl in Hfq.
Qed.

Lemma activate_run (n n' : node) : run_ok n -> ActivateBestChain address n = Some (true, n') ->
  settled (root := root) (c0 := c0) address n n' -> run_ok n'.
Proof.
  intros [Hn Hc Hin Hi] E Hs. pose proof (se_lasting _ _ _ Hs) as Hl.
  split; [apply (se_node _ _ _ Hs)|now apply (settled_complete (root := root) (c0 := c0) address Haddr n)| |].
  2: exact (index_kept_ok _ _ (kept_ActivateBestChain address n n' true E) Hi).
  apply (inbox_evolves (cs n)); [apply (la_evolves _ _ Hl)| |done]. apply (la_unlinked _ _ Hl).
  intros p b Hb Hlk. now apply (ib_linked _ _ Hin p b).
Qed.

Lemma ActivateBestChain_run (n n' : node) : run_ok n -> ActivateBestChain address n = Some (true, n') -> run_ok n'.
Proof.
  intros Hn E. destruct (ActivateBestChain_settled (root := root) (c0 := c0) address Haddr n (ro_node _ Hn) (ro_complete _ Hn))
    as (ok & n1 & E1 & H). rewrite E in E1. injection E1 as <- <-. now apply (activate_run n n').
Qed.

(** The hash of a header, for the index. *)
Variable GetHash : CBlockHeader -> list Z.

(** What happens to a node: a header is added, a block arrives (before or after the blocks it needs),
    the best chain is activated. *)
Inductive node_step : node -> node -> Prop :=
  | step_header n block i p : header_ok GetHash (index (cs n)) block -> AddToBlockIndex GetHash block (index (cs n)) = Some (i, p) ->
      node_step n (with_cs n (with_index (cs n) i))
  | step_block n p k file pos st' : arrives n p k file -> ReceivedBlockTransactions address (cs n) p k file pos = Some st' ->
      node_step n (with_cs n st')
  | step_activate n n' : ActivateBestChain address n = Some (true, n') -> node_step n n'.

Lemma node_step_ok n n' : node_step n n' -> run_ok n -> run_ok n'.
Proof.
  intros [m block i p Hb Ei|m p k file pos st' Ha E|m m' E] Hn.
  - destruct (AddToBlockIndex_new_header GetHash block _ (ro_index _ Hn) Hb) as (i1 & p1 & E1 & Hi & H). rewrite Ei in E1. injection E1 as <- _.
    destruct H as [->|(b & Eh & Hnew)]; [|now apply (header_run m b)]. now destruct m as [[] ? ?].
  - destruct (receive_run m p k file pos Hn Ha) as (st1 & E1 & H & _). rewrite E in E1. now injection E1 as ->.
  - now apply (ActivateBestChain_run m).
Qed.

Lemma node_steps_ok n n' : rtc node_step n n' -> run_ok n -> run_ok n'.
Proof. induction 1 as [n|n n1 n2 H _ IH]; [done|]. intros Hn. now apply IH, (node_step_ok n). Qed.

(** C24. A block is taken up in any state that a node can reach, whatever order the blocks arrive in: what is
    known of the blocks stays right, and every block whose ancestors are all there becomes a candidate
    if it is better than the tip. *)
Theorem ReceivedBlockTransactions_correct (n0 n : node) p k file pos : run_ok n0 -> rtc node_step n0 n -> arrives n p k file ->
  exists st', ReceivedBlockTransactions address (cs n) p k file pos = Some st' /\ run_ok (with_cs n st') /\
    chainActive st' = chainActive (cs n) /\
    forall q b, usable (entries st') q -> entries st' !! q = Some b -> linked b /\
      nChainTx b = tx_sum (entries st') q b /\
      forall t, tip st' = Some t -> work_less address (entries st') q t = false -> q ∈ setBlockIndexCandidates st'.
Proof.
  intros Hn0 Hsteps Ha. pose proof (node_steps_ok _ _ Hsteps Hn0) as Hn.
  destruct (receive_run n p k file pos Hn Ha) as (st' & E & Hn' & Eact). exists st'.
  do 3 (split; [done|]).
  intros q b Hu Hb. pose proof (usable_linked (with_cs n st') (Z.to_nat (nHeight b)) q b Hn' Hu Hb (le_n _)) as Hl.
  split; [exact Hl|]. split; [now apply (ib_linked _ _ (ro_inbox _ Hn') q b)|]. intros t Ht Hless.
  now apply (ro_complete _ Hn' t q b).
Qed.

(** C5. A node that has received headers and blocks in any order, and activated the best chain at any times,
    ends with the best block as its tip when it activates the best chain again (or stops with a system
    error): all the blocks up to it are there and connect, and of all blocks that are there with their
    ancestors and connect, it has the most work. *)
Theorem node_follows_best_chain (n0 n : node) : run_ok n0 -> rtc node_step n0 n ->
  exists ok n', ActivateBestChain address n = Some (ok, n') /\
    if ok : bool then
      run_ok n' /\ exists t, tip (cs n') = Some t /\ usable (tree n) t /\ connects_to (tree n) t (coins_tip n') /\
        forall q c, usable (tree n) q -> connects_to (tree n) q c -> q = t \/ work_less address (tree n) q t = true
    else system_error (C := C) (U := U).
Proof.
  intros Hn0 Hsteps. pose proof (node_steps_ok _ _ Hsteps Hn0) as Hn.
  destruct (ActivateBestChain_settled (root := root) (c0 := c0) address Haddr n (ro_node _ Hn) (ro_complete _ Hn)) as (ok & n' & E & H).
  exists ok, n'. split; [exact E|]. destruct ok; [|exact H]. split; [now apply (activate_run n n')|].
  destruct (settled_best (root := root) (c0 := c0) address Haddr n n' H) as (t & Ht & Hu & Hc & Hbest). exists t. do 3 (split; [done|]).
  intros q c Huq Hq. destruct (proj1 Huq) as [b Hb]. apply (Hbest q b c Hb); [|done|done].
  now apply (usable_linked n (Z.to_nat (nHeight b)) q b).
Qed.
End Runs.

(** ** A concrete node *)

(** Blocks 1 and 2 follow the genesis block 0, blocks 3 and 4 are another branch with more work; block 3 has
    not arrived, and block 4, which has, waits for it. *)
Definition some_block (hash : Z) (prev : ptr) (height work bits tx chain status seq : Z) : CBlockIndex :=
  mk_index (Some (replicate 32 hash)) prev None height 0 0 0 [work; 0; 0; 0; 0; 0; 0; 0] tx chain status 1 (replicate 32 0) 0 bits 0 seq.
Definition waiting_tree : store :=
  [some_block 1 None 0 2 0x207fffff 1 1 11 1; some_block 2 (Some 0%nat) 1 4 0x207fffff 1 2 11 2;
   some_block 3 (Some 1%nat) 2 6 0x207fffff 1 3 11 3; some_block 4 (Some 0%nat) 1 4 0x207fffff 0 0 2 0;
   some_block 5 (Some 3%nat) 2 8 0x203fffff 1 0 11 0].
Definition waiting_map : gmap (list Z) nat :=
  {[ replicate 32 1 := 0%nat; replicate 32 2 := 1%nat; replicate 32 3 := 2%nat; replicate 32 4 := 3%nat; replicate 32 5 := 4%nat ]}.
Definition waiting_select : chainstate :=
  mk_chainstate (mk_state waiting_tree waiting_map (Some 4%nat) ∅) [0; 1; 2]%nat [Some 0%nat] None [(Some 3%nat, 4%nat)] 4.
Definition waiting_node : node (list nat) nat := mk_node waiting_select [] ∅.

Lemma waiting_blocks (P : nat -> CBlockIndex -> Prop) :
  (forall p, (p < 5)%nat -> from_option (P p) True (waiting_tree !! p)) -> forall p b, waiting_tree !! p = Some b -> P p b.
Proof. intros H p b Hb. assert (Hp : (p < 5)%nat) by exact (lookup_lt_Some _ _ _ Hb). specialize (H p Hp). now rewrite Hb in H. Qed.

Ltac waiting_cases := let p := fresh "p" in let Hp := fresh "Hp" in refine (waiting_blocks _ _); intros p Hp;
  destruct p as [|[|[|[|[|p]]]]]; [| | | | |lia]; clear Hp; cbn [waiting_tree lookup list_lookup from_option].

Lemma waiting_select_ok : sel_ok Z.of_nat waiting_select.
Proof.
  split; cbn [waiting_select index heap chainActive setBlockIndexCandidates pindexBestInvalid].
  - intros p b Hb. revert p b Hb. waiting_cases; (split; cbn; [lia| |done]); eauto.
  - intros p b Hb. revert p b Hb. waiting_cases; (split; [by_eval|reflexivity]).
  - right. eexists 0%nat, _. split; reflexivity.
  - intros p b Hin Hb. revert p b Hb Hin. waiting_cases; try (intros H; vm_compute in H; discriminate H).
    intros _. split; reflexivity.
  - unfold sorted. repeat constructor.
  - unfold valid_ptrs. repeat constructor; eauto.
  - intros p b Hp Hb. revert p b Hb Hp. waiting_cases; rewrite !elem_of_cons, elem_of_nil; intros Hp; (left; cbn; lia).
  - intros p b q bq Hb. revert p b Hb. waiting_cases; cbn; (intros [= <-] || done); cbn; intros [= <-] Hl;
      destruct Hl as [Hl|Hl]; try done; (right; reflexivity) || (left; done).
  - discriminate.
Qed.

Lemma waiting_index_ok : index_ok (index waiting_select).
Proof.
  split; cbn [waiting_select index heap mapBlockIndex pindexBestHeader].
  - apply waiting_select_ok.
  - intros p b Hb. revert p b Hb. waiting_cases; by_eval.
  - intros p b Hb. revert p b Hb. waiting_cases; (eexists; split; [reflexivity|vm_compute; reflexivity]).
  - intros h p. unfold waiting_map. intros Hp.
    repeat (apply lookup_insert_Some in Hp as [[<- <-]|[_ Hp]]; [eexists; split; reflexivity|]).
    apply lookup_singleton_Some in Hp as [<- <-]. eexists. split; reflexivity.
  - intros p b Hb. revert p b Hb. waiting_cases; (split; [split; [by_eval|reflexivity]|vm_compute; reflexivity]).
  - eexists. split; [reflexivity|]. intros p b Hb. revert p b Hb. waiting_cases; vm_compute; discriminate.
Qed.

Lemma waiting_node_ok : run_ok (root := 0%nat) (c0 := []) Z.of_nat waiting_node.
Proof.
  split; [split| |split|exact waiting_index_ok]; cbn [waiting_node cs coins_tip undo_files waiting_select index heap chainActive setBlockIndexCandidates mapBlocksUnlinked].
  - apply waiting_select_ok.
  - split.
    + eexists. split; reflexivity.
    + intros p b Hb. revert p b Hb. waiting_cases; done.
    + intros p b q bq Hb. revert p b Hb. waiting_cases; cbn; (intros [= <-] || done); cbn; intros [= <-]; reflexivity.
    + intros p b Hb. revert p b Hb. waiting_cases; done.
  - eexists _, _. split; [reflexivity|]. split; [reflexivity|]. split; [now right|constructor].
  - done.
  - done.
  - intros p b Hb. revert p b Hb. waiting_cases; discriminate.
  - intros p b Hin Hb. revert p b Hb Hin. waiting_cases; (done || intros H; vm_compute in H; discriminate H).
  - intros t q b _ Hb Hl _ _. revert q b Hb Hl. waiting_cases; cbn [waiting_node cs waiting_select setBlockIndexCandidates];
      rewrite !elem_of_cons; (tauto || (intros [Hl|Hl]; cbn in Hl; done)).
  - intros p b Hb. revert p b Hb. waiting_cases; (intros [Hl|Hl]; cbn in Hl; done) || (intros _; split; reflexivity).
  - intros p b Hb. revert p b Hb. waiting_cases; done.
  - intros p b Hb. revert p b Hb. waiting_cases; (split; [done|]; intros H; reflexivity || discriminate H).
  - intros p b Hb. revert p b Hb. waiting_cases; reflexivity.
  - intros q x [= -> ->]%list_elem_of_singleton. eexists _, _, _. do 3 (split; [reflexivity|]). split; [split; [reflexivity|]|].
    + intros [Hl|Hl]; cbn in Hl; done.
    + split; [reflexivity|]. intros [Hl|Hl]; cbn in Hl; done.
  - intros x Hx. now apply not_elem_of_nil in Hx.
  - apply NoDup_singleton.
  - intros x b q bq Hb [Hd Hl]. revert x b Hb Hd Hl. waiting_cases; intros Hd Hl; try (exfalso; apply Hl; (left; cbn; lia) || (right; reflexivity));
      try discriminate Hd. intros [= <-] _ _. right. now left.
Qed.

Lemma waiting_arrives : arrives waiting_node 3 1 0.
Proof. split; [eexists; split; reflexivity|lia|done|]. intros x bx Hx. revert x bx Hx. waiting_cases; reflexivity. Qed.

(** Block 3 arrives: blocks 3 and 4 become candidates. *)
Example waiting_received :
  setBlockIndexCandidates <$> ReceivedBlockTransactions Z.of_nat waiting_select 3 1 0 500 = Some [0; 3; 1; 2; 4]%nat.
Proof. vm_compute. reflexivity. Qed.

Definition some_hash (block : CBlockHeader) : list Z := PowHash.hashMerkleRoot block.

Lemma ReceivedBlockTransactions_correct_witness :
  exists st', ReceivedBlockTransactions Z.of_nat waiting_select 3 1 0 500 = Some st' /\
    run_ok (root := 0%nat) (c0 := []) Z.of_nat (with_cs waiting_node st') /\ chainActive st' = [Some 0%nat] /\
    forall q b, usable (entries st') q -> entries st' !! q = Some b -> linked b /\
      nChainTx b = tx_sum (entries st') q b /\
      forall t, tip st' = Some t -> work_less Z.of_nat (entries st') q t = false -> q ∈ setBlockIndexCandidates st'.
Proof.
  exact (ReceivedBlockTransactions_correct Z.of_nat Nat2Z.inj some_hash waiting_node waiting_node 3 1 0 500 waiting_node_ok (rtc_refl _ _) waiting_arrives).
Defined.

(** The node after block 3. *)
Definition received_select : chainstate := default waiting_select (ReceivedBlockTransactions Z.of_nat waiting_select 3 1 0 500).
Definition complete_node : node (list nat) nat := with_cs waiting_node received_select.

Lemma complete_received : ReceivedBlockTransactions Z.of_nat waiting_select 3 1 0 500 = Some received_select.
Proof. vm_compute. reflexivity. Qed.

Example complete_activate :
  (fun r => (r.1, tip (cs r.2), coins_tip r.2)) <$> ActivateBestChain Z.of_nat complete_node = Some (true, Some 2%nat, [2; 1]%nat).
Proof. vm_compute. reflexivity. Qed.

Lemma complete_step : node_step Z.of_nat some_hash waiting_node complete_node.
Proof. exact (step_block Z.of_nat some_hash waiting_node 3 1 0 500 received_select waiting_arrives complete_received). Qed.

(** Then a header follows, whose block does not arrive. *)
Definition next_header : CBlockHeader := PowHash.mk_header 1 (replicate 32 5) (replicate 32 6) 0 0x207fffff 0.
Definition header_index : index_state := default (index received_select) (fst <$> AddToBlockIndex some_hash next_header (index received_select)).
Definition header_node : node (list nat) nat := with_cs complete_node (with_index (cs complete_node) header_index).

Lemma next_header_ok : header_ok some_hash (index (cs complete_node)) next_header.
Proof.
  split; [split; [by_eval|by_eval|discriminate]| |reflexivity]. exists 4%nat. eexists. split; [vm_compute; reflexivity|].
  split; [vm_compute; reflexivity|reflexivity].
Qed.

Lemma header_added : AddToBlockIndex some_hash next_header (index (cs complete_node)) = Some (header_index, 5%nat).
Proof. vm_compute. reflexivity. Qed.

Lemma header_steps : rtc (node_step Z.of_nat some_hash) waiting_node header_node.
Proof.
  apply (rtc_l _ _ complete_node); [exact complete_step|]. apply rtc_once.
  exact (step_header Z.of_nat some_hash complete_node next_header header_index 5%nat next_header_ok header_added).
Qed.

Lemma node_follows_best_chain_witness :
  exists ok n', ActivateBestChain Z.of_nat header_node = Some (ok, n') /\
    if ok : bool then
      run_ok (root := 0%nat) (c0 := []) Z.of_nat n' /\ exists t, tip (cs n') = Some t /\ usable (entries (cs header_node)) t /\
        connects_to (root := 0%nat) (c0 := []) (entries (cs header_node)) t (coins_tip n') /\
        forall q c, usable (entries (cs header_node)) q ->
          connects_to (root := 0%nat) (c0 := []) (entries (cs header_node)) q c ->
          q = t \/ work_less Z.of_nat (entries (cs header_node)) q t = true
    else system_error (C := list nat) (U := nat).
Proof.
  exact (node_follows_best_chain Z.of_nat Nat2Z.inj some_hash waiting_node header_node waiting_node_ok header_steps).
Defined.
